(* ===== verification/_CoqProject ===== *)
-Q . S2P
Prelude.v
GoTime.v
Bytes.v
Sha256.v
GoSort.v
Ledger.v
LedgerChain.v
LedgerStore.v
LedgerReload.v
ContribQuota.v
GlobalPool.v
PublicQuota.v
QuotaPools.v
Governance.v
GovernanceSafety.v
Tickets.v
Dht.v
TrustPool.v
TrustMerge.v
TrustSafety.v
UdpBearer.v
GuestKeys.v
GuestQuota.v
AlgoGovernance.v
Providers.v
KeyPool.v
Registry.v
Routing.v
RoutingSafety.v
Chat.v
ChatSafety.v
Users.v
UsersSafety.v
LedgerSync.v
DnsCodec.v
LanAnnounce.v
NetIP.v
LanSafety.v
RouteTable.v
RouteSafety.v
Relay.v
RelaySafety.v
Network.v
NetworkSafety.v
Passthrough.v
Gateway.v
GatewaySafety.v
Auth.v
AuthSafety.v
ProxyAuth.v
RateLimit.v
Waf.v
MasterKey.v
Identity.v
NodeWeight.v
Update.v
UpdateSafety.v
DhtWire.v
DhtWireSafety.v
Reputation.v
ReputationSafety.v
PeerProbe.v
Gossip.v
GossipSafety.v
NetworkQuota.v
Invite.v
Integrity.v
Balance.v
Region.v
RegionSafety.v
LoadBalancer.v
Message.v
Usage.v
Metrics.v
Config.v
Events.v
Seed.v
FreePool.v
Health.v
AdminProviders.v
