(* ===== verification/Prelude.v ===== *)
(** * OpenModelPool: verification library (root file)

    OpenModelPool is a node of a federation that shares access to language models. A node holds
    the API keys of its owner's providers, serves an API under /v1 to its owner, to registered
    consumers, to holders of guest keys and to anonymous users with the public key, and, when the
    owner joins the shared network, forwards requests to other nodes and serves theirs. The nodes
    account for what they give and take in a contribution ledger, vote on proposals, discover each
    other by gossip, a Kademlia DHT and multicast DNS, and keep a pool of trusted nodes.

    This library models the Go code of the repository as pure functions on explicit states, and
    proves what makes the parts correct, what the program guarantees when they work together, and, in
    the examples at the end of many files, where a guarantee stops. Definitions keep the names of
    the source; a field name that several types share has a short prefix.

    ** How a request travels

    middleware.go and waf.go decide who a request comes from and whether it may go on ([Waf], [RateLimit],
    [ProxyAuth], [Users], [Auth]); network_relay.go forwards it to another node or keeps it ([Gateway],
    [Relay], [RouteTable]); handlers.go and openai_passthrough.go reserve quota, try the providers in order
    and settle ([Chat], [Passthrough], over [Routing], [Providers], [GuestKeys], [PublicQuota], [QuotaPools]);
    what was given is credited in the ledger ([Ledger], [ContribQuota], [GlobalPool]). Beside the requests run
    the federation ([TrustPool], [DhtWire], [LanAnnounce], [LedgerSync], [Reputation], [PeerProbe]), the votes
    ([Governance], [AlgoGovernance], [Tickets]) and the node's own affairs ([Identity], [MasterKey], [Update]).

    ** The files

    Foundations.
    - [Prelude]: Go's integers as [Z] with [wrap64] after each operation, floats as [SpecFloat] at 53 bits,
      errors ([res]), [find_key], comparison of strings, sums, and the tactics and hints the files share.
    - [GoTime]: instants (nanoseconds), the calendar, the formats of [Time.Format] and RFC 3339 parsing.
    - [Bytes]: bytes and strings, splitting and joining, base64 and its round trip.
    - [Sha256]: SHA-256 and hexadecimal. [GoSort]: [sort.SliceStable].

    Accounts.
    - [Ledger] (contribution_ledger.go): records, the hash chain of transactions, daily counters, gossip merge,
      JSON and bbolt files. [LedgerChain]: the chain always verifies, its numbers count up, also over restarts from the
      JSON file, and it is tamper evident; balances are the sums of the chain. [LedgerStore]: counters, save and load,
      incremental saves equal full ones under any failures; overlapping saves may not. [LedgerReload]: reading bbolt
      back in key order breaks the chain; in a merge the first writer wins; honours.
    - [LedgerSync] (ledger_redundancy.go, ledger_replication.go): manifests and healing from a peer.
    - [ContribQuota] (ledger_contrib_quota.go, ledger_quota_consume.go): entitlement one to one with donations.
    - [GlobalPool], [PublicQuota] (network_global_pool.go): no over-issue; the four quota layers of the public key.
      [NetworkQuota] (network_quota.go): the views of quotas over the network and their bounded cache.
    - [QuotaPools] (credits.go, quota_priority.go): the split of resources, first-fit deduction.
    - [GuestKeys], [GuestQuota] (network_keys.go): the life of a guest key; its windows are never exceeded.

    Votes.
    - [Governance], [GovernanceSafety] (governance.go): the invariant of all reachable ledgers, saves and
      restarts included, the two-thirds rule.
    - [AlgoGovernance] (algorithm_governance.go, algorithm_chain.go): the event log replays to the state.
    - [Tickets] (ticket.go): no double spend within a day.

    Federation.
    - [TrustPool], [TrustMerge], [TrustSafety] (federation.go): merging as a decision per node; removal sticks
      while its marker lives; keys are anchors. [Dht] (dht_kademlia.go): the Kademlia invariant, nearest neighbours.
    - [DhtWire], [DhtWireSafety] (dht_wire_auth.go, dht_networking.go, dht_udp.go): one key per node, whose
      signature brings an address, lookups end, refresh keeps the living.
    - [DnsCodec], [LanAnnounce], [LanSafety] (lan_discovery.go): the decoder never panics and inverts the encoder; an
      announcement is understood; a verified peer is authentic.
    - [UdpBearer] (udp_bearer.go): fragmentation round trip, whatever order, repetition and interleaving of fragments.
    - [RouteTable], [RouteSafety] (network.go, node_registry.go), [Network], [NetworkSafety] (network.go): ranking,
      exclusion, culling, coherence of the levels of participation.
    - [Gossip], [GossipSafety] (gossip.go, federation.go): rounds, announcements, hints of addresses, requests of
      federation members: the providers listed for a node converge to what it shares; gossip changes only its sender.
    - [Region], [RegionSafety] (network_region_impl.go, region_geo.go, region_sync.go, handlers_missing.go): the lookup
      of countries within its budget, whose word on a region counts, departed nodes age out, heartbeats.
    - [Balance] (network_balance.go), [LoadBalancer] (network_loadbalancer.go): cycles are computed from the records;
      scores, selection, what the measurements keep.
    - [Message] (message.go): what is in the boxes is authentic; a message sent is taken where it goes.
    - [Reputation], [ReputationSafety] (reputation.go), [PeerProbe] (peer_capability_probe.go), [NodeWeight]
      (node_weight.go): whose scores count, removal takes a week, probes are safe and spaced, weights are approved.

    Requests.
    - [Providers], [KeyPool], [Registry] (provider.go): key selection and rotation; listings, file and view agree, the
      steps of overlapping saves interleaved. [AdminProviders] (admin_providers.go): the owner's console over the
      registry. [FreePool] (free_pool.go): the community services. [Health] (health.go): what the checks conclude.
    - [Routing], [RoutingSafety] (provider.go, pricing_impl.go): candidates, their order, the breaker.
    - [Chat], [ChatSafety] (handlers.go), [Passthrough] (openai_passthrough.go): only authorised
      providers are called; a request costs what it used, on every way out; the models named coze-... are the exception.
    - [Relay], [RelaySafety], [Gateway], [GatewaySafety] (network_relay.go): a forward is accepted once, forwarding
      ends, nodes forwarded to are safe (but not where they redirect to), metering across the gateway. [NetIP]
      (network_relay.go, client.go): which addresses and hosts are not public.
    - [Usage] (tracker.go, admin_usage.go), [Metrics] (metrics.go, conn_tracker.go): the records of calls, their
      counters and their files.

    Access and the node itself.
    - [Users], [UsersSafety] (multiuser.go): authentication is exact, invitations are bounded. [Invite] (genesis.go,
      invite.go, handlers.go): invitations between nodes verify until they expire.
    - [Auth], [AuthSafety] (auth.go and the admin handlers): who may change the password; the life of a session.
    - [ProxyAuth] (middleware.go): full access is earned. [RateLimit] (ratelimit.go): bursts, isolation of clients.
      [Waf] (waf.go): the verdict is exact, the log is the last refusals.
    - [MasterKey] (encryptor.go, secret_backend.go): the key is kept. [Identity] (node.go): keys, names, signatures,
      base58, mnemonic. [Integrity] (data_integrity.go): the sealed data files. [Config] (config.go,
      admin.go): the settings and their writer. [Events] (eventbus.go, audit.go): the audit log. [Seed]
      (network_seed.go): addresses and registrations of seed nodes. [Update],
      [UpdateSafety] (update.go): only verified programs are installed, a start settles.

    Each [X] holds data and operations; [XSafety] (or the rest of the same file) holds the histories of those
    operations (a datatype of operations, [exec] and [run], restarts included where the code persists),
    the invariants proved by induction on them, and the theorems.

    ** What is an argument

    Everything outside the repository: what the network and the upstreams answer, the clock readings, random draws
    (new where a theorem says so), the order in which Go walks a map, JSON encodings, [url.Parse], [net.ParseIP],
    the lookup of host names, [strconv.ParseFloat], and cryptography: Ed25519, HMAC-SHA512, bcrypt, JWT and AES-GCM are functions with their
    documented laws (a signature verifies under its key, an opened seal is what was sealed, a token is
    read back until it expires). Each theorem with such a law has a witness with a concrete function for it. The law the
    components assume of the encryption of stored fields (the class [Encryptor] of [Providers]) is proved of the
    program's own encryptor in [MasterKey]. Writing a file succeeds unless the model says otherwise; a crash
    is a restart from the last file written. Operations run one at a time, as the mutexes of the source make them;
    where the source lets go of its lock between steps the steps are separate ([Registry], [LedgerStore], [Config],
    [Usage]), or the order is an argument. [SyncModels] alone fetches and changes in one step. The histories of the
    ledger, the votes, the registry, the network settings, the identity, the users and the reputations have
    restarts, which fall back to what was last written; what a restart loses or breaks is shown beside them.

    ** Fuel and bounds

    Loops of the source are structural where a list is consumed. The others carry the bound of the source or a
    proved one: a name in the DNS decoder (at most 64 labels and jumps, as the source counts them), rounds of a DHT
    lookup (at most one per queried node, 256), base58 (two digits per byte, shown enough by
    [base58_encode_spec]), hops of a forward (3), download attempts (3), candidates of a
    request (the list). No theorem has the form: if it returns.

    ** Not modelled

    Sockets, HTTP plumbing, pages and logs; NAT traversal, tunnels and the browser-like TLS client; the
    translation of foreign APIs (Anthropic, Gemini, Azure, Coze, Sider; who may call them and what a call costs is in [Chat]); adapters that scrape platforms; the start-up
    and the background loops, whose bodies are modelled where they change state: these are made of what other
    programs answer. Goroutines that race without a lock are not modelled as such: two updates
    of the program at a time share a file and a hash in update.go, one update at a time is what [Update] models. *)

From Stdlib Require Export ZArith Lia Ascii.
From Stdlib Require SpecFloat.
From stdpp Require Export base tactics gmap strings list fin_maps sorting pretty.

#[global] Open Scope Z_scope.

(** ** Machine integers

    Go's [int64] (and [int], which is 64 bits wide on every platform the
    program is built for) is a [Z] in the two's complement range; every
    arithmetic operation of the source is followed by [wrap64]. *)

Definition int64_min : Z := - 2 ^ 63.
Definition int64_max : Z := 2 ^ 63 - 1.

Definition wrap64 (z : Z) : Z := (z + 2 ^ 63) mod 2 ^ 64 - 2 ^ 63.

Definition is_int64 (z : Z) : Prop := - 2 ^ 63 ≤ z < 2 ^ 63.

#[export] Instance is_int64_dec z : Decision (is_int64 z).
Proof. unfold is_int64. apply _. Defined.

(** Unsigned integers of [w] bits. *)
Definition wrapu (w : Z) (z : Z) : Z := z mod 2 ^ w.

Declare Scope go_scope.
Delimit Scope go_scope with go.
Notation "a +! b" := (wrap64 (a + b)) (at level 50, left associativity) : go_scope.
Notation "a -! b" := (wrap64 (a - b)) (at level 50, left associativity) : go_scope.
#[global] Open Scope go_scope.

Lemma wrap64_range z : is_int64 (wrap64 z).
Proof.
  unfold is_int64, wrap64.
  pose proof (Z.mod_pos_bound (z + 2 ^ 63) (2 ^ 64) ltac:(lia)). lia.
Qed.

Lemma wrap64_id z : is_int64 z → wrap64 z = z.
Proof. unfold is_int64, wrap64. intros H. rewrite Z.mod_small; lia. Qed.

Lemma wrap64_add_l a b : wrap64 (wrap64 a + b) = wrap64 (a + b).
Proof.
  unfold wrap64.
  replace ((a + 2 ^ 63) mod 2 ^ 64 - 2 ^ 63 + b + 2 ^ 63)
    with ((a + 2 ^ 63) mod 2 ^ 64 + b) by lia.
  rewrite Zplus_mod_idemp_l. do 2 f_equal. lia.
Qed.

Lemma wrap64_add_r a b : wrap64 (a + wrap64 b) = wrap64 (a + b).
Proof. rewrite Z.add_comm, wrap64_add_l. f_equal. lia. Qed.

Lemma wrap64_sub_l a b : wrap64 (wrap64 a - b) = wrap64 (a - b).
Proof. rewrite <- !Z.add_opp_r. apply wrap64_add_l. Qed.

Lemma wrap64_sub_r a b : wrap64 (a - wrap64 b) = wrap64 (a - b).
Proof.
  unfold wrap64.
  replace (a - ((b + 2 ^ 63) mod 2 ^ 64 - 2 ^ 63) + 2 ^ 63)
    with (a + 2 ^ 64 - (b + 2 ^ 63) mod 2 ^ 64) by lia.
  rewrite Zminus_mod_idemp_r.
  replace (a + 2 ^ 64 - (b + 2 ^ 63)) with (a - b + 2 ^ 63) by lia. done.
Qed.

Lemma wrap64_wrap64 a : wrap64 (wrap64 a) = wrap64 a.
Proof. apply wrap64_id, wrap64_range. Qed.

Create HintDb go discriminated.
Create Rewrite HintDb wrap64.
Create Rewrite HintDb gomap.
#[export] Hint Resolve wrap64_range : go.
#[export] Hint Rewrite wrap64_add_l wrap64_add_r wrap64_sub_l wrap64_sub_r
  wrap64_wrap64 : wrap64.

(** Sums with wrap-around, the loops [for ... { sum += x }] of the source. *)
Definition wsum (l : list Z) : Z := foldl (λ acc x, acc +! x) 0 l.

Definition zsum (l : list Z) : Z := foldr Z.add 0 l.

Lemma foldl_wrap64 acc l :
  foldl (λ acc x, acc +! x) (wrap64 acc) l = wrap64 (acc + zsum l).
Proof.
  revert acc. induction l as [|x l IH]; intros acc; simpl.
  - f_equal. lia.
  - rewrite wrap64_add_l, IH. f_equal. lia.
Qed.

Lemma wsum_zsum l : wsum l = wrap64 (zsum l).
Proof. unfold wsum. change 0 with (wrap64 0) at 1. by rewrite foldl_wrap64. Qed.

Lemma zsum_cons x l : zsum (x :: l) = x + zsum l.
Proof. reflexivity. Qed.

Lemma zsum_app l1 l2 : zsum (l1 ++ l2) = zsum l1 + zsum l2.
Proof. induction l1 as [|x l1 IH]; simpl; lia. Qed.

#[export] Instance zsum_perm : Proper (Permutation ==> eq) zsum.
Proof. intros l1 l2 H. induction H; simpl; lia. Qed.

#[export] Instance wsum_perm : Proper (Permutation ==> eq) wsum.
Proof. intros l1 l2 H. by rewrite !wsum_zsum, H. Qed.

Lemma wsum_app_singleton l x : wsum (l ++ [x]) = wsum l +! x.
Proof. unfold wsum. by rewrite foldl_app. Qed.

Lemma zsum_nonneg l : Forall (λ x, 0 ≤ x) l → 0 ≤ zsum l.
Proof. induction 1; simpl; lia. Qed.

(** ** Go maps

    Reading a missing key of a [map[K]int64] gives the zero value. *)
Definition zget `{Countable K} (m : gmap K Z) (k : K) : Z := default 0 (m !! k).

Lemma zget_insert `{Countable K} (m : gmap K Z) k k' v :
  zget (<[k := v]> m) k' = if decide (k = k') then v else zget m k'.
Proof. unfold zget. rewrite lookup_insert. by case_decide. Qed.

Lemma zget_insert_eq `{Countable K} (m : gmap K Z) k v : zget (<[k := v]> m) k = v.
Proof. rewrite zget_insert. by rewrite decide_True. Qed.

Lemma zget_insert_ne `{Countable K} (m : gmap K Z) k k' v :
  k ≠ k' → zget (<[k := v]> m) k' = zget m k'.
Proof. intros. rewrite zget_insert. by rewrite decide_False. Qed.

Lemma zget_empty `{Countable K} (k : K) : zget (∅ : gmap K Z) k = 0.
Proof. unfold zget. by rewrite lookup_empty. Qed.

Lemma zget_delete `{Countable K} (m : gmap K Z) k k' :
  zget (delete k m) k' = if decide (k = k') then 0 else zget m k'.
Proof. unfold zget. rewrite lookup_delete. by case_decide. Qed.

#[export] Hint Rewrite @zget_insert_eq @zget_empty : gomap.
#[export] Hint Rewrite @zget_insert_ne using done : gomap.

(** [m[k] += v] on a [map[K]int64]. *)
Definition zincr `{Countable K} (k : K) (v : Z) (m : gmap K Z) : gmap K Z :=
  <[k := zget m k +! v]> m.

Lemma zget_zincr `{Countable K} (m : gmap K Z) k k' v :
  zget (zincr k v m) k' = if decide (k = k') then zget m k +! v else zget m k'.
Proof. apply zget_insert. Qed.

(** ** Strings

    Go strings are byte sequences; [+:+] is concatenation. *)
Lemma append_nil_l (s : string) : "" +:+ s = s.
Proof. reflexivity. Qed.

Lemma append_cons c (a b : string) : String c a +:+ b = String c (a +:+ b).
Proof. reflexivity. Qed.

Lemma append_assoc (a b c : string) : (a +:+ b) +:+ c = a +:+ (b +:+ c).
Proof.
  induction a as [|x a IH]; [done|]. by rewrite !append_cons, IH.
Qed.

Lemma append_nil_r (a : string) : a +:+ "" = a.
Proof. induction a as [|x a IH]; [done|]. by rewrite append_cons, IH. Qed.

Create Rewrite HintDb gostr.
#[export] Hint Rewrite append_nil_l append_nil_r append_cons append_assoc : gostr.

(** Division and remainder by constants, for [lia]. *)
Ltac zdiv := Z.to_euclidean_division_equations; lia.

(** ** Errors

    A Go function returning [(T, error)] returns a [res T]; the error carries
    the message of the source (without the values it interpolates). *)
Inductive res (A : Type) : Type :=
  | Ok (a : A)
  | Err (msg : string).
Arguments Ok {A} a.
Arguments Err {A} msg.

Definition is_ok {A} (r : res A) : bool :=
  match r with Ok _ => true | Err _ => false end.

(** ** Sorting

    [sort.Slice(xs, less)] sorts in place and promises nothing about the order
    of elements neither of which is less than the other; [sort_slice] picks one
    such order.  [sort_slice_unique] is what makes the result well defined when
    the elements that [less] does not separate are equal. *)
Definition le_of {A} (less : A → A → bool) (a b : A) : Prop := less b a = false.

#[export] Instance le_of_dec {A} (less : A → A → bool) : RelDecision (le_of less).
Proof. intros a b. unfold le_of. apply _. Defined.

Definition sort_slice {A} (less : A → A → bool) (l : list A) : list A :=
  merge_sort (le_of less) l.

Lemma sort_slice_perm {A} (less : A → A → bool) l : sort_slice less l ≡ₚ l.
Proof. apply merge_sort_Permutation. Qed.

Lemma sort_slice_sorted {A} (less : A → A → bool) l :
  Transitive (le_of less) → Total (le_of less) →
  StronglySorted (le_of less) (sort_slice less l).
Proof. intros. by apply StronglySorted_merge_sort. Qed.

Lemma sort_slice_unique {A} (less : A → A → bool) l1 l2 :
  Transitive (le_of less) → Total (le_of less) →
  (∀ a b, a ∈ l1 → b ∈ l1 → le_of less a b → le_of less b a → a = b) →
  l1 ≡ₚ l2 → sort_slice less l1 = sort_slice less l2.
Proof.
  intros Ht Hto Ha Hp.
  apply (StronglySorted_unique_strong (le_of less)).
  - intros x1 x2 Hx1 Hx2. rewrite sort_slice_perm in Hx1.
    rewrite sort_slice_perm, <- Hp in Hx2. auto.
  - by apply sort_slice_sorted.
  - by apply sort_slice_sorted.
  - by rewrite !sort_slice_perm.
Qed.

(** [a < b] on Go strings: bytewise. *)
Fixpoint str_ltb (a b : string) : bool :=
  match a, b with
  | _, EmptyString => false
  | EmptyString, String _ _ => true
  | String x a', String y b' =>
      (N.ltb (Ascii.N_of_ascii x) (Ascii.N_of_ascii y))
      || (Ascii.eqb x y && str_ltb a' b')
  end.

Lemma N_of_ascii_inj x y : Ascii.N_of_ascii x = Ascii.N_of_ascii y → x = y.
Proof. intros H. rewrite <- (Ascii.ascii_N_embedding x), H. apply Ascii.ascii_N_embedding. Qed.

Lemma str_ltb_cons x y a b :
  str_ltb (String x a) (String y b) = true ↔
  (Ascii.N_of_ascii x < Ascii.N_of_ascii y)%N ∨ (x = y ∧ str_ltb a b = true).
Proof. simpl. by rewrite orb_true_iff, andb_true_iff, N.ltb_lt, Ascii.eqb_eq. Qed.

Lemma str_ltb_irrefl a : str_ltb a a = false.
Proof.
  induction a as [|x a IH]; [done|]. simpl. by rewrite N.ltb_irrefl, IH, andb_false_r.
Qed.

Lemma str_ltb_trans a b c : str_ltb a b = true → str_ltb b c = true → str_ltb a c = true.
Proof.
  revert b c. induction a as [|x a IH]; intros [|y b] [|z c]; try done.
  rewrite !str_ltb_cons. intros [?|[-> ?]] [?|[-> ?]]; [left; lia|by left|by left|].
  right. split; [done|by eapply IH].
Qed.

Lemma str_ltb_total a b : str_ltb a b = false → str_ltb b a = false → a = b.
Proof.
  revert b. induction a as [|x a IH]; intros [|y b]; try done.
  rewrite <- !not_true_iff_false, !str_ltb_cons. intros H1 H2.
  assert (x = y) as -> by (apply N_of_ascii_inj; lia).
  f_equal. apply IH; apply not_true_iff_false; intros ?; [apply H1|apply H2]; by right.
Qed.

Lemma str_ltb_asym a b : str_ltb a b = true → str_ltb b a = false.
Proof.
  intros H. destruct (str_ltb b a) eqn:E; [|done].
  by rewrite <- (str_ltb_irrefl a), (str_ltb_trans a b a).
Qed.

(** ** Separators

    Preimages and composite keys are joined with a separator byte; the parts can
    be recovered as long as they do not contain it. *)
Fixpoint has_char (c : ascii) (s : string) : bool :=
  match s with
  | EmptyString => false
  | String c' s' => Ascii.eqb c c' || has_char c s'
  end.

Lemma has_char_app c a b : has_char c (a +:+ b) = has_char c a || has_char c b.
Proof. induction a as [|x a IH]; [done|]. rewrite append_cons. simpl. by rewrite IH, orb_assoc. Qed.

Lemma split_sep c a b x y :
  has_char c a = false → has_char c b = false →
  a +:+ String c x = b +:+ String c y → a = b ∧ x = y.
Proof.
  revert b. induction a as [|u a IH]; intros [|v b]; simpl.
  - rewrite !append_nil_l. intros _ _ [=]. done.
  - rewrite append_nil_l, append_cons. intros _ H [= -> _]. by rewrite Ascii.eqb_refl in H.
  - rewrite append_nil_l, append_cons. intros H _ [= -> _]. by rewrite Ascii.eqb_refl in H.
  - rewrite !append_cons. intros [_ H1]%orb_false_iff [_ H2]%orb_false_iff [= -> H].
    by destruct (IH b H1 H2 H) as [-> ->].
Qed.

Lemma pretty_N_go_has_char c x s :
  has_char c "0123456789" = false →
  has_char c (pretty_N_go x s) = has_char c s.
Proof.
  intros Hc. revert s. induction (N.lt_wf_0 x) as [x _ IH]; intros s.
  destruct (decide (x = 0)%N) as [->|]; [done|].
  rewrite pretty_N_go_step by lia. rewrite IH by (apply N.div_lt; lia). simpl.
  enough (Ascii.eqb c (pretty_N_char (x mod 10)) = false) as -> by done.
  assert (has_char (pretty_N_char (x mod 10)) "0123456789" = true) as Hd.
  { unfold pretty_N_char. repeat case_match; done. }
  apply Ascii.eqb_neq. intros ->. congruence.
Qed.

Lemma pretty_Z_has_char c (z : Z) :
  has_char c "-0123456789" = false → has_char c (pretty z) = false.
Proof.
  intros Hc. assert (has_char c "0123456789" = false) as Hd.
  { simpl in Hc |- *. by apply orb_false_iff in Hc as [_ ?]. }
  assert (∀ p : positive, has_char c (pretty (N.pos p)) = false) as HN.
  { intros p. unfold pretty, pretty_N. case_decide; [done|]. by rewrite pretty_N_go_has_char. }
  destruct z as [|p|p].
  - simpl in Hd. apply orb_false_iff in Hd as [H0 _]. change (Ascii.eqb c "0" || false = false).
    by rewrite H0.
  - apply (HN p).
  - change (has_char c ("-" +:+ pretty (N.pos p)) = false). rewrite has_char_app, HN.
    simpl in Hc |- *. by apply orb_false_iff in Hc as [-> _].
Qed.

(** Decimal digits of an integer, ["%d"]. *)
Definition dec (z : Z) : string := pretty z.

Lemma dec_inj a b : dec a = dec b → a = b.
Proof. unfold dec. by intros ?%(inj pretty). Qed.

Lemma dec_no_bar z : has_char "|" (dec z) = false.
Proof. by apply pretty_Z_has_char. Qed.
Lemma dec_no_colon z : has_char ":" (dec z) = false.
Proof. by apply pretty_Z_has_char. Qed.

(** [float64], as an IEEE 754 datum. *)
Definition float64 : Type := SpecFloat.spec_float.

Lemma split_sep_r c a b x y :
  has_char c x = false → has_char c y = false →
  a +:+ String c x = b +:+ String c y → a = b ∧ x = y.
Proof.
  intros Hx Hy. revert b. induction a as [|u a IH]; intros [|v b];
    rewrite ?append_nil_l, ?append_cons; intros [= ].
  - done.
  - subst. by rewrite has_char_app in Hx; simpl in Hx; rewrite Ascii.eqb_refl, orb_true_r in Hx.
  - subst. by rewrite has_char_app in Hy; simpl in Hy; rewrite Ascii.eqb_refl, orb_true_r in Hy.
  - subst. by destruct (IH b) as [-> ->].
Qed.

Lemma append_inj_r (p a b : string) : p +:+ a = p +:+ b → a = b.
Proof. induction p as [|c p IH]; [done|]. rewrite !append_cons. by intros [= ?%IH]. Qed.

(** A loop whose steps commute does not depend on the order of a map's
    iteration. *)
Lemma foldl_perm {A B} (f : B → A → B) l1 l2 b :
  (∀ b x y, f (f b x) y = f (f b y) x) → l1 ≡ₚ l2 → foldl f b l1 = foldl f b l2.
Proof.
  intros Hc Hp. revert b. induction Hp as [|x l1 l2 _ IH|x y l|l1 l2 l3 _ IH1 _ IH2]; intros b; simpl.
  - done.
  - apply IH.
  - by rewrite Hc.
  - by rewrite IH1.
Qed.

Lemma wrap64_add_comm_r a x y : a +! x +! y = a +! y +! x.
Proof. rewrite !wrap64_add_l. f_equal. lia. Qed.

Lemma zincr_comm `{Countable K} (m : gmap K Z) j k x y :
  zincr j x (zincr k y m) = zincr k y (zincr j x m).
Proof.
  unfold zincr. destruct (decide (j = k)) as [->|Hne].
  - rewrite !zget_insert_eq, !insert_insert_eq. by rewrite wrap64_add_comm_r.
  - rewrite !zget_insert_ne by done. by rewrite insert_insert_ne.
Qed.

(** [strings.HasPrefix] and [strings.TrimPrefix] in one. *)
Fixpoint strip_prefix (p s : string) : option string :=
  match p, s with
  | EmptyString, _ => Some s
  | String c p', String c' s' => if Ascii.eqb c c' then strip_prefix p' s' else None
  | String _ _, EmptyString => None
  end.

(** [strings.HasPrefix] and [strings.Contains]. *)
Definition has_prefix (p s : string) : bool :=
  match strip_prefix p s with Some _ => true | None => false end.

Fixpoint str_contains (sub s : string) : bool :=
  has_prefix sub s || match s with EmptyString => false | String _ s' => str_contains sub s' end.

Lemma strip_prefix_app p s : strip_prefix p (p +:+ s) = Some s.
Proof. induction p as [|c p IH]; [done|]. rewrite append_cons. simpl. by rewrite Ascii.eqb_refl. Qed.

Lemma strip_prefix_Some p s r : strip_prefix p s = Some r → s = p +:+ r.
Proof.
  revert s. induction p as [|x p IH]; intros [|y s]; simpl; try done; try (by intros [= <-]).
  destruct (Ascii.eqb_spec x y) as [->|]; [|done]. by intros ->%IH.
Qed.

(** [float64(i)], [a / b], [a * b], [a + b] and the comparisons, in IEEE 754
    binary64 with round-to-nearest-even. *)
Definition float_of_int (z : Z) : float64 := SpecFloat.binary_normalize 53 1024 z 0 false.
Definition fdiv (a b : float64) : float64 := SpecFloat.SFdiv 53 1024 a b.
Definition fmul (a b : float64) : float64 := SpecFloat.SFmul 53 1024 a b.
Definition fadd (a b : float64) : float64 := SpecFloat.SFadd 53 1024 a b.
Definition fsub (a b : float64) : float64 := SpecFloat.SFsub 53 1024 a b.
Definition fltb (a b : float64) : bool := SpecFloat.SFltb a b.
Definition fleb (a b : float64) : bool := SpecFloat.SFleb a b.
Definition f_zero : float64 := SpecFloat.S754_zero false.

#[export] Instance float64_eq_dec : EqDecision float64.
Proof. unfold float64. solve_decision. Defined.

(** [int64(f)]: truncation; out of range the value is the one amd64 gives. *)
Definition int_of_float (f : float64) : Z :=
  match f with
  | SpecFloat.S754_zero _ => 0
  | SpecFloat.S754_finite neg m e =>
      let v := if 0 <=? e then Z.pos m * 2 ^ e else Z.pos m / 2 ^ (- e) in
      let z := if neg then - v else v in
      if bool_decide (is_int64 z) then z else int64_min
  | _ => int64_min
  end.

(** Sums of a counter map over a list of distinct keys. *)
Definition sum_over (m : gmap string Z) (ks : list string) : Z := zsum (zget m <$> ks).

Lemma sum_over_insert_notin m k v ks : k ∉ ks → sum_over (<[k := v]> m) ks = sum_over m ks.
Proof.
  intros Hk. unfold sum_over. f_equal. apply list_fmap_ext. intros i x Hx.
  rewrite zget_insert_ne; [done|]. intros ->. apply Hk. by eapply list_elem_of_lookup_2.
Qed.

Lemma sum_over_insert m k v ks :
  NoDup ks → k ∈ ks → sum_over (<[k := v]> m) ks = sum_over m ks - zget m k + v.
Proof.
  induction 1 as [|x ks Hx Hnd IH]; [by intros ?%not_elem_of_nil|].
  unfold sum_over in *. rewrite !fmap_cons, !zsum_cons.
  intros [<-|Hin]%elem_of_cons.
  - rewrite zget_insert_eq. pose proof (sum_over_insert_notin m k v ks Hx) as E.
    unfold sum_over in E. rewrite E. lia.
  - rewrite zget_insert_ne by (by intros ->). rewrite IH by done. lia.
Qed.

Lemma sum_over_nonneg m ks : (∀ k, 0 ≤ zget m k) → 0 ≤ sum_over m ks.
Proof. intros H. apply zsum_nonneg, Forall_fmap, Forall_true. intros k. apply H. Qed.

Lemma sum_over_le m m' ks : (∀ k, zget m k ≤ zget m' k) → sum_over m ks ≤ sum_over m' ks.
Proof.
  intros H. unfold sum_over. induction ks as [|k ks IH]; [done|].
  rewrite !fmap_cons, !zsum_cons. specialize (H k). lia.
Qed.

Lemma sum_over_elem m ks k : (∀ k, 0 ≤ zget m k) → k ∈ ks → zget m k ≤ sum_over m ks.
Proof.
  intros H. unfold sum_over. induction ks as [|x ks IH]; [by intros ?%not_elem_of_nil|].
  rewrite fmap_cons, zsum_cons. pose proof (sum_over_nonneg m ks H) as Hs. unfold sum_over in Hs.
  intros [->|Hin]%elem_of_cons; [lia|]. specialize (IH Hin). specialize (H x). lia.
Qed.

(** [strconv.ParseInt(s, 10, 64)]: an optional sign and decimal digits, in
    range. *)
Fixpoint parse_digits (acc : Z) (s : string) : option Z :=
  match s with
  | EmptyString => Some acc
  | String c s' =>
      let n := Z.of_N (Ascii.N_of_ascii c) in
      if (48 <=? n) && (n <=? 57) then parse_digits (10 * acc + (n - 48)) s' else None
  end.

Definition parse_int64 (s : string) : option Z :=
  match s with
  | EmptyString => None
  | String c s' =>
      v ← (if Ascii.eqb c "-" then (if bool_decide (s' = "") then None else Z.opp <$> parse_digits 0 s')
           else if Ascii.eqb c "+" then (if bool_decide (s' = "") then None else parse_digits 0 s')
           else parse_digits 0 s);
      if bool_decide (is_int64 v) then Some v else None
  end.

(** ** Records found by a key *)

(** The first element of a list with a key: a Go loop that stops at the first match. *)
Definition find_key {A} (key : A → string) (id : string) (l : list A) : option A :=
  head (filter (λ x, key x = id) l).

Section find_key.
Context {A : Type} (key : A → string).
Implicit Types (l : list A) (id : string).

Lemma find_key_cons id x l :
  find_key key id (x :: l) = if decide (key x = id) then Some x else find_key key id l.
Proof. unfold find_key. rewrite filter_cons. by destruct (decide _). Qed.

Lemma find_key_app id l1 l2 :
  find_key key id (l1 ++ l2) =
  match find_key key id l1 with Some x => Some x | None => find_key key id l2 end.
Proof.
  unfold find_key. rewrite filter_app.
  by destruct (filter (λ x, key x = id) l1).
Qed.

Lemma find_key_Some id l x : find_key key id l = Some x → x ∈ l ∧ key x = id.
Proof.
  unfold find_key. intros Hx. apply head_Some_elem_of in Hx.
  apply list_elem_of_filter in Hx. by destruct Hx.
Qed.

Lemma find_key_None id l : find_key key id l = None ↔ id ∉ key <$> l.
Proof.
  induction l as [|x l IH]; [split; [intros _; apply not_elem_of_nil | done]|].
  rewrite find_key_cons, fmap_cons, not_elem_of_cons.
  destruct (decide (key x = id)) as [E|N]; [split; [done | by intros [? _]]|].
  rewrite IH. split; [intros; split; [intros ->; by apply N | done] | by intros [_ ?]].
Qed.

Lemma find_key_nodup l i x :
  NoDup (key <$> l) → l !! i = Some x → find_key key (key x) l = Some x.
Proof.
  revert i. induction l as [|y l IH]; [done|].
  rewrite fmap_cons. intros i [Hy Hl]%NoDup_cons Hi. rewrite find_key_cons.
  destruct i as [|i]; cbn in Hi; [simplify_eq; by rewrite decide_True|].
  rewrite decide_False; [by apply (IH i)|].
  intros E. apply Hy. rewrite E. apply list_elem_of_fmap.
  exists x. split; [done | by eapply list_elem_of_lookup_2].
Qed.

Lemma find_key_elem l x :
  NoDup (key <$> l) → x ∈ l → find_key key (key x) l = Some x.
Proof. intros Hl [i Hi]%list_elem_of_lookup. by eapply find_key_nodup. Qed.

(** Replacing an element by one with the same key. *)
Lemma find_key_insert l i x y id :
  NoDup (key <$> l) → l !! i = Some x → key y = key x →
  find_key key id (<[i := y]> l) = if decide (id = key x) then Some y else find_key key id l.
Proof.
  revert i. induction l as [|z l IH]; [done|].
  rewrite fmap_cons. intros i [Hz Hl]%NoDup_cons Hi E.
  destruct i as [|i]; cbn in Hi;
    [change (<[0%nat := y]> (z :: l)) with (y :: l)
    |change (<[S i := y]> (z :: l)) with (z :: <[i := y]> l)]; rewrite !find_key_cons.
  - simplify_eq. rewrite E. destruct (decide (key x = id)), (decide (id = key x)); congruence.
  - rewrite (IH i) by done.
    assert (key z ≠ key x).
    { intros Ez. apply Hz. rewrite Ez. apply list_elem_of_fmap.
      exists x. split; [done | by eapply list_elem_of_lookup_2]. }
    destruct (decide (key z = id)), (decide (id = key x)); congruence.
Qed.

Lemma keys_insert l i x y :
  l !! i = Some x → key y = key x → key <$> <[i := y]> l = key <$> l.
Proof.
  intros Hi E. rewrite list_fmap_insert, E. apply list_insert_id. by rewrite list_lookup_fmap, Hi.
Qed.

Lemma find_key_perm l1 l2 id :
  NoDup (key <$> l1) → l1 ≡ₚ l2 → find_key key id l1 = find_key key id l2.
Proof.
  intros Hl HP. assert (Hl2 : NoDup (key <$> l2)) by by rewrite <- HP.
  destruct (find_key key id l1) as [x|] eqn:E.
  - apply find_key_Some in E as [Hx <-]. symmetry. apply find_key_elem; [done | by rewrite <- HP].
  - symmetry. apply find_key_None. apply find_key_None in E. by rewrite <- HP.
Qed.

(** With distinct keys a filter keeps a record or drops it. *)
Lemma find_key_filter (P : A → Prop) `{∀ x, Decision (P x)} l id :
  NoDup (key <$> l) →
  find_key key id (filter P l) =
  x ← find_key key id l; if decide (P x) then Some x else None.
Proof.
  induction l as [|x l IH]; [done|]. rewrite fmap_cons. intros [Hx Hl]%NoDup_cons.
  rewrite filter_cons, find_key_cons.
  destruct (decide (key x = id)) as [E|N].
  - cbn. destruct (decide (P x)); [by rewrite find_key_cons, decide_True|].
    rewrite IH by done. apply find_key_None in Hx. rewrite <- E, Hx. done.
  - destruct (decide (P x)); [rewrite find_key_cons, decide_False by done|]; by rewrite IH.
Qed.

Lemma keys_filter_nodup (P : A → Prop) `{∀ x, Decision (P x)} l :
  NoDup (key <$> l) → NoDup (key <$> filter P l).
Proof. intros. eapply sublist_NoDup; [done | apply fmap_sublist, sublist_filter]. Qed.

(** A loop whose step on [x] changes only what a state shows about the key of
    [x]: what it shows about a key is the loop over that key's elements. *)
Lemma foldl_view {S V} (step : S → A → S) (view : string → S → V) (upd : V → A → V)
    (Inv : S → list A → Prop) :
  (∀ s x l, Inv s (x :: l) → Inv (step s x) l) →
  (∀ s x l id, Inv s (x :: l) →
     view id (step s x) = if decide (key x = id) then upd (view id s) x else view id s) →
  ∀ l s, Inv s l →
    Inv (foldl step s l) [] ∧
    ∀ id, view id (foldl step s l) = foldl upd (view id s) (filter (λ x, key x = id) l).
Proof.
  intros Hinv Hview. induction l as [|x l IH]; intros s Hs; [done|]. cbn [foldl].
  destruct (IH _ (Hinv _ _ _ Hs)) as [H1 H2]. split; [done|]. intros id.
  rewrite H2, filter_cons, (Hview _ _ _ id Hs). by destruct (decide _).
Qed.

Lemma filter_key_nodup l id :
  NoDup (key <$> l) →
  filter (λ x, key x = id) l = match find_key key id l with Some x => [x] | None => [] end.
Proof.
  intros Hl. pose proof (keys_filter_nodup (λ x, key x = id) l Hl) as Hf.
  assert (Hk : Forall (λ x, key x = id) (filter (λ x, key x = id) l))
    by (apply Forall_forall; intros x Hx%list_elem_of_filter; naive_solver).
  unfold find_key. destruct (filter (λ x, key x = id) l) as [|x [|y l']]; [done|done|exfalso].
  rewrite !Forall_cons in Hk. destruct Hk as (E1 & E2 & _).
  rewrite !fmap_cons, !NoDup_cons in Hf. destruct Hf as [Hn _]. apply Hn.
  rewrite E1, E2. left.
Qed.
End find_key.

(** The sum of a number of each value of a map, when one value changes; [d] stands for a value not there. *)
Lemma map_zsum_insert {A} (f : A → Z) (d : A) (m : gmap string A) id y :
  f d = 0 →
  zsum (f <$> (map_to_list (<[id := y]> m)).*2) = zsum (f <$> (map_to_list m).*2) - f (default d (m !! id)) + f y.
Proof.
  intros H0.
  assert (map_to_list (<[id := y]> m) ≡ₚ (id, y) :: map_to_list (delete id m)) as ->.
  { rewrite <- insert_delete_eq. apply map_to_list_insert, lookup_delete_eq. }
  destruct (m !! id) as [x|] eqn:E.
  - rewrite <- (map_to_list_delete m id x) by done. rewrite !fmap_cons, !zsum_cons. cbn. lia.
  - rewrite delete_id by done. rewrite !fmap_cons, zsum_cons. cbn. rewrite H0. lia.
Qed.

(** The last [n] elements. *)
Definition last_n {A} (n : nat) (l : list A) : list A := drop (length l - n) l.

Lemma last_n_all {A} n (l : list A) : (length l ≤ n)%nat → last_n n l = l.
Proof. intros H. unfold last_n. by rewrite (proj2 (Nat.sub_0_le _ _)). Qed.
Lemma last_n_length {A} n (l : list A) : length (last_n n l) = min n (length l).
Proof. unfold last_n. rewrite length_drop. lia. Qed.

Lemma last_n_snoc {A} n (l : list A) x : last_n n (last_n n l ++ [x]) = last_n n (l ++ [x]).
Proof.
  unfold last_n. rewrite !length_app, length_drop. cbn [length].
  destruct (decide (length l < n)%nat).
  - replace (length l - n)%nat with 0%nat by lia. by rewrite drop_0, Nat.sub_0_r.
  - destruct (decide (n = 0%nat)) as [->|].
    { rewrite !drop_ge; [done|rewrite length_app; cbn; lia|rewrite length_app, length_drop; cbn; lia]. }
    rewrite (drop_app_le (drop _ l)) by (rewrite length_drop; lia). rewrite drop_drop.
    rewrite (drop_app_le l) by lia. do 2 f_equal. lia.
Qed.
