(* ===== verification/GoTime.v ===== *)
(** * Time and time formats

    The part of Go's package [time] the program relies on.  An instant is the
    number of nanoseconds since the Unix epoch; a [Location] gives the offset
    from UTC (in seconds) in force at an instant.  [civil_from_days] and
    [days_from_civil] are the proleptic Gregorian calendar; the formats are
    the layouts the source passes to [Time.Format], and [parse_rfc3339] is
    [time.Parse(time.RFC3339, s)] with its leniencies (one-digit hours, a
    fraction after the seconds). *)

From S2P Require Import Prelude.

(** Instants and durations, in nanoseconds. *)
Abbreviation Time := Z.

Definition second : Z := 10 ^ 9.
Definition minute : Z := 60 * second.
Definition hour : Z := 60 * minute.

(** January 1, year 1, 00:00 UTC: the zero [time.Time], the one [IsZero] tests. *)
Definition time_zero : Time := -62135596800 * second.
Definition is_zero (t : Time) : bool := bool_decide (t = time_zero).

(** [t.After(u)], [t.Before(u)]. *)
Definition after (t u : Time) : bool := u <? t.
Definition before (t u : Time) : bool := t <? u.

Class Location := zone_offset : Time → Z.
Definition UTC : Location := λ _, 0.

(** ** The calendar *)
Definition civil_from_days (days : Z) : Z * Z * Z :=
  let z := days + 719468 in
  let era := z / 146097 in
  let doe := z mod 146097 in
  let yoe := (doe - doe / 1460 + doe / 36524 - doe / 146096) / 365 in
  let doy := doe - (365 * yoe + yoe / 4 - yoe / 100) in
  let mp := (5 * doy + 2) / 153 in
  let d := doy - (153 * mp + 2) / 5 + 1 in
  let m := if mp <? 10 then mp + 3 else mp - 9 in
  let y := yoe + era * 400 in
  ((if m <=? 2 then y + 1 else y), m, d).

Definition days_from_civil (y m d : Z) : Z :=
  let y' := if m <=? 2 then y - 1 else y in
  let era := y' / 400 in
  let yoe := y' mod 400 in
  let doy := (153 * (if 2 <? m then m - 3 else m + 9) + 2) / 5 + d - 1 in
  let doe := yoe * 365 + yoe / 4 - yoe / 100 + doy in
  era * 146097 + doe - 719468.

Definition is_leap (y : Z) : bool :=
  (y mod 4 =? 0) && (negb (y mod 100 =? 0) || (y mod 400 =? 0)).

Definition days_in (m y : Z) : Z :=
  if m =? 2 then (if is_leap y then 29 else 28)
  else if (m =? 4) || (m =? 6) || (m =? 9) || (m =? 11) then 30 else 31.

(** ** Decimal digits *)
Definition digit_char (d : Z) : ascii := Ascii.ascii_of_N (Z.to_N (48 + d)).

Definition char_digit (c : ascii) : option Z :=
  let n := Z.of_N (Ascii.N_of_ascii c) in
  if (48 <=? n) && (n <=? 57) then Some (n - 48) else None.

(** The last [w] decimal digits of [z], most significant first. *)
Fixpoint pad (w : nat) (z : Z) : string :=
  match w with
  | O => ""
  | S w' => pad w' (z / 10) +:+ String (digit_char (z mod 10)) ""
  end.

(** [appendInt(b, z, w)] for [z >= 0]: at least [w] digits. *)
Definition pad_min (w : nat) (z : Z) : string :=
  if z <? 10 ^ Z.of_nat w then pad w z else pretty z.

(** ** Formats *)
Section formats.
Context (loc : Location).

Definition local_seconds (t : Time) : Z := t / second + zone_offset t.

Definition civil_date (t : Time) : Z * Z * Z :=
  civil_from_days (local_seconds t / 86400).

Definition time_of_day (t : Time) : Z := local_seconds t mod 86400.

(** [t.Day()]. *)
Definition day_of_month (t : Time) : Z := let '(_, _, d) := civil_date t in d.

(** ["2006-01-02"] *)
Definition fmt_date (t : Time) : string :=
  let '(y, m, d) := civil_date t in
  pad_min 4 y +:+ "-" +:+ pad 2 m +:+ "-" +:+ pad 2 d.

(** ["2006-01"] *)
Definition fmt_month (t : Time) : string :=
  let '(y, m, _) := civil_date t in pad_min 4 y +:+ "-" +:+ pad 2 m.

Definition hh (t : Time) : string := pad 2 (time_of_day t / 3600).
Definition mm (t : Time) : string := pad 2 (time_of_day t mod 3600 / 60).
Definition ss (t : Time) : string := pad 2 (time_of_day t mod 60).

(** ["2006-01-02-15"] *)
Definition fmt_date_hour (t : Time) : string := fmt_date t +:+ "-" +:+ hh t.

(** ["2006-01-02T15"] *)
Definition fmt_hour (t : Time) : string := fmt_date t +:+ "T" +:+ hh t.

(** ["2006-01-02T15:04"] *)
Definition fmt_minute (t : Time) : string := fmt_hour t +:+ ":" +:+ mm t.

(** ["Z07:00"] *)
Definition fmt_zone (t : Time) : string :=
  let o := zone_offset t / 60 in
  if zone_offset t =? 0 then "Z"
  else (if o <? 0 then "-" else "+")
       +:+ pad 2 (Z.abs o / 60) +:+ ":" +:+ pad 2 (Z.abs o mod 60).

(** [time.RFC3339]: ["2006-01-02T15:04:05Z07:00"] *)
Definition fmt_rfc3339 (t : Time) : string :=
  fmt_date t +:+ "T" +:+ hh t +:+ ":" +:+ mm t +:+ ":" +:+ ss t +:+ fmt_zone t.
End formats.

(** ** Parsing *)
Definition parser (A : Type) : Type := string → option (A * string).

Definition p_ret {A} (a : A) : parser A := λ s, Some (a, s).
Definition p_fail {A} : parser A := λ _, None.
Definition p_bind {A B} (p : parser A) (f : A → parser B) : parser B :=
  λ s, match p s with Some (a, s') => f a s' | None => None end.

Notation "x <~ p ;; q" := (p_bind p (λ x, q))
  (at level 100, p at next level, right associativity) : go_scope.

Definition p_char (c : ascii) : parser unit :=
  λ s, match s with
       | String c' s' => if Ascii.eqb c c' then Some (tt, s') else None
       | EmptyString => None
       end.

Definition p_digit : parser Z :=
  λ s, match s with
       | String c s' => match char_digit c with Some d => Some (d, s') | None => None end
       | EmptyString => None
       end.

(** [getnum(s, true)] and [getnum(s, false)]. *)
Definition p_num2 : parser Z := a <~ p_digit ;; b <~ p_digit ;; p_ret (10 * a + b).
Definition p_num12 : parser Z :=
  a <~ p_digit ;;
  λ s, match p_digit s with
       | Some (b, s') => Some (10 * a + b, s')
       | None => Some (a, s)
       end.
Definition p_num4 : parser Z := a <~ p_num2 ;; b <~ p_num2 ;; p_ret (100 * a + b).

(** The digits of a fraction; [scale] is the weight of the next digit, zero
    after the ninth. *)
Fixpoint p_digits (scale acc : Z) (s : string) : Z * string :=
  match s with
  | String c s' =>
      match char_digit c with
      | Some d => p_digits (scale / 10) (acc + d * scale) s'
      | None => (acc, s)
      end
  | EmptyString => (acc, s)
  end.

(** An optional fraction after the seconds, in nanoseconds. *)
Definition p_frac : parser Z :=
  λ s, match s with
       | String c (String c' _ as s') =>
           if (Ascii.eqb c "." || Ascii.eqb c ",") && bool_decide (is_Some (char_digit c'))
           then Some (p_digits (10 ^ 8) 0 s') else Some (0, s)
       | _ => Some (0, s)
       end.

Definition p_zone : parser Z :=
  λ s, match s with
       | String "Z" s' => Some (0, s')
       | String c s' =>
           (h <~ p_num2 ;; _ <~ p_char ":" ;; m <~ p_num2 ;;
            if (24 <? h) || (60 <? m) then p_fail
            else if Ascii.eqb c "+" then p_ret ((h * 60 + m) * 60)
            else if Ascii.eqb c "-" then p_ret (- ((h * 60 + m) * 60))
            else p_fail) s'
       | EmptyString => None
       end.

Definition p_rfc3339 : parser Time :=
  y <~ p_num4 ;; _ <~ p_char "-" ;; mo <~ p_num2 ;; _ <~ p_char "-" ;; d <~ p_num2 ;;
  _ <~ p_char "T" ;; h <~ p_num12 ;; _ <~ p_char ":" ;; mi <~ p_num2 ;;
  _ <~ p_char ":" ;; se <~ p_num2 ;; ns <~ p_frac ;; z <~ p_zone ;;
  if (mo <? 1) || (12 <? mo) || (d <? 1) || (days_in mo y <? d)
     || (24 <=? h) || (60 <=? mi) || (60 <=? se)
  then p_fail
  else p_ret ((days_from_civil y mo d * 86400 + h * 3600 + mi * 60 + se - z) * second + ns).

(** [time.Parse(time.RFC3339, s)]. *)
Definition parse_rfc3339 (s : string) : option Time :=
  match p_rfc3339 s with
  | Some (t, EmptyString) => Some t
  | _ => None
  end.

(** ** The calendar and the format round-trip

    [parse_rfc3339] recovers every instant [fmt_rfc3339] prints, to the second,
    for the years 0 to 9999. *)

Lemma yoe_bound doe : 0 ≤ doe < 146097 →
  let yoe := (doe - doe / 1460 + doe / 36524 - doe / 146096) / 365 in
  let doy := doe - (365 * yoe + yoe / 4 - yoe / 100) in
  0 ≤ yoe < 400 ∧ 0 ≤ doy ≤ 365 ∧ 
  (doy = 365 → (yoe + 1) mod 4 = 0 ∧ ((yoe + 1) mod 100 = 0 → yoe = 399)).
Proof. intros H yoe doy. (split_and!; [..|intros; split; intros]; subst yoe doy; zdiv). Qed.

Lemma civil_of_doy doy : 0 ≤ doy ≤ 365 →
  let mp := (5 * doy + 2) / 153 in
  let d := doy - (153 * mp + 2) / 5 + 1 in
  let m := if mp <? 10 then mp + 3 else mp - 9 in
  1 ≤ m ≤ 12 ∧ 1 ≤ d ∧ 
  d ≤ (if m =? 2 then (if doy =? 365 then 29 else 28)
  else if (m =? 4) || (m =? 6) || (m =? 9) || (m =? 11) then 30 else 31) ∧
  (153 * (if 2 <? m then m - 3 else m + 9) + 2) / 5 + d - 1 = doy.
Proof. intros H mp d m.
 assert (0 ≤ mp ≤ 11) by (subst mp; zdiv).
 assert (153 * mp ≤ 5 * doy + 2 < 153 * mp + 153) by (subst mp; zdiv).
 clearbody mp. subst m d.
 assert (mp ∈ [0;1;2;3;4;5;6;7;8;9;10;11]) as Hin by (repeat (rewrite ?elem_of_cons); lia).
 repeat (apply elem_of_cons in Hin as [->|Hin]; [ cbn; repeat case_match; zdiv|]).
 by apply not_elem_of_nil in Hin.
Qed.

Lemma civil_from_days_spec z y m d :
  civil_from_days z = (y, m, d) →
  days_from_civil y m d = z ∧ 1 ≤ m ≤ 12 ∧ 1 ≤ d ≤ days_in m y.
Proof.
  unfold civil_from_days. intros Heq.
  pose proof (Z.mod_pos_bound (z + 719468) 146097 ltac:(lia)) as Hdoe.
  pose proof (Z.div_mod (z + 719468) 146097 ltac:(lia)) as Hz.
  revert Heq.
  set (doe := (z + 719468) mod 146097) in *. set (era := (z + 719468) / 146097) in *.
  destruct (yoe_bound doe Hdoe) as (Hy & Hd & Hl). clearbody doe era.
  set (yoe := (doe - doe / 1460 + doe / 36524 - doe / 146096) / 365) in *. clearbody yoe.
  set (doy := doe - (365 * yoe + yoe / 4 - yoe / 100)) in *.
  assert (doe = 365 * yoe + yoe / 4 - yoe / 100 + doy) as Hdo by lia. clearbody doy.
  destruct (civil_of_doy doy Hd) as (Hm & Hd1 & Hd2 & Hrt).
  set (mp := (5 * doy + 2) / 153) in *. clearbody mp.
  set (dd := doy - (153 * mp + 2) / 5 + 1) in *.
  set (mo := if mp <? 10 then mp + 3 else mp - 9) in *. clearbody mo dd.
  intros [= <- <- <-].
  unfold days_from_civil.
  replace ((if mo <=? 2 then (if mo <=? 2 then yoe + era * 400 + 1 else yoe + era * 400) - 1
    else if mo <=? 2 then yoe + era * 400 + 1 else yoe + era * 400)) with (yoe + era * 400)
    by (destruct (mo <=? 2); lia).
  rewrite Hrt, Z.div_add, Z.mod_add by lia.
  rewrite (Z.div_small yoe), (Z.mod_small yoe) by lia.
  split; [lia|]. split; [done|]. split; [done|]. etrans; [exact Hd2|].
  unfold days_in. destruct (Z.eqb_spec mo 2) as [->|]; [|done]. simpl.
  destruct (Z.eqb_spec doy 365) as [->|]; [|destruct (is_leap _); lia].
  destruct (Hl eq_refl) as [H4 H100].
  enough (is_leap (yoe + era * 400 + 1) = true) as -> by done. unfold is_leap.
  rewrite andb_true_iff, orb_true_iff, negb_true_iff, !Z.eqb_eq, Z.eqb_neq.
  split; [zdiv|]. destruct (decide ((yoe + 1) mod 100 = 0)) as [E|E]; [right|left; zdiv].
  rewrite (H100 E). zdiv.
Qed.

Lemma char_digit_char d : 0 ≤ d < 10 → char_digit (digit_char d) = Some d.
Proof.
  intros H. assert (d ∈ [0;1;2;3;4;5;6;7;8;9]) as Hin by (repeat rewrite elem_of_cons; lia).
  repeat (apply elem_of_cons in Hin as [->|Hin]; [reflexivity|]).
  by apply not_elem_of_nil in Hin.
Qed.

Lemma p_digit_pad z s : p_digit (String (digit_char (z mod 10)) s) = Some (z mod 10, s).
Proof. unfold p_digit. rewrite char_digit_char; [done|]. apply Z.mod_pos_bound. lia. Qed.

Lemma pad2_app z s :
  pad 2 z +:+ s = String (digit_char (z / 10 mod 10)) (String (digit_char (z mod 10)) s).
Proof. reflexivity. Qed.

Lemma p_num2_pad z s : 0 ≤ z < 100 → p_num2 (pad 2 z +:+ s) = Some (z, s).
Proof.
  intros H. rewrite pad2_app. unfold p_num2, p_bind. rewrite !p_digit_pad.
  unfold p_ret. do 2 f_equal. zdiv.
Qed.

Lemma p_num12_pad z s : 0 ≤ z < 100 → p_num12 (pad 2 z +:+ s) = Some (z, s).
Proof.
  intros H. rewrite pad2_app. unfold p_num12, p_bind. rewrite !p_digit_pad.
  do 2 f_equal. zdiv.
Qed.

Lemma civil_year_range y m d :
  1 ≤ m ≤ 12 → 1 ≤ d ≤ 31 →
  days_from_civil 0 1 1 ≤ days_from_civil y m d < days_from_civil 10000 1 1 → 0 ≤ y < 10000.
Proof.
  intros Hm Hd. change (days_from_civil 0 1 1) with (-719528).
  change (days_from_civil 10000 1 1) with 2932897. unfold days_from_civil.
  destruct (Z.leb_spec m 2), (Z.ltb_spec 2 m); try lia; intros H'; zdiv.
Qed.

Lemma p_num4_pad z s : 0 ≤ z < 10000 → p_num4 (pad_min 4 z +:+ s) = Some (z, s).
Proof.
  intros H. unfold pad_min. destruct (Z.ltb_spec z (10 ^ Z.of_nat 4)) as [_|Hc]; [|cbn in Hc; lia].
  replace (pad 4 z +:+ s) with (pad 2 (z / 100) +:+ (pad 2 (z mod 100) +:+ s)).
  - unfold p_num4, p_bind. rewrite p_num2_pad by zdiv. rewrite p_num2_pad by zdiv.
    unfold p_ret. do 2 f_equal. zdiv.
  - rewrite !pad2_app. cbn [pad]. autorewrite with gostr.
    replace (z / 100 / 10 mod 10) with (z / 10 / 10 / 10 mod 10) by zdiv.
    replace (z / 100 mod 10) with (z / 10 / 10 mod 10) by zdiv.
    replace (z mod 100 / 10 mod 10) with (z / 10 mod 10) by zdiv.
    by replace (z mod 100 mod 10) with (z mod 10) by zdiv.
Qed.

Lemma p_char_eq c s : p_char c (String c s) = Some (tt, s).
Proof. cbn. by rewrite Ascii.eqb_refl. Qed.

(** The zone of a format is read back; offsets are whole minutes. *)
Lemma p_zone_fmt loc t :
  zone_offset t mod 60 = 0 → Z.abs (zone_offset t) < 25 * 3600 →
  p_zone (fmt_zone loc t) = Some (zone_offset t, "") ∧
  p_frac (fmt_zone loc t) = Some (0, fmt_zone loc t).
Proof.
  intros Hm Ha. unfold fmt_zone. change (loc t) with (zone_offset t) in *. set (o := zone_offset t) in *. clearbody o.
  destruct (Z.eqb_spec o 0) as [->|Hne]; [done|].
  assert (∃ q, o = 60 * q ∧ Z.abs q < 1500) as (q & -> & Hq) by (exists (o / 60); zdiv).
  replace (60 * q / 60) with q by zdiv.
  assert (0 ≤ Z.abs q / 60 ≤ 24 ∧ 0 ≤ Z.abs q mod 60 < 60 ∧ Z.abs q = 60 * (Z.abs q / 60) + Z.abs q mod 60)
    as (Hh & Hmi & Hs) by zdiv.
  revert Hh Hmi Hs. generalize (Z.abs q / 60) (Z.abs q mod 60). intros h mi Hh Hmi Hs.
  assert (∀ c, c = "+"%char ∨ c = "-"%char →
    p_zone (String c (pad 2 h +:+ ":" +:+ pad 2 mi)) =
      Some (if Ascii.eqb c "+" then (h * 60 + mi) * 60 else - ((h * 60 + mi) * 60), "")) as Hz.
  { intros c Hc.
    assert (p_num2 (pad 2 h +:+ ":" +:+ pad 2 mi) = Some (h, ":" +:+ pad 2 mi)) as H1 by (apply p_num2_pad; lia).
    assert (p_num2 (pad 2 mi) = Some (mi, "")) as H2.
    { rewrite <- (append_nil_r (pad 2 mi)). apply p_num2_pad. lia. }
    destruct Hc as [-> | ->]; unfold p_zone, p_bind at 1; rewrite H1; unfold p_bind at 1;
      rewrite append_cons, append_nil_l, p_char_eq; unfold p_bind; rewrite H2;
      rewrite (proj2 (Z.ltb_ge 24 h)), (proj2 (Z.ltb_ge 60 mi)) by lia; reflexivity. }
  destruct (Z.ltb_spec q 0); (split; [rewrite append_cons, append_nil_l, Hz by auto; cbn; do 2 f_equal; lia | done]).
Qed.

(** [time.Parse] recovers every instant [Format] prints, to the second, in any zone. *)
Lemma parse_fmt_local loc t :
  zone_offset t mod 60 = 0 → Z.abs (zone_offset t) < 25 * 3600 →
  days_from_civil 0 1 1 * 86400 ≤ local_seconds loc t < days_from_civil 10000 1 1 * 86400 →
  parse_rfc3339 (fmt_rfc3339 loc t) = Some (t / second * second).
Proof.
  intros Hm Ha Ht. destruct (p_zone_fmt loc t Hm Ha) as [Hz Hf].
  unfold parse_rfc3339, fmt_rfc3339, fmt_date, hh, mm, ss, civil_date, time_of_day.
  assert (local_seconds loc t = t / second + zone_offset t) as Hls by done.
  set (zo := zone_offset t) in *. clearbody zo. set (fz := fmt_zone loc t) in *. clearbody fz.
  set (sec := local_seconds loc t) in *. clearbody sec.
  destruct (civil_from_days (sec / 86400)) as [[y m] d] eqn:Hc.
  apply civil_from_days_spec in Hc as (Hd & Hmo & Hdd).
  assert (days_in m y ≤ 31) by (unfold days_in; repeat case_match; lia).
  assert (0 ≤ y < 10000) as Hy.
  { eapply (civil_year_range _ m d); [done|lia|]. rewrite Hd. zdiv. }
  rewrite !append_assoc.
  unfold p_rfc3339. unfold p_bind at 1. rewrite p_num4_pad by done. rewrite append_cons, append_nil_l.
  unfold p_bind at 1. rewrite p_char_eq. unfold p_bind at 1. rewrite p_num2_pad by lia.
  rewrite append_cons, append_nil_l.
  unfold p_bind at 1. rewrite p_char_eq. unfold p_bind at 1. rewrite p_num2_pad by lia.
  rewrite append_cons, append_nil_l.
  unfold p_bind at 1. rewrite p_char_eq. unfold p_bind at 1. rewrite p_num12_pad by zdiv.
  rewrite append_cons, append_nil_l.
  unfold p_bind at 1. rewrite p_char_eq. unfold p_bind at 1. rewrite p_num2_pad by zdiv.
  rewrite append_cons, append_nil_l.
  unfold p_bind at 1. rewrite p_char_eq. unfold p_bind at 1. rewrite p_num2_pad by zdiv.
  unfold p_bind at 1. rewrite Hf. unfold p_bind at 1. rewrite Hz.
  rewrite (proj2 (Z.ltb_ge m 1)), (proj2 (Z.ltb_ge 12 m)), (proj2 (Z.ltb_ge d 1)),
    (proj2 (Z.ltb_ge (days_in m y) d)) by lia.
  rewrite !(proj2 (Z.leb_gt _ _)) by zdiv.
  cbn. rewrite Hd, Z.add_0_r. do 2 f_equal. zdiv.
Qed.

Lemma parse_fmt_rfc3339 t :
  days_from_civil 0 1 1 * 86400 ≤ t / second < days_from_civil 10000 1 1 * 86400 →
  parse_rfc3339 (fmt_rfc3339 UTC t) = Some (t / second * second).
Proof.
  intros Ht. apply parse_fmt_local; [done|done|]. unfold local_seconds.
  change (@zone_offset UTC t) with 0. by rewrite Z.add_0_r.
Qed.

Example parse_rfc3339_ex :
  parse_rfc3339 "2026-08-09T01:02:03Z" = Some (1786237323 * second).
Proof. vm_compute. reflexivity. Qed.
Example fmt_rfc3339_ex :
  fmt_rfc3339 UTC (1786237323 * second + 5) = "2026-08-09T01:02:03Z".
Proof. vm_compute. reflexivity. Qed.
Example parse_rfc3339_zone :
  parse_rfc3339 "2026-08-09T9:02:03.5+08:00" = Some (1786237323 * second + 500000000).
Proof. vm_compute. reflexivity. Qed.

(** The dates contain no separator of the composite keys of the program. *)
Lemma pad_no_bar w z : has_char "|" (pad w z) = false.
Proof.
  revert z. induction w as [|w IH]; intros z; [done|]. cbn [pad].
  rewrite has_char_app, IH. cbn [has_char].
  assert (∀ d, 0 ≤ d < 10 → Ascii.eqb "|" (digit_char d) = false) as H.
  { intros d Hd. assert (d ∈ [0;1;2;3;4;5;6;7;8;9]) as Hin by (repeat rewrite elem_of_cons; lia).
    repeat (apply elem_of_cons in Hin as [->|Hin]; [reflexivity|]). by apply not_elem_of_nil in Hin. }
  rewrite H; [done|]. apply Z.mod_pos_bound. lia.
Qed.

Lemma fmt_date_no_bar loc t : has_char "|" (fmt_date loc t) = false.
Proof.
  unfold fmt_date. destruct (civil_date loc t) as [[y m] d].
  rewrite !has_char_app, !pad_no_bar. unfold pad_min.
  destruct (y <? 10 ^ Z.of_nat 4); [by rewrite pad_no_bar|].
  change (pretty y) with (dec y). by rewrite dec_no_bar.
Qed.
