(* ===== verification/Bytes.v ===== *)
(** * Byte strings

    Wire formats are lists of bytes, Go strings are Rocq strings: the conversions
    between them, big-endian integers, slices, and the functions of the package
    [strings] that split and join. *)

From S2P Require Import Prelude.

Notation bytes := (list Z).

Definition is_bytes (b : bytes) : Prop := Forall (λ x, 0 ≤ x < 256) b.

#[export] Instance is_bytes_dec b : Decision (is_bytes b).
Proof. unfold is_bytes. apply _. Defined.

(** The bytes of a string, and [string(b)]. *)
Fixpoint bytes_of (s : string) : bytes :=
  match s with
  | EmptyString => []
  | String c s' => Z.of_N (Ascii.N_of_ascii c) :: bytes_of s'
  end.

Definition str_of (b : bytes) : string :=
  foldr (λ x s, String (Ascii.ascii_of_N (Z.to_N x)) s) "" b.

(** [binary.BigEndian.PutUint16] and [PutUint32] of a truncated integer. *)
Definition put_uint16 (z : Z) : bytes := [z / 256 mod 256; z mod 256].
Definition put_uint32 (z : Z) : bytes :=
  [z / 2 ^ 24 mod 256; z / 2 ^ 16 mod 256; z / 256 mod 256; z mod 256].

(** [binary.BigEndian.Uint16] and [Uint32]. *)
Definition be_value (b : bytes) : Z := foldl (λ acc x, acc * 256 + x) 0 b.

(** [b[i:j]] *)
Definition slice (i j : nat) (b : bytes) : bytes := take (j - i) (drop i b).

(** [strings.Split(s, c)] for a separator of one byte, and [strings.Join(l, c)]. *)
Fixpoint split_on (c : ascii) (s : string) : list string :=
  match s with
  | EmptyString => [""]
  | String x s' =>
      if Ascii.eqb x c then "" :: split_on c s'
      else match split_on c s' with w :: l => String x w :: l | [] => [String x ""] end
  end.

Fixpoint join (c : ascii) (l : list string) : string :=
  match l with
  | [] => ""
  | [w] => w
  | w :: l' => w +:+ String c (join c l')
  end.

(** [trimSpace] (algorithm_governance.go); it is also taken for [strings.TrimSpace], on texts whose
    only white space is blanks, tabs and line ends. *)
Definition is_space (c : ascii) : bool :=
  Ascii.eqb c " " || Ascii.eqb c "009" || Ascii.eqb c "010" || Ascii.eqb c "013".

Fixpoint trim_left (s : string) : string :=
  match s with
  | String c s' => if is_space c then trim_left s' else s
  | EmptyString => EmptyString
  end.

Fixpoint trim_right (s : string) : string :=
  match s with
  | String c s' =>
      let r := trim_right s' in
      if is_space c && bool_decide (r = "") then "" else String c r
  | EmptyString => EmptyString
  end.

Definition trimSpace (s : string) : string := trim_right (trim_left s).

(** [strings.TrimSuffix(s, c)] for a suffix of one byte. *)
Fixpoint trim_last (c : ascii) (s : string) : string :=
  match s with
  | EmptyString => ""
  | String x s' =>
      match s' with
      | EmptyString => if Ascii.eqb x c then "" else s
      | _ => String x (trim_last c s')
      end
  end.

(** [strings.Cut(s, c)]. *)
Fixpoint cut (c : ascii) (s : string) : option (string * string) :=
  match s with
  | EmptyString => None
  | String x s' =>
      if Ascii.eqb x c then Some ("", s')
      else match cut c s' with Some (a, b) => Some (String x a, b) | None => None end
  end.

(** [strings.ReplaceAll(s, c, d)] for single bytes, and the removal of a byte. *)
Fixpoint replace_char (c d : ascii) (s : string) : string :=
  match s with
  | EmptyString => ""
  | String x s' => String (if Ascii.eqb x c then d else x) (replace_char c d s')
  end.
Fixpoint remove_char (c : ascii) (s : string) : string :=
  match s with
  | EmptyString => ""
  | String x s' => if Ascii.eqb x c then remove_char c s' else String x (remove_char c s')
  end.

(** [base64.StdEncoding.DecodeString]: newlines are skipped, padding is required, the bits
    padding leaves over are ignored. *)
Definition b64_value (c : ascii) : option Z :=
  let n := Z.of_N (Ascii.N_of_ascii c) in
  if (65 <=? n) && (n <=? 90) then Some (n - 65)
  else if (97 <=? n) && (n <=? 122) then Some (n - 71)
  else if (48 <=? n) && (n <=? 57) then Some (n + 4)
  else if n =? 43 then Some 62 else if n =? 47 then Some 63 else None.

Fixpoint b64_groups (s : string) : option bytes :=
  match s with
  | EmptyString => Some []
  | String a (String b (String c (String d rest))) =>
      x ← b64_value a; y ← b64_value b;
      if Ascii.eqb c "=" then
        if Ascii.eqb d "=" && bool_decide (rest = "") then Some [x * 4 + y / 16] else None
      else
        z ← b64_value c;
        if Ascii.eqb d "=" then
          if bool_decide (rest = "") then Some [x * 4 + y / 16; (y mod 16) * 16 + z / 4] else None
        else
          w ← b64_value d; l ← b64_groups rest;
          Some ([x * 4 + y / 16; (y mod 16) * 16 + z / 4; (z mod 4) * 64 + w] ++ l)
  | _ => None
  end.

Definition b64_decode (s : string) : option bytes :=
  b64_groups (remove_char "010" (remove_char "013" s)).

Example b64_decode_text : str_of <$> b64_decode "b21wIQ==" = Some "omp!".
Proof. reflexivity. Qed.

(** ** Conversions *)

Lemma str_of_bytes_of s : str_of (bytes_of s) = s.
Proof.
  induction s as [|c s IH]; [done|]. cbn. rewrite N2Z.id, Ascii.ascii_N_embedding. by f_equal.
Qed.

Lemma ascii_byte x : 0 ≤ x < 256 → Z.of_N (Ascii.N_of_ascii (Ascii.ascii_of_N (Z.to_N x))) = x.
Proof. intros. rewrite Ascii.N_ascii_embedding by lia. lia. Qed.

Lemma bytes_of_str_of b : is_bytes b → bytes_of (str_of b) = b.
Proof. induction 1 as [|x b Hx _ IH]; [done|]. cbn. fold (str_of b). by rewrite ascii_byte, IH. Qed.

Lemma bytes_of_bytes s : is_bytes (bytes_of s).
Proof.
  induction s as [|c s IH]; [constructor|]. cbn. constructor; [|exact IH].
  pose proof (Ascii.N_ascii_bounded c). lia.
Qed.

Lemma bytes_of_app a b : bytes_of (a +:+ b) = bytes_of a ++ bytes_of b.
Proof. induction a as [|c a IH]; [done|]. rewrite append_cons. cbn. by rewrite IH. Qed.

Lemma bytes_of_length s : length (bytes_of s) = String.length s.
Proof. induction s as [|c s IH]; [done|]. cbn. by rewrite IH. Qed.

Lemma str_length_app a b : String.length (a +:+ b) = (String.length a + String.length b)%nat.
Proof. by rewrite <- !bytes_of_length, bytes_of_app, length_app. Qed.

(** ** Integers *)

Lemma be_value_uint16 z : 0 ≤ z < 65536 → be_value (put_uint16 z) = z.
Proof. intros. cbn. zdiv. Qed.

Lemma be_value_uint32 z : 0 ≤ z < 2 ^ 32 → be_value (put_uint32 z) = z.
Proof. intros. cbn. zdiv. Qed.

(** ** Slices *)

(** A field written between two parts is read back. *)
Lemma slice_mid i j (a b c : bytes) :
  length a = i → (i + length b)%nat = j → slice i j (a ++ b ++ c) = b.
Proof.
  intros <- <-. unfold slice. rewrite drop_app_length.
  rewrite take_app_le by lia. by rewrite take_ge by lia.
Qed.

Lemma slice_length i j (b : bytes) : (j ≤ length b)%nat → length (slice i j b) = (j - i)%nat.
Proof. intros. unfold slice. rewrite length_take, length_drop. lia. Qed.

Lemma slice_bytes i j b : is_bytes b → is_bytes (slice i j b).
Proof. intros. unfold slice. by apply Forall_take, Forall_drop. Qed.

(** ** Splitting and joining *)

Lemma split_on_nonempty c s : split_on c s ≠ [].
Proof. destruct s as [|x s]; [done|]. cbn. destruct (Ascii.eqb x c); [done|]. by destruct (split_on c s). Qed.

Lemma split_on_word c w s :
  has_char c w = false →
  split_on c (w +:+ s) = match split_on c s with v :: l => (w +:+ v) :: l | [] => [w] end.
Proof.
  induction w as [|x w IH]; intros Hw.
  - rewrite append_nil_l. pose proof (split_on_nonempty c s). by destruct (split_on c s).
  - cbn in Hw. apply orb_false_iff in Hw as [Hx Hw]. rewrite append_cons. cbn.
    rewrite Ascii.eqb_sym, Hx, (IH Hw). by destruct (split_on c s).
Qed.

Lemma split_join c l : l ≠ [] → Forall (λ w, has_char c w = false) l → split_on c (join c l) = l.
Proof.
  induction l as [|w l IH]; [done|]. intros _ [Hw Hl]%Forall_cons. destruct l as [|v l].
  - cbn. rewrite <- (append_nil_r w) at 1. rewrite split_on_word by done. cbn. by rewrite append_nil_r.
  - change (join c (w :: v :: l)) with (w +:+ String c (join c (v :: l))).
    rewrite split_on_word by done. cbn [split_on]. rewrite Ascii.eqb_refl, append_nil_r. f_equal.
    by apply IH.
Qed.

Lemma trim_last_snoc c s : trim_last c (s +:+ String c "") = s.
Proof.
  induction s as [|x s IH]; [rewrite append_nil_l; cbn; by rewrite Ascii.eqb_refl|]. rewrite append_cons.
  change (trim_last c (String x (s +:+ String c ""))) with
    (match s +:+ String c "" with
     | EmptyString => if Ascii.eqb x c then "" else String x (s +:+ String c "")
     | _ => String x (trim_last c (s +:+ String c "")) end).
  destruct (s +:+ String c "") eqn:E; [by destruct s|]. by rewrite IH.
Qed.

Lemma cut_app c a b : has_char c a = false → cut c (a +:+ String c b) = Some (a, b).
Proof.
  induction a as [|x a IH]; intros Ha; [rewrite append_nil_l; cbn; by rewrite Ascii.eqb_refl|].
  cbn in Ha. apply orb_false_iff in Ha as [Hx Ha]. rewrite append_cons. cbn.
  by rewrite Ascii.eqb_sym, Hx, IH.
Qed.

Lemma replace_absent c d s : has_char c s = false → replace_char c d s = s.
Proof.
  induction s as [|x s IH]; [done|]. cbn. intros [Hx Hs]%orb_false_iff.
  by rewrite Ascii.eqb_sym, Hx, IH.
Qed.
Lemma remove_absent c s : has_char c s = false → remove_char c s = s.
Proof.
  induction s as [|x s IH]; [done|]. cbn. intros [Hx Hs]%orb_false_iff.
  by rewrite Ascii.eqb_sym, Hx, IH.
Qed.

(** ** Decimal numbers *)

Lemma pretty_char_value d :
  (d < 10)%N → Z.of_N (Ascii.N_of_ascii (pretty_N_char d)) = 48 + Z.of_N d.
Proof.
  intros. assert (d = 0 ∨ d = 1 ∨ d = 2 ∨ d = 3 ∨ d = 4 ∨ d = 5 ∨ d = 6 ∨ d = 7 ∨ d = 8 ∨ d = 9)%N by lia.
  naive_solver.
Qed.

Lemma parse_pretty_go x :
  ∃ k, 0 ≤ k ∧ ∀ acc s, parse_digits acc (pretty_N_go x s) = parse_digits (acc * 10 ^ k + Z.of_N x) s.
Proof.
  induction (N.lt_wf_0 x) as [x _ IH]. destruct (decide (x = 0)%N) as [->|Hx].
  { exists 0. split; [lia|]. intros acc s. rewrite pretty_N_go_0, Z.pow_0_r. f_equal. lia. }
  destruct (IH (x `div` 10)%N) as (k & Hk0 & Hk); [apply N.div_lt; lia|].
  exists (k + 1). split; [lia|]. intros acc s. rewrite pretty_N_go_step by lia. rewrite Hk. cbn [parse_digits].
  pose proof (N.mod_lt x 10 ltac:(done)). rewrite pretty_char_value by done.
  pose proof (N.div_mod x 10 ltac:(done)). set (d := (x mod 10)%N) in *. set (q := (x / 10)%N) in *.
  assert (Hd : (0 <= Z.of_N d < 10)%Z) by lia.
  rewrite (proj2 (Z.leb_le 48 _)), (proj2 (Z.leb_le _ 57)) by lia. cbn [andb]. f_equal.
  rewrite Z.pow_add_r by lia. lia.
Qed.

(** [strconv.ParseInt] reads back what [strconv.FormatInt] wrote. *)
Lemma parse_int64_dec z : 0 ≤ z < 2 ^ 63 → parse_int64 (dec z) = Some z.
Proof.
  intros Hz. assert (Hd : dec z = pretty_N_go (Z.to_N z) "" ∨ z = 0 ∧ dec z = "0").
  { destruct z as [|p|p]; [by right|left|lia]. change (dec (Z.pos p)) with (pretty (N.pos p)).
    unfold pretty, pretty_N. by case_decide. }
  destruct Hd as [Hd|[-> ->]]; [|reflexivity].
  destruct (decide (z = 0)) as [->|Hne]; [reflexivity|].
  destruct (parse_pretty_go (Z.to_N z)) as (k & _ & Hk). specialize (Hk 0 "").
  assert (Hs : ∀ c, has_char c "0123456789" = false → has_char c (dec z) = false).
  { intros c Hc. rewrite Hd. by rewrite pretty_N_go_has_char. }
  pose proof (Hs "-"%char eq_refl) as Hm. pose proof (Hs "+"%char eq_refl) as Hp. rewrite <- Hd in Hk.
  destruct (dec z) as [|c s] eqn:E.
  { exfalso. cbn in Hk. injection Hk as Hk. lia. }
  cbn [has_char] in Hm, Hp. apply orb_false_iff in Hm as [Hm _], Hp as [Hp _].
  unfold parse_int64. rewrite !(Ascii.eqb_sym c), Hm, Hp, Hk. cbn [mbind option_bind].
  rewrite Z.mul_0_l, Z.add_0_l, Z2N.id by lia. cbn [parse_digits mbind option_bind]. rewrite bool_decide_eq_true_2 by (unfold is_int64; lia). done.
Qed.

(** [base64.StdEncoding.EncodeToString]. *)
Definition b64_char (v : Z) : ascii :=
  Ascii.ascii_of_N (Z.to_N (if v <? 26 then v + 65 else if v <? 52 then v + 71 else if v <? 62 then v - 4
                            else if v =? 62 then 43 else 47)).

Fixpoint b64_encode (b : bytes) : string :=
  match b with
  | [] => ""
  | [x] => String (b64_char (x / 4)) (String (b64_char (x mod 4 * 16)) "==")
  | [x; y] => String (b64_char (x / 4)) (String (b64_char (x mod 4 * 16 + y / 16))
                (String (b64_char (y mod 16 * 4)) "="))
  | x :: y :: z :: b => String (b64_char (x / 4)) (String (b64_char (x mod 4 * 16 + y / 16))
                (String (b64_char (y mod 16 * 4 + z / 64)) (String (b64_char (z mod 64)) (b64_encode b))))
  end.

Definition b64_char_ok (v : Z) : bool :=
  bool_decide (b64_value (b64_char v) = Some v) && negb (Ascii.eqb (b64_char v) "=")
  && negb (Ascii.eqb "010" (b64_char v)) && negb (Ascii.eqb "013" (b64_char v)) && negb (Ascii.eqb ":" (b64_char v)).
Lemma b64_char_code v : 0 ≤ v < 64 → b64_value (b64_char v) = Some v ∧ Ascii.eqb (b64_char v) "=" = false ∧
  Ascii.eqb "010" (b64_char v) = false ∧ Ascii.eqb "013" (b64_char v) = false ∧ Ascii.eqb ":" (b64_char v) = false.
Proof.
  intros Hv. assert (forallb b64_char_ok (Z.of_nat <$> seq 0 64) = true) as H by (vm_compute; reflexivity).
  rewrite forallb_forall in H. specialize (H v). unfold b64_char_ok in H.
  rewrite !andb_true_iff, bool_decide_eq_true, !negb_true_iff in H. destruct H as [[[[H1 H2] H3] H4] H5]; [|done].
  apply list_elem_of_In, list_elem_of_fmap. exists (Z.to_nat v). split; [lia|]. apply elem_of_seq. lia.
Qed.

Lemma bytes_ind3 (P : bytes → Prop) :
  P [] → (∀ x, P [x]) → (∀ x y, P [x; y]) → (∀ x y z b, P b → P (x :: y :: z :: b)) → ∀ b, P b.
Proof.
  intros H0 H1 H2 H3. fix IH 1. intros [|x [|y [|z b]]]; [done|apply H1|apply H2|apply H3, IH].
Qed.

(** The four sextets of three bytes, and back. *)
Lemma pack_div a b n : 0 ≤ b < n → (a * n + b) / n = a.
Proof. intros. rewrite Z.div_add_l by lia. rewrite Z.div_small by lia. lia. Qed.
Lemma pack_mod a b n : 0 ≤ b < n → (a * n + b) mod n = b.
Proof. intros. rewrite Z.add_comm, Z.mod_add by lia. by apply Z.mod_small. Qed.

Lemma top_bits x n m : 0 < n → 0 ≤ x < n * m → 0 ≤ x / n < m.
Proof. intros Hn [H0 H1]. split; [by apply Z.div_pos|by apply Z.div_lt_upper_bound]. Qed.
Lemma sextet1 x : 0 ≤ x < 256 → 0 ≤ x / 4 < 64.
Proof. apply (top_bits x 4 64). done. Qed.
Lemma sextet2 x y : 0 ≤ y < 256 → 0 ≤ x mod 4 * 16 + y / 16 < 64.
Proof.
  intros H. pose proof (Z.mod_pos_bound x 4 eq_refl). pose proof (top_bits y 16 16 eq_refl H). lia.
Qed.
Lemma sextet3 y z : 0 ≤ z < 256 → 0 ≤ y mod 16 * 4 + z / 64 < 64.
Proof.
  intros H. pose proof (Z.mod_pos_bound y 16 eq_refl). pose proof (top_bits z 64 4 eq_refl H). lia.
Qed.
Lemma sextet4 z : 0 ≤ z mod 64 < 64. Proof. by apply Z.mod_pos_bound. Qed.
Lemma sextet2_end x : 0 ≤ x mod 4 * 16 < 64. Proof. pose proof (Z.mod_pos_bound x 4 eq_refl). lia. Qed.
Lemma sextet3_end y : 0 ≤ y mod 16 * 4 < 64. Proof. pose proof (Z.mod_pos_bound y 16 eq_refl). lia. Qed.
Create HintDb sextets.
#[export] Hint Resolve sextet1 sextet2 sextet3 sextet4 sextet2_end sextet3_end : sextets.

Lemma byte1 x y : 0 ≤ y < 256 → x / 4 * 4 + (x mod 4 * 16 + y / 16) / 16 = x.
Proof. intros H. rewrite pack_div by exact (top_bits y 16 16 eq_refl H). rewrite Z.mul_comm. by rewrite <- Z.div_mod. Qed.
Lemma byte2 x y z : 0 ≤ y < 256 → 0 ≤ z < 256 →
  (x mod 4 * 16 + y / 16) mod 16 * 16 + (y mod 16 * 4 + z / 64) / 4 = y.
Proof.
  intros Hy Hz. rewrite pack_mod by exact (top_bits y 16 16 eq_refl Hy).
  rewrite pack_div by exact (top_bits z 64 4 eq_refl Hz). rewrite Z.mul_comm. by rewrite <- Z.div_mod.
Qed.
Lemma byte3 y z : 0 ≤ z < 256 → (y mod 16 * 4 + z / 64) mod 4 * 64 + z mod 64 = z.
Proof. intros H. rewrite pack_mod by exact (top_bits z 64 4 eq_refl H). rewrite Z.mul_comm. by rewrite <- Z.div_mod. Qed.
Lemma byte1_end x : x / 4 * 4 + x mod 4 * 16 / 16 = x.
Proof. rewrite Z.div_mul, Z.mul_comm by done. by rewrite <- Z.div_mod. Qed.
Lemma byte2_end x y : 0 ≤ y < 256 → (x mod 4 * 16 + y / 16) mod 16 * 16 + y mod 16 * 4 / 4 = y.
Proof.
  intros H. rewrite pack_mod by exact (top_bits y 16 16 eq_refl H). rewrite Z.div_mul, Z.mul_comm by done.
  by rewrite <- Z.div_mod.
Qed.

Lemma b64_char_not c v : c = "010"%char ∨ c = "013"%char ∨ c = ":"%char → 0 ≤ v < 64 → Ascii.eqb c (b64_char v) = false.
Proof. intros [-> |[-> | ->]] Hv; by destruct (b64_char_code v Hv) as (_ & _ & ? & ? & ?). Qed.

Lemma b64_encode_clean c b : c = "010"%char ∨ c = "013"%char ∨ c = ":"%char → is_bytes b → has_char c (b64_encode b) = false.
Proof.
  intros Hc. induction b as [|x|x y|x y z b IH] using bytes_ind3; intros Hb; [done|..];
    repeat (apply Forall_cons in Hb as [? Hb]); cbn [b64_encode has_char];
    rewrite ?IH, ?b64_char_not by auto with sextets; by destruct Hc as [-> |[-> | ->]].
Qed.

Lemma b64_groups_encode b : is_bytes b → b64_groups (b64_encode b) = Some b.
Proof.
  assert (∀ v, 0 ≤ v < 64 → b64_value (b64_char v) = Some v) as Hv by (intros v H; apply (b64_char_code v H)).
  assert (∀ v, 0 ≤ v < 64 → Ascii.eqb (b64_char v) "=" = false) as He by (intros v H; apply (b64_char_code v H)).
  induction b as [|x|x y|x y z b IH] using bytes_ind3; intros Hb; [done|..];
    repeat (apply Forall_cons in Hb as [? Hb]); cbn [b64_encode b64_groups];
    rewrite ?IH by done; rewrite ?Hv, ?He by auto with sextets; cbn [mbind option_bind app].
  - by rewrite byte1_end.
  - by rewrite byte1, byte2_end.
  - by rewrite byte1, byte2, byte3.
Qed.

Lemma b64_decode_encode b : is_bytes b → b64_decode (b64_encode b) = Some b.
Proof.
  intros Hb. unfold b64_decode.
  rewrite (remove_absent "013") by auto using b64_encode_clean.
  rewrite remove_absent by auto using b64_encode_clean. by apply b64_groups_encode.
Qed.

(** ** Upper case *)

Definition upper (c : ascii) : ascii :=
  let n := Ascii.N_of_ascii c in if (97 <=? n)%N && (n <=? 122)%N then Ascii.ascii_of_N (n - 32) else c.
(** [strings.ToUpper] of an ASCII text. *)
Fixpoint to_upper (s : string) : string :=
  match s with EmptyString => "" | String c s' => String (upper c) (to_upper s') end.
