(* ===== verification/Sha256.v ===== *)
(** * SHA-256 and hexadecimal

    The two functions of Go's standard library every chain, fingerprint and
    content hash of the program goes through: [sha256.Sum256] on a byte string
    and [hex.EncodeToString].  A word is a [Z] of 32 bits, a byte a [Z] of 8
    bits; strings are byte sequences. *)

From S2P Require Import Prelude Bytes.

Definition add32 (a b : Z) : Z := (a + b) mod 2 ^ 32.

(** [bits.RotateLeft32(x, -n)]. *)
Definition rotr (n x : Z) : Z :=
  Z.lor (Z.shiftr x n) (Z.shiftl x (32 - n) mod 2 ^ 32).

Definition big_sigma0 (x : Z) : Z := Z.lxor (rotr 2 x) (Z.lxor (rotr 13 x) (rotr 22 x)).
Definition big_sigma1 (x : Z) : Z := Z.lxor (rotr 6 x) (Z.lxor (rotr 11 x) (rotr 25 x)).
Definition small_sigma0 (x : Z) : Z := Z.lxor (rotr 7 x) (Z.lxor (rotr 18 x) (Z.shiftr x 3)).
Definition small_sigma1 (x : Z) : Z := Z.lxor (rotr 17 x) (Z.lxor (rotr 19 x) (Z.shiftr x 10)).
Definition ch (x y z : Z) : Z := Z.lxor (Z.land x y) (Z.land (Z.lxor x (2 ^ 32 - 1)) z).
Definition maj (x y z : Z) : Z := Z.lxor (Z.land x y) (Z.lxor (Z.land x z) (Z.land y z)).

(** The constants are those of FIPS 180-4: 32 bits of the fractional parts of the
    cube roots of the first 64 primes, and of the square roots of the first 8. *)
Definition is_prime (n : Z) : bool :=
  forallb (λ d, negb (n mod Z.of_nat d =? 0)) (seq 2 (Z.to_nat (Z.sqrt n) - 1)).
Definition primes : list Z :=
  Eval vm_compute in take 64 (List.filter is_prime (Z.of_nat <$> seq 2 310)).

(** The largest [r] with [r ^ 3 ≤ n], bit by bit from [2 ^ k]. *)
Fixpoint cube_root (k : nat) (n r : Z) : Z :=
  let r' := r + 2 ^ Z.of_nat k in
  let r1 := if r' ^ 3 <=? n then r' else r in
  match k with O => r1 | S k' => cube_root k' n r1 end.

Definition round_constants : list Z :=
  Eval vm_compute in (λ p, cube_root 40 (p * 2 ^ 96) 0 mod 2 ^ 32) <$> primes.

Definition initial_hash : list Z :=
  Eval vm_compute in (λ p, Z.sqrt (p * 2 ^ 64) mod 2 ^ 32) <$> take 8 primes.

(** [n] bytes of [z], most significant first. *)
Fixpoint be_bytes (n : nat) (z : Z) : list Z :=
  match n with
  | O => []
  | S n' => be_bytes n' (z / 256) ++ [z mod 256]
  end.

(** The padded message: a one bit, zeros, and the length in bits. *)
Definition padded (msg : list Z) : list Z :=
  let n := Z.of_nat (length msg) in
  msg ++ [128] ++ replicate (Z.to_nat ((55 - n) mod 64)) 0 ++ be_bytes 8 (8 * n).

Fixpoint words_of (l : list Z) : list Z :=
  match l with
  | a :: b :: c :: d :: l' => (((a * 256 + b) * 256 + c) * 256 + d) :: words_of l'
  | _ => []
  end.

(** The message schedule, most recent word first. *)
Fixpoint schedule (n : nat) (w : list Z) : list Z :=
  match n with
  | O => w
  | S n' =>
      let at_ i := default 0 (w !! i) in
      schedule n'
        (add32 (add32 (small_sigma1 (at_ 1%nat)) (at_ 6%nat))
               (add32 (small_sigma0 (at_ 14%nat)) (at_ 15%nat)) :: w)
  end.

Definition round (st : list Z) (kw : Z * Z) : list Z :=
  match st with
  | [a; b; c; d; e; f; g; h] =>
      let t1 := add32 (add32 h (big_sigma1 e)) (add32 (ch e f g) (add32 kw.1 kw.2)) in
      let t2 := add32 (big_sigma0 a) (maj a b c) in
      [add32 t1 t2; a; b; c; add32 d t1; e; f; g]
  | _ => st
  end.

Definition compress (st block : list Z) : list Z :=
  let w := rev (schedule 48 (rev block)) in
  zip_with add32 st (foldl round st (zip round_constants w)).

(** The compression function over the 16-word blocks of the message. *)
Fixpoint blocks (n : nat) (st ws : list Z) : list Z :=
  match n with
  | O => st
  | S n' => blocks n' (compress st (take 16 ws)) (drop 16 ws)
  end.

Definition sha256_words (msg : list Z) : list Z :=
  let ws := words_of (padded msg) in
  blocks (length ws / 16) initial_hash ws.

(** [sha256.Sum256]: 32 bytes. *)
Definition sum256 (s : string) : list Z :=
  sha256_words (bytes_of s) ≫= be_bytes 4.

Definition hex_digit (d : Z) : ascii :=
  Ascii.ascii_of_N (Z.to_N (if d <? 10 then 48 + d else 87 + d)).

(** [hex.EncodeToString]. *)
Fixpoint hex (l : list Z) : string :=
  match l with
  | [] => ""
  | b :: l' => String (hex_digit (b / 16)) (String (hex_digit (b mod 16)) (hex l'))
  end.

Definition sha256_hex (s : string) : string := hex (sum256 s).

(** ** Facts the components use *)

Lemma round_length st kw : length (round st kw) = length st.
Proof.
  unfold round. destruct st as [|a [|b [|c [|d [|e [|f [|g [|h [|]]]]]]]]]; reflexivity.
Qed.

Lemma rounds_length st l : length (foldl round st l) = length st.
Proof. revert st. induction l as [|kw l IH]; intros st; simpl; [done|]. by rewrite IH, round_length. Qed.

Lemma compress_length st b : length (compress st b) = length st.
Proof. unfold compress. rewrite length_zip_with, rounds_length. lia. Qed.

Lemma blocks_length n st ws : length (blocks n st ws) = length st.
Proof. revert st ws. induction n as [|n IH]; intros; simpl; [done|]. by rewrite IH, compress_length. Qed.

Lemma be_bytes_length n z : length (be_bytes n z) = n.
Proof. revert z. induction n as [|n IH]; intros; simpl; [done|]. rewrite length_app, IH. simpl. lia. Qed.

Lemma bind_be_bytes_length l : length (l ≫= be_bytes 4) = (4 * length l)%nat.
Proof.
  induction l as [|x l IH]; [done|]. rewrite bind_cons, length_app, be_bytes_length, IH.
  simpl. lia.
Qed.

Lemma sum256_length s : length (sum256 s) = 32%nat.
Proof. unfold sum256, sha256_words. by rewrite bind_be_bytes_length, blocks_length. Qed.

Lemma hex_length l : String.length (hex l) = (2 * length l)%nat.
Proof. induction l as [|b l IH]; simpl; [done|]. rewrite IH. lia. Qed.

Lemma sha256_hex_length s : String.length (sha256_hex s) = 64%nat.
Proof. unfold sha256_hex. by rewrite hex_length, sum256_length. Qed.

Lemma sha256_hex_not_nil s : sha256_hex s ≠ "".
Proof. intros H. pose proof (sha256_hex_length s) as L. rewrite H in L. done. Qed.

Example sha256_abc :
  sha256_hex "abc" = "ba7816bf8f01cfea414140de5dae2223b00361a396177a9cb410ff61f20015ad".
Proof. vm_compute. reflexivity. Qed.

(** Two byte strings with the same digest: what a forger has to produce. *)
Definition collision (a b : string) : Prop := a ≠ b ∧ sha256_hex a = sha256_hex b.

Lemma sha256_hex_eq a b : sha256_hex a = sha256_hex b → a = b ∨ collision a b.
Proof. intros H. destruct (decide (a = b)); [by left|by right]. Qed.

#[global] Opaque sha256_hex.
