(* ===== verification/GoSort.v ===== *)
(** * [sort.SliceStable] and index-based comparison

    A stable sort is determined by its comparison, so it is written as an
    insertion sort. The last section is the sort as it runs on the array, with
    a comparison of positions: for at most twenty elements [sort.SliceStable] is
    a plain insertion sort by swaps. *)

From S2P Require Import Prelude.

(** Filters that agree on the elements of the list. *)
Lemma filter_ext_in {A} (P Q : A → Prop) `{∀ x, Decision (P x), ∀ x, Decision (Q x)} (l : list A) :
  (∀ x, x ∈ l → P x ↔ Q x) → filter P l = filter Q l.
Proof.
  induction l as [|x l IH]; intros HPQ; [done|]. rewrite !filter_cons.
  pose proof (HPQ x ltac:(left)) as Hx. rewrite IH by (intros; apply HPQ; by right).
  destruct (decide (P x)), (decide (Q x)); done || tauto.
Qed.

Section stable.
Context {A : Type} (less : A → A → bool).

Fixpoint insert_stable (x : A) (l : list A) : list A :=
  match l with
  | [] => [x]
  | y :: l' => if less y x then y :: insert_stable x l' else x :: l
  end.

Definition sort_stable (l : list A) : list A := foldr insert_stable [] l.

Lemma insert_stable_perm x l : insert_stable x l ≡ₚ x :: l.
Proof.
  induction l as [|y l IH]; [done|]. cbn. destruct (less y x); [|done].
  rewrite IH. apply Permutation_swap.
Qed.

Lemma sort_stable_perm l : sort_stable l ≡ₚ l.
Proof. induction l as [|x l IH]; [done|]. cbn. by rewrite insert_stable_perm, IH. Qed.

Lemma sort_stable_elem x l : x ∈ sort_stable l ↔ x ∈ l.
Proof. by rewrite sort_stable_perm. Qed.

(** The comparison is a strict weak order. *)
Class StrictWeak : Prop := {
  sw_irrefl x : less x x = false;
  sw_trans x y z : less x y = true → less y z = true → less x z = true;
  sw_incomp x y z : less x y = false → less y z = false → less x z = false }.

Context `{StrictWeak}.

Lemma sw_asym x y : less x y = true → less y x = false.
Proof.
  intros Hxy. destruct (less y x) eqn:E; [|done].
  pose proof (sw_trans x y x Hxy E) as Hx. by rewrite sw_irrefl in Hx.
Qed.

(** No later element is smaller. *)
Definition sorted_by (l : list A) : Prop := StronglySorted (λ x y, less y x = false) l.

Lemma insert_stable_sorted x l : sorted_by l → sorted_by (insert_stable x l).
Proof.
  induction l as [|y l IH]; intros Hs; [by repeat constructor|]. cbn.
  inversion_clear Hs as [|? ? Hs' Hy]. destruct (less y x) eqn:E.
  - constructor; [by apply IH|]. rewrite Forall_forall in Hy |- *. intros z Hz.
    rewrite insert_stable_perm in Hz. apply elem_of_cons in Hz as [->|Hz]; [by apply sw_asym|by apply Hy].
  - constructor; [by constructor|]. constructor; [done|].
    rewrite Forall_forall in Hy |- *. intros z Hz. apply (sw_incomp z y x); [by apply Hy|done].
Qed.

Lemma sort_stable_sorted l : sorted_by (sort_stable l).
Proof. induction l as [|x l IH]; [constructor|]. cbn. by apply insert_stable_sorted. Qed.

(** Elements no comparison tells apart keep their order. *)
Lemma insert_stable_filter (P : A → Prop) `{∀ x, Decision (P x)} x l :
  (∀ y z, P y → P z → less y z = false) → sorted_by l →
  filter P (insert_stable x l) = filter P (x :: l).
Proof.
  intros HP. induction l as [|y l IH]; intros Hs; [done|]. cbn [insert_stable].
  destruct (less y x) eqn:E; [|done]. inversion_clear Hs as [|? ? Hs' Hy].
  rewrite (filter_cons _ y), IH by done. rewrite !(filter_cons _ x), (filter_cons _ y).
  destruct (decide (P x)) as [Hx|Hx], (decide (P y)) as [Hy'|Hy']; try done.
  by rewrite (HP y x Hy' Hx) in E.
Qed.

Lemma sort_stable_filter (P : A → Prop) `{∀ x, Decision (P x)} l :
  (∀ y z, P y → P z → less y z = false) → filter P (sort_stable l) = filter P l.
Proof.
  intros HP. induction l as [|x l IH]; [done|].
  change (sort_stable (x :: l)) with (insert_stable x (sort_stable l)).
  rewrite insert_stable_filter by (done || apply sort_stable_sorted).
  by rewrite !filter_cons, IH.
Qed.

(** The first element after sorting has nothing below it. *)
Lemma sort_stable_head l x l' : sort_stable l = x :: l' → x ∈ l ∧ ∀ y, y ∈ l → less y x = false.
Proof.
  intros E. pose proof (sort_stable_sorted l) as Hs. rewrite E in Hs.
  inversion_clear Hs as [|? ? _ Hx]. split.
  - apply sort_stable_elem. rewrite E. left.
  - intros y Hy. apply sort_stable_elem in Hy. rewrite E in Hy.
    apply elem_of_cons in Hy as [->|Hy]; [apply sw_irrefl|]. rewrite Forall_forall in Hx. by apply Hx.
Qed.

Lemma sort_stable_nil l : sort_stable l = [] ↔ l = [].
Proof.
  split; [|by intros ->]. intros E. pose proof (sort_stable_perm l) as Hp. rewrite E in Hp.
  by apply Permutation_nil_l in Hp.
Qed.
End stable.

Arguments StrictWeak {A} less.

(** A comparison of integer keys. *)
#[export] Instance key_weak {A} (f : A → Z) : StrictWeak (λ x y, f x <? f y).
Proof.
  split; intros; rewrite ?Z.ltb_lt, ?Z.ltb_ge in *; lia.
Qed.
#[export] Instance key_weak_desc {A} (f : A → Z) : StrictWeak (λ x y, f y <? f x).
Proof.
  split; intros; rewrite ?Z.ltb_lt, ?Z.ltb_ge in *; lia.
Qed.

(** ** Sorting with a comparison of positions *)

(** Swap the elements at [j - 1] and [j]. *)
Definition swap_down {A} (j : nat) (l : list A) : list A :=
  match l !! (j - 1)%nat, l !! j with
  | Some x, Some y => <[j := x]> (<[(j - 1)%nat := y]> l)
  | _, _ => l
  end.

(** [for j := i; j > 0 && less(j, j-1); j-- { swap(j, j-1) }]. *)
Fixpoint sift_down {A} (less : nat → nat → bool) (j : nat) (l : list A) : list A :=
  match j with
  | O => l
  | S j' => if less j j' then sift_down less j' (swap_down j l) else l
  end.

(** The insertion sort of [sort.SliceStable] on at most twenty elements. *)
Definition insertion_by_index {A} (less : nat → nat → bool) (l : list A) : list A :=
  foldl (λ l i, sift_down less i l) l (seq 1 (length l - 1)).

Lemma swap_down_perm {A} j (l : list A) : swap_down (S j) l ≡ₚ l.
Proof.
  unfold swap_down. replace (S j - 1)%nat with j by lia.
  destruct (l !! j) as [x|] eqn:Ex, (l !! S j) as [y|] eqn:Ey; try done.
  rewrite <- (take_drop_middle l j x Ex) at 2.
  assert (Ed : drop (S j) l = y :: drop (S (S j)) l) by (by apply drop_S).
  rewrite Ed. rewrite <- (take_drop_middle l j x Ex) at 1. rewrite Ed.
  pose proof (lookup_lt_Some _ _ _ Ex) as Hj.
  assert (Hl : length (take j l) = j) by (rewrite length_take; lia).
  rewrite insert_app_r_alt by lia. rewrite Hl, Nat.sub_diag. cbn [insert list_insert].
  rewrite insert_app_r_alt by lia. rewrite Hl. replace (S j - j)%nat with 1%nat by lia.
  cbn [insert list_insert]. apply Permutation_app_head, Permutation_swap.
Qed.

Lemma sift_down_perm {A} less j (l : list A) : sift_down less j l ≡ₚ l.
Proof.
  revert l. induction j as [|j IH]; intros l; [done|]. cbn [sift_down].
  destruct (less _ _); [|done]. by rewrite IH, swap_down_perm.
Qed.

Lemma insertion_by_index_perm {A} less (l : list A) : insertion_by_index less l ≡ₚ l.
Proof.
  unfold insertion_by_index. generalize (seq 1 (length l - 1)). intros idx. revert l.
  induction idx as [|i idx IH]; intros l; [done|]. cbn [foldl]. by rewrite IH, sift_down_perm.
Qed.

(** ** Comparing floats *)

Definition is_nan (f : float64) : bool := match f with SpecFloat.S754_nan => true | _ => false end.

(** The place of a float in the order: class, exponent and mantissa. *)
Definition rank (f : float64) : Z * Z * Z :=
  match f with
  | SpecFloat.S754_infinity true => (-2, 0, 0)
  | SpecFloat.S754_finite true m e => (-1, - e, - Z.pos m)
  | SpecFloat.S754_zero _ => (0, 0, 0)
  | SpecFloat.S754_finite false m e => (1, e, Z.pos m)
  | SpecFloat.S754_infinity false => (2, 0, 0)
  | SpecFloat.S754_nan => (3, 0, 0)
  end.

Definition rank_lt (a b : Z * Z * Z) : Prop :=
  a.1.1 < b.1.1 ∨ a.1.1 = b.1.1 ∧ (a.1.2 < b.1.2 ∨ a.1.2 = b.1.2 ∧ a.2 < b.2).

Lemma fltb_rank a b :
  is_nan a = false → is_nan b = false → fltb a b = true ↔ rank_lt (rank a) (rank b).
Proof.
  unfold fltb, SpecFloat.SFltb, rank_lt.
  destruct a as [sa|sa| |sa ma ea], b as [sb|sb| |sb mb eb]; try done; intros _ _;
    destruct sa, sb; cbn; try (split; [intros ?; try done; lia|intros ?; try done; exfalso; lia]).
  - destruct (Z.compare_spec ea eb) as [->|E|E]; cbn.
    + change (Pos.compare_cont Eq ma mb) with (Pos.compare ma mb).
      destruct (Pos.compare_spec ma mb) as [->|Em|Em]; cbn; split; intros ?; try done; lia.
    + split; intros ?; try done; lia.
    + split; intros ?; try done; lia.
  - destruct (Z.compare_spec ea eb) as [->|E|E]; cbn.
    + change (Pos.compare_cont Eq ma mb) with (Pos.compare ma mb).
      destruct (Pos.compare_spec ma mb) as [->|Em|Em]; cbn; split; intros ?; try done; lia.
    + split; intros ?; try done; lia.
    + split; intros ?; try done; lia.
Qed.

(** Keys that are numbers compare as a strict weak order. *)
Lemma float_weak {A} (f : A → float64) :
  (∀ x, is_nan (f x) = false) → StrictWeak (λ x y, fltb (f x) (f y)).
Proof.
  intros Hf. assert (Hlt : ∀ x y, fltb (f x) (f y) = true ↔ rank_lt (rank (f x)) (rank (f y)))
    by (intros; by apply fltb_rank).
  assert (Hge : ∀ x y, fltb (f x) (f y) = false ↔ ¬ rank_lt (rank (f x)) (rank (f y))).
  { intros x y. rewrite <- Hlt. by rewrite not_true_iff_false. }
  split; intros *; rewrite ?Hlt, ?Hge; unfold rank_lt; lia.
Qed.

(** ** Sorting by numbers *)

Lemma insert_stable_ext {A} (less less' : A → A → bool) x l :
  (∀ y, y ∈ l → less y x = less' y x) → insert_stable less x l = insert_stable less' x l.
Proof.
  induction l as [|y l IH]; intros Hl; [done|]. cbn. rewrite <- (Hl y) by left.
  destruct (less y x); [|done]. f_equal. apply IH. intros z Hz. apply Hl. by right.
Qed.

Lemma sort_stable_ext {A} (less less' : A → A → bool) l :
  (∀ x y, x ∈ l → y ∈ l → less x y = less' x y) → sort_stable less l = sort_stable less' l.
Proof.
  induction l as [|x l IH]; intros Hl; [done|].
  change (insert_stable less x (sort_stable less l) = insert_stable less' x (sort_stable less' l)).
  rewrite <- IH by (intros; apply Hl; by right). apply insert_stable_ext.
  intros y Hy. rewrite sort_stable_elem in Hy. apply Hl; [by right|left].
Qed.

Lemma sorted_by_ext {A} (less less' : A → A → bool) l :
  (∀ x y, x ∈ l → y ∈ l → less x y = less' x y) → sorted_by less l → sorted_by less' l.
Proof.
  intros Hl. unfold sorted_by. induction 1 as [|x l Hs IH Hx]; constructor.
  - apply IH. intros; apply Hl; by right.
  - rewrite Forall_forall in Hx |- *. intros y Hy. rewrite <- Hl by ((by left) || (by right)). by apply Hx.
Qed.

(** A list whose keys are numbers is sorted by them. *)
Lemma sort_by_numbers {A} (f : A → float64) l :
  (∀ x, x ∈ l → is_nan (f x) = false) →
  sorted_by (λ x y, fltb (f x) (f y)) (sort_stable (λ x y, fltb (f x) (f y)) l).
Proof.
  intros Hf. set (g x := if is_nan (f x) then f_zero else f x).
  assert (Hg : ∀ x, x ∈ l → g x = f x) by (intros x Hx; unfold g; by rewrite (Hf x Hx)).
  assert (Hw : StrictWeak (λ x y, fltb (g x) (g y))).
  { apply float_weak. intros x. unfold g. destruct (is_nan (f x)) eqn:E; [done|exact E]. }
  rewrite (sort_stable_ext _ (λ x y, fltb (g x) (g y))) by (intros x y Hx Hy; by rewrite !Hg).
  apply (sorted_by_ext (λ x y, fltb (g x) (g y))); [|by apply sort_stable_sorted].
  intros x y Hx Hy. rewrite sort_stable_elem in Hx, Hy. by rewrite !Hg.
Qed.
