(* ===== verification/Ledger.v ===== *)
(** * The contribution ledger (contribution_ledger.go)

    [GossipLedger] keeps contribution, trust, claim and penalty records in maps
    keyed by id, and an append-only list of transactions linked by SHA-256
    hashes.  The record maps are merged from peers by [GossipSync]; the
    transactions are local.  Signing, JSON and the map entry the content cache
    evicts are the fields of [LedgerEnv]; the clock is the argument [now]. *)

From S2P Require Import Prelude GoTime Sha256.

(** ** Data *)
Record StorageProof := { ContentHash : string; StorageLocation : string; Verified : bool }.

Record ContributionRecord := {
  c_ID : string; c_PeerID : string; c_PeerPublicKey : string; c_ModelID : string;
  c_Provider : string; c_Tokens : Z; c_ValueUSD : float64; c_Timestamp : Time;
  c_Signature : string; c_Proof : StorageProof }.

Record TrustRecord := {
  t_ID : string; t_SubjectPeerID : string; t_VerifierPeerID : string; t_ModelID : string;
  t_Success : bool; t_LatencyMS : Z; t_Timestamp : Time; t_Signature : string }.

Record CapabilityClaim := {
  k_ID : string; k_PeerID : string; k_Models : list string; k_Providers : list string;
  k_MaxQuota : Z; k_Timestamp : Time; k_Signature : string; k_ValidUntil : Time }.

Record PenaltyRecord := {
  p_ID : string; p_PeerID : string; p_Reason : string; p_Evidence : list string;
  p_Action : string; p_Timestamp : Time; p_Verifiers : list string; p_Signature : string }.

Record SignedTransaction := {
  ID : string; Type_ : string; NodeID : string; Amount : Z; ModelID : string;
  RequestID : string; PrevHash : string; Hash : string; Timestamp : Time; Signature : string }.

Record GossipLedger := {
  peerID : string;
  localCache : gmap string string;      (* hashStore.localCache *)
  recs : gmap string ContributionRecord;
  trusts : gmap string TrustRecord;
  claims : gmap string CapabilityClaim;
  penalties : gmap string PenaltyRecord;
  txs : list SignedTransaction;
  txIndex : gmap string SignedTransaction;
  dailyContrib : gmap string Z;
  seq : Z;                              (* uint64 *)
  dirty : gset string }.

(** What the ledger calls: [ed25519.Sign] with its private key, [json.Marshal],
    and the first key a [range] over the content cache yields. *)
Class LedgerEnv := {
  Sign : string → string;
  marshal_contribution : ContributionRecord → option string;
  marshal_penalty : PenaltyRecord → option string;
  marshal_tx : SignedTransaction → string;
  first_key : gmap string string → string }.

(** Results of [RecordContribution] for the two components it notifies. *)
Inductive effect :=
  | EnqueueContribution (r : ContributionRecord)
  | AccrueQuota (peer : string) (tokens : Z).

Definition set_records g rs ts cs ps d := {|
  peerID := peerID g; localCache := localCache g; recs := rs; trusts := ts; claims := cs;
  penalties := ps; txs := txs g; txIndex := txIndex g; dailyContrib := dailyContrib g;
  seq := seq g; dirty := d |}.

Definition set_seq g s d := {|
  peerID := peerID g; localCache := localCache g; recs := recs g; trusts := trusts g;
  claims := claims g; penalties := penalties g; txs := txs g; txIndex := txIndex g;
  dailyContrib := dailyContrib g; seq := s; dirty := d |}.

Definition set_cache g c := {|
  peerID := peerID g; localCache := c; recs := recs g; trusts := trusts g;
  claims := claims g; penalties := penalties g; txs := txs g; txIndex := txIndex g;
  dailyContrib := dailyContrib g; seq := seq g; dirty := dirty g |}.

Definition set_txs g l ix dc s d := {|
  peerID := peerID g; localCache := localCache g; recs := recs g; trusts := trusts g;
  claims := claims g; penalties := penalties g; txs := l; txIndex := ix;
  dailyContrib := dc; seq := s; dirty := d |}.

Definition put_rec g r :=
  set_records g (<[c_ID r := r]> (recs g)) (trusts g) (claims g) (penalties g)
    ({["contrib/" +:+ c_ID r]} ∪ dirty g).

(** ** Operations *)
Definition NewGossipLedger (peer : string) : GossipLedger := {|
  peerID := peer; localCache := ∅; recs := ∅; trusts := ∅; claims := ∅; penalties := ∅;
  txs := []; txIndex := ∅; dailyContrib := ∅; seq := 0; dirty := ∅ |}.

Definition bboltLedgerIdentityKey : string := "meta/identity".

Definition nextID (prefix : string) (g : GossipLedger) : string * GossipLedger :=
  let s := wrapu 64 (seq g + 1) in
  (prefix +:+ "-" +:+ peerID g +:+ "-" +:+ dec s,
   set_seq g s ({[bboltLedgerIdentityKey]} ∪ dirty g)).

(** An id is generated only where the caller left it empty. *)
Definition fresh_id (prefix id : string) (g : GossipLedger) : string * GossipLedger :=
  if bool_decide (id = "") then nextID prefix g else (id, g).

Definition or_else (s d : string) : string := if bool_decide (s = "") then d else s.
Definition or_now (now t : Time) : Time := if is_zero t then now else t.

Definition contentHashCacheMax : Z := 1024.

Section operations.
Context `{LedgerEnv} {loc : Location}.

(** [ContentHashStore.StoreJSON] on marshalled data. *)
Definition StoreJSON (data : string) (cache : gmap string string)
    : string * gmap string string :=
  let cid := "sha256:" +:+ sha256_hex data in
  let cache' := if contentHashCacheMax <=? Z.of_nat (size cache)
                then delete (first_key cache) cache else cache in
  (cid, <[cid := data]> cache').

Definition RecordContribution (now : Time) (record : option ContributionRecord)
    (g : GossipLedger) : res (string * list effect) * GossipLedger :=
  match record with
  | None => (Err "nil contribution record", g)
  | Some r =>
      let '(id, g1) := fresh_id "contrib" (c_ID r) g in
      let r1 := {| c_ID := id; c_PeerID := or_else (c_PeerID r) (peerID g);
                   c_PeerPublicKey := c_PeerPublicKey r; c_ModelID := c_ModelID r;
                   c_Provider := c_Provider r; c_Tokens := c_Tokens r;
                   c_ValueUSD := c_ValueUSD r; c_Timestamp := or_now now (c_Timestamp r);
                   c_Signature := c_Signature r; c_Proof := c_Proof r |} in
      let with_proof sg pf :=
        {| c_ID := c_ID r1; c_PeerID := c_PeerID r1; c_PeerPublicKey := c_PeerPublicKey r1;
           c_ModelID := c_ModelID r1; c_Provider := c_Provider r1; c_Tokens := c_Tokens r1;
           c_ValueUSD := c_ValueUSD r1; c_Timestamp := c_Timestamp r1;
           c_Signature := sg; c_Proof := pf |} in
      let r2 := match marshal_contribution r1 with
                | Some data => with_proof (Sign data) (c_Proof r1)
                | None => r1
                end in
      let g2 := put_rec g1 r2 in
      let g3 :=
        match marshal_contribution r2 with
        | Some data =>
            let '(cid, cache) := StoreJSON data (localCache g2) in
            put_rec (set_cache g2 cache)
              (with_proof (c_Signature r2)
                 {| ContentHash := cid; StorageLocation := "local-hash";
                    Verified := Verified (c_Proof r2) |})
        | None => g2
        end in
      (Ok (id, EnqueueContribution r2 ::
               (if 0 <? c_Tokens r2 then [AccrueQuota (c_PeerID r2) (c_Tokens r2)] else [])),
       g3)
  end.

Definition RecordTrust (now : Time) (record : option TrustRecord) (g : GossipLedger)
    : res string * GossipLedger :=
  match record with
  | None => (Err "nil trust record", g)
  | Some r =>
      let '(id, g1) := fresh_id "trust" (t_ID r) g in
      let r' := {| t_ID := id; t_SubjectPeerID := t_SubjectPeerID r;
                   t_VerifierPeerID := or_else (t_VerifierPeerID r) (peerID g);
                   t_ModelID := t_ModelID r; t_Success := t_Success r;
                   t_LatencyMS := t_LatencyMS r; t_Timestamp := or_now now (t_Timestamp r);
                   t_Signature := t_Signature r |} in
      (Ok id, set_records g1 (recs g1) (<[id := r']> (trusts g1)) (claims g1) (penalties g1)
                ({["trust/" +:+ id]} ∪ dirty g1))
  end.

Definition RecordClaim (now : Time) (claim : option CapabilityClaim) (g : GossipLedger)
    : string * GossipLedger :=
  match claim with
  | None => ("", g)
  | Some r =>
      let '(id, g1) := fresh_id "claim" (k_ID r) g in
      let r' := {| k_ID := id; k_PeerID := or_else (k_PeerID r) (peerID g);
                   k_Models := k_Models r; k_Providers := k_Providers r;
                   k_MaxQuota := k_MaxQuota r; k_Timestamp := or_now now (k_Timestamp r);
                   k_Signature := k_Signature r; k_ValidUntil := k_ValidUntil r |} in
      (id, set_records g1 (recs g1) (trusts g1) (<[id := r']> (claims g1)) (penalties g1)
             ({["claim/" +:+ id]} ∪ dirty g1))
  end.

Definition RecordPenalty (now : Time) (record : option PenaltyRecord) (g : GossipLedger)
    : res string * GossipLedger :=
  match record with
  | None => (Err "nil penalty record", g)
  | Some r =>
      let '(id, g1) := fresh_id "penalty" (p_ID r) g in
      let with_sig sg := {| p_ID := id; p_PeerID := or_else (p_PeerID r) (peerID g);
                   p_Reason := p_Reason r; p_Evidence := p_Evidence r; p_Action := p_Action r;
                   p_Timestamp := or_now now (p_Timestamp r); p_Verifiers := p_Verifiers r;
                   p_Signature := sg |} in
      let r1 := with_sig (p_Signature r) in
      let r' := match marshal_penalty r1 with
                | Some data => with_sig (Sign data) | None => r1 end in
      (Ok id, set_records g1 (recs g1) (trusts g1) (claims g1) (<[id := r']> (penalties g1))
                ({["penalty/" +:+ id]} ∪ dirty g1))
  end.

(** *** The transaction chain *)

(** ["%s|%s|%s|%d|%s|%s|%s"] *)
Definition tx_preimage (t : SignedTransaction) : string :=
  ID t +:+ "|" +:+ Type_ t +:+ "|" +:+ NodeID t +:+ "|" +:+ dec (Amount t) +:+ "|" +:+
  ModelID t +:+ "|" +:+ RequestID t +:+ "|" +:+ PrevHash t.

Definition tx_hash (t : SignedTransaction) : string := sha256_hex (tx_preimage t).

Definition dailyKey (nodeID : string) (t : Time) : string :=
  nodeID +:+ "|" +:+ fmt_date loc t.

Definition last_hash (l : list SignedTransaction) : string :=
  match last l with Some t => Hash t | None => "" end.

Definition with_hash_sig (t : SignedTransaction) (h s : string) : SignedTransaction := {|
  ID := ID t; Type_ := Type_ t; NodeID := NodeID t; Amount := Amount t; ModelID := ModelID t;
  RequestID := RequestID t; PrevHash := PrevHash t; Hash := h; Timestamp := Timestamp t;
  Signature := s |}.

(** The transaction [AppendTransaction] builds. *)
Definition new_tx (now : Time) (txType nodeID : string) (amount : Z)
    (modelID requestID : string) (g : GossipLedger) : SignedTransaction :=
  let tx0 := {| ID := "tx-" +:+ peerID g +:+ "-" +:+ dec (wrapu 64 (seq g + 1));
                Type_ := txType; NodeID := nodeID; Amount := amount; ModelID := modelID;
                RequestID := requestID; PrevHash := last_hash (txs g); Hash := "";
                Timestamp := now; Signature := "" |} in
  let tx1 := with_hash_sig tx0 (tx_hash tx0) "" in
  with_hash_sig tx1 (Hash tx1) (Sign (marshal_tx tx1)).

Definition AppendTransaction (now : Time) (txType nodeID : string) (amount : Z)
    (modelID requestID : string) (g : GossipLedger) : SignedTransaction * GossipLedger :=
  let tx := new_tx now txType nodeID amount modelID requestID g in
  (tx, set_txs g (txs g ++ [tx]) (<[ID tx := tx]> (txIndex g))
         (if bool_decide (txType = "contribution" ∧ amount ≠ 0)
          then zincr (dailyKey nodeID (Timestamp tx)) amount (dailyContrib g)
          else dailyContrib g)
         (wrapu 64 (seq g + 1))
         ({["tx/" +:+ ID tx; bboltLedgerIdentityKey]} ∪ dirty g)).

Definition GetDailyContributions (nodeID : string) (day : Time) (g : GossipLedger) : Z :=
  zget (dailyContrib g) (dailyKey nodeID day).

Definition GetTransactionChain (nodeID : string) (g : GossipLedger) : list SignedTransaction :=
  filter (λ t, NodeID t = nodeID) (txs g).

Definition balance_step (nodeID : string) (balance : Z) (t : SignedTransaction) : Z :=
  if bool_decide (NodeID t = nodeID) then
    if bool_decide (Type_ t = "contribution") then balance +! Amount t
    else if bool_decide (Type_ t = "consumption") then balance -! Amount t
    else balance
  else balance.

Definition DeriveBalance (nodeID : string) (g : GossipLedger) : Z :=
  foldl (balance_step nodeID) 0 (txs g).

(** [prev] is the transaction before the list, if any. *)
Fixpoint chain_from (prev : option SignedTransaction) (l : list SignedTransaction) : bool :=
  match l with
  | [] => true
  | t :: l' =>
      match prev with Some p => bool_decide (PrevHash t = Hash p) | None => true end
      && bool_decide (Hash t = tx_hash t)
      && chain_from (Some t) l'
  end.

Definition chainValid (g : GossipLedger) : bool := chain_from None (txs g).
Definition VerifyChain (g : GossipLedger) : bool := chainValid g.

(** *** Merging from peers *)

(** One of the four loops of [GossipSync] over records with ids: a record with
    an id the map does not have is copied, marked and counted. *)
Definition sync_one {A} (id : A → string) (prefix : string)
    (st : gmap string A * gset string * Z) (x : option A) : gmap string A * gset string * Z :=
  let '(m, d, added) := st in
  match x with
  | None => st
  | Some r =>
      if bool_decide (id r = "") then st
      else match m !! id r with
           | Some _ => st
           | None => (<[id r := r]> m, {[prefix +:+ id r]} ∪ d, added +! 1)
           end
  end.

Definition sync_map {A} (id : A → string) (prefix : string) (l : list (option A))
    (st : gmap string A * gset string * Z) : gmap string A * gset string * Z :=
  foldl (sync_one id prefix) st l.

Definition GossipSync (cs : list (option ContributionRecord)) (ts : list (option TrustRecord))
    (ks : list (option CapabilityClaim)) (ps : list (option PenaltyRecord))
    (g : GossipLedger) : Z * GossipLedger :=
  let '(rs', d1, n1) := sync_map c_ID "contrib/" cs (recs g, dirty g, 0) in
  let '(ts', d2, n2) := sync_map t_ID "trust/" ts (trusts g, d1, n1) in
  let '(ks', d3, n3) := sync_map k_ID "claim/" ks (claims g, d2, n2) in
  let '(ps', d4, n4) := sync_map p_ID "penalty/" ps (penalties g, d3, n3) in
  (n4, set_records g rs' ts' ks' ps' d4).

(** *** Reports *)
Definition GetPeerContributions (peer : string) (g : GossipLedger) : list ContributionRecord :=
  filter (λ r, c_PeerID r = peer) (map_to_list (recs g)).*2.

Definition GetPenalties (peer : string) (g : GossipLedger) : list PenaltyRecord :=
  filter (λ r, p_PeerID r = peer) (map_to_list (penalties g)).*2.

Definition Count (g : GossipLedger) : Z :=
  Z.of_nat (size (recs g)) + Z.of_nat (size (trusts g))
  + Z.of_nat (size (claims g)) + Z.of_nat (size (penalties g)).

Record LedgerTransparency := {
  lt_PeerID : string; TotalTokens : Z; ContributionCount : Z;
  ByModel : gmap string Z; ByPeer : gmap string Z;
  TrustCount : Z; ClaimCount : Z; PenaltyCount : Z; TransactionCount : Z; ChainValid : bool }.

(** The body of the loop over the contribution records. *)
Definition transparency_step (st : Z * Z * gmap string Z * gmap string Z)
    (r : ContributionRecord) : Z * Z * gmap string Z * gmap string Z :=
  let '(tot, cnt, bm, bp) := st in
  (tot +! c_Tokens r, cnt +! 1,
   (if bool_decide (c_ModelID r = "") then bm else zincr (c_ModelID r) (c_Tokens r) bm),
   (if bool_decide (c_PeerID r = "") then bp else zincr (c_PeerID r) (c_Tokens r) bp)).

Definition GetTransparency (g : GossipLedger) : LedgerTransparency :=
  let '(tot, cnt, bm, bp) :=
    foldl transparency_step (0, 0, ∅, ∅) (map_to_list (recs g)).*2 in
  {| lt_PeerID := peerID g; TotalTokens := tot; ContributionCount := cnt;
     ByModel := bm; ByPeer := bp; TrustCount := Z.of_nat (size (trusts g));
     ClaimCount := Z.of_nat (size (claims g)); PenaltyCount := Z.of_nat (size (penalties g));
     TransactionCount := Z.of_nat (length (txs g)); ChainValid := chainValid g |}.

Record ContributorHonor := {
  h_PeerID : string; h_Tokens : Z; h_Records : Z; h_LastSeen : Time }.

(** The aggregate of one peer: tokens, records, last seen. *)
Definition honor_step (m : gmap string (Z * Z * Time)) (r : ContributionRecord)
    : gmap string (Z * Z * Time) :=
  let '(tk, n, seen) := default (0, 0, time_zero) (m !! c_PeerID r) in
  <[c_PeerID r := (tk +! c_Tokens r, n +! 1,
                   if after (c_Timestamp r) seen then c_Timestamp r else seen)]> m.

Definition honor_less (a b : ContributorHonor) : bool :=
  if bool_decide (h_Tokens a = h_Tokens b) then
    if bool_decide (h_Records a = h_Records b) then str_ltb (h_PeerID a) (h_PeerID b)
    else h_Records b <? h_Records a
  else h_Tokens b <? h_Tokens a.

Definition honor_of (kv : string * (Z * Z * Time)) : ContributorHonor :=
  {| h_PeerID := kv.1; h_Tokens := kv.2.1.1; h_Records := kv.2.1.2; h_LastSeen := kv.2.2 |}.

Definition honors (rs : list ContributionRecord) : list ContributorHonor :=
  sort_slice honor_less (honor_of <$> map_to_list (foldl honor_step ∅ rs)).

Definition GetContributorHonors (g : GossipLedger) : list ContributorHonor :=
  honors (map_to_list (recs g)).*2.

Definition csvSafeCell (s : string) : string :=
  match s with
  | String c _ =>
      if has_char c "=+-@" || Ascii.eqb c "009" || Ascii.eqb c "013" then "'" +:+ s else s
  | EmptyString => s
  end.

(** *** Persistence *)

(** The JSON document of [Save] (the keys of the node aside). *)
Record gossipLedgerData := {
  d_PeerID : string; d_Recs : gmap string ContributionRecord;
  d_Trusts : gmap string TrustRecord; d_Claims : gmap string CapabilityClaim;
  d_Penalties : gmap string PenaltyRecord; d_Txs : list SignedTransaction; d_Seq : Z }.

Definition Save (g : GossipLedger) : gossipLedgerData := {|
  d_PeerID := peerID g; d_Recs := recs g; d_Trusts := trusts g; d_Claims := claims g;
  d_Penalties := penalties g; d_Txs := txs g; d_Seq := seq g |}.

Definition daily_step (m : gmap string Z) (t : SignedTransaction) : gmap string Z :=
  if bool_decide (Type_ t = "contribution")
  then zincr (dailyKey (NodeID t) (Timestamp t)) (Amount t) m else m.

Definition index_step (m : gmap string SignedTransaction) (t : SignedTransaction)
    : gmap string SignedTransaction := <[ID t := t]> m.

Definition LoadGossipLedger (data : gossipLedgerData) : GossipLedger := {|
  peerID := d_PeerID data; localCache := ∅; recs := d_Recs data; trusts := d_Trusts data;
  claims := d_Claims data; penalties := d_Penalties data; txs := d_Txs data;
  txIndex := foldl index_step ∅ (d_Txs data);
  dailyContrib := foldl daily_step ∅ (d_Txs data);
  seq := d_Seq data; dirty := ∅ |}.

(** The values of the ledger's bbolt bucket, before [json.Marshal]. *)
Inductive bbolt_value :=
  | VIdentity (peer : string) (s : Z)
  | VContrib (r : ContributionRecord)
  | VTrust (r : TrustRecord)
  | VClaim (r : CapabilityClaim)
  | VPenalty (r : PenaltyRecord)
  | VTx (t : SignedTransaction).

(** The value [marshalLedgerKeyLocked] finds in memory for a key. *)
Definition ledger_value (g : GossipLedger) (key : string) : option bbolt_value :=
  if bool_decide (key = bboltLedgerIdentityKey) then Some (VIdentity (peerID g) (seq g))
  else match strip_prefix "contrib/" key with
  | Some id => VContrib <$> recs g !! id
  | None => match strip_prefix "trust/" key with
  | Some id => VTrust <$> trusts g !! id
  | None => match strip_prefix "claim/" key with
  | Some id => VClaim <$> claims g !! id
  | None => match strip_prefix "penalty/" key with
  | Some id => VPenalty <$> penalties g !! id
  | None => match strip_prefix "tx/" key with
  | Some id => VTx <$> txIndex g !! id
  | None => None
  end end end end end.

(** [json.Marshal] refuses a float that is not finite and a time whose year has not four digits. *)
Definition json_float (f : float64) : bool :=
  match f with SpecFloat.S754_zero _ | SpecFloat.S754_finite _ _ _ => true | _ => false end.
Definition json_time (t : Time) : bool := let '(y, _, _) := civil_date loc t in (0 <=? y) && (y <=? 9999).
Definition encodes (v : bbolt_value) : bool :=
  match v with
  | VIdentity _ _ => true
  | VContrib r => json_float (c_ValueUSD r) && json_time (c_Timestamp r)
  | VTrust r => json_time (t_Timestamp r)
  | VClaim r => json_time (k_Timestamp r) && json_time (k_ValidUntil r)
  | VPenalty r => json_time (p_Timestamp r)
  | VTx t => json_time (Timestamp t)
  end.
(** [None]: the key is not in memory, or its value cannot be encoded. *)
Definition marshalLedgerKeyLocked (g : GossipLedger) (key : string) : option bbolt_value :=
  v ← ledger_value g key; if encodes v then Some v else None.

Definition serializeKeysLocked (g : GossipLedger) (keys : list string)
    : option (list (string * bbolt_value)) :=
  mapM (λ k, pair k <$> marshalLedgerKeyLocked g k) keys.

(** [putKVsBbolt]: the bucket after one successful write transaction. *)
Definition putKVsBbolt (puts : list (string * bbolt_value)) (bucket : gmap string bbolt_value)
    : gmap string bbolt_value := foldl (λ b kv, <[kv.1 := kv.2]> b) bucket puts.

Definition clear_dirty (g : GossipLedger) : GossipLedger :=
  set_records g (recs g) (trusts g) (claims g) (penalties g) ∅.

(** The two parts of [saveBbolt], between which the ledger is unlocked: the dirty keys are taken out
    and serialised, or put back when that fails; then the transaction commits, or they are put back. *)
Inductive save_start := Clean | Unserialised | Pending (keys : gset string) (puts : list (string * bbolt_value)).
Definition startSave (g : GossipLedger) : save_start * GossipLedger :=
  if bool_decide (dirty g = ∅) then (Clean, g)
  else match serializeKeysLocked g (elements (dirty g)) with
       | None => (Unserialised, g)
       | Some puts => (Pending (dirty g) puts, clear_dirty g)
       end.
Definition mark_dirty (keys : gset string) (g : GossipLedger) : GossipLedger :=
  set_records g (recs g) (trusts g) (claims g) (penalties g) (keys ∪ dirty g).
Definition finishSave (committed : bool) (keys : gset string) (puts : list (string * bbolt_value))
    (g : GossipLedger) (bucket : gmap string bbolt_value) : GossipLedger * gmap string bbolt_value :=
  if committed then (g, putKVsBbolt puts bucket) else (mark_dirty keys g, bucket).

(** [saveBbolt] when nothing happens between its parts: [committed] is whether the transaction succeeds. *)
Definition saveBbolt (committed : bool) (g : GossipLedger) (bucket : gmap string bbolt_value)
    : res () * GossipLedger * gmap string bbolt_value :=
  match startSave g with
  | (Clean, g) => (Ok (), g, bucket)
  | (Unserialised, g) => (Err "ledger bbolt: a dirty key cannot be written", g, bucket)
  | (Pending keys puts, g) =>
      let '(g, bucket) := finishSave committed keys puts g bucket in
      (if committed then Ok () else Err "transaction failed", g, bucket)
  end.

Definition all_keys (g : GossipLedger) : list string :=
  [bboltLedgerIdentityKey]
  ++ ((λ id, "contrib/" +:+ id) <$> (map_to_list (recs g)).*1)
  ++ ((λ id, "trust/" +:+ id) <$> (map_to_list (trusts g)).*1)
  ++ ((λ id, "claim/" +:+ id) <$> (map_to_list (claims g)).*1)
  ++ ((λ id, "penalty/" +:+ id) <$> (map_to_list (penalties g)).*1)
  ++ ((λ t, "tx/" +:+ ID t) <$> txs g).

Definition writeAllBbolt (g : GossipLedger) (bucket : gmap string bbolt_value)
    : res (gmap string bbolt_value) :=
  match serializeKeysLocked g (all_keys g) with
  | Some puts => Ok (putKVsBbolt puts bucket)
  | None => Err "ledger bbolt: dirty key not found in memory"
  end.

(** One turn of the cursor loop of [loadLedgerBbolt]; the key's prefix fixes
    the type of the value. *)
Definition load_step (g : GossipLedger) (kv : string * bbolt_value) : GossipLedger :=
  match kv.2 with
  | VIdentity p s => {| peerID := p; localCache := localCache g; recs := recs g;
        trusts := trusts g; claims := claims g; penalties := penalties g; txs := txs g;
        txIndex := txIndex g; dailyContrib := dailyContrib g; seq := s; dirty := dirty g |}
  | VContrib r => set_records g (<[c_ID r := r]> (recs g)) (trusts g) (claims g)
                    (penalties g) (dirty g)
  | VTrust r => set_records g (recs g) (<[t_ID r := r]> (trusts g)) (claims g)
                  (penalties g) (dirty g)
  | VClaim r => set_records g (recs g) (trusts g) (<[k_ID r := r]> (claims g))
                  (penalties g) (dirty g)
  | VPenalty r => set_records g (recs g) (trusts g) (claims g)
                    (<[p_ID r := r]> (penalties g)) (dirty g)
  | VTx t => set_txs g (txs g ++ [t]) (<[ID t := t]> (txIndex g))
               (daily_step (dailyContrib g) t) (seq g) (dirty g)
  end.

(** [loadLedgerBbolt] over the entries a cursor yields (in key order). *)
Definition loadLedgerBbolt (entries : list (string * bbolt_value)) : res GossipLedger :=
  if bool_decide (bboltLedgerIdentityKey ∈ entries.*1)
  then Ok (foldl load_step (NewGossipLedger "") entries)
  else Err "ledger bbolt: identity key missing".

(** *** Sequences of operations *)
Inductive op :=
  | OpContribution (now : Time) (r : option ContributionRecord)
  | OpTrust (now : Time) (r : option TrustRecord)
  | OpClaim (now : Time) (r : option CapabilityClaim)
  | OpPenalty (now : Time) (r : option PenaltyRecord)
  | OpSync (cs : list (option ContributionRecord)) (ts : list (option TrustRecord))
      (ks : list (option CapabilityClaim)) (ps : list (option PenaltyRecord))
  | OpAppend (now : Time) (txType nodeID : string) (amount : Z) (modelID requestID : string).

Definition run_op (g : GossipLedger) (o : op) : GossipLedger :=
  match o with
  | OpContribution now r => (RecordContribution now r g).2
  | OpTrust now r => (RecordTrust now r g).2
  | OpClaim now r => (RecordClaim now r g).2
  | OpPenalty now r => (RecordPenalty now r g).2
  | OpSync cs ts ks ps => (GossipSync cs ts ks ps g).2
  | OpAppend now ty n a m q => (AppendTransaction now ty n a m q g).2
  end.

Definition run (ops : list op) (g : GossipLedger) : GossipLedger := foldl run_op g ops.
End operations.
