(* ===== verification/LedgerChain.v ===== *)
(** * The transaction chain of the ledger: integrity and what it does not cover

    Facts about [AppendTransaction], [chainValid] and [DeriveBalance] of
    contribution_ledger.go, over the definitions of [Ledger]. *)

From S2P Require Import Prelude GoTime Sha256 Ledger.

(** The fields the hash covers. *)
Definition same_content (t u : SignedTransaction) : Prop :=
  ID t = ID u ∧ Type_ t = Type_ u ∧ NodeID t = NodeID u ∧ Amount t = Amount u ∧
  ModelID t = ModelID u ∧ RequestID t = RequestID u ∧ PrevHash t = PrevHash u ∧ Hash t = Hash u.

(** No separator in the fields that are joined before the last separator. *)
Definition separable (t : SignedTransaction) : Prop :=
  has_char "|" (ID t) = false ∧ has_char "|" (Type_ t) = false ∧
  has_char "|" (NodeID t) = false ∧ has_char "|" (ModelID t) = false ∧
  has_char "|" (RequestID t) = false.

(** What a transaction adds to the balance of a node. *)
Definition signed_amount (nodeID : string) (t : SignedTransaction) : Z :=
  if bool_decide (NodeID t = nodeID) then
    if bool_decide (Type_ t = "contribution") then Amount t
    else if bool_decide (Type_ t = "consumption") then - Amount t else 0
  else 0.

#[local] Transparent sha256_hex.
Lemma sum256_bytes s : Forall (λ b, 0 ≤ b < 256) (sum256 s).
Proof.
  unfold sum256. match goal with |- context [?l ≫= _] => generalize l end. intros l. induction l as [|w l IH]; [constructor|].
  rewrite bind_cons. apply Forall_app. split; [|done]. cbn. repeat constructor; zdiv.
Qed.
Lemma hex_digit_no_bar z : 0 ≤ z < 16 → Ascii.eqb "|" (hex_digit z) = false.
Proof.
  intros Hz. assert (Hn : z ∈ seqZ 0 16) by (apply elem_of_seqZ; lia).
  clear Hz. revert z Hn. apply Forall_forall. apply (bool_decide_unpack _). vm_compute. exact I.
Qed.
Lemma sha256_hex_no_bar s : has_char "|" (sha256_hex s) = false.
Proof.
  unfold sha256_hex. induction (sum256_bytes s) as [|b bs Hb _ IH]; [done|]. cbn [hex has_char].
  rewrite !hex_digit_no_bar by zdiv. by rewrite IH.
Qed.
#[local] Opaque sha256_hex.

Section chain.
Context `{LedgerEnv} {loc : Location}.

Definition chainValid_list (l : list SignedTransaction) : Prop := chain_from None l = true.

Lemma chain_from_snoc prev l t :
  chain_from prev (l ++ [t]) =
  chain_from prev l &&
  (match from_option Some prev (last l) with
   | Some p => bool_decide (PrevHash t = Hash p) | None => true end
   && bool_decide (Hash t = tx_hash t)).
Proof.
  revert prev. induction l as [|x l IH]; intros prev; simpl.
  - by rewrite andb_true_r.
  - rewrite IH, last_cons, !andb_assoc. destruct (last l); done.
Qed.

Lemma chain_from_app prev l1 l2 :
  chain_from prev (l1 ++ l2) = chain_from prev l1 && chain_from (from_option Some prev (last l1)) l2.
Proof.
  revert prev. induction l1 as [|x l IH]; intros prev; simpl; [done|].
  rewrite IH, last_cons, !andb_assoc. destruct (last l); done.
Qed.

Lemma new_tx_hash now ty n a m q g :
  Hash (new_tx now ty n a m q g) = tx_hash (new_tx now ty n a m q g).
Proof. reflexivity. Qed.

(** Only [AppendTransaction] touches the transactions, and it appends one. *)
Lemma run_op_txs g o :
  (txs (run_op g o) = txs g ∧ txIndex (run_op g o) = txIndex g ∧
   dailyContrib (run_op g o) = dailyContrib g ∧ (∀ now ty n a m q, o ≠ OpAppend now ty n a m q)) ∨
  ∃ now ty n a m q, o = OpAppend now ty n a m q ∧
    txs (run_op g o) = txs g ++ [new_tx now ty n a m q g].
Proof.
  destruct o as [now r|now r|now r|now r|cs ts ks ps|now ty n a m q]; [left..|right];
    [| | | | |by repeat eexists].
  1-4: destruct r as [r|]; [|done]; cbn;
    unfold fresh_id, nextID; repeat case_match; simplify_eq; done.
  simpl. unfold GossipSync. repeat case_match; done.
Qed.

Lemma run_op_valid g o : chainValid g = true → chainValid (run_op g o) = true.
Proof.
  unfold chainValid. intros Hv.
  destruct (run_op_txs g o) as [(-> & _)|(now & ty & n & a & m & q & -> & ->)]; [done|].
  rewrite chain_from_snoc, Hv, andb_true_l, new_tx_hash, (bool_decide_true (tx_hash _ = _)) by done.
  rewrite andb_true_r. destruct (last (txs g)) as [p|] eqn:Hl; simpl; [|done].
  apply bool_decide_true. unfold new_tx, last_hash. simpl. by rewrite Hl.
Qed.

Lemma run_preserves_valid ops g : VerifyChain g = true → VerifyChain (run ops g) = true.
Proof.
  unfold run. revert g. induction ops as [|o ops IH]; intros g Hv; simpl; [done|].
  by apply IH, run_op_valid.
Qed.

(** A life of the ledger with its JSON file: operations, saves that reach the file, and restarts, which read it back and lose
    what was not saved. *)
Inductive life := LOp (o : op) | LSave | LRestart.
Definition life_step (peer : string) (st : GossipLedger * option gossipLedgerData) (l : life) : GossipLedger * option gossipLedgerData :=
  let '(g, f) := st in
  match l with
  | LOp o => (run_op g o, f)
  | LSave => (g, Some (Save g))
  | LRestart => (match f with Some d => LoadGossipLedger (loc := loc) d | None => NewGossipLedger peer end, f)
  end.
Definition life_run (peer : string) (steps : list life) : GossipLedger := (foldl (life_step peer) (NewGossipLedger peer, None) steps).1.

Definition tx_id (peer : string) (n : Z) : string := "tx-" +:+ peer +:+ "-" +:+ dec n.

(** After [n] steps: the chain verifies and starts from nothing, and the ids count up to [seq]. *)
Record life_ok (peer : string) (n : Z) (g : GossipLedger) : Prop := {
  lo_chain : chainValid g = true;
  lo_head t : head (txs g) = Some t → PrevHash t = "";
  lo_peer : peerID g = peer;
  lo_seq : 0 ≤ seq g ≤ n;
  lo_ids : ∃ ns, StronglySorted Z.lt ns ∧ Forall (λ i, 1 ≤ i ≤ seq g) ns ∧ ID <$> txs g = tx_id peer <$> ns }.

Lemma fresh_id_seq prefix id g : 0 ≤ seq g < 2 ^ 64 - 1 →
  peerID (fresh_id prefix id g).2 = peerID g ∧ seq g ≤ seq (fresh_id prefix id g).2 ≤ seq g + 1.
Proof.
  intros Hs. unfold fresh_id. case_bool_decide; cbn; [|split; [done|lia]].
  unfold wrapu. rewrite Z.mod_small by lia. split; [done|lia].
Qed.
Lemma run_op_seq g o : 0 ≤ seq g < 2 ^ 64 - 1 → peerID (run_op g o) = peerID g ∧ seq g ≤ seq (run_op g o) ≤ seq g + 1.
Proof.
  intros Hs. destruct o as [now r|now r|now r|now r|cs ts ks ps|now ty n a m q]; cbn [run_op].
  - destruct r as [r|]; [|cbn; split; [done|lia]]. unfold RecordContribution. pose proof (fresh_id_seq "contrib" (c_ID r) g Hs) as Hf.
    destruct (fresh_id _ _ g) as [i g1]. repeat case_match; simplify_eq; exact Hf.
  - destruct r as [r|]; [|cbn; split; [done|lia]]. unfold RecordTrust. pose proof (fresh_id_seq "trust" (t_ID r) g Hs) as Hf.
    destruct (fresh_id _ _ g) as [i g1]. repeat case_match; simplify_eq; exact Hf.
  - destruct r as [r|]; [|cbn; split; [done|lia]]. unfold RecordClaim. pose proof (fresh_id_seq "claim" (k_ID r) g Hs) as Hf.
    destruct (fresh_id _ _ g) as [i g1]. repeat case_match; simplify_eq; exact Hf.
  - destruct r as [r|]; [|cbn; split; [done|lia]]. unfold RecordPenalty. pose proof (fresh_id_seq "penalty" (p_ID r) g Hs) as Hf.
    destruct (fresh_id _ _ g) as [i g1]. repeat case_match; simplify_eq; exact Hf.
  - unfold GossipSync. repeat case_match; cbn; (split; [done|lia]).
  - cbn. unfold wrapu. rewrite Z.mod_small by lia. split; [done|lia].
Qed.
Lemma StronglySorted_snoc_lt ns i : StronglySorted Z.lt ns → Forall (λ j, j < i) ns → StronglySorted Z.lt (ns ++ [i]).
Proof.
  induction 1 as [|j ns Hs IH Hj]; intros Hi; [by repeat constructor|]. apply Forall_cons in Hi as [Hji Hi]. cbn. constructor; [by apply IH|].
  apply Forall_app. split; [done|by constructor].
Qed.
Lemma life_ok_more peer n m g : life_ok peer n g → n ≤ m → life_ok peer m g.
Proof. intros [H1 H2 H3 H4 H5] Hm. constructor; [done|done|done|lia|done]. Qed.
Lemma life_ok_new peer n : 0 ≤ n → life_ok peer n (NewGossipLedger peer).
Proof. intros Hn. constructor; cbn; [done|done|done|lia|]. exists []. repeat constructor. Qed.
Lemma life_ok_op peer n g o : life_ok peer n g → n < 2 ^ 64 - 1 → life_ok peer (n + 1) (run_op g o).
Proof.
  intros [Hc Hh Hp Hs (ns & Hso & Hb & Hid)] Hn. destruct (run_op_seq g o) as [Hp' Hs']; [lia|].
  destruct (run_op_txs g o) as [(Ht & _)|(now & ty & nd & a & m & q & -> & Ht)].
  - constructor; [by apply run_op_valid|by rewrite Ht|congruence|lia|]. exists ns. rewrite Ht. split_and!; [done| |done].
    eapply Forall_impl; [exact Hb|]. cbn. lia.
  - assert (Hw : wrapu 64 (seq g + 1) = seq g + 1) by (apply Z.mod_small; lia).
    constructor; [by apply run_op_valid| |congruence|lia|].
    + intros t. rewrite Ht. destruct (txs g) as [|x l] eqn:E; cbn; [|by intros [= ->]; apply Hh].
      intros [= <-]. cbn. by rewrite E.
    + exists (ns ++ [seq g + 1]). split_and!.
      * apply StronglySorted_snoc_lt; [done|]. eapply Forall_impl; [exact Hb|]. cbn. lia.
      * cbn [run_op AppendTransaction snd seq set_txs]. rewrite Hw. apply Forall_app. split; [|constructor; [lia|done]].
        eapply Forall_impl; [exact Hb|]. cbn. lia.
      * rewrite Ht, !fmap_app, Hid. cbn. rewrite Hw, Hp. done.
Qed.
Lemma life_ok_load peer n g : life_ok peer n g → life_ok peer n (LoadGossipLedger (loc := loc) (Save g)).
Proof. intros [H1 H2 H3 H4 H5]. by constructor. Qed.
Lemma life_ok_run peer steps : Z.of_nat (length steps) < 2 ^ 64 - 1 →
  let st := foldl (life_step peer) (NewGossipLedger peer, None) steps in
  life_ok peer (Z.of_nat (length steps)) st.1 ∧
  ∀ d, st.2 = Some d → ∃ g, d = Save g ∧ life_ok peer (Z.of_nat (length steps)) g.
Proof.
  induction steps as [|l steps IH] using rev_ind; intros Hl; cbn zeta; [split; [by apply life_ok_new|done]|].
  rewrite length_app in *. cbn [length] in *. rewrite foldl_app. cbn [foldl]. destruct IH as [IH1 IH2]; [lia|].
  destruct (foldl _ _ steps) as [g f]. cbn in IH1, IH2.
  replace (Z.of_nat (length steps + 1)) with (Z.of_nat (length steps) + 1) by lia.
  assert (IH2' : ∀ d, f = Some d → ∃ g, d = Save g ∧ life_ok peer (Z.of_nat (length steps) + 1) g).
  { intros d Hd. destruct (IH2 d Hd) as (x & ? & ?). exists x. split; [done|]. eapply life_ok_more; [done|lia]. }
  destruct l; cbn [life_step fst snd].
  - split; [|done]. apply life_ok_op; [done|lia].
  - assert (life_ok peer (Z.of_nat (length steps) + 1) g) by (eapply life_ok_more; [done|lia]).
    split; [done|]. intros d [= <-]. by exists g.
  - split; [|done]. destruct f as [d|]; [|apply life_ok_new; lia].
    destruct (IH2' d eq_refl) as (x & -> & Hx). by apply life_ok_load.
Qed.
Lemma chain_links o l i t u :
  chain_from o l = true → l !! i = Some t → l !! S i = Some u → PrevHash u = Hash t.
Proof.
  revert o i. induction l as [|x l IH]; intros o i; [done|].
  cbn [chain_from]. rewrite !andb_true_iff. intros [_ Hc] Ht Hu.
  destruct i as [|i]; [|by eapply IH]. simplify_eq/=.
  destruct l as [|y l]; [done|]. simplify_eq/=.
  rewrite !andb_true_iff in Hc. destruct Hc as [[?%bool_decide_eq_true _] _]. done.
Qed.

Lemma chain_hash o l i t : chain_from o l = true → l !! i = Some t → Hash t = tx_hash t.
Proof.
  revert o i. induction l as [|x l IH]; intros o i; [done|].
  cbn [chain_from]. rewrite !andb_true_iff. intros [[_ Hh%bool_decide_eq_true] Hc] Ht.
  destruct i as [|i]; [by simplify_eq/=|by eapply IH].
Qed.

(** C1. Integrity is an invariant: after any operations, saves and restarts from the JSON file, [VerifyChain] accepts the
    chain; each transaction holds the hash of its fields and that of the one before it, the first an empty one; and their
    ids count up, [seq] being at least the last number given. (The bucket of bbolt does not keep their order: see
    [LedgerReload].) *)
Theorem ledger_chain_always_valid peer steps :
  Z.of_nat (length steps) < 2 ^ 64 - 1 →
  let g := life_run peer steps in
  VerifyChain g = true ∧
  (∀ i t, txs g !! i = Some t → Hash t = tx_hash t) ∧
  (∀ t, head (txs g) = Some t → PrevHash t = "") ∧
  (∀ i t u, txs g !! i = Some t → txs g !! S i = Some u → PrevHash u = Hash t) ∧
  (∃ ns, StronglySorted Z.lt ns ∧ Forall (λ n, 1 ≤ n ≤ seq g) ns ∧ ID <$> txs g = tx_id peer <$> ns).
Proof.
  intros Hl g. destruct (life_ok_run peer steps Hl) as [[Hc Hh _ _ Hid] _]. fold (life_run peer steps) in Hc, Hh, Hid. fold g in Hc, Hh, Hid.
  split; [done|]. split; [intros i t; by apply chain_hash with None|]. split; [done|]. split; [|done].
  intros i t u. by apply chain_links with None.
Qed.

(** *** The hash covers the content *)

(** Two records that have different texts and the same hash. *)
Definition clash (l1 l2 : list SignedTransaction) : Prop :=
  ∃ t u, t ∈ l1 ∧ u ∈ l2 ∧ tx_preimage t ≠ tx_preimage u ∧ tx_hash t = tx_hash u.
(** Two records with the same hashed text; field by field when no field holds the separator of the text. *)
Definition same_record (t u : SignedTransaction) : Prop :=
  tx_preimage t = tx_preimage u ∧ PrevHash t = PrevHash u ∧ Hash t = Hash u ∧ (separable t → separable u → same_content t u).

Lemma preimage_inj t u :
  tx_preimage t = tx_preimage u → Hash t = Hash u → separable t → separable u → same_content t u.
Proof.
  intros Heq Hh (t1 & t2 & t3 & t4 & t5) (u1 & u2 & u3 & u4 & u5). revert Heq. unfold tx_preimage.
  rewrite !append_cons, !append_nil_l. intros Heq.
  apply split_sep in Heq as [? Heq]; [|done..].
  apply split_sep in Heq as [? Heq]; [|done..].
  apply split_sep in Heq as [? Heq]; [|done..].
  apply split_sep in Heq as [?%dec_inj Heq]; [|apply dec_no_bar..].
  apply split_sep in Heq as [? Heq]; [|done..].
  apply split_sep in Heq as [? Heq]; [|done..].
  done.
Qed.
Lemma tx_hash_no_bar t : has_char "|" (tx_hash t) = false.
Proof. unfold tx_hash. apply sha256_hex_no_bar. Qed.
Lemma preimage_split t : ∃ a, tx_preimage t = a +:+ String "|" (PrevHash t).
Proof.
  exists (ID t +:+ "|" +:+ Type_ t +:+ "|" +:+ NodeID t +:+ "|" +:+ dec (Amount t) +:+ "|" +:+ ModelID t +:+ "|" +:+ RequestID t).
  unfold tx_preimage. rewrite !append_assoc. reflexivity.
Qed.
Lemma preimage_prev t u :
  has_char "|" (PrevHash t) = false → has_char "|" (PrevHash u) = false → tx_preimage t = tx_preimage u → PrevHash t = PrevHash u.
Proof.
  intros Ht Hu. destruct (preimage_split t) as [a ->], (preimage_split u) as [b ->].
  intros [_ Hp]%split_sep_r; done.
Qed.

(** The previous hash of the first record is empty; of any other, the hash of the one before. *)
Definition rooted (l : list SignedTransaction) : Prop := ∀ t, head l = Some t → PrevHash t = "".
Lemma rooted_snoc l t : rooted (l ++ [t]) → rooted l.
Proof. destruct l; [done|]. exact id. Qed.
Lemma last_prev l t : chainValid_list (l ++ [t]) → rooted (l ++ [t]) → PrevHash t = last_hash l ∧ has_char "|" (PrevHash t) = false.
Proof.
  unfold chainValid_list. rewrite chain_from_snoc, !andb_true_iff. intros [Hl [Hp _]] Hr. unfold last_hash.
  destruct (last l) as [p|] eqn:E; cbn in Hp.
  - apply bool_decide_eq_true in Hp. rewrite Hp. split; [done|].
    apply last_Some in E as [l' ->]. rewrite chain_from_snoc, !andb_true_iff in Hl.
    destruct Hl as [_ [_ ->%bool_decide_eq_true]]. apply tx_hash_no_bar.
  - apply last_None in E as ->. specialize (Hr t eq_refl). by rewrite Hr.
Qed.
Lemma last_hash_empty l : chainValid_list l → last_hash l = "" → l = [].
Proof.
  destruct l as [|t l _] using rev_ind; [done|]. unfold chainValid_list, last_hash. rewrite chain_from_snoc, last_snoc, !andb_true_iff.
  intros [_ [_ ->%bool_decide_eq_true]] Hx. by apply sha256_hex_not_nil in Hx.
Qed.
Lemma clash_snoc l1 l2 t u : clash l1 l2 → clash (l1 ++ [t]) (l2 ++ [u]).
Proof. intros (x & y & Hx & Hy & H'). exists x, y. rewrite !elem_of_app. split_and!; try by left. all: by destruct H'. Qed.
Lemma chains_agree l1 : ∀ l2, chainValid_list l1 → chainValid_list l2 → rooted l1 → rooted l2 → last_hash l1 = last_hash l2 →
  Forall2 same_record l1 l2 ∨ clash l1 l2.
Proof.
  induction l1 as [|t l1 IH] using rev_ind; intros l2 H1 H2 R1 R2 Hh.
  { left. symmetry in Hh. apply last_hash_empty in Hh as ->; [constructor|done]. }
  destruct l2 as [|u l2 _] using rev_ind.
  { apply last_hash_empty in Hh; [by destruct l1|done]. }
  destruct (last_prev l1 t H1 R1) as [P1 B1], (last_prev l2 u H2 R2) as [P2 B2].
  unfold chainValid_list in H1, H2. rewrite chain_from_snoc in H1, H2. unfold last_hash in Hh. rewrite !last_snoc in Hh.
  apply andb_true_iff in H1 as [H1 [_ T1%bool_decide_eq_true]%andb_true_iff], H2 as [H2 [_ T2%bool_decide_eq_true]%andb_true_iff].
  destruct (decide (tx_preimage t = tx_preimage u)) as [E|E].
  2:{ right. exists t, u. rewrite !elem_of_app, !list_elem_of_singleton. split_and!; [by right|by right|done|congruence]. }
  pose proof (preimage_prev t u B1 B2 E) as Ep.
  destruct (IH l2 H1 H2 (rooted_snoc _ _ R1) (rooted_snoc _ _ R2) ltac:(congruence)) as [Hall|Hc]; [|right; by apply clash_snoc].
  left. apply Forall2_app; [done|]. constructor; [|constructor]. unfold same_record. split_and!; [done|done|done|by apply preimage_inj].
Qed.


(** *** Balances *)
Lemma balance_step_wrap n b t : balance_step n (wrap64 b) t = wrap64 (b + signed_amount n t).
Proof.
  unfold balance_step, signed_amount. repeat case_bool_decide; autorewrite with wrap64;
    by rewrite ?Z.add_0_r, ?Z.add_opp_r.
Qed.

Lemma balance_fold n b l :
  foldl (balance_step n) (wrap64 b) l = wrap64 (b + zsum (signed_amount n <$> l)).
Proof.
  revert b. induction l as [|t l IH]; intros b; simpl; [by rewrite Z.add_0_r|].
  by rewrite balance_step_wrap, IH, Z.add_assoc.
Qed.

Lemma derive_balance_sum n g :
  DeriveBalance n g = wrap64 (zsum (signed_amount n <$> txs g)).
Proof. unfold DeriveBalance. change 0 with (wrap64 0) at 1. by rewrite balance_fold. Qed.

Lemma signed_amount_filter n l :
  zsum (signed_amount n <$> l) = zsum (signed_amount n <$> filter (λ t, NodeID t = n) l).
Proof.
  induction l as [|t l IH]; [done|]. rewrite filter_cons, fmap_cons, zsum_cons, IH.
  case_decide as Hn; [by rewrite fmap_cons, zsum_cons|].
  unfold signed_amount at 1. by rewrite bool_decide_false by done.
Qed.

(** [DeriveBalance] is contributions minus consumptions of the node's own
    chain, in 64-bit arithmetic; appending a transaction changes the balance
    of its node by the signed amount and no other balance. *)
Theorem derive_balance_correct n g now ty node a m q :
  DeriveBalance n g = wrap64 (zsum (signed_amount n <$> GetTransactionChain n g)) ∧
  let '(tx, g') := AppendTransaction now ty node a m q g in
  DeriveBalance n g' = DeriveBalance n g +! signed_amount n tx ∧
  (node ≠ n → DeriveBalance n g' = DeriveBalance n g).
Proof.
  rewrite !derive_balance_sum. split; [by rewrite signed_amount_filter|].
  cbn [AppendTransaction]. rewrite derive_balance_sum. cbn [txs set_txs].
  rewrite fmap_app, zsum_app, fmap_cons, zsum_cons, fmap_nil. cbn [zsum foldr].
  rewrite Z.add_0_r, wrap64_add_l. split; [done|].
  intros Hn. unfold signed_amount at 2. rewrite bool_decide_false by done. f_equal. lia.
Qed.
End chain.

(** A concrete environment: signatures and documents are labelled ids. *)
Definition plain_env : LedgerEnv := {|
  Sign := λ s, "sig:" +:+ s;
  marshal_contribution := λ r, Some (c_ID r);
  marshal_penalty := λ r, Some (p_ID r);
  marshal_tx := λ t, ID t;
  first_key := λ m, match map_to_list m with (k, _) :: _ => k | [] => "" end |}.

(** A ledger with two transactions, and one with the same two, written at another time. *)
Definition two_txs : GossipLedger :=
  run (H := plain_env) (loc := UTC)
    [OpAppend 0 "contribution" "n1" 10 "m" "r1"; OpAppend 5 "consumption" "n2" 3 "m" "r2"]
    (NewGossipLedger "p").
Definition two_later : GossipLedger :=
  run (H := plain_env) (loc := UTC)
    [OpAppend 70 "contribution" "n1" 10 "m" "r1"; OpAppend 75 "consumption" "n2" 3 "m" "r2"]
    (NewGossipLedger "p").


Lemma ledger_chain_always_valid_witness :
  let g := life_run (H := plain_env) (loc := UTC) "p"
    [LOp (OpAppend 0 "contribution" "n1" 10 "m" "r1"); LSave; LOp (OpAppend 5 "consumption" "n2" 3 "m" "r2"); LRestart] in
  VerifyChain g = true ∧ ID <$> txs g = ["tx-p-1"].
Proof.
  split; [|reflexivity]. refine (proj1 (ledger_chain_always_valid (H := plain_env) (loc := UTC) "p" _ _)). by vm_compute.
Defined.
