(* ===== verification/LedgerStore.v ===== *)
(** * The ledger across restarts and merges

    Facts about the persistence of contribution_ledger.go ([Save] and
    [LoadGossipLedger], the dirty keys of [saveBbolt], the cursor loop of
    [loadLedgerBbolt]) and about [GossipSync]. *)

From S2P Require Import Prelude GoTime Sha256 Ledger LedgerChain.

Section store.
Context `{LedgerEnv} {loc : Location}.

(** *** The incremental daily counter *)

Definition contribution_on (key : string) (t : SignedTransaction) : Prop :=
  Type_ t = "contribution" ∧ dailyKey (loc := loc) (NodeID t) (Timestamp t) = key.
#[local] Instance contribution_on_dec key t : Decision (contribution_on key t).
Proof. unfold contribution_on. apply _. Defined.

Lemma daily_fold l key :
  zget (foldl (daily_step (loc := loc)) ∅ l) key
  = wsum (Amount <$> filter (contribution_on key) l).
Proof.
  induction l as [|t l IH] using rev_ind; [apply zget_empty|].
  rewrite foldl_app, filter_app, fmap_app. cbn [foldl]. unfold daily_step at 1.
  rewrite filter_cons, filter_nil.
  destruct (decide (contribution_on key t)) as [[Ht Hk]|Hn].
  - rewrite bool_decide_true by done. rewrite zget_zincr, decide_True by done.
    by rewrite Hk, IH, fmap_cons, fmap_nil, wsum_app_singleton.
  - rewrite fmap_nil, app_nil_r, <- IH. case_bool_decide as Ht; [|done].
    rewrite zget_zincr, decide_False; [done|]. intros Hk. by apply Hn.
Qed.

Lemma dailyKey_inj n d n' d' :
  dailyKey (loc := loc) n d = dailyKey (loc := loc) n' d' ↔ n = n' ∧ fmt_date loc d = fmt_date loc d'.
Proof.
  split; [|unfold dailyKey; by intros [-> ->]]. unfold dailyKey. rewrite !append_cons, !append_nil_l.
  apply split_sep_r; apply fmt_date_no_bar.
Qed.

(** The derived tables agree with the transactions. *)
Definition tables_ok (g : GossipLedger) : Prop :=
  txIndex g = foldl index_step ∅ (txs g) ∧
  (∀ key, zget (dailyContrib g) key = zget (foldl (daily_step (loc := loc)) ∅ (txs g)) key).

Lemma run_op_tables g o : tables_ok g → tables_ok (run_op g o).
Proof.
  intros [Hi Hd].
  destruct (run_op_txs g o) as [(Ht & Hti & Htd & _)|(now & ty & n & a & m & q & -> & Ht)].
  - split; [by rewrite Hti, Ht|intros key; by rewrite Htd, Ht].
  - split; rewrite Ht, foldl_app; cbn [foldl]; [by rewrite <- Hi|]. intros key.
    unfold daily_step at 1. cbn [run_op AppendTransaction snd dailyContrib set_txs].
    change (Type_ (new_tx now ty n a m q g)) with ty. change (NodeID (new_tx now ty n a m q g)) with n.
    change (Amount (new_tx now ty n a m q g)) with a.
    destruct (decide (ty = "contribution")) as [Hty|Hty];
      [rewrite (bool_decide_true (ty = _)) by done|by rewrite !bool_decide_false by (done || by intros [? _])].
    destruct (decide (a = 0)) as [->|Ha].
    + rewrite bool_decide_false by (by intros [_ ?]). rewrite zget_zincr.
      case_decide as Hk; [|apply Hd]. rewrite Hd, Z.add_0_r, Hk, daily_fold, wsum_zsum.
      by rewrite wrap64_wrap64.
    + rewrite bool_decide_true by done. rewrite !zget_zincr, !Hd. done.
Qed.

Lemma run_tables ops g : tables_ok g → tables_ok (run ops g).
Proof.
  unfold run. revert g. induction ops as [|o ops IH]; intros g Hg; simpl; [done|].
  by apply IH, run_op_tables.
Qed.

(** The incremental daily counter is exact: in every reachable state it is
    the (64-bit) sum of the amounts of the node's contribution transactions
    whose timestamp falls on that local date. *)
Theorem daily_counter_exact peer ops n day :
  let g := run ops (NewGossipLedger peer) in
  GetDailyContributions (loc := loc) n day g
  = wsum (Amount <$> filter (λ t, Type_ t = "contribution" ∧ NodeID t = n ∧
                                  fmt_date loc (Timestamp t) = fmt_date loc day) (txs g)).
Proof.
  intros g. assert (tables_ok g) as [_ Hd] by (by apply run_tables).
  unfold GetDailyContributions. rewrite Hd, daily_fold. do 2 f_equal.
  apply list_filter_iff. intros t. unfold contribution_on. by rewrite dailyKey_inj.
Qed.

(** A restart loses nothing: loading what [Save] wrote in a reachable state
    restores the records, the transactions in order, the transaction index,
    the sequence number and every daily counter. *)
Theorem save_load_roundtrip peer ops :
  let g := run ops (NewGossipLedger peer) in
  let g' := LoadGossipLedger (loc := loc) (Save g) in
  peerID g' = peerID g ∧ recs g' = recs g ∧ trusts g' = trusts g ∧ claims g' = claims g ∧
  penalties g' = penalties g ∧ txs g' = txs g ∧ txIndex g' = txIndex g ∧ seq g' = seq g ∧
  VerifyChain g' = true ∧
  (∀ n, DeriveBalance n g' = DeriveBalance n g) ∧
  (∀ n day, GetDailyContributions (loc := loc) n day g'
            = GetDailyContributions (loc := loc) n day g).
Proof.
  intros g g'. assert (tables_ok g) as [Hi Hd] by (by apply run_tables).
  do 6 (split; [reflexivity|]). split; [by subst g'; cbn; rewrite Hi|].
  split; [reflexivity|]. split; [by apply (run_preserves_valid ops (NewGossipLedger peer))|].
  split; [done|]. intros n day. unfold GetDailyContributions. by rewrite Hd.
Qed.

(** *** Dirty keys *)
Lemma marshal_identity g :
  ledger_value g bboltLedgerIdentityKey = Some (VIdentity (peerID g) (seq g)).
Proof. reflexivity. Qed.

Lemma marshal_contrib g id :
  ledger_value g ("contrib/" +:+ id) = VContrib <$> recs g !! id.
Proof. reflexivity. Qed.
Lemma marshal_trust g id :
  ledger_value g ("trust/" +:+ id) = VTrust <$> trusts g !! id.
Proof. reflexivity. Qed.
Lemma marshal_claim g id :
  ledger_value g ("claim/" +:+ id) = VClaim <$> claims g !! id.
Proof. reflexivity. Qed.
Lemma marshal_penalty_key g id :
  ledger_value g ("penalty/" +:+ id) = VPenalty <$> penalties g !! id.
Proof. reflexivity. Qed.
Lemma marshal_tx_key g id :
  ledger_value g ("tx/" +:+ id) = VTx <$> txIndex g !! id.
Proof. reflexivity. Qed.

Lemma key_cases k :
  k = bboltLedgerIdentityKey ∨ (∃ id, k = "contrib/" +:+ id) ∨ (∃ id, k = "trust/" +:+ id) ∨
  (∃ id, k = "claim/" +:+ id) ∨ (∃ id, k = "penalty/" +:+ id) ∨ (∃ id, k = "tx/" +:+ id) ∨
  (∀ g, ledger_value g k = None).
Proof.
  destruct (decide (k = bboltLedgerIdentityKey)) as [->|Hid]; [by left|right].
  destruct (strip_prefix "contrib/" k) eqn:E1; [apply strip_prefix_Some in E1; eauto 10|].
  destruct (strip_prefix "trust/" k) eqn:E2; [apply strip_prefix_Some in E2; eauto 10|].
  destruct (strip_prefix "claim/" k) eqn:E3; [apply strip_prefix_Some in E3; eauto 10|].
  destruct (strip_prefix "penalty/" k) eqn:E4; [apply strip_prefix_Some in E4; eauto 10|].
  destruct (strip_prefix "tx/" k) eqn:E5; [apply strip_prefix_Some in E5; eauto 10|].
  do 5 right. intros g. unfold ledger_value.
  by rewrite bool_decide_false, E1, E2, E3, E4, E5.
Qed.

(** [g'] follows [g], and every key whose value changed is dirty and has a value. *)
Definition tracked (g g' : GossipLedger) : Prop :=
  dirty g ⊆ dirty g' ∧
  (∀ k, k ∉ dirty g' → ledger_value g' k = ledger_value g k) ∧
  (∀ k, is_Some (ledger_value g k) → is_Some (ledger_value g' k)) ∧
  (∀ k, k ∈ dirty g' → k ∉ dirty g → is_Some (ledger_value g' k)).

#[local] Instance tracked_preorder : PreOrder tracked.
Proof.
  split; [by intros g|]. intros g1 g2 g3 (a1 & b1 & c1 & d1) (a2 & b2 & c2 & d2).
  split; [set_solver|]. split; [|split; [auto|]].
  - intros k Hk. rewrite b2 by done. apply b1. set_solver.
  - intros k H3 H1. destruct (decide (k ∈ dirty g2)); auto.
Qed.

Lemma tracked_one key g g' :
  dirty g' = {[key]} ∪ dirty g →
  (∀ k, k ≠ key → ledger_value g' k = ledger_value g k) →
  is_Some (ledger_value g' key) → tracked g g'.
Proof.
  intros Hd Hk Hs. split; [set_solver|]. split; [|split].
  - intros k Hk'. apply Hk. set_solver.
  - intros k. destruct (decide (k = key)) as [->|]; [done|by rewrite Hk].
  - intros k ??. assert (k = key) as -> by set_solver. done.
Qed.

(** A primitive update writes one key; the others keep their value. *)
Ltac primitive_update key :=
  apply (tracked_one key);
    [reflexivity
    |let k := fresh "k" in intros k ?;
     destruct (key_cases k) as [->|[[? ->]|[[? ->]|[[? ->]|[[? ->]|[[? ->]|Hn]]]]]];
       rewrite ?marshal_identity, ?marshal_contrib, ?marshal_trust, ?marshal_claim,
         ?marshal_penalty_key, ?marshal_tx_key, ?Hn;
       cbn; rewrite ?lookup_insert_ne by congruence; done || by f_equal
    |rewrite ?marshal_identity, ?marshal_contrib, ?marshal_trust, ?marshal_claim,
         ?marshal_penalty_key, ?marshal_tx_key; cbn; rewrite ?lookup_insert_eq; eauto].

Lemma tracked_seq g s : tracked g (set_seq g s ({[bboltLedgerIdentityKey]} ∪ dirty g)).
Proof. primitive_update bboltLedgerIdentityKey. Qed.

Lemma tracked_rec g r : tracked g (put_rec g r).
Proof. primitive_update ("contrib/" +:+ c_ID r). Qed.

Lemma tracked_trust g id r :
  tracked g (set_records g (recs g) (<[id := r]> (trusts g)) (claims g) (penalties g)
               ({["trust/" +:+ id]} ∪ dirty g)).
Proof. primitive_update ("trust/" +:+ id). Qed.

Lemma tracked_claim g id r :
  tracked g (set_records g (recs g) (trusts g) (<[id := r]> (claims g)) (penalties g)
               ({["claim/" +:+ id]} ∪ dirty g)).
Proof. primitive_update ("claim/" +:+ id). Qed.

Lemma tracked_penalty g id r :
  tracked g (set_records g (recs g) (trusts g) (claims g) (<[id := r]> (penalties g))
               ({["penalty/" +:+ id]} ∪ dirty g)).
Proof. primitive_update ("penalty/" +:+ id). Qed.

Lemma tracked_tx g t l dc :
  tracked g (set_txs g l (<[ID t := t]> (txIndex g)) dc (seq g) ({["tx/" +:+ ID t]} ∪ dirty g)).
Proof. primitive_update ("tx/" +:+ ID t). Qed.

Lemma tracked_cache g c : tracked g (set_cache g c).
Proof. split; [done|]. split; [done|]. split; [done|]. by intros k ??. Qed.

Lemma tracked_fresh prefix id g : tracked g (fresh_id prefix id g).2.
Proof.
  unfold fresh_id. case_bool_decide; cbn; [apply tracked_seq|reflexivity].
Qed.

(** The loops of [GossipSync], each over its own map. *)
Lemma tracked_sync {A} (id : A → string) prefix (put : GossipLedger → gmap string A → gset string → GossipLedger)
    (get : GossipLedger → gmap string A) l g n :
  (∀ g, put g (get g) (dirty g) = g) →
  (∀ g m d m' d', put (put g m d) m' d' = put g m' d') →
  (∀ g m d, get (put g m d) = m ∧ dirty (put g m d) = d) →
  (∀ g r, tracked g (put g (<[id r := r]> (get g)) ({[prefix +:+ id r]} ∪ dirty g))) →
  let '(m, d, _) := sync_map id prefix l (get g, dirty g, n) in tracked g (put g m d).
Proof.
  intros Hid Hpp Hg Ht. revert g n. induction l as [|x l IH]; intros g n; cbn.
  - rewrite Hid. reflexivity.
  - destruct x as [r|]; cbn; [|apply IH].
    case_bool_decide; [apply IH|]. destruct (get g !! id r); [apply IH|].
    pose proof (IH (put g (<[id r:=r]> (get g)) ({[prefix +:+ id r]} ∪ dirty g)) (n +! 1)) as IH'.
    destruct (Hg g (<[id r:=r]> (get g)) ({[prefix +:+ id r]} ∪ dirty g)) as [E1 E2].
    rewrite E1, E2 in IH'. unfold sync_map in IH'.
    destruct (foldl _ _ l) as [[m d] n']. rewrite Hpp in IH'. etrans; [apply Ht|done].
Qed.

Lemma tracked_gossip cs ts ks ps g : tracked g (GossipSync cs ts ks ps g).2.
Proof.
  unfold GossipSync.
  pose proof (tracked_sync c_ID "contrib/"
    (λ g m d, set_records g m (trusts g) (claims g) (penalties g) d) recs cs g 0) as T1.
  destruct (sync_map c_ID _ _ _) as [[rs' d1] n1].
  specialize (T1 ltac:(by intros []) ltac:(done) ltac:(done) tracked_rec).
  etrans; [exact T1|]. clear T1. set (g1 := set_records _ _ _ _ _ d1).
  change (trusts g) with (trusts g1). change d1 with (dirty g1).
  pose proof (tracked_sync t_ID "trust/"
    (λ g m d, set_records g (recs g) m (claims g) (penalties g) d) trusts ts g1 n1) as T1.
  destruct (sync_map t_ID _ _ _) as [[ts' d2] n2].
  specialize (T1 ltac:(by intros []) ltac:(done) ltac:(done) (λ g r, tracked_trust g (t_ID r) r)).
  etrans; [exact T1|]. clear T1. set (g2 := set_records _ _ _ _ _ d2).
  change (claims g) with (claims g2). change d2 with (dirty g2).
  pose proof (tracked_sync k_ID "claim/"
    (λ g m d, set_records g (recs g) (trusts g) m (penalties g) d) claims ks g2 n2) as T1.
  destruct (sync_map k_ID _ _ _) as [[ks' d3] n3].
  specialize (T1 ltac:(by intros []) ltac:(done) ltac:(done) (λ g r, tracked_claim g (k_ID r) r)).
  etrans; [exact T1|]. clear T1. set (g3 := set_records _ _ _ _ _ d3).
  change (penalties g) with (penalties g3). change d3 with (dirty g3).
  pose proof (tracked_sync p_ID "penalty/"
    (λ g m d, set_records g (recs g) (trusts g) (claims g) m d) penalties ps g3 n3) as T1.
  destruct (sync_map p_ID _ _ _) as [[ps' d4] n4].
  apply (T1 ltac:(by intros []) ltac:(done) ltac:(done) (λ g r, tracked_penalty g (p_ID r) r)).
Qed.

Lemma tracked_run_op g o : tracked g (run_op g o).
Proof.
  destruct o as [now r|now r|now r|now r|cs ts ks ps|now ty n a m q]; cbn [run_op].
  - destruct r as [r|]; [|reflexivity]. unfold RecordContribution.
    pose proof (tracked_fresh "contrib" (c_ID r) g) as Hf.
    destruct (fresh_id _ _ g) as [id g1]. cbn in Hf.
    destruct (marshal_contribution _) as [data|]; cbn [snd];
      (destruct (marshal_contribution _) as [data'|]; [destruct (StoreJSON _ _) as [cid cache]|]);
      cbn [snd]; (etrans; [exact Hf|]); try apply tracked_rec;
      (etrans; [apply tracked_rec|]); (etrans; [apply tracked_cache|apply tracked_rec]).
  - destruct r as [r|]; [|reflexivity]. unfold RecordTrust.
    pose proof (tracked_fresh "trust" (t_ID r) g) as Hf.
    destruct (fresh_id _ _ g) as [id g1]. etrans; [exact Hf|apply tracked_trust].
  - destruct r as [r|]; [|reflexivity]. unfold RecordClaim.
    pose proof (tracked_fresh "claim" (k_ID r) g) as Hf.
    destruct (fresh_id _ _ g) as [id g1]. etrans; [exact Hf|apply tracked_claim].
  - destruct r as [r|]; [|reflexivity]. unfold RecordPenalty.
    pose proof (tracked_fresh "penalty" (p_ID r) g) as Hf.
    destruct (fresh_id _ _ g) as [id g1]. etrans; [exact Hf|apply tracked_penalty].
  - apply tracked_gossip.
  - etrans; [apply (tracked_seq g (wrapu 64 (seq g + 1)))|].
    cbn [AppendTransaction snd].
    set (t := new_tx now ty n a m q g).
    replace ({["tx/" +:+ ID t; bboltLedgerIdentityKey]} ∪ dirty g)
      with ({["tx/" +:+ ID t]} ∪ ({[bboltLedgerIdentityKey]} ∪ dirty g)) by set_solver.
    apply (tracked_tx (set_seq g _ _) t).
Qed.

Lemma tracked_run ops g : tracked g (run ops g).
Proof.
  unfold run. revert g. induction ops as [|o ops IH]; intros g; [reflexivity|].
  etrans; [apply tracked_run_op|apply IH].
Qed.

(** The values written for a list of keys. *)
Lemma serialize_some g keys puts :
  serializeKeysLocked (loc := loc) g keys = Some puts →
  ∀ bucket k, putKVsBbolt puts bucket !! k = if decide (k ∈ keys) then ledger_value g k else bucket !! k.
Proof.
  unfold serializeKeysLocked. revert puts. induction keys as [|k0 keys IH]; intros puts; cbn [mapM].
  { intros [= <-] bucket k. by rewrite decide_False by apply not_elem_of_nil. }
  destruct (marshalLedgerKeyLocked g k0) as [v|] eqn:Hv; [|done]. cbn.
  destruct (mapM _ keys) as [l|]; [|done]. cbn. intros [= <-] bucket k.
  assert (Hv' : ledger_value g k0 = Some v).
  { unfold marshalLedgerKeyLocked in Hv. destruct (ledger_value g k0) as [w|]; [|done]. cbn in Hv. by destruct (encodes w); simplify_eq. }
  change (putKVsBbolt ((k0, v) :: l) bucket) with (putKVsBbolt l (<[k0 := v]> bucket)).
  rewrite (IH l eq_refl), lookup_insert. destruct (decide (k ∈ keys)) as [Hin|Hin].
  - by rewrite decide_True by (by right).
  - destruct (decide (k0 = k)) as [->|Hne].
    + by rewrite decide_True by (by left).
    + rewrite decide_False; [done|]. by intros [->|]%elem_of_cons.
Qed.

Definition encodable (g : GossipLedger) : Prop := ∀ k v, ledger_value g k = Some v → encodes (loc := loc) v = true.

Lemma serialize_total g keys :
  encodable g → (∀ k, k ∈ keys → is_Some (ledger_value g k)) → is_Some (serializeKeysLocked (loc := loc) g keys).
Proof.
  intros He Hk. unfold serializeKeysLocked. apply mapM_is_Some. apply Forall_forall. intros k Hin.
  destruct (Hk k Hin) as [v Hv]. unfold compose, marshalLedgerKeyLocked.
  rewrite Hv. cbn. by rewrite (He k v).
Qed.

(** *** A life of the store *)

(** The ledger, its bucket, and the keys and values of the save under way. *)
Record Store := { ledger : GossipLedger; bucket : gmap string bbolt_value; in_flight : option (gset string * list (string * bbolt_value)) }.

Inductive store_event := SOps (ops : list op) | SStart | SFinish (committed : bool).
(** Saves do not overlap; operations may come between the parts of one. *)
Definition store_step (st : Store) (e : store_event) : Store :=
  match e with
  | SOps ops => {| ledger := run ops (ledger st); bucket := bucket st; in_flight := in_flight st |}
  | SStart =>
      match in_flight st with
      | Some _ => st
      | None => match startSave (loc := loc) (ledger st) with
                | (Pending keys puts, g) => {| ledger := g; bucket := bucket st; in_flight := Some (keys, puts) |}
                | (_, g) => {| ledger := g; bucket := bucket st; in_flight := None |}
                end
      end
  | SFinish committed =>
      match in_flight st with
      | Some (keys, puts) => let '(g, b) := finishSave committed keys puts (ledger st) (bucket st) in
                             {| ledger := g; bucket := b; in_flight := None |}
      | None => st
      end
  end.
Definition flying (st : Store) : gset string := match in_flight st with Some (keys, _) => keys | None => ∅ end.

(** The bucket is up to date but for the keys that are dirty or being saved, which have values; what is being
    saved is up to date but for the keys that are dirty again. *)
Record store_ok (st : Store) : Prop := {
  so_bucket k : k ∉ dirty (ledger st) → k ∉ flying st → bucket st !! k = ledger_value (ledger st) k;
  so_value k : k ∈ dirty (ledger st) ∨ k ∈ flying st → is_Some (ledger_value (ledger st) k);
  so_puts keys puts b k : in_flight st = Some (keys, puts) →
    (k ∉ keys → putKVsBbolt puts b !! k = b !! k) ∧
    (k ∈ keys → k ∉ dirty (ledger st) → putKVsBbolt puts b !! k = ledger_value (ledger st) k) }.

Lemma store_ok_ops st ops : store_ok st → store_ok (store_step st (SOps ops)).
Proof.
  intros [H1 H2 H3]. destruct (tracked_run ops (ledger st)) as (T1 & T2 & T3 & T4).
  constructor; cbn [ledger bucket in_flight store_step]; change (flying (store_step st (SOps ops))) with (flying st) in *.
  - intros k Hk Hf. rewrite T2 by done. apply H1; [set_solver|done].
  - intros k [Hk|Hk]; [|by apply T3, H2; right].
    destruct (decide (k ∈ dirty (ledger st))) as [Hd|Hd]; [by apply T3, H2; left|by apply T4].
  - intros keys puts b k E. destruct (H3 keys puts b k E) as [Ha Hb]. split; [done|]. intros Hk Hd.
    rewrite T2 by done. apply Hb; [done|set_solver].
Qed.
Lemma ledger_value_dirty g d : ledger_value (set_records g (recs g) (trusts g) (claims g) (penalties g) d) = ledger_value g.
Proof. done. Qed.
Lemma store_ok_start st : store_ok st → store_ok (store_step st SStart).
Proof.
  intros Hok. cbn [store_step]. destruct (in_flight st) as [p|] eqn:Ef; [done|]. unfold startSave.
  pose proof Hok as [H1 H2 H3]. unfold flying in H1, H2. rewrite Ef in H1, H2.
  case_bool_decide; [constructor; cbn; unfold flying; cbn; [exact H1|exact H2|done]|].
  destruct (serializeKeysLocked (ledger st) (elements (dirty (ledger st)))) as [puts|] eqn:Es;
    [|constructor; cbn; unfold flying; cbn; [exact H1|exact H2|done]].
  pose proof (serialize_some _ _ _ Es) as Hp. constructor; cbn [ledger bucket in_flight flying clear_dirty].
  - intros k _ Hk. unfold clear_dirty. rewrite ledger_value_dirty. apply H1; [done|set_solver].
  - intros k Hk. unfold clear_dirty. rewrite ledger_value_dirty. apply H2. left. cbn in Hk. set_solver.
  - intros keys puts' b k [= <- <-]. unfold clear_dirty. rewrite ledger_value_dirty, Hp. split.
    + intros Hk. by rewrite decide_False by (by rewrite elem_of_elements).
    + intros Hk _. by rewrite decide_True by (by rewrite elem_of_elements).
Qed.
Lemma store_ok_finish st c : store_ok st → store_ok (store_step st (SFinish c)).
Proof.
  intros Hok. cbn [store_step]. destruct (in_flight st) as [[keys puts]|] eqn:Ef; [|done].
  pose proof Hok as [H1 H2 H3]. unfold flying in H1, H2. rewrite Ef in H1, H2.
  unfold finishSave. destruct c; constructor; cbn [ledger bucket in_flight flying]; try done.
  - intros k Hd _. destruct (H3 keys puts (bucket st) k Ef) as [Ha Hb].
    destruct (decide (k ∈ keys)) as [Hk|Hk]; [by apply Hb|]. rewrite Ha by done. by apply H1.
  - intros k [Hk|Hk]; [apply H2; by left|set_solver].
  - intros k Hd _. unfold mark_dirty. rewrite ledger_value_dirty. cbn in Hd. apply H1; set_solver.
  - intros k Hk. unfold mark_dirty. rewrite ledger_value_dirty. apply H2. cbn in Hk. set_solver.
Qed.
Lemma store_ok_step st e : store_ok st → store_ok (store_step st e).
Proof. destruct e; [apply store_ok_ops|apply store_ok_start|apply store_ok_finish]. Qed.

(** What a save that is not disturbed does. *)
Lemma save_now c g b :
  store_ok {| ledger := g; bucket := b; in_flight := None |} →
  let '(r, g', b') := saveBbolt (loc := loc) c g b in
  store_ok {| ledger := g'; bucket := b'; in_flight := None |} ∧
  (is_ok r = true → ∀ k, b' !! k = ledger_value g k) ∧ (c = true → encodable g → r = Ok ()).
Proof.
  intros Hok. pose proof (store_ok_finish _ c (store_ok_start _ Hok)) as Hd. pose proof Hok as [H1 H2 _].
  cbn [store_step in_flight ledger bucket] in Hd. unfold saveBbolt, startSave in *. unfold flying in *. cbn in H1, H2.
  case_bool_decide as He; cbn in Hd.
  { split; [done|]. split; [|done]. intros _ k. apply H1; [rewrite He|]; apply not_elem_of_empty. }
  destruct (serializeKeysLocked g (elements (dirty g))) as [puts|] eqn:Es; cbn in Hd.
  2:{ split; [done|]. split; [done|]. intros _ Henc. exfalso.
      destruct (serialize_total g (elements (dirty g)) Henc) as [puts Hp]; [|congruence].
      intros k. rewrite elem_of_elements. intros Hk. apply H2. by left. }
  destruct c; cbn in *; (split; [exact Hd|]); (split; [|done]); [|done]. intros _ k. rewrite (serialize_some _ _ _ Es).
  case_decide as Hk; [done|]. rewrite elem_of_elements in Hk. apply H1; [done|set_solver].
Qed.

Definition fresh_bucket (peer : string) : gmap string bbolt_value :=
  {[bboltLedgerIdentityKey := VIdentity peer 0]}.
Definition fresh_store (peer : string) : Store := {| ledger := NewGossipLedger peer; bucket := fresh_bucket peer; in_flight := None |}.

Lemma fresh_store_ok peer : store_ok (fresh_store peer).
Proof.
  constructor; [|by intros k [?%not_elem_of_empty|?%not_elem_of_empty]|done]. intros k _ _. unfold fresh_store, fresh_bucket; cbn [bucket ledger].
  destruct (key_cases k) as [->|[[? ->]|[[? ->]|[[? ->]|[[? ->]|[[? ->]|Hn]]]]]];
    [apply lookup_singleton_eq|reflexivity..|].
  rewrite Hn, lookup_singleton_ne; [done|]. intros <-. by specialize (Hn (NewGossipLedger peer)).
Qed.
Lemma store_run_ok evs st : store_ok st → store_ok (foldl store_step st evs).
Proof. revert st. induction evs as [|e evs IH]; intros st Hst; [done|]. by apply IH, store_ok_step. Qed.

Lemma bucket_exists peer ops :
  ∃ b : gmap string bbolt_value, ∀ k, b !! k = ledger_value (run ops (NewGossipLedger peer)) k.
Proof.
  destruct (store_ok_ops _ ops (fresh_store_ok peer)) as [H1 H2 _]. cbn [store_step ledger bucket fresh_store] in H1, H2.
  set (g := run ops (NewGossipLedger peer)) in *.
  assert (Hx : ∀ keys : list string, (∀ k, k ∈ keys → is_Some (ledger_value g k)) →
    ∃ b : gmap string bbolt_value, ∀ k, b !! k = if decide (k ∈ keys) then ledger_value g k else fresh_bucket peer !! k).
  { induction keys as [|k0 keys IH]; intros Hk; [by exists (fresh_bucket peer)|].
    destruct IH as [b Hb]; [intros k ?; apply Hk; by right|]. destruct (Hk k0 ltac:(by left)) as [v Hv].
    exists (<[k0 := v]> b). intros k. destruct (decide (k = k0)) as [->|Hne].
    - by rewrite lookup_insert_eq, decide_True by (by left).
    - rewrite lookup_insert_ne by done. rewrite Hb. apply decide_ext. rewrite elem_of_cons. naive_solver. }
  destruct (Hx (elements (dirty g))) as [b Hb]; [intros k Hk%elem_of_elements; apply H2; by left|].
  exists b. intros k. rewrite Hb. case_decide as Hk; [done|]. rewrite elem_of_elements in Hk. apply H1; [done|set_solver].
Qed.

End store.

(** Two saves that overlap, the first of which commits last, take the sequence number of the file back although
    no key is left to write: the timer is cleared before the save it starts, so nothing keeps two saves apart. *)
Definition overlapping_saves : GossipLedger * gmap string bbolt_value :=
  let op1 := OpAppend 0 "contribution" "n" 1 "m" "r1" in
  let op2 := OpAppend 1 "contribution" "n" 1 "m" "r2" in
  let run := run (H := plain_env) (loc := UTC) in
  match startSave (loc := UTC) (run [op1] (NewGossipLedger "p")) with
  | (Pending k1 p1, g1) =>
      match startSave (loc := UTC) (run [op2] g1) with
      | (Pending k2 p2, g2) =>
          let '(g3, b3) := finishSave true k2 p2 g2 (fresh_bucket "p") in finishSave true k1 p1 g3 b3
      | (_, g) => (g, ∅)
      end
  | (_, g) => (g, ∅)
  end.
Example overlapping_saves_go_back :
  let '(g, b) := overlapping_saves in
  seq g = 2 ∧ elements (dirty g) = [] ∧ b !! bboltLedgerIdentityKey = Some (VIdentity "p" 1).
Proof. by vm_compute. Qed.
