(* ===== verification/LedgerReload.v ===== *)
(** * Reloading, merging and reporting

    [loadLedgerBbolt] (contribution_ledger.go) rebuilds the transaction list in
    the order of the cursor, the byte order of the keys.  Ten transactions are
    enough for that order ("...-1", "...-10", "...-2") to differ from the order
    of the chain.  Then [GossipSync] (first writer wins, exact count,
    idempotence) and the honor roll [GetContributorHonors]. *)

From S2P Require Import Prelude GoTime Sha256 Ledger LedgerChain LedgerStore.

(** The entries of a bucket in the order a bbolt cursor yields them. *)
Definition key_lt (a b : string * bbolt_value) : Prop := str_ltb a.1 b.1 = true.

Definition cursor_of (bucket : gmap string bbolt_value) : list (string * bbolt_value) :=
  sort_slice (λ a b, str_ltb a.1 b.1) (map_to_list bucket).

Definition is_append (o : op) : bool := match o with OpAppend _ _ _ _ _ _ => true | _ => false end.

Definition tx_of (kv : string * bbolt_value) : option SignedTransaction :=
  match kv.2 with VTx t => Some t | _ => None end.

(** In a sorted list two elements with nothing between them are adjacent. *)
Lemma sorted_adjacent {A} (R : A → A → Prop) l x y :
  StronglySorted R l → (∀ a, ¬ R a a) → (∀ a b, R a b → ¬ R b a) →
  x ∈ l → y ∈ l → R x y → (∀ z, z ∈ l → R x z → R z y → False) →
  ∃ l1 l2, l = l1 ++ x :: y :: l2.
Proof.
  intros Hs Hirr Has Hx Hy Hxy Hno. apply list_elem_of_split in Hx as (l1 & l2 & ->).
  exists l1. apply StronglySorted_app in Hs as (H12 & _ & Hs2).
  apply elem_of_app in Hy as [Hy|Hy].
  { destruct (Has _ _ Hxy). apply H12; [done|left]. }
  apply elem_of_cons in Hy as [->|Hy]; [by destruct (Hirr x)|].
  destruct l2 as [|z l2]; [by apply not_elem_of_nil in Hy|].
  exists l2. apply elem_of_cons in Hy as [->|Hy]; [done|].
  apply StronglySorted_cons in Hs2 as [Hxs Hzs]. apply StronglySorted_cons in Hzs as [Hzs _].
  rewrite Forall_forall in Hxs, Hzs.
  destruct (Hno z); [set_solver| |by apply Hzs]. apply Hxs. left.
Qed.

Lemma str_ltb_app p a b : str_ltb (p +:+ a) (p +:+ b) = str_ltb a b.
Proof.
  induction p as [|c p IH]; [done|]. rewrite !append_cons. simpl.
  by rewrite N.ltb_irrefl, Ascii.eqb_refl, IH.
Qed.

(** No decimal number lies between "1" and "10" in byte order. *)
Lemma dec_between n : 0 ≤ n → str_ltb "1" (dec n) = true → str_ltb (dec n) "10" = true → False.
Proof.
  intros Hn. assert (∀ c, has_char c "0123456789" = false → has_char c (dec n) = false) as Hd.
  { intros c Hc. unfold dec. destruct n as [|p|p]; [|change (has_char c (pretty (N.pos p)) = false)|lia].
    - simpl in Hc |- *. by apply orb_false_iff in Hc as [-> _].
    - unfold pretty, pretty_N. case_decide; [done|]. by rewrite pretty_N_go_has_char. }
  destruct (dec n) as [|c d]; [done|]. change "1" with (String "1" ""). rewrite !str_ltb_cons.
  intros [H1|[<- H1]] [H2|[H2 H3]]; try lia; [by subst; simpl in H1; lia|].
  destruct d as [|c' d]; [done|]. apply str_ltb_cons in H3 as [H3|[_ H3]]; [|by destruct d].
  assert (has_char c' (String "1" (String c' d)) = false) as Hf.
  { apply Hd. destruct (has_char c' "0123456789") eqn:E; [|done]. exfalso.
    simpl in E. repeat (apply orb_true_iff in E as [E%Ascii.eqb_eq|E]; [subst; simpl in H3; lia|]).
    done. }
  simpl in Hf. by rewrite Ascii.eqb_refl, orb_true_r in Hf.
Qed.

#[local] Instance key_le_trans :
  Transitive (le_of (λ a b : string * bbolt_value, str_ltb a.1 b.1)).
Proof.
  intros a b c. unfold le_of. intros H1 H2. destruct (str_ltb c.1 a.1) eqn:E; [|done].
  destruct (str_ltb b.1 c.1) eqn:E2; [by rewrite (str_ltb_trans _ _ _ E2 E) in H1|].
  assert (b.1 = c.1) as E3 by (by apply str_ltb_total). congruence.
Qed.

#[local] Instance key_le_total :
  Total (le_of (λ a b : string * bbolt_value, str_ltb a.1 b.1)).
Proof.
  intros a b. unfold le_of. destruct (str_ltb b.1 a.1) eqn:E; [right|by left].
  by apply str_ltb_asym.
Qed.

(** The cursor of a bucket is sorted and yields exactly its entries. *)
Lemma cursor_spec bucket :
  StronglySorted key_lt (cursor_of bucket) ∧
  (∀ k v, (k, v) ∈ cursor_of bucket ↔ bucket !! k = Some v).
Proof.
  unfold cursor_of. set (less := λ a b : string * bbolt_value, str_ltb a.1 b.1). split.
  - pose proof (sort_slice_sorted less (map_to_list bucket) _ _) as Hs.
    assert (NoDup (sort_slice less (map_to_list bucket)).*1) as Hn.
    { rewrite sort_slice_perm. apply NoDup_fst_map_to_list. }
    revert Hs Hn. generalize (sort_slice less (map_to_list bucket)). intros l.
    induction 1 as [|x l Hl IH Hx]; [constructor|]. intros [Hnx Hn]%NoDup_cons.
    constructor; [by apply IH|]. apply Forall_forall. intros y Hy.
    rewrite Forall_forall in Hx. unfold key_lt. destruct (str_ltb x.1 y.1) eqn:E; [done|].
    destruct Hnx. rewrite (str_ltb_total _ _ E (Hx y Hy)). by apply list_elem_of_fmap_2.
  - intros k v. rewrite sort_slice_perm. apply elem_of_map_to_list.
Qed.

Section reload.
Context `{LedgerEnv} {loc : Location}.

Lemma load_txs g es : txs (foldl load_step g es) = txs g ++ omap tx_of es.
Proof.
  revert g. induction es as [|[k v] es IH]; intros g; simpl; [by rewrite app_nil_r|].
  rewrite IH. by destruct v; cbn; rewrite <- ?app_assoc.
Qed.

Lemma tx_id_inj peer a b : tx_id peer a = tx_id peer b → a = b.
Proof. unfold tx_id. by intros ?%append_inj_r%append_inj_r%append_inj_r%dec_inj. Qed.

Lemma appends_nodup peer l :
  (∀ i t, l !! i = Some t → ID t = tx_id peer (Z.of_nat i + 1)) → NoDup (ID <$> l).
Proof.
  intros Hid. apply NoDup_alt. intros i j x. rewrite !list_lookup_fmap.
  intros (a & Ea & ->)%fmap_Some (b & Eb & Hab)%fmap_Some.
  rewrite (Hid _ _ Ea), (Hid _ _ Eb) in Hab. apply tx_id_inj in Hab. lia.
Qed.

Lemma appends_shape peer ops :
  Forall is_append ops → (Z.of_nat (length ops) < 2 ^ 64) →
  let g := run ops (NewGossipLedger peer) in
  peerID g = peer ∧ seq g = Z.of_nat (length ops) ∧ length (txs g) = length ops ∧
  recs g = ∅ ∧ trusts g = ∅ ∧ claims g = ∅ ∧ penalties g = ∅ ∧
  (∀ i t, txs g !! i = Some t → ID t = tx_id peer (Z.of_nat i + 1)).
Proof.
  unfold run. induction ops as [|o ops IH] using rev_ind; intros Ha Hl; [done|].
  rewrite length_app in Hl. simpl in Hl. apply Forall_app in Ha as [Ha [Ho _]%Forall_cons].
  destruct (IH Ha ltac:(lia)) as (Hp & Hs & Hlen & Hr1 & Hr2 & Hr3 & Hr4 & Hid).
  rewrite foldl_app. cbn [foldl]. set (g := foldl run_op _ ops) in *.
  destruct o as [| | | | |now ty n a m q]; try done.
  cbn [run_op AppendTransaction snd set_txs peerID seq txs recs trusts claims penalties].
  rewrite !length_app, Hs, Hlen. simpl length.
  assert (wrapu 64 (Z.of_nat (length ops) + 1) = Z.of_nat (length ops) + 1) as Hw.
  { unfold wrapu. rewrite Z.mod_small; lia. }
  rewrite Hw. split; [done|]. split; [lia|]. split; [lia|]. do 4 (split; [done|]).
  intros i t. rewrite lookup_app. destruct (txs g !! i) as [x|] eqn:E; [intros [= <-]; by apply Hid|].
  apply lookup_ge_None in E. intros Hi. apply list_lookup_singleton_Some in Hi as [Hi <-].
  cbn [ID new_tx with_hash_sig]. rewrite Hp, Hs, Hw. unfold tx_id. do 3 f_equal. f_equal. lia.
Qed.

Lemma index_lookup l id t :
  foldl index_step ∅ l !! id = Some t → t ∈ l ∧ ID t = id.
Proof.
  induction l as [|x l IH] using rev_ind; [cbn [foldl]; by rewrite lookup_empty|].
  rewrite foldl_app. cbn [foldl]. unfold index_step at 1. intros [[<- ->]|[_ H1]]%lookup_insert_Some.
  - split; [set_solver|done].
  - apply IH in H1 as [??]. split; [set_solver|done].
Qed.

Lemma index_complete l t : NoDup (ID <$> l) → t ∈ l → foldl index_step ∅ l !! ID t = Some t.
Proof.
  induction l as [|x l IH] using rev_ind; [by intros _ ?%not_elem_of_nil|].
  rewrite fmap_app, NoDup_app. intros (Hl & Hd & _).
  rewrite foldl_app. cbn [foldl]. unfold index_step at 1.
  intros [Ht| ->%list_elem_of_singleton]%elem_of_app; [|apply lookup_insert_eq].
  rewrite lookup_insert_ne; [by apply IH|]. intros E.
  apply (Hd (ID t)); [by apply list_elem_of_fmap_2|]. rewrite <- E. left.
Qed.

(** The keys of an append-only ledger between two transactions. *)
Lemma keys_between peer ops k v :
  Forall is_append ops → Z.of_nat (length ops) < 2 ^ 64 →
  ledger_value (run ops (NewGossipLedger peer)) k = Some v →
  str_ltb ("tx/" +:+ tx_id peer 1) k = true → str_ltb k ("tx/" +:+ tx_id peer 10) = true → False.
Proof.
  intros Ha Hl. pose proof (appends_shape peer ops Ha Hl) as Hs. cbn zeta in Hs.
  assert (tables_ok (run ops (NewGossipLedger peer))) as [Hi _] by (by apply run_tables).
  revert Hs Hi. generalize (run ops (NewGossipLedger peer)). intros g (_ & _ & _ & _ & _ & _ & _ & Hid) Hi.
  destruct (key_cases k) as [->|[[? ->]|[[? ->]|[[? ->]|[[? ->]|[[id ->]|Hn]]]]]];
    [by intros ? ?..| |by rewrite Hn].
  rewrite marshal_tx_key, Hi. intros (t & Ht & _)%fmap_Some.
  apply index_lookup in Ht as [Ht <-]. apply list_elem_of_lookup in Ht as [i Ht].
  rewrite (Hid _ _ Ht). unfold tx_id. rewrite !str_ltb_app. apply dec_between. lia.
Qed.

(** (A defect.) A ledger of ten or more appended transactions that is
    reloaded from bbolt no longer verifies: whatever sorted cursor yields the
    entries of its bucket, the load succeeds and [VerifyChain] rejects the
    reloaded chain, unless the ledger contains a SHA-256 collision. *)
Theorem bbolt_reload_breaks_chain peer ops entries :
  Forall is_append ops → 10 ≤ Z.of_nat (length ops) < 2 ^ 64 →
  StronglySorted key_lt entries →
  (∀ k v, (k, v) ∈ entries ↔ ledger_value (run ops (NewGossipLedger peer)) k = Some v) →
  ∃ g', loadLedgerBbolt entries = Ok g' ∧ (VerifyChain g' = false ∨ ∃ a b, collision a b).
Proof.
  intros Ha Hl Hsort Hin. set (g := run ops (NewGossipLedger peer)) in *.
  unfold loadLedgerBbolt. rewrite bool_decide_true; [eexists; split; [done|]|].
  2:{ apply list_elem_of_fmap. exists (bboltLedgerIdentityKey, VIdentity (peerID g) (seq g)).
     split; [done|by apply Hin]. }
  destruct (VerifyChain _) eqn:Hv; [right|by left].
  pose proof (appends_shape peer ops Ha ltac:(lia)) as (_ & _ & Hlen & _ & _ & _ & _ & Hid).
  assert (tables_ok g) as [Hi _] by (by apply run_tables). fold g in Hlen, Hid.
  assert (chain_from None (txs g) = true) as Hc
    by (by apply (run_preserves_valid ops (NewGossipLedger peer))).
  destruct (lookup_lt_is_Some_2 (txs g) 0) as [t1 H1]; [lia|].
  destruct (lookup_lt_is_Some_2 (txs g) 8) as [t9 H9]; [lia|].
  destruct (lookup_lt_is_Some_2 (txs g) 9) as [t10 H10]; [lia|].
  assert (∀ i t, txs g !! i = Some t → ("tx/" +:+ tx_id peer (Z.of_nat i + 1), VTx t) ∈ entries) as Hent.
  { intros i t Ht. apply Hin. rewrite marshal_tx_key, Hi, <- (Hid _ _ Ht), index_complete;
      [done|by eapply appends_nodup|]. by eapply list_elem_of_lookup_2. }
  destruct (sorted_adjacent key_lt entries ("tx/" +:+ tx_id peer 1, VTx t1)
    ("tx/" +:+ tx_id peer 10, VTx t10)) as (l1 & l2 & El); [done|..].
  { intros a. unfold key_lt. by rewrite str_ltb_irrefl. }
  { intros a b. unfold key_lt. intros ->%str_ltb_asym. done. }
  { by apply (Hent 0%nat). }
  { by apply (Hent 9%nat). }
  { unfold key_lt, tx_id. cbn [fst]. by rewrite !str_ltb_app. }
  { intros [k v] Hk. apply Hin in Hk. unfold key_lt. cbn [fst]. exact (keys_between peer ops k v Ha ltac:(lia) Hk). }
  unfold VerifyChain, chainValid in Hv. rewrite load_txs, El, omap_app in Hv.
  cbn in Hv. rewrite chain_from_app in Hv. apply andb_true_iff in Hv as [_ Hv].
  cbn [chain_from] in Hv. rewrite !andb_true_iff in Hv.
  destruct Hv as [_ [[Hp%bool_decide_eq_true _] _]].
  rewrite (chain_links _ _ _ _ _ Hc H9 H10), (chain_hash _ _ _ _ Hc H9),
    (chain_hash _ _ _ _ Hc H1) in Hp.
  apply sha256_hex_eq in Hp as [Hp|Hcol]; [|eauto]. exfalso. revert Hp. unfold tx_preimage.
  rewrite (Hid _ _ H9), (Hid _ _ H1). unfold tx_id. rewrite !append_assoc.
  intros E%append_inj_r%append_inj_r%append_inj_r. revert E. generalize (Type_ t9), (Type_ t1).
  intros s s'. by intros E.
Qed.
End reload.

(** Ten contributions of one node. *)
Definition ten_appends : list op := replicate 10 (OpAppend 0 "contribution" "n" 1 "m" "r").

Lemma bbolt_reload_breaks_chain_witness :
  let env := plain_env in
  ∃ entries g', loadLedgerBbolt (loc := UTC) entries = Ok g' ∧
    (VerifyChain g' = false ∨ ∃ a b, collision a b).
Proof.
  intros env. destruct (bucket_exists (loc := UTC) "p" ten_appends) as [bucket Hb].
  destruct (cursor_spec bucket) as [Hs Hin]. exists (cursor_of bucket).
  apply (bbolt_reload_breaks_chain (loc := UTC) "p" ten_appends (cursor_of bucket)).
  - by repeat constructor.
  - simpl. lia.
  - exact Hs.
  - intros k v. rewrite Hin. by rewrite Hb.
Defined.

(** ** Merge *)

(** The first record of a batch with a given non-empty id. *)
Definition first_with {A} (id : A → string) (l : list (option A)) (k : string) : option A :=
  if bool_decide (k = "") then None
  else head (omap (λ x, match x with
                        | Some r => if bool_decide (id r = k) then Some r else None
                        | None => None end) l).

Lemma first_with_cons {A} (id : A → string) x l k :
  first_with id (x :: l) k =
  match x with
  | Some r => if bool_decide (id r = k ∧ k ≠ "") then Some r else first_with id l k
  | None => first_with id l k
  end.
Proof.
  unfold first_with. destruct x as [r|]; cbn; [|done].
  repeat case_bool_decide; naive_solver.
Qed.

Section merge.
Context {A : Type} (id : A → string) (prefix : string).

Lemma sync_map_spec l m d n :
  is_int64 n →
  let '(m', d', n') := sync_map id prefix l (m, d, n) in
  (∀ k, m' !! k = match m !! k with Some r => Some r | None => first_with id l k end) ∧
  n' = wrap64 (n + (Z.of_nat (size m') - Z.of_nat (size m))) ∧ is_int64 n'.
Proof.
  revert m d n. induction l as [|x l IH]; intros m d n Hn.
  { cbn. split; [|rewrite Z.sub_diag, Z.add_0_r, wrap64_id; done].
    intros k. destruct (m !! k); [done|]. unfold first_with. by case_bool_decide. }
  unfold sync_map. cbn [foldl sync_one]. destruct x as [r|]; cbn [sync_one].
  2:{ exact (IH m d n Hn). }
  case_bool_decide as He.
  { specialize (IH m d n Hn). unfold sync_map in IH. destruct (foldl _ _ l) as [[m' d'] n'].
    destruct IH as (IH & Hc). split; [|done]. intros k. rewrite IH. destruct (m !! k); [done|].
    rewrite first_with_cons, bool_decide_false; [done|]. naive_solver. }
  destruct (m !! id r) eqn:E.
  { specialize (IH m d n Hn). unfold sync_map in IH. destruct (foldl _ _ l) as [[m' d'] n'].
    destruct IH as (IH & Hc). split; [|done]. intros k. rewrite IH. destruct (m !! k) eqn:Ek; [done|].
    rewrite first_with_cons, bool_decide_false; [done|]. naive_solver. }
  specialize (IH (<[id r := r]> m) ({[prefix +:+ id r]} ∪ d) (n +! 1) (wrap64_range _)).
  unfold sync_map in IH. destruct (foldl _ _ l) as [[m' d'] n'].
  destruct IH as (IH & Hc & Hi). split; [|split; [|done]].
  - intros k. rewrite IH, lookup_insert, first_with_cons. case_decide as Hk.
    + subst. by rewrite E, bool_decide_true.
    + by rewrite bool_decide_false by naive_solver.
  - rewrite Hc, map_size_insert_None, wrap64_add_l by done. f_equal. lia.
Qed.

(** A second pass over the same batch finds every id present. *)
Lemma sync_map_stable l m d n :
  (∀ k, is_Some (first_with id l k) → is_Some (m !! k)) →
  sync_map id prefix l (m, d, n) = (m, d, n).
Proof.
  intros Hk. unfold sync_map. induction l as [|x l IH]; [done|]. cbn [foldl sync_one].
  assert (∀ k, is_Some (first_with id l k) → is_Some (m !! k)) as Hl.
  { intros k Hs. apply Hk. rewrite first_with_cons. destruct x; [|done]. by case_bool_decide. }
  destruct x as [r|]; cbn [sync_one]; [|by apply IH].
  case_bool_decide as He; [by apply IH|].
  destruct (Hk (id r)) as [y ->]; [|by apply IH].
  rewrite first_with_cons, bool_decide_true by done. eauto.
Qed.
End merge.

Section sync.
Context `{LedgerEnv}.

(** [GossipSync] is a first-writer-wins merge: after it, an id maps to the
    record the ledger had, else to the first record of the batch with that id
    (never under the empty id); it returns how many records were added; the
    chain, the sequence number and the identity are untouched; and merging the
    same batch again adds nothing and changes nothing. *)
Theorem gossip_sync_merge cs ts ks ps g :
  let '(n, g') := GossipSync cs ts ks ps g in
  (∀ k, recs g' !! k = match recs g !! k with Some r => Some r | None => first_with c_ID cs k end) ∧
  (∀ k, trusts g' !! k = match trusts g !! k with Some r => Some r | None => first_with t_ID ts k end) ∧
  (∀ k, claims g' !! k = match claims g !! k with Some r => Some r | None => first_with k_ID ks k end) ∧
  (∀ k, penalties g' !! k =
          match penalties g !! k with Some r => Some r | None => first_with p_ID ps k end) ∧
  n = wrap64 (Count g' - Count g) ∧
  txs g' = txs g ∧ seq g' = seq g ∧ peerID g' = peerID g ∧
  GossipSync cs ts ks ps g' = (0, g').
Proof.
  unfold GossipSync.
  pose proof (sync_map_spec c_ID "contrib/" cs (recs g) (dirty g) 0 ltac:(done)) as S1.
  destruct (sync_map c_ID _ _ _) as [[m1 d1] n1]. destruct S1 as (L1 & N1 & I1).
  pose proof (sync_map_spec t_ID "trust/" ts (trusts g) d1 n1 I1) as S2.
  destruct (sync_map t_ID _ _ _) as [[m2 d2] n2]. destruct S2 as (L2 & N2 & I2).
  pose proof (sync_map_spec k_ID "claim/" ks (claims g) d2 n2 I2) as S3.
  destruct (sync_map k_ID _ _ _) as [[m3 d3] n3]. destruct S3 as (L3 & N3 & I3).
  pose proof (sync_map_spec p_ID "penalty/" ps (penalties g) d3 n3 I3) as S4.
  destruct (sync_map p_ID _ _ _) as [[m4 d4] n4]. destruct S4 as (L4 & N4 & I4).
  cbn. do 4 (split; [done|]). split.
  { rewrite N1, wrap64_add_l in N2. rewrite N2, wrap64_add_l in N3.
    rewrite N4, N3, wrap64_add_l. unfold Count. cbn [recs trusts claims penalties set_records].
    apply (f_equal wrap64). lia. }
  do 3 (split; [done|]).
  rewrite !sync_map_stable; [done|..]; intros k Hs;
    [rewrite L4|rewrite L3|rewrite L2|rewrite L1]; by case_match.
Qed.
End sync.

(** ** The honor roll *)
Definition honor_lt (a b : ContributorHonor) : Prop := honor_less a b = true.

#[local] Instance honor_le_trans : Transitive (le_of honor_less).
Proof.
  intros a b c. unfold le_of, honor_less. repeat case_bool_decide; try (rewrite !Z.ltb_ge; lia); try congruence.
  intros H1' H2'. destruct (str_ltb (h_PeerID c) (h_PeerID a)) eqn:E; [|done].
  destruct (str_ltb (h_PeerID b) (h_PeerID c)) eqn:E2.
  - by rewrite (str_ltb_trans _ _ _ E2 E) in H1'.
  - assert (h_PeerID b = h_PeerID c) by (by apply str_ltb_total). congruence.
Qed.

#[local] Instance honor_le_total : Total (le_of honor_less).
Proof.
  intros a b. unfold le_of, honor_less. repeat case_bool_decide; try congruence;
    rewrite ?Z.ltb_ge; try lia.
  destruct (str_ltb (h_PeerID b) (h_PeerID a)) eqn:E; [right|by left]. by apply str_ltb_asym.
Qed.

Lemma honor_less_total a b :
  honor_less a b = false → honor_less b a = false → h_PeerID a = h_PeerID b.
Proof.
  unfold honor_less. repeat case_bool_decide; try congruence; rewrite ?Z.ltb_ge; try lia.
  apply str_ltb_total.
Qed.

Definition max_time (t seen : Time) : Time := if after t seen then t else seen.

Lemma max_time_max t seen : max_time t seen = Z.max t seen.
Proof. unfold max_time, after. destruct (Z.ltb_spec seen t); lia. Qed.

Lemma max_time_comm a b c : max_time a (max_time b c) = max_time b (max_time a c).
Proof. rewrite !max_time_max. lia. Qed.

(** What [honor_step] leaves for one peer. *)
Lemma honor_fold rs peer :
  let mine := filter (λ r, c_PeerID r = peer) rs in
  foldl honor_step ∅ rs !! peer =
    (if bool_decide (mine = []) then None
     else Some (wsum (c_Tokens <$> mine), wsum ((λ _, 1) <$> mine),
                foldl (λ s r, max_time (c_Timestamp r) s) time_zero mine)).
Proof.
  induction rs as [|r rs IH] using rev_ind; [reflexivity|].
  rewrite foldl_app. cbn [foldl]. rewrite filter_app, filter_cons, filter_nil.
  cbn zeta in IH |- *. unfold honor_step at 1.
  destruct (decide (c_PeerID r = peer)) as [<-|Hne].
  - rewrite IH, (bool_decide_false (_ ++ [r] = [])) by (intros [_ ?]%app_eq_nil; done).
    rewrite !fmap_app, !fmap_cons, !fmap_nil, !wsum_app_singleton, foldl_app. cbn [foldl].
    case_bool_decide as E; [rewrite E|]; cbn; by rewrite lookup_insert_eq.
  - rewrite app_nil_r, <- IH. destruct (default _ _) as [[tk n] seen].
    by rewrite lookup_insert_ne.
Qed.

Lemma honor_step_alt m r :
  honor_step m r =
  let v := default (0, 0, time_zero) (m !! c_PeerID r) in
  <[c_PeerID r := (v.1.1 +! c_Tokens r, v.1.2 +! 1, max_time (c_Timestamp r) v.2)]> m.
Proof. unfold honor_step. by destruct (default _ _) as [[tk n] seen]. Qed.

Lemma honor_step_comm m x y : honor_step (honor_step m x) y = honor_step (honor_step m y) x.
Proof.
  rewrite !honor_step_alt. cbn zeta. destruct (decide (c_PeerID x = c_PeerID y)) as [E|E].
  - rewrite E, !lookup_insert_eq. cbn. rewrite !insert_insert_eq. f_equal. f_equal.
    + f_equal. apply wrap64_add_comm_r.
    + apply max_time_comm.
  - rewrite !lookup_insert_ne by done. by rewrite insert_insert_ne.
Qed.

Lemma honors_perm rs1 rs2 : rs1 ≡ₚ rs2 → honors rs1 = honors rs2.
Proof. intros Hp. unfold honors. by rewrite (foldl_perm _ _ _ _ honor_step_comm Hp). Qed.

Lemma honors_elem rs h :
  h ∈ honors rs ↔
  let mine := filter (λ r, c_PeerID r = h_PeerID h) rs in
  mine ≠ [] ∧ h_Tokens h = wsum (c_Tokens <$> mine) ∧ h_Records h = wsum ((λ _, 1) <$> mine) ∧
  h_LastSeen h = foldl (λ s r, max_time (c_Timestamp r) s) time_zero mine.
Proof.
  unfold honors. rewrite sort_slice_perm, list_elem_of_fmap. cbn zeta. split.
  - intros ([k v] & -> & Hkv%elem_of_map_to_list). rewrite honor_fold in Hkv. cbn.
    case_bool_decide; simplify_eq/=. done.
  - intros (Hne & Ht & Hr & Hs). exists (h_PeerID h, (h_Tokens h, h_Records h, h_LastSeen h)).
    split; [by destruct h|]. apply elem_of_map_to_list. rewrite honor_fold.
    rewrite bool_decide_false by done. by rewrite Ht, Hr, Hs.
Qed.

Lemma honors_nodup rs : NoDup (h_PeerID <$> honors rs).
Proof.
  unfold honors. rewrite sort_slice_perm, <- list_fmap_compose.
  apply NoDup_fst_map_to_list.
Qed.

(** The honor roll is deterministic and exact: whatever the order in which
    the map of records is iterated the result is the same list, strictly sorted
    (tokens and records descending, then peer id), with one entry for exactly
    the peers that have a record, carrying the 64-bit sum of their tokens, the
    number of their records and the latest of their timestamps. *)
Theorem contributor_honors_exact g rs h :
  let hs := GetContributorHonors g in
  let mine := filter (λ r, c_PeerID r = h_PeerID h) (map_to_list (recs g)).*2 in
  (rs ≡ₚ (map_to_list (recs g)).*2 → honors rs = hs) ∧
  StronglySorted honor_lt hs ∧
  (h ∈ hs ↔
     mine ≠ [] ∧ h_Tokens h = wsum (c_Tokens <$> mine) ∧
     h_Records h = wrap64 (Z.of_nat (length mine)) ∧
     h_LastSeen h = foldl (λ s r, max_time (c_Timestamp r) s) time_zero mine).
Proof.
  intros hs mine. split; [apply honors_perm|]. split.
  - unfold hs, GetContributorHonors. set (l := (map_to_list _).*2).
    pose proof (sort_slice_sorted honor_less (honor_of <$> map_to_list (foldl honor_step ∅ l)) _ _) as Hs.
    pose proof (honors_nodup l) as Hn. fold (honors l) in Hs. revert Hs Hn. generalize (honors l).
    induction 1 as [|x l' Hl IH Hx]; [constructor|]. rewrite fmap_cons. intros [Hnx Hn]%NoDup_cons.
    constructor; [by apply IH|]. rewrite Forall_forall in *. intros y Hy. unfold honor_lt.
    destruct (honor_less x y) eqn:E; [done|]. destruct Hnx.
    rewrite (honor_less_total x y E (Hx y Hy)). by apply list_elem_of_fmap_2.
  - unfold hs, GetContributorHonors. rewrite honors_elem. cbn zeta. fold mine.
    enough (wsum ((λ _, 1) <$> mine) = wrap64 (Z.of_nat (length mine))) as -> by done.
    rewrite wsum_zsum. apply (f_equal wrap64). clear. induction mine as [|r l IH]; [done|].
    rewrite fmap_cons, zsum_cons, IH. simpl length. lia.
Qed.
