(* ===== verification/ContribQuota.v ===== *)
(** * The contributors' free-quota entitlement

    [ContributionQuotaTracker] (ledger_contrib_quota.go) keeps, per contributor,
    the tokens donated, the entitlement earned (one to one) and the part already
    drawn; ledger_quota_consume.go draws a reservation from it and refunds what
    a request did not use.  The persistence is modelled up to the JSON text. *)

From S2P Require Import Prelude GoTime Sha256 Ledger LedgerReload.

Record ContributionQuota := {
  PeerID : string; ContributedTokens : Z; EarnedFreeQuota : Z; ConsumedQuota : Z;
  RemainingQuota : Z; LastUpdated : Z }.

Abbreviation entries := (gmap string ContributionQuota).

Definition remainingLocked (q : ContributionQuota) : Z :=
  let r := EarnedFreeQuota q -! ConsumedQuota q in if r <? 0 then 0 else r.

Definition unix (t : Time) : Z := t / second.

(** Assignments of the four counters, then [RemainingQuota] and [LastUpdated]. *)
Definition refresh (q : ContributionQuota) (contributed earned consumed : Z) (updated : Z)
    : ContributionQuota :=
  let q' := {| PeerID := PeerID q; ContributedTokens := contributed; EarnedFreeQuota := earned;
               ConsumedQuota := consumed; RemainingQuota := RemainingQuota q;
               LastUpdated := updated |} in
  {| PeerID := PeerID q; ContributedTokens := contributed; EarnedFreeQuota := earned;
     ConsumedQuota := consumed; RemainingQuota := remainingLocked q'; LastUpdated := updated |}.

Definition zero_quota (peerID : string) : ContributionQuota := {|
  PeerID := peerID; ContributedTokens := 0; EarnedFreeQuota := 0; ConsumedQuota := 0;
  RemainingQuota := 0; LastUpdated := 0 |}.

Definition Accrue (now : Time) (peerID : string) (tokens : Z) (t : entries) : entries :=
  if bool_decide (peerID = "") || (tokens <=? 0) then t
  else
    let e := default (zero_quota peerID) (t !! peerID) in
    let c := ContributedTokens e +! tokens in
    <[peerID := refresh e c c (ConsumedQuota e) (unix now)]> t.

Definition Consume (now : Time) (peerID : string) (tokens : Z) (t : entries)
    : bool * Z * entries :=
  if bool_decide (peerID = "") || (tokens <=? 0) then (false, 0, t)
  else match t !! peerID with
       | None => (false, 0, t)
       | Some e =>
           if remainingLocked e <? tokens then (false, remainingLocked e, t)
           else
             let e' := refresh e (ContributedTokens e) (EarnedFreeQuota e)
                         (ConsumedQuota e +! tokens) (unix now) in
             (true, RemainingQuota e', <[peerID := e']> t)
       end.

Definition Refund (now : Time) (peerID : string) (tokens : Z) (t : entries) : entries :=
  if bool_decide (peerID = "") || (tokens <=? 0) then t
  else match t !! peerID with
       | None => t
       | Some e =>
           let c := ConsumedQuota e -! tokens in
           <[peerID := refresh e (ContributedTokens e) (EarnedFreeQuota e)
                         (if c <? 0 then 0 else c) (unix now)]> t
       end.

Definition Remaining (peerID : string) (t : entries) : Z :=
  if bool_decide (peerID = "") then 0
  else match t !! peerID with Some e => remainingLocked e | None => 0 end.

Definition with_remaining (q : ContributionQuota) : ContributionQuota :=
  {| PeerID := PeerID q; ContributedTokens := ContributedTokens q;
     EarnedFreeQuota := EarnedFreeQuota q; ConsumedQuota := ConsumedQuota q;
     RemainingQuota := remainingLocked q; LastUpdated := LastUpdated q |}.

Definition GetQuota (peerID : string) (t : entries) : option ContributionQuota :=
  with_remaining <$> t !! peerID.

Definition quota_less (a b : ContributionQuota) : bool :=
  if bool_decide (ContributedTokens a = ContributedTokens b)
  then str_ltb (PeerID a) (PeerID b) else ContributedTokens b <? ContributedTokens a.

Definition Snapshot (t : entries) : list ContributionQuota :=
  sort_slice quota_less (with_remaining <$> (map_to_list t).*2).

Definition TotalContributed (t : entries) : Z := wsum (ContributedTokens <$> (map_to_list t).*2).
Definition TotalConsumed (t : entries) : Z := wsum (ConsumedQuota <$> (map_to_list t).*2).

(** The repair [load] and [loadBbolt] apply to every entry they read. *)
Definition normalize (q : ContributionQuota) : ContributionQuota :=
  let earned := ContributedTokens q in
  let c0 := if ConsumedQuota q <? 0 then 0 else ConsumedQuota q in
  let c1 := if earned <? c0 then earned else c0 in
  refresh q (ContributedTokens q) earned c1 (LastUpdated q).

Definition load (loaded : entries) : entries := normalize <$> loaded.

(** ** Drawing for a request (ledger_quota_consume.go) *)

(** A byte [nodeIDPattern] ([^[a-zA-Z0-9_-]+$]) accepts. *)
Definition node_id_char (c : ascii) : bool :=
  let n := Z.of_N (Ascii.N_of_ascii c) in
  ((97 <=? n) && (n <=? 122)) || ((65 <=? n) && (n <=? 90)) || ((48 <=? n) && (n <=? 57))
  || (n =? 95) || (n =? 45).

Fixpoint all_chars (p : ascii → bool) (s : string) : bool :=
  match s with String c s' => p c && all_chars p s' | EmptyString => true end.

(** federation.go. *)
Definition sanitizeNodeID (id : string) : string :=
  let id' := String.substring 0 128 id in
  if negb (bool_decide (id' = "")) && all_chars node_id_char id' then id' else "".

Definition verifiedContributorID (header : string → string) : string :=
  let id := sanitizeNodeID (header "X-Node-ID") in
  if bool_decide (id = "") then sanitizeNodeID (header "X-Node-Auth") else id.

Record contributorDraw := {
  d_PeerID : string; d_Tokens : Z; d_Remaining : Z; d_OK : bool }.

Definition no_draw : contributorDraw :=
  {| d_PeerID := ""; d_Tokens := 0; d_Remaining := 0; d_OK := false |}.

(** The tracker is [nil] until it is initialised. *)
Definition tryContributorDraw (now : Time) (header : string → string) (tokens : Z)
    (t : option entries) : contributorDraw * option entries :=
  match t with
  | None => (no_draw, t)
  | Some es =>
      if tokens <=? 0 then (no_draw, t)
      else
        let peerID := verifiedContributorID header in
        if bool_decide (peerID = "") then (no_draw, t)
        else
          let '(ok, remaining, es') := Consume now peerID tokens es in
          if ok then ({| d_PeerID := peerID; d_Tokens := tokens; d_Remaining := remaining;
                         d_OK := true |}, Some es')
          else ({| d_PeerID := peerID; d_Tokens := 0; d_Remaining := remaining;
                   d_OK := false |}, Some es')
  end.

Definition settle (now : Time) (d : contributorDraw) (actual : Z) (t : option entries)
    : option entries :=
  match t with
  | None => t
  | Some es =>
      if negb (d_OK d) then t
      else if (actual <=? 0) || (d_Tokens d <=? actual) then t
      else Some (Refund now (d_PeerID d) (d_Tokens d -! actual) es)
  end.

(** ** The accounting invariant *)
Inductive quota_op :=
  | QAccrue (now : Time) (peer : string) (tokens : Z)
  | QConsume (now : Time) (peer : string) (tokens : Z)
  | QRefund (now : Time) (peer : string) (tokens : Z).

Definition run_quota_op (t : entries) (o : quota_op) : entries :=
  match o with
  | QAccrue now p n => Accrue now p n t
  | QConsume now p n => (Consume now p n t).2
  | QRefund now p n => Refund now p n t
  end.

Definition run_quota (ops : list quota_op) (t : entries) : entries := foldl run_quota_op t ops.

(** What a peer donated. *)
Definition donation (peer : string) (o : quota_op) : Z :=
  match o with
  | QAccrue _ p n => if bool_decide (p = peer ∧ p ≠ "" ∧ 0 < n) then n else 0
  | _ => 0
  end.
Definition donated (peer : string) (ops : list quota_op) : Z := zsum (donation peer <$> ops).

(** A row that balances: one to one, never overdrawn, never negative. *)
Definition balanced (p : string) (e : ContributionQuota) : Prop :=
  PeerID e = p ∧ EarnedFreeQuota e = ContributedTokens e ∧
  0 ≤ ConsumedQuota e ≤ EarnedFreeQuota e ∧ EarnedFreeQuota e < 2 ^ 63 ∧
  RemainingQuota e = EarnedFreeQuota e - ConsumedQuota e.

Lemma remainingLocked_balanced p e :
  balanced p e → remainingLocked e = EarnedFreeQuota e - ConsumedQuota e.
Proof.
  intros (_ & _ & Hc & He & _). unfold remainingLocked. rewrite wrap64_id by (split; lia).
  destruct (Z.ltb_spec (EarnedFreeQuota e - ConsumedQuota e) 0); lia.
Qed.

Lemma refresh_balanced q c k u :
  0 ≤ k ≤ c → c < 2 ^ 63 → balanced (PeerID q) (refresh q c c k u).
Proof.
  intros Hk Hc. unfold balanced, refresh, remainingLocked. cbn.
  rewrite wrap64_id by (split; lia). destruct (Z.ltb_spec (c - k) 0); [lia|]. done.
Qed.

Lemma Consume_balanced now p n t e :
  t !! p = Some e → balanced p e → p ≠ "" → 0 < n →
  (n ≤ EarnedFreeQuota e - ConsumedQuota e ∧ ∃ e', balanced p e' ∧
     Consume now p n t = (true, EarnedFreeQuota e - ConsumedQuota e - n, <[p := e']> t) ∧
     ContributedTokens e' = ContributedTokens e ∧ ConsumedQuota e' = ConsumedQuota e + n) ∨
  (EarnedFreeQuota e - ConsumedQuota e < n ∧
     Consume now p n t = (false, EarnedFreeQuota e - ConsumedQuota e, t)).
Proof.
  intros Ht Hb Hp Hn. unfold Consume. rewrite bool_decide_false by done.
  destruct (Z.leb_spec n 0); [lia|]. cbn [orb]. rewrite Ht, (remainingLocked_balanced p e Hb).
  destruct Hb as (HP & He & Hc & Hm & Hr).
  destruct (Z.ltb_spec (EarnedFreeQuota e - ConsumedQuota e) n); [by right|left].
  split; [lia|]. rewrite wrap64_id by (split; lia).
  pose proof (refresh_balanced e (EarnedFreeQuota e) (ConsumedQuota e + n) (unix now)
                ltac:(lia) ltac:(lia)) as Hb'.
  rewrite HP in Hb'. rewrite <- He. eexists. split; [exact Hb'|].
  destruct Hb' as (_ & _ & _ & _ & Hr'). rewrite Hr'. cbn. by rewrite Z.sub_add_distr.
Qed.

Lemma Refund_balanced now p n t e :
  t !! p = Some e → balanced p e → p ≠ "" → 0 < n → n < 2 ^ 63 →
  ∃ e', balanced p e' ∧ Refund now p n t = <[p := e']> t ∧
    ContributedTokens e' = ContributedTokens e ∧ ConsumedQuota e' = Z.max 0 (ConsumedQuota e - n).
Proof.
  intros Ht (HP & He & Hc & Hm & Hr) Hp Hn Hn'. unfold Refund. rewrite bool_decide_false by done.
  destruct (Z.leb_spec n 0); [lia|]. cbn [orb]. rewrite Ht, wrap64_id by (split; lia).
  set (k := if ConsumedQuota e - n <? 0 then 0 else ConsumedQuota e - n).
  assert (k = Z.max 0 (ConsumedQuota e - n)) as Hk.
  { unfold k. destruct (Z.ltb_spec (ConsumedQuota e - n) 0); lia. }
  pose proof (refresh_balanced e (EarnedFreeQuota e) k (unix now) ltac:(lia) ltac:(lia)) as Hb'.
  rewrite HP in Hb'. rewrite <- He. eexists. split; [exact Hb'|]. done.
Qed.

(** Every row is the sum of its donations and balances. *)
Definition quota_ok (ops : list quota_op) (t : entries) : Prop :=
  ∀ p, match t !! p with
       | Some e => p ≠ "" ∧ balanced p e ∧ ContributedTokens e = donated p ops
       | None => donated p ops = 0
       end.

Definition refund_bounded (o : quota_op) : Prop :=
  match o with QRefund _ _ n => n < 2 ^ 63 | _ => True end.

Lemma donation_nonneg p o : 0 ≤ donation p o.
Proof. destruct o; cbn; [case_bool_decide; lia|lia..]. Qed.

Lemma donated_snoc p ops o : donated p (ops ++ [o]) = donated p ops + donation p o.
Proof. unfold donated. rewrite fmap_app, zsum_app. cbn. lia. Qed.

Lemma guard_true p n : ¬ (p ≠ "" ∧ 0 < n) → bool_decide (p = "") || (n <=? 0) = true.
Proof.
  intros H. apply orb_true_iff. rewrite bool_decide_eq_true, Z.leb_le.
  destruct (decide (p = "")); [by left|right]. destruct (decide (0 < n)); [by destruct H|lia].
Qed.

Lemma guard_false p n : p ≠ "" → 0 < n → bool_decide (p = "") || (n <=? 0) = false.
Proof. intros Hp Hn. rewrite bool_decide_false by done. apply Z.leb_gt. lia. Qed.

Lemma quota_ok_accrue ops now p n t :
  quota_ok ops t → (∀ q, donated q (ops ++ [QAccrue now p n]) < 2 ^ 63) →
  quota_ok (ops ++ [QAccrue now p n]) (Accrue now p n t).
Proof.
  intros Hok Hmax q. specialize (Hmax q). rewrite donated_snoc in *. pose proof (Hok q) as Hq.
  cbn [donation] in *. unfold Accrue.
  destruct (decide (p ≠ "" ∧ 0 < n)) as [[Hp Hn]|Hno].
  2:{ rewrite guard_true, bool_decide_false, Z.add_0_r by naive_solver. done. }
  rewrite guard_false by done. rewrite lookup_insert. case_decide as E.
  2:{ by rewrite bool_decide_false, Z.add_0_r by naive_solver. }
  subst q. rewrite bool_decide_true in Hmax |- * by done. split; [done|].
  destruct (t !! p) as [e|]; cbn [default].
  - destruct Hq as (_ & (HP & He & Hc & Hm & Hr) & Hsum).
    cbn [default from_option]. unfold id. rewrite wrap64_id by (split; lia).
    split; [|cbn; lia]. rewrite <- HP at 1. apply refresh_balanced; lia.
  - cbn [from_option]. cbn [ContributedTokens zero_quota ConsumedQuota].
    rewrite wrap64_id by (split; lia). split; [|cbn; lia].
    apply (refresh_balanced (zero_quota p)); lia.
Qed.

(** An operation that leaves the donations alone and replaces at most one row by
    a balanced one. *)
Lemma quota_ok_same ops o t t' p :
  quota_ok ops t → (∀ q, donation q o = 0) →
  (t' = t ∨ ∃ e e', p ≠ "" ∧ t !! p = Some e ∧ t' = <[p := e']> t ∧ balanced p e' ∧
                    ContributedTokens e' = ContributedTokens e) →
  quota_ok (ops ++ [o]) t'.
Proof.
  intros Hok Hd Ht q. rewrite donated_snoc, Hd, Z.add_0_r.
  destruct Ht as [->|(e & e' & Hp & He & -> & Hb & Hc)]; [apply Hok|].
  rewrite lookup_insert. case_decide; [|apply Hok]. subst q.
  specialize (Hok p). rewrite He in Hok. rewrite Hc. by destruct Hok as (_ & _ & ?).
Qed.

Lemma quota_ok_step ops o t :
  quota_ok ops t → refund_bounded o → (∀ p, donated p (ops ++ [o]) < 2 ^ 63) →
  quota_ok (ops ++ [o]) (run_quota_op t o).
Proof.
  intros Hok Hb Hmax. destruct o as [now p n|now p n|now p n]; cbn [run_quota_op].
  - by apply quota_ok_accrue.
  - apply (quota_ok_same _ _ t _ p); [done|done|].
    destruct (decide (p ≠ "" ∧ 0 < n)) as [[Hp Hn]|Hno].
    2:{ left. unfold Consume. by rewrite guard_true. }
    pose proof (Hok p) as Hp2. destruct (t !! p) as [e|] eqn:E.
    2:{ left. unfold Consume. rewrite E. by case_match. }
    destruct Hp2 as (_ & Hbal & Hsum).
    destruct (Consume_balanced now p n t e E Hbal Hp Hn) as [(_ & e' & Hb' & -> & Hc' & _)|[_ ->]];
      [right; by exists e, e'|by left].
  - apply (quota_ok_same _ _ t _ p); [done|done|].
    destruct (decide (p ≠ "" ∧ 0 < n)) as [[Hp Hn]|Hno].
    2:{ left. unfold Refund. by rewrite guard_true. }
    pose proof (Hok p) as Hp2. destruct (t !! p) as [e|] eqn:E.
    2:{ left. unfold Refund. rewrite E. by case_match. }
    destruct Hp2 as (_ & Hbal & Hsum).
    destruct (Refund_balanced now p n t e E Hbal Hp Hn Hb) as (e' & Hb' & -> & Hc' & _).
    right. by exists e, e'.
Qed.

Lemma donated_app_le p ops o : donated p ops ≤ donated p (ops ++ [o]).
Proof. rewrite donated_snoc. pose proof (donation_nonneg p o). lia. Qed.

Lemma quota_ok_run ops :
  Forall refund_bounded ops → (∀ p, donated p ops < 2 ^ 63) → quota_ok ops (run_quota ops ∅).
Proof.
  unfold run_quota. induction ops as [|o ops IH] using rev_ind; intros Hb Hmax.
  { intros p. cbn [foldl]. by rewrite lookup_empty. }
  apply Forall_app in Hb as [Hb [Ho _]%Forall_cons]. rewrite foldl_app.
  apply quota_ok_step; [|done|done]. apply IH; [done|].
  intros p. pose proof (donated_app_le p ops o). specialize (Hmax p). lia.
Qed.

(** C4. One-to-one accounting: after any sequence of accruals, draws and
    refunds (no contributor's donations exceeding an [int64]), a contributor's
    entitlement equals exactly what it donated, the consumed part is between
    zero and the entitlement, and [Remaining] is the difference; a contributor
    that never donated has no row and nothing to draw. *)
Theorem entitlement_one_to_one ops p :
  Forall refund_bounded ops → (∀ q, donated q ops < 2 ^ 63) →
  let t := run_quota ops ∅ in
  match GetQuota p t with
  | Some e => ContributedTokens e = donated p ops ∧ EarnedFreeQuota e = donated p ops ∧
              0 ≤ ConsumedQuota e ≤ donated p ops ∧
              RemainingQuota e = donated p ops - ConsumedQuota e ∧
              Remaining p t = RemainingQuota e
  | None => donated p ops = 0 ∧ Remaining p t = 0
  end.
Proof.
  intros Hb Hmax t. pose proof (quota_ok_run ops Hb Hmax p) as Hok. fold t in Hok.
  unfold GetQuota, Remaining. destruct (t !! p) as [e|]; cbn.
  - destruct Hok as (Hp & Hbal & Hsum). rewrite bool_decide_false by done.
    rewrite (remainingLocked_balanced p e Hbal). destruct Hbal as (_ & He & ? & ? & ?).
    rewrite Hsum in He. rewrite He in *. done.
  - split; [done|]. by case_match.
Qed.

Lemma entitlement_one_to_one_witness :
  let ops := [QAccrue 0 "alice" 100; QConsume 1 "alice" 30; QRefund 2 "alice" 10] in
  match GetQuota "alice" (run_quota ops ∅) with
  | Some e => ContributedTokens e = donated "alice" ops ∧ EarnedFreeQuota e = donated "alice" ops ∧
              0 ≤ ConsumedQuota e ≤ donated "alice" ops ∧
              RemainingQuota e = donated "alice" ops - ConsumedQuota e ∧
              Remaining "alice" (run_quota ops ∅) = RemainingQuota e
  | None => donated "alice" ops = 0 ∧ Remaining "alice" (run_quota ops ∅) = 0
  end.
Proof.
  apply (entitlement_one_to_one
           [QAccrue 0 "alice" 100; QConsume 1 "alice" 30; QRefund 2 "alice" 10] "alice").
  - repeat constructor.
  - intros q. unfold donated. cbn. case_bool_decide; lia.
Defined.

(** A draw charges what was used: from a balanced row, [tryContributorDraw]
    succeeds exactly when the verified caller has enough entitlement left, never
    changes another contributor's row, and leaves everything unchanged when it
    fails; after [settle], the entitlement has paid the actual usage when it is
    known and at most the reservation, and the reservation otherwise. *)
Theorem draw_settle_exact header now now' n actual t e :
  let p := verifiedContributorID header in
  p ≠ "" → t !! p = Some e → balanced p e → 0 < n → n < 2 ^ 63 →
  let '(d, t1) := tryContributorDraw now header n (Some t) in
  d_OK d = bool_decide (n ≤ EarnedFreeQuota e - ConsumedQuota e) ∧
  (if d_OK d then
     ∃ t2 e2, settle now' d actual t1 = Some t2 ∧ t2 !! p = Some e2 ∧ balanced p e2 ∧
       EarnedFreeQuota e2 = EarnedFreeQuota e ∧
       ConsumedQuota e2 =
         ConsumedQuota e + (if (0 <? actual) && (actual <? n) then actual else n) ∧
       (∀ q, q ≠ p → t2 !! q = t !! q)
   else settle now' d actual t1 = Some t).
Proof.
  intros p Hp Ht Hb Hn Hn'. unfold tryContributorDraw. destruct (Z.leb_spec n 0); [lia|].
  fold p. rewrite bool_decide_false by done.
  destruct (Consume_balanced now p n t e Ht Hb Hp Hn) as [(Hle & e1 & Hb1 & -> & Hc1 & Hk1)|[Hgt ->]]; cbn.
  2:{ rewrite bool_decide_false by lia. done. }
  rewrite bool_decide_true by done. split; [done|].
  assert (EarnedFreeQuota e1 = EarnedFreeQuota e) as He1.
  { destruct Hb1 as (_ & -> & _), Hb as (_ & -> & _). done. }
  destruct (Z.leb_spec actual 0), (Z.leb_spec n actual), (Z.ltb_spec 0 actual),
    (Z.ltb_spec actual n); try lia; cbn.
  1-2: exists (<[p := e1]> t), e1; rewrite lookup_insert_eq; repeat (split; [done|]);
       intros q Hq; by rewrite lookup_insert_ne.
  rewrite wrap64_id by (split; lia).
  destruct (Refund_balanced now' p (n - actual) (<[p := e1]> t) e1) as (e2 & Hb2 & -> & Hc2 & Hk2);
    [apply lookup_insert_eq|done|done|lia|lia|].
  eexists _, e2. split; [done|]. rewrite lookup_insert_eq. split; [done|]. split; [done|].
  split; [destruct Hb2 as (_ & -> & _), Hb1 as (_ & Hx & _); congruence|].
  split; [rewrite Hk2, Hk1; destruct Hb as (_ & _ & ? & _); lia|].
  intros q Hq. by rewrite !lookup_insert_ne.
Qed.

Lemma draw_settle_exact_witness :
  let header := λ h, if bool_decide (h = "X-Node-ID") then "alice" else "" in
  let e := refresh (zero_quota "alice") 100 100 20 0 in
  let '(d, t1) := tryContributorDraw 5 header 50 (Some {["alice" := e]}) in
  d_OK d = bool_decide (50 ≤ EarnedFreeQuota e - ConsumedQuota e) ∧
  (if d_OK d then
     ∃ t2 e2, settle 6 d 30 t1 = Some t2 ∧ t2 !! "alice" = Some e2 ∧ balanced "alice" e2 ∧
       EarnedFreeQuota e2 = EarnedFreeQuota e ∧
       ConsumedQuota e2 = ConsumedQuota e + (if (0 <? 30) && (30 <? 50) then 30 else 50) ∧
       (∀ q, q ≠ "alice" → t2 !! q = ({["alice" := e]} : entries) !! q)
   else settle 6 d 30 t1 = Some {["alice" := e]}).
Proof.
  intros header e. apply (draw_settle_exact header 5 6 50 30 {["alice" := e]} e).
  - done.
  - apply lookup_singleton_eq.
  - subst e. vm_compute. repeat split; (reflexivity || discriminate).
  - lia.
  - lia.
Defined.
