(* ===== verification/GlobalPool.v ===== *)
(** * The global computing pool (network_global_pool.go)

    [GlobalPool] aggregates the token contributions of the participating nodes:
    two maps of counters per node, a list of participants whose rows mirror the
    maps, and aggregates recomputed by [recalculateLocked] after each change. *)

From S2P Require Import Prelude GoTime.

Record GlobalPoolNode := {
  n_NodeID : string; n_Region : string; n_Contributed : Z; n_Consumed : Z; n_Ratio : float64;
  n_Reputation : float64; n_LastHeartbeat : Time; n_JoinedAt : string; n_Status : string }.

Record GlobalPool := {
  TotalContributed : Z; TotalConsumed : Z; AvailableQuota : Z;
  NodeContributions : gmap string Z; NodeConsumptions : gmap string Z;
  ParticipantNodes : list GlobalPoolNode; gp_LastUpdated : Time }.

Definition globalPoolMinJoinContribution : Z := 10000.

Definition empty_pool : GlobalPool := {|
  TotalContributed := 0; TotalConsumed := 0; AvailableQuota := 0; NodeContributions := ∅;
  NodeConsumptions := ∅; ParticipantNodes := []; gp_LastUpdated := time_zero |}.

Definition set_counters (gp : GlobalPool) (contribs consums : gmap string Z)
    (nodes : list GlobalPoolNode) : GlobalPool := {|
  TotalContributed := TotalContributed gp; TotalConsumed := TotalConsumed gp;
  AvailableQuota := AvailableQuota gp; NodeContributions := contribs;
  NodeConsumptions := consums; ParticipantNodes := nodes; gp_LastUpdated := gp_LastUpdated gp |}.

(** The status a heartbeat age gives. *)
Definition heartbeat_status (now last : Time) : string :=
  if 10 * minute <? now - last then "offline"
  else if 5 * minute <? now - last then "degraded" else "active".

(** The row [recalculateLocked] writes for one participant. *)
Definition recalc_node (now : Time) (contribs consums : gmap string Z) (n : GlobalPoolNode)
    : GlobalPoolNode :=
  let contrib := zget contribs (n_NodeID n) in
  let consumed := zget consums (n_NodeID n) in
  {| n_NodeID := n_NodeID n; n_Region := n_Region n; n_Contributed := contrib;
     n_Consumed := consumed;
     n_Ratio := if 0 <? contrib
                then fdiv (float_of_int contrib) (float_of_int (consumed +! 1)) else f_zero;
     n_Reputation := n_Reputation n; n_LastHeartbeat := n_LastHeartbeat n;
     n_JoinedAt := n_JoinedAt n; n_Status := heartbeat_status now (n_LastHeartbeat n) |}.

Definition recalculateLocked (now : Time) (gp : GlobalPool) : GlobalPool :=
  let contrib := wsum ((λ n, zget (NodeContributions gp) (n_NodeID n)) <$> ParticipantNodes gp) in
  let consumed := wsum ((λ n, zget (NodeConsumptions gp) (n_NodeID n)) <$> ParticipantNodes gp) in
  let avail := contrib -! consumed in
  {| TotalContributed := contrib; TotalConsumed := consumed;
     AvailableQuota := if avail <? 0 then 0 else avail;
     NodeContributions := NodeContributions gp; NodeConsumptions := NodeConsumptions gp;
     ParticipantNodes :=
       recalc_node now (NodeContributions gp) (NodeConsumptions gp) <$> ParticipantNodes gp;
     gp_LastUpdated := now |}.

Definition is_participant (nodeID : string) (gp : GlobalPool) : bool :=
  bool_decide (nodeID ∈ n_NodeID <$> ParticipantNodes gp).

(** [LastHeartbeat = now] and [Status = "active"] for the first row of a node. *)
Definition touch (now : Time) (n : GlobalPoolNode) : GlobalPoolNode :=
  {| n_NodeID := n_NodeID n; n_Region := n_Region n; n_Contributed := n_Contributed n;
     n_Consumed := n_Consumed n; n_Ratio := n_Ratio n; n_Reputation := n_Reputation n;
     n_LastHeartbeat := now; n_JoinedAt := n_JoinedAt n; n_Status := "active" |}.

Fixpoint update_first (nodeID : string) (f : GlobalPoolNode → GlobalPoolNode)
    (l : list GlobalPoolNode) : list GlobalPoolNode :=
  match l with
  | [] => []
  | n :: l' => if bool_decide (n_NodeID n = nodeID) then f n :: l'
               else n :: update_first nodeID f l'
  end.

Section pool.
Context {loc : Location}.

Definition JoinPool (now : Time) (nodeID region : string) (initialContribution : Z)
    (gp : GlobalPool) : res () * GlobalPool :=
  if bool_decide (nodeID = "") then (Err "node_id is required", gp)
  else if initialContribution <? globalPoolMinJoinContribution
  then (Err "minimum contribution to join", gp)
  else if is_participant nodeID gp then
    let contribs := zincr nodeID initialContribution (NodeContributions gp) in
    let nodes := update_first nodeID (touch now) (ParticipantNodes gp) in
    (Ok (), recalculateLocked now (set_counters gp contribs (NodeConsumptions gp) nodes))
  else
    let contribs := <[nodeID := initialContribution]> (NodeContributions gp) in
    let node := {| n_NodeID := nodeID; n_Region := region; n_Contributed := initialContribution;
                   n_Consumed := 0; n_Ratio := float_of_int initialContribution;
                   n_Reputation := f_zero; n_LastHeartbeat := now;
                   n_JoinedAt := fmt_rfc3339 loc now; n_Status := "active" |} in
    (Ok (), recalculateLocked now (set_counters gp contribs (NodeConsumptions gp)
                                     (ParticipantNodes gp ++ [node]))).

Definition Contribute (now : Time) (nodeID : string) (amount : Z) (gp : GlobalPool)
    : res () * GlobalPool :=
  if amount <=? 0 then (Err "contribution amount must be positive", gp)
  else if is_participant nodeID gp then
    (Ok (), recalculateLocked now
       (set_counters gp (zincr nodeID amount (NodeContributions gp)) (NodeConsumptions gp)
          (ParticipantNodes gp)))
  else (Err "node is not a pool participant", gp).

(** [TotalConsumed] is overwritten by [recalculateLocked]. *)
Definition RecordConsumption (now : Time) (nodeID : string) (amount : Z) (gp : GlobalPool)
    : GlobalPool :=
  recalculateLocked now
    (set_counters gp (NodeContributions gp) (zincr nodeID amount (NodeConsumptions gp))
       (ParticipantNodes gp)).

Definition TryConsume (now : Time) (nodeID : string) (amount : Z) (gp : GlobalPool)
    : bool * GlobalPool :=
  let remain := zget (NodeContributions gp) nodeID -! zget (NodeConsumptions gp) nodeID in
  let remain := if remain <? 0 then 0 else remain in
  if remain <? amount then (false, gp)
  else (true, RecordConsumption now nodeID amount gp).

Definition Heartbeat (now : Time) (nodeID : string) (gp : GlobalPool) : GlobalPool :=
  set_counters gp (NodeContributions gp) (NodeConsumptions gp)
    (update_first nodeID (touch now) (ParticipantNodes gp)).

(** One tick of [refreshLoop]: the statuses it sets are recomputed. *)
Definition refresh (now : Time) (gp : GlobalPool) : GlobalPool := recalculateLocked now gp.

Definition activeCount (gp : GlobalPool) : Z :=
  Z.of_nat (length (filter (λ n, n_Status n = "active") (ParticipantNodes gp))).
End pool.

(** [topContributorsLocked] keeps the [n] largest of a sort by amount. *)
Definition topContributorsLocked (n : nat) (gp : GlobalPool) : list (string * Z * Z) :=
  (λ kv : string * Z, (kv.1, kv.2, zget (NodeConsumptions gp) kv.1)) <$>
    take n (sort_slice (λ a b : string * Z, b.2 <? a.2) (map_to_list (NodeContributions gp))).

(** ** Accounting *)
Inductive pool_op :=
  | PJoin (now : Time) (nodeID region : string) (amount : Z)
  | PContribute (now : Time) (nodeID : string) (amount : Z)
  | PTryConsume (now : Time) (nodeID : string) (amount : Z)
  | PRecord (now : Time) (nodeID : string) (amount : Z)
  | PHeartbeat (now : Time) (nodeID : string)
  | PRefresh (now : Time).

Definition ids (gp : GlobalPool) : list string := n_NodeID <$> ParticipantNodes gp.

Section accounting.
Context {loc : Location}.

Definition run_pool_op (gp : GlobalPool) (o : pool_op) : GlobalPool :=
  match o with
  | PJoin now n r a => (JoinPool (loc := loc) now n r a gp).2
  | PContribute now n a => (Contribute now n a gp).2
  | PTryConsume now n a => (TryConsume now n a gp).2
  | PRecord now n a => RecordConsumption now n a gp
  | PHeartbeat now n => Heartbeat now n gp
  | PRefresh now => refresh now gp
  end.

Definition run_pool (ops : list pool_op) (gp : GlobalPool) : GlobalPool :=
  foldl run_pool_op gp ops.

(** What an operation can add to the pool, the size of what it asks for, and what it books on a node unchecked. *)
Definition supply_of (o : pool_op) : Z :=
  match o with PJoin _ _ _ a | PContribute _ _ a => Z.max 0 a | _ => 0 end.
Definition demand_of (o : pool_op) : Z :=
  match o with PTryConsume _ _ a | PRecord _ _ a => Z.abs a | _ => 0 end.
Definition booked_of (n : string) (o : pool_op) : Z :=
  match o with PRecord _ m a => if bool_decide (m = n) then Z.max 0 a else 0 | _ => 0 end.
Definition supply (ops : list pool_op) : Z := zsum (supply_of <$> ops).
Definition demand (ops : list pool_op) : Z := zsum (demand_of <$> ops).
Definition booked (n : string) (ops : list pool_op) : Z := zsum (booked_of n <$> ops).

(** [s]: what was supplied; [v]: the size of what was asked for; [r]: what was booked unchecked. *)
Definition aggregates (gp : GlobalPool) : Prop :=
  TotalContributed gp = sum_over (NodeContributions gp) (ids gp) ∧
  TotalConsumed gp = sum_over (NodeConsumptions gp) (ids gp) ∧
  AvailableQuota gp = Z.max 0 (TotalContributed gp - TotalConsumed gp).
Record counters_ok (s v : Z) (r : string → Z) (contribs consums : gmap string Z) (ks : list string) : Prop := {
  co_ids : NoDup ks;
  co_pos n : 0 ≤ zget contribs n;
  co_out n : n ∉ ks → zget contribs n = 0;
  co_sum : sum_over contribs ks ≤ s;
  co_used l : NoDup l → - v ≤ sum_over consums l ≤ v;
  co_over n : zget consums n ≤ zget contribs n + r n;
  co_booked n : 0 ≤ r n }.
Definition pool_ok (s v : Z) (r : string → Z) (gp : GlobalPool) : Prop :=
  counters_ok s v r (NodeContributions gp) (NodeConsumptions gp) (ids gp) ∧ aggregates gp.

Lemma ids_update_first n f l :
  (∀ x, n_NodeID (f x) = n_NodeID x) → n_NodeID <$> update_first n f l = n_NodeID <$> l.
Proof.
  intros Hf. induction l as [|x l IH]; [done|]. cbn [update_first].
  case_bool_decide; rewrite !fmap_cons, ?IH; [by rewrite Hf|done].
Qed.

Lemma recalc_ids now gp : ids (recalculateLocked now gp) = ids gp.
Proof. unfold ids. cbn. rewrite <- list_fmap_compose. done. Qed.

Lemma contrib_le s v r cs us ks n : counters_ok s v r cs us ks → 0 ≤ zget cs n ≤ s.
Proof.
  intros Hc. pose proof (co_pos _ _ _ _ _ _ Hc) as Hp. split; [apply Hp|]. pose proof (co_sum _ _ _ _ _ _ Hc).
  destruct (decide (n ∈ ks)) as [Hin|Hout].
  - pose proof (sum_over_elem cs ks n Hp Hin). lia.
  - rewrite (co_out _ _ _ _ _ _ Hc n Hout). pose proof (sum_over_nonneg cs ks Hp). lia.
Qed.
Lemma used_le s v r cs us ks n : counters_ok s v r cs us ks → - v ≤ zget us n ≤ v.
Proof.
  intros Hc. pose proof (co_used _ _ _ _ _ _ Hc [n] (NoDup_singleton n)) as Hu. unfold sum_over in Hu. cbn in Hu. lia.
Qed.

(** [recalculateLocked] makes the aggregates exact once the counters are. *)
Lemma recalc_ok now s v r gp :
  s < 2 ^ 62 → v < 2 ^ 62 →
  counters_ok s v r (NodeContributions gp) (NodeConsumptions gp) (ids gp) → pool_ok s v r (recalculateLocked now gp).
Proof.
  intros Hs Hv Hc. split; [by rewrite recalc_ids|]. unfold aggregates. rewrite recalc_ids. cbn.
  pose proof (sum_over_nonneg _ (ids gp) (co_pos _ _ _ _ _ _ Hc)). pose proof (co_sum _ _ _ _ _ _ Hc).
  pose proof (co_used _ _ _ _ _ _ Hc (ids gp) (co_ids _ _ _ _ _ _ Hc)).
  rewrite !wsum_zsum.
  assert (∀ m, zsum ((λ n, zget m (n_NodeID n)) <$> ParticipantNodes gp) = sum_over m (ids gp)) as E.
  { intros m. unfold sum_over, ids. by rewrite <- list_fmap_compose. }
  rewrite !E. rewrite (wrap64_id (sum_over (NodeContributions gp) _)) by (split; lia).
  rewrite (wrap64_id (sum_over (NodeConsumptions gp) _)) by (split; lia).
  rewrite wrap64_id by (split; lia). split; [done|]. split; [done|].
  destruct (Z.ltb_spec (sum_over (NodeContributions gp) (ids gp) - sum_over (NodeConsumptions gp) (ids gp)) 0); lia.
Qed.

(** More supplied, asked for or booked. *)
Lemma counters_grow s s' v v' r r' cs us ks :
  counters_ok s v r cs us ks → s ≤ s' → v ≤ v' → (∀ n, r n ≤ r' n) → counters_ok s' v' r' cs us ks.
Proof.
  intros [H1 H2 H3 H4 H5 H6 H7] Hs Hv Hr. constructor; [done|done|done|lia| | |].
  - intros l Hl. specialize (H5 l Hl). lia.
  - intros n. specialize (H6 n). specialize (Hr n). lia.
  - intros n. specialize (H7 n). specialize (Hr n). lia.
Qed.

(** Contributing to a participant, joining as a new one, consuming. *)
Lemma counters_contribute s v r a cs us ks n :
  counters_ok s v r cs us ks → n ∈ ks → 0 ≤ a → s + a < 2 ^ 62 → counters_ok (s + a) v r (zincr n a cs) us ks.
Proof.
  intros Hc Hn Ha Hmax. pose proof (contrib_le _ _ _ _ _ _ n Hc) as Hcn. destruct Hc as [H1 H2 H3 H4 H5 H6 H7]. unfold zincr.
  rewrite wrap64_id by (split; lia). constructor; [done| | | |done| |done].
  - intros k. rewrite zget_insert. specialize (H2 k). case_decide; lia.
  - intros k Hk. rewrite zget_insert_ne; [by apply H3|]. by intros ->.
  - rewrite sum_over_insert by done. lia.
  - intros k. rewrite zget_insert. specialize (H6 k). case_decide; [subst; lia|lia].
Qed.

Lemma counters_join s v r a cs us ks n :
  counters_ok s v r cs us ks → n ∉ ks → 0 ≤ a → counters_ok (s + a) v r (<[n := a]> cs) us (ks ++ [n]).
Proof.
  intros [H1 H2 H3 H4 H5 H6 H7] Hn Ha. constructor; [| | | |done| |done].
  - apply NoDup_app. split; [done|]. split; [|apply NoDup_singleton]. set_solver.
  - intros k. rewrite zget_insert. specialize (H2 k). case_decide; lia.
  - intros k Hk. rewrite zget_insert_ne; [apply H3; set_solver|set_solver].
  - unfold sum_over. rewrite fmap_app, zsum_app. cbn. rewrite zget_insert_eq.
    fold (sum_over (<[n := a]> cs) ks). rewrite sum_over_insert_notin by done. lia.
  - intros k. rewrite zget_insert. specialize (H6 k). case_decide; [subst; rewrite (H3 k Hn) in H6; lia|lia].
Qed.

Lemma counters_consume s v r r' a cs us ks n :
  counters_ok s v r cs us ks → v + Z.abs a < 2 ^ 62 → (∀ k, r k ≤ r' k) →
  zget us n + a ≤ zget cs n + r' n → counters_ok s (v + Z.abs a) r' cs (zincr n a us) ks.
Proof.
  intros Hc Hmax Hr Ha. pose proof (used_le _ _ _ _ _ _ n Hc) as Hun. destruct Hc as [H1 H2 H3 H4 H5 H6 H7]. unfold zincr.
  rewrite wrap64_id by (split; lia). constructor; [done|done|done|done| | |].
  - intros l Hl. specialize (H5 l Hl). destruct (decide (n ∈ l)) as [Hin|Hin].
    + rewrite sum_over_insert by done. lia.
    + rewrite sum_over_insert_notin by done. lia.
  - intros k. rewrite zget_insert. specialize (H6 k). specialize (Hr k). case_decide; [subst; lia|lia].
  - intros k. specialize (H7 k). specialize (Hr k). lia.
Qed.

Definition remaining (n : string) (gp : GlobalPool) : Z := Z.max 0 (zget (NodeContributions gp) n - zget (NodeConsumptions gp) n).

Lemma try_consume_iff now n a gp s v r :
  s < 2 ^ 62 → v < 2 ^ 62 → pool_ok s v r gp → (TryConsume now n a gp).1 = bool_decide (a ≤ remaining n gp).
Proof.
  intros Hs Hv [Hc _]. pose proof (contrib_le _ _ _ _ _ _ n Hc). pose proof (used_le _ _ _ _ _ _ n Hc).
  unfold TryConsume, remaining. rewrite wrap64_id by (split; lia).
  destruct (Z.ltb_spec (zget (NodeContributions gp) n - zget (NodeConsumptions gp) n) 0) as [Hn|Hn].
  - rewrite Z.max_l by lia. destruct (Z.ltb_spec 0 a); cbn; [by rewrite bool_decide_false by lia|by rewrite bool_decide_true by lia].
  - rewrite Z.max_r by lia. destruct (Z.ltb_spec (zget (NodeContributions gp) n - zget (NodeConsumptions gp) n) a); cbn;
      [by rewrite bool_decide_false by lia|by rewrite bool_decide_true by lia].
Qed.

Lemma run_pool_op_ok s v r gp o :
  pool_ok s v r gp → s + supply_of o < 2 ^ 62 → v + demand_of o < 2 ^ 62 →
  pool_ok (s + supply_of o) (v + demand_of o) (λ n, r n + booked_of n o) (run_pool_op gp o).
Proof.
  intros Hok Hs Hv.
  assert (0 ≤ supply_of o) as Hs0 by (destruct o; cbn; lia). assert (0 ≤ demand_of o) as Hv0 by (destruct o; cbn; lia).
  assert (Hb : ∀ n, 0 ≤ booked_of n o) by (intros n; unfold booked_of; destruct o; repeat case_bool_decide; lia).
  assert (pool_ok (s + supply_of o) (v + demand_of o) (λ n, r n + booked_of n o) gp) as Hgrow.
  { destruct Hok as [Hc ?]. split; [|done]. eapply counters_grow; [done|lia|lia|]. intros n. specialize (Hb n). cbn. lia. }
  destruct o as [now n r0 a|now n a|now n a|now n a|now n|now]; cbn [run_pool_op].
  - unfold JoinPool. destruct (bool_decide (n = "")); [exact Hgrow|].
    destruct (Z.ltb_spec a globalPoolMinJoinContribution) as [|Ha]; [exact Hgrow|].
    unfold globalPoolMinJoinContribution in Ha. cbn [supply_of demand_of booked_of] in *. replace (Z.max 0 a) with a in * by lia.
    rewrite Z.add_0_r in *.
    assert (Hc : counters_ok s v (λ n0, r n0 + 0) (NodeContributions gp) (NodeConsumptions gp) (ids gp)).
    { eapply counters_grow; [apply Hok|lia|lia|intros; cbn; lia]. }
    destruct (is_participant n gp) eqn:Hp; apply recalc_ok; try lia; unfold ids; cbn.
    + rewrite ids_update_first by done. apply bool_decide_eq_true in Hp. by apply counters_contribute; [| |lia|].
    + rewrite fmap_app. cbn. apply bool_decide_eq_false in Hp. by apply counters_join; [| |lia].
  - unfold Contribute. destruct (Z.leb_spec a 0) as [|Ha]; [exact Hgrow|].
    destruct (is_participant n gp) eqn:Hp; [|exact Hgrow]. cbn [supply_of demand_of booked_of] in *.
    replace (Z.max 0 a) with a in * by lia. rewrite Z.add_0_r in *. apply recalc_ok; [lia|lia|]. apply bool_decide_eq_true in Hp.
    apply counters_contribute; [|done|lia|done]. eapply counters_grow; [apply Hok|lia|lia|intros; cbn; lia].
  - pose proof (try_consume_iff now n a gp s v r ltac:(lia) ltac:(lia) Hok) as Ht. cbn [supply_of demand_of booked_of] in *.
    rewrite Z.add_0_r in *. unfold TryConsume in *. case_match; cbn in *; [exact Hgrow|].
    symmetry in Ht. apply bool_decide_eq_true in Ht. unfold remaining in Ht. apply recalc_ok; [lia|lia|]. cbn.
    eapply counters_consume; [apply Hok|lia|intros; lia|]. pose proof (co_over _ _ _ _ _ _ (proj1 Hok) n).
    pose proof (co_booked _ _ _ _ _ _ (proj1 Hok) n). lia.
  - cbn [supply_of demand_of] in *. rewrite Z.add_0_r in *. apply recalc_ok; [lia|lia|]. cbn.
    eapply counters_consume; [apply Hok|lia|intros k; cbv beta; case_bool_decide; lia|]. cbn. rewrite bool_decide_true by done.
    pose proof (co_over _ _ _ _ _ _ (proj1 Hok) n). lia.
  - destruct Hgrow as [Hc Ha]. cbn [supply_of demand_of] in *. unfold Heartbeat, pool_ok, aggregates, ids. cbn.
    rewrite ids_update_first by done. done.
  - cbn [supply_of demand_of] in *. apply recalc_ok; [lia|lia|]. apply Hgrow.
Qed.

Lemma supply_pos ops : 0 ≤ supply ops ∧ 0 ≤ demand ops.
Proof.
  split; apply zsum_nonneg, Forall_fmap, Forall_true; intros o; destruct o; cbn; lia.
Qed.
Lemma run_pool_ok ops :
  supply ops < 2 ^ 62 → demand ops < 2 ^ 62 → pool_ok (supply ops) (demand ops) (λ n, booked n ops) (run_pool ops empty_pool).
Proof.
  unfold run_pool. induction ops as [|o ops IH] using rev_ind; intros Hs Hd.
  { split; [|done]. constructor; cbn; try done; try lia; [apply NoDup_nil_2|].
    intros l _. assert (sum_over ∅ l = 0) as ->; [|done]. unfold sum_over. induction l as [|k l IH]; [done|].
      rewrite fmap_cons, zsum_cons, IH, zget_empty. done.
  }
  rewrite foldl_app. cbn [foldl].
  assert (Es : supply (ops ++ [o]) = supply ops + supply_of o) by (unfold supply; rewrite fmap_app, zsum_app; cbn; lia).
  assert (Ed : demand (ops ++ [o]) = demand ops + demand_of o) by (unfold demand; rewrite fmap_app, zsum_app; cbn; lia).
  rewrite Es, Ed in *. assert (0 ≤ supply_of o) by (destruct o; cbn; lia). assert (0 ≤ demand_of o) by (destruct o; cbn; lia).
  destruct (run_pool_op_ok _ _ _ _ o (IH ltac:(lia) ltac:(lia)) Hs Hd) as [Hc Ha]. split; [|done].
  eapply counters_grow; [exact Hc|lia|lia|]. intros n. unfold booked. rewrite fmap_app, zsum_app. cbn. lia.
Qed.

(** C5. The pool is not over-issued: after any joins, contributions, consumptions asked for or booked, heartbeats and refreshes
    (whose amounts add up to less than [2^62]), a node has consumed at most what it contributed and what [RecordConsumption],
    which checks nothing and which nothing calls, booked on it; the aggregates are the sums over the participants and the
    available quota their difference, never negative; and [TryConsume] grants a request exactly when it fits what is left of
    the node's share. *)
Theorem pool_never_over_issued ops now n a :
  supply ops < 2 ^ 62 → demand ops < 2 ^ 62 →
  let gp := run_pool ops empty_pool in
  zget (NodeConsumptions gp) n ≤ zget (NodeContributions gp) n + booked n ops ∧
  TotalContributed gp = sum_over (NodeContributions gp) (ids gp) ∧
  TotalConsumed gp = sum_over (NodeConsumptions gp) (ids gp) ∧
  AvailableQuota gp = Z.max 0 (TotalContributed gp - TotalConsumed gp) ∧
  (TryConsume now n a gp).1 =
    bool_decide (a ≤ Z.max 0 (zget (NodeContributions gp) n - zget (NodeConsumptions gp) n)).
Proof.
  intros Hs Hd gp. pose proof (run_pool_ok ops Hs Hd) as Hok. fold gp in Hok.
  pose proof (try_consume_iff now n a gp _ _ _ Hs Hd Hok) as Ht. destruct Hok as [Hc (Ha1 & Ha2 & Ha3)].
  split; [apply (co_over _ _ _ _ _ _ Hc)|]. done.
Qed.
End accounting.

Lemma pool_never_over_issued_witness :
  let ops := [PJoin 0 "a" "eu" 20000; PTryConsume 1 "a" 5000; PContribute 2 "a" 7; PRefresh 9] in
  let gp := run_pool (loc := UTC) ops empty_pool in
  zget (NodeConsumptions gp) "a" ≤ zget (NodeContributions gp) "a" + booked "a" ops ∧
  TotalContributed gp = sum_over (NodeContributions gp) (ids gp) ∧
  TotalConsumed gp = sum_over (NodeConsumptions gp) (ids gp) ∧
  AvailableQuota gp = Z.max 0 (TotalContributed gp - TotalConsumed gp) ∧
  (TryConsume 10 "a" 15008 gp).1 =
    bool_decide (15008 ≤ Z.max 0 (zget (NodeContributions gp) "a" - zget (NodeConsumptions gp) "a")).
Proof.
  apply (pool_never_over_issued (loc := UTC)
    [PJoin 0 "a" "eu" 20000; PTryConsume 1 "a" 5000; PContribute 2 "a" 7; PRefresh 9] 10 "a" 15008); vm_compute; reflexivity.
Defined.
