(* ===== verification/PublicQuota.v ===== *)
(** * The four-layer quota of the public key (network_global_pool.go)

    [PublicKeyQuota] limits anonymous use per day, per client address and day,
    per hour, and per model and day; a limit of zero disables its layer.  A
    request reserves its estimate and adjusts to the real usage afterwards.
    Each call reads the clock once. *)

From S2P Require Import Prelude GoTime.

Record IPUsageTracker := { DailyUsed : Z; HourlyUsed : Z; LastReset : Time }.

Record PublicKeyQuota := {
  GlobalDailyLimit : Z; IPDailyLimit : Z; HourlyWindowLimit : Z; ModelLimits : gmap string Z;
  globalUsedToday : Z; ipUsage : gmap string IPUsageTracker; hourlyUsage : gmap string Z;
  modelUsage : gmap string Z; lastDailyReset : Time; lastHourlyReset : Time }.

Definition set_usage (q : PublicKeyQuota) (g : Z) (ips : gmap string IPUsageTracker)
    (hours models : gmap string Z) (ld lh : Time) : PublicKeyQuota := {|
  GlobalDailyLimit := GlobalDailyLimit q; IPDailyLimit := IPDailyLimit q;
  HourlyWindowLimit := HourlyWindowLimit q; ModelLimits := ModelLimits q;
  globalUsedToday := g; ipUsage := ips; hourlyUsage := hours; modelUsage := models;
  lastDailyReset := ld; lastHourlyReset := lh |}.

Definition new_tracker (now : Time) : IPUsageTracker :=
  {| DailyUsed := 0; HourlyUsed := 0; LastReset := now |}.

Definition bump (n : Z) (t : IPUsageTracker) : IPUsageTracker :=
  {| DailyUsed := DailyUsed t +! n; HourlyUsed := HourlyUsed t +! n; LastReset := LastReset t |}.

(** What [cfg.Get] returns is the argument; [""] is a missing key. *)
Definition parseQuotaConfig (v : string) (defaultVal : Z) : Z :=
  if bool_decide (v = "") then defaultVal
  else match parse_int64 v with
       | Some parsed => if parsed <? 0 then defaultVal else parsed
       | None => defaultVal
       end.

Section quota.
Context {loc : Location}.

Definition hour_key (now : Time) : string := fmt_date_hour loc now.

Definition resetIfNeededLocked (now : Time) (q : PublicKeyQuota) : PublicKeyQuota :=
  let q1 :=
    if (24 * hour <=? now - lastDailyReset q)
       || negb (bool_decide (day_of_month loc now = day_of_month loc (lastDailyReset q)))
    then set_usage q 0 ∅ (hourlyUsage q) ∅ now (lastHourlyReset q) else q in
  if hour <=? now - lastHourlyReset q1
  then set_usage q1 (globalUsedToday q1)
         ((λ t, {| DailyUsed := DailyUsed t; HourlyUsed := 0; LastReset := LastReset t |})
            <$> ipUsage q1)
         (filter (λ kv, kv.1 = hour_key now) (hourlyUsage q1))
         (modelUsage q1) (lastDailyReset q1) now
  else q1.

(** The tracker of an address, created when the layer is on and it is missing. *)
Definition ensure_tracker (now : Time) (ip : string) (q : PublicKeyQuota) : PublicKeyQuota :=
  match ipUsage q !! ip with
  | Some _ => q
  | None => set_usage q (globalUsedToday q) (<[ip := new_tracker now]> (ipUsage q))
              (hourlyUsage q) (modelUsage q) (lastDailyReset q) (lastHourlyReset q)
  end.

Definition ip_daily_used (ip : string) (q : PublicKeyQuota) : Z :=
  match ipUsage q !! ip with Some t => DailyUsed t | None => 0 end.

(** The four checks, in order: the rejection, or the state with the tracker
    the second layer may create. *)
Definition four_layers (now : Time) (ip model : string) (est : Z) (q : PublicKeyQuota)
    : option (string * Z) * PublicKeyQuota :=
  let remaining := GlobalDailyLimit q -! globalUsedToday q in
  if (0 <? GlobalDailyLimit q) && (remaining <=? 0)
  then (Some ("global daily quota exhausted", 0), q)
  else if (0 <? GlobalDailyLimit q) && (GlobalDailyLimit q <? globalUsedToday q +! est)
  then (Some ("global daily quota would be exceeded", remaining), q)
  else
    let ip_on := (0 <? IPDailyLimit q) && negb (bool_decide (ip = "")) in
    let q1 := if ip_on then ensure_tracker now ip q else q in
    let used := ip_daily_used ip q1 in
    if ip_on && (IPDailyLimit q <? used +! est)
    then (Some ("IP daily quota exceeded", Z.max 0 (IPDailyLimit q -! used)), q1)
    else
      let hourlyUsed := zget (hourlyUsage q1) (hour_key now) in
      if (0 <? HourlyWindowLimit q) && (HourlyWindowLimit q <? hourlyUsed +! est)
      then (Some ("hourly quota exceeded", Z.max 0 (HourlyWindowLimit q -! hourlyUsed)), q1)
      else
        match (if bool_decide (model = "") then None else ModelLimits q !! model) with
        | Some modelLimit =>
            let modelUsed := zget (modelUsage q1) model in
            if modelLimit <? modelUsed +! est
            then (Some ("model daily quota exceeded", Z.max 0 (modelLimit -! modelUsed)), q1)
            else (None, q1)
        | None => (None, q1)
        end.

(** The smallest remaining amount over the layers that are on. *)
Definition minRemaining (now : Time) (ip model : string) (q : PublicKeyQuota) : Z :=
  let m0 := 2 ^ 62 in
  let m1 := if 0 <? GlobalDailyLimit q
            then Z.min m0 (GlobalDailyLimit q -! globalUsedToday q) else m0 in
  let m2 := match (if (0 <? IPDailyLimit q) && negb (bool_decide (ip = ""))
                   then ipUsage q !! ip else None) with
            | Some t => Z.min m1 (IPDailyLimit q -! DailyUsed t) | None => m1 end in
  let m3 := if 0 <? HourlyWindowLimit q
            then Z.min m2 (HourlyWindowLimit q -! zget (hourlyUsage q) (hour_key now)) else m2 in
  match (if bool_decide (model = "") then None else ModelLimits q !! model) with
  | Some modelLimit => Z.min m3 (modelLimit -! zget (modelUsage q) model)
  | None => m3
  end.

Definition CheckQuota (now : Time) (ip model : string) (est : Z) (q : PublicKeyQuota)
    : (bool * string * Z) * PublicKeyQuota :=
  let '(reject, q1) := four_layers now ip model est (resetIfNeededLocked now q) in
  match reject with
  | Some (reason, rem) => ((false, reason, rem), q1)
  | None => ((true, "", minRemaining now ip model q1), q1)
  end.

(** [amount] more (or less) on the four counters. *)
Definition charge (now : Time) (ip model : string) (amount : Z) (q : PublicKeyQuota)
    : PublicKeyQuota :=
  let ips := if bool_decide (ip = "") then ipUsage q
             else <[ip := bump amount (default (new_tracker now) (ipUsage q !! ip))]> (ipUsage q) in
  set_usage q (globalUsedToday q +! amount) ips (zincr (hour_key now) amount (hourlyUsage q))
    (if bool_decide (model = "") then modelUsage q else zincr model amount (modelUsage q))
    (lastDailyReset q) (lastHourlyReset q).

Definition ReserveQuota (now : Time) (ip model : string) (est : Z) (q : PublicKeyQuota)
    : (bool * string * Z) * PublicKeyQuota :=
  let '(reject, q1) := four_layers now ip model est (resetIfNeededLocked now q) in
  match reject with
  | Some (reason, rem) => ((false, reason, rem), q1)
  | None => let q2 := charge now ip model est q1 in
            ((true, "", minRemaining now ip model q2), q2)
  end.

Definition AdjustQuota (now : Time) (ip model : string) (reserved actual : Z)
    (q : PublicKeyQuota) : PublicKeyQuota :=
  let diff := actual -! reserved in
  if diff =? 0 then q else charge now ip model diff (resetIfNeededLocked now q).

Definition RecordUsage (now : Time) (ip model : string) (tokens : Z) (q : PublicKeyQuota)
    : PublicKeyQuota :=
  if tokens <=? 0 then q else charge now ip model tokens (resetIfNeededLocked now q).
End quota.

(** ** What a reservation promises *)
Definition small (z : Z) : Prop := - 2 ^ 62 < z < 2 ^ 62.

Section promises.
Context {loc : Location}.

(** The four layers as a specification, on the counters of [q]. *)
Definition fits (now : Time) (ip model : string) (est : Z) (q : PublicKeyQuota) : Prop :=
  (0 < GlobalDailyLimit q →
     globalUsedToday q < GlobalDailyLimit q ∧ globalUsedToday q + est ≤ GlobalDailyLimit q) ∧
  (0 < IPDailyLimit q → ip ≠ "" → ip_daily_used ip q + est ≤ IPDailyLimit q) ∧
  (0 < HourlyWindowLimit q →
     zget (hourlyUsage q) (hour_key (loc := loc) now) + est ≤ HourlyWindowLimit q) ∧
  (∀ l, model ≠ "" → ModelLimits q !! model = Some l → zget (modelUsage q) model + est ≤ l).

(** The counters a request reads and writes stay far from overflow. *)
Definition counters_small (now : Time) (ip model : string) (q : PublicKeyQuota) : Prop :=
  small (globalUsedToday q) ∧ small (ip_daily_used ip q) ∧
  small (zget (hourlyUsage q) (hour_key (loc := loc) now)) ∧ small (zget (modelUsage q) model) ∧
  small (GlobalDailyLimit q).

(** Same limits and same amounts used, whatever trackers exist. *)
Definition same_used (q q' : PublicKeyQuota) : Prop :=
  GlobalDailyLimit q' = GlobalDailyLimit q ∧ IPDailyLimit q' = IPDailyLimit q ∧
  HourlyWindowLimit q' = HourlyWindowLimit q ∧ ModelLimits q' = ModelLimits q ∧
  globalUsedToday q' = globalUsedToday q ∧ hourlyUsage q' = hourlyUsage q ∧
  modelUsage q' = modelUsage q ∧ (∀ ip, ip_daily_used ip q' = ip_daily_used ip q).

Lemma ensure_same now ip q : same_used q (ensure_tracker now ip q).
Proof.
  unfold ensure_tracker. destruct (ipUsage q !! ip) eqn:E; [done|].
  repeat (split; [done|]). intros ip'. unfold ip_daily_used. cbn. rewrite lookup_insert.
  case_decide; [subst; by rewrite E|done].
Qed.

Lemma small_add a b : small a → small b → wrap64 (a + b) = a + b.
Proof. unfold small. intros. apply wrap64_id. split; lia. Qed.

Lemma small_sub a b : small a → small b → wrap64 (a - b) = a - b.
Proof. unfold small. intros. apply wrap64_id. split; lia. Qed.

Lemma four_layers_spec now ip model est q :
  counters_small now ip model q → small est →
  let '(reject, q1) := four_layers (loc := loc) now ip model est q in
  same_used q q1 ∧ (reject = None ↔ fits now ip model est q).
Proof.
  intros (Sg & Si & Sh & Sm & Sl) Se. unfold four_layers, fits.
  rewrite (small_sub (GlobalDailyLimit q)), (small_add (globalUsedToday q)) by done.
  destruct (Z.ltb_spec 0 (GlobalDailyLimit q)) as [HG|HG]; cbn [andb];
    [destruct (Z.leb_spec (GlobalDailyLimit q - globalUsedToday q) 0);
       [split; [done|]; split; [done|lia]|];
     destruct (Z.ltb_spec (GlobalDailyLimit q) (globalUsedToday q + est));
       [split; [done|]; split; [done|lia]|]|].
  all: set (on := (0 <? IPDailyLimit q) && negb (bool_decide (ip = "")));
    assert (on = true ↔ 0 < IPDailyLimit q ∧ ip ≠ "") as Hon
      by (unfold on; rewrite andb_true_iff, Z.ltb_lt, negb_true_iff, bool_decide_eq_false; done);
    set (q1 := if on then ensure_tracker now ip q else q);
    assert (same_used q q1) as Hs by (unfold q1; destruct on; [apply ensure_same|done]);
    pose proof Hs as (_ & _ & _ & _ & _ & Eh & Em & Ei); rewrite Ei, Eh, Em;
    rewrite !(small_add _ est) by done.
  all: destruct on; cbn [andb];
    [destruct (Z.ltb_spec (IPDailyLimit q) (ip_daily_used ip q + est));
       [split; [done|]; split; [done|intros (_ & Hi & _); naive_solver lia]|]|].
  all: destruct (Z.ltb_spec 0 (HourlyWindowLimit q)) as [HH|HH]; cbn [andb];
    [destruct (Z.ltb_spec (HourlyWindowLimit q) (zget (hourlyUsage q) (hour_key (loc := loc) now) + est));
       [split; [done|]; split; [done|intros (_ & _ & Hh & _); lia]|]|].
  all: case_bool_decide; [split; [done|]; naive_solver lia|];
    destruct (ModelLimits q !! model) as [l|] eqn:El; [|split; [done|]; naive_solver lia];
    destruct (Z.ltb_spec l (zget (modelUsage q) model + est));
    [split; [done|]; split; [done|intros (_ & _ & _ & Hm); specialize (Hm l ltac:(done) ltac:(done)); lia]
    |split; [done|]; naive_solver lia].
Qed.

(** [charge] adds the amount to the counters of this request and no others. *)
Lemma charge_spec now ip model n q :
  counters_small now ip model q → small n →
  let q' := charge (loc := loc) now ip model n q in
  globalUsedToday q' = globalUsedToday q + n ∧
  (∀ ip', ip_daily_used ip' q' = ip_daily_used ip' q + (if decide (ip' = ip ∧ ip ≠ "") then n else 0)) ∧
  (∀ h, zget (hourlyUsage q') h = zget (hourlyUsage q) h
          + (if decide (h = hour_key (loc := loc) now) then n else 0)) ∧
  (∀ m, zget (modelUsage q') m = zget (modelUsage q) m
          + (if decide (m = model ∧ model ≠ "") then n else 0)).
Proof.
  intros (Sg & Si & Sh & Sm & _) Sn. unfold charge. cbn. split; [by apply small_add|].
  split; [|split].
  - intros ip'. unfold ip_daily_used in *. cbn.
    destruct (decide (ip' = ip ∧ ip ≠ "")) as [[-> Hip]|Hno].
    + rewrite bool_decide_false, lookup_insert_eq by done.
      destruct (ipUsage q !! ip); cbn; by apply small_add.
    + rewrite Z.add_0_r. case_bool_decide; [done|]. rewrite lookup_insert_ne; [done|]. naive_solver.
  - intros h. rewrite zget_zincr. repeat case_decide; subst; try done; [by apply small_add|lia].
  - intros m. destruct (decide (m = model ∧ model ≠ "")) as [[-> Hm]|Hno].
    + rewrite bool_decide_false, zget_zincr, decide_True by done. by apply small_add.
    + rewrite Z.add_0_r. case_bool_decide; [done|]. rewrite zget_zincr, decide_False; [done|].
      naive_solver.
Qed.

Lemma counters_small_same now ip model q q' :
  same_used q q' → counters_small now ip model q → counters_small now ip model q'.
Proof. unfold counters_small. intros (-> & _ & _ & _ & -> & -> & -> & Hi). by rewrite Hi. Qed.

(** C6. [ReserveQuota] implements the four layers exactly: it grants a request
    if and only if the estimate fits every enabled layer; a grant adds the
    estimate to the day, the address, the hour and the model of the request
    and to nothing else, so that no enabled limit is exceeded; a rejection
    uses nothing; and [CheckQuota] gives the same verdict without using
    anything. *)
Theorem reserve_quota_layers now ip model est q :
  let q0 := resetIfNeededLocked (loc := loc) now q in
  counters_small now ip model q0 → small est →
  let '((ok, _, _), q1) := ReserveQuota (loc := loc) now ip model est q in
  let '((ok', _, _), q2) := CheckQuota (loc := loc) now ip model est q in
  (ok = true ↔ fits now ip model est q0) ∧ ok' = ok ∧ same_used q0 q2 ∧
  (if ok then
     globalUsedToday q1 = globalUsedToday q0 + est ∧
     (0 < GlobalDailyLimit q0 → globalUsedToday q1 ≤ GlobalDailyLimit q0) ∧
     (∀ a, ip_daily_used a q1 = ip_daily_used a q0 + (if decide (a = ip ∧ ip ≠ "") then est else 0)) ∧
     (0 < IPDailyLimit q0 → ip ≠ "" → ip_daily_used ip q1 ≤ IPDailyLimit q0) ∧
     (∀ h, zget (hourlyUsage q1) h = zget (hourlyUsage q0) h + (if decide (h = hour_key (loc := loc) now) then est else 0)) ∧
     (0 < HourlyWindowLimit q0 →
        zget (hourlyUsage q1) (hour_key (loc := loc) now) ≤ HourlyWindowLimit q0) ∧
     (∀ m, zget (modelUsage q1) m = zget (modelUsage q0) m
             + (if decide (m = model ∧ model ≠ "") then est else 0)) ∧
     (∀ l, model ≠ "" → ModelLimits q0 !! model = Some l → zget (modelUsage q1) model ≤ l)
   else same_used q0 q1).
Proof.
  intros q0 Hs Se. unfold ReserveQuota, CheckQuota. fold q0.
  pose proof (four_layers_spec now ip model est q0 Hs Se) as Hf.
  destruct (four_layers now ip model est q0) as [[[reason rem]|] q1].
  { destruct Hf as [Hsame Hiff]. split; [|done]. split; [done|]. intros Hfit.
    by apply Hiff in Hfit. }
  destruct Hf as [Hsame Hiff]. pose proof (proj1 Hiff eq_refl) as Hfit. split; [done|]. split; [done|].
  split; [done|].
  destruct (charge_spec now ip model est q1 (counters_small_same _ _ _ _ _ Hsame Hs) Se)
    as (Cg & Ci & Ch & Cm).
  destruct Hsame as (Hl1 & Hl2 & Hl3 & Hl4 & Eg & Eh & Em & Ei). destruct Hfit as (F1 & F2 & F3 & F4).
  rewrite Cg, Eg. split; [done|]. split; [intros ?; by apply F1|].
  split; [intros a; by rewrite Ci, Ei|].
  split; [intros ??; rewrite Ci, Ei, decide_True by done; by apply F2|].
  split; [intros h; by rewrite Ch, Eh|].
  split; [intros ?; rewrite Ch, Eh, decide_True by done; by apply F3|].
  split; [intros m; by rewrite Cm, Em|].
  intros l Hm Hl. rewrite Cm, Em, decide_True by done. by apply F4.
Qed.

(** Only the first layer is on, with limit [L]. *)
Definition only_daily (L : Z) (q : PublicKeyQuota) : Prop :=
  GlobalDailyLimit q = L ∧ IPDailyLimit q = 0 ∧ HourlyWindowLimit q = 0 ∧ ModelLimits q = ∅.

Lemma daily_grant t ip model n L q :
  only_daily L q → 0 < L < 2 ^ 61 → globalUsedToday q + n ≤ L → globalUsedToday q < L →
  - 2 ^ 61 ≤ globalUsedToday q → 0 ≤ n ≤ 2 * L →
  four_layers (loc := loc) t ip model n q = (None, q).
Proof.
  intros (E1 & E2 & E3 & E4) HL Hn Hlt Hlow Hn0. unfold four_layers.
  rewrite E1, E2, E3, E4, lookup_empty. rewrite !wrap64_id by (split; lia).
  destruct (Z.ltb_spec 0 L); [|lia]. destruct (Z.leb_spec (L - globalUsedToday q) 0); [lia|].
  destruct (Z.ltb_spec L (globalUsedToday q + n)); [lia|]. cbn. by destruct (bool_decide (model = "")).
Qed.

Lemma reset_spec t q :
  let q' := resetIfNeededLocked (loc := loc) t q in
  let due := bool_decide (24 * hour ≤ t - lastDailyReset q ∨
                          day_of_month loc t ≠ day_of_month loc (lastDailyReset q)) in
  (∀ L, only_daily L q → only_daily L q') ∧
  lastDailyReset q' = (if due then t else lastDailyReset q) ∧
  globalUsedToday q' = (if due then 0 else globalUsedToday q).
Proof.
  cbn zeta. unfold resetIfNeededLocked.
  replace ((24 * hour <=? t - lastDailyReset q) || _) with
    (bool_decide (24 * hour ≤ t - lastDailyReset q ∨
                  day_of_month loc t ≠ day_of_month loc (lastDailyReset q))).
  - case_bool_decide; case_match; done.
  - apply eq_true_iff_eq. rewrite bool_decide_eq_true, orb_true_iff, Z.leb_le, negb_true_iff.
    by rewrite bool_decide_eq_false.
Qed.

(** (A defect.) A reservation that is refunded after the daily reset makes
    the new day's counter negative, so the next day can serve more than the
    daily limit: with limit [L], reserving [e] before midnight and refunding
    it after lets a single request of [L + e] tokens through. *)
Theorem refund_after_reset_overdraws q t1 t2 ip model e :
  let L := GlobalDailyLimit q in
  0 < e ≤ L → L < 2 ^ 61 →
  IPDailyLimit q = 0 → HourlyWindowLimit q = 0 → ModelLimits q = ∅ →
  globalUsedToday q = 0 → t1 - lastDailyReset q < 24 * hour →
  day_of_month loc t1 = day_of_month loc (lastDailyReset q) →
  day_of_month loc t2 ≠ day_of_month loc (lastDailyReset q) →
  let '((ok1, _, _), q1) := ReserveQuota (loc := loc) t1 ip model e q in
  let q2 := AdjustQuota (loc := loc) t2 ip model e 0 q1 in
  let '((ok2, _, _), q3) := ReserveQuota (loc := loc) t2 ip model (L + e) q2 in
  ok1 = true ∧ ok2 = true ∧ L < L + e.
Proof.
  intros L He HL Hip Hh Hm Hg Ht1 Hd1 Hd2.
  assert (only_daily L q) as O0 by (by repeat split).
  destruct (reset_spec t1 q) as (O1 & D1 & G1). specialize (O1 L O0). cbn zeta in *.
  rewrite bool_decide_false in D1, G1 by (intros [?|?]; [lia|done]).
  unfold ReserveQuota. set (q1 := resetIfNeededLocked t1 q) in *.
  rewrite (daily_grant t1 ip model e L q1) by (done || lia).
  unfold AdjustQuota. rewrite (wrap64_id (0 - e)) by (split; lia).
  destruct (Z.eqb_spec (0 - e) 0); [lia|].
  set (qc := charge t1 ip model e q1).
  destruct (reset_spec t2 qc) as (O2 & D2 & G2). specialize (O2 L (O1 : only_daily L qc)).
  cbn zeta in *. change (lastDailyReset qc) with (lastDailyReset q1) in *.
  rewrite D1, bool_decide_true in D2, G2 by (by right).
  set (q2 := resetIfNeededLocked t2 qc) in *.
  set (qd := charge t2 ip model (0 - e) q2).
  destruct (reset_spec t2 qd) as (O3 & D3 & G3). specialize (O3 L (O2 : only_daily L qd)).
  cbn zeta in *. change (lastDailyReset qd) with (lastDailyReset q2) in *.
  rewrite D2, bool_decide_false in D3, G3 by (intros [?|?]; [unfold hour, minute, second in *; lia|done]).
  assert (globalUsedToday qd = - e) as Ge.
  { unfold qd, charge. cbn. rewrite G2, wrap64_id; [lia|split; lia]. }
  rewrite (daily_grant t2 ip model (L + e) L (resetIfNeededLocked t2 qd)) by (done || lia).
  split; [done|]. split; [done|lia].
Qed.
End promises.

(** A day of 1000 tokens: 1000 reserved at 23:59, refunded at 00:01. *)
Definition daily_1000 : PublicKeyQuota := {|
  GlobalDailyLimit := 1000; IPDailyLimit := 0; HourlyWindowLimit := 0; ModelLimits := ∅;
  globalUsedToday := 0; ipUsage := ∅; hourlyUsage := ∅; modelUsage := ∅;
  lastDailyReset := 0; lastHourlyReset := 0 |}.

Lemma refund_after_reset_overdraws_witness :
  let '((ok1, _, _), q1) := ReserveQuota (loc := UTC) (1439 * minute) "ip" "m" 1000 daily_1000 in
  let q2 := AdjustQuota (loc := UTC) (1441 * minute) "ip" "m" 1000 0 q1 in
  let '((ok2, _, _), q3) := ReserveQuota (loc := UTC) (1441 * minute) "ip" "m" (1000 + 1000) q2 in
  ok1 = true ∧ ok2 = true ∧ 1000 < 1000 + 1000.
Proof.
  apply (refund_after_reset_overdraws daily_1000 (1439 * minute) (1441 * minute) "ip" "m" 1000);
    try reflexivity; try (vm_compute; split; [reflexivity|discriminate]).
  vm_compute. discriminate.
Defined.

Lemma reserve_quota_layers_witness :
  let q0 := resetIfNeededLocked (loc := UTC) 5 daily_1000 in
  let '((ok, _, _), q1) := ReserveQuota (loc := UTC) 5 "ip" "m" 300 daily_1000 in
  let '((ok', _, _), q2) := CheckQuota (loc := UTC) 5 "ip" "m" 300 daily_1000 in
  (ok = true ↔ fits (loc := UTC) 5 "ip" "m" 300 q0) ∧ ok' = ok ∧ same_used q0 q2 ∧
  (if ok then
     globalUsedToday q1 = globalUsedToday q0 + 300 ∧
     (0 < GlobalDailyLimit q0 → globalUsedToday q1 ≤ GlobalDailyLimit q0) ∧
     (∀ a, ip_daily_used a q1 = ip_daily_used a q0 + (if decide (a = "ip" ∧ "ip" ≠ "") then 300 else 0)) ∧
     (0 < IPDailyLimit q0 → "ip" ≠ "" → ip_daily_used "ip" q1 ≤ IPDailyLimit q0) ∧
     (∀ h, zget (hourlyUsage q1) h = zget (hourlyUsage q0) h + (if decide (h = hour_key (loc := UTC) 5) then 300 else 0)) ∧
     (0 < HourlyWindowLimit q0 →
        zget (hourlyUsage q1) (hour_key (loc := UTC) 5) ≤ HourlyWindowLimit q0) ∧
     (∀ m, zget (modelUsage q1) m = zget (modelUsage q0) m
             + (if decide (m = "m" ∧ "m" ≠ "") then 300 else 0)) ∧
     (∀ l, "m" ≠ "" → ModelLimits q0 !! "m" = Some l → zget (modelUsage q1) "m" ≤ l)
   else same_used q0 q1).
Proof.
  apply (reserve_quota_layers (loc := UTC) 5 "ip" "m" 300 daily_1000).
  - vm_compute. repeat split; reflexivity.
  - vm_compute. split; reflexivity.
Defined.
