(* ===== verification/QuotaPools.v ===== *)
(** * Quota allocation and the priority between pools

    [AllocationManager] (credits.go) splits a node's resources between guest and
    public keys; quota_priority.go deducts a request from the first of three
    pools (private, shared, remote) that can serve it, the shared one backed by
    the global pool ledger when the node has one. *)

From S2P Require Import Prelude GoTime GlobalPool.

(** ** Allocation (credits.go) *)
Record QuotaAllocation := { GuestKeyPercent : Z; PublicKeyPercent : Z }.

Definition DefaultQuotaAllocation : QuotaAllocation :=
  {| GuestKeyPercent := 50; PublicKeyPercent := 50 |}.

Record AllocationManager := { config : QuotaAllocation; usedGuest : Z; usedPublic : Z }.

Definition initAllocationManager : AllocationManager :=
  {| config := DefaultQuotaAllocation; usedGuest := 0; usedPublic := 0 |}.

Definition SetAllocation (guest : Z) (am : AllocationManager) : res () * AllocationManager :=
  if (guest <? 0) || (100 <? guest)
  then (Err "guest_key_percent must be between 0 and 100", am)
  else (Ok (), {| config := {| GuestKeyPercent := guest; PublicKeyPercent := 100 - guest |};
                  usedGuest := usedGuest am; usedPublic := usedPublic am |}).

Definition RecordUsage (isGuestKey : bool) (tokens : Z) (am : AllocationManager)
    : AllocationManager :=
  if isGuestKey
  then {| config := config am; usedGuest := usedGuest am +! tokens; usedPublic := usedPublic am |}
  else {| config := config am; usedGuest := usedGuest am; usedPublic := usedPublic am +! tokens |}.

(** The decoded document: fields a file may or may not have. *)
Record rawQuotaAllocation := {
  r_GuestKeyPercent : option Z; r_PublicKeyPercent : option Z;
  r_FreeConsumerPercent : option Z; r_NetworkNodePercent : option Z }.

Definition clamp (c : QuotaAllocation) : QuotaAllocation :=
  let c' := if (GuestKeyPercent c <? 0) || (100 <? GuestKeyPercent c)
            then DefaultQuotaAllocation else c in
  {| GuestKeyPercent := GuestKeyPercent c'; PublicKeyPercent := 100 - GuestKeyPercent c' |}.

(** [load] after [json.Unmarshal]; [None] is an unreadable or corrupt file. *)
Definition load (doc : option rawQuotaAllocation) (am : AllocationManager) : AllocationManager :=
  match doc with
  | None => am
  | Some raw =>
      let c := match r_GuestKeyPercent raw, r_PublicKeyPercent raw with
               | Some g, Some p => {| GuestKeyPercent := g; PublicKeyPercent := p |}
               | _, _ => match r_FreeConsumerPercent raw with
                         | Some f => {| GuestKeyPercent := 100 -! f; PublicKeyPercent := f |}
                         | None => DefaultQuotaAllocation
                         end
               end in
      {| config := clamp c; usedGuest := usedGuest am; usedPublic := usedPublic am |}
  end.

(** [loadBbolt]: a stored value decodes to an allocation. *)
Definition loadBbolt (doc : option QuotaAllocation) (am : AllocationManager) : AllocationManager :=
  match doc with
  | None => am
  | Some c => {| config := clamp c; usedGuest := usedGuest am; usedPublic := usedPublic am |}
  end.

(** ** Pools (quota_priority.go) *)
Inductive PoolKind := PoolPrivate | PoolShared | PoolRemoteShared.
#[export] Instance PoolKind_eq_dec : EqDecision PoolKind.
Proof. solve_decision. Defined.

Inductive KeyType := KeyTypeUnknown | KeyTypeProxy | KeyTypeGuest | KeyTypePublic.
#[export] Instance KeyType_eq_dec : EqDecision KeyType.
Proof. solve_decision. Defined.

(** A negative balance means unlimited. *)
Record QuotaPool := { Kind : PoolKind; qp_NodeID : string; Balance : Z }.

Definition CanDeduct (amount : Z) (p : QuotaPool) : bool :=
  if Balance p <? 0 then true else amount <=? Balance p.

Definition Deduct (amount : Z) (p : QuotaPool) : bool * QuotaPool :=
  if Balance p <? 0 then (true, p)
  else if Balance p <? amount then (false, p)
  else (true, {| Kind := Kind p; qp_NodeID := qp_NodeID p; Balance := Balance p -! amount |}).

Definition TryDeduct := Deduct.

Record ConsumeResult := {
  r_OK : bool; r_Kind : PoolKind; r_NodeID : string; r_Amount : Z; r_Reason : string }.

Definition exhausted : ConsumeResult := {|
  r_OK := false; r_Kind := PoolPrivate; r_NodeID := ""; r_Amount := 0;
  r_Reason := "quota exhausted across private/shared/remote pools" |}.

Definition charged (kind : PoolKind) (nodeID : string) (amount : Z) : ConsumeResult := {|
  r_OK := true; r_Kind := kind; r_NodeID := nodeID; r_Amount := amount; r_Reason := "" |}.

Definition PriorityOrder (k : KeyType) : list PoolKind :=
  match k with
  | KeyTypeGuest | KeyTypeProxy | KeyTypeUnknown => [PoolPrivate; PoolShared; PoolRemoteShared]
  | KeyTypePublic => [PoolShared; PoolRemoteShared]
  end.

(** The map of pools a caller passes to [ConsumeWithPriority]. *)
Definition pools : Type := PoolKind → option QuotaPool.

Definition put_pool (k : PoolKind) (p : QuotaPool) (ps : pools) : pools :=
  λ k', if decide (k' = k) then Some p else ps k'.

Fixpoint consume_first (order : list PoolKind) (amount : Z) (ps : pools) : ConsumeResult * pools :=
  match order with
  | [] => (exhausted, ps)
  | kind :: order' =>
      match ps kind with
      | None => consume_first order' amount ps
      | Some pool =>
          let '(ok, pool') := TryDeduct amount pool in
          if ok then (charged (Kind pool) (qp_NodeID pool) amount, put_pool kind pool' ps)
          else consume_first order' amount ps
      end
  end.

Definition ConsumeWithPriority (keyType : KeyType) (amount : Z) (ps : pools)
    : ConsumeResult * pools := consume_first (PriorityOrder keyType) amount ps.

(** ** The priority manager *)
Record quotaPriorityManager := {
  enabled : bool; privateLimit : Z; sharedLimit : Z; remoteLimit : Z;
  privatePool : option QuotaPool; sharedPool : option QuotaPool; remotePool : option QuotaPool }.

Definition parseInt64Config (s : string) : Z :=
  if bool_decide (s = "") then -1
  else match parse_int64 s with Some v => if v <? 0 then -1 else v | None => -1 end.

Definition initQuotaPriority (cfg : option (string → string)) : quotaPriorityManager :=
  let lim k := match cfg with Some get => parseInt64Config (get k) | None => -1 end in
  let pl := lim "quota_private_pool_limit" in
  let sl := lim "quota_shared_pool_limit" in
  let rl := lim "quota_remote_pool_limit" in
  {| enabled := match cfg with
                | Some get => bool_decide (get "quota_priority_enabled" = "true")
                | None => false end;
     privateLimit := pl; sharedLimit := sl; remoteLimit := rl;
     privatePool := Some {| Kind := PoolPrivate; qp_NodeID := ""; Balance := pl |};
     sharedPool := Some {| Kind := PoolShared; qp_NodeID := ""; Balance := sl |};
     remotePool := Some {| Kind := PoolRemoteShared; qp_NodeID := ""; Balance := rl |} |}.

(** The long-lived pool of a kind, created from its limit on first use. *)
Definition lazyPool (kind : PoolKind) (m : quotaPriorityManager) : QuotaPool :=
  let mk slot limit := default {| Kind := kind; qp_NodeID := ""; Balance := limit |} slot in
  match kind with
  | PoolPrivate => mk (privatePool m) (privateLimit m)
  | PoolShared => mk (sharedPool m) (sharedLimit m)
  | PoolRemoteShared => mk (remotePool m) (remoteLimit m)
  end.

Definition store_pool (kind : PoolKind) (p : QuotaPool) (m : quotaPriorityManager)
    : quotaPriorityManager := {|
  enabled := enabled m; privateLimit := privateLimit m; sharedLimit := sharedLimit m;
  remoteLimit := remoteLimit m;
  privatePool := if decide (kind = PoolPrivate) then Some p else privatePool m;
  sharedPool := if decide (kind = PoolShared) then Some p else sharedPool m;
  remotePool := if decide (kind = PoolRemoteShared) then Some p else remotePool m |}.

(** The manager and the ledger of the global pool, if the node has one. *)
Record node_pools := { mgr : quotaPriorityManager; ledger : option GlobalPool }.

(** A deduction from a long-lived pool of the manager. *)
Definition deduct_local (kind : PoolKind) (amount : Z) (s : node_pools) : bool * node_pools :=
  let '(ok, p) := TryDeduct amount (lazyPool kind (mgr s)) in
  (ok, {| mgr := store_pool kind p (mgr s); ledger := ledger s |}).

Definition tryConsumeShared (now : Time) (nodeID : string) (amount : Z) (s : node_pools)
    : bool * node_pools :=
  match ledger s with
  | Some gp =>
      if bool_decide (nodeID = "") then deduct_local PoolShared amount s
      else let '(ok, gp') := TryConsume now nodeID amount gp in
           (ok, {| mgr := mgr s; ledger := Some gp' |})
  | None => deduct_local PoolShared amount s
  end.

(** The remote pool is a throwaway snapshot of the ledger's available quota. *)
Definition tryConsumeRemote (amount : Z) (s : node_pools) : bool * string * node_pools :=
  match ledger s with
  | Some gp =>
      let snapshot := {| Kind := PoolRemoteShared; qp_NodeID := "";
                         Balance := Z.max 0 (AvailableQuota gp) |} in
      ((TryDeduct amount snapshot).1, qp_NodeID snapshot, s)
  | None =>
      let nid := qp_NodeID (lazyPool PoolRemoteShared (mgr s)) in
      let '(ok, s') := deduct_local PoolRemoteShared amount s in (ok, nid, s')
  end.

Definition try_kind (now : Time) (nodeID : string) (amount : Z) (kind : PoolKind) (s : node_pools)
    : bool * string * node_pools :=
  match kind with
  | PoolPrivate => let '(ok, s') := deduct_local PoolPrivate amount s in (ok, nodeID, s')
  | PoolShared => let '(ok, s') := tryConsumeShared now nodeID amount s in (ok, nodeID, s')
  | PoolRemoteShared => tryConsumeRemote amount s
  end.

Fixpoint resolve_first (now : Time) (nodeID : string) (amount : Z) (order : list PoolKind)
    (s : node_pools) : ConsumeResult * node_pools :=
  match order with
  | [] => (exhausted, s)
  | kind :: order' =>
      let '(ok, nid, s') := try_kind now nodeID amount kind s in
      if ok then (charged kind nid amount, s')
      else resolve_first now nodeID amount order' s'
  end.

Definition Resolve (now : Time) (nodeID : string) (keyType : KeyType) (amount : Z)
    (s : node_pools) : ConsumeResult * node_pools :=
  if negb (enabled (mgr s)) then (charged PoolPrivate nodeID amount, s)
  else resolve_first now nodeID amount (PriorityOrder keyType) s.

Definition keyTypeFromString (s : string) : KeyType :=
  if bool_decide (s = "guest") then KeyTypeGuest
  else if bool_decide (s = "proxy") || bool_decide (s = "admin") then KeyTypeProxy
  else if bool_decide (s = "public") then KeyTypePublic else KeyTypeUnknown.

(** ** The split always adds up *)
Inductive alloc_op :=
  | ASet (guest : Z) | ARecord (isGuest : bool) (tokens : Z)
  | ALoad (doc : option rawQuotaAllocation) | ALoadBbolt (doc : option QuotaAllocation).

Definition run_alloc (am : AllocationManager) (o : alloc_op) : AllocationManager :=
  match o with
  | ASet g => (SetAllocation g am).2
  | ARecord b n => RecordUsage b n am
  | ALoad d => load d am
  | ALoadBbolt d => loadBbolt d am
  end.

Definition alloc_ok (am : AllocationManager) : Prop :=
  0 ≤ GuestKeyPercent (config am) ≤ 100 ∧
  GuestKeyPercent (config am) + PublicKeyPercent (config am) = 100.

Lemma clamp_ok c : 0 ≤ GuestKeyPercent (clamp c) ≤ 100 ∧
  GuestKeyPercent (clamp c) + PublicKeyPercent (clamp c) = 100.
Proof.
  unfold clamp. destruct (Z.ltb_spec (GuestKeyPercent c) 0), (Z.ltb_spec 100 (GuestKeyPercent c));
    cbn; lia.
Qed.

(** The split is well formed at all times: whatever is configured, recorded
    or loaded (current, v3 or hand-edited documents), the guest share stays
    within 0 and 100 and the two shares add up to 100; [SetAllocation] accepts
    exactly the values in range. *)
Theorem allocation_adds_up ops g :
  let am := foldl run_alloc initAllocationManager ops in
  alloc_ok am ∧
  is_ok (SetAllocation g am).1 = bool_decide (0 ≤ g ≤ 100) ∧
  (is_ok (SetAllocation g am).1 = false → (SetAllocation g am).2 = am).
Proof.
  intros am. split.
  - assert (alloc_ok initAllocationManager) as H0 by (split; [done|reflexivity]).
    revert H0. subst am. generalize initAllocationManager.
    induction ops as [|o ops IH]; intros am Ham; [done|]. cbn [foldl]. apply IH.
    destruct o as [g'|[] n|[d|]|[d|]]; cbn [run_alloc]; try done.
    + unfold SetAllocation. destruct (Z.ltb_spec g' 0), (Z.ltb_spec 100 g'); cbn [orb snd]; try done.
      split; cbn; lia.
    + apply clamp_ok.
    + apply clamp_ok.
  - unfold SetAllocation.
    destruct (Z.ltb_spec g 0), (Z.ltb_spec 100 g); cbn; (split; [symmetry|done]);
      try (apply bool_decide_eq_false; lia). by apply bool_decide_eq_true.
Qed.

(** ** First fit over the pools *)

(** What a pool can still give: [None] is unlimited. *)
Definition capacity_of (p : QuotaPool) : option Z := if Balance p <? 0 then None else Some (Balance p).

Definition capacity (nodeID : string) (kind : PoolKind) (s : node_pools) : option Z :=
  match kind, ledger s with
  | PoolShared, Some gp =>
      if bool_decide (nodeID = "") then capacity_of (lazyPool kind (mgr s))
      else Some (Z.max 0 (zget (NodeContributions gp) nodeID -! zget (NodeConsumptions gp) nodeID))
  | PoolRemoteShared, Some gp => Some (Z.max 0 (AvailableQuota gp))
  | _, _ => capacity_of (lazyPool kind (mgr s))
  end.

Definition admits (c : option Z) (amount : Z) : bool :=
  match c with None => true | Some b => amount <=? b end.

Definition spend (c : option Z) (amount : Z) : option Z := (λ b, b - amount) <$> c.

(** The first kind of the order whose pool admits the amount. *)
Definition first_fit (nodeID : string) (amount : Z) (s : node_pools) (order : list PoolKind)
    : option PoolKind := head (filter (λ k, admits (capacity nodeID k s) amount) order).

(** Whether a deduction from a kind is recorded here (a remote pool seen through
    the ledger is enforced by its own node). *)
Definition recorded_here (kind : PoolKind) (s : node_pools) : bool :=
  match kind, ledger s with PoolRemoteShared, Some _ => false | _, _ => true end.

Definition balances_int64 (s : node_pools) : Prop :=
  ∀ k, is_int64 (Balance (lazyPool k (mgr s))).

Lemma deduct_spec amount p :
  0 ≤ amount → is_int64 (Balance p) →
  let '(ok, p') := Deduct amount p in
  ok = admits (capacity_of p) amount ∧ is_int64 (Balance p') ∧ qp_NodeID p' = qp_NodeID p ∧
  (ok = false → p' = p) ∧
  (ok = true → capacity_of p' = spend (capacity_of p) amount).
Proof.
  intros Ha [Hb1 Hb2]. unfold Deduct, capacity_of.
  destruct (Z.ltb_spec (Balance p) 0) as [Hn|Hn]; cbn.
  - destruct (Z.ltb_spec (Balance p) 0); [|lia]. done.
  - destruct (Z.ltb_spec (Balance p) amount), (Z.leb_spec amount (Balance p)); try lia; cbn; try done.
    rewrite wrap64_id by (split; lia). destruct (Z.ltb_spec (Balance p - amount) 0); [lia|].
    repeat split; lia || done.
Qed.

Lemma lazy_store k k' p m :
  lazyPool k (store_pool k' p m) = if decide (k = k') then p else lazyPool k m.
Proof. destruct k, k'; reflexivity. Qed.

Definition has_ledger (s : node_pools) : bool :=
  match ledger s with Some _ => true | None => false end.

(** What a step of the resolution may do to the pools. *)
Definition step_ok (nodeID : string) (amount : Z) (kind : PoolKind) (ok : bool)
    (s s' : node_pools) : Prop :=
  balances_int64 s' ∧ enabled (mgr s') = enabled (mgr s) ∧
  has_ledger s' = has_ledger s ∧
  (∀ k, capacity nodeID k s' = capacity nodeID k s ∨
        (ok = true ∧ k = kind ∧ capacity nodeID k s' = spend (capacity nodeID k s) amount) ∨
        (ok = true ∧ k = PoolRemoteShared ∧ recorded_here k s = false)) ∧
  (ok = true → recorded_here kind s = true →
   capacity nodeID kind s' = spend (capacity nodeID kind s) amount).

Lemma deduct_local_spec nodeID amount kind s :
  0 ≤ amount → balances_int64 s →
  (ledger s = None ∨ kind = PoolPrivate ∨ (kind = PoolShared ∧ nodeID = "")) →
  let '(ok, s') := deduct_local kind amount s in
  ok = admits (capacity nodeID kind s) amount ∧ step_ok nodeID amount kind ok s s'.
Proof.
  intros Ha Hb Hk. unfold deduct_local, TryDeduct.
  pose proof (deduct_spec amount (lazyPool kind (mgr s)) Ha (Hb kind)) as Hd.
  destruct (Deduct amount _) as [ok p]. destruct Hd as (Hok & Hp & _ & Hf & Ht).
  assert (capacity nodeID kind s = capacity_of (lazyPool kind (mgr s))) as Hc.
  { unfold capacity. destruct Hk as [->|[->|[-> ->]]]; [by destruct kind|done|by destruct (ledger s)]. }
  assert (∀ k, capacity nodeID k {| mgr := store_pool kind p (mgr s); ledger := ledger s |}
    = if decide (k = kind) then capacity_of p else capacity nodeID k s) as Hs.
  { intros k. unfold capacity. cbn [mgr ledger]. rewrite lazy_store.
    destruct (decide (k = kind)) as [->|]; [|done].
    destruct Hk as [->|[->|[-> ->]]]; [by destruct kind|done|by destruct (ledger s)]. }
  rewrite Hc. split; [done|]. split; [|split; [done|split; [done|split]]].
  - intros k. cbn [mgr]. rewrite lazy_store. case_decide; [done|apply Hb].
  - intros k. rewrite Hs. case_decide; [|by left]. subst k. destruct ok; [right; left|left].
    + by rewrite Hc, Ht.
    + by rewrite Hf.
  - intros -> _. by rewrite Hs, decide_True, Hc, Ht.
Qed.

Lemma try_kind_spec now nodeID amount kind s :
  0 ≤ amount → balances_int64 s →
  let '(ok, _, s') := try_kind now nodeID amount kind s in
  ok = admits (capacity nodeID kind s) amount ∧ step_ok nodeID amount kind ok s s'.
Proof.
  intros Ha Hb. destruct kind; cbn [try_kind].
  - pose proof (deduct_local_spec nodeID amount PoolPrivate s Ha Hb ltac:(auto)) as H.
    by destruct (deduct_local _ _ _).
  - unfold tryConsumeShared. destruct (ledger s) as [gp|] eqn:El.
    2:{ pose proof (deduct_local_spec nodeID amount PoolShared s Ha Hb ltac:(auto)) as H.
        by destruct (deduct_local _ _ _). }
    destruct (bool_decide_reflect (nodeID = "")) as [He|He].
    { pose proof (deduct_local_spec nodeID amount PoolShared s Ha Hb ltac:(auto)) as H.
      by destruct (deduct_local _ _ _). }
    unfold TryConsume.
    set (remain := zget (NodeContributions gp) nodeID -! zget (NodeConsumptions gp) nodeID).
    assert (capacity nodeID PoolShared s = Some (Z.max 0 remain)) as Hc.
    { unfold capacity. by rewrite El, bool_decide_false. }
    assert ((if remain <? 0 then 0 else remain) = Z.max 0 remain) as ->
      by (destruct (Z.ltb_spec remain 0); lia).
    assert (is_int64 remain) as Hr by apply wrap64_range.
    rewrite Hc. cbn [admits].
    destruct (Z.ltb_spec (Z.max 0 remain) amount), (Z.leb_spec amount (Z.max 0 remain)); try lia.
    + split; [done|]. split; [done|]. split; [done|].
      split; [unfold has_ledger; by rewrite El|]. split; [|done]. intros k. left. unfold capacity. by rewrite El.
    + split; [done|]. split; [done|]. split; [done|].
      split; [unfold has_ledger; by rewrite El|].
      assert (zget (NodeContributions gp) nodeID -! (zget (NodeConsumptions gp) nodeID +! amount)
              = wrap64 (remain - amount)) as Hw.
      { unfold remain. autorewrite with wrap64. f_equal. lia. }
      assert (capacity nodeID PoolShared {| mgr := mgr s;
        ledger := Some (RecordConsumption now nodeID amount gp) |} = Some (Z.max 0 remain - amount)) as Hc'.
      { unfold capacity. cbn [mgr ledger]. rewrite bool_decide_false by done. f_equal.
        cbn. unfold zincr. rewrite zget_insert_eq, Hw. destruct Hr. rewrite wrap64_id by (split; lia). lia. }
      split; [|intros _ _; by rewrite Hc', Hc]. intros [| |].
      * by left.
      * right. left. split; [done|]. split; [done|]. by rewrite Hc', Hc.
      * right. right. split; [done|]. split; [done|]. unfold recorded_here. by rewrite El.
  - unfold tryConsumeRemote. destruct (ledger s) as [gp|] eqn:El.
    2:{ pose proof (deduct_local_spec nodeID amount PoolRemoteShared s Ha Hb ltac:(auto)) as H.
        by destruct (deduct_local _ _ _). }
    unfold capacity at 1. rewrite El. unfold TryDeduct, Deduct, admits. cbn [Balance].
    destruct (Z.ltb_spec (Z.max 0 (AvailableQuota gp)) 0); [lia|].
    assert (∀ ok, step_ok nodeID amount PoolRemoteShared ok s s) as Hs.
    { intros ok. split; [done|]. split; [done|]. split; [done|]. split; [by left|].
      intros _. unfold recorded_here. by rewrite El. }
    destruct (Z.ltb_spec (Z.max 0 (AvailableQuota gp)) amount),
      (Z.leb_spec amount (Z.max 0 (AvailableQuota gp))); try lia; by split.
Qed.

Lemma resolve_first_spec now nodeID amount order s :
  0 ≤ amount → balances_int64 s → NoDup order →
  let '(r, s') := resolve_first now nodeID amount order s in
  match first_fit nodeID amount s order with
  | Some kind => r_OK r = true ∧ r_Kind r = kind ∧ r_Amount r = amount ∧
                 step_ok nodeID amount kind true s s'
  | None => r_OK r = false ∧ step_ok nodeID amount PoolPrivate false s s'
  end.
Proof.
  intros Ha. revert s. induction order as [|kind order IH]; intros s Hb Hnd; cbn [resolve_first].
  { split; [done|]. split; [done|]. split; [done|]. split; [done|]. split; [by left|done]. }
  apply NoDup_cons in Hnd as [Hk Hnd].
  pose proof (try_kind_spec now nodeID amount kind s Ha Hb) as Ht.
  destruct (try_kind now nodeID amount kind s) as [[ok nid] s1]. destruct Ht as [Hok Hst].
  unfold first_fit. rewrite filter_cons.
  destruct ok; [rewrite decide_True by (by rewrite <- Hok); done|].
  rewrite decide_False by (by rewrite <- Hok; intros []).
  destruct Hst as (Hb1 & He1 & Hl1 & Hc1 & _).
  assert (∀ k, capacity nodeID k s1 = capacity nodeID k s) as Hsame.
  { intros k. destruct (Hc1 k) as [?|[[? _]|[? _]]]; done. }
  specialize (IH s1 Hb1 Hnd). destruct (resolve_first now nodeID amount order s1) as [r s'].
  assert (first_fit nodeID amount s1 order = first_fit nodeID amount s order) as Hff.
  { unfold first_fit. f_equal. apply list_filter_iff. intros k. by rewrite Hsame. }
  assert (∀ k, recorded_here k s1 = recorded_here k s) as Hrec.
  { intros k. unfold recorded_here. destruct k; try done.
    unfold has_ledger in Hl1. by destruct (ledger s1), (ledger s). }
  rewrite Hff in IH. unfold first_fit in IH. destruct (head _) as [k|]; cbn.
  - destruct IH as (? & ? & ? & Hb2 & He2 & Hl2 & Hc2 & Hx2).
    split; [done|]. split; [done|]. split; [done|]. split; [done|].
    split; [congruence|]. split; [congruence|]. split.
    + intros k'. rewrite <- Hsame, <- Hrec. apply Hc2.
    + intros _. rewrite <- Hsame, <- Hrec. by apply Hx2.
  - destruct IH as (? & Hb2 & He2 & Hl2 & Hc2 & _).
    split; [done|]. split; [done|]. split; [congruence|]. split; [congruence|]. split; [|done].
    intros k'. rewrite <- Hsame, <- Hrec. apply Hc2.
Qed.

Lemma priority_nodup k : NoDup (PriorityOrder k).
Proof.
  destruct k; cbn; repeat (apply NoDup_cons; split; [set_solver|]); apply NoDup_nil_2.
Qed.

(** [Resolve] is first fit in the priority order: when enforcement is on, a
    request is charged to the first pool of its key type's order whose remaining
    capacity admits it (a public key never to the private pool), that pool loses
    exactly the amount where the deduction is recorded on this node, no other
    pool changes except the snapshot view of the remote one, and a request no
    pool admits changes nothing; when enforcement is off nothing is deducted. *)
Theorem resolve_first_fit now nodeID keyType amount s :
  0 ≤ amount → balances_int64 s →
  let '(r, s') := Resolve now nodeID keyType amount s in
  if enabled (mgr s) then
    match first_fit nodeID amount s (PriorityOrder keyType) with
    | Some kind =>
        r_OK r = true ∧ r_Kind r = kind ∧ r_Amount r = amount ∧
        (keyType = KeyTypePublic → kind ≠ PoolPrivate) ∧
        (recorded_here kind s = true →
           capacity nodeID kind s' = spend (capacity nodeID kind s) amount) ∧
        (∀ k, k ≠ kind → recorded_here k s = true → capacity nodeID k s' = capacity nodeID k s)
    | None => r_OK r = false ∧ ∀ k, capacity nodeID k s' = capacity nodeID k s
    end
  else r_OK r = true ∧ r_Kind r = PoolPrivate ∧ s' = s.
Proof.
  intros Ha Hb. unfold Resolve. destruct (enabled (mgr s)); cbn [negb]; [|done].
  pose proof (resolve_first_spec now nodeID amount (PriorityOrder keyType) s Ha Hb
                (priority_nodup _)) as Hr.
  destruct (resolve_first _ _ _ _ _) as [r s'].
  destruct (first_fit nodeID amount s (PriorityOrder keyType)) as [kind|] eqn:Hf.
  - destruct Hr as (? & ? & ? & Hb' & _ & _ & Hc & Hx). do 3 (split; [done|]).
    split; [|split; [by apply Hx|]].
    + intros -> ->. unfold first_fit in Hf.
      assert (PoolPrivate ∈ filter (λ k, admits (capacity nodeID k s) amount) (PriorityOrder KeyTypePublic))
        as Hin by (destruct (filter _ _); simplify_eq/=; left).
      apply list_elem_of_filter in Hin as [_ Hin]. set_solver.
    + intros k Hk Hrec. destruct (Hc k) as [?|[(_ & ? & _)|(_ & -> & Hn)]]; congruence.
  - destruct Hr as (? & _ & _ & _ & Hc & _). split; [done|].
    intros k. destruct (Hc k) as [?|[(? & _)|(? & _)]]; done.
Qed.

(** Both pools finite: 70 tokens go to the shared pool because 50 are left in
    the private one. *)
Definition two_pools : node_pools := {|
  mgr := {| enabled := true; privateLimit := 50; sharedLimit := 100; remoteLimit := -1;
            privatePool := None; sharedPool := None; remotePool := None |};
  ledger := None |}.

Lemma resolve_first_fit_witness :
  let '(r, s') := Resolve 0 "n" KeyTypeGuest 70 two_pools in
  if enabled (mgr two_pools) then
    match first_fit "n" 70 two_pools (PriorityOrder KeyTypeGuest) with
    | Some kind =>
        r_OK r = true ∧ r_Kind r = kind ∧ r_Amount r = 70 ∧
        (KeyTypeGuest = KeyTypePublic → kind ≠ PoolPrivate) ∧
        (recorded_here kind two_pools = true →
           capacity "n" kind s' = spend (capacity "n" kind two_pools) 70) ∧
        (∀ k, k ≠ kind → recorded_here k two_pools = true → capacity "n" k s' = capacity "n" k two_pools)
    | None => r_OK r = false ∧ ∀ k, capacity "n" k s' = capacity "n" k two_pools
    end
  else r_OK r = true ∧ r_Kind r = PoolPrivate ∧ s' = two_pools.
Proof.
  apply (resolve_first_fit 0 "n" KeyTypeGuest 70 two_pools).
  - lia.
  - intros k. destruct k; vm_compute; split; discriminate || reflexivity.
Defined.

(** *** A finite private pool depletes *)
Definition request : Type := Time * KeyType * Z.

Fixpoint serve (nodeID : string) (reqs : list request) (s : node_pools)
    : list ConsumeResult * node_pools :=
  match reqs with
  | [] => ([], s)
  | (now, kt, amount) :: reqs' =>
      let '(r, s1) := Resolve now nodeID kt amount s in
      let '(rs, s2) := serve nodeID reqs' s1 in (r :: rs, s2)
  end.

(** What the results charged to the private pool. *)
Definition private_charge (r : ConsumeResult) : Z :=
  if r_OK r && bool_decide (r_Kind r = PoolPrivate) then r_Amount r else 0.

(** A finite private pool is never overspent: over any sequence of requests
    of non-negative amounts with enforcement on, the amounts charged to the
    private pool sum to exactly what its capacity lost, so they never exceed
    its limit. *)
Theorem private_pool_depletes nodeID reqs s L :
  Forall (λ q : request, 0 ≤ q.2) reqs → balances_int64 s → enabled (mgr s) = true →
  capacity nodeID PoolPrivate s = Some L →
  let '(rs, s') := serve nodeID reqs s in
  capacity nodeID PoolPrivate s' = Some (L - zsum (private_charge <$> rs)) ∧
  0 ≤ zsum (private_charge <$> rs) ≤ L.
Proof.
  revert s L. induction reqs as [|[[now kt] amount] reqs IH]; intros s L Hq Hb He Hc; cbn [serve].
  { rewrite fmap_nil, Z.sub_0_r. split; [done|]. cbn.
    unfold capacity, capacity_of in Hc. case_match; [done|]. apply Z.ltb_ge in H. simplify_eq. lia. }
  apply Forall_cons in Hq as [Ha Hq]. cbn in Ha.
  unfold Resolve. rewrite He. cbn [negb].
  pose proof (resolve_first_spec now nodeID amount (PriorityOrder kt) s Ha Hb (priority_nodup _)) as Hr.
  destruct (resolve_first now nodeID amount (PriorityOrder kt) s) as [r s1].
  assert (balances_int64 s1 ∧ enabled (mgr s1) = true ∧ 0 ≤ private_charge r ∧
          capacity nodeID PoolPrivate s1 = Some (L - private_charge r)) as (Hb1 & He1 & Hp1 & Hc1).
  { unfold private_charge. destruct (first_fit _ _ _ _) as [kind|].
    - destruct Hr as (-> & -> & -> & Hb1 & He1 & _ & Hk & Hx).
      split; [done|]. split; [congruence|]. cbn [andb]. case_bool_decide as Hkind.
      + subst kind. split; [done|]. by rewrite Hx, Hc.
      + split; [done|]. rewrite Z.sub_0_r, <- Hc.
        destruct (Hk PoolPrivate) as [?|[(_ & ? & _)|(_ & ? & _)]]; congruence.
    - destruct Hr as (-> & Hb1 & He1 & _ & Hk & _). cbn.
      split; [done|]. split; [congruence|]. split; [done|]. rewrite Z.sub_0_r, <- Hc.
      destruct (Hk PoolPrivate) as [?|[(? & _)|(? & _)]]; done. }
  specialize (IH s1 _ Hq Hb1 He1 Hc1). destruct (serve nodeID reqs s1) as [rs s2].
  rewrite fmap_cons, zsum_cons. destruct IH as [IH1 IH2]. split; [rewrite IH1; f_equal|]; lia.
Qed.

Lemma private_pool_depletes_witness :
  let reqs := [(0, KeyTypeGuest, 30); (1, KeyTypeProxy, 30); (2, KeyTypePublic, 5)] in
  let '(rs, s') := serve "n" reqs two_pools in
  capacity "n" PoolPrivate s' = Some (50 - zsum (private_charge <$> rs)) ∧
  0 ≤ zsum (private_charge <$> rs) ≤ 50.
Proof.
  apply (private_pool_depletes "n" [(0, KeyTypeGuest, 30); (1, KeyTypeProxy, 30); (2, KeyTypePublic, 5)]
           two_pools 50).
  - repeat constructor; cbn; lia.
  - intros k. destruct k; vm_compute; split; discriminate || reflexivity.
  - reflexivity.
  - reflexivity.
Defined.
