(* ===== verification/Governance.v ===== *)
(** * Community co-governance (governance.go)

    [GovernanceLedger] records proposals and ratifications on two hash chains
    and closes a proposal when two thirds of the eligible voters have decided.
    Proposals are mutable objects shared by the list and the index: a pointer is
    a position in [proposalList].  The voter source is an argument, and so is
    [encoding/json] on payloads: their decoding into the one field the code
    reads, and the text a payload becomes when the ledger is saved.  Other
    strings are taken to be valid UTF-8, which JSON gives back unchanged. *)

From S2P Require Import Prelude GoTime Sha256.

Record GovernanceProposal := {
  ID : string; Type_ : string; Title : string; Payload : string; Proposer : string;
  CreatedAt : Time; Status : string; Seq : Z; PrevHash : string; Hash : string }.

Record GovernanceRatification := {
  ProposalID : string; NodeID : string; Approve : bool; Timestamp : Time; r_Seq : Z;
  r_PrevHash : string; r_Hash : string }.

Record GovernanceLedger := {
  selfID : string;
  proposalList : list GovernanceProposal;
  proposalIndex : gmap string nat;
  ratifications : list GovernanceRatification;
  ratIndex : gmap string (gset string);
  openByProp : gmap string Z;
  proposalSeq : Z;
  lastPHash : string;
  lastRHash : string;
  admittedNodes : gset string;
  allowedModels : gset string }.

(** [json.Unmarshal] of a payload into its one field; the text a payload
    ([json.RawMessage]) has in a saved ledger, which is compacted and escaped,
    or re-indented, or [null] for none ([None]: [json.Marshal] refuses it);
    whether a date has a year JSON can write. *)
Class GovEnv := {
  payload_node_id : string → option string;
  payload_model_id : string → option string;
  stored_payload : string → option string;
  stored_date : Time → bool }.

Definition govMaxOpenPerProposer : Z := 5.

(** [math.Ceil] of a non-negative float, as an integer. *)
Definition fceil (f : float64) : Z :=
  match f with
  | SpecFloat.S754_finite false m e =>
      if 0 <=? e then Zpos m * 2 ^ e else - ((- Zpos m) / 2 ^ (- e))
  | _ => 0
  end.

(** [int(math.Ceil(float64(n) * 2.0 / 3.0))] *)
Definition supermajority (n : Z) : Z :=
  if n <=? 0 then 1
  else fceil (fdiv (fmul (float_of_int n) (float_of_int 2)) (float_of_int 3)).

Definition empty_gov (self : string) : GovernanceLedger := {|
  selfID := self; proposalList := []; proposalIndex := ∅; ratifications := []; ratIndex := ∅;
  openByProp := ∅; proposalSeq := 0; lastPHash := ""; lastRHash := "";
  admittedNodes := ∅; allowedModels := ∅ |}.

(** ["%s|%s|%s|%s|%s|%d"]: neither the status, nor the sequence number, nor the
    previous hash. *)
Definition hashProposal (p : GovernanceProposal) : string :=
  sha256_hex (ID p +:+ "|" +:+ Type_ p +:+ "|" +:+ Title p +:+ "|" +:+ Payload p +:+ "|" +:+
              Proposer p +:+ "|" +:+ dec (CreatedAt p / second)).

Definition fmt_bool (b : bool) : string := if b then "true" else "false".

Definition hashRatification (r : GovernanceRatification) : string :=
  sha256_hex (ProposalID r +:+ "|" +:+ NodeID r +:+ "|" +:+ fmt_bool (Approve r) +:+ "|" +:+
              dec (Timestamp r / second)).

Definition with_status (s : string) (p : GovernanceProposal) : GovernanceProposal := {|
  ID := ID p; Type_ := Type_ p; Title := Title p; Payload := Payload p; Proposer := Proposer p;
  CreatedAt := CreatedAt p; Status := s; Seq := Seq p; PrevHash := PrevHash p; Hash := Hash p |}.

Definition link (prev h : string) (p : GovernanceProposal) : GovernanceProposal := {|
  ID := ID p; Type_ := Type_ p; Title := Title p; Payload := Payload p; Proposer := Proposer p;
  CreatedAt := CreatedAt p; Status := Status p; Seq := Seq p; PrevHash := prev; Hash := h |}.

Definition Propose (now : Time) (proposer ptype title payload : string) (g : GovernanceLedger)
    : res GovernanceProposal * GovernanceLedger :=
  let proposer := if bool_decide (proposer = "") then selfID g else proposer in
  if bool_decide (ptype = "") || bool_decide (title = "")
  then (Err "type and title are required", g)
  else if govMaxOpenPerProposer <=? zget (openByProp g) proposer
  then (Err "proposer has too many open proposals (spam guard)", g)
  else
    let n := proposalSeq g +! 1 in
    let p0 := {| ID := "gov-" +:+ selfID g +:+ "-" +:+ dec n; Type_ := ptype; Title := title;
                 Payload := payload; Proposer := proposer; CreatedAt := now; Status := "open";
                 Seq := n; PrevHash := lastPHash g; Hash := "" |} in
    let p := link (lastPHash g) (hashProposal p0) p0 in
    (Ok p, {| selfID := selfID g; proposalList := proposalList g ++ [p];
              proposalIndex := <[ID p := length (proposalList g)]> (proposalIndex g);
              ratifications := ratifications g; ratIndex := ratIndex g;
              openByProp := zincr proposer 1 (openByProp g); proposalSeq := n;
              lastPHash := Hash p; lastRHash := lastRHash g;
              admittedNodes := admittedNodes g; allowedModels := allowedModels g |}).

(** [len(g.voters())], with [nil] sources counting zero. *)
Definition eligibleCount (voters : option (list string)) : Z :=
  match voters with Some l => Z.of_nat (length l) | None => 0 end.

Definition needed (voters : option (list string)) : Z :=
  let e := eligibleCount voters in supermajority (if e =? 0 then 1 else e).

Definition votes (approve : bool) (id : string) (rs : list GovernanceRatification) : Z :=
  Z.of_nat (length (filter (λ r, ProposalID r = id ∧ Approve r = approve) rs)).

Section ops.
Context `{GovEnv}.

(** The rosters after a ratified proposal. *)
Definition executeRatified (p : GovernanceProposal) (rosters : gset string * gset string)
    : gset string * gset string :=
  let '(nodes, models) := rosters in
  if bool_decide (Type_ p = "admit_node") then
    match payload_node_id (Payload p) with
    | Some id => if bool_decide (id = "") then rosters else ({[id]} ∪ nodes, models)
    | None => rosters
    end
  else if bool_decide (Type_ p = "allow_model") then
    match payload_model_id (Payload p) with
    | Some id => if bool_decide (id = "") then rosters else (nodes, {[id]} ∪ models)
    | None => rosters
    end
  else rosters.

(** [openByProp[p]--], floored at zero. *)
Definition close_one (proposer : string) (m : gmap string Z) : gmap string Z :=
  let m' := zincr proposer (-1) m in
  if zget m' proposer <? 0 then <[proposer := 0]> m' else m'.

(** [recompute] on the proposal at position [i]. *)
Definition recompute (voters : option (list string)) (i : nat) (p : GovernanceProposal)
    (g : GovernanceLedger) : GovernanceLedger :=
  let need := needed voters in
  let approve := votes true (ID p) (ratifications g) in
  let reject := votes false (ID p) (ratifications g) in
  let close st rosters := {|
    selfID := selfID g; proposalList := <[i := with_status st p]> (proposalList g);
    proposalIndex := proposalIndex g; ratifications := ratifications g; ratIndex := ratIndex g;
    openByProp := close_one (Proposer p) (openByProp g); proposalSeq := proposalSeq g;
    lastPHash := lastPHash g; lastRHash := lastRHash g;
    admittedNodes := rosters.1; allowedModels := rosters.2 |} in
  if need <=? approve
  then close "ratified" (executeRatified p (admittedNodes g, allowedModels g))
  else if need <=? reject then close "rejected" (admittedNodes g, allowedModels g)
  else g.

Definition Ratify (now : Time) (voters : option (list string)) (proposalID nodeID : string)
    (approve : bool) (g : GovernanceLedger) : res GovernanceRatification * GovernanceLedger :=
  let nodeID := if bool_decide (nodeID = "") then selfID g else nodeID in
  match i ← proposalIndex g !! proposalID; p ← proposalList g !! i; Some (i, p) with
  | None => (Err "proposal not found", g)
  | Some (i, p) =>
      if negb (bool_decide (Status p = "open")) then (Err "proposal is not open", g)
      else
        let voted := default ∅ (ratIndex g !! proposalID) in
        if bool_decide (nodeID ∈ voted)
        then (Err "node already ratified this proposal", g)
        else
          let r0 := {| ProposalID := proposalID; NodeID := nodeID; Approve := approve;
                       Timestamp := now; r_Seq := Z.of_nat (length (ratifications g)) + 1;
                       r_PrevHash := lastRHash g; r_Hash := "" |} in
          let r := {| ProposalID := proposalID; NodeID := nodeID; Approve := approve;
                      Timestamp := now; r_Seq := r_Seq r0;
                      r_PrevHash := lastRHash g; r_Hash := hashRatification r0 |} in
          (Ok r, recompute voters i p
             {| selfID := selfID g; proposalList := proposalList g;
                proposalIndex := proposalIndex g; ratifications := ratifications g ++ [r];
                ratIndex := <[proposalID := {[nodeID]} ∪ voted]> (ratIndex g);
                openByProp := openByProp g; proposalSeq := proposalSeq g;
                lastPHash := lastPHash g; lastRHash := r_Hash r;
                admittedNodes := admittedNodes g; allowedModels := allowedModels g |})
  end.

Definition rebuildEffect (ps : list GovernanceProposal) (rosters : gset string * gset string)
    : gset string * gset string :=
  foldl (λ acc p, if bool_decide (Status p = "ratified") then executeRatified p acc else acc)
    rosters ps.

(** *** Queries *)
Definition Tally (voters : option (list string)) (proposalID : string) (g : GovernanceLedger)
    : bool * bool * Z * Z * Z :=
  match i ← proposalIndex g !! proposalID; proposalList g !! i with
  | None => (false, false, 0, 0, 0)
  | Some p =>
      let e := eligibleCount voters in
      let eligible := if e =? 0 then 1 else e in
      (true, bool_decide (Status p = "open"), votes true proposalID (ratifications g), eligible,
       supermajority eligible)
  end.

Definition List_ (statusFilter : string) (g : GovernanceLedger) : list GovernanceProposal :=
  filter (λ p, statusFilter = "" ∨ Status p = statusFilter) (proposalList g).

Definition IsCommunityAdmitted (nodeID : string) (g : GovernanceLedger) : bool :=
  negb (bool_decide (nodeID = "")) && bool_decide (nodeID ∈ admittedNodes g).
Definition IsCommunityCuratedModel (modelID : string) (g : GovernanceLedger) : bool :=
  negb (bool_decide (modelID = "")) && bool_decide (modelID ∈ allowedModels g).

Fixpoint proposals_linked (prev : string) (ps : list GovernanceProposal) : bool :=
  match ps with
  | [] => true
  | p :: ps' => bool_decide (PrevHash p = prev) && bool_decide (Hash p = hashProposal p)
                && proposals_linked (Hash p) ps'
  end.

Fixpoint ratifications_linked (prev : string) (rs : list GovernanceRatification) : bool :=
  match rs with
  | [] => true
  | r :: rs' => bool_decide (r_PrevHash r = prev) && bool_decide (r_Hash r = hashRatification r)
                && ratifications_linked (r_Hash r) rs'
  end.

Definition VerifyChain (g : GovernanceLedger) : bool :=
  proposals_linked "" (proposalList g) && ratifications_linked "" (ratifications g).

(** *** Persistence *)
Record govLedgerSnapshot := {
  s_Proposals : list GovernanceProposal; s_Ratifications : list GovernanceRatification;
  s_LastPHash : string; s_LastRHash : string; s_Seq : Z }.

Definition with_payload (pl : string) (p : GovernanceProposal) : GovernanceProposal := {|
  ID := ID p; Type_ := Type_ p; Title := Title p; Payload := pl; Proposer := Proposer p;
  CreatedAt := CreatedAt p; Status := Status p; Seq := Seq p; PrevHash := PrevHash p;
  Hash := Hash p |}.

(** [json.Marshal] of a proposal: its payload is written anew. *)
Definition marshal_proposal (p : GovernanceProposal) : option GovernanceProposal :=
  if stored_date (CreatedAt p) then (λ pl, with_payload pl p) <$> stored_payload (Payload p)
  else None.

(** The snapshot as the file then holds it; [None] when it cannot be encoded. *)
Definition marshal_snapshot (g : GovernanceLedger) : option govLedgerSnapshot :=
  ps ← mapM marshal_proposal (proposalList g);
  if forallb (λ r, stored_date (Timestamp r)) (ratifications g) then
    Some {| s_Proposals := ps; s_Ratifications := ratifications g;
            s_LastPHash := lastPHash g; s_LastRHash := lastRHash g; s_Seq := proposalSeq g |}
  else None.

(** The store after a save: unchanged when the ledger does not encode or the
    write fails ([written = false]); both are only logged. *)
Definition saveLocked (written : bool) (g : GovernanceLedger) (store : option govLedgerSnapshot)
    : option govLedgerSnapshot :=
  match marshal_snapshot g with
  | None => store
  | Some snap => if written then Some snap else store
  end.

Fixpoint index_from (i : nat) (ps : list GovernanceProposal) (m : gmap string nat)
    : gmap string nat :=
  match ps with [] => m | p :: ps' => index_from (S i) ps' (<[ID p := i]> m) end.

Definition count_open (m : gmap string Z) (p : GovernanceProposal) : gmap string Z :=
  if bool_decide (Status p = "open") then zincr (Proposer p) 1 m else m.

Definition mark_voted (m : gmap string (gset string)) (r : GovernanceRatification)
    : gmap string (gset string) :=
  <[ProposalID r := {[NodeID r]} ∪ default ∅ (m !! ProposalID r)]> m.

Definition applySnapshot (snap : govLedgerSnapshot) (g : GovernanceLedger) : GovernanceLedger :=
  let rosters := rebuildEffect (s_Proposals snap) (admittedNodes g, allowedModels g) in
  {| selfID := selfID g; proposalList := s_Proposals snap;
     proposalIndex := index_from 0 (s_Proposals snap) ∅;
     ratifications := s_Ratifications snap;
     ratIndex := foldl mark_voted ∅ (s_Ratifications snap);
     openByProp := foldl count_open ∅ (s_Proposals snap); proposalSeq := s_Seq snap;
     lastPHash := s_LastPHash snap; lastRHash := s_LastRHash snap;
     admittedNodes := rosters.1; allowedModels := rosters.2 |}.

Definition load (store : option govLedgerSnapshot) (g : GovernanceLedger) : GovernanceLedger :=
  match store with Some snap => applySnapshot snap g | None => g end.

(** *** Histories *)
Inductive gov_op :=
  | GPropose (now : Time) (proposer ptype title payload : string) (written : bool)
  | GRatify (now : Time) (voters : option (list string)) (proposalID nodeID : string)
      (approve written : bool)
  | GRestart.

(** The ledger in memory and the store behind it. *)
Definition gov_node : Type := GovernanceLedger * option govLedgerSnapshot.

(** Both calls save what they changed; a restart loads the store. *)
Definition run_gov_op (self : string) (n : gov_node) (o : gov_op) : gov_node :=
  match o with
  | GPropose now pr ty ti pl written =>
      let '(r, g) := Propose now pr ty ti pl n.1 in
      (g, if is_ok r then saveLocked written g n.2 else n.2)
  | GRatify now vs pid nid a written =>
      let '(r, g) := Ratify now vs pid nid a n.1 in
      (g, if is_ok r then saveLocked written g n.2 else n.2)
  | GRestart => (load n.2 (empty_gov self), n.2)
  end.

Definition run_gov (self : string) (ops : list gov_op) : gov_node :=
  foldl (run_gov_op self) (empty_gov self, None) ops.
End ops.

Example supermajority_ex : supermajority <$> [0; 1; 2; 3; 4; 5; 6; 7; 100] = [1; 1; 2; 2; 3; 4; 4; 5; 67].
Proof. vm_compute. reflexivity. Qed.
