(* ===== verification/GovernanceSafety.v ===== *)
(** * What governance guarantees, and what it does not

    Invariants of the histories of [GovernanceLedger] (governance.go), its
    persistence, the outcome of [Ratify], and two gaps: votes are not checked
    against the voter source, and the hashes do not cover the links. *)

From S2P Require Import Prelude GoTime Sha256 Governance.

(** The number of open proposals of a proposer. *)
Definition open_of (pr : string) (ps : list GovernanceProposal) : Z :=
  Z.of_nat (length (filter (λ p, Status p = "open" ∧ Proposer p = pr) ps)).

Lemma list_split_at {A} (l : list A) i x :
  l !! i = Some x →
  ∃ l1 l2, l = l1 ++ x :: l2 ∧ length l1 = i ∧ ∀ y, <[i := y]> l = l1 ++ y :: l2.
Proof.
  intros Hi. exists (take i l), (drop (S i) l). pose proof (lookup_lt_Some _ _ _ Hi) as Hl.
  assert (length (take i l) = i) as Ht by (rewrite length_take; lia).
  split; [by rewrite take_drop_middle|]. split; [done|]. intros y.
  rewrite <- (take_drop_middle l i x Hi) at 1. rewrite insert_app_r_alt by lia.
  by rewrite Ht, Nat.sub_diag.
Qed.

Lemma open_of_app pr l1 l2 : open_of pr (l1 ++ l2) = open_of pr l1 + open_of pr l2.
Proof. unfold open_of. rewrite filter_app, length_app. lia. Qed.

Lemma open_of_cons pr p l :
  open_of pr (p :: l) = (if decide (Status p = "open" ∧ Proposer p = pr) then 1 else 0) + open_of pr l.
Proof. unfold open_of. rewrite filter_cons. case_decide; simpl; lia. Qed.

Lemma open_of_nonneg pr l : 0 ≤ open_of pr l.
Proof. unfold open_of. lia. Qed.

Lemma index_from_lookup ps i m id :
  index_from i ps m !! id =
  match index_from i ps ∅ !! id with Some k => Some k | None => m !! id end.
Proof.
  revert i m. induction ps as [|p ps IH]; intros i m; cbn [index_from]; [by rewrite lookup_empty|].
  rewrite (IH _ (<[_ := _]> m)), (IH _ (<[_ := _]> ∅)).
  destruct (index_from (S i) ps ∅ !! id); [done|]. rewrite !lookup_insert, lookup_empty.
  by case_decide.
Qed.

Lemma index_from_snoc i ps p :
  index_from i (ps ++ [p]) ∅ = <[ID p := (i + length ps)%nat]> (index_from i ps ∅).
Proof.
  apply map_eq. intros id. revert i. induction ps as [|q ps IH]; intros i; cbn [app index_from length].
  - by rewrite Nat.add_0_r.
  - rewrite index_from_lookup, IH, !lookup_insert. case_decide; [f_equal; lia|].
    by rewrite (index_from_lookup ps (S i) (<[_ := _]> _)), lookup_insert.
Qed.

Lemma index_from_status i ps j p st :
  ps !! j = Some p → index_from i (<[j := with_status st p]> ps) ∅ = index_from i ps ∅.
Proof.
  generalize (∅ : gmap string nat). revert i j. induction ps as [|q ps IH]; intros i [|j] m; try done.
  - cbn. by intros [= ->].
  - cbn. apply IH.
Qed.

(** Linked chains grow at the end and keep their links when a status changes. *)
Definition end_hash (prev : string) (ps : list GovernanceProposal) : string :=
  match last ps with Some p => Hash p | None => prev end.
Definition end_rhash (prev : string) (rs : list GovernanceRatification) : string :=
  match last rs with Some r => r_Hash r | None => prev end.

Lemma proposals_linked_snoc prev ps p :
  proposals_linked prev (ps ++ [p]) =
  proposals_linked prev ps && bool_decide (PrevHash p = end_hash prev ps)
  && bool_decide (Hash p = hashProposal p).
Proof.
  unfold end_hash. revert prev. induction ps as [|q ps IH]; intros prev.
  - cbn. by rewrite andb_true_r.
  - cbn [app proposals_linked]. rewrite IH, last_cons, !andb_assoc. by destruct (last ps).
Qed.

Lemma ratifications_linked_snoc prev rs r :
  ratifications_linked prev (rs ++ [r]) =
  ratifications_linked prev rs && bool_decide (r_PrevHash r = end_rhash prev rs)
  && bool_decide (r_Hash r = hashRatification r).
Proof.
  unfold end_rhash. revert prev. induction rs as [|q rs IH]; intros prev.
  - cbn. by rewrite andb_true_r.
  - cbn [app ratifications_linked]. rewrite IH, last_cons, !andb_assoc. by destruct (last rs).
Qed.

Lemma proposals_linked_status prev ps i p st :
  ps !! i = Some p →
  proposals_linked prev (<[i := with_status st p]> ps) = proposals_linked prev ps.
Proof.
  revert prev i. induction ps as [|q ps IH]; intros prev [|i] Hi; try done; simplify_eq/=; [done|].
  by rewrite IH.
Qed.

Lemma end_hash_status prev ps i p st :
  ps !! i = Some p → end_hash prev (<[i := with_status st p]> ps) = end_hash prev ps.
Proof.
  intros Hi. destruct (list_split_at ps i p Hi) as (l1 & l2 & -> & _ & ->).
  unfold end_hash. rewrite !last_app, !last_cons. by destruct (last l2).
Qed.

Section safety.
Context `{GovEnv}.

(** *** Rosters *)
Lemma executeRatified_union p a b :
  ∃ n m, executeRatified p (∅, ∅) = (n, m) ∧ executeRatified p (a, b) = (n ∪ a, m ∪ b).
Proof.
  unfold executeRatified. repeat case_match; eexists _, _; (split; [reflexivity|]); f_equal; set_solver.
Qed.

Lemma rebuild_union ps a b :
  ∃ n m, rebuildEffect ps (∅, ∅) = (n, m) ∧ rebuildEffect ps (a, b) = (n ∪ a, m ∪ b).
Proof.
  unfold rebuildEffect. revert a b. induction ps as [|p ps IH]; intros a b; cbn [foldl].
  { eexists ∅, ∅. split; [done|]. f_equal; set_solver. }
  case_bool_decide; [|apply IH].
  destruct (executeRatified_union p a b) as (n & m & -> & ->).
  destruct (IH n m) as (n1 & m1 & E1 & ->), (IH (n ∪ a) (m ∪ b)) as (n2 & m2 & E2 & ->).
  rewrite E1 in E2. injection E2 as <- <-. eexists _, _. split; [done|]. f_equal; set_solver.
Qed.

(** Ratifying the proposal at a position adds its effect to the rosters. *)
Lemma rebuild_ratify ps i p :
  ps !! i = Some p → Status p ≠ "ratified" →
  rebuildEffect (<[i := with_status "ratified" p]> ps) (∅, ∅)
  = executeRatified p (rebuildEffect ps (∅, ∅)).
Proof.
  intros Hi Hs. destruct (list_split_at ps i p Hi) as (l1 & l2 & -> & _ & ->).
  unfold rebuildEffect. rewrite !foldl_app. cbn [foldl].
  rewrite bool_decide_true, (bool_decide_false (Status p = _)) by done.
  destruct (foldl _ (∅, ∅) l1) as [a b].
  change (executeRatified (with_status "ratified" p) (a, b)) with (executeRatified p (a, b)).
  destruct (executeRatified_union p a b) as (n & m & E1 & ->).
  destruct (rebuild_union l2 (n ∪ a) (m ∪ b)) as (n2 & m2 & E2 & E3),
    (rebuild_union l2 a b) as (n3 & m3 & E4 & E5).
  unfold rebuildEffect in *. rewrite E3, E5. rewrite E2 in E4. injection E4 as <- <-.
  destruct (executeRatified_union p (n2 ∪ a) (m2 ∪ b)) as (n' & m' & E6 & ->).
  rewrite E1 in E6. injection E6 as <- <-. f_equal; set_solver.
Qed.

Lemma rebuild_other ps i p st :
  ps !! i = Some p → Status p ≠ "ratified" → st ≠ "ratified" →
  rebuildEffect (<[i := with_status st p]> ps) (∅, ∅) = rebuildEffect ps (∅, ∅).
Proof.
  intros Hi Hs Hst. destruct (list_split_at ps i p Hi) as (l1 & l2 & -> & _ & ->).
  unfold rebuildEffect. rewrite !foldl_app. cbn [foldl]. by rewrite !bool_decide_false.
Qed.

Definition gov_id (self : string) (n : Z) : string := "gov-" +:+ self +:+ "-" +:+ dec n.

Definition vote_key (r : GovernanceRatification) : string * string := (ProposalID r, NodeID r).

Record gov_ok (g : GovernanceLedger) : Prop := {
  ok_seq : proposalSeq g = Z.of_nat (length (proposalList g));
  ok_ids : ∀ i p, proposalList g !! i = Some p → ID p = gov_id (selfID g) (Z.of_nat i + 1);
  ok_index : proposalIndex g = index_from 0 (proposalList g) ∅;
  ok_open : ∀ pr, zget (openByProp g) pr = open_of pr (proposalList g) ∧
                  open_of pr (proposalList g) ≤ govMaxOpenPerProposer;
  ok_rlink : ratifications_linked "" (ratifications g) = true ∧
             lastRHash g = end_rhash "" (ratifications g);
  ok_voted : ∀ id node, node ∈ default ∅ (ratIndex g !! id) ↔ (id, node) ∈ vote_key <$> ratifications g;
  ok_once : NoDup (vote_key <$> ratifications g);
  ok_known : ∀ r, r ∈ ratifications g → is_Some (proposalIndex g !! ProposalID r);
  ok_roster : (admittedNodes g, allowedModels g) = rebuildEffect (proposalList g) (∅, ∅) }.

(** The chain of proposals verifies and its head is the last hash. *)
Definition plinked (g : GovernanceLedger) : Prop :=
  proposals_linked "" (proposalList g) = true ∧ lastPHash g = end_hash "" (proposalList g).

Lemma gov_ok_empty self : gov_ok (empty_gov self).
Proof.
  split; try done; cbn [openByProp proposalList ratIndex ratifications empty_gov].
  - intros id node. rewrite lookup_empty, fmap_nil. cbn. split; [set_solver|by intros ?%not_elem_of_nil].
  - apply NoDup_nil_2.
  - by intros r ?%not_elem_of_nil.
Qed.

Lemma gov_ok_propose now pr ty ti pl g :
  gov_ok g → Z.of_nat (length (proposalList g)) < 2 ^ 62 →
  gov_ok (Propose now pr ty ti pl g).2 ∧ (plinked g → plinked (Propose now pr ty ti pl g).2) ∧
  selfID (Propose now pr ty ti pl g).2 = selfID g ∧
  (length (proposalList (Propose now pr ty ti pl g).2) ≤ S (length (proposalList g)))%nat.
Proof.
  intros Hok Hlen. unfold Propose. set (pr' := if bool_decide (pr = "") then selfID g else pr).
  case_match; [do 3 (split; [done|]); cbn; lia|].
  destruct (Z.leb_spec govMaxOpenPerProposer (zget (openByProp g) pr')) as [|Hlt];
    [do 3 (split; [done|]); cbn; lia|].
  destruct Hok as [Hseq Hids Hidx Hopen Hrl Hvo Hon Hkn Hro].
  assert (proposalSeq g +! 1 = Z.of_nat (length (proposalList g)) + 1) as Hn.
  { rewrite Hseq. apply wrap64_id. split; lia. }
  cbn [snd]. split; [|split; [|split; [done|cbn; rewrite length_app; simpl; lia]]]; cycle 1.
  { intros [Hpl Hlp]. unfold plinked. cbn [proposalList lastPHash]. split.
    - rewrite proposals_linked_snoc, Hpl. cbn. rewrite Hlp, !bool_decide_true; done.
    - unfold end_hash. by rewrite last_snoc. }
  split; cbn [selfID proposalList proposalIndex ratifications ratIndex openByProp proposalSeq
    lastPHash lastRHash admittedNodes allowedModels]; try done.
  - rewrite Hn, length_app. simpl. lia.
  - intros i p. rewrite lookup_app. destruct (proposalList g !! i) eqn:E.
    + intros [= <-]. by apply Hids.
    + apply lookup_ge_None in E. intros Hi. apply list_lookup_singleton_Some in Hi as [Hi <-].
      cbn. rewrite Hn. unfold gov_id. do 3 f_equal. f_equal. lia.
  - by rewrite index_from_snoc, Hidx.
  - intros q. rewrite open_of_app, open_of_cons. cbn [Status Proposer link].
    rewrite zget_zincr. destruct (Hopen q) as [Hz Hle], (Hopen pr') as [Hz' _].
    change (open_of q []) with 0. unfold govMaxOpenPerProposer in *.
    destruct (decide (pr' = q)) as [E|E];
      [destruct E; rewrite decide_True by done|rewrite decide_False by (by intros [_ ?])].
    + rewrite Hz'. rewrite wrap64_id by (pose proof (open_of_nonneg pr' (proposalList g)); split; lia). lia.
    + rewrite Hz. lia.
  - intros r Hr. apply lookup_insert_is_Some'. right. by apply Hkn.
  - rewrite Hro. unfold rebuildEffect. rewrite foldl_app. reflexivity.
Qed.

Lemma close_one_spec pr m k :
  zget m pr = k → 1 ≤ k ≤ govMaxOpenPerProposer →
  ∀ q, zget (close_one pr m) q = if decide (pr = q) then k - 1 else zget m q.
Proof.
  unfold govMaxOpenPerProposer. intros Hk Hr q. unfold close_one. rewrite !zget_zincr.
  rewrite decide_True by done. rewrite Hk, wrap64_id by (split; lia).
  destruct (Z.ltb_spec (k + -1) 0); [lia|]. rewrite zget_zincr, Hk, wrap64_id by (split; lia).
  case_decide; lia.
Qed.

Lemma open_of_close pr ps i p st :
  ps !! i = Some p → Status p = "open" → st ≠ "open" →
  open_of pr (<[i := with_status st p]> ps)
  = open_of pr ps - (if decide (Proposer p = pr) then 1 else 0).
Proof.
  intros Hi Ho Hst. destruct (list_split_at ps i p Hi) as (l1 & l2 & -> & _ & ->).
  rewrite !open_of_app, !open_of_cons. cbn [Status with_status].
  rewrite (decide_False (P := st = "open" ∧ _)) by naive_solver.
  destruct (decide (Proposer p = pr)) as [E|E].
  - rewrite decide_True by done. lia.
  - rewrite decide_False by naive_solver. lia.
Qed.

(** Closing an open proposal keeps the invariant, if the rosters follow. *)
Lemma gov_ok_close g i p st rosters :
  gov_ok g → proposalList g !! i = Some p → Status p = "open" → st ≠ "open" →
  rosters = rebuildEffect (<[i := with_status st p]> (proposalList g)) (∅, ∅) →
  gov_ok {| selfID := selfID g; proposalList := <[i := with_status st p]> (proposalList g);
    proposalIndex := proposalIndex g; ratifications := ratifications g; ratIndex := ratIndex g;
    openByProp := close_one (Proposer p) (openByProp g); proposalSeq := proposalSeq g;
    lastPHash := lastPHash g; lastRHash := lastRHash g;
    admittedNodes := rosters.1; allowedModels := rosters.2 |}.
Proof.
  intros [Hseq Hids Hidx Hopen Hrl Hvo Hon Hkn Hro] Hi Ho Hst Hr.
  split; cbn [selfID proposalList proposalIndex ratifications ratIndex openByProp proposalSeq
    lastPHash lastRHash admittedNodes allowedModels]; try done.
  - by rewrite length_insert.
  - intros j q [(<- & <- & _)|[_ Hj]]%list_lookup_insert_Some; [exact (Hids _ _ Hi)|by apply Hids].
  - by rewrite index_from_status.
  - intros pr. rewrite (open_of_close _ _ _ _ _ Hi Ho Hst).
    destruct (Hopen (Proposer p)) as [Hz Hle], (Hopen pr) as [Hz' Hle'].
    assert (1 ≤ open_of (Proposer p) (proposalList g)) as H1.
    { destruct (list_split_at _ _ _ Hi) as (l1 & l2 & -> & _). rewrite open_of_app, open_of_cons.
      rewrite decide_True by done. pose proof (open_of_nonneg (Proposer p) l1).
      pose proof (open_of_nonneg (Proposer p) l2). lia. }
    rewrite (close_one_spec _ _ _ Hz (conj H1 Hle)). case_decide; [subst; lia|lia].
  - rewrite <- Hr. by destruct rosters.
Qed.

Lemma gov_ok_vote g id node r :
  gov_ok g → is_Some (proposalIndex g !! id) → node ∉ default ∅ (ratIndex g !! id) →
  ProposalID r = id → NodeID r = node → r_PrevHash r = lastRHash g → r_Hash r = hashRatification r →
  gov_ok {| selfID := selfID g; proposalList := proposalList g; proposalIndex := proposalIndex g;
    ratifications := ratifications g ++ [r];
    ratIndex := <[id := {[node]} ∪ default ∅ (ratIndex g !! id)]> (ratIndex g);
    openByProp := openByProp g; proposalSeq := proposalSeq g; lastPHash := lastPHash g;
    lastRHash := r_Hash r; admittedNodes := admittedNodes g; allowedModels := allowedModels g |}.
Proof.
  intros [Hseq Hids Hidx Hopen [Hrl Hlr] Hvo Hon Hkn Hro] Hid Hnew <- <- Hprev Hh.
  split; cbn [selfID proposalList proposalIndex ratifications ratIndex openByProp proposalSeq
    lastPHash lastRHash admittedNodes allowedModels]; try done.
  - split; [|unfold end_rhash; by rewrite last_snoc].
    by rewrite ratifications_linked_snoc, Hrl, Hprev, Hlr, !bool_decide_true.
  - intros id' node'. rewrite fmap_app, elem_of_app, <- Hvo, lookup_insert.
    rewrite fmap_cons, fmap_nil, list_elem_of_singleton. unfold vote_key.
    case_decide as E; [subst id'; cbn; set_solver|]. naive_solver.
  - rewrite fmap_app. apply NoDup_app. split; [done|]. split; [|apply NoDup_singleton].
    intros x Hx ->%list_elem_of_singleton. apply Hnew, Hvo, Hx.
  - intros r' [Hr'| ->%list_elem_of_singleton]%elem_of_app; [by apply Hkn|done].
Qed.

Lemma gov_ok_recompute vs i p g :
  gov_ok g → proposalList g !! i = Some p → Status p = "open" →
  gov_ok (recompute vs i p g) ∧ (plinked g → plinked (recompute vs i p g)) ∧
  selfID (recompute vs i p g) = selfID g ∧
  length (proposalList (recompute vs i p g)) = length (proposalList g).
Proof.
  intros Hok Hi Ho. unfold recompute, plinked.
  assert (Status p ≠ "ratified") as Hnr by (by rewrite Ho).
  pose proof (ok_roster g Hok) as Hro.
  repeat case_match; [| |done]; (split; [|cbn; rewrite length_insert, (proposals_linked_status _ _ _ _ _ Hi),
    (end_hash_status _ _ _ _ _ Hi); done]); apply gov_ok_close; try done.
  - by rewrite rebuild_ratify, <- Hro.
  - by rewrite rebuild_other, <- Hro.
Qed.

Lemma index_from_Some ps id i :
  index_from 0 ps ∅ !! id = Some i → ∃ p, ps !! i = Some p ∧ ID p = id.
Proof.
  induction ps as [|p ps IH] using rev_ind; [cbn [index_from]; by rewrite lookup_empty|].
  rewrite index_from_snoc. intros [[<- <-]|[_ Hi]]%lookup_insert_Some.
  - exists p. split; [|done]. by rewrite lookup_app_r, Nat.sub_diag by lia.
  - apply IH in Hi as (q & Hq & ?). exists q. split; [|done]. by apply lookup_app_l_Some.
Qed.

Lemma gov_ok_ratify now vs id node a g :
  gov_ok g →
  gov_ok (Ratify now vs id node a g).2 ∧ (plinked g → plinked (Ratify now vs id node a g).2) ∧
  selfID (Ratify now vs id node a g).2 = selfID g ∧
  length (proposalList (Ratify now vs id node a g).2) = length (proposalList g).
Proof.
  intros Hok. unfold Ratify. set (node' := if bool_decide (node = "") then selfID g else node).
  destruct (proposalIndex g !! id) as [i|] eqn:Ei; cbn; [|done].
  destruct (proposalList g !! i) as [p|] eqn:Ep; cbn; [|done].
  destruct (bool_decide_reflect (Status p = "open")) as [Ho|Ho]; cbn; [|done].
  case_bool_decide as Hv; [done|]. cbn [snd].
  match goal with |- gov_ok (recompute vs i p ?g') ∧ _ => set (g1 := g') end.
  assert (gov_ok g1) as Hok1 by (apply gov_ok_vote; by eauto).
  by apply (gov_ok_recompute vs i p g1 Hok1).
Qed.

(** *** Restart *)
Lemma count_open_spec ps pr :
  zget (foldl count_open ∅ ps) pr = wrap64 (open_of pr ps).
Proof.
  induction ps as [|p ps IH] using rev_ind; [apply zget_empty|].
  rewrite foldl_app, open_of_app, open_of_cons. cbn [foldl]. unfold count_open at 1.
  change (open_of pr []) with 0. rewrite Z.add_0_r. case_bool_decide as Ho.
  - rewrite zget_zincr. destruct (decide (Proposer p = pr)) as [E|E].
    + rewrite decide_True by done. rewrite E, IH. by rewrite wrap64_add_l.
    + rewrite decide_False by naive_solver. by rewrite Z.add_0_r, IH.
  - rewrite decide_False by naive_solver. by rewrite Z.add_0_r, IH.
Qed.

Lemma mark_voted_spec rs id node :
  node ∈ default ∅ (foldl mark_voted ∅ rs !! id) ↔ (id, node) ∈ vote_key <$> rs.
Proof.
  induction rs as [|r rs IH] using rev_ind.
  { cbn [foldl]. rewrite lookup_empty. cbn. split; [set_solver|by intros ?%not_elem_of_nil]. }
  rewrite foldl_app, fmap_app, elem_of_app, <- IH. cbn [foldl]. unfold mark_voted at 1.
  rewrite lookup_insert, fmap_cons, fmap_nil, list_elem_of_singleton. unfold vote_key at 1.
  case_decide as E; [subst id; cbn; set_solver|]. naive_solver.
Qed.

(** A saved proposal is the proposal with another payload text. *)
Definition restored (p q : GovernanceProposal) : Prop :=
  ∃ pl, stored_payload (Payload p) = Some pl ∧ q = with_payload pl p.

Lemma marshal_snapshot_Some g snap :
  marshal_snapshot g = Some snap →
  Forall2 restored (proposalList g) (s_Proposals snap) ∧ s_Ratifications snap = ratifications g ∧
  s_LastPHash snap = lastPHash g ∧ s_LastRHash snap = lastRHash g ∧ s_Seq snap = proposalSeq g.
Proof.
  unfold marshal_snapshot. intros (ps & Hps%mapM_Some & Hs)%bind_Some. case_match; [|done].
  injection Hs as <-. split; [|done]. cbn. eapply Forall2_impl; [exact Hps|].
  intros p q. unfold marshal_proposal. case_match; [|done]. intros (pl & ? & ?)%fmap_Some.
  by exists pl.
Qed.

Lemma restored_open pr ps qs : Forall2 restored ps qs → open_of pr qs = open_of pr ps.
Proof.
  induction 1 as [|p q ps qs (pl & _ & ->) _ IH]; [done|]. by rewrite !open_of_cons, IH.
Qed.

Lemma restored_index ps qs i m : Forall2 restored ps qs → index_from i qs m = index_from i ps m.
Proof.
  intros HF. revert i m. induction HF as [|p q ps qs (pl & _ & ->) _ IH]; intros i m; [done|].
  apply IH.
Qed.

Lemma restored_same ps qs :
  Forall2 restored ps qs → Forall (λ p, stored_payload (Payload p) = Some (Payload p)) ps → qs = ps.
Proof.
  induction 1 as [|p q ps qs (pl & Hpl & ->) _ IH]; [done|]. intros [Hp Hps]%Forall_cons.
  rewrite IH by done. rewrite Hp in Hpl. injection Hpl as <-. by destruct p.
Qed.

Lemma gov_ok_load g snap self :
  gov_ok g → selfID g = self → marshal_snapshot g = Some snap →
  gov_ok (applySnapshot snap (empty_gov self)) ∧
  length (s_Proposals snap) = length (proposalList g).
Proof.
  intros [Hseq Hids Hidx Hopen Hrl Hvo Hon Hkn Hro] <-
    (HF & Hrs & Hlp & Hlr & Hsq)%marshal_snapshot_Some.
  pose proof (Forall2_length _ _ _ HF) as Hlen. split; [|done].
  split; cbn [applySnapshot selfID proposalList proposalIndex ratifications ratIndex openByProp
    proposalSeq lastPHash lastRHash admittedNodes allowedModels empty_gov]; rewrite ?Hrs, ?Hlr; try done.
  - by rewrite Hsq, Hseq, Hlen.
  - intros i q Hq. destruct (Forall2_lookup_r _ _ _ _ _ HF Hq) as (p & Hp & pl & _ & ->).
    exact (Hids i p Hp).
  - intros pr. rewrite count_open_spec, (restored_open _ _ _ HF). destruct (Hopen pr) as [_ Hle].
    split; [|done]. apply wrap64_id. pose proof (open_of_nonneg pr (proposalList g)).
    unfold govMaxOpenPerProposer in *. split; lia.
  - intros id node. apply mark_voted_spec.
  - rewrite (restored_index _ _ _ _ HF), <- Hidx. done.
  - symmetry. apply surjective_pairing.
Qed.

(** The payloads JSON gives back as they were proposed. *)
Definition payload_kept (o : gov_op) : Prop :=
  match o with GPropose _ _ _ _ pl _ => stored_payload pl = Some pl | _ => True end.

Definition kept (g : GovernanceLedger) : Prop :=
  Forall (λ p, stored_payload (Payload p) = Some (Payload p)) (proposalList g).

(** What holds of the ledger in memory, and of the one a restart would load. *)
Definition node_ok (P : GovernanceLedger → Prop) (self : string) (n : gov_node) : Prop :=
  P n.1 ∧ P (load n.2 (empty_gov self)).

Definition books (self : string) (k : nat) (g : GovernanceLedger) : Prop :=
  gov_ok g ∧ selfID g = self ∧ (length (proposalList g) ≤ k)%nat.

Lemma books_save self k written g store :
  books self k g → books self k (load store (empty_gov self)) →
  books self k (load (saveLocked written g store) (empty_gov self)).
Proof.
  intros (Hok & Hs & Hl) Hb. unfold saveLocked. destruct (marshal_snapshot g) as [snap|] eqn:E; [|done].
  destruct written; [|done]. destruct (gov_ok_load g snap self Hok Hs E) as [? Hlen].
  split; [done|]. split; [done|]. cbn. lia.
Qed.

Lemma books_mono self k k' g : (k ≤ k')%nat → books self k g → books self k' g.
Proof. intros ? (? & ? & ?). split; [done|]. split; [done|lia]. Qed.

Lemma books_run self ops :
  Z.of_nat (length ops) < 2 ^ 62 → node_ok (books self (length ops)) self (run_gov self ops).
Proof.
  unfold run_gov. induction ops as [|o ops IH] using rev_ind; intros Hl.
  { split; (split; [apply gov_ok_empty|done]). }
  rewrite length_app in *. simpl in Hl. rewrite foldl_app. cbn [foldl].
  assert (node_ok (books self (length ops + length [o])) self
            (foldl (run_gov_op self) (empty_gov self, None) ops)) as [Hm Hf].
  { destruct IH as [H1 H2]; [lia|]. split; (eapply books_mono; [|eassumption]); simpl; lia. }
  assert (length (proposalList (foldl (run_gov_op self) (empty_gov self, None) ops).1)
            ≤ length ops)%nat as Hk by (destruct IH as [(_ & _ & ?) _]; [lia|done]).
  destruct Hm as (Hok & Hs & _). set (n := foldl _ _ ops) in *.
  destruct o as [now pr ty ti pl w|now vs id node a w|]; cbn [run_gov_op].
  - destruct (gov_ok_propose now pr ty ti pl _ Hok) as (Hok' & _ & Hs' & Hl'); [lia|].
    destruct (Propose _ _ _ _ _ _) as [r g]. cbn [snd] in *.
    assert (books self (length ops + length [GPropose now pr ty ti pl w]) g) as Hb
      by (split; [done|]; split; [congruence|simpl; lia]).
    split; [done|]. cbn [snd]. case_match; [by apply books_save|done].
  - destruct (gov_ok_ratify now vs id node a _ Hok) as (Hok' & _ & Hs' & Hl').
    destruct (Ratify _ _ _ _ _ _) as [r g]. cbn [snd] in *.
    assert (books self (length ops + length [GRatify now vs id node a w]) g) as Hb
      by (split; [done|]; split; [congruence|simpl; lia]).
    split; [done|]. cbn [snd]. case_match; [by apply books_save|done].
  - by split.
Qed.

(** The proposals chain, when the payloads are kept. *)
Definition chained (g : GovernanceLedger) : Prop := plinked g ∧ kept g.

Lemma propose_kept now pr ty ti pl g :
  stored_payload pl = Some pl → kept g → kept (Propose now pr ty ti pl g).2.
Proof.
  intros Hpl Hk. unfold Propose. repeat case_match; try done; cbn; unfold kept; cbn [proposalList];
    (apply Forall_app; split; [done|by apply Forall_singleton]).
Qed.

Lemma status_kept i st p g :
  kept g → proposalList g !! i = Some p →
  Forall (λ p, stored_payload (Payload p) = Some (Payload p))
    (<[i := with_status st p]> (proposalList g)).
Proof. intros Hk Hi. apply Forall_insert; [done|]. exact (Forall_lookup_1 _ _ _ _ Hk Hi). Qed.

Lemma ratify_kept now vs id node a g : kept g → kept (Ratify now vs id node a g).2.
Proof.
  intros Hk. unfold Ratify. destruct (proposalIndex g !! id) as [i|]; cbn; [|done].
  destruct (proposalList g !! i) as [p|] eqn:Ep; cbn; [|done].
  repeat case_match; try done; cbn; unfold recompute, kept;
    repeat case_match; cbn [proposalList]; by try apply status_kept.
Qed.

Lemma chained_save self written g store :
  chained g → chained (load store (empty_gov self)) →
  chained (load (saveLocked written g store) (empty_gov self)).
Proof.
  intros [[Hp He] Hk] Hc. unfold saveLocked. destruct (marshal_snapshot g) as [snap|] eqn:E; [|done].
  destruct written; [|done]. apply marshal_snapshot_Some in E as (HF & _ & Hl & _).
  apply restored_same in HF; [|done]. unfold chained, plinked, kept. cbn. by rewrite HF, Hl.
Qed.

Lemma chained_run self ops :
  Z.of_nat (length ops) < 2 ^ 62 → Forall payload_kept ops →
  node_ok chained self (run_gov self ops).
Proof.
  induction ops as [|o ops IH] using rev_ind; intros Hl Hk.
  { split; (split; [done|constructor]). }
  apply Forall_app in Hk as [Hk Ho]. rewrite Forall_singleton in Ho.
  rewrite length_app in Hl. simpl in Hl. destruct IH as [[Hm1 Hm2] Hf]; [lia|done|].
  destruct (books_run self ops) as [(Hok & _ & Hlen) _]; [lia|].
  unfold run_gov in *. rewrite foldl_app. cbn [foldl]. set (n := foldl _ _ ops) in *.
  destruct o as [now pr ty ti pl w|now vs id node a w|]; cbn [run_gov_op].
  - destruct (gov_ok_propose now pr ty ti pl _ Hok) as (_ & Hc & _); [lia|].
    pose proof (propose_kept now pr ty ti pl _ Ho Hm2) as Hk'.
    destruct (Propose _ _ _ _ _ _) as [r g]. cbn [snd] in *.
    split; [by split; [apply Hc|]|]. cbn [snd]. case_match; [|done].
    apply chained_save; [by split; [apply Hc|]|done].
  - destruct (gov_ok_ratify now vs id node a _ Hok) as (_ & Hc & _).
    pose proof (ratify_kept now vs id node a _ Hm2) as Hk'.
    destruct (Ratify _ _ _ _ _ _) as [r g]. cbn [snd] in *.
    split; [by split; [apply Hc|]|]. cbn [snd]. case_match; [|done].
    apply chained_save; [by split; [apply Hc|]|done].
  - by split.
Qed.

(** C7. Governance keeps its books: after any history of proposals, votes,
    saves that succeed or fail and restarts, the votes' hash chain verifies;
    the open counter of every proposer is exactly its number of open proposals
    and never exceeds the spam guard; no node has two votes on one proposal;
    every vote is on a known proposal; and the rosters are exactly those the
    ratified proposals on the ledger give.  The whole ledger verifies when JSON
    gives every proposed payload back as it was. *)
Theorem governance_invariant self ops pr :
  Z.of_nat (length ops) < 2 ^ 62 →
  let g := (run_gov self ops).1 in
  (Forall payload_kept ops → VerifyChain g = true) ∧
  ratifications_linked "" (ratifications g) = true ∧
  zget (openByProp g) pr = open_of pr (proposalList g) ∧
  open_of pr (proposalList g) ≤ govMaxOpenPerProposer ∧
  NoDup (vote_key <$> ratifications g) ∧
  (∀ r, r ∈ ratifications g → ∃ p, p ∈ proposalList g ∧ ID p = ProposalID r) ∧
  (admittedNodes g, allowedModels g) = rebuildEffect (proposalList g) (∅, ∅).
Proof.
  intros Hl g. destruct (books_run self ops Hl) as [(Hok & _) _]. fold g in Hok.
  destruct (ok_rlink g Hok) as [Hr _].
  split; [intros Hk; destruct (chained_run self ops Hl Hk) as [[[Hp _] _] _];
    by apply andb_true_iff|].
  split; [done|]. split; [apply (ok_open g Hok)|]. split; [apply (ok_open g Hok)|].
  split; [apply (ok_once g Hok)|]. split; [|apply (ok_roster g Hok)]. intros r Hin.
  destruct (ok_known g Hok r Hin) as [i Hi]. rewrite (ok_index g Hok) in Hi.
  apply index_from_Some in Hi as (p & Hp & ?). exists p. split; [|done].
  by eapply list_elem_of_lookup_2.
Qed.

(** A restart reproduces the ledger: loading the snapshot a reachable state
    saves gives back the votes, the index, the open counters, the sequence
    number and the chain heads, and the proposals but for their payloads; with
    the payloads kept, also the proposals and the rosters. *)
Theorem governance_save_load self ops snap pr id node :
  Z.of_nat (length ops) < 2 ^ 62 →
  let g := (run_gov self ops).1 in
  marshal_snapshot g = Some snap →
  let g' := load (Some snap) (empty_gov self) in
  Forall2 restored (proposalList g) (proposalList g') ∧ ratifications g' = ratifications g ∧
  proposalIndex g' = proposalIndex g ∧ proposalSeq g' = proposalSeq g ∧
  lastPHash g' = lastPHash g ∧ lastRHash g' = lastRHash g ∧
  zget (openByProp g') pr = zget (openByProp g) pr ∧
  (node ∈ default ∅ (ratIndex g' !! id) ↔ node ∈ default ∅ (ratIndex g !! id)) ∧
  (kept g → proposalList g' = proposalList g ∧ admittedNodes g' = admittedNodes g ∧
            allowedModels g' = allowedModels g).
Proof.
  intros Hl g Hm g'. destruct (books_run self ops Hl) as [(Hok & Hs & _) _]. fold g in Hok, Hs.
  destruct (gov_ok_load g snap self Hok Hs Hm) as [Hok' _].
  apply marshal_snapshot_Some in Hm as (HF & Hr & Hp & Hlr & Hsq). fold g' in Hok' |- *.
  split; [done|]. split; [done|].
  split; [by rewrite (ok_index g' Hok'), (ok_index g Hok), (restored_index _ _ _ _ HF)|].
  do 3 (split; [done|]). split.
  - destruct (ok_open g' Hok' pr) as [-> _], (ok_open g Hok pr) as [-> _].
    apply (restored_open _ _ _ HF).
  - split; [rewrite (ok_voted g' Hok'), (ok_voted g Hok); by unfold g'; cbn; rewrite Hr|].
    intros Hk%(restored_same _ _ HF). split; [done|].
    pose proof (ok_roster g Hok) as E. pose proof (ok_roster g' Hok') as E'.
    change (proposalList g') with (s_Proposals snap) in E'. rewrite Hk, <- E in E'.
    by injection E'.
Qed.

(** *** Votes *)
(** The threshold in whole numbers, for up to a thousand voters: the floats
    of [supermajority] give two thirds, rounded up. *)
Lemma two_thirds_table :
  forallb (λ e, supermajority e =? (2 * e + 2) / 3) (seqZ 1 1000) = true.
Proof. vm_compute. reflexivity. Qed.

Definition eligible (vs : option (list string)) : Z := Z.max 1 (eligibleCount vs).

Lemma needed_two_thirds vs k :
  eligibleCount vs ≤ 1000 → (needed vs <=? k) = (2 * eligible vs <=? 3 * k).
Proof.
  intros Hle. unfold needed, eligible.
  assert (0 ≤ eligibleCount vs) by (unfold eligibleCount; case_match; lia).
  set (c := eligibleCount vs) in *.
  assert ((if c =? 0 then 1 else c) = Z.max 1 c) as -> by (destruct (Z.eqb_spec c 0); lia).
  set (e := Z.max 1 c). assert (e ∈ seqZ 1 1000) as He by (apply elem_of_seqZ; unfold e; lia).
  pose proof two_thirds_table as HT. rewrite forallb_forall in HT.
  apply list_elem_of_In, HT, Z.eqb_eq in He. rewrite He.
  pose proof (Z.div_mod (2 * e + 2) 3 ltac:(lia)). pose proof (Z.mod_pos_bound (2 * e + 2) 3 ltac:(lia)).
  destruct (Z.leb_spec ((2 * e + 2) / 3) k), (Z.leb_spec (2 * e) (3 * k)); try done; lia.
Qed.

Definition status_of (id : string) (g : GovernanceLedger) : option string :=
  i ← proposalIndex g !! id; Status <$> proposalList g !! i.

Lemma recompute_same vs i p g :
  ratifications (recompute vs i p g) = ratifications g ∧
  proposalIndex (recompute vs i p g) = proposalIndex g ∧
  (∀ j, j ≠ i → proposalList (recompute vs i p g) !! j = proposalList g !! j) ∧
  (proposalList g !! i = Some p → Status p = "open" →
   Status <$> proposalList (recompute vs i p g) !! i =
     Some (if needed vs <=? votes true (ID p) (ratifications g) then "ratified"
           else if needed vs <=? votes false (ID p) (ratifications g) then "rejected"
           else "open")).
Proof.
  unfold recompute. repeat case_match; cbn; (split; [done|]); (split; [done|]); (split;
    [intros j Hj; by rewrite ?list_lookup_insert_ne|]); intros Hi Ho;
    rewrite ?list_lookup_insert_eq by (by eapply lookup_lt_Some); cbn; rewrite ?Hi; cbn; by rewrite ?Ho.
Qed.

Lemma ratify_step now vs id node a g :
  gov_ok g →
  let n := if bool_decide (node = "") then selfID g else node in
  let '(r, g') := Ratify now vs id node a g in
  (is_ok r = true ↔ status_of id g = Some "open" ∧ (id, n) ∉ vote_key <$> ratifications g) ∧
  (is_ok r = false → g' = g) ∧
  (is_ok r = true →
     (∃ v, ratifications g' = ratifications g ++ [v] ∧ vote_key v = (id, n) ∧ Approve v = a) ∧
     status_of id g' =
       Some (if needed vs <=? votes true id (ratifications g') then "ratified"
             else if needed vs <=? votes false id (ratifications g') then "rejected" else "open") ∧
     (∀ id', id' ≠ id → status_of id' g' = status_of id' g)).
Proof.
  intros Hok n.
  pose proof (ok_voted g Hok id n) as Hvoted.
  unfold Ratify. fold n. unfold status_of at 1.
  destruct (proposalIndex g !! id) as [i|] eqn:Ei; cbn; [|by split; [split; [done|by intros [? _]]|]].
  destruct (proposalList g !! i) as [p|] eqn:Ep; cbn; [|by split; [split; [done|by intros [? _]]|]].
  destruct (bool_decide_reflect (Status p = "open")) as [Ho|Ho]; cbn;
    [|by split; [split; [done|by intros [[= ?] _]]|]].
  case_bool_decide as Hv; [split; [split; [done|intros [_ Hn]; by destruct Hn; apply Hvoted]|done]|].
  split; [split; [intros _; by rewrite Ho, <- Hvoted|done]|]. split; [done|]. intros _.
  match goal with |- context [recompute vs i p ?g'] => set (g1 := g') end.
  destruct (recompute_same vs i p g1) as (Hr & Hi & Hother & Hstat).
  assert (ID p = id) as Hid.
  { rewrite (ok_index g Hok) in Ei. apply index_from_Some in Ei as (q & Hq & ?). by simplify_eq. }
  split; [rewrite Hr; eexists; split; [reflexivity|]; done|].
  assert (∀ j id', proposalIndex g !! id' = Some j → id' ≠ id → j ≠ i) as Hinj.
  { intros j id' Hj Hne ->. rewrite (ok_index g Hok) in Hj. apply index_from_Some in Hj as (q & Hq & ?).
    simplify_eq. }
  split.
  - unfold status_of. rewrite Hi, Hr. cbn [proposalIndex g1]. rewrite Ei. cbn [mbind option_bind].
    rewrite (Hstat Ep Ho), Hid. done.
  - intros id' Hne. unfold status_of. rewrite Hi. cbn [proposalIndex g1].
    destruct (proposalIndex g !! id') as [j|] eqn:Ej; [|done]. cbn. by rewrite Hother by (by eapply Hinj).
Qed.


Definition approve_all (now : Time) (vs : option (list string)) (id : string) (l : list string)
    (g : GovernanceLedger) : GovernanceLedger :=
  foldl (λ g o, (Ratify now vs id o true g).2) g l.

(** A run of approving votes that stays below the supermajority, then reaches it. *)
Lemma approvals_accumulate now vs id l g :
  gov_ok g → NoDup l → "" ∉ l →
  (∀ o, o ∈ l → (id, o) ∉ vote_key <$> ratifications g) →
  status_of id g = Some "open" →
  votes true id (ratifications g) + Z.of_nat (length l) = needed vs → l ≠ [] →
  votes false id (ratifications g) = 0 →
  let g' := approve_all now vs id l g in
  status_of id g' = Some "ratified" ∧
  (∀ r, r ∈ ratifications g' → r ∈ ratifications g ∨ NodeID r ∈ l).
Proof.
  revert g. induction l as [|o l IH]; intros g Hok Hnd Hne Hfresh Hopen Hcnt Hl Hrej; [done|].
  apply NoDup_cons in Hnd as [Ho Hnd]. unfold approve_all. cbn [foldl].
  pose proof (ratify_step now vs id o true g Hok) as Hs. cbn zeta in Hs.
  rewrite bool_decide_false in Hs by set_solver.
  destruct (gov_ok_ratify now vs id o true g Hok) as (Hok' & _).
  destruct (Ratify now vs id o true g) as [r g1]. cbn [snd] in *.
  destruct Hs as (Hiff & _ & Hs). assert (is_ok r = true) as Hr by (apply Hiff; set_solver).
  destruct (Hs Hr) as ((v & Hv & Hk & Ha) & Hst & _). injection Hk as Hp Hn.
  assert (votes true id (ratifications g1) = votes true id (ratifications g) + 1) as Hv1.
  { unfold votes. rewrite Hv, filter_app, length_app, filter_cons, decide_True by done. simpl. lia. }
  assert (votes false id (ratifications g1) = votes false id (ratifications g)) as Hv0.
  { unfold votes. rewrite Hv, filter_app, length_app, filter_cons, decide_False
      by (intros [_ ?]; congruence). rewrite filter_nil. simpl. lia. }
  assert (∀ r, r ∈ ratifications g1 → r ∈ ratifications g ∨ NodeID r ∈ o :: l) as Hin.
  { intros x. rewrite Hv, elem_of_app, list_elem_of_singleton. intros [?| ->]; [by left|right].
    rewrite Hn. left. }
  rewrite Hv1 in Hst. simpl in Hcnt. destruct (Z.leb_spec (needed vs) (votes true id (ratifications g) + 1)).
  - destruct l; [|simpl in Hcnt; lia]. by split.
  - rewrite Hv0, Hrej in Hst. destruct (Z.leb_spec (needed vs) 0);
      [unfold votes in *; lia|].
    assert (l ≠ []) as Hl' by (intros ->; simpl in Hcnt; lia).
    assert ("" ∉ l) as Hne' by set_solver.
    destruct (IH g1 Hok' Hnd Hne') as [IH1 IH2]; try done.
    + intros o' Ho'. rewrite Hv, fmap_app, elem_of_app, fmap_cons, fmap_nil, list_elem_of_singleton.
      intros [?|E]; [by apply (Hfresh o'); [right|]|]. unfold vote_key in E. by simplify_eq.
    + rewrite Hv1. lia.
    + by rewrite Hv0.
    + split; [done|]. intros x Hx. apply IH2 in Hx as [Hx|Hx]; [by apply Hin|right; by right].
Qed.

(** (A defect.) Votes are not checked against the voter source: with any
    source of eligible voters, a proposal is ratified by outsiders, as long as
    there are as many of them as the supermajority asks for. *)
Theorem ineligible_votes_ratify self now pr ty ti pl vs outsiders :
  ty ≠ "" → ti ≠ "" → NoDup outsiders → "" ∉ outsiders →
  (∀ o, o ∈ outsiders → o ∉ vs) →
  0 < needed (Some vs) → needed (Some vs) = Z.of_nat (length outsiders) →
  let id := gov_id self 1 in
  let g := approve_all now (Some vs) id outsiders (Propose now pr ty ti pl (empty_gov self)).2 in
  status_of id g = Some "ratified" ∧
  (∀ r, r ∈ ratifications g → NodeID r ∉ vs).
Proof.
  intros Hty Hti Hnd Hne Hout Hpos Hneed id g. subst g.
  destruct (gov_ok_propose now pr ty ti pl _ (gov_ok_empty self) ltac:(cbn; lia)) as (Hok & _).
  set (g1 := (Propose now pr ty ti pl (empty_gov self)).2) in *.
  assert (ratifications g1 = [] ∧ status_of id g1 = Some "open") as [Hr Hs].
  { subst g1. unfold Propose. rewrite !(bool_decide_false (_ = "")) by done. cbn [orb].
    cbn [openByProp empty_gov]. rewrite zget_empty. split; [done|]. unfold status_of. cbn. by rewrite lookup_insert_eq. }
  destruct (approvals_accumulate now (Some vs) id outsiders g1) as [H1 H2]; try done.
  - intros o Ho. rewrite Hr. apply not_elem_of_nil.
  - rewrite Hr. unfold votes. rewrite filter_nil. simpl. lia.
  - intros ->. simpl in Hneed. lia.
  - by rewrite Hr.
  - split; [done|]. intros r [Hin|Hin]%H2; [|by apply Hout]. rewrite Hr in Hin.
    by apply not_elem_of_nil in Hin.
Qed.

(** The list with its links recomputed: what a forger writes. *)
Fixpoint relink (prev : string) (ps : list GovernanceProposal) : list GovernanceProposal :=
  match ps with
  | [] => []
  | p :: ps' => link prev (Hash p) p :: relink (Hash p) ps'
  end.

Lemma hashProposal_link prev h p : hashProposal (link prev h p) = hashProposal p.
Proof. reflexivity. Qed.

Lemma proposals_hashes prev ps :
  proposals_linked prev ps = true → Forall (λ p, Hash p = hashProposal p) ps.
Proof.
  revert prev. induction ps as [|p ps IH]; intros prev; [constructor|]. cbn.
  rewrite !andb_true_iff. intros [[_ ?%bool_decide_eq_true] ?]. constructor; [done|by eapply IH].
Qed.

Lemma relink_linked prev ps :
  Forall (λ p, Hash p = hashProposal p) ps → proposals_linked prev (relink prev ps) = true.
Proof.
  intros Hall. revert prev. induction Hall as [|p ps Hp Hall IH]; intros prev; [done|].
  cbn [relink proposals_linked]. rewrite hashProposal_link. cbn [PrevHash Hash link].
  by rewrite !bool_decide_true, IH.
Qed.

(** (A defect.) The hashes do not cover the links: from any ledger whose
    chains verify, an attacker who deletes proposals and re-links the rest gets
    a ledger that still verifies, in which every remaining proposal has its
    original hash, and which has the original head if it keeps the last one. *)
Theorem deletion_undetected g ps :
  VerifyChain g = true → sublist ps (proposalList g) →
  let forged := {| selfID := selfID g; proposalList := relink "" ps;
    proposalIndex := proposalIndex g; ratifications := ratifications g; ratIndex := ratIndex g;
    openByProp := openByProp g; proposalSeq := proposalSeq g; lastPHash := lastPHash g;
    lastRHash := lastRHash g; admittedNodes := admittedNodes g;
    allowedModels := allowedModels g |} in
  VerifyChain forged = true ∧
  Hash <$> proposalList forged = Hash <$> ps ∧
  (last ps = last (proposalList g) →
   end_hash "" (proposalList forged) = end_hash "" (proposalList g)).
Proof.
  intros Hv Hsub forged. unfold VerifyChain in *. apply andb_true_iff in Hv as [Hp Hr].
  apply proposals_hashes in Hp. cbn [forged proposalList ratifications].
  assert (Forall (λ p, Hash p = hashProposal p) ps) as Hps.
  { rewrite Forall_forall in *. intros p Hin. apply Hp.
    by eapply elem_of_submseteq, sublist_submseteq. }
  rewrite relink_linked, Hr by done. split; [done|].
  assert (∀ prev, Hash <$> relink prev ps = Hash <$> ps) as Hh.
  { clear. induction ps as [|p ps IH]; intros prev; [done|]. cbn [relink].
    rewrite !fmap_cons, IH. done. }
  split; [apply Hh|]. intros Hlast. unfold end_hash. rewrite <- Hlast.
  specialize (Hh ""). apply (f_equal last) in Hh. rewrite !fmap_last in Hh.
  destruct (last ps), (last (relink "" ps)); by simplify_eq/=.
Qed.
End safety.

(** Payloads that are the id itself, written as they are but for the empty
    one, which JSON writes as [null]. *)
Definition plain_gov_env : GovEnv := {|
  payload_node_id := Some; payload_model_id := Some;
  stored_payload pl := Some (if bool_decide (pl = "") then "null" else pl);
  stored_date _ := true |}.

Definition two_ops : list gov_op :=
  [GPropose 0 "alice" "admit_node" "admit bob" "bob" true; GRestart;
   GRatify 1 (Some ["alice"]) "gov-n-1" "alice" true true; GRestart].

Lemma governance_invariant_witness :
  let env := plain_gov_env in
  let g := (run_gov "n" two_ops).1 in
  admittedNodes g = {["bob"]} ∧
  (Forall payload_kept two_ops → VerifyChain g = true) ∧
  ratifications_linked "" (ratifications g) = true ∧
  zget (openByProp g) "alice" = open_of "alice" (proposalList g) ∧
  open_of "alice" (proposalList g) ≤ govMaxOpenPerProposer ∧
  NoDup (vote_key <$> ratifications g) ∧
  (∀ r, r ∈ ratifications g → ∃ p, p ∈ proposalList g ∧ ID p = ProposalID r) ∧
  (admittedNodes g, allowedModels g) = rebuildEffect (proposalList g) (∅, ∅).
Proof.
  intros env g. split; [apply (bool_decide_unpack _); vm_compute; reflexivity|].
  apply (governance_invariant (H := env) "n" two_ops "alice"). cbn. lia.
Defined.

(** (A defect.) A proposal without a payload is hashed with the empty text and
    read back with [null], so after a restart the ledger no longer verifies. *)
Example restart_breaks_the_chain :
  let env := plain_gov_env in
  let ops := [GPropose 0 "alice" "param_change" "a change" "" true] in
  (VerifyChain (run_gov "n" ops).1, VerifyChain (run_gov "n" (ops ++ [GRestart])).1) = (true, false).
Proof. vm_compute. reflexivity. Qed.

Lemma governance_save_load_witness :
  let env := plain_gov_env in
  let g := (run_gov "n" two_ops).1 in
  let snap := {| s_Proposals := proposalList g; s_Ratifications := ratifications g;
    s_LastPHash := lastPHash g; s_LastRHash := lastRHash g; s_Seq := proposalSeq g |} in
  let g' := load (Some snap) (empty_gov "n") in
  Forall2 restored (proposalList g) (proposalList g') ∧ ratifications g' = ratifications g ∧
  proposalIndex g' = proposalIndex g ∧ proposalSeq g' = proposalSeq g ∧
  lastPHash g' = lastPHash g ∧ lastRHash g' = lastRHash g ∧
  zget (openByProp g') "alice" = zget (openByProp g) "alice" ∧
  ("alice" ∈ default ∅ (ratIndex g' !! "gov-n-1") ↔ "alice" ∈ default ∅ (ratIndex g !! "gov-n-1")) ∧
  (kept g → proposalList g' = proposalList g ∧ admittedNodes g' = admittedNodes g ∧
            allowedModels g' = allowedModels g).
Proof.
  intros env g snap. apply (governance_save_load (H := env) "n" two_ops snap "alice" "gov-n-1" "alice").
  - cbn. lia.
  - vm_compute. reflexivity.
Defined.


Lemma ineligible_votes_ratify_witness :
  let env := plain_gov_env in
  let id := gov_id "n" 1 in
  let g := approve_all 0 (Some ["a"; "b"; "c"]) id ["x"; "y"]
             (Propose 0 "mallory" "admit_node" "t" "p" (empty_gov "n")).2 in
  status_of id g = Some "ratified" ∧
  (∀ r, r ∈ ratifications g → NodeID r ∉ ["a"; "b"; "c"]).
Proof.
  intros env.
  apply (ineligible_votes_ratify (H := env) "n" 0 "mallory" "admit_node" "t" "p" ["a"; "b"; "c"] ["x"; "y"]).
  - done.
  - done.
  - apply (bool_decide_unpack _). reflexivity.
  - apply (bool_decide_unpack _). reflexivity.
  - intros o Ho. assert (Forall (λ o, o ∉ ["a"; "b"; "c"]) ["x"; "y"]) as Hall
      by (apply (bool_decide_unpack _); reflexivity).
    rewrite Forall_forall in Hall. by apply Hall.
  - vm_compute. reflexivity.
  - vm_compute. reflexivity.
Defined.

(** Two proposals, the first of which is deleted. *)
Definition two_proposals : list gov_op :=
  [GPropose 0 "alice" "admit_node" "admit bob" "bob" true;
   GPropose 1 "alice" "allow_model" "allow m" "m" true].

Lemma deletion_undetected_witness :
  let env := plain_gov_env in
  let g := (run_gov "n" two_proposals).1 in
  let ps := drop 1 (proposalList g) in
  let forged := {| selfID := selfID g; proposalList := relink "" ps;
    proposalIndex := proposalIndex g; ratifications := ratifications g; ratIndex := ratIndex g;
    openByProp := openByProp g; proposalSeq := proposalSeq g; lastPHash := lastPHash g;
    lastRHash := lastRHash g; admittedNodes := admittedNodes g;
    allowedModels := allowedModels g |} in
  VerifyChain forged = true ∧
  Hash <$> proposalList forged = Hash <$> ps ∧
  (last ps = last (proposalList g) →
   end_hash "" (proposalList forged) = end_hash "" (proposalList g)).
Proof.
  intros env g ps. apply (deletion_undetected g ps).
  - vm_compute. reflexivity.
  - apply sublist_drop.
Defined.
