(* ===== verification/Tickets.v ===== *)
(** * Usage tickets (ticket.go)

    [TicketStore] remembers the fingerprints of the usage tickets it has
    countersigned to detect double spending, and which of them a seed has
    notarized.  Random ids, signatures and the clock are arguments; the HTTP
    handlers are modelled from the decoded body to the status code. *)

From S2P Require Import Prelude GoTime Sha256.

Record UsageTicket := {
  ID : string; RequestID : string; RequestorID : string; ProviderID : string; ModelID : string;
  Amount : Z; Timestamp : string; ReqSig : string; ProvSig : string; Fingerprint : string }.

Record TicketStore := {
  seen : gmap string Time; tickets : gmap string UsageTicket; notarized : gset string }.

Definition initTicketStore : TicketStore := {| seen := ∅; tickets := ∅; notarized := ∅ |}.

(** This node, when it has an identity: [NodeID] and [SignJSON]. *)
Record Node := { nodeID : string; SignJSON : UsageTicket → string }.

Definition with_sigs (t : UsageTicket) (rs ps fp : string) : UsageTicket := {|
  ID := ID t; RequestID := RequestID t; RequestorID := RequestorID t; ProviderID := ProviderID t;
  ModelID := ModelID t; Amount := Amount t; Timestamp := Timestamp t; ReqSig := rs; ProvSig := ps;
  Fingerprint := fp |}.

(** ["%s:%s:%s:%s:%d:%s"] *)
Definition TicketFingerprint (t : UsageTicket) : string :=
  sha256_hex (RequestID t +:+ ":" +:+ RequestorID t +:+ ":" +:+ ProviderID t +:+ ":" +:+
              ModelID t +:+ ":" +:+ dec (Amount t) +:+ ":" +:+ Timestamp t).

(** A ticket whose timestamp parses and is before the cutoff. *)
Definition ticket_expired (cutoff : Time) (t : UsageTicket) : bool :=
  match parse_rfc3339 (Timestamp t) with Some at_ => before at_ cutoff | None => false end.

Definition fingerprint_expired (cutoff : Time) (ts : TicketStore) (fp : string) : bool :=
  match seen ts !! fp with Some at_ => before at_ cutoff | None => false end.

Definition Cleanup (now maxAge : Z) (ts : TicketStore) : TicketStore :=
  let cutoff := now - maxAge in
  {| seen := filter (λ kv, before kv.2 cutoff = false) (seen ts);
     tickets := filter (λ kv, ticket_expired cutoff kv.2 = false) (tickets ts);
     notarized := filter (λ fp, fingerprint_expired cutoff ts fp = false) (notarized ts) |}.

Definition IssueTicket (node : option Node) (now : Time) (random : string)
    (requestID requestorID providerID modelID : string) (amount : Z) : UsageTicket :=
  let t0 := {| ID := "tkt-" +:+ random; RequestID := requestID; RequestorID := requestorID;
               ProviderID := providerID; ModelID := modelID; Amount := amount;
               Timestamp := fmt_rfc3339 UTC now; ReqSig := ""; ProvSig := ""; Fingerprint := "" |} in
  let t := with_sigs t0 "" "" (TicketFingerprint t0) in
  match node with
  | Some n => if bool_decide (requestorID = nodeID n)
              then with_sigs t (SignJSON n t) "" (Fingerprint t) else t
  | None => t
  end.

(** The outcome of [Countersign]: the message of the rejection slices the first
    16 bytes of the fingerprint, which panics on a shorter one. *)
Inductive signed := Signed (t : UsageTicket) | Rejected | Panic.

Definition Countersign (node : option Node) (now : Time) (t : UsageTicket) (ts : TicketStore)
    : signed * TicketStore :=
  match seen ts !! Fingerprint t with
  | Some _ => ((if (String.length (Fingerprint t) <? 16)%nat then Panic else Rejected), ts)
  | None =>
      let t' := match node with
                | Some n => if bool_decide (ProviderID t = nodeID n)
                            then with_sigs t (ReqSig t) (SignJSON n t) (Fingerprint t) else t
                | None => t
                end in
      (Signed t', {| seen := <[Fingerprint t := now]> (seen ts);
                     tickets := <[ID t := t']> (tickets ts); notarized := notarized ts |})
  end.

Definition IsDoubleSpend (fp : string) (ts : TicketStore) : bool :=
  match seen ts !! fp with Some _ => true | None => false end.

Definition MarkNotarized (fp : string) (ts : TicketStore) : TicketStore :=
  {| seen := seen ts; tickets := tickets ts; notarized := {[fp]} ∪ notarized ts |}.

Definition IsNotarized (fp : string) (ts : TicketStore) : bool := bool_decide (fp ∈ notarized ts).

Definition GetPendingNotarization (ts : TicketStore) : list UsageTicket :=
  filter (λ t, Fingerprint t ∉ notarized ts) (map_to_list (tickets ts)).*2.

(** [NotarizeBatch] given the seed's answer to the pending tickets: the status
    code, or no response. *)
Definition NotarizeBatch (seed : list UsageTicket → option Z) (ts : TicketStore)
    : res Z * TicketStore :=
  let pending := GetPendingNotarization ts in
  if bool_decide (pending = []) then (Ok 0, ts)
  else match seed pending with
       | None => (Err "notarize request failed", ts)
       | Some code =>
           if negb (code =? 200) then (Err "notarize returned status", ts)
           else (Ok (Z.of_nat (length pending)),
                 foldl (λ s t, MarkNotarized (Fingerprint t) s) ts pending)
       end.

(** The status code of [handleTicketSubmit]; 500 is a recovered panic. *)
Definition handleTicketSubmit (node : option Node) (now : Time) (t : UsageTicket)
    (ts : TicketStore) : Z * TicketStore :=
  let t := if bool_decide (Fingerprint t = "")
           then with_sigs t (ReqSig t) (ProvSig t) (TicketFingerprint t) else t in
  if IsDoubleSpend (Fingerprint t) ts then (409, ts)
  else match Countersign node now t ts with
       | (Signed _, ts') => (200, ts')
       | (Rejected, ts') => (409, ts')
       | (Panic, ts') => (500, ts')
       end.

Definition notarize_one (node : option Node) (now : Time) (st : Z * TicketStore)
    (x : option UsageTicket) : Z * TicketStore :=
  let '(count, ts) := st in
  match x with
  | None => st
  | Some t =>
      if bool_decide (Fingerprint t = "") then st
      else if IsDoubleSpend (Fingerprint t) ts then st
      else match Countersign node now t ts with
           | (Signed _, ts') => (count +! 1, MarkNotarized (Fingerprint t) ts')
           | (_, ts') => (count, ts')
           end
  end.

Definition handleNotarize (node : option Node) (now : Time) (body : list (option UsageTicket))
    (ts : TicketStore) : Z * TicketStore := foldl (notarize_one node now) (0, ts) body.

(** ** Anti-collusion statistics *)

(** Per provider: tickets, doubly signed tickets, tokens of the latter. *)
Definition provider_step (m : gmap string (Z * Z * Z)) (t : UsageTicket) : gmap string (Z * Z * Z) :=
  let '(total, success, amount) := default (0, 0, 0) (m !! ProviderID t) in
  <[ProviderID t :=
      if negb (bool_decide (ReqSig t = "")) && negb (bool_decide (ProvSig t = ""))
      then (total +! 1, success +! 1, amount +! Amount t) else (total +! 1, success, amount)]> m.

Definition half : float64 := fdiv (float_of_int 1) (float_of_int 2).
Definition one_and_half : float64 := fdiv (float_of_int 3) (float_of_int 2).

(** A value further than half the average away from it. *)
Definition deviates (v avg : Z) : bool :=
  let d := fdiv (float_of_int v) (float_of_int avg) in fltb d half || fltb one_and_half d.

Definition AntiCollusionCheck (ts : list UsageTicket) : Z * gset string :=
  if bool_decide (ts = []) then (0, ∅)
  else
    let stats := foldl provider_step ∅ ts in
    let l := (map_to_list stats).*2 in
    let providers := Z.of_nat (size stats) in
    let avgSuccess := if 0 <? providers then Z.quot (wsum ((λ s, s.1.2) <$> l)) providers else 0 in
    let avgAmount := if 0 <? providers then Z.quot (wsum ((λ s, s.2) <$> l)) providers else 0 in
    let flagged := dom (filter (λ kv : string * (Z * Z * Z),
      ((0 <? avgSuccess) && deviates kv.2.1.2 avgSuccess)
      || ((0 <? avgAmount) && (0 <? kv.2.2) && deviates kv.2.2 avgAmount) = true) stats) in
    (Z.of_nat (size flagged), flagged).

(** ** Double spending *)
Inductive ticket_op :=
  | TSubmit (now : Time) (t : UsageTicket)
  | TNotarize (now : Time) (body : list (option UsageTicket))
  | TCleanup (now : Time)
  | TBatch (seed : list UsageTicket → option Z).

Section store.
Context (node : option Node).

Definition run_ticket_op (ts : TicketStore) (o : ticket_op) : TicketStore :=
  match o with
  | TSubmit now t => (handleTicketSubmit node now t ts).2
  | TNotarize now body => (handleNotarize node now body ts).2
  | TCleanup now => Cleanup now (24 * hour) ts
  | TBatch seed => (NotarizeBatch seed ts).2
  end.

Definition run_tickets (ops : list ticket_op) (ts : TicketStore) : TicketStore :=
  foldl run_ticket_op ts ops.

(** Cleanups of the operations happen within a day of [t0]. *)
Definition within_day (t0 : Time) (o : ticket_op) : Prop :=
  match o with TCleanup now => now ≤ t0 + 24 * hour | _ => True end.

Lemma countersign_seen now t ts fp at_ :
  seen ts !! fp = Some at_ → seen (Countersign node now t ts).2 !! fp = Some at_.
Proof.
  intros Hs. unfold Countersign. destruct (seen ts !! Fingerprint t) eqn:E; [done|]. cbn.
  rewrite lookup_insert_ne; [done|]. intros E2. congruence.
Qed.

Lemma notarize_seen now body ts n fp at_ :
  seen ts !! fp = Some at_ → seen (foldl (notarize_one node now) (n, ts) body).2 !! fp = Some at_.
Proof.
  revert n ts. induction body as [|x body IH]; intros n ts Hs; [done|]. cbn [foldl notarize_one].
  destruct x as [t|]; [|by apply IH]. case_bool_decide; [by apply IH|].
  destruct (IsDoubleSpend _ _); [by apply IH|].
  pose proof (countersign_seen now t ts fp at_ Hs) as Hc.
  destruct (Countersign node now t ts) as [[] ts']; by apply IH.
Qed.

Lemma batch_seen l ts fp :
  seen (foldl (λ s t, MarkNotarized (Fingerprint t) s) ts l) !! fp = seen ts !! fp.
Proof. revert ts. induction l as [|t l IH]; intros ts; [done|]. cbn. by rewrite IH. Qed.

Lemma run_ticket_op_seen t0 o ts fp at_ :
  within_day t0 o → t0 ≤ at_ → seen ts !! fp = Some at_ →
  seen (run_ticket_op ts o) !! fp = Some at_.
Proof.
  intros Hw Hle Hs. destruct o as [now t|now body|now|seed]; cbn [run_ticket_op within_day] in *.
  - unfold handleTicketSubmit. set (t' := if bool_decide _ then _ else t).
    destruct (IsDoubleSpend _ _); [done|].
    pose proof (countersign_seen now t' ts fp at_ Hs) as Hc.
    by destruct (Countersign node now t' ts) as [[] ts'].
  - by apply notarize_seen.
  - unfold Cleanup. cbn. apply map_lookup_filter_Some. split; [done|].
    unfold before. apply Z.ltb_ge. cbn. lia.
  - unfold NotarizeBatch. repeat case_match; try done. cbn. by rewrite batch_seen.
Qed.

Lemma run_tickets_seen t0 ops ts fp at_ :
  Forall (within_day t0) ops → t0 ≤ at_ → seen ts !! fp = Some at_ →
  seen (run_tickets ops ts) !! fp = Some at_.
Proof.
  intros Hall Hle. revert ts. induction Hall as [|o ops Ho Hall IH]; intros ts Hs; [done|].
  apply IH. by eapply run_ticket_op_seen.
Qed.

(** C9. A fingerprint is spent once per day: after a submission accepted at
    [t0], whatever tickets are submitted, notarized or batched next and
    whichever cleanups run within the following 24 hours, every submission
    with the same fingerprint is answered 409, uses nothing, and never makes
    the store panic. *)
Theorem no_double_spend_within_a_day t0 t ops now t' ts :
  let '(code, ts1) := handleTicketSubmit node t0 t ts in
  code = 200 → Forall (within_day t0) ops →
  let fp := if bool_decide (Fingerprint t = "") then TicketFingerprint t else Fingerprint t in
  Fingerprint t' = fp →
  handleTicketSubmit node now t' (run_tickets ops ts1) = (409, run_tickets ops ts1).
Proof.
  destruct (handleTicketSubmit node t0 t ts) as [code ts1] eqn:Hsub. intros -> Hall fp Hfp.
  unfold handleTicketSubmit in Hsub.
  set (t1 := if bool_decide (Fingerprint t = "") then _ else t) in Hsub.
  assert (Fingerprint t1 = fp) as H1 by (unfold t1, fp; by destruct (bool_decide _)).
  assert (fp ≠ "") as Hne.
  { unfold fp. case_bool_decide; [apply sha256_hex_not_nil|done]. }
  destruct (IsDoubleSpend (Fingerprint t1) ts) eqn:Hd; [done|].
  unfold Countersign in Hsub. unfold IsDoubleSpend in Hd.
  destruct (seen ts !! Fingerprint t1) eqn:Hs; [done|]. injection Hsub as <-.
  unfold handleTicketSubmit. rewrite bool_decide_false by congruence.
  unfold IsDoubleSpend. rewrite (run_tickets_seen t0 ops _ (Fingerprint t') t0); [done|done|lia|].
  cbn. by rewrite Hfp, <- H1, lookup_insert_eq.
Qed.

(** (A defect.) The fingerprint of a submitted ticket is taken from the
    client and never recomputed, so one usage can be spent twice: the ticket
    as issued and a copy with any other unseen fingerprint are both accepted,
    although [TicketFingerprint] identifies them. *)
Theorem fingerprint_not_recomputed now now' t f ts :
  f ≠ "" → f ≠ TicketFingerprint t → seen ts !! TicketFingerprint t = None → seen ts !! f = None →
  let t1 := with_sigs t (ReqSig t) (ProvSig t) (TicketFingerprint t) in
  let t2 := with_sigs t (ReqSig t) (ProvSig t) f in
  let '(code1, ts1) := handleTicketSubmit node now t1 ts in
  let '(code2, _) := handleTicketSubmit node now' t2 ts1 in
  code1 = 200 ∧ code2 = 200 ∧ TicketFingerprint t1 = TicketFingerprint t2 ∧ Amount t1 = Amount t2.
Proof.
  intros Hf Hne Hs1 Hs2 t1 t2. unfold handleTicketSubmit.
  rewrite !bool_decide_false by (done || apply sha256_hex_not_nil).
  unfold IsDoubleSpend, Countersign. cbn [Fingerprint t1 t2 with_sigs]. rewrite Hs1. cbn [seen].
  by rewrite lookup_insert_ne, Hs2 by done.
Qed.
End store.

Definition sample_ticket : UsageTicket := {|
  ID := "tkt-1"; RequestID := "r"; RequestorID := "a"; ProviderID := "b"; ModelID := "m";
  Amount := 7; Timestamp := "2026-08-09T01:02:03Z"; ReqSig := ""; ProvSig := "";
  Fingerprint := "f1" |}.

Lemma no_double_spend_within_a_day_witness :
  let ts1 := (handleTicketSubmit None 0 sample_ticket initTicketStore).2 in
  handleTicketSubmit None 9 sample_ticket (run_tickets None [TCleanup 5] ts1)
  = (409, run_tickets None [TCleanup 5] ts1).
Proof.
  refine (no_double_spend_within_a_day None 0 sample_ticket [TCleanup 5] 9 sample_ticket
            initTicketStore eq_refl _ eq_refl).
  repeat constructor; cbn; unfold hour, minute, second; lia.
Defined.

Lemma fingerprint_not_recomputed_witness :
  let t1 := with_sigs sample_ticket "" "" (TicketFingerprint sample_ticket) in
  let t2 := with_sigs sample_ticket "" "" "f2" in
  let '(code1, ts1) := handleTicketSubmit None 0 t1 initTicketStore in
  let '(code2, _) := handleTicketSubmit None 1 t2 ts1 in
  code1 = 200 ∧ code2 = 200 ∧ TicketFingerprint t1 = TicketFingerprint t2 ∧ Amount t1 = Amount t2.
Proof.
  apply (fingerprint_not_recomputed None 0 1 sample_ticket "f2" initTicketStore).
  - done.
  - intros H. pose proof (sha256_hex_length
      ("r" +:+ ":" +:+ "a" +:+ ":" +:+ "b" +:+ ":" +:+ "m" +:+ ":" +:+ dec 7 +:+ ":" +:+ "2026-08-09T01:02:03Z"))
      as L. unfold TicketFingerprint in H. cbn [RequestID RequestorID ProviderID ModelID Amount Timestamp
      sample_ticket] in H. rewrite <- H in L. discriminate L.
  - reflexivity.
  - reflexivity.
Defined.
