(* ===== verification/Dht.v ===== *)
(** * The Kademlia routing table (dht_kademlia.go)

    [DHT] keeps at most twenty entries per XOR-distance range around the node's
    own 256-bit id and a store of records with a time to live.  An id is its 32
    bytes; [value] is the number they write in big-endian. *)

From S2P Require Import Prelude GoTime Bytes Sha256.

Definition dhtK : nat := 20.
Definition dhtBuckets : nat := 256.
Definition dhtRecordTTL : Z := 48 * hour.

Abbreviation DHTNodeID := (list Z).

Record DHTEntry := { NodeID : DHTNodeID; Addresses : list string; LastSeen : Time }.

Record DHTRecord := { Key : string; Value : string; Publisher : DHTNodeID; ExpiresAt : Time }.

Record DHT := { self : DHTNodeID; buckets : list (list DHTEntry); records : gmap string DHTRecord }.

Definition NewDHT (selfID : string) : DHT :=
  {| self := sum256 selfID; buckets := replicate dhtBuckets []; records := ∅ |}.

Definition SelfID (d : DHT) : string := hex (self d).

Definition XORDistance (a b : DHTNodeID) : DHTNodeID := zip_with Z.lxor a b.

(** The highest set bit of a byte, tested from bit 7 down. *)
Fixpoint top_bit (n : nat) (b : Z) : Z :=
  match n with
  | O => 0
  | S n' => if Z.land b (Z.shiftl 1 (Z.of_nat n')) =? 0 then top_bit n' b else Z.of_nat n'
  end.

(** The loop over the bytes; [(31-i)*8] is eight times the bytes that follow. *)
Fixpoint bucketIndex (dist : DHTNodeID) : Z :=
  match dist with
  | [] => 0
  | b :: l => if b =? 0 then bucketIndex l else Z.of_nat (length l) * 8 + top_bit 8 b
  end.

Definition bucket_of (d : DHT) (id : DHTNodeID) : nat :=
  Z.to_nat (bucketIndex (XORDistance (self d) id)).

Definition set_bucket (d : DHT) (i : nat) (b : list DHTEntry) : DHT :=
  {| self := self d; buckets := <[i := b]> (buckets d); records := records d |}.

Definition seen_at (now : Time) (e : DHTEntry) : DHTEntry :=
  {| NodeID := NodeID e; Addresses := Addresses e; LastSeen := now |}.

(** Replace the first entry with the id, if any. *)
Fixpoint replace_entry (e : DHTEntry) (l : list DHTEntry) : option (list DHTEntry) :=
  match l with
  | [] => None
  | x :: l' => if bool_decide (NodeID x = NodeID e) then Some (e :: l')
               else (x ::.) <$> replace_entry e l'
  end.

Definition AddNode (now : Time) (entry : DHTEntry) (d : DHT) : DHT :=
  let idx := bucket_of d (NodeID entry) in
  let bucket := default [] (buckets d !! idx) in
  match replace_entry (seen_at now entry) bucket with
  | Some bucket' => set_bucket d idx bucket'
  | None => if (length bucket <? dhtK)%nat
            then set_bucket d idx (bucket ++ [seen_at now entry]) else d
  end.

(** Byte-wise comparison of two distances (always of the same length). *)
Fixpoint lex_ltb (a b : list Z) : bool :=
  match a, b with
  | x :: a', y :: b' => if x =? y then lex_ltb a' b' else x <? y
  | [], _ :: _ => true
  | _, [] => false
  end.

Definition closer (target : DHTNodeID) (x y : DHTEntry) : bool :=
  lex_ltb (XORDistance target (NodeID x)) (XORDistance target (NodeID y)).

Definition all_entries (d : DHT) : list DHTEntry := concat (buckets d).

Definition FindClosest (target : DHTNodeID) (count : nat) (d : DHT) : list DHTEntry :=
  let all := sort_slice (closer target) (all_entries d) in
  take (Nat.min count (length all)) all.

Definition Put (now : Time) (key value : string) (publisher : DHTNodeID) (d : DHT) : DHT :=
  {| self := self d; buckets := buckets d;
     records := <[key := {| Key := key; Value := value; Publisher := publisher;
                            ExpiresAt := now + dhtRecordTTL |}]> (records d) |}.

Definition Get (now : Time) (key : string) (d : DHT) : option DHTRecord :=
  match records d !! key with
  | Some r => if after now (ExpiresAt r) then None else Some r
  | None => None
  end.

(** The non-empty buckets with their sizes. *)
Definition BucketStats (d : DHT) : gmap nat Z :=
  list_to_map (filter (λ ib : nat * Z, 0 < ib.2)
                 (imap (λ i b, (i, Z.of_nat (length b))) (buckets d))).

Definition TotalNodes (d : DHT) : Z := Z.of_nat (length (all_entries d)).

Definition ExpireRecords (now : Time) (d : DHT) : Z * DHT :=
  let live := filter (λ kr, after now (ExpiresAt kr.2) = false) (records d) in
  (Z.of_nat (size (records d)) - Z.of_nat (size live),
   {| self := self d; buckets := buckets d; records := live |}).

Definition StaleEntries (now maxAge : Z) (d : DHT) : list DHTEntry :=
  sort_slice (λ a b, before (LastSeen a) (LastSeen b))
    (filter (λ e, before (LastSeen e) (now - maxAge) = true) (all_entries d)).

Fixpoint remove_entry (id : DHTNodeID) (l : list DHTEntry) : option (list DHTEntry) :=
  match l with
  | [] => None
  | x :: l' => if bool_decide (NodeID x = id) then Some l' else (x ::.) <$> remove_entry id l'
  end.

Definition RemoveNode (id : DHTNodeID) (d : DHT) : bool * DHT :=
  let idx := bucket_of d id in
  match remove_entry id (default [] (buckets d !! idx)) with
  | Some bucket' => (true, set_bucket d idx bucket')
  | None => (false, d)
  end.

(** [hex.DecodeString] *)
Definition hex_value (c : ascii) : option Z :=
  let n := Z.of_N (Ascii.N_of_ascii c) in
  if (48 <=? n) && (n <=? 57) then Some (n - 48)
  else if (97 <=? n) && (n <=? 102) then Some (n - 87)
  else if (65 <=? n) && (n <=? 70) then Some (n - 55) else None.

Fixpoint unhex (s : string) : option (list Z) :=
  match s with
  | EmptyString => Some []
  | String a (String b s') =>
      x ← hex_value a; y ← hex_value b; l ← unhex s'; Some (16 * x + y :: l)
  | String _ EmptyString => None
  end.

Definition StringToDHTID (s : string) : res DHTNodeID :=
  match unhex s with
  | None => Err "invalid hex"
  | Some b => if (length b =? 32)%nat then Ok b else Err "expected 32 bytes"
  end.

(** ** Ids as numbers *)
Definition is_byte (b : Z) : Prop := 0 ≤ b < 256.
Definition valid_id (id : DHTNodeID) : Prop := length id = 32%nat ∧ Forall is_byte id.

Fixpoint value (l : list Z) : Z :=
  match l with [] => 0 | b :: l' => b * 256 ^ Z.of_nat (length l') + value l' end.

Lemma value_bounds l : Forall is_byte l → 0 ≤ value l < 256 ^ Z.of_nat (length l).
Proof.
  induction 1 as [|b l Hb Hl IH]; [simpl; lia|]. cbn [value length]. unfold is_byte in Hb.
  rewrite Nat2Z.inj_succ, Z.pow_succ_r by lia. nia.
Qed.

Lemma top_bit_log2 b : is_byte b → b ≠ 0 → top_bit 8 b = Z.log2 b.
Proof.
  intros Hb Hn. assert (∀ x, x ∈ seqZ 1 255 → top_bit 8 x = Z.log2 x) as Hall.
  { apply Forall_forall. apply (bool_decide_unpack _). vm_compute. reflexivity. }
  apply Hall, elem_of_seqZ. unfold is_byte in Hb. lia.
Qed.

Lemma bucketIndex_log2 l : Forall is_byte l → bucketIndex l = Z.log2 (value l).
Proof.
  induction 1 as [|b l Hb Hl IH]; [done|]. cbn [bucketIndex value].
  destruct (Z.eqb_spec b 0) as [->|Hn]; [rewrite IH; f_equal; lia|].
  rewrite top_bit_log2 by done. pose proof (value_bounds l Hl) as Hv. unfold is_byte in Hb.
  symmetry. assert (256 ^ Z.of_nat (length l) = 2 ^ (Z.of_nat (length l) * 8)) as E.
  { rewrite Z.mul_comm, Z.pow_mul_r by lia. done. }
  rewrite E in *. set (k := Z.of_nat (length l) * 8) in *. assert (0 ≤ k) by lia.
  apply Z.log2_unique; [pose proof (Z.log2_nonneg b); lia|].
  destruct (Z.log2_spec b) as [L1 L2]; [lia|].
  rewrite <- Z.add_succ_r, !Z.pow_add_r by (pose proof (Z.log2_nonneg b); lia). nia.
Qed.

Lemma lex_ltb_value a b :
  length a = length b → Forall is_byte a → Forall is_byte b →
  lex_ltb a b = (value a <? value b).
Proof.
  intros Hl Ha Hb. revert b Hl Hb. induction Ha as [|x a Hx Ha IH]; intros [|y b] Hl Hb; try done.
  apply Forall_cons in Hb as [Hy Hb]. cbn [lex_ltb value]. injection Hl as Hl. rewrite Hl.
  pose proof (value_bounds a Ha) as V1. pose proof (value_bounds b Hb) as V2. rewrite Hl in V1.
  unfold is_byte in *. destruct (Z.eqb_spec x y) as [->|Hne].
  - rewrite IH by done. destruct (Z.ltb_spec (value a) (value b)); symmetry;
      [apply Z.ltb_lt|apply Z.ltb_ge]; lia.
  - destruct (Z.ltb_spec x y); symmetry; [apply Z.ltb_lt|apply Z.ltb_ge]; nia.
Qed.

Lemma lxor_byte x y : is_byte x → is_byte y → is_byte (Z.lxor x y).
Proof.
  unfold is_byte. intros Hx Hy. split; [by apply Z.lxor_nonneg; lia|].
  destruct (Z.eq_dec (Z.lxor x y) 0) as [->|Hn]; [lia|].
  assert (0 < Z.lxor x y) by (pose proof (proj2 (Z.lxor_nonneg x y) ltac:(lia)); lia).
  apply (Z.log2_lt_pow2 _ 8); [done|].
  pose proof (Z.log2_lxor x y ltac:(lia) ltac:(lia)).
  assert (∀ z, 0 ≤ z < 256 → Z.log2 z < 8) as Hz.
  { intros z Hz. destruct (decide (z = 0)) as [->|]; [done|]. apply Z.log2_lt_pow2; lia. }
  pose proof (Hz x Hx). pose proof (Hz y Hy). lia.
Qed.

Lemma XORDistance_valid a b : valid_id a → valid_id b → valid_id (XORDistance a b).
Proof.
  intros [La Ha] [Lb Hb]. split; [unfold XORDistance; rewrite length_zip_with; lia|].
  unfold XORDistance. clear La Lb. revert b Hb. induction Ha as [|x a Hx Ha IH]; intros [|y b] Hb;
    cbn; try constructor; apply Forall_cons in Hb as [Hy Hb]; [by apply lxor_byte|by apply IH].
Qed.

(** The distance of two ids as a number. *)
Definition distance (a b : DHTNodeID) : Z := value (XORDistance a b).

Lemma xor_cancel a b c : length a = length b → length b = length c →
  XORDistance a b = XORDistance a c → b = c.
Proof.
  revert b c. induction a as [|x a IH]; intros [|y b] [|z c] H1 H2; try done. cbn.
  intros [= Hx Hl]. injection H1 as H1. injection H2 as H2. f_equal; [|by apply IH].
  rewrite <- (Z.lxor_0_l y), <- (Z.lxor_nilpotent x), Z.lxor_assoc, Hx, <- Z.lxor_assoc,
    Z.lxor_nilpotent. apply Z.lxor_0_l.
Qed.

Lemma value_inj a b : length a = length b → Forall is_byte a → Forall is_byte b →
  value a = value b → a = b.
Proof.
  intros Hl Ha Hb. revert b Hl Hb. induction Ha as [|x a Hx Ha IH]; intros [|y b] Hl Hb; try done.
  apply Forall_cons in Hb as [Hy Hb]. cbn [value]. injection Hl as Hl. rewrite Hl.
  pose proof (value_bounds a Ha) as V1. pose proof (value_bounds b Hb) as V2. rewrite Hl in V1.
  unfold is_byte in *. intros E. assert (x = y) as -> by nia. f_equal. apply IH; [done|done|lia].
Qed.

Lemma distance_inj t a b : valid_id t → valid_id a → valid_id b →
  distance t a = distance t b → a = b.
Proof.
  intros Ht Ha Hb E. pose proof (XORDistance_valid t a Ht Ha) as [L1 V1].
  pose proof (XORDistance_valid t b Ht Hb) as [L2 V2]. destruct Ht as [Lt _], Ha as [La _], Hb as [Lb _].
  apply (xor_cancel t); [lia|lia|]. by apply value_inj; [lia| | |].
Qed.

(** ** The routing table invariant *)
Record dht_ok (d : DHT) : Prop := {
  ok_self : valid_id (self d);
  ok_len : length (buckets d) = dhtBuckets;
  ok_bucket : ∀ i b, buckets d !! i = Some b →
    (length b ≤ dhtK)%nat ∧ NoDup (NodeID <$> b) ∧
    ∀ e, e ∈ b → valid_id (NodeID e) ∧ bucket_of d (NodeID e) = i }.

Lemma bucket_of_log2 d id : valid_id (self d) → valid_id id →
  Z.of_nat (bucket_of d id) = Z.log2 (distance (self d) id) ∧ (bucket_of d id < dhtBuckets)%nat.
Proof.
  intros Hs Hid. pose proof (XORDistance_valid _ _ Hs Hid) as [Hl Hv]. unfold bucket_of, distance.
  rewrite bucketIndex_log2 by done. pose proof (Z.log2_nonneg (value (XORDistance (self d) id))).
  split; [lia|]. pose proof (value_bounds _ Hv) as Hb. rewrite Hl in Hb.
  change (256 ^ Z.of_nat 32) with (2 ^ 256) in Hb. unfold dhtBuckets.
  enough (Z.log2 (value (XORDistance (self d) id)) < 256) by lia.
  destruct (decide (value (XORDistance (self d) id) = 0)) as [->|]; [done|].
  apply Z.log2_lt_pow2; lia.
Qed.

Lemma replace_entry_spec e l l' :
  replace_entry e l = Some l' →
  NodeID <$> l' = NodeID <$> l ∧ e ∈ l' ∧ ∀ x, x ∈ l' → x = e ∨ x ∈ l.
Proof.
  revert l'. induction l as [|x l IH]; intros l'; [done|]. cbn [replace_entry].
  case_bool_decide as E.
  - intros [= <-]. split; [by rewrite !fmap_cons, E|]. set_solver.
  - intros (l2 & Hl2 & ->)%fmap_Some. apply IH in Hl2 as (H1 & H2 & H3).
    split; [by rewrite !fmap_cons, H1|]. set_solver.
Qed.

Lemma replace_entry_None e l : replace_entry e l = None → NodeID e ∉ NodeID <$> l.
Proof.
  induction l as [|x l IH]; [intros _; apply not_elem_of_nil|]. cbn [replace_entry].
  case_bool_decide as E; [done|]. intros Hn%fmap_None%IH. rewrite fmap_cons. set_solver.
Qed.

Lemma remove_entry_spec id l l' :
  NoDup (NodeID <$> l) → remove_entry id l = Some l' →
  id ∉ NodeID <$> l' ∧ (∀ x, x ∈ l' ↔ x ∈ l ∧ NodeID x ≠ id) ∧ NoDup (NodeID <$> l') ∧
  (length l' ≤ length l)%nat.
Proof.
  revert l'. induction l as [|x l IH]; intros l'; [done|]. cbn [remove_entry].
  rewrite fmap_cons. intros [Hx Hnd]%NoDup_cons. case_bool_decide as E.
  - intros [= <-]. subst id. split; [done|]. split; [|split; [done|simpl; lia]].
    intros y. rewrite elem_of_cons. split.
    + intros Hy. split; [by right|]. intros Ey. apply Hx. rewrite <- Ey. by apply list_elem_of_fmap_2.
    + intros [[->|?] ?]; done.
  - intros (l2 & Hl2 & ->)%fmap_Some. destruct (IH l2 Hnd Hl2) as (H1 & H2 & H3 & H4).
    split; [rewrite fmap_cons; set_solver|]. split; [|split; [|simpl; lia]].
    + intros y. rewrite !elem_of_cons, H2. naive_solver.
    + rewrite fmap_cons. apply NoDup_cons. split; [|done]. intros Hin. apply Hx.
      apply list_elem_of_fmap in Hin as (y & -> & Hy). apply H2 in Hy as [Hy _].
      by apply list_elem_of_fmap_2.
Qed.

Lemma remove_entry_None id l : remove_entry id l = None → id ∉ NodeID <$> l.
Proof.
  induction l as [|x l IH]; [intros _; apply not_elem_of_nil|]. cbn [remove_entry].
  case_bool_decide as E; [done|]. intros Hn%fmap_None%IH. rewrite fmap_cons. set_solver.
Qed.

Lemma dht_ok_set d i b :
  dht_ok d → (length b ≤ dhtK)%nat → NoDup (NodeID <$> b) →
  (∀ e, e ∈ b → valid_id (NodeID e) ∧ bucket_of d (NodeID e) = i) → dht_ok (set_bucket d i b).
Proof.
  intros [Hs Hl Hb] H1 H2 H3. split; [done|cbn; by rewrite length_insert|].
  intros j b'. cbn. intros [(<- & <- & _)|[_ Hj]]%list_lookup_insert_Some; [done|by apply Hb].
Qed.

Lemma dht_ok_bucket d id :
  dht_ok d → valid_id id →
  let b := default [] (buckets d !! bucket_of d id) in
  buckets d !! bucket_of d id = Some b.
Proof.
  intros [Hs Hl Hb] Hid b. destruct (bucket_of_log2 d id Hs Hid) as [_ Hlt].
  destruct (lookup_lt_is_Some_2 (buckets d) (bucket_of d id)) as [x Hx]; [lia|].
  subst b. by rewrite Hx.
Qed.

Lemma AddNode_ok now e d : dht_ok d → valid_id (NodeID e) → dht_ok (AddNode now e d).
Proof.
  intros Hok He. unfold AddNode. pose proof (dht_ok_bucket d (NodeID e) Hok He) as Hb.
  set (idx := bucket_of d (NodeID e)) in *. set (b := default [] (buckets d !! idx)) in *.
  destruct (ok_bucket d Hok _ _ Hb) as (H1 & H2 & H3).
  destruct (replace_entry (seen_at now e) b) as [b'|] eqn:Er.
  - apply replace_entry_spec in Er as (E1 & E2 & E3). apply dht_ok_set; [done| |by rewrite E1|].
    + apply (f_equal length) in E1. rewrite !length_fmap in E1. lia.
    + intros x Hx. apply E3 in Hx as [->|Hx]; [by split|by apply H3].
  - destruct (Nat.ltb_spec (length b) dhtK); [|done]. apply replace_entry_None in Er.
    apply dht_ok_set; [done| | |].
    + rewrite length_app. simpl. lia.
    + rewrite fmap_app. apply NoDup_app. split; [done|]. split; [|apply NoDup_singleton].
      intros x Hx ->%list_elem_of_singleton. done.
    + intros x [Hx| ->%list_elem_of_singleton]%elem_of_app; [by apply H3|by split].
Qed.

Lemma RemoveNode_ok id d : dht_ok d → valid_id id → dht_ok (RemoveNode id d).2.
Proof.
  intros Hok Hid. unfold RemoveNode. pose proof (dht_ok_bucket d id Hok Hid) as Hb.
  set (b := default [] _) in *. destruct (ok_bucket d Hok _ _ Hb) as (H1 & H2 & H3).
  destruct (remove_entry id b) as [b'|] eqn:Er; [|done].
  destruct (remove_entry_spec id b b' H2 Er) as (E1 & E2 & E3 & E4).
  apply dht_ok_set; [done|lia|done|]. intros x Hx. by apply H3, E2.
Qed.

Inductive dht_op :=
  | DAdd (now : Time) (e : DHTEntry) | DRemove (id : DHTNodeID)
  | DPut (now : Time) (key v : string) (publisher : DHTNodeID) | DExpire (now : Time).

Definition run_dht_op (d : DHT) (o : dht_op) : DHT :=
  match o with
  | DAdd now e => AddNode now e d
  | DRemove id => (RemoveNode id d).2
  | DPut now k v p => Put now k v p d
  | DExpire now => (ExpireRecords now d).2
  end.

Definition valid_op (o : dht_op) : Prop :=
  match o with DAdd _ e => valid_id (NodeID e) | DRemove id => valid_id id | _ => True end.

Lemma sum256_valid s : valid_id (sum256 s).
Proof.
  split; [apply sum256_length|]. unfold sum256. generalize (sha256_words (bytes_of s)).
  induction l as [|w l IH]; [constructor|]. rewrite bind_cons. apply Forall_app. split; [|done].
  generalize 4%nat. intros n. revert w. induction n as [|n IHn]; intros w; cbn; [constructor|].
  apply Forall_app. split; [apply IHn|]. constructor; [|constructor].
  unfold is_byte. apply Z.mod_pos_bound. lia.
Qed.

Lemma run_dht_ok ops s :
  Forall valid_op ops → dht_ok (foldl run_dht_op (NewDHT s) ops).
Proof.
  assert (dht_ok (NewDHT s)) as H0.
  { split; [apply sum256_valid|reflexivity|]. intros i b. cbn [NewDHT buckets].
    intros [-> _]%lookup_replicate. split; [simpl; lia|]. split; [apply NoDup_nil_2|].
    by intros e ?%not_elem_of_nil. }
  revert H0. generalize (NewDHT s). intros d Hd Hall. revert d Hd.
  induction Hall as [|o ops Ho Hall IH]; intros d Hd; [done|]. apply IH.
  destruct o; cbn [run_dht_op valid_op] in *.
  - by apply AddNode_ok.
  - by apply RemoveNode_ok.
  - by destruct Hd.
  - by destruct Hd.
Qed.

Lemma table_elem d e : dht_ok d → e ∈ all_entries d ↔
  ∃ i b, buckets d !! i = Some b ∧ e ∈ b.
Proof.
  intros _. unfold all_entries. rewrite list_elem_of_In, in_concat. split.
  - intros (b & [i Hi]%list_elem_of_In%list_elem_of_lookup & He%list_elem_of_In). eauto.
  - intros (i & b & Hi & He). exists b. rewrite <- !list_elem_of_In.
    split; [by eapply list_elem_of_lookup_2|done].
Qed.

(** An id occurs at most once in the table. *)
Lemma table_unique d x y : dht_ok d → x ∈ all_entries d → y ∈ all_entries d →
  NodeID x = NodeID y → x = y.
Proof.
  intros Hok (i & b & Hi & Hx)%table_elem (j & b' & Hj & Hy)%table_elem E; [|done..].
  destruct (ok_bucket d Hok _ _ Hi) as (_ & Hnd & Hbi), (ok_bucket d Hok _ _ Hj) as (_ & _ & Hbj).
  destruct (Hbi x Hx) as [_ Ei], (Hbj y Hy) as [_ Ej]. rewrite E, Ej in Ei. subst j.
  assert (b = b') as <- by congruence.
  apply list_elem_of_lookup in Hx as [k Hk], Hy as [l Hl].
  assert (k = l) as ->; [|congruence].
  eapply (NoDup_lookup (NodeID <$> b) k l (NodeID x)); [done| |];
    rewrite list_lookup_fmap, ?Hk, ?Hl; cbn; congruence.
Qed.

Lemma AddNode_elem now e d : dht_ok d → valid_id (NodeID e) →
  seen_at now e ∈ all_entries (AddNode now e d) ∨
  (AddNode now e d = d ∧ (∀ x, x ∈ all_entries d → NodeID x ≠ NodeID e) ∧
   length (default [] (buckets d !! bucket_of d (NodeID e))) = 20%nat).
Proof.
  intros Hok He.
  pose proof (AddNode_ok now e d Hok He) as Hok'.
  unfold AddNode in *. pose proof (dht_ok_bucket d (NodeID e) Hok He) as Hb.
  set (idx := bucket_of d (NodeID e)) in *. set (b := default [] (buckets d !! idx)) in *.
  assert (idx < length (buckets d))%nat as Hlt by (by eapply lookup_lt_Some).
  destruct (replace_entry (seen_at now e) b) as [b'|] eqn:Er.
  + left. apply replace_entry_spec in Er as (_ & Hin & _). apply table_elem; [done|].
    exists idx, b'. split; [|done]. cbn. by rewrite list_lookup_insert_eq.
  + destruct (Nat.ltb_spec (length b) dhtK).
    * left. apply table_elem; [done|]. exists idx, (b ++ [seen_at now e]). split; [|set_solver].
      cbn. by rewrite list_lookup_insert_eq.
    * right. split; [done|]. destruct (ok_bucket d Hok _ _ Hb) as (H1 & _ & _).
      split; [|unfold dhtK in *; lia]. apply replace_entry_None in Er.
      intros x (j & bj & Hj & Hx)%table_elem E; [|done].
      destruct (ok_bucket d Hok _ _ Hj) as (_ & _ & Hbj). destruct (Hbj x Hx) as [_ Ej].
      rewrite E in Ej. fold idx in Ej. subst j. assert (bj = b) as -> by congruence.
      apply Er. cbn. rewrite <- E. by apply list_elem_of_fmap_2.
Qed.

Lemma RemoveNode_elem id d : dht_ok d → valid_id id →
  ∀ x, x ∈ all_entries (RemoveNode id d).2 ↔ x ∈ all_entries d ∧ NodeID x ≠ id.
Proof.
  intros Hok Hid.
  pose proof (RemoveNode_ok id d Hok Hid) as Hok'. intros x.
  rewrite !table_elem by done. unfold RemoveNode in *.
  pose proof (dht_ok_bucket d id Hok Hid) as Hb. set (b := default [] _) in *.
  destruct (ok_bucket d Hok _ _ Hb) as (_ & Hnd & Hin).
  assert (∀ j bj y, buckets d !! j = Some bj → y ∈ bj → NodeID y = id → j = bucket_of d id) as Hj.
  { intros j bj y Hbj Hy <-. by destruct (ok_bucket d Hok _ _ Hbj) as (_ & _ & Hy'); destruct (Hy' y Hy). }
  destruct (remove_entry id b) as [b'|] eqn:Er; cbn.
  + destruct (remove_entry_spec id b b' Hnd Er) as (E1 & E2 & _). split.
    * intros (j & bj & Hlk & Hx). apply list_lookup_insert_Some in Hlk as [(<- & -> & _)|[Hne Hlk]].
      -- apply E2 in Hx as [Hx ?]. eauto.
      -- split; [eauto|]. intros Ex. by eapply Hne, eq_sym, Hj.
    * intros [(j & bj & Hlk & Hx) Hne]. destruct (decide (j = bucket_of d id)) as [->|Hjne].
      -- exists (bucket_of d id), b'. rewrite list_lookup_insert_eq by (by eapply lookup_lt_Some).
         split; [done|]. apply E2. split; [|done]. congruence.
      -- exists j, bj. by rewrite list_lookup_insert_ne.
  + split; [|tauto]. intros (j & bj & Hlk & Hx). split; [eauto|]. intros Ex.
    apply remove_entry_None in Er. assert (j = bucket_of d id) as -> by (by eapply Hj).
    apply Er. rewrite <- Ex. apply list_elem_of_fmap_2. congruence.
Qed.

(** C10. The routing table is a Kademlia table: after any adds, removals, puts
    and expirations from a fresh table, an entry is stored in the bucket whose
    index is the position of the highest bit of its XOR distance to this node,
    no bucket has more than twenty entries and no id occurs twice; adding a node
    makes it present and fresh unless its bucket is full of others, in which
    case nothing changes; removing an id leaves exactly the other entries. *)
Theorem dht_is_kademlia_table s ops now e id :
  Forall valid_op ops → valid_id (NodeID e) → valid_id id →
  let d := foldl run_dht_op (NewDHT s) ops in
  (∀ i b x, buckets d !! i = Some b → x ∈ b →
     (length b ≤ 20)%nat ∧ Z.of_nat i = Z.log2 (distance (self d) (NodeID x))) ∧
  (∀ x y, x ∈ all_entries d → y ∈ all_entries d → NodeID x = NodeID y → x = y) ∧
  (seen_at now e ∈ all_entries (AddNode now e d) ∨
   (AddNode now e d = d ∧ (∀ x, x ∈ all_entries d → NodeID x ≠ NodeID e) ∧
    length (default [] (buckets d !! bucket_of d (NodeID e))) = 20%nat)) ∧
  (∀ x, x ∈ all_entries (RemoveNode id d).2 ↔ x ∈ all_entries d ∧ NodeID x ≠ id).
Proof.
  intros Hops He Hid d. pose proof (run_dht_ok ops s Hops) as Hok. fold d in Hok.
  split; [|split; [|split]].
  - intros i b x Hb Hx. destruct (ok_bucket d Hok _ _ Hb) as (H1 & _ & H3). split; [done|].
    destruct (H3 x Hx) as [Hv <-]. by apply bucket_of_log2; [apply ok_self|].
  - intros x y. by apply table_unique.
  - by apply AddNode_elem.
  - by apply RemoveNode_elem.
Qed.

(** ** Nearest neighbours *)

(** ** Nearest neighbours *)
Lemma lex_ltb_trans a b c : lex_ltb a b = true → lex_ltb b c = true → lex_ltb a c = true.
Proof.
  revert b c. induction a as [|x a IH]; intros [|y b] [|z c]; try done. cbn.
  destruct (Z.eqb_spec x y), (Z.eqb_spec y z), (Z.eqb_spec x z); subst; rewrite ?Z.ltb_lt;
    try lia; eauto.
Qed.

Lemma lex_ltb_total a b : lex_ltb a b = false → lex_ltb b a = false → a = b.
Proof.
  revert b. induction a as [|x a IH]; intros [|y b]; try done. cbn.
  rewrite (Z.eqb_sym y x). destruct (Z.eqb_spec x y) as [->|]; rewrite ?Z.ltb_ge; [|lia].
  intros ??. f_equal. by apply IH.
Qed.

Lemma lex_ltb_irrefl a : lex_ltb a a = false.
Proof. induction a as [|x a IH]; [done|]. cbn. by rewrite Z.eqb_refl. Qed.

#[local] Instance closer_trans t : Transitive (le_of (closer t)).
Proof.
  intros a b c. unfold le_of, closer. intros H1 H2.
  destruct (lex_ltb (XORDistance t (NodeID c)) (XORDistance t (NodeID a))) eqn:E; [|done].
  destruct (lex_ltb (XORDistance t (NodeID b)) (XORDistance t (NodeID c))) eqn:E2.
  - by rewrite (lex_ltb_trans _ _ _ E2 E) in H1.
  - rewrite (lex_ltb_total _ _ E2 H2) in H1. congruence.
Qed.

#[local] Instance closer_total t : Total (le_of (closer t)).
Proof.
  intros a b. unfold le_of, closer.
  destruct (lex_ltb (XORDistance t (NodeID b)) (XORDistance t (NodeID a))) eqn:E; [right|by left].
  destruct (lex_ltb (XORDistance t (NodeID a)) (XORDistance t (NodeID b))) eqn:E2; [|done].
  by rewrite <- (lex_ltb_irrefl (XORDistance t (NodeID b))), (lex_ltb_trans _ _ _ E E2).
Qed.

Lemma closer_distance t x y : valid_id t → valid_id (NodeID x) → valid_id (NodeID y) →
  closer t x y = (distance t (NodeID x) <? distance t (NodeID y)).
Proof.
  intros Ht Hx Hy. pose proof (XORDistance_valid _ _ Ht Hx) as [L1 V1].
  pose proof (XORDistance_valid _ _ Ht Hy) as [L2 V2].
  unfold closer, distance. by apply lex_ltb_value; [lia| |].
Qed.

(** [FindClosest] returns the nearest neighbours: as many entries of the
    table as asked for (all of them if there are fewer), in increasing XOR
    distance to the target, and no entry left out is closer than one returned;
    a prefix of the result for a larger count is the result for a smaller one. *)
Theorem find_closest_nearest s ops target n m :
  Forall valid_op ops → valid_id target →
  let d := foldl run_dht_op (NewDHT s) ops in
  let r := FindClosest target n d in
  length r = Nat.min n (length (all_entries d)) ∧
  StronglySorted (λ x y, distance target (NodeID x) ≤ distance target (NodeID y)) r ∧
  (∀ x, x ∈ r → x ∈ all_entries d) ∧
  (∀ x y, x ∈ r → y ∈ all_entries d → y ∉ r →
     distance target (NodeID x) ≤ distance target (NodeID y)) ∧
  ((m ≤ n)%nat → FindClosest target m d = take m r).
Proof.
  intros Hops Ht d r. pose proof (run_dht_ok ops s Hops) as Hok. fold d in Hok.
  assert (∀ x, x ∈ all_entries d → valid_id (NodeID x)) as Hvalid.
  { intros x (i & b & Hb & Hx)%table_elem; [|done]. by destruct (ok_bucket d Hok _ _ Hb) as (_ & _ & H3);
      apply H3. }
  set (all := sort_slice (closer target) (all_entries d)).
  assert (all ≡ₚ all_entries d) as Hp by apply sort_slice_perm.
  assert (StronglySorted (λ x y, distance target (NodeID x) ≤ distance target (NodeID y)) all) as Hs.
  { pose proof (sort_slice_sorted (closer target) (all_entries d) _ _) as Hs. fold all in Hs.
    assert (∀ x, x ∈ all → valid_id (NodeID x)) as Hv by (intros x Hx; apply Hvalid; by rewrite <- Hp).
    clear Hp. induction Hs as [|x l Hl IH Hx]; constructor; [apply IH; intros; apply Hv; by right|].
    rewrite Forall_forall in *. intros y Hy. specialize (Hx y Hy). unfold le_of in Hx.
    rewrite closer_distance in Hx by (done || apply Hv; (left || by right)). by apply Z.ltb_ge in Hx. }
  assert (∀ k, FindClosest target k d = take k all) as Hf.
  { intros k. unfold FindClosest. fold all. destruct (Nat.min_spec k (length all)) as [[? ->]|[? ->]]; [done|].
    by rewrite !take_ge by lia. }
  unfold r. rewrite !Hf. split; [rewrite length_take, Hp; done|].
  rewrite <- (take_drop n all) in Hs. apply StronglySorted_app in Hs as (H12 & Hs1 & _).
  split; [done|]. split; [intros x Hx; rewrite <- Hp, <- (take_drop n all); apply elem_of_app; by left|]. split.
  - intros x y Hx Hy Hny. apply H12; [done|]. rewrite <- Hp, <- (take_drop n all) in Hy.
    apply elem_of_app in Hy as [?|?]; done.
  - intros Hle. rewrite take_take. by rewrite Nat.min_l.
Qed.

Definition dht_sample : list dht_op :=
  [DAdd 0 {| NodeID := sum256 "a"; Addresses := []; LastSeen := 0 |};
   DAdd 1 {| NodeID := sum256 "b"; Addresses := []; LastSeen := 0 |}].

Lemma find_closest_nearest_witness :
  let d := foldl run_dht_op (NewDHT "n") dht_sample in
  let r := FindClosest (sum256 "t") 1 d in
  length r = Nat.min 1 (length (all_entries d)) ∧
  StronglySorted (λ x y, distance (sum256 "t") (NodeID x) ≤ distance (sum256 "t") (NodeID y)) r ∧
  (∀ x, x ∈ r → x ∈ all_entries d) ∧
  (∀ x y, x ∈ r → y ∈ all_entries d → y ∉ r →
     distance (sum256 "t") (NodeID x) ≤ distance (sum256 "t") (NodeID y)) ∧
  ((0 ≤ 1)%nat → FindClosest (sum256 "t") 0 d = take 0 r).
Proof.
  apply (find_closest_nearest "n" dht_sample (sum256 "t") 1 0).
  - constructor; [apply sum256_valid|]. constructor; [apply sum256_valid|]. constructor.
  - apply sum256_valid.
Defined.

Lemma dht_is_kademlia_table_witness :
  let e := {| NodeID := sum256 "c"; Addresses := []; LastSeen := 0 |} in
  let id := sum256 "a" in
  let d := foldl run_dht_op (NewDHT "n") dht_sample in
  (∀ i b x, buckets d !! i = Some b → x ∈ b →
     (length b ≤ 20)%nat ∧ Z.of_nat i = Z.log2 (distance (self d) (NodeID x))) ∧
  (∀ x y, x ∈ all_entries d → y ∈ all_entries d → NodeID x = NodeID y → x = y) ∧
  (seen_at 2 e ∈ all_entries (AddNode 2 e d) ∨
   (AddNode 2 e d = d ∧ (∀ x, x ∈ all_entries d → NodeID x ≠ NodeID e) ∧
    length (default [] (buckets d !! bucket_of d (NodeID e))) = 20%nat)) ∧
  (∀ x, x ∈ all_entries (RemoveNode id d).2 ↔ x ∈ all_entries d ∧ NodeID x ≠ id).
Proof.
  intros e id.
  apply (dht_is_kademlia_table "n" dht_sample 2 e id).
  - constructor; [apply sum256_valid|]. constructor; [apply sum256_valid|]. constructor.
  - apply sum256_valid.
  - apply sum256_valid.
Defined.
