(* ===== verification/TrustPool.v ===== *)
(** * The federation's trust pool (federation.go)

    [FederationManager] keeps the pool of known nodes, merged from registries
    and gossip, with tombstones that make removals stick; nodes learned by gossip
    alone live in [localPeers], and every node learned is offered to the DHT.
    Saving the pool and the node registry are effects outside the model. *)

From S2P Require Import Prelude GoTime Sha256.
From S2P Require Dht.

Record SharedProvider := {
  sp_ProviderID : string; sp_Platform : string; sp_Models : list string; sp_Capacity : Z }.

Record NodeInfo := {
  NodeID : string; GitHubUser : string; GitHubID : Z; Endpoint : string; PubKey : string;
  SharedModels : list string; SharedProviders : list SharedProvider; JoinedAt : string;
  LastSeen : string; Status : string; SeedNode : bool; Reputation : Z; ni_Version : string;
  InviteBy : string; TokenBudget : Z; TokenUsed : Z; Addresses : list string }.

Record NodeTombstone := { t_NodeID : string; RemovedAt : string; Reason : string }.

Record TrustPool := {
  Version : Z; UpdatedAt : string; Registry : string; Nodes : list NodeInfo;
  Tombstones : list NodeTombstone }.

Record FederationManager := {
  enabled : bool; trustPool : TrustPool; localPeers : gmap string NodeInfo; dht : option Dht.DHT }.

Definition with_key (k : string) (n : NodeInfo) : NodeInfo := {|
  NodeID := NodeID n; GitHubUser := GitHubUser n; GitHubID := GitHubID n; Endpoint := Endpoint n;
  PubKey := k; SharedModels := SharedModels n; SharedProviders := SharedProviders n;
  JoinedAt := JoinedAt n; LastSeen := LastSeen n; Status := Status n; SeedNode := SeedNode n;
  Reputation := Reputation n; ni_Version := ni_Version n; InviteBy := InviteBy n;
  TokenBudget := TokenBudget n; TokenUsed := TokenUsed n; Addresses := Addresses n |}.

Definition with_status (st seen : string) (n : NodeInfo) : NodeInfo := {|
  NodeID := NodeID n; GitHubUser := GitHubUser n; GitHubID := GitHubID n; Endpoint := Endpoint n;
  PubKey := PubKey n; SharedModels := SharedModels n; SharedProviders := SharedProviders n;
  JoinedAt := JoinedAt n; LastSeen := seen; Status := st; SeedNode := SeedNode n;
  Reputation := Reputation n; ni_Version := ni_Version n; InviteBy := InviteBy n;
  TokenBudget := TokenBudget n; TokenUsed := TokenUsed n; Addresses := Addresses n |}.

Definition str_or (a b : string) : string := if bool_decide (a = "") then b else a.
Definition list_or {A} (a b : list A) : list A := match a with [] => b | _ => a end.

(** [dst]'s empty identity fields are filled from [src]. *)
Definition fillNodeInfoRich (dst src : NodeInfo) : NodeInfo := {|
  NodeID := NodeID dst; GitHubUser := str_or (GitHubUser dst) (GitHubUser src);
  GitHubID := if GitHubID dst =? 0 then GitHubID src else GitHubID dst;
  Endpoint := str_or (Endpoint dst) (Endpoint src); PubKey := str_or (PubKey dst) (PubKey src);
  SharedModels := list_or (SharedModels dst) (SharedModels src);
  SharedProviders := list_or (SharedProviders dst) (SharedProviders src);
  JoinedAt := str_or (JoinedAt dst) (JoinedAt src); LastSeen := LastSeen dst;
  Status := Status dst; SeedNode := SeedNode dst; Reputation := Reputation dst;
  ni_Version := ni_Version dst; InviteBy := str_or (InviteBy dst) (InviteBy src);
  TokenBudget := TokenBudget dst; TokenUsed := TokenUsed dst;
  Addresses := list_or (Addresses dst) (Addresses src) |}.

(** The addresses to try for a node (gossip.go). *)
Definition peerEndpoints (peer : NodeInfo) : list string :=
  match Addresses peer with
  | [] => if negb (bool_decide (Endpoint peer = "")) then [Endpoint peer] else []
  | l => l
  end.

Definition nodeInfoFresher (a b : string) : bool :=
  match parse_rfc3339 a, parse_rfc3339 b with
  | Some ta, Some tb => after ta tb
  | _, _ => false
  end.

Definition trustTombstoneMaxEntries : nat := 256.
Definition trustTombstoneTTL : Z := 30 * (24 * hour).

Definition tombstoneSuppresses (lastSeen removedAt : string) : bool :=
  if bool_decide (removedAt = "") then true
  else if bool_decide (lastSeen = "") then true
  else match parse_rfc3339 lastSeen, parse_rfc3339 removedAt with
       | Some tl, Some tr => negb (after tl tr)
       | _, _ => true
       end.

Definition tombstoneNewer (a b : string) : bool :=
  match parse_rfc3339 a, parse_rfc3339 b with
  | None, _ => false
  | Some _, None => true
  | Some ta, Some tb => after ta tb
  end.

(** The newest marker per node. *)
Definition tomb_step (m : gmap string NodeTombstone) (t : NodeTombstone)
    : gmap string NodeTombstone :=
  if bool_decide (t_NodeID t = "") then m
  else match m !! t_NodeID t with
       | None => <[t_NodeID t := t]> m
       | Some cur => if tombstoneNewer (RemovedAt t) (RemovedAt cur)
                     then <[t_NodeID t := t]> m else m
       end.

Definition tomb_expired (now : Time) (t : NodeTombstone) : bool :=
  match parse_rfc3339 (RemovedAt t) with
  | Some rt => trustTombstoneTTL <? now - rt
  | None => false
  end.

Definition unionTombstones (now : Time) (a b : list NodeTombstone) : list NodeTombstone :=
  let out := filter (λ t, tomb_expired now t = false)
               (map_to_list (foldl tomb_step ∅ (a ++ b))).*2 in
  if (trustTombstoneMaxEntries <? length out)%nat
  then drop (length out - trustTombstoneMaxEntries)
         (sort_slice (λ x y, str_ltb (RemovedAt x) (RemovedAt y)) out)
  else out.

(** *** Merging two pools *)

(** Loop state: [out] and [seen]. *)
Definition dedupe_step (st : list NodeInfo * gmap string nat) (n : NodeInfo)
    : list NodeInfo * gmap string nat :=
  let '(out, seen) := st in
  if bool_decide (NodeID n = "") then st
  else match seen !! NodeID n with
       | Some idx =>
           match out !! idx with
           | Some o => if nodeInfoFresher (LastSeen n) (LastSeen o)
                       then (<[idx := fillNodeInfoRich n o]> out, seen) else st
           | None => st
           end
       | None => (out ++ [n], <[NodeID n := length out]> seen)
       end.

Definition dedupeNodeInfos (nodes : list NodeInfo) : list NodeInfo :=
  (foldl dedupe_step ([], ∅) nodes).1.

(** Loop state of the merge: the merged nodes and tombstones, [incomingIdx]. *)
Record merging := {
  m_Nodes : list NodeInfo; m_Tombstones : list NodeTombstone; incomingIdx : gmap string nat }.

Definition suppressed (n : NodeInfo) (tombs : list NodeTombstone) : bool :=
  match find_key t_NodeID (NodeID n) tombs with
  | Some t => tombstoneSuppresses (LastSeen n) (RemovedAt t)
  | None => false
  end.

(** [clearTombstone]: drop the first marker of the node that the record beats. *)
Fixpoint clearTombstone (id lastSeen : string) (l : list NodeTombstone) : list NodeTombstone :=
  match l with
  | [] => []
  | t :: l' => if bool_decide (t_NodeID t = id) && negb (tombstoneSuppresses lastSeen (RemovedAt t))
               then l' else t :: clearTombstone id lastSeen l'
  end.

Definition merge_incoming (st : merging) (n : NodeInfo) : merging :=
  if bool_decide (NodeID n = "") then st
  else if suppressed n (m_Tombstones st) then st
  else {| m_Nodes := m_Nodes st ++ [n];
          m_Tombstones := clearTombstone (NodeID n) (LastSeen n) (m_Tombstones st);
          incomingIdx := <[NodeID n := length (m_Nodes st)]> (incomingIdx st) |}.

(** The record kept when both sides have the node. *)
Definition reconcile (ln n : NodeInfo) : NodeInfo :=
  if nodeInfoFresher (LastSeen ln) (LastSeen n) then fillNodeInfoRich ln n
  else if bool_decide (PubKey ln = "") then n else with_key (PubKey ln) n.

Definition merge_local (st : merging) (ln : NodeInfo) : merging :=
  if bool_decide (NodeID ln = "") then st
  else if suppressed ln (m_Tombstones st) then st
  else
    let tombs := clearTombstone (NodeID ln) (LastSeen ln) (m_Tombstones st) in
    match incomingIdx st !! NodeID ln with
    | Some idx =>
        {| m_Nodes := match m_Nodes st !! idx with
                      | Some n => <[idx := reconcile ln n]> (m_Nodes st)
                      | None => m_Nodes st end;
           m_Tombstones := tombs; incomingIdx := incomingIdx st |}
    | None =>
        {| m_Nodes := if bool_decide (Status ln = "active") then m_Nodes st ++ [ln] else m_Nodes st;
           m_Tombstones := tombs; incomingIdx := incomingIdx st |}
    end.

Definition mergeTrustPools (now : Time) (local incoming : TrustPool) : TrustPool :=
  let st0 := {| m_Nodes := [];
                m_Tombstones := unionTombstones now (Tombstones local) (Tombstones incoming);
                incomingIdx := ∅ |} in
  let st1 := foldl merge_incoming st0 (dedupeNodeInfos (Nodes incoming)) in
  let st2 := foldl merge_local st1 (Nodes local) in
  {| Version := Version incoming; UpdatedAt := UpdatedAt incoming; Registry := Registry incoming;
     Nodes := m_Nodes st2; Tombstones := m_Tombstones st2 |}.

(** *** The manager *)
Definition dhtAddNodeLocked (now : Time) (info : NodeInfo) (d : option Dht.DHT) : option Dht.DHT :=
  match d with
  | None => None
  | Some t =>
      if bool_decide (NodeID info = "") then d
      else Some (Dht.AddNode now
             {| Dht.NodeID := sum256 (NodeID info); Dht.Addresses := [str_or (Endpoint info) "unknown"];
                Dht.LastSeen := time_zero |} t)
  end.

Definition set_pool (f : FederationManager) (p : TrustPool) (lp : gmap string NodeInfo)
    (d : option Dht.DHT) : FederationManager :=
  {| enabled := enabled f; trustPool := p; localPeers := lp; dht := d |}.

Definition set_nodes (p : TrustPool) (ns : list NodeInfo) (ts : list NodeTombstone) : TrustPool :=
  {| Version := Version p; UpdatedAt := UpdatedAt p; Registry := Registry p; Nodes := ns;
     Tombstones := ts |}.

Definition UpdateTrustPool (now : Time) (pool : TrustPool) (f : FederationManager)
    : FederationManager :=
  if Version pool <=? Version (trustPool f) then f
  else
    let merged := mergeTrustPools now (trustPool f) pool in
    set_pool f merged (localPeers f)
      (foldl (λ d n, dhtAddNodeLocked now n d) (dht f) (Nodes merged)).

Definition GetNode (id : string) (f : FederationManager) : option NodeInfo :=
  match find_key NodeID id (Nodes (trustPool f)) with
  | Some n => Some n
  | None => localPeers f !! id
  end.

Definition GetActiveNodes (f : FederationManager) : list NodeInfo :=
  filter (λ n, Status n = "active") (Nodes (trustPool f))
  ++ filter (λ n, Status n = "active") (map_to_list (localPeers f)).*2.

(** The gate of a record against the tombstones: rejected, or the remaining ones. *)
Fixpoint gate (id lastSeen : string) (l : list NodeTombstone) : option (list NodeTombstone) :=
  match l with
  | [] => Some []
  | t :: l' =>
      if bool_decide (t_NodeID t = id)
      then (if tombstoneSuppresses lastSeen (RemovedAt t) then None else Some l')
      else cons t <$> gate id lastSeen l'
  end.

(** Replace the first node with the id. *)
Fixpoint replace_node (id : string) (g : NodeInfo → NodeInfo) (l : list NodeInfo)
    : option (list NodeInfo) :=
  match l with
  | [] => None
  | n :: l' => if bool_decide (NodeID n = id) then Some (g n :: l')
               else cons n <$> replace_node id g l'
  end.

Definition UpdateNodeInfo (now : Time) (info : NodeInfo) (f : FederationManager)
    : FederationManager :=
  match gate (NodeID info) (LastSeen info) (Tombstones (trustPool f)) with
  | None => f
  | Some ts =>
      let d := dhtAddNodeLocked now info (dht f) in
      match replace_node (NodeID info) (λ _, info) (Nodes (trustPool f)) with
      | Some ns => set_pool f (set_nodes (trustPool f) ns ts) (localPeers f) d
      | None => set_pool f (set_nodes (trustPool f) (Nodes (trustPool f)) ts)
                  (<[NodeID info := info]> (localPeers f)) d
      end
  end.

(** The existing marker of the node is refreshed, or a new one is added. *)
Fixpoint mark_removed (id at_ reason : string) (l : list NodeTombstone) : list NodeTombstone :=
  match l with
  | [] => [{| t_NodeID := id; RemovedAt := at_; Reason := reason |}]
  | t :: l' => if bool_decide (t_NodeID t = id)
               then {| t_NodeID := id; RemovedAt := at_; Reason := str_or reason (Reason t) |} :: l'
               else t :: mark_removed id at_ reason l'
  end.

Definition removeNodeReason (now : Time) (id reason : string) (f : FederationManager)
    : FederationManager :=
  if bool_decide (id = "") then f
  else
    let at_ := fmt_rfc3339 UTC now in
    let p := trustPool f in
    let ts := unionTombstones now (mark_removed id at_ reason (Tombstones p)) [] in
    set_pool f
      {| Version := Version p +! 1; UpdatedAt := at_; Registry := Registry p;
         Nodes := filter (λ n, NodeID n ≠ id) (Nodes p); Tombstones := ts |}
      (delete id (localPeers f))
      ((λ t, (Dht.RemoveNode (sum256 id) t).2) <$> dht f).

Definition RemoveNode (now : Time) (id : string) (f : FederationManager) : FederationManager :=
  removeNodeReason now id "operator removal" f.

(** [upsertKnownNodeLocked] on the pool. *)
Definition upsertKnownNodeLocked (now : Time) (node : NodeInfo) (p : TrustPool) : TrustPool :=
  let n := with_status "active" (str_or (LastSeen node) (fmt_rfc3339 UTC now)) node in
  match gate (NodeID n) (LastSeen n) (Tombstones p) with
  | None => p
  | Some ts =>
      let keep old := let m := fillNodeInfoRich n old in
                      if bool_decide (PubKey old = "") then m else with_key (PubKey old) m in
      set_nodes p (default (Nodes p ++ [n]) (replace_node (NodeID n) keep (Nodes p))) ts
  end.

Definition AddKnownNodes (now : Time) (nodes : list NodeInfo) (f : FederationManager)
    : FederationManager :=
  if negb (enabled f) then f
  else
    let valid := filter (λ n, NodeID n ≠ "") nodes in
    if bool_decide (valid = []) then f
    else
      let p := foldl (λ p n, upsertKnownNodeLocked now n p) (trustPool f) valid in
      set_pool f
        {| Version := Version p +! 1; UpdatedAt := fmt_rfc3339 UTC now; Registry := Registry p;
           Nodes := Nodes p; Tombstones := Tombstones p |} (localPeers f) (dht f).
