(* ===== verification/TrustMerge.v ===== *)
(** * Merging trust pools, node by node (federation.go)

    [mergeTrustPools] loops over two lists while editing a third one, an index map
    and the tombstones. Here it is shown to be a decision taken node by node, and
    the consequences are drawn: keys stay, removals stick. *)

From S2P Require Import Prelude GoTime Sha256.
From S2P Require Dht.
From S2P Require Import TrustPool.

(** ** The specification *)

(** One more record of the same node, from the same side. *)
Definition absorb (cur : option NodeInfo) (n : NodeInfo) : option NodeInfo :=
  match cur with
  | None => Some n
  | Some o => if nodeInfoFresher (LastSeen n) (LastSeen o) then Some (fillNodeInfoRich n o) else cur
  end.

(** One more removal marker of the same node. *)
Definition newest (cur : option NodeTombstone) (t : NodeTombstone) : option NodeTombstone :=
  match cur with
  | None => Some t
  | Some o => if tombstoneNewer (RemovedAt t) (RemovedAt o) then Some t else cur
  end.

(** A record that is not beaten by the marker. *)
Definition standing (t : option NodeTombstone) (n : option NodeInfo) : option NodeInfo :=
  n ← n; match t with
         | Some t => if tombstoneSuppresses (LastSeen n) (RemovedAt t) then None else Some n
         | None => Some n
         end.

Definition unless {A} (o : option A) {B} (t : option B) : option B :=
  match o with Some _ => None | None => t end.

(** The decision for one node: the marker [t], the incoming record [i], the local one [l]. *)
Definition node_decision (t : option NodeTombstone) (i l : option NodeInfo)
    : option NodeInfo * option NodeTombstone :=
  let i' := standing t i in
  let t' := unless i' t in
  let l' := standing t' l in
  (match l', i' with
   | Some ln, Some n => Some (reconcile ln n)
   | Some ln, None => if bool_decide (Status ln = "active") then Some ln else None
   | None, i' => i'
   end, unless l' t').

(** ** Deduplication *)
Lemma fill_id n o : NodeID (fillNodeInfoRich n o) = NodeID n.
Proof. done. Qed.

Lemma reconcile_id ln n : NodeID ln = NodeID n → NodeID (reconcile ln n) = NodeID n.
Proof. intros E. unfold reconcile. repeat case_match; [done | done | done]. Qed.

Definition indexed (out : list NodeInfo) (seen : gmap string nat) : Prop :=
  NoDup (NodeID <$> out) ∧ "" ∉ NodeID <$> out ∧
  (∀ id i, seen !! id = Some i → ∃ o, out !! i = Some o ∧ NodeID o = id).

Definition complete_index (out : list NodeInfo) (seen : gmap string nat) : Prop :=
  ∀ id, id ∈ NodeID <$> out → is_Some (seen !! id).

Lemma nodup_snoc {A} (key : A → string) l x :
  NoDup (key <$> l) → key x ∉ key <$> l → NoDup (key <$> (l ++ [x])).
Proof.
  intros Hl Hx. rewrite fmap_app, NoDup_app. cbn.
  split_and!; [done | set_solver | apply NoDup_singleton].
Qed.

Lemma indexed_snoc out seen n :
  indexed out seen → NodeID n ≠ "" → NodeID n ∉ NodeID <$> out →
  indexed (out ++ [n]) (<[NodeID n := length out]> seen).
Proof.
  intros (H1 & H2 & H3) Hne Hn. split_and!.
  - by apply nodup_snoc.
  - rewrite fmap_app. set_solver.
  - intros id i. rewrite lookup_insert_Some. intros [[<- <-]|[_ Hi]].
    + exists n. split; [by rewrite lookup_app_r, Nat.sub_diag by lia | done].
    + destruct (H3 _ _ Hi) as (o & Ho & <-). exists o. split; [by apply lookup_app_l_Some | done].
Qed.

Lemma indexed_insert out seen i n o :
  indexed out seen → out !! i = Some o → NodeID n = NodeID o → indexed (<[i := n]> out) seen.
Proof.
  intros (H1 & H2 & H3) Hi E. unfold indexed. rewrite (keys_insert NodeID out i o n) by done.
  split_and!; [done|done|]. intros id j Hj. destruct (H3 _ _ Hj) as (x & Hx & <-).
  destruct (decide (i = j)) as [->|N].
  - exists n. rewrite list_lookup_insert_eq by (by eapply lookup_lt_Some). split; [done|]. congruence.
  - exists x. by rewrite list_lookup_insert_ne.
Qed.

Lemma dedupe_step_inv s n :
  (indexed s.1 s.2 ∧ complete_index s.1 s.2) →
  (indexed (dedupe_step s n).1 (dedupe_step s n).2 ∧
   complete_index (dedupe_step s n).1 (dedupe_step s n).2) ∧
  ∀ id, find_key NodeID id (dedupe_step s n).1 =
        if decide (NodeID n = id)
        then (if decide (id = "") then find_key NodeID id s.1
              else absorb (find_key NodeID id s.1) n)
        else find_key NodeID id s.1.
Proof.
  destruct s as [out seen]. cbn [fst snd]. intros [Hix Hc]. unfold dedupe_step.
  destruct (bool_decide_reflect (NodeID n = "")) as [E|Hne].
  { split; [done|]. intros id. destruct (decide _) as [<-|]; [by rewrite decide_True | done]. }
  destruct (seen !! NodeID n) as [i|] eqn:Hi.
  - destruct (proj2 (proj2 Hix) _ _ Hi) as (o & Ho & Eo). rewrite Ho.
    assert (Hf : find_key NodeID (NodeID n) out = Some o)
      by (rewrite <- Eo; by eapply find_key_nodup; [apply Hix|]).
    destruct (nodeInfoFresher _ _) eqn:Hfr; cbn [fst snd].
    + split.
      { split; [by eapply indexed_insert|]. unfold complete_index.
        by rewrite (keys_insert NodeID out i o). }
      intros id. rewrite (find_key_insert NodeID out i o) by (done || apply Hix).
      destruct (decide (NodeID n = id)) as [<-|N].
      * rewrite decide_True, decide_False by congruence. rewrite Hf. cbn. by rewrite Hfr.
      * by rewrite decide_False by congruence.
    + split; [done|]. intros id. destruct (decide _) as [<-|]; [|done].
      rewrite decide_False by done. rewrite Hf. cbn. by rewrite Hfr.
  - assert (Hn : NodeID n ∉ NodeID <$> out).
    { intros Hin. destruct (Hc _ Hin). congruence. }
    cbn [fst snd]. split; [split; [by apply indexed_snoc|]|].
    + intros id. rewrite fmap_app, elem_of_app, lookup_insert_is_Some. cbn.
      rewrite list_elem_of_singleton. intros [Hin| ->]; [|by left].
      destruct (decide (NodeID n = id)); [by left | right; split; [done | by apply Hc]].
    + intros id. rewrite find_key_app, find_key_cons.
      destruct (decide (NodeID n = id)) as [<-|N].
      * rewrite decide_False by done. apply find_key_None in Hn. by rewrite Hn.
      * by destruct (find_key NodeID id out).
Qed.

Lemma dedupe_spec ns :
  indexed (dedupeNodeInfos ns) (foldl dedupe_step ([], ∅) ns).2 ∧
  ∀ id, id ≠ "" →
    find_key NodeID id (dedupeNodeInfos ns) = foldl absorb None (filter (λ n, NodeID n = id) ns).
Proof.
  unfold dedupeNodeInfos.
  set (view := λ id (s : list NodeInfo * gmap string nat),
                 if decide (id = "") then None else find_key NodeID id s.1).
  set (upd := λ (v : option NodeInfo) (n : NodeInfo),
                if decide (NodeID n = "") then v else absorb v n).
  edestruct (λ a b, foldl_view NodeID dedupe_step view upd
      (λ s _, indexed s.1 s.2 ∧ complete_index s.1 s.2) a b ns ([], ∅)) as (( H1 & _) & H2).
  - intros s x l Hs. by apply dedupe_step_inv.
  - intros s x l id Hs. subst view upd. cbn beta.
    destruct (dedupe_step_inv s x Hs) as [_ ->].
    destruct (decide (NodeID x = id)) as [E|N]; [|done].
    rewrite E. by destruct (decide (id = "")).
  - cbn. split.
    + split_and!; [apply NoDup_nil_2 | apply not_elem_of_nil |].
      intros id i. by rewrite lookup_empty.
    + intros id Hid. by apply not_elem_of_nil in Hid.
  - split; [done|]. intros id Hid. specialize (H2 id). unfold view in H2 at 1.
    rewrite decide_False in H2 by done. rewrite H2. unfold view. rewrite decide_False by done.
    cbn. assert (Hf : Forall (λ n, NodeID n = id) (filter (λ n, NodeID n = id) ns)).
    { apply Forall_forall. intros x Hx%list_elem_of_filter. by destruct Hx. }
    clear H2. generalize (@None NodeInfo).
    induction (filter (λ n, NodeID n = id) ns) as [|x l IH]; intros v; [done|].
    apply Forall_cons in Hf as [Ex Hl]. cbn in Ex. cbn [foldl].
    replace (upd v x) with (absorb v x); [by apply IH|].
    unfold upd. destruct (decide (NodeID x = "")) as [E0|]; [congruence|done].
Qed.

(** ** Tombstones *)

Lemma list_elem_of_drop_weaken {A} (x : A) n l : x ∈ drop n l → x ∈ l.
Proof. intros H. rewrite <- (take_drop n l). apply elem_of_app. by right. Qed.

(** The newest marker of each node, before expiry and capping. *)
Definition newest_of (a b : list NodeTombstone) (id : string) : option NodeTombstone :=
  foldl newest None (filter (λ t, t_NodeID t = id) (a ++ b)).

Definition fits (a b : list NodeTombstone) : Prop :=
  (size (foldl tomb_step ∅ (a ++ b)) ≤ trustTombstoneMaxEntries)%nat.

Lemma tomb_step_lookup m t id :
  tomb_step m t !! id =
  if decide (t_NodeID t = id)
  then (if decide (id = "") then m !! id else newest (m !! id) t) else m !! id.
Proof.
  unfold tomb_step. destruct (bool_decide_reflect (t_NodeID t = "")) as [E|N].
  { destruct (decide (t_NodeID t = id)) as [<-|]; [by rewrite decide_True | done]. }
  destruct (decide (t_NodeID t = id)) as [<-|N'].
  - rewrite decide_False by done. destruct (m !! t_NodeID t) as [c|] eqn:E; cbn.
    + destruct (tombstoneNewer _ _); [by rewrite lookup_insert_eq | done].
    + by rewrite lookup_insert_eq.
  - destruct (m !! t_NodeID t) as [c|]; [destruct (tombstoneNewer _ _)|];
      by rewrite ?lookup_insert_ne.
Qed.

Lemma tombs_fold l id :
  id ≠ "" → foldl tomb_step ∅ l !! id = foldl newest None (filter (λ t, t_NodeID t = id) l).
Proof.
  intros Hid. replace (@None NodeTombstone) with ((∅ : gmap string NodeTombstone) !! id) by done.
  generalize (∅ : gmap string NodeTombstone).
  induction l as [|t l IH]; intros m; [done|]. cbn [foldl].
  rewrite IH, tomb_step_lookup, filter_cons.
  destruct (decide (t_NodeID t = id)); [by rewrite decide_False | done].
Qed.

Definition keyed (m : gmap string NodeTombstone) : Prop :=
  ∀ id t, m !! id = Some t → t_NodeID t = id ∧ id ≠ "".

Lemma tombs_keyed l : keyed (foldl tomb_step ∅ l).
Proof.
  assert (H : ∀ m, keyed m → keyed (foldl tomb_step m l)); [|apply H; by intros ??].
  induction l as [|t l IH]; intros m Hm; [done|]. cbn [foldl]. apply IH.
  intros id u. rewrite tomb_step_lookup.
  destruct (decide (t_NodeID t = id)) as [<-|]; [|apply Hm].
  destruct (decide (t_NodeID t = "")) as [|N]; [apply Hm|]. intros Hu.
  destruct (m !! t_NodeID t) as [c|] eqn:E; cbn in Hu; [|by simplify_eq].
  destruct (tombstoneNewer _ _); simplify_eq; [done | by apply Hm].
Qed.

Lemma keyed_list_nodup m : keyed m → NoDup (t_NodeID <$> (map_to_list m).*2).
Proof.
  intros Hm. replace (t_NodeID <$> (map_to_list m).*2) with ((map_to_list m).*1).
  { apply NoDup_fst_map_to_list. }
  rewrite <- list_fmap_compose. apply list_fmap_ext. intros i [k t] Hi.
  apply list_elem_of_lookup_2, elem_of_map_to_list in Hi. cbn. by destruct (Hm _ _ Hi).
Qed.

Lemma keyed_find m id : keyed m → find_key t_NodeID id (map_to_list m).*2 = m !! id.
Proof.
  intros Hm. destruct (m !! id) as [t|] eqn:E.
  - destruct (Hm _ _ E) as [<- _]. apply find_key_elem; [by apply keyed_list_nodup|].
    apply list_elem_of_fmap. exists (t_NodeID t, t). by rewrite elem_of_map_to_list.
  - apply find_key_None. intros Hin.
    apply list_elem_of_fmap in Hin as (t & -> & Ht).
    apply list_elem_of_fmap in Ht as ([k u] & -> & Hu). apply elem_of_map_to_list in Hu.
    cbn in *. destruct (Hm _ _ Hu) as [<- _]. congruence.
Qed.

Definition live (now : Time) (t : NodeTombstone) : option NodeTombstone :=
  if tomb_expired now t then None else Some t.

Lemma union_spec now a b :
  NoDup (t_NodeID <$> unionTombstones now a b) ∧
  (fits a b → ∀ id, id ≠ "" →
     find_key t_NodeID id (unionTombstones now a b) = newest_of a b id ≫= live now) ∧
  ∀ id t, find_key t_NodeID id (unionTombstones now a b) = Some t → tomb_expired now t = false.
Proof.
  unfold unionTombstones, newest_of, fits.
  pose proof (tombs_keyed (a ++ b)) as Hk. set (m := foldl tomb_step ∅ (a ++ b)) in *.
  assert (Hm : ∀ id, id ≠ "" →
    m !! id = foldl newest None (filter (λ t, t_NodeID t = id) (a ++ b)))
    by (intros; by apply tombs_fold).
  pose proof (keyed_list_nodup _ Hk) as Hnd.
  pose proof (keys_filter_nodup t_NodeID (λ t, tomb_expired now t = false) _ Hnd) as Hnf.
  assert (Hlen : (length (filter (λ t, tomb_expired now t = false) (map_to_list m).*2) ≤ size m)%nat).
  { etrans; [apply length_filter|]. by rewrite length_fmap, length_map_to_list. }
  set (out := filter _ _) in *.
  destruct (Nat.ltb_spec trustTombstoneMaxEntries (length out)) as [Hgt|Hle].
  - split_and!; [|lia|].
    + eapply sublist_NoDup; [|apply fmap_sublist, sublist_drop].
      by rewrite (sort_slice_perm _ out).
    + intros id t Ht. apply find_key_Some in Ht as [Ht _].
      apply list_elem_of_drop_weaken in Ht. rewrite (sort_slice_perm _ out) in Ht.
      by apply list_elem_of_filter in Ht as [? _].
  - split_and!; [done| |].
    + intros _ id Hid. unfold out. rewrite find_key_filter by done.
      rewrite keyed_find, <- Hm by done. unfold live. destruct (m !! id) as [t|]; [cbn|done].
      destruct (tomb_expired now t); done.
    + intros id t Ht. apply find_key_Some in Ht as [Ht _].
      by apply list_elem_of_filter in Ht as [? _].
Qed.

Lemma clear_sublist id ls l : clearTombstone id ls l `sublist_of` l.
Proof.
  induction l as [|t l IH]; cbn; [done|].
  destruct (_ && _); [apply sublist_cons, reflexivity | by apply sublist_skip].
Qed.

Lemma clear_find id ls l id' :
  NoDup (t_NodeID <$> l) →
  find_key t_NodeID id' (clearTombstone id ls l) =
  if decide (id = id')
  then t ← find_key t_NodeID id' l; if tombstoneSuppresses ls (RemovedAt t) then Some t else None
  else find_key t_NodeID id' l.
Proof.
  induction l as [|t l IH]; [by destruct (decide _)|].
  rewrite fmap_cons. intros [Ht Hl]%NoDup_cons. specialize (IH Hl). cbn [clearTombstone].
  rewrite find_key_cons. apply find_key_None in Ht.
  destruct (bool_decide_reflect (t_NodeID t = id)) as [<-|N]; cbn [andb].
  - destruct (tombstoneSuppresses _ _) eqn:E; cbn [negb]; rewrite ?find_key_cons, ?IH;
      destruct (decide (t_NodeID t = id')) as [<-|]; cbn; rewrite ?E; done.
  - rewrite find_key_cons, IH.
    destruct (decide (t_NodeID t = id')), (decide (id = id')); congruence.
Qed.

(** ** The two loops *)

Definition view (id : string) (st : merging) : option NodeInfo * option NodeTombstone * bool :=
  (find_key NodeID id (m_Nodes st), find_key t_NodeID id (m_Tombstones st),
   bool_decide (is_Some (incomingIdx st !! id))).

Definition beaten (t : option NodeTombstone) (n : NodeInfo) : bool :=
  match t with Some t => tombstoneSuppresses (LastSeen n) (RemovedAt t) | None => false end.

Definition see_incoming (v : option NodeInfo * option NodeTombstone * bool) (n : NodeInfo) :=
  let '(nd, t, b) := v in if beaten t n then v else (Some n, @None NodeTombstone, true).

Definition see_local (v : option NodeInfo * option NodeTombstone * bool) (ln : NodeInfo) :=
  let '(nd, t, b) := v in
  if beaten t ln then v
  else (if b then (λ n, reconcile ln n) <$> nd
        else if bool_decide (Status ln = "active") then Some ln else nd,
        @None NodeTombstone, b).

(** What both loops keep, [rest] being the records still to come. *)
Record merge_inv (rest : list NodeInfo) (st : merging) : Prop := {
  mi_tombs : NoDup (t_NodeID <$> m_Tombstones st);
  mi_index : indexed (m_Nodes st) (incomingIdx st);
  mi_rest : NoDup (NodeID <$> rest) }.

Lemma not_suppressed st n t :
  find_key t_NodeID (NodeID n) (m_Tombstones st) = t → suppressed n (m_Tombstones st) = beaten t n.
Proof. by intros <-. Qed.

Lemma cleared_view st n id :
  NoDup (t_NodeID <$> m_Tombstones st) → suppressed n (m_Tombstones st) = false →
  find_key t_NodeID id (clearTombstone (NodeID n) (LastSeen n) (m_Tombstones st)) =
  if decide (NodeID n = id) then None else find_key t_NodeID id (m_Tombstones st).
Proof.
  intros Hnd Hs. rewrite clear_find by done. destruct (decide _) as [<-|]; [|done].
  unfold suppressed in Hs. destruct (find_key _ _ _); cbn; [by rewrite Hs | done].
Qed.

Lemma cleared_nodup st n :
  NoDup (t_NodeID <$> m_Tombstones st) →
  NoDup (t_NodeID <$> clearTombstone (NodeID n) (LastSeen n) (m_Tombstones st)).
Proof. intros. eapply sublist_NoDup; [done | apply fmap_sublist, clear_sublist]. Qed.

Definition fresh_rest (rest : list NodeInfo) (st : merging) : Prop :=
  ∀ n, n ∈ rest → NodeID n ≠ "" ∧ NodeID n ∉ NodeID <$> m_Nodes st.

Definition indexed_rest (rest : list NodeInfo) (st : merging) : Prop :=
  ∀ n, n ∈ rest → NodeID n ∈ NodeID <$> m_Nodes st → is_Some (incomingIdx st !! NodeID n).

Lemma merge_incoming_inv st n rest :
  merge_inv (n :: rest) st ∧ fresh_rest (n :: rest) st ∧
    (∀ id, id ∈ NodeID <$> m_Nodes st → is_Some (incomingIdx st !! id)) →
  (merge_inv rest (merge_incoming st n) ∧ fresh_rest rest (merge_incoming st n) ∧
   (∀ id, id ∈ NodeID <$> m_Nodes (merge_incoming st n) →
      is_Some (incomingIdx (merge_incoming st n) !! id))) ∧
  ∀ id, view id (merge_incoming st n) =
        if decide (NodeID n = id) then see_incoming (view id st) n else view id st.
Proof.
  intros ([H1 H2 H3] & Hf & Hc). rewrite fmap_cons in H3. apply NoDup_cons in H3 as [Hn3 H3].
  destruct (Hf n ltac:(left)) as [Hne Hnin].
  assert (Hf' : fresh_rest rest st) by (intros m Hm; apply Hf; by right).
  unfold merge_incoming. rewrite bool_decide_eq_false_2 by done.
  destruct (suppressed n (m_Tombstones st)) eqn:Hs.
  - split; [by split_and!|]. intros id. destruct (decide _) as [<-|]; [|done].
    unfold view, see_incoming. rewrite (not_suppressed st n _ eq_refl) in Hs. by rewrite Hs.
  - split; [split_and!|].
    + split; cbn; [by apply cleared_nodup | by apply indexed_snoc | done].
    + intros m Hm. destruct (Hf' _ Hm) as [? Hm2]. split; [done|]. cbn.
      rewrite fmap_app, not_elem_of_app. split; [done|]. cbn. rewrite list_elem_of_singleton.
      intros E. apply Hn3. rewrite <- E. by apply list_elem_of_fmap_2.
    + intros id. cbn. rewrite fmap_app, elem_of_app, lookup_insert_is_Some. cbn.
      rewrite list_elem_of_singleton. intros [Hin| ->]; [|by left].
      destruct (decide (NodeID n = id)); [by left | right; split; [done | by apply Hc]].
    + intros id. unfold view. cbn. rewrite cleared_view, find_key_app, find_key_cons by done.
      apply find_key_None in Hnin.
      destruct (decide (NodeID n = id)) as [<-|N].
      * rewrite Hnin, lookup_insert_eq. unfold see_incoming.
        rewrite (not_suppressed st n _ eq_refl) in Hs. rewrite Hs. done.
      * rewrite lookup_insert_ne by done. by destruct (find_key NodeID id (m_Nodes st)).
Qed.

Lemma merge_local_inv st n rest :
  merge_inv (n :: rest) st ∧ indexed_rest (n :: rest) st →
  (merge_inv rest (merge_local st n) ∧ indexed_rest rest (merge_local st n)) ∧
  ∀ id, view id (merge_local st n) =
        if decide (NodeID n = id)
        then (if decide (id = "") then view id st else see_local (view id st) n) else view id st.
Proof.
  intros ([H1 H2 H3] & Hr). rewrite fmap_cons in H3. apply NoDup_cons in H3 as [Hn3 H3].
  pose proof (Hr n ltac:(left)) as Hrn.
  assert (Hr' : indexed_rest rest st) by (intros m Hm; apply Hr; by right).
  unfold merge_local. destruct (bool_decide_reflect (NodeID n = "")) as [E|Hne].
  { split; [by split|]. intros id. destruct (decide _) as [<-|]; [by rewrite decide_True|done]. }
  destruct (suppressed n (m_Tombstones st)) eqn:Hs.
  { split; [by split|]. intros id. destruct (decide _) as [<-|]; [|done].
    rewrite decide_False by done. unfold view, see_local.
    rewrite (not_suppressed st n _ eq_refl) in Hs. by rewrite Hs. }
  pose proof (not_suppressed st n _ eq_refl) as Hb. rewrite Hs in Hb.
  destruct (incomingIdx st !! NodeID n) as [i|] eqn:Hi.
  - destruct (proj2 (proj2 H2) _ _ Hi) as (o & Ho & Eo). rewrite Ho.
    pose proof (reconcile_id n o (eq_sym Eo)) as Er.
    split; [split|].
    + split; cbn; [by apply cleared_nodup | by eapply indexed_insert | done].
    + intros m Hm. cbn. rewrite (keys_insert NodeID _ i o) by done. by apply Hr'.
    + intros id. unfold view. cbn. rewrite cleared_view by done.
      rewrite (find_key_insert NodeID _ i o) by (done || apply H2). rewrite Eo.
      destruct (decide (NodeID n = id)) as [<-|N].
      * rewrite decide_True, decide_False by done. unfold see_local. rewrite <- Hb.
        rewrite bool_decide_eq_true_2 by (rewrite Hi; by eexists).
        rewrite <- Eo at 1. erewrite (find_key_nodup NodeID _ i o) by (done || apply H2). done.
      * by rewrite decide_False by congruence.
  - assert (Hnin : NodeID n ∉ NodeID <$> m_Nodes st).
    { intros Hin. destruct (Hrn Hin). congruence. }
    assert (Hidx : indexed (m_Nodes st ++ [n]) (incomingIdx st)).
    { pose proof (indexed_snoc _ _ n H2 Hne Hnin) as (K1 & K2 & K3). split_and!; [done|done|].
      intros id j Hj. apply K3. rewrite lookup_insert_ne by congruence. done. }
    split; [split|].
    + split; cbn; [by apply cleared_nodup | by destruct (bool_decide _) | done].
    + intros m Hm. cbn. destruct (bool_decide _); [|by apply Hr'].
      rewrite fmap_app, elem_of_app. cbn. rewrite list_elem_of_singleton.
      intros [Hin|E]; [by apply Hr'|]. exfalso. apply Hn3. rewrite <- E.
      by apply list_elem_of_fmap_2.
    + intros id. unfold view. cbn. rewrite cleared_view by done. apply find_key_None in Hnin.
      destruct (decide (NodeID n = id)) as [<-|N].
      * rewrite decide_False by done. unfold see_local. rewrite <- Hb, Hi.
        rewrite (bool_decide_eq_false_2 (is_Some None)) by apply is_Some_None.
        destruct (bool_decide (Status n = _)); [|done].
        rewrite find_key_app, Hnin, find_key_cons, decide_True; done.
      * destruct (bool_decide (Status n = _)); [|done].
        rewrite find_key_app, find_key_cons, decide_False by done.
        by destruct (find_key NodeID id (m_Nodes st)).
Qed.

(** ** The merge *)

Definition merge_start (now : Time) (local incoming : TrustPool) : merging := {|
  m_Nodes := []; m_Tombstones := unionTombstones now (Tombstones local) (Tombstones incoming);
  incomingIdx := ∅ |}.

Lemma decision_loops t i l :
  (foldl see_local
     (foldl see_incoming (None, t, false) (match i with Some n => [n] | None => [] end))
     (match l with Some n => [n] | None => [] end)).1 = node_decision t i l.
Proof.
  unfold node_decision.
  destruct t as [t|], i as [n|], l as [ln|]; cbn; try done; try (by destruct (bool_decide _)).
  - destruct (tombstoneSuppresses (LastSeen n) _); cbn; [|done].
    by destruct (tombstoneSuppresses (LastSeen ln) _).
  - by destruct (tombstoneSuppresses (LastSeen n) _).
  - destruct (tombstoneSuppresses (LastSeen ln) _); cbn; [done|]. by destruct (bool_decide _).
Qed.

Lemma merge_nodes now local incoming :
  NoDup (NodeID <$> Nodes local) →
  NoDup (NodeID <$> Nodes (mergeTrustPools now local incoming)) ∧
  "" ∉ NodeID <$> Nodes (mergeTrustPools now local incoming) ∧
  NoDup (t_NodeID <$> Tombstones (mergeTrustPools now local incoming)) ∧
  ∀ id, id ≠ "" →
    (find_key NodeID id (Nodes (mergeTrustPools now local incoming)),
     find_key t_NodeID id (Tombstones (mergeTrustPools now local incoming))) =
    node_decision
      (find_key t_NodeID id (unionTombstones now (Tombstones local) (Tombstones incoming)))
      (find_key NodeID id (dedupeNodeInfos (Nodes incoming)))
      (find_key NodeID id (Nodes local)).
Proof.
  intros Hl. destruct (dedupe_spec (Nodes incoming)) as [(Hd1 & Hd2 & _) _].
  set (st0 := merge_start now local incoming).
  set (ded := dedupeNodeInfos (Nodes incoming)) in *.
  edestruct (λ a b, foldl_view NodeID merge_incoming view see_incoming
    (λ st rest, merge_inv rest st ∧ fresh_rest rest st ∧
       ∀ id, id ∈ NodeID <$> m_Nodes st → is_Some (incomingIdx st !! id)) a b ded st0)
    as (([Ha1 Ha2 Ha3] & _ & Ha4) & Hav).
  { intros s x l Hs. by apply merge_incoming_inv. }
  { intros s x l id Hs. by apply (merge_incoming_inv s x l). }
  { split_and!.
    - split; [apply union_spec | | done]. split_and!; [apply NoDup_nil_2 | apply not_elem_of_nil |].
      intros id i. cbn. by rewrite lookup_empty.
    - intros n Hn. split; [|apply not_elem_of_nil].
      intros E. apply Hd2. rewrite <- E. by apply list_elem_of_fmap_2.
    - intros id Hid. by apply not_elem_of_nil in Hid. }
  set (st1 := foldl merge_incoming st0 ded) in *.
  edestruct (λ a b, foldl_view NodeID merge_local
      (λ id st, if decide (id = "") then (None, None, false) else view id st)
      (λ v n, if decide (NodeID n = "") then v else see_local v n)
      (λ st rest, merge_inv rest st ∧ indexed_rest rest st) a b (Nodes local) st1)
    as (([Hb1 Hb2 Hb3] & _) & Hbv).
  { intros s x l Hs. by apply merge_local_inv. }
  { intros s x l id Hs. cbn beta. destruct (merge_local_inv s x l Hs) as [_ ->].
    destruct (decide (NodeID x = id)) as [E|]; [|done].
    rewrite E. by destruct (decide (id = "")). }
  { split; [by split|]. intros n _ Hn. by apply Ha4. }
  change (mergeTrustPools now local incoming) with
    {| Version := Version incoming; UpdatedAt := UpdatedAt incoming; Registry := Registry incoming;
       Nodes := m_Nodes (foldl merge_local st1 (Nodes local));
       Tombstones := m_Tombstones (foldl merge_local st1 (Nodes local)) |}.
  cbn [Nodes Tombstones].
  set (st2 := foldl merge_local st1 (Nodes local)) in *.
  split_and!; [apply Hb2 | apply Hb2 | done |]. intros id Hid.
  specialize (Hav id). specialize (Hbv id). cbn beta in Hbv. rewrite !decide_False in Hbv by done.
  rewrite !filter_key_nodup in Hav, Hbv by done.
  assert (Hv0 : view id st0 =
    (None, find_key t_NodeID id (unionTombstones now (Tombstones local) (Tombstones incoming)), false)).
  { unfold view. cbn. by rewrite lookup_empty. }
  rewrite Hv0 in Hav. clear Hv0.
  rewrite <- decision_loops, <- Hav.
  destruct (find_key NodeID id (Nodes local)) as [ln|] eqn:El; cbn [foldl] in Hbv |- *.
  - apply find_key_Some in El as [_ El]. rewrite decide_False in Hbv by congruence.
    by rewrite <- Hbv.
  - by rewrite <- Hbv.
Qed.

(** ** Merging is one decision per node *)

(** C11. [mergeTrustPools], whose loops edit the merged list by index, an index map and
    the tombstones, decides node by node: the incoming records of a node are
    absorbed into one (the fresher wins, identity fields filled in), the newest
    unexpired removal marker of both sides is taken, an incoming record the marker
    does not beat clears it, the local record is then judged the same way, two
    surviving records are reconciled, and a local-only survivor is kept if active.
    No node appears twice, and the version is the incoming one. *)
Theorem merge_node_by_node now local incoming :
  NoDup (NodeID <$> Nodes local) → fits (Tombstones local) (Tombstones incoming) →
  let m := mergeTrustPools now local incoming in
  Version m = Version incoming ∧ NoDup (NodeID <$> Nodes m) ∧ NoDup (t_NodeID <$> Tombstones m) ∧
  ∀ id, id ≠ "" →
    (find_key NodeID id (Nodes m), find_key t_NodeID id (Tombstones m)) =
    node_decision (newest_of (Tombstones local) (Tombstones incoming) id ≫= live now)
      (foldl absorb None (filter (λ n, NodeID n = id) (Nodes incoming)))
      (find_key NodeID id (Nodes local)).
Proof.
  intros Hl Hf m. destruct (merge_nodes now local incoming Hl) as (H1 & _ & H3 & H4).
  split_and!; [done | done | done |]. intros id Hid. unfold m. rewrite H4 by done.
  destruct (union_spec now (Tombstones local) (Tombstones incoming)) as (_ & -> & _); [|done|done].
  by rewrite (proj2 (dedupe_spec (Nodes incoming))).
Qed.

Definition node_ex (id key seen status : string) : NodeInfo := {|
  NodeID := id; GitHubUser := ""; GitHubID := 0; Endpoint := "https://" +:+ id; PubKey := key;
  SharedModels := []; SharedProviders := []; JoinedAt := ""; LastSeen := seen; Status := status;
  SeedNode := false; Reputation := 0; ni_Version := ""; InviteBy := ""; TokenBudget := 0;
  TokenUsed := 0; Addresses := [] |}.

Definition pool_ex (v : Z) (ns : list NodeInfo) (ts : list NodeTombstone) : TrustPool := {|
  Version := v; UpdatedAt := ""; Registry := ""; Nodes := ns; Tombstones := ts |}.

(** A healed partition: [a] on both sides, [b] removed remotely, [c] known here only. *)
Definition pool_local : TrustPool :=
  pool_ex 3 [node_ex "a" "ka" "2026-01-02T00:00:00Z" "active";
             node_ex "b" "kb" "2026-01-02T00:00:00Z" "active";
             node_ex "c" "kc" "2026-01-02T00:00:00Z" "active"] [].
Definition pool_remote : TrustPool :=
  pool_ex 4 [node_ex "a" "forged" "2026-01-05T00:00:00Z" "active"]
    [{| t_NodeID := "b"; RemovedAt := "2026-01-03T00:00:00Z"; Reason := "" |}].
Definition now_ex : Time := (days_from_civil 2026 1 6) * 86400 * second.

Lemma merge_node_by_node_witness :
  let m := mergeTrustPools now_ex pool_local pool_remote in
  NodeID <$> Nodes m = ["a"; "c"] ∧ PubKey <$> Nodes m = ["ka"; "kc"] ∧
  find_key NodeID "b" (Nodes m) = None.
Proof.
  assert (Hl : NoDup (NodeID <$> Nodes pool_local)) by (apply (bool_decide_unpack _); vm_compute; exact I).
  assert (Hf : fits (Tombstones pool_local) (Tombstones pool_remote))
    by (unfold fits; apply (bool_decide_unpack _); vm_compute; exact I).
  pose proof (merge_node_by_node now_ex pool_local pool_remote Hl Hf) as (_ & _ & _ & H).
  split_and!; [vm_compute; reflexivity | vm_compute; reflexivity |].
  specialize (H "b" ltac:(discriminate)). apply (f_equal fst) in H. cbn [fst] in H.
  rewrite H. vm_compute. reflexivity.
Defined.
