(* ===== verification/TrustSafety.v ===== *)
(** * The trust pool's guarantees (federation.go)

    The trust-anchor rule (an established key is not replaced) and the removal
    rule (a removed node stays removed until it is seen again), over the
    operations of [FederationManager]. *)

From S2P Require Import Prelude GoTime Sha256.
From S2P Require Dht.
From S2P Require Import TrustPool TrustMerge.

(** ** Records with distinct ids *)

Definition pool_wf (p : TrustPool) : Prop :=
  NoDup (NodeID <$> Nodes p) ∧ NoDup (t_NodeID <$> Tombstones p).

Lemma replace_find id g l l' id' :
  (∀ n, NodeID (g n) = NodeID n ∨ NodeID n ≠ id) → replace_node id g l = Some l' →
  NodeID <$> l' = NodeID <$> l ∧
  find_key NodeID id' l' = if decide (id = id') then g <$> find_key NodeID id l
                           else find_key NodeID id' l.
Proof.
  intros Hg. revert l'. induction l as [|n l IH]; [done|]. intros l'. cbn [replace_node].
  destruct (bool_decide_reflect (NodeID n = id)) as [E|N].
  - intros [= <-]. destruct (Hg n) as [Eg|]; [|done].
    split; [cbn; by rewrite Eg|]. rewrite !find_key_cons, Eg, E.
    destruct (decide (id = id')); by rewrite ?decide_True by done.
  - intros (l1 & Hl & ->)%fmap_Some. destruct (IH _ Hl) as [H1 H2].
    split; [cbn; by rewrite H1|]. rewrite !find_key_cons, H2, (decide_False (P := NodeID n = id)) by done.
    destruct (decide (NodeID n = id')), (decide (id = id')); congruence.
Qed.

Lemma replace_None id g l : replace_node id g l = None → find_key NodeID id l = None.
Proof.
  induction l as [|n l IH]; [done|]. cbn [replace_node]. rewrite find_key_cons.
  destruct (bool_decide_reflect (NodeID n = id)); [done|].
  rewrite decide_False by done. intros H%fmap_None. by apply IH.
Qed.

Lemma gate_find id ls l l' id' :
  NoDup (t_NodeID <$> l) → gate id ls l = Some l' →
  NoDup (t_NodeID <$> l') ∧
  find_key t_NodeID id' l' = if decide (id = id') then None else find_key t_NodeID id' l.
Proof.
  intros Hl Hg. assert (Hs : l' `sublist_of` l).
  { revert l' Hg. clear Hl. induction l as [|t l IH]; cbn [gate]; [by intros ? [= <-]|].
    intros l'. destruct (bool_decide _).
    - destruct (tombstoneSuppresses _ _); intros [= <-]. apply sublist_cons. done.
    - intros (l1 & Hl & ->)%fmap_Some. apply sublist_skip. by apply IH. }
  split; [eapply sublist_NoDup; [done | by apply fmap_sublist]|].
  clear Hs. revert l' Hl Hg. induction l as [|t l IH]; cbn [gate]; intros l' Hl Hg.
  - simplify_eq. by destruct (decide _).
  - rewrite fmap_cons in Hl. apply NoDup_cons in Hl as [Ht Hl].
    apply find_key_None in Ht. rewrite find_key_cons.
    destruct (bool_decide_reflect (t_NodeID t = id)) as [<-|N].
    + destruct (tombstoneSuppresses _ _); simplify_eq. by destruct (decide _) as [<-|].
    + apply fmap_Some in Hg as (l1 & Hg & ->). rewrite find_key_cons, (IH _ Hl Hg).
      destruct (decide (t_NodeID t = id')), (decide (id = id')); congruence.
Qed.

Lemma gate_None id ls l t :
  find_key t_NodeID id l = Some t → tombstoneSuppresses ls (RemovedAt t) = true → gate id ls l = None.
Proof.
  induction l as [|u l IH]; [done|]. rewrite find_key_cons. cbn [gate].
  destruct (decide (t_NodeID u = id)) as [E|N].
  - intros [= ->] ->. by rewrite bool_decide_eq_true_2.
  - intros Hf Ht. rewrite bool_decide_eq_false_2 by done. by rewrite IH.
Qed.

(** ** Adding a known node *)

Definition stamped (now : Time) (n : NodeInfo) : NodeInfo :=
  with_status "active" (str_or (LastSeen n) (fmt_rfc3339 UTC now)) n.

(** The record a known node is merged into. *)
Definition keep_key (n old : NodeInfo) : NodeInfo :=
  if bool_decide (PubKey old = "") then fillNodeInfoRich n old
  else with_key (PubKey old) (fillNodeInfoRich n old).

Lemma upsert_cases now n p :
  pool_wf p →
  upsertKnownNodeLocked now n p = p ∨
  (pool_wf (upsertKnownNodeLocked now n p) ∧
   (∀ id, find_key NodeID id (Nodes (upsertKnownNodeLocked now n p)) =
     if decide (NodeID n = id)
     then Some (match find_key NodeID id (Nodes p) with
                | Some old => keep_key (stamped now n) old
                | None => stamped now n end)
     else find_key NodeID id (Nodes p)) ∧
   (∀ id, find_key t_NodeID id (Tombstones (upsertKnownNodeLocked now n p)) =
     if decide (NodeID n = id) then None else find_key t_NodeID id (Tombstones p))).
Proof.
  intros [Hn Ht]. unfold upsertKnownNodeLocked. fold (stamped now n).
  destruct (gate _ _ _) as [ts|] eqn:Hg; [right|by left].
  change (NodeID (stamped now n)) with (NodeID n) in *.
  set (keep := λ old, _).
  assert (Hk : ∀ m, NodeID (keep m) = NodeID m ∨ NodeID m ≠ NodeID n).
  { intros m. destruct (decide (NodeID m = NodeID n)) as [E|]; [left|by right].
    unfold keep. rewrite E. by destruct (bool_decide _). }
  unfold pool_wf. cbn [Nodes Tombstones set_nodes].
  split_and!; [|by apply (gate_find _ _ _ _ "" Ht Hg)| |intros id; by apply (gate_find _ _ _ _ id Ht Hg)].
  - destruct (replace_node _ _ _) as [l'|] eqn:Hr; cbn.
    + by destruct (replace_find _ _ _ _ "" Hk Hr) as [-> _].
    + apply nodup_snoc; [done|]. apply find_key_None. by eapply replace_None.
  - intros id. destruct (replace_node _ _ _) as [l'|] eqn:Hr; cbn.
    + destruct (replace_find _ _ _ _ id Hk Hr) as [_ ->].
      destruct (decide _) as [<-|]; [|done].
      destruct (find_key NodeID (NodeID n) (Nodes p)) eqn:E; [done|].
      apply find_key_None in E. exfalso. apply E.
      clear -Hr. revert l' Hr. induction (Nodes p) as [|m l IH]; [done|]. intros l'. cbn.
      destruct (bool_decide_reflect (NodeID m = NodeID n)) as [->|]; [intros; left|].
      intros (l1 & Hl & ->)%fmap_Some. right. by eapply IH.
    + apply replace_None in Hr. rewrite find_key_app, find_key_cons.
      change (NodeID (stamped now n)) with (NodeID n).
      destruct (decide _) as [<-|]; [by rewrite Hr|]. by destruct (find_key NodeID id (Nodes p)).
Qed.

Lemma upsert_wf now n p : pool_wf p → pool_wf (upsertKnownNodeLocked now n p).
Proof. intros H. by destruct (upsert_cases now n p H) as [-> | [? _]]. Qed.

Lemma merge_wf now p q : pool_wf p → pool_wf (mergeTrustPools now p q).
Proof. intros [H _]. by destruct (merge_nodes now p q H) as (? & _ & ? & _). Qed.

(** ** Keys are anchors *)

(** The record of [id], when there is one, carries the key [k]. *)
Definition anchored (id k : string) (p : TrustPool) : Prop :=
  ∀ n, find_key NodeID id (Nodes p) = Some n → PubKey n = k.

Lemma keep_key_anchor n old : PubKey old ≠ "" → PubKey (keep_key n old) = PubKey old.
Proof. intros H. unfold keep_key. by rewrite bool_decide_eq_false_2. Qed.

Lemma reconcile_anchor ln n : PubKey ln ≠ "" → PubKey (reconcile ln n) = PubKey ln.
Proof.
  intros H. unfold reconcile. destruct (nodeInfoFresher _ _); cbn.
  - unfold str_or. by rewrite bool_decide_eq_false_2.
  - by rewrite bool_decide_eq_false_2.
Qed.

Definition held (id k : string) (p : TrustPool) : Prop :=
  ∃ n, find_key NodeID id (Nodes p) = Some n ∧ PubKey n = k.

Lemma upsert_held now n p id k :
  pool_wf p → k ≠ "" → held id k p → held id k (upsertKnownNodeLocked now n p).
Proof.
  intros Hp Hk (o & Ho & E). destruct (upsert_cases now n p Hp) as [-> | (_ & H & _)]; [by exists o|].
  unfold held. rewrite H. destruct (decide _) as [<-|]; [|by exists o].
  rewrite Ho. eexists. split; [done|]. rewrite keep_key_anchor; congruence.
Qed.

Lemma decision_held t i l k n :
  (match l with Some ln => PubKey ln = k | None => False end) → k ≠ "" →
  (node_decision t i l).1 = Some n → PubKey n = k.
Proof.
  destruct l as [ln|]; [|done]. intros E Hk. unfold node_decision. cbn [fst].
  destruct (standing t i) as [i'|] eqn:Hi; cbn [unless].
  - cbn. intros [= <-]. rewrite reconcile_anchor; congruence.
  - destruct (standing t (Some ln)) as [l'|] eqn:Hl; [|done].
    assert (l' = ln) as ->.
    { unfold standing in Hl. cbn in Hl. destruct t as [t|]; [destruct (tombstoneSuppresses _ _)|];
        by simplify_eq. }
    destruct (bool_decide _); [|done]. by intros [= <-].
Qed.

(** ** Removals stick *)

(** The record does not postdate the second [r]. *)
Definition stale (r : Time) (n : NodeInfo) : Prop :=
  ∀ tl, parse_rfc3339 (LastSeen n) = Some tl → tl ≤ r.

(** A record that [upsertKnownNodeLocked] does not date itself. *)
Definition dated (r : Time) (n : NodeInfo) : Prop := LastSeen n ≠ "" ∧ stale r n.

Inductive fed_op :=
  | OpUpdateTrustPool (pool : TrustPool)
  | OpUpdateNodeInfo (info : NodeInfo)
  | OpAddKnownNodes (nodes : list NodeInfo)
  | OpRemove (id reason : string).

Definition fed_exec (now : Time) (o : fed_op) (f : FederationManager) : FederationManager :=
  match o with
  | OpUpdateTrustPool pool => UpdateTrustPool now pool f
  | OpUpdateNodeInfo info => UpdateNodeInfo now info f
  | OpAddKnownNodes nodes => AddKnownNodes now nodes f
  | OpRemove id reason => removeNodeReason now id reason f
  end.

Definition fed_run (h : list (Time * fed_op)) (f : FederationManager) : FederationManager :=
  foldl (λ f s, fed_exec s.1 s.2 f) f h.

(** The records an operation brings. *)
Definition brings (o : fed_op) : list NodeInfo :=
  match o with
  | OpUpdateTrustPool pool => Nodes pool
  | OpUpdateNodeInfo info => [info]
  | OpAddKnownNodes nodes => nodes
  | OpRemove _ _ => []
  end.

(** [AddKnownNodes] dates undated records with the present moment. *)
Definition old_news (r : Time) (o : fed_op) (n : NodeInfo) : Prop :=
  match o with OpAddKnownNodes _ => dated r n | _ => stale r n end.

(** The markers the operation leaves fit in the pool. *)
Definition room (now : Time) (o : fed_op) (f : FederationManager) : Prop :=
  match o with
  | OpUpdateTrustPool pool => fits (Tombstones (trustPool f)) (Tombstones pool)
  | OpRemove id reason =>
      fits (mark_removed id (fmt_rfc3339 UTC now) reason (Tombstones (trustPool f))) []
  | _ => True
  end.

Definition sane_clock (t : Time) : Prop :=
  days_from_civil 0 1 1 * 86400 ≤ t / second < days_from_civil 10000 1 1 * 86400.

(** A history in which the node is not heard of again: each step happens within
    the markers' lifetime, and brings no newer record of the node. *)
Fixpoint silent (id : string) (r : Time) (h : list (Time * fed_op)) (f : FederationManager) : Prop :=
  match h with
  | [] => True
  | (now, o) :: h' =>
      (sane_clock now ∧ r ≤ now ≤ r + trustTombstoneTTL) ∧
      (∀ n, n ∈ brings o → NodeID n = id → old_news r o n) ∧
      room now o f ∧ silent id r h' (fed_exec now o f)
  end.

Record buried (id : string) (r : Time) (f : FederationManager) : Prop := {
  bu_wf : pool_wf (trustPool f);
  bu_gone : find_key NodeID id (Nodes (trustPool f)) = None;
  bu_peer : localPeers f !! id = None;
  bu_mark : ∃ t tr, find_key t_NodeID id (Tombstones (trustPool f)) = Some t ∧
              parse_rfc3339 (RemovedAt t) = Some tr ∧ r ≤ tr }.

Lemma stale_suppressed r n t tr :
  stale r n → parse_rfc3339 (RemovedAt t) = Some tr → r ≤ tr →
  tombstoneSuppresses (LastSeen n) (RemovedAt t) = true.
Proof.
  intros H2 Ht Hr. unfold tombstoneSuppresses. rewrite Ht.
  destruct (bool_decide _); [done|]. destruct (bool_decide _); [done|].
  destruct (parse_rfc3339 (LastSeen n)) as [tl|] eqn:E; [|done].
  specialize (H2 _ E). unfold after. destruct (Z.ltb_spec tr tl); [lia|done].
Qed.

Definition marks (r : Time) (o : option NodeTombstone) : Prop :=
  ∃ t tr, o = Some t ∧ parse_rfc3339 (RemovedAt t) = Some tr ∧ r ≤ tr.

Lemma newest_marks r o l : marks r o → marks r (foldl newest o l).
Proof.
  revert o. induction l as [|u l IH]; intros o Ho; [done|]. cbn [foldl]. apply IH.
  destruct Ho as (t & tr & -> & Ht & Hr). cbn [newest].
  unfold tombstoneNewer. rewrite Ht.
  destruct (parse_rfc3339 (RemovedAt u)) as [ta|] eqn:Eu; [|by exists t, tr].
  unfold after. destruct (Z.ltb_spec tr ta); [|by exists t, tr].
  exists u, ta. split_and!; [done|done|lia].
Qed.

(** A young marker survives the union. *)
Lemma union_marks r now a b id :
  id ≠ "" → fits a b → NoDup (t_NodeID <$> a) → marks r (find_key t_NodeID id a) →
  now ≤ r + trustTombstoneTTL →
  marks r (find_key t_NodeID id (unionTombstones now a b)).
Proof.
  intros Hid Hf Ha Hm Hnow. destruct (union_spec now a b) as (_ & H & _).
  rewrite H by done. clear H.
  unfold newest_of. rewrite filter_app, foldl_app, (filter_key_nodup t_NodeID a id Ha).
  assert (Hm' : marks r (foldl newest None
     (match find_key t_NodeID id a with Some x => [x] | None => [] end))).
  { destruct Hm as (t & tr & -> & Ht). by exists t, tr. }
  apply (newest_marks _ _ (filter (λ t, t_NodeID t = id) b)) in Hm'.
  destruct Hm' as (t & tr & -> & Ht & Hr). exists t, tr. split_and!; [|done|done].
  cbn. unfold live, tomb_expired. rewrite Ht.
  destruct (Z.ltb_spec trustTombstoneTTL (now - tr)); [lia|done].
Qed.

Lemma mark_removed_keys id at_ reason l :
  t_NodeID <$> mark_removed id at_ reason l =
  if decide (id ∈ t_NodeID <$> l) then t_NodeID <$> l else (t_NodeID <$> l) ++ [id].
Proof.
  induction l as [|t l IH]; [done|]. cbn [mark_removed].
  destruct (bool_decide_reflect (t_NodeID t = id)) as [<-|N].
  - rewrite decide_True by left. done.
  - rewrite !fmap_cons, IH.
    destruct (decide (id ∈ t_NodeID <$> l)) as [Hi|Hi], (decide (id ∈ t_NodeID t :: _)) as [Hj|Hj];
      [done | exfalso; apply Hj; by right | | done].
    exfalso. apply elem_of_cons in Hj as [->|]; done.
Qed.

Lemma mark_removed_find id at_ reason l id' :
  NoDup (t_NodeID <$> l) →
  NoDup (t_NodeID <$> mark_removed id at_ reason l) ∧
  (if decide (id = id')
   then ∃ t, find_key t_NodeID id' (mark_removed id at_ reason l) = Some t ∧ RemovedAt t = at_
   else find_key t_NodeID id' (mark_removed id at_ reason l) = find_key t_NodeID id' l).
Proof.
  intros Hl. split.
  - rewrite mark_removed_keys. destruct (decide _) as [|Hi]; [done|].
    apply NoDup_app. split_and!; [done | | apply NoDup_singleton].
    intros k Hk Hk'. apply list_elem_of_singleton in Hk'. by subst.
  - clear Hl. induction l as [|t l IH]; cbn [mark_removed].
    + rewrite find_key_cons. cbn. destruct (decide _) as [<-|]; [by eexists|done].
    + destruct (bool_decide_reflect (t_NodeID t = id)) as [E|N]; rewrite !find_key_cons; cbn.
      * rewrite E. destruct (decide _) as [<-|]; [by eexists | done].
      * destruct (decide (t_NodeID t = id')) as [<-|]; [|done].
        by destruct (decide (id = t_NodeID t)).
Qed.

Lemma absorb_stale r l o n :
  (∀ n, o = Some n → stale r n) → (∀ n, n ∈ l → stale r n) →
  foldl absorb o l = Some n → stale r n.
Proof.
  revert o. induction l as [|m l IH]; intros o Ho Hl; [apply Ho|]. cbn [foldl].
  apply IH; [|intros; apply Hl; by right].
  intros n'. assert (Hm : stale r m) by (apply Hl; left).
  destruct o as [o|]; cbn; [|by intros [= <-]].
  destruct (nodeInfoFresher _ _); [by intros [= <-] | apply Ho].
Qed.

Lemma buried_merge id r now pool f :
  id ≠ "" → buried id r f → now ≤ r + trustTombstoneTTL →
  (∀ n, n ∈ Nodes pool → NodeID n = id → stale r n) →
  fits (Tombstones (trustPool f)) (Tombstones pool) → buried id r (UpdateTrustPool now pool f).
Proof.
  intros Hid [Hw Hg Hp Hm] Hnow Hst Hfit. unfold UpdateTrustPool. destruct (_ <=? _); [done|].
  destruct (merge_nodes now (trustPool f) pool (proj1 Hw)) as (_ & _ & _ & H).
  specialize (H id Hid). rewrite Hg in H.
  pose proof (union_marks r now _ (Tombstones pool) id Hid Hfit (proj2 Hw) Hm Hnow) as (t & tr & Ht & Hp1 & Hp2).
  rewrite Ht in H.
  assert (Hs : standing (Some t) (find_key NodeID id (dedupeNodeInfos (Nodes pool))) = None).
  { destruct (find_key NodeID id (dedupeNodeInfos (Nodes pool))) as [n|] eqn:E; [cbn|done].
    rewrite (proj2 (dedupe_spec (Nodes pool))) in E by done.
    erewrite stale_suppressed; [done | | done | done].
    eapply absorb_stale; [| |exact E]; [done|]. intros m Hm'. apply list_elem_of_filter in Hm'.
    apply Hst; tauto. }
  unfold node_decision in H. rewrite Hs in H. cbn in H. injection H as H1 H2.
  split; cbn; [by apply merge_wf | done | done |]. exists t, tr. done.
Qed.

Lemma buried_gossip id r now info f :
  buried id r f → (NodeID info = id → stale r info) → buried id r (UpdateNodeInfo now info f).
Proof.
  intros [Hw Hg Hp (t & tr & Ht & Hp1 & Hp2)] Hst. unfold UpdateNodeInfo.
  destruct (decide (NodeID info = id)) as [E|N].
  { rewrite E. erewrite gate_None; [| exact Ht | by eapply stale_suppressed; eauto].
    split; try done. by exists t, tr. }
  destruct (gate _ _ _) as [ts|] eqn:Hgt; [|split; try done; by exists t, tr].
  destruct (gate_find _ _ _ _ id (proj2 Hw) Hgt) as [Hn Hf].
  rewrite decide_False in Hf by done. rewrite Ht in Hf.
  destruct (replace_node _ _ _) as [ns|] eqn:Hr.
  - assert (Hk : ∀ n, NodeID info = NodeID n ∨ NodeID n ≠ NodeID info)
      by (intros n; destruct (decide (NodeID n = NodeID info)); auto).
    destruct (replace_find _ (λ _, info) _ _ id Hk Hr) as [Hr1 Hr2].
    rewrite decide_False in Hr2 by done.
    split; [split; cbn; [rewrite Hr1; apply Hw | done] | by rewrite <- Hg | done | by exists t, tr].
  - split; [split; cbn; [apply Hw | done] | done | cbn; by rewrite lookup_insert_ne | by exists t, tr].
Qed.

Lemma buried_upsert id r now n f p :
  buried id r (set_pool f p (localPeers f) (dht f)) → (NodeID n = id → dated r n) →
  buried id r (set_pool f (upsertKnownNodeLocked now n p) (localPeers f) (dht f)).
Proof.
  intros [Hw Hg Hp (t & tr & Ht & Hp1 & Hp2)] Hst. cbn in *.
  destruct (decide (NodeID n = id)) as [E|N].
  - assert (upsertKnownNodeLocked now n p = p) as ->; [|split; try done; by exists t, tr].
    unfold upsertKnownNodeLocked. cbn. rewrite E. erewrite gate_None; [done | exact Ht |].
    unfold str_or. destruct (Hst E) as [Hne ?]. rewrite bool_decide_eq_false_2 by done.
    by eapply stale_suppressed; eauto.
  - destruct (upsert_cases now n p Hw) as [-> | (H1 & H2 & H3)]; [split; try done; by exists t, tr|].
    split; cbn; [done | by rewrite H2, decide_False | done |].
    rewrite H3, decide_False by done. by exists t, tr.
Qed.

Lemma buried_add id r now nodes f :
  buried id r f → (∀ n, n ∈ nodes → NodeID n = id → dated r n) →
  buried id r (AddKnownNodes now nodes f).
Proof.
  intros Hb Hst. unfold AddKnownNodes. destruct (negb _); [done|]. destruct (bool_decide _); [done|].
  assert (H : buried id r (set_pool f (foldl (λ p n, upsertKnownNodeLocked now n p) (trustPool f)
     (filter (λ n, NodeID n ≠ "") nodes)) (localPeers f) (dht f))).
  { assert (Hl : ∀ n, n ∈ filter (λ n, NodeID n ≠ "") nodes → NodeID n = id → dated r n).
    { intros n [_ Hn]%list_elem_of_filter. by apply Hst. }
    assert (H0 : buried id r (set_pool f (trustPool f) (localPeers f) (dht f)))
      by (by destruct Hb).
    revert H0. generalize (trustPool f).
    induction (filter (λ n, NodeID n ≠ "") nodes) as [|n l IH]; intros p H0; [done|]. cbn [foldl].
    apply IH; [intros; apply Hl; [by right|done]|]. apply buried_upsert; [done|].
    intros. apply Hl; [left|done]. }
  destruct H as [Hw Hg Hp Hm]. by split.
Qed.

Lemma filter_gone id id' l :
  find_key NodeID id' l = None → find_key NodeID id' (filter (λ n, NodeID n ≠ id) l) = None.
Proof.
  intros H%find_key_None. apply find_key_None. intros Hin. apply H.
  apply list_elem_of_fmap in Hin as (n & -> & Hn). apply list_elem_of_filter in Hn as [_ Hn].
  by apply list_elem_of_fmap_2.
Qed.

(** Right after a removal, and after the removal of another node. *)
Lemma remove_buries now id reason f id' r :
  pool_wf (trustPool f) → id ≠ "" → id' ≠ "" → room now (OpRemove id reason) f →
  sane_clock now → now ≤ r + trustTombstoneTTL → r ≤ now / second * second →
  (id = id' ∨ buried id' r f) → buried id' r (removeNodeReason now id reason f).
Proof.
  intros [Hw1 Hw2] Hid Hid' Hroom Hclk Hnow Hr Hcase. unfold removeNodeReason.
  rewrite bool_decide_eq_false_2 by done. unfold room in Hroom.
  destruct (mark_removed_find id (fmt_rfc3339 UTC now) reason (Tombstones (trustPool f)) id' Hw2)
    as [Hm1 Hm2].
  assert (Hm : marks r (find_key t_NodeID id'
     (mark_removed id (fmt_rfc3339 UTC now) reason (Tombstones (trustPool f))))).
  { destruct (decide (id = id')) as [E|N].
    - destruct Hm2 as (t & -> & Ht). exists t, (now / second * second).
      rewrite Ht. split_and!; [done | by apply parse_fmt_rfc3339 | done].
    - destruct Hcase as [|[_ _ _ Hb]]; [done|]. by rewrite Hm2. }
  pose proof (union_marks r now _ [] id' Hid' Hroom Hm1 Hm Hnow) as Hu.
  split; cbn.
  - split; [by apply keys_filter_nodup | apply union_spec].
  - destruct Hcase as [<-|[_ Hb _ _]]; [|by apply filter_gone].
    apply find_key_None. intros Hin. apply list_elem_of_fmap in Hin as (n & E & Hn).
    apply list_elem_of_filter in Hn as [Hn _]. by rewrite <- E in Hn.
  - destruct Hcase as [<-|[_ _ Hb _]]; [apply lookup_delete_eq|].
    apply lookup_delete_None. by right.
  - done.
Qed.

Lemma silent_buried id r h f :
  id ≠ "" → r = r / second * second → buried id r f → silent id r h f → buried id r (fed_run h f).
Proof.
  intros Hid Hr. revert f. induction h as [|[now o] h IH]; intros f Hb Hs; [done|].
  destruct Hs as ((Hclk & Hnow) & Hst & Hroom & Hs). apply IH; [|done]. cbn.
  destruct o as [pool|info|nodes|id' reason]; cbn in *.
  - apply buried_merge; [done|done|lia|done|done].
  - apply buried_gossip; [done|]. intros E. by apply Hst; [left|].
  - by apply buried_add.
  - destruct (decide (id' = "")) as [->|Hne]; [done|].
    apply remove_buries; [apply Hb|done|done|done|done|lia| |by right].
    rewrite Hr. apply Z.mul_le_mono_nonneg_r; [done|]. apply Z.div_le_mono; [done|lia].
Qed.

(** ** What the manager promises *)


Definition manager_ex (p : TrustPool) : FederationManager :=
  {| enabled := true; trustPool := p; localPeers := ∅; dht := None |}.

(** A stale pool of a newer version, then stale gossip. *)
Definition stale_history : list (Time * fed_op) := [
  (now_ex + 10 * second, OpUpdateTrustPool
     (pool_ex 9 [node_ex "b" "kb" "2026-01-05T00:00:00Z" "active";
                 node_ex "d" "kd" "2026-01-05T00:00:00Z" "active"] []));
  (now_ex + 20 * second, OpUpdateNodeInfo (node_ex "b" "kb" "2026-01-05T23:00:00Z" "active"));
  (now_ex + 30 * second, OpUpdateNodeInfo (node_ex "b" "kb" "" "active"))].

Ltac by_compute := solve [apply (bool_decide_unpack _); vm_compute; exact I].

Definition staleb (r : Time) (n : NodeInfo) : bool :=
  match parse_rfc3339 (LastSeen n) with Some tl => tl <=? r | None => true end.

Lemma staleb_stale r n : staleb r n = true → stale r n.
Proof.
  unfold staleb, stale. intros H tl E. rewrite E in H. by apply Z.leb_le.
Qed.


(** (A defect.) An undated record from [AddKnownNodes] is dated with the present
    moment before it meets the marker: it brings a removed node back. *)
Example undated_record_returns :
  let f' := removeNodeReason now_ex "b" "operator removal" (manager_ex pool_local) in
  let f'' := AddKnownNodes (now_ex + 10 * second) [node_ex "b" "kb" "" "active"] f' in
  (bool_decide (is_Some (GetNode "b" f')), bool_decide (is_Some (GetNode "b" f'')), Tombstones (trustPool f''))
  = (false, true, []).
Proof. vm_compute. reflexivity. Qed.

(** The trust-anchor rule of the pool: once a node's record has a key, updating the
    trust pool from any other pool and adding any known nodes leave the record with
    that key, whatever keys the incoming records carry and however fresh they are
    (an update may still drop the record; adding nodes never does). *)
Theorem keys_are_anchors f now id k :
  pool_wf (trustPool f) → id ≠ "" → k ≠ "" → held id k (trustPool f) →
  (∀ pool, anchored id k (trustPool (UpdateTrustPool now pool f))) ∧
  (∀ nodes, held id k (trustPool (AddKnownNodes now nodes f))).
Proof.
  intros Hw Hid Hk Hh. split.
  - intros pool. unfold UpdateTrustPool. destruct Hh as (o & Ho & Eo).
    destruct (_ <=? _); [intros n Hn; congruence|]. cbn. intros n Hn.
    destruct (merge_nodes now (trustPool f) pool (proj1 Hw)) as (_ & _ & _ & H).
    specialize (H id Hid). rewrite Ho in H. apply (f_equal fst) in H. cbn [fst] in H.
    rewrite H in Hn. eapply decision_held; [|exact Hk|exact Hn]. done.
  - intros nodes. unfold AddKnownNodes. destruct (negb _); [done|]. destruct (bool_decide _); [done|].
    cbn. revert Hw Hh. generalize (trustPool f) as p.
    induction (filter (λ n, NodeID n ≠ "") nodes) as [|n l IH]; intros p Hw Hh; [done|].
    cbn [foldl]. apply IH; [by apply upsert_wf | by apply upsert_held].
Qed.

Lemma keys_are_anchors_witness :
  held "a" "ka" pool_local ∧
  anchored "a" "ka" (trustPool (UpdateTrustPool now_ex pool_remote (manager_ex pool_local))).
Proof.
  assert (Hh : held "a" "ka" pool_local)
    by (exists (node_ex "a" "ka" "2026-01-02T00:00:00Z" "active"); split; vm_compute; reflexivity).
  split; [exact Hh|].
  refine (proj1 (keys_are_anchors (manager_ex pool_local) now_ex "a" "ka" _ _ _ Hh) pool_remote);
    [split; by_compute | discriminate | discriminate].
Defined.

(** Gossip is not held to that rule: an accepted [UpdateNodeInfo] replaces a known node's
    record as a whole, its established key with whatever key, even an empty one, the
    gossip record carries. *)
Theorem gossip_replaces_keys f now info n :
  pool_wf (trustPool f) → find_key NodeID (NodeID info) (Nodes (trustPool f)) = Some n →
  find_key t_NodeID (NodeID info) (Tombstones (trustPool f)) = None →
  find_key NodeID (NodeID info) (Nodes (trustPool (UpdateNodeInfo now info f))) = Some info.
Proof.
  intros Hw Hn Ht. unfold UpdateNodeInfo.
  assert (Hg : ∀ ls, is_Some (gate (NodeID info) ls (Tombstones (trustPool f)))).
  { intros ls. clear -Ht. induction (Tombstones (trustPool f)) as [|t l IH]; [by eexists|].
    rewrite find_key_cons in Ht. cbn [gate]. destruct (decide (t_NodeID t = NodeID info)); [done|].
    rewrite bool_decide_eq_false_2 by done. destruct (IH Ht) as [x ->]. by eexists. }
  destruct (Hg (LastSeen info)) as [ts ->].
  destruct (replace_node _ _ _) as [ns|] eqn:Hr; [cbn|apply replace_None in Hr; congruence].
  assert (Hk : ∀ n, NodeID info = NodeID n ∨ NodeID n ≠ NodeID info)
    by (intros m; destruct (decide (NodeID m = NodeID info)); auto).
  destruct (replace_find _ (λ _, info) _ _ (NodeID info) Hk Hr) as [_ ->].
  by rewrite decide_True, Hn by done.
Qed.

Lemma gossip_replaces_keys_witness :
  PubKey <$> find_key NodeID "a" (Nodes pool_local) = Some "ka" ∧
  PubKey <$> find_key NodeID "a" (Nodes (trustPool (UpdateNodeInfo now_ex
    (node_ex "a" "forged" "" "active") (manager_ex pool_local)))) = Some "forged".
Proof.
  split; [vm_compute; reflexivity|].
  change "a" with (NodeID (node_ex "a" "forged" "" "active")) at 1.
  rewrite (gossip_replaces_keys (manager_ex pool_local) now_ex (node_ex "a" "forged" "" "active")
             (node_ex "a" "ka" "2026-01-02T00:00:00Z" "active"));
    [reflexivity | split; by_compute | vm_compute; reflexivity | vm_compute; reflexivity].
Defined.
