(* ===== verification/UdpBearer.v ===== *)
(** * Relay requests over UDP (udp_bearer.go)

    A message is cut into an envelope frame (metadata and the first bytes of the
    body) and body fragments; the receiver puts it together again. The socket is
    the list of datagrams, [json.Marshal] and [json.Unmarshal] of the metadata are
    parameters; the HTTP dispatch a completed request triggers is an event. *)

From S2P Require Import Prelude Bytes.

Record bearerEnvelope := {
  Method : string; Path : string; Query : string; Status : Z;
  Headers : list (string * list string); BodyTotal : Z; FragTotal : Z }.

Record reasmMsg := {
  isResp : bool; meta : bearerEnvelope; firstFrag : bytes; frags : gmap Z bytes }.

(** [waiters] holds the requests whose sender still waits on its channel. *)
Record UDPDataBearer := { reasm : gmap bytes reasmMsg; waiters : gset bytes }.

Class BearerEnv := {
  marshal_meta : bearerEnvelope → option bytes;
  unmarshal_meta : bytes → option bearerEnvelope }.

(** What a completed message triggers: the waiting caller receives a response, or a
    goroutine serves the request. *)
Inductive bearer_event :=
  | Deliver (reqID : bytes) (m : bearerEnvelope) (body : bytes)
  | ServeReq (reqID : bytes) (m : bearerEnvelope) (body : bytes).

Definition dataMagic : bytes := [79; 77; 80; 50].
Definition frameHeaderLen : nat := 27.
Definition maxFragPayload : nat := 1400.
Definition firstFragCap : nat := 700.

Definition type_Q : Z := 81.
Definition type_S : Z := 83.
Definition type_B : Z := 66.

Definition isDataFrame (b : bytes) : bool := bool_decide (take 4 b = dataMagic).

Definition with_totals (m : bearerEnvelope) (body_total frag_total : Z) : bearerEnvelope := {|
  Method := Method m; Path := Path m; Query := Query m; Status := Status m; Headers := Headers m;
  BodyTotal := body_total; FragTotal := frag_total |}.

(** ** Sending *)

(** A frame: the header of 27 bytes, then the payload. *)
Definition frame (typ : Z) (reqID : bytes) (fragIndex fragTotal : Z) (payload : bytes) : bytes :=
  dataMagic ++ [typ] ++ reqID ++ put_uint16 fragIndex ++ put_uint16 fragTotal
  ++ put_uint16 (Z.of_nat (length payload)) ++ payload.

(** The fragments [i], [i + 1], ... of what remains of the body. *)
Fixpoint fragments (n : nat) (reqID : bytes) (i total : Z) (remaining : bytes) : list bytes :=
  match n with
  | O => []
  | S n' => frame type_B reqID i total (take maxFragPayload remaining)
            :: fragments n' reqID (i + 1) total (drop maxFragPayload remaining)
  end.

Section bearer.
Context `{BearerEnv}.

Definition first_len (prov body : bytes) : nat :=
  Nat.min (length body) (Nat.min firstFragCap (maxFragPayload - length prov - frameHeaderLen)).

Definition frag_count (remaining : bytes) : nat :=
  if bool_decide (remaining = []) then 1%nat
  else (1 + (length remaining + maxFragPayload - 1) / maxFragPayload)%nat.

(** The datagrams [sendFrames] writes, in order. *)
Definition sendFrames (reqID : bytes) (typ : Z) (m : bearerEnvelope) (body : bytes)
    : res (list bytes) :=
  let m1 := with_totals m (Z.of_nat (length body)) (FragTotal m) in
  match marshal_meta m1 with
  | None => Err "bearer: marshal meta"
  | Some prov =>
      let first := take (first_len prov body) body in
      let remaining := drop (first_len prov body) body in
      let total := frag_count remaining in
      let m2 := with_totals m (Z.of_nat (length body)) (Z.of_nat total) in
      match marshal_meta m2 with
      | None => Err "bearer: marshal meta"
      | Some jsonMeta =>
          Ok (frame typ reqID 0 (Z.of_nat total)
                (put_uint32 (Z.of_nat (length jsonMeta)) ++ jsonMeta ++ first)
              :: fragments (total - 1) reqID 1 (Z.of_nat total) remaining)
      end
  end.

(** ** Receiving *)

Definition assemble (rm : reasmMsg) : bytes :=
  firstFrag rm ++
  concat ((λ i, default [] (frags rm !! Z.of_nat i)) <$> seq 1 (Z.to_nat (FragTotal (meta rm)) - 1)).

Definition onComplete (reqID : bytes) (b : UDPDataBearer) : UDPDataBearer * list bearer_event :=
  match reasm b !! reqID with
  | None => (b, [])
  | Some rm =>
      let b' := {| reasm := delete reqID (reasm b); waiters := waiters b |} in
      if isResp rm
      then if bool_decide (reqID ∈ waiters b)
           then ({| reasm := reasm b'; waiters := waiters b ∖ {[reqID]} |},
                 [Deliver reqID (meta rm) (assemble rm)])
           else (b', [])
      else (b', [ServeReq reqID (meta rm) (assemble rm)])
  end.

Definition HandleInbound (fr : bytes) (b : UDPDataBearer) : UDPDataBearer * list bearer_event :=
  if (length fr <? frameHeaderLen)%nat then (b, [])
  else if negb (isDataFrame fr) then (b, [])
  else
    let typ := default 0 (fr !! 4%nat) in
    let reqID := slice 5 21 fr in
    let payloadLen := Z.to_nat (be_value (slice 25 27 fr)) in
    if (length fr - frameHeaderLen <? payloadLen)%nat then (b, [])
    else
      let payload := slice frameHeaderLen (frameHeaderLen + payloadLen) fr in
      if (typ =? type_Q) || (typ =? type_S) then
        if (length payload <? 4)%nat then (b, [])
        else
          let jsonLen := Z.to_nat (be_value (slice 0 4 payload)) in
          if (length payload - 4 <? jsonLen)%nat then (b, [])
          else match unmarshal_meta (slice 4 (4 + jsonLen) payload) with
               | None => (b, [])
               | Some m =>
                   let rm := {| isResp := typ =? type_S; meta := m;
                                firstFrag := drop (4 + jsonLen) payload; frags := ∅ |} in
                   let b' := {| reasm := <[reqID := rm]> (reasm b); waiters := waiters b |} in
                   if FragTotal m <=? 1 then onComplete reqID b' else (b', [])
               end
      else if typ =? type_B then
        match reasm b !! reqID with
        | None => (b, [])
        | Some rm =>
            let rm' := {| isResp := isResp rm; meta := meta rm; firstFrag := firstFrag rm;
                          frags := <[be_value (slice 21 23 fr) := payload]> (frags rm) |} in
            let b' := {| reasm := <[reqID := rm']> (reasm b); waiters := waiters b |} in
            if FragTotal (meta rm) - 1 <=? Z.of_nat (size (frags rm'))
            then onComplete reqID b' else (b', [])
        end
      else (b, []).

Fixpoint receive (fs : list bytes) (b : UDPDataBearer) : UDPDataBearer * list bearer_event :=
  match fs with
  | [] => (b, [])
  | f :: fs' =>
      let '(b1, e1) := HandleInbound f b in
      let '(b2, e2) := receive fs' b1 in (b2, e1 ++ e2)
  end.
End bearer.

(** ** Frames *)

(** The reader finds every field of a frame where the writer put it. *)
Lemma frame_fields typ reqID i t p :
  length reqID = 16%nat → Z.of_nat (length p) < 65536 →
  let fr := frame typ reqID i t p in
  length fr = (27 + length p)%nat ∧ isDataFrame fr = true ∧ default 0 (fr !! 4%nat) = typ ∧
  slice 5 21 fr = reqID ∧ slice 21 23 fr = put_uint16 i ∧
  Z.to_nat (be_value (slice 25 27 fr)) = length p ∧
  slice frameHeaderLen (frameHeaderLen + length p) fr = p.
Proof.
  intros Hr Hp fr.
  assert (Hs : slice 25 27 fr = put_uint16 (Z.of_nat (length p)) ∧ slice 5 21 fr = reqID ∧
    slice 21 23 fr = put_uint16 i ∧ length fr = (27 + length p)%nat ∧
    slice frameHeaderLen (frameHeaderLen + length p) fr = take (length p) p ∧
    take 4 fr = dataMagic ∧ fr !! 4%nat = Some typ).
  { subst fr. unfold frame, slice, frameHeaderLen.
    do 16 (destruct reqID as [|? reqID]; [done|]). destruct reqID; [|done].
    replace (27 + length p - 27)%nat with (length p) by lia.
    split_and!; reflexivity. }
  destruct Hs as (H1 & H2 & H3 & H4 & H5 & H6 & H7).
  split_and!; [done| |by rewrite H7|done|done| |].
  - unfold isDataFrame. by rewrite bool_decide_eq_true_2.
  - rewrite H1, be_value_uint16 by lia. lia.
  - rewrite H5. by rewrite take_ge.
Qed.

Section exchange.
Context `{BearerEnv}.

Definition put_frag (i : Z) (p : bytes) (rm : reasmMsg) : reasmMsg := {|
  isResp := isResp rm; meta := meta rm; firstFrag := firstFrag rm; frags := <[i := p]> (frags rm) |}.

Definition set_reasm (reqID : bytes) (rm : reasmMsg) (b : UDPDataBearer) : UDPDataBearer := {|
  reasm := <[reqID := rm]> (reasm b); waiters := waiters b |}.

Lemma handle_fragment reqID i t p b rm :
  length reqID = 16%nat → Z.of_nat (length p) < 65536 → 0 ≤ i < 65536 →
  reasm b !! reqID = Some rm →
  HandleInbound (frame type_B reqID i t p) b =
  (let b' := set_reasm reqID (put_frag i p rm) b in
   if FragTotal (meta rm) - 1 <=? Z.of_nat (size (<[i := p]> (frags rm)))
   then onComplete reqID b' else (b', [])).
Proof.
  intros Hr Hp Hi Hrm. destruct (frame_fields type_B reqID i t p Hr Hp)
    as (H1 & H2 & H3 & H4 & H5 & H6 & H7).
  unfold HandleInbound; cbv zeta. rewrite H1, H2, H3, H4, H5, H6, be_value_uint16, Hrm by done.
  rewrite H7. unfold frameHeaderLen.
  destruct (Nat.ltb_spec (27 + length p) 27); [lia|]. cbn [negb].
  destruct (Nat.ltb_spec (27 + length p - 27) (length p)); [lia|]. reflexivity.
Qed.

Lemma handle_ignored reqID i t p b :
  length reqID = 16%nat → Z.of_nat (length p) < 65536 → reasm b !! reqID = None →
  HandleInbound (frame type_B reqID i t p) b = (b, []).
Proof.
  intros Hr Hp Hrm. destruct (frame_fields type_B reqID i t p Hr Hp)
    as (H1 & H2 & H3 & H4 & H5 & H6 & H7).
  unfold HandleInbound; cbv zeta. rewrite H1, H2, H3, H4, H6, Hrm, H7.
  by repeat destruct (_ <? _)%nat.
Qed.

Definition is_envelope (typ : Z) : Prop := typ = type_Q ∨ typ = type_S.

Lemma handle_envelope reqID typ t json first b m :
  length reqID = 16%nat → is_envelope typ →
  Z.of_nat (4 + length json + length first) < 65536 → unmarshal_meta json = Some m →
  HandleInbound (frame typ reqID 0 t (put_uint32 (Z.of_nat (length json)) ++ json ++ first)) b =
  (let rm := {| isResp := typ =? type_S; meta := m; firstFrag := first; frags := ∅ |} in
   if FragTotal m <=? 1 then onComplete reqID (set_reasm reqID rm b)
   else (set_reasm reqID rm b, [])).
Proof.
  intros Hr Ht Hlen Hm. set (p := put_uint32 _ ++ json ++ first).
  assert (Hp : length p = (4 + length json + length first)%nat)
    by (unfold p; rewrite !length_app; cbn; lia).
  destruct (frame_fields typ reqID 0 t p Hr ltac:(lia)) as (H1 & H2 & H3 & H4 & H5 & H6 & H7).
  unfold HandleInbound; cbv zeta. rewrite H1, H2, H3, H4, H6, H7. unfold frameHeaderLen.
  destruct (Nat.ltb_spec (27 + length p) 27); [lia|]. cbn [negb].
  destruct (Nat.ltb_spec (27 + length p - 27) (length p)); [lia|].
  assert ((typ =? type_Q) || (typ =? type_S) = true) as -> by (destruct Ht as [-> | ->]; done).
  destruct (Nat.ltb_spec (length p) 4); [lia|].
  assert (Hj : Z.to_nat (be_value (slice 0 4 p)) = length json).
  { change (slice 0 4 p) with (put_uint32 (Z.of_nat (length json))).
    rewrite be_value_uint32 by lia. lia. }
  rewrite Hj. destruct (Nat.ltb_spec (length p - 4) (length json)); [lia|].
  assert (slice 4 (4 + length json) p = json) as ->.
  { unfold slice, p. replace (4 + length json - 4)%nat with (length json) by lia.
    change (drop 4 (put_uint32 ?z ++ json ++ first)) with (json ++ first).
    by rewrite take_app_length. }
  assert (drop (4 + length json) p = first) as ->.
  { change (drop (4 + length json) p) with (drop (length json) (json ++ first)).
    by rewrite drop_app_length. }
  by rewrite Hm.
Qed.

(** A frame of another exchange changes nothing about this one. *)
Definition event_id (e : bearer_event) : bytes :=
  match e with Deliver id _ _ | ServeReq id _ _ => id end.

Definition same_exchange (reqID : bytes) (b b' : UDPDataBearer) : Prop :=
  reasm b' !! reqID = reasm b !! reqID ∧ (reqID ∈ waiters b' ↔ reqID ∈ waiters b).

Lemma complete_other id reqID b b0 :
  id ≠ reqID → same_exchange reqID b0 b →
  same_exchange reqID b0 (onComplete id b).1 ∧
  Forall (λ e, event_id e ≠ reqID) (onComplete id b).2.
Proof.
  intros Hne [H1 H2]. unfold onComplete.
  destruct (reasm b !! id) as [rm|]; [|by split; [split | constructor]].
  destruct (isResp rm); [destruct (bool_decide _)|]; cbn; unfold same_exchange; cbn;
    rewrite lookup_delete_ne by done; (split; [split; [done | set_solver]|]);
    repeat constructor; done.
Qed.

Lemma handle_other f reqID b :
  slice 5 21 f ≠ reqID →
  same_exchange reqID b (HandleInbound f b).1 ∧
  Forall (λ e, event_id e ≠ reqID) (HandleInbound f b).2.
Proof.
  intros Hne.
  assert (H0 : same_exchange reqID b b ∧ Forall (λ e, event_id e ≠ reqID) [])
    by (split; [done | constructor]).
  assert (Hs : ∀ rm, same_exchange reqID b
     {| reasm := <[slice 5 21 f := rm]> (reasm b); waiters := waiters b |}).
  { intros rm. split; cbn; [by rewrite lookup_insert_ne | done]. }
  unfold HandleInbound.
  repeat first [exact H0 | destruct (unmarshal_meta _) | destruct (reasm b !! _) as [rm|]
               | match goal with |- context [if ?c then _ else _] => destruct c end];
    try (apply complete_other; [done | apply Hs]); (split; [apply Hs | constructor]).
Qed.

(** ** Fragmentation *)

Definition chunk (rem : bytes) (k : nat) : bytes :=
  take maxFragPayload (drop (maxFragPayload * (k - 1)) rem).

Lemma chunk_drop rem j : chunk (drop maxFragPayload rem) (1 + j) = chunk rem (S (1 + j)).
Proof.
  unfold chunk. rewrite drop_drop. unfold maxFragPayload.
  by replace (1400 + 1400 * (1 + j - 1))%nat with (1400 * (S (1 + j) - 1))%nat by lia.
Qed.

Lemma fragments_eq n reqID i total rem :
  fragments n reqID i total rem =
  (λ k, frame type_B reqID (i + Z.of_nat k - 1) total (chunk rem k)) <$> seq 1 n.
Proof.
  revert i rem. induction n as [|n IH]; intros i rem; [done|]. cbn [fragments seq].
  rewrite fmap_cons. f_equal.
  - unfold chunk. cbn [Nat.sub]. rewrite Nat.mul_0_r, drop_0. f_equal. lia.
  - rewrite IH, <- (fmap_S_seq 1 n), <- list_fmap_compose. apply list_fmap_ext.
    intros j k Hk. apply lookup_seq in Hk as [-> Hk]. unfold compose. rewrite chunk_drop.
    by replace (i + 1 + Z.of_nat (1 + j) - 1) with (i + Z.of_nat (S (1 + j)) - 1) by lia.
Qed.

Lemma chunks_concat n rem :
  (length rem ≤ maxFragPayload * n)%nat → concat (chunk rem <$> seq 1 n) = rem.
Proof.
  revert rem. induction n as [|n IH]; intros rem Hn.
  { destruct rem; [done|cbn in Hn; lia]. }
  cbn [seq]. rewrite fmap_cons. cbn [concat].
  rewrite <- (take_drop maxFragPayload rem) at 3. f_equal.
  rewrite <- (IH (drop maxFragPayload rem)) by (rewrite length_drop; lia).
  rewrite <- (fmap_S_seq 1 n), <- list_fmap_compose. f_equal. apply list_fmap_ext.
  intros j k Hk. apply lookup_seq in Hk as [-> Hk]. unfold compose. by rewrite chunk_drop.
Qed.

Lemma frag_count_enough rem :
  (length rem ≤ maxFragPayload * (frag_count rem - 1))%nat ∧ (1 ≤ frag_count rem)%nat.
Proof.
  unfold frag_count. destruct (bool_decide_reflect (rem = [])) as [->|]; [cbn; lia|].
  unfold maxFragPayload.
  pose proof (Nat.div_mod_eq (length rem + 1400 - 1) 1400).
  pose proof (Nat.mod_upper_bound (length rem + 1400 - 1) 1400). lia.
Qed.

(** ** Reassembly *)

(** The indices of the fragments of a message of [total] frames. *)
Definition indices (total : nat) : gset Z := list_to_set (Z.of_nat <$> seq 1 (total - 1)).

Lemma indices_elem total i : i ∈ indices total ↔ 1 ≤ i < Z.of_nat total.
Proof.
  unfold indices. rewrite elem_of_list_to_set, list_elem_of_fmap. split.
  - intros (k & -> & Hk%elem_of_seq). lia.
  - intros Hi. exists (Z.to_nat i). split; [lia|]. apply elem_of_seq. lia.
Qed.

Lemma indices_size total : size (indices total) = (total - 1)%nat.
Proof.
  unfold indices. rewrite size_list_to_set; [by rewrite length_fmap, length_seq|].
  apply NoDup_fmap_2; [apply _ | apply NoDup_seq].
Qed.

(** Part of the message [m], [first], [rem] is here: some fragments, each in its place. *)
Record partial (resp : bool) (m : bearerEnvelope) (first rem : bytes) (total : nat)
    (rm : reasmMsg) : Prop := {
  pa_resp : isResp rm = resp; pa_meta : meta rm = m; pa_first : firstFrag rm = first;
  pa_frags : ∀ i p, frags rm !! i = Some p → i ∈ indices total ∧ p = chunk rem (Z.to_nat i) }.

Lemma partial_full resp m first rem total rm :
  FragTotal m = Z.of_nat total → (length rem ≤ maxFragPayload * (total - 1))%nat →
  partial resp m first rem total rm → (total - 1 ≤ size (frags rm))%nat →
  assemble rm = first ++ rem.
Proof.
  intros Ht Hlen [H1 H2 H3 H4] Hs. unfold assemble. rewrite H2, H3, Ht, Nat2Z.id. f_equal.
  assert (Hd : dom (frags rm) = indices total).
  { apply set_subseteq_size_eq.
    - intros i Hi. apply elem_of_dom in Hi as [p Hp]. by apply H4 in Hp as [? _].
    - rewrite indices_size. by rewrite size_dom. }
  rewrite <- (chunks_concat (total - 1) rem) by done. f_equal. apply list_fmap_ext.
  intros j k Hk. apply lookup_seq in Hk as [-> Hk].
  assert (Hin : Z.of_nat (1 + j) ∈ dom (frags rm)) by (rewrite Hd; apply indices_elem; lia).
  apply elem_of_dom in Hin as [p Hp]. rewrite Hp. cbn [from_option].
  apply H4 in Hp as [_ ->]. by rewrite Nat2Z.id.
Qed.

(** The exchange [reqID] of a message [m] whose body is [first ++ rem]. *)
Section message.
Variables (reqID : bytes) (resp : bool) (m : bearerEnvelope) (first rem : bytes) (total : nat).
Hypothesis Hid : length reqID = 16%nat.
Hypothesis Htotal : FragTotal m = Z.of_nat total.
Hypothesis Hrem : (length rem ≤ maxFragPayload * (total - 1))%nat.
Hypothesis Hbound : Z.of_nat total ≤ 65536.

Definition own_frame (k : nat) : bytes :=
  frame type_B reqID (Z.of_nat k) (Z.of_nat total) (chunk rem k).

(** A fragment of this message, or a frame of another exchange. *)
Definition arrives (f : bytes) : Prop :=
  (∃ k, (1 ≤ k < total)%nat ∧ f = own_frame k) ∨ slice 5 21 f ≠ reqID.

Definition completed : bearer_event :=
  if resp then Deliver reqID m (first ++ rem) else ServeReq reqID m (first ++ rem).

Definition mine (es : list bearer_event) : list bearer_event :=
  filter (λ e, event_id e = reqID) es.

Definition awaited (b : UDPDataBearer) : Prop := resp = true → reqID ∈ waiters b.

Lemma chunk_length k : Z.of_nat (length (chunk rem k)) < 65536.
Proof. unfold chunk. rewrite length_take. unfold maxFragPayload. lia. Qed.

Lemma mine_others es : Forall (λ e, event_id e ≠ reqID) es → mine es = [].
Proof.
  intros H'. unfold mine. induction H' as [|e es He _ IH]; [done|].
  by rewrite filter_cons, decide_False.
Qed.

Lemma receive_cons f fs b :
  receive (f :: fs) b =
  ((receive fs (HandleInbound f b).1).1,
   (HandleInbound f b).2 ++ (receive fs (HandleInbound f b).1).2).
Proof.
  cbn [receive]. destruct (HandleInbound f b) as [b1 e1]. cbn.
  by destruct (receive fs b1).
Qed.

Lemma receive_after fs b :
  Forall arrives fs → reasm b !! reqID = None → mine (receive fs b).2 = [].
Proof.
  intros Hf. revert b. induction Hf as [|f fs Hf _ IH]; intros b Hb; [done|].
  rewrite receive_cons. cbn [snd]. unfold mine. rewrite filter_app.
  destruct Hf as [(k & Hk & ->)|Ho].
  - unfold own_frame. rewrite handle_ignored by (done || apply chunk_length). by apply IH.
  - destruct (handle_other f reqID b Ho) as [[H1 _] H2].
    fold (mine (HandleInbound f b).2). rewrite mine_others by done.
    apply IH. by rewrite H1.
Qed.

(** Before the envelope the fragments are dropped. *)
Lemma receive_before fs b :
  Forall arrives fs → reasm b !! reqID = None →
  mine (receive fs b).2 = [] ∧ same_exchange reqID b (receive fs b).1.
Proof.
  intros Hf Hb. split; [by apply receive_after|]. revert b Hb.
  induction Hf as [|f fs Hf _ IH]; intros b Hb; [done|]. rewrite receive_cons. cbn [fst].
  destruct Hf as [(k & Hk & ->)|Ho].
  - unfold own_frame. rewrite handle_ignored by (done || apply chunk_length). by apply IH.
  - destruct (handle_other f reqID b Ho) as [[H1 H2] _].
    destruct (IH (HandleInbound f b).1) as [H3 H4]; [by rewrite H1|].
    split; [by rewrite H3|by rewrite H4].
Qed.

Lemma complete_done b rm :
  reasm b !! reqID = Some rm → partial resp m first rem total rm → awaited b →
  (total - 1 ≤ size (frags rm))%nat →
  (onComplete reqID b).2 = [completed] ∧ reasm (onComplete reqID b).1 !! reqID = None.
Proof.
  intros Hrm Hp Hw Hs. unfold awaited in Hw. unfold onComplete, completed. rewrite Hrm.
  rewrite (partial_full resp m first rem total rm Htotal Hrem Hp Hs).
  destruct Hp as [-> -> _ _].
  destruct resp; [rewrite bool_decide_eq_true_2 by (by apply Hw)|];
    cbn; by rewrite lookup_delete_eq.
Qed.

Lemma put_partial k rm :
  (1 ≤ k < total)%nat → partial resp m first rem total rm →
  partial resp m first rem total (put_frag (Z.of_nat k) (chunk rem k) rm).
Proof.
  intros Hk [H1 H2 H3 H4]. split; [done..|]. cbn. intros i p.
  rewrite lookup_insert_Some. intros [[<- <-]|[_ Hp]]; [|by apply H4].
  rewrite Nat2Z.id. split; [apply indices_elem; lia | done].
Qed.

Lemma size_pending rm :
  partial resp m first rem total rm →
  (∀ k, (1 ≤ k < total)%nat → is_Some (frags rm !! Z.of_nat k)) → (total - 1 ≤ size (frags rm))%nat.
Proof.
  intros _ H'. rewrite <- size_dom, <- (indices_size total). apply subseteq_size.
  intros i Hi%indices_elem. apply elem_of_dom.
  replace i with (Z.of_nat (Z.to_nat i)) by lia. apply H'. lia.
Qed.

Lemma receive_pending fs b rm :
  Forall arrives fs → reasm b !! reqID = Some rm → partial resp m first rem total rm →
  awaited b → (size (frags rm) < total - 1)%nat →
  (∀ k, (1 ≤ k < total)%nat → is_Some (frags rm !! Z.of_nat k) ∨ own_frame k ∈ fs) →
  mine (receive fs b).2 = [completed].
Proof.
  intros Hf. revert b rm. induction Hf as [|f fs Hf Hfs IH]; intros b rm Hrm Hp Hw Hs Hall.
  { pose proof (size_pending rm Hp) as Hfull. exfalso.
    enough (total - 1 ≤ size (frags rm))%nat by lia. apply Hfull.
    intros k Hk. destruct (Hall k Hk) as [?|Hin]; [done|]. by apply not_elem_of_nil in Hin. }
  rewrite receive_cons. cbn [snd]. unfold mine. rewrite filter_app.
  fold (mine (HandleInbound f b).2) (mine (receive fs (HandleInbound f b).1).2).
  destruct Hf as [(k & Hk & ->)|Ho].
  - pose proof (put_partial k rm Hk Hp) as Hp'. set (rm' := put_frag _ _ rm) in *.
    assert (Hrm' : reasm (set_reasm reqID rm' b) !! reqID = Some rm') by apply lookup_insert_eq.
    unfold own_frame. rewrite (handle_fragment _ _ _ _ _ rm) by (done || lia || apply chunk_length).
    rewrite (pa_meta _ _ _ _ _ _ Hp), Htotal. fold rm'.
    change (<[Z.of_nat k := chunk rem k]> (frags rm)) with (frags rm'). cbv zeta.
    destruct (Z.leb_spec (Z.of_nat total - 1) (Z.of_nat (size (frags rm')))) as [Hc|Hc].
    + destruct (complete_done _ rm' Hrm' Hp' Hw ltac:(lia)) as [-> H2].
      rewrite (receive_after fs _ Hfs H2). unfold mine, completed.
      destruct resp; by rewrite filter_cons, decide_True.
    + cbn [fst snd]. apply (IH _ rm' Hrm' Hp' Hw); [lia|].
      intros j Hj. destruct (decide (j = k)) as [->|Hjk].
      * left. unfold rm'. cbn. rewrite lookup_insert_eq. by eexists.
      * destruct (Hall j Hj) as [?|[E|?]%elem_of_cons]; [left| |by right].
        -- unfold rm'. cbn. by rewrite lookup_insert_ne by lia.
        -- exfalso. apply Hjk. apply (f_equal (slice 21 23)) in E.
           destruct (frame_fields type_B reqID (Z.of_nat j) (Z.of_nat total) (chunk rem j) Hid
                       (chunk_length j)) as (_ & _ & _ & _ & E1 & _).
           destruct (frame_fields type_B reqID (Z.of_nat k) (Z.of_nat total) (chunk rem k) Hid
                       (chunk_length k)) as (_ & _ & _ & _ & E2 & _).
           unfold own_frame in E. rewrite E1, E2 in E. apply (f_equal be_value) in E.
           rewrite !be_value_uint16 in E by lia. lia.
  - destruct (handle_other f reqID b Ho) as [[H1 H2] H3]. rewrite mine_others by done.
    apply (IH _ rm); [by rewrite H1 | done | intros Hr; by apply H2, Hw | done |].
    intros k Hk. destruct (Hall k Hk) as [?|[E|?]%elem_of_cons]; [by left| |by right].
    exfalso. apply Ho. rewrite <- E.
    by destruct (frame_fields type_B reqID (Z.of_nat k) (Z.of_nat total) (chunk rem k) Hid
                   (chunk_length k)) as (_ & _ & _ & ? & _).
Qed.
End message.

(** What [sendFrames] sent, taken apart. *)
Lemma send_parts reqID typ m body env frs :
  sendFrames reqID typ m body = Ok (env :: frs) →
  ∃ n j, (n ≤ firstFragCap)%nat ∧
    marshal_meta (with_totals m (Z.of_nat (length body)) (Z.of_nat (1 + length frs))) = Some j ∧
    env = frame typ reqID 0 (Z.of_nat (1 + length frs))
            (put_uint32 (Z.of_nat (length j)) ++ j ++ take n body) ∧
    frs = own_frame reqID (drop n body) (1 + length frs) <$> seq 1 (length frs) ∧
    (length (drop n body) ≤ maxFragPayload * length frs)%nat ∧
    (frs ≠ [] → drop n body ≠ []).
Proof.
  unfold sendFrames. destruct (marshal_meta _) as [prov|]; [|done].
  set (n := first_len prov body). set (total := frag_count (drop n body)).
  destruct (marshal_meta _) as [j|] eqn:Hj; [|done]. intros [= <- <-].
  destruct (frag_count_enough (drop n body)) as [Hen Hone]. fold total in Hen, Hone.
  rewrite fragments_eq, length_fmap, length_seq.
  replace (1 + (total - 1))%nat with total by lia.
  exists n, j. split_and!; [unfold n, first_len; lia | done | done | | done |].
  - apply list_fmap_ext. intros k i Hi. apply lookup_seq in Hi as [-> Hi].
    unfold own_frame. by replace (1 + Z.of_nat (1 + k) - 1) with (Z.of_nat (1 + k)) by lia.
  - intros Hne E. apply Hne. unfold total, frag_count. by rewrite bool_decide_eq_true_2.
Qed.

Lemma receive_app fs1 fs2 b :
  (receive (fs1 ++ fs2) b).2 = (receive fs1 b).2 ++ (receive fs2 (receive fs1 b).1).2.
Proof.
  revert b. induction fs1 as [|f fs1 IH]; intros b; [done|].
  cbn [app]. rewrite !receive_cons. cbn [fst snd]. by rewrite IH, app_assoc.
Qed.

(** C13. The UDP bearer delivers what was sent: when the envelope of a message
    arrives once and every fragment arrives after it at least once, then whatever
    the order of the fragments, however often each is repeated, before the
    envelope (where it is dropped) and after it, and whatever frames of other
    exchanges come in between, the receiver completes the message exactly once,
    with the metadata and the body that were sent.  The message has a fresh
    request id and an envelope datagram and a fragment count that fit their
    16-bit fields, and its metadata survive JSON. *)
Theorem bearer_round_trip reqID typ m body env frs pre fs b :
  let m' := with_totals m (Z.of_nat (length body)) (Z.of_nat (1 + length frs)) in
  (∀ j, marshal_meta m' = Some j → unmarshal_meta j = Some m') →
  length reqID = 16%nat → is_envelope typ →
  sendFrames reqID typ m body = Ok (env :: frs) →
  Z.of_nat (length env) < 65536 → Z.of_nat (length frs) < 65536 →
  (∀ f, f ∈ pre ++ fs → f ∈ frs ∨ slice 5 21 f ≠ reqID) → (∀ f, f ∈ frs → f ∈ fs) →
  reasm b !! reqID = None → (typ = type_S → reqID ∈ waiters b) →
  mine reqID (receive (pre ++ env :: fs) b).2 =
  [if typ =? type_S then Deliver reqID m' body else ServeReq reqID m' body].
Proof.
  intros m' Hlaw Hid Htyp Hsend Henv Hcount Hfs Hall Hfresh Hw0.
  destruct (send_parts _ _ _ _ _ _ Hsend) as (n & j & _ & Hj & -> & Hfrs & Hrem & _).
  set (total := (1 + length frs)%nat) in *. set (first := take n body) in *.
  set (rem := drop n body) in *. specialize (Hlaw _ Hj).
  assert (Hp : Z.of_nat (4 + length j + length first) < 65536).
  { unfold frame in Henv. rewrite !length_app in Henv. cbn in Henv. lia. }
  assert (Hbody : body = first ++ rem) by (symmetry; apply take_drop).
  assert (Harr : Forall (arrives reqID rem total) (pre ++ fs)).
  { apply Forall_forall. intros f Hf. destruct (Hfs f Hf) as [Hin|?]; [left|by right].
    rewrite Hfrs in Hin. apply list_elem_of_fmap in Hin as (k & -> & Hk%elem_of_seq).
    exists k. split; [lia|done]. }
  apply Forall_app in Harr as [Hpre Harr].
  assert (Hrem' : (length rem ≤ maxFragPayload * (total - 1))%nat)
    by (unfold total; by replace (1 + length frs - 1)%nat with (length frs) by lia).
  destruct (receive_before reqID rem total Hid Hrem' pre b Hpre Hfresh) as [Hno [_ Hww]].
  rewrite receive_app. unfold mine. rewrite filter_app. fold (mine reqID (receive pre b).2).
  rewrite Hno. cbn [app]. clear Hno. set (b' := (receive pre b).1) in *. clearbody b'.
  assert (Hw : typ = type_S → reqID ∈ waiters b') by (intros Et; by apply Hww, Hw0).
  clear Hww Hw0 Hfresh b. rename b' into b.
  rewrite receive_cons. cbn [snd]. rewrite filter_app.
  rewrite (handle_envelope _ _ _ _ _ _ m' Hid Htyp Hp Hlaw).
  set (rm := {| isResp := typ =? type_S |}). cbv zeta.
  replace (if typ =? type_S then Deliver reqID m' body else ServeReq reqID m' body)
    with (completed reqID (typ =? type_S) m' first rem) by (unfold completed; by rewrite <- Hbody).
  assert (Hrm : reasm (set_reasm reqID rm b) !! reqID = Some rm) by apply lookup_insert_eq.
  assert (Hpa : partial (typ =? type_S) m' first rem total rm)
    by (split; [done..|]; intros i p; cbn; by rewrite lookup_empty).
  assert (Haw : awaited reqID (typ =? type_S) (set_reasm reqID rm b)).
  { intros Et%Z.eqb_eq. by apply Hw. }
  destruct (Z.leb_spec (FragTotal m') 1) as [Hle|Hgt]; cbn in Hle || cbn in Hgt.
  - destruct (complete_done reqID (typ =? type_S) m' first rem total eq_refl Hrem' _ rm Hrm Hpa Haw)
      as [-> H2]; [lia|].
    fold (mine reqID (receive fs (onComplete reqID (set_reasm reqID rm b)).1).2).
    rewrite (receive_after reqID rem total Hid Hrem' fs _ Harr H2). unfold completed.
    destruct (typ =? type_S); by rewrite filter_cons, decide_True.
  - cbn [fst snd]. eapply (receive_pending reqID (typ =? type_S) m' first rem total);
      [done|done|done|unfold total; lia|done|exact Hrm|done|done|cbn [frags rm]; rewrite map_size_empty; unfold total; lia|].
    intros k Hk. right. apply Hall. rewrite Hfrs. apply list_elem_of_fmap.
    exists k. split; [done|]. apply elem_of_seq. lia.
Qed.

(** ** Fragments that do not belong *)

Definition stray_frame (reqID : bytes) (s : Z * bytes) : bytes := frame type_B reqID s.1 0 s.2.

(** A fragment index past the end of a message of [total] frames. *)
Definition past_end (total : nat) (s : Z * bytes) : Prop :=
  Z.of_nat total ≤ s.1 < 65536 ∧ Z.of_nat (length s.2) < 65536.

Lemma assemble_strays rm total :
  FragTotal (meta rm) = Z.of_nat total → (∀ i, i ∈ dom (frags rm) → Z.of_nat total ≤ i) →
  assemble rm = firstFrag rm.
Proof.
  intros Ht Hk. unfold assemble. rewrite Ht, Nat2Z.id.
  assert (Hn : ∀ k, (1 ≤ k < total)%nat → frags rm !! Z.of_nat k = None).
  { intros k Hk'. apply not_elem_of_dom. intros Hd. apply Hk in Hd. lia. }
  assert (He : concat ((λ i, default [] (frags rm !! Z.of_nat i)) <$> seq 1 (total - 1)) = []).
  { apply concat_nil_Forall, Forall_fmap, Forall_seq. intros k Hk'. cbn. by rewrite Hn by lia. }
  rewrite He. apply app_nil_r.
Qed.

Lemma receive_strays reqID total strays b rm :
  length reqID = 16%nat → FragTotal (meta rm) = Z.of_nat total →
  reasm b !! reqID = Some rm → (isResp rm = true → reqID ∈ waiters b) →
  Forall (past_end total) strays → NoDup strays.*1 →
  (∀ i, i ∈ dom (frags rm) → Z.of_nat total ≤ i ∧ i ∉ strays.*1) →
  (size (frags rm) + length strays = total - 1)%nat → strays ≠ [] →
  mine reqID (receive (stray_frame reqID <$> strays) b).2 =
  [if isResp rm then Deliver reqID (meta rm) (firstFrag rm)
   else ServeReq reqID (meta rm) (firstFrag rm)].
Proof.
  intros Hid. revert b rm. induction strays as [|[i p] strays IH]; [done|].
  intros b rm Ht Hrm Hw Hp Hnd Hd Hs _. apply Forall_cons in Hp as [[Hi Hpl] Hp].
  rewrite fmap_cons in Hnd. apply NoDup_cons in Hnd as [Hni Hnd]. cbn in Hi, Hpl, Hni.
  rewrite fmap_cons, receive_cons. cbn [snd]. unfold mine at 1. rewrite filter_app.
  pose proof (handle_fragment reqID i 0 p b rm Hid Hpl ltac:(lia) Hrm) as Hh.
  change (frame type_B reqID i 0 p) with (stray_frame reqID (i, p)) in Hh.
  rewrite Hh. clear Hh. cbv zeta. rewrite Ht.
  assert (Hsz : size (<[i := p]> (frags rm)) = S (size (frags rm))).
  { apply map_size_insert_None, not_elem_of_dom. intros Hin. apply Hd in Hin as [_ Hin].
    apply Hin. rewrite fmap_cons. left. }
  rewrite Hsz. cbn [length] in Hs.
  destruct (Z.leb_spec (Z.of_nat total - 1) (Z.of_nat (S (size (frags rm))))) as [Hc|Hc].
  - assert (strays = []) as -> by (destruct strays; [done|cbn [length] in Hs; lia]).
    unfold onComplete. cbn [reasm set_reasm]. rewrite lookup_insert_eq.
    rewrite (assemble_strays (put_frag i p rm) total Ht).
    2:{ intros k Hk. cbn in Hk. rewrite dom_insert, elem_of_union, elem_of_singleton in Hk.
        destruct Hk as [->|Hk]; [lia|]. by apply Hd. }
    cbn [isResp put_frag meta firstFrag waiters set_reasm].
    destruct (isResp rm); [rewrite bool_decide_eq_true_2 by (by apply Hw)|];
      cbn [fmap list_fmap receive fst snd app]; by rewrite filter_cons, decide_True.
  - cbn [fst snd]. rewrite filter_nil. cbn [app].
    apply (IH (set_reasm reqID (put_frag i p rm) b) (put_frag i p rm)); try done.
    + apply lookup_insert_eq.
    + intros k Hk. cbn in Hk. rewrite dom_insert, elem_of_union, elem_of_singleton in Hk.
      destruct Hk as [->|Hk]; [split; [lia|done]|]. destruct (Hd k Hk) as [? Hk'].
      rewrite fmap_cons, not_elem_of_cons in Hk'. by destruct Hk'.
    + cbn. rewrite Hsz. lia.
    + intros ->. cbn [length] in Hs. lia.
Qed.

(** (A defect.) The receiver counts fragments without looking at their indices or at
    the announced length of the body: as many stray frames with indices past the end
    as the message has fragments complete it, and what is delivered as a success is
    the first part of the body alone. *)
Theorem stray_fragments_truncate reqID typ m body env frs strays b :
  let m' := with_totals m (Z.of_nat (length body)) (Z.of_nat (1 + length frs)) in
  (∀ j, marshal_meta m' = Some j → unmarshal_meta j = Some m') →
  length reqID = 16%nat → is_envelope typ →
  sendFrames reqID typ m body = Ok (env :: frs) → Z.of_nat (length env) < 65536 →
  (typ = type_S → reqID ∈ waiters b) →
  frs ≠ [] → length strays = length frs → NoDup strays.*1 →
  Forall (past_end (1 + length frs)) strays →
  ∃ n, take n body ≠ body ∧
    mine reqID (receive (env :: (stray_frame reqID <$> strays)) b).2 =
    [if typ =? type_S then Deliver reqID m' (take n body) else ServeReq reqID m' (take n body)].
Proof.
  intros m' Hlaw Hid Htyp Hsend Henv Hw Hne Hlen Hnd Hpast.
  destruct (send_parts _ _ _ _ _ _ Hsend) as (n & j & _ & Hj & -> & _ & _ & Hrem).
  specialize (Hlaw _ Hj). exists n. split.
  { intros E. apply (Hrem Hne). rewrite <- (take_drop n body) in E at 2.
    rewrite <- (app_nil_r (take n body)) in E at 1. by apply app_inv_head in E. }
  assert (Hp : Z.of_nat (4 + length j + length (take n body)) < 65536).
  { unfold frame in Henv. rewrite !length_app in Henv. cbn in Henv. lia. }
  rewrite receive_cons. cbn [snd]. unfold mine at 1. rewrite filter_app.
  rewrite (handle_envelope _ _ _ _ _ _ m' Hid Htyp Hp Hlaw). cbv zeta.
  assert (1 ≤ length frs)%nat by (destruct frs; [done|cbn; lia]).
  destruct (Z.leb_spec (FragTotal m') 1) as [Hle|_]; [cbn in Hle; lia|].
  cbn [fst snd]. rewrite filter_nil. cbn [app].
  set (rm := {| isResp := typ =? type_S |}).
  apply (receive_strays reqID (1 + length frs) strays (set_reasm reqID rm b) rm); try done.
  - apply lookup_insert_eq.
  - intros Et%Z.eqb_eq. by apply Hw.
  - cbn [frags rm]. rewrite map_size_empty. lia.
  - intros ->. cbn in Hlen. lia.
Qed.

(** Every datagram fits an Ethernet frame when the metadata leave room: with at most
    1373 bytes of metadata (the totals filled in adding at most five digits), no
    datagram of a message exceeds 1500 bytes, and the message takes no more
    datagrams than its body needs. *)
Theorem frames_fit_mtu reqID typ m body prov fs :
  length reqID = 16%nat →
  marshal_meta (with_totals m (Z.of_nat (length body)) (FragTotal m)) = Some prov →
  (length prov ≤ 1373)%nat →
  (∀ n j, marshal_meta (with_totals m (Z.of_nat (length body)) n) = Some j →
     (length j ≤ length prov + 5)%nat) →
  sendFrames reqID typ m body = Ok fs →
  Forall (λ f, (length f ≤ 1500)%nat) fs ∧
  (length body ≤ firstFragCap + maxFragPayload * (length fs - 1))%nat ∧
  ((2 ≤ length fs)%nat → (maxFragPayload * (length fs - 2) < length body)%nat).
Proof.
  intros Hid Hprov Hlen Hj. unfold sendFrames. rewrite Hprov.
  set (n := first_len prov body).
  destruct (marshal_meta (with_totals m _ (Z.of_nat _))) as [j|] eqn:Ej; [|done].
  intros [= <-]. specialize (Hj _ _ Ej).
  assert (Hhead : ∀ typ i t p, length (frame typ reqID i t p) = (27 + length p)%nat).
  { intros. unfold frame. rewrite !length_app, Hid. cbn. lia. }
  rewrite fragments_eq. cbn [length]. rewrite length_fmap, length_seq. split.
  - apply Forall_cons. split.
    + rewrite Hhead. cbn [length]. rewrite length_app, length_take.
      unfold n, first_len, maxFragPayload, firstFragCap, frameHeaderLen. lia.
    + apply Forall_fmap, Forall_seq. intros k _. unfold compose. rewrite Hhead.
      unfold chunk. rewrite length_take. unfold maxFragPayload. lia.
  - pose proof (length_drop body n). assert (n ≤ firstFragCap)%nat by (unfold n, first_len; lia).
    unfold frag_count. destruct (bool_decide_reflect (drop n body = [])) as [E|Hne].
    { rewrite E in *. cbn [length] in *. cbn [Nat.sub]. lia. }
    assert (Hd : (1 ≤ length (drop n body))%nat) by (destruct (drop n body); [done|cbn; lia]). set (r := length (drop n body)) in *.
    unfold maxFragPayload.
    pose proof (Nat.div_mod_eq (r + 1400 - 1) 1400).
    pose proof (Nat.mod_upper_bound (r + 1400 - 1) 1400). lia.
Qed.
End exchange.

(** ** An exchange *)

#[local] Instance plain_bearer : BearerEnv := {|
  marshal_meta m := Some (put_uint32 (BodyTotal m) ++ put_uint32 (FragTotal m));
  unmarshal_meta j := Some {|
    Method := ""; Path := ""; Query := ""; Status := 200; Headers := [];
    BodyTotal := be_value (take 4 j); FragTotal := be_value (drop 4 j) |} |}.

Definition meta_ex : bearerEnvelope := {|
  Method := ""; Path := ""; Query := ""; Status := 200; Headers := []; BodyTotal := 0; FragTotal := 0 |}.
Definition id_ex : bytes := seqZ 1 16.
Definition body_ex : bytes := replicate 3000 7.
Definition sent_ex : list bytes :=
  match sendFrames id_ex type_S meta_ex body_ex with Ok fs => fs | Err _ => [] end.
Definition bearer_ex : UDPDataBearer := {| reasm := ∅; waiters := {[id_ex]} |}.
Definition deliver_ex (body : bytes) : bearer_event :=
  Deliver id_ex (with_totals meta_ex 3000 3) body.

Lemma plain_law j :
  let m' := with_totals meta_ex 3000 3 in
  marshal_meta m' = Some j → unmarshal_meta j = Some m'.
Proof. intros m' [= <-]. vm_compute. reflexivity. Qed.

Lemma sent_ex_ok : sendFrames id_ex type_S meta_ex body_ex = Ok (default [] (head sent_ex) :: tail sent_ex).
Proof. vm_compute. reflexivity. Qed.

(** A fragment comes before the envelope; then both, in the wrong order, one of
    them twice. *)
Lemma bearer_round_trip_witness :
  mine id_ex (receive (tail (tail sent_ex) ++ default [] (head sent_ex)
                         :: reverse (tail sent_ex) ++ tail sent_ex) bearer_ex).2
  = [deliver_ex body_ex].
Proof.
  refine (bearer_round_trip id_ex type_S meta_ex body_ex (default [] (head sent_ex)) (tail sent_ex)
            (tail (tail sent_ex)) (reverse (tail sent_ex) ++ tail sent_ex) bearer_ex plain_law
            _ _ sent_ex_ok _ _ _ _ _ _).
  - reflexivity.
  - by right.
  - vm_compute. reflexivity.
  - vm_compute. reflexivity.
  - intros f [Hf|[Hf%elem_of_reverse|Hf]%elem_of_app]%elem_of_app; left; [|done..].
    clear - Hf. destruct (tail sent_ex); [done|by right].
  - intros f Hf. apply elem_of_app. by right.
  - reflexivity.
  - intros _. apply (bool_decide_unpack _). vm_compute. exact I.
Defined.

(** (A defect.) The envelope must come once: UDP may repeat a datagram, and the
    envelope of a request that fits one frame is then served twice; repeated in
    the midst of a longer message it drops the fragments already here. *)
Example repeated_envelope :
  let req := match sendFrames id_ex type_Q meta_ex [1; 2; 3] with Ok fs => fs | Err _ => [] end in
  let env := default [] (head sent_ex) in
  length (receive (req ++ req) bearer_ex).2 = 2%nat ∧
  (receive (env :: take 1 (tail sent_ex) ++ env :: drop 1 (tail sent_ex)) bearer_ex).2 = [].
Proof. vm_compute. done. Qed.

Lemma stray_fragments_truncate_witness :
  ∃ n, take n body_ex ≠ body_ex ∧
    mine id_ex (receive (default [] (head sent_ex) ::
                           (stray_frame id_ex <$> [(100, []); (200, [])])) bearer_ex).2
    = [deliver_ex (take n body_ex)].
Proof.
  refine (stray_fragments_truncate id_ex type_S meta_ex body_ex (default [] (head sent_ex))
            (tail sent_ex) [(100, []); (200, [])] bearer_ex plain_law _ _ sent_ex_ok _ _ _ _ _ _).
  - reflexivity.
  - by right.
  - vm_compute. reflexivity.
  - intros _. apply (bool_decide_unpack _). vm_compute. exact I.
  - vm_compute. discriminate.
  - vm_compute. reflexivity.
  - apply (bool_decide_unpack _). vm_compute. exact I.
  - apply Forall_forall. intros s Hs.
    apply elem_of_cons in Hs as [->|Hs]; [|apply list_elem_of_singleton in Hs as ->];
      (split; [split; [by vm_compute|reflexivity] | reflexivity]).
Defined.

Lemma frames_fit_mtu_witness :
  Forall (λ f, (length f ≤ 1500)%nat) sent_ex.
Proof.
  refine (proj1 (frames_fit_mtu id_ex type_S meta_ex body_ex (put_uint32 3000 ++ put_uint32 0)
            sent_ex _ _ _ _ _)).
  - reflexivity.
  - reflexivity.
  - cbn. lia.
  - intros n j [= <-]. cbn. lia.
  - vm_compute. reflexivity.
Defined.
