(* ===== verification/GuestKeys.v ===== *)
(** * Guest keys and their quotas (network_keys.go)

    The node's owner issues guest keys; [GuestKeyStore] holds their records and
    [guestKeyUsageTracker] what each has used in the current UTC day, hour and
    minute. Writing the two files is outside the model. *)

From S2P Require Import Prelude GoTime Sha256.

Inductive KeyType := KeyTypeProxy | KeyTypeGuest | KeyTypePublic | KeyTypeUnknown.

#[export] Instance KeyType_eq_dec : EqDecision KeyType.
Proof. solve_decision. Defined.

Definition PublicKeyValue : string := "sk-openmodelpool-com-github-lisiyu-openmodelpool-public-key-v1".

Definition ClassifyKey (key : string) : KeyType :=
  if bool_decide (key = PublicKeyValue) then KeyTypePublic
  else if has_prefix "sk-guest-" key then KeyTypeGuest
  else if has_prefix "sk-" key then KeyTypeProxy
  else KeyTypeUnknown.

Record GuestKeyRecord := {
  Key : string; NodeID : string; RandomPart : string; IssuedAt : string; Revoked : bool;
  Quota : Z; QuotaHourly : Z; QuotaPerRequest : Z; RPM : Z; ExpDays : Z; ExpiresAt : string;
  Note : string; ShareType : string }.

Record GuestKeyOptions := {
  o_Quota : Z; o_QuotaHourly : Z; o_QuotaPerRequest : Z; o_RPM : Z; o_ExpDays : Z; o_Note : string }.

Definition keys := list GuestKeyRecord.

(** [t.AddDate(0, 0, n)] in a location: the same clock time [n] days later. *)
Definition add_days (loc : Location) (t : Time) (n : Z) : Time :=
  let local := local_seconds loc t + n * 86400 in
  let o := loc (local * second) in
  let utc := local - o in
  let o' := if o =? 0 then 0 else if loc (utc * second) =? o then o else loc (utc * second) in
  (local - o') * second + t mod second.

(** [rand] is what [crypto/rand] returned, [None] when it failed. *)
Definition GenerateGuestKey (loc : Location) (now : Time) (rand : option (list Z)) (nodeID : string)
    (opt : option GuestKeyOptions) (ks : keys) : res string * keys :=
  if bool_decide (nodeID = "") then (Err "node_id is required", ks)
  else match rand with
  | None => (Err "generate random", ks)
  | Some bs =>
      let randomPart := hex bs in
      let fullKey := "sk-guest-" +:+ nodeID +:+ "-" +:+ randomPart in
      let issued := fmt_rfc3339 loc now in
      let record := match opt with
        | None => {| Key := fullKey; NodeID := nodeID; RandomPart := randomPart; IssuedAt := issued;
                     Revoked := false; Quota := 0; QuotaHourly := 0; QuotaPerRequest := 0; RPM := 0;
                     ExpDays := 0; ExpiresAt := ""; Note := ""; ShareType := "" |}
        | Some o => {| Key := fullKey; NodeID := nodeID; RandomPart := randomPart; IssuedAt := issued;
                     Revoked := false; Quota := o_Quota o; QuotaHourly := o_QuotaHourly o;
                     QuotaPerRequest := o_QuotaPerRequest o; RPM := o_RPM o; ExpDays := o_ExpDays o;
                     ExpiresAt := if 0 <? o_ExpDays o
                                  then fmt_rfc3339 loc (add_days loc now (o_ExpDays o)) else "";
                     Note := o_Note o; ShareType := "" |}
        end in
      (Ok fullKey, ks ++ [record])
  end.

(** What precedes and follows the last [c] of a string. *)
Fixpoint split_last (c : ascii) (s : string) : option (string * string) :=
  match s with
  | EmptyString => None
  | String x s' =>
      match split_last c s' with
      | Some (a, b) => Some (String x a, b)
      | None => if Ascii.eqb x c then Some ("", s') else None
      end
  end.

Definition ParseGuestKeyFormat (key : string) : option string :=
  match strip_prefix "sk-guest-" key with
  | None => None
  | Some rest =>
      match split_last "-" rest with
      | None => None
      | Some (node, random) =>
          if bool_decide (node = "") || bool_decide (random = "") then None else Some node
      end
  end.

Definition expired (now : Time) (rec : GuestKeyRecord) : bool :=
  negb (bool_decide (ExpiresAt rec = "")) &&
  match parse_rfc3339 (ExpiresAt rec) with Some t => after now t | None => false end.

(** [None] for an invalid key; the store is [nil] until it is initialised. *)
Definition ValidateGuestKey (now : Time) (key : string) (store : option keys) : option string :=
  match ParseGuestKeyFormat key with
  | None => None
  | Some _ =>
      match store with
      | None => None
      | Some ks =>
          match find_key Key key ks with
          | None => None
          | Some rec => if Revoked rec then None
                        else if expired now rec then None else Some (NodeID rec)
          end
      end
  end.

(** The node and whether the key reaches the public pool. *)
Definition GetGuestKeyAccessPublicPool (now : Time) (shared_mode : bool) (key : string)
    (store : option keys) : option (string * bool) :=
  if negb (has_prefix "sk-guest-" key) then None
  else match store with
  | None => None
  | Some ks =>
      match find_key Key key ks with
      | None => None
      | Some rec => if Revoked rec then None
                    else if expired now rec then None else Some (NodeID rec, shared_mode)
      end
  end.

(** Rewrite the first record with the key. *)
Fixpoint update_rec (key : string) (f : GuestKeyRecord → res GuestKeyRecord) (ks : keys)
    : res unit * keys :=
  match ks with
  | [] => (Err "guest key not found", [])
  | r :: ks' =>
      if bool_decide (Key r = key)
      then match f r with Ok r' => (Ok (), r' :: ks') | Err e => (Err e, ks) end
      else let '(e, ks1) := update_rec key f ks' in (e, r :: ks1)
  end.

Definition with_policy (r : GuestKeyRecord) (revoked : bool) (note share : string) : GuestKeyRecord := {|
  Key := Key r; NodeID := NodeID r; RandomPart := RandomPart r; IssuedAt := IssuedAt r;
  Revoked := revoked; Quota := Quota r; QuotaHourly := QuotaHourly r;
  QuotaPerRequest := QuotaPerRequest r; RPM := RPM r; ExpDays := ExpDays r;
  ExpiresAt := ExpiresAt r; Note := note; ShareType := share |}.

Definition RevokeGuestKey (key : string) : keys → res unit * keys :=
  update_rec key (λ r, Ok (with_policy r true (Note r) (ShareType r))).

Fixpoint DeleteGuestKey (key : string) (ks : keys) : res unit * keys :=
  match ks with
  | [] => (Err "guest key not found", [])
  | r :: ks' =>
      if bool_decide (Key r = key)
      then if Revoked r then (Ok (), ks') else (Err "key must be revoked before deletion", ks)
      else let '(e, ks1) := DeleteGuestKey key ks' in (e, r :: ks1)
  end.

(** The mark, and its first three bytes, which is all the second test compares
    (the first test never succeeds: the mark is longer than four bytes). *)
Definition collab_mark : string := "[协作]".

Definition MarkAsCollaborator (key : string) : keys → res unit * keys :=
  update_rec key (λ r, Ok (
    if has_prefix (String.substring 0 3 collab_mark) (Note r) then r
    else with_policy r (Revoked r)
           (if bool_decide (Note r = "") then collab_mark else collab_mark +:+ " " +:+ Note r)
           (ShareType r))).

Definition SetShareType (key shareType : string) : keys → res unit * keys :=
  update_rec key (λ r,
    if bool_decide (ShareType r = "") then Ok (with_policy r (Revoked r) (Note r) shareType)
    else Err "share type already locked").

Definition GetShareType (key : string) (ks : keys) : string :=
  match find_key Key key ks with Some r => ShareType r | None => "" end.

Definition GetGuestKeyRecord (key : string) (ks : keys) : option GuestKeyRecord :=
  find_key Key key ks.

Definition UpdateGuestKeyQuotaMulti (key : string) (quota quotaHourly quotaPerRequest rpm : option Z)
    : keys → res unit * keys :=
  update_rec key (λ r, Ok {|
    Key := Key r; NodeID := NodeID r; RandomPart := RandomPart r; IssuedAt := IssuedAt r;
    Revoked := Revoked r; Quota := default (Quota r) quota;
    QuotaHourly := default (QuotaHourly r) quotaHourly;
    QuotaPerRequest := default (QuotaPerRequest r) quotaPerRequest; RPM := default (RPM r) rpm;
    ExpDays := ExpDays r; ExpiresAt := ExpiresAt r; Note := Note r; ShareType := ShareType r |}).

(** ** Usage *)

Record guestKeyUsageTracker := {
  usage : gmap string Z; day : string; hourly : gmap string Z; hour_ : string;
  rpm_ : gmap string Z; minute_ : string }.

Definition initGuestKeyUsageTracker : guestKeyUsageTracker := {|
  usage := ∅; day := ""; hourly := ∅; hour_ := ""; rpm_ := ∅; minute_ := "" |}.

(** A window: kept while its stamp is current or missing. *)
Definition roll (stamp current : string) (m : gmap string Z) : gmap string Z :=
  if bool_decide (stamp = current) || bool_decide (stamp = "") then m else ∅.

Definition ensureJournals (now : Time) (t : guestKeyUsageTracker) : guestKeyUsageTracker := {|
  usage := roll (day t) (fmt_date UTC now) (usage t); day := fmt_date UTC now;
  hourly := roll (hour_ t) (fmt_hour UTC now) (hourly t); hour_ := fmt_hour UTC now;
  rpm_ := roll (minute_ t) (fmt_minute UTC now) (rpm_ t); minute_ := fmt_minute UTC now |}.

Definition set_journals (t : guestKeyUsageTracker) (u h r : gmap string Z) : guestKeyUsageTracker := {|
  usage := u; day := day t; hourly := h; hour_ := hour_ t; rpm_ := r; minute_ := minute_ t |}.

Definition CheckAndReserve (now : Time) (key : string) (quota estimated : Z)
    (t : guestKeyUsageTracker) : bool * Z * guestKeyUsageTracker :=
  if quota <=? 0 then (true, 0, t)
  else
    let t := ensureJournals now t in
    let used := zget (usage t) key in
    let remaining := quota -! used in
    if remaining <=? 0 then (false, 0, t)
    else if (0 <? estimated) && (estimated <=? remaining)
    then (true, remaining -! estimated,
          set_journals t (<[key := used +! estimated]> (usage t)) (hourly t) (rpm_ t))
    else if estimated <=? 0 then (true, remaining, t)
    else (false, remaining, t).

(** One of the two token windows admits the estimate. *)
Definition window_admits (quota used estimated : Z) : bool :=
  if 0 <? quota
  then let remaining := quota -! used in
       negb (remaining <=? 0) && negb ((0 <? estimated) && (remaining <? estimated))
  else true.

Definition CheckAndReserveFull (now : Time) (key : string)
    (quotaDaily quotaHourly quotaPerRequest rpm estimated : Z) (t : guestKeyUsageTracker)
    : bool * Z * guestKeyUsageTracker :=
  let t := ensureJournals now t in
  if (0 <? quotaPerRequest) && (quotaPerRequest <? estimated) then (false, 0, t)
  else if negb (window_admits quotaDaily (zget (usage t) key) estimated) then (false, 0, t)
  else if negb (window_admits quotaHourly (zget (hourly t) key) estimated) then (false, 0, t)
  else if (0 <? rpm) && (rpm <=? zget (rpm_ t) key) then (false, rpm -! zget (rpm_ t) key, t)
  else
    let u := if (0 <? quotaDaily) && (0 <? estimated) then zincr key estimated (usage t) else usage t in
    let h := if (0 <? quotaHourly) && (0 <? estimated) then zincr key estimated (hourly t)
             else hourly t in
    let r := zincr key 1 (rpm_ t) in
    (true, rpm -! zget r key, set_journals t u h r).

(** [m[key] += diff], floored at zero. *)
Definition shift_floor (key : string) (diff : Z) (m : gmap string Z) : gmap string Z :=
  let m' := zincr key diff m in if zget m' key <? 0 then <[key := 0]> m' else m'.

Definition Adjust (now : Time) (key : string) (reserved actual : Z) (t : guestKeyUsageTracker)
    : guestKeyUsageTracker :=
  if (reserved <=? 0) && (actual <=? 0) then t
  else
    let t := ensureJournals now t in
    let diff := actual -! reserved in
    set_journals t (shift_floor key diff (usage t)) (shift_floor key diff (hourly t)) (rpm_ t).

Definition deny_request : string := "该 Guest Key 单次请求超出上限".
Definition deny_rpm : string := "该 Guest Key 每分钟请求数已达上限".
Definition deny_hourly : string := "该 Guest Key 的每小时额度已用尽".
Definition deny_local : string := "该 Guest Key 的本地额度已用尽".

Definition guestQuotaDenyReason (quotaPerRequest quotaDaily quotaHourly rpm estimated remaining : Z)
    : string :=
  if (0 <? quotaPerRequest) && (quotaPerRequest <? estimated) then deny_request
  else if (0 <? rpm) && (remaining <=? 0) then deny_rpm
  else if 0 <? quotaHourly then deny_hourly
  else deny_local.

Definition GetUsage (now : Time) (key : string) (t : guestKeyUsageTracker)
    : Z * guestKeyUsageTracker :=
  let t := ensureJournals now t in (zget (usage t) key, t).

(** ** Issuing and parsing *)

Lemma split_last_none c b : has_char c b = false → split_last c b = None.
Proof.
  induction b as [|x b IH]; [done|]. cbn. intros [Hx Hb]%orb_false_iff.
  by rewrite IH, Ascii.eqb_sym, Hx by done.
Qed.

Lemma split_last_app c a b :
  has_char c b = false → split_last c (a +:+ String c b) = Some (a, b).
Proof.
  intros Hb. induction a as [|x a IH].
  - rewrite append_nil_l. cbn [split_last]. by rewrite split_last_none, Ascii.eqb_refl.
  - rewrite append_cons. cbn [split_last]. by rewrite IH.
Qed.

Definition are_bytes (bs : list Z) : Prop := Forall (λ b, 0 ≤ b < 256) bs.

Lemma hex_digit_no_dash z : 0 ≤ z < 16 → Ascii.eqb "-" (hex_digit z) = false.
Proof.
  intros Hz. assert (Hn : z ∈ seqZ 0 16) by (apply elem_of_seqZ; lia).
  clear Hz. revert z Hn. apply Forall_forall. apply (bool_decide_unpack _). vm_compute. exact I.
Qed.

Lemma hex_no_dash bs : are_bytes bs → has_char "-" (hex bs) = false.
Proof.
  induction 1 as [|b bs Hb _ IH]; [done|]. cbn [hex has_char].
  rewrite !hex_digit_no_dash by zdiv. by rewrite IH.
Qed.

Definition issued_key (nodeID : string) (bs : list Z) : string :=
  "sk-guest-" +:+ nodeID +:+ "-" +:+ hex bs.

Lemma issued_parses nodeID bs :
  nodeID ≠ "" → are_bytes bs → bs ≠ [] →
  ClassifyKey (issued_key nodeID bs) = KeyTypeGuest ∧
  ParseGuestKeyFormat (issued_key nodeID bs) = Some nodeID.
Proof.
  intros Hn Hb Hne. unfold ClassifyKey, ParseGuestKeyFormat, has_prefix, issued_key.
  rewrite strip_prefix_app. split.
  - rewrite bool_decide_eq_false_2; [done|]. intros E. discriminate E.
  - change ("-" +:+ hex bs) with (String "-" (hex bs)).
    rewrite split_last_app by by apply hex_no_dash.
    rewrite !bool_decide_eq_false_2; [done| |done].
    destruct bs; [done|]. by cbn.
Qed.

(** ** Histories of the store *)

Inductive key_op :=
  | KGenerate (loc : Location) (now : Time) (rand : option (list Z)) (nodeID : string)
      (opt : option GuestKeyOptions)
  | KRevoke (key : string) | KDelete (key : string) | KMark (key : string)
  | KShare (key shareType : string)
  | KQuota (key : string) (quota quotaHourly quotaPerRequest rpm : option Z).

Definition key_exec (ks : keys) (o : key_op) : keys :=
  match o with
  | KGenerate loc now rand node opt => (GenerateGuestKey loc now rand node opt ks).2
  | KRevoke k => (RevokeGuestKey k ks).2
  | KDelete k => (DeleteGuestKey k ks).2
  | KMark k => (MarkAsCollaborator k ks).2
  | KShare k st => (SetShareType k st ks).2
  | KQuota k q h p r => (UpdateGuestKeyQuotaMulti k q h p r ks).2
  end.

Definition key_run (h : list key_op) (ks : keys) : keys := foldl key_exec ks h.

(** The key an operation issues. *)
Definition issues (o : key_op) : list string :=
  match o with
  | KGenerate _ _ (Some bs) node _ => if bool_decide (node = "") then [] else [issued_key node bs]
  | _ => []
  end.

(** The random parts make all keys, issued and to be issued, distinct. *)
Definition distinct_keys (h : list key_op) (ks : keys) : Prop :=
  NoDup ((h ≫= issues) ++ (Key <$> ks)).

Definition keeps (f : GuestKeyRecord → res GuestKeyRecord) : Prop :=
  ∀ r r', f r = Ok r' → Key r' = Key r ∧ NodeID r' = NodeID r ∧ ExpiresAt r' = ExpiresAt r ∧
    (Revoked r = true → Revoked r' = true).

Lemma update_rec_spec key f ks key' :
  keeps f →
  Key <$> (update_rec key f ks).2 = Key <$> ks ∧
  find_key Key key' (update_rec key f ks).2 =
  (r ← find_key Key key' ks;
   if decide (key = key') then Some (match f r with Ok r' => r' | Err _ => r end) else Some r).
Proof.
  intros Hf. induction ks as [|r ks [IH1 IH2]]; [done|]. cbn [update_rec].
  destruct (bool_decide_reflect (Key r = key)) as [E|N].
  - rewrite !find_key_cons. destruct (f r) as [r'|e] eqn:Ef; cbn [snd];
      rewrite fmap_cons, !find_key_cons.
    + destruct (Hf r r' Ef) as (E' & _). rewrite E'. split; [done|]. rewrite E.
      destruct (decide (key = key')); cbn; [by rewrite Ef | by destruct (find_key Key key' ks)].
    + split; [done|]. rewrite E.
      destruct (decide (key = key')); cbn; [by rewrite Ef | by destruct (find_key Key key' ks)].
  - destruct (update_rec key f ks) as [e ks1]. cbn [snd] in *.
    rewrite !fmap_cons, !find_key_cons, IH1, IH2. split; [done|].
    destruct (decide (Key r = key')); [|done]. cbn. by rewrite decide_False by congruence.
Qed.

Lemma delete_spec key ks key' :
  NoDup (Key <$> ks) →
  NoDup (Key <$> (DeleteGuestKey key ks).2) ∧
  (Key <$> (DeleteGuestKey key ks).2) `sublist_of` (Key <$> ks) ∧
  find_key Key key' (DeleteGuestKey key ks).2 =
  (r ← find_key Key key' ks;
   if decide (key = key') then (if Revoked r then None else Some r) else Some r).
Proof.
  intros Hnd. assert (Hs : (Key <$> (DeleteGuestKey key ks).2) `sublist_of` (Key <$> ks)).
  { clear Hnd. induction ks as [|r ks IH]; [done|]. cbn [DeleteGuestKey].
    destruct (bool_decide _); [destruct (Revoked r); [by apply sublist_cons|done]|].
    destruct (DeleteGuestKey key ks). by apply sublist_skip. }
  split; [by eapply sublist_NoDup|]. split; [done|]. clear Hs.
  induction ks as [|r ks IH]; [done|]. rewrite fmap_cons in Hnd. apply NoDup_cons in Hnd as [Hr Hnd].
  cbn [DeleteGuestKey]. destruct (bool_decide_reflect (Key r = key)) as [E|N].
  - apply find_key_None in Hr. destruct (Revoked r) eqn:Er; cbn [snd]; rewrite ?find_key_cons.
    + destruct (decide (Key r = key')) as [E'|N'].
      * cbn. rewrite decide_True, Er by congruence. by rewrite <- E'.
      * destruct (find_key Key key' ks); [|done]. cbn. by rewrite decide_False by congruence.
    + destruct (decide (Key r = key')) as [E'|N'].
      * cbn. by rewrite decide_True, Er by congruence.
      * destruct (find_key Key key' ks); [|done]. cbn. by rewrite decide_False by congruence.
  - specialize (IH Hnd). destruct (DeleteGuestKey key ks) as [e ks1]. cbn [snd] in *.
    rewrite !find_key_cons, IH. destruct (decide (Key r = key')); [|done].
    cbn. by rewrite decide_False by congruence.
Qed.

(** What stays of a record under the operations other than its revocation. *)
Definition same_grant (r r' : GuestKeyRecord) : Prop :=
  Key r' = Key r ∧ NodeID r' = NodeID r ∧ ExpiresAt r' = ExpiresAt r ∧ Revoked r' = Revoked r.

Lemma same_grant_refl r : same_grant r r.
Proof. done. Qed.

(** The updates the store applies to one record. *)
Definition update_of (o : key_op) : option (string * (GuestKeyRecord → res GuestKeyRecord)) :=
  match o with
  | KRevoke k => Some (k, λ r, Ok (with_policy r true (Note r) (ShareType r)))
  | KMark k => Some (k, λ r, Ok (
      if has_prefix (String.substring 0 3 collab_mark) (Note r) then r
      else with_policy r (Revoked r)
             (if bool_decide (Note r = "") then collab_mark else collab_mark +:+ " " +:+ Note r)
             (ShareType r)))
  | KShare k st => Some (k, λ r,
      if bool_decide (ShareType r = "") then Ok (with_policy r (Revoked r) (Note r) st)
      else Err "share type already locked")
  | KQuota k q h p m => Some (k, λ r, Ok {|
      Key := Key r; NodeID := NodeID r; RandomPart := RandomPart r; IssuedAt := IssuedAt r;
      Revoked := Revoked r; Quota := default (Quota r) q; QuotaHourly := default (QuotaHourly r) h;
      QuotaPerRequest := default (QuotaPerRequest r) p; RPM := default (RPM r) m;
      ExpDays := ExpDays r; ExpiresAt := ExpiresAt r; Note := Note r; ShareType := ShareType r |})
  | _ => None
  end.

Lemma update_of_exec o k f ks :
  update_of o = Some (k, f) → key_exec ks o = (update_rec k f ks).2 ∧ issues o = [].
Proof. destruct o; cbn; intros E; by simplify_eq. Qed.

Lemma update_of_keeps o k f :
  update_of o = Some (k, f) →
  keeps f ∧ (o ≠ KRevoke k → ∀ r r', f r = Ok r' → same_grant r r').
Proof.
  destruct o; cbn; intros E; simplify_eq; (split; [intros r r' Hf | intros Hne r r' Hf]);
    try done; cbn in Hf; repeat destruct (bool_decide _) in Hf; repeat destruct (has_prefix _ _) in Hf;
    simplify_eq; try done; by repeat split.
Qed.

Lemma generate_spec loc now rand node opt ks :
  let o := KGenerate loc now rand node opt in
  ∃ l, key_exec ks o = ks ++ l ∧ Key <$> l = issues o ∧
    Forall (λ r, Revoked r = false ∧ NodeID r = node) l.
Proof.
  cbn. unfold GenerateGuestKey. destruct (bool_decide (node = "")).
  { exists []. rewrite app_nil_r. by destruct rand. }
  destruct rand as [bs|]; [|by exists []; rewrite app_nil_r].
  eexists [_]. split; [done|]. destruct opt; (split; [done|by repeat constructor]).
Qed.

Lemma distinct_step h ks o :
  distinct_keys (o :: h) ks → distinct_keys h (key_exec ks o) ∧ NoDup (Key <$> ks).
Proof.
  unfold distinct_keys. rewrite bind_cons. intros Hd. split.
  2:{ rewrite <- app_assoc in Hd. apply NoDup_app in Hd as (_ & _ & Hd).
      by apply NoDup_app in Hd as (_ & _ & Hd). }
  destruct (update_of o) as [[k f]|] eqn:Eu.
  - destruct (update_of_exec o k f ks Eu) as [-> Hi]. destruct (update_of_keeps o k f Eu) as [Hk _].
    destruct (update_rec_spec k f ks "" Hk) as [-> _]. by rewrite Hi in Hd.
  - destruct o; try done; cbn [key_exec].
    + destruct (generate_spec loc now rand nodeID opt ks) as (l & E & Hl & _). cbn [key_exec] in E.
      rewrite E, fmap_app, Hl. eapply NoDup_Permutation_proper; [|exact Hd]. solve_Permutation.
    + cbn [issues] in Hd. rewrite app_nil_l in Hd. apply NoDup_app in Hd as (H1 & H2 & H3).
      destruct (delete_spec key ks "" H3) as (H4 & H5 & _).
      apply NoDup_app. split_and!; [done| |done].
      intros x Hx Hin. apply (H2 x Hx). by eapply elem_of_sublist.
Qed.

(** A key in force stays in force under everything but its revocation. *)
Lemma alive_step h ks o key r :
  distinct_keys (o :: h) ks → find_key Key key ks = Some r → Revoked r = false →
  o ≠ KRevoke key → ∃ r', find_key Key key (key_exec ks o) = Some r' ∧ same_grant r r'.
Proof.
  intros Hd Hr Hrev Hne. destruct (distinct_step h ks o Hd) as [_ Hnd].
  destruct (update_of o) as [[k f]|] eqn:Eu.
  - destruct (update_of_exec o k f ks Eu) as [-> _]. destruct (update_of_keeps o k f Eu) as [Hk Hs].
    destruct (update_rec_spec k f ks key Hk) as [_ ->]. rewrite Hr. cbn.
    destruct (decide (k = key)) as [->|]; [|by exists r].
    eexists. split; [done|]. destruct (f r) as [r'|] eqn:Ef; [by apply Hs|done].
  - destruct o; try done; cbn [key_exec].
    + destruct (generate_spec loc now rand nodeID opt ks) as (l & E & _). cbn [key_exec] in E.
      rewrite E, find_key_app, Hr. by exists r.
    + destruct (delete_spec key0 ks key Hnd) as (_ & _ & ->). rewrite Hr. cbn.
      rewrite Hrev. exists r. split; [by destruct (decide _)|done].
Qed.

(** A key that was revoked, or is gone. *)
Definition dead (key : string) (ks : keys) : Prop :=
  ∀ r, find_key Key key ks = Some r → Revoked r = true.

Lemma dead_step h ks o key :
  distinct_keys (o :: h) ks → dead key ks → key ∉ issues o → dead key (key_exec ks o).
Proof.
  intros Hd Hdead Hni. destruct (distinct_step h ks o Hd) as [_ Hnd]. intros r.
  destruct (update_of o) as [[k f]|] eqn:Eu.
  - destruct (update_of_exec o k f ks Eu) as [-> _]. destruct (update_of_keeps o k f Eu) as [Hk _].
    destruct (update_rec_spec k f ks key Hk) as [_ ->].
    destruct (find_key Key key ks) as [r0|] eqn:E0; [cbn|done]. specialize (Hdead r0 E0).
    destruct (decide (k = key)); intros [= <-]; [|done].
    destruct (f r0) as [r'|] eqn:Ef; [|done]. by apply (Hk r0 r' Ef).
  - destruct o; try done; cbn [key_exec].
    + destruct (generate_spec loc now rand nodeID opt ks) as (l & E & Hl & _). cbn [key_exec] in E.
      rewrite E, find_key_app. destruct (find_key Key key ks) eqn:E0; [by intros [= <-]; apply Hdead|].
      intros Hr. apply find_key_Some in Hr as [Hr <-]. exfalso. apply Hni. rewrite <- Hl.
      by apply list_elem_of_fmap_2.
    + destruct (delete_spec key0 ks key Hnd) as (_ & _ & ->).
      destruct (find_key Key key ks) as [r0|] eqn:E0; [cbn|done]. specialize (Hdead r0 E0).
      rewrite Hdead. by destruct (decide _); intros [= <-].
Qed.

Lemma alive_run h ks key r :
  distinct_keys h ks → find_key Key key ks = Some r → Revoked r = false → KRevoke key ∉ h →
  ∃ r', find_key Key key (key_run h ks) = Some r' ∧ same_grant r r'.
Proof.
  revert ks r. induction h as [|o h IH]; intros ks r Hd Hr Hrev Hni; [by exists r|].
  apply not_elem_of_cons in Hni as [Ho Hni].
  destruct (alive_step h ks o key r Hd Hr Hrev (not_eq_sym Ho)) as (r1 & H1 & S1).
  destruct (IH (key_exec ks o) r1) as (r2 & H2 & S2); [by apply distinct_step|done| |done|].
  { by destruct S1 as (_ & _ & _ & ->). }
  exists r2. split; [done|]. unfold same_grant in *. intuition congruence.
Qed.

Lemma dead_run h ks key :
  distinct_keys h ks → dead key ks → key ∉ h ≫= issues → dead key (key_run h ks).
Proof.
  revert ks. induction h as [|o h IH]; intros ks Hd Hk Hni; [done|].
  rewrite bind_cons, not_elem_of_app in Hni. destruct Hni as [Ho Hni].
  apply IH; [by apply distinct_step | by eapply dead_step | done].
Qed.

Lemma distinct_run h1 h2 ks : distinct_keys (h1 ++ h2) ks → distinct_keys h2 (key_run h1 ks).
Proof.
  revert ks. induction h1 as [|o h1 IH]; intros ks Hd; [done|]. apply IH.
  by apply distinct_step in Hd as [? _].
Qed.

Lemma revoked_forever h1 h2 ks key :
  distinct_keys (h1 ++ KRevoke key :: h2) ks → key ∈ Key <$> ks →
  dead key (key_run (h1 ++ KRevoke key :: h2) ks).
Proof.
  intros Hd Hin. pose proof (distinct_run _ _ _ Hd) as Hd2.
  unfold key_run. rewrite foldl_app. cbn [foldl]. fold (key_run h1 ks).
  apply (dead_run h2); [by apply distinct_step in Hd2 as [? _]| |].
  - intros r'. cbn [key_exec]. unfold RevokeGuestKey.
    destruct (update_rec_spec key (λ r, Ok (with_policy r true (Note r) (ShareType r)))
                (key_run h1 ks) key) as [_ ->]; [intros a b [= <-]; done|].
    destruct (find_key Key key (key_run h1 ks)); [cbn|done].
    rewrite decide_True by done. by intros [= <-].
  - unfold distinct_keys in Hd. rewrite bind_app, bind_cons in Hd. intros Hin2.
    apply NoDup_app in Hd as (_ & Hd & _). apply (Hd key); [|done].
    apply elem_of_app. by right.
Qed.

(** C14. A guest key works until it is revoked or expires, and never again afterwards: the
    key just issued is recognised as a guest key of its node, it validates at any
    later time, through any history without its revocation, exactly until its
    expiry, and once it is revoked no history makes it valid again. *)
Theorem guest_key_lifecycle loc now bs node opt ks key h1 h2 :
  are_bytes bs → bs ≠ [] → node ≠ "" →
  let ks0 := (GenerateGuestKey loc now (Some bs) node opt ks).2 in
  (GenerateGuestKey loc now (Some bs) node opt ks).1 = Ok key →
  NoDup (Key <$> ks0) → distinct_keys (h1 ++ KRevoke key :: h2) ks0 → KRevoke key ∉ h1 →
  ClassifyKey key = KeyTypeGuest ∧ ParseGuestKeyFormat key = Some node ∧
  ∃ r, find_key Key key ks0 = Some r ∧
    (∀ t, ValidateGuestKey t key (Some (key_run h1 ks0)) =
          if expired t r then None else Some node) ∧
    (∀ t, ValidateGuestKey t key (Some (key_run (h1 ++ KRevoke key :: h2) ks0)) = None).
Proof.
  intros Hbs Hne Hnode ks0 Hkey Hnd Hd Hni.
  assert (Ek : key = issued_key node bs).
  { unfold GenerateGuestKey in Hkey. rewrite bool_decide_eq_false_2 in Hkey by done.
    by injection Hkey as <-. }
  destruct (issued_parses node bs Hnode Hbs Hne) as [H1 H2]. rewrite <- Ek in H1, H2.
  split; [done|]. split; [done|].
  destruct (generate_spec loc now (Some bs) node opt ks) as (l & El & Hl & Hall).
  cbn [key_exec issues] in El, Hl. fold ks0 in El. rewrite bool_decide_eq_false_2 in Hl by done.
  destruct l as [|r [|? ?]]; [done| |done]. injection Hl as Hl. rewrite <- Ek in Hl.
  apply Forall_singleton in Hall as [Hrev Hnd'].
  assert (Hr : find_key Key key ks0 = Some r).
  { rewrite <- Hl. apply find_key_elem; [done|]. rewrite El. apply elem_of_app. right. left. }
  exists r. split; [done|]. split.
  - intros t. assert (Hd1 : distinct_keys h1 ks0).
    { unfold distinct_keys in *. rewrite bind_app, <- app_assoc in Hd.
      apply NoDup_app in Hd as (D1 & D2 & D3). apply NoDup_app. split_and!; [done| |done].
      intros x Hx Hin. apply (D2 x Hx). apply elem_of_app. by right. }
    destruct (alive_run h1 ks0 key r Hd1 Hr Hrev Hni) as (r' & Hr' & _ & E2 & E3 & E4).
    unfold ValidateGuestKey. rewrite H2, Hr', E4, Hrev, E2, Hnd'.
    unfold expired. by rewrite E3.
  - intros t. assert (Hin : key ∈ Key <$> ks0).
    { rewrite El, fmap_app, <- Hl. apply elem_of_app. right. left. }
    pose proof (revoked_forever h1 h2 ks0 key Hd Hin) as Hfin. unfold ValidateGuestKey. rewrite H2.
    destruct (find_key Key key (key_run (h1 ++ KRevoke key :: h2) ks0)) as [r'|] eqn:E; [|done].
    by rewrite (Hfin r' E).
Qed.

(** A key valid for one day, used, given a quota, marked, revoked and deleted. *)
Definition day_key : GuestKeyOptions := {|
  o_Quota := 10; o_QuotaHourly := 0; o_QuotaPerRequest := 0; o_RPM := 0; o_ExpDays := 1; o_Note := "" |}.
Definition demo_bytes : list Z := [1; 171; 254].
Definition demo_key : string := "sk-guest-node-7-01abfe".

Lemma guest_key_lifecycle_witness :
  let ks0 := (GenerateGuestKey UTC 0 (Some demo_bytes) "node-7" (Some day_key) []).2 in
  let h1 := [KMark demo_key; KQuota demo_key None (Some 5) None None] in
  let h2 := [KDelete demo_key] in
  (GenerateGuestKey UTC 0 (Some demo_bytes) "node-7" (Some day_key) []).1 = Ok demo_key ∧
  ParseGuestKeyFormat demo_key = Some "node-7" ∧
  ValidateGuestKey (86399 * second) demo_key (Some (key_run h1 ks0)) = Some "node-7" ∧
  ValidateGuestKey (86401 * second) demo_key (Some (key_run h1 ks0)) = None ∧
  ValidateGuestKey 0 demo_key (Some (key_run (h1 ++ KRevoke demo_key :: h2) ks0)) = None.
Proof.
  intros ks0 h1 h2.
  assert (E : (GenerateGuestKey UTC 0 (Some demo_bytes) "node-7" (Some day_key) []).1 = Ok demo_key)
    by (vm_compute; reflexivity).
  destruct (guest_key_lifecycle UTC 0 demo_bytes "node-7" (Some day_key) [] demo_key h1 h2)
    as (_ & Hp & r & Hr & Hv & Hd).
  - unfold are_bytes, demo_bytes. repeat constructor; lia.
  - done.
  - done.
  - exact E.
  - apply (bool_decide_unpack _). vm_compute. exact I.
  - apply (bool_decide_unpack _). vm_compute. exact I.
  - intros Hin. repeat (apply elem_of_cons in Hin as [Hin|Hin]; [discriminate|]).
    by apply elem_of_nil in Hin.
  - split; [exact E|]. split; [exact Hp|]. fold ks0 in Hr, Hv, Hd. rewrite !Hv, Hd.
    assert (Hr' : find_key Key demo_key ks0 = head ks0) by (vm_compute; reflexivity).
    rewrite Hr' in Hr. injection Hr as <-. split_and!; vm_compute; reflexivity.
Defined.
