(* ===== verification/GuestQuota.v ===== *)
(** * What the guest-key quotas guarantee (network_keys.go)

    The daily and hourly token windows and the per-minute request count of
    [guestKeyUsageTracker], over histories of reservations and settlements. *)

From S2P Require Import Prelude GoTime GuestKeys.

(** ** Histories *)

Inductive use_op :=
  | UReserve (now : Time) (key : string) (daily hourly_ perRequest rpm estimated : Z)
  | UAdjust (now : Time) (key : string) (reserved actual : Z).

Definition op_time (o : use_op) : Time :=
  match o with UReserve now _ _ _ _ _ _ | UAdjust now _ _ _ => now end.

Definition granted (o : use_op) (t : guestKeyUsageTracker) : bool :=
  match o with
  | UReserve now key d h p r est => (CheckAndReserveFull now key d h p r est t).1.1
  | UAdjust _ _ _ _ => false
  end.

Definition use_exec (t : guestKeyUsageTracker) (o : use_op) : guestKeyUsageTracker :=
  match o with
  | UReserve now key d h p r est => (CheckAndReserveFull now key d h p r est t).2
  | UAdjust now key reserved actual => Adjust now key reserved actual t
  end.

Definition use_run (h : list use_op) (t : guestKeyUsageTracker) : guestKeyUsageTracker :=
  foldl use_exec t h.

(** ** The two token windows *)

Inductive window := Daily | Hourly.

Definition journal (w : window) (t : guestKeyUsageTracker) : gmap string Z :=
  match w with Daily => usage t | Hourly => hourly t end.
Definition stamp (w : window) (t : guestKeyUsageTracker) : string :=
  match w with Daily => day t | Hourly => hour_ t end.
Definition stamp_at (w : window) (now : Time) : string :=
  match w with Daily => fmt_date UTC now | Hourly => fmt_hour UTC now end.
Definition limit (w : window) (daily hourly_ : Z) : Z :=
  match w with Daily => daily | Hourly => hourly_ end.

Lemma roll_current s m : roll s s m = m.
Proof. unfold roll. by rewrite bool_decide_eq_true_2. Qed.

Lemma ensure_journal w now t :
  stamp w t = stamp_at w now →
  journal w (ensureJournals now t) = journal w t ∧ stamp w (ensureJournals now t) = stamp_at w now.
Proof. destruct w; cbn; intros ->; by rewrite roll_current. Qed.

(** What a reservation does to a window. *)
Lemma reserve_window w now key d h p r est t :
  let u := journal w (ensureJournals now t) in
  let '(ok, _, t') := CheckAndReserveFull now key d h p r est t in
  stamp w t' = stamp w (ensureJournals now t) ∧
  (ok = true → window_admits (limit w d h) (zget u key) est = true) ∧
  journal w t' = if ok && (0 <? limit w d h) && (0 <? est) then zincr key est u else u.
Proof.
  unfold CheckAndReserveFull. cbv zeta. destruct (_ && (p <? est)); [by destruct w|].
  destruct (window_admits d _ est) eqn:E1; cbn [negb]; [|by destruct w].
  destruct (window_admits h _ est) eqn:E2; cbn [negb]; [|by destruct w].
  destruct (_ && (r <=? _)); [by destruct w|].
  destruct w; cbn; (split; [done|split; [done|done]]).
Qed.

Lemma admits_fits q used est :
  0 < q < 2 ^ 63 → 0 ≤ used ≤ q → window_admits q used est = true → 0 < est → est ≤ q - used.
Proof.
  intros Hq Hu. unfold window_admits. destruct (Z.ltb_spec 0 q); [|lia].
  rewrite wrap64_id by (unfold is_int64; lia).
  destruct (Z.leb_spec (q - used) 0); [done|]. cbn [negb andb].
  destruct (Z.ltb_spec 0 est); [|lia]. destruct (Z.ltb_spec (q - used) est); [done|lia].
Qed.

(** The tokens an operation charges to a key. *)
Definition charge_of (k : string) (o : use_op) (t : guestKeyUsageTracker) : Z :=
  match o with
  | UReserve _ key _ _ _ _ est =>
      if bool_decide (key = k) && granted o t && (0 <? est) then est else 0
  | UAdjust _ key reserved actual => if bool_decide (key = k) then actual - reserved else 0
  end.

Fixpoint charged (k : string) (h : list use_op) (t : guestKeyUsageTracker) : Z :=
  match h with
  | [] => 0
  | o :: h' => charge_of k o t + charged k h' (use_exec t o)
  end.

(** A settlement reports what was used of a reservation, and gives back no more
    than the reservations [s] not yet given back. *)
Fixpoint settles (k : string) (s : Z) (h : list use_op) (t : guestKeyUsageTracker) : Prop :=
  match h with
  | [] => True
  | o :: h' =>
      (match o with
       | UAdjust _ key reserved actual => key = k → 0 ≤ actual ≤ reserved ∧ reserved - actual ≤ s
       | UReserve _ _ _ _ _ _ _ => True
       end) ∧ settles k (s + charge_of k o t) h' (use_exec t o)
  end.

(** The key has the limit [L] in every request of the history. *)
Definition limited (w : window) (k : string) (L : Z) (o : use_op) : Prop :=
  match o with
  | UReserve _ key d h _ _ _ => key = k → limit w d h = L
  | UAdjust _ _ _ _ => True
  end.

Lemma zget_shift_floor key diff m k :
  zget (shift_floor key diff m) k =
  if decide (key = k) then Z.max 0 (zget m key +! diff) else zget m k.
Proof.
  unfold shift_floor. rewrite zget_zincr, decide_True by done.
  destruct (Z.ltb_spec (zget m key +! diff) 0).
  - rewrite zget_insert. destruct (decide (key = k)); [lia|].
    by rewrite zget_zincr, decide_False.
  - rewrite zget_zincr. destruct (decide (key = k)); lia.
Qed.

Lemma adjust_window w now key reserved actual t :
  journal w (Adjust now key reserved actual t) =
  (if (reserved <=? 0) && (actual <=? 0) then journal w t
   else shift_floor key (actual -! reserved) (journal w (ensureJournals now t))) ∧
  stamp w (Adjust now key reserved actual t) =
  (if (reserved <=? 0) && (actual <=? 0) then stamp w t else stamp w (ensureJournals now t)).
Proof. unfold Adjust. by destruct (_ && _), w. Qed.

(** One step keeps the books of a key within its limit. *)
Lemma use_step w k L s base o t :
  0 < L < 2 ^ 63 → 0 ≤ base → stamp w t = stamp_at w (op_time o) → limited w k L o →
  zget (journal w t) k = base + s → 0 ≤ s → base + s ≤ L →
  match o with
  | UAdjust _ key reserved actual => key = k → 0 ≤ actual ≤ reserved ∧ reserved - actual ≤ s
  | UReserve _ _ _ _ _ _ _ => True
  end →
  let s' := s + charge_of k o t in
  zget (journal w (use_exec t o)) k = base + s' ∧ 0 ≤ s' ∧ base + s' ≤ L ∧
  stamp w (use_exec t o) = stamp w t.
Proof.
  intros HL Hb Hst Hlim Hz Hs Hle Hadj. destruct (ensure_journal w _ t Hst) as [Hj Hst'].
  destruct o as [now key d h p r est|now key reserved actual]; cbn [op_time use_exec] in *.
  - pose proof (reserve_window w now key d h p r est t) as Hr. cbn zeta in Hr. rewrite Hj in Hr.
    cbn [charge_of granted].
    destruct (CheckAndReserveFull now key d h p r est t) as [[ok rem] t'].
    destruct Hr as (Hr1 & Hr2 & Hr3). cbn [fst snd]. rewrite Hr1, Hr3, Hst', Hst.
    destruct (bool_decide_reflect (key = k)) as [->|Hne]; cbn [andb].
    + rewrite (Hlim eq_refl) in Hr2 |- *. destruct (Z.ltb_spec 0 L); [|lia]. rewrite andb_true_r.
      destruct ok; cbn [andb]; [|split_and!; [by rewrite Hz, Z.add_0_r| | |]; lia || done].
      destruct (Z.ltb_spec 0 est); [|split_and!; [by rewrite Hz, Z.add_0_r| | |]; lia || done].
      pose proof (admits_fits L (base + s) est HL ltac:(lia)) as Hf. rewrite Hz in Hr2.
      specialize (Hf (Hr2 eq_refl) ltac:(lia)).
      rewrite zget_zincr, decide_True, Hz, wrap64_id by (done || unfold is_int64; lia).
      split_and!; lia || done.
    + split_and!; [|lia|lia|done]. rewrite Z.add_0_r, <- Hz.
      destruct (_ && _); [by rewrite zget_zincr, decide_False|done].
  - destruct (adjust_window w now key reserved actual t) as [-> ->]. cbn [charge_of].
    destruct ((reserved <=? 0) && (actual <=? 0)) eqn:E.
    + destruct (bool_decide_reflect (key = k)) as [->|Hne]; [|rewrite Z.add_0_r; split_and!; lia || done].
      apply andb_true_iff in E as [E1%Z.leb_le E2%Z.leb_le]. specialize (Hadj eq_refl).
      split_and!; lia || done.
    + rewrite Hj, Hst', zget_shift_floor.
      destruct (bool_decide_reflect (key = k)) as [->|Hne].
      * rewrite decide_True by done. destruct (Hadj eq_refl) as [Ha Hb'].
        rewrite Hz, wrap64_add_r, wrap64_id by (unfold is_int64; lia). split_and!; lia || done.
      * rewrite decide_False by done. split_and!; lia || done.
Qed.

Lemma use_run_limits w k L d base h s t :
  0 < L < 2 ^ 63 → 0 ≤ base → stamp w t = d →
  Forall (λ o, stamp_at w (op_time o) = d) h → Forall (limited w k L) h → settles k s h t →
  zget (journal w t) k = base + s → 0 ≤ s → base + s ≤ L →
  zget (journal w (use_run h t)) k = base + (s + charged k h t) ∧ base + (s + charged k h t) ≤ L.
Proof.
  intros HL Hbase. revert s t. induction h as [|o h IH]; intros s t Hst Hd Hlim Hset Hz Hs Hle.
  { cbn. lia. }
  apply Forall_cons in Hd as [Ho Hd], Hlim as [Hlo Hlim]. destruct Hset as [Hadj Hset].
  destruct (use_step w k L s base o t) as (H1 & H2 & H3 & H4); try done; [congruence|].
  cbn [use_run foldl charged]. rewrite (Z.add_assoc s).
  apply (IH (s + charge_of k o t) (use_exec t o)); try done. by rewrite H4.
Qed.

(** C15. The token limits of a guest key hold within one UTC day (or hour): over any history of
    reservations and settlements of any keys inside that window, in which every request of the
    key has the limit [L] and each of its settlements belongs to a reservation of the same
    window and costs at most what was reserved, the tracker's balance of the key is exactly
    what was granted less what was given back, on top of what it was, and never exceeds [L].
    Settlements of an earlier window's reservations are not covered; they break the limit
    ([late_settlement_regrants]). *)
Theorem guest_limits_hold w k L d h t :
  0 < L < 2 ^ 63 → 0 ≤ zget (journal w t) k ≤ L → stamp w t = d →
  Forall (λ o, stamp_at w (op_time o) = d) h → Forall (limited w k L) h → settles k 0 h t →
  zget (journal w (use_run h t)) k = zget (journal w t) k + charged k h t ∧
  zget (journal w t) k + charged k h t ≤ L.
Proof.
  intros HL Hb Hst Hd Hlim Hset.
  apply (use_run_limits w k L d (zget (journal w t) k) h 0 t); try done; lia.
Qed.

(** ** Two defects *)

Lemma append_nonempty_r (a b : string) : b ≠ "" → a +:+ b ≠ "".
Proof. destruct a; [done|]. rewrite append_cons. done. Qed.

Lemma fmt_hour_nonempty loc t : fmt_hour loc t ≠ "".
Proof. unfold fmt_hour. apply append_nonempty_r. done. Qed.

Lemma roll_stale s s' m : s ≠ s' → s ≠ "" → roll s s' m = ∅.
Proof. intros. unfold roll. by rewrite !bool_decide_eq_false_2. Qed.

(** A request with an hourly limit only: granted when it fits the hour's use. *)
Lemma hourly_only now k L u t :
  0 < L < 2 ^ 62 → zget (hourly (ensureJournals now t)) k = u → 0 ≤ u → u + L ≤ L →
  let '(ok, _, t') := CheckAndReserveFull now k 0 L 0 0 L t in
  ok = true ∧ zget (hourly t') k = u + L ∧ hour_ t' = fmt_hour UTC now.
Proof.
  intros HL Hu H0 Hle. assert (u = 0) as -> by lia. unfold CheckAndReserveFull. cbv zeta. cbn [Z.ltb].
  assert (Hw : window_admits L (zget (hourly (ensureJournals now t)) k) L = true).
  { unfold window_admits. rewrite Hu. destruct (Z.ltb_spec 0 L); [|lia].
    rewrite wrap64_id by (unfold is_int64; lia). rewrite Z.sub_0_r.
    destruct (Z.leb_spec L 0); [lia|]. destruct (Z.ltb_spec L L); [lia|]. by rewrite andb_false_r. }
  change (window_admits 0 _ L) with true. rewrite Hw. cbn.
  destruct (Z.ltb_spec 0 L); [|lia]. cbn. split; [done|]. split; [|done].
  rewrite zget_zincr, decide_True by done. cbn in Hu. rewrite Hu.
  rewrite wrap64_id by (unfold is_int64; lia). lia.
Qed.

(** (A defect.) A reservation settled after its hour has ended gives its tokens back to
    the new hour, whose use it never was: of two requests of a key's whole hourly
    limit in one hour both are granted, once a request of the hour before is
    settled between them. *)
Theorem late_settlement_regrants k L t1 t2 :
  0 < L < 2 ^ 62 → fmt_hour UTC t1 ≠ fmt_hour UTC t2 →
  let reserve now := UReserve now k 0 L 0 0 L in
  let s1 := use_exec initGuestKeyUsageTracker (reserve t1) in
  let s2 := use_exec s1 (reserve t2) in
  let s3 := use_exec s2 (UAdjust t2 k L 0) in
  granted (reserve t1) initGuestKeyUsageTracker = true ∧ granted (reserve t2) s1 = true ∧
  granted (reserve t2) s2 = false ∧ granted (reserve t2) s3 = true.
Proof.
  intros HL Hne reserve s1 s2 s3.
  assert (Hz1 : zget (hourly (ensureJournals t1 initGuestKeyUsageTracker)) k = 0)
    by (cbn; unfold roll; rewrite orb_true_r; apply zget_empty).
  pose proof (hourly_only t1 k L 0 _ HL Hz1 ltac:(lia) ltac:(lia)) as H1.
  cbn [granted reserve] in *. unfold s3, s2, s1, reserve. cbn [use_exec].
  destruct (CheckAndReserveFull t1 k 0 L 0 0 L _) as [[ok1 r1] u1]. cbn [fst snd].
  destruct H1 as (-> & Hu1 & Hh1). split; [done|].
  assert (Hz2 : zget (hourly (ensureJournals t2 u1)) k = 0).
  { cbn. rewrite Hh1, roll_stale by (done || apply fmt_hour_nonempty). apply zget_empty. }
  pose proof (hourly_only t2 k L 0 u1 HL Hz2 ltac:(lia) ltac:(lia)) as H2.
  destruct (CheckAndReserveFull t2 k 0 L 0 0 L u1) as [[ok2 r2] u2]. cbn [fst snd].
  destruct H2 as (-> & Hu2 & Hh2). split; [done|].
  assert (He2 : zget (hourly (ensureJournals t2 u2)) k = L)
    by (cbn; by rewrite Hh2, roll_current).
  split.
  - unfold CheckAndReserveFull. cbv zeta. cbn [Z.ltb]. change (window_admits 0 _ L) with true.
    cbn [negb andb]. rewrite He2. unfold window_admits. destruct (Z.ltb_spec 0 L); [|lia].
    by rewrite Z.sub_diag.
  - assert (Hz3 : zget (hourly (ensureJournals t2 (Adjust t2 k L 0 u2))) k = 0).
    { unfold Adjust. destruct (Z.leb_spec L 0); [lia|]. cbn. rewrite Hh2, !roll_current.
      rewrite zget_shift_floor, decide_True by done. rewrite Hu2, wrap64_add_r.
      rewrite wrap64_id by (unfold is_int64; lia). lia. }
    pose proof (hourly_only t2 k L 0 _ HL Hz3 ltac:(lia) ltac:(lia)) as H3.
    destruct (CheckAndReserveFull t2 k 0 L 0 0 L (Adjust t2 k L 0 u2)) as [[ok3 r3] u3].
    by destruct H3.
Qed.

Definition ten_fifty : Time := (days_from_civil 2026 1 6 * 86400 + 10 * 3600 + 50 * 60) * second.
Definition eleven_five : Time := ten_fifty + 15 * minute.

Lemma late_settlement_regrants_witness :
  let reserve now := UReserve now "k" 0 1000 0 0 1000 in
  let s1 := use_exec initGuestKeyUsageTracker (reserve ten_fifty) in
  let s2 := use_exec s1 (reserve eleven_five) in
  let s3 := use_exec s2 (UAdjust eleven_five "k" 1000 0) in
  granted (reserve eleven_five) s2 = false ∧ granted (reserve eleven_five) s3 = true.
Proof.
  assert (Hne : fmt_hour UTC ten_fifty ≠ fmt_hour UTC eleven_five)
    by (vm_compute; discriminate).
  pose proof (late_settlement_regrants "k" 1000 ten_fifty eleven_five ltac:(lia) Hne)
    as (_ & _ & H3 & H4).
  split; [exact H3 | exact H4].
Defined.

(** (A defect.) With a per-minute limit set, a key whose daily or hourly quota is used up
    is told its per-minute limit is reached: every denial that is not for the size
    of the request carries a remaining count of at most zero, which
    [guestQuotaDenyReason] takes for the minute's. *)
Theorem denial_blames_rpm now key d h p r est t rem t' :
  CheckAndReserveFull now key d h p r est t = (false, rem, t') →
  0 < r < 2 ^ 63 → (p ≤ 0 ∨ est ≤ p) →
  0 ≤ zget (rpm_ (ensureJournals now t)) key < 2 ^ 63 →
  guestQuotaDenyReason p d h r est rem = deny_rpm.
Proof.
  intros Hc Hr Hp Hcount. unfold guestQuotaDenyReason.
  assert ((0 <? p) && (p <? est) = false) as Hpe.
  { destruct (Z.ltb_spec 0 p), (Z.ltb_spec p est); lia || done. }
  rewrite Hpe. destruct (Z.ltb_spec 0 r); [|lia].
  assert (rem ≤ 0); [|by destruct (Z.leb_spec rem 0); [|lia]].
  unfold CheckAndReserveFull in Hc. cbv zeta in Hc. rewrite Hpe in Hc.
  destruct (window_admits d _ est); cbn [negb] in Hc; [|by simplify_eq].
  destruct (window_admits h _ est); cbn [negb] in Hc; [|by simplify_eq].
  destruct (Z.ltb_spec 0 r); [|lia]. cbn [andb] in Hc.
  destruct (Z.leb_spec r (zget (rpm_ (ensureJournals now t)) key)); [|by simplify_eq].
  injection Hc as <- _. cbn [ensureJournals rpm_] in *. rewrite wrap64_id by (unfold is_int64; lia). lia.
Qed.

(** The day's 100 tokens are used up, and this is the first request of the minute. *)
Lemma denial_blames_rpm_witness :
  let t := {| usage := {["k" := 100]}; day := "2026-01-06"; hourly := ∅; hour_ := "";
              rpm_ := ∅; minute_ := "" |} in
  let '(ok, rem, _) := CheckAndReserveFull ten_fifty "k" 100 0 0 60 10 t in
  ok = false ∧ guestQuotaDenyReason 0 100 0 60 10 rem = deny_rpm.
Proof.
  cbv zeta. set (t := {| usage := _ |}).
  assert (Hc : CheckAndReserveFull ten_fifty "k" 100 0 0 60 10 t =
    (false, 0, (CheckAndReserveFull ten_fifty "k" 100 0 0 60 10 t).2)) by (vm_compute; reflexivity).
  rewrite Hc. split; [reflexivity|].
  apply (denial_blames_rpm _ _ _ _ _ _ _ _ _ _ Hc); [lia | left; lia | vm_compute; split; [discriminate|reflexivity]].
Defined.

Definition busy_day : list use_op := [
  UReserve ten_fifty "k" 1000 0 0 0 600; UReserve ten_fifty "k" 1000 0 0 0 600;
  UAdjust ten_fifty "k" 600 200; UReserve ten_fifty "k" 1000 0 0 0 600].

Definition day_start : guestKeyUsageTracker := {|
  usage := ∅; day := "2026-01-06"; hourly := ∅; hour_ := ""; rpm_ := ∅; minute_ := "" |}.

Lemma guest_limits_hold_witness :
  charged "k" busy_day day_start = 800 ∧
  zget (journal Daily (use_run busy_day day_start)) "k" = 800.
Proof.
  split; [vm_compute; reflexivity|].
  assert (Hs : settles "k" 0 busy_day day_start).
  { cbn [settles busy_day]. split_and!; try exact I. intros _. split; [lia|].
    apply (bool_decide_unpack _). vm_compute. exact I. }
  assert (Hl : Forall (limited Daily "k" 1000) busy_day) by (repeat constructor).
  assert (Hd : Forall (λ o, stamp_at Daily (op_time o) = "2026-01-06") busy_day)
    by (repeat (constructor; [vm_compute; reflexivity|]); constructor).
  destruct (guest_limits_hold Daily "k" 1000 "2026-01-06" busy_day day_start ltac:(lia)) as [H1 _];
    [apply (bool_decide_unpack _); vm_compute; exact I | reflexivity | exact Hd | exact Hl | exact Hs |].
  rewrite H1. vm_compute. reflexivity.
Defined.
