(* ===== verification/AlgoGovernance.v ===== *)
(** * Node-local algorithm governance (algorithm_governance.go, algorithm_chain.go)

    [AlgorithmGovernor] keeps proposals with their ballots and a timeline of
    events. [crypto/rand], the node's identity and [localEnvName] are arguments;
    the integrity envelope of the file and the bbolt transaction are outside the
    model, a snapshot being what they store. *)

From S2P Require Import Prelude GoTime Bytes Sha256.

(** ** Parameters (algorithm_chain.go) *)

(** The seven ratios, in the order of the source. *)
Record AlgorithmParams := {
  OpenKeyRatio : float64; GlobalPoolAvailabilityRatio : float64; TrustWeight : float64;
  ReputationWeight : float64; LatencyWeight : float64; AvailabilityWeight : float64;
  ContributionWeight : float64 }.

(** [n / 100], as the source's decimal literals round. *)
Definition percent (n : Z) : float64 := fdiv (float_of_int n) (float_of_int 100).

Definition DefaultAlgorithmParams : AlgorithmParams := {|
  OpenKeyRatio := percent 30; GlobalPoolAvailabilityRatio := percent 80; TrustWeight := percent 25;
  ReputationWeight := percent 25; LatencyWeight := percent 20; AvailabilityWeight := percent 15;
  ContributionWeight := percent 15 |}.

Record AlgorithmChain := { params : AlgorithmParams }.
Definition NewAlgorithmChain : AlgorithmChain := {| params := DefaultAlgorithmParams |}.
Definition GetCurrentParams (c : AlgorithmChain) : AlgorithmParams := params c.
Definition UpdateParams (p : AlgorithmParams) (c : AlgorithmChain) : AlgorithmChain := {| params := p |}.

(** ** Data *)

Definition ProposalStatusOpen : string := "open".
Definition ProposalStatusPassed : string := "passed".
Definition ProposalStatusRejected : string := "rejected".
Definition ProposalStatusClosed : string := "closed".

Definition isTerminal (s : string) : bool :=
  bool_decide (s = ProposalStatusPassed) || bool_decide (s = ProposalStatusRejected)
  || bool_decide (s = ProposalStatusClosed).

Definition isValid (c : string) : bool :=
  bool_decide (c = "yes") || bool_decide (c = "no") || bool_decide (c = "abstain").

Record AlgorithmVote := {
  Voter : string; VoterName : string; Choice : string; Comment : string; VotedAt : string }.

Record ProposalTally := { Yes : Z; No : Z; Abstain : Z; Total : Z }.

Record AlgorithmProposal := {
  ID : string; Title : string; Description : string; Proposer : string; ProposerName : string;
  Status : string; CreatedAt : string; ClosedAt : string; ResolvedBy : string;
  ResolveReason : string; Target : option AlgorithmParams; Votes : list AlgorithmVote }.

Record GovernanceEvent := {
  e_Type : string; e_ProposalID : string; e_Actor : string; e_ActorName : string;
  e_Detail : string; e_At : string }.

Record AlgorithmGovernor := {
  proposals : gmap string AlgorithmProposal; history : list GovernanceEvent }.

Record governanceSnapshot := {
  s_Proposals : list AlgorithmProposal; s_History : list GovernanceEvent }.

Definition empty_governor : AlgorithmGovernor := {| proposals := ∅; history := [] |}.

(** ** Helpers *)

(** ["prop-%d-%x"]: [b] stays zero when [rand.Read] fails. *)
Definition newProposalID (now : Time) (rand : option (list Z)) : string :=
  "prop-" +:+ dec now +:+ "-" +:+ hex (default (replicate 6 0) rand).

Definition nowRFC3339 (now : Time) : string := fmt_rfc3339 UTC now.

(** The node's identity, when it has one ([NodeID] and [GitHubUser]), and the name
    of the local environment. *)
Record Identity := { node : option (string * string); localEnvName : string }.

Definition resolveActor (env : Identity) (id name : string) : string * string :=
  let id := if bool_decide (id = "")
            then match node env with Some (nid, _) => nid | None => "admin" end else id in
  let name := if bool_decide (name = "")
              then match node env with
                   | Some (_, user) => if bool_decide (user = "") then localEnvName env else user
                   | None => localEnvName env
                   end else name in
  (id, name).

(** ** Operations *)

Definition appendHistoryLocked (e : GovernanceEvent) (g : AlgorithmGovernor) : AlgorithmGovernor :=
  {| proposals := proposals g; history := history g ++ [e] |}.

Definition put (p : AlgorithmProposal) (g : AlgorithmGovernor) : AlgorithmGovernor :=
  {| proposals := <[ID p := p]> (proposals g); history := history g |}.

Definition CreateProposal (env : Identity) (now : Time) (rand : option (list Z))
    (title description proposer proposerName : string) (target : option AlgorithmParams)
    (g : AlgorithmGovernor) : res AlgorithmProposal * AlgorithmGovernor :=
  let title := trimSpace title in
  if bool_decide (title = "") then (Err "title is required", g)
  else
    let '(proposer, proposerName) := resolveActor env proposer proposerName in
    let p := {| ID := newProposalID now rand; Title := title; Description := trimSpace description;
                Proposer := proposer; ProposerName := proposerName; Status := ProposalStatusOpen;
                CreatedAt := nowRFC3339 now; ClosedAt := ""; ResolvedBy := ""; ResolveReason := "";
                Target := target; Votes := [] |} in
    (Ok p, appendHistoryLocked
             {| e_Type := "proposal_created"; e_ProposalID := ID p; e_Actor := proposer;
                e_ActorName := proposerName; e_Detail := title; e_At := CreatedAt p |} (put p g)).

Definition with_votes (p : AlgorithmProposal) (vs : list AlgorithmVote) : AlgorithmProposal := {|
  ID := ID p; Title := Title p; Description := Description p; Proposer := Proposer p;
  ProposerName := ProposerName p; Status := Status p; CreatedAt := CreatedAt p;
  ClosedAt := ClosedAt p; ResolvedBy := ResolvedBy p; ResolveReason := ResolveReason p;
  Target := Target p; Votes := vs |}.

(** Replace the first ballot of the voter, or add one. *)
Fixpoint ballot (v : AlgorithmVote) (vs : list AlgorithmVote) : list AlgorithmVote :=
  match vs with
  | [] => [v]
  | w :: vs' => if bool_decide (Voter w = Voter v) then v :: vs' else w :: ballot v vs'
  end.

Definition CastVote (env : Identity) (now : Time) (proposalID voter voterName choice comment : string)
    (g : AlgorithmGovernor) : res AlgorithmProposal * AlgorithmGovernor :=
  let choice := trimSpace choice in
  if negb (isValid choice) then (Err "choice must be one of yes/no/abstain", g)
  else
    let '(voter, voterName) := resolveActor env voter voterName in
    match proposals g !! proposalID with
    | None => (Err "proposal not found", g)
    | Some p =>
        if isTerminal (Status p) then (Err "proposal no longer accepts votes", g)
        else
          let v := {| Voter := voter; VoterName := voterName; Choice := choice;
                      Comment := trimSpace comment; VotedAt := nowRFC3339 now |} in
          let p' := with_votes p (ballot v (Votes p)) in
          (Ok p', appendHistoryLocked
                    {| e_Type := "vote_cast"; e_ProposalID := ID p; e_Actor := voter;
                       e_ActorName := voterName; e_Detail := choice; e_At := VotedAt v |}
                    {| proposals := <[proposalID := p']> (proposals g); history := history g |})
    end.

Definition resolved (p : AlgorithmProposal) (status closedAt by_ reason : string)
    : AlgorithmProposal := {|
  ID := ID p; Title := Title p; Description := Description p; Proposer := Proposer p;
  ProposerName := ProposerName p; Status := status; CreatedAt := CreatedAt p;
  ClosedAt := closedAt; ResolvedBy := by_; ResolveReason := reason;
  Target := Target p; Votes := Votes p |}.

Definition ResolveProposal (env : Identity) (now : Time) (proposalID resolver reason status : string)
    (g : AlgorithmGovernor) : res AlgorithmProposal * AlgorithmGovernor :=
  if negb (isTerminal status) then (Err "decision must be one of passed/rejected/closed", g)
  else
    let '(resolver, _) := resolveActor env resolver "" in
    match proposals g !! proposalID with
    | None => (Err "proposal not found", g)
    | Some p =>
        if isTerminal (Status p) then (Ok p, g)
        else
          let p' := resolved p status (nowRFC3339 now) resolver (trimSpace reason) in
          (Ok p', appendHistoryLocked
                    {| e_Type := "proposal_resolved"; e_ProposalID := ID p; e_Actor := resolver;
                       e_ActorName := ""; e_Detail := status; e_At := nowRFC3339 now |}
                    {| proposals := <[proposalID := p']> (proposals g); history := history g |})
    end.

Definition GetProposal (id : string) (g : AlgorithmGovernor) : option AlgorithmProposal :=
  proposals g !! id.

(** Newest first. *)
Definition ListProposals (statusFilter : string) (g : AlgorithmGovernor) : list AlgorithmProposal :=
  sort_slice (λ p q, str_ltb (CreatedAt q) (CreatedAt p))
    (filter (λ p, statusFilter = "" ∨ Status p = statusFilter) (map_to_list (proposals g)).*2).

Definition GetHistory (g : AlgorithmGovernor) : list GovernanceEvent := reverse (history g).

Definition tally_step (t : ProposalTally) (v : AlgorithmVote) : ProposalTally := {|
  Yes := if bool_decide (Choice v = "yes") then Yes t + 1 else Yes t;
  No := if bool_decide (Choice v = "no") then No t + 1 else No t;
  Abstain := if bool_decide (Choice v = "abstain") then Abstain t + 1 else Abstain t;
  Total := Total t + 1 |}.

Definition Tally (p : AlgorithmProposal) : ProposalTally :=
  foldl tally_step {| Yes := 0; No := 0; Abstain := 0; Total := 0 |} (Votes p).

(** ** Persistence *)

Definition persistLocked (g : AlgorithmGovernor) : governanceSnapshot := {|
  s_Proposals := (map_to_list (proposals g)).*2; s_History := history g |}.

Definition Load (snap : option governanceSnapshot) (g : AlgorithmGovernor) : AlgorithmGovernor :=
  match snap with
  | None => g
  | Some s => {| proposals := foldl (λ m p, <[ID p := p]> m) ∅ (s_Proposals s); history := s_History s |}
  end.

(** ** Histories *)

Inductive algo_op :=
  | AOpCreate (env : Identity) (now : Time) (rand : option (list Z))
      (title description proposer proposerName : string) (target : option AlgorithmParams)
  | AOpVote (env : Identity) (now : Time) (proposalID voter voterName choice comment : string)
  | AOpResolve (env : Identity) (now : Time) (proposalID resolver reason status : string).

Definition algo_exec (g : AlgorithmGovernor) (o : algo_op) : AlgorithmGovernor :=
  match o with
  | AOpCreate env now rand t d p n target => (CreateProposal env now rand t d p n target g).2
  | AOpVote env now id v n c cm => (CastVote env now id v n c cm g).2
  | AOpResolve env now id r rs st => (ResolveProposal env now id r rs st g).2
  end.

Definition algo_run (ops : list algo_op) (g : AlgorithmGovernor) : AlgorithmGovernor :=
  foldl algo_exec g ops.

(** The id a creation draws. *)
Definition drawn (o : algo_op) : list string :=
  match o with AOpCreate _ now rand _ _ _ _ _ => [newProposalID now rand] | _ => [] end.

(** ** The timeline determines the proposals *)

(** What a proposal shows: its status and its ballots. *)
Definition shows (p : AlgorithmProposal) : string * list (string * string) :=
  (Status p, (λ v, (Voter v, Choice v)) <$> Votes p).

(** The ballot of a voter in a list of ballots. *)
Fixpoint cast (voter choice : string) (bs : list (string * string)) : list (string * string) :=
  match bs with
  | [] => [(voter, choice)]
  | b :: bs' => if bool_decide (b.1 = voter) then (voter, choice) :: bs' else b :: cast voter choice bs'
  end.

Definition replay_step (st : option (string * list (string * string))) (e : GovernanceEvent)
    : option (string * list (string * string)) :=
  if bool_decide (e_Type e = "proposal_created") then Some (ProposalStatusOpen, [])
  else if bool_decide (e_Type e = "vote_cast")
  then (λ s, (s.1, cast (e_Actor e) (e_Detail e) s.2)) <$> st
  else (λ s, (e_Detail e, s.2)) <$> st.

(** The state of a proposal according to the timeline alone. *)
Definition replay (id : string) (h : list GovernanceEvent) : option (string * list (string * string)) :=
  foldl replay_step None (filter (λ e, e_ProposalID e = id) h).

Lemma replay_snoc id h e :
  replay id (h ++ [e]) =
  if decide (e_ProposalID e = id) then replay_step (replay id h) e else replay id h.
Proof.
  unfold replay. rewrite filter_app, foldl_app, filter_cons, filter_nil.
  by destruct (decide _).
Qed.

Lemma ballot_cast v vs :
  (λ w, (Voter w, Choice w)) <$> ballot v vs =
  cast (Voter v) (Choice v) ((λ w, (Voter w, Choice w)) <$> vs).
Proof.
  induction vs as [|w vs IH]; [done|]. cbn [ballot]. rewrite fmap_cons. cbn [cast fst].
  destruct (bool_decide (Voter w = Voter v)); [done|]. by rewrite fmap_cons, IH.
Qed.

Lemma ballot_voters v vs :
  Voter <$> ballot v vs =
  if decide (Voter v ∈ Voter <$> vs) then Voter <$> vs else (Voter <$> vs) ++ [Voter v].
Proof.
  induction vs as [|w vs IH]; [done|]. cbn [ballot].
  destruct (bool_decide_reflect (Voter w = Voter v)) as [E|N].
  - rewrite !fmap_cons, E. by rewrite decide_True by left.
  - rewrite !fmap_cons, IH.
    destruct (decide (Voter v ∈ Voter <$> vs)) as [Hi|Hi],
      (decide (Voter v ∈ Voter w :: _)) as [Hj|Hj];
      [done | exfalso; apply Hj; by right | | done].
    exfalso. apply elem_of_cons in Hj as [?|]; congruence.
Qed.

Lemma ballot_forall (P : AlgorithmVote → Prop) v vs :
  P v → Forall P vs → Forall P (ballot v vs).
Proof.
  intros Hv. induction 1 as [|w vs Hw Hvs IH]; cbn; [by repeat constructor|].
  destruct (bool_decide _); by constructor.
Qed.

(** A proposal is stored under its id, with one valid ballot per voter. *)
Record proposal_ok (id : string) (p : AlgorithmProposal) : Prop := {
  po_id : ID p = id; po_once : NoDup (Voter <$> Votes p);
  po_valid : Forall (λ v, isValid (Choice v) = true) (Votes p) }.

Record governor_ok (g : AlgorithmGovernor) : Prop := {
  go_props : ∀ id p, proposals g !! id = Some p → proposal_ok id p;
  go_log : ∀ id, shows <$> proposals g !! id = replay id (history g) }.

(** Storing [p] under its id, with an event that shows it. *)
Lemma logged_ok g p e id :
  governor_ok g → proposal_ok id p → e_ProposalID e = id →
  replay_step (shows <$> proposals g !! id) e = Some (shows p) →
  governor_ok (appendHistoryLocked e {| proposals := <[id := p]> (proposals g); history := history g |}).
Proof.
  intros [H1 H2] Hp He Hstep. split; cbn [proposals history appendHistoryLocked].
  - intros id' p'. rewrite lookup_insert_Some. intros [[<- <-]|[_ ?]]; [done|by apply H1].
  - intros id'. rewrite replay_snoc, He. destruct (decide (id = id')) as [<-|N].
    + by rewrite lookup_insert_eq, <- H2, Hstep.
    + by rewrite lookup_insert_ne, H2.
Qed.

Lemma algo_exec_ok g o : governor_ok g → governor_ok (algo_exec g o).
Proof.
  intros Hg. destruct o as [env now rand t d p n target|env now id v n c cm|env now id r rs st]; cbn.
  - unfold CreateProposal. cbv zeta. destruct (bool_decide (trimSpace t = "")); [done|].
    destruct (resolveActor env p n) as [p' n']. cbn [snd]. set (q := {| ID := _ |}).
    apply (logged_ok g q); try done. split; [done | apply NoDup_nil_2 | constructor].
  - unfold CastVote. cbv zeta. destruct (isValid (trimSpace c)) eqn:Hc; [cbn [negb]|done].
    destruct (resolveActor env v n) as [v' n']. destruct (proposals g !! id) as [p|] eqn:Hp; [|done].
    destruct (isTerminal (Status p)); [done|]. cbn [snd]. set (w := {| Voter := v' |}).
    destruct (go_props g Hg id p Hp) as [Hid Honce Hval].
    apply (logged_ok g _ _ id); [done | | by rewrite Hid |].
    + split; [done| |by apply ballot_forall]. cbn. rewrite ballot_voters.
      destruct (decide _); [done|]. apply NoDup_app. split_and!; [done| |apply NoDup_singleton].
      intros x Hx Hx'. apply list_elem_of_singleton in Hx'. by subst.
    + rewrite Hp. cbn. unfold shows. cbn. by rewrite (ballot_cast w).
  - unfold ResolveProposal. destruct (isTerminal st); [cbn [negb]|done].
    destruct (resolveActor env r "") as [r' n']. destruct (proposals g !! id) as [p|] eqn:Hp; [|done].
    destruct (isTerminal (Status p)); [done|]. cbn [snd].
    destruct (go_props g Hg id p Hp) as [Hid Honce Hval].
    apply (logged_ok g _ _ id); [done | by split | by rewrite Hid |]. by rewrite Hp.
Qed.

Lemma algo_run_ok ops g : governor_ok g → governor_ok (algo_run ops g).
Proof.
  revert g. induction ops as [|o ops IH]; intros g Hg; [done|]. apply IH. by apply algo_exec_ok.
Qed.

Lemma empty_governor_ok : governor_ok empty_governor.
Proof. split; intros id; cbn; [by rewrite lookup_empty|]. by rewrite lookup_empty. Qed.

Lemma load_lookup l (m0 : gmap string AlgorithmProposal) id :
  NoDup (ID <$> l) →
  foldl (λ m p, <[ID p := p]> m) m0 l !! id =
  match find_key ID id l with Some p => Some p | None => m0 !! id end.
Proof.
  revert m0. induction l as [|p l IH]; intros m0 Hnd; [done|]. rewrite fmap_cons in Hnd.
  apply NoDup_cons in Hnd as [Hp Hnd]. cbn [foldl]. rewrite IH, find_key_cons by done.
  destruct (decide (ID p = id)) as [<-|N].
  - apply find_key_None in Hp. by rewrite Hp, lookup_insert_eq.
  - by rewrite lookup_insert_ne.
Qed.

(** Loading proposals stored under their ids, in whatever order they were saved. *)
Lemma load_perm (m : gmap string AlgorithmProposal) ps :
  (∀ id p, m !! id = Some p → ID p = id) → ps ≡ₚ (map_to_list m).*2 →
  foldl (λ m p, <[ID p := p]> m) ∅ ps = m.
Proof.
  intros Hid HP.
  assert (Hk : ID <$> (map_to_list m).*2 = (map_to_list m).*1).
  { rewrite <- list_fmap_compose. apply list_fmap_ext. intros i [k p] Hi.
    apply list_elem_of_lookup_2, elem_of_map_to_list in Hi. by apply Hid. }
  assert (Hnd : NoDup (ID <$> ps)) by (rewrite HP, Hk; apply NoDup_fst_map_to_list).
  assert (Hin : ∀ p, p ∈ ps ↔ m !! ID p = Some p).
  { intros p. rewrite HP, list_elem_of_fmap. split.
    - intros ([k q] & -> & Hq%elem_of_map_to_list). cbn. by rewrite (Hid _ _ Hq).
    - intros Hp. exists (ID p, p). by rewrite elem_of_map_to_list. }
  apply map_eq. intros id. rewrite load_lookup by done.
  destruct (find_key ID id ps) as [p|] eqn:E.
  - apply find_key_Some in E as [Hp <-]. by apply Hin in Hp.
  - rewrite lookup_empty. destruct (m !! id) as [p|] eqn:Em; [|done]. exfalso.
    apply find_key_None in E. apply E. rewrite <- (Hid _ _ Em). apply list_elem_of_fmap_2, Hin.
    by rewrite (Hid _ _ Em).
Qed.

(** The timeline is a complete log: in every state reached from the empty governor,
    replaying the events of a proposal gives its status and its ballots, each voter
    has at most one ballot, a valid one, and loading what was saved, the proposals
    in any order, restores the state. *)
Theorem timeline_replays ops id ps g0 :
  let g := algo_run ops empty_governor in
  shows <$> proposals g !! id = replay id (history g) ∧
  (∀ p, proposals g !! id = Some p →
     ID p = id ∧ NoDup (Voter <$> Votes p) ∧ Forall (λ v, isValid (Choice v) = true) (Votes p)) ∧
  (ps ≡ₚ s_Proposals (persistLocked g) →
     Load (Some {| s_Proposals := ps; s_History := s_History (persistLocked g) |}) g0 = g).
Proof.
  intros g. destruct (algo_run_ok ops _ empty_governor_ok) as [H1 H2]. fold g in H1, H2.
  split; [apply H2|]. split; [intros p Hp; by destruct (H1 id p Hp)|].
  intros HP. cbn. rewrite (load_perm (proposals g)); [by destruct g | | done].
  intros i p Hp. apply (H1 i p Hp).
Qed.

(** ** Finality *)

Lemma final_step g o id p :
  governor_ok g → proposals g !! id = Some p → isTerminal (Status p) = true → id ∉ drawn o →
  proposals (algo_exec g o) !! id = Some p.
Proof.
  intros Hg Hp Ht Hd.
  destruct o as [env now rand t d pr n target|env now i v n c cm|env now i r rs st]; cbn.
  - unfold CreateProposal. cbv zeta. destruct (bool_decide (trimSpace t = "")); [done|].
    destruct (resolveActor env pr n). cbn. rewrite lookup_insert_ne; [done|].
    intros E. apply Hd. rewrite <- E. left.
  - unfold CastVote. cbv zeta. destruct (negb _); [done|]. destruct (resolveActor env v n).
    destruct (proposals g !! i) as [q|] eqn:Hq; [|done].
    destruct (isTerminal (Status q)) eqn:Eq; [done|]. cbn.
    rewrite lookup_insert_ne; [done|]. intros ->. congruence.
  - unfold ResolveProposal. destruct (negb _); [done|]. destruct (resolveActor env r "").
    destruct (proposals g !! i) as [q|] eqn:Hq; [|done].
    destruct (isTerminal (Status q)) eqn:Eq; [done|]. cbn.
    rewrite lookup_insert_ne; [done|]. intros ->. congruence.
Qed.

(** The number of ballots with a choice. *)
Definition count_choice (c : string) (p : AlgorithmProposal) : Z :=
  Z.of_nat (length (filter (λ v, Choice v = c) (Votes p))).

Lemma tally_counts vs t :
  Forall (λ v, isValid (Choice v) = true) vs →
  let t' := foldl tally_step t vs in
  let n c := Z.of_nat (length (filter (λ v, Choice v = c) vs)) in
  Yes t' = Yes t + n "yes" ∧ No t' = No t + n "no" ∧ Abstain t' = Abstain t + n "abstain" ∧
  Total t' = Total t + Z.of_nat (length vs) ∧
  Z.of_nat (length vs) = n "yes" + n "no" + n "abstain".
Proof.
  intros Hv. revert t. induction Hv as [|v vs Hv Hvs IH]; intros t; [cbn; lia|].
  cbn [foldl]. destruct (IH (tally_step t v)) as (H1 & H2 & H3 & H4 & H5).
  rewrite !filter_cons. unfold isValid in Hv. cbn [Yes No Abstain Total tally_step] in *.
  repeat case_bool_decide; repeat case_decide; try congruence; cbn [length orb] in *;
    try discriminate; lia.
Qed.

(** A resolution is final: once a proposal is resolved, no later operation changes it in
    any way, and every further vote is refused; its tally counts each voter once,
    every ballot being a yes, a no or an abstention. *)
Theorem resolution_is_final ops ops' id p :
  proposals (algo_run ops empty_governor) !! id = Some p → isTerminal (Status p) = true →
  id ∉ ops' ≫= drawn →
  let g := algo_run ops' (algo_run ops empty_governor) in
  proposals g !! id = Some p ∧
  (∀ env now v n c cm, is_ok (CastVote env now id v n c cm g).1 = false) ∧
  Yes (Tally p) = count_choice "yes" p ∧ No (Tally p) = count_choice "no" p ∧
  Abstain (Tally p) = count_choice "abstain" p ∧
  Total (Tally p) = Yes (Tally p) + No (Tally p) + Abstain (Tally p).
Proof.
  intros Hp Ht Hd g. pose proof (algo_run_ok ops _ empty_governor_ok) as Hok.
  destruct (go_props _ Hok id p Hp) as [_ _ Hval].
  assert (Hg : proposals g !! id = Some p).
  { unfold g. revert Hp Hok. generalize (algo_run ops empty_governor) as g1.
    induction ops' as [|o ops' IH]; intros g1 Hp Hok; [done|].
    rewrite bind_cons, not_elem_of_app in Hd. destruct Hd as [Hd1 Hd2].
    apply (IH Hd2); [by apply final_step | by apply algo_exec_ok]. }
  split; [done|]. split.
  - intros env now v n c cm. unfold CastVote. cbv zeta. destruct (negb _); [done|].
    destruct (resolveActor env v n). by rewrite Hg, Ht.
  - unfold Tally, count_choice. set (t0 := {| Yes := 0 |}).
    destruct (tally_counts (Votes p) t0 Hval) as (H1 & H2 & H3 & H4 & H5). cbn in *. lia.
Qed.

(** ** A proposal voted on and closed *)
Definition home : Identity := {| node := Some ("n1", "alice"); localEnvName := "host" |}.
Definition prop_id : string := newProposalID 5 (Some [1; 2; 3; 4; 5; 6]).
Definition vote_ops : list algo_op := [
  AOpCreate home 5 (Some [1; 2; 3; 4; 5; 6]) " raise trust " "" "" "" None;
  AOpVote home 6 prop_id "a" "A" "yes" ""; AOpVote home 7 prop_id "b" "B" "no" "";
  AOpVote home 8 prop_id "a" "A" "abstain" ""; AOpResolve home 9 prop_id "" "done" "rejected"].

Lemma resolution_is_final_witness :
  shows <$> proposals (algo_run [AOpVote home 10 prop_id "c" "C" "yes" ""]
    (algo_run vote_ops empty_governor)) !! prop_id = Some ("rejected", [("a", "abstain"); ("b", "no")]).
Proof.
  destruct (proposals (algo_run vote_ops empty_governor) !! prop_id) as [p|] eqn:Hp;
    [|exfalso; vm_compute in Hp; discriminate].
  assert (Hs : shows p = ("rejected", [("a", "abstain"); ("b", "no")]) ∧ isTerminal (Status p) = true)
    by (vm_compute in Hp; injection Hp as <-; split; reflexivity).
  destruct Hs as [Hs Ht].
  destruct (resolution_is_final vote_ops [AOpVote home 10 prop_id "c" "C" "yes" ""] prop_id p Hp Ht)
    as [H _]; [apply not_elem_of_nil|].
  rewrite H. cbn. f_equal. exact Hs.
Defined.
