(* ===== verification/Providers.v ===== *)
(** * The provider registry and its API keys (provider.go, types.go)

    [ProviderManager] holds the configured providers, merged with the built-in
    presets for every listing. Encryption of a field is a call of the AES-GCM
    code of encryptor.go with a random nonce: [seal] and [unseal] are
    parameters. The providers file is the list it encodes. *)

From S2P Require Import Prelude GoTime Sha256 GoSort.

(** ** Data *)

Record ModelDef := {
  md_ID : string; md_Name : string; Tier : string; md_Enabled : bool;
  EnabledByKeys : gmap string bool; AvailableKeys : list string; Source : string }.

Record APIKeyConfig := {
  a_ID : string; Alias : string; a_Key : string; a_Quota : Z; QuotaDaily : Z; QuotaMonthly : Z;
  Used : Z; UsedDaily : Z; UsedMonthly : Z; LastDailyReset : string; LastMonthlyReset : string;
  a_Access : string; a_Enabled : bool; a_Priority : Z; a_ExpiresAt : string;
  a_CreatedAt : string; a_UpdatedAt : string }.

Record ProviderAccessControl := {
  ShareToPool : bool; GuestPoolPercent : Z; MigrationAllowPublic : option bool }.

#[export] Instance APIKeyConfig_eq_dec : EqDecision APIKeyConfig.
Proof. solve_decision. Defined.
#[export] Instance ProviderAccessControl_eq_dec : EqDecision ProviderAccessControl.
Proof. solve_decision. Defined.

(** The settings no operation below reads: limits, descriptions, templates. *)
Record ProviderSettings := {
  RateLimitEnabled : bool; DailyRequestLimit : Z; RateLimitPerMin : Z; PrivateTokensDaily : Z;
  PrivateQuotaMonthly : Z; PrivateQuotaTotal : Z; SharedTokensDaily : Z; SharedQuotaMonthly : Z;
  SharedQuotaTotal : Z; p_Description : string; Icon : string; APIKeyURL : string;
  HealthCheckEndpoint : string; ModelBotMap : gmap string string; KeyOptional : bool }.

Record Provider := {
  p_ID : string; p_Name : string; p_Type : string; BaseURL : string; APIKey : string;
  p_Enabled : bool; Models : list ModelDef; p_Priority : Z; TokenLimit : Z; p_Proxy : string;
  Owner : string; AccessControl : ProviderAccessControl; APIKeys : list APIKeyConfig;
  Settings : ProviderSettings; p_CreatedAt : string; p_UpdatedAt : string }.

Record ProviderManager := {
  providers : gmap string Provider; cacheValid : bool; cachedAll : list Provider }.

Definition with_key (k : APIKeyConfig) (v : string) : APIKeyConfig := {|
  a_ID := a_ID k; Alias := Alias k; a_Key := v; a_Quota := a_Quota k; QuotaDaily := QuotaDaily k;
  QuotaMonthly := QuotaMonthly k; Used := Used k; UsedDaily := UsedDaily k;
  UsedMonthly := UsedMonthly k; LastDailyReset := LastDailyReset k;
  LastMonthlyReset := LastMonthlyReset k; a_Access := a_Access k; a_Enabled := a_Enabled k;
  a_Priority := a_Priority k; a_ExpiresAt := a_ExpiresAt k; a_CreatedAt := a_CreatedAt k;
  a_UpdatedAt := a_UpdatedAt k |}.

(** Secrets, key pool and stamps replaced. *)
Definition with_secrets (p : Provider) (key proxy : string) (ks : list APIKeyConfig) : Provider := {|
  p_ID := p_ID p; p_Name := p_Name p; p_Type := p_Type p; BaseURL := BaseURL p; APIKey := key;
  p_Enabled := p_Enabled p; Models := Models p; p_Priority := p_Priority p;
  TokenLimit := TokenLimit p; p_Proxy := proxy; Owner := Owner p;
  AccessControl := AccessControl p; APIKeys := ks; Settings := Settings p;
  p_CreatedAt := p_CreatedAt p; p_UpdatedAt := p_UpdatedAt p |}.

Definition with_type (p : Provider) (t : string) : Provider := {|
  p_ID := p_ID p; p_Name := p_Name p; p_Type := t; BaseURL := BaseURL p; APIKey := APIKey p;
  p_Enabled := p_Enabled p; Models := Models p; p_Priority := p_Priority p;
  TokenLimit := TokenLimit p; p_Proxy := p_Proxy p; Owner := Owner p;
  AccessControl := AccessControl p; APIKeys := APIKeys p; Settings := Settings p;
  p_CreatedAt := p_CreatedAt p; p_UpdatedAt := p_UpdatedAt p |}.

Definition with_stamps (p : Provider) (created updated : string) : Provider := {|
  p_ID := p_ID p; p_Name := p_Name p; p_Type := p_Type p; BaseURL := BaseURL p; APIKey := APIKey p;
  p_Enabled := p_Enabled p; Models := Models p; p_Priority := p_Priority p;
  TokenLimit := TokenLimit p; p_Proxy := p_Proxy p; Owner := Owner p;
  AccessControl := AccessControl p; APIKeys := APIKeys p; Settings := Settings p;
  p_CreatedAt := created; p_UpdatedAt := updated |}.

Definition with_owner (p : Provider) (o : string) : Provider := {|
  p_ID := p_ID p; p_Name := p_Name p; p_Type := p_Type p; BaseURL := BaseURL p; APIKey := APIKey p;
  p_Enabled := p_Enabled p; Models := Models p; p_Priority := p_Priority p;
  TokenLimit := TokenLimit p; p_Proxy := p_Proxy p; Owner := o;
  AccessControl := AccessControl p; APIKeys := APIKeys p; Settings := Settings p;
  p_CreatedAt := p_CreatedAt p; p_UpdatedAt := p_UpdatedAt p |}.

Definition with_keys (p : Provider) (ks : list APIKeyConfig) : Provider :=
  with_secrets p (APIKey p) (p_Proxy p) ks.

(** ** Secrets at rest (encryptor.go) *)

Definition encPrefix : string := "omp:e:".
Definition IsEncrypted (s : string) : bool := has_prefix encPrefix s.

(** The process's encryptor: [ready] unless it is missing, [ephemeral] when its key
    was not stored; [seal] and [unseal] are [Encrypt] and [Decrypt]. *)
Class Encryptor := {
  ready : bool; ephemeral : bool; seal : string → option string; unseal : string → option string }.

Section encryption.
Context `{Encryptor}.

Definition encryptField (s : string) : string :=
  if negb ready || bool_decide (s = "") then s
  else if ephemeral then s
  else default s (seal s).

Definition decryptField (s : string) : string :=
  if negb ready || bool_decide (s = "") then s
  else if negb (IsEncrypted s) then s
  else default s (unseal s).

Definition encrypt_if (s : string) : string :=
  if negb (bool_decide (s = "")) && negb (IsEncrypted s) then encryptField s else s.
Definition decrypt_if (s : string) : string :=
  if negb (bool_decide (s = "")) && IsEncrypted s then decryptField s else s.

Definition encrypt_key (k : APIKeyConfig) : APIKeyConfig := with_key k (encrypt_if (a_Key k)).
Definition decrypt_key (k : APIKeyConfig) : APIKeyConfig := with_key k (decrypt_if (a_Key k)).

(** [makeProviderListLocked]. *)
Definition makeProviderListLocked (m : ProviderManager) : list Provider :=
  (λ p, with_secrets p (encrypt_if (APIKey p)) (encrypt_if (p_Proxy p)) (encrypt_key <$> APIKeys p))
    <$> (map_to_list (providers m)).*2.
End encryption.

(** ** Loading *)

(** [rand]: the eight bytes [crypto/rand] returned. *)
Definition generateKeyID (rand : list Z) : string := "key_" +:+ hex rand.

Definition legacy_key (loc : Location) (now : Time) (rand : list Z) (p : Provider) : APIKeyConfig := {|
  a_ID := generateKeyID rand; Alias := ""; a_Key := APIKey p; a_Quota := TokenLimit p;
  QuotaDaily := 0; QuotaMonthly := 0; Used := 0; UsedDaily := 0; UsedMonthly := 0;
  LastDailyReset := ""; LastMonthlyReset := ""; a_Access := "private"; a_Enabled := true;
  a_Priority := 1; a_ExpiresAt := ""; a_CreatedAt := fmt_rfc3339 loc now; a_UpdatedAt := "" |}.

Definition migrateProviderKeys (loc : Location) (now : Time) (rand : list Z) (p : Provider)
    : bool * Provider :=
  if negb (bool_decide (APIKey p = "")) && bool_decide (APIKeys p = [])
  then (true, with_secrets p "" (p_Proxy p) [legacy_key loc now rand p])
  else (false, p).

Definition migrateSiderType (p : Provider) : bool * Provider :=
  if bool_decide (p_ID p = "sider")
     && (bool_decide (p_Type p = "web") || bool_decide (p_Type p = "web_session"))
  then (true, with_type p "sider") else (false, p).

(** [UnmarshalJSON] of the access control: the legacy [allow_public]. *)
Definition unmarshal_access (ac : ProviderAccessControl) : ProviderAccessControl :=
  match MigrationAllowPublic ac with
  | Some b => if ShareToPool ac then ac
              else {| ShareToPool := b; GuestPoolPercent := GuestPoolPercent ac;
                      MigrationAllowPublic := None |}
  | None => ac
  end.

Definition with_access (p : Provider) (ac : ProviderAccessControl) : Provider := {|
  p_ID := p_ID p; p_Name := p_Name p; p_Type := p_Type p; BaseURL := BaseURL p; APIKey := APIKey p;
  p_Enabled := p_Enabled p; Models := Models p; p_Priority := p_Priority p;
  TokenLimit := TokenLimit p; p_Proxy := p_Proxy p; Owner := Owner p; AccessControl := ac;
  APIKeys := APIKeys p; Settings := Settings p;
  p_CreatedAt := p_CreatedAt p; p_UpdatedAt := p_UpdatedAt p |}.

Section registry.
Context `{Encryptor} {loc : Location} (presetProviders : list Provider).

Definition load_one (now : Time) (rand : list Z) (p : Provider) : Provider :=
  let p := with_access p (unmarshal_access (AccessControl p)) in
  let p := with_secrets p (decrypt_if (APIKey p)) (decrypt_if (p_Proxy p)) (decrypt_key <$> APIKeys p) in
  (migrateSiderType (migrateProviderKeys loc now rand p).2).2.

(** [load]; the file is [None] when it is missing or does not decode. [rand n] is
    what [crypto/rand] gives the provider at position [n]. *)
Definition load (now : Time) (rand : nat → list Z) (file : option (list Provider))
    (m : ProviderManager) : ProviderManager :=
  match file with
  | None => m
  | Some l => {|
      providers := foldl (λ acc p, <[p_ID p := p]> acc) (providers m)
                     (imap (λ i p, load_one now (rand i) p) l);
      cacheValid := cacheValid m; cachedAll := cachedAll m |}
  end.

Definition Reload (now : Time) (rand : nat → list Z) (file : option (list Provider))
    (m : ProviderManager) : res unit * ProviderManager :=
  match file with
  | None => (Err "unreadable providers file", m)
  | Some _ => (Ok (), load now rand file {| providers := ∅; cacheValid := false; cachedAll := [] |})
  end.

(** [save] takes a snapshot under the read lock, writes it, and then drops the cache it saw
    valid, each under a lock of its own; [saveLocked] takes the snapshot and drops the cache in
    the caller's lock, which it releases for the write. These are the parts, and the whole
    when nothing comes in between: what is written, and the manager left. *)
Definition save_begin (m : ProviderManager) : list Provider * bool :=
  (makeProviderListLocked m, cacheValid m).
Definition save_end (wasValid : bool) (m : ProviderManager) : ProviderManager :=
  if wasValid
  then {| providers := providers m; cacheValid := false; cachedAll := cachedAll m |} else m.

Definition save (m : ProviderManager) : list Provider * ProviderManager :=
  (makeProviderListLocked m,
   {| providers := providers m; cacheValid := if cacheValid m then false else cacheValid m;
      cachedAll := cachedAll m |}).
Definition saveLocked (m : ProviderManager) : list Provider * ProviderManager :=
  (makeProviderListLocked m,
   {| providers := providers m; cacheValid := false; cachedAll := cachedAll m |}).

Definition set_providers (m : ProviderManager) (ps : gmap string Provider) : ProviderManager := {|
  providers := ps; cacheValid := cacheValid m; cachedAll := cachedAll m |}.

(** ** Masking *)

Definition mask (dots short key : string) : string :=
  if (8 <? String.length key)%nat
  then String.substring 0 4 key +:+ dots +:+ String.substring (String.length key - 4) 4 key
  else if bool_decide (key = "") then "" else short.

Definition mask_proxy (s : string) : string :=
  if has_prefix "vmess://" s then "vmess://***"
  else if has_prefix "vless://" s then "vless://***" else s.

Definition Safe (p : Provider) : Provider :=
  with_secrets p (mask "..." "***" (APIKey p)) (mask_proxy (p_Proxy p))
    ((λ k, with_key k (mask "..." "***" (a_Key k))) <$> APIKeys p).

(** ** Listings *)

Definition sortedConfiguredLocked (m : ProviderManager) : list Provider :=
  omap (λ id, providers m !! id) (sort_slice str_ltb (map_to_list (providers m)).*1).

(** Append, in order, the providers whose id was not seen. *)
Definition add_unseen (view : Provider → Provider) (st : list Provider * gset string) (p : Provider)
    : list Provider * gset string :=
  let '(out, seen) := st in
  if bool_decide (p_ID p ∈ seen) then st else (out ++ [view p], {[p_ID p]} ∪ seen).

Definition merged (view : Provider → Provider) (own : list Provider) : list Provider :=
  (foldl (add_unseen view) (view <$> own, list_to_set (p_ID <$> own)) presetProviders).1.

Definition GetAll (m : ProviderManager) : list Provider * ProviderManager :=
  if cacheValid m then (cachedAll m, m)
  else let r := merged Safe (sortedConfiguredLocked m) in
       (r, {| providers := providers m; cacheValid := true; cachedAll := r |}).

Definition GetConfigured (m : ProviderManager) : list Provider :=
  Safe <$> (map_to_list (providers m)).*2.

Definition GetAllRaw (m : ProviderManager) : list Provider := merged id (sortedConfiguredLocked m).

Definition GetVisible (owner : string) (m : ProviderManager) : list Provider * ProviderManager :=
  if bool_decide (owner = "") then GetAll m
  else
    let own := filter (λ p, Owner p = owner) (sortedConfiguredLocked m) in
    ((foldl (add_unseen (λ p, with_owner (Safe p) "system"))
        (Safe <$> own, list_to_set (p_ID <$> own)) presetProviders).1, m).

Definition GetRaw (id : string) (m : ProviderManager) : option Provider :=
  match providers m !! id with
  | Some p => Some p
  | None => find_key p_ID id presetProviders
  end.

Definition Get (id : string) (m : ProviderManager) : option Provider := Safe <$> GetRaw id m.

Definition Enabled (m : ProviderManager) : list Provider :=
  filter (λ p, p_Enabled p = true) (GetAllRaw m).

(** Presets are checked against the enabled configured providers only. *)
Definition EnabledRaw (m : ProviderManager) : list Provider :=
  let own := filter (λ p, p_Enabled p = true) (map_to_list (providers m)).*2 in
  own ++ filter (λ p, p_Enabled p = true ∧ p_ID p ∉ p_ID <$> own) presetProviders.

(** ** Changes *)

Definition normalizeAccessControl (ac : ProviderAccessControl) : ProviderAccessControl := ac.

(** What [Add] and [Delete] do in the lock, before they save. *)
Definition add_locked (now : Time) (p : Provider) (m : ProviderManager) : Provider * ProviderManager :=
  let stamp := fmt_rfc3339 loc now in
  let created := match providers m !! p_ID p with Some e => p_CreatedAt e | None => stamp end in
  let p := with_stamps (with_access p (normalizeAccessControl (AccessControl p))) created stamp in
  (p, set_providers m (<[p_ID p := p]> (providers m))).

Definition Add (now : Time) (p : Provider) (m : ProviderManager)
    : Provider * (list Provider * ProviderManager) :=
  let '(p, m) := add_locked now p m in (Safe p, save m).

Definition zero_settings : ProviderSettings := {|
  RateLimitEnabled := false; DailyRequestLimit := 0; RateLimitPerMin := 0; PrivateTokensDaily := 0;
  PrivateQuotaMonthly := 0; PrivateQuotaTotal := 0; SharedTokensDaily := 0; SharedQuotaMonthly := 0;
  SharedQuotaTotal := 0; p_Description := ""; Icon := ""; APIKeyURL := "";
  HealthCheckEndpoint := ""; ModelBotMap := ∅; KeyOptional := false |}.

(** The disabled stub that hides a deleted preset. *)
Definition stub (id : string) (p : Provider) : Provider := {|
  p_ID := id; p_Name := p_Name p; p_Type := p_Type p; BaseURL := BaseURL p; APIKey := "";
  p_Enabled := false; Models := []; p_Priority := 0; TokenLimit := 0; p_Proxy := ""; Owner := "";
  AccessControl := {| ShareToPool := false; GuestPoolPercent := 0; MigrationAllowPublic := None |};
  APIKeys := []; Settings := zero_settings; p_CreatedAt := ""; p_UpdatedAt := "" |}.

Definition delete_locked (id : string) (m : ProviderManager) : option ProviderManager :=
  match providers m !! id with
  | Some _ => Some (set_providers m (delete id (providers m)))
  | None =>
      match find_key p_ID id presetProviders with
      | Some p => Some (set_providers m (<[id := stub id p]> (providers m)))
      | None => None
      end
  end.

(** The file is [None] when nothing is written. *)
Definition Delete (id : string) (m : ProviderManager)
    : bool * (option (list Provider) * ProviderManager) :=
  match delete_locked id m with
  | Some m => let '(f, m) := save m in (true, (Some f, m))
  | None => (false, (None, m))
  end.

Definition DeleteByOwner (owner : string) (m : ProviderManager)
    : Z * (option (list Provider) * ProviderManager) :=
  let gone := filter (λ kv, Owner kv.2 = owner) (map_to_list (providers m)) in
  if bool_decide (gone = []) then (0, (None, m))
  else let '(f, m') := saveLocked (set_providers m (filter (λ kv, Owner kv.2 ≠ owner) (providers m))) in
       (Z.of_nat (length gone), (Some f, m')).

Definition ClearAllAPIKeys (m : ProviderManager) : Z * (option (list Provider) * ProviderManager) :=
  let count := zsum ((λ p, (if bool_decide (APIKey p = "") then 0 else 1)
                           + (if bool_decide (APIKeys p = []) then 0 else 1))
                     <$> (map_to_list (providers m)).*2) in
  if 0 <? count
  then let '(f, m') := saveLocked (set_providers m
                         ((λ p, with_secrets p "" (p_Proxy p) []) <$> providers m)) in
       (count, (Some f, m'))
  else (0, (None, m)).

(** ** The key pool of a provider *)

Definition keyAllowedForAccess (keyAccess accessType : string) : bool :=
  if bool_decide (keyAccess = "public") then true
  else if bool_decide (keyAccess = "shared")
  then bool_decide (accessType = "shared") || bool_decide (accessType = "private")
       || bool_decide (accessType = "")
  else if bool_decide (keyAccess = "private")
  then bool_decide (accessType = "private") || bool_decide (accessType = "")
  else false.

(** A window limit is reached: it is set, counted in the current window, and used up. *)
Definition window_full (limit used : Z) (last current : string) : bool :=
  (0 <? limit) && bool_decide (last = current) && (limit <=? used).

Definition key_expired (now : Time) (k : APIKeyConfig) : bool :=
  negb (bool_decide (a_ExpiresAt k = "")) &&
  match parse_rfc3339 (a_ExpiresAt k) with Some t => after now t | None => false end.

(** The checks of the loop of [SelectAPIKey]. *)
Definition usable (now : Time) (accessType : string) (k : APIKeyConfig) : bool :=
  a_Enabled k && keyAllowedForAccess (a_Access k) accessType
  && negb ((0 <? a_Quota k) && (a_Quota k <=? Used k))
  && negb (window_full (QuotaDaily k) (UsedDaily k) (LastDailyReset k) (fmt_date loc now))
  && negb (window_full (QuotaMonthly k) (UsedMonthly k) (LastMonthlyReset k) (fmt_month loc now))
  && negb (key_expired now k).

(** The process-wide round-robin counter is a [uint64]. *)
Definition SelectAPIKey (now : Time) (accessType : string) (p : Provider) (rr : Z)
    : res APIKeyConfig * Z :=
  if bool_decide (APIKeys p = []) then
    if bool_decide (APIKey p = "") then (Err "no API key configured", rr)
    else (Ok {| a_ID := "legacy"; Alias := ""; a_Key := APIKey p; a_Quota := 0; QuotaDaily := 0;
                QuotaMonthly := 0; Used := 0; UsedDaily := 0; UsedMonthly := 0;
                LastDailyReset := ""; LastMonthlyReset := ""; a_Access := "private";
                a_Enabled := true; a_Priority := 1; a_ExpiresAt := ""; a_CreatedAt := "";
                a_UpdatedAt := "" |}, rr)
  else
    let candidates := filter (λ k, usable now accessType k = true) (APIKeys p) in
    match sort_stable (λ x y, a_Priority y <? a_Priority x) candidates with
    | [] => (Err "no available API key for the given access level", rr)
    | (top :: _) as sorted =>
        let tops := filter (λ k, a_Priority k = a_Priority top) sorted in
        (Ok (default top (tops !! Z.to_nat (rr mod Z.of_nat (length tops)))), wrapu 64 (rr + 1))
    end.

Definition GetEffectiveAPIKey (now : Time) (p : Provider) (rr : Z) : string * Z :=
  let '(r, rr') := SelectAPIKey now "" p rr in
  (match r with Ok k => a_Key k | Err _ => APIKey p end, rr').

(** Rewrite the first key with the id. *)
Fixpoint update_key (keyID : string) (f : APIKeyConfig → APIKeyConfig) (ks : list APIKeyConfig)
    : option (list APIKeyConfig) :=
  match ks with
  | [] => None
  | k :: ks' =>
      if bool_decide (a_ID k = keyID) then Some (f k :: ks')
      else (k ::.) <$> update_key keyID f ks'
  end.

Definition with_usage (k : APIKeyConfig) (used daily monthly : Z) (day month updated : string)
    : APIKeyConfig := {|
  a_ID := a_ID k; Alias := Alias k; a_Key := a_Key k; a_Quota := a_Quota k;
  QuotaDaily := QuotaDaily k; QuotaMonthly := QuotaMonthly k; Used := used; UsedDaily := daily;
  UsedMonthly := monthly; LastDailyReset := day; LastMonthlyReset := month; a_Access := a_Access k;
  a_Enabled := a_Enabled k; a_Priority := a_Priority k; a_ExpiresAt := a_ExpiresAt k;
  a_CreatedAt := a_CreatedAt k; a_UpdatedAt := updated |}.

Definition record_usage (now : Time) (tokens : Z) (k : APIKeyConfig) : APIKeyConfig :=
  let today := fmt_date loc now in let month := fmt_month loc now in
  let daily := if bool_decide (LastDailyReset k = today) then UsedDaily k else 0 in
  let monthly := if bool_decide (LastMonthlyReset k = month) then UsedMonthly k else 0 in
  with_usage k (Used k +! tokens) (daily +! tokens) (monthly +! tokens) today month (a_UpdatedAt k).

(** A change of one provider's key pool, saved. *)
Definition put_pool (p : Provider) (ks : list APIKeyConfig) (updated : string)
    (pid : string) (m : ProviderManager) : list Provider * ProviderManager :=
  saveLocked (set_providers m
    (<[pid := with_stamps (with_keys p ks) (p_CreatedAt p) updated]> (providers m))).

Definition RecordKeyUsage (now : Time) (providerID keyID : string) (tokens : Z) (m : ProviderManager)
    : option (list Provider) * ProviderManager :=
  match providers m !! providerID with
  | None => (None, m)
  | Some p =>
      match update_key keyID (record_usage now tokens) (APIKeys p) with
      | None => (None, m)
      | Some ks => let '(f, m') := put_pool p ks (p_UpdatedAt p) providerID m in (Some f, m')
      end
  end.

Definition ResetKeyQuota (now : Time) (providerID keyID : string) (m : ProviderManager)
    : res unit * (option (list Provider) * ProviderManager) :=
  match providers m !! providerID with
  | None => (Err "provider not found", (None, m))
  | Some p =>
      let reset k := with_usage k 0 (UsedDaily k) (UsedMonthly k) (LastDailyReset k)
                       (LastMonthlyReset k) (fmt_rfc3339 loc now) in
      match update_key keyID reset (APIKeys p) with
      | None => (Err "key not found in provider", (None, m))
      | Some ks => let '(f, m') := put_pool p ks (p_UpdatedAt p) providerID m in (Ok (), (Some f, m'))
      end
  end.

Definition new_key (now : Time) (rand : list Z) (k : APIKeyConfig) : APIKeyConfig := {|
  a_ID := if bool_decide (a_ID k = "") then generateKeyID rand else a_ID k; Alias := Alias k;
  a_Key := a_Key k; a_Quota := a_Quota k; QuotaDaily := QuotaDaily k; QuotaMonthly := QuotaMonthly k;
  Used := Used k; UsedDaily := UsedDaily k; UsedMonthly := UsedMonthly k;
  LastDailyReset := LastDailyReset k; LastMonthlyReset := LastMonthlyReset k;
  a_Access := if bool_decide (a_Access k = "") then "private" else a_Access k;
  a_Enabled := a_Enabled k; a_Priority := a_Priority k; a_ExpiresAt := a_ExpiresAt k;
  a_CreatedAt := fmt_rfc3339 loc now; a_UpdatedAt := fmt_rfc3339 loc now |}.

Definition AddAPIKey (now : Time) (rand : list Z) (providerID : string) (k : APIKeyConfig)
    (m : ProviderManager) : res unit * (option (list Provider) * ProviderManager) :=
  match providers m !! providerID with
  | None => (Err "provider not found", (None, m))
  | Some p =>
      if (10 <=? length (APIKeys p))%nat
      then (Err "maximum API key count (10) per provider reached", (None, m))
      else let '(f, m') := put_pool p (APIKeys p ++ [new_key now rand k]) (fmt_rfc3339 loc now)
                             providerID m in
           (Ok (), (Some f, m'))
  end.

Definition DeleteAPIKey (now : Time) (providerID keyID : string) (m : ProviderManager)
    : res unit * (option (list Provider) * ProviderManager) :=
  match providers m !! providerID with
  | None => (Err "provider not found", (None, m))
  | Some p =>
      if bool_decide (keyID ∈ a_ID <$> APIKeys p)
      then let '(f, m') := put_pool p (filter (λ k, a_ID k ≠ keyID) (APIKeys p))
                             (fmt_rfc3339 loc now) providerID m in
           (Ok (), (Some f, m'))
      else (Err "key not found in provider", (None, m))
  end.
(** A value of the decoded request body of [UpdateAPIKey]. *)
Inductive json_value := JString (s : string) | JNumber (f : float64) | JBool (b : bool) | JOther.

Definition json_int (old : Z) (v : option json_value) : Z :=
  match v with Some (JNumber f) => int_of_float f | _ => old end.
Definition json_string (old : string) (v : option json_value) : string :=
  match v with Some (JString s) => s | _ => old end.

(** A new key value is taken unless it is empty or looks masked. *)
Definition json_key (old : string) (v : option json_value) : string :=
  match v with
  | Some (JString s) => if bool_decide (s = "") || str_contains "..." s then old else s
  | _ => old
  end.

Definition apply_updates (now : Time) (u : gmap string json_value) (k : APIKeyConfig) : APIKeyConfig := {|
  a_ID := a_ID k; Alias := json_string (Alias k) (u !! "alias"); a_Key := json_key (a_Key k) (u !! "key");
  a_Quota := json_int (a_Quota k) (u !! "quota");
  QuotaDaily := json_int (QuotaDaily k) (u !! "quota_daily");
  QuotaMonthly := json_int (QuotaMonthly k) (u !! "quota_monthly"); Used := Used k;
  UsedDaily := UsedDaily k; UsedMonthly := UsedMonthly k; LastDailyReset := LastDailyReset k;
  LastMonthlyReset := LastMonthlyReset k;
  a_Access := json_string (a_Access k) (u !! "access_control");
  a_Enabled := match u !! "enabled" with Some (JBool b) => b | _ => a_Enabled k end;
  a_Priority := json_int (a_Priority k) (u !! "priority");
  a_ExpiresAt := json_string (a_ExpiresAt k) (u !! "expires_at");
  a_CreatedAt := a_CreatedAt k; a_UpdatedAt := fmt_rfc3339 loc now |}.

Definition UpdateAPIKey (now : Time) (providerID keyID : string) (u : gmap string json_value)
    (m : ProviderManager) : res unit * (option (list Provider) * ProviderManager) :=
  match providers m !! providerID with
  | None => (Err "provider not found", (None, m))
  | Some p =>
      match update_key keyID (apply_updates now u) (APIKeys p) with
      | None => (Err "key not found in provider", (None, m))
      | Some ks => let '(f, m') := put_pool p ks (p_UpdatedAt p) providerID m in (Ok (), (Some f, m'))
      end
  end.

(** The mask of this listing: eight bullets, where [Safe] writes three dots. *)
Definition bullets : string := "••••••••".

Definition GetAPIKeys (providerID : string) (m : ProviderManager) : res (list APIKeyConfig) :=
  match providers m !! providerID with
  | None => Err "provider not found"
  | Some p => Ok ((λ k, with_key k (mask bullets bullets (a_Key k))) <$> APIKeys p)
  end.

(** ** Model lists from upstream *)

(** [fetch]: the ids and names an upstream lists for a key. *)
Definition with_models (p : Provider) (ms : list ModelDef) (updated : string) : Provider := {|
  p_ID := p_ID p; p_Name := p_Name p; p_Type := p_Type p; BaseURL := BaseURL p; APIKey := APIKey p;
  p_Enabled := p_Enabled p; Models := ms; p_Priority := p_Priority p; TokenLimit := TokenLimit p;
  p_Proxy := p_Proxy p; Owner := Owner p; AccessControl := AccessControl p; APIKeys := APIKeys p;
  Settings := Settings p; p_CreatedAt := p_CreatedAt p; p_UpdatedAt := updated |}.

(** [decryptAPIKey]. *)
Definition decryptAPIKey (s : string) : option string :=
  if negb ready then Some s else if IsEncrypted s then unseal s else Some s.

(** The keys asked, with what each lists; a key that does not decrypt is skipped. *)
Definition key_results (fetch : Provider → list (string * string)) (p : Provider)
    : list (string * list (string * string)) :=
  if bool_decide (APIKeys p = []) then
    [("default", fetch (with_secrets p (default (APIKey p) (decryptAPIKey (APIKey p))) (p_Proxy p) []))]
  else omap (λ k,
    if a_Enabled k
    then (λ key, (a_ID k, fetch (with_secrets p key (p_Proxy p) (APIKeys p)))) <$> decryptAPIKey (a_Key k)
    else None) (APIKeys p).

(** [allModelIDs]: the last name listed for each id. *)
Definition all_ids (rs : list (string * list (string * string))) : gmap string string :=
  foldl (λ acc r, foldl (λ acc im, <[im.1 := im.2]> acc) acc r.2) ∅ rs.

(** The keys that list a model, sorted, each once. *)
Definition keys_of (rs : list (string * list (string * string))) (mid : string) : list string :=
  sort_slice str_ltb (elements (list_to_set (C := gset string)
    ((filter (λ r, mid ∈ r.2.*1) rs).*1))).

Definition model_def (rs : list (string * list (string * string))) (old : gmap string ModelDef)
    (im : string * string) : ModelDef := {|
  md_ID := im.1; md_Name := im.2; Tier := "";
  md_Enabled := match old !! im.1 with Some e => md_Enabled e | None => false end;
  EnabledByKeys := match old !! im.1 with Some e => EnabledByKeys e | None => ∅ end;
  AvailableKeys := keys_of rs im.1; Source := "" |}.

Definition SyncModels (now : Time) (fetch : Provider → list (string * string)) (providerID : string)
    (m : ProviderManager) : res Z * (option (list Provider) * ProviderManager) :=
  match GetRaw providerID m with
  | None => (Err "provider not found", (None, m))
  | Some p =>
      if bool_decide (p_Type p = "web_session") then (Err "web session platform", (None, m))
      else if negb (bool_decide (p_Type p = "openai_compatible")) then (Err "platform type", (None, m))
      else if bool_decide (APIKey p = "") && bool_decide (APIKeys p = [])
      then (Err "provider has no API key configured", (None, m))
      else
        let old := foldl (λ acc md, <[md_ID md := md]> acc) ∅ (Models p) in
        let rs := key_results fetch p in
        let ids := map_to_list (all_ids rs) in
        if bool_decide (ids = []) then (Err "no models returned", (None, m))
        else
          let ms := sort_slice (λ a b, str_ltb (md_ID a) (md_ID b)) (model_def rs old <$> ids) in
          let m1 := match providers m !! providerID with
                    | Some e => set_providers m
                        (<[providerID := with_models e ms (fmt_rfc3339 loc now)]> (providers m))
                    | None => m
                    end in
          let '(f, m2) := saveLocked m1 in (Ok (Z.of_nat (length ms)), (Some f, m2))
  end.
End registry.
