(* ===== verification/KeyPool.v ===== *)
(** * The key pool: selection, rotation and accounting (provider.go)

    Theorems about [SelectAPIKey], [RecordKeyUsage] and the operations that
    change the keys of a provider. *)

From S2P Require Import Prelude GoTime Sha256 GoSort Providers.

Section selection.
Context {loc : Location}.
Implicit Types (k : APIKeyConfig) (p : Provider).

(** The usable keys no usable key outranks, in the order of the pool. *)
Definition top_keys (now : Time) (acc : string) (p : Provider) : list APIKeyConfig :=
  let u := filter (λ k, usable (loc := loc) now acc k = true) (APIKeys p) in
  filter (λ k, Forall (λ k', a_Priority k' ≤ a_Priority k) u) u.

(** [n] selections in a row. *)
Fixpoint selections (now : Time) (acc : string) (p : Provider) (n : nat) (rr : Z)
    : list (res APIKeyConfig) :=
  match n with
  | O => []
  | S n' => let '(r, rr') := SelectAPIKey (loc := loc) now acc p rr in
            r :: selections now acc p n' rr'
  end.

Lemma select_spec now acc p rr :
  APIKeys p ≠ [] →
  SelectAPIKey (loc := loc) now acc p rr =
  match top_keys now acc p !! Z.to_nat (rr mod Z.of_nat (length (top_keys now acc p))) with
  | Some k => (Ok k, wrapu 64 (rr + 1))
  | None => (Err "no available API key for the given access level", rr)
  end.
Proof.
  intros Hne. unfold SelectAPIKey. rewrite bool_decide_eq_false_2 by done.
  unfold top_keys. set (u := filter _ (APIKeys p)).
  destruct (sort_stable _ u) as [|x l] eqn:E; rewrite ?E.
  { apply sort_stable_nil in E. rewrite E. cbn. by rewrite lookup_nil. }
  destruct (sort_stable_head _ u x l E) as [Hx Hmax].
  assert (Et : filter (λ k, Forall (λ k', a_Priority k' ≤ a_Priority k) u) u =
               filter (λ k, a_Priority k = a_Priority x) (x :: l)).
  { rewrite <- E, (sort_stable_filter (λ x y, a_Priority y <? a_Priority x)); [|intros y z Hy Hz; cbn in *; rewrite Hy, Hz; apply Z.ltb_irrefl].
    apply filter_ext_in. intros y Hy. rewrite Forall_forall. split.
    - intros Hall. pose proof (Hall x Hx). pose proof (Hmax y Hy) as Hm.
      apply Z.ltb_ge in Hm. lia.
    - intros -> z Hz. specialize (Hmax z Hz). by apply Z.ltb_ge in Hmax. }
  rewrite Et. set (tops := filter _ (x :: l)).
  destruct (lookup_lt_is_Some_2 tops (Z.to_nat (rr mod Z.of_nat (length tops)))) as [k Hk].
  - assert (length tops ≠ 0%nat).
    { subst tops. rewrite filter_cons_True by done. cbn. lia. }
    pose proof (Z.mod_pos_bound rr (Z.of_nat (length tops)) ltac:(lia)). lia.
  - by rewrite Hk.
Qed.
Lemma top_keys_nil now acc p :
  top_keys now acc p = [] ↔ ∀ k, k ∈ APIKeys p → usable (loc := loc) now acc k = false.
Proof.
  unfold top_keys. set (u := filter _ (APIKeys p)). split.
  - intros Hn k Hk. destruct (usable now acc k) eqn:E; [|done]. exfalso.
    assert (Hu : k ∈ u) by (by apply list_elem_of_filter).
    destruct (sort_stable (λ x y, a_Priority y <? a_Priority x) u) as [|x l] eqn:Es.
    { apply sort_stable_nil in Es. rewrite Es in Hu. by apply elem_of_nil in Hu. }
    destruct (sort_stable_head _ u x l Es) as [Hx Hmax].
    assert (Hin : x ∈ @nil APIKeyConfig); [|by apply elem_of_nil in Hin].
    rewrite <- Hn. apply list_elem_of_filter. split; [|done]. rewrite Forall_forall.
    intros y Hy. specialize (Hmax y Hy). by apply Z.ltb_ge in Hmax.
  - intros Hn. assert (u = []) as ->; [|done].
    apply elem_of_nil_inv. intros k [Hk1 Hk2]%list_elem_of_filter. by rewrite Hn in Hk1.
Qed.

Lemma selections_nth now acc p n rr d :
  APIKeys p ≠ [] → top_keys now acc p ≠ [] → 0 ≤ rr → rr + Z.of_nat n ≤ 2 ^ 64 →
  let top := top_keys now acc p in
  selections now acc p n rr =
  Ok <$> ((λ i, default d (top !! ((Z.to_nat rr + i) mod length top)%nat)) <$> seq 0 n).
Proof.
  intros Hne Hnt. cbn zeta. revert rr. induction n as [|n IH]; intros rr Hrr Hb; [done|].
  cbn [selections]. rewrite select_spec by done. set (top := top_keys now acc p) in *.
  assert (Hl : length top ≠ 0%nat) by (by destruct top).
  destruct (lookup_lt_is_Some_2 top (Z.to_nat rr mod length top)) as [k Hk].
  { by apply Nat.mod_upper_bound. }
  replace (Z.to_nat (rr mod Z.of_nat (length top))) with (Z.to_nat rr mod length top)%nat
    by (rewrite Z2Nat.inj_mod, Nat2Z.id by lia; done).
  rewrite Hk. cbn [seq fmap list_fmap]. rewrite Nat.add_0_r, Hk. cbn [default]. f_equal.
  rewrite <- fmap_S_seq, <- (list_fmap_compose S).
  destruct n as [|n]; [done|]. unfold wrapu. rewrite Z.mod_small by lia.
  rewrite IH by lia. f_equal. apply list_fmap_ext. intros _ i _. cbn [compose].
  by replace (Z.to_nat (rr + 1) + i)%nat with (Z.to_nat rr + S i)%nat by lia.
Qed.

Lemma rotation {A} (l : list A) (r : nat) d :
  (λ i, default d (l !! ((r + i) mod length l)%nat)) <$> seq 0 (length l) = rotate r l.
Proof.
  apply list_eq_same_length with (length l); [by rewrite length_rotate|
    by rewrite length_fmap, length_seq|].
  intros i x y Hi Hx Hy. rewrite list_lookup_fmap, lookup_seq_lt in Hx by done. cbn in Hx.
  injection Hx as <-. rewrite lookup_rotate_r in Hy by done.
  replace (rotate_nat_add r i (length l)) with ((r + i) mod length l)%nat in Hy; [by rewrite Hy|].
  unfold rotate_nat_add. by rewrite <- Nat2Z.inj_add, <- Nat2Z.inj_mod, Nat2Z.id.
Qed.

(** The key pool picks the best usable key and spreads the load: a pool with no usable key
    gives an error and leaves the counter; otherwise every selection returns a usable key of
    the highest priority among the usable ones, and in any run of as many selections as there
    are such keys each of them is served exactly once. *)
Theorem key_rotation now acc p rr :
  APIKeys p ≠ [] → 0 ≤ rr →
  let top := top_keys now acc p in
  rr + Z.of_nat (length top) ≤ 2 ^ 64 →
  ((∀ k, k ∈ APIKeys p → usable (loc := loc) now acc k = false) →
   SelectAPIKey (loc := loc) now acc p rr =
     (Err "no available API key for the given access level", rr)) ∧
  (∀ k, k ∈ APIKeys p → usable (loc := loc) now acc k = true →
   ∃ k', (SelectAPIKey (loc := loc) now acc p rr).1 = Ok k' ∧ k' ∈ APIKeys p ∧
         usable (loc := loc) now acc k' = true ∧ a_Priority k ≤ a_Priority k') ∧
  selections now acc p (length top) rr ≡ₚ Ok <$> top.
Proof.
  intros Hne Hrr top Hb. split_and!.
  - intros Hn%top_keys_nil. by rewrite select_spec, Hn, lookup_nil.
  - intros k Hk Hu. destruct (decide (top = [])) as [Hn|Hn].
    { apply top_keys_nil with (k := k) in Hn; congruence. }
    rewrite select_spec by done. fold top. assert (length top ≠ 0%nat) by (by destruct top).
    destruct (lookup_lt_is_Some_2 top (Z.to_nat (rr mod Z.of_nat (length top)))) as [k' Hk'].
    { pose proof (Z.mod_pos_bound rr (Z.of_nat (length top)) ltac:(lia)). lia. }
    rewrite Hk'. exists k'. apply list_elem_of_lookup_2 in Hk'.
    apply list_elem_of_filter in Hk' as [Hmax Hin]. rewrite Forall_forall in Hmax.
    apply list_elem_of_filter in Hin as [? ?]. split_and!; try done.
    apply Hmax. by apply list_elem_of_filter.
  - destruct (decide (top = [])) as [Hn|Hn]; [by rewrite Hn|].
    destruct top as [|d top'] eqn:E; [done|].
    assert (Et : top = d :: top') by done.
    rewrite (selections_nth now acc p _ rr d Hne) by (subst top; congruence || lia).
    fold top. rewrite <- E. apply fmap_Permutation.
    rewrite rotation. unfold rotate. by rewrite Permutation_app_comm, take_drop.
Qed.
End selection.

(** ** Masked values *)

Section masked.
Context `{Encryptor} {loc : Location}.

Lemma str_contains_skip c sub s : str_contains sub (String c s) = has_prefix sub (String c s) || str_contains sub s.
Proof. done. Qed.

(** No three dots where there is none. *)
Lemma no_dots s : has_char "." s = false → str_contains "..." s = false.
Proof.
  induction s as [|c s IH]; [done|]. cbn [has_char]. intros [Hc Hs]%orb_false_iff.
  rewrite str_contains_skip, IH by done. unfold has_prefix. cbn [strip_prefix].
  by rewrite Hc.
Qed.

Lemma contains_app sub a b : str_contains sub (a +:+ sub +:+ b) = true.
Proof.
  induction a as [|c a IH].
  - rewrite append_nil_l. destruct (sub +:+ b) as [|c s] eqn:E; cbn [str_contains];
      unfold has_prefix; by rewrite <- E, strip_prefix_app.
  - rewrite append_cons, str_contains_skip, IH. apply orb_true_r.
Qed.

Lemma has_char_substring c n k s : has_char c s = false → has_char c (String.substring n k s) = false.
Proof.
  revert n k. induction s as [|x s IH]; intros n k; [by destruct n, k|].
  cbn [has_char]. intros [Hx Hs]%orb_false_iff. destruct n as [|n]; [destruct k as [|k]|]; cbn.
  - done.
  - by rewrite Hx, IH.
  - by apply IH.
Qed.

Lemma update_key_find kid f ks k :
  find_key a_ID kid ks = Some k → (∀ x, a_ID (f x) = a_ID x) →
  ∃ ks', update_key kid f ks = Some ks' ∧ find_key a_ID kid ks' = Some (f k).
Proof.
  intros Hk Hf. induction ks as [|x ks IH]; [done|]. rewrite find_key_cons in Hk. cbn [update_key].
  destruct (decide (a_ID x = kid)) as [E|N].
  - injection Hk as <-. rewrite bool_decide_eq_true_2 by done. eexists. split; [done|].
    rewrite find_key_cons, decide_True; [done|]. by rewrite Hf.
  - rewrite bool_decide_eq_false_2 by done. destruct (IH Hk) as (ks' & -> & Hks').
    eexists. split; [done|]. rewrite find_key_cons, decide_False by done. done.
Qed.

(** The value a listing shows for a key, sent back unchanged in an update: the dots of [Safe] are
    recognised and the key is kept, the bullets of [GetAPIKeys] are not and replace it. *)
Theorem masked_key_overwrites now pid kid m p k :
  providers m !! pid = Some p → find_key a_ID kid (APIKeys p) = Some k →
  (8 < String.length (a_Key k))%nat → has_char "." (a_Key k) = false →
  ∀ dots, let shown := mask dots dots (a_Key k) in
  ∃ f m' p' k', UpdateAPIKey (loc := loc) now pid kid {["key" := JString shown]} m = (Ok (), (f, m')) ∧
    providers m' !! pid = Some p' ∧ find_key a_ID kid (APIKeys p') = Some k' ∧
    (dots = "..." → a_Key k' = a_Key k) ∧ (dots = bullets → a_Key k' = shown).
Proof.
  intros Hp Hk Hlen Hdot dots shown. unfold UpdateAPIKey. rewrite Hp.
  destruct (update_key_find kid (apply_updates now {["key" := JString shown]}) (APIKeys p) k Hk)
    as (ks' & E & Hks'); [done|].
  rewrite E. unfold put_pool, saveLocked, set_providers. cbn. eexists _, _, _, _.
  split; [done|]. cbn. rewrite lookup_insert_eq. split; [done|]. cbn. split; [exact Hks'|].
  cbn [a_Key apply_updates]. rewrite lookup_singleton_eq. cbn [json_key].
  assert (Hs : shown = String.substring 0 4 (a_Key k) +:+ dots +:+
                       String.substring (String.length (a_Key k) - 4) 4 (a_Key k)).
  { unfold shown, mask. by rewrite (proj2 (Nat.ltb_lt _ _) Hlen). }
  split; intros ->.
  - rewrite Hs, contains_app. by rewrite orb_true_r.
  - rewrite no_dots; [|rewrite Hs, !has_char_app, !has_char_substring by done; done].
    rewrite orb_false_r, bool_decide_eq_false_2; [done|]. rewrite Hs.
    destruct (String.substring 0 4 (a_Key k)); done.
Qed.
End masked.

(** ** Examples *)

Definition demo_key (id key : string) (prio : Z) (enabled : bool) : APIKeyConfig := {|
  a_ID := id; Alias := ""; a_Key := key; a_Quota := 0; QuotaDaily := 100; QuotaMonthly := 0;
  Used := 0; UsedDaily := 0; UsedMonthly := 0; LastDailyReset := ""; LastMonthlyReset := "";
  a_Access := "shared"; a_Enabled := enabled; a_Priority := prio; a_ExpiresAt := "";
  a_CreatedAt := ""; a_UpdatedAt := "" |}.

Definition demo_provider (id : string) (ks : list APIKeyConfig) : Provider :=
  with_keys (with_type (stub id {| p_ID := id; p_Name := id; p_Type := ""; BaseURL := ""; APIKey := "";
    p_Enabled := true; Models := []; p_Priority := 1; TokenLimit := 0; p_Proxy := ""; Owner := "";
    AccessControl := {| ShareToPool := true; GuestPoolPercent := 50; MigrationAllowPublic := None |};
    APIKeys := []; Settings := zero_settings; p_CreatedAt := ""; p_UpdatedAt := "" |})
    "openai_compatible") ks.

Definition three_keys : Provider := demo_provider "p1"
  [demo_key "k1" "sk-one" 5 true; demo_key "k2" "sk-two" 9 false; demo_key "k3" "sk-three" 5 true;
   demo_key "k4" "sk-four" 1 true].

Lemma key_rotation_witness :
  0 ≤ 41 ∧ APIKeys three_keys ≠ [] ∧
  a_ID <$> top_keys (loc := UTC) 0 "shared" three_keys = ["k1"; "k3"] ∧
  selections (loc := UTC) 0 "shared" three_keys 2 41 ≡ₚ
    Ok <$> top_keys (loc := UTC) 0 "shared" three_keys.
Proof.
  assert (E : length (top_keys (loc := UTC) 0 "shared" three_keys) = 2%nat) by (vm_compute; reflexivity).
  assert (H1 : APIKeys three_keys ≠ []) by discriminate.
  assert (H2 : 41 + Z.of_nat (length (top_keys (loc := UTC) 0 "shared" three_keys)) ≤ 2 ^ 64)
    by (rewrite E; lia).
  split; [lia|]. split; [exact H1|]. split; [vm_compute; reflexivity|].
  destruct (key_rotation (loc := UTC) 0 "shared" three_keys 41 H1 ltac:(lia) H2) as (_ & _ & H3).
  rewrite E in H3. exact H3.
Defined.
