(* ===== verification/Registry.v ===== *)
(** * The registry keeps its listings and its file in step (provider.go)

    Theorems about the registry operations of [Providers]: the cached listing,
    the lookups, the round trip through the encrypted file, and the
    synchronisation of model lists. *)

From S2P Require Import Prelude GoTime Sha256 GoSort Providers KeyPool.

(** Inserting a list of keyed values. *)
Lemma insert_all_lookup {A} (key : A → string) l (acc : gmap string A) k :
  NoDup (key <$> l) →
  foldl (λ acc x, <[key x := x]> acc) acc l !! k =
  match find_key key k l with Some x => Some x | None => acc !! k end.
Proof.
  revert acc. induction l as [|x l IH]; intros acc Hnd; [done|].
  rewrite fmap_cons in Hnd. apply NoDup_cons in Hnd as [Hp Hnd]. cbn [foldl].
  rewrite IH by done. rewrite find_key_cons. destruct (decide (key x = k)) as [<-|N].
  - apply find_key_None in Hp. by rewrite Hp, lookup_insert_eq.
  - by rewrite lookup_insert_ne by done.
Qed.

(** ** Listings *)
Section listing.
Context `{Encryptor} {loc : Location} (presets : list Provider).
Implicit Types (m : ProviderManager) (p : Provider).

Definition keyed m : Prop := ∀ k p, providers m !! k = Some p → p_ID p = k.

Lemma sorted_configured_elem m p :
  p ∈ sortedConfiguredLocked m ↔ ∃ k, providers m !! k = Some p.
Proof.
  unfold sortedConfiguredLocked. rewrite list_elem_of_omap. split.
  - intros (k & _ & Hk). by exists k.
  - intros [k Hk]. exists k. split; [|done]. rewrite sort_slice_perm.
    apply list_elem_of_fmap. exists (k, p). by rewrite elem_of_map_to_list.
Qed.

(** The presets that are appended. *)
Fixpoint unseen (seen : gset string) (ps : list Provider) : list Provider :=
  match ps with
  | [] => []
  | p :: ps' => if bool_decide (p_ID p ∈ seen) then unseen seen ps'
                else p :: unseen ({[p_ID p]} ∪ seen) ps'
  end.

Lemma add_unseen_spec view ps out seen :
  (foldl (add_unseen view) (out, seen) ps).1 = out ++ (view <$> unseen seen ps).
Proof.
  revert out seen. induction ps as [|p ps IH]; intros out seen; [by rewrite app_nil_r|].
  cbn [foldl unseen add_unseen]. destruct (bool_decide _); [apply IH|].
  rewrite IH, <- app_assoc. done.
Qed.

Lemma merged_spec view own :
  merged presets view own = view <$> own ++ unseen (list_to_set (p_ID <$> own)) presets.
Proof. unfold merged. by rewrite add_unseen_spec, fmap_app. Qed.

Lemma unseen_elem seen ps p :
  p ∈ unseen seen ps ↔ p_ID p ∉ seen ∧ find_key p_ID (p_ID p) ps = Some p.
Proof.
  revert seen. induction ps as [|q ps IH]; intros seen; cbn [unseen].
  { rewrite elem_of_nil. split; [done|]. by intros [_ ?]. }
  rewrite find_key_cons. destruct (bool_decide_reflect (p_ID q ∈ seen)) as [Hq|Hq].
  - rewrite IH. destruct (decide (p_ID q = p_ID p)) as [E|E]; [|done].
    split; [intros [Hn _]; by rewrite <- E in Hn|]. intros [Hn [= ->]]. done.
  - rewrite elem_of_cons, IH. destruct (decide (p_ID q = p_ID p)) as [E|E].
    + split; [intros [->|[Hn _]]; [done|set_solver]|]. intros [_ [= ->]]. by left.
    + split; [intros [->|[Hn Hf]]; [done|set_solver]|]. intros [Hn Hf]. right. set_solver.
Qed.

Lemma unseen_nodup seen ps : NoDup (p_ID <$> unseen seen ps).
Proof.
  revert seen. induction ps as [|p ps IH]; intros seen; [constructor|]. cbn [unseen].
  destruct (bool_decide _); [apply IH|]. rewrite fmap_cons. constructor; [|apply IH].
  intros (q & E & Hq)%list_elem_of_fmap. apply unseen_elem in Hq as [Hn _]. set_solver.
Qed.

Definition listed m : list Provider := merged presets Safe (sortedConfiguredLocked m).

Lemma raw_elem m p :
  keyed m → p ∈ GetAllRaw presets m ↔ GetRaw presets (p_ID p) m = Some p.
Proof.
  intros Hm. unfold GetAllRaw, GetRaw. rewrite merged_spec, list_fmap_id, elem_of_app, unseen_elem.
  rewrite sorted_configured_elem, elem_of_list_to_set.
  assert (Hin : p_ID p ∈ p_ID <$> sortedConfiguredLocked m ↔ is_Some (providers m !! p_ID p)).
  { rewrite list_elem_of_fmap. split.
    - intros (q & E & Hq). apply sorted_configured_elem in Hq as [k Hk].
      rewrite E, (Hm k q Hk). by eexists.
    - intros [q Hq]. exists q. rewrite sorted_configured_elem. split; [|by eexists].
      by rewrite (Hm _ _ Hq). }
  rewrite Hin. destruct (providers m !! p_ID p) as [q|] eqn:E.
  - split; [intros [[k Hk]|[Hn _]]|intros [= ->]; left; by eexists].
    + pose proof (Hm k p Hk) as <-. congruence.
    + exfalso. apply Hn. by eexists.
  - split; [intros [[k Hk]|[_ Hf]]; [|done]|].
    + pose proof (Hm k p Hk) as <-. congruence.
    + intros Hf. right. split; [|done]. by intros [? ?].
Qed.

Lemma raw_nodup m : keyed m → NoDup (p_ID <$> GetAllRaw presets m).
Proof.
  intros Hm. unfold GetAllRaw. rewrite merged_spec, list_fmap_id, fmap_app.
  apply NoDup_app. split_and!; [|intros k|apply unseen_nodup].
  - assert (Hall : ∀ ks, NoDup ks → NoDup (p_ID <$> omap (λ id, providers m !! id) ks) ∧
              (∀ k, k ∈ p_ID <$> omap (λ id, providers m !! id) ks → k ∈ ks)).
    { induction ks as [|k ks IH]; intros Hk; [split; [constructor|by intros ? ?%elem_of_nil]|].
      apply NoDup_cons in Hk as [Hk1 Hk2]. destruct (IH Hk2) as [IH1 IH2]. cbn [omap list_omap].
      destruct (providers m !! k) as [p|] eqn:E; [|split; [done|intros; right; by apply IH2]].
      rewrite fmap_cons, (Hm k p E). split.
      - constructor; [|done]. intros Hin. apply Hk1. by apply IH2.
      - intros j [->|Hj]%elem_of_cons; [by left|right; by apply IH2]. }
    apply Hall. rewrite sort_slice_perm. apply NoDup_fst_map_to_list.
  - intros Hk (p & -> & Hp)%list_elem_of_fmap. apply unseen_elem in Hp as [Hn _].
    by rewrite elem_of_list_to_set in Hn.
Qed.

Lemma listed_raw m : listed m = Safe <$> GetAllRaw presets m.
Proof. unfold listed, GetAllRaw. by rewrite !merged_spec, list_fmap_id. Qed.

(** ** Operations *)

(** The changes made and saved in one lock. *)
Inductive locked_op :=
  | RDeleteByOwner (owner : string) | RClear
  | RRecord (now : Time) (pid kid : string) (tokens : Z) | RReset (now : Time) (pid kid : string)
  | RAddKey (now : Time) (rand : list Z) (pid : string) (k : APIKeyConfig)
  | RUpdateKey (now : Time) (pid kid : string) (u : gmap string json_value)
  | RDeleteKey (now : Time) (pid kid : string)
  | RSync (now : Time) (fetch : Provider → list (string * string)) (pid : string).

Definition locked_exec (o : locked_op) (m : ProviderManager) : option (list Provider) * ProviderManager :=
  match o with
  | RDeleteByOwner o => (DeleteByOwner o m).2
  | RClear => (ClearAllAPIKeys m).2
  | RRecord now pid kid n => RecordKeyUsage (loc := loc) now pid kid n m
  | RReset now pid kid => (ResetKeyQuota (loc := loc) now pid kid m).2
  | RAddKey now rand pid k => (AddAPIKey (loc := loc) now rand pid k m).2
  | RUpdateKey now pid kid u => (UpdateAPIKey (loc := loc) now pid kid u m).2
  | RDeleteKey now pid kid => (DeleteAPIKey (loc := loc) now pid kid m).2
  | RSync now fetch pid => (SyncModels (loc := loc) presets now fetch pid m).2
  end.

(** The process: the manager, the providers file, the saves that have not taken their snapshot,
    those that have and wait to write it (with whether they saw the cache valid), in the order
    of the snapshots, and those that have written and will drop the cache. *)
Record reg_state := {
  rs_m : ProviderManager; rs_file : option (list Provider);
  rs_unsaved : nat; rs_pending : list (list Provider * bool); rs_drops : nat }.

(** The steps, which requests interleave at will. [RWrite] is the write of the snapshot at a
    position of those pending; a restart may come at any time, and loses what is pending. *)
Inductive reg_op :=
  | RAdd (now : Time) (p : Provider) | RDelete (id : string) | RLocked (o : locked_op)
  | RSnapshot | RWrite (i : nat) | RDrop
  | RList (owner : string)
  | RReload (now : Time) (rand : nat → list Z) | RRestart (now : Time) (rand : nat → list Z).

Definition new_manager : ProviderManager := {| providers := ∅; cacheValid := false; cachedAll := [] |}.

Definition reg_exec (s : reg_state) (o : reg_op) : reg_state :=
  let '{| rs_m := m; rs_file := f; rs_unsaved := u; rs_pending := ws; rs_drops := d |} := s in
  let with_m m u := {| rs_m := m; rs_file := f; rs_unsaved := u; rs_pending := ws; rs_drops := d |} in
  match o with
  | RAdd now p => with_m (add_locked (loc := loc) now p m).2 (S u)
  | RDelete id => match delete_locked presets id m with Some m' => with_m m' (S u) | None => s end
  | RLocked o =>
      match locked_exec o m with
      | (Some l, m') => {| rs_m := m'; rs_file := f; rs_unsaved := u; rs_pending := ws ++ [(l, false)]; rs_drops := d |}
      | (None, m') => with_m m' u
      end
  | RSnapshot =>
      match u with
      | O => s
      | S u => {| rs_m := m; rs_file := f; rs_unsaved := u; rs_pending := ws ++ [save_begin m]; rs_drops := d |}
      end
  | RWrite i =>
      match (ws !! i : option (list Provider * bool)) with
      | None => s
      | Some (l, wasValid) => {| rs_m := m; rs_file := Some l; rs_unsaved := u; rs_pending := delete i ws;
                                 rs_drops := if wasValid then S d else d |}
      end
  | RDrop => match d with
             | O => s
             | S d => {| rs_m := save_end true m; rs_file := f; rs_unsaved := u; rs_pending := ws; rs_drops := d |}
             end
  | RList o => with_m (GetVisible presets o m).2 u
  | RReload now rand => with_m (Reload (loc := loc) now rand f m).2 u
  | RRestart now rand =>
      {| rs_m := load (loc := loc) now rand f new_manager; rs_file := f; rs_unsaved := 0; rs_pending := []; rs_drops := 0 |}
  end.

Definition reg_start : reg_state :=
  {| rs_m := new_manager; rs_file := None; rs_unsaved := 0; rs_pending := []; rs_drops := 0 |}.
Definition reg_run (ops : list reg_op) : reg_state := foldl reg_exec reg_start ops.

(** [Add] and [Delete] are their steps, one after the other. *)
Definition save_steps : list reg_op := [RSnapshot; RWrite 0; RDrop].

Lemma save_is_steps m f :
  foldl reg_exec {| rs_m := m; rs_file := f; rs_unsaved := 1; rs_pending := []; rs_drops := 0 |} save_steps =
  {| rs_m := snd (save m); rs_file := Some (fst (save m)); rs_unsaved := 0; rs_pending := []; rs_drops := 0 |}.
Proof. by destruct m as [ps [] c]. Qed.

(** A save that takes its snapshot first and writes it last puts an old file in place. *)
Example late_write_goes_back now p q :
  let s := foldl reg_exec reg_start [RAdd now p; RSnapshot; RAdd now q; RSnapshot; RWrite 1; RWrite 0] in
  rs_unsaved s = 0%nat ∧ rs_pending s = [] ∧
  rs_file s = Some (makeProviderListLocked (add_locked (loc := loc) now p new_manager).2).
Proof. done. Qed.

(** The file is what the registry would write, or what it was read from. *)
Definition file_agrees m (f : option (list Provider)) : Prop :=
  f = Some (makeProviderListLocked m) ∨
  ∃ now rand, providers m = providers (load (loc := loc) now rand f new_manager).

(** The registry's invariant: keys are ids, and the cache is the listing unless a save that
    will drop it is under way. *)
Record reg_ok (s : reg_state) : Prop := {
  ro_keyed : keyed (rs_m s);
  ro_cache : cacheValid (rs_m s) = true → rs_unsaved s = 0%nat → rs_drops s = 0%nat →
             Forall (λ w, w.2 = false) (rs_pending s) → cachedAll (rs_m s) = listed (rs_m s) }.

(** What every change in one lock does: providers under their ids, cache dropped, and the
    snapshot that of the new providers; or nothing. *)
Definition saved_ok m (r : option (list Provider) * ProviderManager) : Prop :=
  match r with
  | (Some f, m') => keyed m' ∧ cacheValid m' = false ∧ f = makeProviderListLocked m'
  | (None, m') => m' = m
  end.

Lemma keyed_insert ps c b c' b' k p :
  keyed {| providers := ps; cacheValid := b; cachedAll := c |} → p_ID p = k →
  keyed {| providers := <[k := p]> ps; cacheValid := b'; cachedAll := c' |}.
Proof.
  intros Hm Hp j q. cbn. destruct (decide (k = j)) as [<-|N].
  - rewrite lookup_insert_eq. by intros [= <-].
  - rewrite lookup_insert_ne by done. apply Hm.
Qed.

Lemma keyed_subset ps ps' c b c' b' :
  keyed {| providers := ps; cacheValid := b; cachedAll := c |} → ps' ⊆ ps →
  keyed {| providers := ps'; cacheValid := b'; cachedAll := c' |}.
Proof. intros Hm Hs j q Hj. apply (Hm j q). by eapply lookup_weaken. Qed.

(** A change of the provider [pid], in a manager that is destructed. *)
Ltac pool_step Hm ps pid :=
  unfold put_pool, saveLocked, set_providers; cbn;
  let E := fresh "E" in
  destruct (ps !! pid) as [p|] eqn:E; [|done];
  repeat match goal with
         | |- saved_ok _ (snd (match ?x with _ => _ end)) => destruct x; try done
         | |- saved_ok _ (match ?x with _ => _ end) => destruct x; try done
         end;
  cbn; (split_and!; [eapply keyed_insert; [exact Hm|exact (Hm pid p E)]|done..]).

Lemma locked_ok o m : keyed m → saved_ok m (locked_exec o m).
Proof.
  intros Hm. destruct m as [ps b c].
  destruct o as [o| |now pid kid n|now pid kid|now rand pid k|now pid kid u|now pid kid|now fetch pid];
    cbn [locked_exec].
  - unfold DeleteByOwner, saveLocked, set_providers. cbn. destruct (bool_decide _); [done|]. cbn.
    split_and!; [|done..]. eapply keyed_subset; [exact Hm|]. apply map_filter_subseteq.
  - unfold ClearAllAPIKeys, saveLocked, set_providers. cbn. destruct (0 <? _); [|done]. cbn.
    split_and!; [|done..]. intros k p. cbn. rewrite lookup_fmap.
    destruct (ps !! k) as [q|] eqn:E; [|done]. intros [= <-]. by apply (Hm k q).
  - unfold RecordKeyUsage. pool_step Hm ps pid.
  - unfold ResetKeyQuota. pool_step Hm ps pid.
  - unfold AddAPIKey. pool_step Hm ps pid.
  - unfold UpdateAPIKey. pool_step Hm ps pid.
  - unfold DeleteAPIKey. pool_step Hm ps pid.
  - unfold SyncModels, saveLocked, set_providers. destruct (GetRaw _ _ _) as [p|]; [|done].
    repeat match goal with
           | |- saved_ok _ (snd (if ?x then _ else _)) => destruct x; try done
           end.
    cbn. destruct (ps !! pid) as [q|] eqn:E; cbn; (split_and!; [|done..]).
    + eapply keyed_insert; [exact Hm|exact (Hm pid q E)].
    + exact Hm.
Qed.

Lemma keyed_load now rand f m : keyed m → keyed (load (loc := loc) now rand f m).
Proof.
  destruct f as [l|]; [|done]. destruct m as [ps b c]. intros Hm. cbn [load providers cacheValid cachedAll].
  generalize (imap (λ i p, load_one (loc := loc) now (rand i) p) l). intros l'. revert ps Hm.
  induction l' as [|p l' IH]; intros ps Hm; [done|]. cbn [foldl]. apply IH. by eapply keyed_insert.
Qed.

Lemma new_keyed : keyed new_manager.
Proof. intros k p. cbn. by rewrite lookup_empty. Qed.

Lemma delete_keyed id m m' : keyed m → delete_locked presets id m = Some m' → keyed m'.
Proof.
  destruct m as [ps b c]. intros Hm. unfold delete_locked, set_providers. cbn.
  destruct (ps !! id) as [p|]; [|destruct (find_key _ _ _) as [p|]; [|done]]; intros [= <-].
  - eapply keyed_subset; [exact Hm|]. apply delete_subseteq.
  - by eapply keyed_insert.
Qed.

Lemma GetVisible_frame o m : providers (GetVisible presets o m).2 = providers m.
Proof. unfold GetVisible, GetAll. by repeat case_match. Qed.

Lemma reg_exec_ok s o : reg_ok s → reg_ok (reg_exec s o).
Proof.
  intros Hok. destruct s as [m f u ws d]. destruct Hok as [Hm Hc]. cbn in Hm, Hc.
  assert (Hs : reg_ok {| rs_m := m; rs_file := f; rs_unsaved := u; rs_pending := ws; rs_drops := d |}) by done.
  destruct o as [now p|id|o| |i| |o|now rand|now rand]; cbn [reg_exec].
  - split; cbn; [|done]. destruct m as [ps b c]. by eapply keyed_insert.
  - destruct (delete_locked _ _ _) as [m'|] eqn:E; [|done]. split; cbn; [by eapply delete_keyed|done].
  - pose proof (locked_ok o m Hm) as Hl. destruct (locked_exec o m) as [[l|] m']; cbn in Hl.
    + destruct Hl as (Hk & Hf & _). split; cbn; [done|by rewrite Hf].
    + by subst m'.
  - destruct u as [|u]; [done|]. split; cbn; [done|].
    intros Hv _ _ [_ Hw]%Forall_app. apply Forall_cons in Hw as [Hw _].
    change (cacheValid m = false) in Hw. congruence.
  - destruct (ws !! i) as [[l w]|] eqn:E; [|done]. split; cbn; [done|].
    intros Hv Hu Hd Hall. destruct w; [done|]. apply Hc; [done..|].
    rewrite <- (take_drop_middle ws i _ E). rewrite delete_take_drop in Hall.
    apply Forall_app in Hall as [H1 H2]. apply Forall_app. by split; [|constructor].
  - destruct d as [|d]; [done|]. by split.
  - split; cbn.
    + intros k p. rewrite GetVisible_frame. apply Hm.
    + unfold GetVisible. destruct (bool_decide _); [|done]. unfold GetAll. destruct (cacheValid m) eqn:E; [|done].
      intros _. by apply Hc.
  - destruct f as [l|]; [|done]. split; cbn [rs_m Reload snd]; [|done]. apply keyed_load.
    intros k p. cbn. by rewrite lookup_empty.
  - split; cbn [rs_m]; [apply keyed_load, new_keyed|by destruct f].
Qed.

Lemma reg_run_ok ops : reg_ok (reg_run ops).
Proof.
  unfold reg_run. assert (H0 : reg_ok reg_start) by (split; [apply new_keyed|done]).
  revert H0. generalize reg_start. induction ops as [|o ops IH]; intros s Hs; [done|].
  cbn [foldl]. by apply IH, reg_exec_ok.
Qed.

(** Saves that do not overtake each other: the oldest snapshot is written first, and a reload
    waits for the writes. *)
Definition in_order (s : reg_state) (o : reg_op) : Prop :=
  match o with
  | RWrite i => i = 0%nat
  | RReload _ _ => rs_unsaved s = 0%nat ∧ rs_pending s = []
  | _ => True
  end.
Fixpoint ordered (s : reg_state) (ops : list reg_op) : Prop :=
  match ops with [] => True | o :: ops => in_order s o ∧ ordered (reg_exec s o) ops end.

(** The last snapshot is current once every save has taken its own. *)
Definition current (s : reg_state) : Prop :=
  rs_unsaved s = 0%nat →
  match last (rs_pending s) with
  | Some w => w.1 = makeProviderListLocked (rs_m s)
  | None => file_agrees (rs_m s) (rs_file s)
  end.

Lemma file_agrees_providers m m' f : providers m' = providers m → file_agrees m f → file_agrees m' f.
Proof. unfold file_agrees, makeProviderListLocked. by intros ->. Qed.

Lemma reg_exec_current s o : reg_ok s → current s → in_order s o → current (reg_exec s o).
Proof.
  intros Hok Hcur Ho. destruct s as [m f u ws d]. destruct Hok as [Hm _]. unfold current in *. cbn in Hm, Hcur.
  destruct o as [now p|id|o| |i| |o|now rand|now rand]; cbn [reg_exec].
  - done.
  - by destruct (delete_locked _ _ _).
  - pose proof (locked_ok o m Hm) as Hl. destruct (locked_exec o m) as [[l|] m']; cbn in Hl |- *.
    + rewrite last_snoc. intros _. apply Hl.
    + by subst m'.
  - destruct u as [|u]; [done|]. cbn. by rewrite last_snoc.
  - cbn in Ho. subst i. destruct ws as [|[l w] ws]; [done|]. cbn. intros Hu. specialize (Hcur Hu).
    destruct ws as [|w' ws]; [left; cbn in Hcur |- *; by rewrite Hcur|]. rewrite last_cons_cons in Hcur.
    destruct (last (w' :: ws)) eqn:E; [exact Hcur|by apply last_None in E].
  - destruct d as [|d]; [done|]. cbn. intros Hu. specialize (Hcur Hu). by destruct (last ws).
  - cbn. intros Hu. specialize (Hcur Hu). destruct (last ws); [|].
    + rewrite Hcur. unfold makeProviderListLocked. by rewrite GetVisible_frame.
    + eapply file_agrees_providers; [|exact Hcur]. apply GetVisible_frame.
  - cbn in Ho |- *. destruct Ho as [-> ->]. intros _. cbn in Hcur |- *. destruct f as [l|].
    + right. by exists now, rand.
    + by apply Hcur.
  - cbn. intros _. right. by exists now, rand.
Qed.

Lemma ordered_current ops s : reg_ok s → current s → ordered s ops → current (foldl reg_exec s ops).
Proof.
  revert s. induction ops as [|o ops IH]; intros s Hs Hc Ho; [done|]. destruct Ho as [Ho Hos].
  cbn [foldl]. apply IH; [by apply reg_exec_ok|by apply reg_exec_current|done].
Qed.


(** ** The file *)

Definition storable (p : Provider) : Prop :=
  (APIKey p = "" ∨ APIKeys p ≠ []) ∧ (migrateSiderType p).1 = false ∧
  unmarshal_access (AccessControl p) = AccessControl p ∧
  IsEncrypted (APIKey p) = false ∧ IsEncrypted (p_Proxy p) = false ∧
  Forall (λ k, IsEncrypted (a_Key k) = false) (APIKeys p).

Context (seal_law : ∀ s c, seal s = Some c → IsEncrypted c = true ∧ unseal c = Some s).

Lemma decrypt_encrypt s : IsEncrypted s = false → decrypt_if (encrypt_if s) = s.
Proof using seal_law.
  intros Hs. unfold encrypt_if. destruct (bool_decide_reflect (s = "")) as [->|Hne]; [done|].
  rewrite Hs. cbn [negb andb]. unfold encryptField. rewrite (bool_decide_eq_false_2 (s = "")) by done.
  assert (Hplain : decrypt_if s = s) by (unfold decrypt_if; by rewrite Hs, andb_false_r).
  destruct ready eqn:Er; cbn [negb orb]; [|done]. destruct ephemeral; [done|].
  destruct (seal s) as [c|] eqn:E; [|done]. change (default s (Some c)) with c.
  destruct (seal_law s c E) as [H1 H2]. unfold decrypt_if, decryptField. rewrite H1, Er, H2.
  by destruct (bool_decide_reflect (c = "")) as [->|].
Qed.

Lemma load_stored now rand p :
  storable p →
  load_one (loc := loc) now rand (with_secrets p (encrypt_if (APIKey p)) (encrypt_if (p_Proxy p))
    (encrypt_key <$> APIKeys p)) = p.
Proof using seal_law.
  intros (Hmig & Hsider & Hac & H1 & H2 & H3). unfold load_one.
  cbn [with_secrets with_access AccessControl APIKey p_Proxy APIKeys].
  rewrite Hac, !decrypt_encrypt by done.
  assert (Hks : decrypt_key <$> (encrypt_key <$> APIKeys p) = APIKeys p).
  { rewrite <- list_fmap_compose. rewrite <- (list_fmap_id (APIKeys p)) at 2.
    apply list_fmap_ext. intros i k Hk. cbn. rewrite Forall_lookup in H3.
    specialize (H3 i k Hk). unfold decrypt_key, encrypt_key. cbn.
    rewrite decrypt_encrypt by done. by destruct k. }
  rewrite Hks. replace (with_secrets _ (APIKey p) (p_Proxy p) (APIKeys p)) with p by (by destruct p).
  unfold migrateProviderKeys. destruct Hmig as [Hm|Hm].
  - rewrite (bool_decide_eq_true_2 _ Hm). cbn. unfold migrateSiderType in *. by destruct (_ && _).
  - rewrite (bool_decide_eq_false_2 _ Hm), andb_false_r. cbn.
    unfold migrateSiderType in *. by destruct (_ && _).
Qed.

(** The providers file restores the registry: loading what a keyed registry writes into a fresh
    process, or reloading it in place, gives back every provider, all secrets decrypted,
    provided they are in the current format and no secret looks already encrypted. *)
Theorem reload_restores m now rand :
  keyed m → map_Forall (λ _, storable) (providers m) →
  providers (load (loc := loc) now rand (Some (makeProviderListLocked m)) new_manager) = providers m ∧
  ∃ m', Reload (loc := loc) now rand (Some (makeProviderListLocked m)) m = (Ok (), m') ∧
        providers m' = providers m.
Proof using seal_law.
  intros Hk Hst.
  enough (Hload : providers (load (loc := loc) now rand (Some (makeProviderListLocked m)) new_manager) = providers m).
  { split; [exact Hload|]. eexists. split; [reflexivity|]. exact Hload. }
  cbn [load providers]. unfold makeProviderListLocked.
  set (ps := (map_to_list (providers m)).*2).
  assert (Hin : ∀ p, p ∈ ps → providers m !! p_ID p = Some p).
  { intros p ([k q] & -> & Hq%elem_of_map_to_list)%list_elem_of_fmap. cbn. by rewrite (Hk k q Hq). }
  assert (Him : imap (λ i p, load_one (loc := loc) now (rand i) p)
            ((λ p, with_secrets p (encrypt_if (APIKey p)) (encrypt_if (p_Proxy p))
               (encrypt_key <$> APIKeys p)) <$> ps) = ps).
  { apply list_eq. intros i. rewrite list_lookup_imap, list_lookup_fmap.
    destruct (ps !! i) as [p|] eqn:E; [|done]. cbn. f_equal. apply load_stored.
    apply (Hst (p_ID p)). apply Hin. by eapply list_elem_of_lookup_2. }
  rewrite Him. apply map_eq. intros k.
  assert (Hids : p_ID <$> ps = (map_to_list (providers m)).*1).
  { unfold ps. rewrite <- list_fmap_compose. apply list_fmap_ext. intros i [j q] Hj. cbn.
    apply (Hk j q). apply elem_of_map_to_list. by eapply list_elem_of_lookup_2. }
  assert (Hnd : NoDup (p_ID <$> ps)) by (rewrite Hids; apply NoDup_fst_map_to_list).
  rewrite (insert_all_lookup p_ID) by done. destruct (find_key p_ID k ps) as [p|] eqn:E.
  - apply find_key_Some in E as [Hp <-]. by rewrite Hin.
  - apply find_key_None in E. cbn. rewrite lookup_empty. symmetry. apply eq_None_not_Some.
    intros [q Hq]. apply E. rewrite Hids. apply list_elem_of_fmap. exists (k, q).
    by rewrite elem_of_map_to_list.
Qed.
End listing.

(** ** Model lists *)
Section sync.
Context `{Encryptor} {loc : Location} (presets : list Provider).

Lemma all_ids_elem rs mid :
  is_Some (all_ids rs !! mid) ↔ ∃ r, r ∈ rs ∧ mid ∈ r.2.*1.
Proof.
  assert (Hin : ∀ ims (acc : gmap string string),
    is_Some (foldl (λ acc im, <[im.1 := im.2]> acc) acc ims !! mid) ↔
    is_Some (acc !! mid) ∨ mid ∈ ims.*1).
  { induction ims as [|im ims IH]; intros acc; cbn [foldl].
    { rewrite elem_of_nil. tauto. }
    rewrite IH, lookup_insert_is_Some, fmap_cons, elem_of_cons.
    destruct (decide (im.1 = mid)); naive_solver. }
  unfold all_ids. assert (Hr : ∀ (acc : gmap string string),
    is_Some (foldl (λ acc r, foldl (λ acc im, <[im.1 := im.2]> acc) acc r.2) acc rs !! mid) ↔
    is_Some (acc !! mid) ∨ ∃ r, r ∈ rs ∧ mid ∈ r.2.*1).
  { induction rs as [|r rs IH]; intros acc; cbn [foldl].
    { split; [by left|]. intros [?|(r & Hr & _)]; [done|by apply elem_of_nil in Hr]. }
    rewrite IH, Hin. setoid_rewrite elem_of_cons. naive_solver. }
  rewrite Hr, lookup_empty. split; [intros [[]|?]; done|by right].
Qed.

Lemma keys_of_elem rs mid kid :
  kid ∈ keys_of rs mid ↔ ∃ r, r ∈ rs ∧ r.1 = kid ∧ mid ∈ r.2.*1.
Proof.
  unfold keys_of. rewrite sort_slice_perm, elem_of_elements, elem_of_list_to_set, list_elem_of_fmap.
  setoid_rewrite list_elem_of_filter. naive_solver.
Qed.

(** Synchronising a provider's models replaces its list by exactly the models some enabled key
    of it lists upstream, each once; a model keeps its enabled state, a new one is disabled;
    its available keys are exactly those that list it; nothing else of the provider and no
    other provider changes. *)
Theorem sync_models now fetch pid m p n f m' :
  providers m !! pid = Some p → NoDup (md_ID <$> Models p) →
  SyncModels (loc := loc) presets now fetch pid m = (Ok n, (f, m')) →
  let rs := key_results fetch p in
  ∃ ms, providers m' = <[pid := with_models p ms (fmt_rfc3339 loc now)]> (providers m) ∧
    n = Z.of_nat (length ms) ∧ NoDup (md_ID <$> ms) ∧
    (∀ mid, mid ∈ md_ID <$> ms ↔ ∃ r, r ∈ rs ∧ mid ∈ r.2.*1) ∧
    (∀ md, md ∈ ms →
      md_Enabled md = match find_key md_ID (md_ID md) (Models p) with
                      | Some e => md_Enabled e | None => false end ∧
      ∀ kid, kid ∈ AvailableKeys md ↔ ∃ r, r ∈ rs ∧ r.1 = kid ∧ md_ID md ∈ r.2.*1).
Proof.
  intros Hp Hnd. unfold SyncModels. unfold GetRaw. rewrite Hp.
  destruct (bool_decide (p_Type p = "web_session")); [done|].
  destruct (negb _); [done|]. destruct (_ && _); [done|].
  set (rs := key_results fetch p). set (ids := map_to_list (all_ids rs)).
  destruct (bool_decide (ids = [])); [done|].
  set (old := foldl _ ∅ (Models p)).
  set (ms := sort_slice _ (model_def rs old <$> ids)).
  unfold saveLocked, set_providers. cbn. intros [= <- <- <-].
  assert (Hms : ms ≡ₚ model_def rs old <$> ids) by apply sort_slice_perm.
  assert (Hids : md_ID <$> ms ≡ₚ ids.*1).
  { rewrite Hms, <- list_fmap_compose. by apply Permutation_refl'. }
  exists ms. split; [done|]. split; [done|]. split.
  { rewrite Hids. apply NoDup_fst_map_to_list. } split.
  - intros mid. rewrite Hids, <- all_ids_elem, list_elem_of_fmap. split.
    + intros ([k v] & -> & Hk%elem_of_map_to_list). by eexists.
    + intros [v Hv]. exists (mid, v). unfold ids. by rewrite elem_of_map_to_list.
  - intros md Hmd. rewrite Hms in Hmd. apply list_elem_of_fmap in Hmd as (im & -> & _).
    cbn [md_ID md_Enabled AvailableKeys model_def]. split; [|intros kid; apply keys_of_elem].
    unfold old. rewrite (insert_all_lookup md_ID) by done. rewrite lookup_empty.
    by destruct (find_key _ _ _).
Qed.
End sync.

(** ** Examples *)

(** A cipher that labels its input. *)
Definition plain_cipher : Encryptor := {|
  ready := true; ephemeral := false; seal := λ s, Some (encPrefix +:+ s);
  unseal := strip_prefix encPrefix |}.

Lemma cipher_law s c :
  seal (Encryptor := plain_cipher) s = Some c →
  IsEncrypted c = true ∧ unseal (Encryptor := plain_cipher) c = Some s.
Proof.
  cbn [seal unseal plain_cipher]. intros [= <-]. split; [|apply strip_prefix_app].
  unfold IsEncrypted, has_prefix. by rewrite strip_prefix_app.
Qed.

(** Two changes, saved one after the other, then a usage record whose write a crash loses. *)
Definition demo_ops : list reg_op := [
  RAdd 0 (demo_provider "p1" [demo_key "k1" "sk-secret-one" 1 true]); RList "";
  RSnapshot; RWrite 0; RDrop;
  RLocked (RAddKey 5 [1; 2] "p1" (demo_key "" "sk-secret-two" 2 true)); RWrite 0;
  RLocked (RRecord 6 "p1" "k1" 40)].

Abbreviation demo_registry := (reg_run (H := plain_cipher) (loc := UTC) [] demo_ops).

Example demo_ops_ordered : ordered (H := plain_cipher) (loc := UTC) [] reg_start demo_ops.
Proof. by vm_compute. Qed.

Example crash_loses_the_last :
  let used m := Used <$> (providers m !! "p1" ≫= λ p, head (APIKeys p)) in
  used (rs_m demo_registry) = Some 40 ∧
  used (rs_m (reg_exec (H := plain_cipher) (loc := UTC) [] demo_registry (RRestart 9 (λ _, [])))) = Some 0.
Proof. split; vm_compute; reflexivity. Qed.

Lemma reload_restores_witness :
  keyed (rs_m demo_registry) ∧
  providers (load (H := plain_cipher) (loc := UTC) 9 (λ _, [])
               (Some (makeProviderListLocked (H := plain_cipher) (rs_m demo_registry))) new_manager) =
    providers (rs_m demo_registry) ∧
  (length ∘ APIKeys) <$> (providers (rs_m demo_registry) !! "p1") = Some 2%nat.
Proof.
  assert (Hk : keyed (rs_m demo_registry)).
  { intros k p. set (m := providers (rs_m demo_registry)).
    assert (Hall : map_Forall (λ k p, p_ID p = k) m) by (apply (bool_decide_unpack _); vm_compute; exact I).
    apply Hall. }
  assert (Hs : map_Forall (λ _, storable) (providers (rs_m demo_registry))).
  { unfold storable. apply (bool_decide_unpack _). vm_compute. exact I. }
  split; [exact Hk|]. split; [|vm_compute; reflexivity].
  exact (proj1 (reload_restores (H := plain_cipher) (loc := UTC) cipher_law _ 9 (λ _, []) Hk Hs)).
Defined.

Definition sync_start : ProviderManager := {|
  providers := {["p1" := demo_provider "p1" [demo_key "k1" "sk-1" 1 true; demo_key "k2" "sk-2" 1 true]]};
  cacheValid := false; cachedAll := [] |}.
Definition sync_fetch (p : Provider) : list (string * string) :=
  if bool_decide (APIKey p = "sk-1") then [("m1", "One"); ("m2", "Two")] else [("m2", "Two")].

Lemma sync_models_witness :
  ∃ p f m' ms, providers sync_start !! "p1" = Some p ∧
  SyncModels (H := plain_cipher) (loc := UTC) [] 0 sync_fetch "p1" sync_start = (Ok 2, (f, m')) ∧
  providers m' = <["p1" := with_models p ms (fmt_rfc3339 UTC 0)]> (providers sync_start) ∧
  (∀ mid, mid ∈ md_ID <$> ms ↔
     ∃ r, r ∈ key_results (H := plain_cipher) sync_fetch p ∧ mid ∈ r.2.*1).
Proof.
  eexists _, _, _.
  destruct (sync_models (H := plain_cipher) (loc := UTC) [] 0 sync_fetch "p1" sync_start
    (demo_provider "p1" [demo_key "k1" "sk-1" 1 true; demo_key "k2" "sk-2" 1 true]) 2
    (SyncModels (H := plain_cipher) (loc := UTC) [] 0 sync_fetch "p1" sync_start).2.1
    (SyncModels (H := plain_cipher) (loc := UTC) [] 0 sync_fetch "p1" sync_start).2.2)
    as (ms & E & _ & _ & Hms & _).
  - reflexivity.
  - constructor.
  - vm_compute. reflexivity.
  - exists ms. split; [reflexivity|]. split; [vm_compute; reflexivity|]. split; [exact E|exact Hms].
Defined.
