(* ===== verification/Routing.v ===== *)
(** * Routing a request to providers (provider.go, pricing_impl.go)

    Candidates for a model, access control by key type, the breaker, and the
    five sort modes. The federation mode, the state of the Sider token, the
    latency averages and the token totals of the tracker are arguments. *)

From S2P Require Import Prelude GoTime Sha256 GoSort Providers.

Record candidate := { c_Provider : Provider; c_Model : string }.

(** ** Prices (pricing_impl.go) *)

Record Pricing := { Input : float64; Output : float64 }.

(** A decimal literal [n / 10^k]. *)
Definition lit (n k : Z) : float64 := fdiv (float_of_int n) (float_of_int (10 ^ k)).
Definition price (i o k : Z) : Pricing := {| Input := lit i k; Output := lit o k |}.

Definition platformPricing : list (string * list (string * Pricing)) := [
  ("anthropic", [("claude-sonnet-4-20250514", price 300 1500 2); ("claude-3-5-sonnet", price 300 1500 2);
                 ("claude-3-haiku-20240307", price 25 125 2)]);
  ("deepseek", [("deepseek-chat", price 27 110 2); ("deepseek-reasoner", price 55 219 2)]);
  ("openai", [("gpt-4o", price 250 1000 2)]);
  ("coze", [("gpt-4o", price 250 1000 2); ("deepseek-chat", price 27 110 2)]);
  ("nvidia", [("meta/llama-4-maverick-17b-128e-instruct", price 9 9 4)]);
  ("qianfan", [("ernie-4.5-turbo-32k", price 8 8 4)]);
  ("sider", [])].

Definition modelPricing : list (string * Pricing) := [
  ("gpt-4o", price 250 1000 2); ("claude-3-5-sonnet", price 300 1500 2);
  ("deepseek-chat", price 27 110 2); ("deepseek-reasoner", price 55 219 2)].

Definition free : Pricing := {| Input := f_zero; Output := f_zero |}.

(** The price of a model in a table: by name, else by a name that is a prefix of it. No
    name of a table is a prefix of another, so the order of the range is irrelevant. *)
Definition price_in (model : string) (t : list (string * Pricing)) : option Pricing :=
  match head (filter (λ kv, kv.1 = model) t) with
  | Some kv => Some kv.2
  | None => snd <$> head (filter (λ kv, has_prefix kv.1 model = true) t)
  end.

Definition getPricing (model provider : string) : Pricing :=
  match head (filter (λ kv, kv.1 = provider) platformPricing) ≫= λ kv, price_in model kv.2 with
  | Some p => p
  | None =>
      if bool_decide (provider = "sider") || bool_decide (provider = "coze") then free
      else default free (price_in model modelPricing)
  end.

(** ** Access control *)

Definition isFreePoolProvider (p : Provider) : bool :=
  bool_decide (APIKey p = "free-anonymous") || has_prefix "free-" (p_ID p).

Definition hasNonPrivateKey (p : Provider) : bool :=
  existsb (λ k, a_Enabled k && negb (bool_decide (a_Access k = "private"))) (APIKeys p)
  || (bool_decide (APIKeys p = []) && negb (bool_decide (APIKey p = ""))).

Definition filterFreePoolOnly (cs : list candidate) : list candidate :=
  filter (λ c, isFreePoolProvider (c_Provider c) = true) cs.

(** The loop of [FilterByAccessControl] for one candidate. *)
Definition access_ok (keyType : string) (p : Provider) : bool :=
  bool_decide (p_ID p = "sider")
  || (if bool_decide (keyType = "guest") then hasNonPrivateKey p
      else if bool_decide (keyType = "public")
      then ShareToPool (AccessControl p) || isFreePoolProvider p
      else false).

Definition FilterByAccessControl (shared_mode : bool) (cs : list candidate) (keyType : string)
    : list candidate :=
  if bool_decide (keyType = "admin") then cs
  else if bool_decide (keyType = "proxy") then cs
  else if bool_decide (keyType = "public") && negb shared_mode then filterFreePoolOnly cs
  else filter (λ c, access_ok keyType (c_Provider c) = true) cs.

Definition providerAllowsKeyType (shared_mode : bool) (p : Provider) (keyType : string) : bool :=
  if bool_decide (keyType = "admin") || bool_decide (keyType = "proxy") then true
  else if bool_decide (keyType = "guest") then hasNonPrivateKey p
  else if bool_decide (keyType = "public")
  then isFreePoolProvider p || (shared_mode && ShareToPool (AccessControl p) && hasNonPrivateKey p)
  else false.

(** ** The breaker *)

Record breaker := { cooldownMap : gmap string Time; consecFailures : gmap string Z }.

Definition cooldownTime : Z := 30 * second.
Definition breakerThreshold : Z := 5.
Definition breakerOpenTime : Z := 60 * second.

Definition recordProviderFailure (now : Time) (id : string) (b : breaker) : breaker :=
  let fails := zget (consecFailures b) id +! 1 in
  {| consecFailures := <[id := fails]> (consecFailures b);
     cooldownMap := if breakerThreshold <=? fails
                    then <[id := now + breakerOpenTime]> (cooldownMap b) else cooldownMap b |}.

Definition recordProviderSuccess (id : string) (b : breaker) : breaker := {|
  cooldownMap := cooldownMap b; consecFailures := delete id (consecFailures b) |}.

Definition recordProviderCooldown (now : Time) (id : string) (b : breaker) : breaker := {|
  cooldownMap := <[id := now + cooldownTime]> (cooldownMap b); consecFailures := consecFailures b |}.

Definition providerInCooldown (now : Time) (id : string) (b : breaker) : bool * breaker :=
  match cooldownMap b !! id with
  | None => (false, b)
  | Some u => if after now u
              then (false, {| cooldownMap := delete id (cooldownMap b);
                              consecFailures := consecFailures b |})
              else (true, b)
  end.

(** One candidate of the loop of [filterCooldownProviders], one reading of the clock per call. *)
Definition cool_step (now : Time) (st : list candidate * breaker) (c : candidate)
    : list candidate * breaker :=
  let '(out, b) := st in
  let '(cold, b) := providerInCooldown now (p_ID (c_Provider c)) b in
  (if cold then out else out ++ [c], b).

Definition filterCooldownProviders (now : Time) (cs : list candidate) (b : breaker)
    : list candidate * breaker :=
  let '(out, b) := foldl (cool_step now) ([], b) cs in
  (if bool_decide (out = []) then cs else out, b).

Definition isRateLimitError (msg : string) : bool :=
  str_contains "(429)" msg || str_contains "429 Too Many Requests" msg || str_contains "rate limit" msg.

Definition isOrgPrefix (s : string) : bool :=
  bool_decide (s ∈ ["Qwen"; "deepseek-ai"; "meta-llama"; "openai"; "anthropic"; "google"]).

(** ** Sort modes *)

Definition float_5000 : float64 := float_of_int 5000.
Definition f_is_zero (f : float64) : bool :=
  match f with SpecFloat.S754_zero _ => true | _ => false end.

(** What routing reads of the tracker and the configuration, and the part of
    [sort.SliceStable] for more than twenty elements when the comparison depends
    on positions. *)
Record RouteEnv := {
  ewma : string → float64; tokens_used : string → Z; weights : gmap string float64;
  merge_blocks : (nat → nat → bool) → list candidate → list candidate }.

Section routing.
Context (env : RouteEnv).

Definition total_price (c : candidate) : float64 :=
  let p := getPricing (c_Model c) (p_ID (c_Provider c)) in fadd (Input p) (Output p).

Definition cheap_key (c : candidate) : float64 :=
  if f_is_zero (total_price c) then lit 1 3 else total_price c.

Definition latency (id : string) : float64 := if f_is_zero (ewma env id) then float_5000 else ewma env id.

Definition sort_priority : list candidate → list candidate :=
  sort_stable (λ x y, p_Priority (c_Provider x) <? p_Priority (c_Provider y)).

(** [minMax] of a list and [normalize]. *)
Definition minMax (a : list float64) : float64 * float64 :=
  match a with
  | [] => (f_zero, float_of_int 1)
  | x :: a' => foldl (λ mm v, (if fltb v mm.1 then v else mm.1, if fltb mm.2 v then v else mm.2)) (x, x) a'
  end.

Definition f_eqb (a b : float64) : bool := SpecFloat.SFeqb a b.

Definition normalize (v lo hi : float64) : float64 :=
  if f_eqb hi lo then f_zero else fdiv (fsub v lo) (fsub hi lo).

Definition weight (k : string) (d : float64) : float64 := default d (weights env !! k).

(** What remains of a provider's token budget, [None] without one. *)
Definition remaining_of (c : candidate) : option float64 :=
  let limit := TokenLimit (c_Provider c) in
  if 0 <? limit
  then let rem := limit -! tokens_used env (p_ID (c_Provider c)) in
       Some (float_of_int (if rem <? 0 then 0 else rem))
  else None.

Definition one_minus (x : float64) : float64 := fsub (float_of_int 1) x.

Definition auto_scores (cs : list candidate) : list float64 :=
  let pries := (λ c, float_of_int (p_Priority (c_Provider c))) <$> cs in
  let costs := total_price <$> cs in
  let lats := (λ c, latency (p_ID (c_Provider c))) <$> cs in
  let rems := omap remaining_of cs in
  let '(minPri, maxPri) := minMax pries in
  let '(minCost, maxCost) := minMax costs in
  let '(minLat, maxLat) := minMax lats in
  let '(minTok, maxTok) := if bool_decide (rems = []) then (f_zero, float_of_int 1) else minMax rems in
  (λ c,
    let priNorm := one_minus (normalize (float_of_int (p_Priority (c_Provider c))) minPri maxPri) in
    let costNorm := one_minus (normalize (total_price c) minCost maxCost) in
    let latNorm := one_minus (normalize (latency (p_ID (c_Provider c))) minLat maxLat) in
    let tokNorm := match remaining_of c with
                   | None => lit 5 1
                   | Some r => normalize r minTok maxTok
                   end in
    fadd (fadd (fadd (fmul (weight "priority" (lit 40 2)) priNorm) (fmul (weight "cost" (lit 25 2)) costNorm))
               (fmul (weight "latency" (lit 20 2)) latNorm))
         (fmul (weight "tokens" (lit 15 2)) tokNorm)) <$> cs.

(** The comparison reads the scores by position, and the scores stay where they
    are while the candidates are swapped. *)
Definition by_scores (scores : list float64) (i j : nat) : bool :=
  fltb (default f_zero (scores !! j)) (default f_zero (scores !! i)).

Definition sortAuto (cs : list candidate) : list candidate :=
  if (length cs <=? 1)%nat then cs
  else
    let less := by_scores (auto_scores cs) in
    if (length cs <=? 20)%nat then insertion_by_index less cs else merge_blocks env less cs.

Definition sortCandidates (cs : list candidate) (mode : string) : list candidate :=
  if bool_decide (mode = "cheapest") then sort_stable (λ x y, fltb (cheap_key x) (cheap_key y)) cs
  else if bool_decide (mode = "fastest")
  then sort_stable (λ x y, fltb (latency (p_ID (c_Provider x))) (latency (p_ID (c_Provider y)))) cs
  else if bool_decide (mode = "auto") then sortAuto cs
  else sort_priority cs.

(** ** Candidates *)

Context `{Encryptor} (presetProviders : list Provider) (sider_expired : bool).

Definition has_model (model : string) (p : Provider) : bool :=
  existsb (λ md, bool_decide (md_ID md = model) && md_Enabled md) (Models p).

Definition FindCandidates (model : string) (m : ProviderManager) : list candidate :=
  (λ p, {| c_Provider := p; c_Model := model |}) <$>
    filter (λ p, p_Enabled p && has_model model p = true) (GetAllRaw presetProviders m).

Definition filterExpired (cs : list candidate) : list candidate :=
  if sider_expired then filter (λ c, p_ID (c_Provider c) ≠ "sider") cs else cs.

Definition OrderedCandidates (now : Time) (model mode : string) (m : ProviderManager) (b : breaker)
    : list candidate * breaker :=
  let cs := filterExpired (FindCandidates model m) in
  if bool_decide (cs = []) then ([], b)
  else let '(cs, b) := filterCooldownProviders now cs b in (sortCandidates cs mode, b).

(** What precedes and follows the first [c] of a string. *)
Fixpoint split_first (c : ascii) (s : string) : option (string * string) :=
  match s with
  | EmptyString => None
  | String x s' =>
      if Ascii.eqb x c then Some ("", s')
      else (λ ab, (String x ab.1, ab.2)) <$> split_first c s'
  end.

Definition ResolveRoute (model mode : string) (m : ProviderManager) : option (Provider * string) :=
  let direct :=
    match split_first "/" model with
    | Some (prefix, modelID) =>
        if bool_decide (prefix = "") || isOrgPrefix prefix then None
        else match GetRaw presetProviders prefix m with
             | Some p => if p_Enabled p then Some (p, modelID) else None
             | None => None
             end
    | None => None
    end in
  match direct with
  | Some r => Some r
  | None =>
      match filterExpired (FindCandidates model m) with
      | [] => None
      | [c] => Some (c_Provider c, c_Model c)
      | cs => (λ c, (c_Provider c, c_Model c)) <$> head (sortCandidates cs mode)
      end
  end.

(** ** Model lists *)

Record ModelInfo := { mi_ID : string; Object : string; Created : Z; OwnedBy : string }.

(** The models of one provider, each id once over the whole list. *)
Definition list_models (now : Time) (p : Provider) (st : list ModelInfo * gset string)
    : list ModelInfo * gset string :=
  foldl (λ st md,
    let '(out, seen) := st in
    if negb (md_Enabled md) || bool_decide (md_ID md ∈ seen) then st
    else (out ++ [{| mi_ID := md_ID md; Object := "model"; Created := now / second; OwnedBy := p_Name p |}],
          {[md_ID md]} ∪ seen)) st (Models p).

Definition no_keys (p : Provider) : bool :=
  bool_decide (APIKey p = "") && bool_decide (APIKeys p = []).

Definition coze_models (now : Time) (coze_bot_id : string) (m : ProviderManager)
    (st : list ModelInfo * gset string) : list ModelInfo :=
  match GetRaw presetProviders "coze" m with
  | Some raw =>
      let id := "coze-" +:+ coze_bot_id in
      if p_Enabled raw && negb (bool_decide (APIKey raw = "")) && negb (bool_decide (coze_bot_id = ""))
         && negb (bool_decide (id ∈ st.2))
      then st.1 ++ [{| mi_ID := id; Object := "model"; Created := now / second; OwnedBy := "Coze" |}]
      else st.1
  | None => st.1
  end.

Definition AllModels (now : Time) (coze_bot_id : string) (m : ProviderManager) : list ModelInfo :=
  coze_models now coze_bot_id m
    (foldl (λ st p, if negb (p_Enabled p) || no_keys p then st else list_models now p st)
       ([], ∅) (GetAllRaw presetProviders m)).

Definition AllModelsFiltered (now : Time) (coze_bot_id : string) (shared_mode : bool) (keyType : string)
    (m : ProviderManager) : list ModelInfo :=
  if bool_decide (keyType = "admin") then AllModels now coze_bot_id m
  else
    (foldl (λ st p,
      if negb (p_Enabled p) then st
      else if negb (bool_decide (p_ID p = "sider")) && no_keys p then st
      else if negb (bool_decide (p_ID p = "sider")) && negb (providerAllowsKeyType shared_mode p keyType)
      then st
      else list_models now p st) ([], ∅) (GetAllRaw presetProviders m)).1.

Definition filterLocalOnly (nodeID : string) (cs : list candidate) : list candidate :=
  filter (λ c, Owner (c_Provider c) = "" ∨ Owner (c_Provider c) = nodeID) cs.
End routing.
