(* ===== verification/RoutingSafety.v ===== *)
(** * Properties of routing (provider.go)

    The order of the candidates in every mode, the exact behaviour of the
    breaker, and how listing, access control and key selection agree. *)

From S2P Require Import Prelude GoTime Sha256 GoSort Providers KeyPool Registry Routing.

(** ** Prices are numbers *)

Definition all_prices : list Pricing :=
  free :: (modelPricing.*2 ++ (platformPricing ≫= λ kv, kv.2.*2)).

Lemma price_in_elem model t p : price_in model t = Some p → p ∈ t.*2.
Proof.
  unfold price_in. destruct (head _) as [kv|] eqn:E.
  - intros [= <-]. apply head_Some_elem_of, list_elem_of_filter in E as [_ E].
    by apply list_elem_of_fmap_2.
  - intros (kv & E2 & ->)%fmap_Some. apply head_Some_elem_of, list_elem_of_filter in E2 as [_ E2].
    by apply list_elem_of_fmap_2.
Qed.

Lemma getPricing_elem model provider : getPricing model provider ∈ all_prices.
Proof.
  unfold getPricing, all_prices. rewrite elem_of_cons, elem_of_app.
  destruct (head _ ≫= _) as [p|] eqn:E.
  - right. right. apply bind_Some in E as (kv & Hkv & Hp).
    apply head_Some_elem_of, list_elem_of_filter in Hkv as [_ Hkv].
    apply list_elem_of_bind. exists kv. split; [by eapply price_in_elem|done].
  - destruct (_ || _); [by left|]. destruct (price_in model modelPricing) as [p|] eqn:Ep; [|by left].
    right. left. by eapply price_in_elem.
Qed.

Lemma cheap_key_num c : is_nan (cheap_key c) = false.
Proof.
  assert (Hall : Forall (λ p, is_nan (fadd (Input p) (Output p)) = false) all_prices).
  { unfold all_prices. apply (bool_decide_unpack _). vm_compute. exact I. }
  rewrite Forall_forall in Hall. unfold cheap_key. destruct (f_is_zero _); [by vm_compute|].
  apply Hall, getPricing_elem.
Qed.

#[export] Instance cheap_weak : StrictWeak (λ x y, fltb (cheap_key x) (cheap_key y)).
Proof. apply float_weak, cheap_key_num. Qed.

(** ** Cooling providers *)

Definition cooling (now : Time) (b : breaker) (id : string) : bool :=
  match cooldownMap b !! id with Some u => negb (after now u) | None => false end.

Lemma in_cooldown_spec now id b :
  let '(r, b') := providerInCooldown now id b in
  r = cooling now b id ∧ ∀ j, cooling now b' j = cooling now b j.
Proof.
  unfold providerInCooldown, cooling. destruct (cooldownMap b !! id) as [u|] eqn:E; [|done].
  destruct (after now u) eqn:Ea; [|done]. split; [done|]. intros j. cbn.
  destruct (decide (j = id)) as [->|N].
  - by rewrite lookup_delete_eq, E, Ea.
  - by rewrite lookup_delete_ne.
Qed.

Lemma cool_filter now cs out b :
  (foldl (cool_step now) (out, b) cs).1 =
  out ++ filter (λ c, cooling now b (p_ID (c_Provider c)) = false) cs.
Proof.
  revert out b. induction cs as [|c cs IH]; intros out b; [by rewrite app_nil_r|].
  cbn [foldl cool_step]. pose proof (in_cooldown_spec now (p_ID (c_Provider c)) b) as Hc.
  destruct (providerInCooldown _ _ _) as [r b']. destruct Hc as [-> Hb]. rewrite IH.
  rewrite filter_cons.
  rewrite (filter_ext_in _ (λ c, cooling now b (p_ID (c_Provider c)) = false) cs)
    by (intros; by rewrite Hb).
  destruct (cooling now b (p_ID (c_Provider c))); [done|].
  rewrite decide_True by done. by rewrite <- app_assoc.
Qed.

Section order.
Context (env : RouteEnv) `{Encryptor} (presets : list Provider) (sider_expired : bool).

(** The candidates that may serve, and those tried: the ones not cooling, or all of them. *)
Definition available (model : string) (m : ProviderManager) : list candidate :=
  filterExpired sider_expired (FindCandidates presets model m).
Definition tried (now : Time) (b : breaker) (cs : list candidate) : list candidate :=
  let cool := filter (λ c, cooling now b (p_ID (c_Provider c)) = false) cs in
  if bool_decide (cool = []) then cs else cool.

Lemma tried_nil now b cs : tried now b cs = [] → cs = [].
Proof.
  unfold tried. set (cool := filter _ cs). by destruct (bool_decide_reflect (cool = [])).
Qed.

Lemma ordered_eq now model mode m b :
  (OrderedCandidates env presets sider_expired now model mode m b).1 =
  sortCandidates env (tried now b (available model m)) mode.
Proof.
  unfold OrderedCandidates, tried. fold (available model m).
  destruct (bool_decide_reflect (available model m = [])) as [->|Hne].
  { cbn. unfold sortCandidates. by repeat destruct (bool_decide _). }
  unfold filterCooldownProviders. pose proof (cool_filter now (available model m) [] b) as Hc.
  destruct (foldl _ _ _) as [out b']. cbn in Hc. rewrite Hc. done.
Qed.

Lemma sort_candidates_perm cs mode :
  (length cs ≤ 20)%nat ∨ mode ≠ "auto" → sortCandidates env cs mode ≡ₚ cs.
Proof.
  intros Hl. unfold sortCandidates, sort_priority.
  repeat match goal with |- context [bool_decide (mode = ?s)] => destruct (bool_decide_reflect (mode = s)) end;
    try apply sort_stable_perm.
  unfold sortAuto. destruct (length cs <=? 1)%nat; [done|].
  destruct Hl as [Hl|Hl]; [|done]. rewrite (proj2 (Nat.leb_le _ _) Hl). apply insertion_by_index_perm.
Qed.

Lemma available_elem model m p :
  keyed m →
  {| c_Provider := p; c_Model := model |} ∈ available model m ↔
  GetRaw presets (p_ID p) m = Some p ∧ p_Enabled p = true ∧ has_model model p = true ∧
  (sider_expired = true → p_ID p ≠ "sider").
Proof.
  intros Hm. assert (Hf : {| c_Provider := p; c_Model := model |} ∈ FindCandidates presets model m ↔
    GetRaw presets (p_ID p) m = Some p ∧ p_Enabled p = true ∧ has_model model p = true).
  { unfold FindCandidates. rewrite list_elem_of_fmap. setoid_rewrite list_elem_of_filter.
    rewrite <- (raw_elem presets m p Hm), <- andb_true_iff. split.
    - intros (q & [= ->] & [? ?]). done.
    - intros [? ?]. by exists p. }
  unfold available, filterExpired. destruct sider_expired.
  - rewrite list_elem_of_filter, Hf. cbn. naive_solver.
  - rewrite Hf. naive_solver.
Qed.

(** Candidates are ordered as the routing mode says: what is tried is a rearrangement of the
    enabled providers that offer the model, without the ones cooling down unless all are;
    by price, by latency or, in every other mode but auto, by priority with the registry's
    order among equals. *)
Theorem ordered_candidates now model mode m b :
  keyed m → (∀ id, is_nan (latency env id) = false) →
  let pool := tried now b (available model m) in
  (length pool ≤ 20)%nat ∨ mode ≠ "auto" →
  let cs := (OrderedCandidates env presets sider_expired now model mode m b).1 in
  cs ≡ₚ pool ∧
  (∀ c, c ∈ cs → c_Model c = model ∧ GetRaw presets (p_ID (c_Provider c)) m = Some (c_Provider c) ∧
     p_Enabled (c_Provider c) = true ∧ has_model model (c_Provider c) = true) ∧
  (cs = [] ↔ ∀ p, {| c_Provider := p; c_Model := model |} ∉ available model m) ∧
  (mode = "cheapest" → sorted_by (λ x y, fltb (cheap_key x) (cheap_key y)) cs) ∧
  (mode = "fastest" →
     sorted_by (λ x y, fltb (latency env (p_ID (c_Provider x))) (latency env (p_ID (c_Provider y)))) cs) ∧
  (mode ∉ ["cheapest"; "fastest"; "auto"] →
     sorted_by (λ x y, p_Priority (c_Provider x) <? p_Priority (c_Provider y)) cs ∧
     ∀ v, filter (λ c, p_Priority (c_Provider c) = v) cs = filter (λ c, p_Priority (c_Provider c) = v) pool).
Proof.
  intros Hm Hnan pool Hl cs. unfold cs. rewrite ordered_eq. fold pool.
  assert (Hsub : ∀ c, c ∈ pool → c ∈ available model m).
  { intros c. unfold pool, tried. destruct (bool_decide _); [done|].
    rewrite list_elem_of_filter. by intros [_ ?]. }
  assert (Hmod : ∀ c, c ∈ available model m → c_Model c = model).
  { intros c. unfold available, filterExpired, FindCandidates. intros Hc.
    assert (Hc' : c ∈ (λ p, {| c_Provider := p; c_Model := model |}) <$>
      filter (λ p, p_Enabled p && has_model model p = true) (GetAllRaw presets m)).
    { destruct sider_expired; [by apply list_elem_of_filter in Hc as [_ ?]|done]. }
    by apply list_elem_of_fmap in Hc' as (p & -> & _). }
  pose proof (sort_candidates_perm pool mode Hl) as Hperm. split_and!; [done|..].
  - intros c Hc. rewrite Hperm in Hc. apply Hsub in Hc as Ha. pose proof (Hmod c Ha) as Em.
    split; [done|]. destruct c as [p md]. cbn in *. subst md.
    apply available_elem in Ha as (? & ? & ? & _); done.
  - split.
    + intros E p Hp. rewrite E in Hperm. apply Permutation_nil_l in Hperm.
      rewrite (tried_nil now b _ (eq_sym Hperm)) in Hp. by apply elem_of_nil in Hp.
    + intros Hno. assert (pool = []) as ->; [|by apply Permutation_nil_r in Hperm].
      apply elem_of_nil_inv. intros c Hc. apply Hsub in Hc. pose proof (Hmod c Hc) as Em.
      destruct c as [p md]. cbn in Em. subst md. by apply (Hno p).
  - intros ->. cbn. apply (sort_stable_sorted _).
  - intros ->. cbn. pose proof (float_weak (λ c, latency env (p_ID (c_Provider c))) (λ c, Hnan _)) as Hw.
    apply (sort_stable_sorted _).
  - intros Hmode. unfold sortCandidates.
    repeat match goal with |- context [bool_decide (mode = ?s)] =>
      rewrite (bool_decide_eq_false_2 (mode = s)) by (intros ->; apply Hmode; rewrite !elem_of_cons; naive_solver) end.
    unfold sort_priority. split; [apply (sort_stable_sorted _)|]. intros v.
    apply (sort_stable_filter (λ x y, p_Priority (c_Provider x) <? p_Priority (c_Provider y))).
    intros y z Hy Hz. cbn in *. rewrite Hy, Hz. apply Z.ltb_irrefl.
Qed.
End order.

(** ** The breaker over a history *)

Inductive brk_event :=
  | EFail (t : Time) (id : string)    (* a failure other than a rate limit *)
  | ELimit (t : Time) (id : string)   (* a rate-limit answer *)
  | EOk (id : string) | EAsk (t : Time) (id : string).

Definition brk_step (b : breaker) (e : brk_event) : breaker :=
  match e with
  | EFail t id => recordProviderFailure t id b
  | ELimit t id => recordProviderCooldown t id b
  | EOk id => recordProviderSuccess id b
  | EAsk t id => (providerInCooldown t id b).2
  end.
Definition brk_run (h : list brk_event) : breaker :=
  foldl brk_step {| cooldownMap := ∅; consecFailures := ∅ |} h.

(** Failures of a provider since its last success. *)
Definition streak (id : string) (h : list brk_event) : Z :=
  foldl (λ n e, match e with
                | EFail _ j => if bool_decide (j = id) then n + 1 else n
                | EOk j => if bool_decide (j = id) then 0 else n
                | _ => n
                end) 0 h.

(** The event [e], after [h], closes the provider to requests until [u]. *)
Definition opens_now (id : string) (h : list brk_event) (e : brk_event) (u : Time) : Prop :=
  match e with
  | ELimit t j => j = id ∧ u = t + 30 * second
  | EFail t j => j = id ∧ 5 ≤ streak id (h ++ [e]) ∧ u = t + 60 * second
  | _ => False
  end.
Definition opens (id : string) (h : list brk_event) (i : nat) (u : Time) : Prop :=
  ∃ e, h !! i = Some e ∧ opens_now id (take i h) e u.
Definition last_open (id : string) (h : list brk_event) (u : Time) : Prop :=
  ∃ i, opens id h i u ∧ ∀ j u', (i < j)%nat → ¬ opens id h j u'.

(** The clock does not run backwards, and reads [t] at the end. *)
Fixpoint clocked (h : list brk_event) (t0 t : Time) : Prop :=
  match h with
  | [] => t0 ≤ t
  | (EFail t1 _ | ELimit t1 _ | EAsk t1 _) :: h' => t0 ≤ t1 ∧ clocked h' t1 t
  | EOk _ :: h' => clocked h' t0 t
  end.

Definition ev_time (e : brk_event) (t : Time) : Time :=
  match e with EFail t1 _ | ELimit t1 _ | EAsk t1 _ => t1 | EOk _ => t end.

Lemma clocked_snoc h e t0 t : clocked (h ++ [e]) t0 t → clocked h t0 (ev_time e t) ∧ ev_time e t ≤ t.
Proof.
  revert t0. induction h as [|e' h IH]; intros t0; [by destruct e; cbn; lia|].
  destruct e'; cbn; intros Hc; try destruct Hc as [? Hc]; apply IH in Hc; tauto.
Qed.

Lemma streak_snoc id h e :
  streak id (h ++ [e]) =
  match e with
  | EFail _ j => if bool_decide (j = id) then streak id h + 1 else streak id h
  | EOk j => if bool_decide (j = id) then 0 else streak id h
  | _ => streak id h
  end.
Proof. unfold streak. by rewrite foldl_app. Qed.

Lemma streak_bound id h : 0 ≤ streak id h ≤ Z.of_nat (length h).
Proof.
  induction h as [|e h IH] using rev_ind; [done|]. rewrite streak_snoc, length_app. cbn.
  destruct e; try destruct (bool_decide _); lia.
Qed.

Lemma opens_snoc id h e i u :
  opens id (h ++ [e]) i u ↔ (i < length h)%nat ∧ opens id h i u ∨ i = length h ∧ opens_now id h e u.
Proof.
  unfold opens. destruct (decide (i < length h)%nat) as [Hi|Hi].
  - rewrite lookup_app_l by done. rewrite take_app_le by lia. naive_solver lia.
  - split.
    + intros (e' & He & Ho). right. pose proof (lookup_lt_Some _ _ _ He) as Hl.
      rewrite length_app in Hl. cbn in Hl. assert (i = length h) as -> by lia.
      rewrite lookup_app_r, Nat.sub_diag in He by lia. injection He as <-.
      split; [done|]. by rewrite take_app_length in Ho.
    + intros [[? _]|[-> Ho]]; [done|]. exists e. split.
      * by rewrite lookup_app_r, Nat.sub_diag by lia.
      * by rewrite take_app_length.
Qed.

Lemma last_open_snoc id h e u :
  last_open id (h ++ [e]) u ↔
  opens_now id h e u ∨ (∀ u', ¬ opens_now id h e u') ∧ last_open id h u.
Proof.
  assert (Hlt : ∀ i u', opens id h i u' → (i < length h)%nat).
  { intros i u' (e' & He & _). by eapply lookup_lt_Some. }
  split.
  - intros (i & Ho & Hlast). apply opens_snoc in Ho as [[Hi Ho]|[-> Ho]]; [|by left]. right. split.
    + intros u' Hu. apply (Hlast (length h) u' Hi). apply opens_snoc. by right.
    + exists i. split; [done|]. intros j u' Hj Hu. apply (Hlast j u' Hj). apply opens_snoc.
      left. split; [by eapply Hlt|done].
  - intros [Ho|[Hno (i & Ho & Hlast)]].
    + exists (length h). split; [apply opens_snoc; by right|]. intros j u' Hj Hu.
      apply opens_snoc in Hu as [[? _]|[? _]]; lia.
    + exists i. split; [apply opens_snoc; left; split; [by eapply Hlt|done]|].
      intros j u' Hj Hu. apply opens_snoc in Hu as [[_ Hu]|[_ Hu]]; [by eapply Hlast|by eapply Hno].
Qed.

Lemma last_open_fun id h u u' : last_open id h u → last_open id h u' → u = u'.
Proof.
  revert u u'. induction h as [|e h IH] using rev_ind; intros u u'.
  { intros (i & (e & He & _) & _). by rewrite lookup_nil in He. }
  rewrite !last_open_snoc. intros [H1|[N1 H1]] [H2|[N2 H2]].
  - destruct e; cbn in *; naive_solver.
  - by destruct (N2 u).
  - by destruct (N1 u').
  - by apply IH.
Qed.

Lemma brk_inv h t0 t :
  clocked h t0 t → Z.of_nat (length h) < 2 ^ 62 →
  ∀ id, zget (consecFailures (brk_run h)) id = streak id h ∧
    match cooldownMap (brk_run h) !! id with
    | Some u => last_open id h u
    | None => ∀ u, last_open id h u → u < t
    end.
Proof.
  revert t. induction h as [|e h IH] using rev_ind; intros t Hc Hlen id.
  { cbn. rewrite lookup_empty. split; [done|]. intros u (i & (e & He & _) & _).
    by rewrite lookup_nil in He. }
  apply clocked_snoc in Hc as [Hc Ht]. rewrite length_app in Hlen. cbn in Hlen.
  destruct (IH _ Hc ltac:(lia) id) as [IH1 IH2]. unfold brk_run in *. rewrite foldl_app. cbn [foldl].
  set (b := foldl brk_step _ h) in *. rewrite streak_snoc.
  pose proof (streak_bound id h) as Hb.
  assert (Hkeep : (∀ u, ¬ opens_now id h e u) →
    match cooldownMap b !! id with
    | Some u => last_open id (h ++ [e]) u
    | None => ∀ u, last_open id (h ++ [e]) u → u < t
    end).
  { intros Hno. destruct (cooldownMap b !! id) as [u|].
    - apply last_open_snoc. by right.
    - intros u [Hu|[_ Hu]]%last_open_snoc; [by destruct (Hno u)|]. specialize (IH2 u Hu). lia. }
  destruct e as [t1 j|t1 j|j|t1 j]; cbn [brk_step ev_time] in *.
  - unfold recordProviderFailure. cbn [consecFailures cooldownMap].
    destruct (bool_decide_reflect (j = id)) as [->|N].
    + rewrite zget_insert_eq, IH1. rewrite wrap64_id by (unfold is_int64; lia). split; [done|].
      unfold breakerThreshold. destruct (Z.leb_spec 5 (streak id h + 1)) as [H5|H5].
      * rewrite lookup_insert_eq. apply last_open_snoc. left. cbn.
        rewrite streak_snoc, bool_decide_eq_true_2 by done. split_and!; [done|lia|done].
      * apply Hkeep. intros u (_ & Hs & _). rewrite streak_snoc, bool_decide_eq_true_2 in Hs by done. lia.
    + rewrite zget_insert_ne by done. split; [done|].
      replace ((if _ <=? _ then _ else _) !! id) with (cooldownMap b !! id).
      * apply Hkeep. by intros u (? & _).
      * destruct (_ <=? _); [by rewrite lookup_insert_ne|done].
  - split; [done|]. cbn. destruct (decide (j = id)) as [->|N].
    + rewrite lookup_insert_eq. apply last_open_snoc. by left.
    + rewrite lookup_insert_ne by done. apply Hkeep. by intros u [? _].
  - cbn. split; [|by apply Hkeep; intros u []].
    rewrite zget_delete. destruct (bool_decide_reflect (j = id)) as [->|N].
    + by rewrite decide_True.
    + by rewrite decide_False.
  - unfold providerInCooldown. destruct (cooldownMap b !! j) as [u|] eqn:Ej; [|split; [done|by apply Hkeep; intros u []]].
    destruct (after t1 u) eqn:Ea; [|split; [done|by apply Hkeep; intros ? []]].
    cbn. split; [done|]. destruct (decide (j = id)) as [->|N].
    + rewrite lookup_delete_eq. intros u' [[]|[_ Hu']]%last_open_snoc. rewrite Ej in IH2.
      rewrite (last_open_fun id h u' u Hu' IH2). unfold after in Ea. apply Z.ltb_lt in Ea. lia.
    + rewrite lookup_delete_ne by done. by apply Hkeep; intros ? [].
Qed.

(** C29. The breaker closes a provider exactly as documented: at any time, after any history of
    failures, rate limits, successes and queries, a provider is cooling down if and only if its
    last rate limit, or last failure that made five or more in a row without a success, was
    less than thirty, respectively sixty, seconds ago. *)
Theorem breaker_exact h t0 t id :
  clocked h t0 t → Z.of_nat (length h) < 2 ^ 62 →
  (providerInCooldown t id (brk_run h)).1 = true ↔ ∃ u, last_open id h u ∧ t ≤ u.
Proof.
  intros Hc Hlen. destruct (brk_inv h t0 t Hc Hlen id) as [_ Hi]. unfold providerInCooldown.
  destruct (cooldownMap (brk_run h) !! id) as [u|].
  - unfold after. destruct (Z.ltb_spec u t) as [Hu|Hu]; cbn; split; try done.
    + intros (u' & Hu' & Ht). rewrite (last_open_fun id h u' u Hu' Hi) in Ht. lia.
    + intros _. by exists u.
  - cbn. split; [done|]. intros (u & Hu & Ht). specialize (Hi u Hu). lia.
Qed.

(** ** Listing and routing agree *)
Section access.
Context `{Encryptor} {loc : Location} (presets : list Provider).
Implicit Types (p : Provider) (m : ProviderManager).

Lemma foldl_same {A B} (f g : B → A → B) b l : (∀ b x, f b x = g b x) → foldl f b l = foldl g b l.
Proof. intros Hfg. revert b. induction l as [|x l IH]; intros b; [done|]. cbn. by rewrite Hfg. Qed.

Lemma list_models_elem now p st mi :
  mi ∈ (list_models now p st).1 →
  mi ∈ st.1 ∨ ∃ md, md ∈ Models p ∧ md_Enabled md = true ∧ mi_ID mi = md_ID md.
Proof.
  unfold list_models. revert st. induction (Models p) as [|md ms IH]; intros st; [by left|].
  cbn [foldl]. intros Hin. apply IH in Hin as [Hin|(md' & ? & ? & ?)].
  - destruct st as [out seen]. destruct (md_Enabled md) eqn:Em; cbn in Hin; [|by left].
    destruct (bool_decide _); cbn in Hin; [by left|].
    apply elem_of_app in Hin as [Hin|Hin%list_elem_of_singleton]; [by left|]. right.
    exists md. split; [left|]. by subst mi.
  - right. exists md'. split; [by right|done].
Qed.

Lemma fold_models_elem now (skip : Provider → bool) ps st mi :
  mi ∈ (foldl (λ st p, if skip p then st else list_models now p st) st ps).1 →
  mi ∈ st.1 ∨ ∃ p md, p ∈ ps ∧ skip p = false ∧ md ∈ Models p ∧ md_Enabled md = true ∧
                     mi_ID mi = md_ID md.
Proof.
  revert st. induction ps as [|p ps IH]; intros st; [by left|]. cbn [foldl]. intros Hin.
  apply IH in Hin as [Hin|(q & md & Hq & Hr)].
  - destruct (skip p) eqn:Es; [by left|]. apply list_models_elem in Hin as [?|(md & ? & ? & ?)]; [by left|].
    right. exists p, md. split; [left|done].
  - right. exists q, md. split; [by right|done].
Qed.

Lemma find_candidate m p md :
  p ∈ GetAllRaw presets m → p_Enabled p = true → md ∈ Models p → md_Enabled md = true →
  {| c_Provider := p; c_Model := md_ID md |} ∈ FindCandidates presets (md_ID md) m.
Proof.
  intros Hp He Hmd Hen. unfold FindCandidates. apply list_elem_of_fmap. exists p. split; [done|].
  apply list_elem_of_filter. split; [|done]. rewrite He. cbn. apply existsb_exists.
  exists md. rewrite <- list_elem_of_In. by rewrite bool_decide_eq_true_2, Hen.
Qed.

(** What a key sees is what it can use: every model listed for a key type, other than those of
    the Sider provider and the extra bot model of administrators, has a candidate the same
    key type is allowed to route to. *)
Theorem listed_is_routable now bot shared kt m mi :
  mi ∈ AllModelsFiltered presets now bot shared kt m →
  (∃ c, c ∈ FilterByAccessControl shared (FindCandidates presets (mi_ID mi) m) kt ∧
        p_Enabled (c_Provider c) = true) ∨
  (kt = "admin" ∧ mi_ID mi = "coze-" +:+ bot) ∨
  (∃ p, p ∈ GetAllRaw presets m ∧ p_ID p = "sider" ∧ mi_ID mi ∈ md_ID <$> Models p).
Proof.
  unfold AllModelsFiltered. destruct (bool_decide_reflect (kt = "admin")) as [->|Hkt].
  - unfold AllModels, coze_models. intros Hin.
    assert (Hin' : mi ∈ (foldl (λ st p, if negb (p_Enabled p) || no_keys p then st else
                list_models now p st) ([], ∅) (GetAllRaw presets m)).1 ∨ mi_ID mi = "coze-" +:+ bot).
    { destruct (GetRaw presets "coze" m); [|by left]. destruct (_ && _); [|by left].
      apply elem_of_app in Hin as [?|Hin%list_elem_of_singleton]; [by left|right]. by subst mi. }
    destruct Hin' as [Hin'|?]; [|right; by left]. left.
    apply fold_models_elem in Hin' as [?%elem_of_nil|(p & md & Hp & Hs & Hmd & Hen & ->)]; [done|].
    apply orb_false_iff in Hs as [Hs%negb_false_iff _].
    eexists. split; [apply (find_candidate m p md); done|done].
  - rewrite (foldl_same _ (λ st p, if negb (p_Enabled p)
       || (negb (bool_decide (p_ID p = "sider")) && (no_keys p || negb (providerAllowsKeyType shared p kt)))
       then st else list_models now p st)).
    2:{ intros st p. by destruct (p_Enabled p), (bool_decide (p_ID p = "sider")), (no_keys p),
          (providerAllowsKeyType shared p kt). }
    intros [?%elem_of_nil|(p & md & Hp & Hs & Hmd & Hen & E)]%fold_models_elem; [done|].
    apply orb_false_iff in Hs as [Hs%negb_false_iff Hs2].
    destruct (bool_decide_reflect (p_ID p = "sider")) as [Esid|_].
    { right. right. exists p. split_and!; [done..|]. rewrite E. by apply list_elem_of_fmap_2. }
    cbn in Hs2. apply orb_false_iff in Hs2 as [_ Hs2%negb_false_iff]. left. rewrite E.
    pose proof (find_candidate m p md Hp Hs Hmd Hen) as Hc.
    exists {| c_Provider := p; c_Model := md_ID md |}. split; [|done].
    unfold FilterByAccessControl, providerAllowsKeyType in *.
    rewrite (bool_decide_eq_false_2 (kt = "admin")) in * by done. cbn [orb] in Hs2.
    destruct (bool_decide (kt = "proxy")); [done|].
    destruct (bool_decide_reflect (kt = "guest")) as [->|Hg].
    + cbn. apply list_elem_of_filter. split; [|done]. unfold access_ok. cbn. rewrite Hs2. apply orb_true_r.
    + destruct (bool_decide_reflect (kt = "public")) as [->|]; [|done].
      destruct shared; cbn [negb andb] in *.
      * apply list_elem_of_filter. split; [|done]. unfold access_ok. cbn.
        destruct (ShareToPool _), (isFreePoolProvider p); try done; by rewrite ?orb_true_r.
      * rewrite orb_false_r in Hs2. by apply list_elem_of_filter.
Qed.

(** A provider shared to the pool whose keys are all private is reached by the public key, which
    is served with one of those keys, although its models are not listed for it. *)
Theorem private_keys_serve_public now m p model rr k :
  p ∈ GetAllRaw presets m → p_Enabled p = true → has_model model p = true →
  ShareToPool (AccessControl p) = true → isFreePoolProvider p = false →
  APIKeys p ≠ [] → Forall (λ k, a_Access k = "private") (APIKeys p) →
  k ∈ APIKeys p → usable (loc := loc) now "" k = true →
  {| c_Provider := p; c_Model := model |} ∈ FilterByAccessControl true (FindCandidates presets model m) "public" ∧
  providerAllowsKeyType true p "public" = false ∧
  ∃ k', (GetEffectiveAPIKey (loc := loc) now p rr).1 = a_Key k' ∧ k' ∈ APIKeys p ∧ a_Access k' = "private".
Proof.
  intros Hp He Hmod Hsh Hfree Hne Hpriv Hk Hu. split; [|split].
  - unfold FilterByAccessControl. cbn. apply list_elem_of_filter. split.
    + unfold access_ok. cbn. rewrite Hsh. apply orb_true_r.
    + unfold FindCandidates. apply list_elem_of_fmap. exists p. split; [done|].
      apply list_elem_of_filter. by rewrite He, Hmod.
  - assert (Hno : hasNonPrivateKey p = false).
    { unfold hasNonPrivateKey. rewrite (bool_decide_eq_false_2 (APIKeys p = [])) by done.
      rewrite andb_false_l, orb_false_r. apply not_true_iff_false. intros (x & Hx & Hb)%existsb_exists.
      rewrite <- list_elem_of_In in Hx. rewrite Forall_forall in Hpriv.
      rewrite (Hpriv x Hx) in Hb. by destruct (a_Enabled x). }
    unfold providerAllowsKeyType. rewrite Hno, Hfree, Hsh. reflexivity.
  - unfold GetEffectiveAPIKey. rewrite select_spec by done. set (top := top_keys now "" p).
    assert (Ht : top ≠ []).
    { intros Hn. apply top_keys_nil with (k := k) in Hn; congruence. }
    assert (length top ≠ 0%nat) by (by destruct top).
    destruct (lookup_lt_is_Some_2 top (Z.to_nat (rr mod Z.of_nat (length top)))) as [k' Hk'].
    { pose proof (Z.mod_pos_bound rr (Z.of_nat (length top)) ltac:(lia)). lia. }
    rewrite Hk'. exists k'. split; [done|]. apply list_elem_of_lookup_2 in Hk'.
    apply list_elem_of_filter in Hk' as [_ Hin]. apply list_elem_of_filter in Hin as [_ Hin].
    split; [done|]. rewrite Forall_forall in Hpriv. by apply Hpriv.
Qed.
End access.

(** ** Examples *)

Definition idle_env : RouteEnv := {|
  ewma := λ _, f_zero; tokens_used := λ _, 0; weights := ∅; merge_blocks := λ _ cs, cs |}.

Definition model_m : ModelDef := {|
  md_ID := "m"; md_Name := "M"; Tier := ""; md_Enabled := true; EnabledByKeys := ∅;
  AvailableKeys := []; Source := "" |}.

Definition preset (id : string) (prio : Z) : Provider := {|
  p_ID := id; p_Name := id; p_Type := "openai_compatible"; BaseURL := ""; APIKey := "sk";
  p_Enabled := true; Models := [model_m]; p_Priority := prio; TokenLimit := 0; p_Proxy := "";
  Owner := ""; AccessControl := {| ShareToPool := true; GuestPoolPercent := 50; MigrationAllowPublic := None |};
  APIKeys := []; Settings := zero_settings; p_CreatedAt := ""; p_UpdatedAt := "" |}.

Definition three_presets : list Provider := [preset "a" 2; preset "b" 3; preset "c" 1].
Definition three_candidates : list candidate :=
  (λ p, {| c_Provider := p; c_Model := "m" |}) <$> three_presets.

(** The auto mode does not put the best score first: the comparison looks scores up by position
    while the candidates move. Of three providers that differ in priority only, the third has
    the highest score, and the first is tried first; the priority mode tries the third. *)
Theorem auto_sort_misorders :
  (p_ID ∘ c_Provider <$> sortCandidates idle_env three_candidates "auto") = ["a"; "c"; "b"] ∧
  (p_ID ∘ c_Provider <$> sortCandidates idle_env three_candidates "priority") = ["c"; "a"; "b"] ∧
  ∃ sa sb sc, auto_scores idle_env three_candidates = [sa; sb; sc] ∧
    fltb sb sa = true ∧ fltb sa sc = true.
Proof.
  split; [vm_compute; reflexivity|]. split; [vm_compute; reflexivity|].
  eexists _, _, _. split; [vm_compute; reflexivity|]. split; vm_compute; reflexivity.
Qed.

Lemma ordered_candidates_witness :
  keyed new_manager ∧
  let cs := (OrderedCandidates idle_env three_presets false 0 "m" "priority" new_manager
               (brk_run [ELimit 0 "c"])).1 in
  sorted_by (λ x y, p_Priority (c_Provider x) <? p_Priority (c_Provider y)) cs ∧
  p_ID ∘ c_Provider <$> cs = ["a"; "b"].
Proof.
  assert (Hk : keyed new_manager) by (intros k p; cbn; by rewrite lookup_empty).
  split; [exact Hk|].
  destruct (ordered_candidates idle_env three_presets false 0 "m" "priority" new_manager
              (brk_run [ELimit 0 "c"]) Hk) as (_ & _ & _ & _ & _ & Hp).
  - intros id. vm_compute. reflexivity.
  - right. discriminate.
  - split; [|vm_compute; reflexivity]. apply Hp. rewrite !elem_of_cons, elem_of_nil.
    intros [?|[?|[?|[]]]]; discriminate.
Defined.

Definition five_failures : list brk_event :=
  [EFail 1 "p"; EFail 2 "p"; EFail 3 "p"; EFail 4 "p"; EOk "q"; EFail 5 "p"].

Lemma breaker_exact_witness :
  clocked five_failures 0 (60 * second) ∧
  (providerInCooldown (60 * second) "p" (brk_run five_failures)).1 = true.
Proof.
  assert (Hc : clocked five_failures 0 (60 * second)) by (cbn; unfold second; lia).
  split; [exact Hc|]. apply (breaker_exact five_failures 0 (60 * second) "p" Hc); [cbn; lia|].
  exists (5 + 60 * second). split; [|lia]. exists 5%nat. split.
  - eexists. split; [reflexivity|]. cbn. repeat split. vm_compute. discriminate.
  - intros j u Hj (e & He & _). apply lookup_lt_Some in He. cbn in He. lia.
Defined.

Lemma listed_is_routable_witness :
  ∃ mi, mi ∈ AllModelsFiltered three_presets 0 "" false "guest" new_manager ∧ mi_ID mi = "m" ∧
  ((∃ c, c ∈ FilterByAccessControl false (FindCandidates three_presets (mi_ID mi) new_manager) "guest" ∧
         p_Enabled (c_Provider c) = true) ∨
   ("guest" = "admin" ∧ mi_ID mi = "coze-" +:+ "") ∨
   (∃ p, p ∈ GetAllRaw three_presets new_manager ∧ p_ID p = "sider" ∧ mi_ID mi ∈ md_ID <$> Models p)).
Proof.
  exists {| mi_ID := "m"; Object := "model"; Created := 0; OwnedBy := "a" |}.
  assert (Hin : {| mi_ID := "m"; Object := "model"; Created := 0; OwnedBy := "a" |} ∈
            AllModelsFiltered three_presets 0 "" false "guest" new_manager).
  { replace (AllModelsFiltered three_presets 0 "" false "guest" new_manager)
      with [{| mi_ID := "m"; Object := "model"; Created := 0; OwnedBy := "a" |}]
      by (vm_compute; reflexivity). left. }
  split; [exact Hin|]. split; [reflexivity|].
  exact (listed_is_routable three_presets 0 "" false "guest" new_manager _ Hin).
Defined.
