(* ===== verification/Chat.v ===== *)
(** * Serving a chat request (handlers.go, handleChatCompletions)

    The request handler composes the components: it reserves from the public
    quota and from the guest key's windows, deducts from a priority pool, tries
    the candidates in order with the breaker, and settles the reservations on
    every way out. Coze models go to a handler of their own. The upstream calls
    are the function [serve]; the response bytes and the statistics of
    connections are not modelled. *)

From S2P Require Import Prelude GoTime Sha256 GoSort QuotaPools PublicQuota GuestKeys Providers Routing.

(** ** Requests *)

(** The credentials of a request: the key type set by the relay, the role set by
    authentication, and the bearer token. *)
Record credentials := { internalKeyType : string; role : string; bearer : string }.

Definition RequestKeyType (now : Time) (shared_mode : bool) (store : option GuestKeys.keys)
    (c : credentials) : string :=
  if negb (bool_decide (internalKeyType c = "")) then internalKeyType c
  else if bool_decide (role c = "admin") then "admin"
  else match GuestKeys.ClassifyKey (bearer c) with
  | GuestKeys.KeyTypePublic => "public"
  | GuestKeys.KeyTypeGuest =>
      match GuestKeys.GetGuestKeyAccessPublicPool now shared_mode (bearer c) store with
      | Some (_, true) => "public"
      | _ => "guest"
      end
  | GuestKeys.KeyTypeProxy => "proxy"
  | GuestKeys.KeyTypeUnknown => "unknown"
  end.

Record ChatRequest := {
  q_cred : credentials; q_messages : nat; q_model : string; q_max_tokens : option Z;
  q_stream : bool; q_client : string; q_consumer : string;
  q_guest_key : string;            (* the guest key verified by the relay, or empty *)
  q_charged : bool;                (* the header the gateway sets *)
  q_handoff : option Z }.          (* what the gateway reserved *)

(** What an upstream did with a request. *)
Inductive upstream :=
  | UpOk (prompt completion : Z)
  | UpErr (msg : string)
  | UpPartial (msg : string).      (* a stream that failed after data was sent *)

Inductive chat_log :=
  | LogCall (provider : string) (prompt completion : Z) (ok : bool)
  | LogConsumer (consumer : string) (tokens : Z).

Record chat_node := {
  n_id : string; n_shared : bool; n_mode : string;
  n_public : option PublicKeyQuota; n_keys : option GuestKeys.keys;
  n_guest : option guestKeyUsageTracker; n_pools : option node_pools;
  n_providers : ProviderManager; n_breaker : breaker; n_rr : Z; n_log : list chat_log }.

Definition set_public (n : chat_node) (q : option PublicKeyQuota) : chat_node := {|
  n_id := n_id n; n_shared := n_shared n; n_mode := n_mode n; n_public := q; n_keys := n_keys n;
  n_guest := n_guest n; n_pools := n_pools n; n_providers := n_providers n;
  n_breaker := n_breaker n; n_rr := n_rr n; n_log := n_log n |}.
Definition set_guest (n : chat_node) (t : option guestKeyUsageTracker) : chat_node := {|
  n_id := n_id n; n_shared := n_shared n; n_mode := n_mode n; n_public := n_public n;
  n_keys := n_keys n; n_guest := t; n_pools := n_pools n; n_providers := n_providers n;
  n_breaker := n_breaker n; n_rr := n_rr n; n_log := n_log n |}.
Definition set_pools (n : chat_node) (p : option node_pools) : chat_node := {|
  n_id := n_id n; n_shared := n_shared n; n_mode := n_mode n; n_public := n_public n;
  n_keys := n_keys n; n_guest := n_guest n; n_pools := p; n_providers := n_providers n;
  n_breaker := n_breaker n; n_rr := n_rr n; n_log := n_log n |}.
Definition set_run (n : chat_node) (b : breaker) (rr : Z) (l : list chat_log) : chat_node := {|
  n_id := n_id n; n_shared := n_shared n; n_mode := n_mode n; n_public := n_public n;
  n_keys := n_keys n; n_guest := n_guest n; n_pools := n_pools n; n_providers := n_providers n;
  n_breaker := b; n_rr := rr; n_log := l |}.

(** The clock readings of a request: on arrival, after each call, and at the end. *)
Record clock := { c_start : Time; c_call : nat → Time; c_end : Time }.

(** How the loop over the candidates ended. *)
Inductive verdict :=
  | Served (tokens : option Z)     (* [None]: a stream, its usage unknown *)
  | Partial
  | Failed (lastErr : option string).

Section chat.
Context (env : RouteEnv) `{Encryptor} {loc : Location} (presets : list Provider)
  (sider_expired : bool) (serve : nat → Provider → upstream) (clk : clock).

Definition log_consumer (consumer : string) (tokens : Z) (l : list chat_log) : list chat_log :=
  if bool_decide (consumer = "") then l else l ++ [LogConsumer consumer tokens].

(** The key the candidate's provider is called with. *)
Definition resolve_key (i : nat) (p : Provider) (rr : Z) : Provider * Z :=
  if bool_decide (APIKey p = "") && negb (bool_decide (APIKeys p = []))
  then let '(k, rr') := GetEffectiveAPIKey (loc := loc) (c_call clk i) p rr in
       (with_secrets p k (p_Proxy p) (APIKeys p), rr')
  else (p, rr).

(** A failed call: the breaker. *)
Definition call_failed (i : nat) (id msg : string) (b : breaker) : breaker :=
  if isRateLimitError msg then recordProviderCooldown (c_call clk i) id b
  else recordProviderFailure (c_call clk i) id b.

Fixpoint try_providers (stream : bool) (consumer : string) (i : nat) (cs : list candidate)
    (lastErr : option string) (b : breaker) (rr : Z) (l : list chat_log)
    : verdict * (breaker * Z * list chat_log) :=
  match cs with
  | [] => (Failed lastErr, (b, rr, l))
  | c :: cs' =>
      let '(p, rr) := resolve_key i (c_Provider c) rr in
      if bool_decide (APIKey p = "")
      then try_providers stream consumer (S i) cs'
             (Some ("provider '" +:+ p_Name p +:+ "' has no API key")) b rr l
      else
        let id := p_ID p in
        let log pr co ok := l ++ [LogCall id pr co ok] in
        match serve i p with
        | UpOk pr co =>
            if stream
            then (Served None, (recordProviderSuccess id b, rr, log_consumer consumer 0 (log 0 0 true)))
            else (Served (Some (pr +! co)),
                  (recordProviderSuccess id b, rr, log_consumer consumer (pr +! co) (log pr co true)))
        | UpPartial msg =>
            if stream then (Partial, (b, rr, log 0 0 false))
            else try_providers stream consumer (S i) cs' (Some msg) (call_failed i id msg b) rr (log 0 0 false)
        | UpErr msg =>
            try_providers stream consumer (S i) cs' (Some msg) (call_failed i id msg b) rr (log 0 0 false)
        end
  end.

(** What a reservation is settled at. *)
Definition settled_at (reserved : Z) (v : verdict) : Z :=
  match v with
  | Served (Some n) => n
  | Served None | Partial => reserved
  | Failed _ => 0
  end.

Definition estimate (r : ChatRequest) : Z :=
  match q_max_tokens r with Some n => if 0 <? n then n else 4096 | None => 4096 end.

(** The status written: a broken stream has already sent 200. *)
Definition status_of (v : verdict) : Z :=
  match v with
  | Served _ => 200
  | Partial => 200
  | Failed (Some msg) => if isRateLimitError msg then 429 else 502
  | Failed None => 502
  end.

(** ** The stages *)

(** The direct reservation from the public quota: refused, or what was reserved. *)
Definition reserve_public (kt : string) (r : ChatRequest) (n : chat_node)
    : option (option Z) * chat_node :=
  match n_public n with
  | Some q =>
      if bool_decide (kt = "public") && negb (q_charged r) then
        let '((ok, _, _), q') := ReserveQuota (loc := loc) (c_start clk) (q_client r) (q_model r) (estimate r) q in
        (if ok then Some (Some (estimate r)) else None, set_public n (Some q'))
      else (Some None, n)
  | None => (Some None, n)
  end.

(** The guest key a request is accounted to. *)
Definition guest_key_of (kt : string) (r : ChatRequest) : string :=
  if bool_decide (q_guest_key r = "") && bool_decide (kt = "guest") then bearer (q_cred r)
  else q_guest_key r.

Definition reserve_guest (kt : string) (r : ChatRequest) (n : chat_node)
    : option (option Z) * chat_node :=
  match n_guest n, n_keys n with
  | Some t, Some ks =>
      let key := guest_key_of kt r in
      match (if bool_decide (key = "") then None else GuestKeys.GetGuestKeyRecord key ks) with
      | Some rec =>
          let '((ok, _), t') := CheckAndReserveFull (c_start clk) key (GuestKeys.Quota rec)
            (GuestKeys.QuotaHourly rec) (GuestKeys.QuotaPerRequest rec) (GuestKeys.RPM rec) (estimate r) t in
          (if ok then Some (Some (estimate r)) else None, set_guest n (Some t'))
      | None => (Some None, n)
      end
  | _, _ => (Some None, n)
  end.

Definition draw_pool (kt : string) (r : ChatRequest) (n : chat_node) : bool * chat_node :=
  match n_pools n with
  | Some s =>
      if (bool_decide (kt = "guest") || bool_decide (kt = "proxy") || bool_decide (kt = "admin"))
         && enabled (mgr s)
      then let '(res, s') := Resolve (c_start clk) (n_id n) (keyTypeFromString kt) (estimate r) s in
           (r_OK res, set_pools n (Some s'))
      else (true, n)
  | None => (true, n)
  end.

(** The candidates tried, local providers first for guests and proxies. *)
Definition candidates_for (kt : string) (r : ChatRequest) (n : chat_node) : list candidate * breaker :=
  let '(all, b) := OrderedCandidates env presets sider_expired (c_start clk) (q_model r) (n_mode n)
                     (n_providers n) (n_breaker n) in
  let cs := FilterByAccessControl (n_shared n) all kt in
  let local := filterLocalOnly (n_id n) cs in
  (if (bool_decide (kt = "guest") || bool_decide (kt = "proxy")) && negb (bool_decide (local = []))
   then local else cs, b).

Definition settle_public (r : ChatRequest) (reserved : option Z) (v : verdict) (n : chat_node) : chat_node :=
  match reserved, n_public n with
  | Some e, Some q => set_public n
      (Some (AdjustQuota (loc := loc) (c_end clk) (q_client r) (q_model r) e (settled_at e v) q))
  | _, _ => n
  end.

Definition settle_guest (kt : string) (r : ChatRequest) (reserved : option Z) (v : verdict)
    (n : chat_node) : chat_node :=
  match reserved, n_guest n with
  | Some e, Some t => set_guest n (Some (GuestKeys.Adjust (c_end clk) (guest_key_of kt r) e (settled_at e v) t))
  | _, _ => n
  end.

Record answer := { status : Z; handoff : option Z }.

Definition refuse (s : Z) : answer := {| status := s; handoff := None |}.

(** The handler. A handed-over reservation is settled with the outcome, except when no
    provider is available, which leaves it to the gateway. *)
Definition handleChatCompletions (coze : ChatRequest → chat_node → answer * chat_node)
    (r : ChatRequest) (n : chat_node) : answer * chat_node :=
  if (q_messages r =? 0)%nat then (refuse 400, n)
  else if has_prefix "coze-" (q_model r) then coze r n
  else
    let kt := RequestKeyType (c_start clk) (n_shared n) (n_keys n) (q_cred r) in
    let '(pub, n) := reserve_public kt r n in
    match pub with
    | None => (refuse 429, n)
    | Some pub =>
        let '(gk, n) := reserve_guest kt r n in
        match gk with
        | None => (refuse 429, settle_public r pub (Failed None) n)
        | Some gk =>
            let finish v n := settle_public r pub v (settle_guest kt r gk v n) in
            let '(drawn, n) := draw_pool kt r n in
            if negb drawn then (refuse 429, finish (Failed None) n)
            else
              let '(cs, b) := candidates_for kt r n in
              if bool_decide (cs = []) then (refuse 404, finish (Failed None) (set_run n b (n_rr n) (n_log n)))
              else
                let '(v, (b, rr, l)) :=
                  try_providers (q_stream r) (q_consumer r) 0 cs None b (n_rr n) (n_log n) in
                ({| status := status_of v;
                    handoff := if q_charged r && bool_decide (kt = "public") && bool_decide (is_Some (n_public n))
                               then (λ e, settled_at e v) <$> q_handoff r else None |},
                 finish v (set_run n b rr l))
        end
    end.

(** ** Coze models *)

(** [Provider{}], what looking up an unknown id gives. *)
Definition no_provider : Provider := {|
  p_ID := ""; p_Name := ""; p_Type := ""; BaseURL := ""; APIKey := ""; p_Enabled := false;
  Models := []; p_Priority := 0; TokenLimit := 0; p_Proxy := ""; Owner := "";
  AccessControl := {| ShareToPool := false; GuestPoolPercent := 0; MigrationAllowPublic := None |};
  APIKeys := []; Settings := zero_settings;
  p_CreatedAt := ""; p_UpdatedAt := "" |}.

Definition coze_provider (n : chat_node) : Provider :=
  default no_provider (GetRaw presets "coze" (n_providers n)).

(** The handler of Coze models: the provider's key, or else the one of the configuration,
    then one call. An error of a stream is written into the stream. *)
Definition handleCozeRequest (coze_api_token : string) (r : ChatRequest) (n : chat_node)
    : answer * chat_node :=
  let '(p, rr) := resolve_key 0 (coze_provider n) (n_rr n) in
  let p := if bool_decide (APIKey p = "")
           then with_secrets p coze_api_token (p_Proxy p) (APIKeys p) else p in
  if bool_decide (APIKey p = "") then (refuse 500, set_run n (n_breaker n) rr (n_log n))
  else
    let ok := match serve 0 p with UpOk _ _ => true | _ => false end in
    (refuse (if q_stream r || ok then 200 else 502),
     set_run n (n_breaker n) rr (n_log n ++ [LogCall (p_ID p) 0 0 ok])).
End chat.
