(* ===== verification/ChatSafety.v ===== *)
(** * What serving a chat request guarantees (handlers.go)

    Only authorised providers are called, and every reservation a request made
    ends as a charge of what it used. *)

From S2P Require Import Prelude GoTime Sha256 GoSort QuotaPools PublicQuota GuestKeys GuestQuota.
From S2P Require Import Providers Registry Routing RoutingSafety Chat.

Section chat_safety.
Context (env : RouteEnv) `{Encryptor} {loc : Location} (presets : list Provider)
  (sider_expired : bool) (serve : nat → Provider → upstream) (clk : clock)
  (coze : ChatRequest → chat_node → answer * chat_node).
Implicit Types (n : chat_node) (r : ChatRequest) (v : verdict) (l : list chat_log).

(** ** The loop over the candidates *)

Definition calls_in (cs : list candidate) (e : chat_log) : Prop :=
  match e with
  | LogCall id _ _ _ => ∃ c, c ∈ cs ∧ p_ID (c_Provider c) = id
  | LogConsumer _ _ => True
  end.

Lemma resolve_key_id i p rr : p_ID (resolve_key (loc := loc) clk i p rr).1 = p_ID p.
Proof.
  unfold resolve_key. destruct (_ && _); [|done]. by destruct (GetEffectiveAPIKey _ _ _).
Qed.

Lemma calls_in_mono c cs e : calls_in cs e → calls_in (c :: cs) e.
Proof. destruct e; [|done]. intros (x & Hx & Hid). exists x. split; [by right|done]. Qed.

(** What is logged: calls of candidates, and a final entry that carries the tokens. *)
Lemma try_spec stream consumer i cs err b rr l :
  let '(v, (b', rr', l')) := try_providers (loc := loc) serve clk stream consumer i cs err b rr l in
  ∃ added, l' = l ++ added ∧ Forall (calls_in cs) added ∧
    match v with
    | Served (Some k) => stream = false ∧ ∃ id pr co, LogCall id pr co true ∈ added ∧ k = pr +! co ∧ ∃ i p, serve i p = UpOk pr co
    | Served None | Partial => stream = true
    | Failed _ => True
    end.
Proof.
  revert i err b rr l. induction cs as [|c cs IH]; intros i err b rr l; cbn [try_providers].
  { exists []. rewrite app_nil_r. done. }
  pose proof (resolve_key_id i (c_Provider c) rr) as Hid.
  destruct (resolve_key clk i (c_Provider c) rr) as [p rr1]. cbn in Hid.
  assert (Hskip : ∀ err b l0 new, l0 = l ++ new → Forall (calls_in (c :: cs)) new →
    let '(v, (b', rr', l')) := try_providers (loc := loc) serve clk stream consumer (S i) cs err b rr1 l0 in
    ∃ added, l' = l ++ added ∧ Forall (calls_in (c :: cs)) added ∧
      match v with
      | Served (Some k) => stream = false ∧ ∃ id pr co, LogCall id pr co true ∈ added ∧ k = pr +! co ∧ ∃ i p, serve i p = UpOk pr co
      | Served None | Partial => stream = true
      | Failed _ => True
      end).
  { intros err' b0 l0 new -> Hnew. specialize (IH (S i) err' b0 rr1 (l ++ new)).
    destruct (try_providers _ _ _ _ _ _ _ _ _ _) as [v [[b' rr'] l']].
    destruct IH as (added & -> & Hall & Hv). exists (new ++ added).
    split; [by rewrite app_assoc|]. split.
    { apply Forall_app. split; [done|]. eapply Forall_impl; [exact Hall|]. apply calls_in_mono. }
    destruct v as [[k|]| |]; try done. destruct Hv as (? & id & pr & co & Hin & Hr).
    split; [done|]. exists id, pr, co. split; [|done]. apply elem_of_app. by right. }
  assert (Hcall : ∀ pr co ok, calls_in (c :: cs) (LogCall (p_ID p) pr co ok)).
  { intros. exists c. split; [left|done]. }
  assert (Hcons : ∀ k e, calls_in (c :: cs) e →
    ∃ new, log_consumer consumer k (l ++ [e]) = l ++ new ∧ Forall (calls_in (c :: cs)) new ∧ e ∈ new).
  { intros k e He. unfold log_consumer. destruct (bool_decide _).
    - exists [e]. split; [done|]. split; [by constructor|left].
    - exists [e; LogConsumer consumer k]. rewrite <- app_assoc. split; [done|].
      split; [by repeat constructor|left]. }
  destruct (bool_decide _).
  { apply Hskip with (new := []); [by rewrite app_nil_r|constructor]. }
  destruct (serve i p) as [pr co|msg|msg] eqn:Es.
  - destruct stream.
    + destruct (Hcons 0 (LogCall (p_ID p) 0 0 true) (Hcall _ _ _)) as (new & -> & Hn & _).
      by exists new.
    + destruct (Hcons (pr +! co) (LogCall (p_ID p) pr co true) (Hcall _ _ _)) as (new & -> & Hn & Hin).
      exists new. split; [done|]. split; [done|]. split; [done|]. exists (p_ID p), pr, co. split_and!; [done..|]. by exists i, p.
  - apply Hskip with (new := [LogCall (p_ID p) 0 0 false]); [done|]. by constructor.
  - destruct stream.
    + exists [LogCall (p_ID p) 0 0 false]. split; [done|]. split; [by constructor|done].
    + apply Hskip with (new := [LogCall (p_ID p) 0 0 false]); [done|]. by constructor.
Qed.

(** ** Which providers may be called *)

(** Sorting rearranges its input, also beyond twenty elements. *)
Context (sort_permutes : ∀ less cs, merge_blocks env less cs ≡ₚ cs).

Definition allowed (shared : bool) (kt : string) (p : Provider) : Prop :=
  kt = "admin" ∨ kt = "proxy" ∨
  (if bool_decide (kt = "public") && negb shared then isFreePoolProvider p else access_ok kt p) = true.

Lemma filter_access_elem shared cs kt c :
  c ∈ FilterByAccessControl shared cs kt → c ∈ cs ∧ allowed shared kt (c_Provider c).
Proof.
  unfold FilterByAccessControl, allowed.
  destruct (bool_decide_reflect (kt = "admin")); [by split; [|left]|].
  destruct (bool_decide_reflect (kt = "proxy")); [by split; [|right; left]|].
  destruct (_ && _); intros [Hp Hc]%list_elem_of_filter; split; try done; right; by right.
Qed.

Definition authorised (r : ChatRequest) (kt : string) (n : chat_node) (e : chat_log) : Prop :=
  match e with
  | LogCall id _ _ _ => ∃ p, GetRaw presets id (n_providers n) = Some p ∧ p_Enabled p = true ∧
                             has_model (q_model r) p = true ∧ allowed (n_shared n) kt p
  | LogConsumer _ _ => True
  end.

Lemma ordered_ok shared kt now model mode pm b c :
  keyed pm → c ∈ FilterByAccessControl shared (OrderedCandidates env presets sider_expired now model mode pm b).1 kt →
  GetRaw presets (p_ID (c_Provider c)) pm = Some (c_Provider c) ∧
  p_Enabled (c_Provider c) = true ∧ has_model model (c_Provider c) = true ∧ allowed shared kt (c_Provider c).
Proof using sort_permutes.
  intros Hk Hf. apply filter_access_elem in Hf as [Hall Hal].
  rewrite (ordered_eq env presets sider_expired now model mode pm b) in Hall.
  assert (Hav : c ∈ available presets sider_expired model pm).
  { assert (Hp : ∀ cs, sortCandidates env cs mode ≡ₚ cs).
    { intros cs. unfold sortCandidates, sort_priority.
      destruct (bool_decide (mode = "cheapest")); [apply sort_stable_perm|].
      destruct (bool_decide (mode = "fastest")); [apply sort_stable_perm|].
      destruct (bool_decide (mode = "auto")); [|apply sort_stable_perm].
      unfold sortAuto. destruct (length cs <=? 1)%nat; [done|].
      destruct (length cs <=? 20)%nat; [apply insertion_by_index_perm|apply sort_permutes]. }
    rewrite Hp in Hall. unfold tried in Hall. revert Hall.
    set (cool := filter _ (available _ _ _ _)). intros Hall. destruct (bool_decide (cool = [])); [done|].
    by apply list_elem_of_filter in Hall as [_ ?]. }
  assert (Em : c_Model c = model).
  { unfold available, filterExpired, FindCandidates in Hav.
    assert (Hin : c ∈ (λ p, {| c_Provider := p; c_Model := model |}) <$>
      filter (λ p, p_Enabled p && has_model model p = true) (GetAllRaw presets pm)).
    { destruct sider_expired; [by apply list_elem_of_filter in Hav as [_ ?]|done]. }
    by apply list_elem_of_fmap in Hin as (p & -> & _). }
  destruct c as [p md]. cbn in *. subst md.
  apply (available_elem presets sider_expired) in Hav as (? & ? & ? & _); done.
Qed.

Lemma candidates_ok r kt n c :
  keyed (n_providers n) →
  c ∈ (candidates_for env presets sider_expired clk kt r n).1 →
  GetRaw presets (p_ID (c_Provider c)) (n_providers n) = Some (c_Provider c) ∧
  p_Enabled (c_Provider c) = true ∧ has_model (q_model r) (c_Provider c) = true ∧
  allowed (n_shared n) kt (c_Provider c).
Proof using sort_permutes.
  intros Hk Hc. unfold candidates_for in Hc.
  pose proof (ordered_ok (n_shared n) kt (c_start clk) (q_model r) (n_mode n) (n_providers n) (n_breaker n) c Hk) as Ho.
  destruct (OrderedCandidates _ _ _ _ _ _ _ _) as [all b]. cbn in Ho, Hc. apply Ho.
  destruct (_ && _); [|done]. unfold filterLocalOnly in Hc. by apply list_elem_of_filter in Hc as [_ ?].
Qed.

(** ** The stages touch one component each *)

Lemma set_public_id n : set_public n (n_public n) = n. Proof. by destruct n. Qed.
Lemma set_guest_id n : set_guest n (n_guest n) = n. Proof. by destruct n. Qed.
Lemma set_pools_id n : set_pools n (n_pools n) = n. Proof. by destruct n. Qed.

Lemma reserve_public_sets kt r n :
  ∃ q, (reserve_public (loc := loc) clk kt r n).2 = set_public n q.
Proof.
  unfold reserve_public. destruct (n_public n) as [q|] eqn:E.
  - destruct (_ && _).
    + destruct (ReserveQuota _ _ _ _ _) as [[[ok ?] ?] q']. by eexists.
    + exists (n_public n). by rewrite set_public_id.
  - exists (n_public n). by rewrite set_public_id.
Qed.

Lemma reserve_guest_sets kt r n : ∃ t, (reserve_guest clk kt r n).2 = set_guest n t.
Proof.
  assert (Hid : ∃ t, n = set_guest n t) by (exists (n_guest n); by rewrite set_guest_id).
  unfold reserve_guest. destruct (n_guest n) as [t|]; [|done]. destruct (n_keys n) as [ks|]; [|done].
  cbv zeta. destruct (if bool_decide _ then _ else _) as [rec|]; [|done].
  destruct (CheckAndReserveFull _ _ _ _ _ _ _ _) as [[ok ?] t']. by eexists.
Qed.

Lemma reserve_guest_public kt r n q :
  (reserve_guest clk kt r (set_public n q)).1 = (reserve_guest clk kt r n).1 ∧
  n_guest (reserve_guest clk kt r (set_public n q)).2 = n_guest (reserve_guest clk kt r n).2.
Proof.
  unfold reserve_guest. cbn [n_guest n_keys set_public]. destruct (n_guest n) as [t|] eqn:E; [|done].
  destruct (n_keys n) as [ks|]; [|done]. cbv zeta.
  destruct (if bool_decide _ then _ else _) as [rec|]; [|done].
  by destruct (CheckAndReserveFull _ _ _ _ _ _ _ _) as [[ok ?] t'].
Qed.

Lemma draw_pool_sets kt r n : ∃ s, (draw_pool clk kt r n).2 = set_pools n s.
Proof.
  assert (Hid : ∃ s, n = set_pools n s) by (exists (n_pools n); by rewrite set_pools_id).
  unfold draw_pool. destruct (n_pools n) as [s|]; [|done]. destruct (_ && _); [|done].
  destruct (Resolve _ _ _ _ _) as [res s']. by eexists.
Qed.

Lemma draw_pool_others kt r n q t :
  n_pools (draw_pool clk kt r (set_guest (set_public n q) t)).2 = n_pools (draw_pool clk kt r n).2.
Proof.
  unfold draw_pool. cbn [n_pools n_id set_guest set_public]. destruct (n_pools n) as [s|] eqn:E; [|done].
  destruct (_ && _); [|done]. by destruct (Resolve _ _ _ _ _) as [res s'].
Qed.

Definition public_after (r : ChatRequest) (e : option Z) (v : verdict) (q : option PublicKeyQuota)
    : option PublicKeyQuota :=
  match e, q with
  | Some e, Some q => Some (AdjustQuota (loc := loc) (c_end clk) (q_client r) (q_model r) e (settled_at e v) q)
  | _, _ => q
  end.
Definition guest_after (kt : string) (r : ChatRequest) (e : option Z) (v : verdict)
    (t : option guestKeyUsageTracker) : option guestKeyUsageTracker :=
  match e, t with
  | Some e, Some t => Some (GuestKeys.Adjust (c_end clk) (guest_key_of kt r) e (settled_at e v) t)
  | _, _ => t
  end.

Lemma settle_public_eq r e v n :
  settle_public (loc := loc) clk r e v n = set_public n (public_after r e v (n_public n)).
Proof.
  unfold settle_public, public_after.
  destruct e; [|by rewrite set_public_id]. destruct (n_public n) eqn:E; [done|]. by rewrite <- E, set_public_id.
Qed.
Lemma settle_guest_eq kt r e v n :
  settle_guest clk kt r e v n = set_guest n (guest_after kt r e v (n_guest n)).
Proof.
  unfold settle_guest, guest_after.
  destruct e; [|by rewrite set_guest_id]. destruct (n_guest n) eqn:E; [done|]. by rewrite <- E, set_guest_id.
Qed.

(** ** The whole handler *)

Definition refused v : Prop := match v with Failed _ => True | _ => False end.

(** The outcome of a request, and what it leaves of each component. *)
Record handled (r : ChatRequest) (kt : string) (n n' : chat_node) (a : answer) (v : verdict) : Prop := {
  h_status : status a = 200 ↔ ¬ refused v;
  h_public : n_public n' =
    let '(pub, n1) := reserve_public (loc := loc) clk kt r n in
    match pub with None => n_public n1 | Some e => public_after r e v (n_public n1) end;
  h_public_refused : (reserve_public (loc := loc) clk kt r n).1 = None → refused v;
  h_guest : n_guest n' =
    match (reserve_public (loc := loc) clk kt r n).1 with
    | None => n_guest n
    | Some _ =>
        let '(gk, n2) := reserve_guest clk kt r n in
        match gk with None => n_guest n2 | Some e => guest_after kt r e v (n_guest n2) end
    end;
  h_guest_refused :
    (reserve_public (loc := loc) clk kt r n).1 ≠ None → (reserve_guest clk kt r n).1 = None → refused v;
  h_pools : n_pools n' =
    match (reserve_public (loc := loc) clk kt r n).1, (reserve_guest clk kt r n).1 with
    | Some _, Some _ => n_pools (draw_pool clk kt r n).2
    | _, _ => n_pools n
    end;
  h_handoff : handoff a = None ∨ handoff a = (λ e, settled_at e v) <$> q_handoff r;
  h_reported : status a = 200 ∨ status a = 502 → q_charged r = true → kt = "public" → is_Some (n_public n) →
    handoff a = (λ e, settled_at e v) <$> q_handoff r;
  h_log : ∃ added, n_log n' = n_log n ++ added ∧ Forall (authorised r kt n) added ∧
    match v with
    | Served (Some k) => q_stream r = false ∧ ∃ id pr co, LogCall id pr co true ∈ added ∧ k = pr +! co ∧ ∃ i p, serve i p = UpOk pr co
    | Served None | Partial => q_stream r = true
    | Failed _ => True
    end }.

Lemma handle_spec r n :
  keyed (n_providers n) → q_messages r ≠ 0%nat → has_prefix "coze-" (q_model r) = false →
  let kt := RequestKeyType (c_start clk) (n_shared n) (n_keys n) (q_cred r) in
  let '(a, n') := handleChatCompletions env presets sider_expired serve clk coze r n in
  ∃ v, handled r kt n n' a v.
Proof using sort_permutes.
  intros Hk Hm Hc kt. unfold handleChatCompletions.
  rewrite (proj2 (Nat.eqb_neq _ _) Hm), Hc. fold kt.
  destruct (reserve_public_sets kt r n) as [q1 E1].
  pose proof (reserve_guest_public kt r n q1) as [G1 G2].
  destruct (reserve_public clk kt r n) as [pub n1] eqn:Ep. cbn in E1.
  assert (Hq1 : n_public n1 = q1) by (by rewrite E1). subst n1.
  destruct pub as [pub|].
  2:{ exists (Failed None). split; rewrite ?Ep; cbn; try done; [by left|by intros [?|?]|].
      exists []. by rewrite app_nil_r. }
  destruct (reserve_guest_sets kt r (set_public n q1)) as [t2 E2].
  destruct (reserve_guest clk kt r (set_public n q1)) as [gk n2] eqn:Eg. cbn in E2, G1, G2. subst n2.
  cbn in G2. destruct (reserve_guest clk kt r n) as [gk' n2'] eqn:Eg'. cbn in G1, G2. subst gk' t2.
  destruct gk as [gk|].
  2:{ exists (Failed None). rewrite settle_public_eq. split; rewrite ?Ep, ?Eg'; cbn; try done; [by left|by intros [?|?]|].
      exists []. by rewrite app_nil_r. }
  destruct (draw_pool_sets kt r (set_guest (set_public n q1) (n_guest n2'))) as [s3 E3].
  pose proof (draw_pool_others kt r n q1 (n_guest n2')) as Hd.
  destruct (draw_pool clk kt r (set_guest _ _)) as [drawn n3]. cbn in E3, Hd. subst n3. cbn in Hd.
  assert (Hrefuse : ∀ st n4, st ≠ 200 → st ≠ 502 → n_guest n4 = n_guest n2' → n_public n4 = q1 → n_log n4 = n_log n →
    n_pools n4 = s3 → ∃ v, handled r kt n (settle_public clk r pub (Failed None) (settle_guest clk kt r gk (Failed None) n4))
           (refuse st) v).
  { intros st n4 Hst Hst' H1 H2 H3 H4. exists (Failed None). rewrite settle_public_eq, settle_guest_eq.
    split; rewrite ?Ep, ?Eg'; cbn; rewrite ?H1, ?H2, ?H3, ?H4; try done; [by left|by intros [?|?]|].
    exists []. by rewrite app_nil_r. }
  destruct drawn; cbn [negb].
  2:{ by apply Hrefuse. }
  set (m3 := set_pools (set_guest (set_public n q1) (n_guest n2')) s3).
  assert (Hcs : ∀ c, c ∈ (candidates_for env presets sider_expired clk kt r m3).1 →
            authorised r kt n (LogCall (p_ID (c_Provider c)) 0 0 true)).
  { intros c Hcc. apply candidates_ok in Hcc as (? & ? & ? & ?); [|exact Hk]. by eexists. }
  destruct (candidates_for env presets sider_expired clk kt r m3) as [cs b]. cbn in Hcs.
  destruct (bool_decide (cs = [])); [by apply Hrefuse|].
  pose proof (try_spec (q_stream r) (q_consumer r) 0 cs None b (n_rr m3) (n_log m3)) as Ht.
  destruct (try_providers _ _ _ _ _ _ _ _ _ _) as [v [[b' rr'] l']].
  destruct Ht as (added & Hl & Hall & Hv). exists v. rewrite settle_public_eq, settle_guest_eq.
  split; rewrite ?Ep, ?Eg'; cbn; try done.
  - destruct v as [| |[msg|]]; cbn; [|..|destruct (isRateLimitError msg)|]; naive_solver.
  - destruct (_ && _)%bool; [by right|by left].
  - intros _ Hch Hpub Hn. rewrite Hch, Hpub, bool_decide_eq_true_2 by done. cbn [andb].
    rewrite bool_decide_eq_true_2; [done|]. unfold reserve_public in Ep. rewrite Hch, andb_false_r in Ep.
    destruct (n_public n) as [q|] eqn:Eq; [|by destruct Hn]. injection Ep as _ E. rewrite <- E in Hq1. by rewrite <- Hq1.
  - exists added. split; [exact Hl|]. split; [|exact Hv]. eapply Forall_impl; [exact Hall|].
    intros [id pr co ok|]; [|done]. intros (c & Hcin & <-). exact (Hcs c Hcin).
Qed.
(** ** Metering *)

(** The tokens of a key in a window, at a time. *)
Definition used_at (w : window) (now : Time) (key : string) (t : guestKeyUsageTracker) : Z :=
  zget (journal w (ensureJournals now t)) key.

Lemma used_at_same w t1 t2 key t : stamp_at w t1 = stamp_at w t2 → used_at w t1 key t = used_at w t2 key t.
Proof. unfold used_at. by destruct w; cbn; intros ->. Qed.

Lemma used_at_current w now key t : stamp w t = stamp_at w now → used_at w now key t = zget (journal w t) key.
Proof. intros Hs. unfold used_at. by destruct (ensure_journal w now t Hs) as [-> _]. Qed.

(** A reservation followed by its settlement in the same window. *)
Lemma reserve_adjust w t1 t2 key (d h pr rpm est a : Z) t :
  stamp_at w t1 = stamp_at w t2 → 0 ≤ used_at w t1 key t < 2 ^ 61 → 0 < est < 2 ^ 61 → 0 ≤ a < 2 ^ 61 →
  0 < limit w d h →
  let '(ok, _, t') := CheckAndReserveFull t1 key d h pr rpm est t in
  used_at w t2 key (if ok then GuestKeys.Adjust t2 key est a t' else t') =
  used_at w t1 key t + (if ok then a else 0).
Proof.
  intros Hw Hu Hest Ha Hlim. pose proof (reserve_window w t1 key d h pr rpm est t) as Hr. cbn zeta in Hr.
  destruct (CheckAndReserveFull t1 key d h pr rpm est t) as [[ok rem] t']. destruct Hr as (H1 & _ & H3).
  assert (Hs : stamp w t' = stamp_at w t2) by (rewrite H1, <- Hw; by destruct w).
  unfold used_at in *. destruct ok.
  - destruct (adjust_window w t2 key est a t') as [Hj Hst].
    assert (Hle : (est <=? 0) && (a <=? 0) = false) by (destruct (Z.leb_spec est 0); [lia|done]).
    rewrite Hle in Hj, Hst. destruct (ensure_journal w t2 t' Hs) as [Ej Es].
    rewrite Es in Hst. destruct (ensure_journal w t2 _ Hst) as [-> _]. rewrite Hj, Ej, zget_shift_floor.
    rewrite decide_True by done. rewrite H3. cbn [andb].
    rewrite (proj2 (Z.ltb_lt 0 (limit w d h)) Hlim), (proj2 (Z.ltb_lt 0 est)) by lia. cbn [andb].
    rewrite zget_zincr, decide_True by done. rewrite wrap64_add_r, wrap64_add_l, wrap64_id
      by (unfold is_int64; lia). lia.
  - destruct (ensure_journal w t2 t' Hs) as [-> _]. rewrite H3. cbn [andb]. lia.
Qed.

Lemma estimate_pos r : 0 < estimate r.
Proof. unfold estimate. destruct (q_max_tokens r) as [m|]; [destruct (Z.ltb_spec 0 m)|]; lia. Qed.

(** What an outcome is charged at. *)
Definition sensible : Prop :=
  ∀ i p pr co, serve i p = UpOk pr co → 0 ≤ pr < 2 ^ 59 ∧ 0 ≤ co < 2 ^ 59.

Lemma settled_range e r kt n n' a v :
  sensible → 0 < e < 2 ^ 60 → handled r kt n n' a v → 0 ≤ settled_at e v < 2 ^ 60.
Proof.
  intros Hs He Hh. destruct (h_log _ _ _ _ _ _ Hh) as (added & _ & _ & Hv).
  destruct v as [[k|]| |]; cbn; try lia. destruct Hv as (_ & id & pr & co & _ & -> & i & p & Hsv).
  destruct (Hs i p pr co Hsv). rewrite wrap64_id by (unfold is_int64; lia). lia.
Qed.

Lemma guest_metered r kt n n' a v t ks rec :
  handled r kt n n' a v → sensible → estimate r < 2 ^ 60 →
  n_guest n = Some t → n_keys n = Some ks → guest_key_of kt r ≠ "" →
  GuestKeys.GetGuestKeyRecord (guest_key_of kt r) ks = Some rec →
  (∀ w, stamp_at w (c_start clk) = stamp_at w (c_end clk)) →
  (∀ w, 0 ≤ used_at w (c_start clk) (guest_key_of kt r) t < 2 ^ 61) →
  ∃ t', n_guest n' = Some t' ∧
    ∀ w, 0 < limit w (GuestKeys.Quota rec) (GuestKeys.QuotaHourly rec) →
      used_at w (c_end clk) (guest_key_of kt r) t' =
      used_at w (c_start clk) (guest_key_of kt r) t + settled_at (estimate r) v.
Proof.
  intros Hh Hsens He Ht Hks Hkey Hrec Hw Hu.
  pose proof (estimate_pos r) as Hpos. pose proof (settled_range (estimate r) r kt n n' a v Hsens (conj Hpos He) Hh) as Hset.
  pose proof (h_guest _ _ _ _ _ _ Hh) as Hg. pose proof (h_public_refused _ _ _ _ _ _ Hh) as Hpr.
  pose proof (h_guest_refused _ _ _ _ _ _ Hh) as Hgr.
  assert (Hzero : refused v → settled_at (estimate r) v = 0) by (by destruct v).
  destruct (reserve_public clk kt r n).1 as [pub|].
  2:{ exists t. rewrite Hg. split; [done|]. intros w _. rewrite (Hzero (Hpr eq_refl)), Z.add_0_r.
      symmetry. by apply used_at_same. }
  unfold reserve_guest in Hg, Hgr. rewrite Ht, Hks in Hg, Hgr. cbv zeta in Hg, Hgr.
  rewrite bool_decide_eq_false_2, Hrec in Hg, Hgr by done.
  set (key := guest_key_of kt r) in *.
  pose proof (λ w, reserve_adjust w (c_start clk) (c_end clk) key (GuestKeys.Quota rec)
    (GuestKeys.QuotaHourly rec) (GuestKeys.QuotaPerRequest rec) (GuestKeys.RPM rec) (estimate r)
    (settled_at (estimate r) v) t (Hw w) (Hu w)) as Hra.
  destruct (CheckAndReserveFull _ _ _ _ _ _ _ _) as [[ok rem] t'] eqn:Ec.
  destruct ok; cbn in Hg, Hgr.
  - exists (GuestKeys.Adjust (c_end clk) key (estimate r) (settled_at (estimate r) v) t'). split; [exact Hg|].
    intros w Hlim. apply Hra; [lia|lia|done].
  - exists t'. split; [exact Hg|]. intros w Hlim. rewrite (Hzero (Hgr ltac:(done) eq_refl)).
    apply Hra; [lia|lia|done].
Qed.
Ltac by_cases := lazymatch goal with |- context [if ?d then _ else _] => destruct d; lia end.

(** The public quota: [amount] tokens more on the counters of a request, nothing else. *)
Definition spent (now : Time) (ip model : string) (amount : Z) (q q' : PublicKeyQuota) : Prop :=
  globalUsedToday q' = globalUsedToday q + amount ∧
  (∀ a, ip_daily_used a q' = ip_daily_used a q + (if decide (a = ip ∧ ip ≠ "") then amount else 0)) ∧
  (∀ h, zget (hourlyUsage q') h = zget (hourlyUsage q) h
          + (if decide (h = hour_key (loc := loc) now) then amount else 0)) ∧
  (∀ m, zget (modelUsage q') m = zget (modelUsage q) m
          + (if decide (m = model ∧ model ≠ "") then amount else 0)).

Lemma same_used_spent now ip model q q' : same_used q q' → spent now ip model 0 q q'.
Proof.
  intros (_ & _ & _ & _ & Eg & Eh & Em & Ei). unfold spent. rewrite Eg, Eh, Em.
  split; [lia|]. split_and!; intros; rewrite ?Ei; by_cases.
Qed.

Lemma spent_trans now ip model a b q q1 q2 :
  spent now ip model a q q1 → spent now ip model b q1 q2 → spent now ip model (a + b) q q2.
Proof.
  intros (A1 & A2 & A3 & A4) (B1 & B2 & B3 & B4). unfold spent. rewrite B1, A1.
  split; [lia|]. split_and!; intros x; rewrite ?B2, ?B3, ?B4, ?A2, ?A3, ?A4; by_cases.
Qed.

(** No window of the public quota ends between two readings of the clock. *)
Definition same_windows (t1 t2 : Time) (q : PublicKeyQuota) : Prop :=
  t2 - lastDailyReset q < 24 * hour ∧ day_of_month loc t2 = day_of_month loc (lastDailyReset q) ∧
  t2 - lastHourlyReset q < hour ∧ hour_key (loc := loc) t1 = hour_key (loc := loc) t2.

Lemma reset_idle t1 t2 q : same_windows t1 t2 q → resetIfNeededLocked (loc := loc) t2 q = q.
Proof.
  intros (Hd & He & Hh & _). unfold resetIfNeededLocked.
  rewrite (bool_decide_eq_true_2 _ He), (proj2 (Z.leb_gt _ _) Hd). cbn.
  by rewrite (proj2 (Z.leb_gt _ _) Hh).
Qed.

Lemma four_layers_windows now ip model est q :
  let q1 := (four_layers (loc := loc) now ip model est q).2 in
  lastDailyReset q1 = lastDailyReset q ∧ lastHourlyReset q1 = lastHourlyReset q.
Proof.
  assert (He : ∀ b : bool, let q1 := if b then ensure_tracker now ip q else q in
    lastDailyReset q1 = lastDailyReset q ∧ lastHourlyReset q1 = lastHourlyReset q).
  { intros []; [|done]. unfold ensure_tracker. by destruct (ipUsage q !! ip). }
  specialize (He ((0 <? IPDailyLimit q) && negb (bool_decide (ip = "")))). unfold four_layers.
  repeat case_match; cbn; done.
Qed.

Lemma charge_spent now ip model amount q :
  counters_small (loc := loc) now ip model q → small amount →
  spent now ip model amount q (charge (loc := loc) now ip model amount q).
Proof. intros Hs Ha. exact (charge_spec now ip model amount q Hs Ha). Qed.

(** The counters of a request, far enough from overflow for its estimate. *)
Definition counters_fit (now : Time) (ip model : string) (q : PublicKeyQuota) : Prop :=
  (∀ z, z ∈ [globalUsedToday q; ip_daily_used ip q; zget (hourlyUsage q) (hour_key (loc := loc) now);
             zget (modelUsage q) model; GlobalDailyLimit q] → - 2 ^ 60 < z < 2 ^ 60).

Lemma fit_small now ip model q : counters_fit now ip model q → counters_small (loc := loc) now ip model q.
Proof.
  intros Hf. unfold counters_small, small.
  assert (Hw : ∀ z, - 2 ^ 60 < z < 2 ^ 60 → - 2 ^ 62 < z < 2 ^ 62) by lia.
  split_and!; apply Hw, Hf; set_solver.
Qed.

(** A reservation followed by its settlement, no window ending in between. *)
Lemma public_reserve_adjust t1 t2 ip model est a q :
  let q0 := resetIfNeededLocked (loc := loc) t1 q in
  counters_fit t1 ip model q0 → same_windows t1 t2 q0 → 0 < est < 2 ^ 60 → 0 ≤ a < 2 ^ 60 →
  let '((ok, _, _), q1) := ReserveQuota (loc := loc) t1 ip model est q in
  spent t1 ip model (if ok then a else 0) q0
    (if ok then AdjustQuota (loc := loc) t2 ip model est a q1 else q1).
Proof.
  intros q0 Hf Hw He Ha. unfold ReserveQuota. fold q0.
  assert (Hse : small est) by (unfold small; lia).
  pose proof (four_layers_spec t1 ip model est q0 (fit_small _ _ _ _ Hf) Hse) as Hl.
  pose proof (four_layers_windows t1 ip model est q0) as (W1 & W2).
  destruct (four_layers t1 ip model est q0) as [[[reason rem]|] q1]; cbn in W1, W2.
  { by apply same_used_spent, Hl. }
  destruct Hl as [Hsame _].
  pose proof (charge_spent t1 ip model est q1 (counters_small_same _ _ _ _ _ Hsame (fit_small _ _ _ _ Hf)) Hse) as Hc.
  pose proof (spent_trans _ _ _ _ _ _ _ _ (same_used_spent t1 ip model q0 q1 Hsame) Hc) as Hsp.
  set (q2 := charge t1 ip model est q1) in *.
  assert (Hlim : GlobalDailyLimit q2 = GlobalDailyLimit q0) by exact (proj1 Hsame).
  unfold AdjustQuota. rewrite (wrap64_id (a - est)) by (unfold is_int64; lia).
  destruct (Z.eqb_spec (a - est) 0) as [Hz|Hz].
  { by replace a with (0 + est) by lia. }
  assert (Hw2 : same_windows t1 t2 q2).
  { unfold same_windows. change (lastDailyReset q2) with (lastDailyReset q1).
    change (lastHourlyReset q2) with (lastHourlyReset q1). by rewrite W1, W2. }
  rewrite (reset_idle t1 t2 q2 Hw2).
  assert (Hk : hour_key (loc := loc) t2 = hour_key (loc := loc) t1) by (symmetry; apply Hw).
  assert (Hs2 : counters_small (loc := loc) t2 ip model q2).
  { destruct Hsp as (S1 & S2 & S3 & S4). unfold counters_small, small.
    rewrite Hk, S1, S2, S3, S4, Hlim.
    assert (Hb : ∀ z (P : Prop) (D : Decision P), - 2 ^ 60 < z < 2 ^ 60 →
      - 2 ^ 62 < z + (if decide P then 0 + est else 0) < 2 ^ 62) by (intros; by_cases).
    pose proof (Hf (globalUsedToday q0) ltac:(set_solver)). pose proof (Hf (GlobalDailyLimit q0) ltac:(set_solver)).
    split; [lia|]. split; [apply Hb, Hf; set_solver|]. split; [apply Hb, Hf; set_solver|].
    split; [apply Hb, Hf; set_solver|lia]. }
  pose proof (charge_spent t2 ip model (a - est) q2 Hs2 ltac:(unfold small; lia)) as Hc2.
  unfold spent in Hc2. rewrite Hk in Hc2.
  replace a with (0 + est + (a - est)) at 1 by lia. exact (spent_trans _ _ _ _ _ _ _ _ Hsp Hc2).
Qed.

Lemma public_metered r n n' a v q :
  handled r "public" n n' a v → sensible → estimate r < 2 ^ 60 →
  n_public n = Some q → q_charged r = false →
  let q0 := resetIfNeededLocked (loc := loc) (c_start clk) q in
  counters_fit (c_start clk) (q_client r) (q_model r) q0 → same_windows (c_start clk) (c_end clk) q0 →
  ∃ q', n_public n' = Some q' ∧
    spent (c_start clk) (q_client r) (q_model r) (settled_at (estimate r) v) q0 q'.
Proof.
  intros Hh Hsens He Hq Hc q0 Hf Hw.
  pose proof (estimate_pos r) as Hpos. pose proof (settled_range _ _ _ _ _ _ _ Hsens (conj Hpos He) Hh) as Hset.
  pose proof (h_public _ _ _ _ _ _ Hh) as Hp. pose proof (h_public_refused _ _ _ _ _ _ Hh) as Hr.
  unfold reserve_public in Hp, Hr. rewrite Hq, Hc, bool_decide_eq_true_2 in Hp, Hr by done.
  cbn [andb negb] in Hp, Hr.
  pose proof (public_reserve_adjust (c_start clk) (c_end clk) (q_client r) (q_model r) (estimate r)
    (settled_at (estimate r) v) q Hf Hw ltac:(lia) ltac:(lia)) as Hra. fold q0 in Hra.
  destruct (ReserveQuota _ _ _ _ _) as [[[ok reason] rem] q1]. destruct ok; cbn in Hp, Hr.
  - eexists. split; [exact Hp|]. exact Hra.
  - exists q1. split; [exact Hp|]. specialize (Hr eq_refl). by destruct v.
Qed.
(** What a request cost: nothing unless it was answered, the usage the upstream reported for
    a plain answer, the reservation of [e] for a stream. *)
Definition cost_at (e : Z) r n n' (a : answer) (tokens : Z) : Prop :=
  (status a ≠ 200 → tokens = 0) ∧
  (status a = 200 →
     if q_stream r then tokens = e
     else ∃ added id pr co, n_log n' = n_log n ++ added ∧ LogCall id pr co true ∈ added ∧
            tokens = pr + co).

Definition cost r : chat_node → chat_node → answer → Z → Prop := cost_at (estimate r) r.

Lemma handled_cost e r kt n n' a v :
  sensible → handled r kt n n' a v → cost_at e r n n' a (settled_at e v).
Proof.
  intros Hs Hh. pose proof (h_status _ _ _ _ _ _ Hh) as Hst.
  destruct (h_log _ _ _ _ _ _ Hh) as (added & Hl & _ & Hv). split.
  - intros Ha. destruct v as [| |]; [exfalso; apply Ha, Hst; tauto..|done].
  - intros Ha. apply Hst in Ha. destruct v as [[k|]| |]; [|by rewrite Hv..|by destruct Ha].
    destruct Hv as (-> & id & pr & co & Hin & -> & i & p & Hsv). exists added, id, pr, co.
    split; [done|]. split; [done|]. cbn. destruct (Hs i p pr co Hsv).
    apply wrap64_id. unfold is_int64. lia.
Qed.

End chat_safety.

(** ** Every request *)

Section chat_requests.
Context (env : RouteEnv) `{Encryptor} {loc : Location} (presets : list Provider)
  (sider_expired : bool) (serve : nat → Provider → upstream) (clk : clock) (coze_api_token : string).
Context (sort_permutes : ∀ less cs, merge_blocks env less cs ≡ₚ cs).
Implicit Types (n : chat_node) (r : ChatRequest).

Abbreviation handle := (handleChatCompletions (loc := loc) env presets sider_expired serve clk
  (handleCozeRequest (loc := loc) presets serve clk coze_api_token)).

(** A Coze model: at most one call, of the Coze provider, and nothing metered. *)
Lemma coze_spec r n :
  let n' := (handleCozeRequest (loc := loc) presets serve clk coze_api_token r n).2 in
  (n_log n' = n_log n ∨ ∃ ok, n_log n' = n_log n ++ [LogCall (p_ID (coze_provider presets n)) 0 0 ok]) ∧
  n_public n' = n_public n ∧ n_guest n' = n_guest n ∧ n_pools n' = n_pools n.
Proof.
  unfold handleCozeRequest. pose proof (resolve_key_id clk 0 (coze_provider presets n) (n_rr n)) as Hid.
  destruct (resolve_key _ _ _ _) as [p rr]. cbn in Hid. rewrite <- Hid. clear Hid. cbv zeta.
  destruct (bool_decide (APIKey p = "")); case_match; cbn; split_and!; try done;
    ((by left) || (right; by eexists)).
Qed.

(** An empty request is refused on the spot. *)
Lemma empty_request r n : q_messages r = 0%nat → handle r n = (refuse 400, n).
Proof. unfold handleChatCompletions. by intros ->. Qed.

Lemma coze_request r n :
  q_messages r ≠ 0%nat → has_prefix "coze-" (q_model r) = true →
  handle r n = handleCozeRequest (loc := loc) presets serve clk coze_api_token r n.
Proof. intros Hm Hc. unfold handleChatCompletions. by rewrite (proj2 (Nat.eqb_neq _ _) Hm), Hc. Qed.

(** C28. Which providers a request calls, whatever its outcome. Every upstream call goes to the
    registered provider of that id, which is enabled, offers the model and is open to the key
    type of the request; a key type that is not known calls none but the Sider provider. The
    models named coze-... are the exception: their handler makes at most one call, and it goes
    to the provider coze, enabled or not and whoever asks. *)
Theorem calls_are_authorised r n :
  keyed (n_providers n) →
  let kt := RequestKeyType (c_start clk) (n_shared n) (n_keys n) (q_cred r) in
  ∃ added, n_log (handle r n).2 = n_log n ++ added ∧
    if has_prefix "coze-" (q_model r)
    then added = [] ∨ ∃ ok, added = [LogCall (p_ID (coze_provider presets n)) 0 0 ok]
    else Forall (authorised presets r kt n) added ∧
      (kt = "unknown" → Forall (λ e, match e with LogCall id _ _ _ => id = "sider" | _ => True end) added).
Proof using sort_permutes.
  intros Hk kt. destruct (decide (q_messages r = 0%nat)) as [Hm|Hm].
  { rewrite (empty_request r n Hm). exists []. rewrite app_nil_r. split; [done|].
    case_match; [by left|]. split; [constructor|]. intros _. constructor. }
  destruct (has_prefix "coze-" (q_model r)) eqn:Hc.
  { rewrite (coze_request r n Hm Hc). destruct (coze_spec r n) as [[->|[ok ->]] _].
    - exists []. rewrite app_nil_r. split; [done|by left].
    - eexists. split; [done|]. right. by exists ok. }
  pose proof (handle_spec env presets sider_expired serve clk
    (handleCozeRequest presets serve clk coze_api_token) sort_permutes r n Hk Hm Hc) as Hh. fold kt in Hh.
  destruct (handle r n) as [a n']. destruct Hh as [v Hv].
  destruct (h_log _ _ _ _ _ _ _ _ _ Hv) as (added & Hl & Hall & _). exists added. split; [done|].
  split; [done|]. intros Hkt. eapply Forall_impl; [exact Hall|]. intros [id pr co ok|]; [|done].
  intros (p & Hp & _ & _ & Hal). rewrite Hkt in Hal. destruct Hal as [?|[?|Hal]]; [done..|].
  assert (p_ID p = "sider") as <-.
  { unfold access_ok in Hal. by destruct (bool_decide_reflect (p_ID p = "sider")). }
  unfold GetRaw in Hp. destruct (providers (n_providers n) !! id) as [p'|] eqn:E.
  - injection Hp as ->. symmetry. by apply Hk.
  - apply find_key_Some in Hp as [_ Hp]. done.
Qed.

End chat_requests.



(** A node in shared mode with three presets, of which the first tried is rate limited and the
    second answers with 30 + 12 tokens; a guest key limited to 1000 tokens a day and a public
    quota of 1000. The request carries the public key and names the guest key. *)
Definition chat_clock : clock :=
  {| c_start := ten_fifty; c_call := λ _, ten_fifty; c_end := ten_fifty + 2 * second |}.

Definition chat_record : GuestKeys.GuestKeyRecord := {|
  GuestKeys.Key := GuestKeys.demo_key; GuestKeys.NodeID := "node-7"; GuestKeys.RandomPart := "01abfe";
  GuestKeys.IssuedAt := ""; GuestKeys.Revoked := false; GuestKeys.Quota := 1000;
  GuestKeys.QuotaHourly := 0; GuestKeys.QuotaPerRequest := 0; GuestKeys.RPM := 0; GuestKeys.ExpDays := 0;
  GuestKeys.ExpiresAt := ""; GuestKeys.Note := ""; GuestKeys.ShareType := "" |}.

Definition chat_quota : PublicKeyQuota :=
  set_usage daily_1000 0 ∅ ∅ ∅ ten_fifty ten_fifty.

Definition demo_node : chat_node := {|
  n_id := "node-7"; n_shared := true; n_mode := "priority"; n_public := Some chat_quota;
  n_keys := Some [chat_record]; n_guest := Some GuestKeys.initGuestKeyUsageTracker; n_pools := None;
  n_providers := new_manager; n_breaker := brk_run []; n_rr := 0; n_log := [] |}.

Definition demo_request : ChatRequest := {|
  q_cred := {| internalKeyType := ""; role := ""; bearer := GuestKeys.PublicKeyValue |};
  q_messages := 1; q_model := "m"; q_max_tokens := Some 100; q_stream := false; q_client := "1.2.3.4";
  q_consumer := ""; q_guest_key := GuestKeys.demo_key; q_charged := false; q_handoff := None |}.

Definition demo_serve (i : nat) (p : Provider) : upstream :=
  match i with O => UpErr "HTTP 429" | _ => UpOk 30 12 end.

Definition demo_coze : ChatRequest → chat_node → answer * chat_node :=
  handleCozeRequest (loc := UTC) three_presets demo_serve chat_clock "pat-1".

Definition demo_handle : answer * chat_node :=
  handleChatCompletions (loc := UTC) idle_env three_presets false demo_serve chat_clock
    demo_coze demo_request demo_node.

Lemma idle_permutes less cs : merge_blocks idle_env less cs ≡ₚ cs.
Proof. done. Qed.

Lemma demo_keyed : keyed (n_providers demo_node).
Proof. intros k p. cbn. by rewrite lookup_empty. Qed.

(** A disabled Coze provider is called for a request without any known credentials, and no
    quota is asked. *)
Definition disabled_coze : Provider :=
  with_type {| p_ID := "coze"; p_Name := "Coze"; p_Type := ""; BaseURL := ""; APIKey := "pat-2";
    p_Enabled := false; Models := []; p_Priority := 0; TokenLimit := 0; p_Proxy := ""; Owner := "";
    AccessControl := AccessControl no_provider; APIKeys := []; Settings := zero_settings;
    p_CreatedAt := ""; p_UpdatedAt := "" |} "coze".

Definition coze_request_of_nobody : ChatRequest := {|
  q_cred := {| internalKeyType := ""; role := ""; bearer := "" |};
  q_messages := 1; q_model := "coze-bot"; q_max_tokens := Some 100; q_stream := false; q_client := "1.2.3.4";
  q_consumer := ""; q_guest_key := ""; q_charged := false; q_handoff := None |}.

Example coze_is_open_to_all :
  RequestKeyType (c_start chat_clock) true (Some [chat_record]) (q_cred coze_request_of_nobody) = "unknown" ∧
  let n := {| n_id := "node-7"; n_shared := true; n_mode := "priority"; n_public := Some chat_quota;
    n_keys := Some [chat_record]; n_guest := Some GuestKeys.initGuestKeyUsageTracker; n_pools := None;
    n_providers := set_providers new_manager {["coze" := disabled_coze]};
    n_breaker := brk_run []; n_rr := 0; n_log := [] |} in
  let '(a, n') := handleChatCompletions (loc := UTC) idle_env three_presets false (λ _ _, UpOk 30 12)
    chat_clock (handleCozeRequest (loc := UTC) three_presets (λ _ _, UpOk 30 12) chat_clock "")
    coze_request_of_nobody n in
  status a = 200 ∧ n_log n' = [LogCall "coze" 0 0 true] ∧ n_public n' = n_public n.
Proof. split; vm_compute; [reflexivity|]. split_and!; reflexivity. Qed.

Lemma calls_are_authorised_witness :
  n_log demo_handle.2 = [LogCall "c" 0 0 false; LogCall "a" 30 12 true] ∧
  Forall (authorised three_presets demo_request "public" demo_node) (n_log demo_handle.2).
Proof.
  assert (Hl : n_log demo_handle.2 = [LogCall "c" 0 0 false; LogCall "a" 30 12 true])
    by (vm_compute; reflexivity).
  split; [exact Hl|].
  destruct (calls_are_authorised (loc := UTC) idle_env three_presets false demo_serve
    chat_clock "pat-1" idle_permutes demo_request demo_node demo_keyed) as (added & Ha & Hall & _).
  fold demo_coze in Ha. fold demo_handle in Ha. cbn [n_log demo_node app] in Ha. rewrite Ha.
  replace "public" with (RequestKeyType (c_start chat_clock) (n_shared demo_node) (n_keys demo_node)
    (q_cred demo_request)) by (vm_compute; reflexivity). exact Hall.
Defined.

