(* ===== verification/Users.v ===== *)
(** * Consumers and invitation codes (multiuser.go)

    [MultiUserManager] holds the invitation codes and the consumers registered with
    them; a consumer's API key is found by its hash. The JSON file is a value of
    [users_file]; writing it succeeds. What [randomString] draws is an argument. *)

From S2P Require Import Prelude GoTime Sha256 Providers.

Record InviteCode := {
  i_Code : string; i_CreatedAt : string; UsedBy : string; UsedAt : string; MaxUses : Z;
  UseCount : Z; Role : string }.

Record Consumer := {
  u_ID : string; u_Name : string; u_APIKey : string; u_InviteCode : string; u_CreatedAt : string;
  TotalTokens : Z; TotalRequests : Z; u_Enabled : bool }.

Record MultiUserManager := {
  invites : gmap string InviteCode; consumers : gmap string Consumer;
  apiKeyMap : gmap string string; dirtyCount : Z }.

Record users_file := { f_invites : gmap string InviteCode; f_consumers : gmap string Consumer }.

(** An update of the tables, and of the counter of unsaved usage records. *)
Definition set_tables (m : MultiUserManager) (is_ : gmap string InviteCode)
    (cs : gmap string Consumer) (ks : gmap string string) : MultiUserManager := {|
  invites := is_; consumers := cs; apiKeyMap := ks; dirtyCount := dirtyCount m |}.
Definition set_dirty (m : MultiUserManager) (d : Z) : MultiUserManager := {|
  invites := invites m; consumers := consumers m; apiKeyMap := apiKeyMap m; dirtyCount := d |}.
Definition with_api_key (c : Consumer) (k : string) : Consumer := {|
  u_ID := u_ID c; u_Name := u_Name c; u_APIKey := k; u_InviteCode := u_InviteCode c;
  u_CreatedAt := u_CreatedAt c; TotalTokens := TotalTokens c; TotalRequests := TotalRequests c;
  u_Enabled := u_Enabled c |}.
Definition with_enabled (c : Consumer) (b : bool) : Consumer := {|
  u_ID := u_ID c; u_Name := u_Name c; u_APIKey := u_APIKey c; u_InviteCode := u_InviteCode c;
  u_CreatedAt := u_CreatedAt c; TotalTokens := TotalTokens c; TotalRequests := TotalRequests c;
  u_Enabled := b |}.

Definition hashAPIKey (apiKey : string) : string := sha256_hex apiKey.

(** A code that admits no further use. *)
Definition used_up (inv : InviteCode) : bool :=
  ((0 <? MaxUses inv) && (MaxUses inv <=? UseCount inv))
  || ((MaxUses inv =? 0) && negb (bool_decide (UsedBy inv = ""))).

Definition use_invite (loc : Location) (now : Time) (id : string) (inv : InviteCode) : InviteCode := {|
  i_Code := i_Code inv; i_CreatedAt := i_CreatedAt inv; UsedBy := id; UsedAt := fmt_rfc3339 loc now;
  MaxUses := MaxUses inv; UseCount := UseCount inv +! 1; Role := Role inv |}.

Definition add_usage (tokens : Z) (c : Consumer) : Consumer := {|
  u_ID := u_ID c; u_Name := u_Name c; u_APIKey := u_APIKey c; u_InviteCode := u_InviteCode c;
  u_CreatedAt := u_CreatedAt c; TotalTokens := TotalTokens c +! tokens;
  TotalRequests := TotalRequests c +! 1; u_Enabled := u_Enabled c |}.

Definition initMultiUser : MultiUserManager :=
  {| invites := ∅; consumers := ∅; apiKeyMap := ∅; dirtyCount := 0 |}.

Section users.
Context `{Encryptor} {loc : Location}.
Implicit Types (m : MultiUserManager).

Definition decryptFieldDisplay (s : string) : string :=
  if negb ready || bool_decide (s = "") then s
  else if negb (IsEncrypted s) then s
  else match unseal s with Some d => d | None => "DECRYPT_FAILED:" +:+ s end.

(** The key a stored field stands for. *)
Definition plain_key (k : string) : string := if IsEncrypted k then decryptField k else k.

Definition saveLocked m : users_file := {| f_invites := invites m; f_consumers := consumers m |}.

Definition index_key (ks : gmap string string) (e : string * Consumer) : gmap string string :=
  if bool_decide (u_APIKey e.2 = "") then ks
  else if bool_decide (plain_key (u_APIKey e.2) = "") then ks
  else <[hashAPIKey (plain_key (u_APIKey e.2)) := e.1]> ks.

(** [None]: the file is missing or does not parse. *)
Definition load (file : option users_file) m : MultiUserManager :=
  match file with
  | None => m
  | Some f => set_tables m (f_invites f) (f_consumers f)
                (foldl index_key (apiKeyMap m) (map_to_list (f_consumers f)))
  end.

(** One turn of [batchSaveLoop], its last one included, and [FlushSaves]. *)
Definition FlushSaves m : option users_file * MultiUserManager :=
  if 0 <? dirtyCount m then (Some (saveLocked m), set_dirty m 0) else (None, m).

Definition cleanupExpiredInvitesLocked m : MultiUserManager :=
  set_tables m (filter (λ kv, (0 <? MaxUses kv.2) && (MaxUses kv.2 <=? UseCount kv.2) = false) (invites m))
    (consumers m) (apiKeyMap m).

Definition CreateInviteCode (now : Time) (rand : string) (maxUses : Z) (role : string) m
    : string * (option users_file * MultiUserManager) :=
  let role := if bool_decide (role = "") then "consumer" else role in
  let m := if (100 <=? size (invites m))%nat then cleanupExpiredInvitesLocked m else m in
  if (100 <=? size (invites m))%nat then ("", (None, m))
  else
    let inv := {| i_Code := rand; i_CreatedAt := fmt_rfc3339 loc now; UsedBy := ""; UsedAt := "";
                  MaxUses := maxUses; UseCount := 0; Role := role |} in
    let m := set_tables m (<[rand := inv]> (invites m)) (consumers m) (apiKeyMap m) in
    (rand, (Some (saveLocked m), m)).

Definition ValidateInviteCode (code : string) m : bool :=
  match invites m !! code with Some inv => negb (used_up inv) | None => false end.

Definition UseInviteCode (now : Time) (code consumerID : string) m
    : bool * (option users_file * MultiUserManager) :=
  match invites m !! code with
  | None => (false, (None, m))
  | Some inv =>
      if used_up inv then (false, (None, m))
      else let m := set_tables m (<[code := use_invite loc now consumerID inv]> (invites m))
                      (consumers m) (apiKeyMap m) in
           (true, (Some (saveLocked m), m))
  end.

Definition CreateConsumer (now : Time) (rand_key rand_id name inviteCode : string) m
    : res Consumer * (option users_file * MultiUserManager) :=
  if (500 <=? size (consumers m))%nat then (Err "maximum consumer count (500) reached", (None, m))
  else match invites m !! inviteCode with
  | None => (Err "invalid invite code", (None, m))
  | Some inv =>
      if (0 <? MaxUses inv) && (MaxUses inv <=? UseCount inv)
      then (Err "invite code already fully used", (None, m))
      else if (MaxUses inv =? 0) && negb (bool_decide (UsedBy inv = ""))
      then (Err "invite code already used", (None, m))
      else
        let apiKey := "sk-" +:+ rand_key in
        let id := "consumer-" +:+ rand_id in
        let c := {| u_ID := id; u_Name := name; u_APIKey := encryptField apiKey;
                    u_InviteCode := inviteCode; u_CreatedAt := fmt_rfc3339 loc now;
                    TotalTokens := 0; TotalRequests := 0; u_Enabled := true |} in
        let m := set_tables m (<[inviteCode := use_invite loc now id inv]> (invites m))
                   (<[id := c]> (consumers m)) (<[hashAPIKey apiKey := id]> (apiKeyMap m)) in
        (Ok (with_api_key c apiKey), (Some (saveLocked m), m))
  end.

Definition ValidateAPIKey (apiKey : string) m : option Consumer :=
  match apiKeyMap m !! hashAPIKey apiKey with
  | None => None
  | Some id =>
      match consumers m !! id with
      | Some c => if u_Enabled c then Some c else None
      | None => None
      end
  end.

Definition RecordConsumerUsage (consumerID : string) (tokens : Z) m
    : option users_file * MultiUserManager :=
  match consumers m !! consumerID with
  | None => (None, m)
  | Some c =>
      let m := set_tables m (invites m) (<[consumerID := add_usage tokens c]> (consumers m)) (apiKeyMap m) in
      let count := dirtyCount m +! 1 in
      if 10 <=? count then (Some (saveLocked (set_dirty m 0)), set_dirty m 0)
      else (None, set_dirty m count)
  end.

(** The listings, in the order of the maps, which the source leaves open. *)
Definition ListInviteCodes m : list InviteCode := (map_to_list (invites m)).*2.

Definition display_key (k : string) : string :=
  let d := if IsEncrypted k then decryptFieldDisplay k else k in
  if (8 <? String.length d)%nat
  then String.substring 0 6 d +:+ "..." +:+ String.substring (String.length d - 4) 4 d else "***".
Definition ListConsumers m : list Consumer :=
  (λ kv, with_api_key kv.2 (display_key (u_APIKey kv.2))) <$> map_to_list (consumers m).

Definition GetConsumerFull (id : string) m : option Consumer :=
  c ← consumers m !! id;
  Some (if IsEncrypted (u_APIKey c) then with_api_key c (decryptFieldDisplay (u_APIKey c)) else c).

(** Also removes the providers the consumer owns. *)
Definition DeleteConsumer (id : string) m (pm : ProviderManager)
    : bool * (option users_file * MultiUserManager) * (option (list Provider) * ProviderManager) :=
  match consumers m !! id with
  | None => (false, (None, m), (None, pm))
  | Some c =>
      let m := set_tables m (invites m) (delete id (consumers m))
                 (delete (hashAPIKey (plain_key (u_APIKey c))) (apiKeyMap m)) in
      (true, (Some (saveLocked m), m), (DeleteByOwner id pm).2)
  end.

Definition ToggleConsumer (id : string) (enabled : bool) m : bool * (option users_file * MultiUserManager) :=
  match consumers m !! id with
  | None => (false, (None, m))
  | Some c =>
      let m := set_tables m (invites m) (<[id := with_enabled c enabled]> (consumers m)) (apiKeyMap m) in
      (true, (Some (saveLocked m), m))
  end.

Definition DeleteInviteCode (code : string) m : bool * (option users_file * MultiUserManager) :=
  match invites m !! code with
  | None => (false, (None, m))
  | Some _ => let m := set_tables m (delete code (invites m)) (consumers m) (apiKeyMap m) in
              (true, (Some (saveLocked m), m))
  end.

Definition HasConsumers (m : option MultiUserManager) : bool :=
  match m with None => false | Some m => (0 <? size (consumers m))%nat end.

(** ** The middleware and the handlers

    [header] is the Authorization header, [cookie] the administrator's cookie. *)
Definition extractToken (header : string) (cookie : option string) : string :=
  match strip_prefix "Bearer " header with Some t => t | None => default "" cookie end.

(** [verify] checks an administrator's token. The result is the owner and the role the
    request goes on with, [None] for 401. *)
Definition withConsumerOrAdminAuth (verify : string → bool) (header : string) (cookie : option string) m
    : option (string * string) :=
  let token := extractToken header cookie in
  if negb (bool_decide (token = "")) && verify token then Some ("", "admin")
  else match strip_prefix "Bearer " header with
  | Some apiKey =>
      match ValidateAPIKey apiKey m with Some c => Some (u_ID c, "consumer") | None => None end
  | None => None
  end.

(** A handler answers with a status; [None] for a body that does not parse. *)
Definition reply : Type := Z * (option users_file * MultiUserManager).

Definition handleCreateInviteCode (now : Time) (rand role : string) (body : option (Z * string)) m
    : reply * string :=
  if negb (bool_decide (role = "admin")) then ((403, (None, m)), "")
  else match body with
  | None => ((400, (None, m)), "")
  | Some (maxUses, r) =>
      let maxUses := if maxUses <? 0 then 0 else maxUses in
      if negb (bool_decide (r = "")) && negb (bool_decide (r = "consumer")) && negb (bool_decide (r = "collaborator"))
      then ((400, (None, m)), "")
      else let '(code, st) := CreateInviteCode now rand maxUses r m in ((200, st), code)
  end.

Definition handleDeleteInviteCode (role code : string) m : reply :=
  if negb (bool_decide (role = "admin")) then (403, (None, m))
  else let '(ok, st) := DeleteInviteCode code m in (if ok then 200 else 404, st).

(** With the consumer returned, for [handleCreateConsumer] and the public registration. *)
Definition create_checked (now : Time) (rand_key rand_id : string) (checked : bool)
    (body : option (string * string)) m : reply * option Consumer :=
  match body with
  | None => ((400, (None, m)), None)
  | Some (name, code) =>
      if bool_decide (name = "") || bool_decide (code = "") then ((400, (None, m)), None)
      else if checked && negb (ValidateInviteCode code m) then ((400, (None, m)), None)
      else match CreateConsumer now rand_key rand_id name code m with
      | (Ok c, st) => ((200, st), Some c)
      | (Err _, st) => ((400, st), None)
      end
  end.

Definition handleCreateConsumer (now : Time) (rand_key rand_id role : string)
    (body : option (string * string)) m : reply * option Consumer :=
  if negb (bool_decide (role = "admin")) then ((403, (None, m)), None)
  else create_checked now rand_key rand_id false body m.

Definition handleConsumerRegister (now : Time) (rand_key rand_id : string)
    (body : option (string * string)) m : reply * option Consumer :=
  create_checked now rand_key rand_id true body m.

Definition handleDeleteConsumer (role id : string) m (pm : ProviderManager)
    : reply * (option (list Provider) * ProviderManager) :=
  if negb (bool_decide (role = "admin")) then ((403, (None, m)), (None, pm))
  else let '(ok, st, ps) := DeleteConsumer id m pm in ((if ok then 200 else 404, st), ps).

Definition handleToggleConsumer (role id : string) (body : option bool) m : reply :=
  if negb (bool_decide (role = "admin")) then (403, (None, m))
  else match body with
  | None => (400, (None, m))
  | Some enabled => let '(ok, st) := ToggleConsumer id enabled m in (if ok then 200 else 404, st)
  end.

Definition handleUpdateConsumer (role id : string) (body : option bool) m : reply :=
  if negb (bool_decide (role = "admin")) then (403, (None, m))
  else match body with
  | None => (400, (None, m))
  | Some disabled => let '(ok, st) := ToggleConsumer id (negb disabled) m in (if ok then 200 else 404, st)
  end.
End users.
