(* ===== verification/UsersSafety.v ===== *)
(** * What the registration of consumers guarantees (multiuser.go)

    Histories of the operations of [Users], process restarts included: who
    authenticates, how often an invitation code admits, and what a crash loses. *)

From S2P Require Import Prelude GoTime Sha256 Providers Registry Users.

Inductive user_op :=
  | OInvite (now : Time) (rand : string) (maxUses : Z) (role : string)
  | OUse (now : Time) (code id : string)
  | OCreate (now : Time) (rand_key rand_id name code : string)
  | ORecord (id : string) (tokens : Z)
  | ODelete (id : string)
  | OToggle (id : string) (enabled : bool)
  | ODropInvite (code : string)
  | OFlush
  | ORestart.   (* a crash and a new process *)

Section users_safety.
Context `{Encryptor} {loc : Location}.
Context (seal_law : ∀ s c, seal s = Some c → IsEncrypted c = true ∧ unseal c = Some s).
Implicit Types (m : MultiUserManager) (cs : gmap string Consumer).

(** The manager, its file and the registry of providers. *)
Record world := { mem : MultiUserManager; disk : option users_file; provs : ProviderManager }.

Definition written (w : world) (st : option users_file * MultiUserManager) : world := {|
  mem := st.2; disk := match st.1 with Some f => Some f | None => disk w end; provs := provs w |}.

Definition user_exec (w : world) (o : user_op) : world :=
  let m := mem w in
  match o with
  | OInvite now rand maxUses role => written w (CreateInviteCode (loc := loc) now rand maxUses role m).2
  | OUse now code id => written w (UseInviteCode (loc := loc) now code id m).2
  | OCreate now rk rid name code => written w (CreateConsumer (loc := loc) now rk rid name code m).2
  | ORecord id tokens => written w (RecordConsumerUsage id tokens m)
  | ODelete id => let '(_, st, ps) := DeleteConsumer id m (provs w) in
                  {| mem := st.2; disk := disk (written w st); provs := ps.2 |}
  | OToggle id b => written w (ToggleConsumer id b m).2
  | ODropInvite code => written w (DeleteInviteCode code m).2
  | OFlush => written w (FlushSaves m)
  | ORestart => {| mem := load (disk w) initMultiUser; disk := disk w; provs := provs w |}
  end.

Definition user_run (h : list user_op) (w : world) : world := foldl user_exec w h.

(** What is drawn is new: the id is not taken and the key's hash is not known. *)
Definition drawn_new (o : user_op) m : Prop :=
  match o with
  | OCreate _ rk rid _ _ => consumers m !! ("consumer-" +:+ rid) = None ∧
                            apiKeyMap m !! hashAPIKey ("sk-" +:+ rk) = None
  | OInvite _ _ maxUses _ => is_int64 maxUses
  | _ => True
  end.
Fixpoint draws_new (h : list user_op) (w : world) : Prop :=
  match h with
  | [] => True
  | o :: h => drawn_new o (mem w) ∧ draws_new h (user_exec w o)
  end.

(** ** The invariant *)

Definition key_hash (c : Consumer) : string := hashAPIKey (plain_key (u_APIKey c)).

Definition apply_usage cs (u : string * Z) : gmap string Consumer := alter (add_usage u.2) u.1 cs.

Definition on_disk (w : world) : users_file :=
  default {| f_invites := ∅; f_consumers := ∅ |} (disk w).

Record tables_ok m : Prop := {
  ok_ids : ∀ id c, consumers m !! id = Some c → u_ID c = id ∧ u_APIKey c ≠ "" ∧ plain_key (u_APIKey c) ≠ "";
  ok_keys : ∀ h id, apiKeyMap m !! h = Some id ↔ ∃ c, consumers m !! id = Some c ∧ key_hash c = h;
  ok_codes : ∀ code inv, invites m !! code = Some inv → is_int64 (MaxUses inv) ∧ is_int64 (UseCount inv);
  ok_size : (size (invites m) ≤ 100)%nat;
  ok_dirty : 0 ≤ dirtyCount m ≤ 9 }.

Record users_ok (w : world) : Prop := {
  ok_tables : tables_ok (mem w);
  ok_invites : f_invites (on_disk w) = invites (mem w);
  ok_usage : ∃ us, Z.of_nat (length us) ≤ dirtyCount (mem w) ∧
               consumers (mem w) = foldl apply_usage (f_consumers (on_disk w)) us }.

Lemma plain_encrypt s : s ≠ "" → IsEncrypted s = false → plain_key (encryptField s) = s.
Proof using seal_law.
  intros Hne Hs. pose proof (decrypt_encrypt seal_law s Hs) as Hd.
  unfold decrypt_if, encrypt_if in Hd. rewrite Hs, (bool_decide_eq_false_2 (s = "")) in Hd by done. cbn [negb andb] in Hd.
  unfold plain_key. destruct (bool_decide_reflect (encryptField s = "")) as [E|]; cbn [negb andb] in Hd.
  - rewrite E in Hd |- *. exact Hd.
  - exact Hd.
Qed.

Lemma sk_plain r : "sk-" +:+ r ≠ "" ∧ IsEncrypted ("sk-" +:+ r) = false.
Proof. done. Qed.

Lemma encrypt_nonempty s : s ≠ "" → IsEncrypted s = false → encryptField s ≠ "".
Proof using seal_law. intros Hne Hs E. pose proof (plain_encrypt s Hne Hs) as Hp. rewrite E in Hp. done. Qed.

Lemma written_ok w m :
  tables_ok m → users_ok (written w (Some (saveLocked m), m)).
Proof. intros Hm. split; [done..|]. exists []. cbn. pose proof (ok_dirty _ Hm). split; [lia|done]. Qed.

Lemma unchanged w : written w (None, mem w) = w.
Proof. by destruct w. Qed.

(** Changing a consumer without touching its id or key. *)
Lemma alter_ok m id c c' d :
  tables_ok m → consumers m !! id = Some c → u_ID c' = u_ID c → u_APIKey c' = u_APIKey c → 0 ≤ d ≤ 9 →
  tables_ok (set_dirty (set_tables m (invites m) (<[id := c']> (consumers m)) (apiKeyMap m)) d).
Proof.
  intros Hm Hc Hid Hk Hd. split; cbn; try apply Hm; [| |done].
  - intros i x Hx. apply lookup_insert_Some in Hx as [[<- <-]|[_ Hx]].
    + rewrite Hid, Hk. by apply (ok_ids _ Hm).
    + by apply (ok_ids _ Hm).
  - intros h i. rewrite (ok_keys _ Hm). split; intros (x & Hx & Hh).
    + destruct (decide (i = id)) as [->|Hne].
      * exists c'. rewrite lookup_insert_eq. split; [done|]. unfold key_hash in *. rewrite Hk. congruence.
      * exists x. by rewrite lookup_insert_ne.
    + apply lookup_insert_Some in Hx as [[-> ->]|[_ Hx]]; [|by exists x].
      exists c. split; [done|]. unfold key_hash in *. by rewrite <- Hk.
Qed.

Lemma codes_ok m is_ :
  tables_ok m → (∀ code inv, is_ !! code = Some inv → is_int64 (MaxUses inv) ∧ is_int64 (UseCount inv)) →
  (size is_ ≤ 100)%nat → tables_ok (set_tables m is_ (consumers m) (apiKeyMap m)).
Proof. intros Hm Hc Hs. split; cbn; try apply Hm; done. Qed.

Lemma use_codes m now id code inv :
  tables_ok m → invites m !! code = Some inv →
  (∀ code' inv', <[code := use_invite loc now id inv]> (invites m) !! code' = Some inv' →
     is_int64 (MaxUses inv') ∧ is_int64 (UseCount inv')) ∧
  (size (<[code := use_invite loc now id inv]> (invites m)) ≤ 100)%nat.
Proof.
  intros Hm Hc. split.
  - intros code' inv' [[<- <-]|[_ Hx]]%lookup_insert_Some; [|by apply (ok_codes _ Hm code')].
    cbn. split; [by apply (ok_codes _ Hm code)|apply wrap64_range].
  - rewrite map_size_insert_Some by done. apply Hm.
Qed.

Lemma cleanup_full m :
  (size (invites m) ≤ 100)%nat → (100 ≤ size (invites (cleanupExpiredInvitesLocked m)))%nat →
  cleanupExpiredInvitesLocked m = m.
Proof.
  intros Hs Hf. unfold cleanupExpiredInvitesLocked in *. cbn in Hf. unfold set_tables.
  erewrite (map_subseteq_size_eq _ (invites m) (map_filter_subseteq _ _)); [by destruct m|]. etrans; [exact Hs|exact Hf].
Qed.

(** The index built from the file. *)
Lemma index_spec h id l ks :
  (∀ e, e ∈ l → u_APIKey e.2 ≠ "" ∧ plain_key (u_APIKey e.2) ≠ "") → NoDup ((λ e, key_hash e.2) <$> l) →
  foldl index_key ks l !! h = Some id ↔
  (∃ c, (id, c) ∈ l ∧ key_hash c = h) ∨ ((∀ e, e ∈ l → key_hash e.2 ≠ h) ∧ ks !! h = Some id).
Proof.
  revert ks. induction l as [|[i c] l IH]; intros ks Hne Hnd; cbn [foldl].
  { split; [intros; right; split; [by intros e ?%not_elem_of_nil|done]|].
    intros [(c & ?%not_elem_of_nil & _)|[_ ?]]; done. }
  apply NoDup_cons in Hnd as [Hni Hnd]. destruct (Hne (i, c) ltac:(left)) as [H1 H2].
  rewrite IH by (first [done|intros; apply Hne; by right]). unfold index_key. cbn [snd fst] in *.
  rewrite !bool_decide_eq_false_2 by done. fold (key_hash c). rewrite lookup_insert_Some.
  assert (Hother : ∀ e, e ∈ l → key_hash e.2 ≠ key_hash c).
  { intros e He E. apply Hni. rewrite <- E. apply list_elem_of_fmap. by exists e. }
  split.
  - intros [(c0 & Hin & Hh)|(Hn & [[<- <-]|[Hne' Hk]])].
    + left. exists c0. by split; [right|].
    + left. exists c. by split; [left|].
    + right. split; [|done]. intros e [->|He]%elem_of_cons; [done|by apply Hn].
  - intros [(c0 & [[= -> ->]|Hin]%elem_of_cons & Hh)|(Hn & Hk)].
    + right. subst h. split; [done|]. by left.
    + left. by exists c0.
    + right. split; [intros e He; apply Hn; by right|]. right. split; [|done]. apply (Hn (i, c)). by left.
Qed.

Lemma usage_lookup us cs id :
  ∃ f : Consumer → Consumer, foldl apply_usage cs us !! id = f <$> cs !! id ∧
    ∀ c, u_ID (f c) = u_ID c ∧ u_APIKey (f c) = u_APIKey c ∧ u_Enabled (f c) = u_Enabled c.
Proof.
  revert cs. induction us as [|[i n] us IH]; intros cs; cbn [foldl].
  { exists (λ c, c). by destruct (cs !! id). }
  destruct (IH (apply_usage cs (i, n))) as (f & -> & Hf). unfold apply_usage. cbn.
  destruct (decide (i = id)) as [->|Hne].
  - exists (λ c, f (add_usage n c)). rewrite lookup_alter_eq, <- option_fmap_compose. split; [done|].
    intros c. by destruct (Hf (add_usage n c)) as (-> & -> & ->).
  - exists f. by rewrite lookup_alter_ne.
Qed.

(** A new process finds the tables as they were, apart from the usage. *)
Lemma restart_ok w : users_ok w → users_ok (user_exec w ORestart).
Proof.
  intros Hw. pose proof (ok_tables _ Hw) as Hm. destruct (ok_usage _ Hw) as (us & _ & Hus).
  pose proof (ok_invites _ Hw) as Hi. set (f := on_disk w) in *.
  set (m' := set_tables initMultiUser (f_invites f) (f_consumers f)
               (foldl index_key ∅ (map_to_list (f_consumers f)))).
  assert (Hload : user_exec w ORestart = {| mem := m'; disk := disk w; provs := provs w |}).
  { cbn. unfold load, m', f, on_disk. by destruct (disk w). }
  assert (Hback : ∀ id c, f_consumers f !! id = Some c → ∃ c', consumers (mem w) !! id = Some c' ∧
            u_ID c' = u_ID c ∧ u_APIKey c' = u_APIKey c).
  { intros id c Hc. rewrite Hus. destruct (usage_lookup us (f_consumers f) id) as (g & Eg & Hg).
    exists (g c). rewrite Eg, Hc. destruct (Hg c) as (? & ? & _). done. }
  assert (Hids : ∀ id c, f_consumers f !! id = Some c →
            u_ID c = id ∧ u_APIKey c ≠ "" ∧ plain_key (u_APIKey c) ≠ "").
  { intros id c Hc. destruct (Hback id c Hc) as (c' & Hc' & <- & <-). by apply (ok_ids _ Hm). }
  rewrite Hload. split; cbn [mem disk provs].
  - split; cbn.
    + exact Hids.
    + intros h id. rewrite index_spec.
      * rewrite lookup_empty. split.
        -- intros [(c & Hin & Hh)|[_ ?]]; [|done]. exists c. by apply elem_of_map_to_list in Hin.
        -- intros (c & Hc & Hh). left. exists c. by rewrite elem_of_map_to_list.
      * intros [i c] Hin%elem_of_map_to_list. by apply (Hids i).
      * apply NoDup_fmap_2_strong; [|apply NoDup_map_to_list].
        intros [i x] [j y] Hx%elem_of_map_to_list Hy%elem_of_map_to_list Hh. cbn in Hh.
        destruct (Hback i x Hx) as (x' & Hx' & _ & Ex). destruct (Hback j y Hy) as (y' & Hy' & _ & Ey).
        assert (apiKeyMap (mem w) !! key_hash x = Some i) as E1
          by (apply (ok_keys _ Hm); exists x'; split; [done|]; unfold key_hash; by rewrite Ex).
        assert (apiKeyMap (mem w) !! key_hash x = Some j) as E2
          by (apply (ok_keys _ Hm); exists y'; split; [done|]; rewrite Hh; unfold key_hash; by rewrite Ey).
        assert (i = j) as -> by congruence. congruence.
    + rewrite Hi. apply Hm.
    + rewrite Hi. apply Hm.
    + lia.
  - done.
  - exists []. cbn. split; [lia|]. done.
Qed.

Lemma create_ok m now rk rid name code c st :
  tables_ok m → drawn_new (OCreate now rk rid name code) m →
  CreateConsumer (loc := loc) now rk rid name code m = (Ok c, st) →
  st.1 = Some (saveLocked st.2) ∧ tables_ok st.2 ∧ u_APIKey c = "sk-" +:+ rk ∧
  ∃ c', consumers st.2 !! u_ID c = Some c' ∧ u_Enabled c' = true ∧ plain_key (u_APIKey c') = u_APIKey c.
Proof using seal_law.
  intros Hm [Hid Hk]. unfold CreateConsumer. destruct (500 <=? _)%nat; [done|].
  destruct (invites m !! code) as [inv|] eqn:Ei; [|done]. do 2 (destruct (_ && _); [done|]).
  intros [= <- <-]. cbn [fst snd with_api_key u_APIKey u_ID]. split; [done|].
  set (id := "consumer-" +:+ rid) in *. set (key := "sk-" +:+ rk) in *.
  destruct (sk_plain rk) as [Hne Hsk]. fold key in Hne, Hsk.
  pose proof (plain_encrypt key Hne Hsk) as Hp. pose proof (encrypt_nonempty key Hne Hsk) as He.
  destruct (use_codes m now id code inv Hm Ei) as [U1 U2].
  split; [|split; [done|]; eexists; cbn; rewrite lookup_insert_eq; split; [done|]; done].
  split; cbn; [| |exact U1|exact U2|apply Hm].
  - intros i x [[<- <-]|[_ Hx]]%lookup_insert_Some; [|by apply (ok_ids _ Hm)].
    cbn. split; [done|]. split; [exact He|]. by rewrite Hp.
  - intros h i. rewrite lookup_insert_Some. split.
    + intros [[<- <-]|[Hne' Hh]].
      * eexists. rewrite lookup_insert_eq. split; [done|]. unfold key_hash. cbn. by rewrite Hp.
      * apply (ok_keys _ Hm) in Hh as (x & Hx & Hh). exists x. rewrite lookup_insert_ne; [done|]. congruence.
    + intros (x & [[<- <-]|[Hni Hx]]%lookup_insert_Some & Hh).
      * left. unfold key_hash in Hh. cbn in Hh. by rewrite Hp in Hh.
      * right. assert (apiKeyMap m !! h = Some i) as Ehi by (apply (ok_keys _ Hm); by exists x).
        split; [congruence|done].
Qed.

Lemma users_exec_ok w o : users_ok w → drawn_new o (mem w) → users_ok (user_exec w o).
Proof using seal_law.
  intros Hw Hn. pose proof (ok_tables _ Hw) as Hm. destruct o as [now rand mu role|now code id|now rk rid name code|id n|id|id b|code| |].
  - cbn. unfold CreateInviteCode. cbv zeta.
    assert (Hfull : ∀ m1, m1 = mem w ∨ m1 = cleanupExpiredInvitesLocked (mem w) ∧ True →
      tables_ok m1).
    { intros m1 [->|[-> _]]; [done|]. apply codes_ok; [done| |].
      - intros code inv [Hc _]%map_lookup_filter_Some. by apply (ok_codes _ Hm code).
      - etrans; [apply map_subseteq_size, map_filter_subseteq|apply Hm]. }
    set (m1 := if (100 <=? size (invites (mem w)))%nat then _ else _).
    assert (H1 : tables_ok m1) by (apply Hfull; unfold m1; destruct (100 <=? _)%nat; tauto).
    destruct (Nat.leb_spec 100 (size (invites m1))) as [Hge|Hlt].
    + assert (m1 = mem w) as ->.
      { unfold m1 in *. destruct (100 <=? size (invites (mem w)))%nat; [|done].
        apply cleanup_full; [apply Hm|done]. }
      by rewrite unchanged.
    + apply written_ok, codes_ok; [done| |].
      * intros code inv [[<- <-]|[_ Hc]]%lookup_insert_Some; [|by apply (ok_codes _ H1 code)].
        cbn. split; [exact Hn|]. unfold is_int64. lia.
      * destruct (invites m1 !! rand) eqn:E.
        -- rewrite map_size_insert_Some by done. apply H1.
        -- rewrite map_size_insert_None by done. lia.
  - cbn. unfold UseInviteCode. destruct (invites (mem w) !! code) as [inv|] eqn:Ei; [|by rewrite unchanged].
    destruct (used_up inv); [by rewrite unchanged|]. destruct (use_codes _ now id code inv Hm Ei) as [U1 U2].
    by apply written_ok, codes_ok.
  - cbn [user_exec]. destruct (CreateConsumer now rk rid name code (mem w)) as [[c|e] st] eqn:Ec.
    + destruct (create_ok _ _ _ _ _ _ _ _ Hm Hn Ec) as (Hst & Ht & _). destruct st as [f m']. cbn in *. subst f.
      by apply written_ok.
    + unfold CreateConsumer in Ec. destruct (500 <=? _)%nat; [injection Ec as _ <-; by rewrite unchanged|].
      destruct (invites (mem w) !! code); [|injection Ec as _ <-; by rewrite unchanged].
      destruct (_ && _); [injection Ec as _ <-; by rewrite unchanged|].
      destruct (_ && _); [injection Ec as _ <-; by rewrite unchanged|done].
  - cbn [user_exec]. unfold RecordConsumerUsage. destruct (consumers (mem w) !! id) as [c|] eqn:Ec; [|by rewrite unchanged].
    cbv zeta. cbn [dirtyCount set_tables]. pose proof (ok_dirty _ Hm). rewrite wrap64_id by (unfold is_int64; lia).
    destruct (Z.leb_spec 10 (dirtyCount (mem w) + 1)).
    + apply written_ok. by apply alter_ok with c; [..|lia].
    + split; cbn.
      * by apply alter_ok with c; [..|lia].
      * apply Hw.
      * destruct (ok_usage _ Hw) as (us & Hl & Hu). exists (us ++ [(id, n)]). rewrite length_app. cbn.
        split; [lia|].
        rewrite foldl_app. trans (apply_usage (consumers (mem w)) (id, n)); [|rewrite Hu; done].
        unfold apply_usage. cbn. apply map_eq. intros j. destruct (decide (id = j)) as [<-|].
        -- by rewrite lookup_insert_eq, lookup_alter_eq, Ec.
        -- by rewrite lookup_insert_ne, lookup_alter_ne.
  - cbn [user_exec]. unfold DeleteConsumer. destruct (consumers (mem w) !! id) as [c|] eqn:Ec.
    2:{ cbn. destruct w. exact Hw. }
    cbv zeta. cbn [snd]. set (m' := set_tables _ _ _ _).
    assert (Hm' : tables_ok m').
    { split; cbn; try apply Hm.
      - intros i x [_ Hx]%lookup_delete_Some. by apply (ok_ids _ Hm).
      - intros h i. rewrite lookup_delete_Some. fold (key_hash c). split.
        + intros [Hne Hh]. apply (ok_keys _ Hm) in Hh as (x & Hx & Hh). exists x.
          rewrite lookup_delete_ne; [done|]. intros <-. congruence.
        + intros (x & [Hne Hx]%lookup_delete_Some & Hh).
          assert (E : apiKeyMap (mem w) !! h = Some i) by (apply (ok_keys _ Hm); by exists x).
          split; [|done]. intros Hc. apply Hne. assert (apiKeyMap (mem w) !! h = Some id) as E'
            by (apply (ok_keys _ Hm); by exists c). congruence. }
    pose proof (written_ok w m' Hm') as Hr. split; [apply Hr|exact (ok_invites _ Hr)|exact (ok_usage _ Hr)].
  - cbn [user_exec]. unfold ToggleConsumer. destruct (consumers (mem w) !! id) as [c|] eqn:Ec; [|by rewrite unchanged].
    apply written_ok. cbn. pose proof (ok_dirty _ Hm).
    exact (alter_ok _ _ c (with_enabled c b) (dirtyCount (mem w)) Hm Ec eq_refl eq_refl ltac:(lia)).
  - cbn. unfold DeleteInviteCode. destruct (invites (mem w) !! code) as [inv|]; [|by rewrite unchanged].
    apply written_ok, codes_ok; [done| |].
    + intros code' inv' [_ Hc]%lookup_delete_Some. by apply (ok_codes _ Hm code').
    + etrans; [apply map_subseteq_size, delete_subseteq|apply Hm].
  - cbn. unfold FlushSaves. destruct (0 <? dirtyCount (mem w)); [|by rewrite unchanged].
    apply (written_ok w (set_dirty (mem w) 0)). split; cbn; try apply Hm. lia.
  - by apply restart_ok.
Qed.

Lemma users_run_ok h w : users_ok w → draws_new h w → users_ok (user_run h w).
Proof using seal_law.
  revert w. induction h as [|o h IH]; intros w Hw; [done|]. intros [Ho Hh]. cbn.
  apply IH; [|done]. by apply users_exec_ok.
Qed.

Definition first_start (pm : ProviderManager) : world :=
  {| mem := initMultiUser; disk := None; provs := pm |}.

Lemma first_start_ok pm : users_ok (first_start pm).
Proof.
  split; cbn; [|done|by exists []].
  split; cbn; try (intros ? ?; by rewrite lookup_empty); [|rewrite map_size_empty; lia|lia].
  intros h i. rewrite lookup_empty. split; [done|]. intros (c & Hc & _). by rewrite lookup_empty in Hc.
Qed.

(** ** Who authenticates *)

Lemma validate_iff m k id :
  tables_ok m →
  (∃ c, ValidateAPIKey k m = Some c ∧ u_ID c = id) ↔
  (∃ c, consumers m !! id = Some c ∧ u_Enabled c = true ∧ key_hash c = hashAPIKey k).
Proof.
  intros Hm. unfold ValidateAPIKey. split.
  - intros (c & Hc & Hid). destruct (apiKeyMap m !! hashAPIKey k) as [i|] eqn:Ek; [|done].
    apply (ok_keys _ Hm) in Ek as (x & Hx & Hh). rewrite Hx in Hc.
    destruct (u_Enabled x) eqn:Ee; [|done]. injection Hc as ->.
    destruct (ok_ids _ Hm i c Hx) as [Hi _]. exists c. rewrite <- Hid, Hi. done.
  - intros (c & Hc & He & Hh). assert (apiKeyMap m !! hashAPIKey k = Some id) as ->
      by (apply (ok_keys _ Hm); by exists c).
    rewrite Hc, He. exists c. split; [done|]. by apply (ok_ids _ Hm).
Qed.

Lemma bearer_consumer m verify k ck id :
  verify k = false →
  withConsumerOrAdminAuth verify ("Bearer " +:+ k) ck m = Some (id, "consumer") ↔
  ∃ c, ValidateAPIKey k m = Some c ∧ u_ID c = id.
Proof.
  intros Hv. unfold withConsumerOrAdminAuth, extractToken. rewrite strip_prefix_app, Hv, andb_false_r.
  destruct (ValidateAPIKey k m) as [c|]; [|by split; [|intros (c & ? & _)]].
  split; [intros [= <-]; by exists c|]. by intros (c' & [= <-] & <-).
Qed.

(** C16. A key authenticates exactly the enabled consumer it was issued to: in every state
    reached by registrations, uses, switches, deletions, flushes and restarts, a bearer key
    that is no administrator's token goes on as consumer [id] if and only if that consumer is
    registered, enabled and its key has the same hash; the key a registration returns is
    such a key at once; and a deleted consumer is gone together with its providers. *)
Theorem consumer_auth_exact h pm verify :
  draws_new h (first_start pm) →
  let w := user_run h (first_start pm) in
  (∀ k ck id, verify k = false →
     withConsumerOrAdminAuth verify ("Bearer " +:+ k) ck (mem w) = Some (id, "consumer") ↔
     ∃ c, consumers (mem w) !! id = Some c ∧ u_Enabled c = true ∧
          hashAPIKey (plain_key (u_APIKey c)) = hashAPIKey k) ∧
  (∀ now rk rid name code c st ck,
     drawn_new (OCreate now rk rid name code) (mem w) →
     CreateConsumer (loc := loc) now rk rid name code (mem w) = (Ok c, st) → verify (u_APIKey c) = false →
     withConsumerOrAdminAuth verify ("Bearer " +:+ u_APIKey c) ck st.2 = Some (u_ID c, "consumer")) ∧
  (∀ id, consumers (mem w) !! id ≠ None →
     let w' := user_exec w (ODelete id) in
     consumers (mem w') !! id = None ∧ map_Forall (λ _ p, Owner p ≠ id) (providers (provs w'))).
Proof using seal_law.
  intros Hh w. pose proof (ok_tables _ (users_run_ok h _ (first_start_ok pm) Hh)) as Hm. fold w in Hm.
  split; [|split].
  - intros k ck id Hv. rewrite bearer_consumer by done. by apply validate_iff.
  - intros now rk rid name code c st ck Hn Hc Hv. rewrite bearer_consumer by done.
    destruct (create_ok _ _ _ _ _ _ _ _ Hm Hn Hc) as (_ & Ht & _ & c' & Hc' & He & Hk).
    apply validate_iff; [done|]. exists c'. split; [done|]. split; [done|]. unfold key_hash. by rewrite Hk.
  - intros id Hid w'. unfold w'. cbn [user_exec]. unfold DeleteConsumer.
    destruct (consumers (mem w) !! id) as [c|]; [|done]. cbn. rewrite lookup_delete_eq. split; [done|].
    unfold DeleteByOwner. case_bool_decide as Hg; cbn.
    + intros k p Hp Ho. assert (Hin : (k, p) ∈ filter (λ kv : string * Provider, Owner kv.2 = id)
                                         (map_to_list (providers (provs w)))).
      { apply list_elem_of_filter. split; [done|]. by apply elem_of_map_to_list. }
      rewrite Hg in Hin. by apply not_elem_of_nil in Hin.
    + intros k p [_ Hp]%map_lookup_filter_Some. done.
Qed.

(** ** How often a code admits *)

Definition room (code : string) m : Z :=
  match invites m !! code with
  | None => 0
  | Some inv => if 0 <? MaxUses inv then Z.max 0 (MaxUses inv - UseCount inv)
                else if bool_decide (UsedBy inv = "") then 1 else 0
  end.

(** Operations that used the code. *)
Definition admits (code : string) (o : user_op) (w : world) : bool :=
  match o with
  | OUse now c id => bool_decide (c = code) && (UseInviteCode (loc := loc) now c id (mem w)).1
  | OCreate now rk rid name c =>
      bool_decide (c = code) && is_ok (CreateConsumer (loc := loc) now rk rid name c (mem w)).1
  | _ => false
  end.
Fixpoint admissions (code : string) (h : list user_op) (w : world) : Z :=
  match h with
  | [] => 0
  | o :: h => (if admits code o w then 1 else 0) + admissions code h (user_exec w o)
  end.

(** Using a code takes one place, except of a single-use code used by nobody. *)
Lemma use_room now id inv :
  is_int64 (MaxUses inv) → is_int64 (UseCount inv) → 0 ≤ MaxUses inv → used_up inv = false →
  id ≠ "" →
  let r i := if 0 <? MaxUses i then Z.max 0 (MaxUses i - UseCount i)
             else if bool_decide (UsedBy i = "") then 1 else 0 in
  1 + r (use_invite loc now id inv) ≤ r inv.
Proof.
  intros Hm Hu H0 Hup Hid r. unfold r, used_up in *. cbn [use_invite MaxUses UseCount UsedBy].
  apply orb_false_iff in Hup as [H1 H2].
  destruct (Z.ltb_spec 0 (MaxUses inv)); cbn [andb] in H1.
  - apply Z.leb_gt in H1. unfold is_int64 in *. rewrite wrap64_id by (unfold is_int64; lia). lia.
  - rewrite (bool_decide_eq_false_2 _ Hid). assert (E : MaxUses inv =? 0 = true) by lia.
    rewrite E in H2. cbn in H2. apply negb_false_iff in H2. by rewrite H2.
Qed.

Definition keeps_code (code : string) (o : user_op) : Prop :=
  match o with OInvite _ rand _ _ => rand ≠ code | OUse _ _ id => id ≠ "" | _ => True end.

(** Nothing else gives places. *)
Lemma room_step code o w :
  users_ok w → keeps_code code o →
  (∀ inv, invites (mem w) !! code = Some inv → 0 ≤ MaxUses inv) →
  (if admits code o w then 1 else 0) + room code (mem (user_exec w o)) ≤ room code (mem w) ∧
  (∀ inv, invites (mem (user_exec w o)) !! code = Some inv → 0 ≤ MaxUses inv).
Proof.
  intros Hw Hkeep H0. pose proof (ok_tables _ Hw) as Hm.
  assert (Hsame : ∀ m', invites m' = invites (mem w) →
    0 + room code m' ≤ room code (mem w) ∧ (∀ inv, invites m' !! code = Some inv → 0 ≤ MaxUses inv)).
  { intros m' E. unfold room. rewrite E. split; [lia|done]. }
  assert (Hlose : ∀ m', (∀ inv, invites m' !! code = Some inv → invites (mem w) !! code = Some inv) →
    0 + room code m' ≤ room code (mem w) ∧ (∀ inv, invites m' !! code = Some inv → 0 ≤ MaxUses inv)).
  { intros m' E. split; [|intros inv Hi; by apply H0, E]. unfold room.
    destruct (invites m' !! code) as [inv|]; [rewrite (E inv eq_refl); lia|].
    destruct (invites (mem w) !! code) as [i|]; [|lia]. repeat case_match; lia. }
  assert (Huse : ∀ now id c inv m', id ≠ "" → invites (mem w) !! c = Some inv → used_up inv = false →
    invites m' = <[c := use_invite loc now id inv]> (invites (mem w)) →
    (if bool_decide (c = code) && true then 1 else 0) + room code m' ≤ room code (mem w) ∧
    (∀ inv, invites m' !! code = Some inv → 0 ≤ MaxUses inv)).
  { intros now id c inv m' Hid Hc Hup E. rewrite andb_true_r. destruct (bool_decide_reflect (c = code)) as [->|Hne].
    - unfold room. rewrite E, lookup_insert_eq, Hc. split.
      + apply use_room; try done; [by apply (ok_codes _ Hm code)..|by apply H0].
      + intros i [= <-]. cbn. by apply H0.
    - apply Hlose. intros i. by rewrite E, lookup_insert_ne. }
  destruct o as [now rand mu role|now c id|now rk rid name c|id n|id|id b|c| |]; cbn [admits user_exec keeps_code] in *.
  - apply Hlose. intros inv. unfold CreateInviteCode. cbv zeta.
    assert (Hsub : ∀ (b : bool) inv, invites (if b then cleanupExpiredInvitesLocked (mem w) else mem w) !! code = Some inv →
      invites (mem w) !! code = Some inv).
    { intros [] i; [|done]. by intros [Hi _]%map_lookup_filter_Some. }
    set (m1 := if (100 <=? size (invites (mem w)))%nat then _ else _).
    destruct (100 <=? size (invites m1))%nat; cbn; [apply Hsub|].
    rewrite lookup_insert_ne by done. apply Hsub.
  - unfold UseInviteCode. destruct (invites (mem w) !! c) as [inv|] eqn:Ec.
    2:{ rewrite andb_false_r. by apply Hsame. }
    destruct (used_up inv) eqn:Eu; [rewrite andb_false_r; by apply Hsame|]. by eapply Huse.
  - unfold CreateConsumer. destruct (500 <=? _)%nat; [rewrite andb_false_r; by apply Hsame|].
    destruct (invites (mem w) !! c) as [inv|] eqn:Ec; [|rewrite andb_false_r; by apply Hsame].
    destruct ((0 <? MaxUses inv) && (MaxUses inv <=? UseCount inv)) eqn:E1; [rewrite andb_false_r; by apply Hsame|].
    destruct ((MaxUses inv =? 0) && negb (bool_decide (UsedBy inv = ""))) eqn:E2;
      [rewrite andb_false_r; by apply Hsame|].
    eapply Huse; [|exact Ec|unfold used_up; by rewrite E1, E2|done]. done.
  - apply Hsame. unfold RecordConsumerUsage. destruct (consumers (mem w) !! id); [|done]. cbv zeta. by case_match.
  - apply Hsame. unfold DeleteConsumer. by destruct (consumers (mem w) !! id).
  - apply Hsame. unfold ToggleConsumer. by destruct (consumers (mem w) !! id).
  - apply Hlose. intros inv. unfold DeleteInviteCode. destruct (invites (mem w) !! c) as [i|]; [|done]. cbn.
    by intros [_ ?]%lookup_delete_Some.
  - apply Hsame. unfold FlushSaves. by case_match.
  - apply Hsame. cbn. pose proof (ok_invites _ Hw) as Hi. rewrite <- Hi. unfold on_disk.
    by destruct (disk w).
Qed.

Lemma admissions_bound code h w :
  users_ok w → draws_new h w → Forall (keeps_code code) h →
  (∀ inv, invites (mem w) !! code = Some inv → 0 ≤ MaxUses inv) →
  admissions code h w ≤ room code (mem w).
Proof using seal_law.
  revert w. induction h as [|o h IH]; intros w Hw Hh Hk H0.
  { unfold room. cbn. repeat case_match; lia. }
  destruct Hh as [Ho Hh]. apply Forall_cons in Hk as [Hko Hkh].
  destruct (room_step code o w Hw Hko H0) as [Hr H0']. cbn [admissions].
  specialize (IH (user_exec w o) (users_exec_ok w o Hw Ho) Hh Hkh H0'). lia.
Qed.

(** C17. An invitation code admits at most as many registrations as it was created for: one for
    a single-use code, [n] for a limited one, whatever happens afterwards, restarts included,
    as long as the code is not drawn again. *)
Theorem invite_uses_bounded h1 now code n role h2 pm :
  draws_new (h1 ++ OInvite now code n role :: h2) (first_start pm) → 0 ≤ n →
  Forall (keeps_code code) h2 →
  let w := user_exec (user_run h1 (first_start pm)) (OInvite now code n role) in
  (CreateInviteCode (loc := loc) now code n role (mem (user_run h1 (first_start pm)))).1 ≠ "" →
  admissions code h2 w ≤ Z.max 1 n.
Proof using seal_law.
  intros Hd Hn Hk w Hok.
  assert (Hsplit : ∀ h w0, draws_new (h ++ OInvite now code n role :: h2) w0 →
    draws_new h w0 ∧ drawn_new (OInvite now code n role) (mem (user_run h w0)) ∧
    draws_new h2 (user_exec (user_run h w0) (OInvite now code n role))).
  { induction h as [|o h IH]; intros w0; [by intros [? ?]|]. cbn. intros [Ho Hh].
    destruct (IH _ Hh) as (? & ? & ?). done. }
  destruct (Hsplit h1 _ Hd) as (D1 & D2 & D3). fold w in D3.
  pose proof (users_run_ok h1 _ (first_start_ok pm) D1) as W1.
  pose proof (users_exec_ok _ _ W1 D2) as Hw. fold w in Hw.
  assert (Hcode : ∃ inv, invites (mem w) !! code = Some inv ∧ MaxUses inv = n ∧ UseCount inv = 0 ∧ UsedBy inv = "").
  { unfold w. cbn. unfold CreateInviteCode in *. cbv zeta in *.
    set (m1 := if (100 <=? size (invites (mem (user_run h1 (first_start pm)))))%nat then _ else _) in *.
    destruct (100 <=? size (invites m1))%nat; [by destruct Hok|].
    eexists. cbn. by rewrite lookup_insert_eq. }
  destruct Hcode as (inv & Hi & Em & Eu & Eb).
  etrans; [apply admissions_bound; try done|].
  - intros i Hi'. assert (i = inv) as -> by congruence. lia.
  - unfold room. rewrite Hi, Em, Eu, Eb, bool_decide_eq_true_2 by done. destruct (Z.ltb_spec 0 n); lia.
Qed.

(** A crash loses at most nine usage records: in every reachable state the file has the
    codes of the running process, and its consumers are the file's with at most nine usage
    records replayed; everything else is there, so that the restarted process has the same
    consumers, keys and codes. *)
Theorem usage_loss_bounded h pm :
  draws_new h (first_start pm) →
  let w := user_run h (first_start pm) in
  let w' := user_exec w ORestart in
  invites (mem w') = invites (mem w) ∧
  (∃ us, (length us ≤ 9)%nat ∧ consumers (mem w) = foldl apply_usage (consumers (mem w')) us) ∧
  apiKeyMap (mem w') = apiKeyMap (mem w).
Proof using seal_law.
  intros Hh w w'. pose proof (users_run_ok h _ (first_start_ok pm) Hh) as Hw. fold w in Hw.
  pose proof (ok_tables _ Hw) as Hm. pose proof (restart_ok w Hw) as Hr. fold w' in Hr.
  pose proof (ok_tables _ Hr) as Hm'. destruct (ok_usage _ Hw) as (us & Hl & Hu).
  pose proof (ok_dirty _ Hm) as Hd. assert (Hf : f_consumers (on_disk w) = consumers (mem w')).
  { unfold w', on_disk. cbn. by destruct (disk w). }
  rewrite Hf in Hu. split; [|split].
  - rewrite <- (ok_invites _ Hw), <- (ok_invites _ Hr). done.
  - exists us. split; [lia|done].
  - apply map_eq. intros k. apply option_eq. intros i. rewrite (ok_keys _ Hm), (ok_keys _ Hm'), Hu.
    destruct (usage_lookup us (consumers (mem w')) i) as (g & -> & Hg). split.
    + intros (c & Hc & Hk). exists (g c). rewrite Hc. split; [done|]. unfold key_hash.
      by destruct (Hg c) as (_ & -> & _).
    + intros (c & (c0 & Hc & ->)%fmap_Some & Hk). exists c0. split; [done|]. unfold key_hash in *.
      by destruct (Hg c0) as (_ & <- & _).
Qed.

(** (A defect.) Used single-use codes are never cleaned up: once a hundred single-use codes
    exist, used or not, no code can be created any more, and the handler answers 200 with
    an empty code. *)
Theorem single_use_codes_exhaust now rand role body m :
  (100 ≤ size (invites m))%nat → map_Forall (λ _ inv, MaxUses inv = 0) (invites m) →
  role = "admin" → body = Some (0, "") →
  handleCreateInviteCode (loc := loc) now rand role body m = ((200, (None, m)), "").
Proof.
  intros Hs Hall -> ->. unfold handleCreateInviteCode. cbn [negb bool_decide]. rewrite bool_decide_eq_true_2 by done.
  cbn. unfold CreateInviteCode. cbv zeta. rewrite (proj2 (Nat.leb_le _ _) Hs).
  assert (E : cleanupExpiredInvitesLocked m = m).
  { unfold cleanupExpiredInvitesLocked, set_tables. rewrite map_filter_id; [by destruct m|].
    intros i x Hx. cbn. by rewrite (Hall i x Hx). }
  by rewrite E, (proj2 (Nat.leb_le _ _) Hs).
Qed.
End users_safety.

(** ** Examples *)

Definition one_invite : list user_op := [OInvite 0 "welcome" 0 ""].
Definition bob_joins : user_op := OCreate 1 "secret" "7" "bob" "welcome".

Lemma one_invite_new : draws_new (H := plain_cipher) (loc := UTC) (one_invite ++ [bob_joins]) (first_start new_manager).
Proof. cbn. split; [unfold is_int64; lia|]. split; [|done]. split; reflexivity. Qed.

Lemma consumer_auth_exact_witness :
  withConsumerOrAdminAuth (λ _, false) ("Bearer " +:+ "sk-secret") None
    (mem (user_run (H := plain_cipher) (loc := UTC) (one_invite ++ [bob_joins]) (first_start new_manager)))
  = Some ("consumer-7", "consumer").
Proof.
  apply (proj1 (consumer_auth_exact (H := plain_cipher) (loc := UTC) cipher_law (one_invite ++ [bob_joins])
    new_manager (λ _, false) one_invite_new)); [reflexivity|].
  eexists. split; [reflexivity|]. split; reflexivity.
Defined.

Lemma invite_uses_bounded_witness :
  admissions (H := plain_cipher) (loc := UTC) "welcome"
    [bob_joins; OCreate 2 "other" "8" "eve" "welcome"]
    (user_exec (H := plain_cipher) (loc := UTC) (first_start new_manager) (OInvite 0 "welcome" 0 "")) = 1 ∧
  admissions (H := plain_cipher) (loc := UTC) "welcome"
    [bob_joins; OFlush; ORestart]
    (user_exec (H := plain_cipher) (loc := UTC) (first_start new_manager) (OInvite 0 "welcome" 0 "")) ≤ Z.max 1 0.
Proof.
  split; [reflexivity|].
  apply (invite_uses_bounded (H := plain_cipher) (loc := UTC) cipher_law [] 0 "welcome" 0 ""
    [bob_joins; OFlush; ORestart] new_manager).
  - cbn. split; [unfold is_int64; lia|]. split; [|done]. split; reflexivity.
  - lia.
  - repeat constructor.
  - discriminate.
Defined.

Lemma usage_loss_bounded_witness :
  let w := user_run (H := plain_cipher) (loc := UTC)
             ((one_invite ++ [bob_joins]) ++ [ORecord "consumer-7" 5]) (first_start new_manager) in
  let w' := user_exec (H := plain_cipher) (loc := UTC) w ORestart in
  (TotalRequests <$> consumers (mem w) !! "consumer-7") = Some 1 ∧
  (TotalRequests <$> consumers (mem w') !! "consumer-7") = Some 0 ∧
  apiKeyMap (mem w') = apiKeyMap (mem w).
Proof.
  intros w w'. split; [reflexivity|]. split; [reflexivity|].
  apply (usage_loss_bounded (H := plain_cipher) (loc := UTC) cipher_law
    ((one_invite ++ [bob_joins]) ++ [ORecord "consumer-7" 5]) new_manager).
  cbn. split; [unfold is_int64; lia|]. split; [|done]. split; reflexivity.
Defined.
