(* ===== verification/LedgerSync.v ===== *)
(** * Reconciling ledgers between nodes (ledger_redundancy.go, ledger_replication.go)

    A node compares the manifest of its ledger, a digest per record, with a
    peer's, and fetches the records it misses. The HTTP exchange is the function
    [fetch] from ids to the decoded answer of the peer; [ReplicateContribution]
    and the background loop only send requests. *)

From S2P Require Import Prelude GoTime Sha256 Ledger LedgerChain.

Record LedgerManifestEntry := { m_ID : string; RecordType : string; m_ContentHash : string }.

Record LedgerManifest := { m_PeerID : string; Entries : gmap string LedgerManifestEntry }.

Record ManifestDiff := {
  Missing : list LedgerManifestEntry; Divergent : list string; Extra : list LedgerManifestEntry }.

(** A fetched record, decoded by its type; [FOther] is any type that is not healed,
    or a record that does not decode. *)
Inductive fetched :=
  | FContrib (r : ContributionRecord) | FTrust (r : TrustRecord) | FClaim (r : CapabilityClaim)
  | FPenalty (r : PenaltyRecord) | FOther.

(** [json.Marshal] of the two record types [LedgerEnv] does not marshal. *)
Class ManifestEnv := {
  marshal_trust : TrustRecord → option string;
  marshal_claim : CapabilityClaim → option string }.

(** ** Manifests (ledger_redundancy.go) *)
Section manifest.
Context `{LedgerEnv, ManifestEnv}.

Definition digest (data : option string) : string :=
  match data with Some d => "sha256:" +:+ sha256_hex d | None => "" end.

Definition contentHashContribution (r : ContributionRecord) : string :=
  digest (marshal_contribution {|
    c_ID := c_ID r; c_PeerID := c_PeerID r; c_PeerPublicKey := c_PeerPublicKey r;
    c_ModelID := c_ModelID r; c_Provider := c_Provider r; c_Tokens := c_Tokens r;
    c_ValueUSD := c_ValueUSD r; c_Timestamp := c_Timestamp r; c_Signature := "";
    c_Proof := {| ContentHash := ""; StorageLocation := ""; Verified := false |} |}).

Definition put_entry (m : gmap string LedgerManifestEntry) (e : LedgerManifestEntry)
    : gmap string LedgerManifestEntry := <[m_ID e := e]> m.

(** The entries in the order of the five loops. *)
Definition manifest_entries (g : GossipLedger) : list LedgerManifestEntry :=
  ((λ r, {| m_ID := c_ID r; RecordType := "contrib"; m_ContentHash := contentHashContribution r |})
     <$> (map_to_list (recs g)).*2) ++
  ((λ r, {| m_ID := t_ID r; RecordType := "trust"; m_ContentHash := digest (marshal_trust r) |})
     <$> (map_to_list (trusts g)).*2) ++
  ((λ r, {| m_ID := k_ID r; RecordType := "claim"; m_ContentHash := digest (marshal_claim r) |})
     <$> (map_to_list (claims g)).*2) ++
  ((λ r, {| m_ID := p_ID r; RecordType := "penalty"; m_ContentHash := digest (marshal_penalty r) |})
     <$> (map_to_list (penalties g)).*2) ++
  ((λ x, {| m_ID := ID x; RecordType := "tx"; m_ContentHash := digest (Some (marshal_tx x)) |})
     <$> txs g).

Definition BuildManifest (g : GossipLedger) : LedgerManifest := {|
  m_PeerID := peerID g; Entries := foldl put_entry ∅ (manifest_entries g) |}.

(** Same id, another digest. *)
Definition differs (le : option LedgerManifestEntry) (re : LedgerManifestEntry) : bool :=
  match le with
  | Some le => negb (bool_decide (m_ContentHash le = m_ContentHash re))
  | None => false
  end.

Definition DiffManifests (local remote : LedgerManifest) : ManifestDiff := {|
  Missing := (filter (λ kv, Entries local !! kv.1 = None) (map_to_list (Entries remote))).*2;
  Divergent := (filter (λ kv, differs (Entries local !! kv.1) kv.2 = true)
                  (map_to_list (Entries remote))).*1;
  Extra := (filter (λ kv, Entries remote !! kv.1 = None) (map_to_list (Entries local))).*2 |}.

(** ** Healing (ledger_replication.go) *)

Definition storeFetchedRecord (f : fetched) (g : GossipLedger) : bool * GossipLedger :=
  match f with
  | FContrib r => (true, (GossipSync [Some r] [] [] [] g).2)
  | FTrust r => (true, (GossipSync [] [Some r] [] [] g).2)
  | FClaim r => (true, (GossipSync [] [] [Some r] [] g).2)
  | FPenalty r => (true, (GossipSync [] [] [] [Some r] g).2)
  | FOther => (false, g)
  end.

(** [handleLedgerRecordFor]: the first table that has the id; [None] is a 404. *)
Definition handleLedgerRecordFor (id : string) (g : GossipLedger) : option fetched :=
  if bool_decide (id = "") then None
  else match recs g !! id, trusts g !! id, claims g !! id, penalties g !! id, txIndex g !! id with
       | Some r, _, _, _, _ => Some (FContrib r)
       | _, Some r, _, _, _ => Some (FTrust r)
       | _, _, Some r, _, _ => Some (FClaim r)
       | _, _, _, Some r, _ => Some (FPenalty r)
       | _, _, _, _, Some _ => Some FOther
       | _, _, _, _, _ => None
       end.

Definition heal_one (fetch : string → option fetched) (st : Z * GossipLedger)
    (e : LedgerManifestEntry) : Z * GossipLedger :=
  let '(healed, g) := st in
  match fetch (m_ID e) with
  | None => st
  | Some f => let '(ok, g') := storeFetchedRecord f g in (if ok then healed + 1 else healed, g')
  end.

(** [remote] is what [FetchManifest] returned. *)
Definition reconcileWithManifest (fetch : string → option fetched) (local : LedgerManifest)
    (remote : res LedgerManifest) (g : GossipLedger) : res (ManifestDiff * Z) * GossipLedger :=
  match remote with
  | Err e => (Err e, g)
  | Ok remote =>
      let diff := DiffManifests local remote in
      let '(healed, g') := foldl (heal_one fetch) (0, g) (Missing diff) in
      (Ok (diff, healed), g')
  end.

Definition ReconcileWith (fetch : string → option fetched) (remote : res LedgerManifest)
    (g : GossipLedger) : res (ManifestDiff * Z) * GossipLedger :=
  reconcileWithManifest fetch (BuildManifest g) remote g.

(** ** What a manifest lists *)

Definition ids_of (g : GossipLedger) : list string := m_ID <$> manifest_entries g.

Lemma put_entries_spec l m k :
  (∀ e, m !! k = Some e → m_ID e = k) →
  (∀ e, foldl put_entry m l !! k = Some e → m_ID e = k) ∧
  (is_Some (foldl put_entry m l !! k) ↔ is_Some (m !! k) ∨ k ∈ m_ID <$> l).
Proof.
  revert m. induction l as [|e l IH]; intros m Hm.
  { cbn. split; [done|]. rewrite elem_of_nil. tauto. }
  cbn [foldl]. destruct (IH (put_entry m e)) as [H1 H2].
  { intros e'. unfold put_entry. rewrite lookup_insert_Some. intros [[<- <-]|[_ ?]]; [done|by apply Hm]. }
  split; [done|]. rewrite H2. unfold put_entry. rewrite lookup_insert_is_Some, fmap_cons, elem_of_cons.
  destruct (decide (m_ID e = k)); naive_solver.
Qed.

Lemma manifest_ids g k : is_Some (Entries (BuildManifest g) !! k) ↔ k ∈ ids_of g.
Proof.
  destruct (put_entries_spec (manifest_entries g) ∅ k) as [_ H2]; [by intros ?; rewrite lookup_empty|].
  cbn [Entries BuildManifest]. rewrite H2, lookup_empty. split; [|by right].
  intros [[]|]; done.
Qed.

Lemma manifest_key g k e : Entries (BuildManifest g) !! k = Some e → m_ID e = k.
Proof.
  destruct (put_entries_spec (manifest_entries g) ∅ k) as [H1 _]; [by intros ?; rewrite lookup_empty|].
  apply H1.
Qed.

Lemma missing_ids g r k :
  k ∈ m_ID <$> Missing (DiffManifests (BuildManifest g) (BuildManifest r)) ↔
  k ∈ ids_of r ∧ k ∉ ids_of g.
Proof.
  cbn [Missing DiffManifests]. rewrite <- (manifest_ids r), <- (manifest_ids g).
  rewrite list_elem_of_fmap. split.
  - intros (e & -> & He). apply list_elem_of_fmap in He as ([k' e'] & -> & He).
    apply list_elem_of_filter in He as [Hn Hin%elem_of_map_to_list]. cbn in *.
    rewrite (manifest_key r k' e' Hin). split; [by eexists|]. rewrite Hn. by intros [? ?].
  - intros [[e He] Hn]. exists e. split; [by rewrite (manifest_key r k e He)|].
    apply list_elem_of_fmap. exists (k, e). split; [done|]. apply list_elem_of_filter. cbn.
    split; [by apply eq_None_not_Some | by apply elem_of_map_to_list].
Qed.

(** ** What healing does *)

(** The table of an id, the same in every ledger: ids carry their type. *)
Inductive table := TContrib | TTrust | TClaim | TPenalty | TTx.

Record typed (ty : string → table) (g : GossipLedger) : Prop := {
  ty_recs : ∀ k x, recs g !! k = Some x → c_ID x = k ∧ k ≠ "" ∧ ty k = TContrib;
  ty_trusts : ∀ k x, trusts g !! k = Some x → t_ID x = k ∧ k ≠ "" ∧ ty k = TTrust;
  ty_claims : ∀ k x, claims g !! k = Some x → k_ID x = k ∧ k ≠ "" ∧ ty k = TClaim;
  ty_penalties : ∀ k x, penalties g !! k = Some x → p_ID x = k ∧ k ≠ "" ∧ ty k = TPenalty;
  ty_txs : ∀ x, x ∈ txs g → ty (ID x) = TTx ∧ ID x ≠ "";
  ty_index : ∀ k, is_Some (txIndex g !! k) ↔ k ∈ ID <$> txs g }.

Lemma keyed_values {A} (id : A → string) (m : gmap string A) k :
  (∀ i x, m !! i = Some x → id x = i) → k ∈ id <$> (map_to_list m).*2 ↔ is_Some (m !! k).
Proof.
  intros Hm. rewrite list_elem_of_fmap. split.
  - intros (x & -> & Hx). apply list_elem_of_fmap in Hx as ([i y] & -> & Hy%elem_of_map_to_list).
    cbn. rewrite (Hm _ _ Hy). by eexists.
  - intros [x Hx]. exists x. split; [by rewrite (Hm _ _ Hx)|].
    apply list_elem_of_fmap. exists (k, x). by rewrite elem_of_map_to_list.
Qed.

(** The ids of a ledger are those of its tables. *)
Lemma ids_of_tables ty g k :
  typed ty g →
  k ∈ ids_of g ↔ is_Some (recs g !! k) ∨ is_Some (trusts g !! k) ∨ is_Some (claims g !! k) ∨
                 is_Some (penalties g !! k) ∨ k ∈ ID <$> txs g.
Proof.
  intros Hg. unfold ids_of, manifest_entries. rewrite !fmap_app, !elem_of_app.
  rewrite <- (keyed_values c_ID (recs g)) by (intros; by eapply ty_recs).
  rewrite <- (keyed_values t_ID (trusts g)) by (intros; by eapply ty_trusts).
  rewrite <- (keyed_values k_ID (claims g)) by (intros; by eapply ty_claims).
  rewrite <- (keyed_values p_ID (penalties g)) by (intros; by eapply ty_penalties).
  rewrite <- !list_fmap_compose. split; intros Hk; exact Hk.
Qed.

(** Add [x] under [k] unless the table has the key. *)
Definition add_new {A} (k : string) (x : A) (m : gmap string A) : gmap string A :=
  match m !! k with Some _ => m | None => <[k := x]> m end.

Lemma sync_single {A} (id : A → string) pre x m d n :
  id x ≠ "" → (sync_map id pre [Some x] (m, d, n)).1.1 = add_new (id x) x m.
Proof.
  intros Hx. cbn. rewrite bool_decide_eq_false_2 by done. unfold add_new. by destruct (m !! id x).
Qed.

(** Healing one id, table by table. *)
Definition healed_table {A} (k : string) (r : option A) (m : gmap string A) : gmap string A :=
  match r with Some x => add_new k x m | None => m end.

Record healed_to (k : string) (r g g' : GossipLedger) : Prop := {
  he_recs : recs g' = healed_table k (recs r !! k) (recs g);
  he_trusts : trusts g' = healed_table k (trusts r !! k) (trusts g);
  he_claims : claims g' = healed_table k (claims r !! k) (claims g);
  he_penalties : penalties g' = healed_table k (penalties r !! k) (penalties g);
  he_txs : txs g' = txs g; he_index : txIndex g' = txIndex g }.

Definition heals (ty : string → table) (k : string) : Z := match ty k with TTx => 0 | _ => 1 end.

Lemma typed_none ty r k :
  typed ty r →
  (ty k ≠ TContrib → recs r !! k = None) ∧ (ty k ≠ TTrust → trusts r !! k = None) ∧
  (ty k ≠ TClaim → claims r !! k = None) ∧ (ty k ≠ TPenalty → penalties r !! k = None).
Proof.
  intros Hr. split_and!; intros Hn; apply eq_None_not_Some; intros [x Hx]; apply Hn;
    [by apply (ty_recs ty r Hr k x) | by apply (ty_trusts ty r Hr k x)
    | by apply (ty_claims ty r Hr k x) | by apply (ty_penalties ty r Hr k x)].
Qed.

(** The table of a [GossipSync] loop does not depend on the marks and counts. *)
Lemma sync_tables cs ts ks ps g :
  let g' := (GossipSync cs ts ks ps g).2 in
  (∀ d n, recs g' = (sync_map c_ID "contrib/" cs (recs g, d, n)).1.1) ∧
  (∀ d n, trusts g' = (sync_map t_ID "trust/" ts (trusts g, d, n)).1.1) ∧
  (∀ d n, claims g' = (sync_map k_ID "claim/" ks (claims g, d, n)).1.1) ∧
  (∀ d n, penalties g' = (sync_map p_ID "penalty/" ps (penalties g, d, n)).1.1) ∧
  txs g' = txs g ∧ txIndex g' = txIndex g.
Proof.
  assert (Hi : ∀ A (id : A → string) p l (m : gmap string A) d n d' n',
            (sync_map id p l (m, d, n)).1.1 = (sync_map id p l (m, d', n')).1.1).
  { intros A id p l. unfold sync_map. induction l as [|[x|] l IH]; intros m d n d' n'; [done| |apply IH].
    cbn [foldl sync_one]. destruct (bool_decide _); [apply IH|]. destruct (m !! id x); apply IH. }
  unfold GossipSync.
  destruct (sync_map c_ID _ cs _) as [[m1 d1] n1] eqn:E1.
  destruct (sync_map t_ID _ ts _) as [[m2 d2] n2] eqn:E2.
  destruct (sync_map k_ID _ ks _) as [[m3 d3] n3] eqn:E3.
  destruct (sync_map p_ID _ ps _) as [[m4 d4] n4] eqn:E4. cbn.
  split_and!; try done; intros d n.
  - by rewrite (Hi _ _ _ _ _ d n (dirty g) 0), E1.
  - by rewrite (Hi _ _ _ _ _ d n d1 n1), E2.
  - by rewrite (Hi _ _ _ _ _ d n d2 n2), E3.
  - by rewrite (Hi _ _ _ _ _ d n d3 n3), E4.
Qed.

(** Closes the goals of a record stored in one table. *)
Ltac stored H :=
  destruct H as (S1 & S2 & S3 & S4 & S5 & S6);
  split; [rewrite (S1 ∅ 0) | rewrite (S2 ∅ 0) | rewrite (S3 ∅ 0) | rewrite (S4 ∅ 0) | exact S5 | exact S6];
  rewrite ?sync_single by congruence.

Lemma heal_one_spec ty r n g e :
  typed ty r → m_ID e ∈ ids_of r →
  let '(n', g') := heal_one (λ k, handleLedgerRecordFor k r) (n, g) e in
  n' = n + heals ty (m_ID e) ∧ healed_to (m_ID e) r g g'.
Proof.
  intros Hr Hin. set (k := m_ID e) in *. apply (ids_of_tables ty r k Hr) in Hin.
  destruct (typed_none ty r k Hr) as (N1 & N2 & N3 & N4).
  unfold heal_one. fold k. clearbody k. unfold handleLedgerRecordFor, heals.
  destruct Hin as [[x Hx]|[[x Hx]|[[x Hx]|[[x Hx]|Hx]]]].
  - destruct (ty_recs ty r Hr k x Hx) as (E & Hne & Ht). rewrite Ht in *.
    rewrite bool_decide_eq_false_2, Hx by done. cbn [storeFetchedRecord].
    split; [done|].
    stored (sync_tables [Some x] [] [] [] g);
      rewrite ?Hx, ?N1, ?N2, ?N3, ?N4 by done; by rewrite ?E.
  - destruct (ty_trusts ty r Hr k x Hx) as (E & Hne & Ht). rewrite Ht in *.
    rewrite bool_decide_eq_false_2, N1, Hx by done. cbn [storeFetchedRecord].
    split; [done|].
    stored (sync_tables [] [Some x] [] [] g);
      rewrite ?Hx, ?N1, ?N2, ?N3, ?N4 by done; by rewrite ?E.
  - destruct (ty_claims ty r Hr k x Hx) as (E & Hne & Ht). rewrite Ht in *.
    rewrite bool_decide_eq_false_2, N1, N2, Hx by done. cbn [storeFetchedRecord].
    split; [done|].
    stored (sync_tables [] [] [Some x] [] g);
      rewrite ?Hx, ?N1, ?N2, ?N3, ?N4 by done; by rewrite ?E.
  - destruct (ty_penalties ty r Hr k x Hx) as (E & Hne & Ht). rewrite Ht in *.
    rewrite bool_decide_eq_false_2, N1, N2, N3, Hx by done. cbn [storeFetchedRecord].
    split; [done|].
    stored (sync_tables [] [] [] [Some x] g);
      rewrite ?Hx, ?N1, ?N2, ?N3, ?N4 by done; by rewrite ?E.
  - pose proof (proj2 (ty_index ty r Hr k) Hx) as [y Hy].
    apply list_elem_of_fmap in Hx as (x & -> & Hx). destruct (ty_txs ty r Hr x Hx) as [Ht Hne].
    rewrite Ht in *. rewrite bool_decide_eq_false_2, N1, N2, N3, N4, Hy by done.
    cbn [storeFetchedRecord]. split; [lia|]. split; by rewrite ?N1, ?N2, ?N3, ?N4 by done.
Qed.

(** Over a list of ids: what the local tables miss is taken from the remote ones. *)
Definition taken {A} (ks : list string) (r g : gmap string A) (k : string) : option A :=
  match g !! k with
  | Some x => Some x
  | None => if decide (k ∈ ks) then r !! k else None
  end.

Lemma healed_taken {A} (k0 : string) ks (r g : gmap string A) k :
  taken ks r (healed_table k0 (r !! k0) g) k = taken (k0 :: ks) r g k.
Proof.
  unfold taken, healed_table, add_new.
  destruct (r !! k0) as [x|] eqn:Er; [destruct (g !! k0) as [y|] eqn:Eg|].
  - destruct (g !! k) as [z|] eqn:E; [done|].
    destruct (decide (k ∈ k0 :: ks)) as [Hk|Hk], (decide (k ∈ ks)) as [Hk'|Hk'];
      try done; [|exfalso; apply Hk; by right].
    apply elem_of_cons in Hk as [->|]; [congruence|done].
  - destruct (decide (k0 = k)) as [<-|N].
    + rewrite lookup_insert_eq, Eg, decide_True by left. done.
    + rewrite lookup_insert_ne by done. destruct (g !! k) as [z|]; [done|].
      destruct (decide (k ∈ k0 :: ks)) as [Hk|Hk], (decide (k ∈ ks)) as [Hk'|Hk'];
        try done; [|exfalso; apply Hk; by right].
      apply elem_of_cons in Hk as [->|]; done.
  - destruct (g !! k) as [z|]; [done|].
    destruct (decide (k ∈ k0 :: ks)) as [Hk|Hk], (decide (k ∈ ks)) as [Hk'|Hk'];
      try done; [|exfalso; apply Hk; by right].
    apply elem_of_cons in Hk as [->|]; done.
Qed.

Definition zcount (ty : string → table) (ks : list string) : Z := zsum (heals ty <$> ks).

Lemma heal_list_spec ty r es n g :
  typed ty r → (∀ e, e ∈ es → m_ID e ∈ ids_of r) →
  let '(n', g') := foldl (heal_one (λ k, handleLedgerRecordFor k r)) (n, g) es in
  let ks := m_ID <$> es in
  n' = n + zcount ty ks ∧ txs g' = txs g ∧ txIndex g' = txIndex g ∧
  (∀ k, recs g' !! k = taken ks (recs r) (recs g) k) ∧
  (∀ k, trusts g' !! k = taken ks (trusts r) (trusts g) k) ∧
  (∀ k, claims g' !! k = taken ks (claims r) (claims g) k) ∧
  (∀ k, penalties g' !! k = taken ks (penalties r) (penalties g) k).
Proof.
  intros Hr. revert n g. induction es as [|e es IH]; intros n g Hes.
  { cbn. split; [lia|]. split; [done|]. split; [done|]. unfold taken.
    split_and!; intros k; by destruct (_ !! k). }
  cbn [foldl]. pose proof (heal_one_spec ty r n g e Hr (Hes e ltac:(left))) as H1.
  destruct (heal_one _ (n, g) e) as [n1 g1]. destruct H1 as [-> [E1 E2 E3 E4 E5 E6]].
  specialize (IH (n + heals ty (m_ID e)) g1 ltac:(intros; apply Hes; by right)).
  destruct (foldl _ _ es) as [n' g']. destruct IH as (-> & H2 & H3 & H4 & H5 & H6 & H7).
  rewrite fmap_cons. split; [unfold zcount; rewrite fmap_cons, zsum_cons; lia|].
  split; [by rewrite H2|]. split; [by rewrite H3|].
  split_and!; intros k; [rewrite H4, E1|rewrite H5, E2|rewrite H6, E3|rewrite H7, E4];
    apply healed_taken.
Qed.

(** A table of the result: everything local, and everything remote that was unknown. *)
Lemma taken_all {A} ty g r (tab : GossipLedger → gmap string A) (t : table) k :
  (∀ j x, tab r !! j = Some x → j ∈ ids_of r ∧ ty j = t) →
  (∀ j, j ∈ ids_of g → ty j = t → is_Some (tab g !! j)) →
  taken (m_ID <$> Missing (DiffManifests (BuildManifest g) (BuildManifest r))) (tab r) (tab g) k =
  match tab g !! k with Some x => Some x | None => tab r !! k end.
Proof.
  intros Hr Hg. unfold taken. destruct (tab g !! k) as [x|] eqn:E; [done|].
  destruct (decide _) as [|Hn]; [done|]. destruct (tab r !! k) as [y|] eqn:Ey; [|done].
  exfalso. apply Hn. apply missing_ids. destruct (Hr _ _ Ey) as [H1 H2].
  split; [done|]. intros Hin. destruct (Hg k Hin H2) as [? ?]. congruence.
Qed.

Lemma ids_table ty g k :
  typed ty g → k ∈ ids_of g →
  (ty k = TContrib → is_Some (recs g !! k)) ∧ (ty k = TTrust → is_Some (trusts g !! k)) ∧
  (ty k = TClaim → is_Some (claims g !! k)) ∧ (ty k = TPenalty → is_Some (penalties g !! k)).
Proof.
  intros Hg Hin. apply (ids_of_tables ty g k Hg) in Hin.
  destruct (typed_none ty g k Hg) as (N1 & N2 & N3 & N4).
  destruct Hin as [[x Hx]|[[x Hx]|[[x Hx]|[[x Hx]|Hx]]]].
  - destruct (ty_recs ty g Hg k x Hx) as (_ & _ & Ht). split_and!; intros E; congruence || by eexists.
  - destruct (ty_trusts ty g Hg k x Hx) as (_ & _ & Ht). split_and!; intros E; congruence || by eexists.
  - destruct (ty_claims ty g Hg k x Hx) as (_ & _ & Ht). split_and!; intros E; congruence || by eexists.
  - destruct (ty_penalties ty g Hg k x Hx) as (_ & _ & Ht).
    split_and!; intros E; congruence || by eexists.
  - apply list_elem_of_fmap in Hx as (x & -> & Hx). destruct (ty_txs ty g Hg x Hx) as [Ht _].
    split_and!; intros E; congruence.
Qed.

(** Local tables completed with the remote ones keep every id in its table. *)
Lemma typed_union ty g r g' :
  typed ty g → typed ty r → txs g' = txs g → txIndex g' = txIndex g →
  (∀ k, recs g' !! k = match recs g !! k with Some x => Some x | None => recs r !! k end) →
  (∀ k, trusts g' !! k = match trusts g !! k with Some x => Some x | None => trusts r !! k end) →
  (∀ k, claims g' !! k = match claims g !! k with Some x => Some x | None => claims r !! k end) →
  (∀ k, penalties g' !! k =
        match penalties g !! k with Some x => Some x | None => penalties r !! k end) →
  typed ty g'.
Proof.
  intros [G1 G2 G3 G4 G5 G6] [R1 R2 R3 R4 _ _] Htx Hix K1 K2 K3 K4. split.
  - intros k x. rewrite K1. destruct (recs g !! k) eqn:E; [intros [= <-]|]; eauto.
  - intros k x. rewrite K2. destruct (trusts g !! k) eqn:E; [intros [= <-]|]; eauto.
  - intros k x. rewrite K3. destruct (claims g !! k) eqn:E; [intros [= <-]|]; eauto.
  - intros k x. rewrite K4. destruct (penalties g !! k) eqn:E; [intros [= <-]|]; eauto.
  - rewrite Htx. exact G5.
  - rewrite Htx, Hix. exact G6.
Qed.

(** C21. Reconciling with a peer heals the ledger: after [ReconcileWith] a peer that answers
    every request, each of the four record tables holds exactly its own records and
    the peer's records with ids it did not know; no local record and no transaction
    changes; the count returned is the number of missing records other than
    transactions; and only transactions are still missing afterwards. *)
Theorem reconcile_heals ty g r :
  typed ty g → typed ty r →
  ∃ diff n g', ReconcileWith (λ k, handleLedgerRecordFor k r) (Ok (BuildManifest r)) g =
    (Ok (diff, n), g') ∧
  (∀ k, recs g' !! k = match recs g !! k with Some x => Some x | None => recs r !! k end) ∧
  (∀ k, trusts g' !! k = match trusts g !! k with Some x => Some x | None => trusts r !! k end) ∧
  (∀ k, claims g' !! k = match claims g !! k with Some x => Some x | None => claims r !! k end) ∧
  (∀ k, penalties g' !! k =
        match penalties g !! k with Some x => Some x | None => penalties r !! k end) ∧
  typed ty g' ∧ txs g' = txs g ∧ n = zcount ty (m_ID <$> Missing diff) ∧
  (∀ e, e ∈ Missing (DiffManifests (BuildManifest g') (BuildManifest r)) → ty (m_ID e) = TTx).
Proof.
  intros Hg Hr. unfold ReconcileWith, reconcileWithManifest.
  set (diff := DiffManifests (BuildManifest g) (BuildManifest r)).
  pose proof (heal_list_spec ty r (Missing diff) 0 g Hr) as Hh.
  destruct (foldl _ (0, g) (Missing diff)) as [n g'].
  destruct Hh as (Hn & Htx & Hix & H1 & H2 & H3 & H4).
  { intros e He. apply (missing_ids g r). by apply list_elem_of_fmap_2. }
  exists diff, n, g'.
  assert (K1 : ∀ k, recs g' !! k = match recs g !! k with Some x => Some x | None => recs r !! k end).
  { intros k. rewrite H1. apply (taken_all ty g r recs TContrib).
    - intros j x Hx. split; [|by apply (ty_recs ty r Hr j x)]. apply (ids_of_tables ty r j Hr); eauto.
    - intros j Hj Ht. by apply (ids_table ty g j Hg Hj). }
  assert (K2 : ∀ k, trusts g' !! k =
                    match trusts g !! k with Some x => Some x | None => trusts r !! k end).
  { intros k. rewrite H2. apply (taken_all ty g r trusts TTrust).
    - intros j x Hx. split; [|by apply (ty_trusts ty r Hr j x)]. apply (ids_of_tables ty r j Hr); eauto.
    - intros j Hj Ht. by apply (ids_table ty g j Hg Hj). }
  assert (K3 : ∀ k, claims g' !! k =
                    match claims g !! k with Some x => Some x | None => claims r !! k end).
  { intros k. rewrite H3. apply (taken_all ty g r claims TClaim).
    - intros j x Hx. split; [|by apply (ty_claims ty r Hr j x)].
      apply (ids_of_tables ty r j Hr); eauto 6.
    - intros j Hj Ht. by apply (ids_table ty g j Hg Hj). }
  assert (K4 : ∀ k, penalties g' !! k =
                    match penalties g !! k with Some x => Some x | None => penalties r !! k end).
  { intros k. rewrite H4. apply (taken_all ty g r penalties TPenalty).
    - intros j x Hx. split; [|by apply (ty_penalties ty r Hr j x)].
      apply (ids_of_tables ty r j Hr); eauto 7.
    - intros j Hj Ht. by apply (ids_table ty g j Hg Hj). }
  pose proof (typed_union ty g r g' Hg Hr Htx Hix K1 K2 K3 K4) as Hg'.
  split_and!; try done. intros e He.
  assert (Hk : m_ID e ∈ ids_of r ∧ m_ID e ∉ ids_of g').
  { apply missing_ids. by apply list_elem_of_fmap_2. }
  destruct Hk as [Hk Hmiss]. apply (ids_of_tables ty r _ Hr) in Hk.
  rewrite (ids_of_tables ty g' _ Hg'), K1, K2, K3, K4 in Hmiss.
  destruct Hk as [[x Hx]|[[x Hx]|[[x Hx]|[[x Hx]|Hx]]]].
  - exfalso. apply Hmiss. left. rewrite Hx. by destruct (recs g !! _).
  - exfalso. apply Hmiss. right. left. rewrite Hx. by destruct (trusts g !! _).
  - exfalso. apply Hmiss. do 2 right. left. rewrite Hx. by destruct (claims g !! _).
  - exfalso. apply Hmiss. do 3 right. left. rewrite Hx. by destruct (penalties g !! _).
  - apply list_elem_of_fmap in Hx as (x & -> & Hx). by destruct (ty_txs ty r Hr x Hx).
Qed.
End manifest.

(** Two nodes: one knows a contribution, the other another one and a trust record. *)
Definition doc_env : ManifestEnv := {|
  marshal_trust := λ t, Some (t_ID t); marshal_claim := λ k, Some (k_ID k) |}.

Definition demo_record (id : string) : ContributionRecord := {|
  c_ID := id; c_PeerID := "p"; c_PeerPublicKey := ""; c_ModelID := "m"; c_Provider := "x";
  c_Tokens := 5; c_ValueUSD := float_of_int 0; c_Timestamp := 0; c_Signature := "";
  c_Proof := {| ContentHash := ""; StorageLocation := ""; Verified := false |} |}.
Definition demo_trust : TrustRecord := {|
  t_ID := "t1"; t_SubjectPeerID := "p"; t_VerifierPeerID := "q"; t_ModelID := "m";
  t_Success := true; t_LatencyMS := 3; t_Timestamp := 0; t_Signature := "" |}.
Definition demo_local : GossipLedger :=
  set_records (NewGossipLedger "a") {["c1" := demo_record "c1"]} ∅ ∅ ∅ ∅.
Definition demo_remote : GossipLedger :=
  set_records (NewGossipLedger "b") {["c2" := demo_record "c2"]} {["t1" := demo_trust]} ∅ ∅ ∅.
Definition demo_table (k : string) : table := if bool_decide (k = "t1") then TTrust else TContrib.

Lemma demo_typed rs ts :
  (∀ k x, rs !! k = Some x → c_ID x = k ∧ k ≠ "" ∧ demo_table k = TContrib) →
  (∀ k x, ts !! k = Some x → t_ID x = k ∧ k ≠ "" ∧ demo_table k = TTrust) →
  ∀ p, typed demo_table (set_records (NewGossipLedger p) rs ts ∅ ∅ ∅).
Proof.
  intros Hr Ht p. split; cbn; try (by intros k x; rewrite lookup_empty); [exact Hr|exact Ht|..].
  - by intros x ?%elem_of_nil.
  - intros k. rewrite lookup_empty, elem_of_nil. split; [by intros [? ?]|done].
Qed.

Lemma reconcile_heals_witness :
  typed demo_table demo_local ∧ typed demo_table demo_remote ∧
  ∃ diff n g', ReconcileWith (H := plain_env) (H0 := doc_env)
    (λ k, handleLedgerRecordFor k demo_remote)
    (Ok (BuildManifest (H := plain_env) (H0 := doc_env) demo_remote)) demo_local
    = (Ok (diff, n), g') ∧
  recs g' !! "c1" = Some (demo_record "c1") ∧ recs g' !! "c2" = Some (demo_record "c2") ∧
  trusts g' !! "t1" = Some demo_trust.
Proof.
  assert (G : typed demo_table demo_local).
  { apply demo_typed; [|by intros k x; rewrite lookup_empty].
    intros k x [<- <-]%lookup_singleton_Some. by split_and!. }
  assert (R : typed demo_table demo_remote).
  { apply demo_typed; intros k x [<- <-]%lookup_singleton_Some; by split_and!. }
  split; [exact G|]. split; [exact R|].
  destruct (reconcile_heals (H := plain_env) (H0 := doc_env) demo_table demo_local demo_remote G R)
    as (diff & n & g' & E & K1 & K2 & _).
  exists diff, n, g'. split; [exact E|].
  clear E. split; [rewrite K1; vm_compute; reflexivity|].
  split; [rewrite K1|rewrite K2]; vm_compute; reflexivity.
Defined.
