(* ===== verification/DnsCodec.v ===== *)
(** * The DNS codec of the LAN discovery (lan_discovery.go)

    Names, questions, records and messages of multicast DNS. The decoder works on
    hostile packets, so reading is modelled with the run-time checks of Go: an index
    or slice out of range is [Panic], an error the code returns is [Fail]. *)

From S2P Require Import Prelude Bytes.

(** A Go function that returns an error or panics. *)
Inductive go (A : Type) := Ret (a : A) | Fail (msg : string) | Panic.
Arguments Ret {A} a.
Arguments Fail {A} msg.
Arguments Panic {A}.

#[export] Instance go_bind : MBind go := λ A B f m,
  match m with Ret a => f a | Fail e => Fail e | Panic => Panic end.

(** [b[i]], [b[i:j]] and [binary.BigEndian.Uint16(b[i:i+2])] with their checks. *)
Definition index (b : bytes) (i : nat) : go Z :=
  match b !! i with Some x => Ret x | None => Panic end.
Definition subslice (b : bytes) (i j : nat) : go bytes :=
  if (i <=? j)%nat && (j <=? length b)%nat then Ret (slice i j b) else Panic.
Definition be16 (b : bytes) (i : nat) : go Z := s ← subslice b i (i + 2); Ret (be_value s).
Definition be32 (b : bytes) (i : nat) : go Z := s ← subslice b i (i + 4); Ret (be_value s).

Definition lanMaxDatagram : nat := 9000.

Record dnsQuestion := { q_name : string; qtype : Z; qclass : Z }.
Record dnsRR := { rr_name : string; rtype : Z; rclass : Z; ttl : Z; rdata : bytes }.
Record dnsMessage := {
  m_id : Z; response : bool; authoritative : bool;
  questions : list dnsQuestion; answers : list dnsRR }.

(** ** Encoding *)

Fixpoint encode_labels (total : nat) (ls : list string) (buf : bytes) : res bytes :=
  match ls with
  | [] => Ok (buf ++ [0])
  | l :: ls =>
      if (String.length l =? 0)%nat || (63 <? String.length l)%nat then Err "bad label length"
      else
        let total := (total + (1 + String.length l))%nat in
        if (255 <? total)%nat then Err "name too long"
        else encode_labels total ls (buf ++ [Z.of_nat (String.length l)] ++ bytes_of l)
  end.

Definition dnsEncodeName (buf : bytes) (name : string) : res bytes :=
  let name := trim_last "." name in
  if bool_decide (name = "") then Ok (buf ++ [0]) else encode_labels 0 (split_on "." name) buf.

Definition dnsEncodeQuestion (buf : bytes) (q : dnsQuestion) : res bytes :=
  match dnsEncodeName buf (q_name q) with
  | Ok buf => Ok (buf ++ put_uint16 (qtype q) ++ put_uint16 (qclass q))
  | Err e => Err e
  end.

Definition dnsEncodeRR (buf : bytes) (rr : dnsRR) : res bytes :=
  match dnsEncodeName buf (rr_name rr) with
  | Ok buf => Ok (buf ++ put_uint16 (rtype rr) ++ put_uint16 (rclass rr) ++ put_uint32 (ttl rr)
                  ++ put_uint16 (Z.of_nat (length (rdata rr))) ++ rdata rr)
  | Err e => Err e
  end.

Fixpoint encode_all {A} (enc : bytes → A → res bytes) (buf : bytes) (l : list A) : res bytes :=
  match l with
  | [] => Ok buf
  | x :: l => match enc buf x with Ok buf => encode_all enc buf l | Err e => Err e end
  end.

Definition flags_of (m : dnsMessage) : Z :=
  Z.lor (if response m then 32768 else 0) (if authoritative m then 1024 else 0).

Definition encodeDNSMessage (m : dnsMessage) : res bytes :=
  if (32 <? length (questions m))%nat || (128 <? length (answers m))%nat then Err "too many sections"
  else
    let hdr := put_uint16 (m_id m) ++ put_uint16 (flags_of m)
               ++ put_uint16 (Z.of_nat (length (questions m)))
               ++ put_uint16 (Z.of_nat (length (answers m))) ++ [0; 0; 0; 0] in
    match encode_all dnsEncodeQuestion hdr (questions m) with
    | Err e => Err e
    | Ok buf =>
        match encode_all dnsEncodeRR buf (answers m) with
        | Err e => Err e
        | Ok buf => if (lanMaxDatagram <? length buf)%nat then Err "DNS message exceeds the datagram limit"
                    else Ok buf
        end
    end.

(** ** Decoding *)

(** The loop of [dnsDecodeName]; [budget] is 65 minus its counter [jumps]. *)
Fixpoint decode_labels (pkt : bytes) (budget off next : nat) (jumped : bool) (labels : list string)
    : go (string * nat) :=
  match budget with
  | O => Fail "name pointer loop"
  | S budget =>
      if (length pkt <=? off)%nat then Fail "truncated name"
      else
        b ← index pkt off;
        if Z.land b 192 =? 192 then
          if (length pkt <=? off + 1)%nat then Fail "truncated pointer"
          else
            b' ← index pkt (off + 1);
            let ptr := Z.to_nat (Z.lor (Z.shiftl (Z.land b 63) 8) b') in
            if (length pkt <=? ptr)%nat then Fail "pointer out of range"
            else decode_labels pkt budget ptr (if jumped then next else off + 2)%nat true labels
        else if Z.land b 192 =? 0 then
          let l := Z.to_nat b in
          let off := S off in
          if (l =? 0)%nat then
            let next := if jumped then next else off in
            Ret (if bool_decide (labels = []) then "." else join "." labels +:+ ".", next)
          else if (length pkt <? off + l)%nat then Fail "truncated label"
          else
            label ← subslice pkt off (off + l);
            let labels := labels ++ [str_of label] in
            if (127 <? length labels)%nat then Fail "too many labels"
            else decode_labels pkt budget (off + l)%nat next jumped labels
        else Fail "bad label bits"
  end.

Definition dnsDecodeName (pkt : bytes) (off : nat) : go (string * nat) :=
  decode_labels pkt 65 off off false [].

Definition readQuestion (pkt : bytes) (off : nat) : go (dnsQuestion * nat) :=
  r ← dnsDecodeName pkt off;
  let '(name, next) := r in
  if (length pkt <? next + 4)%nat then Fail "truncated question"
  else
    t ← be16 pkt next; c ← be16 pkt (next + 2);
    Ret ({| q_name := name; qtype := t; qclass := c |}, (next + 4)%nat).

Definition readRR (pkt : bytes) (off : nat) : go (dnsRR * nat) :=
  r ← dnsDecodeName pkt off;
  let '(name, next) := r in
  if (length pkt <? next + 10)%nat then Fail "truncated RR header"
  else
    t ← be16 pkt next; c ← be16 pkt (next + 2); l ← be32 pkt (next + 4);
    rdlen ← be16 pkt (next + 8);
    let rdlen := Z.to_nat rdlen in
    if (length pkt <? next + 10 + rdlen)%nat then Fail "truncated RDATA"
    else
      d ← subslice pkt (next + 10) (next + 10 + rdlen);
      Ret ({| rr_name := name; rtype := t; rclass := c; ttl := l; rdata := d |}, (next + 10 + rdlen)%nat).

(** A section of [n] entries. *)
Fixpoint read_all {A} (read : bytes → nat → go (A * nat)) (pkt : bytes) (n off : nat)
    : go (list A * nat) :=
  match n with
  | O => Ret ([], off)
  | S n =>
      r ← read pkt off;
      let '(x, off) := r in
      r ← read_all read pkt n off;
      let '(l, off) := r in Ret (x :: l, off)
  end.

Definition decodeDNSMessage (pkt : bytes) : go dnsMessage :=
  if (length pkt <? 12)%nat then Fail "short header"
  else
    id ← be16 pkt 0; flags ← be16 pkt 2; qd ← be16 pkt 4; an ← be16 pkt 6; ns ← be16 pkt 8; ar ← be16 pkt 10;
    if (32 <? qd) || (128 <? an) || (128 <? ns) || (128 <? ar) then Fail "section count too large"
    else
      r ← read_all readQuestion pkt (Z.to_nat qd) 12;
      let '(qs, off) := r in
      r ← read_all readRR pkt (Z.to_nat an) off;
      let '(rrs, off) := r in
      r ← read_all readRR pkt (Z.to_nat ns + Z.to_nat ar) off;
      Ret {| m_id := id; response := negb (Z.land flags 32768 =? 0);
             authoritative := negb (Z.land flags 1024 =? 0); questions := qs; answers := rrs |}.

(** ** Record data *)

Definition dnsEncodeSRV (port : Z) (target : string) : res bytes :=
  dnsEncodeName ([0; 0; 0; 0] ++ put_uint16 port) target.

Definition dnsDecodeSRV (rd : bytes) : go (Z * string) :=
  if (length rd <? 6)%nat then Fail "short SRV rdata"
  else
    r ← dnsDecodeName rd 6;
    port ← be16 rd 4;
    Ret (port, r.1).

(** The loop of [dnsDecodeTXT]; it stops with an error at the 65th string, so [budget]
    does not run out. *)
Fixpoint decode_txt (budget : nat) (rd : bytes) (out : list string) : go (list string) :=
  match rd with
  | [] => Ret out
  | x :: rd =>
      match budget with
      | O => Fail "too many TXT strings"
      | S budget =>
          let l := Z.to_nat x in
          if (length rd <? l)%nat then Fail "truncated TXT string"
          else
            s ← subslice rd 0 l; rest ← subslice rd l (length rd);
            let out := out ++ [str_of s] in
            if (64 <? length out)%nat then Fail "too many TXT strings" else decode_txt budget rest out
      end
  end.
Definition dnsDecodeTXT (rd : bytes) : go (list string) := decode_txt 65 rd [].

(** ** No panic *)

(** A result that is not a panic, and satisfies [P] when there is one. *)
Definition safely {A} (P : A → Prop) (r : go A) : Prop :=
  match r with Ret a => P a | Fail _ => True | Panic => False end.

Lemma safely_bind {A B} (P : A → Prop) (Q : B → Prop) (m : go A) (f : A → go B) :
  safely P m → (∀ a, P a → safely Q (f a)) → safely Q (m ≫= f).
Proof. destruct m; cbn; auto. Qed.

Lemma safely_mono {A} (P Q : A → Prop) (r : go A) : (∀ a, P a → Q a) → safely P r → safely Q r.
Proof. destruct r; cbn; auto. Qed.

Lemma index_safe b i : (i < length b)%nat → safely (λ _, True) (index b i).
Proof. intros H. unfold index. by destruct (lookup_lt_is_Some_2 b i H) as [x ->]. Qed.

Lemma subslice_safe b i j :
  (i ≤ j)%nat → (j ≤ length b)%nat → safely (λ s, length s = (j - i)%nat) (subslice b i j).
Proof.
  intros Hi Hj. unfold subslice. rewrite (proj2 (Nat.leb_le i j)), (proj2 (Nat.leb_le j _)) by done.
  cbn. by apply slice_length.
Qed.

Lemma be16_safe b i : (i + 2 ≤ length b)%nat → safely (λ _, True) (be16 b i).
Proof. intros. eapply safely_bind; [apply subslice_safe; lia|done]. Qed.
Lemma be32_safe b i : (i + 4 ≤ length b)%nat → safely (λ _, True) (be32 b i).
Proof. intros. eapply safely_bind; [apply subslice_safe; lia|done]. Qed.

(** A decoded name ends inside the packet, after where it began. *)
Lemma decode_labels_safe pkt budget off next jumped labels start :
  (start ≤ off)%nat ∨ jumped = true → (jumped = true → (start < next ≤ length pkt)%nat) →
  safely (λ r, (start < r.2 ≤ length pkt)%nat) (decode_labels pkt budget off next jumped labels).
Proof.
  revert off next jumped labels. induction budget as [|n IH]; intros off next jumped labels Ho Hn; [done|].
  cbn [decode_labels]. destruct (Nat.leb_spec (length pkt) off) as [|Hlt]; [done|].
  eapply safely_bind; [by apply index_safe|]. intros b _. cbv zeta.
  destruct (Z.land b 192 =? 192).
  - destruct (Nat.leb_spec (length pkt) (off + 1)); [done|].
    eapply safely_bind; [apply index_safe; lia|]. intros b' _.
    destruct (length pkt <=? _)%nat; [done|]. apply IH; [by right|]. intros _.
    destruct jumped; [by apply Hn|]. destruct Ho; [lia|done].
  - destruct (Z.land b 192 =? 0); [|done]. destruct (Z.to_nat b =? 0)%nat eqn:El.
    + cbn. destruct jumped; [by apply Hn|]. destruct Ho; [lia|done].
    + destruct (Nat.ltb_spec (length pkt) (S off + Z.to_nat b)); [done|].
      eapply safely_bind; [apply subslice_safe; lia|]. intros s _. destruct (127 <? _)%nat; [done|].
      apply IH; [|done]. destruct Ho as [?|?]; [left; lia|by right].
Qed.

Lemma decode_name_safe pkt off : safely (λ r, (off < r.2 ≤ length pkt)%nat) (dnsDecodeName pkt off).
Proof. apply decode_labels_safe; [by left|done]. Qed.

Lemma read_question_safe pkt off :
  safely (λ r, (off < r.2 ≤ length pkt)%nat) (readQuestion pkt off).
Proof.
  eapply safely_bind; [apply decode_name_safe|]. intros [name next] Hr. cbn in Hr.
  destruct (Nat.ltb_spec (length pkt) (next + 4)); [done|].
  eapply safely_bind; [apply be16_safe; lia|]. intros t _.
  eapply safely_bind; [apply be16_safe; lia|]. intros c _. cbn. lia.
Qed.

Lemma read_rr_safe pkt off : safely (λ r, (off < r.2 ≤ length pkt)%nat) (readRR pkt off).
Proof.
  eapply safely_bind; [apply decode_name_safe|]. intros [name next] Hr. cbn in Hr.
  destruct (Nat.ltb_spec (length pkt) (next + 10)); [done|].
  do 2 (eapply safely_bind; [apply be16_safe; lia|intros ? _]).
  eapply safely_bind; [apply be32_safe; lia|intros ? _].
  eapply safely_bind; [apply be16_safe; lia|]. intros rdlen _. cbv zeta.
  destruct (Nat.ltb_spec (length pkt) (next + 10 + Z.to_nat rdlen)); [done|].
  eapply safely_bind; [apply subslice_safe; lia|]. intros d _. cbn. lia.
Qed.

Lemma read_all_safe {A} (read : bytes → nat → go (A * nat)) pkt n off :
  (∀ off, safely (λ r, (off < r.2 ≤ length pkt)%nat) (read pkt off)) →
  safely (λ r, (off + length r.1 ≤ r.2)%nat ∧ length r.1 = n) (read_all read pkt n off).
Proof.
  intros Hread. revert off. induction n as [|n IH]; intros off; [cbn; lia|]. cbn [read_all].
  eapply safely_bind; [apply Hread|]. intros [x off'] Hr. cbn in Hr.
  eapply safely_bind; [apply IH|]. intros [l off''] [Hl <-]. cbn in *. lia.
Qed.

Lemma decode_txt_safe budget rd out : safely (λ _, True) (decode_txt budget rd out).
Proof.
  revert rd out. induction budget as [|n IH]; intros [|x rd] out; try done. cbn [decode_txt]. cbv zeta.
  destruct (Nat.ltb_spec (length rd) (Z.to_nat x)); [done|].
  eapply safely_bind; [apply subslice_safe; lia|]. intros s _.
  eapply safely_bind; [apply subslice_safe; lia|]. intros rest _. by destruct (64 <? _)%nat.
Qed.

(** C18. Decoding never panics: on any packet whatever, the message, SRV and TXT decoders
    return a value or an error, every index and slice within bounds; a decoded message has
    at most 32 questions and 128 answers, and a decoded name ends inside the packet, after
    where it began, so that following compression pointers ends. *)
Theorem decode_never_panics pkt off :
  safely (λ m, (length (questions m) ≤ 32)%nat ∧ (length (answers m) ≤ 128)%nat) (decodeDNSMessage pkt) ∧
  safely (λ r, (off < r.2 ≤ length pkt)%nat) (dnsDecodeName pkt off) ∧
  safely (λ _, True) (dnsDecodeSRV pkt) ∧ safely (λ _, True) (dnsDecodeTXT pkt).
Proof.
  split; [|split; [apply decode_name_safe|split; [|apply decode_txt_safe]]].
  - unfold decodeDNSMessage. destruct (Nat.ltb_spec (length pkt) 12); [done|].
    do 6 (eapply safely_bind; [apply be16_safe; lia|intros ? _]).
    destruct (Z.ltb_spec 32 a1), (Z.ltb_spec 128 a2); try done. cbn [orb].
    destruct (_ || _); [done|].
    eapply safely_bind; [apply read_all_safe, read_question_safe|]. intros [qs off1] [_ Hq].
    eapply safely_bind; [apply read_all_safe, read_rr_safe|]. intros [rrs off2] [_ Hr].
    eapply safely_bind; [apply read_all_safe, read_rr_safe|]. intros [rest off3] _. cbn in *. lia.
  - unfold dnsDecodeSRV. destruct (Nat.ltb_spec (length pkt) 6); [done|].
    eapply safely_bind; [apply decode_name_safe|]. intros r _.
    eapply safely_bind; [apply be16_safe; lia|]. done.
Qed.

(** ** Round trips *)

Definition good_label (l : string) : Prop :=
  has_char "." l = false ∧ (1 ≤ String.length l ≤ 63)%nat.
Definition label_wire (l : string) : bytes := [Z.of_nat (String.length l)] ++ bytes_of l.
Definition name_wire (ls : list string) : bytes := concat (label_wire <$> ls) ++ [0].
(** The canonical form of a name, with its trailing dot. *)
Definition canon (ls : list string) : string :=
  if bool_decide (ls = []) then "." else join "." ls +:+ ".".
Definition good_name (ls : list string) : Prop :=
  Forall good_label ls ∧ (length (concat (label_wire <$> ls)) ≤ 255)%nat.

Lemma label_wire_length l : length (label_wire l) = S (String.length l).
Proof. unfold label_wire. rewrite length_app, bytes_of_length. done. Qed.

Lemma encode_labels_ok total ls buf :
  Forall good_label ls → (total + length (concat (label_wire <$> ls)) ≤ 255)%nat →
  encode_labels total ls buf = Ok (buf ++ name_wire ls).
Proof.
  revert total buf. induction ls as [|l ls IH]; intros total buf; [done|].
  intros [[_ Hl] Hls]%Forall_cons Ht. cbn [encode_labels fmap list_fmap concat] in *.
  rewrite length_app, label_wire_length in Ht.
  rewrite (proj2 (Nat.eqb_neq _ _)), (proj2 (Nat.ltb_ge _ _)) by lia. cbn [orb].
  rewrite (proj2 (Nat.ltb_ge _ _)) by lia. rewrite IH by (done || lia).
  unfold name_wire. cbn [fmap list_fmap concat]. unfold label_wire at 2. by rewrite !app_assoc.
Qed.

Lemma join_nonempty ls : ls ≠ [] → Forall good_label ls → join "." ls ≠ "".
Proof.
  destruct ls as [|l [|v ls]]; [done|..]; intros _ [[_ Hl] _]%Forall_cons.
  - cbn. intros ->. cbn in Hl. lia.
  - change (join "." (l :: v :: ls)) with (l +:+ String "." (join "." (v :: ls))). by destruct l.
Qed.

Lemma encode_name_ok buf ls : good_name ls → dnsEncodeName buf (canon ls) = Ok (buf ++ name_wire ls).
Proof.
  intros [Hls Hlen]. unfold dnsEncodeName, canon. destruct (bool_decide_reflect (ls = [])) as [He|He].
  - by subst.
  - rewrite trim_last_snoc, bool_decide_eq_false_2 by (by apply join_nonempty).
    rewrite split_join; [by apply encode_labels_ok|done|].
    eapply Forall_impl; [exact Hls|]. by intros l [? _].
Qed.

(** A length byte has its two high bits clear. *)
Lemma low_bits b : 0 ≤ b < 64 → Z.land b 192 = 0.
Proof.
  intros Hb. assert (Hall : forallb (λ n, Z.land (Z.of_nat n) 192 =? 0) (seq 0 64) = true) by reflexivity.
  rewrite forallb_forall in Hall. specialize (Hall (Z.to_nat b)). rewrite Z2Nat.id in Hall by lia.
  apply Z.eqb_eq, Hall. apply in_seq. lia.
Qed.

Lemma index_at pre x post : index (pre ++ x :: post) (length pre) = Ret x.
Proof. unfold index. by rewrite list_lookup_middle. Qed.

Lemma subslice_at (pre b post : bytes) i j :
  length pre = i → (i + length b)%nat = j → subslice (pre ++ b ++ post) i j = Ret b.
Proof.
  intros Hi Hj. unfold subslice.
  rewrite (proj2 (Nat.leb_le i j)), (proj2 (Nat.leb_le j _)) by (rewrite ?length_app; lia).
  cbn. by rewrite slice_mid.
Qed.

(** What the decoder makes of a name written by the encoder. *)
Lemma decode_labels_wire budget ls done_ pre post next :
  Forall good_label ls → (length done_ + length ls ≤ 127)%nat →
  decode_labels (pre ++ name_wire ls ++ post) budget (length pre) next false done_ =
  (if (length ls <? budget)%nat
   then Ret (canon (done_ ++ ls), length (pre ++ name_wire ls)) else Fail "name pointer loop").
Proof.
  revert ls done_ pre. induction budget as [|n IH]; intros ls done_ pre Hls Hlen; [by destruct (Nat.ltb_spec (length ls) 0); [lia|]|].
  cbn [decode_labels]. destruct (Nat.leb_spec (length (pre ++ name_wire ls ++ post)) (length pre)) as [Hle|_].
  { unfold name_wire in Hle. rewrite !length_app in Hle. cbn in Hle. lia. }
  destruct ls as [|l ls].
  - unfold name_wire. cbn [fmap list_fmap concat app]. rewrite index_at. cbn [mbind go_bind]. cbv zeta.
    change (Z.land 0 192 =? 192) with false. change (Z.land 0 192 =? 0) with true.
    change (Z.to_nat 0 =? 0)%nat with true. cbv iota.
    rewrite app_nil_r, length_app. cbn [length Nat.ltb Nat.leb]. by rewrite Nat.add_1_r.
  - apply Forall_cons in Hls as [[Hdot Hl] Hls]. cbn [length] in *.
    assert (Ew : pre ++ name_wire (l :: ls) ++ post =
                 (pre ++ [Z.of_nat (String.length l)]) ++ bytes_of l ++ (name_wire ls ++ post)).
    { unfold name_wire, label_wire. cbn [fmap list_fmap concat]. by rewrite <- !app_assoc. }
    assert (Ei : index (pre ++ name_wire (l :: ls) ++ post) (length pre) = Ret (Z.of_nat (String.length l))).
    { rewrite Ew, <- app_assoc. apply index_at. }
    rewrite Ei. cbn [mbind go_bind]. cbv zeta. rewrite low_bits by lia. cbn [Z.eqb].
    rewrite Nat2Z.id. rewrite (proj2 (Nat.eqb_neq _ _)) by lia.
    destruct (Nat.ltb_spec (length (pre ++ name_wire (l :: ls) ++ post)) (S (length pre) + String.length l)) as [Hlt|_].
    { rewrite Ew, !length_app, bytes_of_length in Hlt. cbn in Hlt. lia. }
    rewrite Ew, (subslice_at (pre ++ [Z.of_nat (String.length l)]))
      by (rewrite ?length_app, ?bytes_of_length; cbn; lia).
    cbn [mbind go_bind]. rewrite str_of_bytes_of, length_app. cbn [length].
    rewrite (proj2 (Nat.ltb_ge _ _)) by lia.
    set (pre' := pre ++ [Z.of_nat (String.length l)] ++ bytes_of l).
    assert (Ep : (pre ++ [Z.of_nat (String.length l)]) ++ bytes_of l ++ name_wire ls ++ post =
                 pre' ++ name_wire ls ++ post) by (unfold pre'; by rewrite <- !app_assoc).
    assert (El : (S (length pre) + String.length l)%nat = length pre').
    { unfold pre'. rewrite !length_app, bytes_of_length. cbn. lia. }
    rewrite Ep, El, IH by (rewrite ?length_app; cbn; (done || lia)).
    replace (length (pre' ++ name_wire ls)) with (length (pre ++ name_wire (l :: ls)))
      by (unfold pre', name_wire, label_wire; cbn [fmap list_fmap concat]; by rewrite <- !app_assoc).
    rewrite <- app_assoc. done.
Qed.

Lemma decode_name_wire ls pre post :
  good_name ls →
  dnsDecodeName (pre ++ name_wire ls ++ post) (length pre) =
  (if (length ls <=? 64)%nat then Ret (canon ls, length (pre ++ name_wire ls))
   else Fail "name pointer loop").
Proof.
  intros [Hls Hlen]. assert (Hn : (length ls ≤ 127)%nat).
  { assert (H2 : (2 * length ls ≤ length (concat (label_wire <$> ls)))%nat); [|lia].
    clear Hlen. induction Hls as [|l ls [_ Hl] _ IH]; [cbn; lia|].
    cbn [fmap list_fmap concat length]. rewrite length_app, label_wire_length. cbn in *. lia. }
  unfold dnsDecodeName. rewrite decode_labels_wire by (done || cbn; lia).
  by destruct (Nat.leb_spec (length ls) 64), (Nat.ltb_spec (length ls) 65); try lia.
Qed.

(** A name the message codec preserves. *)
Definition plain_name (n : string) : Prop := ∃ ls, n = canon ls ∧ good_name ls ∧ (length ls ≤ 64)%nat.

(** ** Messages *)

(** [enc] appends a wire form that [read] reads back. *)
Definition inverse {A} (P : A → Prop) (enc : bytes → A → res bytes) (read : bytes → nat → go (A * nat))
    (wire : A → bytes) : Prop :=
  ∀ x, P x → (∀ buf, enc buf x = Ok (buf ++ wire x)) ∧
    (∀ pre post, read (pre ++ wire x ++ post) (length pre) = Ret (x, length (pre ++ wire x))).

Lemma all_inverse {A} (P : A → Prop) enc read wire (l : list A) :
  inverse P enc read wire → Forall P l →
  (∀ buf, encode_all enc buf l = Ok (buf ++ concat (wire <$> l))) ∧
  (∀ pre post, read_all read (pre ++ concat (wire <$> l) ++ post) (length l) (length pre) =
               Ret (l, length (pre ++ concat (wire <$> l)))).
Proof.
  intros Hinv. induction 1 as [|x l Hx _ [IH1 IH2]]; cbn [encode_all read_all fmap list_fmap concat length].
  { split; intros; by rewrite app_nil_r. }
  destruct (Hinv x Hx) as [E D]. split.
  - intros buf. rewrite E, IH1. by rewrite <- app_assoc.
  - intros pre post. rewrite <- (app_assoc (wire x)), D. cbn [mbind go_bind].
    rewrite (app_assoc pre), IH2. cbn. by rewrite <- !app_assoc.
Qed.

Definition uint16 (z : Z) : Prop := 0 ≤ z < 65536.

Lemma be16_at pre z post i : length pre = i → uint16 z → be16 (pre ++ put_uint16 z ++ post) i = Ret z.
Proof.
  intros Hi Hz. unfold be16. rewrite (subslice_at pre) by (done || cbn; lia).
  cbn [mbind go_bind]. by rewrite be_value_uint16.
Qed.
Lemma be32_at pre z post i : length pre = i → 0 ≤ z < 2 ^ 32 → be32 (pre ++ put_uint32 z ++ post) i = Ret z.
Proof.
  intros Hi Hz. unfold be32. rewrite (subslice_at pre) by (done || cbn; lia).
  cbn [mbind go_bind]. by rewrite be_value_uint32.
Qed.

Definition name_labels (n : string) : list string :=
  let n := trim_last "." n in if bool_decide (n = "") then [] else split_on "." n.

Lemma name_labels_canon ls : Forall good_label ls → name_labels (canon ls) = ls.
Proof.
  intros Hls. unfold name_labels, canon. destruct (bool_decide_reflect (ls = [])) as [->|He]; [done|].
  rewrite trim_last_snoc, bool_decide_eq_false_2 by (by apply join_nonempty).
  apply split_join; [done|]. eapply Forall_impl; [exact Hls|]. by intros l [? _].
Qed.

Definition q_wire (q : dnsQuestion) : bytes :=
  name_wire (name_labels (q_name q)) ++ put_uint16 (qtype q) ++ put_uint16 (qclass q).
Definition rr_wire (r : dnsRR) : bytes :=
  name_wire (name_labels (rr_name r)) ++ put_uint16 (rtype r) ++ put_uint16 (rclass r)
  ++ put_uint32 (ttl r) ++ put_uint16 (Z.of_nat (length (rdata r))) ++ rdata r.

Definition plain_question (q : dnsQuestion) : Prop :=
  plain_name (q_name q) ∧ uint16 (qtype q) ∧ uint16 (qclass q).
Definition plain_rr (r : dnsRR) : Prop :=
  plain_name (rr_name r) ∧ uint16 (rtype r) ∧ uint16 (rclass r) ∧ 0 ≤ ttl r < 2 ^ 32 ∧
  Z.of_nat (length (rdata r)) < 65536.
(** What fits a message of this codec. *)
Definition plain_message (m : dnsMessage) : Prop :=
  uint16 (m_id m) ∧ Forall plain_question (questions m) ∧ Forall plain_rr (answers m).

Lemma plain_name_inverse n :
  plain_name n →
  (∀ buf, dnsEncodeName buf n = Ok (buf ++ name_wire (name_labels n))) ∧
  (∀ pre post, dnsDecodeName (pre ++ name_wire (name_labels n) ++ post) (length pre) =
               Ret (n, length (pre ++ name_wire (name_labels n)))).
Proof.
  intros (ls & -> & Hg & Hn). rewrite name_labels_canon by apply Hg. split; [intros; by apply encode_name_ok|].
  intros pre post. rewrite decode_name_wire by done. by rewrite (proj2 (Nat.leb_le _ _)) by done.
Qed.

Lemma question_inverse : inverse plain_question dnsEncodeQuestion readQuestion q_wire.
Proof.
  intros q (Hn & Ht & Hc). destruct (plain_name_inverse _ Hn) as [E D]. split.
  - intros buf. unfold dnsEncodeQuestion, q_wire. rewrite E. by rewrite <- app_assoc.
  - intros pre post. unfold readQuestion, q_wire. rewrite <- (app_assoc (name_wire _)), D.
    cbn [mbind go_bind]. set (w := name_wire (name_labels (q_name q))).
    rewrite <- (app_assoc (put_uint16 (qtype q))), (app_assoc pre).
    destruct (Nat.ltb_spec (length ((pre ++ w) ++ put_uint16 (qtype q) ++ put_uint16 (qclass q) ++ post))
                (length (pre ++ w) + 4)) as [Hlt|_]; [rewrite length_app in Hlt; cbn in Hlt; lia|].
    rewrite (be16_at (pre ++ w) (qtype q) _ (length (pre ++ w))) by done. cbn [mbind go_bind].
    rewrite (app_assoc (pre ++ w)), (be16_at _ (qclass q) _ (length (pre ++ w) + 2))
      by (done || (rewrite length_app; done)).
    cbn [mbind go_bind]. destruct q. do 2 f_equal. rewrite app_assoc, (length_app (pre ++ w)). done.
Qed.

Lemma rr_inverse : inverse plain_rr dnsEncodeRR readRR rr_wire.
Proof.
  intros r (Hn & Ht & Hc & Hl & Hd). destruct (plain_name_inverse _ Hn) as [E D]. split.
  - intros buf. unfold dnsEncodeRR, rr_wire. rewrite E. by rewrite <- app_assoc.
  - intros pre post. unfold readRR, rr_wire. rewrite <- (app_assoc (name_wire _)), D.
    cbn [mbind go_bind]. set (w := name_wire (name_labels (rr_name r))). set (p := pre ++ w).
    set (d := rdata r) in *. set (n := Z.of_nat (length d)) in *.
    assert (Hlen : length (pre ++ w ++ put_uint16 (rtype r) ++ put_uint16 (rclass r) ++ put_uint32 (ttl r)
              ++ put_uint16 n ++ d) = (length p + 10 + length d)%nat).
    { unfold p. rewrite !length_app. cbn. lia. }
    rewrite Hlen. rewrite <- !app_assoc, (app_assoc pre). fold p.
    match goal with |- context [(?a <? length p + 10)%nat] => destruct (Nat.ltb_spec a (length p + 10)) as [Hlt|_] end.
    { rewrite !length_app in Hlt. cbn in Hlt. lia. }
    rewrite (be16_at p (rtype r) _ (length p)) by done. cbn [mbind go_bind].
    rewrite (app_assoc p). set (p2 := p ++ put_uint16 (rtype r)).
    assert (L2 : length p2 = (length p + 2)%nat) by (unfold p2; by rewrite length_app).
    rewrite (be16_at p2 (rclass r) _ (length p + 2)) by done. cbn [mbind go_bind].
    rewrite (app_assoc p2). set (p4 := p2 ++ put_uint16 (rclass r)).
    assert (L4 : length p4 = (length p + 4)%nat) by (unfold p4; rewrite length_app, L2; cbn; lia).
    rewrite (be32_at p4 (ttl r) _ (length p + 4)) by done. cbn [mbind go_bind].
    rewrite (app_assoc p4). set (p8 := p4 ++ put_uint32 (ttl r)).
    assert (L8 : length p8 = (length p + 8)%nat) by (unfold p8; rewrite length_app, L4; cbn; lia).
    rewrite (be16_at p8 n _ (length p + 8)) by (done || (unfold uint16, n; lia)). cbn [mbind go_bind]. cbv zeta.
    rewrite (app_assoc p8). set (p10 := p8 ++ put_uint16 n).
    assert (L10 : length p10 = (length p + 10)%nat) by (unfold p10; rewrite length_app, L8; cbn; lia).
    assert (Hn' : Z.to_nat n = length d) by (unfold n; lia). rewrite Hn'.
    match goal with |- context [(?a <? length p + 10 + length d)%nat] =>
      destruct (Nat.ltb_spec a (length p + 10 + length d)) as [Hlt|_] end.
    { rewrite !length_app, L10 in Hlt. lia. }
    rewrite subslice_at by lia. cbn [mbind go_bind]. by destruct r.
Qed.

(** The flags are read back. *)
Lemma flags_back m :
  uint16 (flags_of m) ∧ negb (Z.land (flags_of m) 32768 =? 0) = response m ∧
  negb (Z.land (flags_of m) 1024 =? 0) = authoritative m.
Proof. unfold flags_of, uint16. destruct (response m), (authoritative m); cbn; done. Qed.

(** Messages survive the wire: what [encodeDNSMessage] makes of a message of canonical names
    of at most 64 labels is decoded to the same message, flags, questions and records included. *)
Theorem message_round_trip m pkt :
  plain_message m → encodeDNSMessage m = Ok pkt → decodeDNSMessage pkt = Ret m.
Proof.
  intros (Hid & Hqs & Hrs). unfold encodeDNSMessage.
  destruct (Nat.ltb_spec 32 (length (questions m))) as [|Hnq]; [done|].
  destruct (Nat.ltb_spec 128 (length (answers m))) as [|Hnr]; [done|]. cbn [orb]. cbv zeta.
  set (nq := Z.of_nat (length (questions m))). set (nr := Z.of_nat (length (answers m))).
  destruct (all_inverse _ _ _ _ _ question_inverse Hqs) as [Eq Dq].
  set (hdr := put_uint16 (m_id m) ++ put_uint16 (flags_of m) ++ put_uint16 nq ++ put_uint16 nr ++ [0; 0; 0; 0]).
  destruct (all_inverse _ _ _ _ _ rr_inverse Hrs) as [Er Dr]. rewrite Eq, Er.
  destruct (lanMaxDatagram <? _)%nat; [done|]. intros Hpkt.
  set (wq := concat (q_wire <$> questions m)) in *. set (wr := concat (rr_wire <$> answers m)) in *.
  assert (pkt = hdr ++ wq ++ wr) as -> by (rewrite app_assoc; congruence). clear Hpkt.
  destruct (flags_back m) as (F1 & F2 & F3).
  assert (Hh : ∀ i z p q, hdr = p ++ put_uint16 z ++ q → length p = i → uint16 z →
            be16 (hdr ++ wq ++ wr) i = Ret z).
  { intros i z p q -> Hi Hz. rewrite <- !app_assoc. by apply be16_at. }
  unfold decodeDNSMessage. destruct (Nat.ltb_spec (length (hdr ++ wq ++ wr)) 12) as [Hlt|_].
  { rewrite length_app in Hlt. cbn in Hlt. lia. }
  rewrite (Hh 0%nat (m_id m) [] _ (eq_refl hdr)) by done. cbn [mbind go_bind].
  rewrite (Hh 2%nat (flags_of m) (put_uint16 (m_id m)) _ (eq_refl hdr)) by done. cbn [mbind go_bind].
  rewrite (Hh 4%nat nq (put_uint16 (m_id m) ++ put_uint16 (flags_of m)) _ (eq_refl hdr))
    by (done || (unfold uint16, nq; lia)). cbn [mbind go_bind].
  rewrite (Hh 6%nat nr (put_uint16 (m_id m) ++ put_uint16 (flags_of m) ++ put_uint16 nq) _ (eq_refl hdr))
    by (done || (unfold uint16, nr; lia)). cbn [mbind go_bind].
  rewrite (Hh 8%nat 0 (put_uint16 (m_id m) ++ put_uint16 (flags_of m) ++ put_uint16 nq ++ put_uint16 nr) _ (eq_refl hdr))
    by (done || (unfold uint16; lia)). cbn [mbind go_bind].
  rewrite (Hh 10%nat 0 (put_uint16 (m_id m) ++ put_uint16 (flags_of m) ++ put_uint16 nq ++ put_uint16 nr
    ++ put_uint16 0) [] (eq_refl hdr)) by (done || (unfold uint16; lia)). cbn [mbind go_bind].
  rewrite (proj2 (Z.ltb_ge 32 nq)), (proj2 (Z.ltb_ge 128 nr)) by (unfold nq, nr; lia). cbn [orb Z.ltb Z.compare].
  unfold nq at 1. unfold nr at 1. rewrite !Nat2Z.id.
  change 12%nat with (length hdr) at 1. rewrite Dq. cbn [mbind go_bind].
  rewrite (app_assoc hdr), <- (app_nil_r wr), Dr. cbn. rewrite F2, F3. by destruct m.
Qed.

(** The name codec in full: every name of up to 255 bytes with labels of 1 to 63 bytes is
    encoded; it is read back, wherever in a packet it stands, if it has at most 64 labels,
    and refused as a pointer loop if it has more, since the decoder counts labels as jumps.
    The check for more than 127 labels is never reached. *)
Theorem name_codec ls pre post :
  good_name ls →
  dnsEncodeName pre (canon ls) = Ok (pre ++ name_wire ls) ∧
  dnsDecodeName (pre ++ name_wire ls ++ post) (length pre) =
    (if (length ls <=? 64)%nat then Ret (canon ls, length (pre ++ name_wire ls))
     else Fail "name pointer loop").
Proof. intros Hg. split; [by apply encode_name_ok|by apply decode_name_wire]. Qed.

(** ** Examples *)

Definition demo_message : dnsMessage := {|
  m_id := 7; response := true; authoritative := true;
  questions := [{| q_name := "_omp._tcp.local."; qtype := 12; qclass := 1 |}];
  answers := [{| rr_name := "omp-01.local."; rtype := 1; rclass := 1; ttl := 120; rdata := [192; 168; 1; 9] |}] |}.

Lemma demo_plain : plain_message demo_message.
Proof.
  split; [unfold uint16; cbn; lia|]. split; (constructor; [|constructor]).
  - split; [|unfold uint16; cbn; lia]. exists ["_omp"; "_tcp"; "local"]. split; [reflexivity|].
    split; [|cbn; lia]. split; [|cbn; lia]. unfold good_label. repeat constructor; cbn; lia.
  - split; [|unfold uint16; cbn; lia]. exists ["omp-01"; "local"]. split; [reflexivity|].
    split; [|cbn; lia]. split; [|cbn; lia]. unfold good_label. repeat constructor; cbn; lia.
Qed.

Lemma message_round_trip_witness :
  match encodeDNSMessage demo_message with
  | Ok pkt => length pkt = 61%nat ∧ decodeDNSMessage pkt = Ret demo_message
  | Err _ => False
  end.
Proof.
  destruct (encodeDNSMessage demo_message) as [pkt|] eqn:E; [|vm_compute in E; discriminate].
  split; [vm_compute in E; injection E as <-; reflexivity|].
  exact (message_round_trip demo_message pkt demo_plain E).
Defined.

(** A name of 65 one-letter labels. *)
Lemma name_codec_witness :
  good_name (replicate 65 "a") ∧
  dnsDecodeName (name_wire (replicate 65 "a")) 0 = Fail "name pointer loop".
Proof.
  assert (Hg : good_name (replicate 65 "a")).
  { split; [|cbn; lia]. apply Forall_replicate. split; [done|cbn; lia]. }
  split; [exact Hg|]. destruct (name_codec (replicate 65 "a") [] [] Hg) as [_ Hd].
  rewrite app_nil_r in Hd. exact Hd.
Defined.
