(* ===== verification/LanAnnounce.v ===== *)
(** * Announcements on the LAN (lan_discovery.go)

    What a node tells the LAN about itself, and what it makes of what it hears: the
    records of an announcement, the TXT strings and their signature, and the table of
    peers heard that decides when one is registered. Texts are taken to be ASCII where
    the code changes their case. *)

From S2P Require Import Prelude GoTime Bytes DnsCodec.

Definition lanServiceFQDN : string := "_omp._tcp.local.".
Definition lanRecordTTL : Z := 120.
Definition lanSigDomain : string := "omp-lan-announce-v1".
Definition lanSigMaxAge : Z := 10 * minute.
Definition lanSigFutureSkew : Z := 2 * minute.
Definition lanSeenTTL : Z := 15 * minute.

(** [IP] is what [To4] returns. *)
Record lanSelfInfo := {
  s_NodeID : string; s_Name : string; s_Port : Z; s_Region : string; s_Models : list string;
  s_Share : bool; s_IP : option bytes }.

Record lanPeerInfo := {
  l_NodeID : string; l_Name : string; Instance : string; l_IP : string; l_Port : Z;
  l_Region : string; l_Models : list string; l_Share : bool; Verified : bool }.

(** [net.IP.String] and [ed25519.Verify], of a public key, a text and a signature. *)
Class LanEnv := {
  ip_string : bytes → string;
  ed_verify : string → string → bytes → bool }.

(** ** Texts *)

Definition lower (c : ascii) : ascii :=
  let n := Ascii.N_of_ascii c in
  if (65 <=? n)%N && (n <=? 90)%N then Ascii.ascii_of_N (n + 32) else c.
Fixpoint to_lower (s : string) : string :=
  match s with EmptyString => "" | String c s' => String (lower c) (to_lower s') end.

Definition has_suffix (suf s : string) : bool :=
  (String.length suf <=? String.length s)%nat &&
  bool_decide (String.substring (String.length s - String.length suf) (String.length suf) s = suf).

Definition dns_safe (c : ascii) : bool :=
  let n := Ascii.N_of_ascii c in
  ((97 <=? n) && (n <=? 122))%N || ((48 <=? n) && (n <=? 57))%N || (n =? 45)%N.
Fixpoint keep_safe (s : string) : string :=
  match s with
  | EmptyString => ""
  | String c s' => if dns_safe c then String c (keep_safe s') else keep_safe s'
  end.

Definition lanInstanceName (nodeID : string) : string :=
  let short := default nodeID (strip_prefix "mmx-" nodeID) in
  let short := String.substring 0 12 short in
  let kept := keep_safe (to_lower short) in
  "omp-" +:+ (if bool_decide (kept = "") then "node" else kept).

Definition lanHostName (instance : string) : string := instance +:+ ".local.".

Definition fingerprint (p : lanPeerInfo) : string :=
  join "|" [l_IP p; dec (l_Port p); l_Region p; join "," (sort_slice str_ltb (l_Models p));
            if l_Share p then "true" else "false"].

(** ** The TXT record *)

Definition newline : ascii := "010".

(** The closure [add]. *)
Definition txt_entry (k v : string) : string :=
  let v := replace_char "013" " " (replace_char newline " " v) in
  String.substring 0 255 (k +:+ "=" +:+ String.substring 0 200 v).

(** The strings so far, the open chunk of models and the length counted for it. *)
Definition flush (st : list string * list string * nat) : list string * list string * nat :=
  let '(strs, chunk, n) := st in
  if bool_decide (chunk = []) then st else (strs ++ ["models=" +:+ join "," chunk], [], 7%nat).

Definition add_model (st : list string * list string * nat) (m : string)
    : list string * list string * nat :=
  let m := remove_char " " (replace_char "," " " m) in
  if bool_decide (m = "") then st
  else
    let '(_, _, n) := st in
    let '(strs, chunk, n) := if (255 <? n + 1 + String.length m)%nat then flush st else st in
    (strs, chunk ++ [m], (n + 1 + String.length m)%nat).

Definition is_key (k s : string) : bool := bool_decide (s = k) || has_prefix (k +:+ "=") s.

Definition lanTXTSignPayload (strs : list string) : string :=
  lanSigDomain +:+ String newline
    (join newline (sort_slice str_ltb (filter (λ s, is_key "sig" s = false) strs))).

Definition unsigned_strings (now : Time) (self : lanSelfInfo) : list string :=
  let strs := [txt_entry "v" "1"; txt_entry "id" (s_NodeID self)]
    ++ (if bool_decide (s_Name self = "") then [] else [txt_entry "name" (s_Name self)])
    ++ (if bool_decide (s_Region self = "") then [] else [txt_entry "region" (s_Region self)])
    ++ [txt_entry "share" (if s_Share self then "1" else "0")] in
  let '(strs, _, _) := flush (foldl add_model (strs, [], 7%nat) (s_Models self)) in
  strs ++ [txt_entry "ts" (dec (now / second))].

Definition txt_strings (now : Time) (self : lanSelfInfo) (sign : option (string → string)) : list string :=
  let strs := unsigned_strings now self in
  match sign with
  | None => strs
  | Some sign =>
      let sig := sign (lanTXTSignPayload strs) in
      if bool_decide (sig = "") then strs
      else if (String.length ("sig=" +:+ sig) <=? 255)%nat then strs ++ ["sig=" +:+ sig] else strs
  end.

Definition txt_wire (s : string) : bytes := Z.of_nat (String.length s) mod 256 :: bytes_of s.
Definition lanBuildTXT (now : Time) (self : lanSelfInfo) (sign : option (string → string)) : bytes :=
  concat (txt_wire <$> txt_strings now self sign).

Definition lan_rr (name : string) (t : Z) (d : bytes) : dnsRR :=
  {| rr_name := name; rtype := t; rclass := 1; ttl := lanRecordTTL; rdata := d |}.

Definition buildLANAnnouncement (now : Time) (self : lanSelfInfo) (sign : option (string → string))
    : res bytes :=
  let instance := lanInstanceName (s_NodeID self) +:+ "." +:+ lanServiceFQDN in
  let host := lanHostName (lanInstanceName (s_NodeID self)) in
  match dnsEncodeName [] instance with
  | Err e => Err e
  | Ok ptr =>
      match dnsEncodeSRV (s_Port self) host with
      | Err e => Err e
      | Ok srv =>
          let answers := [lan_rr lanServiceFQDN 12 ptr; lan_rr instance 33 srv;
                          lan_rr instance 16 (lanBuildTXT now self sign)]
                         ++ match s_IP self with Some ip => [lan_rr host 1 ip] | None => [] end in
          encodeDNSMessage {| m_id := 0; response := true; authoritative := true;
                              questions := []; answers := answers |}
      end
  end.

(** ** Reading announcements *)

Inductive lanTXTAuthn := lanTXTUnsigned | lanTXTVerified | lanTXTUnverifiable | lanTXTRejected.

Section lan.
Context `{LanEnv}.

(** The value after [k=], the whole string if it is [k] alone. *)
Definition cut_key (k s : string) : string := default s (strip_prefix (k +:+ "=") s).

(** [lookup] is the public key the trust pool holds for a node. *)
Definition lanVerifyAnnouncement (now : Time) (nodeID : string) (strs : list string)
    (lookup : string → option string) : lanTXTAuthn :=
  match filter (λ s, is_key "sig" s = true) strs with
  | [] => lanTXTUnsigned
  | [sig] =>
      match b64_decode (cut_key "sig" sig) with
      | None => lanTXTRejected
      | Some sig =>
          if negb (length sig =? 64)%nat then lanTXTRejected
          else match filter (λ s, is_key "ts" s = true) strs with
          | [ts] =>
              match parse_int64 (cut_key "ts" ts) with
              | None => lanTXTRejected
              | Some ts =>
                  let age := now - ts * second in
                  if (ts <=? 0) || (lanSigMaxAge <? age) || (age <? - lanSigFutureSkew) then lanTXTRejected
                  else match lookup nodeID with
                  | None => lanTXTUnverifiable
                  | Some pub => if ed_verify pub (lanTXTSignPayload strs) sig then lanTXTVerified
                                else lanTXTRejected
                  end
              end
          | _ => lanTXTRejected
          end
      end
  | _ => lanTXTRejected
  end.

(** The tables [parseLANAnnouncement] builds from the answers. *)
Record lan_tables := {
  instances : list string; srvs : gmap string (Z * string); txts : gmap string (list string);
  addrs : gmap string bytes }.

(** One answer. The decoders return a value or an error (see [decode_never_panics]). *)
Definition read_answer (t : lan_tables) (rr : dnsRR) : lan_tables :=
  if negb (rclass rr =? 1) then t
  else if rtype rr =? 12 then
    if negb (bool_decide (to_lower (rr_name rr) = lanServiceFQDN)) then t
    else match dnsDecodeName (rdata rr) 0 with
    | Ret (target, _) =>
        if has_suffix ("." +:+ lanServiceFQDN) (to_lower target)
        then {| instances := instances t ++ [target]; srvs := srvs t; txts := txts t; addrs := addrs t |} else t
    | _ => t
    end
  else if rtype rr =? 33 then
    match dnsDecodeSRV (rdata rr) with
    | Ret (port, target) =>
        if port =? 0 then t
        else {| instances := instances t; srvs := <[rr_name rr := (port, target)]> (srvs t);
                txts := txts t; addrs := addrs t |}
    | _ => t
    end
  else if rtype rr =? 16 then
    match dnsDecodeTXT (rdata rr) with
    | Ret strs => {| instances := instances t; srvs := srvs t;
                     txts := <[rr_name rr := default [] (txts t !! rr_name rr) ++ strs]> (txts t); addrs := addrs t |}
    | _ => t
    end
  else if rtype rr =? 1 then
    if (length (rdata rr) =? 4)%nat
    then {| instances := instances t; srvs := srvs t; txts := txts t; addrs := <[rr_name rr := rdata rr]> (addrs t) |}
    else t
  else if rtype rr =? 28 then
    if (length (rdata rr) =? 16)%nat && bool_decide (addrs t !! rr_name rr = None)
    then {| instances := instances t; srvs := srvs t; txts := txts t; addrs := <[rr_name rr := rdata rr]> (addrs t) |}
    else t
  else t.

Definition read_pair (st : gmap string string * list string) (s : string)
    : gmap string string * list string :=
  let '(kv, models) := st in
  match cut "=" s with
  | None => st
  | Some (k, v) =>
      if bool_decide (k = "models") then
        if bool_decide (v = "") then st else (kv, models ++ split_on "," v)
      else if (String.length k <=? 32)%nat && (String.length v <=? 200)%nat then (<[k := v]> kv, models)
      else st
  end.

Definition field (kv : gmap string string) (k : string) : string := default "" (kv !! k).

(** The peer an instance announces. *)
Definition read_peer (now : Time) (srcIP : option bytes) (lookup : string → option string)
    (t : lan_tables) (inst : string) : option lanPeerInfo :=
  match srvs t !! inst with
  | None => None
  | Some (port, target) =>
      let strs := default [] (txts t !! inst) in
      let '(kv, models) := foldl read_pair (∅, []) strs in
      let nodeID := field kv "id" in
      if negb (bool_decide (field kv "v" = "1")) then None
      else if bool_decide (nodeID = "") || (128 <? String.length nodeID)%nat then None
      else
        let peer verified ip := {|
          l_NodeID := nodeID; l_Name := field kv "name"; Instance := inst; l_IP := ip_string ip;
          l_Port := port; l_Region := field kv "region"; l_Models := models;
          l_Share := bool_decide (field kv "share" = "1"); Verified := verified |} in
        let ip := match addrs t !! target with Some ip => Some ip | None => srcIP end in
        match lanVerifyAnnouncement now nodeID strs lookup with
        | lanTXTRejected => None
        | lanTXTVerified => peer true <$> ip
        | _ => peer false <$> ip
        end
  end.

Definition no_tables : lan_tables := {| instances := []; srvs := ∅; txts := ∅; addrs := ∅ |}.

Definition parseLANAnnouncement (now : Time) (m : dnsMessage) (srcIP : option bytes)
    (lookup : string → option string) : list lanPeerInfo :=
  if negb (response m) then []
  else let t := foldl read_answer no_tables (answers m) in omap (read_peer now srcIP lookup t) (instances t).
End lan.

(** ** The peers heard *)

Record lanSeenEntry := {
  info : lanPeerInfo; seen_fp : string; lastSeen : Time; registering : bool; pushed : bool }.

(** [seen] of the engine and its own identity; [inflight] are the calls of [register] that
    have not returned, which the code runs outside the lock. *)
Record LANDiscovery := {
  self_id : string; seen : gmap string lanSeenEntry; inflight : list lanPeerInfo }.

Definition set_seen (d : LANDiscovery) (s : gmap string lanSeenEntry) (l : list lanPeerInfo) : LANDiscovery :=
  {| self_id := self_id d; seen := s; inflight := l |}.

(** [notePeer] up to the call of [register]. *)
Definition notePeer_claim (now : Time) (p : lanPeerInfo) (d : LANDiscovery) : LANDiscovery :=
  if bool_decide (l_NodeID p = "") || bool_decide (l_NodeID p = self_id d) then d
  else
    let fp := fingerprint p in
    let claim s := set_seen d
      (<[l_NodeID p := {| info := p; seen_fp := fp; lastSeen := now; registering := true; pushed := false |}]> s)
      (inflight d ++ [p]) in
    match seen d !! l_NodeID p with
    | Some e =>
        let e := {| info := info e; seen_fp := seen_fp e; lastSeen := now;
                    registering := registering e; pushed := pushed e |} in
        let s := <[l_NodeID p := e]> (seen d) in
        if bool_decide (seen_fp e = fp) && (pushed e || registering e)
        then set_seen d s (inflight d) else claim s
    | None => claim (seen d)
    end.

(** The rest of it, when the [i]-th pending call returns, without ([ok]) or with an error. *)
Definition notePeer_settle (i : nat) (ok : bool) (d : LANDiscovery) : LANDiscovery :=
  match inflight d !! i with
  | None => d
  | Some p =>
      let rest := delete i (inflight d) in
      match seen d !! l_NodeID p with
      | Some e =>
          if bool_decide (seen_fp e = fingerprint p) && registering e then
            if ok then
              set_seen d (<[l_NodeID p := {| info := info e; seen_fp := seen_fp e; lastSeen := lastSeen e;
                                             registering := false; pushed := true |}]> (seen d)) rest
            else set_seen d (delete (l_NodeID p) (seen d)) rest
          else set_seen d (seen d) rest
      | None => set_seen d (seen d) rest
      end
  end.

Definition cleanup (now : Time) (d : LANDiscovery) : LANDiscovery :=
  set_seen d (filter (λ kv, negb (before (lastSeen kv.2) (now - lanSeenTTL)) = true) (seen d)) (inflight d).

(** What the goroutines of the engine do, one after the other. *)
Inductive lan_event :=
  | Heard (now : Time) (p : lanPeerInfo)
  | Settled (i : nat) (ok : bool)
  | Swept (now : Time).

Definition lan_step (d : LANDiscovery) (e : lan_event) : LANDiscovery :=
  match e with
  | Heard now p => notePeer_claim now p d
  | Settled i ok => notePeer_settle i ok d
  | Swept now => cleanup now d
  end.
