(* ===== verification/NetIP.v ===== *)
(** * Addresses that must not be dialled (client.go, network_relay.go)

    [net.IP] is a list of 4 or 16 bytes.  The classes of addresses of the standard library, the single
    policy [ssrfIPBlocked] of the guards against internal targets, and [relayTargetBlocked], which
    resolves names before it asks it.  Reading an address and resolving a name are arguments. *)

From S2P Require Import Prelude Bytes LanAnnounce.

(** [net.IP.To4]. *)
Definition to4 (ip : bytes) : option bytes :=
  if bool_decide (length ip = 4%nat) then Some ip
  else if bool_decide (length ip = 16%nat)
          && bool_decide (take 12 ip = [0;0;0;0;0;0;0;0;0;0;255;255]) then Some (drop 12 ip)
  else None.
Definition short (ip : bytes) : bytes := default ip (to4 ip).

(** [net.IPNet.Contains] for a network of [n] leading bits. *)
Definition in_cidr (net : bytes) (n : Z) (ip : bytes) : bool :=
  let ip := short ip in
  let rest := 8 * Z.of_nat (length net) - n in
  bool_decide (length ip = length net) && (Z.shiftr (be_value ip) rest =? Z.shiftr (be_value net) rest).

Definition ipv6_loopback : bytes := replicate 15 0 ++ [1].
Definition IsLoopback (ip : bytes) : bool :=
  match to4 ip with Some v4 => bool_decide (head v4 = Some 127) | None => bool_decide (ip = ipv6_loopback) end.
Definition IsPrivate (ip : bytes) : bool :=
  match to4 ip with
  | Some v4 => in_cidr [10;0;0;0] 8 v4 || in_cidr [172;16;0;0] 12 v4 || in_cidr [192;168;0;0] 16 v4
  | None => bool_decide (length ip = 16%nat) && in_cidr (252 :: replicate 15 0) 7 ip
  end.
Definition IsMulticast (ip : bytes) : bool :=
  match to4 ip with Some v4 => Z.land (nth 0 v4 0) 240 =? 224 | None => bool_decide (length ip = 16%nat) && (nth 0 ip 0 =? 255) end.
Definition IsLinkLocalUnicast (ip : bytes) : bool :=
  match to4 ip with
  | Some v4 => (nth 0 v4 0 =? 169) && (nth 1 v4 0 =? 254)
  | None => bool_decide (length ip = 16%nat) && (nth 0 ip 0 =? 254) && (Z.land (nth 1 ip 0) 192 =? 128)
  end.
Definition IsLinkLocalMulticast (ip : bytes) : bool :=
  match to4 ip with
  | Some v4 => (nth 0 v4 0 =? 224) && (nth 1 v4 0 =? 0) && (nth 2 v4 0 =? 0)
  | None => bool_decide (length ip = 16%nat) && (nth 0 ip 0 =? 255) && (Z.land (nth 1 ip 0) 15 =? 2)
  end.
Definition IsUnspecified (ip : bytes) : bool :=
  match to4 ip with Some v4 => bool_decide (v4 = [0;0;0;0]) | None => bool_decide (ip = replicate 16 0) end.

Definition isCGNAT (ip : bytes) : bool :=
  match to4 ip with Some v4 => (nth 0 v4 0 =? 100) && (Z.land (nth 1 v4 0) 192 =? 64) | None => false end.

(** [None] for a nil address. *)
Definition ssrfIPBlocked (ip : option bytes) : bool :=
  match ip with
  | None => true
  | Some ip => IsLoopback ip || IsPrivate ip || IsLinkLocalUnicast ip || IsLinkLocalMulticast ip || IsMulticast ip
               || IsUnspecified ip || isCGNAT ip
  end.

Section relay_target.
(** [net.ParseIP]; [net.LookupHost], [None] for an error. *)
Context (ParseIP : string → option bytes) (LookupHost : string → option (list string)).

Definition relayTargetBlocked (host : string) : bool :=
  let h := to_lower (trimSpace host) in
  if bool_decide (h = "") || bool_decide (h = "localhost") then true
  else match ParseIP h with
  | Some ip => ssrfIPBlocked (Some ip)
  | None =>
      match LookupHost h with
      | None | Some [] => true
      | Some ips => existsb (λ s, match ParseIP s with Some ip => ssrfIPBlocked (Some ip) | None => false end) ips
      end
  end.

(** What a host that is let through has: it is a public address, or a name all of whose addresses are. *)
Definition public_host (host : string) : Prop :=
  let h := to_lower (trimSpace host) in
  h ≠ "localhost" ∧
  ((∃ ip, ParseIP h = Some ip ∧ ssrfIPBlocked (Some ip) = false) ∨
   ParseIP h = None ∧ ∃ ips, LookupHost h = Some ips ∧ ips ≠ [] ∧
     ∀ s ip, s ∈ ips → ParseIP s = Some ip → ssrfIPBlocked (Some ip) = false).

Lemma unblocked_public host : relayTargetBlocked host = false → public_host host.
Proof.
  unfold relayTargetBlocked, public_host. set (h := to_lower (trimSpace host)). cbv zeta.
  destruct (bool_decide_reflect (h = "")); [done|]. destruct (bool_decide_reflect (h = "localhost")); [done|].
  cbn [orb]. intros Hb. split; [done|]. destruct (ParseIP h) as [ip|]; [left; by exists ip|right].
  split; [done|]. destruct (LookupHost h) as [[|s ips]|]; [done| |done]. eexists. split; [done|]. split; [done|].
  intros t ip Ht Hip. destruct (ssrfIPBlocked (Some ip)) eqn:E; [|done]. exfalso. rewrite <- not_true_iff_false in Hb.
  apply Hb, existsb_exists. exists t. split; [by apply list_elem_of_In|]. by rewrite Hip.
Qed.
End relay_target.

(** ** IPv4 *)

Lemma shiftr_be n a b c d : 0 ≤ n → Z.shiftr (be_value [a; b; c; d]) n = (((a * 256 + b) * 256 + c) * 256 + d) / 2 ^ n.
Proof. intros Hn. rewrite Z.shiftr_div_pow2 by done. reflexivity. Qed.

(** The internal addresses of IPv4: this host, loopback, RFC 1918, link-local, shared (CGNAT) and multicast. *)
Definition internal_v4 (a b c d : Z) : bool :=
  ((a =? 0) && (b =? 0) && (c =? 0) && (d =? 0)) || (a =? 127) || (a =? 10) || ((a =? 172) && (16 <=? b) && (b <=? 31))
  || ((a =? 192) && (b =? 168)) || ((a =? 169) && (b =? 254)) || ((a =? 100) && (64 <=? b) && (b <=? 127))
  || ((224 <=? a) && (a <=? 239)).

Lemma high_bits x m v : 0 ≤ x < 256 →
  forallb (λ x, Bool.eqb (Z.land x m =? v) ((v <=? x) && (x <=? v + 255 - m))) (seqZ 0 256) = true →
  (Z.land x m =? v) = ((v <=? x) && (x <=? v + 255 - m)).
Proof.
  intros Hx H. rewrite forallb_forall in H. specialize (H x). apply eqb_prop, H, list_elem_of_In, elem_of_seqZ.
  lia.
Qed.

(** The policy, for an IPv4 address written in either form, by its numbers. *)
Theorem ssrf_blocked_v4 ip a b c d :
  to4 ip = Some [a; b; c; d] → is_bytes [a; b; c; d] → ssrfIPBlocked (Some ip) = internal_v4 a b c d.
Proof.
  intros Ht Hb. repeat apply Forall_cons in Hb as [? Hb].
  unfold ssrfIPBlocked, IsLoopback, IsPrivate, IsLinkLocalUnicast, IsLinkLocalMulticast, IsMulticast, IsUnspecified, isCGNAT.
  rewrite Ht. cbn [nth head].
  assert (∀ net n, length net = 4%nat → in_cidr net n [a; b; c; d] =
    (Z.shiftr (be_value [a; b; c; d]) (32 - n) =? Z.shiftr (be_value net) (32 - n))) as Hc.
  { intros net n Hl. unfold in_cidr. cbn. rewrite Hl. reflexivity. }
  rewrite !Hc, !shiftr_be by done || lia.
  rewrite (high_bits a 240 224), (high_bits b 192 64) by (done || vm_compute; reflexivity).
  change (2 ^ (32 - 8)) with 16777216. change (2 ^ (32 - 12)) with 1048576. change (2 ^ (32 - 16)) with 65536.
  change ((((10 * 256 + 0) * 256 + 0) * 256 + 0) / 16777216) with 10.
  change ((((172 * 256 + 16) * 256 + 0) * 256 + 0) / 1048576) with 2753.
  change ((((192 * 256 + 168) * 256 + 0) * 256 + 0) / 65536) with 49320.
  apply eq_iff_eq_true. unfold internal_v4.
  rewrite !orb_true_iff, !andb_true_iff, !bool_decide_eq_true, !Z.eqb_eq, !Z.leb_le.
  set (v := ((a * 256 + b) * 256 + c) * 256 + d).
  assert (v / 16777216 = a) as -> by (subst v; zdiv). assert (v / 65536 = a * 256 + b) as -> by (subst v; zdiv).
  assert (v / 1048576 = 2753 ↔ a = 172 ∧ 16 ≤ b ∧ b ≤ 31) as -> by (subst v; zdiv).
  assert (Some a = Some 127 ↔ a = 127) as -> by naive_solver.
  assert ([a; b; c; d] = [0; 0; 0; 0] ↔ a = 0 ∧ b = 0 ∧ c = 0 ∧ d = 0) as ->.
  { split; [by intros [= -> -> -> ->]|]. by intros (-> & -> & -> & ->). }
  lia.
Qed.

Lemma ssrf_blocked_v4_witness :
  ssrfIPBlocked <$> [Some [93; 184; 216; 34]; Some [100; 100; 1; 1]; Some (replicate 10 0 ++ [255; 255; 127; 0; 0; 1]); None]
  = [false; true; true; true] ∧
  ssrfIPBlocked (Some [100; 100; 1; 1]) = internal_v4 100 100 1 1.
Proof.
  split; [vm_compute; reflexivity|]. apply ssrf_blocked_v4; [reflexivity|]. repeat constructor; lia.
Defined.
