(* ===== verification/LanSafety.v ===== *)
(** * What the LAN discovery guarantees (lan_discovery.go)

    An announcement is understood by the nodes that hear it; a peer is taken as verified
    only with a fresh signature by the key the trust pool holds; a heard peer is registered
    once. *)

From S2P Require Import Prelude GoTime Bytes DnsCodec LanAnnounce.

(** ** Names *)

Lemma to_lower_length s : String.length (to_lower s) = String.length s.
Proof. induction s as [|c s IH]; [done|]. cbn. by rewrite IH. Qed.

Lemma keep_safe_length s : (String.length (keep_safe s) ≤ String.length s)%nat.
Proof. induction s as [|c s IH]; [done|]. cbn [keep_safe]. destruct (dns_safe c); cbn; lia. Qed.

Lemma keep_safe_char c s : dns_safe c = false → has_char c (keep_safe s) = false.
Proof.
  intros Hc. induction s as [|x s IH]; [done|]. cbn [keep_safe]. destruct (dns_safe x) eqn:E; [|done].
  cbn [has_char]. rewrite IH, orb_false_r. apply Ascii.eqb_neq. intros ->. congruence.
Qed.

Lemma substring_length n s : (String.length (String.substring 0 n s) ≤ n)%nat.
Proof.
  revert s. induction n as [|n IH]; intros [|c s]; cbn; try lia. specialize (IH s). lia.
Qed.

Lemma substring_all n s : (String.length s ≤ n)%nat → String.substring 0 n s = s.
Proof.
  revert s. induction n as [|n IH]; intros [|c s]; cbn; try done; [lia|]. intros. by rewrite IH by lia.
Qed.

Lemma instance_label id : good_label (lanInstanceName id).
Proof.
  unfold lanInstanceName. set (short := String.substring 0 12 _). cbv zeta.
  set (kept := keep_safe (to_lower short)).
  assert (Hk : has_char "." kept = false ∧ (String.length kept ≤ 12)%nat).
  { split; [by apply keep_safe_char|]. unfold kept. etrans; [apply keep_safe_length|].
    rewrite to_lower_length. apply substring_length. }
  destruct (bool_decide_reflect (kept = "")) as [_|_].
  - split; [done|vm_compute; lia].
  - split; [rewrite has_char_app; apply orb_false_iff; split; [done|apply Hk]|].
    rewrite str_length_app. cbn [String.length]. destruct Hk. lia.
Qed.

Definition service_labels : list string := ["_omp"; "_tcp"; "local"].

Lemma fqdn_canon : lanServiceFQDN = canon service_labels.
Proof. reflexivity. Qed.

Definition instance_fqdn (id : string) : string := lanInstanceName id +:+ "." +:+ lanServiceFQDN.

Lemma instance_canon id : instance_fqdn id = canon (lanInstanceName id :: service_labels).
Proof.
  unfold instance_fqdn, canon. rewrite bool_decide_eq_false_2 by done.
  change (join "." (lanInstanceName id :: service_labels)) with
    (lanInstanceName id +:+ String "." (join "." service_labels)).
  by rewrite append_assoc.
Qed.

Lemma host_canon id : lanHostName (lanInstanceName id) = canon [lanInstanceName id; "local"].
Proof.
  unfold lanHostName, canon. rewrite bool_decide_eq_false_2 by done.
  change (join "." [lanInstanceName id; "local"]) with (lanInstanceName id +:+ ".local").
  by rewrite append_assoc.
Qed.

Lemma known_labels : Forall good_label service_labels.
Proof. repeat constructor; vm_compute; lia. Qed.

Lemma labels_good id ls :
  Forall good_label ls → (length (concat (label_wire <$> ls)) ≤ 200)%nat → good_name (lanInstanceName id :: ls).
Proof.
  intros Hls Hlen. pose proof (instance_label id) as Hi. split; [by constructor|].
  cbn [fmap list_fmap concat]. rewrite length_app, label_wire_length.
  assert (String.length (lanInstanceName id) ≤ 16)%nat; [|lia].
  unfold lanInstanceName. cbv zeta. set (short := String.substring 0 12 _).
  assert (String.length (keep_safe (to_lower short)) ≤ 12)%nat.
  { etrans; [apply keep_safe_length|]. rewrite to_lower_length. apply substring_length. }
  rewrite str_length_app. change (String.length "omp-") with 4%nat.
  destruct (bool_decide _); [change (String.length "node") with 4%nat|]; lia.
Qed.

Lemma instance_good id : good_name (lanInstanceName id :: service_labels).
Proof. apply labels_good; [apply known_labels|vm_compute; lia]. Qed.
Lemma host_good id : good_name [lanInstanceName id; "local"].
Proof. apply labels_good; [repeat constructor; vm_compute; lia|vm_compute; lia]. Qed.

(** A name on its own, and after the fixed part of an SRV record. *)
Lemma decode_name_alone ls :
  good_name ls → (length ls ≤ 64)%nat → dnsDecodeName (name_wire ls) 0 = Ret (canon ls, length (name_wire ls)).
Proof.
  intros Hg Hn. pose proof (decode_name_wire ls [] [] Hg) as Hd.
  rewrite (proj2 (Nat.leb_le _ _)) in Hd by done. by rewrite app_nil_r in Hd.
Qed.

Lemma srv_round_trip port ls :
  good_name ls → (length ls ≤ 64)%nat → uint16 port →
  dnsDecodeSRV (([0; 0; 0; 0] ++ put_uint16 port) ++ name_wire ls) = Ret (port, canon ls).
Proof.
  intros Hg Hn Hp. unfold dnsDecodeSRV. set (pre := [0; 0; 0; 0] ++ put_uint16 port).
  destruct (Nat.ltb_spec (length (pre ++ name_wire ls)) 6) as [Hlt|_]; [rewrite length_app in Hlt; cbn in Hlt; lia|].
  assert (D : dnsDecodeName (pre ++ name_wire ls) 6 = Ret (canon ls, length (pre ++ name_wire ls))).
  { pose proof (decode_name_wire ls pre [] Hg) as D. by rewrite app_nil_r, (proj2 (Nat.leb_le _ _)) in D by done. }
  assert (E : be16 (pre ++ name_wire ls) 4 = Ret port).
  { unfold pre. rewrite <- app_assoc. by apply (be16_at [0; 0; 0; 0]). }
  rewrite D. cbn [mbind go_bind]. by rewrite E.
Qed.

(** ** TXT strings *)

Lemma decode_txt_wire budget strs out :
  Forall (λ s, (String.length s ≤ 255)%nat) strs → (length out + length strs ≤ 64)%nat →
  (length strs ≤ budget)%nat →
  decode_txt budget (concat (txt_wire <$> strs)) out = Ret (out ++ strs).
Proof.
  revert budget out. induction strs as [|s strs IH]; intros budget out Hs Hn Hb.
  { destruct budget; cbn; by rewrite app_nil_r. }
  apply Forall_cons in Hs as [Hl Hs]. cbn [length] in *. destruct budget as [|budget]; [lia|].
  cbn [fmap list_fmap concat]. unfold txt_wire at 1. cbn [app decode_txt]. cbv zeta.
  rewrite Z.mod_small by lia. rewrite Nat2Z.id. rewrite length_app, bytes_of_length.
  rewrite (proj2 (Nat.ltb_ge _ _)) by lia.
  set (rest := concat (txt_wire <$> strs)).
  pose proof (subslice_at [] (bytes_of s) rest 0 (String.length s) eq_refl
    ltac:(by rewrite bytes_of_length)) as E1. cbn [app] in E1. rewrite E1. cbn [mbind go_bind].
  pose proof (subslice_at (bytes_of s) rest [] (String.length s) (String.length s + length rest)
    ltac:(by rewrite bytes_of_length) eq_refl) as E2. rewrite app_nil_r in E2. rewrite E2. cbn [mbind go_bind].
  rewrite str_of_bytes_of, length_app. cbn [length]. rewrite (proj2 (Nat.ltb_ge _ _)) by lia.
  rewrite IH by (rewrite ?length_app; cbn; (done || lia)). by rewrite <- app_assoc.
Qed.

Lemma txt_round_trip strs :
  Forall (λ s, (String.length s ≤ 255)%nat) strs → (length strs ≤ 64)%nat →
  dnsDecodeTXT (concat (txt_wire <$> strs)) = Ret strs.
Proof. intros. unfold dnsDecodeTXT. by rewrite decode_txt_wire by (done || cbn; lia). Qed.

(** A value that is announced as it is. *)
Definition plain_value (v : string) : Prop :=
  (String.length v ≤ 200)%nat ∧ has_char newline v = false ∧ has_char "013" v = false.

Lemma txt_entry_plain k v :
  (String.length k ≤ 50)%nat → plain_value v → txt_entry k v = k +:+ "=" +:+ v.
Proof.
  intros Hk (Hl & Hn & Hr). unfold txt_entry. rewrite (replace_absent newline), (replace_absent "013") by done.
  rewrite (substring_all 200) by done. apply substring_all. rewrite !str_length_app. cbn. lia.
Qed.

(** ** Model chunks *)

Definition plain_model (m : string) : Prop :=
  m ≠ "" ∧ has_char "," m = false ∧ has_char " " m = false ∧ (String.length m ≤ 248)%nat.

Definition chunk_string (c : list string) : string := "models=" +:+ join "," c.

(** The length counted for a chunk. *)
Definition counted (c : list string) : nat := foldl (λ n m, n + 1 + String.length m)%nat 7%nat c.

Lemma counted_snoc c m : counted (c ++ [m]) = (counted c + 1 + String.length m)%nat.
Proof. unfold counted. by rewrite foldl_app. Qed.

Lemma model_chunk_length c : c ≠ [] → S (String.length (chunk_string c)) = counted c.
Proof.
  intros Hc. unfold chunk_string. rewrite str_length_app. induction c as [|m c IH] using rev_ind; [done|].
  rewrite counted_snoc. destruct c as [|x c]; [cbn; lia|]. specialize (IH ltac:(done)). rewrite <- IH.
  assert (Hj : ∀ l : list string, l ≠ [] → String.length (join "," (l ++ [m])) =
            (String.length (join "," l) + 1 + String.length m)%nat).
  { induction l as [|y l IHl]; [done|]. intros _. destruct l as [|z l].
    - cbn [app join]. rewrite str_length_app. cbn. lia.
    - change (join "," ((y :: z :: l) ++ [m])) with (y +:+ String "," (join "," ((z :: l) ++ [m]))).
      change (join "," (y :: z :: l)) with (y +:+ String "," (join "," (z :: l))).
      rewrite !str_length_app. cbn [String.length]. rewrite IHl by done. lia. }
  rewrite Hj by done. lia.
Qed.

(** The chunks hold the models in order, none empty or too long. *)
Lemma chunks_spec ms strs chunk n :
  Forall plain_model ms → n = counted chunk → (counted chunk ≤ 256)%nat →
  ∃ cs, (flush (foldl add_model (strs, chunk, n) ms)).1.1 = strs ++ (chunk_string <$> cs) ∧
    concat cs = chunk ++ ms ∧ Forall (λ c, c ≠ [] ∧ (counted c ≤ 256)%nat) cs.
Proof.
  revert strs chunk n. induction ms as [|m ms IH]; intros strs chunk n Hms -> Hle.
  - cbn [foldl flush]. destruct (bool_decide_reflect (chunk = [])) as [->|Hne].
    + exists []. by rewrite app_nil_r.
    + exists [chunk]. cbn. rewrite app_nil_r. split; [done|]. split; [done|]. by apply Forall_singleton.
  - apply Forall_cons in Hms as [(Hm & H1 & H2 & Hl) Hms]. cbn [foldl]. unfold add_model at 2.
    rewrite replace_absent, remove_absent by done. rewrite bool_decide_eq_false_2 by done.
    destruct (Nat.ltb_spec 255 (counted chunk + 1 + String.length m)) as [Hlt|Hge].
    + cbn [flush]. destruct (bool_decide_reflect (chunk = [])) as [->|Hne].
      * destruct (IH strs [m] (counted [] + 1 + String.length m)%nat Hms eq_refl) as (cs & E1 & E2 & E3);
          [cbn in *; lia|]. by exists cs.
      * destruct (IH (strs ++ [chunk_string chunk]) [m] (7 + 1 + String.length m)%nat Hms eq_refl)
          as (cs & E1 & E2 & E3); [cbn in *; lia|].
        exists (chunk :: cs). cbn [fmap list_fmap concat]. rewrite E2. split.
        -- etrans; [exact E1|]. by rewrite <- app_assoc.
        -- split; [done|]. by constructor.
    + destruct (IH strs (chunk ++ [m]) (counted chunk + 1 + String.length m)%nat Hms) as (cs & E1 & E2 & E3).
      * by rewrite counted_snoc.
      * rewrite counted_snoc. lia.
      * exists cs. split; [done|]. split; [|done]. by rewrite E2, <- app_assoc.
Qed.

(** ** Key and value strings *)

Definition entry (kv : string * string) : string := kv.1 +:+ "=" +:+ kv.2.
Definition good_key (k : string) : Prop := has_char "=" k = false.

Lemma strip_entry k k' v :
  good_key k → good_key k' →
  strip_prefix (k +:+ "=") (k' +:+ "=" +:+ v) = (if decide (k = k') then Some v else None).
Proof.
  unfold good_key. intros Hk Hk'. destruct (decide (k = k')) as [<-|Hne].
  - replace (k +:+ "=" +:+ v) with ((k +:+ "=") +:+ v) by apply append_assoc. apply strip_prefix_app.
  - destruct (strip_prefix _ _) as [r|] eqn:E; [|done]. apply strip_prefix_Some in E.
    assert (E' : k' +:+ String "=" v = k +:+ String "=" r) by (rewrite (append_assoc k) in E; exact E).
    apply (f_equal (cut "=")) in E'. rewrite !cut_app in E' by done. congruence.
Qed.

Lemma cut_entry kv : good_key kv.1 → cut "=" (entry kv) = Some kv.
Proof. intros Hk. unfold entry. destruct kv as [k v]. exact (cut_app "=" k v Hk). Qed.

Lemma is_key_entry k kv : good_key k → good_key kv.1 → is_key k (entry kv) = bool_decide (k = kv.1).
Proof.
  intros Hk Hk'. unfold is_key, has_prefix, entry. rewrite strip_entry by done.
  rewrite bool_decide_eq_false_2; [by destruct (decide (k = kv.1)) as [->|]; [rewrite bool_decide_eq_true_2|rewrite bool_decide_eq_false_2]|].
  intros E. apply (f_equal (has_char "=")) in E. rewrite has_char_app, Hk, Hk' in E. discriminate E.
Qed.

(** The strings with a key. *)
Lemma filter_entries k b kvs :
  good_key k → Forall (λ kv, good_key kv.1) kvs →
  filter (λ s, is_key k s = b) (entry <$> kvs) = entry <$> filter (λ kv, bool_decide (k = kv.1) = b) kvs.
Proof.
  intros Hk. induction 1 as [|kv kvs Hkv _ IH]; [done|]. cbn [fmap list_fmap].
  rewrite !filter_cons, IH, is_key_entry by done. by case_decide.
Qed.

Lemma cut_key_entry k v : good_key k → cut_key k (entry (k, v)) = v.
Proof. intros Hk. unfold cut_key, entry. rewrite strip_entry by done. by rewrite decide_True. Qed.

(** What [read_pair] makes of an entry that is not a model chunk, and of one that is. *)
Lemma read_entry kv ms k v :
  good_key k → k ≠ "models" → (String.length k ≤ 32)%nat → (String.length v ≤ 200)%nat →
  read_pair (kv, ms) (entry (k, v)) = (<[k := v]> kv, ms).
Proof.
  intros Hk Hm Hlk Hlv. unfold read_pair. rewrite cut_entry by done.
  rewrite bool_decide_eq_false_2 by done. by rewrite !(proj2 (Nat.leb_le _ _)) by done.
Qed.

Lemma read_chunk kv ms c :
  c ≠ [] → Forall plain_model c → read_pair (kv, ms) (entry ("models", join "," c)) = (kv, ms ++ c).
Proof.
  intros Hc Hp. unfold read_pair. rewrite cut_entry by done.
  rewrite (bool_decide_eq_true_2 ("models" = "models")) by done.
  rewrite bool_decide_eq_false_2.
  - rewrite split_join; [done|done|]. eapply Forall_impl; [exact Hp|]. by intros m (_ & ? & _).
  - destruct c as [|m [|m' c]]; [done|..]; apply Forall_cons in Hp as [[Hm _] _]; [done|].
    change (join "," (m :: m' :: c)) with (m +:+ String "," (join "," (m' :: c))). by destruct m.
Qed.

Lemma read_chunks kv ms cs :
  Forall (λ c, c ≠ [] ∧ Forall plain_model c) cs →
  foldl read_pair (kv, ms) ((λ c, entry ("models", join "," c)) <$> cs) = (kv, ms ++ concat cs).
Proof.
  intros Hcs. revert ms. induction Hcs as [|c cs [Hc Hp] _ IH]; intros ms; cbn [fmap list_fmap foldl concat].
  - by rewrite app_nil_r.
  - rewrite read_chunk, IH by done. by rewrite <- app_assoc.
Qed.

(** ** The TXT record of a node *)

Definition yes_no (b : bool) : string := if b then "1" else "0".

(** Its entries, the models in the chunks [cs]. *)
Definition head_pairs (self : lanSelfInfo) : list (string * string) :=
  [("v", "1"); ("id", s_NodeID self)]
  ++ (if bool_decide (s_Name self = "") then [] else [("name", s_Name self)])
  ++ (if bool_decide (s_Region self = "") then [] else [("region", s_Region self)])
  ++ [("share", yes_no (s_Share self))].
Definition chunk_pairs (cs : list (list string)) : list (string * string) :=
  (λ c, ("models", join "," c)) <$> cs.
Definition announce_pairs (now : Time) (self : lanSelfInfo) (cs : list (list string)) : list (string * string) :=
  head_pairs self ++ chunk_pairs cs ++ [("ts", dec (now / second))].

(** What a node can say of itself without its words being altered. *)
Record plain_self (now : Time) (self : lanSelfInfo) := {
  ps_id : plain_value (s_NodeID self);
  ps_id_size : (1 ≤ String.length (s_NodeID self) ≤ 128)%nat;
  ps_name : plain_value (s_Name self);
  ps_region : plain_value (s_Region self);
  ps_models : Forall plain_model (s_Models self);
  ps_port : 1 ≤ s_Port self < 65536;
  ps_ip : ∀ ip, s_IP self = Some ip → length ip = 4%nat;
  ps_now : 0 < now / second < 2 ^ 63 }.

Lemma dec_size z : 0 ≤ z < 2 ^ 63 → (String.length (dec z) ≤ 19)%nat.
Proof.
  intros Hz. assert (Hgo : ∀ k x s, (x < 10 ^ N.of_nat k)%N →
    (String.length (pretty_N_go x s) ≤ k + String.length s)%nat).
  { induction k as [|k IH]; intros x s Hx.
    - cbn in Hx. assert (x = 0)%N as -> by lia. by rewrite pretty_N_go_0.
    - destruct (decide (x = 0)%N) as [->|]; [rewrite pretty_N_go_0; lia|]. rewrite pretty_N_go_step by lia.
      etrans; [apply IH|cbn; lia]. apply N.Div0.div_lt_upper_bound.
      rewrite Nat2N.inj_succ, N.pow_succ_r' in Hx. done. }
  destruct z as [|p|p]; [cbn; lia| |lia].
  change (dec (Z.pos p)) with (pretty (N.pos p)). unfold pretty, pretty_N. rewrite decide_False by done.
  etrans; [apply (Hgo 19%nat)|cbn; lia]. change (10 ^ N.of_nat 19)%N with 10000000000000000000%N. lia.
Qed.

Lemma dec_plain z : 0 ≤ z < 2 ^ 63 → plain_value (dec z).
Proof.
  intros Hz. pose proof (dec_size z Hz). split; [lia|]. split; by apply pretty_Z_has_char.
Qed.

Lemma entry_eq k v : (String.length k ≤ 50)%nat → plain_value v → txt_entry k v = entry (k, v).
Proof. apply txt_entry_plain. Qed.

Definition good_chunk (c : list string) : Prop := c ≠ [] ∧ Forall plain_model c.

Lemma unsigned_entries now self :
  plain_self now self →
  ∃ cs, unsigned_strings now self = entry <$> announce_pairs now self cs ∧
    concat cs = s_Models self ∧ Forall good_chunk cs ∧ Forall (λ c, (counted c ≤ 256)%nat) cs.
Proof.
  intros Hp. unfold unsigned_strings. cbv zeta.
  set (strs := [txt_entry "v" "1"; txt_entry "id" (s_NodeID self)] ++ _).
  assert (Hs : strs = entry <$> head_pairs self).
  { assert (H1 : plain_value "1") by (split; [cbn; lia|done]).
    assert (H0 : plain_value "0") by (split; [cbn; lia|done]).
    unfold strs, head_pairs, yes_no.
    rewrite !entry_eq by (solve [cbn; lia | apply Hp | done | by destruct (s_Share self)]).
    by destruct (bool_decide (s_Name self = "")), (bool_decide (s_Region self = "")). }
  destruct (chunks_spec (s_Models self) strs [] 7 (ps_models _ _ Hp) eq_refl) as (cs & E & Hcs & Hlen); [cbn; lia|].
  exists cs. destruct (flush _) as [[out c] n]. cbn [fst] in E. subst out. split; [|split; [done|]].
  - rewrite Hs, entry_eq by (solve [cbn; lia | apply dec_plain; pose proof (ps_now _ _ Hp); lia]).
    unfold announce_pairs, chunk_pairs. rewrite !fmap_app, <- list_fmap_compose, <- app_assoc. done.
  - assert (Hm : Forall plain_model (concat cs)) by (rewrite Hcs; apply Hp).
    clear -Hm Hlen. induction Hlen as [|c cs [Hc Hle] _ IH]; [done|].
    cbn [concat] in Hm. apply Forall_app in Hm as [Hm1 Hm2]. destruct (IH Hm2). split; by constructor.
Qed.

Lemma pairs_keys now self cs : Forall (λ kv, good_key kv.1) (announce_pairs now self cs).
Proof.
  unfold announce_pairs, head_pairs, chunk_pairs. repeat (apply Forall_app; split);
    try (destruct (bool_decide _)); repeat constructor. apply Forall_fmap, Forall_true. done.
Qed.

Lemma chunk_filter k cs : k ≠ "models" → filter (λ kv, bool_decide (k = kv.1) = true) (chunk_pairs cs) = [].
Proof.
  intros Hk. induction cs as [|c cs IH]; [done|]. unfold chunk_pairs. cbn [fmap list_fmap]. rewrite filter_cons.
  cbn [fst]. rewrite bool_decide_eq_false_2 by done. exact IH.
Qed.

(** The one entry with the key of the signature, and the one with that of the time. *)
Lemma announce_filter k v now self cs sig :
  k = "sig" ∧ v = sig ∨ k = "ts" ∧ v = dec (now / second) →
  filter (λ s, is_key k s = true) (entry <$> announce_pairs now self cs ++ [("sig", sig)]) = [entry (k, v)].
Proof.
  intros Hk. rewrite filter_entries.
  - unfold announce_pairs, head_pairs. rewrite !filter_app, chunk_filter by (by destruct Hk as [[-> _]|[-> _]]).
    destruct Hk as [[-> ->]|[-> ->]], (bool_decide (s_Name self = "")), (bool_decide (s_Region self = "")); reflexivity.
  - by destruct Hk as [[-> _]|[-> _]].
  - apply Forall_app. split; [apply pairs_keys|by repeat constructor].
Qed.

Lemma payload_ignores_signature strs sig :
  lanTXTSignPayload (strs ++ [entry ("sig", sig)]) = lanTXTSignPayload strs.
Proof.
  unfold lanTXTSignPayload. rewrite filter_app.
  rewrite (filter_cons_False _ (entry ("sig", sig)) []), filter_nil, app_nil_r; [done|].
  by rewrite is_key_entry.
Qed.

(** What the reader makes of the entries. *)
Lemma read_announcement now self cs sig :
  plain_self now self → Forall good_chunk cs → (String.length sig ≤ 200)%nat →
  ∃ kv, foldl read_pair (∅, []) (entry <$> announce_pairs now self cs ++ [("sig", sig)]) = (kv, concat cs) ∧
    field kv "v" = "1" ∧ field kv "id" = s_NodeID self ∧ field kv "name" = s_Name self ∧
    field kv "region" = s_Region self ∧ field kv "share" = yes_no (s_Share self).
Proof.
  intros Hp Hcs Hsig.
  assert (Hd : (String.length (dec (now / second)) ≤ 200)%nat).
  { pose proof (ps_now _ _ Hp). pose proof (dec_size (now / second)). lia. }
  destruct (ps_id _ _ Hp) as [Hid _], (ps_name _ _ Hp) as [Hna _], (ps_region _ _ Hp) as [Hre _].
  assert (Hh : ∃ kv, foldl read_pair (∅, []) (entry <$> head_pairs self) = (kv, []) ∧
    field kv "v" = "1" ∧ field kv "id" = s_NodeID self ∧ field kv "name" = s_Name self ∧
    field kv "region" = s_Region self ∧ field kv "share" = yes_no (s_Share self)).
  { unfold head_pairs. set (sh := yes_no (s_Share self)).
    assert (Hsh : (String.length sh ≤ 200)%nat) by (unfold sh; destruct (s_Share self); cbn; lia).
    destruct (bool_decide_reflect (s_Name self = "")) as [En|_], (bool_decide_reflect (s_Region self = "")) as [Er|_];
      cbn [app fmap list_fmap foldl]; rewrite !read_entry by (done || (cbn; lia)); eexists; (split; [reflexivity|]);
      unfold field; rewrite ?En, ?Er; repeat split; by simplify_map_eq. }
  destruct Hh as (kv & E & Hv). unfold announce_pairs.
  rewrite <- !app_assoc, !fmap_app, !foldl_app, E. unfold chunk_pairs.
  rewrite <- list_fmap_compose. unfold compose. rewrite read_chunks by done.
  cbn [app fmap list_fmap foldl]. rewrite !read_entry by (done || (cbn; lia)).
  eexists. split; [reflexivity|]. unfold field in *. by simplify_map_eq.
Qed.

(** ** The records of an announcement *)

Lemma to_lower_app a b : to_lower (a +:+ b) = to_lower a +:+ to_lower b.
Proof. induction a as [|c a IH]; [done|]. rewrite append_cons. cbn [to_lower]. by rewrite IH. Qed.

Lemma substring_app a b : String.substring (String.length a) (String.length b) (a +:+ b) = b.
Proof.
  induction a as [|c a IH]; [|exact IH]. rewrite append_nil_l. cbn [String.length].
  assert (H : ∀ n s, n = String.length s → String.substring 0 n s = s) by (intros n s ->; by apply substring_all).
  by apply H.
Qed.

Lemma has_suffix_app a b : has_suffix b (a +:+ b) = true.
Proof.
  unfold has_suffix. rewrite str_length_app, (proj2 (Nat.leb_le _ _)) by lia.
  replace (String.length a + String.length b - String.length b)%nat with (String.length a) by lia.
  rewrite substring_app. by rewrite bool_decide_eq_true_2.
Qed.

(** The records a node of a name [id] sends for a port, TXT strings and an address. *)
Definition records (id : string) (port : Z) (strs : list string) (ip : option bytes) : list dnsRR :=
  [lan_rr lanServiceFQDN 12 (name_wire (lanInstanceName id :: service_labels));
   lan_rr (instance_fqdn id) 33 (([0; 0; 0; 0] ++ put_uint16 port) ++ name_wire [lanInstanceName id; "local"]);
   lan_rr (instance_fqdn id) 16 (concat (txt_wire <$> strs))]
  ++ match ip with Some ip => [lan_rr (lanHostName (lanInstanceName id)) 1 ip] | None => [] end.

Definition short_strings (strs : list string) : Prop :=
  Forall (λ s, (String.length s ≤ 255)%nat) strs ∧ (length strs ≤ 64)%nat.

Section records.
Context `{LanEnv}.

Lemma records_tables id port strs ip :
  1 ≤ port < 65536 → short_strings strs → (∀ a, ip = Some a → length a = 4%nat) →
  foldl read_answer no_tables (records id port strs ip) =
  {| instances := [instance_fqdn id]; srvs := {[instance_fqdn id := (port, lanHostName (lanInstanceName id))]};
     txts := {[instance_fqdn id := strs]};
     addrs := match ip with Some a => {[lanHostName (lanInstanceName id) := a]} | None => ∅ end |}.
Proof.
  intros Hport [Hs Hn] Hip. unfold records. rewrite foldl_app.
  assert (E1 : read_answer no_tables (lan_rr lanServiceFQDN 12 (name_wire (lanInstanceName id :: service_labels))) =
    {| instances := [instance_fqdn id]; srvs := ∅; txts := ∅; addrs := ∅ |}).
  { unfold read_answer, lan_rr. cbn [rclass rtype rr_name rdata].
    change (1 =? 1) with true. change (12 =? 12) with true. cbn [negb].
    rewrite (bool_decide_eq_true_2 (to_lower lanServiceFQDN = lanServiceFQDN)) by reflexivity. cbn [negb].
    rewrite decode_name_alone by (apply instance_good || (cbn; lia)). rewrite <- instance_canon.
    unfold instance_fqdn at 1. rewrite !to_lower_app.
    change (to_lower "." +:+ to_lower lanServiceFQDN) with ("." +:+ lanServiceFQDN).
    by rewrite has_suffix_app. }
  cbn [foldl]. rewrite E1. clear E1.
  set (t1 := {| instances := [instance_fqdn id] |}).
  assert (E2 : ∀ t, read_answer t (lan_rr (instance_fqdn id) 33
      (([0; 0; 0; 0] ++ put_uint16 port) ++ name_wire [lanInstanceName id; "local"])) =
    {| instances := instances t; srvs := <[instance_fqdn id := (port, lanHostName (lanInstanceName id))]> (srvs t);
       txts := txts t; addrs := addrs t |}).
  { intros t. unfold read_answer, lan_rr. cbn [rclass rtype rr_name rdata].
    change (1 =? 1) with true. change (33 =? 12) with false. change (33 =? 33) with true. cbn [negb].
    rewrite srv_round_trip by (apply host_good || (unfold uint16; lia) || (cbn; lia)).
    rewrite <- host_canon. by rewrite (proj2 (Z.eqb_neq port 0)) by lia. }
  rewrite E2. clear E2.
  assert (E3 : ∀ t, read_answer t (lan_rr (instance_fqdn id) 16 (concat (txt_wire <$> strs))) =
    {| instances := instances t; srvs := srvs t;
       txts := <[instance_fqdn id := default [] (txts t !! instance_fqdn id) ++ strs]> (txts t); addrs := addrs t |}).
  { intros t. unfold read_answer, lan_rr. cbn [rclass rtype rr_name rdata].
    change (1 =? 1) with true. change (16 =? 12) with false. change (16 =? 33) with false.
    change (16 =? 16) with true. cbn [negb]. by rewrite txt_round_trip. }
  rewrite E3. clear E3. subst t1. cbn [instances srvs txts addrs]. rewrite lookup_empty.
  destruct ip as [a|]; [|done]. cbn [foldl]. unfold read_answer, lan_rr. cbn [rclass rtype rr_name rdata].
  change (1 =? 1) with true. change (1 =? 12) with false. change (1 =? 33) with false. change (1 =? 16) with false.
  cbn [negb]. by rewrite (Hip a eq_refl).
Qed.

(** The peer the reader makes of them, if the TXT strings say [kv] and [models]. *)
Lemma records_peer now m id port strs ip src lookup kv models nodeID ver :
  response m = true → answers m = records id port strs ip →
  1 ≤ port < 65536 → short_strings strs → (∀ a, ip = Some a → length a = 4%nat) →
  foldl read_pair (∅, []) strs = (kv, models) → field kv "v" = "1" → field kv "id" = nodeID →
  (1 ≤ String.length nodeID ≤ 128)%nat →
  lanVerifyAnnouncement now nodeID strs lookup = ver → ver ≠ lanTXTRejected →
  parseLANAnnouncement now m src lookup =
  match (match ip with Some a => Some a | None => src end) with
  | Some a => [{| l_NodeID := nodeID; l_Name := field kv "name"; Instance := instance_fqdn id; l_IP := ip_string a;
                  l_Port := port; l_Region := field kv "region"; l_Models := models;
                  l_Share := bool_decide (field kv "share" = "1");
                  Verified := match ver with lanTXTVerified => true | _ => false end |}]
  | None => []
  end.
Proof.
  intros Hr Ha Hport Hs Hip Hkv Hv Hid Hsize Hver Hrej. unfold parseLANAnnouncement. rewrite Hr, Ha.
  cbn [negb]. rewrite records_tables by done. cbn [omap list_omap instances]. unfold read_peer.
  cbn [srvs txts addrs]. rewrite !lookup_singleton_eq. change (default [] (Some strs)) with strs. rewrite Hkv, Hv, Hid.
  rewrite bool_decide_eq_true_2 by done. cbn [negb].
  rewrite bool_decide_eq_false_2 by (intros ->; cbn in Hsize; lia).
  rewrite (proj2 (Nat.ltb_ge _ _)) by lia. cbn [orb]. rewrite Hver.
  destruct ip as [a|]; rewrite ?lookup_singleton_eq, ?lookup_empty; [|destruct src as [a|]]; by destruct ver.
Qed.
End records.

(** ** Announcing and hearing *)

Section announce.
Context `{LanEnv}.

Definition announcement (self : lanSelfInfo) (strs : list string) : dnsMessage :=
  {| m_id := 0; response := true; authoritative := true; questions := [];
     answers := records (s_NodeID self) (s_Port self) strs (s_IP self) |}.

Lemma build_is_announcement now self sign :
  buildLANAnnouncement now self sign = encodeDNSMessage (announcement self (txt_strings now self sign)).
Proof.
  unfold buildLANAnnouncement. fold (instance_fqdn (s_NodeID self)). cbv zeta. rewrite instance_canon.
  rewrite encode_name_ok by apply instance_good. unfold dnsEncodeSRV.
  rewrite host_canon, encode_name_ok by apply host_good. rewrite <- host_canon.
  unfold announcement, records. by rewrite <- instance_canon.
Qed.

Lemma announcement_plain self strs :
  1 ≤ s_Port self < 65536 → short_strings strs → (∀ a, s_IP self = Some a → length a = 4%nat) →
  plain_message (announcement self strs).
Proof.
  intros Hport [Hs Hn] Hip. split; [unfold uint16; cbn; lia|]. split; [constructor|].
  assert (Hrr : ∀ ls t d, good_name ls → (length ls ≤ 64)%nat → uint16 t → Z.of_nat (length d) < 65536 →
    plain_rr (lan_rr (canon ls) t d)).
  { intros ls t d Hg Hl Ht Hd. split; [by exists ls|]. repeat split; try done; apply Ht. }
  assert (Hw : (length (concat (txt_wire <$> strs)) ≤ 256 * length strs)%nat).
  { clear Hn. induction Hs as [|s l Hs _ IH]; [done|]. cbn [fmap list_fmap concat]. unfold txt_wire at 1.
    rewrite length_app. cbn [length]. rewrite bytes_of_length. lia. }
  assert (Hnw : ∀ ls, good_name ls → Z.of_nat (length (name_wire ls)) ≤ 256).
  { intros ls [_ Hls]. unfold name_wire. rewrite length_app. cbn. lia. }
  cbn [answers announcement]. unfold records. rewrite fqdn_canon, instance_canon, host_canon.
  pose proof (instance_good (s_NodeID self)) as Hi. pose proof (host_good (s_NodeID self)) as Hh.
  pose proof (Hnw _ Hi). pose proof (Hnw _ Hh).
  assert (Hsv : good_name service_labels) by (split; [apply known_labels|vm_compute; lia]).
  apply Forall_app. split.
  - rewrite !Forall_cons. split; [|split; [|split; [|constructor]]];
      apply Hrr; try done; try (unfold service_labels; cbn [length]; lia);
      try (unfold uint16; lia); try lia.
    rewrite !length_app. cbn [length put_uint16]. lia.
  - destruct (s_IP self) as [a|]; [|constructor]. apply Forall_singleton. apply Hrr; try done; try (cbn; lia).
    by rewrite (Hip a eq_refl).
Qed.

(** A signing key whose signatures verify: [sign] is standard base64 of 64 bytes. *)
Definition signs_for (pub : string) (sign : string → string) : Prop :=
  ∀ p, String.length (sign p) = 88%nat ∧
    ∃ b, b64_decode (sign p) = Some b ∧ length b = 64%nat ∧ ed_verify pub p b = true.

(** The strings of a signed announcement. *)
Lemma signed_strings now self sign pub :
  plain_self now self → signs_for pub sign →
  ∃ cs, txt_strings now self (Some sign) =
      entry <$> announce_pairs now self cs ++
        [("sig", sign (lanTXTSignPayload (entry <$> announce_pairs now self cs)))] ∧
    concat cs = s_Models self ∧ Forall good_chunk cs ∧
    Forall (λ s, (String.length s ≤ 255)%nat) (txt_strings now self (Some sign)).
Proof.
  intros Hp Hsign. destruct (unsigned_entries now self Hp) as (cs & E & Hcs & Hg & Hlen).
  exists cs. unfold txt_strings. cbv zeta. rewrite E. set (sig := sign _).
  destruct (Hsign (lanTXTSignPayload (entry <$> announce_pairs now self cs))) as [Hs _]. fold sig in Hs.
  rewrite bool_decide_eq_false_2 by (intros E'; by rewrite E' in Hs).
  rewrite (proj2 (Nat.leb_le _ _)) by (rewrite str_length_app, Hs; cbn; lia).
  split; [by rewrite fmap_app|]. split; [done|]. split; [done|].
  assert (Hv : ∀ k v, plain_value v → (String.length k ≤ 50)%nat → (String.length (entry (k, v)) ≤ 255)%nat).
  { intros k v [Hv _] Hk. unfold entry. rewrite !str_length_app. cbn. lia. }
  apply Forall_app. split; [|apply Forall_singleton; rewrite str_length_app, Hs; cbn; lia].
  assert (Hone : ∀ k v, plain_value v → (String.length k ≤ 50)%nat →
    Forall (λ s, (String.length s ≤ 255)%nat) (entry <$> [(k, v)])).
  { intros k v Hpv Hk. apply Forall_singleton. by apply Hv. }
  assert (H1 : plain_value "1") by (split; [cbn; lia|done]).
  assert (Hsh : plain_value (yes_no (s_Share self))) by (destruct (s_Share self); (split; [cbn; lia|done])).
  unfold announce_pairs, head_pairs. change [("v", "1"); ("id", s_NodeID self)] with
    ([("v", "1")] ++ [("id", s_NodeID self)]). rewrite !fmap_app, !Forall_app.
  split_and!; try (apply Hone; [done|cbn; lia]).
  - apply Hone; [apply Hp|cbn; lia].
  - destruct (bool_decide _); [constructor|]. apply Hone; [apply Hp|cbn; lia].
  - destruct (bool_decide _); [constructor|]. apply Hone; [apply Hp|cbn; lia].
  - unfold chunk_pairs. rewrite <- list_fmap_compose. apply Forall_fmap.
    clear -Hg Hlen. induction Hg as [|c cs [Hc _] _ IH]; [constructor|].
    apply Forall_cons in Hlen as [Hl Hlen]. constructor; [|by apply IH].
    pose proof (model_chunk_length c Hc) as Hc'. cbn [compose]. change (entry _) with (chunk_string c). lia.
  - apply Hone; [|cbn; lia]. apply dec_plain. pose proof (ps_now _ _ Hp). lia.
Qed.

(** C19. A node whose fields are plain announces itself and is heard as it is. The fields are plain
    ([plain_self]) when the id has 1 to 128 bytes, id, name and region have at most 200 bytes and
    no line break, every model has 1 to 248 bytes and no comma or space, the port fits 16 bits,
    the address is IPv4 and the clock is after 1970; the models must fit the packet's 64 strings
    with the rest. From the packet the node then sends, any node of the LAN that holds its public
    key reads, as long as the sender's second is at most ten minutes old and at most two ahead,
    exactly one peer, verified, with the identity, name, port, region, models and sharing the
    sender gave, and the address it gave or else the one the packet came from. A model of 249
    bytes empties the announcement ([long_model_corrupts]). *)
Theorem announcement_round_trip now self sign pub pkt now' src lookup :
  plain_self now self → signs_for pub sign →
  (length (txt_strings now self (Some sign)) ≤ 64)%nat →
  buildLANAnnouncement now self (Some sign) = Ok pkt →
  lookup (s_NodeID self) = Some pub →
  - lanSigFutureSkew ≤ now' - (now / second) * second ≤ lanSigMaxAge →
  ∃ m, decodeDNSMessage pkt = Ret m ∧
    parseLANAnnouncement now' m src lookup =
    match (match s_IP self with Some a => Some a | None => src end) with
    | Some a => [{| l_NodeID := s_NodeID self; l_Name := s_Name self; Instance := instance_fqdn (s_NodeID self);
                    l_IP := ip_string a; l_Port := s_Port self; l_Region := s_Region self;
                    l_Models := s_Models self; l_Share := s_Share self; Verified := true |}]
    | None => []
    end.
Proof.
  intros Hp Hsign Hn Hb Hlook Hage. rewrite build_is_announcement in Hb.
  destruct (signed_strings now self sign pub Hp Hsign) as (cs & E & Hcs & Hg & Hshort).
  set (strs := txt_strings now self (Some sign)) in *. exists (announcement self strs).
  assert (Hss : short_strings strs) by done.
  pose proof (announcement_plain self strs (ps_port _ _ Hp) Hss (ps_ip _ _ Hp)) as Hpl.
  split; [by apply message_round_trip|].
  set (payload := lanTXTSignPayload _) in E. destruct (Hsign payload) as (Hl88 & b & Hb64 & Hlb & Hok).
  destruct (read_announcement now self cs (sign payload) Hp Hg) as (kv & Hkv & F1 & F2 & F3 & F4 & F5); [lia|].
  rewrite <- E, Hcs in Hkv.
  assert (Hver : lanVerifyAnnouncement now' (s_NodeID self) strs lookup = lanTXTVerified).
  { unfold lanVerifyAnnouncement. rewrite E.
    rewrite (announce_filter "sig" (sign payload)), (announce_filter "ts" (dec (now / second))) by auto.
    rewrite !cut_key_entry by done. rewrite Hb64, Hlb. cbn [Nat.eqb negb].
    pose proof (ps_now _ _ Hp). rewrite parse_int64_dec by lia. cbv zeta.
    rewrite (proj2 (Z.leb_gt _ _)), !(proj2 (Z.ltb_ge _ _)) by lia. cbn [orb]. rewrite Hlook.
    rewrite fmap_app. cbn [fmap list_fmap]. rewrite payload_ignores_signature. fold payload. by rewrite Hok. }
  rewrite (records_peer now' _ (s_NodeID self) (s_Port self) strs (s_IP self) src lookup kv (s_Models self)
             (s_NodeID self) lanTXTVerified); try done; try apply Hp.
  rewrite F3, F4, F5. by destruct (s_IP self), src, (s_Share self).
Qed.
End announce.

(** ** What a verified peer rests on *)

(** The identity, name, region, models and sharing that TXT strings claim. *)
Definition claims_of (strs : list string) : string * string * string * list string * bool :=
  let '(kv, models) := foldl read_pair (∅, []) strs in
  (field kv "id", field kv "name", field kv "region", models, bool_decide (field kv "share" = "1")).
Definition claims (p : lanPeerInfo) : string * string * string * list string * bool :=
  (l_NodeID p, l_Name p, l_Region p, l_Models p, l_Share p).

(** Fresh at [now], of the seconds [ts]. *)
Definition fresh (now : Time) (strs : list string) : Prop :=
  ∃ t ts, filter (λ s, is_key "ts" s = true) strs = [t] ∧ parse_int64 (cut_key "ts" t) = Some ts ∧ 0 < ts ∧
    - lanSigFutureSkew ≤ now - ts * second ≤ lanSigMaxAge.

Lemma read_signature kv ms s :
  is_key "sig" s = true → ∃ kv', read_pair (kv, ms) s = (kv', ms) ∧ ∀ k, k ≠ "sig" → kv' !! k = kv !! k.
Proof.
  unfold is_key, has_prefix. intros [Hs|Hs]%orb_true_iff.
  - apply bool_decide_eq_true in Hs as ->. by exists kv.
  - destruct (strip_prefix _ s) as [v|] eqn:E; [|done]. apply strip_prefix_Some in E as ->.
    unfold read_pair. change (cut "=" (("sig" +:+ "=") +:+ v)) with (cut "=" ("sig" +:+ String "=" v)).
    rewrite cut_app by done. rewrite bool_decide_eq_false_2 by done.
    destruct (_ && _)%bool; [|by exists kv].
    exists (<["sig" := v]> kv). split; [done|]. intros k Hk. by rewrite lookup_insert_ne.
Qed.

Lemma read_same kv kv' ms s :
  (∀ k, k ≠ "sig" → kv' !! k = kv !! k) →
  ∃ r r' ms', read_pair (kv, ms) s = (r, ms') ∧ read_pair (kv', ms) s = (r', ms') ∧
    ∀ k, k ≠ "sig" → r' !! k = r !! k.
Proof.
  intros Hk. unfold read_pair. destruct (cut "=" s) as [[k v]|]; [|by exists kv, kv', ms].
  destruct (bool_decide (k = "models")).
  { destruct (bool_decide (v = "")); [by exists kv, kv', ms|]. by exists kv, kv', (ms ++ split_on "," v). }
  destruct (_ && _)%bool; [|by exists kv, kv', ms]. exists (<[k := v]> kv), (<[k := v]> kv'), ms.
  split; [done|]. split; [done|]. intros x Hx. destruct (decide (x = k)) as [->|].
  - by rewrite !lookup_insert_eq.
  - rewrite !lookup_insert_ne by done. by apply Hk.
Qed.

(** Nothing a peer claims is read from outside the signed strings. *)
Lemma claims_signed strs : claims_of strs = claims_of (filter (λ s, is_key "sig" s = false) strs).
Proof.
  assert (Hgen : ∀ kv kv' ms, (∀ k, k ≠ "sig" → kv' !! k = kv !! k) →
    ∃ r r' ms', foldl read_pair (kv, ms) strs = (r, ms') ∧
      foldl read_pair (kv', ms) (filter (λ s, is_key "sig" s = false) strs) = (r', ms') ∧
      ∀ k, k ≠ "sig" → r' !! k = r !! k).
  { induction strs as [|s strs IH]; intros kv kv' ms Hk; [by exists kv, kv', ms|].
    rewrite filter_cons. cbn [foldl]. destruct (is_key "sig" s) eqn:E.
    - rewrite decide_False by done. destruct (read_signature kv ms s E) as (kv2 & -> & H2).
      apply IH. intros k Hne. by rewrite H2, Hk.
    - rewrite decide_True by done. cbn [foldl].
      destruct (read_same kv kv' ms s Hk) as (r & r' & ms' & -> & -> & Hr). by apply IH. }
  destruct (Hgen ∅ ∅ [] ltac:(done)) as (r & r' & ms' & E & E' & Hr). unfold claims_of. rewrite E, E'.
  unfold field. by rewrite !Hr.
Qed.

Section authentic.
Context `{LanEnv}.

(** Strings that carry one good and fresh signature for [id]. *)
Definition authentic (now : Time) (lookup : string → option string) (id : string) (strs : list string) : Prop :=
  fresh now strs ∧ ∃ sig b pub,
    filter (λ s, is_key "sig" s = true) strs = [sig] ∧ b64_decode (cut_key "sig" sig) = Some b ∧
    length b = 64%nat ∧ lookup id = Some pub ∧ ed_verify pub (lanTXTSignPayload strs) b = true.

Lemma verified_iff now id strs lookup :
  lanVerifyAnnouncement now id strs lookup = lanTXTVerified ↔ authentic now lookup id strs.
Proof.
  unfold lanVerifyAnnouncement, authentic, fresh. split.
  - destruct (filter (λ s, is_key "sig" s = true) strs) as [|sig [|]] eqn:Es; [done| |done].
    destruct (b64_decode _) as [b|] eqn:Eb; [|done].
    destruct (Nat.eqb_spec (length b) 64) as [Hb|]; [|done]. cbn [negb].
    destruct (filter (λ s, is_key "ts" s = true) strs) as [|t [|]] eqn:Et; [done| |done].
    destruct (parse_int64 _) as [ts|] eqn:Ep; [|done]. cbv zeta.
    destruct (Z.leb_spec ts 0), (Z.ltb_spec lanSigMaxAge (now - ts * second)),
      (Z.ltb_spec (now - ts * second) (- lanSigFutureSkew)); cbn [orb]; try done.
    destruct (lookup id) as [pub|] eqn:El; [|done]. destruct (ed_verify _ _ _) eqn:Ev; [|done].
    intros _. split; [|naive_solver]. exists t, ts. repeat split; try done; lia.
  - intros [(t & ts & -> & -> & Hts & Ha1 & Ha2) (sig & b & pub & -> & -> & -> & -> & ->)]. cbn [Nat.eqb negb].
    cbv zeta. by rewrite (proj2 (Z.leb_gt _ _)), !(proj2 (Z.ltb_ge _ _)) by lia.
Qed.

(** A peer heard is marked verified only on the word of the node it names: its identity,
    name, region, models and sharing are exactly those of TXT strings that carry one 64-byte
    signature, good under the public key the trust pool holds for that identity, over a text
    made of all of them and of a time at most ten minutes old. *)
Theorem verified_is_authentic now m src lookup p :
  p ∈ parseLANAnnouncement now m src lookup → Verified p = true →
  ∃ strs, authentic now lookup (l_NodeID p) strs ∧
    claims p = claims_of (filter (λ s, is_key "sig" s = false) strs).
Proof.
  unfold parseLANAnnouncement. destruct (response m); [cbn [negb]|by intros []%elem_of_nil]. cbv zeta.
  intros (inst & _ & Hr)%list_elem_of_omap Hv. unfold read_peer in Hr.
  destruct (srvs _ !! inst) as [[port target]|]; [|done]. set (strs := default [] _) in Hr.
  exists strs. rewrite <- claims_signed. unfold claims_of. destruct (foldl read_pair (∅, []) strs) as [kv ms].
  destruct (bool_decide (field kv "v" = "1")); [cbn [negb] in Hr|done].
  destruct (_ || _)%bool; [done|].
  destruct (lanVerifyAnnouncement _ _ _ _) eqn:E; [| | |done];
    destruct (match addrs _ !! target with Some ip => Some ip | None => src end) as [ip|]; try done;
    injection Hr as <-; try done. split; [by apply verified_iff|done].
Qed.

(** The signature says nothing of the address: from the TXT strings of any announcement that
    verifies, anyone on the LAN makes one that verifies with an address and port of their own. *)
Theorem address_not_signed now m src lookup p port ip id :
  p ∈ parseLANAnnouncement now m src lookup → Verified p = true →
  1 ≤ port < 65536 → length ip = 4%nat →
  (∀ i, short_strings (default [] (txts (foldl read_answer no_tables (answers m)) !! i))) →
  ∃ m', response m' = true ∧
    parseLANAnnouncement now m' src lookup =
    [{| l_NodeID := l_NodeID p; l_Name := l_Name p; Instance := instance_fqdn id; l_IP := ip_string ip;
        l_Port := port; l_Region := l_Region p; l_Models := l_Models p; l_Share := l_Share p; Verified := true |}].
Proof.
  unfold parseLANAnnouncement at 1. destruct (response m); [cbn [negb]|by intros []%elem_of_nil]. cbv zeta.
  intros (inst & _ & Hr)%list_elem_of_omap Hv Hport Hip Hs. unfold read_peer in Hr.
  destruct (srvs _ !! inst) as [[port' target]|]; [|done]. specialize (Hs inst).
  set (strs := default [] _) in Hr, Hs. destruct (foldl read_pair (∅, []) strs) as [kv ms] eqn:Ekv.
  destruct (bool_decide_reflect (field kv "v" = "1")) as [Hv1|]; [cbn [negb] in Hr|done].
  destruct (bool_decide_reflect (field kv "id" = "")) as [|Hne]; [done|].
  destruct (Nat.ltb_spec 128 (String.length (field kv "id"))) as [|Hid]; [done|]. cbn [orb] in Hr.
  assert (Hver : lanVerifyAnnouncement now (field kv "id") strs lookup = lanTXTVerified ∧
    l_NodeID p = field kv "id" ∧ l_Name p = field kv "name" ∧ l_Region p = field kv "region" ∧
    l_Models p = ms ∧ l_Share p = bool_decide (field kv "share" = "1")).
  { destruct (lanVerifyAnnouncement _ _ _ _) eqn:E; [| | |done];
      destruct (match addrs _ !! target with Some ip => Some ip | None => src end) as [a|]; try done;
      injection Hr as <-; done. }
  destruct Hver as (Hver & -> & -> & -> & -> & ->).
  exists {| m_id := 0; response := true; authoritative := true; questions := []; answers := records id port strs (Some ip) |}.
  split; [done|].
  rewrite (records_peer now _ id port strs (Some ip) src lookup kv ms (field kv "id") lanTXTVerified); try done.
  - intros a [= <-]. done.
  - destruct (field kv "id"); cbn in *; [done|lia].
Qed.
End authentic.

(** ** Registering the peers heard *)

Section once.
Context (id f : string) (t0 : Time).

(** In a window from [t0] no longer than entries are kept, the node [id] is only heard with
    the fingerprint [f]. *)
Definition calm (e : lan_event) : Prop :=
  match e with
  | Heard now p => t0 ≤ now ∧ (l_NodeID p = id → fingerprint p = f)
  | Settled _ _ => True
  | Swept now => now - lanSeenTTL ≤ t0
  end.

(** The calls of [register] for the node under way. *)
Definition calls (d : LANDiscovery) : nat := length (filter (λ p, l_NodeID p = id) (inflight d)).

Definition is_pushed (d : LANDiscovery) : Prop := ∃ e, seen d !! id = Some e ∧ pushed e = true.

Definition entry_ok (n : nat) (o : option lanSeenEntry) : Prop :=
  match o with
  | None => n = 0%nat
  | Some e => seen_fp e = f ∧ t0 ≤ lastSeen e ∧
      (registering e = true ∧ pushed e = false ∧ n = 1%nat ∨
       registering e = false ∧ pushed e = true ∧ n = 0%nat)
  end.

Definition single (d : LANDiscovery) : Prop :=
  Forall (λ p, l_NodeID p = id → fingerprint p = f) (inflight d) ∧ entry_ok (calls d) (seen d !! id).

Lemma single_claim now p d : single d → calm (Heard now p) → single (notePeer_claim now p d).
Proof.
  intros [Hf He] [Hn Hp]. unfold notePeer_claim.
  destruct (_ || _)%bool; [done|]. cbv zeta. destruct (decide (l_NodeID p = id)) as [Eid|Hid].
  - rewrite Eid. specialize (Hp Eid). rewrite Hp. destruct (seen d !! id) as [e|] eqn:E; cbn [entry_ok] in He.
    + destruct He as (Hfp & _ & Hst). cbn [seen_fp pushed registering]. rewrite bool_decide_eq_true_2 by done.
      replace (pushed e || registering e) with true by (destruct Hst as [(-> & -> & _)|(-> & -> & _)]; done).
      cbn [andb]. split; [done|]. unfold set_seen, calls. cbn [seen inflight]. rewrite lookup_insert_eq. done.
    + split; [apply Forall_app; split; [done|]; by apply Forall_singleton|].
      unfold set_seen, calls in *. cbn [seen inflight]. rewrite lookup_insert_eq, filter_app, length_app.
      rewrite filter_cons, decide_True, filter_nil by done. cbn. split; [done|]. split; [done|]. left. naive_solver lia.
  - assert (Hc : ∀ s, s !! id = seen d !! id → single (set_seen d
        (<[l_NodeID p := {| info := p; seen_fp := fingerprint p; lastSeen := now; registering := true; pushed := false |}]> s)
        (inflight d ++ [p]))).
    { intros s Hs. split; [apply Forall_app; split; [done|]; by apply Forall_singleton|].
      unfold set_seen, calls in *. cbn [seen inflight]. rewrite lookup_insert_ne, Hs, filter_app by done.
      rewrite filter_cons, decide_False, filter_nil, app_nil_r by done. done. }
    destruct (seen d !! l_NodeID p) as [e|]; [|by apply Hc].
    destruct (_ && _)%bool; [|apply Hc; by rewrite lookup_insert_ne].
    split; [done|]. unfold set_seen, calls in *. cbn [seen inflight]. by rewrite lookup_insert_ne.
Qed.

Lemma calls_delete d i p :
  inflight d !! i = Some p →
  calls d = (length (filter (λ p, l_NodeID p = id) (delete i (inflight d)))
             + if decide (l_NodeID p = id) then 1 else 0)%nat.
Proof.
  intros Hi. unfold calls. rewrite (delete_Permutation _ _ _ Hi) at 1. rewrite filter_cons.
  case_decide; cbn; lia.
Qed.

Lemma single_settle i ok d : single d → single (notePeer_settle i ok d).
Proof.
  intros [Hf He]. unfold notePeer_settle. destruct (inflight d !! i) as [p|] eqn:Ei; [|done]. cbv zeta.
  pose proof (calls_delete d i p Ei) as Hc.
  assert (Hf' : Forall (λ p, l_NodeID p = id → fingerprint p = f) (delete i (inflight d))).
  { rewrite (delete_Permutation _ _ _ Ei) in Hf. by apply Forall_cons in Hf as [_ ?]. }
  assert (Hp : l_NodeID p = id → fingerprint p = f) by (by apply (Forall_lookup_1 _ _ _ _ Hf Ei)).
  destruct (decide (l_NodeID p = id)) as [Eid|Hid].
  - rewrite Eid, (Hp Eid). destruct (seen d !! id) as [e|]; cbn [entry_ok] in He; [|lia].
    destruct He as (Hfp & Ht & [(Hr & Hpu & Hn)|(_ & _ & Hn)]); [|lia].
    rewrite bool_decide_eq_true_2, Hr by done. cbn [andb].
    destruct ok; (split; [done|]); unfold calls, set_seen; cbn [seen inflight].
    + rewrite lookup_insert_eq. cbn. split; [done|]. split; [done|]. right. repeat split; lia.
    + rewrite lookup_delete_eq. cbn. lia.
  - assert (Hs : ∀ s, s !! id = seen d !! id → single (set_seen d s (delete i (inflight d)))).
    { intros s Hs. split; [done|]. unfold calls, set_seen in *. cbn [seen inflight]. rewrite Hs.
      by rewrite Hc, Nat.add_0_r in He. }
    destruct (seen d !! l_NodeID p) as [e|]; [|by apply Hs]. destruct (_ && _)%bool; [|by apply Hs].
    destruct ok; apply Hs; [by rewrite lookup_insert_ne|by rewrite lookup_delete_ne].
Qed.

Lemma sweep_keeps now d e :
  now - lanSeenTTL ≤ t0 → t0 ≤ lastSeen e → seen d !! id = Some e → seen (cleanup now d) !! id = Some e.
Proof.
  intros Hw Ht He. unfold cleanup, set_seen. cbn [seen]. apply map_lookup_filter_Some. split; [done|].
  cbn. unfold before. by rewrite (proj2 (Z.ltb_ge _ _)) by lia.
Qed.

Lemma single_step d e : single d → calm e → single (lan_step d e).
Proof.
  destruct e as [now p|i ok|now]; intros Hd He; cbn [lan_step]; [by apply single_claim|by apply single_settle|].
  destruct Hd as [Hf Hd]. split; [done|]. change (calls (cleanup now d)) with (calls d).
  destruct (seen d !! id) as [e|] eqn:E.
  - rewrite (sweep_keeps now d e) by (done || apply Hd). done.
  - unfold cleanup, set_seen. cbn [seen]. rewrite map_lookup_filter, E. done.
Qed.

Lemma pushed_step d e : single d → calm e → is_pushed d → is_pushed (lan_step d e).
Proof.
  intros Hs He (x & Hx & Hpx). pose proof Hs as [_ Hx']. rewrite Hx in Hx'.
  destruct Hx' as (Hfp & Ht & [(_ & Hn & _)|(Hr & _ & Hn)]); [congruence|].
  destruct e as [now p|i ok|now]; cbn [lan_step].
  - destruct He as [_ Hp]. unfold notePeer_claim. destruct (_ || _)%bool; [by exists x|]. cbv zeta.
    destruct (decide (l_NodeID p = id)) as [Eid|Hid].
    + rewrite Eid, Hx, (Hp Eid). cbn [seen_fp pushed registering]. rewrite bool_decide_eq_true_2, Hpx by done.
      cbn [andb orb]. unfold is_pushed, set_seen. cbn [seen]. rewrite lookup_insert_eq. eauto.
    + destruct (seen d !! l_NodeID p); [destruct (_ && _)%bool|]; exists x; unfold set_seen; cbn [seen];
        by rewrite !lookup_insert_ne.
  - unfold notePeer_settle. destruct (inflight d !! i) as [p|] eqn:Ei; [|by exists x]. cbv zeta.
    destruct (decide (l_NodeID p = id)) as [Eid|Hid].
    + pose proof (calls_delete d i p Ei) as Hc. rewrite decide_True in Hc by done. lia.
    + destruct (seen d !! l_NodeID p); [destruct (_ && _)%bool; [destruct ok|]|]; exists x; unfold set_seen; cbn [seen];
        by rewrite ?lookup_insert_ne, ?lookup_delete_ne.
  - exists x. split; [|done]. by apply sweep_keeps.
Qed.

Definition lan_run (d : LANDiscovery) (es : list lan_event) : LANDiscovery := foldl lan_step d es.

Lemma run_invariant es d :
  Forall calm es → single d → single (lan_run d es) ∧ (is_pushed d → is_pushed (lan_run d es)).
Proof.
  intros He. revert d. induction He as [|e es He _ IH]; intros d Hd; [done|]. cbn.
  destruct (IH (lan_step d e) (single_step d e Hd He)) as [H1 H2].
  split; [done|]. intros Hp. apply H2. by apply pushed_step.
Qed.
End once.

(** A peer is registered once: however the announcements of a node with one fingerprint,
    the calls of [register] that return, and the sweeps interleave within the quarter of an
    hour entries are kept, at most one call for the node is under way at a time, and once one
    has succeeded none is ever started again. *)
Theorem registered_once id f t0 self es es' :
  Forall (calm id f t0) (es ++ es') →
  let d := lan_run {| self_id := self; seen := ∅; inflight := [] |} es in
  (calls id d ≤ 1)%nat ∧ (is_pushed id d → is_pushed id (lan_run d es') ∧ calls id (lan_run d es') = 0%nat).
Proof.
  intros [He He']%Forall_app d.
  assert (Hd : single id f t0 d).
  { apply run_invariant; [done|]. split; [constructor|]. cbn. by rewrite lookup_empty. }
  split.
  - destruct Hd as [_ Hd]. unfold entry_ok in Hd. destruct (seen d !! id); [|lia]. naive_solver lia.
  - intros Hp. destruct (run_invariant id f t0 es' d He' Hd) as [Hd' Hp']. specialize (Hp' Hp).
    split; [done|]. destruct Hp' as (e & Ee & Hpe), Hd' as [_ Hd']. rewrite Ee in Hd'.
    destruct Hd' as (_ & _ & [(_ & ? & _)|(_ & _ & ?)]); [congruence|done].
Qed.

(** ** Examples *)

Definition demo_env : LanEnv := {|
  ip_string := λ ip, join "." (dec <$> ip);
  ed_verify := λ pub _ b, bool_decide (pub = "key") && bool_decide (b = replicate 64 0) |}.
Definition demo_sign : string → string := λ _,
  "AAAAAAAAAAAAAAAAAAAAAAAAAAAAAAAAAAAAAAAAAAAAAAAAAAAAAAAAAAAAAAAAAAAAAAAAAAAAAAAAAAAAAA==".
Definition demo_self : lanSelfInfo := {|
  s_NodeID := "mmx-0123456789ab"; s_Name := "alpha"; s_Port := 8000; s_Region := "eu";
  s_Models := ["gpt-4o"; "qwen"]; s_Share := true; s_IP := Some [192; 168; 1; 9] |}.
Definition demo_now : Time := 1700000000 * second.
Definition demo_lookup : string → option string := λ id, if bool_decide (id = "mmx-0123456789ab") then Some "key" else None.

Lemma demo_plain_self : plain_self demo_now demo_self.
Proof.
  split; try (vm_compute; lia); try (split; [vm_compute; lia|split; reflexivity]).
  - repeat constructor; (done || (vm_compute; lia)).
  - cbn. lia.
  - intros ip [= <-]. reflexivity.
  - vm_compute. split; reflexivity.
Qed.

Lemma demo_signs : @signs_for demo_env "key" demo_sign.
Proof. intros p. split; [reflexivity|]. exists (replicate 64 0). repeat split; reflexivity. Qed.

Definition demo_peer : lanPeerInfo := {|
  l_NodeID := "mmx-0123456789ab"; l_Name := "alpha"; Instance := "omp-0123456789ab._omp._tcp.local.";
  l_IP := "192.168.1.9"; l_Port := 8000; l_Region := "eu"; l_Models := ["gpt-4o"; "qwen"]; l_Share := true;
  Verified := true |}.

Lemma announcement_round_trip_witness :
  match buildLANAnnouncement demo_now demo_self (Some demo_sign) with
  | Ok pkt => ∃ m, decodeDNSMessage pkt = Ret m ∧
      @parseLANAnnouncement demo_env (demo_now + minute) m None demo_lookup = [demo_peer]
  | Err _ => False
  end.
Proof.
  destruct (buildLANAnnouncement demo_now demo_self (Some demo_sign)) as [pkt|] eqn:E; [|vm_compute in E; discriminate].
  destruct (@announcement_round_trip demo_env demo_now demo_self demo_sign "key" pkt (demo_now + minute) None demo_lookup
    demo_plain_self demo_signs ltac:(vm_compute; lia) E eq_refl ltac:(vm_compute; split; discriminate)) as (m & Hm & Hp).
  exists m. split; [exact Hm|]. refine (eq_trans Hp _). vm_compute. reflexivity.
Defined.

Definition demo_message : dnsMessage :=
  announcement demo_self (txt_strings demo_now demo_self (Some demo_sign)).

Lemma demo_heard :
  @parseLANAnnouncement demo_env (demo_now + minute) demo_message None demo_lookup = [demo_peer].
Proof. vm_compute. reflexivity. Qed.

Lemma verified_is_authentic_witness :
  ∃ strs, @authentic demo_env (demo_now + minute) demo_lookup "mmx-0123456789ab" strs ∧
    claims demo_peer = claims_of (filter (λ s, is_key "sig" s = false) strs).
Proof.
  apply (@verified_is_authentic demo_env (demo_now + minute) demo_message None demo_lookup demo_peer);
    [rewrite demo_heard; apply list_elem_of_here|reflexivity].
Defined.

(** Two announcements at once, a call that succeeds, and another announcement. *)
Lemma registered_once_witness :
  let es := [Heard 5 demo_peer; Heard 6 demo_peer; Settled 0 true] in
  let d := lan_run {| self_id := "me"; seen := ∅; inflight := [] |} es in
  is_pushed "mmx-0123456789ab" d ∧ calls "mmx-0123456789ab" (lan_run d [Heard 7 demo_peer; Swept 8]) = 0%nat.
Proof.
  intros es d.
  assert (Hp : is_pushed "mmx-0123456789ab" d) by (eexists; split; [vm_compute; reflexivity|reflexivity]).
  split; [exact Hp|].
  destruct (registered_once "mmx-0123456789ab" (fingerprint demo_peer) 0 "me" es [Heard 7 demo_peer; Swept 8]) as [_ H].
  - repeat constructor; cbn; try lia; done.
  - exact (proj2 (H Hp)).
Defined.

(** A model name of 249 bytes makes a string of 256, whose length byte wraps to 0: the
    receiver reads an empty string and takes the text for length bytes. *)
Definition long_self : lanSelfInfo := {|
  s_NodeID := "n"; s_Name := ""; s_Port := 1; s_Region := "";
  s_Models := [str_of (replicate 249 97)]; s_Share := false; s_IP := None |}.

Theorem long_model_corrupts :
  String.length (nth 3 (unsigned_strings demo_now long_self) "") = 256%nat ∧
  ((λ s, String.length s) <$> (match dnsDecodeTXT (lanBuildTXT demo_now long_self None) with Ret l => l | _ => [] end))
  = [].
Proof. split; vm_compute; reflexivity. Qed.
