(* ===== verification/RouteTable.v ===== *)
(** * The route table and the node registry (network.go, node_registry.go)

    [RouteTable] holds where the nodes of the network are reached and what they serve; the
    node registry mirrors it in files, one per node. The order in which Go visits a map
    is left open: operations that depend on it take the entries in the order visited.
    Files are written and read back; the temporary names of atomic writes are not
    modelled. *)

From S2P Require Import Prelude GoTime Bytes Sha256 GoSort.
From S2P Require TrustPool.

Definition routeTTL : Z := 10 * minute.
Definition gatewayFailoverMaxFails : Z := 3.
Definition gatewayFailoverMaxCandidates : nat := 3.
Definition gatewayFailoverScorePenalty : float64 := float_of_int 2000.

Record RouteEntry := {
  r_NodeID : string; NodeName : string; r_Addresses : list string; r_Status : string;
  r_Models : list string; LatencyMS : float64; LoadScore : float64; r_LastSeen : Time;
  FailCount : Z; UptimeScore : float64; IsGateway : bool; IsSeed : bool; r_UpdatedAt : Time;
  ReflexiveUDP : string; NATType : string; DHTAddr : string }.

(** ** The node registry *)

Record persistedNode := {
  pn_NodeID : string; pn_NodeName : string; pn_Addresses : list string; pn_IsGateway : bool;
  pn_IsSeed : bool; pn_Models : list string; pn_Status : string; LastSeenUnix : Z;
  pn_LatencyMS : float64; pn_FailCount : Z; pn_UptimeScore : float64; pn_DHTAddr : string;
  PersistedAtUnix : Z }.

(** The files by name; [None] for one that does not parse. *)
Abbreviation NodeRegistry := (gmap string (option persistedNode)).

(** [^[A-Za-z0-9_-]+$]; [filepath.Base] changes nothing of such a name. *)
Definition safe_char (c : ascii) : bool :=
  let n := Ascii.N_of_ascii c in
  ((65 <=? n) && (n <=? 90) || (97 <=? n) && (n <=? 122) || (48 <=? n) && (n <=? 57)
   || (n =? 95) || (n =? 45))%N.
Fixpoint all_safe (s : string) : bool :=
  match s with EmptyString => true | String c s => safe_char c && all_safe s end.

Definition registryFileName (nodeID : string) : string :=
  if negb (bool_decide (nodeID = "")) && all_safe nodeID then nodeID +:+ ".json"
  else sha256_hex (if bool_decide (nodeID = "") then "<empty>" else nodeID) +:+ ".json".

Definition readDHTAddr (nodeID : string) (reg : NodeRegistry) : string :=
  if bool_decide (nodeID = "") then ""
  else match reg !! registryFileName nodeID with Some (Some pn) => pn_DHTAddr pn | _ => "" end.

Definition write (pn : persistedNode) (reg : NodeRegistry) : NodeRegistry :=
  <[registryFileName (pn_NodeID pn) := Some pn]> reg.

Definition SaveNode (now : Time) (e : RouteEntry) (reg : NodeRegistry) : NodeRegistry :=
  write {| pn_NodeID := r_NodeID e; pn_NodeName := NodeName e; pn_Addresses := r_Addresses e;
           pn_IsGateway := IsGateway e; pn_IsSeed := IsSeed e; pn_Models := r_Models e;
           pn_Status := r_Status e; LastSeenUnix := r_LastSeen e / second; pn_LatencyMS := LatencyMS e;
           pn_FailCount := FailCount e; pn_UptimeScore := UptimeScore e;
           pn_DHTAddr := if bool_decide (DHTAddr e = "") then readDHTAddr (r_NodeID e) reg else DHTAddr e;
           PersistedAtUnix := now / second |} reg.

Definition no_node : persistedNode := {|
  pn_NodeID := ""; pn_NodeName := ""; pn_Addresses := []; pn_IsGateway := false; pn_IsSeed := false;
  pn_Models := []; pn_Status := ""; LastSeenUnix := 0; pn_LatencyMS := f_zero; pn_FailCount := 0;
  pn_UptimeScore := f_zero; pn_DHTAddr := ""; PersistedAtUnix := 0 |}.

Definition SaveDHTAddr (now : Time) (nodeID dhtAddr : string) (reg : NodeRegistry) : NodeRegistry :=
  if bool_decide (nodeID = "") || bool_decide (dhtAddr = "") then reg
  else
    let pn := match reg !! registryFileName nodeID with Some (Some pn) => pn | _ => no_node end in
    if bool_decide (pn_DHTAddr pn = dhtAddr) then reg
    else write {| pn_NodeID := nodeID; pn_NodeName := pn_NodeName pn; pn_Addresses := pn_Addresses pn;
                  pn_IsGateway := pn_IsGateway pn; pn_IsSeed := pn_IsSeed pn; pn_Models := pn_Models pn;
                  pn_Status := pn_Status pn; LastSeenUnix := LastSeenUnix pn; pn_LatencyMS := pn_LatencyMS pn;
                  pn_FailCount := pn_FailCount pn; pn_UptimeScore := pn_UptimeScore pn; pn_DHTAddr := dhtAddr;
                  PersistedAtUnix := now / second |} reg.

Definition parseRFC3339Unix (s : string) : Z :=
  if bool_decide (s = "") then 0
  else match parse_rfc3339 s with Some t => t / second | None => 0 end.

(** [SavePeer] of the fields of a [PeerInfo] that it writes. *)
Definition SavePeer (now : Time) (id name : string) (addresses models : list string) (status lastSeen : string)
    (reg : NodeRegistry) : NodeRegistry :=
  write {| pn_NodeID := id; pn_NodeName := name; pn_Addresses := addresses; pn_IsGateway := false;
           pn_IsSeed := false; pn_Models := models; pn_Status := status; LastSeenUnix := parseRFC3339Unix lastSeen;
           pn_LatencyMS := f_zero; pn_FailCount := 0; pn_UptimeScore := f_zero; pn_DHTAddr := "";
           PersistedAtUnix := now / second |} reg.

Definition reg_RemoveNode (nodeID : string) (reg : NodeRegistry) : NodeRegistry :=
  if bool_decide (nodeID = "") then reg else delete (registryFileName nodeID) reg.

Definition orDefault (v def : string) : string := if bool_decide (v = "") then def else v.

Definition restored (now : Time) (pn : persistedNode) : RouteEntry := {|
  r_NodeID := pn_NodeID pn; NodeName := pn_NodeName pn; r_Addresses := pn_Addresses pn;
  r_Status := orDefault (pn_Status pn) "online"; r_Models := pn_Models pn; LatencyMS := pn_LatencyMS pn;
  LoadScore := f_zero; r_LastSeen := LastSeenUnix pn * second; FailCount := pn_FailCount pn;
  UptimeScore := pn_UptimeScore pn; IsGateway := pn_IsGateway pn; IsSeed := pn_IsSeed pn; r_UpdatedAt := now;
  ReflexiveUDP := ""; NATType := ""; DHTAddr := pn_DHTAddr pn |}.

(** [files] are the files in the order of the directory. *)
Definition LoadAll (now : Time) (files : list (option persistedNode)) : list RouteEntry :=
  omap (λ f, match f with
             | Some pn => if bool_decide (pn_NodeID pn = "") then None else Some (restored now pn)
             | None => None end) files.

Definition routeEntryFromNodeInfo (now : Time) (info : TrustPool.NodeInfo) : RouteEntry := {|
  r_NodeID := TrustPool.NodeID info; NodeName := TrustPool.NodeID info;
  r_Addresses := match TrustPool.Addresses info with
                 | [] => if bool_decide (TrustPool.Endpoint info = "") then [] else [TrustPool.Endpoint info]
                 | a => a end;
  r_Status := TrustPool.Status info; r_Models := TrustPool.SharedModels info; LatencyMS := f_zero;
  LoadScore := f_zero; r_LastSeen := default time_zero (parse_rfc3339 (TrustPool.LastSeen info)); FailCount := 0;
  UptimeScore := f_zero; IsGateway := false; IsSeed := false; r_UpdatedAt := now; ReflexiveUDP := "";
  NATType := ""; DHTAddr := "" |}.

(** ** The table *)

Record RouteTable := { entries : gmap string RouteEntry; disk : option NodeRegistry }.

Definition set_entries (rt : RouteTable) (es : gmap string RouteEntry) : RouteTable :=
  {| entries := es; disk := disk rt |}.

Definition initRouteTable (reg : option NodeRegistry) : RouteTable := {| entries := ∅; disk := reg |}.

Definition new_entry (now : Time) (id name : string) (addresses : list string) : RouteEntry := {|
  r_NodeID := id; NodeName := name; r_Addresses := addresses; r_Status := "online"; r_Models := [];
  LatencyMS := f_zero; LoadScore := f_zero; r_LastSeen := time_zero; FailCount := 0; UptimeScore := f_zero;
  IsGateway := false; IsSeed := false; r_UpdatedAt := now; ReflexiveUDP := ""; NATType := ""; DHTAddr := "" |}.

Definition Put (now : Time) (id name : string) (addresses : list string) (rt : RouteTable) : RouteTable :=
  let e := new_entry now id name addresses in
  {| entries := <[id := e]> (entries rt); disk := SaveNode now e <$> disk rt |}.

Definition UpsertEntry (e : RouteEntry) (rt : RouteTable) : RouteTable :=
  set_entries rt (<[r_NodeID e := e]> (entries rt)).

(** The cold start: the entries restored from the files. *)
Definition initNodeRegistry (now : Time) (reg : NodeRegistry) : RouteTable :=
  foldl (λ rt e, UpsertEntry e rt) (initRouteTable (Some reg)) (LoadAll now (map_to_list reg).*2).

Definition unexpired (now : Time) (e : RouteEntry) : bool := negb (routeTTL <? now - r_UpdatedAt e).

Definition Get (now : Time) (id : string) (rt : RouteTable) : option RouteEntry :=
  e ← entries rt !! id; if unexpired now e then Some e else None.

Definition Remove (id : string) (rt : RouteTable) : RouteTable :=
  {| entries := delete id (entries rt); disk := reg_RemoveNode id <$> disk rt |}.

Definition UpdateEntry (id : string) (mutate : RouteEntry → RouteEntry) (rt : RouteTable) : RouteTable :=
  set_entries rt (alter mutate id (entries rt)).

Definition GetAll (now : Time) (rt : RouteTable) : list RouteEntry :=
  filter (λ e, unexpired now e = true) (map_to_list (entries rt)).*2.

Definition PurgeExpired (now : Time) (rt : RouteTable) : nat * RouteTable :=
  let gone := filter (λ kv, unexpired now kv.2 = false) (entries rt) in
  (size gone,
   {| entries := filter (λ kv, unexpired now kv.2 = true) (entries rt);
      disk := (λ reg, foldl (λ reg id, reg_RemoveNode id reg) reg (map_to_list gone).*1) <$> disk rt |}).

Definition Count (rt : RouteTable) : nat := size (entries rt).

(** ** Choosing a node: [es] are the entries in the order visited *)

Definition GetByModel (now : Time) (model : string) (es : list RouteEntry) : list RouteEntry :=
  filter (λ e, unexpired now e && bool_decide (model ∈ r_Models e) = true) es.

Definition tenth (n : Z) : float64 := fdiv (float_of_int n) (float_of_int 10).

(** The contribution term is the constant [(1.0/0.5)*500*0.3 = 300]. *)
Definition node_score (e : RouteEntry) : float64 :=
  fadd (fadd (fmul (LatencyMS e) (tenth 4)) (fmul (fmul (LoadScore e) (float_of_int 1000)) (tenth 3)))
       (float_of_int 300).

Definition SelectBestNode (now : Time) (model : string) (es : list RouteEntry) : option RouteEntry :=
  match GetByModel now model es with
  | [] => None
  | e :: l => Some (foldl (λ best e, if fltb (node_score e) (node_score best) then e else best) e l)
  end.

Definition rank_score (selfID : string) (e : RouteEntry) : float64 :=
  let score := fadd (node_score e) (fmul (float_of_int (FailCount e)) gatewayFailoverScorePenalty) in
  if negb (bool_decide (selfID = "")) && bool_decide (r_NodeID e = selfID)
  then fsub score (float_of_int 100000) else score.

(** [sort.Slice] leaves the order of equal scores open, as the visiting order is: a stable
    sort of any visiting order gives every outcome. *)
Definition SelectRankedNodes (now : Time) (selfID model : string) (limit : Z) (es : list RouteEntry)
    : list RouteEntry :=
  let ranked := filter (λ e, FailCount e <? gatewayFailoverMaxFails = true) (GetByModel now model es) in
  let ranked := sort_stable (λ a b, fltb (rank_score selfID a) (rank_score selfID b)) ranked in
  if (0 <? limit) && (limit <? Z.of_nat (length ranked)) then take (Z.to_nat limit) ranked else ranked.

(** ** Outcomes and health *)

Definition with_outcome (e : RouteEntry) (fails : Z) (uptime latency : float64) (seen : Time) (status : string)
    (updated : Time) : RouteEntry := {|
  r_NodeID := r_NodeID e; NodeName := NodeName e; r_Addresses := r_Addresses e; r_Status := status;
  r_Models := r_Models e; LatencyMS := latency; LoadScore := LoadScore e; r_LastSeen := seen;
  FailCount := fails; UptimeScore := uptime; IsGateway := IsGateway e; IsSeed := IsSeed e;
  r_UpdatedAt := updated; ReflexiveUDP := ReflexiveUDP e; NATType := NATType e; DHTAddr := DHTAddr e |}.

Definition succeeded (now : Time) (latencyMs : float64) (e : RouteEntry) : RouteEntry :=
  with_outcome e 0 (fadd (fmul (UptimeScore e) (tenth 9)) (tenth 1))
    (fadd (fmul (LatencyMS e) (tenth 8)) (fmul latencyMs (tenth 2))) now "online" now.

Definition RecordSuccess (now : Time) (id : string) (latencyMs : float64) (rt : RouteTable) : RouteTable :=
  set_entries rt (alter (succeeded now latencyMs) id (entries rt)).

Definition failed (now : Time) (e : RouteEntry) : RouteEntry :=
  let n := FailCount e +! 1 in
  with_outcome e n (fmul (UptimeScore e) (tenth 8)) (LatencyMS e) (r_LastSeen e)
    (if 3 <=? n then "unreachable" else r_Status e) now.

Definition RecordFail (now : Time) (id : string) (rt : RouteTable) : Z * RouteTable :=
  match entries rt !! id with
  | None => (0, rt)
  | Some e => (FailCount (failed now e), set_entries rt (<[id := failed now e]> (entries rt)))
  end.

Definition GetGateways (rt : RouteTable) : list RouteEntry :=
  filter (λ e, IsGateway e && negb (bool_decide (r_Status e = "unreachable")) = true) (map_to_list (entries rt)).*2.
Definition GetSeeds (rt : RouteTable) : list RouteEntry :=
  filter (λ e, IsSeed e = true) (map_to_list (entries rt)).*2.

(** What a sweep makes of an entry: removed, counted as failed, or kept. *)
Inductive sweep := Gone | Missed (e : RouteEntry) | Kept (e : RouteEntry).

Definition sweep_entry (now : Time) (e : RouteEntry) : sweep :=
  if IsSeed e then Kept e
  else if 7 * (24 * hour) <? now - r_LastSeen e then Gone
  else if (30 * minute <? now - r_LastSeen e) && negb (bool_decide (r_Status e = "unreachable")) then
    let n := FailCount e +! 1 in
    Missed (with_outcome e n (UptimeScore e) (LatencyMS e) (r_LastSeen e)
              (if 3 <=? n then "unreachable" else r_Status e) (r_UpdatedAt e))
  else Kept e.

Definition PurgeStale (now : Time) (rt : RouteTable) : nat * nat * RouteTable :=
  (size (filter (λ kv, match sweep_entry now kv.2 with Gone => true | _ => false end = true) (entries rt)),
   size (filter (λ kv, match sweep_entry now kv.2 with Missed _ => true | _ => false end = true) (entries rt)),
   set_entries rt (omap (λ e, match sweep_entry now e with Gone => None | Missed e => Some e | Kept e => Some e end)
                     (entries rt))).

Definition flagged (gateway seed : bool) (now : Time) (e : RouteEntry) : RouteEntry := {|
  r_NodeID := r_NodeID e; NodeName := NodeName e; r_Addresses := r_Addresses e; r_Status := r_Status e;
  r_Models := r_Models e; LatencyMS := LatencyMS e; LoadScore := LoadScore e; r_LastSeen := r_LastSeen e;
  FailCount := FailCount e; UptimeScore := UptimeScore e; IsGateway := gateway; IsSeed := seed;
  r_UpdatedAt := now; ReflexiveUDP := ReflexiveUDP e; NATType := NATType e; DHTAddr := DHTAddr e |}.

Definition MarkGateway (now : Time) (id : string) (b : bool) (rt : RouteTable) : RouteTable :=
  set_entries rt (alter (λ e, flagged b (IsSeed e) now e) id (entries rt)).
Definition MarkSeed (now : Time) (id : string) (b : bool) (rt : RouteTable) : RouteTable :=
  set_entries rt (alter (λ e, flagged (IsGateway e) b now e) id (entries rt)).
