(* ===== verification/RouteSafety.v ===== *)
(** * What the route table guarantees (network.go, node_registry.go)

    The nodes chosen for a model, the exclusion of nodes that fail, and the files that
    bring the table back after a restart. *)

From S2P Require Import Prelude GoTime Bytes Sha256 GoSort RouteTable.

(** ** The nodes chosen for a model *)

(** A node that may be tried. *)
Definition eligible (now : Time) (model : string) (e : RouteEntry) : Prop :=
  now - r_UpdatedAt e ≤ routeTTL ∧ model ∈ r_Models e ∧ FailCount e < gatewayFailoverMaxFails.

#[export] Instance eligible_dec now model e : Decision (eligible now model e).
Proof. unfold eligible. apply _. Defined.

Lemma eligible_filter now model es :
  filter (λ e, FailCount e <? gatewayFailoverMaxFails = true) (GetByModel now model es) =
  filter (eligible now model) es.
Proof.
  unfold GetByModel. rewrite list_filter_filter. apply filter_ext_in. intros e _.
  unfold eligible, unexpired. rewrite andb_true_iff, bool_decide_eq_true, negb_true_iff, Z.ltb_ge, Z.ltb_lt. tauto.
Qed.

(** The nodes a request is tried on: in whatever order the table is visited, the result
    and the nodes left out together are exactly the unexpired nodes that offer the model and
    have failed less than three times in a row; the result is in order of score, no node left
    out has a better score than one chosen, and none is left out unless the limit is reached. *)
Theorem ranked_nodes now self model limit es :
  (∀ e, e ∈ es → eligible now model e → is_nan (rank_score self e) = false) →
  let chosen := SelectRankedNodes now self model limit es in
  ∃ rest, chosen ++ rest ≡ₚ filter (eligible now model) es ∧
    sorted_by (λ a b, fltb (rank_score self a) (rank_score self b)) (chosen ++ rest) ∧
    (rest ≠ [] → 0 < limit ∧ Z.of_nat (length chosen) = limit).
Proof.
  intros Hn. unfold SelectRankedNodes. cbv zeta. rewrite eligible_filter.
  set (less a b := fltb (rank_score self a) (rank_score self b)).
  set (ranked := sort_stable less _).
  assert (Hp : ranked ≡ₚ filter (eligible now model) es) by apply sort_stable_perm.
  assert (Hs : sorted_by less ranked).
  { apply sort_by_numbers. intros e [He Hin]%list_elem_of_filter. by apply Hn. }
  destruct (Z.ltb_spec 0 limit) as [Hl|]; cbn [andb]; [|exists []; by rewrite app_nil_r].
  destruct (Z.ltb_spec limit (Z.of_nat (length ranked))) as [Hlen|]; [|exists []; by rewrite app_nil_r].
  exists (drop (Z.to_nat limit) ranked). rewrite take_drop. split; [done|]. split; [done|].
  intros _. split; [done|]. rewrite length_take. lia.
Qed.

(** ** Nodes that fail *)

(** The operations on the table. *)
Inductive rt_op :=
  | RPut (now : Time) (id name : string) (addresses : list string)
  | RUpsert (e : RouteEntry)
  | RRemove (id : string)
  | RSuccess (now : Time) (id : string) (latency : float64)
  | RFail (now : Time) (id : string)
  | RSweep (now : Time)
  | RPurge (now : Time)
  | RGateway (now : Time) (id : string) (b : bool)
  | RSeed (now : Time) (id : string) (b : bool).

Definition rt_exec (rt : RouteTable) (o : rt_op) : RouteTable :=
  match o with
  | RPut now id name a => Put now id name a rt
  | RUpsert e => UpsertEntry e rt
  | RRemove id => Remove id rt
  | RSuccess now id l => RecordSuccess now id l rt
  | RFail now id => (RecordFail now id rt).2
  | RSweep now => (PurgeStale now rt).2
  | RPurge now => (PurgeExpired now rt).2
  | RGateway now id b => MarkGateway now id b rt
  | RSeed now id b => MarkSeed now id b rt
  end.

Definition rt_run (rt : RouteTable) (os : list rt_op) : RouteTable := foldl rt_exec rt os.

(** The operations that give a node a new start. *)
Definition renews (id : string) (o : rt_op) : bool :=
  match o with
  | RPut _ i _ _ | RRemove i | RSuccess _ i _ => bool_decide (i = id)
  | RUpsert e => bool_decide (r_NodeID e = id)
  | _ => false
  end.
Definition fails (id : string) (o : rt_op) : bool :=
  match o with RFail _ i => bool_decide (i = id) | _ => false end.

(** Entries are stored under their own id. *)
Definition keyed_entries (rt : RouteTable) : Prop := ∀ id e, entries rt !! id = Some e → r_NodeID e = id.

Lemma alter_keyed (g : RouteEntry → RouteEntry) (id : string) (es : gmap string RouteEntry) :
  (∀ e, r_NodeID (g e) = r_NodeID e) → (∀ i e, es !! i = Some e → r_NodeID e = i) →
  ∀ i e, alter g id es !! i = Some e → r_NodeID e = i.
Proof.
  intros Hg Hk i e. rewrite lookup_alter. case_decide as Hi; [|by apply Hk].
  subst i. destruct (es !! id) as [e'|] eqn:E; [|done]. intros [= <-]. rewrite Hg. by apply Hk.
Qed.

Lemma swept now rt id :
  entries (PurgeStale now rt).2 !! id =
  e ← entries rt !! id; match sweep_entry now e with Gone => None | Missed e => Some e | Kept e => Some e end.
Proof. unfold PurgeStale, set_entries. cbn [entries snd]. by rewrite lookup_omap. Qed.

Lemma sweep_same now e e' :
  (match sweep_entry now e with Gone => None | Missed e => Some e | Kept e => Some e end) = Some e' →
  r_NodeID e' = r_NodeID e ∧ r_Addresses e' = r_Addresses e ∧ NodeName e' = NodeName e ∧
  (FailCount e' = FailCount e ∨ FailCount e' = FailCount e +! 1).
Proof.
  unfold sweep_entry. destruct (IsSeed e); [intros [= <-]; tauto|]. destruct (_ <? _); [done|].
  destruct (_ && _)%bool; intros [= <-]; cbn; tauto.
Qed.

Lemma keyed_exec rt o : keyed_entries rt → keyed_entries (rt_exec rt o).
Proof.
  unfold keyed_entries. intros Hk id e. destruct o; cbn [rt_exec].
  - unfold Put. cbn [entries]. intros [[<- <-]|[_ ?]]%lookup_insert_Some; [done|by apply Hk].
  - unfold UpsertEntry, set_entries. cbn [entries]. intros [[<- <-]|[_ ?]]%lookup_insert_Some; [done|by apply Hk].
  - unfold Remove. cbn [entries]. intros [_ ?]%lookup_delete_Some. by apply Hk.
  - unfold RecordSuccess, set_entries. cbn [entries]. by apply alter_keyed.
  - unfold RecordFail. destruct (entries rt !! id0) as [e0|] eqn:E; cbn [snd]; [|by apply Hk].
    unfold set_entries. cbn [entries]. intros [[<- <-]|[_ ?]]%lookup_insert_Some; [by apply (Hk id0 e0)|by apply Hk].
  - rewrite swept. destruct (entries rt !! id) as [e0|] eqn:E; [|done]. cbn.
    intros (-> & _)%sweep_same. by apply Hk.
  - unfold PurgeExpired. cbn [entries snd]. rewrite map_lookup_filter_Some. intros [? _]. by apply Hk.
  - unfold MarkGateway, set_entries. cbn [entries]. by apply alter_keyed.
  - unfold MarkSeed, set_entries. cbn [entries]. by apply alter_keyed.
Qed.

(** The failures of a node only grow while nothing renews it. *)
Definition at_least (id : string) (n b : Z) (rt : RouteTable) : Prop :=
  ∀ e, entries rt !! id = Some e → n ≤ FailCount e ≤ b.

Lemma at_least_exec id n b rt o :
  at_least id n b rt → renews id o = false → 0 ≤ n → b < 2 ^ 62 →
  at_least id (n + if fails id o then 1 else 0) (b + 1) (rt_exec rt o).
Proof.
  intros Ha Hr Hn Hb e.
  assert (Hadd : ∀ x, n ≤ x ≤ b → x +! 1 = x + 1) by (intros x Hx; apply wrap64_id; unfold is_int64; lia).
  assert (Hsame : ∀ e, entries rt !! id = Some e → n + 0 ≤ FailCount e ≤ b + 1) by (intros x Hx; specialize (Ha x Hx); lia).
  assert (Halter : ∀ g i, (∀ e, FailCount (g e) = FailCount e) → ∀ e, alter g i (entries rt) !! id = Some e →
    n + 0 ≤ FailCount e ≤ b + 1).
  { intros g i Hg x. rewrite lookup_alter. case_decide; [subst i|apply Hsame].
    destruct (entries rt !! id) eqn:E; [|done]. intros [= <-]. rewrite Hg. by apply Hsame. }
  destruct o; cbn [rt_exec renews fails] in *.
  - apply bool_decide_eq_false in Hr. unfold Put. cbn [entries]. rewrite lookup_insert_ne by done. apply Hsame.
  - apply bool_decide_eq_false in Hr. unfold UpsertEntry, set_entries. cbn [entries]. rewrite lookup_insert_ne by done. apply Hsame.
  - apply bool_decide_eq_false in Hr. unfold Remove. cbn [entries]. rewrite lookup_delete_ne by done. apply Hsame.
  - apply bool_decide_eq_false in Hr. unfold RecordSuccess, set_entries. cbn [entries].
    rewrite lookup_alter_ne by done. apply Hsame.
  - unfold RecordFail. destruct (decide (id0 = id)) as [->|Hne].
    + rewrite bool_decide_eq_true_2 by done. destruct (entries rt !! id) as [e0|] eqn:E; cbn [snd].
      * unfold set_entries. cbn [entries]. rewrite lookup_insert_eq. intros [= <-]. specialize (Ha e0 E).
        cbn. rewrite Hadd by done. lia.
      * by rewrite E.
    + rewrite bool_decide_eq_false_2 by done. destruct (entries rt !! id0) as [e0|] eqn:E; cbn [snd]; [|apply Hsame].
      unfold set_entries. cbn [entries]. rewrite lookup_insert_ne by done. apply Hsame.
  - rewrite swept. destruct (entries rt !! id) as [e0|] eqn:E; [|done]. cbn. specialize (Ha e0 E).
    intros (_ & _ & _ & [->| ->])%sweep_same; rewrite ?Hadd by done; lia.
  - unfold PurgeExpired. cbn [entries snd]. rewrite map_lookup_filter_Some. intros [? _]. by apply Hsame.
  - unfold MarkGateway, set_entries. cbn [entries]. by apply Halter.
  - unfold MarkSeed, set_entries. cbn [entries]. by apply Halter.
Qed.

Definition count_fails (id : string) (os : list rt_op) : Z :=
  Z.of_nat (length (filter (λ o, fails id o = true) os)).

Lemma at_least_run id os n b rt :
  at_least id n b rt → Forall (λ o, renews id o = false) os → 0 ≤ n → b + Z.of_nat (length os) < 2 ^ 62 →
  at_least id (n + count_fails id os) (b + Z.of_nat (length os)) (rt_run rt os).
Proof.
  intros Ha Hos. revert n b rt Ha. induction Hos as [|o os Ho _ IH]; intros n b rt Ha Hn Hb.
  - intros e He. specialize (Ha e He). unfold count_fails. cbn. lia.
  - cbn [rt_run foldl length] in *. fold (rt_run (rt_exec rt o) os).
    pose proof (at_least_exec id n b rt o Ha Ho Hn ltac:(lia)) as Ha'.
    intros e He. specialize (IH _ _ _ Ha' ltac:(destruct (fails id o); lia) ltac:(lia) e He).
    unfold count_fails in *. rewrite filter_cons. destruct (fails id o).
    + rewrite decide_True by done. cbn [length]. lia.
    + rewrite decide_False by done. lia.
Qed.

(** A node that keeps failing is left alone: from any table, once three calls to it have
    failed, whatever else happens in between, it is chosen for no model, under any order of
    visiting, until it is put, upserted or removed or a call to it succeeds. *)
Theorem failing_node_avoided rt id os now self model limit es e0 :
  keyed_entries rt → entries rt !! id = Some e0 → 0 ≤ FailCount e0 →
  FailCount e0 + Z.of_nat (length os) < 2 ^ 62 →
  Forall (λ o, renews id o = false) os → 3 ≤ count_fails id os →
  es ≡ₚ (map_to_list (entries (rt_run rt os))).*2 →
  ∀ e, e ∈ SelectRankedNodes now self model limit es → r_NodeID e ≠ id.
Proof.
  intros Hk He0 Hf0 Hb Hos Hc Hes e He Hid.
  assert (Ha : at_least id (FailCount e0) (FailCount e0) rt).
  { intros e' He'. rewrite He0 in He'. injection He' as <-. lia. }
  pose proof (at_least_run id os _ _ rt Ha Hos Hf0 Hb) as Hrun.
  assert (Hkr : keyed_entries (rt_run rt os)).
  { clear -Hk. revert rt Hk. induction os as [|o os IH]; intros rt Hk; [done|]. apply IH. by apply keyed_exec. }
  assert (Hin : e ∈ filter (eligible now model) es).
  { rewrite <- eligible_filter, <- (sort_stable_elem (λ a b, fltb (rank_score self a) (rank_score self b))).
    unfold SelectRankedNodes in He. destruct (_ && _)%bool; [|done]. rewrite <- (take_drop (Z.to_nat limit)). apply elem_of_app. by left. }
  apply list_elem_of_filter in Hin as [(_ & _ & Hlt) Hin]. rewrite Hes in Hin.
  apply list_elem_of_fmap in Hin as ([k e'] & -> & Hin). apply elem_of_map_to_list in Hin.
  cbn [snd] in *. rewrite (Hkr _ _ Hin) in Hid. subst k. specialize (Hrun _ Hin).
  unfold gatewayFailoverMaxFails in Hlt. lia.
Qed.

(** ** The files of the registry *)

Definition safe_id (id : string) : Prop := id ≠ "" ∧ all_safe id = true.

Lemma safe_file id : safe_id id → registryFileName id = id +:+ ".json".
Proof. intros [Hne Hs]. unfold registryFileName. by rewrite bool_decide_eq_false_2, Hs by done. Qed.

Lemma safe_file_inj a b : safe_id a → safe_id b → registryFileName a = registryFileName b → a = b.
Proof.
  intros Ha Hb. rewrite !safe_file by done. intros E. apply (f_equal bytes_of) in E.
  rewrite !bytes_of_app in E. apply app_inv_tail in E. by rewrite <- (str_of_bytes_of a), E, str_of_bytes_of.
Qed.

(** A node's file says its name and its addresses. *)
Definition filed (reg : NodeRegistry) (id : string) (e : RouteEntry) : Prop :=
  ∃ pn, reg !! registryFileName id = Some (Some pn) ∧ pn_NodeID pn = id ∧ pn_NodeName pn = NodeName e ∧
    pn_Addresses pn = r_Addresses e.

Record mirrored (rt : RouteTable) (reg : NodeRegistry) : Prop := {
  mi_disk : disk rt = Some reg;
  mi_entries id e : entries rt !! id = Some e → safe_id id ∧ filed reg id e;
  mi_files f o : reg !! f = Some o → ∃ pn, o = Some pn ∧ f = registryFileName (pn_NodeID pn) ∧ safe_id (pn_NodeID pn) }.

(** The operations of a running node, on ids that are file names. *)
Definition plain_op (o : rt_op) : Prop :=
  match o with RPut _ id _ _ | RRemove id => safe_id id | RUpsert _ => False | _ => True end.

(** An operation that keeps the files and only changes what they do not say. *)
Lemma mirrored_same rt reg es :
  mirrored rt reg →
  (∀ id e, es !! id = Some e → ∃ e', entries rt !! id = Some e' ∧ NodeName e = NodeName e' ∧ r_Addresses e = r_Addresses e') →
  mirrored (set_entries rt es) reg.
Proof.
  intros Hm Hs. split; [apply Hm| |apply Hm]. intros id e He. destruct (Hs id e He) as (e' & He' & H1 & H2).
  destruct (mi_entries _ _ Hm id e' He') as [Hid (pn & Hf)]. split; [done|]. exists pn. by rewrite H1, H2.
Qed.

Lemma alter_same (g : RouteEntry → RouteEntry) (i : string) (es : gmap string RouteEntry) :
  (∀ e, NodeName (g e) = NodeName e ∧ r_Addresses (g e) = r_Addresses e) →
  ∀ id e, alter g i es !! id = Some e → ∃ e', es !! id = Some e' ∧ NodeName e = NodeName e' ∧ r_Addresses e = r_Addresses e'.
Proof.
  intros Hg id e. rewrite lookup_alter. case_decide as Hi; [subst i|by exists e].
  destruct (es !! id) as [e'|]; [|done]. intros [= <-]. exists e'. by destruct (Hg e').
Qed.

Lemma delete_files reg ids f :
  (∀ id, id ∈ ids → id ≠ "") →
  foldl (λ reg id, reg_RemoveNode id reg) reg ids !! f =
  if decide (f ∈ registryFileName <$> ids) then None else reg !! f.
Proof.
  revert reg. induction ids as [|id ids IH]; intros reg Hne; [by rewrite decide_False by (by intros []%elem_of_nil)|].
  rewrite fmap_cons. cbn [foldl]. rewrite IH by (intros; apply Hne; by right). unfold reg_RemoveNode.
  rewrite bool_decide_eq_false_2 by (apply Hne; left).
  destruct (decide (f ∈ registryFileName <$> ids)); [by rewrite decide_True by (apply elem_of_cons; by right)|].
  destruct (decide (f = registryFileName id)) as [->|Hf].
  - rewrite lookup_delete_eq. by rewrite decide_True by left.
  - rewrite lookup_delete_ne by done. rewrite decide_False; [done|]. rewrite elem_of_cons. tauto.
Qed.

Lemma mirrored_purge now rt reg : mirrored rt reg → ∃ reg', mirrored (PurgeExpired now rt).2 reg'.
Proof.
  intros Hm. unfold PurgeExpired. cbn [snd]. set (gone := filter (λ kv, unexpired now kv.2 = false) (entries rt)).
  set (ids := (map_to_list gone).*1). rewrite (mi_disk _ _ Hm). eexists. split; [reflexivity| |].
  all: assert (Hgone : ∀ id, id ∈ ids → safe_id id ∧ ∃ e, entries rt !! id = Some e ∧ unexpired now e = false)
    by (intros id ([k e] & -> & Hin)%list_elem_of_fmap; apply elem_of_map_to_list in Hin;
        apply map_lookup_filter_Some in Hin as [He Hx]; split; [by eapply mi_entries|by exists e]).
  all: assert (Hne : ∀ id, id ∈ ids → id ≠ "") by (intros id Hid; by apply (Hgone id Hid)).
  - intros id e [He Hx]%map_lookup_filter_Some. destruct (mi_entries _ _ Hm id e He) as [Hid (pn & Hf & Hrest)].
    split; [done|]. exists pn. split; [|done]. cbn [fmap option_fmap option_map]. rewrite delete_files by done.
    rewrite decide_False; [done|]. intros (id' & Hfile & Hin)%list_elem_of_fmap.
    destruct (Hgone id' Hin) as [Hs (e' & He' & Hx')]. apply safe_file_inj in Hfile as <-; [|done..].
    rewrite He in He'. injection He' as <-. cbn in Hx. congruence.
  - intros f o. rewrite delete_files by done. destruct (decide _); [done|]. apply Hm.
Qed.

Lemma mirrored_exec rt reg o : mirrored rt reg → plain_op o → ∃ reg', mirrored (rt_exec rt o) reg'.
Proof.
  intros Hm Ho. destruct o; cbn [rt_exec plain_op] in *.
  - unfold Put. set (e := new_entry _ _ _ _). rewrite (mi_disk _ _ Hm). eexists. split; [reflexivity|..].
    + intros i e'. cbn [entries fmap option_fmap option_map]. intros [[<- <-]|[Hi He]]%lookup_insert_Some.
      * split; [done|]. eexists. unfold SaveNode, write. rewrite lookup_insert_eq. done.
      * destruct (mi_entries _ _ Hm i e' He) as [Hs (pn & Hf & Hrest)]. split; [done|]. exists pn.
        split; [|done]. unfold SaveNode, write. rewrite lookup_insert_ne; [done|].
        intros E. apply Hi. by apply safe_file_inj in E.
    + intros f o. cbn [fmap option_fmap option_map]. unfold SaveNode, write.
      intros [[<- <-]|[_ ?]]%lookup_insert_Some; [by eexists|by apply Hm].
  - done.
  - unfold Remove. rewrite (mi_disk _ _ Hm). unfold reg_RemoveNode. rewrite bool_decide_eq_false_2 by apply Ho.
    eexists. split; [reflexivity|..].
    + intros i e'. cbn [entries fmap option_fmap option_map]. intros [Hi He]%lookup_delete_Some.
      destruct (mi_entries _ _ Hm i e' He) as [Hs (pn & Hf & Hrest)]. split; [done|]. exists pn.
      split; [|done]. rewrite lookup_delete_ne; [done|]. intros E. apply Hi. by apply safe_file_inj in E.
    + intros f o. cbn [fmap option_fmap option_map]. intros [_ ?]%lookup_delete_Some. by apply Hm.
  - exists reg. unfold RecordSuccess. apply mirrored_same; [done|]. by apply alter_same.
  - exists reg. unfold RecordFail. destruct (entries rt !! id) as [e|] eqn:E; cbn [snd]; [|done].
    apply mirrored_same; [done|]. intros i e' [[<- <-]|[_ ?]]%lookup_insert_Some; [by exists e|by exists e'].
  - exists reg. apply mirrored_same; [done|]. intros i e'. rewrite lookup_omap.
    destruct (entries rt !! i) as [e|]; [|done]. cbn. intros (_ & Ha & Hn & _)%sweep_same. by exists e.
  - by apply mirrored_purge with reg.
  - exists reg. apply mirrored_same; [done|]. by apply alter_same.
  - exists reg. apply mirrored_same; [done|]. by apply alter_same.
Qed.

(** ** The cold start *)

Lemma upsert_all l rt id :
  NoDup (r_NodeID <$> l) →
  entries (foldl (λ rt e, UpsertEntry e rt) rt l) !! id =
  match find_key r_NodeID id l with Some e => Some e | None => entries rt !! id end.
Proof.
  revert rt. induction l as [|e l IH]; intros rt Hnd; [done|]. cbn [foldl fmap list_fmap] in *.
  apply NoDup_cons in Hnd as [Hnot Hnd]. rewrite IH by done. unfold UpsertEntry, set_entries. cbn [entries]. rewrite find_key_cons.
  destruct (decide (r_NodeID e = id)) as [Hid|Hid].
  - rewrite <- Hid, lookup_insert_eq.
    destruct (find_key r_NodeID (r_NodeID e) l) as [e'|] eqn:E; [|done].
    apply find_key_Some in E as [Hin E]. exfalso. apply Hnot. rewrite <- E. by apply list_elem_of_fmap_2.
  - by rewrite lookup_insert_ne.
Qed.

Lemma load_ids now l :
  NoDup l.*1 → (∀ f o, (f, o) ∈ l → ∃ pn, o = Some pn ∧ f = registryFileName (pn_NodeID pn) ∧ safe_id (pn_NodeID pn)) →
  NoDup (r_NodeID <$> LoadAll now l.*2) ∧
  ∀ id, id ∈ r_NodeID <$> LoadAll now l.*2 → registryFileName id ∈ l.*1.
Proof.
  induction l as [|[f o] l IH]; intros Hnd Hl; [split; [constructor|by intros ? ?%elem_of_nil]|].
  cbn [fmap list_fmap fst snd] in *. apply NoDup_cons in Hnd as [Hf Hnd].
  destruct IH as [H1 H2]; [done|intros; apply Hl; by right|].
  destruct (Hl f o) as (pn & -> & -> & [Hne _]); [left|]. unfold LoadAll. cbn [omap list_omap].
  rewrite bool_decide_eq_false_2 by done. rewrite fmap_cons. change (r_NodeID (restored now pn)) with (pn_NodeID pn).
  fold (LoadAll now l.*2). split.
  - apply NoDup_cons. split; [|exact H1]. intros Hin. by apply Hf, H2.
  - intros id [->|Hin]%elem_of_cons; [left|right; by apply H2].
Qed.

(** The registry survives a restart: after any operations of a running node, each node its
    table still holds is found again, fresh, with its name and addresses, in the table that
    a restart builds from the files. *)
Theorem restart_restores os now :
  Forall plain_op os →
  let rt := rt_run (initRouteTable (Some ∅)) os in
  ∃ reg, disk rt = Some reg ∧
    ∀ id e, entries rt !! id = Some e →
      ∃ e', Get now id (initNodeRegistry now reg) = Some e' ∧
        NodeName e' = NodeName e ∧ r_Addresses e' = r_Addresses e.
Proof.
  intros Hos rt. assert (Hm : ∃ reg, mirrored rt reg).
  { unfold rt, rt_run. clear rt. revert Hos.
    assert (H0 : ∃ reg, mirrored (initRouteTable (Some ∅)) reg).
    { exists ∅. by split. }
    revert H0. generalize (initRouteTable (Some ∅)) as rt. induction os as [|o os IH]; intros rt [reg Hm] Ho; [by exists reg|].
    apply Forall_cons in Ho as [Ho Hos]. cbn [foldl]. apply IH; [|done]. by apply mirrored_exec with reg. }
  destruct Hm as [reg Hm]. exists reg. split; [apply Hm|]. intros id e He.
  destruct (mi_entries _ _ Hm id e He) as [_ (pn & Hf & Hid & Hn & Ha)].
  destruct (load_ids now (map_to_list reg)) as [Hnd _]; [apply NoDup_fst_map_to_list| |].
  { intros f o Hin%elem_of_map_to_list. by apply Hm. }
  assert (Hin : restored now pn ∈ LoadAll now (map_to_list reg).*2).
  { unfold LoadAll. apply list_elem_of_omap. exists (Some pn). split.
    - apply list_elem_of_fmap. exists (registryFileName id, Some pn). split; [done|]. by apply elem_of_map_to_list.
    - destruct (mi_files _ _ Hm _ _ Hf) as (pn' & [= <-] & _ & [Hne _]). by rewrite bool_decide_eq_false_2. }
  exists (restored now pn). split; [|by rewrite <- Hn, <- Ha].
  unfold Get, initNodeRegistry. rewrite upsert_all by done.
  assert (Hfk : find_key r_NodeID id (LoadAll now (map_to_list reg).*2) = Some (restored now pn)).
  { rewrite <- Hid. exact (find_key_elem r_NodeID _ (restored now pn) Hnd Hin). }
  rewrite Hfk. cbn [mbind option_bind]. unfold unexpired, restored. cbn [r_UpdatedAt].
  by rewrite Z.sub_diag.
Qed.

(** ** What the table forgets *)

(** A node put into the table has no time it was seen, so the next sweep for nodes not seen
    for seven days removes it at once, unless something else sets that time first. *)
Theorem fresh_nodes_swept now now' id name addresses rt :
  7 * (24 * hour) < now' - time_zero →
  entries (PurgeStale now' (Put now id name addresses rt)).2 !! id = None.
Proof.
  intros Ht. rewrite swept. unfold Put. cbn [entries]. rewrite lookup_insert_eq. cbn [mbind option_bind].
  unfold sweep_entry. cbn [IsSeed r_LastSeen new_entry]. by rewrite (proj2 (Z.ltb_lt _ _)).
Qed.

(** Adding a peer writes its file twice: [SaveNode] keeps the verified DHT address, [SavePeer]
    then drops it. *)
Theorem saved_peer_forgets_dht now e name addresses models status seen reg :
  safe_id (r_NodeID e) →
  readDHTAddr (r_NodeID e) reg ≠ "" →
  readDHTAddr (r_NodeID e) (SaveNode now e reg) ≠ "" ∧
  readDHTAddr (r_NodeID e) (SavePeer now (r_NodeID e) name addresses models status seen (SaveNode now e reg)) = "".
Proof.
  intros [Hne _] Hd. split.
  - unfold readDHTAddr at 1. rewrite bool_decide_eq_false_2 by done. unfold SaveNode, write.
    cbn [pn_NodeID]. rewrite lookup_insert_eq. cbn [pn_DHTAddr].
    destruct (bool_decide_reflect (DHTAddr e = "")); [exact Hd|done].
  - unfold readDHTAddr. rewrite bool_decide_eq_false_2 by done. unfold SavePeer, write.
    cbn [pn_NodeID]. by rewrite lookup_insert_eq.
Qed.

(** ** Examples *)

Definition demo_entry (id : string) (latency fails : Z) (at_ : Time) : RouteEntry := {|
  r_NodeID := id; NodeName := id; r_Addresses := ["https://" +:+ id]; r_Status := "online"; r_Models := ["gpt"];
  LatencyMS := float_of_int latency; LoadScore := f_zero; r_LastSeen := at_; FailCount := fails;
  UptimeScore := f_zero; IsGateway := false; IsSeed := false; r_UpdatedAt := at_; ReflexiveUDP := "";
  NATType := ""; DHTAddr := "" |}.
Definition demo_es : list RouteEntry :=
  [demo_entry "slow" 900 0 0; demo_entry "dead" 1 3 0; demo_entry "near" 20 0 0; demo_entry "old" 1 0 (- hour);
   demo_entry "shaky" 20 1 0].

Example demo_ranking : r_NodeID <$> SelectRankedNodes 5 "" "gpt" 2 demo_es = ["near"; "slow"].
Proof. vm_compute. reflexivity. Qed.

Lemma ranked_nodes_witness :
  ∃ rest, SelectRankedNodes 5 "" "gpt" 2 demo_es ++ rest ≡ₚ filter (eligible 5 "gpt") demo_es ∧ length rest = 1%nat.
Proof.
  destruct (ranked_nodes 5 "" "gpt" 2 demo_es) as (rest & Hp & _ & _).
  - intros e Hin _. unfold demo_es in Hin. rewrite !elem_of_cons, elem_of_nil in Hin.
    destruct Hin as [->|[->|[->|[->|[->|[]]]]]]; vm_compute; reflexivity.
  - exists rest. split; [exact Hp|]. apply Permutation_length in Hp. rewrite length_app in Hp.
    assert (E : length (SelectRankedNodes 5 "" "gpt" 2 demo_es) = 2%nat) by (vm_compute; reflexivity).
    assert (F : length (filter (eligible 5 "gpt") demo_es) = 3%nat) by (vm_compute; reflexivity).
    rewrite E, F in Hp. lia.
Defined.

Definition demo_rt : RouteTable := UpsertEntry (demo_entry "a" 1 0 0) (initRouteTable None).

Lemma failing_node_avoided_witness :
  let os := [RFail 1 "a"; RSweep 2; RFail 3 "a"; RPut 4 "b" "b" []; RFail 5 "a"] in
  is_Some (entries (rt_run demo_rt os) !! "a") ∧
  ∀ e, e ∈ SelectRankedNodes 6 "" "gpt" 3 (map_to_list (entries (rt_run demo_rt os))).*2 → r_NodeID e ≠ "a".
Proof.
  intros os. split; [exists (failed 5 (failed 3 (failed 1 (demo_entry "a" 1 0 0)))); vm_compute; reflexivity|].
  apply (failing_node_avoided demo_rt "a" os 6 "" "gpt" 3 _ (demo_entry "a" 1 0 0)).
  - intros id e. unfold demo_rt, UpsertEntry, set_entries. cbn [entries].
    intros [[<- <-]|[_ He]]%lookup_insert_Some; [reflexivity|]. cbn [entries initRouteTable] in He. by rewrite lookup_empty in He.
  - vm_compute. reflexivity.
  - cbn. lia.
  - cbn. lia.
  - repeat constructor.
  - vm_compute. discriminate.
  - reflexivity.
Defined.

Lemma restart_restores_witness :
  ∃ reg, disk (rt_run (initRouteTable (Some ∅)) [RPut 1 "mmx-a" "alpha" ["https://a"]]) = Some reg ∧
    r_Addresses <$> Get 9 "mmx-a" (initNodeRegistry 9 reg) = Some ["https://a"].
Proof.
  destruct (restart_restores [RPut 1 "mmx-a" "alpha" ["https://a"]] 9) as (reg & Hd & H).
  - repeat constructor; done.
  - exists reg. split; [exact Hd|].
    destruct (H "mmx-a" (new_entry 1 "mmx-a" "alpha" ["https://a"])) as (e' & He & _ & Ha); [reflexivity|].
    rewrite He. cbn [fmap option_fmap option_map]. rewrite Ha. reflexivity.
Defined.
