(* ===== verification/Relay.v ===== *)
(** * Authentication of forwarded requests (network_relay.go)

    A node that forwards a request signs an envelope over it; the receiver checks the
    signature against the trust pool, the time, and that it has not accepted the same
    signature before. The signature check itself is a parameter. *)

From S2P Require Import Prelude GoTime Sha256.
From S2P Require TrustPool ContribQuota GuestKeys Users.

Definition maxRelayHops : Z := 3.
Definition relaySigMaxAge : Z := 5 * minute.
Definition relayReplayCacheMaxEntries : nat := 65536.
Definition maxGatewayBodySize : nat := 10485760.

Record RelayAuthEnvelope := {
  e_NodeID : string; e_Method : string; e_Path : string; BodyHash : string; e_Timestamp : string;
  Nonce : string }.

(** A request, of its relay headers, and whether it is marked as verified already. *)
Record relay_request := {
  rq_method : string; rq_path : string; rq_body : string; rq_NodeID : string; rq_NodeAuth : string;
  rq_sig : string; rq_ts : string; rq_nonce : string; rq_verified : bool }.

Definition sender_id (r : relay_request) : string :=
  let id := ContribQuota.sanitizeNodeID (rq_NodeID r) in
  if bool_decide (id = "") then ContribQuota.sanitizeNodeID (rq_NodeAuth r) else id.

Definition envelope (r : relay_request) : RelayAuthEnvelope := {|
  e_NodeID := sender_id r; e_Method := rq_method r; e_Path := rq_path r; BodyHash := sha256_hex (rq_body r);
  e_Timestamp := rq_ts r; Nonce := rq_nonce r |}.

Definition mark_verified (r : relay_request) : relay_request := {|
  rq_method := rq_method r; rq_path := rq_path r; rq_body := rq_body r; rq_NodeID := rq_NodeID r;
  rq_NodeAuth := rq_NodeAuth r; rq_sig := rq_sig r; rq_ts := rq_ts r; rq_nonce := rq_nonce r; rq_verified := true |}.

(** ** The signatures accepted, with the time of their acceptance *)

Abbreviation replay_cache := (gmap string Time).

Definition sweep_cache (cutoff : Time) (c : replay_cache) : replay_cache :=
  if (1024 <=? size c)%nat then filter (λ kv, cutoff <? kv.2 = true) c else c.

(** The oldest entries go until half the capacity is left. *)
Definition evict (c : replay_cache) : replay_cache :=
  if (relayReplayCacheMaxEntries <=? size c)%nat
  then list_to_map (drop (size c - relayReplayCacheMaxEntries / 2)
                      (sort_slice (λ a b, a.2 <? b.2) (map_to_list c)))
  else c.

Definition noteRelayReplay (now : Time) (sig : string) (c : replay_cache) : bool * replay_cache :=
  let cutoff := now - relaySigMaxAge in
  if match c !! sig with Some first => cutoff <? first | None => false end then (true, c)
  else (false, <[sig := now]> (evict (sweep_cache cutoff c))).

Section relay.
(** [VerifyJSONSig], of a public key, an envelope and a signature. *)
Context (VerifyJSONSig : string → RelayAuthEnvelope → string → bool).

(** [boot] is the start of the process, [now] the clock when the age is checked and [noted]
    when the signature is noted. Status 0 lets the request through. *)
Definition verifyRelayForwardAuth (boot now noted : Time) (fed : option TrustPool.FederationManager)
    (r : relay_request) (c : replay_cache) : (Z * string) * (relay_request * replay_cache) :=
  let fail s m := ((s, m), (r, c)) in
  if rq_verified r then ((0, ""), (r, c))
  else if bool_decide (sender_id r = "") then ((0, ""), (r, c))
  else if bool_decide (rq_sig r = "") then fail 401 "relay forward missing signature"
  else if bool_decide (rq_ts r = "") then fail 401 "relay forward missing timestamp"
  else match fed with
  | None => fail 403 "relay sender trust pool unavailable"
  | Some f =>
      match TrustPool.GetNode (sender_id r) f with
      | None => fail 403 "relay sender not in trust pool"
      | Some sender =>
          match parse_rfc3339 (rq_ts r) with
          | None => fail 400 "invalid relay timestamp"
          | Some parsed =>
              let age := now - parsed in
              if (age <? 0) || (relaySigMaxAge <? age) then fail 401 "relay timestamp outside acceptable window"
              else if parsed + second <? boot then fail 401 "relay timestamp predates this process"
              else if negb (VerifyJSONSig (TrustPool.PubKey sender) (envelope r) (rq_sig r))
              then fail 403 "relay signature verification failed"
              else
                let '(replay, c) := noteRelayReplay noted (rq_sig r) c in
                if replay then ((403, "relay forward replay detected"), (r, c))
                else ((0, ""), (mark_verified r, c))
          end
      end
  end.

(** The signing side: [None] when nothing can be signed. *)
Definition signRelayForward (SignJSON : RelayAuthEnvelope → string) (now : Time) (rand : option string)
    (nodeID method path body : string) : option (string * string * string) :=
  if bool_decide (nodeID = "") then None
  else match rand with
  | None => None
  | Some bytes =>
      let env := {| e_NodeID := nodeID; e_Method := method; e_Path := path; BodyHash := sha256_hex body;
                    e_Timestamp := fmt_rfc3339 UTC now; Nonce := dec now +:+ "-" +:+ bytes |} in
      Some (SignJSON env, e_Timestamp env, Nonce env)
  end.

(** [attachRelayAuth] on a request without relay headers. *)
Definition attachRelayAuth (nodeID : string) (auth : option (string * string * string)) (r : relay_request)
    : relay_request :=
  if bool_decide (nodeID = "") then r
  else
    let '(sig, ts, nonce) := match auth with
                             | Some (s, t, n) => if bool_decide (s = "") then (rq_sig r, rq_ts r, rq_nonce r)
                                                 else (s, t, if bool_decide (n = "") then rq_nonce r else n)
                             | None => (rq_sig r, rq_ts r, rq_nonce r) end in
    {| rq_method := rq_method r; rq_path := rq_path r; rq_body := rq_body r; rq_NodeID := nodeID;
       rq_NodeAuth := nodeID; rq_sig := sig; rq_ts := ts; rq_nonce := nonce; rq_verified := rq_verified r |}.

(** The middleware of the relay routes: whether the request goes on. A body that cannot be
    read or is too long fails the second way in ([body_ok]). *)
Definition relayAuthMiddleware (loc : Location) (boot now noted : Time) (fed : option TrustPool.FederationManager)
    (proxyKey : string) (users : option Users.MultiUserManager) (authorization : string) (body_ok : bool)
    (r : relay_request) (c : replay_cache) : bool * (relay_request * replay_cache) :=
  if has_prefix "/network/__punch" (rq_path r) then (true, (r, c))
  else
    let by_key := match strip_prefix "Bearer " authorization with
      | None => false
      | Some key =>
          match GuestKeys.ClassifyKey key with
          | GuestKeys.KeyTypePublic | GuestKeys.KeyTypeGuest => true
          | GuestKeys.KeyTypeProxy =>
              negb (bool_decide (proxyKey = "")) && bool_decide (key = proxyKey)
          | GuestKeys.KeyTypeUnknown => false
          end
          || match users with Some m => bool_decide (is_Some (Users.ValidateAPIKey key m)) | None => false end
      end in
    if by_key then (true, (r, c))
    else if negb (bool_decide (sender_id r = "")) && negb (bool_decide (rq_sig r = "")) && body_ok then
      let '((status, _), st) := verifyRelayForwardAuth boot now noted fed r c in
      if status =? 0 then (true, st) else (false, st)
    else (false, (r, c)).
End relay.

Definition isAllowedRelayPath (restPath : string) : bool :=
  bool_decide (restPath = "/api/network/heartbeat/ping") || has_prefix "/v1/" restPath.

(** [sanitizeForwardedHeaders]: the headers by canonical name. *)
Definition sanitizeForwardedHeaders (authorization : string) (h : gmap string string) : gmap string string :=
  let dst := delete "X-Real-Ip" (delete "X-Forwarded-For" (delete "Cookie"
               (delete "X-Omp-Keytype" (delete "Authorization" h)))) in
  let owner := default "" (h !! "X-Request-Owner") in
  let role := default "" (h !! "X-Request-Role") in
  let '(role, owner) := if bool_decide (role = "admin") && bool_decide (authorization = "")
                        then ("public", "") else (role, owner) in
  let set k v m := if bool_decide (v = "") then delete k m else <[k := v]> m in
  set "X-Request-Role" role (set "X-Request-Owner" owner dst).
