(* ===== verification/RelaySafety.v ===== *)
(** * What relay authentication guarantees (network_relay.go)

    A forwarded request passes once, only with a fresh signature of a node of the trust
    pool, also across restarts. *)

From S2P Require Import Prelude GoTime Bytes Sha256 Relay.
From S2P Require TrustPool ContribQuota GuestKeys Users.

Section relay_safety.
Context (VerifyJSONSig : string → RelayAuthEnvelope → string → bool).

(** ** What acceptance means *)

(** A signature of the sender, a node of the pool, over the request, fresh and of this run. *)
Record genuine (boot now : Time) (f : TrustPool.FederationManager) (r : relay_request) (p : Time) : Prop := {
  g_sender : ∃ n, TrustPool.GetNode (sender_id r) f = Some n ∧
                  VerifyJSONSig (TrustPool.PubKey n) (envelope r) (rq_sig r) = true;
  g_parsed : parse_rfc3339 (rq_ts r) = Some p;
  g_fresh : 0 ≤ now - p ≤ relaySigMaxAge;
  g_boot : boot ≤ p + second }.

(** A request that claims a sender and is not marked yet. *)
Definition claims_sender (r : relay_request) : Prop := rq_verified r = false ∧ sender_id r ≠ "".

Lemma verify_accepts boot now noted fed r c :
  claims_sender r →
  let '((s, _), (r', c')) := verifyRelayForwardAuth VerifyJSONSig boot now noted fed r c in
  (s = 0 ∧ ∃ f p, fed = Some f ∧ genuine boot now f r p ∧ noteRelayReplay noted (rq_sig r) c = (false, c') ∧
     r' = mark_verified r) ∨
  (s ≠ 0 ∧ c' = c ∧ r' = r).
Proof.
  intros [Hv Hs]. unfold verifyRelayForwardAuth. rewrite Hv, bool_decide_eq_false_2 by done. cbv zeta.
  destruct (bool_decide_reflect (rq_sig r = "")); [by right|].
  destruct (bool_decide_reflect (rq_ts r = "")); [by right|].
  destruct fed as [f|]; [|by right]. destruct (TrustPool.GetNode (sender_id r) f) as [nd|] eqn:En; [|by right].
  destruct (parse_rfc3339 (rq_ts r)) as [p|] eqn:Ep; [|by right].
  destruct (Z.ltb_spec (now - p) 0); [by right|]. destruct (Z.ltb_spec relaySigMaxAge (now - p)); [by right|].
  cbn [orb]. destruct (Z.ltb_spec (p + second) boot); [by right|].
  destruct (VerifyJSONSig _ _ _) eqn:Ev; [cbn [negb]|by right].
  unfold noteRelayReplay. cbv zeta. destruct (match c !! rq_sig r with Some _ => _ | None => _ end); [by right|].
  left. split; [done|]. exists f, p. split; [done|]. split; [|done]. split; [by exists nd|done|lia|lia].
Qed.

(** ** Acceptance over the life of a node *)

Inductive relay_event :=
  | Forward (now noted : Time) (fed : option TrustPool.FederationManager) (r : relay_request)
  | Restart (now : Time).

Definition ends (e : relay_event) : Time := match e with Forward _ noted _ _ => noted | Restart now => now end.
Definition starts (e : relay_event) : Time := match e with Forward now _ _ _ => now | Restart now => now end.

(** The start of the process, the cache, and the requests accepted so far. *)
Definition relay_state : Type := Time * replay_cache * list relay_request.

Definition relay_step (st : relay_state) (e : relay_event) : relay_state :=
  let '(boot, c, acc) := st in
  match e with
  | Restart now => (now, ∅, acc)
  | Forward now noted fed r =>
      let '((s, _), (_, c)) := verifyRelayForwardAuth VerifyJSONSig boot now noted fed r c in
      (boot, c, if s =? 0 then acc ++ [r] else acc)
  end.

(** The clock runs forward. *)
Fixpoint clock_from (t : Time) (es : list relay_event) : Prop :=
  match es with [] => True | e :: es => t ≤ starts e ∧ starts e ≤ ends e ∧ clock_from (ends e) es end.

Definition forwards (es : list relay_event) (r : relay_request) : Prop := ∃ now noted fed, Forward now noted fed r ∈ es.

(** The requests claim a sender; none is checked while its window ends, and none is stamped
    in the second before a restart. *)
Definition well_timed (es : list relay_event) : Prop :=
  (∀ now noted fed r, Forward now noted fed r ∈ es → claims_sender r ∧
     ∀ p, parse_rfc3339 (rq_ts r) = Some p → now - p ≤ relaySigMaxAge → noted - p < relaySigMaxAge) ∧
  (∀ tb r p, Restart tb ∈ es → forwards es r → parse_rfc3339 (rq_ts r) = Some p → p + second < tb ∨ tb < p).

(** A signature is of one envelope. *)
Definition signature_binds : Prop :=
  ∀ k k' e e' s, VerifyJSONSig k e s = true → VerifyJSONSig k' e' s = true → e = e'.

(** What is known of a request accepted before. *)
Definition remembered (all : list relay_event) (boot last : Time) (c : replay_cache) (r : relay_request) : Prop :=
  forwards all r ∧ (∃ k, VerifyJSONSig k (envelope r) (rq_sig r) = true) ∧
  ∃ p t, parse_rfc3339 (rq_ts r) = Some p ∧ p ≤ t ≤ last ∧
    (c !! rq_sig r = Some t ∨ t ≤ last - relaySigMaxAge ∨ p + second < boot).

Lemma note_keeps noted sig c c' s t :
  noteRelayReplay noted sig c = (false, c') → (size c < relayReplayCacheMaxEntries)%nat →
  c !! s = Some t → s ≠ sig → c' !! s = Some t ∨ t ≤ noted - relaySigMaxAge.
Proof.
  unfold noteRelayReplay. cbv zeta. destruct (match c !! sig with Some _ => _ | None => _ end); [done|].
  intros [= <-] Hsz Hs Hne. rewrite lookup_insert_ne by done.
  assert (Hle : (size (sweep_cache (noted - relaySigMaxAge) c) ≤ size c)%nat).
  { unfold sweep_cache. destruct (1024 <=? _)%nat; [|done]. apply map_size_filter. }
  unfold evict. rewrite (proj2 (Nat.leb_gt _ _)) by lia.
  unfold sweep_cache. destruct (1024 <=? _)%nat; [|by left].
  destruct (Z.ltb_spec (noted - relaySigMaxAge) t) as [Ht|]; [|by right]. left.
  apply map_lookup_filter_Some. split; [done|]. cbn. by apply Z.ltb_lt.
Qed.

Lemma note_size noted sig c c' :
  noteRelayReplay noted sig c = (false, c') → (size c < relayReplayCacheMaxEntries)%nat → (size c' ≤ S (size c))%nat.
Proof.
  unfold noteRelayReplay. cbv zeta. destruct (match c !! sig with Some _ => _ | None => _ end); [done|].
  intros [= <-] Hsz. rewrite map_size_insert.
  assert (Hle : (size (evict (sweep_cache (noted - relaySigMaxAge) c)) ≤ size c)%nat).
  { assert (Hs : (size (sweep_cache (noted - relaySigMaxAge) c) ≤ size c)%nat).
    { unfold sweep_cache. destruct (1024 <=? _)%nat; [|done]. apply map_size_filter. }
    unfold evict. by rewrite (proj2 (Nat.leb_gt _ _)) by lia. }
  destruct (_ !! sig); cbn [id]; unfold id; lia.
Qed.

Lemma remembered_later all boot last last' c r :
  remembered all boot last c r → last ≤ last' → remembered all boot last' c r.
Proof.
  intros (Hf & Hk & p & t & Hp & Ht & Hc) Hl. split; [done|]. split; [done|]. exists p, t.
  split; [done|]. split; [lia|]. destruct Hc as [?|[?|?]]; [by left|right; left; lia|by right; right].
Qed.

(** An accepted signature is not among those accepted before. *)
Lemma accepted_new all boot last c acc now noted f r p c' :
  signature_binds → well_timed all → Forward now noted (Some f) r ∈ all → last ≤ now → now ≤ noted →
  genuine boot now f r p → noteRelayReplay noted (rq_sig r) c = (false, c') →
  Forall (remembered all boot last c) acc → rq_sig r ∉ rq_sig <$> acc.
Proof.
  intros Hb [Ht _] Hin Hl Hn Hg Hnote Hacc (r' & E & Hr')%list_elem_of_fmap.
  rewrite Forall_forall in Hacc. destruct (Hacc r' Hr') as (_ & [k Hk] & p' & t & Hp' & Htl & Hc).
  destruct (g_sender _ _ _ _ _ Hg) as (n & _ & Hv). rewrite E in Hv.
  pose proof (Hb _ _ _ _ _ Hv Hk) as Henv. apply (f_equal e_Timestamp) in Henv. cbn in Henv.
  rewrite <- Henv, (g_parsed _ _ _ _ _ Hg) in Hp'. injection Hp' as <-.
  destruct (Ht _ _ _ _ Hin) as [_ Hw]. specialize (Hw p (g_parsed _ _ _ _ _ Hg)).
  pose proof (g_fresh _ _ _ _ _ Hg). pose proof (g_boot _ _ _ _ _ Hg). specialize (Hw ltac:(lia)).
  destruct Hc as [Hc|[Hc|Hc]]; [|lia|lia].
  unfold noteRelayReplay in Hnote. rewrite E, Hc in Hnote. cbv zeta in Hnote.
  rewrite (proj2 (Z.ltb_lt _ _)) in Hnote by lia. done.
Qed.

Record accepted_ok (all : list relay_event) (last : Time) (st : relay_state) (n : nat) : Prop := {
  ao_nodup : NoDup (rq_sig <$> st.2);
  ao_remembered : Forall (remembered all st.1.1 last st.1.2) st.2;
  ao_size : (size st.1.2 ≤ n)%nat }.

Lemma step_ok all last st n e :
  signature_binds → well_timed all → e ∈ all → last ≤ starts e → starts e ≤ ends e →
  (n < relayReplayCacheMaxEntries)%nat → accepted_ok all last st n →
  accepted_ok all (ends e) (relay_step st e) (S n).
Proof.
  intros Hb Hw Hin Hl Hse Hn [Hnd Hrem Hsz]. destruct st as [[boot c] acc]. cbn [fst snd] in *.
  destruct e as [now noted fed r|tb]; cbn [relay_step starts ends] in *.
  - destruct (proj1 Hw _ _ _ _ Hin) as [Hcl _].
    pose proof (verify_accepts boot now noted fed r c Hcl) as Hv.
    destruct (verifyRelayForwardAuth _ _ _ _ _ _ _) as [[s m] [r' c']].
    destruct Hv as [(-> & f & p & -> & Hg & Hnote & ->)|(Hs & -> & ->)].
    + pose proof (accepted_new _ _ _ _ _ _ _ _ _ _ _ Hb Hw Hin Hl Hse Hg Hnote Hrem) as Hnew.
      split; cbn [fst snd Z.eqb].
      * rewrite fmap_app. apply NoDup_app. split; [done|]. split; [|apply NoDup_singleton].
        intros x Hx Hx'%list_elem_of_singleton. by subst.
      * apply Forall_app. split.
        -- rewrite Forall_forall in Hrem |- *. intros x Hx. destruct (Hrem x Hx) as (Hf & Hk & p' & t & Hp' & Htl & Hc).
           split; [done|]. split; [done|]. exists p', t. split; [done|]. split; [lia|].
           destruct Hc as [Hc|[?|?]]; [|right; left; lia|by right; right].
           destruct (note_keeps _ _ _ _ (rq_sig x) t Hnote ltac:(lia) Hc) as [?|?]; [|by left|by right; left].
           intros E. apply Hnew. rewrite <- E. by apply list_elem_of_fmap_2.
        -- apply Forall_singleton. destruct (g_sender _ _ _ _ _ Hg) as (nd & _ & Hvk).
           split; [by exists now, noted, (Some f)|]. split; [by eexists|]. exists p, noted.
           split; [apply (g_parsed _ _ _ _ _ Hg)|]. pose proof (g_fresh _ _ _ _ _ Hg). split; [lia|]. left.
           unfold noteRelayReplay in Hnote. cbv zeta in Hnote.
           destruct (match c !! rq_sig r with Some _ => _ | None => _ end); [done|]. injection Hnote as <-.
           by rewrite lookup_insert_eq.
      * etrans; [apply (note_size _ _ _ _ Hnote); lia|lia].
    + rewrite (proj2 (Z.eqb_neq s 0)) by done. split; cbn [fst snd]; [done| |lia].
      eapply Forall_impl; [exact Hrem|]. intros x Hx. eapply remembered_later; [done|lia].
  - split; cbn [fst snd]; [done| |rewrite map_size_empty; lia].
    rewrite Forall_forall in Hrem |- *. intros x Hx. destruct (Hrem x Hx) as (Hf & Hk & p & t & Hp & Htl & _).
    split; [done|]. split; [done|]. exists p, t. split; [done|]. split; [lia|]. right; right.
    destruct (proj2 Hw tb x p Hin Hf Hp); lia.
Qed.

(** C25. A forward passes once under one signature text. Over any sequence of forwards and restarts of
    the node on a clock that runs forward, no two requests that passed carry the same text in
    their signature header; each carried a signature, valid under the key the trust
    pool held for its sender, over its method, path, body, time and nonce. At most 65535
    events are considered, so that the cache is never full, a signature is of one envelope,
    no forward is checked while its five minutes end, and none was stamped in the second
    before a restart. *)
Theorem forward_accepted_once t0 es :
  signature_binds → well_timed es → clock_from t0 es → (length es < relayReplayCacheMaxEntries)%nat →
  let '(_, _, acc) := foldl relay_step (t0, ∅, []) es in
  NoDup (rq_sig <$> acc) ∧
  Forall (λ r, forwards es r ∧ ∃ k, VerifyJSONSig k (envelope r) (rq_sig r) = true) acc.
Proof.
  intros Hb Hw Hc Hn.
  assert (Hgen : ∀ es' last st n, (∀ e, e ∈ es' → e ∈ es) → clock_from last es' →
    (n + length es' < relayReplayCacheMaxEntries)%nat → accepted_ok es last st n →
    ∃ last' n', accepted_ok es last' (foldl relay_step st es') n').
  { induction es' as [|e es' IH]; intros last st n Hsub Hcl Hlen Hok; [by exists last, n|].
    destruct Hcl as (H1 & H2 & Hcl). cbn [foldl length] in *. apply (IH (ends e) (relay_step st e) (S n)).
    - intros x Hx. apply Hsub. by right.
    - done.
    - lia.
    - eapply step_ok; try done; [apply Hsub; left|lia]. }
  destruct (Hgen es t0 (t0, ∅, []) 0%nat) as (last & n & [Hnd Hrem _]); [done|done|lia| |].
  { split; cbn; [constructor|constructor|]. by rewrite map_size_empty. }
  destruct (foldl relay_step (t0, ∅, []) es) as [[boot c] acc]. split; [exact Hnd|].
  eapply Forall_impl; [exact Hrem|]. by intros r (? & ? & _).
Qed.
End relay_safety.

(** ** Examples *)

#[export] Instance envelope_eq_dec : EqDecision RelayAuthEnvelope.
Proof. solve_decision. Defined.

Definition demo_forward : relay_request := {|
  rq_method := "POST"; rq_path := "/v1/chat/completions"; rq_body := "{}"; rq_NodeID := "mmx-a"; rq_NodeAuth := "";
  rq_sig := "S1"; rq_ts := "2023-11-14T22:13:20Z"; rq_nonce := "1-ab"; rq_verified := false |}.
Definition demo_verify (k : string) (e : RelayAuthEnvelope) (s : string) : bool :=
  bool_decide (k = "pk") && bool_decide (s = "S1") && bool_decide (e = envelope demo_forward).

Definition demo_sender : TrustPool.NodeInfo := {|
  TrustPool.NodeID := "mmx-a"; TrustPool.GitHubUser := ""; TrustPool.GitHubID := 0; TrustPool.Endpoint := "";
  TrustPool.PubKey := "pk"; TrustPool.SharedModels := []; TrustPool.SharedProviders := []; TrustPool.JoinedAt := "";
  TrustPool.LastSeen := ""; TrustPool.Status := "active"; TrustPool.SeedNode := false; TrustPool.Reputation := 0;
  TrustPool.ni_Version := ""; TrustPool.InviteBy := ""; TrustPool.TokenBudget := 0; TrustPool.TokenUsed := 0;
  TrustPool.Addresses := [] |}.
Definition demo_fed : TrustPool.FederationManager := {|
  TrustPool.enabled := true;
  TrustPool.trustPool := {| TrustPool.Version := 1; TrustPool.UpdatedAt := ""; TrustPool.Registry := "";
                            TrustPool.Nodes := [demo_sender]; TrustPool.Tombstones := [] |};
  TrustPool.localPeers := ∅; TrustPool.dht := None |}.

Definition demo_at (s : Z) : Time := (1700000000 + s) * second.

(** The forward, the same again, a restart ten seconds later, and the same once more. *)
Definition demo_events : list relay_event :=
  [Forward (demo_at 1) (demo_at 1) (Some demo_fed) demo_forward;
   Forward (demo_at 2) (demo_at 2) (Some demo_fed) demo_forward; Restart (demo_at 10);
   Forward (demo_at 11) (demo_at 11) (Some demo_fed) demo_forward].

(** (A defect.) The cache knows the text of the header, the verifier the bytes it decodes to, and the decoder
    ignores the spare bits of the last group: the same forward passes again with another text. *)
Example reencoded_signature_passes :
  let verify k (e : RelayAuthEnvelope) s :=
    bool_decide (k = "pk") && bool_decide (b64_decode s = Some [65]) && bool_decide (e = envelope demo_forward) in
  let with_sig s := {|
    rq_method := rq_method demo_forward; rq_path := rq_path demo_forward; rq_body := rq_body demo_forward;
    rq_NodeID := rq_NodeID demo_forward; rq_NodeAuth := ""; rq_sig := s; rq_ts := rq_ts demo_forward;
    rq_nonce := rq_nonce demo_forward; rq_verified := false |} in
  let es := [Forward (demo_at 1) (demo_at 1) (Some demo_fed) (with_sig "QQ==");
             Forward (demo_at 2) (demo_at 2) (Some demo_fed) (with_sig "QQ==");
             Forward (demo_at 3) (demo_at 3) (Some demo_fed) (with_sig "QR==")] in
  rq_sig <$> (foldl (relay_step verify) (demo_at 0, ∅, []) es).2 = ["QQ=="; "QR=="].
Proof. vm_compute. reflexivity. Qed.

Lemma demo_binds : signature_binds demo_verify.
Proof.
  intros k k' e e' s. unfold demo_verify. rewrite !andb_true_iff, !bool_decide_eq_true. naive_solver.
Qed.

Lemma demo_timed : well_timed demo_events.
Proof.
  assert (Hp : parse_rfc3339 (rq_ts demo_forward) = Some (demo_at 0)) by (vm_compute; reflexivity).
  assert (Hf : ∀ now noted fed r, Forward now noted fed r ∈ demo_events → r = demo_forward ∧ noted = now ∧ now ≤ demo_at 11).
  { intros now noted fed r. unfold demo_events. rewrite !elem_of_cons, elem_of_nil.
    intros [[= -> -> -> ->]|[[= -> -> -> ->]|[[=]|[[= -> -> -> ->]|[]]]]]; (split; [reflexivity|]);
      (split; [reflexivity|]); vm_compute; discriminate. }
  split.
  - intros now noted fed r Hin. destruct (Hf _ _ _ _ Hin) as (-> & -> & Hle). split; [split; [done|vm_compute; discriminate]|].
    intros p. rewrite Hp. intros [= <-] _. unfold demo_at, relaySigMaxAge, minute, second in *. lia.
  - intros tb r p Htb (now & noted & fed & Hin) Hpr. destruct (Hf _ _ _ _ Hin) as (-> & _ & _).
    rewrite Hp in Hpr. injection Hpr as <-. left. unfold demo_events in Htb.
    rewrite !elem_of_cons, elem_of_nil in Htb. destruct Htb as [[=]|[[=]|[[= ->]|[[=]|[]]]]]. vm_compute. reflexivity.
Qed.

Lemma forward_accepted_once_witness :
  (foldl (relay_step demo_verify) (demo_at 0, ∅, []) demo_events).2 = [demo_forward] ∧
  NoDup (rq_sig <$> (foldl (relay_step demo_verify) (demo_at 0, ∅, []) demo_events).2).
Proof.
  split; [vm_compute; reflexivity|].
  pose proof (forward_accepted_once demo_verify (demo_at 0) demo_events demo_binds demo_timed
    ltac:(cbn; repeat split; vm_compute; discriminate)
    ltac:(apply Nat.ltb_lt; vm_compute; reflexivity)) as H.
  destruct (foldl (relay_step demo_verify) (demo_at 0, ∅, []) demo_events) as [[boot c] acc]. exact (proj1 H).
Defined.
