(* ===== verification/Network.v ===== *)
(** * The network manager (network.go, lan_discovery.go)

    Participation in the shared network, its three levels, the peers and their removal, and
    the boundary of what is shared. A change reaches the route table, the node registry
    and the federation's trust pool as the code makes it. Starting and stopping the
    loops, collecting addresses and the statistics of requests are not modelled; what
    is read from the identity and from other nodes is an argument. *)

From S2P Require Import Prelude GoTime RouteTable.
From S2P Require TrustPool Ledger LanAnnounce Providers.

Inductive NetworkMode := NetworkModePersonal | NetworkModeShared.
#[export] Instance mode_eq_dec : EqDecision NetworkMode.
Proof. solve_decision. Defined.

Record ShareBoundaryConfig := { DailyContribCap : Z; ShareIdleOnly : bool; ModelWhitelist : list string }.

Record PeerInfo := {
  pi_NodeID : string; pi_Name : string; pi_Region : string; pi_Models : list string; pi_Status : string;
  pi_LastSeen : string; TrustScore : float64; pi_JoinedAt : string; pi_Addresses : list string; Unlocked : bool;
  pi_ShareToPool : bool; pi_PubKey : string }.

Record NetworkConfig := {
  Mode : NetworkMode; ConsentAccepted : bool; c_NodeName : string; c_NodeID : string;
  c_SharedModels : list string; MaxDailyRequests : Z; Peers : list PeerInfo; TotalPeers : Z; OnlinePeers : Z;
  TotalModelsShared : Z; c_Addresses : list string; RelayEnabled : bool; NetworkEnabled : bool;
  ShareToPool : bool; ShareBoundary : ShareBoundaryConfig }.

(** The manager with its file, the components it reaches, and whether federation_enabled, a setting of
    config.json from before there was network_enabled, is true. *)
Record network := {
  config : NetworkConfig; saved : option NetworkConfig; routes : RouteTable;
  fed : option TrustPool.FederationManager; legacy : bool }.

Definition set_config (c : NetworkConfig) (n : network) : network :=
  {| config := c; saved := saved n; routes := routes n; fed := fed n; legacy := legacy n |}.
Definition doSave (n : network) : network :=
  {| config := config n; saved := Some (config n); routes := routes n; fed := fed n; legacy := legacy n |}.
Definition set_routes (rt : RouteTable) (n : network) : network :=
  {| config := config n; saved := saved n; routes := rt; fed := fed n; legacy := legacy n |}.
Definition set_fed (f : option TrustPool.FederationManager) (n : network) : network :=
  {| config := config n; saved := saved n; routes := routes n; fed := f; legacy := legacy n |}.

Definition with_peers (ps : list PeerInfo) (total online : Z) (c : NetworkConfig) : NetworkConfig := {|
  Mode := Mode c; ConsentAccepted := ConsentAccepted c; c_NodeName := c_NodeName c; c_NodeID := c_NodeID c;
  c_SharedModels := c_SharedModels c; MaxDailyRequests := MaxDailyRequests c; Peers := ps; TotalPeers := total;
  OnlinePeers := online; TotalModelsShared := TotalModelsShared c; c_Addresses := c_Addresses c;
  RelayEnabled := RelayEnabled c; NetworkEnabled := NetworkEnabled c; ShareToPool := ShareToPool c;
  ShareBoundary := ShareBoundary c |}.
Definition with_level (m : NetworkMode) (net share : bool) (c : NetworkConfig) : NetworkConfig := {|
  Mode := m; ConsentAccepted := ConsentAccepted c; c_NodeName := c_NodeName c; c_NodeID := c_NodeID c;
  c_SharedModels := c_SharedModels c; MaxDailyRequests := MaxDailyRequests c; Peers := Peers c;
  TotalPeers := TotalPeers c; OnlinePeers := OnlinePeers c; TotalModelsShared := TotalModelsShared c;
  c_Addresses := c_Addresses c; RelayEnabled := RelayEnabled c; NetworkEnabled := net; ShareToPool := share;
  ShareBoundary := ShareBoundary c |}.
Definition with_identity (consent : bool) (name id : string) (c : NetworkConfig) : NetworkConfig := {|
  Mode := Mode c; ConsentAccepted := consent; c_NodeName := name; c_NodeID := id;
  c_SharedModels := c_SharedModels c; MaxDailyRequests := MaxDailyRequests c; Peers := Peers c;
  TotalPeers := TotalPeers c; OnlinePeers := OnlinePeers c; TotalModelsShared := TotalModelsShared c;
  c_Addresses := c_Addresses c; RelayEnabled := RelayEnabled c; NetworkEnabled := NetworkEnabled c;
  ShareToPool := ShareToPool c; ShareBoundary := ShareBoundary c |}.
Definition with_sharing (models : list string) (total daily : Z) (relay : bool) (addresses : list string)
    (b : ShareBoundaryConfig) (c : NetworkConfig) : NetworkConfig := {|
  Mode := Mode c; ConsentAccepted := ConsentAccepted c; c_NodeName := c_NodeName c; c_NodeID := c_NodeID c;
  c_SharedModels := models; MaxDailyRequests := daily; Peers := Peers c; TotalPeers := TotalPeers c;
  OnlinePeers := OnlinePeers c; TotalModelsShared := total; c_Addresses := addresses; RelayEnabled := relay;
  NetworkEnabled := NetworkEnabled c; ShareToPool := ShareToPool c; ShareBoundary := b |}.

(** The configuration before the file is read. *)
Definition default_config : NetworkConfig := {|
  Mode := NetworkModePersonal; ConsentAccepted := false; c_NodeName := ""; c_NodeID := ""; c_SharedModels := [];
  MaxDailyRequests := 1000; Peers := []; TotalPeers := 0; OnlinePeers := 0; TotalModelsShared := 0;
  c_Addresses := []; RelayEnabled := true; NetworkEnabled := false; ShareToPool := false;
  ShareBoundary := {| DailyContribCap := 0; ShareIdleOnly := true; ModelWhitelist := [] |} |}.

(** [json.Unmarshal] into the configuration at hand: a file from before network_enabled ([keyed = false]) leaves
    that setting as it is. *)
Definition unmarshal_config (keyed : bool) (file c : NetworkConfig) : NetworkConfig :=
  if keyed then file else with_level (Mode file) (NetworkEnabled c) (ShareToPool file) file.

(** [load], of the file, the configuration at hand and the legacy setting, which it clears when it takes it over. *)
Definition load (keyed : bool) (file : option NetworkConfig) (c : NetworkConfig) (federation_enabled : bool)
    : NetworkConfig * bool :=
  match file with
  | None => (c, federation_enabled)
  | Some file =>
      let c := unmarshal_config keyed file c in
      let c := if bool_decide (Mode c = NetworkModeShared) && negb (NetworkEnabled c)
               then with_level (Mode c) true (ShareToPool c) c else c in
      if federation_enabled && negb (NetworkEnabled c)
      then (with_level NetworkModeShared true (ShareToPool c) c, false) else (c, federation_enabled)
  end.

(** ** The levels of participation *)

Definition SetEnabled (b : bool) (f : TrustPool.FederationManager) : TrustPool.FederationManager := {|
  TrustPool.enabled := b; TrustPool.trustPool := TrustPool.trustPool f;
  TrustPool.localPeers := TrustPool.localPeers f; TrustPool.dht := TrustPool.dht f |}.

Definition syncFederationToNetwork (n : network) : network :=
  set_fed (SetEnabled (NetworkEnabled (config n)) <$> fed n) n.

(** What the federation learns of a restored entry and of a peer. *)
Definition known_node (id endpoint : string) (addresses : list string) (seen joined key : string)
    : TrustPool.NodeInfo := {|
  TrustPool.NodeID := id; TrustPool.GitHubUser := ""; TrustPool.GitHubID := 0; TrustPool.Endpoint := endpoint;
  TrustPool.PubKey := key; TrustPool.SharedModels := []; TrustPool.SharedProviders := [];
  TrustPool.JoinedAt := joined; TrustPool.LastSeen := seen; TrustPool.Status := "active";
  TrustPool.SeedNode := false; TrustPool.Reputation := 0; TrustPool.ni_Version := ""; TrustPool.InviteBy := "";
  TrustPool.TokenBudget := 0; TrustPool.TokenUsed := 0; TrustPool.Addresses := addresses |}.

Definition bridge_entry (now : Time) (selfID : string) (e : RouteEntry) : option TrustPool.NodeInfo :=
  match r_Addresses e with
  | a :: _ => if bool_decide (r_NodeID e = "") || bool_decide (r_NodeID e = selfID) then None
              else Some (known_node (r_NodeID e) a (r_Addresses e)
                     (if is_zero (r_LastSeen e) then fmt_rfc3339 UTC now else fmt_rfc3339 UTC (r_LastSeen e))
                     (fmt_rfc3339 UTC now) "")
  | [] => None
  end.

Definition bridge_peer (now : Time) (selfID : string) (nodes : list TrustPool.NodeInfo) (p : PeerInfo)
    : list TrustPool.NodeInfo :=
  match pi_Addresses p with
  | a :: _ => if bool_decide (pi_NodeID p = "") || bool_decide (pi_NodeID p = selfID)
                 || bool_decide (pi_NodeID p ∈ TrustPool.NodeID <$> nodes) then nodes
              else nodes ++ [known_node (pi_NodeID p) a (pi_Addresses p)
                      (orDefault (pi_LastSeen p) (fmt_rfc3339 UTC now)) (fmt_rfc3339 UTC now) (pi_PubKey p)]
  | [] => nodes
  end.

Definition bridgeRestoredPeersToFederation (now : Time) (selfID : string) (restored : list RouteEntry)
    (n : network) : network :=
  match fed n with
  | Some f =>
      if negb (TrustPool.enabled f) then n
      else
        let nodes := foldl (bridge_peer now selfID) (omap (bridge_entry now selfID) restored) (Peers (config n)) in
        if bool_decide (nodes = []) then n else set_fed (Some (TrustPool.AddKnownNodes now nodes f)) n
  | None => n
  end.

(** Of the node's identity: whether it exists, is backed up, migrates when needed, and its id. *)
Record identity := { initialised : bool; backup_confirmed : bool; migrates : bool; derived_id : string }.

(** [activateNetwork], of what the start-up restored: the state it changes. *)
Definition activateNetwork (now : Time) (who : identity) (restored : list RouteEntry) (n : network) : network :=
  let c := config n in
  let n := if bool_decide (c_NodeID c = "") && initialised who
           then set_config (with_identity (ConsentAccepted c) (c_NodeName c) (derived_id who) c) n else n in
  bridgeRestoredPeersToFederation now (derived_id who) restored (syncFederationToNetwork n).

Definition deactivateNetwork (n : network) : network := syncFederationToNetwork n.

(** [NetworkManager.Init], of a file this program wrote: it loads the file again. *)
Definition Init (keyed : bool) (now : Time) (who : identity) (restored : list RouteEntry) (n : network) : network :=
  let '(c, l) := load keyed (saved n) (config n) (legacy n) in
  let n := {| config := c; saved := saved n; routes := routes n; fed := fed n; legacy := l |} in
  if NetworkEnabled c then
    let n := if bool_decide (c_NodeID c = "") && initialised who
             then doSave (set_config (with_identity (ConsentAccepted c) (c_NodeName c) (derived_id who) c) n) else n in
    activateNetwork now who restored n
  else n.

(** [initNetworkManager], then what the start-up does with the manager. *)
Definition start_network (keyed : bool) (now : Time) (who : identity) (restored : list RouteEntry)
    (file : option NetworkConfig) (rt : RouteTable) (f : option TrustPool.FederationManager) (federation_enabled : bool)
    : network :=
  let '(c, l) := load keyed file default_config federation_enabled in
  syncFederationToNetwork (Init keyed now who restored
    {| config := c; saved := file; routes := rt; fed := SetEnabled false <$> f; legacy := l |}).

(** [handleSaveFederationConfig], of the value it is given for federation_enabled. *)
Definition handleSaveFederationConfig (v : option string) (n : network) : network :=
  let l := match v with Some v => bool_decide (v = "true") | None => legacy n end in
  {| config := config n; saved := saved n; routes := routes n; fed := SetEnabled l <$> fed n; legacy := l |}.

(** SIGHUP: config.json is read again, and the federation follows the network. *)
Definition reload_config (federation_enabled : bool) (n : network) : network :=
  syncFederationToNetwork
    {| config := config n; saved := saved n; routes := routes n; fed := fed n; legacy := federation_enabled |}.

Definition EnableSharedNetwork (now : Time) (who : identity) (restored : list RouteEntry) (n : network)
    : res unit * network :=
  let c := config n in
  if negb (ConsentAccepted c) then (Err "read and accept the terms of the shared network first", n)
  else if negb (initialised who) then (Err "create or restore the mnemonic identity first", n)
  else if negb (backup_confirmed who) then (Err "confirm the backup of the mnemonic first", n)
  else if negb (migrates who) then (Err "migration of the legacy identity failed", n)
  else
    let id := orDefault (c_NodeID c) (derived_id who) in
    let suffix := if (8 <? String.length id)%nat then String.substring 4 4 id else id in
    let c := with_identity true (orDefault (c_NodeName c) ("node-" +:+ suffix)) id c in
    let c := with_level NetworkModeShared true (ShareToPool c) c in
    (Ok tt, activateNetwork now who restored (doSave (set_config c n))).

Definition DisableSharedNetwork (n : network) : network :=
  let c := config n in
  let n := if bool_decide (c_NodeID c = "") then n else set_routes (Remove (c_NodeID c) (routes n)) n in
  let c := with_peers [] (TotalPeers c) 0 (with_level NetworkModePersonal false false c) in
  let c := with_sharing (c_SharedModels c) (TotalModelsShared c) (MaxDailyRequests c) (RelayEnabled c) []
             (ShareBoundary c) c in
  deactivateNetwork (doSave (set_config c n)).

Definition RecordConsent (n : network) : network :=
  doSave (set_config (with_identity true (c_NodeName (config n)) (c_NodeID (config n)) (config n)) n).

Definition SetNetworkEnabled (now : Time) (who : identity) (restored : list RouteEntry) (b : bool) (n : network)
    : network :=
  let c := config n in
  let was := NetworkEnabled c in
  let n := doSave (set_config (if b then with_level NetworkModeShared true (ShareToPool c) c
                               else with_level NetworkModePersonal false false c) n) in
  if b && negb was then activateNetwork now who restored n
  else if negb b && was then deactivateNetwork n else n.

Definition SetShareToPool (now : Time) (who : identity) (restored : list RouteEntry) (b : bool) (n : network)
    : network :=
  let c := config n in
  let auto := b && negb (NetworkEnabled c) in
  let c := if auto then with_level NetworkModeShared true b c else with_level (Mode c) (NetworkEnabled c) b c in
  let n := doSave (set_config c n) in
  if auto then activateNetwork now who restored n else n.

(** [handleNetworkToggle], of the three optional fields of its body. *)
Definition handleNetworkToggle (now : Time) (who : identity) (restored : list RouteEntry)
    (enabled network_enabled share_to_pool : option bool) (n : network) : network :=
  let b := match network_enabled with Some b => b | None => default false enabled end in
  let n := SetNetworkEnabled now who restored b n in
  if default false share_to_pool && b then SetShareToPool now who restored true n else n.

(** ** Peers *)

Definition online_count (ps : list PeerInfo) : Z :=
  Z.of_nat (length (filter (λ p, bool_decide (pi_Status p = "online") = true) ps)).

Definition HasPeer (id : string) (n : network) : bool :=
  bool_decide (id ∈ pi_NodeID <$> Peers (config n)).

Definition firstAddress (l : list string) : string := match l with a :: _ => a | [] => "" end.

Definition bridgePeerToFederation (now : Time) (p : PeerInfo) (n : network) : network :=
  match fed n with
  | Some f =>
      if TrustPool.enabled f
      then set_fed (Some (TrustPool.AddKnownNodes now
             [known_node (pi_NodeID p) (firstAddress (pi_Addresses p)) (pi_Addresses p) (pi_LastSeen p) ""
                (pi_PubKey p)] f)) n
      else n
  | None => n
  end.

(** The route table and the registry learn of a peer with an address. *)
Definition route_peer (now : Time) (p : PeerInfo) (n : network) : network :=
  if bool_decide (pi_Addresses p = []) then n
  else
    let rt := Put now (pi_NodeID p) (pi_Name p) (pi_Addresses p) (routes n) in
    set_routes {| entries := entries rt;
                  disk := SavePeer now (pi_NodeID p) (pi_Name p) (pi_Addresses p) (pi_Models p) (pi_Status p)
                            (pi_LastSeen p) <$> disk rt |} n.

Definition with_key (k : string) (unlocked : bool) (p : PeerInfo) : PeerInfo := {|
  pi_NodeID := pi_NodeID p; pi_Name := pi_Name p; pi_Region := pi_Region p; pi_Models := pi_Models p;
  pi_Status := pi_Status p; pi_LastSeen := pi_LastSeen p; TrustScore := TrustScore p; pi_JoinedAt := pi_JoinedAt p;
  pi_Addresses := pi_Addresses p; Unlocked := unlocked; pi_ShareToPool := pi_ShareToPool p; pi_PubKey := k |}.

(** The first peer with the id, replaced; its unlocking is kept. *)
Fixpoint replace_peer (p : PeerInfo) (ps : list PeerInfo) : option (PeerInfo * list PeerInfo) :=
  match ps with
  | [] => None
  | q :: ps =>
      if bool_decide (pi_NodeID q = pi_NodeID p)
      then let p := with_key (pi_PubKey p) (Unlocked q) p in Some (p, p :: ps)
      else (λ '(p, ps), (p, q :: ps)) <$> replace_peer p ps
  end.

(** [fetch] asks a node for its public key; it returns the empty string when it fails. *)
Definition AddPeer (now : Time) (fetch : string → string) (p : PeerInfo) (n : network) : res unit * network :=
  let p := match pi_Addresses p with
           | a :: _ => if bool_decide (pi_PubKey p = "") then with_key (fetch a) (Unlocked p) p else p
           | [] => p end in
  let c := config n in
  if negb (bool_decide (Mode c = NetworkModeShared)) then (Err "shared network not active", n)
  else
    let '(p, c) := match replace_peer p (Peers c) with
      | Some (p, ps) => (p, with_peers ps (TotalPeers c) (OnlinePeers c) c)
      | None => let ps := Peers c ++ [p] in (p, with_peers ps (Z.of_nat (length ps)) (online_count ps) c)
      end in
    (Ok tt, bridgePeerToFederation now p (route_peer now p (doSave (set_config c n)))).

Definition RemovePeer (now : Time) (id : string) (n : network) : res unit * network :=
  let c := config n in
  if negb (bool_decide (Mode c = NetworkModeShared)) then (Err "shared network not active", n)
  else if negb (HasPeer id n) then (Err "peer not found", n)
  else
    let ps := filter (λ p, pi_NodeID p ≠ id) (Peers c) in
    let n := doSave (set_config (with_peers ps (Z.of_nat (length ps)) (online_count ps) c) n) in
    let n := set_fed ((λ f, if TrustPool.enabled f then TrustPool.RemoveNode now id f else f) <$> fed n) n in
    (Ok tt, set_routes {| entries := entries (routes n); disk := reg_RemoveNode id <$> disk (routes n) |} n).

Definition lastSeenBefore (ts : string) (cutoff : Time) : bool :=
  if bool_decide (ts = "") then false
  else match parse_rfc3339 ts with Some t => before t cutoff | None => false end.

(** The two sweeps of [cullInactivePeers], with [Remove] of the route table. *)
Definition cull_node (now cutoff : Time) (selfID : option string) (n : network) (info : TrustPool.NodeInfo) : network :=
  if bool_decide (Some (TrustPool.NodeID info) = selfID) then n
  else if lastSeenBefore (TrustPool.LastSeen info) cutoff then
    set_routes (Remove (TrustPool.NodeID info) (routes n))
      (set_fed (TrustPool.RemoveNode now (TrustPool.NodeID info) <$> fed n) n)
  else n.
Definition cull_peer (now cutoff : Time) (selfID : option string) (n : network) (p : PeerInfo) : network :=
  if bool_decide (Some (pi_NodeID p) = selfID) then n
  else if lastSeenBefore (pi_LastSeen p) cutoff then
    match RemovePeer now (pi_NodeID p) n with
    | (Ok _, n) => set_routes (Remove (pi_NodeID p) (routes n)) n
    | (Err _, n) => n
    end
  else n.

(** Where the sweep draws the line: [now.Add(-time.Duration(cullDays) * 24 * time.Hour)]. *)
Definition cull_cutoff (now : Time) (cullDays : Z) : Time := now + wrap64 (wrap64 (- cullDays * 24) * hour).

(** [GetTrustPool] is the pool with the peers known by gossip alone left out. *)
Definition cullInactivePeers (now : Time) (cullDays : Z) (selfID : option string) (n : network) : network :=
  if negb (bool_decide (Mode (config n) = NetworkModeShared)) then n
  else if cullDays <=? 0 then n
  else
    let cutoff := cull_cutoff now cullDays in
    let n := match fed n with
             | Some f => foldl (cull_node now cutoff selfID) n (TrustPool.Nodes (TrustPool.trustPool f))
             | None => n end in
    foldl (cull_peer now cutoff selfID) n (Peers (config n)).

(** [lanRegisterPeer] of the LAN discovery. *)
Definition lanRegisterPeer (now : Time) (fetch : string → string) (p : LanAnnounce.lanPeerInfo) (n : option network)
    : res unit * option network :=
  if negb (LanAnnounce.Verified p) then (Err "refusing to bridge unverified announcement", n)
  else match n with
  | None => (Err "network manager unavailable", None)
  | Some n =>
      let t := fmt_rfc3339 UTC now in
      let '(r, n) := AddPeer now fetch {|
        pi_NodeID := LanAnnounce.l_NodeID p;
        pi_Name := orDefault (LanAnnounce.l_Name p) (LanAnnounce.lanInstanceName (LanAnnounce.l_NodeID p));
        pi_Region := LanAnnounce.l_Region p; pi_Models := LanAnnounce.l_Models p; pi_Status := "online";
        pi_LastSeen := t; TrustScore := f_zero; pi_JoinedAt := t;
        pi_Addresses := ["http://" +:+ LanAnnounce.l_IP p +:+ ":" +:+ dec (LanAnnounce.l_Port p)];
        Unlocked := false; pi_ShareToPool := LanAnnounce.l_Share p; pi_PubKey := "" |} n in
      (r, Some n)
  end.

(** ** Sharing *)

Definition UpdateConfig (name : string) (models : option (list string)) (maxDaily : Z) (relay : option bool)
    (n : network) : res unit * network :=
  let c := config n in
  if negb (bool_decide (Mode c = NetworkModeShared)) then (Err "shared network not active", n)
  else
    let c := with_identity (ConsentAccepted c) (orDefault name (c_NodeName c)) (c_NodeID c) c in
    let c := with_sharing (default (c_SharedModels c) models)
               (match models with Some l => Z.of_nat (length l) | None => TotalModelsShared c end)
               (if 0 <? maxDaily then maxDaily else MaxDailyRequests c) (default (RelayEnabled c) relay)
               (c_Addresses c) (ShareBoundary c) c in
    (Ok tt, doSave (set_config c n)).

Definition UpdateShareBoundary (b : option (Z * bool * option (list string))) (n : network) : network :=
  match b with
  | None => n
  | Some (cap, idle, whitelist) =>
      let c := config n in
      let old := ShareBoundary c in
      let new := {| DailyContribCap := if 0 <=? cap then cap else DailyContribCap old; ShareIdleOnly := idle;
                    ModelWhitelist := default (ModelWhitelist old) whitelist |} in
      doSave (set_config (with_sharing (c_SharedModels c) (TotalModelsShared c) (MaxDailyRequests c)
                            (RelayEnabled c) (c_Addresses c) new c) n)
  end.

(** [today] is what the ledger says this node contributed today. *)
Definition CheckShareBoundary (today : Z) (model : string) (estimatedTokens : Z) (c : NetworkConfig) : bool * string :=
  let b := ShareBoundary c in
  if (0 <? DailyContribCap b) && (DailyContribCap b <? today +! estimatedTokens)
  then (false, "daily contribution cap exceeded")
  else if negb (bool_decide (ModelWhitelist b = [])) && negb (bool_decide (model ∈ ModelWhitelist b))
  then (false, "model not in whitelist")
  else (true, "").

Record JoinConditionResult := {
  HasProvider : bool; HasQuotaManager : bool; HasSharedKey : bool; HasRemaining : bool; AllMet : bool }.

(** [pm] and [allocMgr] may be missing. *)
Definition CheckJoinConditions (pm : option (list Providers.Provider * list Providers.Provider)) (allocMgr : bool)
    : JoinConditionResult :=
  let on := default [] (fst <$> pm) in
  let raw := default [] (snd <$> pm) in
  let provider := existsb (λ p, negb (bool_decide (Providers.APIKeys p = []))
                                || negb (bool_decide (Providers.APIKey p = ""))) on in
  let shared := existsb (λ p, existsb (λ k, Providers.a_Enabled k
                                && bool_decide (Providers.a_Access k = "shared")) (Providers.APIKeys p)) on in
  let count f := wsum (f <$> filter (λ p, Providers.p_Enabled p = true) raw) in
  let keys p := filter (λ k, Providers.a_Enabled k && (0 <? Providers.a_Quota k) = true) (Providers.APIKeys p) in
  let quota p := (if 0 <? Providers.TokenLimit p then Providers.TokenLimit p else 0)
                 +! wsum (Providers.a_Quota <$> keys p) in
  let used p := wsum (Providers.Used <$> keys p) in
  {| HasProvider := provider; HasQuotaManager := allocMgr; HasSharedKey := shared;
     HasRemaining := count used <? count quota; AllMet := provider && allocMgr && shared |}.
