(* ===== verification/NetworkSafety.v ===== *)
(** * What the network manager guarantees (network.go)

    The levels of participation agree with each other and with the federation; culling
    removes exactly the inactive peers, everywhere. *)

From S2P Require Import Prelude GoTime RouteTable RouteSafety Network.
From S2P Require TrustPool LanAnnounce.

Create HintDb level.

(** ** The levels of participation *)

(** The mode is shared exactly when the network is enabled, and the federation follows it when [line] says so. *)
Record coherent (line : bool) (n : network) : Prop := {
  co_mode : Mode (config n) = NetworkModeShared ↔ NetworkEnabled (config n) = true;
  co_share : ShareToPool (config n) = true → NetworkEnabled (config n) = true;
  co_fed f : fed n = Some f → line = true → TrustPool.enabled f = NetworkEnabled (config n);
  co_saved c : saved n = Some c →
    (Mode c = NetworkModeShared ↔ NetworkEnabled c = true) ∧ (ShareToPool c = true → NetworkEnabled c = true) }.

(** The operations of the manager. *)
Inductive net_op :=
  | NEnable (now : Time) (who : identity) (restored : list RouteEntry)
  | NDisable
  | NConsent
  | NToggle (now : Time) (who : identity) (restored : list RouteEntry) (a b c : option bool)
  | NSetEnabled (now : Time) (who : identity) (restored : list RouteEntry) (b : bool)
  | NSetShare (now : Time) (who : identity) (restored : list RouteEntry) (b : bool)
  | NAddPeer (now : Time) (fetch : string → string) (p : PeerInfo)
  | NRemovePeer (now : Time) (id : string)
  | NLan (now : Time) (fetch : string → string) (p : LanAnnounce.lanPeerInfo)
  | NCull (now : Time) (days : Z) (self : option string)
  | NUpdate (name : string) (models : option (list string)) (daily : Z) (relay : option bool)
  | NBoundary (b : option (Z * bool * option (list string)))
  | NSaveFederation (federation_enabled : option string)
  | NReload (federation_enabled : bool)
  | NRestart (now : Time) (who : identity) (restored : list RouteEntry)
      (fed : option TrustPool.FederationManager) (routes : RouteTable).

(** A restart loads what this program saved, with the federation's pool and the route table as their files say. *)
Definition restart (now : Time) (who : identity) (restored : list RouteEntry)
    (f : option TrustPool.FederationManager) (rt : RouteTable) (n : network) : network :=
  start_network true now who restored (saved n) rt f (legacy n).

Definition net_exec (n : network) (o : net_op) : network :=
  match o with
  | NEnable now who rs => (EnableSharedNetwork now who rs n).2
  | NDisable => DisableSharedNetwork n
  | NConsent => RecordConsent n
  | NToggle now who rs a b c => handleNetworkToggle now who rs a b c n
  | NSetEnabled now who rs b => SetNetworkEnabled now who rs b n
  | NSetShare now who rs b => SetShareToPool now who rs b n
  | NAddPeer now fetch p => (AddPeer now fetch p n).2
  | NRemovePeer now id => (RemovePeer now id n).2
  | NLan now fetch p => default n (lanRegisterPeer now fetch p (Some n)).2
  | NCull now days self => cullInactivePeers now days self n
  | NUpdate name models daily relay => (UpdateConfig name models daily relay n).2
  | NBoundary b => UpdateShareBoundary b n
  | NSaveFederation v => handleSaveFederationConfig v n
  | NReload l => reload_config l n
  | NRestart now who rs f rt => restart now who rs f rt n
  end.

(** Whether the federation is known to follow the network: the handler of the federation's settings sets it by
    itself; disabling, a reload of the settings and a restart bring it back in line. *)
Definition in_line (line : bool) (o : net_op) : bool :=
  match o with
  | NSaveFederation _ => false
  | NDisable | NReload _ | NRestart _ _ _ _ _ => true
  | _ => line
  end.

(** Two configurations at the same level. *)
Definition same_level (c c' : NetworkConfig) : Prop :=
  Mode c' = Mode c ∧ NetworkEnabled c' = NetworkEnabled c ∧ ShareToPool c' = ShareToPool c.

(** A step that keeps the level and whether the federation is enabled. *)
Record level_kept (n n' : network) : Prop := {
  lk_config : same_level (config n) (config n');
  lk_saved c : saved n' = Some c → saved n = Some c ∨ same_level (config n) c;
  lk_fed f' : fed n' = Some f' → ∃ f, fed n = Some f ∧ TrustPool.enabled f' = TrustPool.enabled f }.

(** A configuration whose three settings agree. *)
Definition level_ok (c : NetworkConfig) : Prop :=
  (Mode c = NetworkModeShared ↔ NetworkEnabled c = true) ∧ (ShareToPool c = true → NetworkEnabled c = true).

Lemma same_level_ok c c' : same_level c c' → level_ok c → level_ok c'.
Proof. intros (E1 & E2 & E3) [H1 H2]. unfold level_ok. by rewrite E1, E2, E3. Qed.

Lemma kept_coherent line n n' : coherent line n → level_kept n n' → coherent line n'.
Proof.
  intros [H1 H2 H3 H4] [He Hs Hf]. pose proof He as (E1 & E2 & E3).
  split; rewrite ?E1, ?E2, ?E3; [done|done| |].
  - intros f' Hf'. destruct (Hf f' Hf') as (f & Hff & ->). by apply H3.
  - intros c [?|Hc]%Hs; [by apply H4|]. by apply (same_level_ok _ _ Hc).
Qed.

Lemma kept_refl n : level_kept n n.
Proof. split; [done|by left|by eauto]. Qed.

Lemma kept_trans n1 n2 n3 : level_kept n1 n2 → level_kept n2 n3 → level_kept n1 n3.
Proof.
  intros [(A1 & A2 & A3) As Af] [(B1 & B2 & B3) Bs Bf]. split.
  - unfold same_level. by rewrite B1, B2, B3.
  - intros c [Hc|(C1 & C2 & C3)]%Bs; [by apply As|]. right. unfold same_level. by rewrite C1, C2, C3.
  - intros f3 (f2 & (f1 & H1 & E1)%Af & E2)%Bf. exists f1. by rewrite E2, E1.
Qed.

Lemma kept_foldl {A} (g : network → A → network) l n :
  (∀ n a, level_kept n (g n a)) → level_kept n (foldl g n l).
Proof.
  intros Hg. revert n. induction l as [|a l IH]; intros n; [apply kept_refl|].
  apply (kept_trans _ (g n a)); [apply Hg|apply IH].
Qed.

Lemma kept_config c n : same_level (config n) c → level_kept n (set_config c n).
Proof. intros Hc. split; [done|by left|cbn; eauto]. Qed.
Lemma kept_save c n : same_level (config n) c → level_kept n (doSave (set_config c n)).
Proof. intros Hc. split; [done|intros d [= <-]; by right|cbn; eauto]. Qed.
Lemma kept_routes rt n : level_kept n (set_routes rt n).
Proof. split; [done|by left|cbn; eauto]. Qed.
Lemma kept_fed g n :
  (∀ f, TrustPool.enabled (g f) = TrustPool.enabled f) → level_kept n (set_fed (g <$> fed n) n).
Proof.
  intros Hg. split; [done|by left|]. cbn. intros f' E. destruct (fed n) as [f|]; [|done].
  injection E as <-. eauto.
Qed.

Lemma remove_enabled now id f : TrustPool.enabled (TrustPool.RemoveNode now id f) = TrustPool.enabled f.
Proof. unfold TrustPool.RemoveNode, TrustPool.removeNodeReason. by destruct (bool_decide _). Qed.
Lemma known_enabled now l f : TrustPool.enabled (TrustPool.AddKnownNodes now l f) = TrustPool.enabled f.
Proof.
  unfold TrustPool.AddKnownNodes. destruct (negb _); [done|]. by destruct (bool_decide _).
Qed.

#[export] Hint Resolve kept_refl kept_routes kept_config kept_save : level.

(** The operations on peers and on what is shared keep the level. *)
Lemma bridge_kept now p n : level_kept n (bridgePeerToFederation now p n).
Proof.
  unfold bridgePeerToFederation. destruct (fed n) as [f|] eqn:E; [|apply kept_refl].
  destruct (TrustPool.enabled f); [|apply kept_refl].
  split; [done|by left|]. intros f' [= <-]. exists f. by rewrite known_enabled.
Qed.

Lemma add_kept now fetch p n : level_kept n (AddPeer now fetch p n).2.
Proof.
  unfold AddPeer. set (p' := match pi_Addresses p with [] => _ | _ => _ end). clearbody p'.
  destruct (negb _); [apply kept_refl|].
  destruct (replace_peer p' (Peers (config n))) as [[q ps]|]; cbn [fst snd];
    (eapply kept_trans; [|apply bridge_kept]); unfold route_peer;
    (case_bool_decide; [|eapply kept_trans; [|apply kept_routes]]); by apply kept_save.
Qed.

Lemma remove_kept now id n : level_kept n (RemovePeer now id n).2.
Proof.
  unfold RemovePeer. destruct (negb _); [apply kept_refl|]. destruct (negb _); [apply kept_refl|]. cbn [snd].
  eapply kept_trans; [|apply kept_routes]. eapply kept_trans; [|apply kept_fed]; [by apply kept_save|].
  intros f. destruct (TrustPool.enabled f) eqn:E; [|done]. by rewrite remove_enabled.
Qed.

Lemma lan_kept now fetch p n : level_kept n (default n (lanRegisterPeer now fetch p (Some n)).2).
Proof.
  unfold lanRegisterPeer. destruct (negb _); [apply kept_refl|].
  match goal with |- context [AddPeer now fetch ?p n] => pose proof (add_kept now fetch p n) as Ha end.
  by destruct (AddPeer _ _ _ _) as [r n'].
Qed.

Lemma cull_kept now days self n : level_kept n (cullInactivePeers now days self n).
Proof.
  unfold cullInactivePeers. destruct (negb _); [apply kept_refl|]. destruct (days <=? 0); [apply kept_refl|].
  set (cutoff := cull_cutoff now days).
  assert (Hp : ∀ n p, level_kept n (cull_peer now cutoff self n p)).
  { clear. intros n p. unfold cull_peer. case_bool_decide; [apply kept_refl|].
    destruct (lastSeenBefore _ _); [|apply kept_refl].
    pose proof (remove_kept now (pi_NodeID p) n) as Hr. destruct (RemovePeer _ _ _) as [[] n']; [|done].
    eapply kept_trans; [apply Hr|apply kept_routes]. }
  assert (Hn : ∀ n i, level_kept n (cull_node now cutoff self n i)).
  { clear. intros n i. unfold cull_node. case_bool_decide; [apply kept_refl|].
    destruct (lastSeenBefore _ _); [|apply kept_refl].
    eapply kept_trans; [|apply kept_routes]. apply kept_fed, remove_enabled. }
  eapply kept_trans; [|by apply kept_foldl].
  destruct (fed n); [by apply kept_foldl|apply kept_refl].
Qed.

Lemma update_kept name models daily relay n : level_kept n (UpdateConfig name models daily relay n).2.
Proof. unfold UpdateConfig. destruct (negb _); [apply kept_refl|]. by apply kept_save. Qed.

Lemma boundary_kept b n : level_kept n (UpdateShareBoundary b n).
Proof. destruct b as [[[cap idle] wl]|]; [by apply kept_save|apply kept_refl]. Qed.

(** The others set the level: the federation is brought in line with a configuration that agrees. *)
Lemma sync_coherent n :
  level_ok (config n) → (∀ c, saved n = Some c → level_ok c) → coherent true (syncFederationToNetwork n).
Proof.
  intros [H1 H2] Hs. split; [done|done| |done]. cbn. intros f. destruct (fed n); [|done]. by intros [= <-].
Qed.

Lemma activate_coherent now who rs n :
  level_ok (config n) → (∀ c, saved n = Some c → level_ok c) → coherent true (activateNetwork now who rs n).
Proof.
  intros Hc Hs. unfold activateNetwork. set (m := if (_ && _)%bool then _ else n).
  assert (Hm : level_ok (config m) ∧ saved m = saved n ∧ fed m = fed n) by (unfold m; by destruct (_ && _)%bool).
  destruct Hm as (Hm & Es & _). eapply kept_coherent; [apply sync_coherent; [done|by rewrite Es]|].
  unfold bridgeRestoredPeersToFederation. destruct (fed _) as [f|] eqn:E; [|apply kept_refl].
  destruct (negb _); [apply kept_refl|]. case_bool_decide; [apply kept_refl|].
  split; [done|by left|]. intros f' [= <-]. exists f. by rewrite known_enabled.
Qed.

Lemma save_level c n : level_ok c → ∀ d, saved (doSave (set_config c n)) = Some d → level_ok d.
Proof. by intros H d [= <-]. Qed.

(** A change that leaves the network as it was. *)
Lemma same_coherent line c n :
  coherent line n → level_ok c → NetworkEnabled c = NetworkEnabled (config n) → coherent line (doSave (set_config c n)).
Proof.
  intros [_ _ Hf _] Hc E. split; [apply Hc|apply Hc| |by apply save_level]. cbn. intros f Hff.
  rewrite E. by apply Hf.
Qed.

(** What follows the network may be said to or not. *)
Lemma coherent_any line n : coherent true n → coherent line n.
Proof. intros [H1 H2 H3 H4]. split; try done. intros f Hf _. by apply H3. Qed.

Lemma level_of line n : coherent line n → level_ok (config n).
Proof. by intros [? ? _ _]. Qed.
Lemma saved_of line n : coherent line n → ∀ c, saved n = Some c → level_ok c.
Proof. intros [_ _ _ H] c Hc. by apply H. Qed.

Lemma level_on c b : level_ok (with_level NetworkModeShared true b c).
Proof. by split. Qed.
Lemma level_off c : level_ok (with_level NetworkModePersonal false false c).
Proof. by split. Qed.

Lemma enable_coherent line now who rs n : coherent line n → coherent line (EnableSharedNetwork now who rs n).2.
Proof.
  intros Hn. unfold EnableSharedNetwork. do 4 (destruct (negb _); [done|]).
  apply coherent_any, activate_coherent; [apply level_on|apply save_level, level_on].
Qed.

Lemma disable_coherent n : coherent true (DisableSharedNetwork n).
Proof. apply sync_coherent; [apply level_off|apply save_level, level_off]. Qed.

Lemma set_enabled_coherent line now who rs b n : coherent line n → coherent line (SetNetworkEnabled now who rs b n).
Proof.
  intros Hn. unfold SetNetworkEnabled. destruct b, (NetworkEnabled (config n)) eqn:E; cbn [andb negb].
  - by apply same_coherent; [|apply level_on|].
  - apply coherent_any, activate_coherent; [apply level_on|apply save_level, level_on].
  - apply coherent_any, sync_coherent; [apply level_off|apply save_level, level_off].
  - by apply same_coherent; [|apply level_off|].
Qed.

Lemma set_share_coherent line now who rs b n : coherent line n → coherent line (SetShareToPool now who rs b n).
Proof.
  intros Hn. unfold SetShareToPool. destruct (b && _)%bool eqn:E.
  - apply coherent_any, activate_coherent; [apply level_on|apply save_level, level_on].
  - destruct (level_of _ _ Hn) as [Hm Hs]. apply same_coherent; [done| |done]. split; [done|].
    cbn. intros ->. by destruct (NetworkEnabled (config n)).
Qed.

(** A file this program wrote is loaded as it is, whatever the legacy setting and however often it is loaded. *)
Lemma load_saved c cur l :
  level_ok c → ∃ c' l', load true (Some c) cur l = (c', l') ∧ level_ok c'.
Proof.
  intros [Hm Hs]. cbn.
  assert (bool_decide (Mode c = NetworkModeShared) && negb (NetworkEnabled c) = false) as ->.
  { case_bool_decide as E; [|done]. by rewrite (proj1 Hm E). }
  destruct (l && negb (NetworkEnabled c)) eqn:E; eexists _, _; (split; [reflexivity|]); [apply level_on|by split].
Qed.

Lemma init_coherent now who rs n :
  level_ok (config n) → (∀ c, saved n = Some c → level_ok c) →
  let n' := Init true now who rs n in level_ok (config n') ∧ ∀ c, saved n' = Some c → level_ok c.
Proof.
  intros Hc Hs. unfold Init.
  assert (∃ c l, load true (saved n) (config n) (legacy n) = (c, l) ∧ level_ok c) as (c & l & -> & Hl).
  { destruct (saved n) as [c|] eqn:E; [by apply load_saved, Hs|]. by eexists _, _. }
  cbv zeta. destruct (NetworkEnabled c); [|done].
  set (m := if (_ && _)%bool then _ else _).
  assert (level_ok (config m) ∧ ∀ c, saved m = Some c → level_ok c) as [Hm1 Hm2].
  { unfold m. destruct (_ && _)%bool; [|done]. split; [exact Hl|]. by intros d [= <-]. }
  pose proof (activate_coherent now who rs m Hm1 Hm2) as Ha. split; [by apply (level_of _ _ Ha)|by apply (saved_of _ _ Ha)].
Qed.

Lemma restart_coherent line now who rs f rt n : coherent line n → coherent true (restart now who rs f rt n).
Proof.
  intros Hn. unfold restart, start_network.
  assert (∃ c l, load true (saved n) default_config (legacy n) = (c, l) ∧ level_ok c) as (c & l & -> & Hl).
  { destruct (saved n) as [c|] eqn:E; [by apply load_saved, (saved_of _ _ Hn)|]. by eexists _, _. }
  apply sync_coherent; apply init_coherent; [done|exact (saved_of _ _ Hn)|done|exact (saved_of _ _ Hn)].
Qed.

Lemma exec_coherent line n o : coherent line n → coherent (in_line line o) (net_exec n o).
Proof.
  intros Hn. destruct o; cbn [net_exec in_line].
  - by apply enable_coherent.
  - apply disable_coherent.
  - eapply kept_coherent; [done|]. by apply kept_save.
  - unfold handleNetworkToggle. set (b' := match b with Some _ => _ | None => _ end). clearbody b'.
    pose proof (set_enabled_coherent line now who restored b' n Hn).
    destruct (_ && _)%bool; [|done]. by apply set_share_coherent.
  - by apply set_enabled_coherent.
  - by apply set_share_coherent.
  - eapply kept_coherent; [done|apply add_kept].
  - eapply kept_coherent; [done|apply remove_kept].
  - eapply kept_coherent; [done|apply lan_kept].
  - eapply kept_coherent; [done|apply cull_kept].
  - eapply kept_coherent; [done|apply update_kept].
  - eapply kept_coherent; [done|apply boundary_kept].
  - destruct Hn as [H1 H2 _ H4]. by split.
  - apply sync_coherent; [exact (level_of _ _ Hn)|exact (saved_of _ _ Hn)].
  - by apply (restart_coherent line).
Qed.

Lemma foldl_coherent line n os : coherent line n → coherent (foldl in_line line os) (foldl net_exec n os).
Proof. revert line n. induction os as [|o os IH]; intros line n Hn; [done|]. by apply IH, exec_coherent. Qed.

(** C26. The settings of the network always agree: whatever its owner, its peers, the sweeps, reloads and
    restarts do, the mode is shared exactly when the network is enabled, sharing to the
    pool implies that it is enabled, and what the file holds agrees in the same way. The federation is
    enabled exactly when the network is, unless the handler that saves the federation's settings was called
    since the network was last disabled, the settings reloaded or the node restarted: it sets the
    federation by itself. *)
Theorem levels_coherent line n os :
  coherent line n → coherent (foldl in_line line os) (foldl net_exec n os).
Proof. apply foldl_coherent. Qed.

Lemma activate_level now who rs n :
  NetworkEnabled (config (activateNetwork now who rs n)) = NetworkEnabled (config n) ∧
  Mode (config (activateNetwork now who rs n)) = Mode (config n) ∧ legacy (activateNetwork now who rs n) = legacy n.
Proof.
  unfold activateNetwork. set (m := if (_ && _)%bool then _ else n).
  assert (NetworkEnabled (config m) = NetworkEnabled (config n) ∧ Mode (config m) = Mode (config n) ∧ legacy m = legacy n)
    as (<- & <- & <-) by (unfold m; by destruct (_ && _)%bool).
  unfold bridgeRestoredPeersToFederation. destruct (fed _) as [f|]; [|done]. destruct (negb _); [done|].
  by case_bool_decide.
Qed.

(** (A defect.) The handler parts the federation from the network, in both ways: a personal node may have an enabled federation. *)
Theorem saving_parts_federation n f :
  fed n = Some f → ∀ b, TrustPool.enabled <$> fed (handleSaveFederationConfig (Some (if b : bool then "true" else "false")) n) = Some b.
Proof. intros Hf []; cbn; by rewrite Hf. Qed.

(** (A defect.) The migration of the legacy setting never lasts: the file is loaded a second time over what the first
    load decided. A file that has network_enabled undoes it, with the legacy setting gone; one from before
    network_enabled leaves the network enabled in personal mode. *)
Theorem migration_is_undone now who rs rt f :
  let start keyed := start_network keyed now who rs (Some default_config) rt f true in
  NetworkEnabled (config (start true)) = false ∧ legacy (start true) = false ∧
  NetworkEnabled (config (start false)) = true ∧ Mode (config (start false)) = NetworkModePersonal ∧
  legacy (start false) = false.
Proof.
  intros start. split; [done|]. split; [done|].
  pose (c1 := with_level NetworkModeShared true false default_config).
  pose (c2 := with_level NetworkModePersonal true false default_config).
  assert (load false (Some default_config) default_config true = (c1, false)) as E1 by reflexivity.
  assert (load false (Some default_config) c1 false = (c2, false)) as E2 by reflexivity.
  unfold start, start_network, Init. rewrite E1. cbn [config saved legacy]. rewrite E2. cbn [NetworkEnabled c2].
  set (m := if (_ && _)%bool then _ else _).
  assert (NetworkEnabled (config m) = true ∧ Mode (config m) = NetworkModePersonal ∧ legacy m = false) as (M1 & M2 & M3)
    by (unfold m; by destruct (_ && _)%bool).
  destruct (activate_level now who rs m) as (H1 & H2 & H3).
  unfold syncFederationToNetwork, set_fed. cbn [config legacy]. change (NetworkEnabled c2) with true. cbv iota. rewrite H1, H2, H3. done.
Qed.

(** ** Removing the inactive *)

Definition pool_nodes (n : network) : list TrustPool.NodeInfo :=
  from_option (λ f, TrustPool.Nodes (TrustPool.trustPool f)) [] (fed n).

(** From [n] to [n'] the peers of [G] left, and the nodes of [H] left everything else; nothing
    else went. *)
Record gone (G H : list string) (n n' : network) : Prop := {
  g_peers : Peers (config n') = filter (λ p, pi_NodeID p ∉ G) (Peers (config n));
  g_nodes : pool_nodes n' = filter (λ i, TrustPool.NodeID i ∉ H) (pool_nodes n);
  g_entries id : entries (routes n') !! id = if decide (id ∈ H) then None else entries (routes n) !! id;
  g_files reg : disk (routes n) = Some reg → ∃ reg', disk (routes n') = Some reg' ∧
    ∀ f, reg' !! f = if decide (f ∈ registryFileName <$> H) then None else reg !! f;
  g_mode : Mode (config n') = Mode (config n);
  g_fed : TrustPool.enabled <$> fed n' = TrustPool.enabled <$> fed n }.

Lemma filter_every {A} (P : A → Prop) `{∀ x, Decision (P x)} (l : list A) : (∀ x, P x) → filter P l = l.
Proof. intros HP. induction l as [|x l IH]; [done|]. by rewrite filter_cons_True, IH. Qed.

Lemma gone_nil n : gone [] [] n n.
Proof.
  split; [| |done| |done|done].
  - symmetry. apply filter_every. set_solver.
  - symmetry. apply filter_every. set_solver.
  - intros reg E. by exists reg.
Qed.

Lemma gone_trans G1 H1 G2 H2 n1 n2 n3 :
  gone G1 H1 n1 n2 → gone G2 H2 n2 n3 → gone (G1 ++ G2) (H1 ++ H2) n1 n3.
Proof.
  intros [A1 A2 A3 A4 A5 A6] [B1 B2 B3 B4 B5 B6]. split.
  - rewrite B1, A1, list_filter_filter. apply list_filter_iff. set_solver.
  - rewrite B2, A2, list_filter_filter. apply list_filter_iff. set_solver.
  - intros id. rewrite B3, A3. repeat case_decide; set_solver.
  - intros reg (r2 & (r3 & -> & E3)%B4 & E2)%A4. exists r3. split; [done|]. intros f.
    rewrite E3, E2, fmap_app. repeat case_decide; set_solver.
  - by rewrite B5.
  - by rewrite B6.
Qed.

Lemma gone_ext G H G' H' n n' :
  (∀ id, id ∈ G ↔ id ∈ G') → (∀ id, id ∈ H ↔ id ∈ H') → gone G H n n' → gone G' H' n n'.
Proof.
  intros HG HH [A1 A2 A3 A4 A5 A6]. split; [| | | |done|done].
  - rewrite A1. apply list_filter_iff. intros p. by rewrite HG.
  - rewrite A2. apply list_filter_iff. intros i. by rewrite HH.
  - intros id. rewrite A3. repeat case_decide; set_solver.
  - intros reg (r' & -> & E)%A4. exists r'. split; [done|]. intros f. rewrite E.
    assert (f ∈ registryFileName <$> H ↔ f ∈ registryFileName <$> H') by set_solver.
    repeat case_decide; tauto.
Qed.

Lemma removed_file id reg : id ≠ "" → ∀ f,
  reg_RemoveNode id reg !! f = if decide (f ∈ registryFileName <$> [id]) then None else reg !! f.
Proof.
  intros Hid f. unfold reg_RemoveNode. rewrite bool_decide_eq_false_2 by done. case_decide as E.
  - apply list_elem_of_singleton in E as ->. apply lookup_delete_eq.
  - apply lookup_delete_ne. intros <-. by apply E, list_elem_of_singleton.
Qed.

Lemma removed_nodes now id f : id ≠ "" →
  TrustPool.Nodes (TrustPool.trustPool (TrustPool.RemoveNode now id f)) =
  filter (λ i, TrustPool.NodeID i ∉ [id]) (TrustPool.Nodes (TrustPool.trustPool f)).
Proof.
  intros Hid. unfold TrustPool.RemoveNode, TrustPool.removeNodeReason.
  rewrite bool_decide_eq_false_2 by done. cbn. apply list_filter_iff. set_solver.
Qed.

Lemma removed_entry id rt : ∀ id',
  delete id (entries rt) !! id' = if decide (id' ∈ [id]) then None else entries rt !! id'.
Proof.
  intros id'. case_decide as E; [apply list_elem_of_singleton in E as ->; apply lookup_delete_eq|].
  apply lookup_delete_ne. intros <-. by apply E, list_elem_of_singleton.
Qed.

Lemma drop_node now id n : id ≠ "" →
  gone [] [id] n (set_routes (Remove id (routes n)) (set_fed (TrustPool.RemoveNode now id <$> fed n) n)).
Proof.
  intros Hid. split; [| |apply removed_entry| |done|].
  - symmetry. apply filter_every. set_solver.
  - unfold pool_nodes. cbn. destruct (fed n) as [f|]; [by apply removed_nodes|done].
  - intros reg E. cbn. rewrite E. eexists. split; [done|]. by apply removed_file.
  - cbn. destruct (fed n) as [f|]; [|done]. cbn. by rewrite remove_enabled.
Qed.

Lemma drop_peer now id n : id ≠ "" → Mode (config n) = NetworkModeShared → id ∈ pi_NodeID <$> Peers (config n) →
  (∀ f, fed n = Some f → TrustPool.enabled f = true) →
  ∃ n', RemovePeer now id n = (Ok tt, n') ∧ gone [id] [id] n (set_routes (Remove id (routes n')) n').
Proof.
  intros Hid Hm Hin Hf. unfold RemovePeer, HasPeer. rewrite (bool_decide_eq_true_2 _ Hm).
  rewrite (bool_decide_eq_true_2 _ Hin). cbn [negb]. eexists. split; [done|].
  split; [| |exact (removed_entry id (routes n))| |done|]; cbn.
  - apply list_filter_iff. set_solver.
  - unfold pool_nodes. cbn. destruct (fed n) as [f|]; [|done]. cbn. rewrite (Hf f eq_refl). exact (removed_nodes now id f Hid).
  - intros reg E. rewrite E. eexists. split; [done|]. intros f. rewrite !removed_file by done. cbn. repeat case_decide; done.
  - destruct (fed n) as [f|]; [|done]. cbn. destruct (TrustPool.enabled f) eqn:E; [|by rewrite E].
    by rewrite remove_enabled, E.
Qed.

(** What the sweep finds in a list. *)
Definition stale_ids {A} (id seen : A → string) (cutoff : Time) (self : option string) (l : list A) : list string :=
  id <$> filter (λ a, Some (id a) ≠ self ∧ lastSeenBefore (seen a) cutoff = true) l.

Lemma sweep_nodes now cutoff self l n : Forall (λ i, TrustPool.NodeID i ≠ "") l →
  gone [] (stale_ids TrustPool.NodeID TrustPool.LastSeen cutoff self l) n (foldl (cull_node now cutoff self) n l).
Proof.
  revert n. induction l as [|i l IH]; intros n Hl; [apply gone_nil|].
  inversion Hl as [|? ? Hi Hl']; subst. cbn [foldl]. unfold stale_ids. rewrite filter_cons.
  assert (Hskip : gone [] (TrustPool.NodeID <$> filter (λ a, Some (TrustPool.NodeID a) ≠ self ∧
     lastSeenBefore (TrustPool.LastSeen a) cutoff = true) l) n (foldl (cull_node now cutoff self) n l)) by by apply IH.
  unfold cull_node at 2. case_bool_decide as E; [by rewrite decide_False by tauto|].
  destruct (lastSeenBefore (TrustPool.LastSeen i) cutoff) eqn:Hs; [|by rewrite decide_False by (intros [_ ?]; congruence)].
  rewrite decide_True by done. exact (gone_trans [] [_] [] _ _ _ _ (drop_node now _ n Hi) (IH _ Hl')).
Qed.

Lemma sweep_peers now cutoff self l n0 n G :
  gone G G n0 n → Mode (config n0) = NetworkModeShared → (∀ f, fed n0 = Some f → TrustPool.enabled f = true) →
  Forall (λ p, pi_NodeID p ≠ "" ∧ pi_NodeID p ∈ pi_NodeID <$> Peers (config n0)) l →
  let G' := G ++ stale_ids pi_NodeID pi_LastSeen cutoff self l in
  gone G' G' n0 (foldl (cull_peer now cutoff self) n l).
Proof.
  intros Hg Hm Hf. revert n G Hg. induction l as [|p l IH]; intros n G Hg Hl; cbn zeta.
  { unfold stale_ids. cbn. by rewrite app_nil_r. }
  inversion Hl as [|? ? [Hp Hin] Hl']; subst. cbn [foldl]. unfold stale_ids. rewrite filter_cons.
  unfold cull_peer at 2. case_bool_decide as E; [by rewrite decide_False by tauto; apply IH|].
  destruct (lastSeenBefore (pi_LastSeen p) cutoff) eqn:Hs;
    [|by rewrite decide_False by (intros [_ ?]; congruence); apply IH].
  rewrite decide_True by done. rewrite fmap_cons, cons_middle, app_assoc. apply IH; [|done].
  destruct (decide (pi_NodeID p ∈ pi_NodeID <$> Peers (config n))) as [Hn|Hn].
  - destruct (drop_peer now (pi_NodeID p) n) as (n' & -> & Hd); [done| |done| |by apply (gone_trans _ _ _ _ _ n)].
    + by rewrite (g_mode _ _ _ _ Hg).
    + intros f E'. pose proof (g_fed _ _ _ _ Hg) as He. rewrite E' in He.
      destruct (fed n0) as [f0|] eqn:E0; [|done]. injection He as ->. by apply Hf.
  - unfold RemovePeer, HasPeer. rewrite (bool_decide_eq_false_2 _ Hn). cbn [negb].
    replace (if negb _ then _ else _) with (@Err unit "peer not found", n) by (rewrite (g_mode _ _ _ _ Hg), bool_decide_eq_true_2; done).
    assert (Hgp : pi_NodeID p ∈ G).
    { destruct (decide (pi_NodeID p ∈ G)); [done|]. destruct Hn. rewrite (g_peers _ _ _ _ Hg).
      apply list_elem_of_fmap in Hin as (q & Eq & Hq). rewrite Eq in *. apply list_elem_of_fmap.
      exists q. split; [done|]. by apply list_elem_of_filter. }
    eapply gone_ext; [| |exact Hg]; set_solver.
Qed.

(** Who has been silent since before [cutoff], of those other than this node. *)
Definition silent_since (cutoff : Time) (self : option string) (id seen : string) : Prop :=
  Some id ≠ self ∧ ∃ t, parse_rfc3339 seen = Some t ∧ t < cutoff.

Lemma silent_stale cutoff self id seen :
  silent_since cutoff self id seen ↔ Some id ≠ self ∧ lastSeenBefore seen cutoff = true.
Proof.
  unfold silent_since, lastSeenBefore, before. apply and_iff_compat_l. case_bool_decide as E.
  - subst. split; [intros (t & [=] & _)|done].
  - destruct (parse_rfc3339 seen) as [t|]; [|by split; [intros (? & [=] & _)|]].
    split; [intros (? & [= <-] & ?); by apply Z.ltb_lt|intros ?%Z.ltb_lt; by exists t].
Qed.

Lemma stale_ids_spec {A} (id seen : A → string) cutoff self l i :
  i ∈ stale_ids id seen cutoff self l ↔ ∃ a, a ∈ l ∧ id a = i ∧ silent_since cutoff self (id a) (seen a).
Proof.
  unfold stale_ids. rewrite list_elem_of_fmap. setoid_rewrite list_elem_of_filter.
  setoid_rewrite silent_stale. naive_solver.
Qed.

Lemma cutoff_exact now days : 0 < days ≤ 106751 → cull_cutoff now days = now - days * (24 * hour).
Proof.
  intros H. unfold cull_cutoff. change hour with 3600000000000. rewrite (wrap64_id (- days * 24)) by (unfold is_int64; lia).
  rewrite wrap64_id by (unfold is_int64; lia). lia.
Qed.

(** Culling removes exactly the inactive: in shared mode, with a window of at most 106,751 days,
    the manual peers that leave are those whose last sign of life can be read and is older
    than the window; these and the pool's nodes of the same kind leave the trust pool, the route
    table and the files, this node never does, and everything else stays as it was. *)
Theorem culling_exact now days self n :
  coherent true n → Mode (config n) = NetworkModeShared → 0 < days ≤ 106751 →
  Forall (λ i, TrustPool.NodeID i ≠ "") (pool_nodes n) → Forall (λ p, pi_NodeID p ≠ "") (Peers (config n)) →
  let silent := silent_since (now - days * (24 * hour)) self in
  let n' := cullInactivePeers now days self n in
  ∃ G H, gone G H n n' ∧ coherent true n' ∧
    (∀ id, id ∈ G ↔ ∃ p, p ∈ Peers (config n) ∧ pi_NodeID p = id ∧ silent (pi_NodeID p) (pi_LastSeen p)) ∧
    (∀ id, id ∈ H ↔ id ∈ G ∨
       ∃ i, i ∈ pool_nodes n ∧ TrustPool.NodeID i = id ∧ silent (TrustPool.NodeID i) (TrustPool.LastSeen i)).
Proof.
  intros Hc Hm Hd Hi Hp. rewrite <- (cutoff_exact now days Hd). intros silent n'.
  assert (Hf : ∀ f, fed n = Some f → TrustPool.enabled f = true).
  { intros f E. rewrite (co_fed _ _ Hc f E eq_refl). by apply (co_mode _ _ Hc). }
  pose (H0 := stale_ids TrustPool.NodeID TrustPool.LastSeen (cull_cutoff now days) self (pool_nodes n)).
  pose (G := stale_ids pi_NodeID pi_LastSeen (cull_cutoff now days) self (Peers (config n))).
  pose (m := foldl (cull_node now (cull_cutoff now days) self) n (pool_nodes n)).
  pose proof (sweep_nodes now (cull_cutoff now days) self _ n Hi) as H1. fold H0 m in H1.
  assert (E : n' = foldl (cull_peer now (cull_cutoff now days) self) m (Peers (config m))).
  { unfold n', cullInactivePeers, m, pool_nodes. rewrite (bool_decide_eq_true_2 _ Hm).
    rewrite (proj2 (Z.leb_gt _ _)) by lia. by destruct (fed n). }
  assert (Ep : Peers (config m) = Peers (config n)).
  { rewrite (g_peers _ _ _ _ H1). apply filter_every. set_solver. }
  exists G, (H0 ++ G). split_and!.
  - rewrite E, Ep. apply (gone_trans [] H0 G G n m); [done|].
    apply (sweep_peers now (cull_cutoff now days) self _ m m [] (gone_nil m)).
    + by rewrite (g_mode _ _ _ _ H1).
    + intros f E'. pose proof (g_fed _ _ _ _ H1) as He. rewrite E' in He.
      destruct (fed n) as [f0|] eqn:E0; [|done]. injection He as ->. by apply Hf.
    + rewrite Ep. apply Forall_forall. intros p Hin. rewrite Forall_forall in Hp. split; [by apply Hp|].
      by apply list_elem_of_fmap_2.
  - eapply kept_coherent; [done|apply cull_kept].
  - intros id. apply stale_ids_spec.
  - intros id. rewrite elem_of_app. unfold H0. rewrite stale_ids_spec. tauto.
Qed.

(** ** Where the code departs from its documentation *)

(** A window longer than 106,751 days, which asks never to cull, wraps: the line is drawn in the future
    and every peer that was ever heard from is culled. *)
Theorem long_window_culls_everyone now : now < cull_cutoff now 106752 ∧ 2 ^ 62 < cull_cutoff now 106752 - now.
Proof.
  unfold cull_cutoff.
  assert (E : wrap64 (wrap64 (- (106752) * 24) * hour) = 9223371273709551616) by reflexivity. rewrite E. lia.
Qed.

(** [RemovePeer] drops a peer from the list, the trust pool and the files; the route table still
    routes to it. *)
Theorem removed_peer_still_routed now id n n' :
  RemovePeer now id n = (Ok tt, n') → entries (routes n') = entries (routes n).
Proof.
  unfold RemovePeer. destruct (negb _); [done|]. destruct (negb _); [done|]. by intros [= <-].
Qed.

(** The toggle's [{"enabled": true}] is documented as level 2, without sharing; a node at level 3 stays there. *)
Theorem toggle_keeps_sharing now who rs n :
  ShareToPool (config n) = true → NetworkEnabled (config n) = true →
  ShareToPool (config (handleNetworkToggle now who rs (Some true) None None n)) = true.
Proof. intros Hs He. unfold handleNetworkToggle, SetNetworkEnabled. cbn. by rewrite He. Qed.

(** The toggle starts the network without the terms being accepted, an identity or its backup, which
    [EnableSharedNetwork] refuses. *)
Theorem toggle_skips_consent now who rs n :
  ConsentAccepted (config n) = false →
  (EnableSharedNetwork now who rs n).1 = Err "read and accept the terms of the shared network first" ∧
  Mode (config (handleNetworkToggle now who rs (Some true) None None n)) = NetworkModeShared.
Proof.
  intros Hc. unfold EnableSharedNetwork. rewrite Hc. split; [done|]. unfold handleNetworkToggle. cbn [default negb andb].
  unfold SetNetworkEnabled. destruct (NetworkEnabled (config n)); [done|]. cbn [andb negb].
  exact (proj1 (proj2 (activate_level now who rs (doSave (set_config (with_level NetworkModeShared true _ (config n)) n))))).
Qed.

(** The daily cap is compared with a sum that wraps: once anything was contributed today, a request
    whose estimate is large enough passes. *)
Theorem boundary_overflows today model e c :
  0 < today < 2 ^ 62 → 2 ^ 63 - today ≤ e < 2 ^ 63 → ModelWhitelist (ShareBoundary c) = [] →
  CheckShareBoundary today model e c = (true, "").
Proof.
  intros Ht He Hw. unfold CheckShareBoundary. rewrite Hw.
  assert (E : today +! e = today + e - 2 ^ 64).
  { unfold wrap64. rewrite <- (Z.mod_unique (today + e + 2 ^ 63) (2 ^ 64) 1 (today + e + 2 ^ 63 - 2 ^ 64)); lia. }
  rewrite E.
  destruct (Z.ltb_spec 0 (DailyContribCap (ShareBoundary c))); [|done].
  by rewrite (proj2 (Z.ltb_ge _ _)) by lia.
Qed.

(** ** Concrete states *)

Definition sample_peer (id seen : string) : PeerInfo := {|
  pi_NodeID := id; pi_Name := id; pi_Region := ""; pi_Models := []; pi_Status := "online"; pi_LastSeen := seen;
  TrustScore := f_zero; pi_JoinedAt := ""; pi_Addresses := ["https://" +:+ id]; Unlocked := false;
  pi_ShareToPool := false; pi_PubKey := "k" |}.
Definition sample_identity : identity :=
  {| initialised := true; backup_confirmed := true; migrates := true; derived_id := "omp:abcdefgh" |}.
Definition sample_network : network := {|
  config := default_config; saved := None; routes := initRouteTable (Some ∅);
  fed := Some (SetEnabled false (TrustPool.Build_FederationManager false
    {| TrustPool.Version := 0; TrustPool.UpdatedAt := ""; TrustPool.Registry := ""; TrustPool.Nodes := [];
       TrustPool.Tombstones := [] |} ∅ None)); legacy := true |}.
Definition sample_ops : list net_op :=
  [NConsent; NEnable (1600000000 * second) sample_identity []; NSetShare (1600000000 * second) sample_identity [] true;
   NAddPeer (1600000000 * second) (λ _, "") (sample_peer "old" "2020-01-01T00:00:00Z");
   NAddPeer (1600000000 * second) (λ _, "") (sample_peer "new" "2020-09-13T00:00:00Z")].

Lemma sample_coherent : coherent true sample_network.
Proof. split; [done|done| |done]. intros f E _. injection E as <-. reflexivity. Qed.

(** The operations, then a saved federation setting and a restart. *)
Definition sample_history : list net_op :=
  sample_ops ++ [NSaveFederation (Some "false");
                 NRestart (1600000000 * second) sample_identity [] (fed sample_network) (initRouteTable (Some ∅))].

Lemma levels_coherent_witness :
  coherent true sample_network ∧ coherent true (foldl net_exec sample_network sample_history) ∧
  ShareToPool (config (foldl net_exec sample_network sample_history)) = true ∧
  TrustPool.enabled <$> fed (foldl net_exec sample_network sample_history) = Some true.
Proof.
  split; [exact sample_coherent|]. split; [exact (levels_coherent _ _ sample_history sample_coherent)|].
  split; vm_compute; reflexivity.
Defined.

Lemma culling_exact_witness :
  ∃ G H, gone G H (foldl net_exec sample_network sample_ops)
    (cullInactivePeers (1600000000 * second) 30 (Some "omp:abcdefgh") (foldl net_exec sample_network sample_ops)).
Proof.
  destruct (culling_exact (1600000000 * second) 30 (Some "omp:abcdefgh") (foldl net_exec sample_network sample_ops))
    as (G & H & Hg & _).
  - exact (foldl_coherent true _ sample_ops sample_coherent).
  - reflexivity.
  - lia.
  - vm_compute. repeat constructor; discriminate.
  - vm_compute. repeat constructor; discriminate.
  - by exists G, H.
Defined.

Example culled_peers :
  let n := cullInactivePeers (1600000000 * second) 30 (Some "omp:abcdefgh") (foldl net_exec sample_network sample_ops) in
  pi_NodeID <$> Peers (config n) = ["new"] ∧ TrustPool.NodeID <$> pool_nodes n = ["new"].
Proof. vm_compute. done. Qed.
