(* ===== verification/Passthrough.v ===== *)
(** * Forwarding raw requests (openai_passthrough.go)

    The endpoints whose bodies are not translated: the choice of a provider, the charge to
    a guest key from what the body holds, and the loop over the candidates. Reading JSON
    and the upstream calls are parameters; the bytes of the response and the latencies
    are not modelled. Only authorised providers are called and the last call alone can succeed; a
    guest key pays the bounded estimate, once, exactly when its request reached the providers. *)

From S2P Require Import Prelude GoTime GuestKeys GuestQuota Providers Registry Routing RoutingSafety Chat ChatSafety.

(** A decoded body: the keys of an object once each, an integer literal that fits int64 as [Some]. *)
Inductive json :=
  | JNull | JBool (b : bool) | JNum (n : option Z) | JStr (s : string)
  | JArr (l : list json) | JObj (l : list (string * json)).

Definition passthroughSubPath (path : string) : string :=
  if bool_decide (path = "/v1/responses") then "/responses"
  else if bool_decide (path = "/v1/images/generations") then "/images/generations"
  else if bool_decide (path = "/v1/audio/speech") then "/audio/speech" else "".

(** ** What a guest key is charged *)

Fixpoint collectBodyText (v : json) : Z :=
  match v with
  | JStr s => Z.of_nat (String.length s)
  | JArr l => foldr (λ e acc, collectBodyText e + acc) 0 l
  | JObj l => foldr (λ e acc, collectBodyText e.2 + acc) 0 l
  | _ => 0
  end.

Definition firstPositiveNumber (body : option json) (keys : list string) : option Z :=
  match body with
  | Some (JObj l) =>
      head (omap (λ k, match find_key fst k l with
                       | Some (_, JNum (Some n)) => if 0 <? n then Some n else None
                       | _ => None end) keys)
  | _ => None
  end.

(** [body] is what the bytes decode to; [None] when they do not. *)
Definition estimateRawGuestTokens (body : option json) : Z :=
  match body with
  | None | Some JNull => 1
  | Some v =>
      let est := collectBodyText v / 4 +! 1 in
      let est := match firstPositiveNumber body ["max_tokens"; "max_output_tokens"; "max_tokens_out"] with
                 | Some out => est +! out | None => est end in
      let est := if est <? 1 then 1 else est in
      if 2 ^ 24 <? est then 2 ^ 24 else est
  end.

(** ** The candidates *)

(** What an upstream did with a raw request. *)
Inductive raw_answer := RawUnbuilt | RawError | RawStatus (status : Z).

Definition key_string (k : KeyType) : string :=
  match k with
  | KeyTypePublic => "public" | KeyTypeGuest => "guest" | KeyTypeProxy => "proxy" | KeyTypeUnknown => "unknown"
  end.

Record RawRequest := {
  w_path : string; w_body : option json; w_model : string; w_bearer : string;
  w_guest_key : string             (* the guest key verified by the relay, or empty *) }.

Section passthrough.
Context (env : RouteEnv) `{Encryptor} {loc : Location} (presets : list Provider)
  (sider_expired : bool) (raw : nat → Provider → raw_answer) (clk : clock).

Fixpoint raw_providers (i : nat) (cs : list candidate) (b : breaker) (rr : Z) (l : list chat_log)
    : option Z * (breaker * Z * list chat_log) :=
  match cs with
  | [] => (None, (b, rr, l))
  | c :: cs' =>
      let '(p, rr) := resolve_key (loc := loc) clk i (c_Provider c) rr in
      if bool_decide (APIKey p = "") then raw_providers (S i) cs' b rr l
      else
        let id := p_ID p in
        let failed := raw_providers (S i) cs' (recordProviderFailure (c_call clk i) id b) rr
                        (l ++ [LogCall id 0 0 false]) in
        match raw i p with
        | RawUnbuilt => raw_providers (S i) cs' b rr l
        | RawError => failed
        | RawStatus s =>
            if 400 <=? s then failed
            else (Some s, (recordProviderSuccess id b, rr, l ++ [LogCall id 0 0 true]))
        end
  end.

Definition raw_candidates (r : RawRequest) (n : chat_node) : list candidate * breaker :=
  let keyType := ClassifyKey (w_bearer r) in
  let '(all, b) := OrderedCandidates env presets sider_expired (c_start clk) (w_model r) (n_mode n)
                     (n_providers n) (n_breaker n) in
  let cs := FilterByAccessControl (n_shared n) all (key_string keyType) in
  let local := filterLocalOnly (n_id n) cs in
  (if (bool_decide (keyType = KeyTypeGuest) || bool_decide (keyType = KeyTypeProxy))
      && negb (bool_decide (local = []))
   then local else cs, b).

(** The guest key a raw request is accounted to. *)
Definition raw_guest_key (r : RawRequest) : string :=
  if bool_decide (w_guest_key r = "") && bool_decide (ClassifyKey (w_bearer r) = KeyTypeGuest)
  then w_bearer r else w_guest_key r.

Definition charge_guest (r : RawRequest) (n : chat_node) : bool * chat_node :=
  match n_guest n, n_keys n with
  | Some t, Some ks =>
      let key := raw_guest_key r in
      match (if bool_decide (key = "") then None else GetGuestKeyRecord key ks) with
      | Some rec =>
          let '((ok, _), t') := CheckAndReserveFull (c_start clk) key (Quota rec) (QuotaHourly rec)
                                  (QuotaPerRequest rec) (RPM rec) (estimateRawGuestTokens (w_body r)) t in
          (ok, set_guest n (Some t'))
      | None => (true, n)
      end
  | _, _ => (true, n)
  end.

(** [None] when the path is not one of these endpoints, else the status written. *)
Definition handleRawPassthrough (r : RawRequest) (n : chat_node) : option Z * chat_node :=
  if bool_decide (passthroughSubPath (w_path r) = "") then (None, n)
  else
    let '(cs, b) := raw_candidates r n in
    let n := set_run n b (n_rr n) (n_log n) in
    if bool_decide (cs = []) then (Some 404, n)
    else
      let '(allowed, n) := charge_guest r n in
      if negb allowed then (Some 429, n)
      else
        let '(served, (b, rr, l)) := raw_providers 0 cs (n_breaker n) (n_rr n) (n_log n) in
        (Some (default 502 served), set_run n b rr l).
End passthrough.

(** ** What forwarding guarantees *)

Lemma estimate_bounds body : 1 ≤ estimateRawGuestTokens body ≤ 2 ^ 24.
Proof.
  assert (Hb : ∀ e, 1 ≤ (let est := if e <? 1 then 1 else e in if 2 ^ 24 <? est then 2 ^ 24 else est) ≤ 2 ^ 24).
  { intros e. cbv zeta. destruct (Z.ltb_spec e 1); [by destruct (Z.ltb_spec (2 ^ 24) 1)|].
    destruct (Z.ltb_spec (2 ^ 24) e); lia. }
  destruct body as [[]|]; try apply Hb; cbn; lia.
Qed.

(** Away from overflow the estimate is the text and the bound the client gave, cut at 2^24. *)
Lemma estimate_exact v :
  v ≠ JNull → 0 ≤ collectBodyText v < 2 ^ 62 →
  let out := default 0 (firstPositiveNumber (Some v) ["max_tokens"; "max_output_tokens"; "max_tokens_out"]) in
  0 ≤ out < 2 ^ 62 → estimateRawGuestTokens (Some v) = (collectBodyText v / 4 + 1 + out) `min` 2 ^ 24.
Proof.
  intros Hv Ht out Ho. assert (0 ≤ collectBodyText v / 4 < 2 ^ 62).
  { split; [apply Z.div_pos; lia|]. apply Z.div_lt_upper_bound; lia. }
  assert (E : estimateRawGuestTokens (Some v) =
    let est := collectBodyText v / 4 + 1 + out in
    let est := if est <? 1 then 1 else est in if 2 ^ 24 <? est then 2 ^ 24 else est).
  { rewrite <- (wrap64_id (collectBodyText v / 4 + 1)) by (unfold is_int64; lia).
    rewrite <- (wrap64_id (_ + out)) by (rewrite wrap64_id; unfold is_int64; lia).
    unfold estimateRawGuestTokens, out. destruct (firstPositiveNumber _ _) as [m|]; [by destruct v|].
    cbn [default from_option]. rewrite Z.add_0_r, wrap64_wrap64. by destruct v. }
  rewrite E. cbv zeta. rewrite (proj2 (Z.ltb_ge _ 1)) by lia.
  match goal with |- context [?a <? ?b] => destruct (Z.ltb_spec a b) end; lia.
Qed.

(** The largest bound a client can give wraps the sum: the cap is passed by and one token is charged. *)
Theorem huge_bound_costs_one text :
  Z.of_nat (String.length text) < 2 ^ 20 →
  estimateRawGuestTokens (Some (JObj [("input", JStr text); ("max_output_tokens", JNum (Some (2 ^ 63 - 1)))])) = 1.
Proof.
  intros Ht. unfold estimateRawGuestTokens. cbn [collectBodyText foldr snd].
  set (x := Z.of_nat (String.length text) + (0 + 0)). assert (Hx : 0 ≤ x / 4 < 2 ^ 20).
  { assert (0 ≤ x < 2 ^ 20) by (unfold x; lia). split; [apply Z.div_pos; lia|]. apply Z.div_lt_upper_bound; lia. }
  change (firstPositiveNumber _ _) with (Some (2 ^ 63 - 1)). cbv iota beta zeta.
  rewrite (wrap64_id (x / 4 + 1)) by (unfold is_int64; lia).
  assert (E : (x / 4 + 1) +! (2 ^ 63 - 1) = x / 4 - 2 ^ 63).
  { unfold wrap64. rewrite <- (Z.mod_unique (x / 4 + 1 + (2 ^ 63 - 1) + 2 ^ 63) (2 ^ 64) 1 (x / 4)); lia. }
  rewrite E. by rewrite (proj2 (Z.ltb_lt (x / 4 - 2 ^ 63) 1)) by lia.
Qed.

Section passthrough_safety.
Context (env : RouteEnv) `{Encryptor} {loc : Location} (presets : list Provider)
  (sider_expired : bool) (raw : nat → Provider → raw_answer) (clk : clock).
(** Sorting rearranges its input, also beyond twenty elements. *)
Context (sort_permutes : ∀ less cs, merge_blocks env less cs ≡ₚ cs).
Implicit Types (r : RawRequest) (n : chat_node) (l : list chat_log).

(** ** The loop over the candidates *)

Definition failed_call (e : chat_log) : Prop := match e with LogCall _ pr co ok => ok = false | _ => False end.

(** The entries of a loop that ended with [served]. *)
Definition ends_with (served : option Z) (added : list chat_log) : Prop :=
  match served with
  | None => Forall failed_call added
  | Some s => s < 400 ∧ (∃ i p, raw i p = RawStatus s) ∧
              ∃ pre id, added = pre ++ [LogCall id 0 0 true] ∧ Forall failed_call pre
  end.

Lemma ends_cons e served added : failed_call e → ends_with served added → ends_with served (e :: added).
Proof.
  intros He. destruct served as [s|]; cbn; [|by constructor].
  intros (Hs & Hr & pre & id & -> & Hp). split; [done|]. split; [done|]. exists (e :: pre), id.
  split; [done|]. by constructor.
Qed.

Lemma raw_providers_spec i cs b rr l :
  let '(served, (b', rr', l')) := raw_providers (loc := loc) raw clk i cs b rr l in
  ∃ added, l' = l ++ added ∧ Forall (calls_in cs) added ∧ ends_with served added.
Proof.
  revert i b rr l. induction cs as [|c cs IH]; intros i b rr l; cbn [raw_providers].
  { exists []. split; [by rewrite app_nil_r|]. split; constructor. }
  pose proof (resolve_key_id clk i (c_Provider c) rr) as Hid.
  destruct (resolve_key clk i (c_Provider c) rr) as [p rr1]. cbn in Hid.
  assert (Hskip : ∀ b, let '(served, (b', rr', l')) := raw_providers (loc := loc) raw clk (S i) cs b rr1 l in
    ∃ added, l' = l ++ added ∧ Forall (calls_in (c :: cs)) added ∧ ends_with served added).
  { intros b0. specialize (IH (S i) b0 rr1 l). destruct (raw_providers _ _ _ _ _ _ _) as [sv [[b' rr'] l']].
    destruct IH as (added & -> & Hc & He). exists added. split; [done|]. split; [|done].
    eapply Forall_impl; [exact Hc|]. apply calls_in_mono. }
  assert (Hcall : ∀ ok, calls_in (c :: cs) (LogCall (p_ID p) 0 0 ok)) by (intros; exists c; split; [left|done]).
  assert (Hfail : ∀ b, let '(served, (b', rr', l')) :=
      raw_providers (loc := loc) raw clk (S i) cs b rr1 (l ++ [LogCall (p_ID p) 0 0 false]) in
    ∃ added, l' = l ++ added ∧ Forall (calls_in (c :: cs)) added ∧ ends_with served added).
  { intros b0. specialize (IH (S i) b0 rr1 (l ++ [LogCall (p_ID p) 0 0 false])).
    destruct (raw_providers _ _ _ _ _ _ _) as [sv [[b' rr'] l']].
    destruct IH as (added & -> & Hc & He). exists (LogCall (p_ID p) 0 0 false :: added).
    split; [by rewrite <- app_assoc|]. split; [|by apply ends_cons].
    constructor; [apply Hcall|]. eapply Forall_impl; [exact Hc|]. apply calls_in_mono. }
  destruct (bool_decide _); [apply Hskip|].
  destruct (raw i p) as [| |s] eqn:Er; [apply Hskip|apply Hfail|].
  destruct (Z.leb_spec 400 s); [apply Hfail|].
  exists [LogCall (p_ID p) 0 0 true]. split; [done|]. split; [by constructor|].
  split; [done|]. split; [by exists i, p|]. by exists [], (p_ID p).
Qed.

(** ** Who is called *)

Definition raw_authorised (r : RawRequest) (n : chat_node) (e : chat_log) : Prop :=
  match e with
  | LogCall id _ _ _ => ∃ p, GetRaw presets id (n_providers n) = Some p ∧ p_Enabled p = true ∧
      has_model (w_model r) p = true ∧ allowed (n_shared n) (key_string (ClassifyKey (w_bearer r))) p
  | LogConsumer _ _ => False
  end.

Lemma raw_candidates_ok r n c :
  keyed (n_providers n) → c ∈ (raw_candidates env presets sider_expired clk r n).1 →
  raw_authorised r n (LogCall (p_ID (c_Provider c)) 0 0 true).
Proof using sort_permutes.
  intros Hk Hc. unfold raw_candidates in Hc.
  pose proof (ordered_ok env presets sider_expired sort_permutes (n_shared n) (key_string (ClassifyKey (w_bearer r)))
    (c_start clk) (w_model r) (n_mode n) (n_providers n) (n_breaker n) c Hk) as Ho.
  destruct (OrderedCandidates _ _ _ _ _ _ _ _) as [all b]. cbn in Ho, Hc. exists (c_Provider c). apply Ho.
  destruct (_ && _)%bool; [|done]. unfold filterLocalOnly in Hc. by apply list_elem_of_filter in Hc as [_ ?].
Qed.

(** The outcomes of a request, in the order of its stages. *)
Inductive raw_outcome (r : RawRequest) (n n' : chat_node) : option Z → Prop :=
  | OutOther : n' = n → raw_outcome r n n' None
  | OutNone : n_guest n' = n_guest n → n_log n' = n_log n → raw_outcome r n n' (Some 404)
  | OutDenied : (charge_guest clk r n).1 = false → n_guest n' = n_guest (charge_guest clk r n).2 →
      n_log n' = n_log n → raw_outcome r n n' (Some 429)
  | OutTried served added : (charge_guest clk r n).1 = true → n_guest n' = n_guest (charge_guest clk r n).2 →
      n_log n' = n_log n ++ added → Forall (raw_authorised r n) added → ends_with served added →
      raw_outcome r n n' (Some (default 502 served)).

Lemma charge_guest_run r n b rr l :
  (charge_guest clk r (set_run n b rr l)).1 = (charge_guest clk r n).1 ∧
  n_guest (charge_guest clk r (set_run n b rr l)).2 = n_guest (charge_guest clk r n).2 ∧
  n_log (charge_guest clk r (set_run n b rr l)).2 = l.
Proof.
  unfold charge_guest. cbn [n_guest n_keys set_run]. destruct (n_guest n) as [t|] eqn:E; [|done].
  destruct (n_keys n) as [ks|]; [|done]. cbv zeta. destruct (if bool_decide _ then _ else _) as [rec|]; [|done].
  by destruct (CheckAndReserveFull _ _ _ _ _ _ _ _) as [[ok ?] t'].
Qed.

Lemma raw_handle r n :
  keyed (n_providers n) →
  let '(s, n') := handleRawPassthrough env presets sider_expired raw clk r n in raw_outcome r n n' s.
Proof using sort_permutes.
  intros Hk. unfold handleRawPassthrough. case_bool_decide as Hp; [by constructor|].
  pose proof (λ c, raw_candidates_ok r n c Hk) as Hcs.
  destruct (raw_candidates _ _ _ _ _ _) as [cs b]. cbn in Hcs. case_bool_decide as Hn; [by constructor|].
  destruct (charge_guest_run r n b (n_rr n) (n_log n)) as (H1 & H2 & H3).
  destruct (charge_guest clk r (set_run n b (n_rr n) (n_log n))) as [ok n1]. cbn in H1, H2, H3.
  destruct ok; cbn [negb]; [|by constructor].
  pose proof (raw_providers_spec 0 cs (n_breaker n1) (n_rr n1) (n_log n1)) as Hr.
  destruct (raw_providers _ _ _ _ _ _ _) as [served [[b' rr'] l']].
  destruct Hr as (added & -> & Hc & He). apply (OutTried r n _ served added); [done|done|by cbn; rewrite H3| |done].
  assert (Hno : Forall (λ e, match e with LogConsumer _ _ => False | _ => True end) added).
  { assert (Hf : ∀ l, Forall failed_call l → Forall (λ e, match e with LogConsumer _ _ => False | _ => True end) l).
    { intros l Hl. eapply Forall_impl; [exact Hl|]. by intros []. }
    destruct served as [s|]; [|by apply Hf]. destruct He as (_ & _ & pre & id & -> & Hpre).
    apply Forall_app. split; [by apply Hf|by repeat constructor]. }
  eapply Forall_impl; [exact (proj2 (Forall_and _ _) (conj Hc Hno))|].
  intros [id pr co ok|] [Hi Hx]; [|done]. destruct Hi as (c & Hcin & <-). exact (Hcs c Hcin).
Qed.

Lemma raw_frame r n :
  let '(s, n') := handleRawPassthrough env presets sider_expired raw clk r n in
  (s = None ↔ passthroughSubPath (w_path r) = "") ∧
  n_public n' = n_public n ∧ n_pools n' = n_pools n ∧ n_keys n' = n_keys n.
Proof.
  unfold handleRawPassthrough, charge_guest. case_bool_decide; [done|].
  destruct (raw_candidates _ _ _ _ _ _). case_bool_decide; [done|]. cbv zeta. cbn [n_guest n_keys set_run].
  repeat case_match; simplify_eq/=; try done.
Qed.

(** Raw requests are forwarded to authorised providers only: every upstream call goes to a
    registered, enabled provider that offers the model and is open to the type of the key;
    a request is answered with the status of its last call when this is below 400, every call before
    it having failed, with 502 when all failed, and refused requests call nobody; the public
    counters, the pools and the keys are left as they were. *)
Theorem raw_calls_authorised r n :
  keyed (n_providers n) →
  let '(s, n') := handleRawPassthrough env presets sider_expired raw clk r n in
  (s = None ↔ passthroughSubPath (w_path r) = "") ∧
  ∃ added, n_log n' = n_log n ++ added ∧ Forall (raw_authorised r n) added ∧
    (added ≠ [] → ∃ served, s = Some (default 502 served) ∧ ends_with served added) ∧
    n_public n' = n_public n ∧ n_pools n' = n_pools n ∧ n_keys n' = n_keys n.
Proof using sort_permutes.
  intros Hk. pose proof (raw_handle r n Hk) as Ho.
  pose proof (raw_frame r n) as Hrest.
  destruct (handleRawPassthrough _ _ _ _ _ _ _) as [s n']. destruct Hrest as (Hs & Hrest). split; [done|].
  destruct Ho as [->|_ Hl|_ _ Hl|served added _ _ Hl Ha He].
  1-3: exists []; rewrite app_nil_r; done.
  exists added. split; [done|]. split; [done|]. split; [|done]. intros _. by exists served.
Qed.

(** Whether a request that got [s] reached the providers. *)
Definition reached (s : option Z) : bool :=
  match s with Some s => negb (s =? 404) && negb (s =? 429) | None => false end.

(** A guest key pays for a raw request once and within bounds: the charge lies between 1 and 2^24;
    each limited window of the key grows by it exactly when the request reached the providers, whatever
    they answered, and by nothing when the request was refused or no provider offers the model. *)
Theorem raw_metering r n t ks rec w :
  keyed (n_providers n) → n_guest n = Some t → n_keys n = Some ks → raw_guest_key r ≠ "" →
  GetGuestKeyRecord (raw_guest_key r) ks = Some rec →
  0 ≤ used_at w (c_start clk) (raw_guest_key r) t < 2 ^ 61 → 0 < limit w (Quota rec) (QuotaHourly rec) →
  let est := estimateRawGuestTokens (w_body r) in
  let '(s, n') := handleRawPassthrough env presets sider_expired raw clk r n in
  1 ≤ est ≤ 2 ^ 24 ∧
  ∃ t', n_guest n' = Some t' ∧
    used_at w (c_start clk) (raw_guest_key r) t' =
    used_at w (c_start clk) (raw_guest_key r) t + (if reached s then est else 0).
Proof using sort_permutes.
  intros Hk Ht Hks Hkey Hrec Hu Hlim est. pose proof (estimate_bounds (w_body r)) as He. fold est in He.
  pose proof (raw_handle r n Hk) as Ho. destruct (handleRawPassthrough _ _ _ _ _ _ _) as [s n']. split; [done|].
  assert (Hc : ∃ t', n_guest (charge_guest clk r n).2 = Some t' ∧
    used_at w (c_start clk) (raw_guest_key r) t' = used_at w (c_start clk) (raw_guest_key r) t +
      (if (charge_guest clk r n).1 then est else 0)).
  { unfold charge_guest. rewrite Ht, Hks. cbv zeta. rewrite bool_decide_eq_false_2, Hrec by done. fold est.
    pose proof (reserve_window w (c_start clk) (raw_guest_key r) (Quota rec) (QuotaHourly rec)
      (QuotaPerRequest rec) (RPM rec) est t) as Hr. cbn zeta in Hr.
    destruct (CheckAndReserveFull _ _ _ _ _ _ _ _) as [[ok rem] t']. destruct Hr as (H1 & _ & H3).
    exists t'. split; [done|]. unfold used_at in *.
    assert (Es : stamp w t' = stamp_at w (c_start clk)) by (rewrite H1; by destruct w).
    destruct (ensure_journal w _ t' Es) as [-> _]. rewrite H3. destruct ok; cbn [andb fst]; [|lia].
    rewrite (proj2 (Z.ltb_lt _ _) Hlim), (proj2 (Z.ltb_lt 0 est)) by lia. cbn [andb].
    rewrite zget_zincr, decide_True by done. apply wrap64_id. unfold is_int64. lia. }
  assert (Hsame : n_guest n' = n_guest n → ∃ t', n_guest n' = Some t' ∧
    used_at w (c_start clk) (raw_guest_key r) t' = used_at w (c_start clk) (raw_guest_key r) t + 0).
  { intros ->. exists t. split; [done|lia]. }
  destruct Ho as [->|Hg _|Hok Hg _|served added Hok Hg _ _ Hend].
  - by apply Hsame.
  - by apply Hsame.
  - by rewrite Hok, <- Hg in Hc.
  - rewrite Hok, <- Hg in Hc. replace (reached _) with true; [done|]. destruct served as [s|]; [|done].
    destruct Hend as (Hs & _). cbn. rewrite (proj2 (Z.eqb_neq s 404)), (proj2 (Z.eqb_neq s 429)) by lia. done.
Qed.
End passthrough_safety.

(** Providers are chosen by the class of the key alone, not by the rules of the chat handler: a guest
    key with access to the public pool is let through as a public key there, as a guest here. *)
Theorem passthrough_rules_differ now shared store c node :
  internalKeyType c = "" → role c ≠ "admin" →
  GetGuestKeyAccessPublicPool now shared (bearer c) store = Some (node, true) →
  RequestKeyType now shared store c = "public" ∧ key_string (ClassifyKey (bearer c)) = "guest".
Proof.
  intros Hi Hr Hg. assert (Hc : ClassifyKey (bearer c) = KeyTypeGuest).
  { unfold GetGuestKeyAccessPublicPool in Hg. destruct (has_prefix "sk-guest-" (bearer c)) eqn:E; [|done].
    unfold ClassifyKey. case_bool_decide as Hp; [|by rewrite E]. rewrite Hp in E. vm_compute in E. discriminate E. }
  unfold RequestKeyType. rewrite Hi, (bool_decide_eq_false_2 _ Hr), Hc, Hg. done.
Qed.

(** ** A concrete request *)

Definition raw_request : RawRequest := {|
  w_path := "/v1/responses"; w_body := Some (JObj [("input", JStr "hello world"); ("max_output_tokens", JNum (Some 50))]);
  w_model := "m"; w_bearer := PublicKeyValue; w_guest_key := GuestKeys.demo_key |}.
Definition raw_up (i : nat) (p : Provider) : raw_answer := match i with O => RawStatus 500 | _ => RawStatus 200 end.

Lemma raw_calls_authorised_witness :
  n_log (handleRawPassthrough (loc := UTC) idle_env three_presets false raw_up chat_clock raw_request demo_node).2 =
    [LogCall "c" 0 0 false; LogCall "a" 0 0 true] ∧
  Forall (raw_authorised three_presets raw_request demo_node) [LogCall "c" 0 0 false; LogCall "a" 0 0 true].
Proof.
  pose proof (raw_calls_authorised (loc := UTC) idle_env three_presets false raw_up chat_clock idle_permutes
    raw_request demo_node demo_keyed) as H.
  assert (E : n_log (handleRawPassthrough (loc := UTC) idle_env three_presets false raw_up chat_clock raw_request demo_node).2 =
    [LogCall "c" 0 0 false; LogCall "a" 0 0 true]) by (vm_compute; reflexivity).
  split; [exact E|]. destruct (handleRawPassthrough _ _ _ _ _ _ _) as [s n'].
  destruct H as (_ & added & Hl & Ha & _). cbn in E. rewrite E in Hl. cbn in Hl. by rewrite Hl.
Defined.

Lemma raw_metering_witness :
  estimateRawGuestTokens (w_body raw_request) = 53 ∧
  ∃ t', n_guest (handleRawPassthrough (loc := UTC) idle_env three_presets false raw_up chat_clock raw_request demo_node).2 =
    Some t' ∧ used_at Daily (c_start chat_clock) GuestKeys.demo_key t' = 53.
Proof.
  split; [reflexivity|].
  pose proof (raw_metering (loc := UTC) idle_env three_presets false raw_up chat_clock idle_permutes raw_request
    demo_node GuestKeys.initGuestKeyUsageTracker [chat_record] chat_record Daily demo_keyed eq_refl eq_refl
    ltac:(discriminate) eq_refl ltac:(vm_compute; split; [discriminate|reflexivity]) ltac:(reflexivity)) as H.
  cbv zeta in H.
  assert (E : (handleRawPassthrough (loc := UTC) idle_env three_presets false raw_up chat_clock raw_request demo_node).1 =
    Some 200) by (vm_compute; reflexivity).
  destruct (handleRawPassthrough _ _ _ _ _ _ _) as [s n']. cbn in E. subst s.
  destruct H as (_ & t' & Ht & Hu). exists t'. split; [exact Ht|]. exact Hu.
Defined.
