(* ===== verification/Gateway.v ===== *)
(** * The gateway (network_relay.go)

    A request for a model is served here or forwarded to another node. The handler checks the hop count,
    the body, the signature of a forward, the boundary of what is shared and the quota of the public
    key, then tries the ranked nodes in order and falls back to the local handlers; the client that
    sends a request follows redirects ([net/http] does, when a client has no CheckRedirect). Reading
    the body, addresses and their resolution, and what a remote server answers are parameters; the bytes
    copied, the counters of the load balancer and of the statistics page are not modelled. *)

From S2P Require Import Prelude GoTime Bytes NetIP PublicQuota GuestKeys Providers Routing Chat Passthrough RouteTable Relay.
From S2P Require Ledger ContribQuota TrustPool Network.

#[local] Existing Instance Network.mode_eq_dec.

(** ** Requests *)

Inductive body_read := BodyTimeout | BodyFailed | BodyRead.

(** What the gateway reads of a JSON body. *)
Record gateway_body := { b_model : string; b_stream : bool; b_max_tokens : option Z }.

(** The hop header, the relay headers and the body; what the body decodes to, and the same request
    as the chat handler reads it. *)
Record gateway_request := {
  g_hop : string; g_read : body_read; g_relay : relay_request; g_body : option gateway_body;
  g_json : option json; g_ip : string; g_chat : ChatRequest }.

Definition g_path (r : gateway_request) : string := rq_path (g_relay r).
Definition g_bearer (r : gateway_request) : string := bearer (q_cred (g_chat r)).

(** The headers a contributor is identified by. *)
Definition node_header (r : relay_request) (h : string) : string :=
  if bool_decide (h = "X-Node-ID") then rq_NodeID r
  else if bool_decide (h = "X-Node-Auth") then rq_NodeAuth r else "".

(** The node, with the requests it sent to others, the node and the address, and those it sent on because
    of a redirect: the node, the URL, and whether the body goes there too. *)
Record gateway := {
  gw_node : chat_node; gw_config : option Network.NetworkConfig; gw_routes : option RouteTable;
  gw_contrib : option ContribQuota.entries; gw_ledger : option Ledger.GossipLedger;
  gw_seen : replay_cache; gw_sent : list (string * string);
  gw_redirected : list (string * string * bool) }.

Definition gw_shared (g : gateway) : bool :=
  match gw_config g with Some c => bool_decide (Network.Mode c = Network.NetworkModeShared) | None => false end.
Definition gw_self (g : gateway) : string := from_option Network.c_NodeID "" (gw_config g).

Definition set_node (n : chat_node) (g : gateway) : gateway := {|
  gw_node := n; gw_config := gw_config g; gw_routes := gw_routes g; gw_contrib := gw_contrib g;
  gw_ledger := gw_ledger g; gw_seen := gw_seen g; gw_sent := gw_sent g;
  gw_redirected := gw_redirected g |}.
Definition set_table (rt : option RouteTable) (g : gateway) : gateway := {|
  gw_node := gw_node g; gw_config := gw_config g; gw_routes := rt; gw_contrib := gw_contrib g;
  gw_ledger := gw_ledger g; gw_seen := gw_seen g; gw_sent := gw_sent g;
  gw_redirected := gw_redirected g |}.
Definition set_contrib (t : option ContribQuota.entries) (g : gateway) : gateway := {|
  gw_node := gw_node g; gw_config := gw_config g; gw_routes := gw_routes g; gw_contrib := t;
  gw_ledger := gw_ledger g; gw_seen := gw_seen g; gw_sent := gw_sent g;
  gw_redirected := gw_redirected g |}.
Definition set_ledger (l : option Ledger.GossipLedger) (g : gateway) : gateway := {|
  gw_node := gw_node g; gw_config := gw_config g; gw_routes := gw_routes g; gw_contrib := gw_contrib g;
  gw_ledger := l; gw_seen := gw_seen g; gw_sent := gw_sent g;
  gw_redirected := gw_redirected g |}.
Definition set_seen (c : replay_cache) (g : gateway) : gateway := {|
  gw_node := gw_node g; gw_config := gw_config g; gw_routes := gw_routes g; gw_contrib := gw_contrib g;
  gw_ledger := gw_ledger g; gw_seen := c; gw_sent := gw_sent g;
  gw_redirected := gw_redirected g |}.
Definition note_sent (id addr : string) (g : gateway) : gateway := {|
  gw_node := gw_node g; gw_config := gw_config g; gw_routes := gw_routes g; gw_contrib := gw_contrib g;
  gw_ledger := gw_ledger g; gw_seen := gw_seen g; gw_sent := gw_sent g ++ [(id, addr)];
  gw_redirected := gw_redirected g |}.
Definition note_redirects (id : string) (urls : list (string * bool)) (g : gateway) : gateway := {|
  gw_node := gw_node g; gw_config := gw_config g; gw_routes := gw_routes g; gw_contrib := gw_contrib g;
  gw_ledger := gw_ledger g; gw_seen := gw_seen g; gw_sent := gw_sent g;
  gw_redirected := gw_redirected g ++ ((λ u, (id, u.1, u.2)) <$> urls) |}.

(** ** Addresses *)

(** The last tunnel address and the last local one, for want of a public one. *)
Fixpoint best_address (tunnel local : string) (l : list string) (first : string) : string :=
  match l with
  | [] => if negb (bool_decide (tunnel = "")) then tunnel
          else if negb (bool_decide (local = "")) then local else first
  | a :: l =>
      let cloudflare := str_contains "trycloudflare.com" a in
      if has_prefix "https://" a && negb cloudflare then a
      else best_address (if cloudflare then a else tunnel) (if has_prefix "http://localhost" a then a else local) l first
  end.
Definition pickBestAddress (l : list string) : string :=
  match l with [] => "" | a :: _ => best_address "" "" l a end.

(** ** Hops *)

(** The hop count of a request, [None] when the header is not a number. *)
Definition hop_count (header : string) : option Z :=
  if bool_decide (header = "") then Some 0 else Z.max 0 <$> parse_int64 header.
Definition next_hop (hop : Z) : string := dec (hop +! 1).

(** How a request was answered. *)
Inductive outcome :=
  | Rejected (status : Z)                   (* by the gateway itself *)
  | ServedLocally (a : answer)              (* by the chat handler *)
  | ServedRaw (status : Z)                  (* by the raw passthrough *)
  | ServedBy (id : string) (status : Z).    (* by another node *)

(** The header Location of an answer, resolved. *)
Inductive location := NoLocation | BadLocation | LocationURL (url : string).
(** What a remote server did with a request. *)
Inductive remote_answer := RemoteUnbuilt | RemoteDown | RemoteStatus (status : Z) (loc : location).

Definition is_redirect (s : Z) : bool := (s =? 301) || (s =? 302) || (s =? 303) || (s =? 307) || (s =? 308).
Definition keeps_body (s : Z) : bool := (s =? 307) || (s =? 308).

(** [client.Do] without CheckRedirect: the URLs redirected to, [n] at most, each with whether the body goes
    there, and the last answer; [server k url] is what the [k]-th request gets. *)
Fixpoint client_do (n : nat) (server : nat → string → remote_answer) (k : nat) (url : string) (body : bool)
    : list (string * bool) * remote_answer :=
  match server k url with
  | RemoteStatus s l =>
      if is_redirect s then
        match l with
        | NoLocation => ([], RemoteStatus s l)
        | BadLocation => ([], RemoteDown)
        | LocationURL url' =>
            match n with
            | O => ([], RemoteDown)
            | S n => let body := body && keeps_body s in
                     let '(urls, a) := client_do n server (S k) url' body in ((url', body) :: urls, a)
            end
        end
      else ([], RemoteStatus s l)
  | _ => ([], RemoteDown)
  end.
Definition maxRedirects : nat := 9.

Definition retryable (s : Z) : bool := (s =? 502) || (s =? 503) || (s =? 504) || (s =? 404).

Section gateway.
Context (env : RouteEnv) `{Encryptor} `{!Ledger.LedgerEnv} {loc : Location} (presets : list Provider)
  (sider_expired : bool) (serve : nat → Provider → upstream) (raw : nat → Provider → raw_answer)
  (clk : clock) (coze : ChatRequest → chat_node → answer * chat_node).
Context (VerifyJSONSig : string → RelayAuthEnvelope → string → bool) (boot : Time)
  (fed : option TrustPool.FederationManager).
(** The order the route table is visited in, the host of an address, addresses and names, what the [k]-th
    request to the [i]-th node tried gets from the server at a URL, the clock of the handler and of the
    attempts. *)
Context (visit : gmap string RouteEntry → list RouteEntry) (host_of : string → option string)
  (ParseIP : string → option bytes) (LookupHost : string → option (list string))
  (remote : nat → nat → string → remote_answer) (now : Time) (tried_at : nat → Time).

(** ** Forwarding *)

(** The contribution noted when another node served a request. *)
Definition relay_contribution (id model : string) : Ledger.ContributionRecord := {|
  Ledger.c_ID := ""; Ledger.c_PeerID := id; Ledger.c_PeerPublicKey := ""; Ledger.c_ModelID := model;
  Ledger.c_Provider := "gateway-relay"; Ledger.c_Tokens := 0; Ledger.c_ValueUSD := f_zero;
  Ledger.c_Timestamp := time_zero; Ledger.c_Signature := "";
  Ledger.c_Proof := {| Ledger.ContentHash := ""; Ledger.StorageLocation := ""; Ledger.Verified := false |} |}.
Definition record_relay (t : Time) (self id model : string) (l : Ledger.GossipLedger) : Ledger.GossipLedger :=
  let l := (Ledger.RecordContribution t (Some (relay_contribution id model)) l).2 in
  (Ledger.AppendTransaction t "contribution" self 0 model "" l).2.

(** The address a request to a node goes to, if it may be sent at all. *)
Definition forward_target (e : RouteEntry) : option string :=
  let addr := pickBestAddress (r_Addresses e) in
  if bool_decide (addr = "") then None
  else if negb (has_prefix "https://" addr) then None
  else match host_of addr with
       | None => None
       | Some host => if relayTargetBlocked ParseIP LookupHost host then None else Some addr
       end.

(** The answer of the node [id], or its want: [None] when the next node may be tried. *)
Definition relay_answered (i : nat) (id model : string) (a : remote_answer) (g : gateway) : option Z * gateway :=
  let failed := (None, set_table ((λ rt, (RecordFail (tried_at i) id rt).2) <$> gw_routes g) g) in
  match a with
  | RemoteStatus s _ =>
      if retryable s then failed
      else (Some s, if s <? 400
                    then set_ledger (record_relay (tried_at i) (gw_self g) id model <$> gw_ledger g) g else g)
  | _ => failed
  end.

Definition gatewayForwardToRemote (i : nat) (e : RouteEntry) (model : string) (g : gateway) : option Z * gateway :=
  match forward_target e with
  | None => (None, g)
  | Some addr =>
      match remote i 0%nat addr with
      | RemoteUnbuilt => (Some 500, g)
      | _ =>
          let '(urls, a) := client_do maxRedirects (remote i) 0 addr true in
          relay_answered i (r_NodeID e) model a (note_redirects (r_NodeID e) urls (note_sent (r_NodeID e) addr g))
      end
  end.

Fixpoint gatewayForwardFailover (i : nat) (es : list RouteEntry) (selfID model : string) (g : gateway)
    : option (string * Z) * gateway :=
  match es with
  | [] => (None, g)
  | e :: es =>
      if bool_decide (r_NodeID e = selfID) then gatewayForwardFailover (S i) es selfID model g
      else
        let '(served, g) := gatewayForwardToRemote i e model g in
        match served with
        | Some s => (Some (r_NodeID e, s), g)
        | None => gatewayForwardFailover (S i) es selfID model g
        end
  end.

(** ** Serving here *)

(** The request as the local chat handler gets it. *)
Definition local_request (charged : bool) (reserved : option Z) (r : gateway_request) : ChatRequest :=
  let q := g_chat r in {|
  q_cred := q_cred q; q_messages := q_messages q; q_model := q_model q; q_max_tokens := q_max_tokens q;
  q_stream := q_stream q; q_client := q_client q; q_consumer := q_consumer q; q_guest_key := q_guest_key q;
  q_charged := charged; q_handoff := reserved |}.

Definition raw_request (model : string) (r : gateway_request) : RawRequest := {|
  w_path := g_path r; w_body := g_json r; w_model := model; w_bearer := g_bearer r;
  w_guest_key := q_guest_key (g_chat r) |}.

Definition handleGatewayFallback (charged : bool) (reserved : option Z) (model : string) (r : gateway_request)
    (g : gateway) : outcome * gateway :=
  let path := g_path r in
  if bool_decide (path = "/v1/chat/completions") || bool_decide (path = "/v1/completions") then
    let '(a, n) := handleChatCompletions env presets sider_expired serve clk coze
                     (local_request charged reserved r) (gw_node g) in
    (ServedLocally a, set_node n g)
  else if bool_decide (path = "/v1/embeddings") then (Rejected 501, g)
  else if bool_decide (path ∈ ["/v1/responses"; "/v1/images/generations"; "/v1/audio/speech"]) then
    match handleRawPassthrough env presets sider_expired raw clk (raw_request model r) (gw_node g) with
    | (Some s, n) => (ServedRaw s, set_node n g)
    | (None, n) => (Rejected 501, set_node n g)
    end
  else (Rejected 404, g).

(** ** The handler *)

Definition gateway_estimate (b : gateway_body) : Z :=
  match b_max_tokens b with Some m => if 0 <? m then m else 4096 | None => 4096 end.

(** The nodes to try: none for a guest key bound to this node. *)
Definition gateway_candidates (model key : string) (g : gateway) : list RouteEntry :=
  let es := match gw_routes g with
            | Some rt => if bool_decide (model = "") then []
                         else SelectRankedNodes now (gw_self g) model (Z.of_nat gatewayFailoverMaxCandidates)
                                (visit (entries rt))
            | None => []
            end in
  if bool_decide (ClassifyKey key = KeyTypeGuest) &&
     negb (from_option snd false (GetGuestKeyAccessPublicPool now (gw_shared g) key (n_keys (gw_node g))))
  then [] else es.

(** Once the quota is settled: here, by the nodes in order, or here after all. *)
Definition dispatch (charged : bool) (reserved : option Z) (b : gateway_body) (r : gateway_request) (g : gateway)
    : outcome * gateway :=
  match gateway_candidates (b_model b) (g_bearer r) g with
  | [] => handleGatewayFallback charged reserved (b_model b) r g
  | e :: es =>
      if bool_decide (r_NodeID e = gw_self g) then handleGatewayFallback charged reserved (b_model b) r g
      else
        let '(served, g) := gatewayForwardFailover 0 (e :: es) (gw_self g) (b_model b) g in
        match served with
        | Some (id, s) => (ServedBy id s, g)
        | None => handleGatewayFallback charged reserved (b_model b) r g
        end
  end.

(** What the reservation is settled at: what the local handler reported, or the estimate. *)
Definition reported (reserved : Z) (o : outcome) : Z :=
  match o with ServedLocally a => default reserved (handoff a) | _ => reserved end.

(** The quota of the public key, around the dispatch. *)
Definition metered (b : gateway_body) (r : gateway_request) (g : gateway) : outcome * gateway :=
  let est := gateway_estimate b in
  if negb (bool_decide (ClassifyKey (g_bearer r) = KeyTypePublic)) then dispatch false None b r g
  else
    let '(draw, t) := ContribQuota.tryContributorDraw now (node_header (g_relay r)) est (gw_contrib g) in
    let g := set_contrib t g in
    if ContribQuota.d_OK draw then
      let '(o, g) := dispatch true None b r g in
      (o, set_contrib (ContribQuota.settle (c_end clk) draw 0 (gw_contrib g)) g)
    else match n_public (gw_node g) with
    | None => dispatch false None b r g
    | Some q =>
        let '((ok, _, _), q) := ReserveQuota (loc := loc) now (g_ip r) (b_model b) est q in
        let g := set_node (set_public (gw_node g) (Some q)) g in
        if negb ok then (Rejected 429, g)
        else
          let '(o, g) := dispatch true (Some est) b r g in
          (o, set_node (set_public (gw_node g)
                 (AdjustQuota (loc := loc) (c_end clk) (g_ip r) (b_model b) est (reported est o) <$> n_public (gw_node g))) g)
    end.

(** What may be served of the shared models today. *)
Definition within_boundary (b : gateway_body) (g : gateway) : bool :=
  match gw_config g with
  | Some c =>
      if gw_shared g then
        let today := match gw_ledger g with
                     | Some l => Ledger.GetDailyContributions (gw_self g) now l | None => 0 end in
        (Network.CheckShareBoundary today (b_model b) (gateway_estimate b) c).1
      else true
  | None => true
  end.

Definition handleGatewayRequest (r : gateway_request) (g : gateway) : outcome * gateway :=
  match hop_count (g_hop r) with
  | None => (Rejected 400, g)
  | Some hop =>
      if maxRelayHops <=? hop then (Rejected 508, g)
      else match g_read r with
      | BodyTimeout => (Rejected 408, g)
      | BodyFailed => (Rejected 400, g)
      | BodyRead =>
          if (maxGatewayBodySize <? String.length (rq_body (g_relay r)))%nat then (Rejected 413, g)
          else
            let '((status, _), (_, seen)) := verifyRelayForwardAuth VerifyJSONSig boot now now fed (g_relay r) (gw_seen g) in
            let g := set_seen seen g in
            if negb (status =? 0) then (Rejected status, g)
            else match g_body r with
            | None => (Rejected 400, g)
            | Some b =>
                if (256 <? String.length (b_model b))%nat then (Rejected 400, g)
                else if negb (within_boundary b g) then (Rejected 429, g)
                else metered b r g
            end
      end
  end.

(** The hop header of the request another node gets. *)
Definition forwarded_hop (r : gateway_request) : option string := next_hop <$> hop_count (g_hop r).
End gateway.
