(* ===== verification/GatewaySafety.v ===== *)
(** * What the gateway guarantees (network_relay.go)

    What a request with the public key is charged on every way it may be served, where a
    request may be forwarded to, who pays for it, and that forwarding ends. *)

From S2P Require Import Prelude GoTime GoSort Bytes NetIP PublicQuota GuestKeys GuestQuota Providers Registry Routing RoutingSafety Chat ChatSafety.
From S2P Require Import Passthrough RouteTable RouteSafety Relay RelaySafety Gateway.
From S2P Require Ledger ContribQuota TrustPool Network.

Section gateway_safety.
Context (env : RouteEnv) `{Encryptor} `{!Ledger.LedgerEnv} {loc : Location} (presets : list Provider)
  (sider_expired : bool) (serve : nat → Provider → upstream) (raw : nat → Provider → raw_answer)
  (clk : clock) (coze : ChatRequest → chat_node → answer * chat_node).
Context (VerifyJSONSig : string → RelayAuthEnvelope → string → bool) (boot : Time)
  (fed : option TrustPool.FederationManager).
Context (visit : gmap string RouteEntry → list RouteEntry) (host_of : string → option string)
  (ParseIP : string → option bytes) (LookupHost : string → option (list string))
  (remote : nat → nat → string → remote_answer)
  (now : Time) (tried_at : nat → Time).
Implicit Types (r : gateway_request) (g : gateway) (b : gateway_body).

Abbreviation try_one := (gatewayForwardToRemote (loc := loc) host_of ParseIP LookupHost remote tried_at).
Abbreviation failover := (gatewayForwardFailover (loc := loc) host_of ParseIP LookupHost remote tried_at).
Abbreviation fallback := (handleGatewayFallback (loc := loc) env presets sider_expired serve raw clk coze).
Abbreviation dispatched :=
  (dispatch (loc := loc) env presets sider_expired serve raw clk coze visit host_of ParseIP LookupHost remote now tried_at).
Abbreviation settled :=
  (metered (loc := loc) env presets sider_expired serve raw clk coze visit host_of ParseIP LookupHost remote now tried_at).
Abbreviation handle :=
  (handleGatewayRequest (loc := loc) env presets sider_expired serve raw clk coze VerifyJSONSig boot fed visit
     host_of ParseIP LookupHost remote now tried_at).

(** ** Forwarding *)

(** What forwarding leaves alone. *)
Definition same_but_table (g g' : gateway) : Prop :=
  gw_node g' = gw_node g ∧ gw_config g' = gw_config g ∧ gw_contrib g' = gw_contrib g ∧ gw_seen g' = gw_seen g.

(** A request may go to the node of [e], at [addr]. *)
Definition may_send (self : string) (es : list RouteEntry) (sent : string * string) : Prop :=
  ∃ e, e ∈ es ∧ r_NodeID e = sent.1 ∧ sent.1 ≠ self ∧
    sent.2 = pickBestAddress (r_Addresses e) ∧ has_prefix "https://" sent.2 = true ∧
    ∃ host, host_of sent.2 = Some host ∧ public_host ParseIP LookupHost host.

Lemma forward_target_ok e addr :
  forward_target host_of ParseIP LookupHost e = Some addr →
  addr = pickBestAddress (r_Addresses e) ∧ has_prefix "https://" addr = true ∧
  ∃ host, host_of addr = Some host ∧ public_host ParseIP LookupHost host.
Proof.
  unfold forward_target. cbv zeta. case_bool_decide; [done|].
  destruct (has_prefix "https://" _) eqn:E; [cbn [negb]|done].
  destruct (host_of _) as [h|] eqn:Eh; [|done]. destruct (relayTargetBlocked _ _ h) eqn:Eb; [done|].
  intros [= <-]. split_and!; [done..|]. exists h. split; [done|]. by apply unblocked_public.
Qed.

(** What [client.Do] makes of a request to [addr]: the redirects followed, and the last answer. *)
Abbreviation exchange i addr := (client_do maxRedirects (remote i) 0 addr true).

Lemma client_do_few n server k url body : (length (client_do n server k url body).1 ≤ n)%nat.
Proof.
  revert k url body. induction n as [|n IH]; intros k url body; cbn [client_do].
  - destruct (server k url) as [| |s l]; cbn; [lia..|]. destruct (is_redirect s); [destruct l|]; cbn; lia.
  - destruct (server k url) as [| |s l]; cbn; [lia..|]. destruct (is_redirect s); [destruct l as [| |u]|]; cbn; try lia.
    specialize (IH (S k) u (body && keeps_body s)). destruct (client_do n server (S k) u _) as [urls a]. cbn in *. lia.
Qed.

(** No first answer redirects. *)
Definition no_redirects : Prop := ∀ i url s l, remote i 0%nat url = RemoteStatus s l → is_redirect s = false.

Lemma client_do_plain n i url body : no_redirects → (client_do n (remote i) 0 url body).1 = [].
Proof.
  intros Hn. destruct n; cbn [client_do]; destruct (remote i 0%nat url) as [| |s l] eqn:E; try done;
    by rewrite (Hn _ _ _ _ E).
Qed.

(** The redirects followed in an attempt on the node of [e]. *)
Definition followed (e : RouteEntry) (i : nat) (addr : string) : list (string * string * bool) :=
  (λ u, (r_NodeID e, u.1, u.2)) <$> (exchange i addr).1.

(** How one attempt ends: answered, or failed after the node was asked or before. *)
Inductive attempt (e : RouteEntry) (i : nat) (g g' : gateway) : option Z → Prop :=
  | NotAsked : g' = g → attempt e i g g' None
  | Unbuilt : g' = g → attempt e i g g' (Some 500)
  | Failing addr : forward_target host_of ParseIP LookupHost e = Some addr →
      gw_sent g' = gw_sent g ++ [(r_NodeID e, addr)] →
      gw_redirected g' = gw_redirected g ++ followed e i addr →
      gw_routes g' = (λ rt, (RecordFail (tried_at i) (r_NodeID e) rt).2) <$> gw_routes g →
      same_but_table g g' → attempt e i g g' None
  | Answered addr s l : forward_target host_of ParseIP LookupHost e = Some addr →
      (exchange i addr).2 = RemoteStatus s l → retryable s = false →
      gw_sent g' = gw_sent g ++ [(r_NodeID e, addr)] →
      gw_redirected g' = gw_redirected g ++ followed e i addr → gw_routes g' = gw_routes g →
      same_but_table g g' → attempt e i g g' (Some s).

Lemma try_one_attempt i e model g :
  let '(s, g') := try_one i e model g in attempt e i g g' s.
Proof.
  unfold gatewayForwardToRemote. destruct (forward_target _ _ _ e) as [addr|] eqn:Et; [|by constructor].
  assert (Hgo : let '(s, g') := let '(urls, a) := exchange i addr in
     relay_answered (loc := loc) tried_at i (r_NodeID e) model a (note_redirects (r_NodeID e) urls (note_sent (r_NodeID e) addr g))
     in attempt e i g g' s).
  { destruct (exchange i addr) as [urls a] eqn:Ex.
    assert (followed e i addr = (λ u, (r_NodeID e, u.1, u.2)) <$> urls) as Hf by (unfold followed; by rewrite Ex).
    unfold relay_answered. destruct a as [| |s l]; [by apply (Failing _ _ _ _ addr); [..|cbn; rewrite Hf| |]..|].
    destruct (retryable s) eqn:Es; [by apply (Failing _ _ _ _ addr); [..|cbn; rewrite Hf| |]|].
    apply (Answered _ _ _ _ addr s l); try done; [by rewrite Ex|..]; destruct (s <? 400); cbn; by rewrite ?Hf. }
  destruct (remote i 0%nat addr); [by constructor|exact Hgo|exact Hgo].
Qed.

(** The failures recorded for the nodes asked. *)
Definition record_fails (fails : list (Time * string)) (rt : RouteTable) : RouteTable :=
  foldl (λ rt f, (RecordFail f.1 f.2 rt).2) rt fails.

(** What trying nodes in order does. *)
Record forwarded (self : string) (es : list RouteEntry) (g g' : gateway) (served : option (string * Z))
    (sent : list (string * string)) : Prop := {
  f_sent : gw_sent g' = gw_sent g ++ sent;
  f_targets : Forall (may_send self es) sent;
  f_count : (length sent ≤ length es)%nat;
  f_same : same_but_table g g';
  f_redirects : ∃ rs, gw_redirected g' = gw_redirected g ++ rs ∧ (length rs ≤ maxRedirects * length sent)%nat ∧
    Forall (λ x, x.1.1 ∈ sent.*1) rs ∧ (no_redirects → rs = []);
  f_fails : ∃ fails, gw_routes g' = record_fails fails <$> gw_routes g ∧
    match served with
    | Some (id, s) => ((fails.*2 = sent.*1 ∧ s = 500) ∨
                       (∃ addr, sent.*1 = fails.*2 ++ [id] ∧ last sent = Some (id, addr) ∧
                         ∃ i l, (exchange i addr).2 = RemoteStatus s l ∧ retryable s = false)) ∧
                      ∃ e, e ∈ es ∧ r_NodeID e = id ∧ id ≠ self
    | None => fails.*2 = sent.*1
    end }.

Lemma record_fails_none (rt : option RouteTable) : record_fails [] <$> rt = rt.
Proof. by destruct rt. Qed.

Lemma no_redirects_yet g sent : ∃ rs, gw_redirected g = gw_redirected g ++ rs ∧
  (length rs ≤ maxRedirects * length (sent : list (string * string)))%nat ∧ Forall (λ x, x.1.1 ∈ sent.*1) rs ∧
  (no_redirects → rs = []).
Proof. exists []. rewrite app_nil_r. split_and!; [done|cbn; lia|constructor|done]. Qed.

Lemma followed_ok e i addr : (length (followed e i addr) ≤ maxRedirects)%nat ∧
  Forall (λ x, x.1.1 = r_NodeID e) (followed e i addr) ∧ (no_redirects → followed e i addr = []).
Proof.
  unfold followed. rewrite length_fmap. split_and!; [apply client_do_few|by apply Forall_fmap, Forall_forall|].
  intros Hn. by rewrite client_do_plain.
Qed.

Lemma may_send_cons self e es x : may_send self es x → may_send self (e :: es) x.
Proof. intros (e' & Hin & Hr). exists e'. split; [by right|done]. Qed.

Lemma forwarded_skip self e es g g' served sent :
  forwarded self es g g' served sent → forwarded self (e :: es) g g' served sent.
Proof.
  intros [H1 H2 H3 H4 Hrs (fails & H5 & H6)]. split; [done| |cbn; lia|done|done|].
  - eapply Forall_impl; [exact H2|]. apply may_send_cons.
  - exists fails. split; [done|]. destruct served as [[id s]|]; [|done]. destruct H6 as [H6 (e' & ? & ?)].
    split; [done|]. exists e'. split; [by right|done].
Qed.

Lemma failover_spec i es self model g :
  let '(served, g') := failover i es self model g in ∃ sent, forwarded self es g g' served sent.
Proof.
  revert i g. induction es as [|e es IH]; intros i g; cbn [gatewayForwardFailover].
  { exists []. split; [by rewrite app_nil_r|constructor|done|done|apply no_redirects_yet|]. exists []. by rewrite record_fails_none. }
  case_bool_decide as Hself.
  { specialize (IH (S i) g). destruct (failover (S i) es self model g) as [served g'].
    destruct IH as [sent Hf]. exists sent. by apply forwarded_skip. }
  pose proof (try_one_attempt i e model g) as Ha. destruct (try_one i e model g) as [s g1].
  assert (Hmay : ∀ addr, forward_target host_of ParseIP LookupHost e = Some addr →
    may_send self (e :: es) (r_NodeID e, addr)).
  { intros addr Ht. apply forward_target_ok in Ht as (-> & Hh). exists e. split; [left|]. by split. }
  destruct Ha as [->| ->|addr Ht Hs Hd Hr Hb|addr s l Ht Hr Hn Hs Hd Htab Hb].
  - specialize (IH (S i) g). destruct (failover (S i) es self model g) as [served g'].
    destruct IH as [sent Hf]. exists sent. by apply forwarded_skip.
  - exists []. split; [by rewrite app_nil_r|constructor|cbn; lia|done|apply no_redirects_yet|]. exists [].
    rewrite record_fails_none. split; [done|]. split; [by left|]. exists e. split; [left|done].
  - specialize (IH (S i) g1). destruct (failover (S i) es self model g1) as [served g'].
    destruct IH as [sent Hf]. exists ((r_NodeID e, addr) :: sent).
    pose proof (f_count _ _ _ _ _ _ Hf) as Hc. apply (forwarded_skip self e) in Hf. destruct Hf as [H1 H2 H3 H4 (rs & R1 & R2 & R3 & R4) (fails & H5 & H6)]. split.
    + by rewrite H1, Hs, <- app_assoc.
    + constructor; [by apply Hmay|done].
    + cbn. lia.
    + destruct Hb as (B1 & B2 & B3 & B4), H4 as (C1 & C2 & C3 & C4). unfold same_but_table.
      by rewrite C1, C2, C3, C4.
    + destruct (followed_ok e i addr) as (L1 & L2 & L3). exists (followed e i addr ++ rs). split_and!.
      * by rewrite R1, Hd, app_assoc.
      * rewrite length_app. cbn [length]. unfold maxRedirects in *. lia.
      * apply Forall_app. split; (eapply Forall_impl; [eassumption|]); cbn; intros x Hx; [rewrite Hx; left|by right].
      * intros Hn. by rewrite L3, R4.
    + exists ((tried_at i, r_NodeID e) :: fails). split; [rewrite H5, Hr; by destruct (gw_routes g)|].
      destruct served as [[id s]|]; cbn; [|by rewrite H6]. destruct H6 as [H6 He]. split; [|done].
      destruct H6 as [(E1 & E2)|(a & E1 & Hl & Hi)]; [left; by rewrite E1, E2|]. right. exists a. rewrite E1.
      split; [done|]. split; [|done]. by destruct sent.
  - exists [(r_NodeID e, addr)]. split; [done|by constructor; [apply Hmay|]|cbn; lia|done| |].
    { destruct (followed_ok e i addr) as (L1 & L2 & L3). exists (followed e i addr). split_and!; [done|unfold maxRedirects in *; cbn; lia| |done].
      eapply Forall_impl; [exact L2|]. cbn. intros x ->. left. }
    exists []. rewrite record_fails_none. split; [done|]. split; [|exists e; split; [left|done]].
    right. exists addr. split; [done|]. split; [done|]. by exists i, l.
Qed.
(** ** The nodes a request may be forwarded to *)

Lemma ranked_in self model limit es e :
  e ∈ SelectRankedNodes now self model limit es → e ∈ es ∧ eligible now model e.
Proof.
  unfold SelectRankedNodes. cbv zeta. rewrite eligible_filter. set (ranked := sort_stable _ _). intros He.
  assert (Hr : e ∈ ranked) by (destruct (_ && _)%bool; [|done]; rewrite <- (take_drop (Z.to_nat limit) ranked); apply elem_of_app; by left).
  unfold ranked in Hr. rewrite sort_stable_perm in Hr. by apply list_elem_of_filter in Hr as [? ?].
Qed.

Lemma ranked_few self model es :
  (length (SelectRankedNodes now self model (Z.of_nat gatewayFailoverMaxCandidates) es) ≤ 3)%nat.
Proof.
  unfold SelectRankedNodes, gatewayFailoverMaxCandidates. cbv zeta. set (ranked := sort_stable _ _).
  destruct (_ && _)%bool eqn:E; [rewrite length_take; lia|].
  apply andb_false_iff in E as [E|E]; [done|]. apply Z.ltb_ge in E. lia.
Qed.

(** A guest key may only be forwarded when its node lets it into the public pool. *)
Definition may_leave (key : string) (g : gateway) : Prop :=
  ClassifyKey key = KeyTypeGuest →
  ∃ node, GetGuestKeyAccessPublicPool now (gw_shared g) key (n_keys (gw_node g)) = Some (node, true).

Lemma candidates_in model key g :
  let es := gateway_candidates visit now model key g in
  (length es ≤ 3)%nat ∧ (es ≠ [] → may_leave key g) ∧
  ∀ e, e ∈ es → ∃ rt, gw_routes g = Some rt ∧ e ∈ visit (entries rt) ∧ eligible now model e.
Proof.
  unfold gateway_candidates, may_leave. cbv zeta.
  destruct (bool_decide (ClassifyKey key = KeyTypeGuest) && _)%bool eqn:E.
  { split; [cbn; lia|]. split; [done|]. by intros e ?%not_elem_of_nil. }
  split; [|split].
  - destruct (gw_routes g) as [rt|]; [|cbn; lia]. destruct (bool_decide (model = "")); [cbn; lia|]. apply ranked_few.
  - intros _ Hk. rewrite bool_decide_eq_true_2 in E by done. cbn [andb] in E. apply negb_false_iff in E.
    destruct (GetGuestKeyAccessPublicPool _ _ _ _) as [[nd []]|]; [by exists nd|done..].
  - intros e He. destruct (gw_routes g) as [rt|]; [|by apply not_elem_of_nil in He].
    destruct (bool_decide (model = "")); [by apply not_elem_of_nil in He|]. exists rt. split; [done|]. by eapply ranked_in.
Qed.

(** What serving a request here leaves alone. *)
Lemma fallback_frame charged reserved model r g :
  let '(o, g') := fallback charged reserved model r g in
  gw_sent g' = gw_sent g ∧ gw_routes g' = gw_routes g ∧ gw_contrib g' = gw_contrib g ∧
  gw_redirected g' = gw_redirected g.
Proof.
  unfold handleGatewayFallback. cbv zeta. destruct (_ || _)%bool.
  { by destruct (handleChatCompletions _ _ _ _ _ _ _ _). }
  case_bool_decide; [done|]. case_bool_decide; [|done]. by destruct (handleRawPassthrough _ _ _ _ _ _ _) as [[] ?].
Qed.

Lemma dispatch_spec charged reserved b r g :
  let '(o, g') := dispatched charged reserved b r g in
  ∃ served sent g1,
    forwarded (gw_self g) (gateway_candidates visit now (b_model b) (g_bearer r) g) g g1 served sent ∧
    match served with
    | Some (id, s) => o = ServedBy id s ∧ g' = g1
    | None => (o, g') = fallback charged reserved (b_model b) r g1
    end.
Proof.
  unfold dispatch. set (es := gateway_candidates _ _ _ _ _).
  assert (Hnone : forwarded (gw_self g) es g g None []).
  { split; [by rewrite app_nil_r|constructor|cbn; lia|done|apply no_redirects_yet|]. exists []. by rewrite record_fails_none. }
  assert (Hlocal : let '(o, g') := fallback charged reserved (b_model b) r g in
    ∃ served sent g1, forwarded (gw_self g) es g g1 served sent ∧
    match served with
    | Some (id, s) => o = ServedBy id s ∧ g' = g1
    | None => (o, g') = fallback charged reserved (b_model b) r g1
    end).
  { destruct (fallback charged reserved (b_model b) r g) as [o g'] eqn:E. by exists None, [], g. }
  destruct es as [|e es'] eqn:Ees; [exact Hlocal|]. case_bool_decide; [exact Hlocal|].
  rewrite <- Ees in *. pose proof (failover_spec 0 es (gw_self g) (b_model b) g) as Hf.
  destruct (failover 0 es (gw_self g) (b_model b) g) as [[[id s]|] g1]; destruct Hf as [sent Hf].
  - by exists (Some (id, s)), sent, g1.
  - destruct (fallback _ _ _ _ g1) as [o g'] eqn:E. by exists None, sent, g1.
Qed.
(** ** The stages of the handler *)

(** What decides where a request may go is the same in both states. *)
Definition same_view (g g' : gateway) : Prop :=
  gw_sent g' = gw_sent g ∧ gw_routes g' = gw_routes g ∧ gw_config g' = gw_config g ∧
  n_keys (gw_node g') = n_keys (gw_node g) ∧ gw_redirected g' = gw_redirected g.

Lemma view_candidates model key g g' :
  same_view g g' → gateway_candidates visit now model key g' = gateway_candidates visit now model key g.
Proof. intros (_ & E2 & E3 & E4 & _). unfold gateway_candidates, gw_self, gw_shared. by rewrite E2, E3, E4. Qed.

Lemma metered_spec b r g :
  let '(o, g') := settled b r g in
  (o = Rejected 429 ∧ same_view g g') ∨
  ∃ charged reserved g0 g1, dispatched charged reserved b r g0 = (o, g1) ∧ same_view g g0 ∧
    gw_sent g' = gw_sent g1 ∧ gw_routes g' = gw_routes g1 ∧ gw_redirected g' = gw_redirected g1.
Proof.
  unfold metered. cbv zeta. destruct (negb _).
  { destruct (dispatched false None b r g) as [o g1] eqn:E. right. by exists false, None, g, g1. }
  destruct (ContribQuota.tryContributorDraw _ _ _ _) as [draw t]. destruct (ContribQuota.d_OK draw).
  { destruct (dispatched true None b r _) as [o g1] eqn:E. right. by exists true, None, (set_contrib t g), g1. }
  cbn [gw_node set_contrib]. destruct (n_public (gw_node g)) as [q|].
  2:{ destruct (dispatched false None b r _) as [o g1] eqn:E. right. by exists false, None, (set_contrib t g), g1. }
  destruct (ReserveQuota _ _ _ _ _) as [[[ok ?] ?] q']. destruct ok; cbn [negb]; [|by left].
  match goal with |- context [dispatched true ?e b r ?g0] => destruct (dispatched true e b r g0) as [o g1] eqn:E end.
  right. by eexists _, _, _, g1.
Qed.

Lemma handle_gate r g :
  let '(o, g') := handle r g in
  (∃ s seen, o = Rejected s ∧ g' = set_seen seen g) ∨
  ∃ b hop v seen, g_body r = Some b ∧ hop_count (g_hop r) = Some hop ∧ hop < maxRelayHops ∧
    verifyRelayForwardAuth VerifyJSONSig boot now now fed (g_relay r) (gw_seen g) = (v, seen) ∧ v.1 = 0 ∧
    (o, g') = settled b r (set_seen seen.2 g).
Proof.
  assert (Hr : ∀ s, (∃ s' seen, Rejected s = Rejected s' ∧ g = set_seen seen g)).
  { intros s. exists s, (gw_seen g). split; [done|]. by destruct g. }
  unfold handleGatewayRequest. destruct (hop_count (g_hop r)) as [hop|] eqn:Eh; [|by left].
  destruct (Z.leb_spec maxRelayHops hop) as [|Hhop]; [by left|].
  destruct (g_read r); [by left..|]. destruct (_ <? _)%nat; [by left|].
  destruct (verifyRelayForwardAuth _ _ _ _ _ _ _) as [[status msg] [r' seen]] eqn:Ev.
  destruct (Z.eqb_spec status 0) as [->|]; cbn [negb]; [|left; by exists status, seen].
  destruct (g_body r) as [b|] eqn:Eb; [|left; by eexists _, seen].
  destruct (256 <? _)%nat; [left; by eexists _, seen|].
  destruct (within_boundary _ _ _); cbn [negb]; [|left; by eexists _, seen].
  destruct (settled b r (set_seen seen g)) as [o g'] eqn:Em. right.
  by exists b, hop, (0, msg), (r', seen).
Qed.

(** The whole handler, of what is sent to other nodes. *)
Record sends (r : gateway_request) (g g' : gateway) (o : outcome) : Prop := {
  s_path : ∃ served sent model g0 g1, same_view g g0 ∧
    forwarded (gw_self g) (gateway_candidates visit now model (g_bearer r) g) g0 g1 served sent ∧
    gw_sent g' = gw_sent g1 ∧ gw_routes g' = gw_routes g1 ∧ gw_redirected g' = gw_redirected g1 ∧
    (sent ≠ [] → ∃ hop b, hop_count (g_hop r) = Some hop ∧ hop < maxRelayHops ∧ g_body r = Some b ∧ b_model b = model) ∧
    match served with Some (id, s) => o = ServedBy id s | None => True end }.

Lemma handle_sends r g : let '(o, g') := handle r g in sends r g g' o.
Proof.
  pose proof (handle_gate r g) as Hg. destruct (handle r g) as [o g'].
  assert (Hnone : same_view g g' → sends r g g' o).
  { intros Hv. split. exists None, [], "", g, g. destruct Hv as (E1 & E2 & _ & _ & E3). split_and!; try done.
    split; [by rewrite app_nil_r|constructor|cbn; lia|done|apply no_redirects_yet|]. exists []. by rewrite record_fails_none. }
  destruct Hg as [(s & seen & -> & ->)|(b & hop & v & seen & Hb & Hh & Hlt & _ & _ & Hs)]; [by apply Hnone|].
  pose proof (metered_spec b r (set_seen seen.2 g)) as Hm. rewrite <- Hs in Hm.
  destruct Hm as [[-> Hv]|(charged & reserved & g0 & g1 & Hd & Hv & E1 & E2 & Er)]; [by apply Hnone|].
  pose proof (dispatch_spec charged reserved b r g0) as Hd'. rewrite Hd in Hd'.
  destruct Hd' as (served & sent & g2 & Hf & Hrest).
  rewrite (view_candidates _ _ (set_seen seen.2 g) g0 Hv) in Hf.
  assert (Hself : gw_self g0 = gw_self g) by (unfold gw_self; by rewrite (proj1 (proj2 (proj2 Hv)))). rewrite Hself in Hf.
  assert (E3 : gw_sent g1 = gw_sent g2 ∧ gw_routes g1 = gw_routes g2 ∧ gw_redirected g1 = gw_redirected g2 ∧
    match served with Some (id, s) => o = ServedBy id s | None => True end).
  { destruct served as [[id s]|]; [destruct Hrest as [-> ->]; done|].
    pose proof (fallback_frame charged reserved (b_model b) r g2) as Hfr. rewrite <- Hrest in Hfr.
    by destruct Hfr as (? & ? & _ & ?). }
  destruct E3 as (E3 & E4 & E6 & E5). split. exists served, sent, (b_model b), g0, g2. split_and!; try done.
  - by rewrite E1, E3.
  - by rewrite E2, E4.
  - by rewrite Er, E6.
  - intros _. by exists hop, b.
Qed.
(** C23. A request is only forwarded where it may go: at most three nodes are asked, in order, each one
    an unexpired node of the route table that offers the model, failed less than three times and is
    not this node, at its best address, which is https with a host that is a public address or a name
    that resolved to public addresses only; a guest key bound to this node is never sent away; a failure
    is recorded for every node asked except the one whose answer is returned, and that answer is not
    one that sends the request to the next node. Beyond these requests there are only those the nodes
    asked redirect to, at most nine for each of them, and none when no node redirects; where a redirect
    leads is not checked. *)
Theorem forwards_are_safe r g :
  let '(o, g') := handle r g in
  ∃ sent fails model rs, gw_sent g' = gw_sent g ++ sent ∧ (length sent ≤ 3)%nat ∧
    Forall (λ x, ∃ rt e, gw_routes g = Some rt ∧ e ∈ visit (entries rt) ∧ eligible now model e ∧
                 r_NodeID e = x.1 ∧ x.1 ≠ gw_self g ∧ x.2 = pickBestAddress (r_Addresses e) ∧
                 has_prefix "https://" x.2 = true ∧
                 ∃ host, host_of x.2 = Some host ∧ public_host ParseIP LookupHost host) sent ∧
    (sent ≠ [] → may_leave (g_bearer r) g) ∧
    gw_routes g' = record_fails fails <$> gw_routes g ∧
    (fails.*2 = sent.*1 ∨ ∃ id s, o = ServedBy id s ∧ sent.*1 = fails.*2 ++ [id] ∧ retryable s = false) ∧
    gw_redirected g' = gw_redirected g ++ rs ∧ (length rs ≤ maxRedirects * length sent)%nat ∧
    Forall (λ x, x.1.1 ∈ sent.*1) rs ∧ (no_redirects → rs = []).
Proof.
  pose proof (handle_sends r g) as Hs. destruct (handle r g) as [o g'].
  destruct Hs as [(served & sent & model & g0 & g1 & (V1 & V2 & _ & _ & V5) &
    [F1 F2 F3 _ (rs & R1 & R2 & R3 & R4) (fails & F5 & F6)] & E1 & E2 & E3 & _ & E4)].
  destruct (candidates_in model (g_bearer r) g) as (C1 & C2 & C3).
  exists sent, fails, model, rs. split_and!; [| | | | | | |done|done|done].
  - by rewrite E1, F1, V1.
  - lia.
  - eapply Forall_impl; [exact F2|]. intros x (e & He & Hrest). destruct (C3 e He) as (rt & ? & ? & ?).
    exists rt, e. split; [done|]. split; [done|]. split; [done|exact Hrest].
  - intros Hne. apply C2. intros Hnil. rewrite Hnil in F3. by destruct sent; cbn in F3; [|lia].
  - by rewrite E2, F5, V2.
  - destruct served as [[id s]|]; [|by left]. destruct F6 as [[[? _]|(addr & Hl & _ & i & l & _ & Hr)] _]; [by left|].
    right. by exists id, s.
  - by rewrite E3, R1, V5.
Qed.
(** ** Hops *)

(** A node that got a request with the hop header [h] sent it on with [h']. *)
Definition relayed (h h' : string) : Prop :=
  ∃ r g, g_hop r = h ∧ gw_sent (handle r g).2 ≠ gw_sent g ∧ forwarded_hop r = Some h'.

Lemma next_hop_count hop : 0 ≤ hop < maxRelayHops → hop_count (next_hop hop) = Some (hop + 1).
Proof.
  intros Hh. unfold maxRelayHops in Hh. unfold next_hop. rewrite wrap64_id by (unfold is_int64; lia). unfold hop_count.
  assert (Hd : parse_int64 (dec (hop + 1)) = Some (hop + 1)) by (apply parse_int64_dec; lia).
  rewrite bool_decide_eq_false_2; [rewrite Hd; cbn; f_equal; lia|].
  intros E. by rewrite E in Hd.
Qed.

Lemma relayed_hop h h' : relayed h h' → ∃ hop, hop_count h = Some hop ∧ 0 ≤ hop < maxRelayHops ∧
  hop_count h' = Some (hop + 1).
Proof.
  intros (r & g & <- & Hs & Hf). pose proof (handle_sends r g) as Hh. destruct (handle r g) as [o g'].
  destruct Hh as [(served & sent & model & g0 & g1 & (V1 & _) & Hfw & E1 & _ & _ & Hhop & _)].
  destruct Hhop as (hop & b & Hc & Hlt & _).
  { intros ->. apply Hs. cbn. by rewrite E1, (f_sent _ _ _ _ _ _ Hfw), app_nil_r. }
  assert (0 ≤ hop).
  { unfold hop_count in Hc. case_bool_decide; [by injection Hc as <-|].
    destruct (parse_int64 _) as [z|]; [|done]. injection Hc as <-. lia. }
  exists hop. split; [done|]. split; [lia|]. unfold forwarded_hop in Hf. rewrite Hc in Hf. injection Hf as <-.
  by apply next_hop_count.
Qed.

(** Forwarding ends: however nodes send a request on to each other, whatever hop count its first
    header claims, it is sent on at most three times; the fourth node that gets it serves or refuses it. *)
Theorem forwarding_ends hs :
  (∀ i (x y : string), hs !! i = Some x → hs !! S i = Some y → relayed x y) → (length hs ≤ 4)%nat.
Proof.
  intros Hc.
  assert (Hi : ∀ i (x y : string), hs !! i = Some x → hs !! S i = Some y →
    ∃ hop, hop_count y = Some hop ∧ Z.of_nat (S i) ≤ hop).
  { induction i as [|i IH]; intros a y Ha Hb; destruct (relayed_hop a y (Hc _ _ _ Ha Hb)) as (hop & Hop1 & Hop2 & Hop3).
    - exists (hop + 1). split; [done|lia].
    - destruct (hs !! i) as [x|] eqn:Ex; [|apply lookup_ge_None in Ex; apply lookup_lt_Some in Ha; lia].
      destruct (IH x a eq_refl Ha) as (hop' & E & Hle). rewrite Hop1 in E. injection E as <-.
      exists (hop + 1). split; [done|lia]. }
  destruct (Nat.le_gt_cases (length hs) 4) as [|Hlen]; [done|].
  destruct (lookup_lt_is_Some_2 hs 2) as [a Ha]; [lia|]. destruct (lookup_lt_is_Some_2 hs 3) as [y Hb]; [lia|].
  destruct (lookup_lt_is_Some_2 hs 4) as [c Hcc]; [lia|].
  destruct (Hi 2%nat a y Ha Hb) as (hop & Hop1 & Hop2).
  destruct (relayed_hop y c (Hc _ _ _ Hb Hcc)) as (hop' & Hop3 & Hop4 & _). rewrite Hop1 in Hop3. injection Hop3 as <-.
  unfold maxRelayHops in Hop4. lia.
Qed.

(** ** Contributors *)

Lemma dispatch_contrib charged reserved b r g :
  gw_contrib (dispatched charged reserved b r g).2 = gw_contrib g.
Proof.
  pose proof (dispatch_spec charged reserved b r g) as Hd.
  destruct (dispatched charged reserved b r g) as [o g']. destruct Hd as (served & sent & g1 & Hf & Hr).
  destruct (f_same _ _ _ _ _ _ Hf) as (_ & _ & Hc & _).
  destruct served as [[id s]|]; [destruct Hr as [_ ->]; done|].
  pose proof (fallback_frame charged reserved (b_model b) r g1) as Hfr. rewrite <- Hr in Hfr.
  destruct Hfr as (_ & _ & Hc' & _). by rewrite <- Hc.
Qed.

Lemma draw_contrib b r g :
  gw_contrib (settled b r g).2 = gw_contrib g ∨
  ClassifyKey (g_bearer r) = KeyTypePublic ∧
  gw_contrib (settled b r g).2 =
    (ContribQuota.tryContributorDraw now (node_header (g_relay r)) (gateway_estimate b) (gw_contrib g)).2.
Proof.
  unfold metered. cbv zeta. case_bool_decide as Hk; cbn [negb].
  2:{ left. apply dispatch_contrib. }
  right. split; [done|]. destruct (ContribQuota.tryContributorDraw _ _ _ _) as [draw t]. cbn [snd].
  destruct (ContribQuota.d_OK draw).
  { pose proof (dispatch_contrib true None b r (set_contrib t g)) as Hd.
    destruct (dispatched true None b r (set_contrib t g)) as [o g1]. cbn in Hd |- *. rewrite Hd.
    unfold ContribQuota.settle. destruct t as [es|]; [|done]. by destruct (negb _). }
  cbn [gw_node set_contrib]. destruct (n_public (gw_node g)) as [q|].
  2:{ apply (dispatch_contrib false None b r (set_contrib t g)). }
  destruct (ReserveQuota _ _ _ _ _) as [[[ok ?] ?] q']. destruct ok; cbn [negb]; [|done].
  match goal with |- context [dispatched true ?e b r ?g0] =>
    pose proof (dispatch_contrib true e b r g0) as Hd; destruct (dispatched true e b r g0) as [o g1] end.
  exact Hd.
Qed.

(** The row of a contributor. *)
Definition contributor (p : string) (g : gateway) : option ContribQuota.ContributionQuota :=
  t ← gw_contrib g; t !! p.

(** A contributor only pays for requests it signed: when the row of a contributor changes, the
    request came with the public key and names this contributor, it carries a signature that is good under
    the key the trust pool holds for it, or was verified before, and what is consumed grows by the estimate. *)
Theorem draws_are_signed r g p :
  let '(_, g') := handle r g in
  contributor p g' ≠ contributor p g →
  p = sender_id (g_relay r) ∧ ClassifyKey (g_bearer r) = KeyTypePublic ∧
  (rq_verified (g_relay r) = true ∨
   ∃ f nd, fed = Some f ∧ TrustPool.GetNode p f = Some nd ∧
     VerifyJSONSig (TrustPool.PubKey nd) (envelope (g_relay r)) (rq_sig (g_relay r)) = true) ∧
  ∃ b e e', g_body r = Some b ∧ contributor p g = Some e ∧ contributor p g' = Some e' ∧
    ContribQuota.ConsumedQuota e' = ContribQuota.ConsumedQuota e +! gateway_estimate b.
Proof.
  pose proof (handle_gate r g) as Hg. destruct (handle r g) as [o g']. intros Hp.
  destruct Hg as [(s & seen & -> & ->)|(b & hop & v & seen & Hb & _ & _ & Hv & Hv0 & Hs)]; [done|].
  pose proof (draw_contrib b r (set_seen seen.2 g)) as Hd. rewrite <- Hs in Hd. cbn [snd] in Hd.
  cbn [gw_contrib set_seen] in Hd. unfold contributor in Hp |- *.
  destruct Hd as [Hd|[Hk Hd]]; [by rewrite Hd in Hp|].
  unfold ContribQuota.tryContributorDraw in Hd. destruct (gw_contrib g) as [t|] eqn:Et; [|by rewrite Hd in Hp].
  destruct (_ <=? 0); [by rewrite Hd in Hp|].
  change (ContribQuota.verifiedContributorID (node_header (g_relay r))) with (sender_id (g_relay r)) in Hd.
  case_bool_decide as Hid; [by rewrite Hd in Hp|].
  unfold ContribQuota.Consume in Hd. rewrite (bool_decide_eq_false_2 _ Hid) in Hd. cbn [orb] in Hd.
  destruct (gateway_estimate b <=? 0); [by rewrite Hd in Hp|].
  destruct (t !! sender_id (g_relay r)) as [e|] eqn:Ee; [|by rewrite Hd in Hp].
  destruct (_ <? _); [by rewrite Hd in Hp|]. cbv zeta in Hd. cbn [snd] in Hd. rewrite Hd in Hp |- *. cbn in Hp |- *.
  assert (p = sender_id (g_relay r)) as ->.
  { destruct (decide (p = sender_id (g_relay r))); [done|]. by rewrite lookup_insert_ne in Hp. }
  split; [done|]. split; [done|]. split.
  - destruct (rq_verified (g_relay r)) eqn:Ev; [by left|]. right.
    pose proof (verify_accepts VerifyJSONSig boot now now fed (g_relay r) (gw_seen g) (conj Ev Hid)) as Ha.
    rewrite Hv in Ha. destruct v as [s m], seen as [r' c]. cbn in Hv0.
    destruct Ha as [(_ & f & pt & Hf & [(nd & Hn & Hsig) _ _ _] & _)|(? & _)]; [|done]. by exists f, nd.
  - eexists b, e, _. rewrite lookup_insert_eq. done.
Qed.
(** ** Metering of the public key *)

(** Sorting rearranges its input, also beyond twenty elements. *)
Context (sort_permutes : ∀ less cs, merge_blocks env less cs ≡ₚ cs).

(** A chat request with messages, for a model the chat handler serves itself, with the public key. *)
Record public_chat (r : gateway_request) : Prop := {
  pc_messages : q_messages (g_chat r) ≠ 0%nat; pc_model : has_prefix "coze-" (q_model (g_chat r)) = false;
  pc_internal : internalKeyType (q_cred (g_chat r)) = ""; pc_role : role (q_cred (g_chat r)) ≠ "admin";
  pc_key : ClassifyKey (g_bearer r) = KeyTypePublic }.

Lemma public_type t shared ks r : public_chat r → RequestKeyType t shared ks (q_cred (g_chat r)) = "public".
Proof.
  intros [_ _ Hi Hr Hk]. unfold RequestKeyType. rewrite Hi, (bool_decide_eq_false_2 _ Hr). cbn [negb].
  rewrite bool_decide_eq_true_2 by done. cbn [negb]. unfold g_bearer in Hk. by rewrite Hk.
Qed.

(** What a request costs when it is served here under a reservation of [e]. *)
Definition local_cost (e : Z) (r : gateway_request) (n n' : chat_node) (a : answer) : Prop :=
  (status a = 200 → cost_at e (g_chat r) n n' a (default e (handoff a))) ∧
  (status a = 502 → handoff a = Some 0) ∧
  0 ≤ default e (handoff a) < 2 ^ 60 ∧ (status a ≠ 200 → handoff a = None ∨ handoff a = Some 0).

Lemma local_public e r n :
  public_chat r → keyed (n_providers n) → sensible serve → 0 < e < 2 ^ 60 → is_Some (n_public n) →
  let '(a, n') := handleChatCompletions (loc := loc) env presets sider_expired serve clk coze
                    (local_request true (Some e) r) n in
  n_public n' = n_public n ∧ local_cost e r n n' a.
Proof using sort_permutes.
  intros Hp Hk Hs He Hn. set (q := local_request true (Some e) r).
  pose proof (handle_spec env presets sider_expired serve clk coze sort_permutes q n Hk (pc_messages _ Hp) (pc_model _ Hp)) as Hh.
  cbv zeta in Hh. change (q_cred q) with (q_cred (g_chat r)) in Hh. rewrite (public_type _ _ _ _ Hp) in Hh.
  destruct (handleChatCompletions _ _ _ _ _ _ q n) as [a n']. destruct Hh as [v Hv]. split.
  - pose proof (h_public _ _ _ _ _ _ _ _ _ Hv) as Hpub. unfold reserve_public in Hpub.
    destruct (n_public n) as [q0|] eqn:Eq; [|by destruct Hn]. cbn in Hpub. by rewrite Hpub.
  - pose proof (h_reported _ _ _ _ _ _ _ _ _ Hv) as Hrep. pose proof (h_handoff _ _ _ _ _ _ _ _ _ Hv) as Hoff.
    pose proof (h_status _ _ _ _ _ _ _ _ _ Hv) as Hst.
    pose proof (settled_range presets serve clk e q _ _ _ _ _ Hs He Hv) as Hrange.
    pose proof (handled_cost presets serve clk coze e q _ _ _ _ _ Hs Hv) as Hcost. cbn in Hrep, Hoff.
    assert (Hzero : status a ≠ 200 → settled_at e v = 0).
    { intros H2. destruct v as [| |]; [exfalso; apply H2, Hst; tauto..|done]. }
    split; [|split; [|split]].
    + intros H2. by rewrite (Hrep (or_introl H2)).
    + intros H2. rewrite (Hrep (or_intror H2)) by done. by rewrite Hzero by (rewrite H2; done).
    + destruct Hoff as [-> | ->]; cbn; lia.
    + intros H2. destruct Hoff as [-> | ->]; [by left|]. right. by rewrite Hzero.
Qed.
(** How an outcome is charged, of a reservation of [e]. *)
Definition outcome_cost (e : Z) (r : gateway_request) (n n' : chat_node) (o : outcome) : Prop :=
  match o with
  | Rejected s => s = 404 ∨ s = 501
  | ServedLocally a => local_cost e r n n' a
  | ServedRaw _ | ServedBy _ _ => True
  end.

Lemma fallback_public e model r g :
  public_chat r → keyed (n_providers (gw_node g)) → sensible serve → 0 < e < 2 ^ 60 →
  is_Some (n_public (gw_node g)) →
  let '(o, g') := fallback true (Some e) model r g in
  n_public (gw_node g') = n_public (gw_node g) ∧ outcome_cost e r (gw_node g) (gw_node g') o.
Proof using sort_permutes.
  intros Hp Hk Hs He Hn. unfold handleGatewayFallback. cbv zeta. destruct (_ || _)%bool.
  { pose proof (local_public e r (gw_node g) Hp Hk Hs He Hn) as Hl.
    by destruct (handleChatCompletions _ _ _ _ _ _ _ _). }
  case_bool_decide; [split; [done|by right]|]. case_bool_decide; [|split; [done|by left]].
  pose proof (raw_frame env presets sider_expired raw clk (raw_request model r) (gw_node g)) as Hr.
  destruct (handleRawPassthrough _ _ _ _ _ _ _) as [[s|] n']; destruct Hr as (_ & Hr & _);
    (split; [exact Hr|]); [done|by right].
Qed.

Lemma dispatch_public e b r g :
  public_chat r → keyed (n_providers (gw_node g)) → sensible serve → 0 < e < 2 ^ 60 →
  is_Some (n_public (gw_node g)) →
  let '(o, g') := dispatched true (Some e) b r g in
  n_public (gw_node g') = n_public (gw_node g) ∧ outcome_cost e r (gw_node g) (gw_node g') o.
Proof using sort_permutes.
  intros Hp Hk Hs He Hn. pose proof (dispatch_spec true (Some e) b r g) as Hd.
  destruct (dispatched true (Some e) b r g) as [o g']. destruct Hd as (served & sent & g1 & Hf & Hr).
  destruct (f_same _ _ _ _ _ _ Hf) as (Hnode & _).
  destruct served as [[id s]|]; [destruct Hr as [-> ->]; by rewrite Hnode|].
  pose proof (fallback_public e (b_model b) r g1) as Hfb. rewrite <- Hr, Hnode in Hfb. by apply Hfb.
Qed.

Lemma reported_range e r n n' o : 0 < e < 2 ^ 60 → outcome_cost e r n n' o → 0 ≤ reported e o < 2 ^ 60.
Proof. intros He. destruct o as [s|a|s|id s]; cbn; [lia| |lia|lia]. intros (_ & _ & H1 & _). exact H1. Qed.

End gateway_safety.

(** ** A node at work *)

Section example.
#[local] Existing Instance LedgerChain.plain_env.
#[local] Instance utc : Location := UTC.

Definition gateway_node (rt : option RouteTable) (t : option ContribQuota.entries) : gateway := {|
  gw_node := demo_node; gw_routes := rt; gw_contrib := t; gw_ledger := None; gw_seen := ∅; gw_sent := []; gw_redirected := [];
  gw_config := Some (Network.with_level Network.NetworkModeShared true false
                       (Network.with_identity true "here" "node-7" Network.default_config)) |}.

Definition gateway_forward (hop node : string) (verified : bool) : gateway_request := {|
  g_hop := hop; g_read := BodyRead; g_ip := "1.2.3.4"; g_chat := demo_request; g_json := None;
  g_body := Some {| b_model := "m"; b_stream := false; b_max_tokens := Some 100 |};
  g_relay := {| rq_method := "POST"; rq_path := "/v1/chat/completions"; rq_body := "{}"; rq_NodeID := node;
                rq_NodeAuth := ""; rq_sig := "sig"; rq_ts := "2023-11-14T22:13:20Z"; rq_nonce := "";
                rq_verified := verified |} |}.

Definition remote_entry (id : string) : RouteEntry := {|
  r_NodeID := id; NodeName := id; r_Addresses := ["https://" +:+ id]; r_Status := "online"; r_Models := ["m"];
  LatencyMS := f_zero; LoadScore := f_zero; r_LastSeen := ten_fifty; FailCount := 0;
  UptimeScore := f_zero; IsGateway := false; IsSeed := false; r_UpdatedAt := ten_fifty; ReflexiveUDP := "";
  NATType := ""; DHTAddr := "" |}.
Definition two_nodes : RouteTable :=
  UpsertEntry (remote_entry "a") (UpsertEntry (remote_entry "b") (initRouteTable None)).

(** The first node asked is unavailable, the second one answers. *)
Definition second_answers (i k : nat) (url : string) : remote_answer :=
  match i with O => RemoteStatus 503 NoLocation | _ => RemoteStatus 200 NoLocation end.
(** Nodes have names that resolve to a public address. *)
Definition demo_ip (s : string) : option bytes := if bool_decide (s = "93.184.216.34") then Some [93; 184; 216; 34] else None.
Definition demo_lookup (s : string) : option (list string) := Some ["93.184.216.34"].

Definition any_order (m : gmap string RouteEntry) : list RouteEntry := (map_to_list m).*2.
Abbreviation gateway_handle := (handleGatewayRequest idle_env three_presets false demo_serve raw_up chat_clock demo_coze
  (λ _ _ _, true) 0 None any_order Some demo_ip demo_lookup second_answers ten_fifty (λ _, ten_fifty)).

Example forwarded_to_second :
  let '(o, g) := gateway_handle (gateway_forward "" "" false) (gateway_node (Some two_nodes) None) in
  o = ServedBy "b" 200 ∧ gw_sent g = [("a", "https://a"); ("b", "https://b")] ∧
  (λ rt, FailCount <$> entries rt !! "a") <$> gw_routes g = Some (Some 1) ∧
  globalUsedToday <$> n_public (gw_node g) = Some 100.
Proof. vm_compute. done. Qed.

(** (A defect.) The first node asked redirects with 307: the request, with its body, goes to an address inside
    the network of this node, and the answer of that address is what the client gets. *)
Example redirected_inside :
  let answers (i k : nat) (url : string) :=
    match k with O => RemoteStatus 307 (LocationURL "http://169.254.169.254/latest") | _ => RemoteStatus 200 NoLocation end in
  let '(o, g) := handleGatewayRequest idle_env three_presets false demo_serve raw_up chat_clock demo_coze
    (λ _ _ _, true) 0 None any_order Some demo_ip demo_lookup answers ten_fifty (λ _, ten_fifty)
    (gateway_forward "" "" false) (gateway_node (Some two_nodes) None) in
  o = ServedBy "a" 200 ∧ gw_redirected g = [("a", "http://169.254.169.254/latest", true)].
Proof. vm_compute. done. Qed.

Lemma forwarding_ends_witness : (length [""; "1"] ≤ 4)%nat.
Proof.
  apply (forwarding_ends idle_env three_presets false demo_serve raw_up chat_clock demo_coze (λ _ _ _, true) 0 None
    any_order Some demo_ip demo_lookup second_answers ten_fifty (λ _, ten_fifty)).
  intros [|[|i]] x y Hx Hy; cbn in Hx, Hy; try discriminate. injection Hx as <-. injection Hy as <-.
  exists (gateway_forward "" "" false), (gateway_node (Some two_nodes) None). split; [reflexivity|].
  split; [vm_compute; discriminate|vm_compute; reflexivity].
Defined.

Definition alice_account : ContribQuota.entries :=
  {["alice" := ContribQuota.refresh (ContribQuota.zero_quota "alice") 1000 1000 20 0]}.

Lemma draws_are_signed_witness :
  let g := gateway_node None (Some alice_account) in
  ContribQuota.ConsumedQuota <$> contributor "alice" (gateway_handle (gateway_forward "" "alice" true) g).2 = Some 120 ∧
  "alice" = sender_id (g_relay (gateway_forward "" "alice" true)).
Proof.
  cbv zeta. split; [vm_compute; reflexivity|].
  pose proof (draws_are_signed idle_env three_presets false demo_serve raw_up chat_clock demo_coze (λ _ _ _, true) 0 None
    any_order Some demo_ip demo_lookup second_answers ten_fifty (λ _, ten_fifty)
    (gateway_forward "" "alice" true) (gateway_node None (Some alice_account)) "alice") as Hd.
  assert (Hne : contributor "alice" (gateway_handle (gateway_forward "" "alice" true) (gateway_node None (Some alice_account))).2 ≠
    contributor "alice" (gateway_node None (Some alice_account))) by (vm_compute; discriminate).
  destruct (handleGatewayRequest _ _ _ _ _ _ _ _ _ _ _ _ _ _ _ _ _ _ _) as [o g'].
  exact (proj1 (Hd Hne)).
Defined.


(** A chat request no provider serves is refused, and keeps what the client said it would use at most; the
    same request refused without the gateway costs nothing. *)
Theorem refused_costs_estimate :
  let r := gateway_forward "" "" false in
  let q := {| q_cred := q_cred demo_request; q_messages := 1; q_model := "unknown"; q_max_tokens := Some 100;
              q_stream := false; q_client := "1.2.3.4"; q_consumer := ""; q_guest_key := ""; q_charged := false;
              q_handoff := None |} in
  let r := {| g_hop := g_hop r; g_read := g_read r; g_relay := g_relay r; g_json := None; g_ip := g_ip r; g_chat := q;
              g_body := Some {| b_model := "unknown"; b_stream := false; b_max_tokens := Some 100 |} |} in
  let '(o, g) := gateway_handle r (gateway_node None None) in
  let '(a, n) := handleChatCompletions idle_env three_presets false demo_serve chat_clock demo_coze q demo_node in
  o = ServedLocally (refuse 404) ∧ globalUsedToday <$> n_public (gw_node g) = Some 100 ∧
  a = refuse 404 ∧ globalUsedToday <$> n_public n = Some 0.
Proof. vm_compute. done. Qed.
End example.
