(* ===== verification/Auth.v ===== *)
(** * The administrator's account and sessions (auth.go, admin_auth.go, admin_collab.go)

    [Auth] keeps the administrator's password hash, the collaborators, the secrets of the
    session tokens and the two ways to reset the password. Hashing passwords (bcrypt) and
    signing tokens (JWT) are parameters with their documented laws; what [randomString]
    draws is an argument, and writing the file succeeds. *)

From S2P Require Import Prelude GoTime Providers GuestKeys.
From S2P Require Users.

(** ** Data (types.go) *)

Record AdminData := {
  ad_Username : string; ad_PasswordHash : string; ad_Email : string; ad_CreatedAt : string }.

Record Collaborator := {
  co_Username : string; co_PasswordHash : string; co_GuestKey : string; co_CreatedAt : string;
  LastLogin : string }.

Record SMTPConfig := {
  Host : string; Port : Z; sm_Username : string; Password : string; FromEmail : string; UseTLS : bool }.

Record ResetToken := { rt_Token : string; rt_Email : string; Expire : string; Used : bool }.

Record AdminStore := {
  Admin : AdminData; JWTSecret : string; JWTRefreshSecret : string; SMTP : SMTPConfig;
  Reset : option ResetToken; Initialized : bool; ResetCodeHash : string; ResetCodeExpires : string;
  Collaborators : list Collaborator }.

(** The data in memory and the last file written; [None] before the first. *)
Record Auth := { data : AdminStore; file : option AdminStore }.

(** The claims of a token the program reads or writes. *)
Record Claims := {
  c_sub : option string; c_exp : option Z; c_iat : option Z; c_iss : option string; c_type : option string }.

(** [bcrypt.GenerateFromPassword] (the salt is drawn by it; [None] is its error) and
    [bcrypt.CompareHashAndPassword]. *)
Class Bcrypt := {
  bcrypt_gen : string → string → option string;
  bcrypt_compare : string → string → bool }.

(** [SignedString] with HS256 and [jwt.Parse]; the key of a token is found from the signing
    method it names, and an expired token is an error. *)
Class JWT := {
  jwt_sign : string → Claims → option string;
  jwt_parse : (string → option string) → Time → string → option Claims }.

(** The family of [*jwt.SigningMethodHMAC]. *)
Definition is_hmac (alg : string) : bool :=
  bool_decide (alg = "HS256") || bool_decide (alg = "HS384") || bool_decide (alg = "HS512").
Definition hmac_key (secret alg : string) : option string := if is_hmac alg then Some secret else None.

(** ** Updates *)

Definition set_data (a : Auth) (d : AdminStore) : Auth := {| data := d; file := file a |}.
Definition with_admin (d : AdminStore) (x : AdminData) (i : bool) : AdminStore := {|
  Admin := x; JWTSecret := JWTSecret d; JWTRefreshSecret := JWTRefreshSecret d; SMTP := SMTP d;
  Reset := Reset d; Initialized := i; ResetCodeHash := ResetCodeHash d;
  ResetCodeExpires := ResetCodeExpires d; Collaborators := Collaborators d |}.
Definition with_secrets_ (d : AdminStore) (s r : string) : AdminStore := {|
  Admin := Admin d; JWTSecret := s; JWTRefreshSecret := r; SMTP := SMTP d;
  Reset := Reset d; Initialized := Initialized d; ResetCodeHash := ResetCodeHash d;
  ResetCodeExpires := ResetCodeExpires d; Collaborators := Collaborators d |}.
Definition with_smtp (d : AdminStore) (s : SMTPConfig) : AdminStore := {|
  Admin := Admin d; JWTSecret := JWTSecret d; JWTRefreshSecret := JWTRefreshSecret d; SMTP := s;
  Reset := Reset d; Initialized := Initialized d; ResetCodeHash := ResetCodeHash d;
  ResetCodeExpires := ResetCodeExpires d; Collaborators := Collaborators d |}.
Definition with_reset (d : AdminStore) (r : option ResetToken) : AdminStore := {|
  Admin := Admin d; JWTSecret := JWTSecret d; JWTRefreshSecret := JWTRefreshSecret d; SMTP := SMTP d;
  Reset := r; Initialized := Initialized d; ResetCodeHash := ResetCodeHash d;
  ResetCodeExpires := ResetCodeExpires d; Collaborators := Collaborators d |}.
Definition with_code (d : AdminStore) (h e : string) : AdminStore := {|
  Admin := Admin d; JWTSecret := JWTSecret d; JWTRefreshSecret := JWTRefreshSecret d; SMTP := SMTP d;
  Reset := Reset d; Initialized := Initialized d; ResetCodeHash := h;
  ResetCodeExpires := e; Collaborators := Collaborators d |}.
Definition with_collaborators (d : AdminStore) (l : list Collaborator) : AdminStore := {|
  Admin := Admin d; JWTSecret := JWTSecret d; JWTRefreshSecret := JWTRefreshSecret d; SMTP := SMTP d;
  Reset := Reset d; Initialized := Initialized d; ResetCodeHash := ResetCodeHash d;
  ResetCodeExpires := ResetCodeExpires d; Collaborators := l |}.
Definition with_hash (x : AdminData) (h : string) : AdminData := {|
  ad_Username := ad_Username x; ad_PasswordHash := h; ad_Email := ad_Email x;
  ad_CreatedAt := ad_CreatedAt x |}.
Definition with_email (x : AdminData) (e : string) : AdminData := {|
  ad_Username := ad_Username x; ad_PasswordHash := ad_PasswordHash x; ad_Email := e;
  ad_CreatedAt := ad_CreatedAt x |}.
Definition with_password (s : SMTPConfig) (p : string) : SMTPConfig := {|
  Host := Host s; Port := Port s; sm_Username := sm_Username s; Password := p;
  FromEmail := FromEmail s; UseTLS := UseTLS s |}.
Definition use_token (r : ResetToken) : ResetToken := {|
  rt_Token := rt_Token r; rt_Email := rt_Email r; Expire := Expire r; Used := true |}.

Definition default_smtp : SMTPConfig := {|
  Host := ""; Port := 587; sm_Username := ""; Password := ""; FromEmail := ""; UseTLS := true |}.
Definition default_store (secret refresh : string) : AdminStore := {|
  Admin := {| ad_Username := ""; ad_PasswordHash := ""; ad_Email := ""; ad_CreatedAt := "" |};
  JWTSecret := secret; JWTRefreshSecret := refresh; SMTP := default_smtp; Reset := None;
  Initialized := false; ResetCodeHash := ""; ResetCodeExpires := ""; Collaborators := [] |}.

(** ** Password strength *)

Definition is_upper (c : ascii) : bool := let n := Z.of_N (Ascii.N_of_ascii c) in (65 <=? n) && (n <=? 90).
Definition is_lower (c : ascii) : bool := let n := Z.of_N (Ascii.N_of_ascii c) in (97 <=? n) && (n <=? 122).
Definition is_digit (c : ascii) : bool := let n := Z.of_N (Ascii.N_of_ascii c) in (48 <=? n) && (n <=? 57).
Definition is_special (c : ascii) : bool := negb (is_upper c || is_lower c || is_digit c).

Fixpoint any_char (f : ascii → bool) (s : string) : bool :=
  match s with EmptyString => false | String c s => f c || any_char f s end.

(** Every byte above 127 belongs to a character that is none of the three classes. *)
Definition validatePasswordStrength (password : string) : res unit :=
  if (String.length password <? 12)%nat then Err "password must be at least 12 characters"
  else if (128 <? String.length password)%nat then Err "password must be at most 128 characters"
  else if negb (any_char is_upper password) || negb (any_char is_lower password)
          || negb (any_char is_digit password) || negb (any_char is_special password)
  then Err "password must contain uppercase, lowercase, digit, and special character"
  else Ok tt.

Section auth.
Context `{Encryptor} `{Bcrypt} `{JWT} {loc : Location}.
Implicit Types (a : Auth).

(** ** Persistence *)

(** [save] and [saveLocked]. *)
Definition save a : Auth := {|
  data := data a;
  file := Some (with_smtp (data a) (with_password (SMTP (data a)) (encrypt_if (Password (SMTP (data a)))))) |}.

(** [f]: [None], the file is missing; [Some None], it does not parse. *)
Definition load (rand1 rand2 : string) (f : option (option AdminStore)) : Auth :=
  match f with
  | None => {| data := default_store rand1 rand2; file := None |}
  | Some None => save {| data := default_store rand1 rand2; file := None |}
  | Some (Some d) =>
      let a := {| data := d; file := Some d |} in
      let a := if bool_decide (JWTSecret (data a) = "")
               then save (set_data a (with_secrets_ (data a) rand1 (JWTRefreshSecret (data a)))) else a in
      let a := if bool_decide (JWTRefreshSecret (data a) = "")
               then save (set_data a (with_secrets_ (data a) (JWTSecret (data a)) rand2)) else a in
      set_data a (with_smtp (data a) (with_password (SMTP (data a)) (decrypt_if (Password (SMTP (data a))))))
  end.

(** ** The administrator and the collaborators *)

Definition SetupAdmin (now : Time) (salt username password email : string) a : res unit * Auth :=
  if Initialized (data a) then (Err "admin already initialized", a)
  else if bool_decide (username = "") || bool_decide (password = "")
  then (Err "username and password are required", a)
  else match validatePasswordStrength password with
  | Err e => (Err e, a)
  | Ok _ =>
      match bcrypt_gen salt password with
      | None => (Err "failed to hash password", a)
      | Some h =>
          (Ok tt, save (set_data a (with_admin (data a)
             {| ad_Username := username; ad_PasswordHash := h; ad_Email := email;
                ad_CreatedAt := fmt_rfc3339 loc now |} true)))
      end
  end.

Definition VerifyCredentials (username password : string) a : bool :=
  if negb (Initialized (data a)) || negb (bool_decide (ad_Username (Admin (data a)) = username)) then false
  else bcrypt_compare (ad_PasswordHash (Admin (data a))) password.

(** The loop over the collaborators. *)
Fixpoint taken (username guestKey : string) (l : list Collaborator) : option string :=
  match l with
  | [] => None
  | c :: l =>
      if bool_decide (co_Username c = username) then Some "username already taken"
      else if bool_decide (co_GuestKey c = guestKey) then Some "this guest key is already registered"
      else taken username guestKey l
  end.

Definition RegisterCollaborator (now : Time) (salt username password guestKey : string) a : res unit * Auth :=
  if bool_decide (username = "") || bool_decide (password = "") || bool_decide (guestKey = "")
  then (Err "username, password and guest_key are required", a)
  else if (20 <=? length (Collaborators (data a)))%nat then (Err "maximum collaborator count (20) reached", a)
  else if bool_decide (ad_Username (Admin (data a)) = username) then (Err "username already taken", a)
  else match taken username guestKey (Collaborators (data a)) with
  | Some e => (Err e, a)
  | None =>
      match validatePasswordStrength password with
      | Err e => (Err e, a)
      | Ok _ =>
          match bcrypt_gen salt password with
          | None => (Err "failed to hash password", a)
          | Some h =>
              (Ok tt, save (set_data a (with_collaborators (data a)
                 (Collaborators (data a) ++
                  [{| co_Username := username; co_PasswordHash := h; co_GuestKey := guestKey;
                      co_CreatedAt := fmt_rfc3339 loc now; LastLogin := "" |}]))))
          end
      end
  end.

Definition VerifyCollaboratorCredentials (username password : string) a : option Collaborator :=
  match find (λ c, bool_decide (co_Username c = username)) (Collaborators (data a)) with
  | Some c => if bcrypt_compare (co_PasswordHash c) password then Some c else None
  | None => None
  end.

Definition ValidateGuestKeyForRegistration (key : string) (store : option keys) a : bool :=
  match store with
  | None => false
  | Some ks =>
      match GetGuestKeyRecord key ks with
      | None => false
      | Some rec =>
          if Revoked rec then false
          else negb (existsb (λ c, bool_decide (co_GuestKey c = key)) (Collaborators (data a)))
      end
  end.

Definition ChangePassword (salt oldPass newPass : string) a : res unit * Auth :=
  if negb (Initialized (data a)) || bool_decide (ad_Username (Admin (data a)) = "")
  then (Err "admin not initialized", a)
  else if negb (bcrypt_compare (ad_PasswordHash (Admin (data a))) oldPass)
  then (Err "incorrect old password", a)
  else match validatePasswordStrength newPass with
  | Err e => (Err e, a)
  | Ok _ =>
      match bcrypt_gen salt newPass with
      | None => (Err "failed to hash password", a)
      | Some h =>
          (Ok tt, save (set_data a (with_admin (data a) (with_hash (Admin (data a)) h) (Initialized (data a)))))
      end
  end.

(** ** Session tokens *)

(** [t.Unix()]. *)
Definition unix (t : Time) : Z := t / second.

Definition access_claims (now : Time) (username : string) (hours : Z) : Claims := {|
  c_sub := Some username; c_exp := Some (unix (now + hours * hour)); c_iat := Some (unix now);
  c_iss := Some "openmodelpool"; c_type := Some "access" |}.
Definition refresh_claims (now : Time) (username : string) : Claims := {|
  c_sub := Some username; c_exp := Some (unix (now + 7 * 24 * hour)); c_iat := Some (unix now);
  c_iss := Some "openmodelpool"; c_type := Some "refresh" |}.

Definition CreateToken (now : Time) (username : string) (remember : bool) a : string * string :=
  match jwt_sign (JWTSecret (data a)) (access_claims now username (if remember then 7 * 24 else 24)) with
  | None => ("", "")
  | Some access =>
      match jwt_sign (JWTRefreshSecret (data a)) (refresh_claims now username) with
      | None => ("", "")
      | Some refresh => (access, refresh)
      end
  end.

Definition CreateAccessToken (now : Time) (username : string) (remember : bool) a : string :=
  (CreateToken now username remember a).1.

Definition RefreshAccessToken (now : Time) (refreshTokenStr : string) a : res string :=
  match jwt_parse (hmac_key (JWTRefreshSecret (data a))) now refreshTokenStr with
  | None => Err "invalid refresh token"
  | Some claims =>
      if negb (bool_decide (default "" (c_type claims) = "refresh")) then Err "not a refresh token"
      else if negb (bool_decide (default "" (c_iss claims) = "openmodelpool")) then Err "invalid token issuer"
      else if bool_decide (default "" (c_sub claims) = "") then Err "missing subject"
      else match jwt_sign (JWTSecret (data a)) (access_claims now (default "" (c_sub claims)) 24) with
      | None => Err "failed to sign token"
      | Some s => Ok s
      end
  end.

Definition VerifyToken (now : Time) (tokenStr : string) a : res string :=
  match jwt_parse (hmac_key (JWTSecret (data a))) now tokenStr with
  | None => Err "invalid token"
  | Some claims =>
      if negb (bool_decide (default "" (c_iss claims) = "openmodelpool")) then Err "invalid token issuer"
      else if bool_decide (default "" (c_type claims) = "refresh")
      then Err "refresh token cannot be used for authentication"
      else Ok (default "" (c_sub claims))
  end.

(** ** Mail *)

Definition UpdateEmail (email : string) a : Auth :=
  save (set_data a (with_admin (data a) (with_email (Admin (data a)) email) (Initialized (data a)))).
Definition GetEmail a : string := ad_Email (Admin (data a)).
Definition IsSMTPConfigured a : bool :=
  let s := SMTP (data a) in
  negb (bool_decide (Host s = "")) && negb (bool_decide (sm_Username s = ""))
  && negb (bool_decide (FromEmail s = "")).
Definition UpdateSMTP (c : SMTPConfig) a : Auth := save (set_data a (with_smtp (data a) c)).

(** ** Resetting the password *)

(** The token in force, if any. *)
Definition pending_token (now : Time) a : option string :=
  match Reset (data a) with
  | Some r =>
      if Used r then None
      else match parse_rfc3339 (Expire r) with
           | Some exp => if before now exp then Some (rt_Token r) else None
           | None => None
           end
  | None => None
  end.

Definition CreateResetToken (now : Time) (rand : string) a : string * Auth :=
  match pending_token now a with
  | Some tok => (tok, a)
  | None =>
      (rand, save (set_data a (with_reset (data a)
        (Some {| rt_Token := rand; rt_Email := ad_Email (Admin (data a));
                 Expire := fmt_rfc3339 loc (now + 30 * minute); Used := false |}))))
  end.

(** [VerifyResetToken] and [verifyResetTokenLocked]. *)
Definition verifyResetToken (now : Time) (tok : string) a : bool :=
  match Reset (data a) with
  | None => false
  | Some r =>
      if Used r then false
      else if negb (bool_decide (rt_Token r = tok)) then false
      else match parse_rfc3339 (Expire r) with
           | None => false
           | Some exp => negb (after now exp)
           end
  end.

Definition ResetPassword (now : Time) (salt tok newPass : string) a : res unit * Auth :=
  if negb (verifyResetToken now tok a) then (Err "invalid or expired reset token", a)
  else match validatePasswordStrength newPass with
  | Err e => (Err e, a)
  | Ok _ =>
      match bcrypt_gen salt newPass with
      | None => (Err "failed to hash password", a)
      | Some h =>
          (Ok tt, save (set_data a (with_reset
             (with_admin (data a) (with_hash (Admin (data a)) h) (Initialized (data a)))
             (use_token <$> Reset (data a)))))
      end
  end.

(** [rand]: the code drawn, [None] when the entropy source fails. *)
Definition GenerateResetCode (now : Time) (rand : option string) (salt : string) a : res (string * Time) * Auth :=
  match rand with
  | None => (Err "failed to generate reset code", a)
  | Some code =>
      match bcrypt_gen salt code with
      | None => (Err "failed to hash reset code", a)
      | Some h =>
          let expires := now + 24 * hour in
          (Ok (code, expires), save (set_data a (with_code (data a) h (fmt_rfc3339 loc expires))))
      end
  end.

Definition code_expired (now : Time) a : bool :=
  if bool_decide (ResetCodeExpires (data a) = "") then false
  else match parse_rfc3339 (ResetCodeExpires (data a)) with
       | None => true
       | Some expires => after now expires
       end.

Definition checkResetCodeLocked (now : Time) (code : string) a : res unit :=
  if bool_decide (ResetCodeHash (data a) = "") then Err "no reset code configured"
  else if code_expired now a then Err "reset code has expired"
  else if negb (bcrypt_compare (ResetCodeHash (data a)) code) then Err "invalid reset code"
  else Ok tt.

Definition ValidateAndConsumeResetCode (now : Time) (code : string) a : res unit * Auth :=
  if bool_decide (ResetCodeHash (data a) = "") then (Err "no reset code configured", a)
  else if code_expired now a then (Err "reset code has expired", a)
  else if negb (bcrypt_compare (ResetCodeHash (data a)) code) then (Err "invalid reset code", a)
  else (Ok tt, save (set_data a (with_code (data a) "" ""))).

Definition ResetPasswordWithCode (now : Time) (salt code newPass : string) a : res unit * Auth :=
  match checkResetCodeLocked now code a with
  | Err e => (Err e, a)
  | Ok _ =>
      match validatePasswordStrength newPass with
      | Err e => (Err e, a)
      | Ok _ =>
          match bcrypt_gen salt newPass with
          | None => (Err "failed to hash password", a)
          | Some h =>
              (Ok tt, save (set_data a (with_code (with_reset
                 (with_admin (data a) (with_hash (Admin (data a)) h) (Initialized (data a))) None) "" "")))
          end
      end
  end.

Definition HasResetCode a : bool := negb (bool_decide (ResetCodeHash (data a) = "")).

(** ** The middleware and the handlers

    A body is [None] when it does not parse; a handler answers with a status. *)

(** [withAuth]: the name the request goes on under, with the role of the administrator;
    [None] for 401. *)
Definition withAuth (now : Time) (header : string) (cookie : option string) a : option string :=
  let token := Users.extractToken header cookie in
  if bool_decide (token = "") then None
  else match VerifyToken now token a with Ok username => Some username | Err _ => None end.

Definition status_400 {A} (r : res A) : Z := if is_ok r then 200 else 400.

Definition handleSetup (now : Time) (salt : string) (body : option (string * string * string)) a : Z * Auth :=
  if Initialized (data a) then (400, a)
  else match body with
  | None => (400, a)
  | Some (username, password, email) =>
      let '(r, a) := SetupAdmin now salt username password email a in (status_400 r, a)
  end.

(** With the access token, the refresh token and the life of the cookie. *)
Definition handleLogin (now : Time) (body : option (string * string * bool)) a
    : Z * option (string * string * Z) :=
  match body with
  | None => (400, None)
  | Some (username, password, remember) =>
      if bool_decide (username = "") || bool_decide (password = "") then (400, None)
      else if (128 <? String.length username)%nat || (256 <? String.length password)%nat then (400, None)
      else if negb (VerifyCredentials username password a) then (401, None)
      else (200, Some (CreateToken now username remember a, if remember then 7 * 86400 else 86400))
  end.

Definition handleVerifyAuth (now : Time) (header : string) (cookie : option string) a : Z * string :=
  match withAuth now header cookie a with Some u => (200, u) | None => (401, "") end.

Definition handleRefreshToken (now : Time) (body : option string) a : Z * string :=
  match body with
  | None => (400, "")
  | Some tok =>
      if bool_decide (tok = "") then (400, "")
      else match RefreshAccessToken now tok a with Ok s => (200, s) | Err _ => (401, "") end
  end.

(** [send] is whether the mail server takes the mail; the result has the token mailed. *)
Definition handleForgotPassword (now : Time) (rand : string) (send : string → bool)
    (body : option string) a : Z * option string * Auth :=
  if negb (Initialized (data a)) then (400, None, a)
  else match body with
  | None => (400, None, a)
  | Some email =>
      if bool_decide (email = "") || negb (bool_decide (email = GetEmail a)) then (200, None, a)
      else if negb (IsSMTPConfigured a) then (200, None, a)
      else let '(token, a) := CreateResetToken now rand a in
           if send token then (200, Some token, a) else (500, None, a)
  end.

Definition handleResetPassword (now : Time) (salt : string) (body : option (string * string)) a : Z * Auth :=
  match body with
  | None => (400, a)
  | Some (tok, newPass) => let '(r, a) := ResetPassword now salt tok newPass a in (status_400 r, a)
  end.

Definition handleVerifyResetToken (now : Time) (body : option string) a : Z :=
  match body with
  | None => 400
  | Some tok => if verifyResetToken now tok a then 200 else 400
  end.

Definition handleResetWithCode (now : Time) (salt : string) (body : option (string * string)) a : Z * Auth :=
  match body with
  | None => (400, a)
  | Some (code, newPass) =>
      if bool_decide (code = "") || bool_decide (newPass = "") then (400, a)
      else if (String.length newPass <? 8)%nat then (400, a)
      else if (256 <? String.length newPass)%nat then (400, a)
      else let '(r, a) := ResetPasswordWithCode now salt code newPass a in
           (if is_ok r then 200 else 401, a)
  end.

Definition handleChangePassword (salt : string) (body : option (string * string)) a : Z * Auth :=
  match body with
  | None => (400, a)
  | Some (oldPass, newPass) => let '(r, a) := ChangePassword salt oldPass newPass a in (status_400 r, a)
  end.

Definition handleUpdateEmail (body : option string) a : Z * Auth :=
  match body with
  | None => (400, a)
  | Some email =>
      if negb (bool_decide (email = "")) && negb (has_char "@" email) then (400, a)
      else (200, UpdateEmail email a)
  end.

Definition handleSaveSMTPConfig (body : option SMTPConfig) a : Z * Auth :=
  match body with
  | None => (400, a)
  | Some s =>
      (200, UpdateSMTP (if Port s =? 0
         then {| Host := Host s; Port := 587; sm_Username := sm_Username s; Password := Password s;
                 FromEmail := FromEmail s; UseTLS := UseTLS s |} else s) a)
  end.

(** Marks the key in the store of guest keys and logs the collaborator in; with the access token. *)
Definition handleCollaboratorRegister (now : Time) (salt : string)
    (body : option (string * string * string)) (store : option keys) a
    : Z * option string * option keys * Auth :=
  match body with
  | None => (400, None, store, a)
  | Some (username, password, guestKey) =>
      if bool_decide (username = "") || bool_decide (password = "") || bool_decide (guestKey = "")
      then (400, None, store, a)
      else if (128 <? String.length username)%nat || (256 <? String.length password)%nat
              || (128 <? String.length guestKey)%nat then (400, None, store, a)
      else if negb (ValidateGuestKeyForRegistration guestKey store a) then (400, None, store, a)
      else let '(r, a) := RegisterCollaborator now salt username password guestKey a in
      match r with
      | Err _ => (400, None, store, a)
      | Ok _ =>
          let store := (λ ks, (MarkAsCollaborator guestKey (SetShareType guestKey "collaborator" ks).2).2)
                         <$> store in
          (200, Some (CreateToken now username true a).1, store, a)
      end
  end.
End auth.
