(* ===== verification/AuthSafety.v ===== *)
(** * What the administrator's account guarantees (auth.go)

    Histories of the operations of [Auth], restarts included: which password is accepted,
    who may change it, how long a session lasts, and what a collaborator's session may do. *)

From S2P Require Import Prelude GoTime Bytes Providers GuestKeys Auth.
From S2P Require Users.

(** What bcrypt sees of a password: the first 72 bytes of its repetition, each copy ended by a
    zero byte. *)
Definition bcrypt_key (p : string) : bytes :=
  let l := bytes_of p ++ [0] in (λ i, nth (i mod length l) l 0) <$> seq 0 72.
Definition same_password (p q : string) : bool := bool_decide (bcrypt_key p = bcrypt_key q).

Lemma bcrypt_key_short p : (String.length p < 72)%nat →
  take (S (String.length p)) (bcrypt_key p) = bytes_of p ++ [0].
Proof.
  intros Hp. unfold bcrypt_key. set (l := bytes_of p ++ [0]).
  assert (length l = S (String.length p)) as Hl.
  { subst l. rewrite length_app, bytes_of_length. cbn. lia. }
  apply list_eq. intros i. destruct (decide (i < S (String.length p))%nat) as [Hi|Hi].
  - rewrite lookup_take_lt by done. rewrite list_lookup_fmap, lookup_seq_lt by lia. cbn [fmap option_fmap option_map].
    rewrite Nat.mod_small by lia. rewrite nth_lookup. cbn.
    destruct (lookup_lt_is_Some_2 l i) as [x Hx]; [lia|]. by rewrite Hx.
  - rewrite lookup_take_ge by lia. symmetry. apply lookup_ge_None_2. lia.
Qed.

Lemma zero_free_prefix (l1 l2 r1 r2 : bytes) :
  0 ∉ l1 → 0 ∉ l2 → l1 ++ 0 :: r1 = l2 ++ 0 :: r2 → l1 = l2.
Proof.
  revert l2. induction l1 as [|x l1 IH]; intros [|y l2] H1 H2 He; [done| | |]; cbn in He; injection He as Hx He.
  - subst y. exfalso. apply H2. left.
  - subst x. exfalso. apply H1. left.
  - subst y. f_equal. apply (IH l2); [..|done]; intros Hin; [apply H1|apply H2]; by right.
Qed.

(** Passwords shorter than 72 bytes and without zero bytes are told apart. *)
Lemma same_password_eq p q :
  (String.length p < 72)%nat → (String.length q < 72)%nat → 0 ∉ bytes_of p → 0 ∉ bytes_of q →
  same_password p q = bool_decide (p = q).
Proof.
  intros Hp Hq Zp Zq. unfold same_password. apply bool_decide_ext. split; [|by intros ->]. intros E.
  pose proof (bcrypt_key_short p Hp) as Kp. pose proof (bcrypt_key_short q Hq) as Kq. rewrite <- E in Kq.
  set (k := bcrypt_key p) in *. clearbody k.
  rewrite <- (str_of_bytes_of p), <- (str_of_bytes_of q). f_equal.
  apply (zero_free_prefix _ _ (drop (S (String.length p)) k) (drop (S (String.length q)) k) Zp Zq).
  rewrite !(cons_middle 0), !app_assoc, <- Kp, <- Kq, !take_drop. done.
Qed.

(** ** Histories *)

Inductive auth_op :=
  | OSetup (now : Time) (salt username password email : string)
  | ORegister (now : Time) (salt username password guestKey : string)
  | OChange (salt oldPass newPass : string)
  | OEmail (email : string)
  | OSmtp (c : SMTPConfig)
  | OToken (now : Time) (rand : string)
  | OReset (now : Time) (salt tok newPass : string)
  | OCode (now : Time) (rand : option string) (salt : string)
  | OConsume (now : Time) (code : string)
  | OResetCode (now : Time) (salt code newPass : string)
  | ORestart (rand1 rand2 : string).

(** A zone of whole minutes, and instants of the years 1970 to 2200. *)
Definition sane_zone (loc : Location) : Prop :=
  ∀ t, zone_offset t mod 60 = 0 ∧ Z.abs (zone_offset t) < 25 * 3600.
Definition sane_time (t : Time) : Prop := 0 ≤ t < 230 * 366 * 86400 * second.

Lemma sane_parse loc t d : sane_zone loc → sane_time t → 0 ≤ d ≤ 24 * hour →
  parse_rfc3339 (fmt_rfc3339 loc (t + d)) = Some ((t + d) / second * second).
Proof.
  intros Hz Ht Hd. destruct (Hz (t + d)) as [Hm Ha]. apply parse_fmt_local; [done|done|].
  unfold local_seconds. unfold sane_time in Ht.
  assert (0 ≤ (t + d) / second ≤ 230 * 366 * 86400 + 86400) as Hs.
  { unfold hour, minute, second in *. zdiv. }
  change (loc (t + d)) with (zone_offset (t + d)) in *.
  change (days_from_civil 0 1 1 * 86400) with (-62167219200). change (days_from_civil 10000 1 1 * 86400) with 253402300800.
  lia.
Qed.

Section auth_safety.
Context `{Encryptor} `{Bcrypt} `{JWT} {loc : Location}.
(** A hash is not empty, and compares equal to the passwords bcrypt does not tell apart. *)
Context (bcrypt_law : ∀ salt p h, bcrypt_gen salt p = Some h →
  h ≠ "" ∧ ∀ q, bcrypt_compare h q = same_password p q).
Implicit Types (a : Auth) (o : auth_op).

(** Whether the operation succeeds, and the state it leaves. *)
Definition auth_try a o : bool * Auth :=
  match o with
  | OSetup now salt u p e => let r := SetupAdmin now salt u p e a in (is_ok r.1, r.2)
  | ORegister now salt u p k => let r := RegisterCollaborator now salt u p k a in (is_ok r.1, r.2)
  | OChange salt old new => let r := ChangePassword salt old new a in (is_ok r.1, r.2)
  | OEmail e => (true, UpdateEmail e a)
  | OSmtp c => (true, UpdateSMTP c a)
  | OToken now rand => (true, (CreateResetToken now rand a).2)
  | OReset now salt tok new => let r := ResetPassword now salt tok new a in (is_ok r.1, r.2)
  | OCode now rand salt => let r := GenerateResetCode now rand salt a in (is_ok r.1, r.2)
  | OConsume now code => let r := ValidateAndConsumeResetCode now code a in (is_ok r.1, r.2)
  | OResetCode now salt code new => let r := ResetPasswordWithCode now salt code new a in (is_ok r.1, r.2)
  | ORestart r1 r2 => (true, load r1 r2 (Some <$> file a))
  end.
Definition auth_exec a o : Auth := (auth_try a o).2.
Definition auth_ok a o : bool := (auth_try a o).1.

(** From a start without a file. *)
Definition auth_start (r1 r2 : string) : Auth := load r1 r2 None.
Definition auth_run r1 r2 h : Auth := foldl auth_exec (auth_start r1 r2) h.

Lemma auth_run_snoc r1 r2 h o : auth_run r1 r2 (h ++ [o]) = auth_exec (auth_run r1 r2 h) o.
Proof. unfold auth_run. by rewrite foldl_app. Qed.
Lemma auth_run_app r1 r2 h h' : auth_run r1 r2 (h ++ h') = foldl auth_exec (auth_run r1 r2 h) h'.
Proof. unfold auth_run. by rewrite foldl_app. Qed.

(** The name and the password last set, [c] being those set before. *)
Definition new_credential a o (c : option (string * string)) : option (string * string) :=
  if auth_ok a o then
    match o with
    | OSetup _ _ u p _ => Some (u, p)
    | OChange _ _ p | OReset _ _ _ p | OResetCode _ _ _ p => (λ up, (up.1, p)) <$> c
    | _ => c
    end
  else c.
Definition credential r1 r2 h : option (string * string) :=
  (foldl (λ ac o, (auth_exec ac.1 o, new_credential ac.1 o ac.2)) (auth_start r1 r2, None) h).2.

Lemma credential_run r1 r2 h :
  foldl (λ ac o, (auth_exec ac.1 o, new_credential ac.1 o ac.2)) (auth_start r1 r2, None) h
  = (auth_run r1 r2 h, credential r1 r2 h).
Proof.
  apply injective_projections; [|done].
  induction h as [|o h IH] using rev_ind; [done|]. rewrite foldl_app, auth_run_snoc. cbn in *. by rewrite IH.
Qed.
Lemma credential_snoc r1 r2 h o :
  credential r1 r2 (h ++ [o]) = new_credential (auth_run r1 r2 h) o (credential r1 r2 h).
Proof. unfold credential at 1. rewrite foldl_app, credential_run. done. Qed.

(** ** The file holds what a restart needs *)

(** All but the mail server. *)
Definition core (d : AdminStore) : AdminStore := with_smtp d default_smtp.

Definition filed a : Prop :=
  JWTSecret (data a) ≠ "" ∧ JWTRefreshSecret (data a) ≠ "" ∧
  match file a with
  | Some d => core d = core (data a)
  | None => ∃ r1 r2, data a = default_store r1 r2
  end.

Lemma core_fields d d' : core d = core d' →
  Admin d = Admin d' ∧ JWTSecret d = JWTSecret d' ∧ JWTRefreshSecret d = JWTRefreshSecret d' ∧
  Reset d = Reset d' ∧ Initialized d = Initialized d' ∧ ResetCodeHash d = ResetCodeHash d' ∧
  ResetCodeExpires d = ResetCodeExpires d' ∧ Collaborators d = Collaborators d'.
Proof. unfold core, with_smtp. intros E. by injection E. Qed.

Lemma filed_save a : JWTSecret (data a) ≠ "" → JWTRefreshSecret (data a) ≠ "" → filed (save a).
Proof. by unfold filed, save, core. Qed.

(** A restart keeps all but the mail server, once something was saved. *)
Lemma restart_core r1 r2 a : filed a → is_Some (file a) →
  core (data (load r1 r2 (Some <$> file a))) = core (data a) ∧ file (load r1 r2 (Some <$> file a)) = file a.
Proof.
  intros (S1 & S2 & S3) [d Hd]. rewrite Hd in *. cbn in *.
  destruct (core_fields _ _ S3) as (_ & E1 & E2 & _). rewrite E1, (bool_decide_eq_false_2 _ S1). cbn.
  rewrite E2, (bool_decide_eq_false_2 _ S2). done.
Qed.

(** ** One operation *)

(** What a successful operation did, one case each; every other leaves the state alone. *)
Inductive auth_did a : auth_op → AdminStore → Prop :=
  | did_setup now salt u p e h : Initialized (data a) = false → validatePasswordStrength p = Ok tt →
      bcrypt_gen salt p = Some h →
      auth_did a (OSetup now salt u p e) (with_admin (data a)
        {| ad_Username := u; ad_PasswordHash := h; ad_Email := e; ad_CreatedAt := fmt_rfc3339 loc now |} true)
  | did_register now salt u p k h : taken u k (Collaborators (data a)) = None →
      (length (Collaborators (data a)) < 20)%nat → ad_Username (Admin (data a)) ≠ u →
      auth_did a (ORegister now salt u p k) (with_collaborators (data a) (Collaborators (data a) ++
        [{| co_Username := u; co_PasswordHash := h; co_GuestKey := k;
            co_CreatedAt := fmt_rfc3339 loc now; LastLogin := "" |}]))
  | did_change salt old p h : Initialized (data a) = true →
      bcrypt_compare (ad_PasswordHash (Admin (data a))) old = true → validatePasswordStrength p = Ok tt →
      bcrypt_gen salt p = Some h →
      auth_did a (OChange salt old p) (with_admin (data a) (with_hash (Admin (data a)) h) (Initialized (data a)))
  | did_email e : auth_did a (OEmail e) (with_admin (data a) (with_email (Admin (data a)) e) (Initialized (data a)))
  | did_smtp c : auth_did a (OSmtp c) (with_smtp (data a) c)
  | did_token now rand : pending_token now a = None →
      auth_did a (OToken now rand) (with_reset (data a) (Some {| rt_Token := rand;
        rt_Email := ad_Email (Admin (data a)); Expire := fmt_rfc3339 loc (now + 30 * minute); Used := false |}))
  | did_reset now salt tok p h : verifyResetToken now tok a = true → validatePasswordStrength p = Ok tt →
      bcrypt_gen salt p = Some h →
      auth_did a (OReset now salt tok p) (with_reset
        (with_admin (data a) (with_hash (Admin (data a)) h) (Initialized (data a))) (use_token <$> Reset (data a)))
  | did_code now code salt h : bcrypt_gen salt code = Some h →
      auth_did a (OCode now (Some code) salt) (with_code (data a) h (fmt_rfc3339 loc (now + 24 * hour)))
  | did_consume now code : checkResetCodeLocked now code a = Ok tt →
      auth_did a (OConsume now code) (with_code (data a) "" "")
  | did_reset_code now salt code p h : checkResetCodeLocked now code a = Ok tt →
      validatePasswordStrength p = Ok tt → bcrypt_gen salt p = Some h →
      auth_did a (OResetCode now salt code p) (with_code (with_reset
        (with_admin (data a) (with_hash (Admin (data a)) h) (Initialized (data a))) None) "" "").

Lemma ok_unit (r : res unit) u : r = Ok u → r = Ok tt.
Proof. by destruct u. Qed.

(** An operation other than a restart does one of these things and saves, or does nothing;
    only a reset token still pending is a success without an effect. *)
Lemma auth_exec_did a o : (∀ r1 r2, o ≠ ORestart r1 r2) →
  (∃ d, auth_did a o d ∧ auth_try a o = (true, save (set_data a d)))
  ∨ (auth_exec a o = a ∧ (auth_ok a o = false ∨ ∃ now rand, o = OToken now rand)).
Proof.
  intros Hr. unfold auth_exec, auth_ok.
  destruct o as [now salt u p e|now salt u p k|salt old p|e|c|now rand|now salt tok p|now rand salt|now code|now salt code p|r1 r2];
    cbn [auth_try].
  - unfold SetupAdmin. destruct (Initialized (data a)) eqn:E1; [by right; auto|].
    destruct (_ || _)%bool; [by right; auto|]. destruct (validatePasswordStrength p) as [u'|] eqn:E2; [|by right; auto].
    destruct (bcrypt_gen salt p) eqn:E3; [|by right; auto]. left. eexists. split; [|done].
    by apply did_setup; [|apply (ok_unit _ u')|].
  - unfold RegisterCollaborator. destruct (_ || _)%bool; [by right; auto|].
    destruct (Nat.leb_spec 20 (length (Collaborators (data a)))) as [|E1]; [by right; auto|].
    destruct (bool_decide_reflect (ad_Username (Admin (data a)) = u)) as [|E2]; [by right; auto|].
    destruct (taken _ _ _) eqn:E3; [by right; auto|]. destruct (validatePasswordStrength p); [|by right; auto].
    destruct (bcrypt_gen salt p); [|by right; auto]. left. eexists. split; [|done]. by apply did_register.
  - unfold ChangePassword. destruct (Initialized (data a)) eqn:E1; [|by right; auto]. cbn [negb orb].
    destruct (bool_decide (ad_Username _ = "")); [by right; auto|].
    destruct (bcrypt_compare _ old) eqn:E2; cbn [negb]; [|by right; auto].
    destruct (validatePasswordStrength p) as [u'|] eqn:E3; [|by right; auto].
    destruct (bcrypt_gen salt p) eqn:E4; [|by right; auto]. left. eexists. split; [|done].
    rewrite <- E1. by apply did_change; [| |apply (ok_unit _ u')|].
  - left. eexists. split; [apply did_email|done].
  - left. eexists. split; [apply did_smtp|done].
  - unfold CreateResetToken. destruct (pending_token now a) eqn:E1; [right; split; [done|]; right; by eauto|].
    left. eexists. split; [by apply did_token|done].
  - unfold ResetPassword. destruct (verifyResetToken now tok a) eqn:E1; cbn [negb]; [|by right; auto].
    destruct (validatePasswordStrength p) as [u'|] eqn:E3; [|by right; auto].
    destruct (bcrypt_gen salt p) eqn:E4; [|by right; auto]. left. eexists. split; [|done].
    by apply did_reset; [|apply (ok_unit _ u')|].
  - unfold GenerateResetCode. destruct rand as [code|]; [|by right; auto].
    destruct (bcrypt_gen salt code) eqn:E1; [|by right; auto]. left. eexists. split; [by apply did_code|done].
  - unfold ValidateAndConsumeResetCode.
    destruct (bool_decide _) eqn:E1; [by right; auto|].
    destruct (code_expired now a) eqn:E; [by right; auto|].
    destruct (bcrypt_compare _ code) eqn:E2; cbn [negb] in *; [|by right; auto].
    left. eexists. split; [apply did_consume|done]. unfold checkResetCodeLocked. by rewrite E1, E, E2.
  - unfold ResetPasswordWithCode. destruct (checkResetCodeLocked now code a) as [u''|] eqn:E1; [|by right; auto].
    destruct (validatePasswordStrength p) as [u'|] eqn:E3; [|by right; auto].
    destruct (bcrypt_gen salt p) eqn:E4; [|by right; auto]. left. eexists. split; [|done].
    by apply did_reset_code; [apply (ok_unit _ u'')|apply (ok_unit _ u')|].
  - by destruct (Hr r1 r2).
Qed.

(** ** The file, the password, the reset token and the reset code over a history *)

Definition drawn (o : auth_op) : Prop :=
  match o with ORestart r1 r2 => r1 ≠ "" ∧ r2 ≠ "" | _ => True end.

Lemma did_secrets a o d : auth_did a o d →
  JWTSecret d = JWTSecret (data a) ∧ JWTRefreshSecret d = JWTRefreshSecret (data a).
Proof. by destruct 1. Qed.

Lemma is_restart o : (∃ r1 r2, o = ORestart r1 r2) ∨ (∀ r1 r2, o ≠ ORestart r1 r2).
Proof. destruct o; eauto; by right. Qed.

Lemma filed_exec a o : filed a → drawn o → filed (auth_exec a o).
Proof.
  intros Ha Ho. destruct (is_restart o) as [(r1 & r2 & ->)|Hr].
  - unfold auth_exec. cbn [auth_try snd]. destruct (file a) as [d|] eqn:Ef.
    + destruct (restart_core r1 r2 a Ha) as [H2 H3]; [by rewrite Ef|]. rewrite <- Ef. destruct Ha as (S1 & S2 & S3).
      destruct (core_fields _ _ H2) as (_ & E1 & E2 & _). unfold filed. rewrite E1, E2, H3, Ef in *.
      split_and!; [done|done|]. by rewrite H2.
    + destruct Ho. split_and!; [done|done|]. cbn. eauto.
  - destruct (auth_exec_did a o Hr) as [(d & Hd & E)|[-> _]]; [|done]. unfold auth_exec. rewrite E. cbn [snd].
    destruct (did_secrets _ _ _ Hd) as [E1 E2]. destruct Ha as (S1 & S2 & _).
    apply filed_save; cbn; congruence.
Qed.

Lemma filed_run r1 r2 h : r1 ≠ "" → r2 ≠ "" → Forall drawn h → filed (auth_run r1 r2 h).
Proof.
  intros D1 D2. induction h as [|o h IH] using rev_ind; intros Hh.
  - split_and!; [done|done|]. cbn. eauto.
  - apply Forall_app in Hh as [Hh [Ho _]%Forall_cons]. rewrite auth_run_snoc. by apply filed_exec; [apply IH|].
Qed.

(** What a restart keeps of the state; nothing was set when there is no file. *)
Lemma restart_keeps a r1 r2 : filed a →
  let a' := auth_exec a (ORestart r1 r2) in
  Admin (data a') = Admin (data a) ∧ Initialized (data a') = Initialized (data a) ∧
  Reset (data a') = Reset (data a) ∧ ResetCodeHash (data a') = ResetCodeHash (data a) ∧
  ResetCodeExpires (data a') = ResetCodeExpires (data a) ∧ Collaborators (data a') = Collaborators (data a).
Proof.
  intros Ha. unfold auth_exec. cbn [auth_try snd]. destruct (file a) as [d|] eqn:Ef.
  - destruct (restart_core r1 r2 a Ha) as [E _]; [by rewrite Ef|]. rewrite Ef in E.
    destruct (core_fields _ _ E) as (E1 & _ & _ & E2 & E3 & E4 & E5 & E6). done.
  - destruct Ha as (_ & _ & H3). rewrite Ef in H3. destruct H3 as (x & y & E). by rewrite E.
Qed.

Definition holds_password a (c : option (string * string)) : Prop :=
  match c with
  | None => Initialized (data a) = false
  | Some (u, p) => Initialized (data a) = true ∧ ad_Username (Admin (data a)) = u ∧
                   ∃ salt, bcrypt_gen salt p = Some (ad_PasswordHash (Admin (data a)))
  end.

Lemma holds_password_exec a o c :
  filed a → holds_password a c → holds_password (auth_exec a o) (new_credential a o c).
Proof.
  intros Hf Hp. destruct (is_restart o) as [(r1 & r2 & ->)|Hr].
  { destruct (restart_keeps a r1 r2 Hf) as (E1 & E2 & _). change (new_credential a (ORestart r1 r2) c) with c.
    unfold holds_password. rewrite E1, E2. done. }
  destruct (auth_exec_did a o Hr) as [(d & Hd & E)|[E Hn]].
  - unfold auth_exec, new_credential, auth_ok. rewrite E. cbn [fst snd].
    destruct Hd; cbn [data save set_data]; destruct c as [[u0 p0]|]; cbn in *;
      try (destruct Hp as (Hi & Hu & Hs)); rewrite ?Hi; eauto; by congruence.
  - rewrite E. unfold new_credential. destruct Hn as [->|(now & rand & ->)]; [done|]. by destruct (auth_ok _ _).
Qed.

Lemma holds_password_run r1 r2 h : r1 ≠ "" → r2 ≠ "" → Forall drawn h →
  holds_password (auth_run r1 r2 h) (credential r1 r2 h).
Proof.
  intros D1 D2. induction h as [|o h IH] using rev_ind; intros Hh; [done|].
  apply Forall_app in Hh as [Hh [Ho _]%Forall_cons]. rewrite auth_run_snoc, credential_snoc.
  apply holds_password_exec; [by apply filed_run|by apply IH].
Qed.

(** No operation of [h2] that satisfies [P] succeeded after the operations [h1]. *)
Definition none_of r1 r2 (P : auth_op → Prop) (h1 h2 : list auth_op) : Prop :=
  ∀ k o, h2 !! k = Some o → P o → auth_ok (auth_run r1 r2 (h1 ++ take k h2)) o = false.

Lemma none_of_snoc r1 r2 P h1 h2 o : none_of r1 r2 P h1 h2 →
  (P o → auth_ok (auth_run r1 r2 (h1 ++ h2)) o = false) → none_of r1 r2 P h1 (h2 ++ [o]).
Proof.
  intros H2 Ho k o' Hk HP. destruct (decide (k < length h2)%nat) as [Hl|Hl].
  - rewrite lookup_app_l in Hk by done. rewrite take_app_le by lia. by eapply H2.
  - rewrite lookup_app_r in Hk by lia. apply list_lookup_singleton_Some in Hk as [Hz ->].
    replace k with (length h2) by lia. rewrite take_app_length. by apply Ho.
Qed.

Definition is_reset (o : auth_op) : Prop :=
  match o with OReset _ _ _ _ | OResetCode _ _ _ _ => True | _ => False end.
Definition spends_code (o : auth_op) : Prop :=
  match o with OConsume _ _ | OResetCode _ _ _ _ => True | _ => False end.

(** The unused token in the state was drawn by an operation no reset followed. *)
Definition token_origin r1 r2 (h : list auth_op) (r : ResetToken) : Prop :=
  ∃ h1 t h2, h = (h1 ++ [OToken t (rt_Token r)]) ++ h2 ∧ Expire r = fmt_rfc3339 loc (t + 30 * minute) ∧
    none_of r1 r2 is_reset (h1 ++ [OToken t (rt_Token r)]) h2.
Definition code_origin r1 r2 (h : list auth_op) (hash exp : string) : Prop :=
  ∃ h1 t code salt h2, h = (h1 ++ [OCode t (Some code) salt]) ++ h2 ∧ bcrypt_gen salt code = Some hash ∧
    exp = fmt_rfc3339 loc (t + 24 * hour) ∧ none_of r1 r2 spends_code (h1 ++ [OCode t (Some code) salt]) h2.

Lemma token_origin_snoc r1 r2 h r o : token_origin r1 r2 h r →
  (is_reset o → auth_ok (auth_run r1 r2 h) o = false) → token_origin r1 r2 (h ++ [o]) r.
Proof.
  intros (h1 & t & h2 & -> & He & Hn) Ho. exists h1, t, (h2 ++ [o]). rewrite app_assoc.
  split_and!; [done|done|]. by apply none_of_snoc.
Qed.
Lemma code_origin_snoc r1 r2 h x e o : code_origin r1 r2 h x e →
  (spends_code o → auth_ok (auth_run r1 r2 h) o = false) → code_origin r1 r2 (h ++ [o]) x e.
Proof.
  intros (h1 & t & c & s & h2 & -> & He & Hx & Hn) Ho. exists h1, t, c, s, (h2 ++ [o]). rewrite app_assoc.
  split_and!; [done|done|done|]. by apply none_of_snoc.
Qed.

Lemma token_origin_run r1 r2 h r : r1 ≠ "" → r2 ≠ "" → Forall drawn h →
  Reset (data (auth_run r1 r2 h)) = Some r → Used r = false → token_origin r1 r2 h r.
Proof.
  intros D1 D2. revert r. induction h as [|o h IH] using rev_ind; intros r Hh; [done|].
  apply Forall_app in Hh as [Hh [Ho _]%Forall_cons]. rewrite auth_run_snoc. specialize (λ r, IH r Hh) as IH.
  destruct (is_restart o) as [(x & y & ->)|Hr].
  { destruct (restart_keeps _ x y (filed_run r1 r2 h D1 D2 Hh)) as (_ & _ & E & _). rewrite E.
    intros Hs Hu. by apply token_origin_snoc; [apply IH|]. }
  destruct (auth_exec_did (auth_run r1 r2 h) o Hr) as [(d & Hd & E)|[E Hn]].
  - unfold auth_exec. rewrite E. cbn [snd save set_data data].
    destruct Hd; cbn; intros Hs Hu;
      try (apply token_origin_snoc; [by apply IH|by intros []]).
    + injection Hs as <-. exists h, now, []. rewrite app_nil_r. split_and!; [done|done|]. intros k o Hk. by destruct k.
    + destruct (Reset _); [|done]. injection Hs as <-. done.
  - rewrite E. intros Hs Hu. apply token_origin_snoc; [by apply IH|].
    destruct Hn as [Hn|(now & rand & ->)]; [by intros _|by intros []].
Qed.

Lemma code_origin_run r1 r2 h : r1 ≠ "" → r2 ≠ "" → Forall drawn h →
  let a := auth_run r1 r2 h in
  ResetCodeHash (data a) ≠ "" → code_origin r1 r2 h (ResetCodeHash (data a)) (ResetCodeExpires (data a)).
Proof.
  intros D1 D2. induction h as [|o h IH] using rev_ind; intros Hh; [done|].
  apply Forall_app in Hh as [Hh [Ho _]%Forall_cons]. rewrite auth_run_snoc. specialize (IH Hh). cbv zeta in *.
  destruct (is_restart o) as [(x & y & ->)|Hr].
  { destruct (restart_keeps _ x y (filed_run r1 r2 h D1 D2 Hh)) as (_ & _ & _ & E & E' & _). rewrite E, E'.
    intros Hs. by apply code_origin_snoc; [apply IH|]. }
  destruct (auth_exec_did (auth_run r1 r2 h) o Hr) as [(d & Hd & E)|[E Hn]].
  - unfold auth_exec. rewrite E. cbn [snd save set_data data].
    destruct Hd; cbn; intros Hs; try (apply code_origin_snoc; [by apply IH|by intros []]); try done.
    exists h, now, code, salt, []. rewrite app_nil_r. split_and!; [done|done|done|]. intros k o Hk. by destruct k.
  - rewrite E. intros Hs. apply code_origin_snoc; [by apply IH|].
    destruct Hn as [Hn|(now & rand & ->)]; [by intros _|by intros []].
Qed.

(** ** The theorems *)

(** In every reachable state, whatever restarts there were, a name and a password are accepted
    exactly when they are those last set: by the setup, by a change with the old password, or by
    a reset, each one that succeeded. *)
Theorem password_follows_history r1 r2 h u p :
  r1 ≠ "" → r2 ≠ "" → Forall drawn h →
  VerifyCredentials u p (auth_run r1 r2 h) =
    match credential r1 r2 h with
    | None => false
    | Some (u0, p0) => bool_decide (u0 = u) && same_password p0 p
    end.
Proof.
  intros D1 D2 Hh. pose proof (holds_password_run r1 r2 h D1 D2 Hh) as Hp. unfold VerifyCredentials.
  destruct (credential r1 r2 h) as [[u0 p0]|]; cbn in Hp; [|by rewrite Hp].
  destruct Hp as (Hi & -> & salt & Hs). rewrite Hi. cbn.
  destruct (bool_decide _); [|done]. by apply (bcrypt_law _ _ _ Hs).
Qed.

(** Who may set the password after the history [h]. *)
Definition authorised r1 r2 (h : list auth_op) (o : auth_op) : Prop :=
  match o with
  | OSetup _ _ _ _ _ => credential r1 r2 h = None
  | OChange _ old _ => ∃ u p, credential r1 r2 h = Some (u, p) ∧ same_password p old = true
  | OReset now _ tok _ => ∃ h1 t h2, h = (h1 ++ [OToken t tok]) ++ h2 ∧ now ≤ t + 30 * minute ∧
      none_of r1 r2 is_reset (h1 ++ [OToken t tok]) h2
  | OResetCode now _ code _ => ∃ h1 t c salt h2, h = (h1 ++ [OCode t (Some c) salt]) ++ h2 ∧
      same_password c code = true ∧ now ≤ t + 24 * hour ∧
      none_of r1 r2 spends_code (h1 ++ [OCode t (Some c) salt]) h2
  | _ => False
  end.
Definition sets_to (o : auth_op) : string :=
  match o with
  | OSetup _ _ _ p _ | OChange _ _ p | OReset _ _ _ p | OResetCode _ _ _ p => p
  | _ => ""
  end.
Definition op_time (o : auth_op) : Prop :=
  match o with OToken t _ | OCode t _ _ => sane_time t | _ => True end.

Lemma check_code now code a : checkResetCodeLocked now code a = Ok tt →
  ResetCodeHash (data a) ≠ "" ∧ code_expired now a = false ∧ bcrypt_compare (ResetCodeHash (data a)) code = true.
Proof.
  unfold checkResetCodeLocked. destruct (bool_decide_reflect (ResetCodeHash (data a) = "")); [done|].
  destruct (code_expired now a); [done|]. by destruct (bcrypt_compare _ code).
Qed.

(** C31. The password hash only changes by an authorised operation, and to a strong password: the
    setup of an account not set up, a change that gives the password in force, a reset with a
    token drawn at most thirty minutes before and followed by no reset, or with a code drawn at
    most a day before and not used since. *)
Theorem password_changes_authorised r1 r2 h o :
  r1 ≠ "" → r2 ≠ "" → Forall drawn h → Forall op_time h → sane_zone loc →
  let a := auth_run r1 r2 h in
  ad_PasswordHash (Admin (data (auth_exec a o))) ≠ ad_PasswordHash (Admin (data a)) →
  authorised r1 r2 h o ∧ validatePasswordStrength (sets_to o) = Ok tt.
Proof.
  intros D1 D2 Hh Ht Hz a Hne. pose proof (holds_password_run r1 r2 h D1 D2 Hh) as Hp. fold a in Hp.
  destruct (is_restart o) as [(x & y & ->)|Hr].
  { destruct (restart_keeps a x y (filed_run r1 r2 h D1 D2 Hh)) as (E & _). by rewrite E in Hne. }
  destruct (auth_exec_did a o Hr) as [(d & Hd & E)|[E _]]; [|by rewrite E in Hne].
  unfold auth_exec in Hne. rewrite E in Hne. destruct Hd; cbn in Hne; try done; (split; [|done]); cbn.
  - destruct (credential r1 r2 h) as [[u0 p0]|]; [|done]. cbn in Hp. by destruct Hp as [? _]; congruence.
  - destruct (credential r1 r2 h) as [[u0 p0]|]; cbn in Hp; [|congruence]. destruct Hp as (_ & _ & s & Hs).
    exists u0, p0. split; [done|]. by rewrite <- (proj2 (bcrypt_law _ _ _ Hs)).
  - match goal with X : verifyResetToken _ _ _ = true |- _ => rename X into Hv end.
    unfold verifyResetToken in Hv. destruct (Reset (data a)) as [r|] eqn:Er; [|done].
    destruct (Used r) eqn:Eu; [done|]. destruct (bool_decide_reflect (rt_Token r = tok)) as [<-|]; [|done].
    destruct (token_origin_run r1 r2 h r D1 D2 Hh Er Eu) as (h1 & t & h2 & -> & He & Hn).
    exists h1, t, h2. split_and!; [done| |done].
    apply Forall_app in Ht as [[_ [Ht _]%Forall_cons]%Forall_app _].
    cbn [negb] in Hv. rewrite He, sane_parse in Hv; [|done|done|unfold hour, minute, second; lia].
    unfold after in Hv. destruct (Z.ltb_spec ((t + 30 * minute) / second * second) now); [done|].
    unfold hour, minute, second in *. zdiv.
  - match goal with Hv : checkResetCodeLocked _ _ _ = _ |- _ => destruct (check_code _ _ _ Hv) as (Hx & Hexp & Hc) end.
    destruct (code_origin_run r1 r2 h D1 D2 Hh Hx) as (h1 & t & c & s & h2 & -> & Hg & He & Hn). fold a in Hg, He.
    exists h1, t, c, s, h2. split_and!; [done| | |done].
    + by rewrite <- (proj2 (bcrypt_law _ _ _ Hg)).
    + apply Forall_app in Ht as [[_ [Ht _]%Forall_cons]%Forall_app _].
      unfold code_expired in Hexp. rewrite He, sane_parse in Hexp; [|done|done|unfold hour, minute, second; lia].
      destruct (bool_decide_reflect (fmt_rfc3339 loc (t + 24 * hour) = "")) as [Hnil|_].
      { exfalso. pose proof (sane_parse loc t (24 * hour) Hz Ht ltac:(unfold hour, minute, second; lia)) as Hpp.
        by rewrite Hnil in Hpp. }
      unfold after in Hexp. destruct (Z.ltb_spec ((t + 24 * hour) / second * second) now); [done|].
      unfold hour, minute, second in *. zdiv.
Qed.

(** ** Sessions *)

(** Whether a token is in time: [exp], when set, is later. *)
Definition in_time (now : Time) (c : Claims) : bool :=
  match c_exp c with Some e => bool_decide (e = 0 ∨ now < e * second) | None => true end.

(** Claims are signed into a token that is read back with the same secret, while in time. *)
Context (jwt_law : ∀ s c, ∃ t, jwt_sign s c = Some t ∧ t ≠ "" ∧
  ∀ key now, jwt_parse key now t = if bool_decide (key "HS256" = Some s) && in_time now c then Some c else None).

Lemma secrets_exec a o : filed a → is_Some (file a) →
  JWTSecret (data (auth_exec a o)) = JWTSecret (data a) ∧
  JWTRefreshSecret (data (auth_exec a o)) = JWTRefreshSecret (data a) ∧ is_Some (file (auth_exec a o)).
Proof.
  intros Ha Hf. destruct (is_restart o) as [(x & y & ->)|Hr].
  - destruct (restart_core x y a Ha Hf) as [E1 E2]. unfold auth_exec. cbn [auth_try snd]. rewrite E2.
    by destruct (core_fields _ _ E1) as (_ & E3 & E4 & _).
  - destruct (auth_exec_did a o Hr) as [(d & Hd & E)|[-> _]]; [|done]. unfold auth_exec. rewrite E. cbn.
    by destruct (did_secrets _ _ _ Hd) as [-> ->].
Qed.

Lemma secrets_kept r1 r2 h h' : r1 ≠ "" → r2 ≠ "" → Forall drawn h → Forall drawn h' →
  is_Some (file (auth_run r1 r2 h)) →
  JWTSecret (data (auth_run r1 r2 (h ++ h'))) = JWTSecret (data (auth_run r1 r2 h)) ∧
  JWTRefreshSecret (data (auth_run r1 r2 (h ++ h'))) = JWTRefreshSecret (data (auth_run r1 r2 h)) ∧
  is_Some (file (auth_run r1 r2 (h ++ h'))).
Proof.
  intros D1 D2 Hh. induction h' as [|o h' IH] using rev_ind; intros Hh' Hf; [by rewrite app_nil_r|].
  apply Forall_app in Hh' as [Hh' [Ho _]%Forall_cons]. destruct (IH Hh' Hf) as (E1 & E2 & E3).
  rewrite app_assoc, auth_run_snoc, <- E1, <- E2. apply secrets_exec; [|done].
  apply filed_run; [done|done|]. by apply Forall_app.
Qed.

Lemma create_token t u remember a : ∃ acc ref, CreateToken t u remember a = (acc, ref) ∧ acc ≠ "" ∧ ref ≠ "" ∧
  jwt_sign (JWTSecret (data a)) (access_claims t u (if remember then 7 * 24 else 24)) = Some acc ∧
  jwt_sign (JWTRefreshSecret (data a)) (refresh_claims t u) = Some ref.
Proof.
  unfold CreateToken.
  destruct (jwt_law (JWTSecret (data a)) (access_claims t u (if remember then 7 * 24 else 24))) as (acc & E1 & N1 & _).
  destruct (jwt_law (JWTRefreshSecret (data a)) (refresh_claims t u)) as (ref & E2 & N2 & _).
  rewrite E1, E2. eauto 8.
Qed.

Lemma parse_signed s c t key now : jwt_sign s c = Some t →
  jwt_parse key now t = if bool_decide (key "HS256" = Some s) && in_time now c then Some c else None.
Proof. intros E. destruct (jwt_law s c) as (t' & E' & _ & Hp). rewrite E in E'. by injection E' as ->. Qed.

(** Bearer tokens as the middleware reads them. *)
Lemma auth_bearer now tok cookie a : tok ≠ "" →
  withAuth now ("Bearer " +:+ tok) cookie a =
    match VerifyToken now tok a with Ok u => Some u | Err _ => None end.
Proof.
  intros Hne. unfold withAuth, Users.extractToken. rewrite strip_prefix_app.
  by rewrite (bool_decide_eq_false_2 _ Hne).
Qed.

Definition in_force (now t : Time) (hours : Z) : bool :=
  bool_decide (unix (t + hours * hour) = 0 ∨ now < unix (t + hours * hour) * second).

Lemma access_accepted t u hours tok now a :
  jwt_sign (JWTSecret (data a)) (access_claims t u hours) = Some tok → tok ≠ "" →
  withAuth now ("Bearer " +:+ tok) None a = if in_force now t hours then Some u else None.
Proof.
  intros E Hne. rewrite auth_bearer by done. unfold VerifyToken. rewrite (parse_signed _ _ _ _ _ E).
  unfold hmac_key. cbn [is_hmac]. rewrite bool_decide_eq_true_2 by done. cbn [andb].
  unfold in_time, in_force. cbn. by destruct (bool_decide (_ ∨ _)).
Qed.

Lemma refresh_refused t u tok now a :
  jwt_sign (JWTRefreshSecret (data a)) (refresh_claims t u) = Some tok → tok ≠ "" →
  withAuth now ("Bearer " +:+ tok) None a = None.
Proof.
  intros E Hne. rewrite auth_bearer by done. unfold VerifyToken. rewrite (parse_signed _ _ _ _ _ E).
  destruct (bool_decide _ && _)%bool; [|done]. cbn. done.
Qed.

Lemma refresh_renews t u tok now a : u ≠ "" → tok ≠ "" →
  jwt_sign (JWTRefreshSecret (data a)) (refresh_claims t u) = Some tok →
  if in_force now t (7 * 24)
  then ∃ s, handleRefreshToken now (Some tok) a = (200, s) ∧ s ≠ "" ∧
            jwt_sign (JWTSecret (data a)) (access_claims now u 24) = Some s
  else handleRefreshToken now (Some tok) a = (401, "").
Proof.
  intros Hu Hne E. unfold handleRefreshToken, RefreshAccessToken. rewrite (bool_decide_eq_false_2 _ Hne).
  rewrite (parse_signed _ _ _ _ _ E). unfold hmac_key. cbn [is_hmac].
  rewrite bool_decide_eq_true_2 by done. cbn [andb]. unfold in_time, in_force. cbn [c_exp refresh_claims].
  destruct (bool_decide (_ ∨ _)); [|done]. cbn [c_type c_iss c_sub refresh_claims default negb].
  rewrite !bool_decide_eq_true_2 by done. cbn [negb]. rewrite (bool_decide_eq_false_2 _ Hu).
  destruct (jwt_law (JWTSecret (data a)) (access_claims now u 24)) as (s & Es & Ns & _). exists s. cbn. by rewrite Es.
Qed.

(** C32. A login's access token is good for its day, or its week, and its refresh token renews it for a
    week and is itself never a session, whatever happens after the login: restarts, mail and
    password changes included. *)
Theorem login_session r1 r2 h h' t u p remember acc ref life :
  r1 ≠ "" → r2 ≠ "" → Forall drawn h → Forall drawn h' →
  handleLogin t (Some (u, p, remember)) (auth_run r1 r2 h) = (200, Some ((acc, ref), life)) →
  let a := auth_run r1 r2 (h ++ h') in
  (∀ now, withAuth now ("Bearer " +:+ acc) None a
          = if in_force now t (if remember then 7 * 24 else 24) then Some u else None) ∧
  (∀ now, withAuth now ("Bearer " +:+ ref) None a = None) ∧
  (∀ now, if in_force now t (7 * 24)
          then ∃ s, handleRefreshToken now (Some ref) a = (200, s) ∧
               ∀ now', withAuth now' ("Bearer " +:+ s) None a = if in_force now' now 24 then Some u else None
          else handleRefreshToken now (Some ref) a = (401, "")).
Proof.
  intros D1 D2 Hh Hh' Hl a. unfold handleLogin in Hl.
  destruct (bool_decide_reflect (u = "")) as [|Hu]; [done|].
  destruct (_ || bool_decide (p = ""))%bool; [done|]. destruct (_ || _)%bool; [done|].
  destruct (VerifyCredentials u p (auth_run r1 r2 h)) eqn:Ev; cbn [negb] in Hl; [|done].
  injection Hl as Hc _.
  assert (is_Some (file (auth_run r1 r2 h))) as Hf.
  { unfold VerifyCredentials in Ev. destruct (Initialized (data (auth_run r1 r2 h))) eqn:Ei; [|done].
    destruct (filed_run r1 r2 h D1 D2 Hh) as (_ & _ & H3). destruct (file (auth_run r1 r2 h)); [done|].
    destruct H3 as (x & y & E). by rewrite E in Ei. }
  destruct (secrets_kept r1 r2 h h' D1 D2 Hh Hh' Hf) as (E1 & E2 & _). fold a in E1, E2.
  destruct (create_token t u remember (auth_run r1 r2 h)) as (acc' & ref' & Et & N1 & N2 & S1 & S2).
  rewrite Hc in Et. injection Et as <- <-. rewrite <- E1 in S1. rewrite <- E2 in S2.
  split_and!.
  - intros now. by apply access_accepted.
  - intros now. by eapply refresh_refused.
  - intros now. pose proof (refresh_renews t u ref now a Hu N2 S2) as Hr.
    destruct (in_force now t (7 * 24)); [|done]. destruct Hr as (s & Er & Ns & Es).
    exists s. split; [done|]. intros now'. by apply access_accepted.
Qed.

(** The session a collaborator registers with passes the administrators' check, for a week. *)
Theorem collaborator_passes_admin_check now salt u p k store a tok store' a' :
  handleCollaboratorRegister now salt (Some (u, p, k)) store a = (200, Some tok, store', a') →
  ∀ now', withAuth now' ("Bearer " +:+ tok) None a' = if in_force now' now (7 * 24) then Some u else None.
Proof.
  unfold handleCollaboratorRegister. destruct (_ || _)%bool; [done|]. destruct (_ || _)%bool; [done|].
  destruct (negb _); [done|]. destruct (RegisterCollaborator now salt u p k a) as [[[]|] a1]; [|done].
  intros E. injection E as Ht _ Ea. subst a1. intros now'.
  destruct (create_token now u true a') as (acc & ref & Ec & N1 & _ & S1 & _). rewrite Ec in Ht. cbn in Ht. subst tok.
  by apply access_accepted.
Qed.
End auth_safety.

(** ** What is not as it says *)

(** bcrypt refuses passwords longer than 72 bytes: the strength rule admits 128, and the setup
    then fails for another reason. *)
Theorem long_password_refused `{Encryptor} `{Bcrypt} {loc : Location} now salt u p e a :
  (∀ s q, (72 < String.length q)%nat → bcrypt_gen s q = None) →
  (72 < String.length p)%nat → validatePasswordStrength p = Ok tt → Initialized (data a) = false → u ≠ "" →
  SetupAdmin now salt u p e a = (Err "failed to hash password", a).
Proof.
  intros Hlaw Hl Hs Hi Hu. unfold SetupAdmin. rewrite Hi, (bool_decide_eq_false_2 _ Hu).
  destruct (bool_decide_reflect (p = "")) as [->|]; [cbn in Hl; lia|]. by rewrite Hs, Hlaw.
Qed.

(** A guest key that expired, which admits no request any more, still registers a collaborator. *)
Theorem expired_key_registers now key rec ks a :
  GetGuestKeyRecord key ks = Some rec → Revoked rec = false →
  Forall (λ c, co_GuestKey c ≠ key) (Collaborators (data a)) →
  expired now rec = true →
  ValidateGuestKey now key (Some ks) = None ∧ ValidateGuestKeyForRegistration key (Some ks) a = true.
Proof.
  intros Hg Hr Hc He. split.
  - unfold ValidateGuestKey. destruct (ParseGuestKeyFormat key); [|done].
    unfold GetGuestKeyRecord in Hg. by rewrite Hg, Hr, He.
  - unfold ValidateGuestKeyForRegistration. rewrite Hg, Hr.
    apply negb_true_iff, not_true_iff_false. rewrite existsb_exists. intros (c & Hin & Hk).
    apply bool_decide_eq_true in Hk. rewrite Forall_forall in Hc. by apply (Hc c); [apply list_elem_of_In|].
Qed.

(** ** An instance of the parameters *)

Module AuthDemo.
#[local] Instance enc : Encryptor := {| ready := false; ephemeral := false; seal _ := None; unseal _ := None |}.
#[local] Instance bcr : Bcrypt := {|
  bcrypt_gen _ p := if (72 <? String.length p)%nat then None else Some ("$" +:+ str_of (bcrypt_key p));
  bcrypt_compare h q := bool_decide (h = "$" +:+ str_of (bcrypt_key q)) |}.

Lemma key_bytes p : is_bytes (bcrypt_key p).
Proof.
  unfold bcrypt_key, is_bytes. apply Forall_forall. intros x Hx. apply list_elem_of_fmap in Hx as (i & -> & _).
  rewrite nth_lookup. destruct ((bytes_of p ++ [0]) !! _) as [y|] eqn:E; cbn; [|lia].
  assert (is_bytes (bytes_of p ++ [0])) as Hb by (apply Forall_app; split; [apply bytes_of_bytes|repeat constructor; lia]).
  by apply (Forall_lookup_1 _ _ _ _ Hb E).
Qed.

Lemma bcr_law salt p h : bcrypt_gen salt p = Some h → h ≠ "" ∧ ∀ q, bcrypt_compare h q = same_password p q.
Proof.
  cbn [bcrypt_gen bcrypt_compare bcr]. destruct (72 <? String.length p)%nat; [done|]. intros E.
  assert (h = "$" +:+ str_of (bcrypt_key p)) as -> by congruence. clear E. split; [done|].
  intros q. unfold same_password. apply bool_decide_ext. split; [|intros E; by rewrite E].
  intros E. apply append_inj_r in E. rewrite <- (bytes_of_str_of (bcrypt_key p)), <- (bytes_of_str_of (bcrypt_key q)) by apply key_bytes.
  by rewrite E.
Qed.

(** Tokens that spell out the secret and the claims. *)
Fixpoint bits (p : positive) : string :=
  match p with xH => "" | xO p => String "0" (bits p) | xI p => String "1" (bits p) end.
Fixpoint unbits (s : string) : positive :=
  match s with EmptyString => 1 | String c s => if Ascii.eqb c "0" then xO (unbits s) else xI (unbits s) end%positive.
Lemma unbits_bits p : unbits (bits p) = p.
Proof. induction p as [p IH|p IH|]; cbn; by rewrite ?IH. Qed.

Definition flat : Type := string * (option string * option Z * option Z * option string * option string).
Definition to_flat (s : string) (c : Claims) : flat := (s, (c_sub c, c_exp c, c_iat c, c_iss c, c_type c)).
Definition of_flat (f : flat) : Claims := let '(_, (u, e, i, s, t)) := f in
  {| c_sub := u; c_exp := e; c_iat := i; c_iss := s; c_type := t |}.
#[local] Instance tok : JWT := {|
  jwt_sign s c := Some (String "T" (bits (encode (to_flat s c))));
  jwt_parse key now t :=
    match t with
    | String "T" w =>
        match (decode (unbits w) : option flat) with
        | Some f => if bool_decide (key "HS256" = Some f.1) && in_time now (of_flat f) then Some (of_flat f) else None
        | None => None
        end
    | _ => None
    end |}.

Lemma tok_law s c : ∃ t, jwt_sign s c = Some t ∧ t ≠ "" ∧
  ∀ key now, jwt_parse key now t = if bool_decide (key "HS256" = Some s) && in_time now c then Some c else None.
Proof.
  eexists. split; [done|]. split; [done|]. intros key now. cbn [jwt_parse tok].
  rewrite unbits_bits, decode_encode. by destruct c.
Qed.

Definition noon : Time := 1786237320 * second.
Definition old_pw : string := "Old-password-1".
Definition new_pw : string := "New-password-2".
Definition h : list auth_op :=
  [OSetup noon "salt" "ann" old_pw "ann@example.org"; OToken (noon + 60 * second) "tok"; ORestart "x" "y"].
Lemma drawn_h : Forall drawn h.
Proof. by repeat constructor. Qed.
End AuthDemo.

Lemma password_follows_history_witness :
  @VerifyCredentials AuthDemo.bcr "ann" AuthDemo.old_pw
    (@auth_run AuthDemo.enc AuthDemo.bcr UTC "s" "r" AuthDemo.h) = true.
Proof.
  rewrite (@password_follows_history AuthDemo.enc AuthDemo.bcr UTC AuthDemo.bcr_law "s" "r" AuthDemo.h);
    [by vm_compute|done|done|apply AuthDemo.drawn_h].
Defined.

Lemma password_changes_authorised_witness :
  @authorised AuthDemo.enc AuthDemo.bcr UTC "s" "r" AuthDemo.h
    (OReset (AuthDemo.noon + 1000 * second) "salt" "tok" AuthDemo.new_pw).
Proof.
  apply (@password_changes_authorised AuthDemo.enc AuthDemo.bcr UTC AuthDemo.bcr_law "s" "r" AuthDemo.h
           (OReset (AuthDemo.noon + 1000 * second) "salt" "tok" AuthDemo.new_pw)).
  - done.
  - done.
  - apply AuthDemo.drawn_h.
  - repeat constructor; vm_compute; by intros.
  - intros t. by vm_compute.
  - vm_compute. discriminate.
Defined.

Lemma login_session_witness :
  ∃ acc, @withAuth AuthDemo.tok (AuthDemo.noon + 3600 * second) ("Bearer " +:+ acc) None
    (@auth_run AuthDemo.enc AuthDemo.bcr UTC "s" "r"
       (AuthDemo.h ++ [OReset (AuthDemo.noon + 1000 * second) "salt" "tok" AuthDemo.new_pw])) = Some "ann".
Proof.
  destruct (@CreateToken AuthDemo.tok AuthDemo.noon "ann" false
    (@auth_run AuthDemo.enc AuthDemo.bcr UTC "s" "r" AuthDemo.h)) as [acc ref] eqn:E.
  exists acc.
  destruct (@login_session AuthDemo.enc AuthDemo.bcr AuthDemo.tok UTC AuthDemo.tok_law "s" "r" AuthDemo.h
    [OReset (AuthDemo.noon + 1000 * second) "salt" "tok" AuthDemo.new_pw]
    AuthDemo.noon "ann" AuthDemo.old_pw false acc ref 86400) as [Hs _]; [done|done|apply AuthDemo.drawn_h|by repeat constructor| |].
  - unfold handleLogin. rewrite E. by vm_compute.
  - rewrite Hs. by vm_compute.
Defined.
