(* ===== verification/ProxyAuth.v ===== *)
(** * Who may call the /v1 routes (middleware.go, network_relay.go)

    [withProxyAuth] gives a request its role, [handleRelayToLocal] sends a request that came
    for this node through the relay routes back to them, and the key type the handlers go by
    ([RequestKeyType], in [Chat]) is read off the result. The address of the client and the
    configured values are arguments. *)

From S2P Require Import Prelude GoTime Bytes GuestKeys NetIP Relay RelaySafety.
From S2P Require TrustPool ContribQuota Users Chat.

(** A request: its relay headers and body, its other headers the program reads or writes, what
    rides in its context, and the address of the client. *)
Record http_request := {
  p_relay : relay_request; p_body_ok : bool; p_auth : string; p_role : string; p_owner : string;
  p_consumer : string; p_guest_pool : string; p_guest_node : string;
  p_keytype : string; p_guestkey : string; p_dispatched : bool; p_ip : string }.

Definition with_role (role owner : string) (r : http_request) : http_request := {|
  p_relay := p_relay r; p_body_ok := p_body_ok r; p_auth := p_auth r; p_role := role; p_owner := owner;
  p_consumer := p_consumer r; p_guest_pool := p_guest_pool r; p_guest_node := p_guest_node r;
  p_keytype := p_keytype r; p_guestkey := p_guestkey r; p_dispatched := p_dispatched r; p_ip := p_ip r |}.
Definition with_consumer (name : string) (r : http_request) : http_request := {|
  p_relay := p_relay r; p_body_ok := p_body_ok r; p_auth := p_auth r; p_role := p_role r; p_owner := p_owner r;
  p_consumer := name; p_guest_pool := p_guest_pool r; p_guest_node := p_guest_node r;
  p_keytype := p_keytype r; p_guestkey := p_guestkey r; p_dispatched := p_dispatched r; p_ip := p_ip r |}.
Definition with_guest (pool guest_node key : string) (r : http_request) : http_request := {|
  p_relay := p_relay r; p_body_ok := p_body_ok r; p_auth := p_auth r; p_role := p_role r; p_owner := p_owner r;
  p_consumer := p_consumer r; p_guest_pool := pool; p_guest_node := guest_node;
  p_keytype := p_keytype r; p_guestkey := key; p_dispatched := p_dispatched r; p_ip := p_ip r |}.
Definition with_relay (q : relay_request) (r : http_request) : http_request := {|
  p_relay := q; p_body_ok := p_body_ok r; p_auth := p_auth r; p_role := p_role r; p_owner := p_owner r;
  p_consumer := p_consumer r; p_guest_pool := p_guest_pool r; p_guest_node := p_guest_node r;
  p_keytype := p_keytype r; p_guestkey := p_guestkey r; p_dispatched := p_dispatched r; p_ip := p_ip r |}.
Definition with_auth (auth : string) (r : http_request) : http_request := {|
  p_relay := p_relay r; p_body_ok := p_body_ok r; p_auth := auth; p_role := p_role r; p_owner := p_owner r;
  p_consumer := p_consumer r; p_guest_pool := p_guest_pool r; p_guest_node := p_guest_node r;
  p_keytype := p_keytype r; p_guestkey := p_guestkey r; p_dispatched := p_dispatched r; p_ip := p_ip r |}.
Definition with_path (path : string) (r : relay_request) : relay_request := {|
  rq_method := rq_method r; rq_path := path; rq_body := rq_body r; rq_NodeID := rq_NodeID r;
  rq_NodeAuth := rq_NodeAuth r; rq_sig := rq_sig r; rq_ts := rq_ts r; rq_nonce := rq_nonce r;
  rq_verified := rq_verified r |}.
Definition dispatch_as (keytype : string) (r : http_request) : http_request := {|
  p_relay := p_relay r; p_body_ok := p_body_ok r; p_auth := p_auth r; p_role := p_role r; p_owner := p_owner r;
  p_consumer := p_consumer r; p_guest_pool := p_guest_pool r; p_guest_node := p_guest_node r;
  p_keytype := if bool_decide (keytype = "") then p_keytype r else keytype; p_guestkey := p_guestkey r;
  p_dispatched := true; p_ip := p_ip r |}.

(** What the node knows: its proxy key and the addresses of anonymous administrators, its
    consumers, its guest keys, whether it shares, and its trust pool. *)
Record access_node := {
  x_proxyKey : string; x_anonymous : string; x_users : Users.MultiUserManager;
  x_keys : option keys; x_shared : bool; x_fed : option TrustPool.FederationManager; x_boot : Time }.

(** ** Addresses *)

(** The entries of a comma-separated list, without spaces around them. *)
Definition isAllowedAnonymousIP (ip allowlist : string) : bool :=
  let allowlist := trimSpace allowlist in
  if bool_decide (allowlist = "") || bool_decide (allowlist = "*") then false
  else existsb (λ c, bool_decide (trimSpace c = ip)) (split_on "," allowlist).

Definition anonymousAdminAllowed (x : access_node) (r : http_request) : bool :=
  if p_dispatched r then false
  else isAllowedAnonymousIP (p_ip r)
         (if bool_decide (trimSpace (x_anonymous x) = "") then "127.0.0.1,::1" else x_anonymous x).

Definition isOriginAllowed (origin whitelist : string) : bool :=
  existsb (λ c, let allowed := trimSpace c in
                negb (bool_decide (allowed = "")) && bool_decide (allowed = origin)) (split_on "," whitelist).

Definition private_ranges : list (bytes * Z) :=
  [([10;0;0;0], 8); ([172;16;0;0], 12); ([192;168;0;0], 16); ([169;254;0;0], 16); ([100;64;0;0], 10);
   (252 :: replicate 15 0, 7)].

Section parse_ip.
(** [net.ParseIP]. *)
Context (ParseIP : string → option bytes).

Definition isLocalOrPrivateIP (ip : string) : bool :=
  match ParseIP ip with
  | None => false
  | Some b => if IsLoopback b then true else existsb (λ nn, in_cidr nn.1 nn.2 b) private_ranges
  end.

(** [cf]: the header Cf-Connecting-Ip. Whether the request goes on. *)
Definition localOnly (cf : string) (r : http_request) : bool :=
  if match ParseIP cf with Some b => negb (IsLoopback b) && negb (IsPrivate b) | None => false end then false
  else if p_dispatched r || negb (isLocalOrPrivateIP (p_ip r)) then false
  else true.
End parse_ip.

(** ** The /v1 routes *)

Section access.
Context (VerifyJSONSig : string → RelayAuthEnvelope → string → bool).
Context (x : access_node).

(** The second way in: a signed forward. [None] when there is none, or when it is refused. *)
Definition signed_forward (now : Time) (r : http_request) (c : replay_cache)
    : option http_request * replay_cache :=
  if negb (bool_decide (sender_id (p_relay r) = "")) && negb (bool_decide (rq_sig (p_relay r) = ""))
     && p_body_ok r && (String.length (rq_body (p_relay r)) <=? maxGatewayBodySize)%nat
  then
    let '((status, _), (q, c)) := verifyRelayForwardAuth VerifyJSONSig (x_boot x) now now (x_fed x) (p_relay r) c in
    if status =? 0 then
      let r := with_relay q r in
      (Some (if bool_decide (p_role r = "admin") then with_role "public" "" r else r), c)
    else (None, c)
  else (None, c).

(** The ways in by a bearer key, the public one excepted. *)
Definition by_key (now : Time) (key : string) (r : http_request) : option http_request :=
  if negb (bool_decide (x_proxyKey x = "")) && bool_decide (key = x_proxyKey x)
  then Some (with_role "admin" "" r)
  else match Users.ValidateAPIKey key (x_users x) with
  | Some u => Some (with_consumer (Users.u_Name u) (with_role "consumer" (Users.u_ID u) r))
  | None =>
      match ClassifyKey key with
      | KeyTypeGuest =>
          match GetGuestKeyAccessPublicPool now (x_shared x) key (x_keys x) with
          | None => None
          | Some (nodeID, true) => Some (with_role "public" "" (with_guest "true" (p_guest_node r) key r))
          | Some (nodeID, false) => Some (with_role "guest" "" (with_guest (p_guest_pool r) nodeID key r))
          end
      | _ =>
          if bool_decide (x_proxyKey x = "") && negb (Users.HasConsumers (Some (x_users x)))
             && anonymousAdminAllowed x r
          then Some (with_role "admin" "" r) else None
      end
  end.

(** The request as it reaches the handler, [None] for 401. *)
Definition withProxyAuth (now : Time) (r : http_request) (c : replay_cache)
    : option http_request * replay_cache :=
  if negb (bool_decide (p_keytype r = "")) then (Some r, c)
  else match signed_forward now r c with
  | (Some r, c) => (Some r, c)
  | (None, c) =>
      match strip_prefix "Bearer " (p_auth r) with
      | Some key =>
          if bool_decide (key = PublicKeyValue) then (Some (with_role "public" "" r), c)
          else (by_key now key r, c)
      | None =>
          if bool_decide (x_proxyKey x = "") && negb (Users.HasConsumers (Some (x_users x)))
             && anonymousAdminAllowed x r
          then (Some (with_role "admin" "" r), c) else (None, c)
      end
  end.

(** [strings.TrimPrefix(auth, "Bearer ")]. *)
Definition bearer_of (auth : string) : string := default auth (strip_prefix "Bearer " auth).

(** The key type the handlers go by. *)
Definition key_type (now : Time) (r : http_request) : string :=
  Chat.RequestKeyType now (x_shared x) (x_keys x)
    {| Chat.internalKeyType := p_keytype r; Chat.role := p_role r; Chat.bearer := bearer_of (p_auth r) |}.

(** ** The relay routes of this node *)

(** The key type the relay gives a request, and the headers it sets; an error is a status. *)
Definition relay_key (now : Time) (r : http_request) : Z + (string * http_request) :=
  let key := bearer_of (p_auth r) in
  match ClassifyKey key with
  | KeyTypePublic => inr ("public", r)
  | KeyTypeGuest =>
      match GetGuestKeyAccessPublicPool now (x_shared x) key (x_keys x) with
      | None => inl 401
      | Some (nodeID, pool) =>
          let r := with_auth "" r in
          if pool then inr ("public", with_guest "true" (p_guest_node r) key r)
          else inr ("guest", with_guest (p_guest_pool r) nodeID key r)
      end
  | KeyTypeProxy =>
      if negb (bool_decide (x_proxyKey x = "")) && bool_decide (key = x_proxyKey x) then inr ("proxy", r)
      else match Users.ValidateAPIKey key (x_users x) with
      | Some u => inr ("consumer", with_consumer (Users.u_Name u) (with_role (p_role r) (Users.u_ID u) r))
      | None => inl 401
      end
  | KeyTypeUnknown => inr ("", r)
  end.

(** [rest]: the path after the id of the node; [ready]: the dispatcher is set up. *)
Definition handleRelayToLocal (now : Time) (rest : option string) (ready : bool) (r : http_request)
    : Z + http_request :=
  match relay_key now (with_role "" "" r) with
  | inl status => inl status
  | inr (keytype, r) =>
      let path := "/" +:+ default "" rest in
      if negb (isAllowedRelayPath path) then inl 403
      else if negb ready then inl 503
      else inr (dispatch_as keytype (with_relay (with_path path (p_relay r)) r))
  end.
End access.

(** ** Who gets full access *)

(** The key types [FilterByAccessControl] gives everything. *)
Definition full (kt : string) : Prop := kt = "admin" ∨ kt = "proxy".

Section guarantees.
Context (VerifyJSONSig : string → RelayAuthEnvelope → string → bool) (x : access_node).

Definition anonymous_admin (r : http_request) : Prop :=
  x_proxyKey x = "" ∧ Users.HasConsumers (Some (x_users x)) = false ∧ anonymousAdminAllowed x r = true.

(** A forward that is accepted: the pool holds its sender, under whose key it is signed, it is
    fresh and of this run, and its signature was not accepted in the last five minutes. *)
Record accepted_forward (now : Time) (c : replay_cache) (q : relay_request) : Prop := {
  af_genuine : ∃ f p, x_fed x = Some f ∧ genuine VerifyJSONSig (x_boot x) now f q p;
  af_new : ∀ first, c !! rq_sig q = Some first → first ≤ now - relaySigMaxAge }.

(** The four reasons for full access of a request the relay did not dispatch. *)
Inductive earned (now : Time) (c : replay_cache) (r : http_request) : Prop :=
  | earned_proxy : x_proxyKey x ≠ "" → strip_prefix "Bearer " (p_auth r) = Some (x_proxyKey x) → earned now c r
  | earned_consumer key u : strip_prefix "Bearer " (p_auth r) = Some key →
      Users.ValidateAPIKey key (x_users x) = Some u → ClassifyKey key = KeyTypeProxy → earned now c r
  | earned_anonymous : anonymous_admin r → earned now c r
  | earned_forward : accepted_forward now c (p_relay r) →
      ClassifyKey (bearer_of (p_auth r)) = KeyTypeProxy → earned now c r.

Lemma key_type_wire now r : p_keytype r = "" →
  key_type x now r =
    if bool_decide (p_role r = "admin") then "admin"
    else match ClassifyKey (bearer_of (p_auth r)) with
    | KeyTypePublic => "public"
    | KeyTypeGuest =>
        match GetGuestKeyAccessPublicPool now (x_shared x) (bearer_of (p_auth r)) (x_keys x) with
        | Some (_, true) => "public"
        | _ => "guest"
        end
    | KeyTypeProxy => "proxy"
    | KeyTypeUnknown => "unknown"
    end.
Proof.
  intros Hk. unfold key_type, Chat.RequestKeyType. cbn [Chat.internalKeyType Chat.role Chat.bearer].
  rewrite Hk. reflexivity.
Qed.

Lemma full_key_type now r :
  full (key_type x now r) → p_keytype r = "" → p_role r = "admin" ∨ ClassifyKey (bearer_of (p_auth r)) = KeyTypeProxy.
Proof.
  intros Hf Hk. rewrite key_type_wire in Hf by done.
  destruct (bool_decide_reflect (p_role r = "admin")) as [|_]; [by left|]. right.
  destruct (ClassifyKey (bearer_of (p_auth r))); [done|exfalso..]; [|by destruct Hf..].
  destruct (GetGuestKeyAccessPublicPool _ _ _ _) as [[? []]|]; by destruct Hf.
Qed.

Lemma not_full now r :
  p_keytype r = "" → p_role r ≠ "admin" → ClassifyKey (bearer_of (p_auth r)) ≠ KeyTypeProxy →
  ¬ full (key_type x now r).
Proof. intros Hk Hr Hc Hf. by destruct (full_key_type now r Hf Hk). Qed.

Lemma signed_forward_request now r c r' c' :
  signed_forward VerifyJSONSig x now r c = (Some r', c') →
  p_role r' ≠ "admin" ∧ p_keytype r' = p_keytype r ∧ p_auth r' = p_auth r.
Proof.
  unfold signed_forward. destruct (_ && _)%bool; [|done].
  destruct (verifyRelayForwardAuth _ _ _ _ _ _ _) as [[status m] [q c1]]. destruct (status =? 0); [|done].
  intros E. injection E as <- <-. cbn. destruct (bool_decide_reflect (p_role r = "admin")); [|done]. by split_and!.
Qed.

(** A forward let through was checked, unless the request carried the mark of one. *)
Lemma signed_forward_accepted now r c r' c' :
  rq_verified (p_relay r) = false →
  signed_forward VerifyJSONSig x now r c = (Some r', c') → accepted_forward now c (p_relay r).
Proof.
  intros Hv. unfold signed_forward.
  destruct (bool_decide_reflect (sender_id (p_relay r) = "")) as [|Hs]; [done|]. cbn [negb andb].
  destruct (_ && _)%bool; [|done].
  pose proof (verify_accepts VerifyJSONSig (x_boot x) now now (x_fed x) (p_relay r) c (conj Hv Hs)) as Ha.
  destruct (verifyRelayForwardAuth _ _ _ _ _ _ _) as [[status m] [q c1]].
  destruct Ha as [(-> & f & p & Hf & Hg & Hn & _)|(Hne & _)]; [|by rewrite (proj2 (Z.eqb_neq _ _) Hne)].
  intros _. split; [by exists f, p|]. intros first Hfirst. unfold noteRelayReplay in Hn. rewrite Hfirst in Hn.
  destruct (Z.ltb_spec (now - relaySigMaxAge) first); [done|lia].
Qed.

Lemma bearer_strip auth key : strip_prefix "Bearer " auth = Some key → bearer_of auth = key.
Proof. unfold bearer_of. by intros ->. Qed.

Lemma classify_public : ClassifyKey PublicKeyValue = KeyTypePublic.
Proof. reflexivity. Qed.

(** The headers of an updated request. *)
Ltac headers H :=
  cbn [p_role p_auth p_keytype p_dispatched with_role with_consumer with_guest with_auth with_relay dispatch_as] in H.

Lemma guest_not_full now key r r' :
  strip_prefix "Bearer " (p_auth r) = Some key → p_keytype r = "" → ClassifyKey key = KeyTypeGuest →
  match GetGuestKeyAccessPublicPool now (x_shared x) key (x_keys x) with
  | None => None
  | Some (nodeID, true) => Some (with_role "public" "" (with_guest "true" (p_guest_node r) key r))
  | Some (nodeID, false) => Some (with_role "guest" "" (with_guest (p_guest_pool r) nodeID key r))
  end = Some r' →
  ¬ full (key_type x now r').
Proof.
  intros Hb Hk Hc. destruct (GetGuestKeyAccessPublicPool _ _ _ _) as [[nodeID []]|]; [..|done];
    intros E; injection E as <-; (apply not_full; [exact Hk|done|]);
    cbn [p_auth with_role with_guest]; rewrite (bearer_strip _ _ Hb); congruence.
Qed.

Lemma by_key_full now key r r' :
  strip_prefix "Bearer " (p_auth r) = Some key → p_keytype r = "" →
  by_key x now key r = Some r' → full (key_type x now r') →
  (x_proxyKey x ≠ "" ∧ key = x_proxyKey x)
  ∨ (∃ u, Users.ValidateAPIKey key (x_users x) = Some u ∧ ClassifyKey key = KeyTypeProxy)
  ∨ anonymous_admin r.
Proof.
  intros Hb Hk. unfold by_key.
  destruct (bool_decide_reflect (x_proxyKey x = "")) as [Hp|Hp]; cbn [negb andb];
    [|destruct (bool_decide_reflect (key = x_proxyKey x)); [by auto|]].
  all: destruct (Users.ValidateAPIKey key (x_users x)) as [u|] eqn:Hv;
    [intros E Hf; injection E as <-; right; left; exists u; split; [done|];
     destruct (full_key_type _ _ Hf) as [|Hc]; [done..|]; headers Hc; by rewrite (bearer_strip _ _ Hb) in Hc|].
  all: destruct (ClassifyKey key) eqn:Hc.
  2, 6: intros E Hf; by destruct (guest_not_full now key r r' Hb Hk Hc E).
  all: try rewrite (bool_decide_eq_false_2 _ Hp); try (rewrite (bool_decide_eq_true_2 _ Hp)); cbn [andb]; try done.
  all: destruct (Users.HasConsumers _) eqn:Hh; cbn [negb andb]; [done|];
    destruct (anonymousAdminAllowed x r) eqn:Ha; [|done]; intros _ _; right; right; by split_and!.
Qed.

(** The reasons, with a forward as the check let it through. *)
Lemma full_access_reasons now r c r' c' :
  p_keytype r = "" → withProxyAuth VerifyJSONSig x now r c = (Some r', c') → full (key_type x now r') →
  earned now c r
  ∨ (∃ r1, signed_forward VerifyJSONSig x now r c = (Some r1, c') ∧ ClassifyKey (bearer_of (p_auth r)) = KeyTypeProxy).
Proof.
  intros Hk. unfold withProxyAuth. rewrite Hk, bool_decide_eq_true_2 by done. cbn [negb].
  destruct (signed_forward VerifyJSONSig x now r c) as [[r1|] c1] eqn:Hs.
  - intros E Hf. injection E as <- <-. destruct (signed_forward_request _ _ _ _ _ Hs) as (Hr & Hk1 & Ha).
    destruct (full_key_type _ _ Hf) as [|Hc]; [congruence|done|]. rewrite Ha in Hc. right. by exists r1.
  - destruct (strip_prefix "Bearer " (p_auth r)) as [key|] eqn:Hb.
    + destruct (bool_decide_reflect (key = PublicKeyValue)) as [->|_].
      * intros E Hf. injection E as <- <-. destruct (full_key_type _ _ Hf) as [|Hc]; [done..|].
        headers Hc. by rewrite (bearer_strip _ _ Hb) in Hc.
      * intros E Hf. injection E as E <-. left.
        destruct (by_key_full now key r r' Hb Hk E Hf) as [[Hp ->]|[(u & Hv & Hc)|Ha]];
          [by apply earned_proxy|by eapply earned_consumer|by apply earned_anonymous].
    + destruct (bool_decide_reflect (x_proxyKey x = "")) as [Hp|]; cbn [andb]; [|done].
      destruct (Users.HasConsumers _) eqn:Hh; cbn [negb andb]; [done|].
      destruct (anonymousAdminAllowed x r) eqn:Ha; [|done]. intros E Hf. left. by apply earned_anonymous.
Qed.

Lemma relay_key_type now r kt r1 :
  p_keytype r = "" → relay_key x now r = inr (kt, r1) →
  p_keytype r1 = "" ∧ p_role r1 = p_role r ∧
  ((kt = "proxy" ∧ x_proxyKey x ≠ "" ∧ bearer_of (p_auth r) = x_proxyKey x)
   ∨ kt = "public" ∨ kt = "guest" ∨ kt = "consumer"
   ∨ (kt = "" ∧ ClassifyKey (bearer_of (p_auth r)) = KeyTypeUnknown ∧ r1 = r)).
Proof.
  intros Hk. unfold relay_key. destruct (ClassifyKey (bearer_of (p_auth r))) eqn:Hc.
  - destruct (bool_decide_reflect (x_proxyKey x = "")) as [|Hp]; cbn [negb andb];
      [|destruct (bool_decide_reflect (bearer_of (p_auth r) = x_proxyKey x)); cbn [negb andb];
        [intros E; injection E as <- <-; by auto 7|]].
    all: destruct (Users.ValidateAPIKey _ _); [|done]; intros E; injection E as <- <-; cbn; by auto 7.
  - destruct (GetGuestKeyAccessPublicPool _ _ _ _) as [[nodeID []]|]; [..|done]; intros E; injection E as <- <-;
      cbn; by auto 7.
  - intros E; injection E as <- <-. by auto 7.
  - intros E; injection E as <- <-. by auto 10.
Qed.

(** Through the relay routes of the node, only the proxy key gives full access: not the address of
    the client, not the signature of another node, and not the key of a consumer. *)
Lemma relay_needs_proxy_key now now' rest ready r r1 c r2 c' :
  p_keytype r = "" →
  handleRelayToLocal x now rest ready r = inr r1 →
  withProxyAuth VerifyJSONSig x now' r1 c = (Some r2, c') → full (key_type x now' r2) →
  x_proxyKey x ≠ "" ∧ bearer_of (p_auth r) = x_proxyKey x.
Proof.
  intros Hk Hh Hw Hf. unfold handleRelayToLocal in Hh.
  destruct (relay_key x now (with_role "" "" r)) as [|[kt r0]] eqn:Hr; [done|].
  destruct (negb _); [done|]. destruct (negb ready); [done|]. injection Hh as <-.
  destruct (relay_key_type now (with_role "" "" r) kt r0 Hk Hr) as (Hk0 & Hrole & Hkt). headers Hrole. headers Hkt.
  set (r1 := dispatch_as kt _) in *.
  assert (Hkt1 : p_keytype r1 = kt).
  { subst r1. cbn. destruct (bool_decide_reflect (kt = "")) as [->|]; [done|done]. }
  destruct Hkt as [(-> & Hp & Hb)|[->|[->|[->|(-> & Hc & ->)]]]]; [done|..].
  1-3: unfold withProxyAuth in Hw; rewrite Hkt1 in Hw; cbn in Hw; injection Hw as <- <-;
    exfalso; unfold key_type, Chat.RequestKeyType in Hf; cbn [Chat.internalKeyType] in Hf; rewrite Hkt1 in Hf;
    by destruct Hf.
  destruct (full_access_reasons now' r1 c r2 c' Hkt1 Hw Hf)
    as [[Hp Hs|key u Hs Hv Hpc|(_ & _ & Ha)|_ Hpc]|(r' & _ & Hpc)].
  - split; [done|]. by apply bearer_strip in Hs.
  - exfalso. subst r1. headers Hs. apply bearer_strip in Hs. congruence.
  - exfalso. unfold anonymousAdminAllowed in Ha. by subst r1.
  - exfalso. subst r1. headers Hpc. congruence.
  - exfalso. subst r1. headers Hpc. congruence.
Qed.

(** C33. A request from the wire has full access to the handlers of the /v1 routes, as an administrator or
    with the proxy key type that is given as much, only with a reason. Sent to the routes
    themselves, it came with the proxy key, or with a key of the proxy class of an enabled
    consumer, or from an address of the list on a node without keys and consumers, or beside any
    key of the proxy class as the forward of a node of the trust pool, signed under the key the
    pool holds over its method, path, body, time and nonce, at most five minutes old, stamped in
    this run and not accepted within the last five minutes. Sent through the relay routes of the
    node, whatever the relay noted of it ([q]), it came with the proxy key. No header it carries
    gives it that. *)
Theorem full_access_earned now r c :
  p_keytype r = "" → rq_verified (p_relay r) = false →
  (∀ r' c', withProxyAuth VerifyJSONSig x now r c = (Some r', c') → full (key_type x now r') → earned now c r) ∧
  (∀ then_ q rest ready r1 r' c', handleRelayToLocal x then_ rest ready (with_relay q r) = inr r1 →
     withProxyAuth VerifyJSONSig x now r1 c = (Some r', c') → full (key_type x now r') →
     x_proxyKey x ≠ "" ∧ bearer_of (p_auth r) = x_proxyKey x).
Proof.
  intros Hk Hv. split.
  - intros r' c' Hw Hf. destruct (full_access_reasons now r c r' c' Hk Hw Hf) as [|(r1 & Hs & Hc)]; [done|].
    apply earned_forward; [by eapply signed_forward_accepted|done].
  - intros then_ q rest ready r1 r' c'. exact (relay_needs_proxy_key then_ now rest ready (with_relay q r) r1 c r' c' Hk).
Qed.

(** ** What the key of a consumer gives *)

(** On the /v1 routes it is of the proxy type, with access to everything. *)
Theorem consumer_key_direct now r c key u :
  p_keytype r = "" → rq_sig (p_relay r) = "" → p_auth r = "Bearer " +:+ key →
  Users.ValidateAPIKey key (x_users x) = Some u → ClassifyKey key = KeyTypeProxy → key ≠ x_proxyKey x →
  ∃ r', withProxyAuth VerifyJSONSig x now r c = (Some r', c) ∧ key_type x now r' = "proxy".
Proof.
  intros Hk Hs Ha Hv Hc Hne. unfold withProxyAuth, signed_forward.
  rewrite Hk, Hs, Ha, strip_prefix_app, bool_decide_eq_true_2 by done. cbn [negb].
  rewrite andb_false_r. cbn [andb].
  rewrite bool_decide_eq_false_2 by (intros ->; done). unfold by_key.
  rewrite (bool_decide_eq_false_2 _ Hne), andb_false_r, Hv. eexists. split; [done|].
  rewrite key_type_wire by done. cbn [p_role with_role with_consumer p_auth].
  unfold bearer_of. rewrite Ha, strip_prefix_app. cbn [default from_option id]. by rewrite Hc.
Qed.

(** Through the relay routes it is of the consumer type. *)
Theorem consumer_key_by_relay now r key u kt r1 :
  p_auth r = "Bearer " +:+ key → Users.ValidateAPIKey key (x_users x) = Some u →
  ClassifyKey key = KeyTypeProxy → key ≠ x_proxyKey x →
  relay_key x now r = inr (kt, r1) → kt = "consumer".
Proof.
  intros Ha Hv Hc Hne. unfold relay_key, bearer_of. rewrite Ha, strip_prefix_app. cbn [default from_option id].
  rewrite Hc, (bool_decide_eq_false_2 _ Hne), andb_false_r, Hv. intros E. by injection E as <- _.
Qed.

(** A node of the trust pool gets full access by sending any key of the proxy class with a request it
    signs. *)
Theorem forward_with_any_key now r c r' c' :
  p_keytype r = "" → signed_forward VerifyJSONSig x now r c = (Some r', c') →
  ClassifyKey (bearer_of (p_auth r)) = KeyTypeProxy →
  withProxyAuth VerifyJSONSig x now r c = (Some r', c') ∧ key_type x now r' = "proxy".
Proof.
  intros Hk Hs Hc. destruct (signed_forward_request _ _ _ _ _ Hs) as (Hr & Hk1 & Ha). split.
  - unfold withProxyAuth. by rewrite Hk, bool_decide_eq_true_2, Hs.
  - rewrite key_type_wire by congruence. by rewrite Ha, (bool_decide_eq_false_2 _ Hr), Hc.
Qed.
End guarantees.

(** ** Addresses *)

Definition reserved_v4 (a b : Z) : bool :=
  (a =? 127) || (a =? 10) || ((a =? 172) && (16 <=? b) && (b <=? 31)) || ((a =? 192) && (b =? 168))
  || ((a =? 169) && (b =? 254)) || ((a =? 100) && (64 <=? b) && (b <=? 127)).

(** For an IPv4 address, written in either form, being local or private is a matter of its first
    two bytes. *)
Theorem local_or_private_v4 ParseIP s ip a b c d :
  ParseIP s = Some ip → to4 ip = Some [a; b; c; d] → is_bytes [a; b; c; d] →
  isLocalOrPrivateIP ParseIP s = reserved_v4 a b.
Proof.
  intros Hp Ht Hb. unfold isLocalOrPrivateIP. rewrite Hp. unfold IsLoopback. rewrite Ht.
  assert (∀ net n, length net = 4%nat → in_cidr net n ip =
    (Z.shiftr (be_value [a; b; c; d]) (32 - n) =? Z.shiftr (be_value net) (32 - n))) as Hc.
  { intros net n Hl. unfold in_cidr, short. rewrite Ht, Hl. reflexivity. }
  unfold private_ranges. cbn [existsb fst snd]. rewrite !Hc by done.
  assert (in_cidr (252 :: replicate 15 0) 7 ip = false) as ->.
  { unfold in_cidr, short. by rewrite Ht. }
  rewrite !shiftr_be by lia.
  repeat apply Forall_cons in Hb as [? Hb].
  change (2 ^ (32 - 8)) with 16777216. change (2 ^ (32 - 12)) with 1048576. change (2 ^ (32 - 16)) with 65536.
  change (2 ^ (32 - 10)) with 4194304.
  change ((((10 * 256 + 0) * 256 + 0) * 256 + 0) / 16777216) with 10.
  change ((((172 * 256 + 16) * 256 + 0) * 256 + 0) / 1048576) with 2753.
  change ((((192 * 256 + 168) * 256 + 0) * 256 + 0) / 65536) with 49320.
  change ((((169 * 256 + 254) * 256 + 0) * 256 + 0) / 65536) with 43518.
  change ((((100 * 256 + 64) * 256 + 0) * 256 + 0) / 4194304) with 401. unfold reserved_v4. cbn [head].
  set (v := ((a * 256 + b) * 256 + c) * 256 + d).
  assert (v / 16777216 = a) as -> by (subst v; zdiv).
  assert (v / 65536 = a * 256 + b) as -> by (subst v; zdiv).
  assert ((v / 1048576 =? 2753) = ((a =? 172) && (16 <=? b) && (b <=? 31))) as ->.
  { apply eq_iff_eq_true. rewrite !andb_true_iff, !Z.eqb_eq, !Z.leb_le. subst v. zdiv. }
  assert ((v / 4194304 =? 401) = ((a =? 100) && (64 <=? b) && (b <=? 127))) as ->.
  { apply eq_iff_eq_true. rewrite !andb_true_iff, !Z.eqb_eq, !Z.leb_le. subst v. zdiv. }
  assert ((a * 256 + b =? 49320) = ((a =? 192) && (b =? 168))) as ->.
  { apply eq_iff_eq_true. rewrite !andb_true_iff, !Z.eqb_eq. lia. }
  assert ((a * 256 + b =? 43518) = ((a =? 169) && (b =? 254))) as ->.
  { apply eq_iff_eq_true. rewrite !andb_true_iff, !Z.eqb_eq. lia. }
  assert (bool_decide (Some a = Some 127) = (a =? 127)) as ->.
  { apply eq_iff_eq_true. rewrite bool_decide_eq_true, Z.eqb_eq. split; [by intros [= ->]|by intros ->]. }
  destruct (a =? 127); [done|]. by rewrite orb_false_r, !orb_assoc.
Qed.

(** ** Witnesses *)

Module AccessDemo.
Definition node_ (proxyKey : string) : access_node := {|
  x_proxyKey := proxyKey; x_anonymous := ""; x_users := Users.initMultiUser; x_keys := Some [];
  x_shared := false; x_fed := None; x_boot := 0 |}.
Definition plain (path : string) : relay_request := {|
  rq_method := "POST"; rq_path := path; rq_body := "{}"; rq_NodeID := ""; rq_NodeAuth := ""; rq_sig := "";
  rq_ts := ""; rq_nonce := ""; rq_verified := false |}.
(** A request that claims to be an administrator's in its headers. *)
Definition req (auth ip path : string) : http_request := {|
  p_relay := plain path; p_body_ok := true; p_auth := auth; p_role := "admin"; p_owner := "ann"; p_consumer := "";
  p_guest_pool := ""; p_guest_node := ""; p_keytype := ""; p_guestkey := ""; p_dispatched := false; p_ip := ip |}.
Definition no_sig : string → RelayAuthEnvelope → string → bool := λ _ _ _, false.
End AccessDemo.

Lemma full_access_earned_witness :
  earned AccessDemo.no_sig (AccessDemo.node_ "") 0 ∅ (AccessDemo.req "" "127.0.0.1" "/v1/models") ∧
  bearer_of "Bearer sk-owner" = x_proxyKey (AccessDemo.node_ "sk-owner").
Proof.
  split.
  - destruct (full_access_earned AccessDemo.no_sig (AccessDemo.node_ "") 0
      (AccessDemo.req "" "127.0.0.1" "/v1/models") ∅ eq_refl eq_refl) as [He _].
    eapply He; [vm_compute; reflexivity|by left].
  - destruct (full_access_earned AccessDemo.no_sig (AccessDemo.node_ "sk-owner") 0
      (AccessDemo.req "Bearer sk-owner" "127.0.0.1" "/network/me/v1/models") ∅ eq_refl eq_refl) as [_ He].
    eapply (He 0 (AccessDemo.plain "/network/me/v1/models") (Some "v1/models") true);
      [vm_compute; reflexivity|vm_compute; reflexivity|by right].
Defined.

(** A forward of a node of the pool, with a key that is no key. *)
Example forward_is_accepted :
  let node := {| x_proxyKey := "sk-owner"; x_anonymous := ""; x_users := Users.initMultiUser; x_keys := Some [];
                 x_shared := false; x_fed := Some demo_fed; x_boot := demo_at 0 |} in
  let r := with_relay demo_forward (AccessDemo.req "Bearer sk-anything" "203.0.113.5" "") in
  let '(r', _) := withProxyAuth demo_verify node (demo_at 1) r ∅ in
  key_type node (demo_at 1) <$> r' = Some "proxy" ∧ p_role <$> r' = Some "public".
Proof. vm_compute. split; reflexivity. Qed.

Lemma local_or_private_v4_witness :
  isLocalOrPrivateIP (λ _, Some [0;0;0;0;0;0;0;0;0;0;255;255;172;20;0;9]) "172.20.0.9" = true.
Proof.
  rewrite (local_or_private_v4 (λ _, Some [0;0;0;0;0;0;0;0;0;0;255;255;172;20;0;9]) "172.20.0.9"
             [0;0;0;0;0;0;0;0;0;0;255;255;172;20;0;9] 172 20 0 9);
    [reflexivity|reflexivity|reflexivity|repeat constructor; lia].
Defined.
