(* ===== verification/RateLimit.v ===== *)
(** * Rate limits (ratelimit.go)

    A token bucket, the buckets of the proxy routes (a global one and one per consumer) and the
    buckets per client address of the sensitive routes. Amounts are floating point, the clock is
    an argument, and the order in which a map is walked is an argument where it matters. *)

From S2P Require Import Prelude GoTime Bytes.

(** ** The token bucket *)

Record RateLimiter := {
  tokens : float64; maxTokens : float64; refillRate : float64; lastRefill : Time }.

Definition f_one : float64 := float_of_int 1.

Definition NewRateLimiter (now : Time) (qps : float64) : RateLimiter :=
  if fleb qps f_zero
  then {| tokens := f_zero; maxTokens := f_zero; refillRate := f_zero; lastRefill := now |}
  else
    let maxTok := if fltb qps f_one then f_one else qps in
    {| tokens := maxTok; maxTokens := maxTok; refillRate := qps; lastRefill := now |}.

Definition NewRateLimiterWithBurst (now : Time) (qps burst : float64) : RateLimiter :=
  let burst := if fltb burst f_one then f_one else burst in
  {| tokens := burst; maxTokens := burst; refillRate := qps; lastRefill := now |}.

(** [d.Seconds()]. *)
Definition Seconds (d : Z) : float64 :=
  fadd (float_of_int (Z.quot d second)) (fdiv (float_of_int (Z.rem d second)) (float_of_int (10 ^ 9))).

Definition Allow (now : Time) (rl : RateLimiter) : bool * RateLimiter :=
  let t := fadd (tokens rl) (fmul (Seconds (now - lastRefill rl)) (refillRate rl)) in
  let t := if fltb (maxTokens rl) t then maxTokens rl else t in
  let set t := {| tokens := t; maxTokens := maxTokens rl; refillRate := refillRate rl; lastRefill := now |} in
  if fleb f_one t then (true, set (fsub t f_one)) else (false, set t).

(** The value of a configuration key; [parsed] is [strconv.ParseFloat]. *)
Definition parseFloat64 (parsed : option float64) (defaultVal : float64) : float64 :=
  match parsed with
  | Some v => if fltb f_zero v then v else defaultVal
  | None => defaultVal
  end.

(** ** The proxy routes *)

Definition consumersMaxEntries : nat := 10000.

Record GlobalRateLimiter := {
  global : RateLimiter; consumers : gmap string RateLimiter; globalQPS : float64; consumerQPS : float64 }.

Definition initRateLimiter (now : Time) (parsed_global parsed_consumer : option float64) : GlobalRateLimiter :=
  let g := parseFloat64 parsed_global (float_of_int 100) in
  let c := parseFloat64 parsed_consumer (float_of_int 20) in
  {| global := NewRateLimiter now g; consumers := ∅; globalQPS := g; consumerQPS := c |}.

Definition set_limits (g : GlobalRateLimiter) (l : RateLimiter) (m : gmap string RateLimiter) : GlobalRateLimiter :=
  {| global := l; consumers := m; globalQPS := globalQPS g; consumerQPS := consumerQPS g |}.

(** The loop of a cleanup over the ids in the order visited, down to [half] entries. *)
Fixpoint cleanup_limiters (now : Time) (half : nat) (order : list string) (m : gmap string RateLimiter)
    : gmap string RateLimiter :=
  match order with
  | [] => m
  | id :: order =>
      let m := match m !! id with
               | Some lim => if 10 * minute <? now - lastRefill lim then delete id m else m
               | None => m
               end in
      if (size m <? half)%nat then m else cleanup_limiters now half order m
  end.

Definition cleanupConsumersLocked (now : Time) (order : list string) : gmap string RateLimiter → gmap string RateLimiter :=
  cleanup_limiters now (consumersMaxEntries / 2) order.

Definition getConsumerLimiter (now : Time) (order : list string) (consumerID : string) (g : GlobalRateLimiter)
    : RateLimiter * GlobalRateLimiter :=
  match consumers g !! consumerID with
  | Some l => (l, g)
  | None =>
      let l := NewRateLimiter now (consumerQPS g) in
      let m := if (consumersMaxEntries <=? size (consumers g))%nat
               then cleanupConsumersLocked now order (consumers g) else consumers g in
      (l, set_limits g (global g) (<[consumerID := l]> m))
  end.

Inductive limited := Passed | GlobalLimit | ConsumerLimit.

(** [owner]: the header X-Request-Owner; [remote]: the address and port of the client. *)
Definition consumer_id (owner remote : string) : string :=
  if bool_decide (owner = "") then "admin:" +:+ remote else owner.

Definition rateLimitMiddleware (now : Time) (order : list string) (owner remote : string)
    (g : option GlobalRateLimiter) : limited * option GlobalRateLimiter :=
  match g with
  | None => (Passed, None)
  | Some g =>
      let '(ok, l) := Allow now (global g) in
      let g := set_limits g l (consumers g) in
      if negb ok then (GlobalLimit, Some g)
      else
        let id := consumer_id owner remote in
        let '(l, g) := getConsumerLimiter now order id g in
        let '(ok, l) := Allow now l in
        let g := set_limits g (global g) (<[id := l]> (consumers g)) in
        (if ok then Passed else ConsumerLimit, Some g)
  end.

(** ** Per client address *)

Definition ipRateLimitersMaxEntries : nat := 10000.

Record ipRateLimitEntry := { limiter : RateLimiter; lastSeen : Time }.
Abbreviation ip_limiters := (gmap string ipRateLimitEntry).

(** [xff]: the header X-Forwarded-For; [remote_ip]: the client's own address. *)
Definition limited_ip (trusted : bool) (xff remote_ip : string) : string :=
  if trusted && negb (bool_decide (xff = ""))
  then trimSpace (default xff (last (split_on "," xff))) else remote_ip.

Definition drop_older (cutoff : Time) (m : ip_limiters) : ip_limiters :=
  filter (λ kv, (lastSeen kv.2 <? cutoff) = false) m.

Inductive ip_verdict := IPPassed | IPLimit | IPMapFull.

Definition rateLimitByIP (maxRequestsPerMinute : float64) (endpointName : string) (now : Time) (ip : string)
    (m : ip_limiters) : ip_verdict * ip_limiters :=
  let qps := fdiv maxRequestsPerMinute (float_of_int 60) in
  let key := ip +:+ endpointName in
  let serve (e : ipRateLimitEntry) (m : ip_limiters) :=
    let '(ok, l) := Allow now (limiter e) in
    (if ok then IPPassed else IPLimit, <[key := {| limiter := l; lastSeen := now |}]> m) in
  match m !! key with
  | Some e => serve e m
  | None =>
      let m := if (ipRateLimitersMaxEntries <=? size m)%nat then drop_older (now - 5 * minute) m else m in
      if (ipRateLimitersMaxEntries <=? size m)%nat then (IPMapFull, m)
      else
        let e := {| limiter := NewRateLimiterWithBurst now qps maxRequestsPerMinute; lastSeen := now |} in
        serve e (<[key := e]> m)
  end.

Definition cleanupIPRateLimiters (now : Time) (maxAge : Z) (m : ip_limiters) : ip_limiters :=
  drop_older (now - maxAge) m.

(** ** A burst

    Requests at one instant: a bucket of [n] tokens lets through [n] of them. *)

Definition f_pos (r : float64) : Prop := ∃ m e, r = SpecFloat.S754_finite false m e.

(** Buckets that hold a whole number of tokens, at the time of their last refill. *)
Definition whole (n : Z) (now : Time) (rl : RateLimiter) : Prop :=
  tokens rl = float_of_int n ∧ lastRefill rl = now ∧ f_pos (refillRate rl) ∧
  fltb (maxTokens rl) (float_of_int n) = false.

Definition count_down (n : Z) : bool :=
  bool_decide (fsub (float_of_int n) f_one = float_of_int (n - 1)) && fleb f_one (float_of_int n)
  && bool_decide (fadd (float_of_int n) f_zero = float_of_int n)
  && negb (fltb (float_of_int n) (float_of_int (n - 1))).

Lemma seq_up_to (P : Z → bool) k n : forallb (λ i, P (Z.of_nat i)) (seq 1 k) = true → 1 ≤ n ≤ Z.of_nat k → P n = true.
Proof.
  intros H Hn. rewrite forallb_forall in H. rewrite <- (Z2Nat.id n) by lia. apply H, in_seq. lia.
Qed.

Lemma count_down_all n : 1 ≤ n ≤ 1000 → count_down n = true.
Proof. apply (seq_up_to count_down 1000). vm_compute. reflexivity. Qed.

Lemma no_time_no_tokens now (rl : RateLimiter) : lastRefill rl = now → f_pos (refillRate rl) →
  fmul (Seconds (now - lastRefill rl)) (refillRate rl) = f_zero.
Proof. intros -> (m & e & ->). rewrite Z.sub_diag. reflexivity. Qed.


Lemma fltb_pos m e m' e' : fltb (SpecFloat.S754_finite false m e) (SpecFloat.S754_finite false m' e')
  = (e <? e') || ((e =? e') && (Z.pos m <? Z.pos m')).
Proof.
  unfold fltb, SpecFloat.SFltb. cbn. destruct (Z.compare_spec e e') as [->|Hl|Hg].
  - rewrite Z.ltb_irrefl, Z.eqb_refl. cbn. unfold Z.ltb. cbn.
    destruct (Pos.compare_cont_spec m m' Eq); reflexivity.
  - by rewrite (proj2 (Z.ltb_lt _ _) Hl).
  - rewrite (proj2 (Z.ltb_ge e e')), (proj2 (Z.eqb_neq e e')) by lia. done.
Qed.

(** [>=] composes on positive numbers. *)
Lemma fltb_down a b c : f_pos a → f_pos b → f_pos c → fltb a b = false → fltb b c = false → fltb a c = false.
Proof.
  intros (m & e & ->) (m' & e' & ->) (m'' & e'' & ->). rewrite !fltb_pos, !orb_false_iff, !andb_false_iff,
    !Z.ltb_ge, !Z.eqb_neq. lia.
Qed.

Lemma fltb_pos_zero a : f_pos a → fltb a f_zero = false.
Proof. by intros (m & e & ->). Qed.

Definition is_pos (f : float64) : bool :=
  match f with SpecFloat.S754_finite false _ _ => true | _ => false end.
Lemma is_pos_f_pos f : is_pos f = true → f_pos f.
Proof. destruct f as [| | |[] m e]; try done. by exists m, e. Qed.

Lemma ints_positive n : 1 ≤ n ≤ 1000 → f_pos (float_of_int n).
Proof.
  intros Hn. apply is_pos_f_pos. revert Hn. apply (seq_up_to (λ n, is_pos (float_of_int n)) 1000).
  vm_compute. reflexivity.
Qed.

Lemma count_down_spec n : 1 ≤ n ≤ 1000 →
  fsub (float_of_int n) f_one = float_of_int (n - 1) ∧ fleb f_one (float_of_int n) = true ∧
  fadd (float_of_int n) f_zero = float_of_int n ∧ fltb (float_of_int n) (float_of_int (n - 1)) = false.
Proof.
  intros Hn. pose proof (count_down_all n Hn) as H. unfold count_down in H.
  rewrite !andb_true_iff, !bool_decide_eq_true, negb_true_iff in H. tauto.
Qed.

(** [k] requests at the instant [now]. *)
Fixpoint burst (now : Time) (k : nat) (rl : RateLimiter) : list bool * RateLimiter :=
  match k with
  | O => ([], rl)
  | S k => let '(ok, rl) := Allow now rl in let '(oks, rl) := burst now k rl in (ok :: oks, rl)
  end.

Lemma allow_whole now n rl : 1 ≤ n ≤ 1000 → f_pos (maxTokens rl) → whole n now rl →
  ∃ rl', Allow now rl = (true, rl') ∧ maxTokens rl' = maxTokens rl ∧ whole (n - 1) now rl'.
Proof.
  intros Hn Hm (Ht & Hl & Hr & Hx). destruct (count_down_spec n Hn) as (E1 & E2 & E3 & E4).
  unfold Allow. rewrite (no_time_no_tokens now rl Hl Hr), Ht, E3, Hx, E2, E1.
  eexists. split_and!; [done|done|]. unfold whole. cbn. split_and!; [done|done|done|].
  destruct (decide (n = 1)) as [->|]; [by apply fltb_pos_zero|].
  apply (fltb_down _ (float_of_int n)); [done|apply ints_positive; lia..|done|done].
Qed.

Lemma allow_empty now rl : whole 0 now rl → fltb (maxTokens rl) f_zero = false →
  ∃ rl', Allow now rl = (false, rl') ∧ maxTokens rl' = maxTokens rl ∧ whole 0 now rl'.
Proof.
  intros (Ht & Hl & Hr & Hx) Hm. unfold Allow. rewrite (no_time_no_tokens now rl Hl Hr), Ht.
  change (fadd (float_of_int 0) f_zero) with f_zero. rewrite Hm. change (fleb f_one f_zero) with false.
  eexists. split_and!; [done|done|]. by unfold whole.
Qed.

Lemma burst_empty now k rl : f_pos (maxTokens rl) → whole 0 now rl → (burst now k rl).1 = replicate k false.
Proof.
  intros Hm. revert rl Hm. induction k as [|k IH]; intros rl Hm Hw; [done|].
  destruct (allow_empty now rl Hw (fltb_pos_zero _ Hm)) as (rl' & E & Em & Hw'). cbn. rewrite E.
  pose proof (IH rl') as IH'. rewrite Em in IH'. destruct (burst now k rl') as [oks rl'']. cbn in *.
  by rewrite IH'.
Qed.

Lemma burst_whole now n k rl : 0 ≤ n ≤ 1000 → f_pos (maxTokens rl) → whole n now rl →
  (burst now k rl).1 = replicate (min k (Z.to_nat n)) true ++ replicate (k - Z.to_nat n) false.
Proof.
  revert n rl. induction k as [|k IH]; intros n rl Hn Hm Hw; [done|].
  destruct (decide (n = 0)) as [->|Hnz].
  { rewrite burst_empty by done. by rewrite Nat.sub_0_r, Nat.min_0_r. }
  destruct (allow_whole now n rl) as (rl' & E & Em & Hw'); [lia|done|done|].
  cbn [burst]. rewrite E. pose proof (IH (n - 1) rl' ltac:(lia)) as IH'. rewrite Em in IH'.
  destruct (burst now k rl') as [oks rl'']. cbn [fst] in *. rewrite IH' by done.
  replace (Z.to_nat n) with (S (Z.to_nat (n - 1))) by lia. reflexivity.
Qed.

(** Of the requests that come at one instant, a new bucket of whole size [n] lets the first [n]
    through and refuses the others. *)
Theorem burst_exact now qps n k :
  1 ≤ n ≤ 1000 → f_pos qps →
  (burst now k (NewRateLimiterWithBurst now qps (float_of_int n))).1
    = replicate (min k (Z.to_nat n)) true ++ replicate (k - Z.to_nat n) false.
Proof.
  intros Hn Hq. pose proof (ints_positive n Hn) as Hp. destruct (count_down_spec n Hn) as (_ & E2 & _ & _).
  assert (fltb (float_of_int n) f_one = false) as Hb.
  { revert Hn. intros Hn. apply negb_true_iff.
    apply (seq_up_to (λ n, negb (fltb (float_of_int n) f_one)) 1000); [vm_compute; reflexivity|done]. }
  unfold NewRateLimiterWithBurst. rewrite Hb. apply burst_whole; [lia|done|].
  unfold whole. cbn. split_and!; [done|done|done|].
  destruct Hp as (m & e & ->). rewrite fltb_pos, Z.ltb_irrefl, Z.eqb_refl. cbn. apply Z.ltb_irrefl.
Qed.

(** ** One client's requests and the others' *)

(** A request for the endpoint of a limit, or the periodic cleanup. *)
Inductive ip_op :=
  | IPRequest (max : float64) (name : string) (now : Time) (ip : string)
  | IPCleanup (now : Time) (maxAge : Z).

Definition ip_exec (m : ip_limiters) (o : ip_op) : ip_limiters :=
  match o with
  | IPRequest max name now ip => (rateLimitByIP max name now ip m).2
  | IPCleanup now maxAge => cleanupIPRateLimiters now maxAge m
  end.
Definition ip_run (h : list ip_op) (m : ip_limiters) : ip_limiters := foldl ip_exec m h.

(** Another bucket's request within five minutes after [seen], or a cleanup that keeps it. *)
Definition leaves (key : string) (seen : Time) (o : ip_op) : Prop :=
  match o with
  | IPRequest _ name now ip => ip +:+ name ≠ key ∧ now - 5 * minute ≤ seen
  | IPCleanup now maxAge => now - maxAge ≤ seen
  end.

Lemma drop_older_size cutoff m : (size (drop_older cutoff m) ≤ size m)%nat.
Proof. apply map_size_filter. Qed.

Lemma drop_older_keeps cutoff m key e : m !! key = Some e → cutoff ≤ lastSeen e →
  drop_older cutoff m !! key = Some e.
Proof. intros Hm He. apply map_lookup_filter_Some. split; [done|]. cbn. by apply Z.ltb_ge. Qed.

Lemma ip_exec_keeps m o key e : m !! key = Some e → leaves key (lastSeen e) o → ip_exec m o !! key = Some e.
Proof.
  intros Hm Ho. destruct o as [max name now ip|now maxAge]; cbn in *; [|by apply drop_older_keeps].
  destruct Ho as [Hne Ht]. unfold rateLimitByIP. destruct (m !! (ip +:+ name)) as [e'|] eqn:E.
  - destruct (Allow now (limiter e')) as [ok l]. cbn. by rewrite lookup_insert_ne.
  - set (m' := if (ipRateLimitersMaxEntries <=? size m)%nat then drop_older (now - 5 * minute) m else m).
    assert (m' !! key = Some e) as Hm'.
    { subst m'. destruct (_ <=? _)%nat; [|done]. by apply drop_older_keeps. }
    destruct (_ <=? size m')%nat; [done|]. destruct (Allow now _) as [ok l]. cbn.
    by rewrite !lookup_insert_ne.
Qed.

(** What a client is answered depends on the requests of that client for that endpoint alone:
    whatever the others send in the five minutes after its last request, its bucket is what it was,
    and so is the answer to its next request. *)
Theorem clients_isolated h m max name now ip e :
  m !! (ip +:+ name) = Some e → Forall (leaves (ip +:+ name) (lastSeen e)) h →
  ip_run h m !! (ip +:+ name) = Some e ∧
  (rateLimitByIP max name now ip (ip_run h m)).1 = (rateLimitByIP max name now ip m).1.
Proof.
  intros Hm Hh. assert (ip_run h m !! (ip +:+ name) = Some e) as Hr.
  { revert m Hm. induction Hh as [|o h Ho Hh IH]; intros m Hm; [done|]. apply IH. by apply ip_exec_keeps. }
  split; [done|]. unfold rateLimitByIP. rewrite Hr, Hm. by destruct (Allow now (limiter e)).
Qed.

(** The table never holds more than its ten thousand entries. *)
Theorem ip_table_bounded h m :
  (size m ≤ ipRateLimitersMaxEntries)%nat → (size (ip_run h m) ≤ ipRateLimitersMaxEntries)%nat.
Proof.
  revert m. induction h as [|o h IH]; intros m Hm; [done|]. apply IH. destruct o as [max name now ip|now maxAge]; cbn [ip_exec].
  2: { etrans; [apply drop_older_size|done]. }
  unfold rateLimitByIP. destruct (m !! (ip +:+ name)) as [e'|] eqn:E.
  - destruct (Allow now (limiter e')) as [ok l]. cbn [snd]. rewrite map_size_insert_Some; [done|by eauto].
  - set (m' := if (ipRateLimitersMaxEntries <=? size m)%nat then drop_older (now - 5 * minute) m else m).
    assert ((size m' ≤ ipRateLimitersMaxEntries)%nat ∧ m' !! (ip +:+ name) = None) as [Hs Hn].
    { subst m'. destruct (_ <=? _)%nat; [|done]. split; [etrans; [apply drop_older_size|done]|].
      apply map_lookup_filter_None. by left. }
    destruct (Nat.leb_spec ipRateLimitersMaxEntries (size m')) as [|Hlt]; [done|]. destruct (Allow now _) as [ok l]. cbn [snd].
    rewrite map_size_insert_Some by (rewrite lookup_insert_eq; by eauto).
    rewrite map_size_insert_None by done. exact Hlt.
Qed.

(** ** The limit per consumer is not one *)

(** A client without an owner has a bucket per connection: from another port it starts afresh. *)
Theorem new_port_new_bucket now order ip port port' g l :
  consumers g !! ("admin:" +:+ ip +:+ ":" +:+ port) = Some l →
  consumers g !! ("admin:" +:+ ip +:+ ":" +:+ port') = None →
  (getConsumerLimiter now order (consumer_id "" (ip +:+ ":" +:+ port)) g).1 = l ∧
  (getConsumerLimiter now order (consumer_id "" (ip +:+ ":" +:+ port')) g).1 = NewRateLimiter now (consumerQPS g).
Proof.
  intros H1 H2. unfold getConsumerLimiter, consumer_id. rewrite bool_decide_eq_true_2 by done. rewrite H1, H2. done.
Qed.

Lemma cleanup_fresh now half order m :
  (∀ id l, m !! id = Some l → now - lastRefill l ≤ 10 * minute) → cleanup_limiters now half order m = m.
Proof.
  intros Hf. induction order as [|id order IH]; [done|]. cbn [cleanup_limiters].
  assert (match m !! id with
          | Some lim => if 10 * minute <? now - lastRefill lim then delete id m else m
          | None => m end = m) as ->.
  { destruct (m !! id) as [l|] eqn:E; [|done]. specialize (Hf _ _ E). by rewrite (proj2 (Z.ltb_ge _ _)) by lia. }
  by destruct (size m <? half)%nat.
Qed.

(** The bound on the number of consumers' buckets is none: while they are in use, a new one makes
    one more. *)
Theorem consumer_table_grows now order id g :
  consumers g !! id = None →
  (∀ id l, consumers g !! id = Some l → now - lastRefill l ≤ 10 * minute) →
  size (consumers (getConsumerLimiter now order id g).2) = S (size (consumers g)).
Proof.
  intros Hn Hf. unfold getConsumerLimiter. rewrite Hn. cbn [snd consumers set_limits]. unfold cleanupConsumersLocked.
  rewrite cleanup_fresh by done. destruct (_ <=? _)%nat; by apply map_size_insert_None.
Qed.

(** ** Witnesses *)

Module RateDemo.
Definition noon : Time := 1786237320 * second.
Definition m0 : ip_limiters := (rateLimitByIP (float_of_int 3) "setup" noon "192.0.2.7" ∅).2.
Definition others : list ip_op :=
  [IPRequest (float_of_int 5) "login" noon "192.0.2.7"; IPRequest (float_of_int 3) "setup" (noon + minute) "192.0.2.8";
   IPCleanup (noon + 2 * minute) (10 * minute)].
End RateDemo.

Lemma burst_exact_witness :
  (burst RateDemo.noon 5 (NewRateLimiterWithBurst RateDemo.noon (fdiv (float_of_int 3) (float_of_int 60)) (float_of_int 3))).1
  = [true; true; true; false; false].
Proof.
  rewrite (burst_exact RateDemo.noon (fdiv (float_of_int 3) (float_of_int 60)) 3 5); [reflexivity|lia|].
  apply is_pos_f_pos. vm_compute. reflexivity.
Defined.

Lemma clients_isolated_witness :
  (rateLimitByIP (float_of_int 3) "setup" (RateDemo.noon + 3 * minute) "192.0.2.7" (ip_run RateDemo.others RateDemo.m0)).1
  = IPPassed.
Proof.
  destruct (RateDemo.m0 !! ("192.0.2.7" +:+ "setup")) as [e|] eqn:E; [|vm_compute in E; discriminate].
  assert (lastSeen e = RateDemo.noon) as Hl by (vm_compute in E; injection E as <-; reflexivity).
  destruct (clients_isolated RateDemo.others RateDemo.m0 (float_of_int 3) "setup" (RateDemo.noon + 3 * minute) "192.0.2.7" e E) as [_ ->].
  - rewrite Hl. repeat apply Forall_cons_2; [| | |apply Forall_nil_2]; cbn [leaves];
      [split; [discriminate|]..|]; unfold RateDemo.noon, hour, minute, second; lia.
  - vm_compute. reflexivity.
Defined.
