(* ===== verification/Waf.v ===== *)
(** * The request filter of the proxy routes (waf.go)

    [WAFEngine] refuses a request for its client's address, its user agent, its path or its rate,
    and keeps the last refusals. Configuration values and what [strconv.ParseFloat] makes of them
    are arguments; texts are taken to be ASCII where the code changes their case. *)

From S2P Require Import Prelude GoTime Bytes LanAnnounce RateLimit.

Inductive WAFViolationType :=
  | WAFViolationIPBan | WAFViolationIPBlacklist | WAFViolationUAFilter | WAFViolationRateLimit
  | WAFViolationPathBlock | WAFViolationContent.

#[export] Instance violation_eq_dec : EqDecision WAFViolationType.
Proof. solve_decision. Defined.

Record WAFViolation := {
  v_Timestamp : Time; v_Type : WAFViolationType; ClientIP : string; v_Path : string; v_Reason : string }.

Record WAFBan := { b_Key : string; b_Type : string; b_Reason : string; b_ExpiresAt : Time }.

Record WAFEngine := {
  enabled : bool; ipBlacklist : list string; uaBlacklist : list string; blockedPaths : list string;
  contentKw : list string; rateRPS : float64; rateBurst : float64;
  ipLimiters : gmap string RateLimiter; bans : gmap string WAFBan;
  violations : list WAFViolation; maxViolations : nat; stats : WAFViolationType → Z }.

Definition wafDefaultMaxViolations : nat := 1000.
Definition wafIPLimitersMaxEntries : nat := 10000.

Definition NewWAFEngine : WAFEngine := {|
  enabled := false; ipBlacklist := []; uaBlacklist := []; blockedPaths := []; contentKw := [];
  rateRPS := f_zero; rateBurst := f_zero; ipLimiters := ∅; bans := ∅; violations := [];
  maxViolations := wafDefaultMaxViolations; stats := λ _, 0 |}.

Definition set_limiters (e : WAFEngine) (m : gmap string RateLimiter) : WAFEngine := {|
  enabled := enabled e; ipBlacklist := ipBlacklist e; uaBlacklist := uaBlacklist e;
  blockedPaths := blockedPaths e; contentKw := contentKw e; rateRPS := rateRPS e; rateBurst := rateBurst e;
  ipLimiters := m; bans := bans e; violations := violations e; maxViolations := maxViolations e;
  stats := stats e |}.
Definition set_bans (e : WAFEngine) (b : gmap string WAFBan) : WAFEngine := {|
  enabled := enabled e; ipBlacklist := ipBlacklist e; uaBlacklist := uaBlacklist e;
  blockedPaths := blockedPaths e; contentKw := contentKw e; rateRPS := rateRPS e; rateBurst := rateBurst e;
  ipLimiters := ipLimiters e; bans := b; violations := violations e; maxViolations := maxViolations e;
  stats := stats e |}.
Definition set_violations (e : WAFEngine) (l : list WAFViolation) (s : WAFViolationType → Z) : WAFEngine := {|
  enabled := enabled e; ipBlacklist := ipBlacklist e; uaBlacklist := uaBlacklist e;
  blockedPaths := blockedPaths e; contentKw := contentKw e; rateRPS := rateRPS e; rateBurst := rateBurst e;
  ipLimiters := ipLimiters e; bans := bans e; violations := l; maxViolations := maxViolations e; stats := s |}.

(** ** Configuration *)

Definition parseList (s : string) : list string :=
  if bool_decide (s = "") then []
  else filter (λ p, p ≠ "") (trimSpace <$> split_on "," s).

(** The set is kept as the list of its elements. *)
Definition parseListToSet (s : string) : list string := parseList s.

(** The values of the seven keys. *)
Record waf_config := {
  cf_enabled : string; cf_ips : string; cf_uas : string; cf_paths : string; cf_keywords : string;
  cf_rps : string; cf_burst : string }.

Definition Reload (ParseFloat : string → option float64) (cf : waf_config) (e : WAFEngine) : WAFEngine :=
  let '(rps, burst) :=
    if bool_decide (cf_rps cf = "0") || bool_decide (cf_rps cf = "0.0") then (f_zero, f_zero)
    else
      let rps := parseFloat64 (ParseFloat (cf_rps cf)) (float_of_int 10) in
      let burst := parseFloat64 (ParseFloat (cf_burst cf)) (float_of_int 20) in
      let burst := if fltb burst f_one then (if fltb rps f_one then f_one else rps) else burst in
      (rps, burst) in
  {| enabled := bool_decide (cf_enabled cf = "true"); ipBlacklist := parseListToSet (cf_ips cf);
     uaBlacklist := parseList (cf_uas cf); blockedPaths := parseList (cf_paths cf);
     contentKw := parseList (cf_keywords cf); rateRPS := rps; rateBurst := burst;
     ipLimiters := ipLimiters e; bans := bans e; violations := violations e;
     maxViolations := maxViolations e; stats := stats e |}.

(** ** Requests *)

(** [w_xff], [w_real]: X-Forwarded-For and X-Real-IP; [w_remote]: the address of the client. *)
Record waf_request := {
  w_trusted : bool; w_xff : string; w_real : string; w_remote : string; w_path : string; w_agent : string }.

Definition add_ip (out : list string) (ip : string) : list string :=
  let ip := trimSpace ip in
  if bool_decide (ip = "") || bool_decide (ip ∈ out) then out else out ++ [ip].

Definition clientIPs (r : waf_request) : list string :=
  let out :=
    if w_trusted r then
      let out := if bool_decide (w_xff r = "") then [] else foldl add_ip [] (reverse (split_on "," (w_xff r))) in
      if bool_decide (w_real r = "") then out else add_ip out (w_real r)
    else [] in
  add_ip out (w_remote r).

Definition firstIP (ips : list string) : string := default "" (head ips).

(** The first address banned or listed. *)
Fixpoint blocked_ip (now : Time) (e : WAFEngine) (ips : list string) : option (WAFViolationType * string) :=
  match ips with
  | [] => None
  | ip :: ips =>
      match bans e !! ip with
      | Some ban =>
          if before now (b_ExpiresAt ban) then Some (WAFViolationIPBan, "ip temporarily banned: " +:+ b_Reason ban)
          else if bool_decide (ip ∈ ipBlacklist e) then Some (WAFViolationIPBlacklist, "ip is blacklisted")
          else blocked_ip now e ips
      | None =>
          if bool_decide (ip ∈ ipBlacklist e) then Some (WAFViolationIPBlacklist, "ip is blacklisted")
          else blocked_ip now e ips
      end
  end.

Definition blocked_agent (e : WAFEngine) (agent : string) : option (WAFViolationType * string) :=
  match find (λ bad, str_contains (to_lower bad) (to_lower agent)) (uaBlacklist e) with
  | Some bad => Some (WAFViolationUAFilter, "user-agent matches blacklist: " +:+ bad)
  | None => None
  end.

Definition blocked_path (e : WAFEngine) (path : string) : option (WAFViolationType * string) :=
  match find (λ p, has_prefix p path) (blockedPaths e) with
  | Some p => Some (WAFViolationPathBlock, "path is blocked: " +:+ p)
  | None => None
  end.

Definition record_ (now : Time) (vType : WAFViolationType) (ip path reason : string) (e : WAFEngine)
    : option WAFViolation * WAFEngine :=
  let v := {| v_Timestamp := now; v_Type := vType; ClientIP := ip; v_Path := path; v_Reason := reason |} in
  let l := violations e ++ [v] in
  let l := if (maxViolations e <? length l)%nat then drop (length l - maxViolations e) l else l in
  (Some v, set_violations e l (λ t, if bool_decide (t = vType) then stats e t +! 1 else stats e t)).

Definition cleanupIPLimitersLocked (now : Time) (order : list string) : gmap string RateLimiter → gmap string RateLimiter :=
  cleanup_limiters now (wafIPLimitersMaxEntries / 2) order.

(** The bucket of the address, made when there is none. *)
Definition waf_limiter (now : Time) (order : list string) (ip : string) (e : WAFEngine) : RateLimiter * WAFEngine :=
  match ipLimiters e !! ip with
  | Some l => (l, e)
  | None =>
      let m := if (wafIPLimitersMaxEntries <=? size (ipLimiters e))%nat
               then cleanupIPLimitersLocked now order (ipLimiters e) else ipLimiters e in
      let l := NewRateLimiterWithBurst now (rateRPS e) (rateBurst e) in
      (l, set_limiters e (<[ip := l]> m))
  end.

(** The violation, [None] when the request is let through. *)
Definition Check_ (now : Time) (order : list string) (r : waf_request) (e : WAFEngine)
    : option WAFViolation * WAFEngine :=
  if negb (enabled e) then (None, e)
  else
    let ips := clientIPs r in
    let ip := firstIP ips in
    let blocked :=
      match blocked_ip now e ips with
      | Some b => Some b
      | None => match blocked_agent e (w_agent r) with Some b => Some b | None => blocked_path e (w_path r) end
      end in
    match blocked with
    | Some (vType, reason) => record_ now vType ip (w_path r) reason e
    | None =>
        if fltb f_zero (rateRPS e) then
          let '(l, e) := waf_limiter now order ip e in
          let '(ok, l) := Allow now l in
          let e := set_limiters e (<[ip := l]> (ipLimiters e)) in
          if ok then (None, e)
          else record_ now WAFViolationRateLimit ip (w_path r) "per-ip request rate exceeded" e
        else (None, e)
    end.

(** Whether the request goes on. *)
Definition wafMiddleware (now : Time) (order : list string) (r : waf_request) (e : option WAFEngine)
    : bool * option WAFEngine :=
  match e with
  | None => (true, None)
  | Some e => if negb (enabled e) then (true, Some e)
              else let '(v, e) := Check_ now order r e in (bool_decide (v = None), Some e)
  end.

(** ** Bans and reports *)

Definition AddBan (now : Time) (key reason : string) (duration : Z) (e : WAFEngine) : WAFEngine :=
  set_bans e (<[key := {| b_Key := key; b_Type := "ip_ban"; b_Reason := reason; b_ExpiresAt := now + duration |}]> (bans e)).

Definition RemoveBan (key : string) (e : WAFEngine) : bool * WAFEngine :=
  match bans e !! key with Some _ => (true, set_bans e (delete key (bans e))) | None => (false, e) end.

Definition Bans (now : Time) (e : WAFEngine) : list WAFBan :=
  filter (λ b, before now (b_ExpiresAt b) = true) (map_to_list (bans e)).*2.

(** Most recent first. *)
Definition Violations (e : WAFEngine) : list WAFViolation := reverse (violations e).

(** ** Content *)

Definition wafAttackPatterns : list (string * string) := [
    ("sqli_union_select", "union select"); ("sqli_union_all", "union all select");
    ("sqli_or_1_1", "or 1=1"); ("sqli_or_true", "or true"); ("sqli_and_1_1", "and 1=1");
    ("sqli_drop_table", "drop table"); ("sqli_insert_into", "insert into");
    ("sqli_delete_from", "delete from"); ("sqli_update_set", "update set"); ("sqli_sleep", "sleep(");
    ("sqli_benchmark", "benchmark("); ("sqli_waitfor", "waitfor delay");
    ("sqli_information_schema", "information_schema"); ("sqli_load_file", "load_file(");
    ("sqli_into_outfile", "into outfile"); ("sqli_hex_0x", "0x41414141"); ("xss_script_tag", "<script");
    ("xss_script_close", "</script>"); ("xss_javascript_uri", "javascript:"); ("xss_onerror", "onerror=");
    ("xss_onload", "onload="); ("xss_onclick", "onclick="); ("xss_onmouseover", "onmouseover=");
    ("xss_img_tag", "<img"); ("xss_svg_tag", "<svg"); ("xss_iframe_tag", "<iframe"); ("xss_eval", "eval(");
    ("xss_expression", "expression("); ("xss_document_cookie", "document.cookie");
    ("xss_document_write", "document.write"); ("path_traversal_dotdot_slash", "../");
    ("path_traversal_dotdot_backslash", "..\"); ("path_traversal_etc_passwd", "/etc/passwd");
    ("path_traversal_etc_shadow", "/etc/shadow"); ("cmd_inject_semicolon", "; ls");
    ("cmd_inject_pipe", "| ls"); ("cmd_inject_and", "&& ls"); ("cmd_inject_or", "|| ls");
    ("cmd_inject_backtick", "` ls"); ("cmd_inject_dollar", "$("); ("cmd_inject_whoami", "whoami");
    ("cmd_inject_wget", "wget "); ("cmd_inject_curl", "curl "); ("cmd_inject_nc_", "nc ");
    ("ssrf_localhost", "http://localhost"); ("ssrf_127_0_0_1", "http://127.0.0.1");
    ("ssrf_169_254", "169.254.169.254"); ("ssrf_metadata", "metadata.google.internal")].

(** The keyword or the pattern found in a text. *)
Definition CheckContent (text : string) (e : WAFEngine) : bool * string :=
  if negb (enabled e) then (true, "")
  else
    let lower := to_lower text in
    match find (λ kw, str_contains (to_lower kw) lower) (contentKw e) with
    | Some kw => (false, kw)
    | None =>
        match find (λ p, str_contains p.2 lower) wafAttackPatterns with
        | Some p => (false, "attack_pattern:" +:+ p.1)
        | None => (true, "")
        end
    end.

(** ** When a request is let through *)

Definition clean_address (now : Time) (e : WAFEngine) (ip : string) : Prop :=
  (∀ ban, bans e !! ip = Some ban → b_ExpiresAt ban ≤ now) ∧ ip ∉ ipBlacklist e.

Definition clean (now : Time) (e : WAFEngine) (r : waf_request) : Prop :=
  (∀ ip, ip ∈ clientIPs r → clean_address now e ip) ∧
  (∀ bad, bad ∈ uaBlacklist e → str_contains (to_lower bad) (to_lower (w_agent r)) = false) ∧
  (∀ p, p ∈ blockedPaths e → has_prefix p (w_path r) = false).

(** The bucket of the client has a token, when there is a rate. *)
Definition in_rate (now : Time) (order : list string) (e : WAFEngine) (r : waf_request) : Prop :=
  fltb f_zero (rateRPS e) = true →
  (Allow now (waf_limiter now order (firstIP (clientIPs r)) e).1).1 = true.

Lemma find_none_spec {A} (f : A → bool) (l : list A) : find f l = None ↔ ∀ x, x ∈ l → f x = false.
Proof.
  induction l as [|y l IH]; cbn; [split; [by intros _ x ?%elem_of_nil|done]|].
  destruct (f y) eqn:E.
  - split; [done|]. intros Hf. rewrite (Hf y) in E; [done|left].
  - rewrite IH. split; intros Hf x; [intros [->|Hx]%elem_of_cons; [done|by apply Hf]|intros Hx; apply Hf; by right].
Qed.

Lemma blocked_ip_none now e ips : blocked_ip now e ips = None ↔ ∀ ip, ip ∈ ips → clean_address now e ip.
Proof.
  induction ips as [|ip ips IH]; cbn; [split; [by intros _ ip ?%elem_of_nil|done]|].
  assert (∀ P : Prop, (P ↔ (∀ i, i ∈ ips → clean_address now e i)) →
    (clean_address now e ip ∧ P) ↔ (∀ i, i ∈ ip :: ips → clean_address now e i)) as Hcons.
  { intros P ->. split; [intros [H1 H2] i [->|Hi]%elem_of_cons; [done|by apply H2]|].
    intros Hf. split; [apply Hf; left|intros i Hi; apply Hf; by right]. }
  rewrite <- (Hcons _ IH). unfold clean_address at 1.
  destruct (bans e !! ip) as [ban|] eqn:Eb; [destruct (before now (b_ExpiresAt ban)) eqn:Et|].
  - split; [done|]. intros [[Hb _] _]. unfold before in Et. specialize (Hb ban eq_refl).
    apply Z.ltb_lt in Et. lia.
  - destruct (bool_decide_reflect (ip ∈ ipBlacklist e)) as [Hin|Hin]; [split; [done|by intros [[_ ?] _]]|].
    split; [|by intros [_ ?]]. intros ->. split; [|done]. split; [|done]. intros ban' [= <-].
    unfold before in Et. by apply Z.ltb_ge in Et.
  - destruct (bool_decide_reflect (ip ∈ ipBlacklist e)) as [Hin|Hin]; [split; [done|by intros [[_ ?] _]]|].
    split; [|by intros [_ ?]]. intros ->. split; [|done]. split; [|done]. by intros.
Qed.

Lemma blocked_agent_none e agent :
  blocked_agent e agent = None ↔ ∀ bad, bad ∈ uaBlacklist e → str_contains (to_lower bad) (to_lower agent) = false.
Proof. unfold blocked_agent. rewrite <- find_none_spec. by destruct (find _ _). Qed.

Lemma blocked_path_none e path :
  blocked_path e path = None ↔ ∀ p, p ∈ blockedPaths e → has_prefix p path = false.
Proof. unfold blocked_path. rewrite <- find_none_spec. by destruct (find _ _). Qed.

Lemma blocked_none now e r :
  match blocked_ip now e (clientIPs r) with
  | Some b => Some b
  | None => match blocked_agent e (w_agent r) with Some b => Some b | None => blocked_path e (w_path r) end
  end = None ↔ clean now e r.
Proof.
  unfold clean. rewrite <- blocked_ip_none, <- blocked_agent_none, <- blocked_path_none.
  destruct (blocked_ip _ _ _); [split; [done|by intros [? _]]|].
  destruct (blocked_agent _ _); [split; [done|by intros (_ & ? & _)]|]. tauto.
Qed.

Lemma waf_limiter_frame now order ip e :
  violations (waf_limiter now order ip e).2 = violations e ∧ maxViolations (waf_limiter now order ip e).2 = maxViolations e.
Proof. unfold waf_limiter. by destruct (ipLimiters e !! ip). Qed.

(** The entry of a refusal names the request it refused. *)
Lemma record_entry now vt ip path reason e0 e :
  violations e0 = violations e → maxViolations e0 = maxViolations e →
  ∃ v e', record_ now vt ip path reason e0 = (Some v, e') ∧
    v_Timestamp v = now ∧ v_Type v = vt ∧ ClientIP v = ip ∧ v_Path v = path ∧
    violations e' = last_n (maxViolations e) (violations e ++ [v]).
Proof.
  intros Hv Hm. unfold record_. do 2 eexists. split; [done|]. split_and!; [done..|].
  cbn [violations set_violations]. rewrite Hv, Hm. unfold last_n.
  destruct (_ <? _)%nat eqn:El; [done|]. apply Nat.ltb_ge in El.
  by rewrite (proj2 (Nat.sub_0_le _ _) El).
Qed.

Lemma blocked_type now e r vt reason :
  match blocked_ip now e (clientIPs r) with
  | Some b => Some b
  | None => match blocked_agent e (w_agent r) with Some b => Some b | None => blocked_path e (w_path r) end
  end = Some (vt, reason) → vt ≠ WAFViolationRateLimit.
Proof.
  assert (∀ ips, match blocked_ip now e ips with Some (t, _) => t ≠ WAFViolationRateLimit | None => True end) as Hip.
  { induction ips as [|ip ips IH]; cbn; [done|]. repeat case_match; simplify_eq; done. }
  specialize (Hip (clientIPs r)). destruct (blocked_ip _ _ _) as [[t w]|]; [by intros [= <- <-]|].
  unfold blocked_agent, blocked_path. repeat case_match; intros; simplify_eq; done.
Qed.

(** C34. A filter that is enabled lets a request through exactly when no address of its client is
    banned or listed, its agent and its path match no entry, and its bucket has a token; one that
    is not lets everything through. Of a request it refuses it appends one entry to its log, which
    keeps the last of them up to its size: the time, the client's address, the path, and as the
    kind the rate exactly when nothing else was wrong. A request it passes leaves the log as it
    was. *)
Theorem verdict_exact now order r e :
  let '(verdict, e') := Check_ now order r e in
  (verdict = None ↔ enabled e = false ∨ clean now e r ∧ in_rate now order e r) ∧
  match verdict with
  | None => violations e' = violations e
  | Some v =>
      v_Timestamp v = now ∧ ClientIP v = firstIP (clientIPs r) ∧ v_Path v = w_path r ∧
      (v_Type v = WAFViolationRateLimit ↔ clean now e r) ∧
      violations e' = last_n (maxViolations e) (violations e ++ [v])
  end.
Proof.
  unfold Check_. destruct (enabled e); cbn [negb]; [|by split; [split; [by left|]|]].
  pose proof (blocked_none now e r) as Hb. pose proof (blocked_type now e r) as Ht.
  destruct (match blocked_ip now e (clientIPs r) with Some b => Some b | None => _ end) as [[vt reason]|].
  - destruct (record_entry now vt (firstIP (clientIPs r)) (w_path r) reason e e eq_refl eq_refl)
      as (v & e' & -> & H1 & H2 & H3 & H4 & H5). specialize (Ht _ _ eq_refl).
    assert (¬ clean now e r) as Hc by (by intros ?%Hb). split.
    + split; [done|]. by intros [?|[? _]].
    + split_and!; [done..| |done]. rewrite H2. by split.
  - assert (clean now e r) as Hc by (by apply Hb). clear Hb Ht. unfold in_rate.
    destruct (fltb f_zero (rateRPS e)); [|by split; [split; [by right|]|]].
    destruct (waf_limiter now order (firstIP (clientIPs r)) e) as [l e1] eqn:Ew. cbn [fst].
    destruct (waf_limiter_frame now order (firstIP (clientIPs r)) e) as [Ev Em]. rewrite Ew in Ev, Em. cbn [snd] in Ev, Em.
    destruct (Allow now l) as [ok l']. cbn [fst]. destruct ok; [by split; [split; [by right|]|]|].
    destruct (record_entry now WAFViolationRateLimit (firstIP (clientIPs r)) (w_path r)
      "per-ip request rate exceeded" (set_limiters e1 (<[firstIP (clientIPs r):=l']> (ipLimiters e1))) e Ev Em)
      as (v & e' & -> & H1 & H2 & H3 & H4 & H5). split.
    + split; [done|]. intros [?|[_ Hx]]; [done|]. by specialize (Hx eq_refl).
    + split_and!; [done..| |done]. by rewrite H2.
Qed.

(** ** The log *)

Definition visit : Type := Time * list string * waf_request.

(** The refusals of a series of requests, and the state it leaves. *)
Definition waf_step (s : list WAFViolation * WAFEngine) (q : visit) : list WAFViolation * WAFEngine :=
  let '(now, order, r) := q in
  let '(v, e) := Check_ now order r s.2 in (s.1 ++ option_list v, e).
Definition waf_run (h : list visit) (e : WAFEngine) : list WAFViolation * WAFEngine := foldl waf_step ([], e) h.

Lemma check_log now order r e :
  violations (Check_ now order r e).2 = last_n (maxViolations e) (violations e ++ option_list (Check_ now order r e).1)
    ∨ (Check_ now order r e).1 = None ∧ violations (Check_ now order r e).2 = violations e.
Proof.
  assert (∀ vt ip path reason e0, violations e0 = violations e → maxViolations e0 = maxViolations e →
    violations (record_ now vt ip path reason e0).2 =
      last_n (maxViolations e) (violations e ++ option_list (record_ now vt ip path reason e0).1)) as Hrec.
  { intros vt ip path reason e0 Hv Hm.
    by destruct (record_entry now vt ip path reason e0 e Hv Hm) as (v & e' & -> & _ & _ & _ & _ & H5). }
  unfold Check_. destruct (enabled e); cbn [negb]; [|by right].
  destruct (match blocked_ip now e (clientIPs r) with Some b => Some b | None => _ end) as [[vt reason]|].
  { left. by apply Hrec. }
  destruct (fltb f_zero (rateRPS e)); [|by right].
  destruct (waf_limiter now order (firstIP (clientIPs r)) e) as [l e1] eqn:Ew.
  destruct (waf_limiter_frame now order (firstIP (clientIPs r)) e) as [Ev Em]. rewrite Ew in Ev, Em. cbn [snd] in Ev, Em.
  destruct (Allow now l) as [ok l']. destruct ok; [by right|]. left. by apply Hrec.
Qed.

Lemma check_max now order r e : maxViolations (Check_ now order r e).2 = maxViolations e.
Proof.
  unfold Check_. destruct (enabled e); cbn [negb]; [|done].
  destruct (match blocked_ip now e (clientIPs r) with Some b => Some b | None => _ end) as [[vt reason]|]; [done|].
  destruct (fltb f_zero (rateRPS e)); [|done].
  destruct (waf_limiter now order (firstIP (clientIPs r)) e) as [l e1] eqn:Ew.
  destruct (waf_limiter_frame now order (firstIP (clientIPs r)) e) as [Ev Em]. rewrite Ew in Ev, Em. cbn [snd] in Ev, Em.
  destruct (Allow now l) as [[] l']; done.
Qed.

(** The report is the last thousand of all the refusals, most recent first. *)
Theorem report_is_last_refusals h e :
  (length (violations e) ≤ maxViolations e)%nat →
  Violations (waf_run h e).2 = reverse (last_n (maxViolations e) (violations e ++ (waf_run h e).1)).
Proof.
  intros Hl. unfold Violations. f_equal.
  enough (maxViolations (waf_run h e).2 = maxViolations e ∧
          violations (waf_run h e).2 = last_n (maxViolations e) (violations e ++ (waf_run h e).1)) by tauto.
  unfold waf_run. induction h as [|[[now order] r] h [IHm IHv]] using rev_ind.
  { split; [done|]. cbn. rewrite app_nil_r. unfold last_n. by replace (_ - _)%nat with 0%nat by lia. }
  rewrite foldl_app. cbn [foldl]. destruct (foldl waf_step ([], e) h) as [l e1]. unfold waf_step. cbn [fst snd] in *.
  pose proof (check_log now order r e1) as Hc. pose proof (check_max now order r e1) as Hm.
  destruct (Check_ now order r e1) as [v e2] eqn:Ec. cbn [fst snd] in *. rewrite Hm. split; [done|].
  destruct Hc as [->|[-> ->]].
  - rewrite IHm, IHv, app_assoc. destruct v as [v|]; cbn [option_list]; [apply last_n_snoc|].
    rewrite !app_nil_r. unfold last_n. rewrite length_drop. by replace (_ - _ - _)%nat with 0%nat by lia.
  - cbn [option_list]. by rewrite app_nil_r.
Qed.

(** ** Witnesses *)

Module WafDemo.
Definition cf : waf_config := {|
  cf_enabled := "true"; cf_ips := "198.51.100.4, 192.0.2.1"; cf_uas := "Scraper"; cf_paths := "/v1/images";
  cf_keywords := ""; cf_rps := "10"; cf_burst := "20" |}.
Definition engine : WAFEngine := Reload (λ _, None) cf NewWAFEngine.
Definition req (ip agent : string) : waf_request := {|
  w_trusted := false; w_xff := "10.0.0.1"; w_real := ""; w_remote := ip; w_path := "/v1/models"; w_agent := agent |}.
End WafDemo.

Example scraper_refused :
  let '(v, e') := Check_ 7 [] (WafDemo.req "192.0.2.9" "MyScraper/2") WafDemo.engine in
  ∃ x, v = Some x ∧ violations e' = [x] ∧ v_Type x = WAFViolationUAFilter ∧ ClientIP x = "192.0.2.9".
Proof. eexists. split_and!; vm_compute; reflexivity. Qed.

Lemma report_is_last_refusals_witness :
  Violations (waf_run [(0, [], WafDemo.req "192.0.2.1" "a"); (5, [], WafDemo.req "192.0.2.9" "a")] WafDemo.engine).2
  = (waf_run [(0, [], WafDemo.req "192.0.2.1" "a"); (5, [], WafDemo.req "192.0.2.9" "a")] WafDemo.engine).1.
Proof.
  rewrite (report_is_last_refusals [(0, [], WafDemo.req "192.0.2.1" "a"); (5, [], WafDemo.req "192.0.2.9" "a")] WafDemo.engine);
    [vm_compute; reflexivity|apply Nat.le_0_l].
Defined.
