(* ===== verification/MasterKey.v ===== *)
(** * The master key and the encryption of stored fields (encryptor.go, secret_backend.go)

    Where the key that seals the stored secrets comes from at a start: the environment, the
    keyring of the system, the key file or a new key; and the text a sealed field is. AES-GCM is a
    parameter with its law; whether the keyring and the file system work at a start is an argument. *)

From S2P Require Import Prelude Bytes LanAnnounce Providers.

(** What outlives a process: the entry of the keyring, data/.enc_key and data/.enc_key.bak. *)
Record stores := { keyring : option string; key_file : option bytes; bak_file : option bytes }.

Definition set_keyring (k : option string) (d : stores) : stores :=
  {| keyring := k; key_file := key_file d; bak_file := bak_file d |}.
Definition set_key_file (k : option bytes) (d : stores) : stores :=
  {| keyring := keyring d; key_file := k; bak_file := bak_file d |}.

(** One start: the environment, the setting of the configuration file, what works ([file_reads]: the
    key file, when there, can be read; [stats]: the two files, when there, can be looked at), and the
    32 bytes [crypto/rand] would give, before and after the configuration is read. *)
Record start_env := {
  env_key : string; env_backend : string; cfg_backend : string; kr_reads : bool; kr_writes : bool;
  file_reads : bool; stats : bool; mkdir_ok : bool; write_ok : bool; rename_ok : bool; remove_ok : bool; rand1 : option bytes; rand2 : option bytes }.

Inductive backend := File | Keyring | Strict.

#[export] Instance backend_eq_dec : EqDecision backend.
Proof. solve_decision. Defined.

Definition normalizeSecretBackend (v : string) : backend :=
  let v := to_lower (trimSpace v) in
  if bool_decide (v = "strict") then Strict else if bool_decide (v = "keyring") then Keyring else File.

(** [cfg] is [None] before the configuration is read. *)
Definition secretBackend (env : string) (cfg : option string) : backend :=
  if negb (bool_decide (trimSpace env = "")) then normalizeSecretBackend (trimSpace env)
  else match cfg with Some c => normalizeSecretBackend c | None => File end.

(** ** The keyring *)

Definition key32 (o : option bytes) : option bytes :=
  match o with Some raw => if bool_decide (length raw = 32%nat) then Some raw else None | None => None end.

(** The key the keyring holds, reachable or not. *)
Definition keyring_key (d : stores) : option bytes :=
  match keyring d with Some s => key32 (b64_decode s) | None => None end.

Definition loadKeyringKey (w : start_env) (d : stores) : option bytes := if kr_reads w then keyring_key d else None.

Definition storeKeyringKey (w : start_env) (key : bytes) (d : stores) : bool * stores :=
  if kr_writes w then (true, set_keyring (Some (b64_encode key)) d) else (false, d).

(** [os.ReadFile] of the key file, and [os.Stat] of a file: [None] for any error. *)
Definition read_key_file (w : start_env) (d : stores) : option bytes := if file_reads w then key_file d else None.
Definition stat (w : start_env) (f : option bytes) : option bytes := if stats w then f else None.

Definition removeStaleKeyFile (w : start_env) (d : stores) : stores :=
  match stat w (bak_file d), stat w (key_file d) with
  | Some _, Some _ => if remove_ok w then set_key_file None d else d
  | _, _ => d
  end.

(** ** Finding the key *)

(** A key and whether it is ephemeral. *)
Record Encryptor_ := { e_key : bytes; e_ephemeral : bool }.

Definition write_key (w : start_env) (key : bytes) (d : stores) : bool * stores :=
  if mkdir_ok w && write_ok w then (true, set_key_file (Some key) d) else (false, d).

Definition keyring_chain (w : start_env) (rand : option bytes) (d : stores) : option Encryptor_ * stores :=
  match loadKeyringKey w d with
  | Some key => (Some {| e_key := key; e_ephemeral := false |}, removeStaleKeyFile w d)
  | None =>
      match key32 (read_key_file w d) with
      | Some b =>
          let '(stored, d) := storeKeyringKey w b d in
          (Some {| e_key := b; e_ephemeral := false |},
           if stored && rename_ok w
           then {| keyring := keyring d; key_file := None; bak_file := key_file d |} else d)
      | None =>
          match rand with
          | None => (None, d)
          | Some key =>
              let '(stored, d) := storeKeyringKey w key d in
              let '(written, d) := write_key w key d in
              (Some {| e_key := key; e_ephemeral := negb stored && negb written |}, d)
          end
      end
  end.

Definition file_chain (w : start_env) (rand : option bytes) (d : stores) : option Encryptor_ * stores :=
  match key32 (read_key_file w d) with
  | Some b => (Some {| e_key := b; e_ephemeral := false |}, d)
  | None =>
      match stat w (bak_file d) with
      | Some _ => ((λ key, {| e_key := key; e_ephemeral := false |}) <$> loadKeyringKey w d, d)
      | None =>
          match rand with
          | None => (None, d)
          | Some key =>
              let '(written, d) := write_key w key d in
              (Some {| e_key := key; e_ephemeral := negb written |}, d)
          end
      end
  end.

Definition NewEncryptor (w : start_env) (b : backend) (rand : option bytes) (d : stores) : option Encryptor_ * stores :=
  if negb (bool_decide (env_key w = ""))
  then match key32 (b64_decode (env_key w)) with
       | Some raw => (Some {| e_key := raw; e_ephemeral := false |}, d)
       | None => ((λ raw, {| e_key := raw; e_ephemeral := false |}) <$> key32 (Some (bytes_of (env_key w))), d)
       end
  else match b with
  | Strict => ((λ key, {| e_key := key; e_ephemeral := false |}) <$> loadKeyringKey w d, d)
  | Keyring => keyring_chain w rand d
  | File => file_chain w rand d
  end.

(** After the configuration is read; [None] when the process gives up. *)
Definition refreshEncryptorForSecretBackend (w : start_env) (e : Encryptor_) (d : stores) : option Encryptor_ * stores :=
  let b := secretBackend (env_backend w) (Some (cfg_backend w)) in
  match b with
  | File => (Some e, d)
  | _ =>
      match NewEncryptor w b (rand2 w) d with
      | (Some e', d) => (Some e', d)
      | (None, d) => if bool_decide (b = Strict) then (None, d) else (Some e, d)
      end
  end.

(** A start: [init], then the refresh. *)
Definition start (w : start_env) (d : stores) : option Encryptor_ * stores :=
  match NewEncryptor w (secretBackend (env_backend w) None) (rand1 w) d with
  | (None, d) => (None, d)
  | (Some e, d) => refreshEncryptorForSecretBackend w e d
  end.

(** The starts of a history, with what each came to. *)
Definition starts (ws : list start_env) (d : stores) : list (option Encryptor_) * stores :=
  foldl (λ s w, let '(e, d) := start w s.2 in (s.1 ++ [e], d)) ([], d) ws.

(** ** Sealed fields *)

Section seal.
(** AES-256-GCM: sealing and opening with a key and a nonce of 12 bytes. *)
Context (gcm_seal : bytes → bytes → bytes → bytes) (gcm_open : bytes → bytes → bytes → option bytes).

Definition Encrypt (key : bytes) (nonce : option bytes) (plaintext : string) : option string :=
  match nonce with
  | None => None
  | Some n => Some (encPrefix +:+ b64_encode (n ++ gcm_seal key n (bytes_of plaintext)))
  end.

Definition Decrypt (key : bytes) (ciphertext : string) : option string :=
  match strip_prefix encPrefix ciphertext with
  | None => Some ciphertext
  | Some rest =>
      match b64_decode rest with
      | None => None
      | Some raw =>
          if (length raw <? 12)%nat then None
          else str_of <$> gcm_open key (take 12 raw) (drop 12 raw)
      end
  end.

(** The encryptor of the process; [nonce] is what [crypto/rand] gives when a text is sealed. *)
Definition process_encryptor (nonce : string → option bytes) (e : option Encryptor_) : Encryptor :=
  match e with
  | None => {| ready := false; ephemeral := false; seal := λ _, None; unseal := λ _, None |}
  | Some e => {| ready := true; ephemeral := e_ephemeral e; seal := λ s, Encrypt (e_key e) (nonce s) s;
                 unseal := Decrypt (e_key e) |}
  end.
End seal.

(** ** The key is kept *)

(** The key [K] can be found again: in the key file, or in the keyring once the file was renamed;
    and the keyring has no other key. *)
Definition holds (K : bytes) (d : stores) : Prop :=
  length K = 32%nat ∧ is_bytes K ∧
  (key_file d = Some K ∧ (keyring_key d = None ∨ keyring_key d = Some K) ∨
   key_file d = None ∧ is_Some (bak_file d) ∧ keyring_key d = Some K).

(** What must be so at a start: no key in the environment, the two files can be read and looked at when
    they are there, and the keyring can be reached when the environment asks for it. *)
Definition reachable (w : start_env) : Prop :=
  env_key w = "" ∧ file_reads w = true ∧ stats w = true ∧ (secretBackend (env_backend w) None = Keyring → kr_reads w = true).

Definition kept (K : bytes) (r : option Encryptor_ * stores) : Prop :=
  (r.1 = None ∨ r.1 = Some {| e_key := K; e_ephemeral := false |}) ∧ holds K r.2.

Lemma key32_Some K : length K = 32%nat → key32 (Some K) = Some K.
Proof. intros H. unfold key32. by rewrite bool_decide_eq_true_2. Qed.

Lemma load_holds K w d : keyring_key d = None ∨ keyring_key d = Some K →
  loadKeyringKey w d = None ∨ loadKeyringKey w d = Some K.
Proof. unfold loadKeyringKey. destruct (kr_reads w); [done|by left]. Qed.

Definition sees (w : start_env) : Prop := file_reads w = true ∧ stats w = true.

Lemma file_keeps K w rand d : holds K d → sees w → kept K (file_chain w rand d).
Proof.
  intros (Hl & Hb & [[Hf Hk]|(Hf & [b Hbak] & Hk)]) [Hr Hs]; unfold file_chain, read_key_file, stat;
    rewrite Hr, ?Hs.
  - rewrite Hf, key32_Some by done. split; [by right|]. by split_and!; [..|left].
  - rewrite Hf, Hbak. cbn [key32]. split; cbn [fst snd].
    + destruct (load_holds K w d ltac:(by right)) as [-> | ->]; [by left|by right].
    + split_and!; [done..|right]. by rewrite Hbak.
Qed.

Lemma strict_keeps K w d : holds K d →
  kept K ((λ key, {| e_key := key; e_ephemeral := false |}) <$> loadKeyringKey w d, d).
Proof.
  intros H. split; cbn [fst snd]; [|done]. destruct H as (_ & _ & Hd).
  destruct (load_holds K w d) as [-> | ->]; [destruct Hd as [[_ ?]|(_ & _ & ?)]; auto|by left|by right].
Qed.

Lemma keyring_keeps K w rand d : holds K d → sees w → (key_file d = None → kr_reads w = true) →
  kept K (keyring_chain w rand d).
Proof.
  intros (Hl & Hb & Hd) [Hfr Hst] Hr. unfold keyring_chain, read_key_file. rewrite Hfr.
  assert (keyring_key d = None ∨ keyring_key d = Some K) as Hk by (destruct Hd as [[_ ?]|(_ & _ & ?)]; auto).
  destruct (load_holds K w d Hk) as [E|E]; rewrite E.
  - destruct Hd as [[Hf _]|(Hf & _ & Hk')]; [|unfold loadKeyringKey in E; rewrite Hr in E by done; congruence].
    rewrite Hf, key32_Some by done. unfold storeKeyringKey.
    destruct (kr_writes w); cbn [andb].
    + assert (keyring_key (set_keyring (Some (b64_encode K)) d) = Some K) as Hk'
        by (unfold keyring_key; cbn; by rewrite b64_decode_encode, key32_Some).
      split; [by right|]. destruct (rename_ok w); split_and!; try done.
      * right. cbn. rewrite Hf. split_and!; [done|by eexists|done].
      * left. by split; [|right].
    + split; [by right|]. by split_and!; [..|left].
  - assert (keyring_key d = Some K) as Hk'
      by (unfold loadKeyringKey in E; destruct (kr_reads w); [done|discriminate E]).
    split; [by right|]. cbn [snd]. unfold removeStaleKeyFile, stat. rewrite Hst.
    destruct (bak_file d) as [b|] eqn:Eb; [|split_and!; [done..|]; destruct Hd as [[? _]|(? & [? ?] & _)]; [left; auto|done]].
    destruct (key_file d) as [k|] eqn:Ef.
    + destruct Hd as [[[= ->] _]|[? _]]; [|done]. destruct (remove_ok w); split_and!; try done.
      * right. cbn. rewrite Eb. by split_and!; [|eexists|].
      * left. split; [by rewrite Ef|by right].
    + split_and!; [done..|right]. rewrite Eb, Ef. by split_and!; [|eexists|].
Qed.

Lemma new_keeps K w b rand d : holds K d → env_key w = "" → sees w →
  (b = Keyring → key_file d = None → kr_reads w = true) → kept K (NewEncryptor w b rand d).
Proof.
  intros H He Hs Hr. unfold NewEncryptor. rewrite He. cbn [negb bool_decide decide_rel]. rewrite bool_decide_eq_true_2 by done.
  cbn [negb]. destruct b; [by apply file_keeps|apply keyring_keeps; auto|by apply strict_keeps].
Qed.

(** A key file that is gone was renamed; with the keyring out of reach the first lookup fails. *)
Lemma file_start_reads w rand d e d' :
  sees w → file_chain w rand d = (Some e, d') → key_file d' = None → bak_file d' ≠ None → kr_reads w = true.
Proof.
  intros [Hfr Hst]. unfold file_chain, read_key_file, stat. rewrite Hfr, Hst. destruct (key32 (key_file d)) eqn:Ek.
  - intros [= <- <-] Hn. by rewrite Hn in Ek.
  - destruct (bak_file d) as [b|] eqn:Eb.
    + unfold loadKeyringKey. by destruct (kr_reads w).
    + destruct rand as [key|]; [|done]. unfold write_key. destruct (_ && _)%bool; intros [= <- <-]; [done|congruence].
Qed.

Lemma start_keeps K w d : holds K d → reachable w → kept K (start w d).
Proof.
  intros H (He & Hfr & Hst & Hr). assert (sees w) as Hsee by done. unfold start. set (b1 := secretBackend (env_backend w) None) in *.
  assert (kept K (NewEncryptor w b1 (rand1 w) d)) as [H1 H2] by (apply new_keeps; auto).
  destruct (NewEncryptor w b1 (rand1 w) d) as [[e|] d1] eqn:E; cbn [fst snd] in *; [|by split; [left|]].
  destruct H1 as [|[= ->]]; [done|]. unfold refreshEncryptorForSecretBackend.
  set (b2 := secretBackend (env_backend w) (Some (cfg_backend w))).
  assert (b2 = Keyring → key_file d1 = None → kr_reads w = true) as Hr2.
  { intros Hb Hn. destruct (decide (b1 = Keyring)) as [|Hb1]; [auto|].
    destruct H2 as (_ & _ & [[? _]|(_ & [b Hbak] & _)]); [congruence|].
    unfold NewEncryptor in E. rewrite He, bool_decide_eq_true_2 in E by done. cbn [negb] in E. destruct b1; [|done|].
    - eapply file_start_reads; [exact Hsee|exact E|done|by rewrite Hbak].
    - unfold loadKeyringKey in E. by destruct (kr_reads w). }
  pose proof (new_keeps K w b2 (rand2 w) d1 H2 He Hsee Hr2) as [H3 H4].
  destruct (decide (b2 = File)) as [->|Hf]; [by split; [right|]|].
  destruct (NewEncryptor w b2 (rand2 w) d1) as [[e|] d2]; cbn [fst snd] in *.
  - destruct b2; [done|by split..].
  - destruct b2; [done|..]; cbn; by split; [auto|].
Qed.

Lemma starts_snoc ws w d :
  starts (ws ++ [w]) d = ((starts ws d).1 ++ [(start w (starts ws d).2).1], (start w (starts ws d).2).2).
Proof.
  unfold starts. rewrite foldl_app. cbn [foldl]. by destruct (start w _).
Qed.

(** C37. Once the stores hold a key, every later start uses that key or refuses to run, whatever the
    backend, however often it is changed, and whether or not the keyring is reached and files can be
    written, renamed and removed; provided that no key is given in the environment, that the key file
    and its backup can be read and looked at, and that the keyring can be read when the environment
    asks for it. *)
Theorem master_key_is_kept K d ws :
  holds K d → Forall reachable ws →
  Forall (λ e, e = None ∨ e = Some {| e_key := K; e_ephemeral := false |}) (starts ws d).1 ∧
  holds K (starts ws d).2.
Proof.
  intros H. induction ws as [|w ws IH] using rev_ind; [by split|].
  intros [Hws Hw%Forall_inv]%Forall_app. destruct (IH Hws) as [IH1 IH2]. rewrite starts_snoc. cbn [fst snd].
  destruct (start_keeps K w _ IH2 Hw) as [H1 H2]. split; [|done].
  apply Forall_app. split; [done|]. by apply Forall_singleton.
Qed.

Definition blank : stores := {| keyring := None; key_file := None; bak_file := None |}.

(** A first start that can write its file leaves a key that is held. *)
Theorem first_start_holds w K :
  env_key w = "" → sees w → rand1 w = Some K → length K = 32%nat → is_bytes K → mkdir_ok w = true → write_ok w = true →
  secretBackend (env_backend w) (Some (cfg_backend w)) ≠ Strict →
  (start w blank).1 = Some {| e_key := K; e_ephemeral := false |} ∧ holds K (start w blank).2.
Proof.
  intros He Hsee Hrand Hl Hb Hm Hw Hs.
  assert (∀ d, write_key w K d = (true, set_key_file (Some K) d)) as Hwk by (intros d; unfold write_key; by rewrite Hm, Hw).
  assert (∀ d, keyring_key d = None ∨ keyring_key d = Some K → key_file d = Some K → holds K d) as Hh
    by (intros d H1 H2; split_and!; [done..|left; auto]).
  assert (holds K (set_key_file (Some K) blank)) as Hf by (apply Hh; [by left|done]).
  assert (loadKeyringKey w blank = None) as Hload by (unfold loadKeyringKey; by destruct (kr_reads w)).
  assert (∀ b, b ≠ Strict → ∃ d, NewEncryptor w b (rand1 w) blank = (Some {| e_key := K; e_ephemeral := false |}, d) ∧
    holds K d ∧ key_file d = Some K) as Hnew.
  { intros b Hbs. unfold NewEncryptor. rewrite He, bool_decide_eq_true_2 by done. cbn [negb].
    destruct b; [| |done]; rewrite Hrand.
    - unfold file_chain, read_key_file, stat. cbn. destruct (file_reads w), (stats w); cbn; rewrite Hwk; by eexists.
    - unfold keyring_chain. rewrite Hload. unfold read_key_file. destruct Hsee as [Hfr _]. rewrite Hfr. cbn. unfold storeKeyringKey. destruct (kr_writes w); rewrite Hwk; cbn.
      + eexists. split_and!; [done| |done]. apply Hh; [|done]. right. unfold keyring_key. cbn.
        by rewrite b64_decode_encode, key32_Some.
      + by eexists. }
  unfold start. set (b1 := secretBackend (env_backend w) None).
  assert (b1 ≠ Strict) as Hb1.
  { unfold b1, secretBackend in *. by destruct (negb (bool_decide (trimSpace (env_backend w) = ""))). }
  destruct (Hnew b1 Hb1) as (d1 & -> & Hd1 & Hf1). unfold refreshEncryptorForSecretBackend.
  set (b2 := secretBackend (env_backend w) (Some (cfg_backend w))) in *.
  destruct b2; [by split| |done].
  destruct (new_keeps K w Keyring (rand2 w) d1 Hd1 He Hsee) as [H1 H2]; [congruence|].
  destruct (NewEncryptor w Keyring (rand2 w) d1) as [[e|] d2]; cbn [fst snd] in *; [|by split].
  by destruct H1 as [|[= ->]].
Qed.

(** ** Sealed fields open again *)

Section seal_laws.
Context (gcm_seal : bytes → bytes → bytes → bytes) (gcm_open : bytes → bytes → bytes → option bytes).
(** Opening gives back what was sealed; what is sealed and the nonces are bytes. *)
Hypothesis gcm_law : ∀ k n p, is_bytes p → gcm_open k n (gcm_seal k n p) = Some p.
Hypothesis gcm_bytes : ∀ k n p, is_bytes (gcm_seal k n p).

Lemma encrypt_decrypt key n s :
  length n = 12%nat → is_bytes n → ∃ c, Encrypt gcm_seal key (Some n) s = Some c ∧ IsEncrypted c = true ∧
    Decrypt gcm_open key c = Some s.
Proof.
  intros Hl Hn. eexists. split; [done|]. unfold IsEncrypted, has_prefix, Decrypt. rewrite strip_prefix_app. split; [done|].
  rewrite b64_decode_encode by (apply Forall_app; split; [done|apply gcm_bytes]). rewrite length_app, Hl.
  destruct (Nat.ltb_spec (12 + length (gcm_seal key n (bytes_of s))) 12); [lia|].
  rewrite take_app_length', drop_app_length' by done. rewrite gcm_law by apply bytes_of_bytes.
  cbn. by rewrite str_of_bytes_of.
Qed.

(** The law the components that store secrets rely on ([Registry], [UsersSafety]): with nonces of
    12 bytes, what the encryptor of the process seals is marked as sealed and opens to the text. *)
Theorem process_encryptor_law nonce e :
  (∀ s n, nonce s = Some n → length n = 12%nat ∧ is_bytes n) →
  let E := process_encryptor gcm_seal gcm_open nonce e in
  ∀ s c, @seal E s = Some c → IsEncrypted c = true ∧ @unseal E c = Some s.
Proof.
  intros Hn E s c. unfold E, process_encryptor. clear E. destruct e as [e|]; cbn [seal unseal]; [|done].
  destruct (nonce s) as [n|] eqn:En; [|done]. destruct (Hn s n En) as [Hl Hb]. intros Ec.
  destruct (encrypt_decrypt (e_key e) n s Hl Hb) as (c' & Ec' & H1 & H2). by simplify_eq.
Qed.
End seal_laws.

(** ** Concrete starts *)

Module MasterKeyDemo.
Definition K1 : bytes := replicate 32 1.
Definition K2 : bytes := replicate 32 2.
Definition with_backend (env cfg : string) (reads : bool) (rand : option bytes) : start_env := {|
  env_key := ""; env_backend := env; cfg_backend := cfg; kr_reads := reads; kr_writes := true;
  file_reads := true; stats := true; mkdir_ok := true; write_ok := true; rename_ok := true; remove_ok := true; rand1 := rand; rand2 := rand |}.
Definition keys_of (ws : list start_env) (d : stores) : list (option (bytes * bool)) :=
  (λ o : option Encryptor_, (λ e, (e_key e, e_ephemeral e)) <$> o) <$> (starts ws d).1.
End MasterKeyDemo.
Import MasterKeyDemo.

(** With the keyring asked for by the environment, one start while the keyring is out of reach, after
    the key file was migrated, makes a new key and keeps it: what the old one sealed is lost. *)
Theorem outage_replaces_the_key :
  keys_of [with_backend "" "file" true (Some K1); with_backend "keyring" "file" true (Some K2);
           with_backend "keyring" "file" false (Some K2); with_backend "keyring" "file" true (Some K2)] blank
  = [Some (K1, false); Some (K1, false); Some (K2, false); Some (K2, false)].
Proof. vm_compute. reflexivity. Qed.

(** A key file of the wrong length is replaced, and a key that cannot be stored is used all the same. *)
Example damaged_file_is_replaced :
  starts [with_backend "" "file" true (Some K2)] {| keyring := None; key_file := Some [1]; bak_file := None |}
  = ([Some {| e_key := K2; e_ephemeral := false |}], {| keyring := None; key_file := Some K2; bak_file := None |}).
Proof. vm_compute. reflexivity. Qed.
Example ephemeral_key_is_used :
  (start {| env_key := ""; env_backend := ""; cfg_backend := "file"; kr_reads := false; kr_writes := false;
            file_reads := true; stats := true; mkdir_ok := true; write_ok := false; rename_ok := true; remove_ok := true; rand1 := Some K1; rand2 := None |}
     blank).1 = Some {| e_key := K1; e_ephemeral := true |}.
Proof. vm_compute. reflexivity. Qed.

(** (A defect.) A key file that is there but cannot be read at one start is replaced by a new key, in
    both backends: what the old one sealed is lost. *)
Definition unread (env : string) : start_env := {|
  env_key := ""; env_backend := env; cfg_backend := env; kr_reads := false; kr_writes := false; file_reads := false;
  stats := true; mkdir_ok := true; write_ok := true; rename_ok := true; remove_ok := true; rand1 := Some K2; rand2 := Some K2 |}.
Example unread_file_is_replaced :
  let d := {| keyring := None; key_file := Some K1; bak_file := None |} in
  keys_of [with_backend "" "file" true None; unread "file"; with_backend "" "file" true None] d
  = [Some (K1, false); Some (K2, false); Some (K2, false)] ∧
  keys_of [unread "keyring"; with_backend "" "file" true None] d = [Some (K2, false); Some (K2, false)].
Proof. vm_compute. split; reflexivity. Qed.

(** After a migration, a start whose configuration file asks for the keyring stops while it is out of reach. *)
Example outage_stops_the_start :
  keys_of [with_backend "" "keyring" true (Some K1); with_backend "" "keyring" false (Some K2)] blank
  = [Some (K1, false); None].
Proof. vm_compute. reflexivity. Qed.

Lemma master_key_is_kept_witness :
  let d := {| keyring := None; key_file := Some K1; bak_file := None |} in
  let ws := [with_backend "" "keyring" true (Some K2); with_backend "" "file" false (Some K2);
             with_backend "keyring" "" true (Some K2)] in
  keys_of ws d = [Some (K1, false); None; Some (K1, false)] ∧ holds K1 (starts ws d).2.
Proof.
  intros d ws. split; [vm_compute; reflexivity|]. apply (master_key_is_kept K1 d ws).
  - split; [reflexivity|]. split; [unfold K1, is_bytes; apply Forall_replicate; lia|]. left. by split; [|left].
  - repeat constructor; vm_compute; congruence.
Defined.
