(* ===== verification/Identity.v ===== *)
(** * The identity of a node (node.go, handlers.go)

    [NodeIdentity] is the key pair of the node, kept sealed, with the mnemonic it was derived from
    until its backup is confirmed; node.key is the value [NodeKeyStore]. The word lists of BIP39,
    HMAC-SHA512 and Ed25519 are parameters; writing the file succeeds. Zeroing of memory is not
    modelled. *)

From S2P Require Import Prelude GoTime Bytes Sha256 Providers.

(** ** base58 *)

Definition base58Alphabet : list ascii :=
  String.list_ascii_of_string "123456789ABCDEFGHJKLMNPQRSTUVWXYZabcdefghijkmnopqrstuvwxyz".
Definition base58_char (d : Z) : ascii := nth (Z.to_nat d) base58Alphabet "1"%char.

(** One pass of the long division by 58: the quotient, without leading zeros, and the remainder. *)
Fixpoint divide58 (num : bytes) (remainder : Z) (next : bytes) : bytes * Z :=
  match num with
  | [] => (next, remainder)
  | b :: num =>
      let acc := remainder * 256 + b in
      let digit := acc / 58 in
      divide58 num (acc mod 58)
        (if (0 <? length next)%nat || (0 <? digit) then next ++ [digit] else next)
  end.

(** The passes, as long as there are digits. *)
Fixpoint base58_loop (fuel : nat) (num : bytes) (encoded : string) : string :=
  match fuel, num with
  | S fuel, _ :: _ =>
      let '(next, r) := divide58 num 0 [] in base58_loop fuel next (String (base58_char r) encoded)
  | _, _ => encoded
  end.

Fixpoint leading_zeros (data : bytes) : nat :=
  match data with b :: data => if b =? 0 then S (leading_zeros data) else O | [] => O end.

Definition ones (n : nat) (s : string) : string := Nat.iter n (String "1") s.

(** A pass shortens nothing by less than needed: two digits per byte are enough. *)
Definition base58Encode (data : bytes) : string :=
  match data with
  | [] => ""
  | _ => ones (leading_zeros data) (base58_loop (2 * length data) data "")
  end.

(** ** Identity *)

Record NodeIdentity := {
  nodeID : string; privKey : option bytes; encPrivKey : string; pubKey : option bytes; mnemonic : string;
  hasMnemonic : bool; githubUser : string; githubID : Z; joinedAt : Time; tokenBudget : Z;
  backupConfirmed : bool; needsMigration : bool }.

Record NodeKeyStore := {
  s_NodeID : string; s_PrivKeyB64 : string; s_PubKeyB64 : string; s_Mnemonic : string; s_HasMnemonic : bool;
  s_BackupConfirmed : bool; s_GitHubUser : string; s_GitHubID : Z; s_JoinedAt : string; s_Version : Z }.

(** The file: missing, unreadable as JSON, or a store. *)
Inductive key_file := NoKeyFile | BadKeyFile | KeyFile (s : NodeKeyStore).

Definition new_identity : NodeIdentity := {|
  nodeID := ""; privKey := None; encPrivKey := ""; pubKey := None; mnemonic := ""; hasMnemonic := false;
  githubUser := ""; githubID := 0; joinedAt := time_zero; tokenBudget := 0; backupConfirmed := false;
  needsMigration := false |}.

Definition IsInitialized (n : NodeIdentity) : bool :=
  negb (bool_decide (nodeID n = "")) && (negb (bool_decide (encPrivKey n = "")) || bool_decide (is_Some (privKey n))).

(** ** Values to sign *)

(** A Go value as reflection sees it: a pointer ([None]: nil), a struct with its fields in order, a string,
    or anything else, by what it holds. *)
Inductive go_value :=
| GPtr (target : option go_value)
| GStruct (fields : list (string * go_value))
| GString (s : string)
| GOther (content : string).

(** [FieldByName]. *)
Fixpoint field (name : string) (fs : list (string * go_value)) : option go_value :=
  match fs with
  | [] => None
  | (k, v) :: fs => if bool_decide (k = name) then Some v else field name fs
  end.
Fixpoint set_field (name : string) (v : go_value) (fs : list (string * go_value)) : list (string * go_value) :=
  match fs with
  | [] => []
  | (k, w) :: fs => if bool_decide (k = name) then (k, v) :: fs else (k, w) :: set_field name v fs
  end.

Fixpoint deref (v : go_value) : option go_value :=
  match v with GPtr None => None | GPtr (Some w) => deref w | _ => Some v end.

(** [json.Marshal] of the value its pointers lead to with the field Signature, when it is a string,
    blanked; the field gets its value back, or a copy was blanked, so the value itself stays. *)
Definition canonicalJSON (Marshal : go_value → option bytes) (v : go_value) : option bytes :=
  match deref v with
  | Some (GStruct fs) =>
      match field "Signature" fs with
      | Some (GString _) => Marshal (GStruct (set_field "Signature" (GString "") fs))
      | _ => Marshal v
      end
  | _ => Marshal v
  end.

(** The assignment [v.Signature = sig] of the callers. *)
Fixpoint put_signature (sig : string) (v : go_value) : go_value :=
  match v with
  | GPtr (Some w) => GPtr (Some (put_signature sig w))
  | GStruct fs => GStruct (set_field "Signature" (GString sig) fs)
  | _ => v
  end.

Definition signable (v : go_value) : Prop :=
  ∃ fs old, deref v = Some (GStruct fs) ∧ field "Signature" fs = Some (GString old).

Lemma field_set name v fs : is_Some (field name fs) → field name (set_field name v fs) = Some v.
Proof.
  induction fs as [|[k w] fs IH]; cbn; [by intros [? ?]|].
  destruct (bool_decide_reflect (k = name)) as [->|N]; cbn.
  - by rewrite bool_decide_eq_true_2.
  - by rewrite bool_decide_eq_false_2.
Qed.
Lemma set_field_twice name v w fs : set_field name v (set_field name w fs) = set_field name v fs.
Proof.
  induction fs as [|[k x] fs IH]; cbn; [done|]. destruct (bool_decide_reflect (k = name)); cbn.
  - by rewrite bool_decide_eq_true_2.
  - rewrite bool_decide_eq_false_2 by done. by rewrite IH.
Qed.
Lemma deref_put sig v fs : deref v = Some (GStruct fs) →
  deref (put_signature sig v) = Some (GStruct (set_field "Signature" (GString sig) fs)).
Proof.
  revert v. fix IH 1. intros [[w|]|gs|x|x]; cbn; try done; [apply IH|]. by intros [= ->].
Qed.

(** The signature in the field does not change what is signed. *)
Lemma canonical_put Marshal sig v : signable v → canonicalJSON Marshal (put_signature sig v) = canonicalJSON Marshal v.
Proof.
  intros (fs & old & Hd & Hf). unfold canonicalJSON. rewrite (deref_put sig v fs Hd), Hd, Hf.
  rewrite field_set by (rewrite Hf; by eexists). by rewrite set_field_twice.
Qed.

Section identity.
Context `{Encryptor}.
(** go-bip39: [NewMnemonic], [IsMnemonicValid], [NewSeed] without a passphrase; HMAC-SHA512;
    [ed25519.NewKeyFromSeed] and [ed25519.Sign]; the last 32 bytes of a private key are the public one. *)
Context (NewMnemonic : bytes → option string) (IsMnemonicValid : string → bool) (NewSeed : string → bytes)
  (hmac_sha512 : bytes → bytes → bytes) (NewKeyFromSeed : bytes → bytes) (ed25519_sign : bytes → bytes → bytes).

Definition public_of (priv : bytes) : bytes := drop 32 priv.

(** *** SLIP-0010 *)

Definition slip0010MasterKey (seed : bytes) : bytes * bytes :=
  let I := hmac_sha512 (bytes_of "ed25519 seed") seed in (take 32 I, drop 32 I).
Definition slip0010DeriveChild (key chain : bytes) (index : Z) : bytes * bytes :=
  let I := hmac_sha512 chain ([0] ++ key ++ put_uint32 index) in (take 32 I, drop 32 I).
Definition slip0010DerivePath (key chain : bytes) (path : list Z) : bytes * bytes :=
  foldl (λ s index, slip0010DeriveChild s.1 s.2 index) (key, chain) path.

Definition hardened (i : Z) : Z := Z.lor i (2 ^ 31).
Definition deriveKeyFromMnemonic (m : string) : bytes * bytes :=
  let '(mk, mc) := slip0010MasterKey (NewSeed m) in
  let '(key, _) := slip0010DerivePath mk mc [hardened 44; hardened 2024; hardened 0] in
  let priv := NewKeyFromSeed key in (priv, public_of priv).

(** *** The file *)

Definition save (n : NodeIdentity) (f : key_file) : NodeIdentity * key_file :=
  let encKey := match privKey n with
                | Some k => if bool_decide (encPrivKey n = "") then encryptField (b64_encode k) else encPrivKey n
                | None => encPrivKey n
                end in
  let clear := bool_decide (encPrivKey n = "") && bool_decide (is_Some (privKey n)) in
  let n := {| nodeID := nodeID n; privKey := if clear then None else privKey n;
              encPrivKey := if clear then encKey else encPrivKey n; pubKey := pubKey n; mnemonic := mnemonic n;
              hasMnemonic := hasMnemonic n; githubUser := githubUser n; githubID := githubID n;
              joinedAt := joinedAt n; tokenBudget := tokenBudget n; backupConfirmed := backupConfirmed n;
              needsMigration := needsMigration n |} in
  if bool_decide (encKey = "") then (n, f)
  else (n, KeyFile {|
    s_NodeID := nodeID n; s_PrivKeyB64 := encKey; s_PubKeyB64 := b64_encode (default [] (pubKey n));
    s_Mnemonic := if bool_decide (mnemonic n = "") then "" else encryptField (mnemonic n);
    s_HasMnemonic := hasMnemonic n; s_BackupConfirmed := backupConfirmed n; s_GitHubUser := githubUser n;
    s_GitHubID := githubID n; s_JoinedAt := fmt_rfc3339 UTC (joinedAt n); s_Version := 2 |}).

(** A private key is unsealed, decoded and read; [None] when it cannot be. *)
Definition open_key (sealed : string) : option bytes :=
  let d := decryptField sealed in
  if bool_decide (d = "") then None else b64_decode d.

Definition initNode (f : key_file) : NodeIdentity :=
  match f with
  | NoKeyFile | BadKeyFile => new_identity
  | KeyFile s =>
      let pub := public_of <$> open_key (s_PrivKeyB64 s) in
      let early := {|
        nodeID := s_NodeID s; privKey := None; encPrivKey := s_PrivKeyB64 s; pubKey := pub; mnemonic := "";
        hasMnemonic := s_HasMnemonic s; githubUser := ""; githubID := 0; joinedAt := time_zero; tokenBudget := 0;
        backupConfirmed := s_BackupConfirmed s; needsMigration := false |} in
      match pub with
      | None => early
      | Some _ => {|
        nodeID := s_NodeID s; privKey := None; encPrivKey := s_PrivKeyB64 s; pubKey := pub;
        mnemonic := if s_HasMnemonic s && negb (bool_decide (s_Mnemonic s = "")) then decryptField (s_Mnemonic s) else "";
        hasMnemonic := s_HasMnemonic s; githubUser := s_GitHubUser s; githubID := s_GitHubID s;
        joinedAt := if bool_decide (s_JoinedAt s = "") then time_zero
                    else default time_zero (parse_rfc3339 (s_JoinedAt s));
        tokenBudget := 0; backupConfirmed := s_BackupConfirmed s;
        needsMigration := has_prefix "mm-" (s_NodeID s) && negb (has_prefix "mmx-" (s_NodeID s)) |}
      end
  end.

(** *** Making an identity *)

(** The key pair of a mnemonic takes the place of the one there was. *)
Definition adopt (now : Time) (m : string) (confirmed : bool) (n : NodeIdentity) : NodeIdentity :=
  let '(priv, pub) := deriveKeyFromMnemonic m in {|
  nodeID := "mmx-" +:+ hex pub; privKey := None; encPrivKey := encryptField (b64_encode priv); pubKey := Some pub;
  mnemonic := m; hasMnemonic := true; githubUser := githubUser n; githubID := githubID n; joinedAt := now;
  tokenBudget := tokenBudget n; backupConfirmed := confirmed; needsMigration := false |}.

(** [entropy] is what [bip39.NewEntropy] gives, [None] for an error. *)
Definition GenerateWithMnemonic (now : Time) (entropy : option bytes) (wordCount : Z) (s : NodeIdentity * key_file)
    : res string * (NodeIdentity * key_file) :=
  let '(n, f) := s in
  if negb (wordCount =? 12) && negb (wordCount =? 24) then (Err "word count must be 12 or 24", s)
  else match entropy with
  | None => (Err "failed to generate entropy", s)
  | Some e =>
      match NewMnemonic e with
      | None => (Err "failed to generate mnemonic", s)
      | Some m => (Ok m, save (adopt now m false n) f)
      end
  end.

Definition RestoreFromMnemonic (now : Time) (m : string) (s : NodeIdentity * key_file) : res unit * (NodeIdentity * key_file) :=
  let '(n, f) := s in
  let m := trimSpace m in
  if negb (IsMnemonicValid m) then (Err "invalid mnemonic phrase", s)
  else (Ok tt, save (adopt now m true n) f).

Definition GetMnemonic (s : NodeIdentity * key_file) : res string :=
  let '(n, f) := s in
  if negb (hasMnemonic n) then Err "this identity was not generated from a mnemonic"
  else if negb (bool_decide (mnemonic n = "")) then Ok (mnemonic n)
  else match f with
  | NoKeyFile => Err "failed to read key file"
  | BadKeyFile => Err "failed to parse key file"
  | KeyFile st =>
      if bool_decide (s_Mnemonic st = "") then Err "no mnemonic stored for this identity"
      else let d := decryptField (s_Mnemonic st) in
           if bool_decide (d = "") then Err "failed to decrypt mnemonic" else Ok d
  end.

Definition ConfirmBackup (s : NodeIdentity * key_file) : NodeIdentity * key_file :=
  let '(n, f) := s in
  save {| nodeID := nodeID n; privKey := privKey n; encPrivKey := encPrivKey n; pubKey := pubKey n; mnemonic := "";
          hasMnemonic := hasMnemonic n; githubUser := githubUser n; githubID := githubID n; joinedAt := joinedAt n;
          tokenBudget := tokenBudget n; backupConfirmed := true; needsMigration := needsMigration n |} f.

Definition Migrate (s : NodeIdentity * key_file) : res unit * (NodeIdentity * key_file) :=
  let '(n, f) := s in
  match pubKey n with
  | None => (Err "cannot migrate: public key unavailable", s)
  | Some pub =>
      (Ok tt, save {| nodeID := "mmx-" +:+ hex pub; privKey := privKey n; encPrivKey := encPrivKey n; pubKey := pubKey n;
                      mnemonic := mnemonic n; hasMnemonic := hasMnemonic n; githubUser := githubUser n;
                      githubID := githubID n; joinedAt := joinedAt n; tokenBudget := tokenBudget n;
                      backupConfirmed := backupConfirmed n; needsMigration := false |} f)
  end.

Definition SetGitHub (user : string) (id : Z) (s : NodeIdentity * key_file) : NodeIdentity * key_file :=
  let '(n, f) := s in
  save {| nodeID := nodeID n; privKey := privKey n; encPrivKey := encPrivKey n; pubKey := pubKey n;
          mnemonic := mnemonic n; hasMnemonic := hasMnemonic n; githubUser := user; githubID := id;
          joinedAt := joinedAt n; tokenBudget := tokenBudget n; backupConfirmed := backupConfirmed n;
          needsMigration := needsMigration n |} f.

Definition SetTokenBudget (b : Z) (n : NodeIdentity) : NodeIdentity := {|
  nodeID := nodeID n; privKey := privKey n; encPrivKey := encPrivKey n; pubKey := pubKey n;
  mnemonic := mnemonic n; hasMnemonic := hasMnemonic n; githubUser := githubUser n; githubID := githubID n;
  joinedAt := joinedAt n; tokenBudget := b; backupConfirmed := backupConfirmed n; needsMigration := needsMigration n |}.

(** *** Signing *)

Definition PubKeyB64 (n : NodeIdentity) : string := match pubKey n with Some p => b64_encode p | None => "" end.

Definition Sign (message : bytes) (n : NodeIdentity) : string :=
  match open_key (encPrivKey n) with Some k => b64_encode (ed25519_sign k message) | None => "" end.

Definition SignHex (message : bytes) (n : NodeIdentity) : string :=
  match open_key (encPrivKey n) with Some k => hex (ed25519_sign k message) | None => "" end.

(** [ed25519.Verify]. *)
Definition VerifySignature (Verify : bytes → bytes → bytes → bool) (pubKeyB64 : string) (message : bytes)
    (signatureB64 : string) : bool :=
  match b64_decode pubKeyB64 with
  | Some pub =>
      if negb (bool_decide (length pub = 32%nat)) then false
      else match b64_decode signatureB64 with
      | Some sig => if negb (bool_decide (length sig = 64%nat)) then false else Verify pub message sig
      | None => false
      end
  | None => false
  end.

Definition SignJSON (Marshal : go_value → option bytes) (v : go_value) (n : NodeIdentity) : string :=
  match canonicalJSON Marshal v with Some data => Sign data n | None => "" end.
Definition VerifyJSONSig (Marshal : go_value → option bytes) (Verify : bytes → bytes → bytes → bool)
    (pubKeyB64 : string) (v : go_value) (sig : string) : bool :=
  match canonicalJSON Marshal v with Some data => VerifySignature Verify pubKeyB64 data sig | None => false end.

(** *** Handlers *)

Definition handleNetworkIdentityGenerate (now : Time) (entropy : option bytes) (word_count : Z)
    (s : NodeIdentity * key_file) : Z * (NodeIdentity * key_file) :=
  if backupConfirmed s.1 then (409, s)
  else match GenerateWithMnemonic now entropy (if word_count =? 24 then 24 else 12) s with
       | (Ok _, s) => (200, s)
       | (Err _, s) => (400, s)
       end.

Definition handleNetworkIdentityConfirmBackup (s : NodeIdentity * key_file) : Z * (NodeIdentity * key_file) :=
  if negb (IsInitialized s.1) then (400, s) else (200, ConfirmBackup s).

Definition handleNetworkIdentityRestore (now : Time) (m : option string) (s : NodeIdentity * key_file)
    : Z * (NodeIdentity * key_file) :=
  match m with
  | None => (400, s)
  | Some m =>
      if bool_decide (trimSpace m = "") then (400, s)
      else match RestoreFromMnemonic now m s with
           | (Ok _, s) => (200, s)
           | (Err _, s) => (400, s)
           end
  end.
End identity.

(** ** base58 writes numbers *)

Definition is_digit58 (d : Z) : Prop := 0 ≤ d < 58.
Definition value58 (l : list Z) : Z := foldl (λ acc d, acc * 58 + d) 0 l.
Definition string58 (l : list Z) : string := String.string_of_list_ascii (base58_char <$> l).

Lemma be_value_app a b : be_value (a ++ b) = be_value a * 256 ^ Z.of_nat (length b) + be_value b.
Proof.
  unfold be_value. rewrite foldl_app. generalize (foldl (λ acc x, acc * 256 + x) 0 a). intros z.
  induction b as [|x b IH] using rev_ind; [cbn; lia|]. rewrite !foldl_app, length_app, IH. cbn.
  rewrite Nat2Z.inj_add, Z.pow_add_r by lia. cbn. lia.
Qed.
Lemma be_value_cons x b : be_value (x :: b) = x * 256 ^ Z.of_nat (length b) + be_value b.
Proof. change (x :: b) with ([x] ++ b). rewrite be_value_app. cbn. lia. Qed.
Lemma be_value_bounds b : is_bytes b → 0 ≤ be_value b < 256 ^ Z.of_nat (length b).
Proof.
  induction 1 as [|x b Hx _ IH]; [cbn; lia|]. rewrite be_value_cons. cbn [length].
  rewrite Nat2Z.inj_succ, Z.pow_succ_r by lia. nia.
Qed.

(** No leading zero. *)
Definition trimmed (b : list Z) : Prop := head b ≠ Some 0.

Lemma trimmed_zero b : is_bytes b → trimmed b → be_value b = 0 → b = [].
Proof.
  intros Hb Ht. destruct b as [|x b]; [done|]. apply Forall_cons in Hb as [Hx Hb].
  rewrite be_value_cons. pose proof (be_value_bounds b Hb). assert (x ≠ 0) by (intros ->; by apply Ht). nia.
Qed.

Lemma divide58_spec num r next q r' :
  is_bytes num → 0 ≤ r < 58 → is_bytes next → trimmed next → divide58 num r next = (q, r') →
  be_value q * 58 + r' = (be_value next * 58 + r) * 256 ^ Z.of_nat (length num) + be_value num ∧
  0 ≤ r' < 58 ∧ is_bytes q ∧ trimmed q.
Proof.
  intros Hn. revert r next. induction Hn as [|b num Hb Hn IH]; intros r next Hr Hnext Ht; cbn [divide58].
  { intros [= <- <-]. change (be_value []) with 0. cbn [length Z.of_nat]. split_and!; [lia|lia|lia|done|done]. }
  set (acc := r * 256 + b). assert (acc = acc / 58 * 58 + acc mod 58) as Hacc by (rewrite Z.mul_comm; apply Z.div_mod; lia).
  pose proof (Z.mod_pos_bound acc 58 eq_refl) as Hm.
  assert (0 ≤ acc / 58 < 256) as Hd by (split; [apply Z.div_pos; unfold acc; lia|apply Z.div_lt_upper_bound; unfold acc; lia]).
  set (next' := if _ || _ then next ++ [acc / 58] else next).
  assert (is_bytes next' ∧ trimmed next' ∧ be_value next' = be_value next * 256 + acc / 58) as (H1 & H2 & H3).
  { unfold next'. destruct (Nat.ltb_spec 0 (length next)) as [Hl|Hl]; cbn [orb].
    - split_and!; [apply Forall_app; auto| |by rewrite be_value_app]. destruct next; [cbn in Hl; lia|done].
    - destruct next; [|cbn in Hl; lia]. destruct (Z.ltb_spec 0 (acc / 58)); cbn [app].
      + split_and!; [by constructor| |done]. intros [=]. lia.
      + split_and!; [constructor|done|]. change (be_value []) with 0. lia. }
  intros E. apply IH in E as (E & ?); [|done..]. split; [|done]. rewrite E, H3, be_value_cons. cbn [length].
  rewrite Nat2Z.inj_succ, Z.pow_succ_r by lia. unfold acc in *. nia.
Qed.

Lemma value58_app a d : value58 (a ++ [d]) = value58 a * 58 + d.
Proof. unfold value58. by rewrite foldl_app. Qed.
Lemma string58_app a d s : string58 (a ++ [d]) +:+ s = string58 a +:+ String (base58_char d) s.
Proof.
  unfold string58. rewrite fmap_app. cbn. induction (base58_char <$> a) as [|c l IH]; [done|].
  cbn [app String.string_of_list_ascii]. by rewrite !append_cons, IH.
Qed.

(** The loop writes the digits of the number in base 58. *)
Lemma base58_loop_spec fuel num enc :
  is_bytes num → num ≠ [] → be_value num < 58 ^ Z.of_nat fuel → (0 < fuel)%nat →
  ∃ ds, base58_loop fuel num enc = string58 ds +:+ enc ∧ Forall is_digit58 ds ∧ value58 ds = be_value num ∧
    ds ≠ [] ∧ (be_value num ≠ 0 → trimmed ds) ∧ (be_value num = 0 → ds = [0]).
Proof.
  revert num enc. induction fuel as [|fuel IH]; intros num enc Hb Hne Hlt Hf; [lia|]. cbn [base58_loop].
  destruct num as [|b num0] eqn:En; [done|]. rewrite <- En in *. clear En b num0.
  destruct (divide58 num 0 []) as [q r] eqn:Ed.
  apply divide58_spec in Ed as (E & Hr & Hq & Ht); [|done|lia|constructor|done].
  change (be_value []) with 0 in E. rewrite Z.add_0_r, !Z.mul_0_l, Z.add_0_l in E.
  pose proof (be_value_bounds q Hq) as Hq0.
  destruct q as [|x q0] eqn:Eq.
  - assert (base58_loop fuel [] (String (base58_char r) enc) = String (base58_char r) enc) as -> by (by destruct fuel).
    change (be_value []) with 0 in E. exists [r]. split_and!; [done|by constructor|cbn; lia|done| |intros; f_equal; lia].
    intros Hv [=]. lia.
  - rewrite <- Eq in *. assert (q ≠ []) as Hqne by (by rewrite Eq). clear Eq x q0.
    assert (be_value q ≠ 0) as Hqv by (intros Hz; by apply Hqne, trimmed_zero).
    rewrite Nat2Z.inj_succ, Z.pow_succ_r in Hlt by lia.
    assert (be_value q < 58 ^ Z.of_nat fuel) as Hlt' by lia.
    assert (0 < fuel)%nat as Hf' by (destruct fuel; [cbn in Hlt'; lia|lia]).
    destruct (IH q (String (base58_char r) enc) Hq Hqne Hlt' Hf') as (ds & -> & H1 & H2 & H3 & H4 & _).
    exists (ds ++ [r]). split_and!.
    + by rewrite string58_app.
    + apply Forall_app. split; [done|]. by constructor.
    + rewrite value58_app. lia.
    + by destruct ds.
    + intros _. specialize (H4 Hqv). destruct ds; [done|exact H4].
    + lia.
Qed.

Lemma string58_ones n ds : ones n (string58 ds) = string58 (replicate n 0 ++ ds).
Proof.
  induction n as [|n IH]; [done|]. change (ones (S n) (string58 ds)) with (String "1" (ones n (string58 ds))). by rewrite IH.
Qed.

Lemma leading_zeros_spec data : ∃ rest, data = replicate (leading_zeros data) 0 ++ rest ∧ trimmed rest.
Proof.
  induction data as [|b data (rest & IH & Ht)]; [by exists []|]. cbn [leading_zeros].
  destruct (Z.eqb_spec b 0) as [->|Hb].
  - exists rest. cbn. by rewrite <- IH.
  - exists (b :: data). split; [done|]. by intros [=].
Qed.

Lemma be_value_zeros n rest : be_value (replicate n 0 ++ rest) = be_value rest.
Proof. induction n as [|n IH]; [done|]. cbn [replicate app]. rewrite be_value_cons, IH. lia. Qed.

(** The encoding of some bytes is a 1 for every leading zero byte and then the digits, without leading
    zeros, of the number they write; zeros alone have one 1 more than there are. *)
Theorem base58_encode_spec data :
  is_bytes data → data ≠ [] →
  ∃ ds, base58Encode data = string58 (replicate (leading_zeros data) 0 ++ ds) ∧ Forall is_digit58 ds ∧
    value58 ds = be_value data ∧ (be_value data ≠ 0 → trimmed ds) ∧ (be_value data = 0 → ds = [0]).
Proof.
  intros Hb Hne. unfold base58Encode. destruct data as [|x d] eqn:E; [done|]. rewrite <- E in *.
  assert (be_value data < 58 ^ Z.of_nat (2 * length data)) as Hlt.
  { pose proof (be_value_bounds data Hb) as [_ Hv]. rewrite Nat2Z.inj_mul, Z.pow_mul_r by lia.
    eapply Z.lt_le_trans; [exact Hv|]. apply Z.pow_le_mono_l. lia. }
  destruct (base58_loop_spec (2 * length data) data "" Hb Hne Hlt) as (ds & -> & H1 & H2 & _ & H3 & H4).
  { rewrite E. cbn. lia. }
  exists ds. by rewrite append_nil_r, string58_ones.
Qed.

Lemma base58_char_inj d e : is_digit58 d → is_digit58 e → base58_char d = base58_char e → d = e.
Proof.
  intros Hd He. assert (NoDup base58Alphabet) as Hnd by (by apply (bool_decide_unpack _)).
  unfold base58_char, is_digit58 in *. intros Hc.
  assert (Z.to_nat d = Z.to_nat e); [|lia].
  apply (proj1 (List.NoDup_nth base58Alphabet "1"%char)); [by apply NoDup_ListNoDup|change (length base58Alphabet) with 58%nat; lia..|done].
Qed.

Lemma string58_inj a b : Forall is_digit58 a → Forall is_digit58 b → string58 a = string58 b → a = b.
Proof.
  intros Ha. revert b. induction Ha as [|x a Hx Ha IH]; intros b Hb; destruct Hb as [|y b Hy Hb]; unfold string58; cbn; try done.
  intros [= Hc Hs]. f_equal; [by apply base58_char_inj|by apply IH].
Qed.

Lemma value58_bounds l : Forall is_digit58 l → 0 ≤ value58 l < 58 ^ Z.of_nat (length l).
Proof.
  induction l as [|d l IH] using rev_ind; intros Hl; [cbn; lia|]. apply Forall_app in Hl as [Hl Hd%Forall_inv].
  rewrite value58_app, length_app. specialize (IH Hl). unfold is_digit58 in Hd. cbn.
  rewrite Nat2Z.inj_add, Z.pow_add_r by lia. cbn. lia.
Qed.

Lemma be_value_inj a b : is_bytes a → is_bytes b → length a = length b → be_value a = be_value b → a = b.
Proof.
  intros Ha. revert b. induction Ha as [|x a Hx Ha IH]; intros b Hb Hl Hv; destruct Hb as [|y b Hy Hb]; try done.
  cbn in Hl. rewrite !be_value_cons in Hv. assert (length a = length b) as Hl' by lia. rewrite Hl' in Hv.
  pose proof (be_value_bounds a Ha). pose proof (be_value_bounds b Hb). rewrite Hl' in *.
  set (p := 256 ^ Z.of_nat (length b)) in *. assert (x = y) as -> by nia. f_equal. apply IH; [done..|lia].
Qed.

Lemma trimmed_length b : is_bytes b → trimmed b → b ≠ [] → 256 ^ (Z.of_nat (length b) - 1) ≤ be_value b.
Proof.
  intros Hb Ht Hne. destruct Hb as [|x b Hx Hb]; [done|]. rewrite be_value_cons. cbn [length].
  rewrite Nat2Z.inj_succ. replace (Z.succ (Z.of_nat (length b)) - 1) with (Z.of_nat (length b)) by lia.
  pose proof (be_value_bounds b Hb). assert (x ≠ 0) by (intros ->; by apply Ht). nia.
Qed.

Lemma trimmed_inj a b : is_bytes a → is_bytes b → trimmed a → trimmed b → be_value a = be_value b → a = b.
Proof.
  intros Ha Hb Hta Htb Hv.
  destruct (decide (a = [])) as [->|Hna]; [symmetry; by apply trimmed_zero|].
  destruct (decide (b = [])) as [->|Hnb]; [by apply trimmed_zero|].
  pose proof (trimmed_length a Ha Hta Hna). pose proof (trimmed_length b Hb Htb Hnb).
  pose proof (be_value_bounds a Ha). pose proof (be_value_bounds b Hb).
  apply be_value_inj; [done..| |done].
  assert (Z.of_nat (length a) - 1 < Z.of_nat (length b)) by (apply (Z.pow_lt_mono_r_iff 256); lia).
  assert (Z.of_nat (length b) - 1 < Z.of_nat (length a)) by (apply (Z.pow_lt_mono_r_iff 256); lia). lia.
Qed.

Lemma zeros_trimmed n m a b : trimmed a → trimmed b → replicate n 0 ++ a = replicate m 0 ++ b → n = m ∧ a = b.
Proof.
  intros Ha Hb. revert m. induction n as [|n IH]; intros [|m]; cbn [replicate app].
  - done.
  - intros ->. by destruct Ha.
  - intros <-. by destruct Hb.
  - intros [= E]. destruct (IH m E). by split; [f_equal|].
Qed.

Lemma value58_zeros n ds : value58 (replicate n 0 ++ ds) = value58 ds.
Proof. induction n as [|n IH]; [done|]. exact IH. Qed.

(** Different bytes have different encodings. *)
Theorem base58_encode_inj a b :
  is_bytes a → is_bytes b → base58Encode a = base58Encode b → a = b.
Proof.
  intros Ha Hb.
  assert (∀ d, is_bytes d → d ≠ [] → base58Encode d ≠ "") as Hnil.
  { intros d Hd Hn E. destruct (base58_encode_spec d Hd Hn) as (ds & Es & _ & Hv & _ & Hz). rewrite E in Es.
    destruct (replicate (leading_zeros d) 0 ++ ds) as [|x l] eqn:El; [|done].
    apply app_eq_nil in El as [_ ->]. by specialize (Hz (eq_sym Hv)). }
  destruct (decide (a = [])) as [->|Hna].
  { destruct (decide (b = [])) as [->|Hnb]; [done|]. intros E. by destruct (Hnil b Hb Hnb). }
  destruct (decide (b = [])) as [->|Hnb]; [intros E; by destruct (Hnil a Ha Hna)|].
  destruct (base58_encode_spec a Ha Hna) as (da & -> & Hda & Hva & Hta & Hza).
  destruct (base58_encode_spec b Hb Hnb) as (db & -> & Hdb & Hvb & Htb & Hzb). intros E.
  assert (∀ n ds, Forall is_digit58 ds → Forall is_digit58 (replicate n 0 ++ ds)) as Hd58
    by (intros n ds H; apply Forall_app; split; [by apply Forall_replicate|done]).
  apply string58_inj in E; [|by apply Hd58..].
  assert (be_value a = be_value b) as Hv by (by rewrite <- Hva, <- Hvb, <- (value58_zeros (leading_zeros a)), E, value58_zeros).
  destruct (leading_zeros_spec a) as (ra & Ea & Hra), (leading_zeros_spec b) as (rb & Eb & Hrb).
  assert (is_bytes ra ∧ is_bytes rb) as [Hba Hbb] by (rewrite Ea in Ha; rewrite Eb in Hb; apply Forall_app in Ha, Hb; naive_solver).
  assert (ra = rb) as Hr.
  { apply trimmed_inj; [done..|]. rewrite <- (be_value_zeros (leading_zeros a)), <- Ea, Hv, Eb at 1. apply be_value_zeros. }
  assert (leading_zeros a = leading_zeros b) as Hl.
  { destruct (decide (be_value a = 0)) as [Hz|Hz].
    - rewrite (Hza Hz), (Hzb ltac:(congruence)) in E. apply (f_equal length) in E. rewrite !length_app, !length_replicate in E.
      cbn in E. lia.
    - apply (zeros_trimmed _ _ da db); [auto|apply Htb; congruence|done]. }
  rewrite Ea, Eb, Hr. by f_equal; rewrite Hl.
Qed.

(** ** The identity over its history *)

Section identity_safety.
Context `{Encryptor}.
Context (NewMnemonic : bytes → option string) (IsMnemonicValid : string → bool) (NewSeed : string → bytes)
  (hmac_sha512 : bytes → bytes → bytes) (NewKeyFromSeed : bytes → bytes) (ed25519_sign : bytes → bytes → bytes)
  (Verify : bytes → bytes → bytes → bool).
Hypothesis seal_law : ∀ s c, seal s = Some c → IsEncrypted c = true ∧ unseal c = Some s.
(** A mnemonic that was made is valid, and is words without the marks of sealed texts or spaces around. *)
Hypothesis mnemonic_law : ∀ e m, NewMnemonic e = Some m → IsMnemonicValid m = true ∧ trimSpace m = m.
Hypothesis valid_law : ∀ m, IsMnemonicValid m = true → m ≠ "" ∧ IsEncrypted m = false.
Hypothesis key_law : ∀ s, length (NewKeyFromSeed s) = 64%nat ∧ is_bytes (NewKeyFromSeed s).
Hypothesis sign_law : ∀ s m, let priv := NewKeyFromSeed s in
  Verify (public_of priv) m (ed25519_sign priv m) = true ∧ length (ed25519_sign priv m) = 64%nat ∧
  is_bytes (ed25519_sign priv m).

Abbreviation derive := (deriveKeyFromMnemonic NewSeed hmac_sha512 NewKeyFromSeed).
Abbreviation state := (NodeIdentity * Identity.key_file)%type.

Inductive identity_op :=
  | IGenerate (now : Time) (entropy : option bytes) (word_count : Z)
  | IConfirm
  | IRestore (now : Time) (m : option string)
  | IMigrate | IGitHub (user : string) (id : Z) | IBudget (b : Z) | IRestart.

Definition identity_step (s : state) (o : identity_op) : state :=
  match o with
  | IGenerate now e wc =>
      (handleNetworkIdentityGenerate NewMnemonic NewSeed hmac_sha512 NewKeyFromSeed now e wc s).2
  | IConfirm => (handleNetworkIdentityConfirmBackup s).2
  | IRestore now m =>
      (handleNetworkIdentityRestore IsMnemonicValid NewSeed hmac_sha512 NewKeyFromSeed now m s).2
  | IMigrate => (Migrate s).2
  | IGitHub u i => SetGitHub u i s
  | IBudget b => (SetTokenBudget b s.1, s.2)
  | IRestart => (initNode s.2, s.2)
  end.
Definition identity_run (h : list identity_op) : state := foldl identity_step (initNode NoKeyFile, NoKeyFile) h.

Lemma decrypt_encrypt_field s : IsEncrypted s = false → decryptField (encryptField s) = s.
Proof using seal_law.
  intros Hs. assert (decryptField s = s) as Hp by (unfold decryptField; rewrite Hs; by destruct (_ || _)%bool).
  unfold encryptField. destruct (negb ready || bool_decide (s = "")) eqn:Er; [done|].
  destruct ephemeral; [done|]. destruct (seal s) as [c|] eqn:Es; [|done]. change (default s (Some c)) with c.
  destruct (seal_law s c Es) as [H1 H2]. unfold decryptField. rewrite H1, H2.
  destruct ready; [|done]. by destruct (bool_decide_reflect (c = "")) as [->|].
Qed.

Lemma b64_plain b : is_bytes b → IsEncrypted (b64_encode b) = false.
Proof.
  intros Hb. unfold IsEncrypted, has_prefix. destruct (strip_prefix encPrefix (b64_encode b)) as [r|] eqn:E; [|done].
  apply strip_prefix_Some in E. pose proof (b64_encode_clean ":" b ltac:(auto) Hb) as Hc. rewrite E in Hc. done.
Qed.

Lemma open_sealed_key k : is_bytes k → k ≠ [] → open_key (encryptField (b64_encode k)) = Some k.
Proof using seal_law.
  intros Hk Hne. unfold open_key. rewrite decrypt_encrypt_field by (by apply b64_plain).
  rewrite bool_decide_eq_false_2; [by apply b64_decode_encode|]. by destruct k as [|x [|y [|z k]]].
Qed.

Lemma encrypt_field_nonempty s : s ≠ "" → encryptField s ≠ "".
Proof using seal_law.
  intros Hs. unfold encryptField. destruct (_ || _)%bool; [done|]. destruct ephemeral; [done|].
  destruct (seal s) as [c|] eqn:Es; [|done]. cbn. destruct (seal_law s c Es) as [H1 _]. by intros ->.
Qed.

(** The key pair of the node, where its identity comes from, and what the file keeps of it. *)
Record coherent (m : string) (s : state) : Prop := {
  co_priv : privKey s.1 = None;
  co_enc : encPrivKey s.1 = encryptField (b64_encode (derive m).1);
  co_pub : pubKey s.1 = Some (derive m).2;
  co_id : nodeID s.1 = "mmx-" +:+ hex (derive m).2;
  co_mn : mnemonic s.1 = m ∨ mnemonic s.1 = "" ∧ backupConfirmed s.1 = true;
  co_mig : needsMigration s.1 = false;
  co_has : hasMnemonic s.1 = true;
  co_valid : IsMnemonicValid m = true;
  co_file : ∃ st, s.2 = KeyFile st ∧ s_NodeID st = nodeID s.1 ∧ s_PrivKeyB64 st = encPrivKey s.1 ∧
    s_HasMnemonic st = true ∧ s_BackupConfirmed st = backupConfirmed s.1 ∧
    s_Mnemonic st = if bool_decide (mnemonic s.1 = "") then "" else encryptField (mnemonic s.1) }.

Definition no_identity (s : state) : Prop :=
  nodeID s.1 = "" ∧ privKey s.1 = None ∧ encPrivKey s.1 = "" ∧ pubKey s.1 = None ∧ backupConfirmed s.1 = false ∧
  s.2 = NoKeyFile.

Lemma derive_key m : ∃ seed, (derive m).1 = NewKeyFromSeed seed ∧ (derive m).2 = public_of (derive m).1.
Proof.
  unfold deriveKeyFromMnemonic. destruct (slip0010MasterKey _ _) as [mk mc].
  destruct (slip0010DerivePath _ _ _ _) as [key c]. by eexists.
Qed.

Lemma derive_bytes m : is_bytes (derive m).1 ∧ length (derive m).1 = 64%nat.
Proof using key_law. destruct (derive_key m) as (seed & -> & _). by destruct (key_law seed). Qed.

Lemma enc_nonempty m : encryptField (b64_encode (derive m).1) ≠ "".
Proof using key_law seal_law.
  apply encrypt_field_nonempty. destruct (derive_bytes m) as [_ Hl]. by destruct (derive m).1 as [|x [|y [|z k]]].
Qed.

(** A change of the other fields, saved. *)
Lemma save_coherent m n f :
  privKey n = None → encPrivKey n = encryptField (b64_encode (derive m).1) → pubKey n = Some (derive m).2 →
  nodeID n = "mmx-" +:+ hex (derive m).2 → mnemonic n = m ∨ mnemonic n = "" ∧ backupConfirmed n = true →
  needsMigration n = false → hasMnemonic n = true → IsMnemonicValid m = true → coherent m (save n f).
Proof using key_law seal_law.
  intros H1 H2 H3 H4 H5 H6 H7 H8. pose proof (enc_nonempty m) as Hne. rewrite <- H2 in Hne. unfold save.
  rewrite H1, (bool_decide_eq_false_2 (encPrivKey n = "")) by done. cbn [andb].
  split; cbn [fst snd privKey encPrivKey pubKey nodeID mnemonic needsMigration hasMnemonic backupConfirmed]; try done.
  eexists. split_and!; done.
Qed.

Lemma adopt_coherent now m c n f : IsMnemonicValid m = true →
  coherent m (save (adopt NewSeed hmac_sha512 NewKeyFromSeed now m c n) f).
Proof using key_law seal_law valid_law.
  intros Hv. unfold adopt. destruct (derive m) as [priv pub] eqn:Ed. apply save_coherent; rewrite ?Ed; cbn; auto.
Qed.

Lemma identity_restart m s : coherent m s → coherent m (initNode s.2, s.2).
Proof using key_law seal_law valid_law.
  intros [H1 H2 H3 H4 H5 H6 H7 H8 (st & Hf & F1 & F2 & F3 & F4 & F5)].
  destruct (valid_law m H8) as [Hm1 Hm2]. destruct (derive_bytes m) as [Hb Hl]. destruct (derive_key m) as (seed & _ & Hp).
  assert (open_key (s_PrivKeyB64 st) = Some (derive m).1) as Ho.
  { rewrite F2, H2. apply open_sealed_key; [done|]. by destruct (derive m).1. }
  assert (backupConfirmed s.1 = true ∧ mnemonic s.1 = "" ∨ mnemonic s.1 = m) as H5'
    by (destruct H5 as [E|[E1 E2]]; [by right|by left]).
  rewrite Hf. unfold initNode. rewrite Ho. cbn [fmap option_fmap option_map].
  split; cbn [fst snd privKey encPrivKey pubKey nodeID mnemonic needsMigration hasMnemonic backupConfirmed].
  - done.
  - by rewrite F2.
  - by rewrite Hp.
  - by rewrite F1.
  - rewrite F3, F4, F5. cbn [andb]. destruct H5' as [[-> ->]|E]; [by right|left].
    rewrite E, (bool_decide_eq_false_2 (m = "")) by done.
    rewrite (bool_decide_eq_false_2 (encryptField m = "")) by (by apply encrypt_field_nonempty). cbn [negb]. by apply decrypt_encrypt_field.
  - rewrite F1, H4. done.
  - done.
  - done.
  - exists st. split_and!; try done. rewrite F3, F5. cbn [andb].
    destruct H5' as [[_ E]|E]; rewrite E; [done|]. rewrite (bool_decide_eq_false_2 (m = "")) by done.
    rewrite (bool_decide_eq_false_2 (encryptField m = "")) by (by apply encrypt_field_nonempty). cbn [negb].
    rewrite decrypt_encrypt_field by done. by rewrite bool_decide_eq_false_2.
Qed.

(** After one operation, the identity is the one there was or the one of a new mnemonic. *)
Lemma identity_step_ok s o :
  no_identity s ∨ (∃ m, coherent m s) → no_identity (identity_step s o) ∨ (∃ m, coherent m (identity_step s o)).
Proof using key_law seal_law valid_law mnemonic_law.
  intros Hs. destruct s as [n f].
  assert (∀ s', s' = (n, f) → no_identity s' ∨ (∃ m, coherent m s')) as Hsame by (by intros ? ->).
  destruct o as [now e wc| |now m| |u i|b|]; cbn [identity_step].
  - unfold handleNetworkIdentityGenerate. cbn [fst]. destruct (backupConfirmed n); [by apply Hsame|].
    unfold GenerateWithMnemonic. destruct (_ && _)%bool; [by apply Hsame|]. destruct e as [e|]; [|by apply Hsame].
    destruct (NewMnemonic e) as [m|] eqn:Em; [|by apply Hsame]. right. exists m. apply adopt_coherent.
    by destruct (mnemonic_law e m Em).
  - unfold handleNetworkIdentityConfirmBackup. cbn [fst]. destruct Hs as [Hn|[m Hc]].
    + left. pose proof Hn as (H1 & _). cbn in H1. unfold IsInitialized. by rewrite H1.
    + destruct (negb (IsInitialized n)); [right; by exists m|]. right. exists m. destruct Hc. cbn in *.
      apply save_coherent; cbn; auto.
  - unfold handleNetworkIdentityRestore. destruct m as [m|]; [|by apply Hsame].
    destruct (bool_decide _); [by apply Hsame|]. unfold RestoreFromMnemonic.
    destruct (IsMnemonicValid (trimSpace m)) eqn:Ev; [|by apply Hsame]. right. exists (trimSpace m). by apply adopt_coherent.
  - unfold Migrate. destruct Hs as [Hn|[m Hc]].
    + left. pose proof Hn as (_ & _ & _ & Hp & _). cbn in Hp. by rewrite Hp.
    + right. exists m. destruct Hc. cbn in *. rewrite co_pub0. apply save_coherent; cbn; auto.
  - unfold SetGitHub. destruct Hs as [(H1 & H2 & H3 & H4 & H5 & H6)|[m Hc]].
    + left. cbn in *. unfold save. cbn. rewrite H2, H3. by split_and!.
    + right. exists m. destruct Hc. cbn in *. apply save_coherent; cbn; auto.
  - cbn. destruct Hs as [Hn|[m Hc]]; [by left|right; exists m]. by destruct Hc.
  - destruct Hs as [(H1 & H2 & H3 & H4 & H5 & H6)|[m Hc]].
    + left. cbn in H6 |- *. by rewrite H6.
    + right. exists m. by apply (identity_restart m (n, f)).
Qed.

Lemma identity_run_ok h : no_identity (identity_run h) ∨ ∃ m, coherent m (identity_run h).
Proof using key_law seal_law valid_law mnemonic_law.
  unfold identity_run. induction h as [|o h IH] using rev_ind; [by left|]. rewrite foldl_app. by apply identity_step_ok.
Qed.

Lemma run_signs h msg :
  let n := (identity_run h).1 in
  IsInitialized n = true →
  ∃ pub sig, b64_decode (PubKeyB64 n) = Some pub ∧ length pub = 32%nat ∧ nodeID n = "mmx-" +:+ hex pub ∧
             Sign ed25519_sign msg n = b64_encode sig ∧ is_bytes sig ∧ length sig = 64%nat ∧ Verify pub msg sig = true.
Proof using key_law seal_law valid_law mnemonic_law sign_law.
  intros n Hi. destruct (identity_run_ok h) as [(H1 & _)|[m Hc]].
  { fold n in H1. unfold IsInitialized in Hi. by rewrite H1 in Hi. }
  destruct Hc as [C1 C2 C3 C4 C5 C6 C7 C8 C9]. fold n in C1, C2, C3, C4, C5, C6, C7, C8.
  destruct (derive_bytes m) as [Hb Hl]. destruct (derive_key m) as (seed & Hk & Hp).
  assert (is_bytes (derive m).2 ∧ length (derive m).2 = 32%nat) as [Hpb Hpl].
  { rewrite Hp. unfold public_of. split; [by apply Forall_drop|]. rewrite length_drop. lia. }
  destruct (sign_law seed msg) as (S1 & S2 & S3).
  exists (derive m).2, (ed25519_sign (NewKeyFromSeed seed) msg). split_and!; try done.
  - unfold PubKeyB64. rewrite C3. by apply b64_decode_encode.
  - unfold Sign. rewrite C2, open_sealed_key by (try done; by destruct (derive m).1). by rewrite Hk.
  - by rewrite Hp, Hk.
Qed.

(** C38. After any history of its handlers, restarts included, under one master key and with writes of the
    key file that succeed, a node that has an identity has the name of its public key, and what it signs
    verifies under the key it publishes; so does a value with a field Signature, whatever was in that
    field when it was signed, once its signature is put there. *)
Theorem identity_signs h msg (Marshal : go_value → option bytes) v old data :
  let n := (identity_run h).1 in
  IsInitialized n = true → signable v → canonicalJSON Marshal v = Some data →
  (∃ pub, b64_decode (PubKeyB64 n) = Some pub ∧ length pub = 32%nat ∧ nodeID n = "mmx-" +:+ hex pub) ∧
  VerifySignature Verify (PubKeyB64 n) msg (Sign ed25519_sign msg n) = true ∧
  let sig := SignJSON ed25519_sign Marshal (put_signature old v) n in
  VerifyJSONSig Marshal Verify (PubKeyB64 n) (put_signature sig v) sig = true.
Proof using key_law seal_law valid_law mnemonic_law sign_law.
  intros n Hi Hsv Hj.
  assert (∀ msg, VerifySignature Verify (PubKeyB64 n) msg (Sign ed25519_sign msg n) = true) as Hsig.
  { intros msg'. destruct (run_signs h msg' Hi) as (pub & sig & Hp & Hl & _ & Hs & Hsb & Hsl & Hv). fold n in Hp, Hs.
    unfold VerifySignature. rewrite Hp, Hs, bool_decide_eq_true_2 by done. cbn [negb].
    rewrite b64_decode_encode, bool_decide_eq_true_2 by done. done. }
  destruct (run_signs h msg Hi) as (pub & sig & Hp & Hl & Hn & _).
  split_and!; [by exists pub|apply Hsig|]. intros sg. unfold VerifyJSONSig. rewrite canonical_put, Hj by done. unfold sg, SignJSON.
  rewrite canonical_put, Hj by done. apply Hsig.
Qed.

(** ** The backup locks the identity *)

Definition no_restore (o : identity_op) : Prop := match o with IRestore _ _ => False | _ => True end.

(** Once the backup is confirmed, also across restarts, only restoring a mnemonic changes the node's
    identity, and the confirmation stays. *)
Theorem confirmed_identity_locked h1 h2 :
  backupConfirmed (identity_run h1).1 = true → Forall no_restore h2 →
  nodeID (identity_run (h1 ++ h2)).1 = nodeID (identity_run h1).1 ∧
  pubKey (identity_run (h1 ++ h2)).1 = pubKey (identity_run h1).1 ∧
  backupConfirmed (identity_run (h1 ++ h2)).1 = true.
Proof using key_law seal_law valid_law mnemonic_law.
  intros Hb. induction h2 as [|o h2 IH] using rev_ind; [by rewrite app_nil_r|].
  intros [Hh Ho%Forall_inv]%Forall_app. destruct (IH Hh) as (I1 & I2 & I3). rewrite <- I1, <- I2.
  destruct (identity_run_ok (h1 ++ h2)) as [(_ & _ & _ & _ & Hn & _)|[m Hc]]; [congruence|].
  rewrite app_assoc. unfold identity_run at 1 3 5. rewrite foldl_app. fold (identity_run (h1 ++ h2)).
  pose proof (identity_restart m _ Hc) as Hr. destruct Hc as [C1 C2 C3 C4 C5 C6 C7 C8 (st & Hf & _ & _ & _ & F4 & _)].
  destruct (identity_run (h1 ++ h2)) as [n f]. cbn [foldl fst snd] in *. subst f.
  destruct o as [now e wc| |now m'| |u i|b|]; cbn [identity_step] in *.
  - unfold handleNetworkIdentityGenerate. cbn [fst]. by rewrite I3.
  - unfold handleNetworkIdentityConfirmBackup. cbn [fst]. destruct (negb _); [done|]. cbn. unfold save. cbn.
    by destruct (bool_decide _).
  - done.
  - unfold Migrate. rewrite C3. cbn. rewrite C4. unfold save. cbn. by destruct (bool_decide _).
  - cbn. unfold save. cbn. by destruct (bool_decide _).
  - done.
  - destruct Hr as [_ _ R3 R4 _ _ _ _ (st' & [= <-] & _ & _ & _ & R5 & _)]. cbn in *. split_and!; congruence.
Qed.

(** A mnemonic shown by one node restores its identity on any other. *)
Theorem mnemonic_restores_identity now1 now2 entropy wc s1 s2 m text s1' :
  GenerateWithMnemonic NewMnemonic NewSeed hmac_sha512 NewKeyFromSeed now1 entropy wc s1 = (Ok m, s1') →
  trimSpace text = m →
  ∃ s2', RestoreFromMnemonic IsMnemonicValid NewSeed hmac_sha512 NewKeyFromSeed now2 text s2 = (Ok tt, s2') ∧
    nodeID s2'.1 = nodeID s1'.1 ∧ pubKey s2'.1 = pubKey s1'.1 ∧
    ∀ msg, Sign ed25519_sign msg s2'.1 = Sign ed25519_sign msg s1'.1.
Proof using key_law seal_law valid_law mnemonic_law.
  unfold GenerateWithMnemonic. destruct s1 as [n1 f1]. destruct (_ && _)%bool; [done|]. destruct entropy as [e|]; [|done].
  destruct (NewMnemonic e) as [m0|] eqn:Em; [|done]. intros [= <- <-] Ht. destruct (mnemonic_law e m0 Em) as [Hv _].
  unfold RestoreFromMnemonic. destruct s2 as [n2 f2]. rewrite Ht, Hv. cbn [negb]. eexists. split; [done|].
  pose proof (adopt_coherent now1 m0 false n1 f1 Hv) as []. pose proof (adopt_coherent now2 m0 true n2 f2 Hv) as [].
  split_and!; [congruence..|]. intros msg. unfold Sign. by rewrite co_enc0, co_enc1.
Qed.

(** Confirming the backup drops the mnemonic from the file too: it cannot be shown again. *)
Theorem confirmed_mnemonic_is_gone h :
  IsInitialized (identity_run h).1 = true →
  GetMnemonic (identity_run (h ++ [IConfirm])) = Err "no mnemonic stored for this identity" ∧
  GetMnemonic (identity_run (h ++ [IConfirm; IRestart])) = Err "no mnemonic stored for this identity".
Proof using key_law seal_law valid_law mnemonic_law.
  intros Hi. unfold identity_run. rewrite !foldl_app. fold (identity_run h). cbn [foldl identity_step].
  unfold handleNetworkIdentityConfirmBackup. rewrite Hi. cbn [negb snd].
  destruct (identity_run_ok h) as [(Hn & _)|[m Hc]].
  { unfold IsInitialized in Hi. by rewrite Hn in Hi. }
  destruct (identity_run h) as [n f]. destruct Hc as [C1 C2 C3 C4 C5 C6 C7 C8 _]. cbn [fst snd] in *.
  set (s := ConfirmBackup (n, f)).
  assert (coherent m s ∧ mnemonic s.1 = "") as [Hc Hm].
  { subst s. unfold ConfirmBackup. split; [apply save_coherent; cbn; auto|]. unfold save. cbn. by destruct (bool_decide _). }
  pose proof (identity_restart m s Hc) as Hr.
  assert (∀ s', coherent m s' → mnemonic s'.1 = "" → GetMnemonic s' = Err "no mnemonic stored for this identity") as Hg.
  { intros [n' f'] [_ _ _ _ _ _ G7 _ (st & Gf & _ & _ & _ & _ & G5)] Gm. cbn [fst snd] in *. unfold GetMnemonic.
    rewrite G7, Gm, Gf. cbn [negb bool_decide]. rewrite Gm in G5. rewrite bool_decide_eq_true_2 in G5 by done.
    rewrite G5. by rewrite !bool_decide_eq_true_2. }
  split; [by apply Hg|]. apply Hg; [exact Hr|]. cbn [fst].
  destruct Hr as [_ _ _ _ [E|[E _]] _ _ _ (st & Gf & _ & _ & _ & _ & G5)]; [|exact E]. cbn [fst snd] in *.
  destruct Hc as [_ _ _ _ _ _ _ _ (st2 & Gf2 & _ & _ & _ & _ & G52)]. assert (st2 = st) as -> by congruence.
  rewrite Hm in G52. rewrite bool_decide_eq_true_2 in G52 by done. destruct (valid_law m C8) as [Hne _].
  rewrite E, G52, bool_decide_eq_false_2 in G5 by done. by destruct (encrypt_field_nonempty m Hne).
Qed.
End identity_safety.

(** ** A concrete node *)

Module IdentityDemo.
Definition no_encryptor : Encryptor := {| ready := false; ephemeral := false; seal := λ _, None; unseal := λ _, None |}.
Definition words (e : bytes) : option string := Some "abandon ability".
Definition valid (m : string) : bool := bool_decide (m = "abandon ability").
Definition hmac (k d : bytes) : bytes := replicate 64 7.
Definition key_of (seed : bytes) : bytes := replicate 64 1.
(** A signature is the key and, to fill it up, ones. *)
Definition sign (k m : bytes) : bytes := replicate 64 1.
Definition verify (pub m sig : bytes) : bool := bool_decide (drop 32 sig = pub).
(** The JSON of a message of two strings. *)
Definition json (v : go_value) : option bytes :=
  match v with
  | GStruct [(_, GString a); (_, GString b)] => Some (bytes_of (a +:+ "|" +:+ b))
  | _ => None
  end.
Definition message (data sig : string) : go_value :=
  GPtr (Some (GStruct [("Data", GString data); ("Signature", GString sig)])).
Definition run (h : list identity_op) : NodeIdentity * Identity.key_file :=
  @identity_run no_encryptor words valid bytes_of hmac key_of h.
End IdentityDemo.
Import IdentityDemo.

Lemma demo_bytes n x : 0 ≤ x < 256 → is_bytes (replicate n x).
Proof. intros. by apply Forall_replicate. Qed.

Lemma identity_signs_witness :
  let n := (run [IGenerate 0 (Some []) 12]).1 in
  VerifySignature verify (@PubKeyB64 n) (bytes_of "hello") (@Sign no_encryptor sign (bytes_of "hello") n) = true ∧
  let sig := @SignJSON no_encryptor sign json (message "data" "left over") n in
  VerifyJSONSig json verify (@PubKeyB64 n) (message "data" sig) sig = true.
Proof.
  apply (λ h1 h2 h3 h4 h5, @identity_signs no_encryptor words valid bytes_of hmac key_of sign verify h1 h2 h3 h4 h5
    [IGenerate 0 (Some []) 12] (bytes_of "hello") json (message "data" "") "left over" (bytes_of "data|")).
  - intros s c [=].
  - intros e m [= <-]. by split.
  - intros m ->%bool_decide_eq_true. by split.
  - intros s. split; [reflexivity|by apply demo_bytes].
  - intros s m. split_and!; [reflexivity|reflexivity|by apply demo_bytes].
  - vm_compute. reflexivity.
  - by eexists _, _.
  - reflexivity.
Defined.

(** (A defect.) A restart under another master key: the node still counts as initialised and has its name,
    but it has no key any more and everything it signs is empty. *)
Example lost_master_key :
  let E1 := {| ready := true; ephemeral := false; seal := λ s, Some ("omp:e:" +:+ s);
               unseal := λ c, strip_prefix "omp:e:" c |} in
  let E2 := {| ready := true; ephemeral := false; seal := λ s, Some ("omp:e:" +:+ s); unseal := λ _, None |} in
  let f := (@identity_run E1 words valid bytes_of hmac key_of [IGenerate 0 (Some []) 12]).2 in
  let n := @initNode E2 f in
  (IsInitialized n, bool_decide (nodeID n = ""), pubKey n, @Sign E2 sign (bytes_of "hello") n) = (true, false, None, "").
Proof. vm_compute. reflexivity. Qed.

Lemma confirmed_identity_locked_witness :
  let h := [IGenerate 0 (Some []) 12; IConfirm] in
  nodeID (run (h ++ [IRestart; IGenerate 5 (Some [1]) 24])).1 = nodeID (run h).1.
Proof.
  intros h. apply (@confirmed_identity_locked no_encryptor words valid bytes_of hmac key_of).
  - intros s c [=].
  - intros e m [= <-]. by split.
  - intros m ->%bool_decide_eq_true. by split.
  - intros s. split; [reflexivity|by apply demo_bytes].
  - vm_compute. reflexivity.
  - repeat constructor.
Defined.

Lemma base58_encode_inj_witness : base58Encode [0; 0; 255] = "115Q" ∧ [0; 0; 255] = [0; 0; 255].
Proof.
  split; [vm_compute; reflexivity|]. apply base58_encode_inj; [repeat constructor; lia..|reflexivity].
Defined.

(** A zero byte alone has two ones. *)
Example base58_zero : base58Encode [0] = "11".
Proof. reflexivity. Qed.
