(* ===== verification/NodeWeight.v ===== *)
(** * Weights of nodes and their approval (node_weight.go, handlers.go)

    [nodeWeightManager] keeps a multiplier per node and, in manual mode, the requests to approve one.
    The file node_weights.json is the value it holds, the configuration a map of texts; random bytes are arguments. *)

From S2P Require Import Prelude GoTime Identity.

Record NodeWeightOverride := { o_NodeID : string; Weight : float64; Approved : bool; o_UpdatedAt : string }.

Inductive request_status := Pending | ApprovedStatus | Rejected.
#[export] Instance request_status_eq_dec : EqDecision request_status.
Proof. solve_decision. Defined.

Record ApprovalRequest := {
  a_ID : string; FromNodeID : string; ToNodeID : string; a_Weight : float64; a_Status : request_status;
  a_CreatedAt : string; ResolvedAt : string }.

(** [weights_file] is what node_weights.json decodes to. *)
Record nodeWeightManager := {
  overrides : gmap string NodeWeightOverride; pending : gmap string ApprovalRequest; approvalMode : string;
  ownTokenBudget : Z; weights_file : option (gmap string NodeWeightOverride * gmap string ApprovalRequest) }.

Definition f_one : float64 := float_of_int 1.
Definition f_one_half : float64 := fdiv (float_of_int 3) (float_of_int 2).

Definition load (m : nodeWeightManager) : nodeWeightManager :=
  match weights_file m with
  | None => m
  | Some (o, p) => {| overrides := o; pending := p; approvalMode := approvalMode m; ownTokenBudget := ownTokenBudget m;
                      weights_file := weights_file m |}
  end.

(** [mode] and [budget] are the settings of the configuration, [budget] as [json.Unmarshal] reads it. *)
Definition initNodeWeightManager (mode : string) (budget : option Z)
    (file : option (gmap string NodeWeightOverride * gmap string ApprovalRequest)) : nodeWeightManager :=
  load {| overrides := ∅; pending := ∅; approvalMode := mode; ownTokenBudget := default 0 budget; weights_file := file |}.

Definition save (m : nodeWeightManager) : nodeWeightManager := {|
  overrides := overrides m; pending := pending m; approvalMode := approvalMode m; ownTokenBudget := ownTokenBudget m;
  weights_file := Some (overrides m, pending m) |}.

Section weights.
Context {loc : Location}.
(** The id of this node, [None] when there is no identity module. *)
Context (self : option string).

Definition GetWeightMultiplier (nodeID : string) (m : nodeWeightManager) : float64 :=
  if bool_decide (self = Some nodeID) then f_one_half
  else match overrides m !! nodeID with
  | Some o => if bool_decide (approvalMode m = "auto") || Approved o then Weight o else f_one
  | None => f_one
  end.

Definition generateReqID (rand : list Z) : string := "req-" +:+ base58Encode rand.

Definition SetOverride (now : Time) (rand : list Z) (nodeID : string) (weight : float64) (m : nodeWeightManager)
    : option ApprovalRequest * nodeWeightManager :=
  let isOwn := bool_decide (self = Some nodeID) in
  let o := {| o_NodeID := nodeID; Weight := weight; Approved := isOwn || bool_decide (approvalMode m = "auto");
              o_UpdatedAt := fmt_rfc3339 loc now |} in
  let m := save {| overrides := <[nodeID := o]> (overrides m); pending := pending m; approvalMode := approvalMode m;
                   ownTokenBudget := ownTokenBudget m; weights_file := weights_file m |} in
  if negb isOwn && bool_decide (approvalMode m = "manual")
  then
    let req := {| a_ID := generateReqID rand; FromNodeID := default "" self; ToNodeID := nodeID; a_Weight := weight;
                  a_Status := Pending; a_CreatedAt := fmt_rfc3339 loc now; ResolvedAt := "" |} in
    (Some req, {| overrides := overrides m; pending := <[a_ID req := req]> (pending m); approvalMode := approvalMode m;
                  ownTokenBudget := ownTokenBudget m; weights_file := weights_file m |})
  else (None, m).

Definition resolve (now : Time) (s : request_status) (r : ApprovalRequest) : ApprovalRequest := {|
  a_ID := a_ID r; FromNodeID := FromNodeID r; ToNodeID := ToNodeID r; a_Weight := a_Weight r; a_Status := s;
  a_CreatedAt := a_CreatedAt r; ResolvedAt := fmt_rfc3339 loc now |}.

Definition approve_override (now : Time) (o : NodeWeightOverride) : NodeWeightOverride :=
  {| o_NodeID := o_NodeID o; Weight := Weight o; Approved := true; o_UpdatedAt := fmt_rfc3339 loc now |}.

Definition ResolveApproval (now : Time) (requestID : string) (approve : bool) (m : nodeWeightManager)
    : res unit * nodeWeightManager :=
  match pending m !! requestID with
  | None => (Err "request not found", m)
  | Some req =>
      if negb (bool_decide (a_Status req = Pending)) then (Err "request already resolved", m)
      else
        let os := if approve then alter (approve_override now) (ToNodeID req) (overrides m)
                  else delete (ToNodeID req) (overrides m) in
        let req := resolve now (if approve then ApprovedStatus else Rejected) req in
        (Ok tt, save {| overrides := os; pending := <[requestID := req]> (pending m); approvalMode := approvalMode m;
                        ownTokenBudget := ownTokenBudget m; weights_file := weights_file m |})
  end.

(** The requests in the order the map is walked. *)
Definition GetPendingRequests (walk : list ApprovalRequest) : list ApprovalRequest :=
  filter (λ r, a_Status r = Pending) walk.

Definition SetApprovalMode (mode : string) (m : nodeWeightManager) (cfg : gmap string string)
    : nodeWeightManager * gmap string string :=
  ({| overrides := overrides m; pending := pending m; approvalMode := mode; ownTokenBudget := ownTokenBudget m;
      weights_file := weights_file m |}, <["node_approval_mode" := mode]> cfg).

Definition SetTokenBudget (budget : Z) (m : nodeWeightManager) (cfg : gmap string string) (n : NodeIdentity)
    : nodeWeightManager * gmap string string * NodeIdentity :=
  ({| overrides := overrides m; pending := pending m; approvalMode := approvalMode m; ownTokenBudget := budget;
      weights_file := weights_file m |}, <["node_token_budget" := dec budget]> cfg,
   if IsInitialized n then Identity.SetTokenBudget budget n else n).

(** ** Handlers: the status, what is answered and the state after *)

Definition handleSetNodeWeight (now : Time) (rand : list Z) (body : option (string * float64)) (m : nodeWeightManager)
    : Z * bool * nodeWeightManager :=
  match body with
  | None => (400, false, m)
  | Some (nodeID, weight) =>
      if bool_decide (nodeID = "") then (400, false, m)
      else if fltb weight f_zero then (400, false, m)
      else
        let '(req, m') := SetOverride now rand nodeID weight m in
        let approved := bool_decide (approvalMode m = "auto") || bool_decide (self = Some nodeID) in
        (200, match req with Some _ => false | None => approved end, m')
  end.

Definition handleResolveApproval (now : Time) (body : option (string * bool)) (m : nodeWeightManager) : Z * nodeWeightManager :=
  match body with
  | None => (400, m)
  | Some (id, approve) =>
      if bool_decide (id = "") then (400, m)
      else match ResolveApproval now id approve m with
           | (Ok _, m) => (200, m)
           | (Err _, m) => (400, m)
           end
  end.

Definition handleSetTokenBudget (body : option Z) (m : nodeWeightManager) (cfg : gmap string string) (n : NodeIdentity)
    : Z * (nodeWeightManager * gmap string string * NodeIdentity) :=
  match body with
  | None => (400, (m, cfg, n))
  | Some b => if b <? 0 then (400, (m, cfg, n)) else (200, SetTokenBudget b m cfg n)
  end.

(** ** Approval *)

Inductive weight_op :=
  | WSet (now : Time) (rand : list Z) (body : option (string * float64))
  | WResolve (now : Time) (body : option (string * bool))
  | WRestart.

Definition weight_step (m : nodeWeightManager) (o : weight_op) : nodeWeightManager :=
  match o with
  | WSet now rand body => (handleSetNodeWeight now rand body m).2
  | WResolve now body => (handleResolveApproval now body m).2
  | WRestart => initNodeWeightManager (approvalMode m) (Some (ownTokenBudget m)) (weights_file m)
  end.
Definition weight_run (h : list weight_op) : nodeWeightManager := foldl weight_step (initNodeWeightManager "manual" None None) h.

Definition approved_for (id : string) (p : gmap string ApprovalRequest) : Prop :=
  ∃ k r, p !! k = Some r ∧ ToNodeID r = id ∧ a_Status r = ApprovedStatus.

(** The approvals behind the overrides, in memory and in the file. *)
Definition backed (o : gmap string NodeWeightOverride) (p : gmap string ApprovalRequest) : Prop :=
  ∀ id v, o !! id = Some v → Approved v = true → self = Some id ∨ approved_for id p.
Definition weights_ok (m : nodeWeightManager) : Prop :=
  approvalMode m = "manual" ∧ backed (overrides m) (pending m) ∧
  match weights_file m with Some (o, p) => backed o p | None => True end.

Lemma backed_insert_pending o p k r :
  backed o p → (∀ r0, p !! k = Some r0 → a_Status r0 = ApprovedStatus → ToNodeID r = ToNodeID r0 ∧ a_Status r = ApprovedStatus) →
  backed o (<[k := r]> p).
Proof.
  intros Hb Hk id v Hv Ha. destruct (Hb id v Hv Ha) as [|(k' & r' & H1 & H2 & H3)]; [by left|right].
  destruct (decide (k' = k)) as [->|Hne].
  - destruct (Hk r' H1 H3) as [E1 E2]. exists k, r. rewrite lookup_insert_eq. split_and!; congruence.
  - exists k', r'. by rewrite lookup_insert_ne.
Qed.

Lemma backed_override o p id v :
  backed o p → (Approved v = true → self = Some id ∨ approved_for id p) → backed (<[id := v]> o) p.
Proof.
  intros Hb Hv id' v'. rewrite lookup_insert. case_decide as E; [intros [= <-]; by subst id'|]. apply Hb.
Qed.

Lemma backed_delete o p id : backed o p → backed (delete id o) p.
Proof. intros Hb id' v' [_ H]%lookup_delete_Some. by apply Hb. Qed.

(** New request ids: a draw does not repeat the id of a request there is. *)
Definition fresh_draw (m : nodeWeightManager) (o : weight_op) : Prop :=
  match o with WSet _ rand _ => pending m !! generateReqID rand = None | _ => True end.

Lemma weight_step_ok m o : weights_ok m → fresh_draw m o → weights_ok (weight_step m o).
Proof.
  intros (Hm & Hb & Hf) Hr. destruct o as [now rand body|now body|]; cbn [weight_step].
  - destruct body as [[id w]|]; [|done]. unfold handleSetNodeWeight.
    destruct (bool_decide (id = "")); [done|]. destruct (fltb w f_zero); [done|].
    unfold SetOverride. rewrite Hm. cbn [save overrides pending approvalMode ownTokenBudget weights_file].
    set (o := {| o_NodeID := id; Weight := w; Approved := _; o_UpdatedAt := _ |}).
    assert (backed (<[id := o]> (overrides m)) (pending m)) as Hb'.
    { apply backed_override; [done|]. subst o. cbn [Approved]. rewrite (bool_decide_eq_false_2 ("manual" = "auto")), orb_false_r by done. intros E%bool_decide_eq_true. by left. }
    rewrite (bool_decide_eq_true_2 ("manual" = "manual")), andb_true_r by done.
    destruct (negb _); cbn [snd]; unfold weights_ok; cbn; split_and!; try done.
    apply backed_insert_pending; [done|]. intros r0 Hr0. cbn in Hr. congruence.
  - destruct body as [[id a]|]; [|done]. unfold handleResolveApproval. destruct (bool_decide (id = "")); [done|].
    unfold ResolveApproval. destruct (pending m !! id) as [req|] eqn:Ep; [|done].
    destruct (bool_decide_reflect (a_Status req = Pending)) as [Es|]; [|done]. cbn [negb snd].
    set (req' := resolve now _ req).
    assert (backed (if a then alter (approve_override now) (ToNodeID req) (overrides m) else delete (ToNodeID req) (overrides m))
      (<[id := req']> (pending m))) as Hb'.
    { assert (backed (overrides m) (<[id := req']> (pending m))) as Hb1
        by (apply backed_insert_pending; [done|intros r0 E; simplify_eq; congruence]).
      destruct a; [|by apply backed_delete]. intros id' v'. destruct (decide (id' = ToNodeID req)) as [->|Hne].
      - intros _ _. right. exists id, req'. by rewrite lookup_insert_eq.
      - rewrite lookup_alter_ne by done. apply Hb1. }
    unfold weights_ok. by split_and!.
  - unfold initNodeWeightManager, load. cbn [weights_file]. destruct (weights_file m) as [[o p]|] eqn:E; unfold weights_ok; cbn; rewrite ?E.
    + by split_and!.
    + split_and!; [done| |done]. intros id v Hv. by rewrite lookup_empty in Hv.
Qed.

(** In manual mode the weight of another node is something else than 1 only when a request about that
    node was approved, over any history, restarts included. *)
Theorem weights_need_approval h id :
  (∀ a o b, h = a ++ o :: b → fresh_draw (weight_run a) o) →
  self ≠ Some id → GetWeightMultiplier id (weight_run h) ≠ f_one → approved_for id (pending (weight_run h)).
Proof.
  intros Hf Hself.
  assert (weights_ok (weight_run h)) as (Hm & Hb & _).
  { induction h as [|o h IH] using rev_ind.
    - unfold weights_ok. cbn. split_and!; [done| |done]. intros i v Hv. by rewrite lookup_empty in Hv.
    - unfold weight_run in *. rewrite foldl_app. apply weight_step_ok.
      + apply IH. intros a x b ->. apply (Hf a x (b ++ [o])). by rewrite <- app_assoc.
      + by apply (Hf h o []). }
  unfold GetWeightMultiplier. rewrite bool_decide_eq_false_2 by done.
  destruct (overrides (weight_run h) !! id) as [v|] eqn:Ev; [|done].
  rewrite Hm. destruct (Approved v) eqn:Ea; [|done]. intros _. destruct (Hb id v Ev Ea); [done|done].
Qed.
End weights.

(** ** What an approval covers *)

Definition approve_demo : nodeWeightManager :=
  @weight_run UTC (Some "me")
    [WSet 0 [1] (Some ("n", f_one)); WSet 0 [2] (Some ("n", float_of_int 9)); WResolve 0 (Some ("req-2", true))].

(** Approving the request for a weight of 1 approves the weight of 9 asked for since, whose own request
    stays pending. *)
Example approval_covers_later_weight :
  GetWeightMultiplier (Some "me") "n" approve_demo = float_of_int 9 ∧
  a_Weight <$> pending approve_demo !! "req-2" = Some f_one ∧
  a_Status <$> pending approve_demo !! "req-3" = Some Pending.
Proof. vm_compute. done. Qed.
