(* ===== verification/Update.v ===== *)
(** * Updating the program (update.go)

    [UpdateManager] finds the latest release, downloads, verifies and installs it, and exchanges
    signals and reports with the other nodes. What the network answers, what the file system
    allows, the Ed25519 and JSON signatures and which version a binary is are arguments; the
    texts shown while an update runs (Log) are not modelled. *)

From S2P Require Import Prelude GoTime Bytes Sha256.
From S2P Require TrustPool.

(** ** Versions *)

(** The number [strconv.Atoi] leaves: 0 for what is not one, the nearest end when out of range. *)
Definition clamp64 (z : Z) : Z := Z.max int64_min (Z.min int64_max z).
Definition atoi (s : string) : Z :=
  match s with
  | EmptyString => 0
  | String c r =>
      let digits s := if bool_decide (s = "") then 0 else default 0 (parse_digits 0 s) in
      clamp64 (if Ascii.eqb c "-" then - digits r else if Ascii.eqb c "+" then digits r else digits s)
  end.

Definition trim_v (s : string) : string := let s := trimSpace s in default s (strip_prefix "v" s).

Definition version_numbers (s : string) : list Z := (λ p, atoi (trimSpace p)) <$> split_on "." (trim_v s).

(** Missing parts count as zero. *)
Fixpoint compare_zeros (b : list Z) : Z :=
  match b with [] => 0 | y :: b => if 0 =? y then compare_zeros b else if y <? 0 then 1 else -1 end.
Fixpoint compare_numbers (a b : list Z) : Z :=
  match a, b with
  | [], _ => compare_zeros b
  | x :: a, [] => if x =? 0 then compare_numbers a [] else if 0 <? x then 1 else -1
  | x :: a, y :: b => if x =? y then compare_numbers a b else if y <? x then 1 else -1
  end.

Definition compareVersion (a b : string) : Z := compare_numbers (version_numbers a) (version_numbers b).

Definition MinSupportedUpdateVersion : string := "4.1.7".

(** ** Data *)

Inductive UpdatePhase :=
  | PhaseIdle | PhaseDownloading | PhaseReplacing | PhaseRestarting | PhaseSuccess | PhaseFailed
  | PhaseUnsupported | PhaseNeedsManualRestart | PhaseOther (s : string).
#[export] Instance update_phase_eq_dec : EqDecision UpdatePhase.
Proof. solve_decision. Defined.

Definition isInFlightPhase (p : UpdatePhase) : bool :=
  match p with PhaseDownloading | PhaseReplacing | PhaseRestarting => true | _ => false end.

(** Why an update failed, or the text a report has. *)
Inductive update_error :=
  | NoError | NoExecutable | DownloadFailed | ChecksumUnavailable | ChecksumMismatch | SignatureUnavailable
  | UnreadableDownload | SignatureInvalid | ReplaceFailed | ErrorText (s : string).
#[export] Instance update_error_eq_dec : EqDecision update_error.
Proof. solve_decision. Defined.

Record VersionInfo := {
  CurrentVersion : string; LatestVersion : string; HasUpdate : bool; CheckedAt : string; v_Error : bool }.

Record UpdateStatus := {
  Env : string; us_Name : string; us_NodeID : string; IsLocal : bool; Role : string; TargetVersion : string;
  Phase : UpdatePhase; Progress : Z; Error : update_error; us_UpdatedAt : string }.

Record UpdateSignal := {
  BroadcastBy : string; OriginAddresses : list string; sg_TargetVersion : string; MinSupportedVersion : string;
  sg_Timestamp : string; sg_Signature : string }.

Record UpdateReport := {
  r_NodeID : string; r_Name : string; r_TargetVersion : string; r_Phase : UpdatePhase; r_Progress : Z;
  r_Error : update_error; r_UpdatedAt : string; r_Signature : string }.

(** update_pending.json. *)
Inductive pending_file := NoPending | BadPending | PendingFor (target : string).

(** The manager with what it keeps on disk: the snapshot, the pending file, the program and, on
    Windows, its backup. *)
Record UpdateManager := {
  local : UpdateStatus; peers : gmap string UpdateStatus; cache : option (VersionInfo * Time);
  reportBack : option UpdateSignal; snapshot : option (UpdateStatus * gmap string UpdateStatus);
  pending : pending_file; exe : option bytes; exe_bak : option bytes }.

Definition set_local (s : UpdateStatus) (um : UpdateManager) : UpdateManager := {|
  local := s; peers := peers um; cache := cache um; reportBack := reportBack um; snapshot := snapshot um;
  pending := pending um; exe := exe um; exe_bak := exe_bak um |}.
Definition set_peers (p : gmap string UpdateStatus) (um : UpdateManager) : UpdateManager := {|
  local := local um; peers := p; cache := cache um; reportBack := reportBack um; snapshot := snapshot um;
  pending := pending um; exe := exe um; exe_bak := exe_bak um |}.
Definition set_cache (c : VersionInfo * Time) (um : UpdateManager) : UpdateManager := {|
  local := local um; peers := peers um; cache := Some c; reportBack := reportBack um; snapshot := snapshot um;
  pending := pending um; exe := exe um; exe_bak := exe_bak um |}.
Definition set_reportBack (r : option UpdateSignal) (um : UpdateManager) : UpdateManager := {|
  local := local um; peers := peers um; cache := cache um; reportBack := r; snapshot := snapshot um;
  pending := pending um; exe := exe um; exe_bak := exe_bak um |}.
Definition set_pending (p : pending_file) (um : UpdateManager) : UpdateManager := {|
  local := local um; peers := peers um; cache := cache um; reportBack := reportBack um; snapshot := snapshot um;
  pending := p; exe := exe um; exe_bak := exe_bak um |}.
Definition set_exe (e b : option bytes) (um : UpdateManager) : UpdateManager := {|
  local := local um; peers := peers um; cache := cache um; reportBack := reportBack um; snapshot := snapshot um;
  pending := pending um; exe := e; exe_bak := b |}.

Definition persist (um : UpdateManager) : UpdateManager := {|
  local := local um; peers := peers um; cache := cache um; reportBack := reportBack um;
  snapshot := Some (local um, peers um); pending := pending um; exe := exe um; exe_bak := exe_bak um |}.

Definition with_phase (p : UpdatePhase) (progress : Z) (e : update_error) (target updated : string) (s : UpdateStatus)
    : UpdateStatus := {|
  Env := Env s; us_Name := us_Name s; us_NodeID := us_NodeID s; IsLocal := IsLocal s; Role := Role s;
  TargetVersion := target; Phase := p; Progress := progress; Error := e; us_UpdatedAt := updated |}.

(** ** Start-up *)

Definition clear_in_flight (s : UpdateStatus) : UpdateStatus :=
  if isInFlightPhase (Phase s) then with_phase PhaseIdle 0 (Error s) (TargetVersion s) (us_UpdatedAt s) s else s.

Definition Load (um : UpdateManager) : UpdateManager :=
  match snapshot um with
  | None => um
  | Some (l, ps) =>
      set_peers (clear_in_flight <$> ps)
        (set_local (clear_in_flight (if bool_decide (Env l = "") then local um else l)) um)
  end.

Section manager.
(** The version of the running program. *)
Context (AppVersion : string).

Definition reconcileLocalStaleSuccess (now : Time) (um : UpdateManager) : UpdateManager :=
  let s := local um in
  if bool_decide (Phase s = PhaseSuccess) && negb (compareVersion (TargetVersion s) AppVersion =? 0)
  then persist (set_local (with_phase PhaseSuccess 100 NoError AppVersion (fmt_rfc3339 UTC now) s) um)
  else um.

Definition reconcileLocalStaleFailed (um : UpdateManager) : UpdateManager :=
  let s := local um in
  if bool_decide (Phase s = PhaseFailed) && (compareVersion (TargetVersion s) AppVersion =? 0)
  then persist (set_local (with_phase PhaseIdle 0 NoError (TargetVersion s) (us_UpdatedAt s) s) um)
  else um.

Definition reconcilePending (now : Time) (um : UpdateManager) : UpdateManager :=
  let um :=
    match pending um with
    | NoPending | BadPending => set_local (clear_in_flight (local um)) um
    | PendingFor target =>
        if compareVersion target AppVersion =? 0
        then set_pending NoPending (persist (set_local
               (with_phase PhaseSuccess 100 NoError AppVersion (fmt_rfc3339 UTC now) (local um)) um))
        else set_local (clear_in_flight (local um)) um
    end in
  reconcileLocalStaleFailed (reconcileLocalStaleSuccess now um).

(** [name] is [localEnvName]; the disk is what the last process left. *)
Definition initUpdateManager (now : Time) (name : string) (disk : UpdateManager) : UpdateManager :=
  reconcilePending now (Load {|
    local := {| Env := "local"; us_Name := name; us_NodeID := ""; IsLocal := true; Role := "origin";
                TargetVersion := AppVersion; Phase := PhaseIdle; Progress := 0; Error := NoError;
                us_UpdatedAt := fmt_rfc3339 UTC now |};
    peers := ∅; cache := None; reportBack := None; snapshot := snapshot disk; pending := pending disk;
    exe := exe disk; exe_bak := exe_bak disk |}).

(** ** The latest release *)

(** [answer] is the tag name GitHub gives, [None] for an error. *)
Definition fetchLatestVersion (now : Time) (answer : option string) : VersionInfo :=
  match answer with
  | None => {| CurrentVersion := AppVersion; LatestVersion := ""; HasUpdate := false;
               CheckedAt := fmt_rfc3339 UTC now; v_Error := true |}
  | Some tag =>
      let latest := trimSpace tag in
      {| CurrentVersion := AppVersion; LatestVersion := latest; HasUpdate := 0 <? compareVersion latest AppVersion;
         CheckedAt := fmt_rfc3339 UTC now; v_Error := false |}
  end.

Definition versionCacheTTL : Z := 10 * minute.

Definition GetLatestVersion (now : Time) (answer : option string) (um : UpdateManager) : VersionInfo * UpdateManager :=
  match cache um with
  | Some (info, expire) =>
      if before now expire then (info, um)
      else let info := fetchLatestVersion now answer in (info, set_cache (info, now + versionCacheTTL) um)
  | None => let info := fetchLatestVersion now answer in (info, set_cache (info, now + versionCacheTTL) um)
  end.

(** ** Status changes *)

Definition setLocalPhase (now : Time) (p : UpdatePhase) (progress : Z) (um : UpdateManager) : UpdateManager :=
  persist (set_local (with_phase p progress (Error (local um)) (TargetVersion (local um)) (fmt_rfc3339 UTC now) (local um)) um).
Definition setLocalFailed (now : Time) (e : update_error) (um : UpdateManager) : UpdateManager :=
  persist (set_local (with_phase PhaseFailed 0 e (TargetVersion (local um)) (fmt_rfc3339 UTC now) (local um)) um).
Definition setLocalTarget (now : Time) (target : string) (um : UpdateManager) : UpdateManager :=
  persist (set_local (with_phase (Phase (local um)) (Progress (local um)) (Error (local um)) target
                        (fmt_rfc3339 UTC now) (local um)) um).

Definition new_peer (nodeID : string) : UpdateStatus := {|
  Env := nodeID; us_Name := ""; us_NodeID := nodeID; IsLocal := false; Role := "peer"; TargetVersion := "";
  Phase := PhaseOther ""; Progress := 0; Error := NoError; us_UpdatedAt := "" |}.

Definition upsertPeer (now : Time) (nodeID : string) (f : UpdateStatus → UpdateStatus) (um : UpdateManager) : UpdateManager :=
  let s := f (default (new_peer nodeID) (peers um !! nodeID)) in
  let s := with_phase (Phase s) (Progress s) (Error s) (TargetVersion s) (fmt_rfc3339 UTC now) s in
  persist (set_peers (<[nodeID := s]> (peers um)) um).

(** ** Downloading *)

Definition githubDownloadMirrors : list string :=
  ["https://ghfast.top/"; "https://gh-proxy.com/"; "https://ghproxy.net/"; "https://mirror.ghproxy.com/"].

(** What a download comes to: a request that cannot be built or a file that cannot be created, no
    answer, a status, or a body, cut short or not. *)
Inductive download :=
  | Unbuilt | NoAnswer | Status (code : Z) | NoFile | Body (content : bytes) (complete : bool).

(** What a text comes to: no answer, or a status and, when it is read, the body. *)
Inductive text_answer := NoText | TextStatus (code : Z) (body : option string).

Section network.
(** The answer to the [k]-th request for an address. *)
Context (download_from : string → nat → download) (text_from : string → nat → text_answer).

(** The attempts left; the file and its hash when one succeeds. *)
Fixpoint download_attempts (tries k : nat) (url : string) : option bytes :=
  match tries with
  | O => None
  | S tries =>
      match download_from url k with
      | Unbuilt | NoFile => None
      | NoAnswer => download_attempts tries (S k) url
      | Status code => if 500 <=? code then download_attempts tries (S k) url else None
      | Body content complete =>
          if negb complete then download_attempts tries (S k) url
          else if bool_decide (content = []) then download_attempts tries (S k) url
          else Some content
      end
  end.
Definition downloadFile (url : string) : option bytes := download_attempts 3 1 url.

Fixpoint try_sources (urls : list string) : option bytes :=
  match urls with
  | [] => None
  | u :: urls => match downloadFile u with Some b => Some b | None => try_sources urls end
  end.

Definition download_urls (cn : bool) (directURL : string) : list string :=
  let mirrors := (λ m, m +:+ directURL) <$> githubDownloadMirrors in
  if cn then mirrors ++ [directURL] else directURL :: mirrors.

Definition verificationSources (canonicalURL : string) : list string :=
  canonicalURL :: ((λ m, m +:+ canonicalURL) <$> githubDownloadMirrors).

Inductive text_result := TextOK (s : string) | TextNotFound | TextError.

Definition one_text (a : text_answer) : option text_result :=
  match a with
  | NoText => None
  | TextStatus code body =>
      if code =? 200 then TextOK <$> body
      else if code =? 404 then Some TextNotFound
      else None
  end.

(** A second attempt after an error. *)
Definition httpGetText (url : string) : text_result :=
  match one_text (text_from url 0) with
  | Some r => r
  | None => default TextError (one_text (text_from url 1))
  end.

(** The text, or whether the canonical source says there is none. *)
Fixpoint first_text (first : bool) (urls : list string) : option string * bool :=
  match urls with
  | [] => (None, false)
  | u :: urls =>
      match httpGetText u with
      | TextOK s => (Some s, false)
      | TextNotFound => if first then (None, true) else first_text false urls
      | TextError => first_text false urls
      end
  end.
Definition fetchTextWithFallbacks (canonicalURL : string) : option string * bool :=
  first_text true (verificationSources canonicalURL).

(** The first of [strings.Fields]. *)
Fixpoint first_field (s : string) : string :=
  match s with EmptyString => "" | String c s' => if is_space c then "" else String c (first_field s') end.

Definition fetchChecksum (url : string) : option string :=
  match fetchTextWithFallbacks url with
  | (Some body, false) =>
      let h := first_field (trimSpace body) in
      if (String.length h =? 64)%nat then Some h else None
  | _ => None
  end.

Definition fetchSignature (url : string) : option bytes :=
  match fetchTextWithFallbacks url with
  | (Some body, false) =>
      let sig := default (bytes_of body) (b64_decode (trimSpace body)) in
      if (length sig =? 64)%nat then Some sig else None
  | _ => None
  end.

(** ** Installing *)

(** What the file system allows. *)
Record files := { exe_known : bool; readable : bool; windows : bool; backup_ok : bool; rename_ok : bool }.

Section install.
(** [ed25519.Verify] under the key of the releases. *)
Context (Verify : bytes → bytes → bool).

Definition atomicReplace (fs : files) (b : bytes) (um : UpdateManager) : bool * UpdateManager :=
  if windows fs
  then if negb (backup_ok fs) then (false, set_exe (exe um) None um)
       else let um := set_exe None (exe um) um in
            if rename_ok fs then (true, set_exe (Some b) (exe_bak um) um) else (false, um)
  else if rename_ok fs then (true, set_exe (Some b) (exe_bak um) um) else (false, um).

(** How an update ends: the process exits, with the report it sent, or goes on. *)
Inductive ending := Exited (reported : option (UpdateSignal * UpdatePhase)) | Continues.

Definition release_url (target asset : string) : string :=
  "https://github.com/lisiyu/openmodelpool/releases/download/" +:+ target +:+ "/" +:+ asset.

(** [asset] is [platformAssetName], [cn] whether the region is mainland China. *)
Definition TriggerSelfUpdate (now : Time) (fs : files) (cn : bool) (asset target : string) (um : UpdateManager)
    : ending * UpdateManager :=
  let um := setLocalPhase now PhaseDownloading 5 (setLocalTarget now target um) in
  let fail e um := (Continues, setLocalFailed now e um) in
  if negb (exe_known fs) then fail NoExecutable um
  else
    let directURL := release_url target asset in
    match try_sources (download_urls cn directURL) with
    | None => fail DownloadFailed um
    | Some content =>
        let um := setLocalPhase now PhaseDownloading 70 um in
        match fetchChecksum (directURL +:+ ".sha256") with
        | None => fail ChecksumUnavailable um
        | Some expectedHash =>
            if negb (bool_decide (sha256_hex (str_of content) = expectedHash)) then fail ChecksumMismatch um
            else match fetchSignature (directURL +:+ ".sig") with
            | None => fail SignatureUnavailable um
            | Some sig =>
                if negb (readable fs) then fail UnreadableDownload um
                else if negb (Verify content sig) then fail SignatureInvalid um
                else
                  let '(replaced, um) := atomicReplace fs content (setLocalPhase now PhaseReplacing 80 um) in
                  if negb replaced then fail ReplaceFailed um
                  else
                    let um := set_pending (PendingFor target) (setLocalPhase now PhaseRestarting 95 um) in
                    match reportBack um with
                    | Some rb => (Exited (Some (rb, PhaseSuccess)), set_reportBack None um)
                    | None => (Exited None, um)
                    end
            end
        end
    end.

(** The signal that came in is answered with a report when the update fails. *)
Definition OnSignalReceived (now : Time) (fs : files) (cn : bool) (asset : string) (sig : UpdateSignal) (um : UpdateManager)
    : option (UpdateSignal * UpdatePhase) * (ending * UpdateManager) :=
  let '(e, um) := TriggerSelfUpdate now fs cn asset (sg_TargetVersion sig) (set_reportBack (Some sig) um) in
  match e with
  | Exited r => (r, (e, um))
  | Continues =>
      if bool_decide (Phase (local um) = PhaseFailed) || bool_decide (Phase (local um) = PhaseNeedsManualRestart)
      then (Some (sig, Phase (local um)), (e, set_reportBack None um))
      else (None, (e, um))
  end.
End install.
End network.

(** ** Other nodes *)

Fixpoint dedupe (seen : list string) (l : list string) : list string :=
  match l with
  | [] => []
  | s :: l => if bool_decide (s = "") || bool_decide (s ∈ seen) then dedupe seen l else s :: dedupe (s :: seen) l
  end.
Definition dedupeStrings (l : list string) : list string := dedupe [] l.

Definition shortNodeID (id : string) : string :=
  let n := String.length id in
  if (12 <? n)%nat then String.substring 0 8 id +:+ "…" +:+ String.substring (n - 4) 4 id else id.

Definition peerDisplayName (p : TrustPool.NodeInfo) : string :=
  if negb (bool_decide (TrustPool.GitHubUser p = "")) then TrustPool.GitHubUser p
  else if negb (bool_decide (TrustPool.Endpoint p = "")) then TrustPool.Endpoint p
  else shortNodeID (TrustPool.NodeID p).

Definition peer_status (id name : string) (p : UpdatePhase) (progress : Z) (e : update_error) (target : string)
    (s : UpdateStatus) : UpdateStatus := {|
  Env := id; us_Name := name; us_NodeID := id; IsLocal := false; Role := "peer"; TargetVersion := target;
  Phase := p; Progress := progress; Error := e; us_UpdatedAt := us_UpdatedAt s |}.

(** A peer to which the signal goes. *)
Definition signalled (target : string) (p : TrustPool.NodeInfo) (s : UpdateStatus) : UpdateStatus :=
  let again := bool_decide (Phase s ∈ [PhaseOther ""; PhaseIdle; PhaseSuccess; PhaseFailed]) in
  peer_status (TrustPool.NodeID p) (peerDisplayName p) (if again then PhaseDownloading else Phase s)
    (if again then 0 else Progress s) (Error s) target s.

(** The status an address answered with, [None] for none: a peer without the route is unsupported. *)
Definition markPeerUnsupported (now : Time) (p : TrustPool.NodeInfo) (um : UpdateManager) : UpdateManager :=
  upsertPeer now (TrustPool.NodeID p)
    (λ s, peer_status (TrustPool.NodeID p) (peerDisplayName p) PhaseUnsupported 0 NoError (TargetVersion s) s) um.

Fixpoint sendUpdateSignalToPeer (answer : string → option Z) (addrs : list string) : bool :=
  match addrs with
  | [] => false
  | a :: addrs =>
      match answer a with
      | None => sendUpdateSignalToPeer answer addrs
      | Some code => if code =? 200 then false else if code =? 404 then true else sendUpdateSignalToPeer answer addrs
      end
  end.

Definition BroadcastUpdateSignal (now : Time) (self target : string) (answer : string → option Z)
    (f : TrustPool.FederationManager) (um : UpdateManager) : UpdateManager :=
  let told := filter (λ p, TrustPool.NodeID p ≠ self ∧ TrustPool.peerEndpoints p ≠ []) (TrustPool.GetActiveNodes f) in
  let um := foldl (λ um p, upsertPeer now (TrustPool.NodeID p) (signalled target p) um) um told in
  foldl (λ um p, if sendUpdateSignalToPeer answer (TrustPool.peerEndpoints p) then markPeerUnsupported now p um else um) um told.

Definition OnReportReceived (now : Time) (report : UpdateReport) (um : UpdateManager) : UpdateManager :=
  let name := if bool_decide (r_Name report = "") then shortNodeID (r_NodeID report) else r_Name report in
  upsertPeer now (r_NodeID report)
    (λ s, peer_status (r_NodeID report) name (r_Phase report) (r_Progress report) (r_Error report) (r_TargetVersion report) s) um.

(** ** Handlers *)

Definition validTimestamp (now : Time) (ts : string) : bool :=
  match parse_rfc3339 ts with Some t => Z.abs (now - t) <=? 5 * minute | None => false end.

Inductive signal_answer := Refused (status : Z) | TooOld | Accepted.

Section handlers.
(** [VerifyJSONSig] of a key, a signal or report, and its signature; [header] is X-Node-ID as
    [sanitizeNodeID] leaves it. *)
Context (VerifySignal : string → UpdateSignal → bool) (VerifyReport : string → UpdateReport → bool).

Definition handleFederationUpdateSignal (now : Time) (header : string) (body : option UpdateSignal)
    (f : TrustPool.FederationManager) : signal_answer :=
  match body with
  | None => Refused 400
  | Some sig =>
      let senderID := if bool_decide (header = "") then BroadcastBy sig else header in
      match TrustPool.GetNode senderID f with
      | None => Refused 403
      | Some sender =>
          if negb (validTimestamp now (sg_Timestamp sig)) then Refused 400
          else if negb (VerifySignal (TrustPool.PubKey sender) sig) then Refused 403
          else if compareVersion AppVersion (MinSupportedVersion sig) <? 0 then TooOld
          else Accepted
      end
  end.

Definition handleFederationUpdateReport (now : Time) (header : string) (body : option UpdateReport)
    (f : TrustPool.FederationManager) (um : UpdateManager) : Z * UpdateManager :=
  match body with
  | None => (400, um)
  | Some report =>
      let senderID := if bool_decide (header = "") then r_NodeID report else header in
      match TrustPool.GetNode senderID f with
      | None => (403, um)
      | Some sender =>
          if negb (VerifyReport (TrustPool.PubKey sender) report) then (403, um)
          else (200, OnReportReceived now report um)
      end
  end.

(** The target of an update the administrator starts, [None] when it is refused. *)
Definition handleAdminUpdateStart (now : Time) (answer : option string) (um : UpdateManager) : option string * UpdateManager :=
  let '(info, um) := GetLatestVersion now answer um in
  if bool_decide (LatestVersion info = "") || negb (HasUpdate info) then (None, um) else (Some (LatestVersion info), um).

Definition handleAdminUpdateBroadcast (now : Time) (answer : option string) (body : option string) (um : UpdateManager)
    : option string * UpdateManager :=
  let '(info, um) := GetLatestVersion now answer um in
  match body with
  | None => (None, um)
  | Some t =>
      let target := if negb (bool_decide (t = "")) then t else LatestVersion info in
      if bool_decide (target = "") then (None, um) else (Some target, um)
  end.
End handlers.
End manager.
