(* ===== verification/UpdateSafety.v ===== *)
(** * What updating guarantees (update.go)

    Only a program signed with the release key is ever installed; a failed update changes nothing;
    a restart settles the status. Where the guarantees stop: older releases and foreign reports. *)

From S2P Require Import Prelude GoTime Bytes Sha256 Update.
From S2P Require TrustPool.

(** ** Versions *)

(** Two versions as numbers of the same length, and their lexicographic order. *)
Fixpoint lex (a b : list Z) : Z :=
  match a, b with
  | x :: a, y :: b => if x =? y then lex a b else if y <? x then 1 else -1
  | _, _ => 0
  end.
Definition pad_to (n : nat) (l : list Z) : list Z := l ++ replicate (n - length l) 0.

Lemma compare_zeros_lex b n : (length b ≤ n)%nat → compare_zeros b = lex (replicate n 0) (pad_to n b).
Proof.
  induction b as [|y b IH] in n |- *; intros Hn.
  - unfold pad_to. cbn [app length]. rewrite Nat.sub_0_r. induction n as [|n IH]; [done|]. cbn. apply IH. cbn; lia.
  - destruct n as [|n]; cbn in Hn; [lia|]. unfold pad_to. cbn [length app replicate Nat.sub compare_zeros lex].
    rewrite (IH n) by lia. done.
Qed.

Lemma compare_numbers_lex a b n : (length a ≤ n)%nat → (length b ≤ n)%nat →
  compare_numbers a b = lex (pad_to n a) (pad_to n b).
Proof.
  induction a as [|x a IH] in b, n |- *; intros Ha Hb; cbn [compare_numbers].
  { rewrite (compare_zeros_lex b n) by done. unfold pad_to at 2. cbn [app length]. by rewrite Nat.sub_0_r. }
  destruct n as [|n]; cbn in Ha; [lia|].
  destruct b as [|y b]; unfold pad_to; cbn [length app replicate Nat.sub lex].
  - rewrite (IH [] n) by (cbn; lia). unfold pad_to. cbn [length app]. by rewrite Nat.sub_0_r.
  - rewrite (IH b n) by (cbn in Hb; lia). done.
Qed.

Lemma pad_length n l : (length l ≤ n)%nat → length (pad_to n l) = n.
Proof. intros. unfold pad_to. rewrite length_app, length_replicate. lia. Qed.

Lemma lex_flip a b : length a = length b → lex b a = - lex a b.
Proof.
  revert b. induction a as [|x a IH]; intros [|y b] Hl; try done. cbn. rewrite Z.eqb_sym.
  destruct (Z.eqb_spec x y) as [->|Hn]; [apply IH; cbn in Hl; lia|].
  destruct (Z.ltb_spec x y), (Z.ltb_spec y x); lia.
Qed.

Lemma lex_trans a b c : length a = length b → length b = length c → lex a b ≤ 0 → lex b c ≤ 0 → lex a c ≤ 0.
Proof.
  revert b c. induction a as [|x a IH]; intros [|y b] [|z c] H1 H2; try done. cbn.
  destruct (Z.eqb_spec x y), (Z.eqb_spec y z), (Z.eqb_spec x z), (Z.ltb_spec y x), (Z.ltb_spec z y), (Z.ltb_spec z x);
    try lia; intros; cbn in H1, H2; apply (IH b c); lia.
Qed.

(** The comparison of versions is the lexicographic order of their numbers, the shorter one filled up
    with zeros; it is total and transitive. *)
Theorem compareVersion_order a b c :
  (∀ n, (length (version_numbers a) ≤ n)%nat → (length (version_numbers b) ≤ n)%nat →
     compareVersion a b = lex (pad_to n (version_numbers a)) (pad_to n (version_numbers b))) ∧
  compareVersion b a = - compareVersion a b ∧
  (compareVersion a b ≤ 0 → compareVersion b c ≤ 0 → compareVersion a c ≤ 0).
Proof.
  unfold compareVersion. generalize (version_numbers a), (version_numbers b), (version_numbers c). clear a b c.
  intros a b c. split; [intros n; apply compare_numbers_lex|].
  set (n := Nat.max (length a) (Nat.max (length b) (length c))).
  rewrite !(compare_numbers_lex _ _ n) by (unfold n; lia). split; [apply lex_flip|apply lex_trans];
    rewrite !pad_length; unfold n; lia.
Qed.

(** ** Installing *)

Section install.
Context (AppVersion : string) (download_from : string → nat → download) (text_from : string → nat → text_answer)
  (Verify : bytes → bytes → bool).
Abbreviation Trigger := (TriggerSelfUpdate download_from text_from Verify).

(** A program that passed the checks of an update to [target]. *)
Definition verified (target asset : string) (b : bytes) : Prop :=
  let url := release_url target asset in
  ∃ sig, fetchChecksum text_from (url +:+ ".sha256") = Some (sha256_hex (str_of b)) ∧
    fetchSignature text_from (url +:+ ".sig") = Some sig ∧ Verify b sig = true.

(** C40. Whatever the network answers: when the process exits to be restarted, the program in place is one
    whose checksum is the published one and whose signature is good under the release key, and the target is noted;
    otherwise the update is marked failed with a reason, nothing is noted, and, but on Windows, the program
    is the old one. *)
Theorem installed_is_verified now fs cn asset target um e um' :
  Trigger now fs cn asset target um = (e, um') →
  match e with
  | Exited _ => (∃ b, exe um' = Some b ∧ verified target asset b) ∧ pending um' = PendingFor target ∧
                Phase (local um') = PhaseRestarting
  | Continues => Phase (local um') = PhaseFailed ∧ Error (local um') ≠ NoError ∧ pending um' = pending um ∧
                 (windows fs = false → exe um' = exe um)
  end.
Proof.
  unfold TriggerSelfUpdate. set (um0 := setLocalPhase now PhaseDownloading 5 (setLocalTarget now target um)).
  assert (exe um0 = exe um ∧ pending um0 = pending um) as [He0 Hp0] by done.
  assert (∀ r um1, r ≠ NoError → exe um1 = exe um → pending um1 = pending um →
    (Continues, setLocalFailed now r um1) = (e, um') →
    match e with
    | Exited _ => (∃ b, exe um' = Some b ∧ verified target asset b) ∧ pending um' = PendingFor target ∧
                  Phase (local um') = PhaseRestarting
    | Continues => Phase (local um') = PhaseFailed ∧ Error (local um') ≠ NoError ∧ pending um' = pending um ∧
                   (windows fs = false → exe um' = exe um)
    end) as Hfail by (intros r um1 Hr H1 H2 [= <- <-]; by split_and!).
  destruct (exe_known fs); cbn [negb]; [|by apply Hfail].
  destruct (try_sources _ _) as [b|]; [|by apply Hfail].
  destruct (fetchChecksum _ _) as [h|] eqn:Ec; [|by apply Hfail].
  destruct (bool_decide_reflect (sha256_hex (str_of b) = h)) as [<-|]; [|by apply Hfail]. cbn [negb].
  destruct (fetchSignature _ _) as [sig|] eqn:Es; [|by apply Hfail].
  destruct (readable fs); cbn [negb]; [|by apply Hfail].
  destruct (Verify b sig) eqn:Ev; cbn [negb]; [|by apply Hfail].
  assert (verified target asset b) as Hv by (exists sig; by split_and!).
  set (um1 := setLocalPhase now PhaseReplacing 80 _).
  destruct (atomicReplace fs b um1) as [ok um2] eqn:Er. destruct ok; cbn [negb].
  - assert (exe um2 = Some b) as Hx.
    { revert Er. unfold atomicReplace. destruct (windows fs); [destruct (backup_ok fs); [|done]|]; cbn [negb];
        (destruct (rename_ok fs); [|done]); by intros [= <-]. }
    assert (∀ o, (Exited o, set_reportBack None (set_pending (PendingFor target) (setLocalPhase now PhaseRestarting 95 um2))) = (e, um') ∨
      (Exited o, set_pending (PendingFor target) (setLocalPhase now PhaseRestarting 95 um2)) = (e, um') →
      match e with
      | Exited _ => (∃ b, exe um' = Some b ∧ verified target asset b) ∧ pending um' = PendingFor target ∧
                    Phase (local um') = PhaseRestarting
      | Continues => Phase (local um') = PhaseFailed ∧ Error (local um') ≠ NoError ∧ pending um' = pending um ∧
                     (windows fs = false → exe um' = exe um)
      end) as Hexit by (intros o [[= <- <-]|[= <- <-]]; (split_and!; [by exists b|done|done])).
    destruct (reportBack _) as [rb|]; intros E; eapply Hexit; [by left|by right].
  - assert (pending um2 = pending um ∧ (windows fs = false → exe um2 = exe um)) as [Hp Hx].
    { revert Er. unfold atomicReplace. destruct (windows fs).
      - destruct (backup_ok fs); cbn [negb]; [destruct (rename_ok fs); [done|]|]; by intros [= <-].
      - destruct (rename_ok fs); [done|]. by intros [= <-]. }
    intros [= <- <-]. by split_and!.
Qed.
End install.

(** ** Restarting *)

Section restart.
Context (AppVersion : string).

Lemma clear_idle s : isInFlightPhase (Phase (clear_in_flight s)) = false.
Proof. unfold clear_in_flight. by destruct (isInFlightPhase (Phase s)) eqn:E. Qed.

Lemma reconcile_settles now um :
  isInFlightPhase (Phase (local um)) = false →
  let um' := reconcileLocalStaleFailed AppVersion (reconcileLocalStaleSuccess AppVersion now um) in
  isInFlightPhase (Phase (local um')) = false ∧ peers um' = peers um ∧ pending um' = pending um ∧ exe um' = exe um ∧
  (Phase (local um') = PhaseSuccess → compareVersion (TargetVersion (local um')) AppVersion = 0) ∧
  (Phase (local um') = PhaseFailed → compareVersion (TargetVersion (local um')) AppVersion ≠ 0) ∧
  (Phase (local um) = PhaseSuccess → Phase (local um') = PhaseSuccess ∧
     (compareVersion (TargetVersion (local um)) AppVersion = 0 → TargetVersion (local um') = TargetVersion (local um))).
Proof.
  intros Hi. pose proof (proj1 (proj2 (compareVersion_order AppVersion AppVersion AppVersion))) as Hself.
  assert (compareVersion AppVersion AppVersion = 0) as Hz by lia. clear Hself.
  unfold reconcileLocalStaleSuccess. destruct (bool_decide_reflect (Phase (local um) = PhaseSuccess)) as [Hs|Hs].
  - destruct (Z.eqb_spec (compareVersion (TargetVersion (local um)) AppVersion) 0) as [Hc|Hc]; cbn [andb negb];
      unfold reconcileLocalStaleFailed; cbn [local persist set_local Phase with_phase].
    + rewrite Hs. rewrite bool_decide_eq_false_2 by done. cbn [andb]. rewrite Hs. by split_and!.
    + rewrite bool_decide_eq_false_2 by done. cbn [andb]. by split_and!.
  - cbn [andb]. unfold reconcileLocalStaleFailed. destruct (bool_decide_reflect (Phase (local um) = PhaseFailed)) as [Hf|Hf].
    + destruct (Z.eqb_spec (compareVersion (TargetVersion (local um)) AppVersion) 0) as [Hc|Hc]; cbn [andb].
      * by split_and!.
      * by split_and!.
    + cbn [andb]. by split_and!.
Qed.

(** Whatever the last process left, a start settles the status: no update is in progress, here or at a
    peer; a success is one to the version that runs, a failure one to another; and when the
    noted target is the version that runs, the update has succeeded and the note is gone. *)
Theorem start_settles now name disk :
  let um := initUpdateManager AppVersion now name disk in
  isInFlightPhase (Phase (local um)) = false ∧
  (∀ id p, peers um !! id = Some p → isInFlightPhase (Phase p) = false) ∧
  (Phase (local um) = PhaseSuccess → compareVersion (TargetVersion (local um)) AppVersion = 0) ∧
  (Phase (local um) = PhaseFailed → compareVersion (TargetVersion (local um)) AppVersion ≠ 0) ∧
  exe um = exe disk ∧
  ∀ t, pending disk = PendingFor t → compareVersion t AppVersion = 0 →
    Phase (local um) = PhaseSuccess ∧ TargetVersion (local um) = AppVersion ∧ pending um = NoPending.
Proof.
  unfold initUpdateManager. set (um0 := Load _).
  assert (exe um0 = exe disk ∧ pending um0 = pending disk ∧
    ∀ id p, peers um0 !! id = Some p → isInFlightPhase (Phase p) = false) as (He & Hp & Hpeers).
  { unfold um0, Load. cbn [snapshot]. destruct (snapshot disk) as [[l ps]|]; cbn.
    - split_and!; [done..|]. intros id p. rewrite lookup_fmap. intros (q & _ & ->)%fmap_Some. apply clear_idle.
    - split_and!; [done..|]. intros id p H. by rewrite lookup_empty in H. }
  unfold reconcilePending. set (um1 := match pending um0 with PendingFor _ => _ | _ => _ end).
  assert (isInFlightPhase (Phase (local um1)) = false ∧ peers um1 = peers um0 ∧ exe um1 = exe um0 ∧
    (∀ t, pending um0 = PendingFor t → compareVersion t AppVersion = 0 →
      Phase (local um1) = PhaseSuccess ∧ TargetVersion (local um1) = AppVersion ∧ pending um1 = NoPending)) as (H1 & H2 & H3 & H4).
  { subst um1. destruct (pending um0) as [| |t] eqn:Ep; [split_and!; [apply clear_idle|done..]|split_and!; [apply clear_idle|done..]|].
    destruct (Z.eqb_spec (compareVersion t AppVersion) 0) as [Hz|Hn].
    - split_and!; [done..|]. by intros ? [= <-].
    - split_and!; [apply clear_idle|done..|]. by intros ? [= <-]. }
  pose proof (reconcile_settles now um1 H1) as (R1 & R2 & R3 & R4 & R5 & R6 & R7).
  split_and!; [done| |done|done|congruence|].
  - intros id p. rewrite R2, H2. apply Hpeers.
  - intros t Ht Hz. rewrite <- Hp in Ht. destruct (H4 t Ht Hz) as (S1 & S2 & S3). destruct (R7 S1) as [S4 S5].
    split_and!; [done| |congruence]. rewrite S5; [done|]. rewrite S2.
    pose proof (proj1 (proj2 (compareVersion_order AppVersion AppVersion AppVersion))). lia.
Qed.

(** ** Signals *)

(** A signal makes this node update only when its sender is a node of the trust pool, it is signed with that
    node's key, less than five minutes old, and does not ask for more than this version. *)
Theorem signal_accepted VerifySignal now header body f :
  handleFederationUpdateSignal AppVersion VerifySignal now header body f = Accepted ↔
  ∃ sig sender t, body = Some sig ∧
    TrustPool.GetNode (if bool_decide (header = "") then BroadcastBy sig else header) f = Some sender ∧
    VerifySignal (TrustPool.PubKey sender) sig = true ∧
    parse_rfc3339 (sg_Timestamp sig) = Some t ∧ Z.abs (now - t) ≤ 5 * minute ∧
    0 ≤ compareVersion AppVersion (MinSupportedVersion sig).
Proof.
  unfold handleFederationUpdateSignal, validTimestamp. destruct body as [sig|]; [|split; [done|by intros (? & ? & ? & ? & _)]].
  destruct (TrustPool.GetNode _ f) as [sender|] eqn:En; [|split; [done|intros (? & ? & ? & [= <-] & E & _); congruence]].
  destruct (parse_rfc3339 (sg_Timestamp sig)) as [t|] eqn:Et;
    [|split; [done|intros (? & ? & ? & [= <-] & _ & _ & E & _); congruence]].
  destruct (Z.leb_spec (Z.abs (now - t)) (5 * minute)) as [Ht|Ht]; cbn [negb];
    [|split; [done|intros (? & ? & ? & [= <-] & _ & _ & E & Hle & _); simplify_eq; lia]].
  destruct (VerifySignal (TrustPool.PubKey sender) sig) eqn:Ev; cbn [negb];
    [|split; [done|intros (? & ? & ? & [= <-] & E & E2 & _); simplify_eq; congruence]].
  destruct (Z.ltb_spec (compareVersion AppVersion (MinSupportedVersion sig)) 0) as [Hc|Hc].
  - split; [done|]. intros (? & ? & ? & [= <-] & _ & _ & _ & _ & H). lia.
  - split; [|done]. intros _. exists sig, sender, t. by split_and!.
Qed.
End restart.

(** ** An update that goes through *)

Section demo.
Let target := "v4.6.0".
Let asset := "openmodelpool-linux-amd64".
Let url := release_url target asset.
Let program : bytes := [7].

Definition demo_download (u : string) (k : nat) : download :=
  if (k =? 1)%nat then Status 503 else if bool_decide (u = url) then Body program true else NoAnswer.
Definition demo_text (u : string) (k : nat) : text_answer :=
  if bool_decide (u = url +:+ ".sha256") then TextStatus 200 (Some (sha256_hex (str_of program) +:+ "  program"))
  else if bool_decide (u = url +:+ ".sig") then TextStatus 200 (Some (str_of (replicate 64 33)))
  else TextStatus 404 None.
Definition demo_files : files :=
  {| exe_known := true; readable := true; windows := false; backup_ok := true; rename_ok := true |}.
Definition demo_manager : UpdateManager := {|
  local := clear_in_flight (new_peer "local"); peers := ∅; cache := None; reportBack := None; snapshot := None;
  pending := NoPending; exe := Some [1]; exe_bak := None |}.
Definition demo_trigger := TriggerSelfUpdate demo_download demo_text (λ b _, bool_decide (b = program)) 0 demo_files false asset target demo_manager.

Lemma installed_is_verified_witness :
  Phase (local demo_trigger.2) = PhaseRestarting ∧ ∃ b, exe demo_trigger.2 = Some b ∧
    verified demo_text (λ b _, bool_decide (b = program)) target asset b.
Proof.
  assert (demo_trigger.1 = Exited None) as He by (vm_compute; reflexivity).
  pose proof (installed_is_verified demo_download demo_text (λ b _, bool_decide (b = program)) 0 demo_files false
    asset target demo_manager demo_trigger.1 demo_trigger.2) as H.
  rewrite He in H. destruct H as (H1 & _ & H3); [|by split].
  unfold demo_trigger in *. destruct (TriggerSelfUpdate _ _ _ _ _ _ _ _ _) as [e um']. cbn in *. by rewrite He.
Defined.
End demo.

(** ** Where the guarantees stop *)

(** A signal may name an older release: nothing on the way compares the target with the version that
    runs, so a signed old program replaces a newer one. *)
Example older_release_accepted :
  let sender := {| TrustPool.NodeID := "n"; TrustPool.GitHubUser := ""; TrustPool.GitHubID := 0; TrustPool.Endpoint := "";
    TrustPool.PubKey := ""; TrustPool.SharedModels := []; TrustPool.SharedProviders := []; TrustPool.JoinedAt := "";
    TrustPool.LastSeen := ""; TrustPool.Status := "active"; TrustPool.SeedNode := false; TrustPool.Reputation := 100;
    TrustPool.ni_Version := ""; TrustPool.InviteBy := ""; TrustPool.TokenBudget := 0; TrustPool.TokenUsed := 0;
    TrustPool.Addresses := [] |} in
  let f := {| TrustPool.enabled := true; TrustPool.trustPool := {| TrustPool.Version := 1; TrustPool.UpdatedAt := ""; TrustPool.Registry := "";
                TrustPool.Nodes := []; TrustPool.Tombstones := [] |};
              TrustPool.localPeers := {["n" := sender]}; TrustPool.dht := None |} in
  let sig := {| BroadcastBy := "n"; OriginAddresses := []; sg_TargetVersion := "v4.1.7"; MinSupportedVersion := "4.1.7";
                sg_Timestamp := "2026-01-01T00:00:00Z"; sg_Signature := "" |} in
  handleFederationUpdateSignal "4.6.0" (λ _ _, true) (default 0 (parse_rfc3339 "2026-01-01T00:01:00Z")) "" (Some sig) f = Accepted ∧
  compareVersion (sg_TargetVersion sig) "4.6.0" = -1.
Proof. vm_compute. done. Qed.

(** A report is checked with the key of the node the header names, and recorded for the node the body
    names: one member of the pool writes the status of another. *)
Example foreign_report_recorded :
  let sender := {| TrustPool.NodeID := "n"; TrustPool.GitHubUser := ""; TrustPool.GitHubID := 0; TrustPool.Endpoint := "";
    TrustPool.PubKey := ""; TrustPool.SharedModels := []; TrustPool.SharedProviders := []; TrustPool.JoinedAt := "";
    TrustPool.LastSeen := ""; TrustPool.Status := "active"; TrustPool.SeedNode := false; TrustPool.Reputation := 100;
    TrustPool.ni_Version := ""; TrustPool.InviteBy := ""; TrustPool.TokenBudget := 0; TrustPool.TokenUsed := 0;
    TrustPool.Addresses := [] |} in
  let f := {| TrustPool.enabled := true; TrustPool.trustPool := {| TrustPool.Version := 1; TrustPool.UpdatedAt := ""; TrustPool.Registry := "";
                TrustPool.Nodes := []; TrustPool.Tombstones := [] |};
              TrustPool.localPeers := {["n" := sender]}; TrustPool.dht := None |} in
  let report := {| r_NodeID := "m"; r_Name := ""; r_TargetVersion := "v9"; r_Phase := PhaseSuccess; r_Progress := 100;
                   r_Error := NoError; r_UpdatedAt := ""; r_Signature := "" |} in
  let '(code, um) := handleFederationUpdateReport (λ _ _, true) 0 "n" (Some report) f demo_manager in
  code = 200 ∧ TrustPool.GetNode "m" f = None ∧ Phase <$> peers um !! "m" = Some PhaseSuccess.
Proof. vm_compute. done. Qed.

(** A pre-release is taken for the release numbered zero in its place. *)
Example prerelease_reads_as_zero : compareVersion "4.5.51-rc1" "4.5.0" = 0 ∧ compareVersion "4.5.51-rc1" "4.5.50" = -1.
Proof. done. Qed.
