(* ===== verification/DhtWire.v ===== *)
(** * The DHT on the wire (dht_wire_auth.go, dht_udp.go, dht_networking.go)

    [DHTNode] answers requests and runs lookups over the routing table of [Dht]; the UDP
    transport signs what it sends and drops what it cannot attribute. A datagram is a decoded
    message; signing and verifying are of the message with its signature blanked, which is what
    is encoded. What a remote node answers is a function of the address and the message. *)

From S2P Require Import Prelude GoTime Bytes Sha256 Dht.

Definition dhtMaxStoreValue : nat := 16384.
Definition dhtMaxKeyLen : nat := 256.
Definition dhtMaxDatagram : nat := 32768.
Definition dhtRefresh : Z := 10 * minute.

Inductive DHTMsgType :=
  | DHTMsgPing | DHTMsgPong | DHTMsgFindNode | DHTMsgFindNodeResp | DHTMsgFindValue
  | DHTMsgFindValueResp | DHTMsgStore | DHTMsgStoreAck | DHTMsgOther (s : string).

#[export] Instance msg_type_eq_dec : EqDecision DHTMsgType.
Proof. solve_decision. Defined.

Record DHTMessage := {
  m_ID : string; From : DHTNodeID; FromAddr : string; Type_ : DHTMsgType; Target : DHTNodeID;
  m_Key : string; m_Value : string; Entries : list DHTEntry; Found : bool;
  KeyID : string; PubKey : string; Sig : string }.

Definition zero_id : DHTNodeID := replicate 32 0.

Definition with_id (m : DHTMessage) (id : string) : DHTMessage := {|
  m_ID := id; From := From m; FromAddr := FromAddr m; Type_ := Type_ m; Target := Target m;
  m_Key := m_Key m; m_Value := m_Value m; Entries := Entries m; Found := Found m;
  KeyID := KeyID m; PubKey := PubKey m; Sig := Sig m |}.
Definition with_sig (m : DHTMessage) (keyID pubKey sig : string) : DHTMessage := {|
  m_ID := m_ID m; From := From m; FromAddr := FromAddr m; Type_ := Type_ m; Target := Target m;
  m_Key := m_Key m; m_Value := m_Value m; Entries := Entries m; Found := Found m;
  KeyID := keyID; PubKey := pubKey; Sig := sig |}.
Definition with_entries (m : DHTMessage) (l : list DHTEntry) : DHTMessage := {|
  m_ID := m_ID m; From := From m; FromAddr := FromAddr m; Type_ := Type_ m; Target := Target m;
  m_Key := m_Key m; m_Value := m_Value m; Entries := l; Found := Found m;
  KeyID := KeyID m; PubKey := PubKey m; Sig := Sig m |}.
Definition with_value (m : DHTMessage) (v : string) : DHTMessage := {|
  m_ID := m_ID m; From := From m; FromAddr := FromAddr m; Type_ := Type_ m; Target := Target m;
  m_Key := m_Key m; m_Value := v; Entries := Entries m; Found := true;
  KeyID := KeyID m; PubKey := PubKey m; Sig := Sig m |}.

(** ** Authentication (dht_wire_auth.go) *)

Definition canonicalDHTPayload (m : DHTMessage) : DHTMessage := with_sig m (KeyID m) (PubKey m) "".

Section auth.
(** [ed25519.Verify] of a key of 32 bytes and a signature of 64. *)
Context (Verify : bytes → DHTMessage → bytes → bool).

(** [identity] and [sign] answer [None] when there is no identity or key. *)
Definition signMessage (identity : option (string * string)) (sign : DHTMessage → option string)
    (m : DHTMessage) : option DHTMessage :=
  match identity with
  | None => None
  | Some (keyID, pubKey) =>
      if bool_decide (keyID = "") || bool_decide (pubKey = "") then None
      else
        let m := with_sig m keyID pubKey (Sig m) in
        match sign (canonicalDHTPayload m) with
        | None => None
        | Some sig => if bool_decide (sig = "") then None else Some (with_sig m keyID pubKey sig)
        end
  end.

Definition decodeKey (s : string) : option bytes :=
  match b64_decode s with
  | Some raw => if bool_decide (length raw = 32%nat) then Some raw else None
  | None => None
  end.

(** A signature good under a key as it is written. *)
Definition signed_by (key : string) (m : DHTMessage) (sig : bytes) : bool :=
  match decodeKey key with Some pub => Verify pub (canonicalDHTPayload m) sig | None => false end.

(** The keys pinned at first contact. *)
Abbreviation pins := (gmap string string).

Definition verifyMessage (trustLookup : string → option string) (solicited : bool) (m : DHTMessage)
    (ps : pins) : bool * pins :=
  if bool_decide (Sig m = "") || bool_decide (KeyID m = "") then (false, ps)
  else if negb (bool_decide (sum256 (KeyID m) = From m)) then (false, ps)
  else match b64_decode (Sig m) with
  | None => (false, ps)
  | Some sig =>
      if negb (bool_decide (length sig = 64%nat)) then (false, ps)
      else
        match trustLookup (KeyID m) with
        | Some key =>
            if bool_decide (key = "") then
              match ps !! KeyID m with
              | Some pinned => (signed_by pinned m sig, ps)
              | None =>
                  if negb solicited then (false, ps)
                  else if negb (signed_by (PubKey m) m sig) then (false, ps)
                  else (true, <[KeyID m := PubKey m]> ps)
              end
            else (signed_by key m sig, ps)
        | None =>
            match ps !! KeyID m with
            | Some pinned => (signed_by pinned m sig, ps)
            | None =>
                if negb solicited then (false, ps)
                else if negb (signed_by (PubKey m) m sig) then (false, ps)
                else (true, <[KeyID m := PubKey m]> ps)
            end
        end
  end.
End auth.

(** ** The node (dht_networking.go) *)

Record DHTNode := {
  d_id : DHTNodeID; d_addr : string; d_dht : DHT; addrBook : gmap DHTNodeID string }.

Definition NewDHTNode (selfID addr : string) : DHTNode :=
  let d := NewDHT selfID in {| d_id := self d; d_addr := addr; d_dht := d; addrBook := ∅ |}.

Definition set_dht (n : DHTNode) (d : DHT) : DHTNode :=
  {| d_id := d_id n; d_addr := d_addr n; d_dht := d; addrBook := addrBook n |}.
Definition set_book (n : DHTNode) (b : gmap DHTNodeID string) : DHTNode :=
  {| d_id := d_id n; d_addr := d_addr n; d_dht := d_dht n; addrBook := b |}.

Definition TableSize (n : DHTNode) : Z := TotalNodes (d_dht n).

Definition learn (now : Time) (n : DHTNode) (e : DHTEntry) : DHTNode :=
  if bool_decide (NodeID e = d_id n) then n
  else
    let n := match Addresses e with
             | a :: _ => set_book n (<[NodeID e := a]> (addrBook n))
             | [] => n
             end in
    set_dht n (AddNode now e (d_dht n)).

Definition addrOf (n : DHTNode) (id : DHTNodeID) : option string := addrBook n !! id.

Definition selfEntry (n : DHTNode) : DHTEntry :=
  {| NodeID := d_id n; Addresses := [d_addr n]; LastSeen := time_zero |}.

Definition respType (t : DHTMsgType) : DHTMsgType :=
  match t with
  | DHTMsgPing => DHTMsgPong
  | DHTMsgFindNode => DHTMsgFindNodeResp
  | DHTMsgFindValue => DHTMsgFindValueResp
  | DHTMsgStore => DHTMsgStoreAck
  | t => t
  end.

Definition plain_message (n : DHTNode) (id : string) (t : DHTMsgType) (target : DHTNodeID) (key value : string)
    : DHTMessage := {|
  m_ID := id; From := d_id n; FromAddr := d_addr n; Type_ := t; Target := target; m_Key := key;
  m_Value := value; Entries := []; Found := false; KeyID := ""; PubKey := ""; Sig := "" |}.

Definition handle (now : Time) (n : DHTNode) (m : DHTMessage) : DHTMessage * DHTNode :=
  let n := if negb (bool_decide (From m = d_id n)) && negb (bool_decide (FromAddr m = ""))
           then learn now n {| NodeID := From m; Addresses := [FromAddr m]; LastSeen := time_zero |} else n in
  let resp := plain_message n (m_ID m) (respType (Type_ m)) zero_id "" "" in
  match Type_ m with
  | DHTMsgFindNode => (with_entries resp (selfEntry n :: FindClosest (Target m) dhtK (d_dht n)), n)
  | DHTMsgFindValue =>
      match Get now (m_Key m) (d_dht n) with
      | Some rec => (with_value resp (Value rec), n)
      | None => (with_entries resp (selfEntry n :: FindClosest (Target m) dhtK (d_dht n)), n)
      end
  | DHTMsgStore =>
      if (dhtMaxKeyLen <? String.length (m_Key m))%nat || (dhtMaxStoreValue <? String.length (m_Value m))%nat
      then (resp, n)
      else (resp, set_dht n (Put now (m_Key m) (m_Value m) (From m) (d_dht n)))
  | _ => (resp, n)
  end.

(** ** Lookups

    [send] is [DHTTransport.Send]: the answer to a message at an address, [None] for an error. *)

Section lookups.
Context (send : string → DHTMessage → option DHTMessage).

Definition nextUnqueried (target : DHTNodeID) (queried : gset DHTNodeID) (n : DHTNode) : option DHTEntry :=
  find (λ e, negb (bool_decide (NodeID e = d_id n)) && negb (bool_decide (NodeID e ∈ queried))
             && bool_decide (is_Some (addrOf n (NodeID e))))
    (FindClosest target dhtK (d_dht n)).

Definition learn_all (now : Time) (l : list DHTEntry) (n : DHTNode) : DHTNode := foldl (learn now) n l.

(** The loop, with the rounds left; the result has the ids queried, the last one first. *)
Fixpoint find_node_rounds (now : Time) (target : DHTNodeID) (rounds : nat) (asked : list DHTNodeID) (n : DHTNode)
    : list DHTNodeID * DHTNode :=
  match rounds with
  | O => (asked, n)
  | S rounds =>
      match nextUnqueried target (list_to_set asked) n with
      | None => (asked, n)
      | Some next =>
          let asked := NodeID next :: asked in
          let addr := default "" (addrOf n (NodeID next)) in
          match send addr (plain_message n "" DHTMsgFindNode target "" "") with
          | None => find_node_rounds now target rounds asked n
          | Some resp => find_node_rounds now target rounds asked (learn_all now (Entries resp) n)
          end
      end
  end.

Definition IterativeFindNode (now : Time) (target : DHTNodeID) (n : DHTNode) : list DHTNodeID * DHTNode :=
  find_node_rounds now target dhtBuckets [] n.

Fixpoint find_value_rounds (now : Time) (target : DHTNodeID) (key : string) (rounds : nat) (asked : list DHTNodeID)
    (n : DHTNode) : option string * DHTNode :=
  match rounds with
  | O => (None, n)
  | S rounds =>
      match nextUnqueried target (list_to_set asked) n with
      | None => (None, n)
      | Some next =>
          let asked := NodeID next :: asked in
          let addr := default "" (addrOf n (NodeID next)) in
          match send addr (plain_message n "" DHTMsgFindValue target key "") with
          | None => find_value_rounds now target key rounds asked n
          | Some resp =>
              if Found resp then (Some (m_Value resp), n)
              else find_value_rounds now target key rounds asked (learn_all now (Entries resp) n)
          end
      end
  end.

Definition IterativeFindValue (now : Time) (key : string) (n : DHTNode) : option string * DHTNode :=
  find_value_rounds now (sum256 key) key dhtBuckets [] n.

Definition Bootstrap (now : Time) (seedAddr : string) (n : DHTNode) : res unit * DHTNode :=
  match send seedAddr (plain_message n "" DHTMsgFindNode (d_id n) "" "") with
  | None => (Err "bootstrap", n)
  | Some resp =>
      let n := learn_all now (Entries resp) n in
      (Ok tt, (IterativeFindNode now (d_id n) n).2)
  end.

(** How many of the nodes closest to the key acknowledged the record. *)
Definition stored_at (key value : string) (n : DHTNode) (e : DHTEntry) : bool :=
  if bool_decide (NodeID e = d_id n) then false
  else match addrOf n (NodeID e) with
  | None => false
  | Some addr =>
      match send addr (plain_message n "" DHTMsgStore (sum256 key) key value) with
      | Some resp => bool_decide (Type_ resp = DHTMsgStoreAck)
      | None => false
      end
  end.
Definition Store (now : Time) (key value : string) (n : DHTNode) : res unit * DHTNode :=
  let n := (IterativeFindNode now (sum256 key) n).2 in
  let stored := length (filter (λ e, stored_at key value n e = true) (FindClosest (sum256 key) dhtK (d_dht n))) in
  if (stored =? 0)%nat then (Err "store failed: no reachable nodes", n) else (Ok tt, n).

(** One stale entry: pinged, and dropped when it does not answer. *)
Definition refresh_entry (now : Time) (s : Z * Z * DHTNode) (e : DHTEntry) : Z * Z * DHTNode :=
  let '(pinged, evicted, n) := s in
  match Addresses e with
  | [] => s
  | a :: _ =>
      if bool_decide (NodeID e = d_id n) then s
      else match send a (plain_message n "" DHTMsgPing zero_id "" "") with
      | None => (pinged + 1, evicted + 1,
                 set_book (set_dht n (RemoveNode (NodeID e) (d_dht n)).2) (delete (NodeID e) (addrBook n)))
      | Some _ => (pinged + 1, evicted, set_dht n (AddNode now e (d_dht n)))
      end
  end.
Definition RefreshBuckets (now : Time) (n : DHTNode) : Z * Z * DHTNode :=
  foldl (refresh_entry now) (0, 0, n) (StaleEntries now dhtRefresh (d_dht n)).
End lookups.

(** The transport of the tests: the nodes by address. *)
Definition in_memory_send (now : Time) (nodes : gmap string DHTNode) (addr : string) (m : DHTMessage)
    : option (DHTMessage * gmap string DHTNode) :=
  match nodes !! addr with
  | None => None
  | Some n => let '(resp, n) := handle now n m in Some (resp, <[addr := n]> nodes)
  end.

(** ** The UDP transport (dht_udp.go) *)

Record UDPDHTTransport := { u_node : DHTNode; u_pending : gset string; u_pins : gmap string string }.

Inductive received :=
  | Dropped                               (* too long, unreadable or not authenticated *)
  | Delivered (m : DHTMessage)            (* to the request that waits for it *)
  | Answered (m : DHTMessage)             (* signed and sent back *)
  | Unanswered.                           (* handled, but there is no key to sign the answer *)

Section transport.
Context (Verify : bytes → DHTMessage → bytes → bool).
Context (trustLookup : string → option string) (identity : option (string * string))
  (sign : DHTMessage → option string).

(** One datagram of [n] bytes; [m] is the message it decodes to. *)
Definition read_datagram (now : Time) (n : nat) (m : option DHTMessage) (t : UDPDHTTransport)
    : received * UDPDHTTransport :=
  if (dhtMaxDatagram <? n)%nat then (Dropped, t)
  else match m with
  | None => (Dropped, t)
  | Some m =>
      let solicited := bool_decide (m_ID m ∈ u_pending t) in
      let '(ok, ps) := verifyMessage Verify trustLookup solicited m (u_pins t) in
      let t := {| u_node := u_node t; u_pending := u_pending t; u_pins := ps |} in
      if negb ok then (Dropped, t)
      else if solicited
      then (Delivered m, {| u_node := u_node t; u_pending := u_pending t ∖ {[m_ID m]}; u_pins := ps |})
      else
        let '(resp, node) := handle now (u_node t) m in
        let t := {| u_node := node; u_pending := u_pending t; u_pins := ps |} in
        match signMessage identity sign resp with
        | Some out => (Answered out, t)
        | None => (Unanswered, t)
        end
  end.

(** The start of [Send]: the message sent, waited for under its id; [rand] is what the entropy
    source gives, [None] when it fails. *)
Definition start_send (rand : option (list Z)) (m : DHTMessage) (t : UDPDHTTransport)
    : option DHTMessage * UDPDHTTransport :=
  let id := if bool_decide (m_ID m = "")
            then match rand with
                 | Some b => Some (String.substring 0 16 (hex (d_id (u_node t))) +:+ "-" +:+ hex b)
                 | None => None
                 end
            else Some (m_ID m) in
  match id with
  | None => (None, t)
  | Some id =>
      match signMessage identity sign (with_id m id) with
      | None => (None, t)
      | Some m => (Some m, {| u_node := u_node t; u_pending := u_pending t ∪ {[m_ID m]}; u_pins := u_pins t |})
      end
  end.

(** The end of [Send], answered or not. *)
Definition end_send (id : string) (t : UDPDHTTransport) : UDPDHTTransport :=
  {| u_node := u_node t; u_pending := u_pending t ∖ {[id]}; u_pins := u_pins t |}.
End transport.
