(* ===== verification/DhtWireSafety.v ===== *)
(** * What the DHT on the wire guarantees (dht_wire_auth.go, dht_udp.go, dht_networking.go)

    Only signed messages are heard, under one key per node; lookups end, ask each node once, and
    ask the nearest; a refresh leaves the live entries. *)

From S2P Require Import Prelude GoTime Bytes Sha256 Dht DhtWire.

Section wire.
Context (Verify : bytes → DHTMessage → bytes → bool).
Abbreviation signed_by := (signed_by Verify).
Abbreviation verifyMessage := (verifyMessage Verify).
Implicit Types (ps : gmap string string) (m : DHTMessage).

(** ** What is accepted *)

(** The key the trust pool has for a node. *)
Definition pool_key (lookup : string → option string) (k : string) : option string :=
  match lookup k with Some key => if bool_decide (key = "") then None else Some key | None => None end.

(** The key a message is to be signed with, the pins being [ps]. *)
Definition expected_key (lookup : string → option string) (ps : gmap string string) m : option string :=
  match pool_key lookup (KeyID m) with Some key => Some key | None => ps !! KeyID m end.

Definition authentic (key : string) m : Prop :=
  From m = sum256 (KeyID m) ∧
  ∃ sig, b64_decode (Sig m) = Some sig ∧ length sig = 64%nat ∧ signed_by key m sig = true.

Lemma dht_verify_accepts lookup solicited m ps ps' :
  verifyMessage lookup solicited m ps = (true, ps') →
  match expected_key lookup ps m with
  | Some key => authentic key m ∧ ps' = ps
  | None => solicited = true ∧ authentic (PubKey m) m ∧ ps' = <[KeyID m := PubKey m]> ps
  end.
Proof.
  unfold DhtWire.verifyMessage. destruct (_ || _)%bool; [done|].
  destruct (bool_decide_reflect (sum256 (KeyID m) = From m)) as [Hf|]; [|done]. cbn [negb].
  destruct (b64_decode (Sig m)) as [sig|] eqn:Es; [|done].
  destruct (bool_decide_reflect (length sig = 64%nat)) as [Hl|]; [|done]. cbn [negb].
  assert (∀ key, signed_by key m sig = true → authentic key m) as Ha by (intros key Hk; split; [done|by exists sig]).
  set (rest := match ps !! KeyID m with Some _ => _ | None => _ end).
  assert (rest = (true, ps') → match ps !! KeyID m with
    | Some key => authentic key m ∧ ps' = ps
    | None => solicited = true ∧ authentic (PubKey m) m ∧ ps' = <[KeyID m := PubKey m]> ps end) as Hr.
  { subst rest. destruct (ps !! KeyID m) as [pinned|].
    - intros [= H1 <-]. by split; [apply Ha|].
    - destruct solicited; [|done]. cbn [negb]. destruct (signed_by (PubKey m) m sig) eqn:Eg; [|done]. cbn [negb].
      intros [= <-]. by split_and!; [|apply Ha|]. }
  unfold expected_key, pool_key. destruct (lookup (KeyID m)) as [key|]; [|exact Hr].
  destruct (bool_decide (key = "")); [exact Hr|]. intros [= H1 <-]. by split; [apply Ha|].
Qed.

Lemma verify_refuses lookup solicited m ps ps' : verifyMessage lookup solicited m ps = (false, ps') → ps' = ps.
Proof.
  unfold DhtWire.verifyMessage. repeat case_match; intros E; simplify_eq; done.
Qed.

(** A pin is never replaced. *)
Lemma pins_stay lookup solicited m ps k p :
  ps !! k = Some p → (verifyMessage lookup solicited m ps).2 !! k = Some p.
Proof.
  intros Hp. destruct (verifyMessage lookup solicited m ps) as [[] ps'] eqn:E; cbn.
  - apply dht_verify_accepts in E. unfold expected_key in E.
    destruct (pool_key lookup (KeyID m)); [by destruct E as [_ ->]|].
    destruct (ps !! KeyID m) as [q|] eqn:Eq; [by destruct E as [_ ->]|]. destruct E as (_ & _ & ->).
    rewrite lookup_insert_ne; [done|]. intros <-. congruence.
  - by rewrite (verify_refuses _ _ _ _ _ E).
Qed.

(** ** Histories of datagrams *)

(** What arrives: with the trust pool as it is then, and the requests waiting for an answer. *)
Record arrival := { ar_lookup : string → option string; ar_solicited : bool; ar_msg : DHTMessage }.

Definition hear (s : list arrival * gmap string string) (a : arrival) : list arrival * gmap string string :=
  let '(ok, ps) := verifyMessage (ar_lookup a) (ar_solicited a) (ar_msg a) s.2 in
  (if ok then s.1 ++ [a] else s.1, ps).
(** The arrivals accepted, and the pins at the end. *)
Definition heard (h : list arrival) (ps : gmap string string) : list arrival * gmap string string :=
  foldl hear ([], ps) h.

Definition vouched (ps : gmap string string) (a : arrival) : Prop :=
  match pool_key (ar_lookup a) (KeyID (ar_msg a)) with
  | Some key => authentic key (ar_msg a)
  | None => ∃ key, ps !! KeyID (ar_msg a) = Some key ∧ authentic key (ar_msg a)
  end.

(** Every message heard is signed, over all its fields, by the key the trust pool has for the node it
    names, or, when it has none, by the one key pinned for that node, the same for all its messages;
    and the routing id it claims is the hash of that name. *)
Theorem one_key_per_node h ps a :
  a ∈ (heard h ps).1 → vouched (heard h ps).2 a.
Proof.
  unfold heard. induction h as [|b h IH] using rev_ind; [by intros ?%elem_of_nil|].
  rewrite foldl_app. cbn [foldl]. destruct (foldl hear ([], ps) h) as [acc ps1]. cbn [fst snd] in IH.
  unfold hear. cbn [fst snd].
  destruct (verifyMessage (ar_lookup b) (ar_solicited b) (ar_msg b) ps1) as [ok ps2] eqn:E. cbn [fst snd].
  assert (∀ c, vouched ps1 c → vouched ps2 c) as Hmono.
  { intros c. unfold vouched. destruct (pool_key _ _); [done|]. intros (key & Hk & Ha). exists key.
    split; [|done]. pose proof (pins_stay (ar_lookup b) (ar_solicited b) (ar_msg b) ps1 _ _ Hk) as Hs. by rewrite E in Hs. }
  destruct ok; [|by intros Ha; apply Hmono, IH].
  intros [Ha|Ha]%elem_of_app; [by apply Hmono, IH|]. apply list_elem_of_singleton in Ha as ->.
  apply dht_verify_accepts in E. unfold expected_key, vouched in *. destruct (pool_key _ _); [by destruct E|].
  destruct (ps1 !! KeyID (ar_msg b)) as [key|] eqn:Ek.
  - destruct E as [Ha ->]. eauto.
  - destruct E as (_ & Ha & ->). exists (PubKey (ar_msg b)). by rewrite lookup_insert_eq.
Qed.

(** ** Addresses learned *)

Section transport.
Context (identity : option (string * string)) (sign : DHTMessage → option string).
Abbreviation read_datagram := (λ lookup now, read_datagram Verify lookup identity sign now).

(** The transport, the answers handed to requests that have not gone on yet, and the ids of the
    requests sent so far. *)
Record wire_state := { w_t : UDPDHTTransport; w_delivered : list DHTMessage; w_asked : gset string }.

(** What happens on the wire, in any order: a datagram arrives, with the trust pool as it is
    then; a request is sent; a lookup or a bootstrap learns the answer at a position of those
    delivered, another request takes its own; a request ends; the buckets are refreshed. *)
Inductive wire_op :=
  | WRead (lookup : string → option string) (now : Time) (size : nat) (m : option DHTMessage)
  | WSend (rand : option (list Z)) (m : DHTMessage)
  | WLearn (now : Time) (i : nat) | WTake (i : nat) | WEnd (id : string)
  | WRefresh (now : Time) (send : string → DHTMessage → option DHTMessage).

Definition with_node (t : UDPDHTTransport) (n : DHTNode) : UDPDHTTransport :=
  {| u_node := n; u_pending := u_pending t; u_pins := u_pins t |}.

Definition wire_exec (s : wire_state) (o : wire_op) : wire_state :=
  let '{| w_t := t; w_delivered := ds; w_asked := asked |} := s in
  match o with
  | WRead lookup now size m =>
      let '(r, t) := read_datagram lookup now size m t in
      {| w_t := t; w_delivered := match r with Delivered m => ds ++ [m] | _ => ds end; w_asked := asked |}
  | WSend rand m =>
      let '(out, t) := start_send identity sign rand m t in
      {| w_t := t; w_delivered := ds; w_asked := match out with Some m => {[m_ID m]} ∪ asked | None => asked end |}
  | WLearn now i =>
      match ds !! i with
      | Some m => {| w_t := with_node t (learn_all now (Entries m) (u_node t)); w_delivered := delete i ds;
                     w_asked := asked |}
      | None => s
      end
  | WTake i => {| w_t := t; w_delivered := delete i ds; w_asked := asked |}
  | WEnd id => {| w_t := end_send id t; w_delivered := ds; w_asked := asked |}
  | WRefresh now send =>
      {| w_t := with_node t (RefreshBuckets send now (u_node t)).2; w_delivered := ds; w_asked := asked |}
  end.

Definition wire_start (t : UDPDHTTransport) : wire_state :=
  {| w_t := t; w_delivered := []; w_asked := u_pending t |}.
Definition wire_run (ops : list wire_op) (t : UDPDHTTransport) : wire_state :=
  foldl wire_exec (wire_start t) ops.

(** The address book of a state. *)
Definition book (s : wire_state) : gmap DHTNodeID string := addrBook (u_node (w_t s)).

Lemma learn_book now n e id :
  addrBook (learn now n e) !! id = addrBook n !! id
  ∨ (NodeID e = id ∧ addrBook (learn now n e) !! id = head (Addresses e)).
Proof.
  unfold learn. destruct (bool_decide (NodeID e = d_id n)); [by left|].
  destruct (Addresses e) as [|a l] eqn:Ea; cbn; [by left|].
  destruct (decide (NodeID e = id)) as [<-|Hne]; [right|left].
  - by rewrite lookup_insert_eq.
  - by rewrite lookup_insert_ne.
Qed.

Lemma learn_all_book now l n id a :
  addrBook (learn_all now l n) !! id = Some a →
  addrBook n !! id = Some a ∨ ∃ e, e ∈ l ∧ NodeID e = id ∧ head (Addresses e) = Some a.
Proof.
  unfold learn_all. revert n. induction l as [|e l IH]; intros n; [by left|]. cbn [foldl]. intros Ha.
  destruct (IH _ Ha) as [Hb|(x & Hx & ?)]; [|right; exists x; split; [by right|done]].
  destruct (learn_book now n e id) as [E|[E1 E2]]; [left; congruence|right].
  exists e. split; [left|]. split; [done|congruence].
Qed.

Lemma refresh_book send now n id a :
  addrBook (RefreshBuckets send now n).2 !! id = Some a → addrBook n !! id = Some a.
Proof.
  unfold RefreshBuckets. generalize (StaleEntries now dhtRefresh (d_dht n)). intros l.
  generalize 0 at 1. generalize 0. intros z1 z2. revert z1 z2 n.
  induction l as [|e l IH]; intros z1 z2 n; [done|]. cbn [foldl]. unfold refresh_entry at 2.
  destruct (Addresses e) as [|x xs]; [apply IH|]. destruct (bool_decide _); [apply IH|].
  destruct (send _ _); intros Ha; apply IH in Ha; [done|]. cbn in Ha.
  by apply lookup_delete_Some in Ha as [_ ?].
Qed.

Lemma handle_book now n m id :
  addrBook (handle now n m).2 !! id = addrBook n !! id
  ∨ (From m = id ∧ addrBook (handle now n m).2 !! id = Some (FromAddr m)).
Proof.
  unfold handle. cbv zeta.
  set (n' := if negb (bool_decide (From m = d_id n)) && negb (bool_decide (FromAddr m = "")) then _ else n).
  assert (addrBook n' !! id = addrBook n !! id ∨ (From m = id ∧ addrBook n' !! id = Some (FromAddr m))) as Hn.
  { subst n'. destruct (_ && _)%bool; [|by left].
    destruct (learn_book now n {| NodeID := From m; Addresses := [FromAddr m]; LastSeen := time_zero |} id) as [H|[H1 H2]];
      [by left|by right]. }
  destruct (Type_ m); try exact Hn.
  - by destruct (Get now (m_Key m) (d_dht n')).
  - by destruct (_ || _)%bool.
Qed.

(** The key a message was signed with when it was accepted. *)
Definition signer_known (lookup : string → option string) (ps : gmap string string) (m : DHTMessage) (key : string) : Prop :=
  authentic key m ∧ (pool_key lookup (KeyID m) = Some key
                     ∨ pool_key lookup (KeyID m) = None ∧ ps !! KeyID m = Some key).

(** What reading a datagram does. *)
Lemma read_spec lookup now n (m : option DHTMessage) t :
  let '(r, t') := read_datagram lookup now n m t in
  u_pending t' ⊆ u_pending t ∧ (∀ k p, u_pins t !! k = Some p → u_pins t' !! k = Some p) ∧
  (∀ id, addrBook (u_node t') !! id = addrBook (u_node t) !! id ∨
     ∃ m' key, m = Some m' ∧ From m' = id ∧ addrBook (u_node t') !! id = Some (FromAddr m') ∧
       signer_known lookup (u_pins t') m' key) ∧
  (∀ d, r = Delivered d → m = Some d ∧ m_ID d ∈ u_pending t ∧ ∃ key, signer_known lookup (u_pins t') d key).
Proof.
  unfold DhtWire.read_datagram. destruct (_ <? n)%nat; [by split_and!; [..|left|]|].
  destruct m as [m|]; [|by split_and!; [..|left|]].
  pose proof (pins_stay lookup (bool_decide (m_ID m ∈ u_pending t)) m (u_pins t)) as Hpins.
  destruct (DhtWire.verifyMessage _ _ _ _ _) as [ok ps] eqn:Ev. cbn [snd] in Hpins.
  destruct ok; cbn [negb u_pending u_node u_pins]; [|split_and!; [done|intros k p; by apply Hpins|by left|done]].
  assert (∃ key, signer_known lookup ps m key) as [key Hkey].
  { apply dht_verify_accepts in Ev. unfold expected_key in Ev. unfold signer_known.
    destruct (pool_key lookup (KeyID m)) as [key|] eqn:Ek; [destruct Ev as [Ha _]; exists key; auto|].
    destruct (u_pins t !! KeyID m) as [key|] eqn:Ep.
    - destruct Ev as [Ha ->]. exists key. auto.
    - destruct Ev as (_ & Ha & ->). exists (PubKey m). rewrite lookup_insert_eq. auto. }
  destruct (bool_decide_reflect (m_ID m ∈ u_pending t)) as [Hin|]; cbn [u_pending u_node u_pins].
  { split_and!; [set_solver|intros k p; by apply Hpins|by left|]. intros d [= <-]. by split_and!; [..|exists key]. }
  pose proof (handle_book now (u_node t) m) as Hn. destruct (handle now (u_node t) m) as [resp node]. cbn [snd] in Hn.
  assert (∀ r : received, (∀ d, r ≠ Delivered d) →
    u_pending t ⊆ u_pending t ∧ (∀ k p, u_pins t !! k = Some p → ps !! k = Some p) ∧
    (∀ id, addrBook node !! id = addrBook (u_node t) !! id ∨
       ∃ m' key, Some m = Some m' ∧ From m' = id ∧ addrBook node !! id = Some (FromAddr m') ∧
         signer_known lookup ps m' key) ∧
    (∀ d, r = Delivered d → Some m = Some d ∧ m_ID d ∈ u_pending t ∧ ∃ key, signer_known lookup ps d key)) as Hgo.
  { intros r Hr. split_and!; [done|intros k p; by apply Hpins| |intros d Hd; by destruct (Hr d)].
    intros id. destruct (Hn id) as [->|[Hf Hb]]; [by left|right]. by exists m, key. }
  destruct (signMessage _ _ _); by apply Hgo.
Qed.

(** A message of the history, signed by the key known for its sender. *)
Definition vouched_for (ops : list wire_op) (ps : gmap string string) (m : DHTMessage) : Prop :=
  ∃ lookup now n key, WRead lookup now n (Some m) ∈ ops ∧ signer_known lookup ps m key.

Lemma vouched_later ops ops' ps ps' m :
  (∀ k p, ps !! k = Some p → ps' !! k = Some p) → vouched_for ops ps m → vouched_for (ops ++ ops') ps' m.
Proof.
  intros Hp (lookup & now & n & key & Hin & Ha & Hk). exists lookup, now, n, key.
  split; [apply elem_of_app; by left|]. split; [done|]. destruct Hk as [|[? ?]]; [by left|right; auto].
Qed.

(** Where an address comes from. *)
Definition sourced (ops : list wire_op) (t : UDPDHTTransport) (s : wire_state) (id : DHTNodeID) (a : string) : Prop :=
  addrBook (u_node t) !! id = Some a ∨
  ∃ m, vouched_for ops (u_pins (w_t s)) m ∧
    (From m = id ∧ FromAddr m = a ∨
     m_ID m ∈ w_asked s ∧ ∃ e, e ∈ Entries m ∧ NodeID e = id ∧ head (Addresses e) = Some a).

Record wire_ok (ops : list wire_op) (t : UDPDHTTransport) (s : wire_state) : Prop := {
  wo_book : ∀ id a, book s !! id = Some a → sourced ops t s id a;
  wo_delivered : ∀ m, m ∈ w_delivered s → vouched_for ops (u_pins (w_t s)) m ∧ m_ID m ∈ w_asked s;
  wo_pending : u_pending (w_t s) ⊆ w_asked s }.

(** Steps that only add to what is known. *)
Lemma wire_ok_step ops o t s s' :
  wire_ok ops t s → (∀ k p, u_pins (w_t s) !! k = Some p → u_pins (w_t s') !! k = Some p) →
  w_asked s ⊆ w_asked s' → u_pending (w_t s') ⊆ w_asked s' →
  (∀ id a, book s' !! id = Some a → book s !! id = Some a ∨ sourced (ops ++ [o]) t s' id a) →
  (∀ m, m ∈ w_delivered s' → m ∈ w_delivered s ∨
     vouched_for (ops ++ [o]) (u_pins (w_t s')) m ∧ m_ID m ∈ w_asked s') →
  wire_ok (ops ++ [o]) t s'.
Proof.
  intros [Hb Hd _] Hp Ha Hpend Hb' Hd'. split; [| |done].
  - intros id a Hid. destruct (Hb' id a Hid) as [Hold|]; [|done].
    destruct (Hb id a Hold) as [|(m & Hm & Hs)]; [by left|right]. exists m.
    split; [by eapply vouched_later|]. destruct Hs as [|[? ?]]; [by left|right; split; [set_solver|done]].
  - intros m Hm. destruct (Hd' m Hm) as [Hold|]; [|done]. destruct (Hd m Hold) as [H1 H2].
    split; [by eapply vouched_later|set_solver].
Qed.

Lemma delete_elem {A} (l : list A) i x : x ∈ delete i l → x ∈ l.
Proof. intros Hx. eapply elem_of_submseteq; [exact Hx|]. apply sublist_submseteq, sublist_delete. Qed.

Lemma wire_exec_ok ops o t s : wire_ok ops t s → wire_ok (ops ++ [o]) t (wire_exec s o).
Proof.
  intros Hok. pose proof (wo_pending _ _ _ Hok) as Hpend. pose proof (wo_delivered _ _ _ Hok) as Hdel.
  destruct s as [u ds asked]. cbn in Hpend, Hdel. destruct o as [lookup now n m|rand m|now i|i|id|now send]; cbn [wire_exec].
  - pose proof (read_spec lookup now n m u) as Hr. destruct (read_datagram lookup now n m u) as [r u'].
    destruct Hr as (R1 & R2 & R3 & R4).
    assert (∀ d key, m = Some d → signer_known lookup (u_pins u') d key →
      vouched_for (ops ++ [WRead lookup now n m]) (u_pins u') d) as Hv.
    { intros d key -> Hk. exists lookup, now, n, key. split; [apply elem_of_app; right; left|done]. }
    eapply wire_ok_step; [exact Hok|exact R2|done|cbn; set_solver|..].
    + unfold book. cbn. intros id a Hid. destruct (R3 id) as [E|(d & key & Em & Hf & E & Hk)]; [left; congruence|right].
      right. exists d. split; [by eapply Hv|]. left. split; [done|congruence].
    + cbn. intros d Hin. destruct r; try by left. apply elem_of_app in Hin as [|Hin]; [by left|right].
      apply list_elem_of_singleton in Hin as ->. destruct (R4 _ eq_refl) as (Em & Hp & key & Hk).
      split; [by eapply Hv|set_solver].
  - unfold start_send. cbv zeta. destruct (if bool_decide _ then _ else _) as [id|];
      [destruct (signMessage _ _ _) as [q|]|].
    1: eapply wire_ok_step; [exact Hok|done|cbn; set_solver|cbn; set_solver|by left|by left].
    all: eapply wire_ok_step; [exact Hok|done|done|done|by left|by left].
  - destruct (ds !! i) as [m|] eqn:E.
    + eapply wire_ok_step; [exact Hok|done|done|done| |].
      * unfold book. cbn. intros id a Ha. apply learn_all_book in Ha as [Ha|(e & He & Hid & Hh)]; [by left|right]. right.
        assert (m ∈ ds) as Hm by (by eapply list_elem_of_lookup_2). destruct (Hdel m Hm) as [H1 H2].
        exists m. split; [by apply (vouched_later ops _ (u_pins u))|]. right. split; [done|]. by exists e.
      * cbn. intros d Hd. left. by eapply delete_elem.
    + eapply wire_ok_step; [exact Hok|done|done|done|by left|by left].
  - eapply wire_ok_step; [exact Hok|done|done|done|by left|]. cbn. intros d Hd. left. by eapply delete_elem.
  - eapply wire_ok_step; [exact Hok|done|done|cbn; set_solver|by left|by left].
  - eapply wire_ok_step; [exact Hok|done|done|done| |by left]. unfold book. cbn. intros id a Ha. left. by eapply refresh_book.
Qed.

(** C35. Whatever happens on the wire, in any order, an address the node did not have before was given
    in a message signed, over all its fields, by the key the trust pool had for its sender when
    it arrived, or by the one key pinned for it. Either the message gives it as its sender's
    own, or the message answers a request of this node and lists it first for the id; then only
    the answering node vouches for it, not the node it is the address of
    ([answer_names_others]). *)
Theorem addresses_are_signed ops (t : UDPDHTTransport) id a :
  let s := wire_run ops t in
  book s !! id = Some a →
  addrBook (u_node t) !! id = Some a ∨
  ∃ m lookup now n key, WRead lookup now n (Some m) ∈ ops ∧ signer_known lookup (u_pins (w_t s)) m key ∧
    (From m = id ∧ FromAddr m = a ∨
     m_ID m ∈ w_asked s ∧ ∃ e, e ∈ Entries m ∧ NodeID e = id ∧ head (Addresses e) = Some a).
Proof.
  intros s Hb. assert (wire_ok ops t s) as Hok.
  { subst s. clear Hb. induction ops as [|o ops IH] using rev_ind.
    - split; [by left|by intros ? ?%elem_of_nil|done].
    - unfold wire_run. rewrite foldl_app. by apply wire_exec_ok. }
  destruct (wo_book _ _ _ Hok _ _ Hb) as [|(m & (lookup & now & n & key & Hin & Hk) & Hs)]; [by left|right].
  by exists m, lookup, now, n, key.
Qed.
End transport.
End wire.

(** ** Lookups *)

Section lookups.
Context (send : string → DHTMessage → option DHTMessage) (now : Time).
Abbreviation find_node_rounds := (find_node_rounds send now).

Lemma learn_id n e : d_id (learn now n e) = d_id n.
Proof. unfold learn. destruct (bool_decide _); [done|]. by destruct (Addresses e). Qed.
Lemma learn_all_id l n : d_id (learn_all now l n) = d_id n.
Proof.
  unfold learn_all. induction l as [|e l IH] in n |- *; [done|]. cbn [foldl]. rewrite IH. apply learn_id.
Qed.

Lemma next_is target queried n e : nextUnqueried target queried n = Some e →
  e ∈ FindClosest target dhtK (d_dht n) ∧ NodeID e ≠ d_id n ∧ NodeID e ∉ queried ∧ is_Some (addrOf n (NodeID e)).
Proof.
  unfold nextUnqueried. intros [He Hp]%find_some.
  apply andb_true_iff in Hp as [[Hp1 Hp2]%andb_true_iff Hp3%bool_decide_eq_true].
  apply negb_true_iff, bool_decide_eq_false in Hp1, Hp2. by split; [apply list_elem_of_In|].
Qed.
Lemma none_next target queried n e : nextUnqueried target queried n = None →
  e ∈ FindClosest target dhtK (d_dht n) → NodeID e ≠ d_id n → is_Some (addrOf n (NodeID e)) → NodeID e ∈ queried.
Proof.
  unfold nextUnqueried. intros Hf He%list_elem_of_In Hn Ha. pose proof (find_none _ _ Hf e He) as Hp.
  apply andb_false_iff in Hp as [[Hp|Hp]%andb_false_iff|Hp%bool_decide_eq_false]; [..|done].
  - by apply negb_false_iff, bool_decide_eq_true in Hp.
  - by apply negb_false_iff, bool_decide_eq_true in Hp.
Qed.

Lemma rounds_end target r asked n :
  NoDup asked → d_id n ∉ asked →
  let s := find_node_rounds target r asked n in
  NoDup s.1 ∧ d_id n ∉ s.1 ∧ d_id s.2 = d_id n ∧ (∃ new, s.1 = new ++ asked ∧ (length new ≤ r)%nat ∧
  ((length new < r)%nat → nextUnqueried target (list_to_set s.1) s.2 = None)).
Proof.
  induction r as [|r IH] in asked, n |- *; intros Hnd Hself; cbn [DhtWire.find_node_rounds].
  { split_and!; [done..|]. exists []. split_and!; [done|cbn; lia|cbn; lia]. }
  destruct (nextUnqueried target _ n) as [e|] eqn:En; cbn.
  2: { split_and!; [done..|]. exists []. split_and!; [done|cbn; lia|done]. }
  destruct (next_is _ _ _ _ En) as (_ & Hne & Hq & _). rewrite elem_of_list_to_set in Hq.
  assert (NoDup (NodeID e :: asked)) as Hnd' by (by apply NoDup_cons).
  assert (d_id n ∉ NodeID e :: asked) as Hs' by (rewrite not_elem_of_cons; naive_solver).
  assert (∀ n1, d_id n1 = d_id n →
    let s := find_node_rounds target r (NodeID e :: asked) n1 in
    NoDup s.1 ∧ d_id n ∉ s.1 ∧ d_id s.2 = d_id n ∧ (∃ new, s.1 = new ++ asked ∧ (length new ≤ S r)%nat ∧
    ((length new < S r)%nat → nextUnqueried target (list_to_set s.1) s.2 = None))) as Hrec.
  { intros n1 Hn1 s. destruct (IH (NodeID e :: asked) n1 Hnd') as (H1 & H2 & H3 & new & H4 & H5 & H6);
      [by rewrite Hn1|]. rewrite Hn1 in H2, H3.
    split_and!; [done..|]. exists (new ++ [NodeID e]). rewrite length_app. cbn [length].
    split_and!; [by rewrite <- app_assoc|lia|]. intros Hl. apply H6. lia. }
  destruct (send _ _) as [resp|]; apply Hrec; [apply learn_all_id|done].
Qed.

(** C36. A lookup ends: it asks no node twice, never itself, and at most 256 of them; and when it asks
    fewer, every one of the twenty nearest nodes it then knows, whose address it has, was asked. *)
Theorem lookup_asks_each_once target n :
  let s := IterativeFindNode send now target n in
  NoDup s.1 ∧ d_id n ∉ s.1 ∧ (length s.1 ≤ 256)%nat ∧
  ((length s.1 < 256)%nat → ∀ e, e ∈ FindClosest target dhtK (d_dht s.2) →
     NodeID e = d_id n ∨ addrOf s.2 (NodeID e) = None ∨ NodeID e ∈ s.1).
Proof.
  intros s. unfold IterativeFindNode in s.
  destruct (rounds_end target dhtBuckets [] n) as (H1 & H2 & H3 & new & H4 & H5 & H6);
    [apply NoDup_nil_2|apply not_elem_of_nil|]. fold s in H1, H2, H3, H4, H6.
  rewrite app_nil_r in H4. split_and!; [done..|by rewrite H4|].
  intros Hl e He. rewrite <- H4 in H6. specialize (H6 Hl).
  destruct (decide (NodeID e = d_id n)) as [|Hne]; [by left|right].
  destruct (addrOf s.2 (NodeID e)) as [a|] eqn:Ea; [right|by left].
  apply (elem_of_list_to_set (C := gset DHTNodeID)).
  eapply none_next; [exact H6|exact He|by rewrite H3|by rewrite Ea].
Qed.

(** ** The refresh *)

Lemma AddNode_old e d x : dht_ok d → valid_id (NodeID e) → x ∈ all_entries (AddNode now e d) →
  x = seen_at now e ∨ x ∈ all_entries d.
Proof.
  intros Hok Hv. pose proof (dht_ok_bucket d (NodeID e) Hok Hv) as Hb.
  pose proof (AddNode_ok now e d Hok Hv) as Hok'. rewrite !table_elem by done. intros (j & bj & Hj & Hx).
  unfold AddNode in Hj. set (idx := bucket_of d (NodeID e)) in *. set (b := default [] (buckets d !! idx)) in *.
  destruct (replace_entry (seen_at now e) b) as [b'|] eqn:Er.
  - apply replace_entry_spec in Er as (_ & _ & Hin). cbn in Hj.
    apply list_lookup_insert_Some in Hj as [(<- & <- & _)|[_ Hj]]; [|by eauto].
    destruct (Hin x Hx); [by left|right; eauto].
  - destruct (_ <? _)%nat; [|by eauto]. cbn in Hj.
    apply list_lookup_insert_Some in Hj as [(<- & <- & _)|[_ Hj]]; [|by eauto].
    apply elem_of_app in Hx as [Hx|Hx%list_elem_of_singleton]; [right; eauto|by left].
Qed.

Lemma AddNode_keep e d x : dht_ok d → valid_id (NodeID e) → x ∈ all_entries d → NodeID x ≠ NodeID e →
  x ∈ all_entries (AddNode now e d).
Proof.
  intros Hok Hv Hx Hne. pose proof (dht_ok_bucket d (NodeID e) Hok Hv) as Hb.
  pose proof (AddNode_ok now e d Hok Hv) as Hok'. pose proof Hx as Hx0.
  apply table_elem in Hx as (j & bj & Hj & Hx); [|done]. apply table_elem; [done|].
  unfold AddNode. set (idx := bucket_of d (NodeID e)) in *. set (b := default [] (buckets d !! idx)) in *.
  destruct (decide (j = idx)) as [->|Hji].
  2: { exists j, bj. repeat case_match; cbn; rewrite ?list_lookup_insert_ne by done; done. }
  assert (bj = b) as -> by congruence.
  assert (idx < length (buckets d))%nat as Hlt by (by eapply lookup_lt_Some).
  destruct (replace_entry (seen_at now e) b) as [b'|] eqn:Er.
  - exists idx, b'. cbn. rewrite list_lookup_insert_eq by done. split; [done|].
    apply replace_entry_spec in Er as (E1 & _ & E3).
    assert (NodeID x ∈ NodeID <$> b') as (y & Ey & Hy)%list_elem_of_fmap by (rewrite E1; by apply list_elem_of_fmap_2).
    destruct (E3 y Hy) as [->|Hyb]; [done|].
    assert (x = y) as ->; [|done]. apply (table_unique d); [done|done|apply table_elem; eauto|done].
  - destruct (_ <? _)%nat; [|by eauto]. exists idx, (b ++ [seen_at now e]). cbn.
    rewrite list_lookup_insert_eq by done. split; [done|]. apply elem_of_app. by left.
Qed.

(** Adding a node that is there only renews it. *)
Lemma AddNode_present e d x : dht_ok d → e ∈ all_entries d → valid_id (NodeID e) →
  x ∈ all_entries (AddNode now e d) ↔ x = seen_at now e ∨ x ∈ all_entries d ∧ NodeID x ≠ NodeID e.
Proof.
  intros Hok He Hv. pose proof (AddNode_ok now e d Hok Hv) as Hok'.
  assert (seen_at now e ∈ all_entries (AddNode now e d)) as Hin.
  { destruct (AddNode_elem now e d Hok Hv) as [|(_ & Hno & _)]; [done|]. by destruct (Hno e He). }
  split.
  - intros Hx. destruct (decide (NodeID x = NodeID e)) as [E|Hne].
    + left. by eapply table_unique; [exact Hok'|..].
    + destruct (AddNode_old e d x Hok Hv Hx) as [->|]; [by left|by right].
  - intros [->|[Hx Hne]]; [done|by apply AddNode_keep].
Qed.

Lemma entry_valid d e : dht_ok d → e ∈ all_entries d → valid_id (NodeID e).
Proof. intros Hok (i & b & Hi & He)%table_elem; [|done]. by destruct (ok_bucket d Hok _ _ Hi) as (_ & _ & H); destruct (H e He). Qed.

Lemma table_NoDup d : dht_ok d → NoDup (NodeID <$> all_entries d).
Proof.
  intros Hok. unfold all_entries.
  assert (∀ bs k, (∀ i b, bs !! i = Some b → buckets d !! (k + i)%nat = Some b) → NoDup (NodeID <$> concat bs)) as Hg;
    [|by apply (Hg _ 0%nat)].
  induction bs as [|b bs IH]; intros k Hk; [apply NoDup_nil_2|]. cbn [concat]. rewrite fmap_app.
  pose proof (Hk 0%nat b eq_refl) as Hb. rewrite Nat.add_0_r in Hb.
  destruct (ok_bucket d Hok _ _ Hb) as (_ & Hnd & Hin). apply NoDup_app. split_and!; [done| |].
  - intros id (x & -> & Hx)%list_elem_of_fmap (y & E & Hy)%list_elem_of_fmap.
    apply list_elem_of_In, in_concat in Hy as (b' & [i Hi]%list_elem_of_In%list_elem_of_lookup & Hy%list_elem_of_In).
    pose proof (Hk (S i) b' Hi) as Hb'. destruct (ok_bucket d Hok _ _ Hb') as (_ & _ & Hin').
    destruct (Hin x Hx) as [_ E1], (Hin' y Hy) as [_ E2]. rewrite E in E1. lia.
  - apply (IH (S k)). intros i b' Hi. replace (S k + i)%nat with (k + S i)%nat by lia. by apply Hk.
Qed.

(** What becomes of an entry that is pinged. *)
Definition after_ping (n : DHTNode) (e : DHTEntry) : option DHTEntry :=
  match Addresses e with
  | [] => Some e
  | a :: _ =>
      if bool_decide (NodeID e = d_id n) then Some e
      else match send a (plain_message n "" DHTMsgPing zero_id "" "") with
      | None => None
      | Some _ => Some (seen_at now e)
      end
  end.

Lemma after_ping_id n e x : after_ping n e = Some x → NodeID x = NodeID e.
Proof. unfold after_ping. repeat case_match; intros; by simplify_eq. Qed.

Lemma after_ping_same n n' : d_id n' = d_id n → d_addr n' = d_addr n → after_ping n' = after_ping n.
Proof. intros H1 H2. unfold after_ping, plain_message. by rewrite H1, H2. Qed.

Lemma refresh_step p v n e :
  dht_ok (d_dht n) → e ∈ all_entries (d_dht n) →
  let n' := (refresh_entry send now (p, v, n) e).2 in
  dht_ok (d_dht n') ∧ d_id n' = d_id n ∧ d_addr n' = d_addr n ∧
  ∀ x, x ∈ all_entries (d_dht n') ↔ after_ping n e = Some x ∨ x ∈ all_entries (d_dht n) ∧ NodeID x ≠ NodeID e.
Proof.
  intros Hok He. pose proof (entry_valid _ _ Hok He) as Hv.
  assert (∀ x, x ∈ all_entries (d_dht n) ↔ Some e = Some x ∨ x ∈ all_entries (d_dht n) ∧ NodeID x ≠ NodeID e) as Hkeep.
  { intros x. split.
    - intros Hx. destruct (decide (NodeID x = NodeID e)) as [E|]; [left|by right].
      f_equal. by eapply table_unique.
    - intros [[= ->]|[Hx _]]; done. }
  unfold refresh_entry, after_ping. destruct (Addresses e) as [|a l]; [by split_and!|].
  destruct (bool_decide (NodeID e = d_id n)); [by split_and!|].
  destruct (send a _) as [resp|]; cbn [snd set_dht set_book d_dht d_id d_addr].
  - split_and!; [by apply AddNode_ok|done..|]. intros x. rewrite AddNode_present by done.
    split; (intros [H|H]; [left; congruence|by right]).
  - split_and!; [by apply RemoveNode_ok|done..|]. intros x. rewrite RemoveNode_elem by done. naive_solver.
Qed.

Lemma refresh_all l s :
  let n := s.2 in let n' := (foldl (refresh_entry send now) s l).2 in
  dht_ok (d_dht n) → (∀ e, e ∈ l → e ∈ all_entries (d_dht n)) → NoDup (NodeID <$> l) →
  dht_ok (d_dht n') ∧
  ∀ x, x ∈ all_entries (d_dht n') ↔
    (∃ e, e ∈ l ∧ after_ping n e = Some x) ∨ x ∈ all_entries (d_dht n) ∧ NodeID x ∉ NodeID <$> l.
Proof.
  induction l as [|e l IH] in s |- *; intros n n' Hok Hin Hnd.
  { split; [done|]. intros x. subst n'. cbn [foldl]. split; [|by intros [(? & ?%elem_of_nil & _)|[? _]]].
    intros Hx. right. split; [done|]. apply not_elem_of_nil. }
  destruct s as [[p v] n0]. subst n n'. cbn [snd] in *. cbn [foldl].
  rewrite fmap_cons in Hnd. apply NoDup_cons in Hnd as [Hne Hnd].
  destruct (refresh_step p v n0 e Hok (Hin e ltac:(left))) as (Hok1 & Hi & Ha & Hall).
  destruct (IH (refresh_entry send now (p, v, n0) e) Hok1) as [Hok2 Hall2]; [|done|].
  { intros y Hy. apply Hall. right. split; [apply Hin; by right|].
    intros E. apply Hne. rewrite <- E. by apply list_elem_of_fmap_2. }
  split; [done|]. intros x. rewrite Hall2, (after_ping_same n0) by done. rewrite Hall, fmap_cons, not_elem_of_cons. split.
  - intros [(y & Hy & Hp)|[[Hp|[Hx Hxe]] Hxl]].
    + left. exists y. split; [by right|done].
    + left. exists e. split; [by left|done].
    + by right.
  - intros [(y & [->|Hy]%elem_of_cons & Hp)|(Hx & Hxe & Hxl)].
    + right. split; [by left|]. by rewrite (after_ping_id _ _ _ Hp).
    + left. eauto.
    + right. auto.
Qed.

(** After a refresh the table holds the entries heard of in the last ten minutes unchanged, the older
    ones that answered, as of now, and none of those that did not; an entry without an address is kept. *)
Theorem refresh_keeps_the_living n :
  dht_ok (d_dht n) →
  let n' := (RefreshBuckets send now n).2 in
  dht_ok (d_dht n') ∧
  ∀ x, x ∈ all_entries (d_dht n') ↔
    ∃ e, e ∈ all_entries (d_dht n) ∧
      (if before (LastSeen e) (now - dhtRefresh) then after_ping n e else Some e) = Some x.
Proof.
  intros Hok. unfold RefreshBuckets. cbv zeta. set (l := StaleEntries now dhtRefresh (d_dht n)).
  assert (l ≡ₚ filter (λ e, before (LastSeen e) (now - dhtRefresh) = true) (all_entries (d_dht n))) as Hl
    by apply sort_slice_perm.
  assert (∀ e, e ∈ l ↔ before (LastSeen e) (now - dhtRefresh) = true ∧ e ∈ all_entries (d_dht n)) as Hel
    by (intros e; by rewrite Hl, list_elem_of_filter).
  destruct (refresh_all l (0, 0, n)) as [Hok' Hall]; [done|by intros e [_ He]%Hel| |].
  { rewrite Hl. eapply sublist_NoDup; [apply (table_NoDup _ Hok)|apply fmap_sublist, sublist_filter]. }
  split; [done|]. intros x. rewrite Hall. cbn [snd]. split.
  - intros [(e & [Hb He]%Hel & Hp)|[Hx Hn]].
    + exists e. by rewrite Hb.
    + exists x. split; [done|]. destruct (before _ _) eqn:Hb; [|done]. destruct Hn. apply list_elem_of_fmap_2. by apply Hel.
  - intros (e & He & Hp). destruct (before (LastSeen e) _) eqn:Hb.
    + left. exists e. split; [by apply Hel|done].
    + injection Hp as <-. right. split; [done|]. intros (y & E & [Hby Hy]%Hel)%list_elem_of_fmap.
      assert (e = y) as -> by (by apply (table_unique (d_dht n))). congruence.
Qed.
End lookups.

(** ** A concrete network *)

Module DhtDemo.
Definition key32 : string := String.string_of_list_ascii (repeat "A"%char 43) +:+ "=".
Definition sig64 : string := String.string_of_list_ascii (repeat "A"%char 86) +:+ "==".
(** A signature of zeros is good under a key of zeros. *)
Definition verify (pub : bytes) (m : DHTMessage) (sig : bytes) : bool := bool_decide (head pub = head sig).
Definition peer : DHTNodeID := sum256 "peer".
Definition ping : DHTMessage := {|
  m_ID := "1"; From := peer; FromAddr := "10.0.0.2:7"; Type_ := DHTMsgPing; Target := zero_id; m_Key := "";
  m_Value := ""; Entries := []; Found := false; KeyID := "peer"; PubKey := ""; Sig := sig64 |}.
Definition start : UDPDHTTransport := {|
  u_node := NewDHTNode "me" "10.0.0.1:7"; u_pending := ∅; u_pins := {["peer" := key32]} |}.
Definition no_pool (k : string) : option string := None.
Definition pong (a : string) (m : DHTMessage) : option DHTMessage := Some m.
End DhtDemo.
Import DhtDemo.

Lemma one_key_per_node_witness :
  let a := {| ar_lookup := no_pool; ar_solicited := false; ar_msg := ping |} in
  a ∈ (heard verify [a] {["peer" := key32]}).1 ∧ vouched verify (heard verify [a] {["peer" := key32]}).2 a.
Proof.
  intros a. assert (a ∈ (heard verify [a] {["peer" := key32]}).1) as Ha.
  { assert (DhtWire.verifyMessage verify no_pool false ping {["peer" := key32]} = (true, {["peer" := key32]})) as E
      by (vm_compute; reflexivity).
    unfold heard, hear, a. cbn [foldl snd ar_lookup ar_solicited ar_msg]. rewrite E. left. }
  split; [exact Ha|]. by apply (one_key_per_node verify [a] {["peer" := key32]} a).
Defined.

(** (A defect.) A lookup asks the peer, whose signed answer gives another node an address of its
    choice. *)
Definition ping_ops : list wire_op := [WRead no_pool 100 300%nat (Some ping)].
Definition other : DHTNodeID := sum256 "other".
Definition find_answer : DHTMessage := {|
  m_ID := "7"; From := peer; FromAddr := "10.0.0.2:7"; Type_ := DHTMsgFindNodeResp; Target := zero_id; m_Key := "";
  m_Value := ""; Entries := [{| NodeID := other; Addresses := ["6.6.6.6:6"]; LastSeen := time_zero |}];
  Found := false; KeyID := "peer"; PubKey := ""; Sig := sig64 |}.
Definition sign_zero (m : DHTMessage) : option string := Some sig64.
Definition lookup_ops : list wire_op :=
  [WSend None (with_id (plain_message (u_node start) "" DHTMsgFindNode other "" "") "7");
   WRead no_pool 100 300%nat (Some find_answer); WLearn 100 0%nat; WEnd "7"].

Example answer_names_others :
  book (wire_run verify (Some ("me", key32)) sign_zero lookup_ops start) !! other = Some "6.6.6.6:6".
Proof. vm_compute. reflexivity. Qed.

Lemma addresses_are_signed_witness :
  let s := wire_run verify None sign_zero ping_ops start in
  book s !! peer = Some "10.0.0.2:7" ∧
  ∃ key, signer_known verify no_pool (u_pins (w_t s)) ping key.
Proof.
  intros s. assert (book s !! peer = Some "10.0.0.2:7") as E by (vm_compute; reflexivity).
  split; [exact E|].
  destruct (addresses_are_signed verify None sign_zero ping_ops start peer _ E)
    as [H|(m & lookup & now & n & key & Hm & Hk & _)].
  - discriminate H.
  - exists key. apply list_elem_of_singleton in Hm. injection Hm as -> _ _ ->. exact Hk.
Defined.

Lemma refresh_keeps_the_living_witness :
  let n := NewDHTNode "me" "10.0.0.1:7" in
  dht_ok (d_dht n) ∧ dht_ok (d_dht (RefreshBuckets pong 100 n).2).
Proof.
  intros n. assert (dht_ok (d_dht n)) as Hok by (apply (run_dht_ok [] "me"); constructor).
  split; [exact Hok|]. exact (proj1 (refresh_keeps_the_living pong 100 n Hok)).
Defined.
