(* ===== verification/Reputation.v ===== *)
(** * The reputation of nodes (reputation.go)

    [ReputationManager] keeps, per node, moving averages of what this node measured, the scores
    other nodes sent, the weighted total and its grade. Amounts are floating point; signatures
    are the parameter [Verify]; the order in which the map is walked does not matter. *)

From S2P Require Import Prelude GoTime Bytes.
From S2P Require TrustPool.

(** ** Floating point *)

Definition pct : float64 := float_of_int 100.
Definition frac (a b : Z) : float64 := fdiv (float_of_int a) (float_of_int b).

(** A number encoding/json accepts. *)
Definition is_finite (f : float64) : bool :=
  match f with SpecFloat.S754_zero _ | SpecFloat.S754_finite _ _ _ => true | _ => false end.

(** [%.0f]: rounded to an integer, halves to even. *)
Definition round_even (m : Z) (e : Z) : Z :=
  if 0 <=? e then m * 2 ^ e
  else
    let d := 2 ^ (- e) in let q := m / d in let r := m mod d in
    if (2 * r <? d) || ((2 * r =? d) && Z.even q) then q else q + 1.
Definition fmt_f0 (f : float64) : string :=
  match f with
  | SpecFloat.S754_zero s => if s then "-0" else "0"
  | SpecFloat.S754_infinity s => if s then "-Inf" else "+Inf"
  | SpecFloat.S754_nan => "NaN"
  | SpecFloat.S754_finite s m e => (if s then "-" else "") +:+ dec (round_even (Z.pos m) e)
  end.

(** ** Data *)

Record PeerScore := {
  FromNode : string; TargetNode : string; ps_Availability : float64; ps_Latency : float64;
  ps_Accuracy : float64; Comment : string; Timestamp : string; Signature : string }.

Record NodeReputation := {
  rep_NodeID : string; Availability : float64; Latency : float64; Accuracy : float64;
  PeerScores : list PeerScore; OverallScore : float64; Grade : string; LastUpdated : string;
  TotalRequests : Z; FailedRequests : Z; DGradeSince : string }.

(** [rep_file] is what reputation.json decodes to, [None] when it is missing or does not parse. *)
Record ReputationManager := {
  scores : gmap string NodeReputation; myScores : gmap string PeerScore;
  rep_file : option (gmap string NodeReputation * gmap string PeerScore) }.

Definition repEwmaAlpha : float64 := frac 3 10.

(** ** Scores and grades *)

Definition calculateOverallScore (rep : NodeReputation) : float64 :=
  let base := fadd (fadd (fmul (frac 4 10) (Availability rep)) (fmul (frac 3 10) (Latency rep)))
                   (fmul (frac 2 10) (Accuracy rep)) in
  let peerConsensus :=
    match PeerScores rep with
    | [] => f_zero
    | l => fdiv (foldl (λ sum ps, fadd sum (ps_Availability ps)) f_zero l) (float_of_int (Z.of_nat (length l)))
    end in
  fadd base (fmul (frac 1 10) peerConsensus).

Definition calculateGrade (score : float64) : string :=
  if fleb (float_of_int 95) score then "S"
  else if fleb (float_of_int 80) score then "A"
  else if fleb (float_of_int 60) score then "B"
  else if fleb (float_of_int 40) score then "C"
  else "D".

(** The tail of every update. *)
Definition regrade (now : Time) (rep : NodeReputation) : NodeReputation :=
  let score := calculateOverallScore rep in {|
  rep_NodeID := rep_NodeID rep; Availability := Availability rep; Latency := Latency rep; Accuracy := Accuracy rep;
  PeerScores := PeerScores rep; OverallScore := score; Grade := calculateGrade score;
  LastUpdated := fmt_rfc3339 UTC now; TotalRequests := TotalRequests rep; FailedRequests := FailedRequests rep;
  DGradeSince := DGradeSince rep |}.

Definition new_reputation (now : Time) (nodeID : string) : NodeReputation := {|
  rep_NodeID := nodeID; Availability := float_of_int 50; Latency := float_of_int 50; Accuracy := float_of_int 50;
  PeerScores := []; OverallScore := f_zero; Grade := "C"; LastUpdated := fmt_rfc3339 UTC now;
  TotalRequests := 0; FailedRequests := 0; DGradeSince := "" |}.
Definition getOrCreate (now : Time) (nodeID : string) (r : ReputationManager) : NodeReputation :=
  default (new_reputation now nodeID) (scores r !! nodeID).

(** ** The file *)

Definition score_finite (p : PeerScore) : bool :=
  is_finite (ps_Availability p) && is_finite (ps_Latency p) && is_finite (ps_Accuracy p).
Definition rep_finite (rep : NodeReputation) : bool :=
  is_finite (Availability rep) && is_finite (Latency rep) && is_finite (Accuracy rep)
  && is_finite (OverallScore rep) && forallb score_finite (PeerScores rep).
Definition encodable (r : ReputationManager) : bool :=
  forallb (λ kv, rep_finite kv.2) (map_to_list (scores r))
  && forallb (λ kv, score_finite kv.2) (map_to_list (myScores r)).

(** What cannot be encoded is not written. *)
Definition save (r : ReputationManager) : ReputationManager :=
  if encodable r
  then {| scores := scores r; myScores := myScores r; rep_file := Some (scores r, myScores r) |}
  else r.

Definition load (r : ReputationManager) : ReputationManager :=
  match rep_file r with
  | None => r
  | Some (s, m) => {| scores := s; myScores := m; rep_file := rep_file r |}
  end.
Definition initReputation (file : option (gmap string NodeReputation * gmap string PeerScore)) : ReputationManager :=
  load {| scores := ∅; myScores := ∅; rep_file := file |}.

Definition set_score (nodeID : string) (rep : NodeReputation) (r : ReputationManager) : ReputationManager :=
  save {| scores := <[nodeID := rep]> (scores r); myScores := myScores r; rep_file := rep_file r |}.

(** ** Measurements *)

Definition ewma (sample old : float64) : float64 :=
  fadd (fmul repEwmaAlpha sample) (fmul (frac 7 10) old).

(** 0ms is 100, 5000ms and more is 0. *)
Definition latency_sample (latencyMS : float64) : float64 :=
  let s := fsub pct (fdiv latencyMS (float_of_int 50)) in
  let s := if fltb s f_zero then f_zero else s in
  if fltb pct s then pct else s.

Definition RecordCall (now : Time) (nodeID : string) (success : bool) (latencyMS : float64) (r : ReputationManager)
    : ReputationManager :=
  let rep := getOrCreate now nodeID r in
  let rep := {|
    rep_NodeID := rep_NodeID rep;
    Availability := ewma (if success then pct else f_zero) (Availability rep);
    Latency := ewma (latency_sample latencyMS) (Latency rep); Accuracy := Accuracy rep; PeerScores := PeerScores rep;
    OverallScore := OverallScore rep; Grade := Grade rep; LastUpdated := LastUpdated rep;
    TotalRequests := TotalRequests rep +! 1;
    FailedRequests := if success then FailedRequests rep else FailedRequests rep +! 1;
    DGradeSince := DGradeSince rep |} in
  set_score nodeID (regrade now rep) r.

Definition RecordAccuracy (now : Time) (nodeID : string) (accurate : bool) (r : ReputationManager) : ReputationManager :=
  let rep := getOrCreate now nodeID r in
  let rep := {|
    rep_NodeID := rep_NodeID rep; Availability := Availability rep; Latency := Latency rep;
    Accuracy := ewma (if accurate then pct else f_zero) (Accuracy rep); PeerScores := PeerScores rep;
    OverallScore := OverallScore rep; Grade := Grade rep; LastUpdated := LastUpdated rep;
    TotalRequests := TotalRequests rep; FailedRequests := FailedRequests rep; DGradeSince := DGradeSince rep |} in
  set_score nodeID (regrade now rep) r.

Definition GetReputation (nodeID : string) (r : ReputationManager) : option NodeReputation := scores r !! nodeID.

(** ** Scores of other nodes *)

(** The score of a node takes the place of its last one. *)
Fixpoint put_score (p : PeerScore) (l : list PeerScore) : list PeerScore :=
  match l with
  | [] => [p]
  | q :: l => if bool_decide (FromNode q = FromNode p) then p :: l else q :: put_score p l
  end.

Definition AddPeerScore (now : Time) (score : PeerScore) (r : ReputationManager) : ReputationManager :=
  let rep := getOrCreate now (TargetNode score) r in
  let rep := {|
    rep_NodeID := rep_NodeID rep; Availability := Availability rep; Latency := Latency rep; Accuracy := Accuracy rep;
    PeerScores := put_score score (PeerScores rep); OverallScore := OverallScore rep; Grade := Grade rep;
    LastUpdated := LastUpdated rep; TotalRequests := TotalRequests rep; FailedRequests := FailedRequests rep;
    DGradeSince := DGradeSince rep |} in
  set_score (TargetNode score) (regrade now rep) r.

Definition GetOurScore (target : string) (r : ReputationManager) : option PeerScore := myScores r !! target.

(** What is signed. *)
Definition score_payload (s : PeerScore) : string :=
  FromNode s +:+ ":" +:+ TargetNode s +:+ ":" +:+ fmt_f0 (ps_Availability s) +:+ ":" +:+ fmt_f0 (ps_Latency s)
  +:+ ":" +:+ fmt_f0 (ps_Accuracy s) +:+ ":" +:+ Timestamp s.

(** [sign] is [node.Sign]. *)
Definition SetOurScore (sign : string → string) (now : Time) (self target : string)
    (availability latency accuracy : float64) (comment : string) (r : ReputationManager) : ReputationManager :=
  let score sig := {|
    FromNode := self; TargetNode := target; ps_Availability := availability; ps_Latency := latency;
    ps_Accuracy := accuracy; Comment := comment; Timestamp := fmt_rfc3339 UTC now; Signature := sig |} in
  save {| scores := scores r; myScores := <[target := score (sign (score_payload (score "")))]> (myScores r);
          rep_file := rep_file r |}.

(** ** Removal *)

Definition week : Z := 7 * 24 * hour.

Definition ShouldRemoveNode (now : Time) (nodeID : string) (r : ReputationManager) : bool :=
  match scores r !! nodeID with
  | None => false
  | Some rep =>
      if negb (bool_decide (Grade rep = "D")) then false
      else if bool_decide (DGradeSince rep = "") then false
      else match parse_rfc3339 (DGradeSince rep) with
           | None => false
           | Some since => week <? now - since
           end
  end.

Definition cleanup_one (now : Time) (rep : NodeReputation) : NodeReputation :=
  let score := calculateOverallScore rep in
  let newGrade := calculateGrade score in {|
  rep_NodeID := rep_NodeID rep; Availability := Availability rep; Latency := Latency rep; Accuracy := Accuracy rep;
  PeerScores := PeerScores rep; OverallScore := score; Grade := newGrade;
  LastUpdated := fmt_rfc3339 UTC now; TotalRequests := TotalRequests rep; FailedRequests := FailedRequests rep;
  DGradeSince :=
    if bool_decide (newGrade = "D")
    then if negb (bool_decide (Grade rep = "D")) || bool_decide (DGradeSince rep = "")
         then fmt_rfc3339 UTC now else DGradeSince rep
    else "" |}.

Definition cleanup (now : Time) (r : ReputationManager) : ReputationManager :=
  save {| scores := cleanup_one now <$> scores r; myScores := myScores r; rep_file := rep_file r |}.

(** ** Receiving a score (handlePostScore) *)

Section handlers.
(** [ed25519.Verify] of a key of 32 bytes, a text and a signature of 64. *)
Context (Verify : bytes → string → bytes → bool).

(** [score] is the decoded body. The status, and the state after. *)
Definition handlePostScore (now : Time) (post : bool) (score : option PeerScore) (pool : TrustPool.TrustPool)
    (r : ReputationManager) : Z * ReputationManager :=
  if negb post then (405, r)
  else match score with
  | None => (400, r)
  | Some score =>
      if bool_decide (FromNode score = "") || bool_decide (TargetNode score = "") then (400, r)
      else match find_key TrustPool.NodeID (FromNode score) (TrustPool.Nodes pool) with
      | None => (403, r)
      | Some sender =>
          if bool_decide (TrustPool.PubKey sender = "") then (403, r)
          else match b64_decode (TrustPool.PubKey sender) with
          | None => (403, r)
          | Some key =>
              if negb (bool_decide (length key = 32%nat)) then (403, r)
              else match b64_decode (Signature score) with
              | None => (403, r)
              | Some sig =>
                  if negb (bool_decide (length sig = 64%nat)) then (403, r)
                  else if negb (Verify key (score_payload score) sig) then (403, r)
                  else (200, AddPeerScore now score r)
              end
          end
      end
  end.
End handlers.
