(* ===== verification/ReputationSafety.v ===== *)
(** * What the reputation of a node rests on (reputation.go)

    Histories of the operations of [Reputation]: whose scores count, what it takes for a node to
    be up for removal, and how far a single score reaches. *)

From S2P Require Import Prelude GoTime Bytes Reputation.
From S2P Require TrustPool.

Lemma scores_save r : scores (save r) = scores r.
Proof. unfold save. by destruct (encodable r). Qed.
Lemma scores_set id rep r : scores (set_score id rep r) = <[id := rep]> (scores r).
Proof. unfold set_score. by rewrite scores_save. Qed.

Section reputation.
Context (Verify : bytes → string → bytes → bool).

Inductive rep_op :=
  | OCall (now : Time) (nodeID : string) (success : bool) (latencyMS : float64)
  | OAccuracy (now : Time) (nodeID : string) (accurate : bool)
  | OPost (now : Time) (post : bool) (score : option PeerScore) (pool : TrustPool.TrustPool)
  | OOurs (sign : string → string) (now : Time) (self target : string) (a l c : float64) (comment : string)
  | OCleanup (now : Time).

Definition rep_step (r : ReputationManager) (o : rep_op) : ReputationManager :=
  match o with
  | OCall now id ok lat => RecordCall now id ok lat r
  | OAccuracy now id ok => RecordAccuracy now id ok r
  | OPost now post score pool => (handlePostScore Verify now post score pool r).2
  | OOurs sign now self target a l c comment => SetOurScore sign now self target a l c comment r
  | OCleanup now => cleanup now r
  end.
Definition rep_run (h : list rep_op) : ReputationManager := foldl rep_step (initReputation None) h.

Lemma rep_run_snoc h o : rep_run (h ++ [o]) = rep_step (rep_run h) o.
Proof. unfold rep_run. by rewrite foldl_app. Qed.

(** ** Who scored *)

(** The key the trust pool has for the sender signed the score. *)
Definition attributed (pool : TrustPool.TrustPool) (p : PeerScore) : Prop :=
  ∃ sender key sig, find_key TrustPool.NodeID (FromNode p) (TrustPool.Nodes pool) = Some sender ∧
    b64_decode (TrustPool.PubKey sender) = Some key ∧ length key = 32%nat ∧
    b64_decode (Signature p) = Some sig ∧ length sig = 64%nat ∧ Verify key (score_payload p) sig = true.

Lemma post_accepts now post score pool r c r' :
  handlePostScore Verify now post score pool r = (c, r') →
  r' = r ∧ c ≠ 200 ∨ ∃ p, post = true ∧ score = Some p ∧ attributed pool p ∧ r' = AddPeerScore now p r ∧ c = 200.
Proof.
  unfold handlePostScore. destruct post; [|by intros [= <- <-]; left]. destruct score as [p|]; [|by intros [= <- <-]; left].
  cbn [negb]. destruct (_ || _)%bool; [by intros [= <- <-]; left|].
  destruct (find_key _ _ _) as [sender|] eqn:Ef; [|by intros [= <- <-]; left].
  destruct (bool_decide _); [by intros [= <- <-]; left|].
  destruct (b64_decode (TrustPool.PubKey sender)) as [key|] eqn:Ek; [|by intros [= <- <-]; left].
  destruct (bool_decide_reflect (length key = 32%nat)) as [Hk|]; [|by intros [= <- <-]; left].
  destruct (b64_decode (Signature p)) as [sig|] eqn:Es; [|by intros [= <- <-]; left].
  destruct (bool_decide_reflect (length sig = 64%nat)) as [Hs|]; [|by intros [= <- <-]; left]. cbn [negb].
  destruct (Verify key (score_payload p) sig) eqn:Ev; [|by intros [= <- <-]; left].
  intros [= <- <-]. right. exists p. split_and!; [done..| |done|done]. by exists sender, key, sig.
Qed.

Lemma put_score_elem p l x : x ∈ put_score p l → x = p ∨ x ∈ l.
Proof.
  induction l as [|q l IH]; cbn [put_score]; [set_solver|].
  destruct (bool_decide _); set_solver.
Qed.

Lemma put_score_from p l x : x ∈ FromNode <$> put_score p l → x = FromNode p ∨ x ∈ FromNode <$> l.
Proof.
  intros (y & -> & Hy)%list_elem_of_fmap. destruct (put_score_elem _ _ _ Hy) as [->|Hl]; [by left|right].
  by apply list_elem_of_fmap_2.
Qed.

Lemma put_score_nodup p l : NoDup (FromNode <$> l) → NoDup (FromNode <$> put_score p l).
Proof.
  induction l as [|q l IH]; cbn [put_score]; intros Hnd; [apply NoDup_singleton|].
  rewrite fmap_cons in Hnd. apply NoDup_cons in Hnd as [Hq Hl].
  case_bool_decide as E; rewrite fmap_cons; apply NoDup_cons.
  - split; [by rewrite <- E|done].
  - split; [|by apply IH]. intros [Hx|Hx]%put_score_from; [congruence|done].
Qed.

Lemma getOrCreate_peers now id r :
  PeerScores (getOrCreate now id r) = match scores r !! id with Some rep => PeerScores rep | None => [] end.
Proof. unfold getOrCreate. by destruct (scores r !! id). Qed.

(** The entry of a node after one operation. *)
Lemma step_scores h o id rep :
  scores (rep_run (h ++ [o])) !! id = Some rep →
  let old := scores (rep_run h) !! id in
  let peers := match old with Some rep => PeerScores rep | None => [] end in
  PeerScores rep = peers
  ∨ ∃ now p pool, o = OPost now true (Some p) pool ∧ attributed pool p ∧ TargetNode p = id ∧
      PeerScores rep = put_score p peers.
Proof.
  rewrite rep_run_snoc. set (r := rep_run h). cbv zeta. unfold rep_step.
  assert (∀ rep1 id1, PeerScores rep1 = (match scores r !! id1 with Some rep => PeerScores rep | None => [] end) →
    scores (set_score id1 rep1 r) !! id = Some rep →
    PeerScores rep = match scores r !! id with Some rep => PeerScores rep | None => [] end) as Hset.
  { intros rep1 id1 H1. rewrite scores_set, lookup_insert. case_decide as E; [intros [= <-]; by subst id1|]. by intros ->. }
  destruct o as [now i ok lat|now i ok|now post score pool|sign now self t a l c comment|now].
  - unfold RecordCall. intros Hs. left. eapply Hset; [|exact Hs]. apply getOrCreate_peers.
  - unfold RecordAccuracy. intros Hs. left. eapply Hset; [|exact Hs]. apply getOrCreate_peers.
  - destruct (handlePostScore Verify now post score pool r) as [c r'] eqn:E. cbn [snd].
    destruct (post_accepts _ _ _ _ _ _ _ E) as [[-> _]|(p & -> & -> & Ha & -> & _)]; [intros ->; by left|].
    unfold AddPeerScore. rewrite scores_set, lookup_insert. case_decide as Ei; [|intros ->; by left].
    intros [= <-]. right. exists now, p, pool. split_and!; [done..|]. cbn [regrade PeerScores].
    by rewrite getOrCreate_peers, Ei.
  - unfold SetOurScore. rewrite scores_save. cbn [scores]. intros ->. by left.
  - unfold cleanup. rewrite scores_save. cbn [scores]. rewrite lookup_fmap.
    intros (rep0 & -> & ->)%fmap_Some. by left.
Qed.

(** Every score that weighs on a node was posted for that node by a node of the trust pool and is
    signed with the key the pool then had for its sender; a sender has one score per node. *)
Theorem scores_are_attributed h id rep :
  scores (rep_run h) !! id = Some rep →
  NoDup (FromNode <$> PeerScores rep) ∧
  ∀ p, p ∈ PeerScores rep → TargetNode p = id ∧ ∃ now pool, OPost now true (Some p) pool ∈ h ∧ attributed pool p.
Proof.
  revert id rep. induction h as [|o h IH] using rev_ind; intros id rep Hs.
  { unfold rep_run, initReputation, load in Hs. cbn in Hs. by rewrite lookup_empty in Hs. }
  assert (let peers := match scores (rep_run h) !! id with Some rep => PeerScores rep | None => [] end in
    NoDup (FromNode <$> peers) ∧ ∀ p, p ∈ peers → TargetNode p = id ∧ ∃ now pool, OPost now true (Some p) pool ∈ h ++ [o] ∧
      attributed pool p) as [Hnd Hold].
  { cbv zeta. destruct (scores (rep_run h) !! id) as [rep0|] eqn:E0.
    - destruct (IH id rep0 E0) as [H1 H2]. split; [done|]. intros p Hp.
      destruct (H2 p Hp) as (Ht & now & pool & Hin & Ha). split; [done|]. exists now, pool.
      split; [apply elem_of_app; by left|done].
    - split; [apply NoDup_nil_2|]. by intros p ?%elem_of_nil. }
  destruct (step_scores h o id rep Hs) as [->|(now & p & pool & -> & Ha & Ht & ->)]; [done|].
  split; [by apply put_score_nodup|]. intros q [->|Hq]%put_score_elem; [|by apply Hold].
  split; [done|]. exists now, pool. split; [apply elem_of_app; right; left|done].
Qed.

(** ** Removal *)

Definition grade_at (h : list rep_op) (id : string) : option string := Grade <$> scores (rep_run h) !! id.

(** Every cleanup of [h] after [h0] graded the node D. *)
Definition cleanups_D (h0 h : list rep_op) (id : string) : Prop :=
  ∀ a t b, h = a ++ OCleanup t :: b → grade_at (h0 ++ a ++ [OCleanup t]) id = Some "D".

Lemma step_since h o id rep :
  scores (rep_run (h ++ [o])) !! id = Some rep → DGradeSince rep ≠ "" →
  (∃ t, o = OCleanup t ∧ Grade rep = "D" ∧
     (DGradeSince rep = fmt_rfc3339 UTC t ∨
      ∃ rep0, scores (rep_run h) !! id = Some rep0 ∧ DGradeSince rep = DGradeSince rep0)) ∨
  (∀ t, o ≠ OCleanup t) ∧ ∃ rep0, scores (rep_run h) !! id = Some rep0 ∧ DGradeSince rep = DGradeSince rep0.
Proof.
  rewrite rep_run_snoc. set (r := rep_run h). unfold rep_step. intros Hs Hd.
  assert (∀ now rep1 id1, DGradeSince rep1 = DGradeSince (getOrCreate now id1 r) →
    scores (set_score id1 rep1 r) !! id = Some rep →
    ∃ rep0, scores r !! id = Some rep0 ∧ DGradeSince rep = DGradeSince rep0) as Hset.
  { intros now rep1 id1 H1. rewrite scores_set, lookup_insert. case_decide as E; [|by eauto].
    intros [= <-]. subst id1. unfold getOrCreate in H1. destruct (scores r !! id) as [rep0|]; [by eauto|by destruct Hd]. }
  destruct o as [now i ok lat|now i ok|now post score pool|sign now self t a l c comment|now].
  - right. split; [done|]. unfold RecordCall in Hs. eapply (Hset now); [|exact Hs]. done.
  - right. split; [done|]. unfold RecordAccuracy in Hs. eapply (Hset now); [|exact Hs]. done.
  - right. split; [done|]. destruct (handlePostScore Verify now post score pool r) as [c r'] eqn:E. cbn [snd] in Hs.
    destruct (post_accepts _ _ _ _ _ _ _ E) as [[-> _]|(p & _ & _ & _ & -> & _)]; [by eauto|].
    unfold AddPeerScore in Hs. eapply (Hset now); [|exact Hs]. done.
  - right. split; [done|]. unfold SetOurScore in Hs. rewrite scores_save in Hs. cbn [scores] in Hs. by eauto.
  - left. exists now. split; [done|]. unfold cleanup in Hs. rewrite scores_save in Hs. cbn [scores] in Hs.
    rewrite lookup_fmap in Hs. apply fmap_Some in Hs as (rep0 & E0 & ->). unfold cleanup_one in *. cbv zeta in *.
    cbn [DGradeSince Grade] in *. case_bool_decide as Eg; [|done]. split; [done|].
    destruct (_ || _)%bool; [by left|right; by eauto].
Qed.

Lemma since_cleanup h id rep :
  scores (rep_run h) !! id = Some rep → DGradeSince rep ≠ "" →
  ∃ h1 t h2, h = h1 ++ OCleanup t :: h2 ∧ DGradeSince rep = fmt_rfc3339 UTC t ∧ cleanups_D h1 (OCleanup t :: h2) id.
Proof.
  revert rep. induction h as [|o h IH] using rev_ind; intros rep Hs Hd.
  { unfold rep_run, initReputation, load in Hs. cbn in Hs. by rewrite lookup_empty in Hs. }
  assert (∀ t, o = OCleanup t → Grade rep = "D" → grade_at (h ++ [OCleanup t]) id = Some "D") as Hnew.
  { intros t -> Hg. unfold grade_at. rewrite Hs. cbn. by rewrite Hg. }
  assert ((∀ t, o = OCleanup t → Grade rep = "D") →
    ∀ rep0, scores (rep_run h) !! id = Some rep0 → DGradeSince rep = DGradeSince rep0 →
    ∃ h1 t h2, h ++ [o] = h1 ++ OCleanup t :: h2 ∧ DGradeSince rep = fmt_rfc3339 UTC t ∧
      cleanups_D h1 (OCleanup t :: h2) id) as Hkeep.
  { intros Hg rep0 E0 Ed. destruct (IH rep0 E0) as (h1 & t & h2 & -> & Ht & Hall); [congruence|].
    exists h1, t, (h2 ++ [o]). split_and!; [by rewrite <- app_assoc|congruence|].
    intros a u b Hsplit. destruct b as [|x b _] using rev_ind.
    - rewrite app_comm_cons in Hsplit. apply app_inj_tail in Hsplit as [Ea ->].
      rewrite <- Ea, app_assoc. apply (Hnew u); [done|by apply (Hg u)].
    - rewrite app_comm_cons, (app_comm_cons b), app_assoc in Hsplit. apply app_inj_tail in Hsplit as [Ea ->].
      by apply (Hall a u b). }
  destruct (step_since h o id rep Hs Hd) as [(t & -> & Hg & [Ht|(rep0 & E0 & Ed)])|(Hn & rep0 & E0 & Ed)].
  - exists h, t, []. split_and!; [done..|]. intros a u b Hsplit.
    destruct a as [|x a]; [injection Hsplit as <- <-; by apply Hnew|].
    injection Hsplit as _ Hn. by destruct a.
  - apply (Hkeep (λ _ _, Hg) rep0 E0 Ed).
  - apply (Hkeep (λ t Ht, False_ind _ (Hn t Ht)) rep0 E0 Ed).
Qed.

Definition in_years (t : Time) : Prop :=
  days_from_civil 0 1 1 * 86400 ≤ t / second < days_from_civil 10000 1 1 * 86400.

(** ** Restarts

    The life of a node: its operations, each with whether its write to the disk succeeded, and
    restarts. Beside the state go the operations it rests on and those the file rests on. *)
Inductive life_op := LOp (o : rep_op) (written : bool) | LRestart.
Record rep_life := { l_rep : ReputationManager; l_kept : list rep_op; l_filed : list rep_op }.

(** A refused score changes and writes nothing. *)
Definition accepted (o : rep_op) (r : ReputationManager) : bool :=
  match o with
  | OPost now post score pool => (handlePostScore Verify now post score pool r).1 =? 200
  | _ => true
  end.

Definition keep_file (old r : ReputationManager) : ReputationManager :=
  {| scores := scores r; myScores := myScores r; rep_file := rep_file old |}.

Definition life_step (s : rep_life) (o : life_op) : rep_life :=
  match o with
  | LRestart => {| l_rep := initReputation (rep_file (l_rep s)); l_kept := l_filed s; l_filed := l_filed s |}
  | LOp o written =>
      if accepted o (l_rep s) then
        let r := rep_step (l_rep s) o in
        let kept := l_kept s ++ [o] in
        {| l_rep := if written then r else keep_file (l_rep s) r; l_kept := kept;
           l_filed := if written && encodable r then kept else l_filed s |}
      else s
  end.
Definition life_run (hs : list life_op) : rep_life :=
  foldl life_step {| l_rep := initReputation None; l_kept := []; l_filed := [] |} hs.

(** An accepted operation writes the whole state, when it can be encoded, and its effect on the
    scores depends on the scores only. *)
Lemma accepted_step o r r2 :
  accepted o r = true → scores r2 = scores r →
  scores (rep_step r o) = scores (rep_step r2 o) ∧ 
  rep_file (rep_step r o) =
    (if encodable (rep_step r o) then Some (scores (rep_step r o), myScores (rep_step r o)) else rep_file r).
Proof.
  intros Ha Hs.
  assert (∀ now id, getOrCreate now id r2 = getOrCreate now id r) as Hg by (intros; unfold getOrCreate; by rewrite Hs).
  assert (∀ r0, rep_file r0 = rep_file r →
    rep_file (save r0) = if encodable (save r0) then Some (scores (save r0), myScores (save r0)) else rep_file r) as Hf.
  { intros r0 E. unfold save. destruct (encodable r0) eqn:Ee; [|by rewrite Ee].
    change (encodable _) with (encodable r0). by rewrite Ee. }
  destruct o as [now i ok lat|now i ok|now post score pool|sign now self t a l c comment|now]; cbn [rep_step].
  - unfold RecordCall. cbv zeta. split; [by rewrite !scores_set, Hg, Hs|]. unfold set_score. by apply Hf.
  - unfold RecordAccuracy. cbv zeta. split; [by rewrite !scores_set, Hg, Hs|]. unfold set_score. by apply Hf.
  - cbn [accepted] in Ha.
    destruct (handlePostScore Verify now post score pool r) as [c r'] eqn:E. cbn [fst snd] in *.
    destruct (post_accepts _ _ _ _ _ _ _ E) as [[_ Hc]|(p & -> & -> & Hat & -> & ->)]; [by apply Z.eqb_eq in Ha|].
    assert ((handlePostScore Verify now true (Some p) pool r2).2 = AddPeerScore now p r2) as ->.
    { destruct (handlePostScore Verify now true (Some p) pool r2) as [c2 r2'] eqn:E2.
      destruct (post_accepts _ _ _ _ _ _ _ E2) as [[_ Hc]|(p' & _ & [= <-] & _ & -> & _)]; [|done].
      exfalso. revert E E2. clear -Hc. unfold handlePostScore.
      repeat case_match; intros; simplify_eq; try done. }
    unfold AddPeerScore. cbv zeta. split; [by rewrite !scores_set, Hg, Hs|]. unfold set_score. by apply Hf.
  - unfold SetOurScore. split; [by rewrite !scores_save|]. by apply Hf.
  - unfold cleanup. split; [rewrite !scores_save; cbn [scores]; by rewrite Hs|]. by apply Hf.
Qed.

(** The state and the file hold what their operations give. *)
Lemma life_rests hs :
  let s := life_run hs in
  scores (l_rep s) = scores (rep_run (l_kept s)) ∧
  match rep_file (l_rep s) with
  | Some (sc, _) => sc = scores (rep_run (l_filed s))
  | None => l_filed s = []
  end ∧
  (∀ o, o ∈ l_kept s ∨ o ∈ l_filed s → ∃ w, LOp o w ∈ hs).
Proof.
  induction hs as [|o hs IH] using rev_ind.
  { split_and!; [done..|]. by intros o [?%elem_of_nil|?%elem_of_nil]. }
  unfold life_run. rewrite foldl_app. cbn [foldl]. fold (life_run hs). set (s := life_run hs) in *.
  destruct IH as (H1 & H2 & H3).
  assert (∀ o', o' ∈ l_kept s ∨ o' ∈ l_filed s → ∃ w, LOp o' w ∈ hs ++ [o]) as H3'.
  { intros o' Ho. destruct (H3 o' Ho) as [w Hw]. exists w. apply elem_of_app. by left. }
  destruct o as [o w|]; cbn [life_step].
  - destruct (accepted o (l_rep s)) eqn:Ea; [|by split_and!]. cbv zeta. cbn [l_rep l_kept l_filed].
    destruct (accepted_step o (l_rep s) (rep_run (l_kept s)) Ea (eq_sym H1)) as [E1 E2].
    assert (∀ o', o' ∈ l_kept s ++ [o] → ∃ w0, LOp o' w0 ∈ hs ++ [LOp o w]) as Hnew.
    { intros o' [Ho|Ho]%elem_of_app; [apply H3'; by left|]. apply list_elem_of_singleton in Ho as ->.
      exists w. apply elem_of_app. right. left. }
    split_and!.
    + rewrite rep_run_snoc, <- E1. by destruct w.
    + destruct w; cbn [andb]; [|exact H2]. rewrite E2.
      destruct (encodable _); [by rewrite rep_run_snoc|exact H2].
    + intros o' [Ho|Ho]; [by apply Hnew|]. destruct (w && _)%bool; [by apply Hnew|apply H3'; by right].
  - split_and!; [| |intros o' [?|?]; apply H3'; by right].
    + unfold initReputation, load. cbn [rep_file]. destruct (rep_file (l_rep s)) as [[sc my]|]; [done|].
      by rewrite H2.
    + unfold initReputation, load. cbn [rep_file]. by destruct (rep_file (l_rep s)) as [[sc my]|].
Qed.

(** C39. A node is up for removal only when it is graded D now, a cleanup more than a week ago graded
    it D, and every later cleanup the state rests on did too, over any history of operations,
    writes that fail and restarts. The state rests on the accepted operations, except those
    that a restart lost: it falls back to the last state the file holds. A cleanup so lost
    may have graded the node better ([restart_forgets_a_grade]). *)
Theorem removal_takes_a_week hs now id :
  (∀ t w, LOp (OCleanup t) w ∈ hs → in_years t) →
  let s := life_run hs in
  ShouldRemoveNode now id (l_rep s) = true →
  Grade <$> scores (l_rep s) !! id = Some "D" ∧
  ∃ h1 t h2, l_kept s = h1 ++ OCleanup t :: h2 ∧ week < now - t / second * second ∧
    cleanups_D h1 (OCleanup t :: h2) id.
Proof.
  intros Hy s. destruct (life_rests hs) as (H1 & _ & H3). fold s in H1, H3. unfold ShouldRemoveNode. rewrite H1.
  destruct (scores (rep_run (l_kept s)) !! id) as [rep|] eqn:Es; [|done].
  case_bool_decide as Eg; [|done]. cbn [negb]. case_bool_decide as Ed; [done|]. intros Hp.
  split; [cbn; by rewrite Eg|]. destruct (since_cleanup (l_kept s) id rep Es Ed) as (h1 & t & h2 & E & Et & Hall).
  exists h1, t, h2. split_and!; [done| |done]. rewrite Et, parse_fmt_rfc3339 in Hp.
  - by apply Z.ltb_lt.
  - destruct (H3 (OCleanup t)) as [w Hw]; [left; rewrite E; apply elem_of_app; right; left|]. by eapply Hy.
Qed.
End reputation.

(** ** The file *)

(** An update that can be encoded survives a restart. *)
Lemma save_load r : encodable r = true → load (save r) = save r ∧ scores (initReputation (rep_file (save r))) = scores r.
Proof. intros E. unfold initReputation, load, save. by rewrite E. Qed.

Lemma unencodable_not_saved r : encodable r = false → rep_file (save r) = rep_file r.
Proof. intros E. unfold save. by rewrite E. Qed.

(** ** A concrete network *)

Module ReputationDemo.
Definition key32 : string := String.string_of_list_ascii (repeat "A"%char 43) +:+ "=".
Definition sig64 : string := String.string_of_list_ascii (repeat "A"%char 86) +:+ "==".
(** A signature of zeros is good under a key of zeros. *)
Definition verify (pub : bytes) (payload : string) (sig : bytes) : bool := bool_decide (head pub = head sig).
Definition member (id : string) : TrustPool.NodeInfo := {|
  TrustPool.NodeID := id; TrustPool.GitHubUser := ""; TrustPool.GitHubID := 0; TrustPool.Endpoint := "";
  TrustPool.PubKey := key32; TrustPool.SharedModels := []; TrustPool.SharedProviders := []; TrustPool.JoinedAt := "";
  TrustPool.LastSeen := ""; TrustPool.Status := "active"; TrustPool.SeedNode := false; TrustPool.Reputation := 0;
  TrustPool.ni_Version := ""; TrustPool.InviteBy := ""; TrustPool.TokenBudget := 0; TrustPool.TokenUsed := 0;
  TrustPool.Addresses := [] |}.
Definition pool : TrustPool.TrustPool := {|
  TrustPool.Version := 1; TrustPool.UpdatedAt := ""; TrustPool.Registry := "";
  TrustPool.Nodes := [member "a"; member "b"]; TrustPool.Tombstones := [] |}.
Definition score (from target : string) (availability : float64) : PeerScore := {|
  FromNode := from; TargetNode := target; ps_Availability := availability; ps_Latency := f_zero;
  ps_Accuracy := f_zero; Comment := ""; Timestamp := ""; Signature := sig64 |}.
Definition t0 : Time := 0.
Definition day_ : Z := 24 * hour.
(** A probe cycle in which the node did not answer. *)
Definition unreachable (id : string) : list rep_op := [OCall t0 id false f_zero; OAccuracy t0 id false].
Definition huge : float64 := SpecFloat.S754_finite false 9007199254740991 971.
Definition grade h : option string := grade_at verify h "n".
End ReputationDemo.
Import ReputationDemo.

(** A node that fails every probe for a hundred cycles is graded D, but one score of 100 keeps it at C:
    a probe that gets no answer counts as answered in no time. *)
Example dead_node_keeps_its_grade :
  grade (concat (replicate 100 (unreachable "n"))) = Some "D" ∧
  grade (OPost t0 true (Some (score "a" "n" pct)) pool :: concat (replicate 100 (unreachable "n"))) = Some "C".
Proof. vm_compute. done. Qed.

(** One score of a pool member gives any grade: the score is not limited to 100. *)
Example one_score_is_enough :
  grade (concat (replicate 100 (unreachable "n")) ++ [OPost t0 true (Some (score "a" "n" (float_of_int 700))) pool])
  = Some "S".
Proof. vm_compute. done. Qed.

(** Two scores of two members stop the file from being written. *)
Example two_scores_stop_the_file :
  let h := [OPost t0 true (Some (score "a" "n" huge)) pool; OPost t0 true (Some (score "b" "n" huge)) pool] in
  encodable (rep_run verify h) = false ∧
  rep_file (rep_run verify (h ++ [OCall t0 "m" true f_zero])) = rep_file (rep_run verify (take 1 h)).
Proof. vm_compute. done. Qed.

(** A node whose averages are full needs more than two failed cycles to reach D. *)
Example six_failures_to_D :
  let good := concat (replicate 60 [OCall t0 "n" true f_zero; OAccuracy t0 "n" true]) in
  grade (good ++ concat (replicate 2 (unreachable "n"))) = Some "C" ∧
  grade (good ++ concat (replicate 5 (unreachable "n"))) = Some "C" ∧
  grade (good ++ concat (replicate 6 (unreachable "n"))) = Some "D".
Proof. vm_compute. done. Qed.

Lemma scores_are_attributed_witness :
  let p := score "a" "n" pct in let h := [OPost t0 true (Some p) pool] in
  ∃ rep, scores (rep_run verify h) !! "n" = Some rep ∧ p ∈ PeerScores rep ∧
    ∃ now pool, OPost now true (Some p) pool ∈ h ∧ attributed verify pool p.
Proof.
  intros p h. destruct (scores (rep_run verify h) !! "n") as [rep|] eqn:E; [|vm_compute in E; discriminate E].
  exists rep. split; [done|].
  assert (p ∈ PeerScores rep) as Hp.
  { assert (PeerScores <$> scores (rep_run verify h) !! "n" = Some [p]) as Ep by (vm_compute; reflexivity).
    rewrite E in Ep. cbn in Ep. injection Ep as ->. left. }
  split; [done|]. apply (proj2 (scores_are_attributed verify h "n" rep E) p Hp).
Defined.

(** (A defect.) Two huge scores of another node stop the file; a cleanup then grades the node S in
    memory only, and after a restart its old D counts from where it began. *)
Example restart_forgets_a_grade :
  let fallen := flat_map (λ o, [LOp o true]) (concat (replicate 3 (unreachable "n")) ++ [OCleanup 0]) in
  let stopped := [LOp (OPost t0 true (Some (score "a" "m" huge)) pool) true;
                  LOp (OPost t0 true (Some (score "b" "m" huge)) pool) true] in
  let better := [LOp (OPost t0 true (Some (score "a" "n" (float_of_int 900))) pool) true;
                 LOp (OCleanup (day_ * 4)) true] in
  let at_ hs := life_run verify hs in
  Grade <$> scores (l_rep (at_ (fallen ++ stopped ++ better))) !! "n" = Some "S" ∧
  ShouldRemoveNode (day_ * 8) "n" (l_rep (at_ (fallen ++ stopped ++ better))) = false ∧
  ShouldRemoveNode (day_ * 8) "n" (l_rep (at_ (fallen ++ stopped ++ better ++ [LRestart]))) = true.
Proof. vm_compute. done. Qed.

Lemma removal_takes_a_week_witness :
  let h := concat (replicate 3 (unreachable "n")) ++ [OCleanup 0] in
  let hs := ((λ o, LOp o true) <$> h) ++ [LRestart] in
  ShouldRemoveNode (8 * 24 * hour) "n" (l_rep (life_run verify hs)) = true ∧
  ∃ h1 t h2, l_kept (life_run verify hs) = h1 ++ OCleanup t :: h2 ∧ week < 8 * 24 * hour - t / second * second.
Proof.
  intros h hs. assert (ShouldRemoveNode (8 * 24 * hour) "n" (l_rep (life_run verify hs)) = true) as E
    by (vm_compute; reflexivity).
  split; [exact E|].
  destruct (removal_takes_a_week verify hs (8 * 24 * hour) "n") as (_ & h1 & t & h2 & Hh & Ht & _).
  - intros t w Ht. assert (t = 0) as ->; [|split; vm_compute; congruence].
    clear E. unfold hs, h in Ht. cbn [concat replicate unreachable app fmap list_fmap] in Ht.
    repeat (apply elem_of_cons in Ht as [Ht|Ht]; [first [discriminate Ht|by injection Ht]|]).
    by apply elem_of_nil in Ht.
  - exact E.
  - exists h1, t, h2. split; [exact Hh|exact Ht].
Defined.
