(* ===== verification/PeerProbe.v ===== *)
(** * Probing the claims of other nodes (peer_capability_probe.go)

    [PeerCapabilityProber] asks the nodes of the trust pool for the models they say they serve, and
    feeds the answers into the reputation of [Reputation]. What the nodes answer, [url.Parse],
    [net.ParseIP] and the order in which the concurrent probes of a round end are arguments. *)

From S2P Require Import Prelude GoTime Bytes LanAnnounce NetIP Reputation.
From S2P Require TrustPool RouteTable Gateway.

Inductive probeOutcome := probeOutcomeSuccess | probeOutcomeFailure | probeOutcomeInconclusive.

#[export] Instance probe_outcome_eq_dec : EqDecision probeOutcome.
Proof. solve_decision. Defined.

Record capabilityProbeResult := { outcome : probeOutcome; listed : bool; latencyMS : float64 }.
Record capabilityProbeTarget := { t_nodeID : string; endpoint : string; models : list string }.

(** The times of the last probes and the failures in a row, by ["node|model"]. *)
Record PeerCapabilityProber := { lastProbe : gmap string Time; consecFail : gmap string Z }.

Definition newPeerCapabilityProber : PeerCapabilityProber := {| lastProbe := ∅; consecFail := ∅ |}.

Definition probe_key (nodeID model : string) : string := nodeID +:+ "|" +:+ model.

(** ** Configuration *)

Definition int_setting (s : string) (lo hi dflt : Z) : Z :=
  match parse_int64 s with Some n => if (lo <=? n) && (n <=? hi) then n else dflt | None => dflt end.
Definition capabilityProbeMaxModels (s : string) : Z := int_setting s 1 50 5.
Definition capabilityProbeMaxConcurrency (s : string) : Z := int_setting s 1 32 4.

(** [d] is what [time.ParseDuration] makes of the setting. *)
Definition capabilityProbeTickInterval (d : option Z) : Z :=
  match d with Some d => if 10 * second <=? d then d else minute | None => minute end.

Definition capabilityProbeGateOpen (setting : string) (network federation reputation : bool) : bool :=
  bool_decide (setting = "true") && network && federation && reputation.

(** ** Targets *)

Fixpoint trim_all (c : ascii) (s : string) : string :=
  match s with
  | EmptyString => ""
  | String x s' => match trim_all c s' with
                   | EmptyString => if Ascii.eqb x c then "" else String x ""
                   | r => String x r
                   end
  end.

Definition add_model (maxModels : nat) (l : list string) (m : string) : list string :=
  let m := trimSpace m in
  if bool_decide (m = "") || bool_decide (m ∈ l) || (maxModels <=? length l)%nat then l else l ++ [m].

Definition claimed_models (maxModels : nat) (n : TrustPool.NodeInfo) : list string :=
  let l := foldl (add_model maxModels) [] (TrustPool.SharedModels n) in
  foldl (λ l sp, foldl (add_model maxModels) l (TrustPool.sp_Models sp)) l (TrustPool.SharedProviders n).

Section targets.
(** Scheme and host name of a URL, [None] for an error; [net.ParseIP]. *)
Context (url_parse : string → option (string * string)) (ParseIP : string → option bytes).

Definition isProbeLoopbackTarget (host : string) : bool :=
  if bool_decide (to_lower (trimSpace host) = "localhost") then true
  else match ParseIP (trimSpace host) with Some ip => IsLoopback ip | None => false end.

Definition probe_base (n : TrustPool.NodeInfo) : string :=
  let base := Gateway.pickBestAddress (TrustPool.Addresses n) in
  let base := if bool_decide (base = "") then TrustPool.Endpoint n else base in
  let base := trim_all "/" (trimSpace base) in
  if bool_decide (base = "") then ""
  else if has_prefix "http://" base || has_prefix "https://" base then base else "https://" +:+ base.

Definition probe_target (maxModels : nat) (selfID : string) (n : TrustPool.NodeInfo) : option capabilityProbeTarget :=
  if bool_decide (TrustPool.NodeID n = "") || bool_decide (TrustPool.NodeID n = selfID) then None
  else if bool_decide (TrustPool.Status n = "inactive") || bool_decide (TrustPool.Status n = "suspended") then None
  else
    let base := probe_base n in
    if bool_decide (base = "") then None
    else match url_parse base with
    | None => None
    | Some (scheme, host) =>
        if bool_decide (host = "") then None
        else if negb (bool_decide (scheme = "https")) && negb (isProbeLoopbackTarget host) then None
        else match claimed_models maxModels n with
        | [] => None
        | ms => Some {| t_nodeID := TrustPool.NodeID n; endpoint := base; models := ms |}
        end
    end.

Definition targetsFromTrustPool (maxModels : nat) (selfID : string) (pool : TrustPool.TrustPool) : list capabilityProbeTarget :=
  omap (probe_target maxModels selfID) (TrustPool.Nodes pool).
End targets.

(** ** One probe *)

(** What came back: nothing, or a status and, for the list of models, the ids read from it. *)
Record probe_answers := {
  models_answer : option (Z * option (list string)); token_answer : option Z; token_latency : float64 }.

(** [None] for a node that cannot be reached; whether the model is listed and whether to go on. *)
Definition checkModelsListed (a : probe_answers) (model : string) : option (bool * bool) :=
  match models_answer a with
  | None => None
  | Some (status, ids) =>
      if status =? 200
      then match ids with
           | Some ids => Some (bool_decide (model ∈ ids), true)
           | None => Some (false, true)
           end
      else if (status =? 401) || (status =? 403) then Some (false, false)
      else Some (false, true)
  end.

Definition probeTokenCompletion (a : probe_answers) : capabilityProbeResult :=
  let r o := {| outcome := o; listed := false; latencyMS := token_latency a |} in
  match token_answer a with
  | None => r probeOutcomeFailure
  | Some s =>
      if s =? 200 then r probeOutcomeSuccess
      else if s =? 429 then r probeOutcomeInconclusive
      else if (s =? 401) || (s =? 403) then r probeOutcomeInconclusive
      else r probeOutcomeFailure
  end.

Definition probeClaim (a : probe_answers) (model : string) : capabilityProbeResult :=
  match checkModelsListed a model with
  | None => {| outcome := probeOutcomeFailure; listed := false; latencyMS := f_zero |}
  | Some (l, proceed) =>
      if negb proceed then {| outcome := probeOutcomeInconclusive; listed := false; latencyMS := f_zero |}
      else let r := probeTokenCompletion a in {| outcome := outcome r; listed := l; latencyMS := latencyMS r |}
  end.

(** ** The verdict on a node *)

Definition count_failure (nodeID : string) (m : gmap string Z) (o : string * capabilityProbeResult) : gmap string Z :=
  let key := probe_key nodeID o.1 in
  if bool_decide (outcome o.2 = probeOutcomeFailure) then zincr key 1 m else delete key m.

Definition any_outcome (o : probeOutcome) (outcomes : list (string * capabilityProbeResult)) : bool :=
  existsb (λ x, bool_decide (outcome x.2 = o)) outcomes.

Definition recordNodeVerdict (now : Time) (nodeID : string) (outcomes : list (string * capabilityProbeResult))
    (s : PeerCapabilityProber * ReputationManager) : PeerCapabilityProber * ReputationManager :=
  let '(p, r) := s in
  match outcomes with
  | [] => s
  | _ =>
      let avg := fdiv (foldl (λ t o, fadd t (latencyMS o.2)) f_zero outcomes)
                      (float_of_int (Z.of_nat (length outcomes))) in
      let p := {| lastProbe := lastProbe p; consecFail := foldl (count_failure nodeID) (consecFail p) outcomes |} in
      if any_outcome probeOutcomeFailure outcomes
      then (p, RecordAccuracy now nodeID false (RecordCall now nodeID false avg r))
      else if any_outcome probeOutcomeSuccess outcomes
      then (p, RecordAccuracy now nodeID true (RecordCall now nodeID true avg r))
      else (p, r)
  end.

(** ** A round *)

Record job := { j_node : string; j_endpoint : string; j_model : string }.
Definition job_key (j : job) : string := probe_key (j_node j) (j_model j).

Definition probeSchedule (now : Time) (nodeID : string) (r : ReputationManager) (routes : option RouteTable.RouteTable) : Z :=
  let by_route :=
    match routes with
    | None => 30 * minute
    | Some rt =>
        match RouteTable.Get now nodeID rt with
        | Some e => if now - RouteTable.r_LastSeen e <? 10 * minute then 5 * minute else 30 * minute
        | None => 30 * minute
        end
    end in
  match GetReputation nodeID r with
  | None => by_route
  | Some rep =>
      if fltb (OverallScore rep) (float_of_int 30) then minute
      else if fltb (float_of_int 80) (OverallScore rep) then 2 * hour
      else by_route
  end.

Definition target_jobs (t : capabilityProbeTarget) : list job :=
  (λ m, {| j_node := t_nodeID t; j_endpoint := endpoint t; j_model := m |}) <$> models t.
Definition all_jobs (ts : list capabilityProbeTarget) : list job := ts ≫= target_jobs.

(** The models whose last probe is long enough ago; [interval] is [probeSchedule] of the node. *)
Definition due (now : Time) (interval : string → Z) (p : PeerCapabilityProber) (j : job) : bool :=
  match lastProbe p !! job_key j with Some last => negb (now - last <? interval (j_node j)) | None => true end.
Definition due_jobs (now : Time) (interval : string → Z) (ts : list capabilityProbeTarget) (p : PeerCapabilityProber)
    : list job := filter (λ j, due now interval p j = true) (all_jobs ts).

(** What is no longer claimed is forgotten. *)
Definition prune (ts : list capabilityProbeTarget) (p : PeerCapabilityProber) : PeerCapabilityProber :=
  let valid := job_key <$> all_jobs ts in {|
  lastProbe := filter (λ kv, kv.1 ∈ valid) (lastProbe p);
  consecFail := filter (λ kv, ¬ (is_Some (lastProbe p !! kv.1) ∧ kv.1 ∉ valid)) (consecFail p) |}.

Definition note_probed (p : PeerCapabilityProber) (d : job * Time) : PeerCapabilityProber :=
  {| lastProbe := <[job_key d.1 := d.2]> (lastProbe p); consecFail := consecFail p |}.

Section round.
(** What a node answers, and the probes in the order in which they end, with the times. *)
Context (answers : job → probe_answers) (ending : list job → list (job * Time)).

Definition outcomes_of (nodeID : string) (l : list job) : list (string * capabilityProbeResult) :=
  (λ j, (j_model j, probeClaim (answers j) (j_model j))) <$> filter (λ j, j_node j = nodeID) l.

Definition runDueProbes (now : Time) (routes : option RouteTable.RouteTable) (ts : list capabilityProbeTarget)
    (s : PeerCapabilityProber * ReputationManager) : nat * (PeerCapabilityProber * ReputationManager) :=
  let '(p, r) := s in
  match ts with
  | [] => (0%nat, s)
  | _ =>
      let jobs := due_jobs now (λ id, probeSchedule now id r routes) ts p in
      let p := prune ts p in
      let done := ending jobs in
      let p := foldl note_probed p done in
      (length jobs,
       foldl (λ s id, recordNodeVerdict now id (outcomes_of id done.*1) s) (p, r) (remove_dups (j_node <$> done.*1)))
  end.

Definition seedLastProbe (now : Time) (ts : list capabilityProbeTarget) (p : PeerCapabilityProber) : PeerCapabilityProber :=
  {| lastProbe := foldl (λ m j, match m !! job_key j with Some _ => m | None => <[job_key j := now]> m end)
                    (lastProbe p) (all_jobs ts);
     consecFail := consecFail p |}.

(** One tick of the loop: whether it has seeded, and the two states. *)
Definition probe_tick (now : Time) (gate : bool) (routes : option RouteTable.RouteTable) (ts : list capabilityProbeTarget)
    (s : bool * (PeerCapabilityProber * ReputationManager)) : bool * (PeerCapabilityProber * ReputationManager) :=
  let '(seeded, (p, r)) := s in
  if negb gate then s
  else if negb seeded then (true, (seedLastProbe now ts p, r))
  else
    let '(n, (p, r)) := runDueProbes now routes ts (p, r) in
    (true, (p, if (0 <? n)%nat then cleanup now r else r)).
End round.

(** ** What is probed *)

Lemma add_model_ok k l m : NoDup l → (length l ≤ k)%nat → NoDup (add_model k l m) ∧ (length (add_model k l m) ≤ k)%nat.
Proof.
  intros Hnd Hl. unfold add_model. destruct (bool_decide (trimSpace m = "")); [done|].
  destruct (bool_decide_reflect (trimSpace m ∈ l)) as [|Hm]; [done|].
  destruct (Nat.leb_spec k (length l)); [done|]. cbn [orb].
  split; [|rewrite length_app; cbn; lia]. apply NoDup_app. split_and!; [done| |apply NoDup_singleton].
  by intros x Hx ->%list_elem_of_singleton.
Qed.

Lemma add_models_ok k ms l : NoDup l → (length l ≤ k)%nat →
  NoDup (foldl (add_model k) l ms) ∧ (length (foldl (add_model k) l ms) ≤ k)%nat.
Proof.
  induction ms as [|m ms IH] in l |- *; intros Hnd Hl; [done|]. cbn [foldl].
  destruct (add_model_ok k l m Hnd Hl). by apply IH.
Qed.

Lemma claimed_ok k n : NoDup (claimed_models k n) ∧ (length (claimed_models k n) ≤ k)%nat.
Proof.
  unfold claimed_models.
  assert (NoDup (foldl (add_model k) [] (TrustPool.SharedModels n)) ∧
    (length (foldl (add_model k) [] (TrustPool.SharedModels n)) ≤ k)%nat) as [H1 H2]
    by (apply add_models_ok; [apply NoDup_nil_2|cbn; lia]).
  revert H1 H2. generalize (foldl (add_model k) [] (TrustPool.SharedModels n)).
  induction (TrustPool.SharedProviders n) as [|sp l IH]; intros ms H1 H2; [done|]. cbn [foldl].
  destruct (add_models_ok k (TrustPool.sp_Models sp) ms H1 H2). by apply IH.
Qed.

(** A probe never goes to this node, to an inactive or suspended one, or in the clear to another
    host; a node is asked for at most as many models as the setting allows, none of them twice. *)
Theorem targets_are_safe url_parse ParseIP k self pool t :
  t ∈ targetsFromTrustPool url_parse ParseIP k self pool →
  ∃ n, n ∈ TrustPool.Nodes pool ∧ TrustPool.NodeID n = t_nodeID t ∧ t_nodeID t ≠ self ∧
    TrustPool.Status n ≠ "inactive" ∧ TrustPool.Status n ≠ "suspended" ∧
    NoDup (models t) ∧ (1 ≤ length (models t) ≤ k)%nat ∧
    ∃ scheme host, url_parse (endpoint t) = Some (scheme, host) ∧ host ≠ "" ∧
      (scheme = "https" ∨ isProbeLoopbackTarget ParseIP host = true).
Proof.
  intros (n & Hn & Ht)%list_elem_of_omap. exists n. revert Ht. unfold probe_target.
  destruct (bool_decide (TrustPool.NodeID n = "")); [done|].
  destruct (bool_decide_reflect (TrustPool.NodeID n = self)) as [|Hs]; [done|]. cbn [orb].
  destruct (bool_decide_reflect (TrustPool.Status n = "inactive")) as [|H1]; [done|].
  destruct (bool_decide_reflect (TrustPool.Status n = "suspended")) as [|H2]; [done|]. cbn [orb]. cbv zeta.
  destruct (bool_decide (probe_base n = "")); [done|].
  destruct (url_parse (probe_base n)) as [[scheme host]|] eqn:Eu; [|done].
  destruct (bool_decide_reflect (host = "")) as [|Hh]; [done|].
  destruct (negb (bool_decide (scheme = "https")) && negb (isProbeLoopbackTarget ParseIP host)) eqn:Ep; [done|].
  destruct (claimed_ok k n) as [Hnd Hl]. destruct (claimed_models k n) as [|m ms]; [done|]. intros [= <-].
  cbn [t_nodeID models endpoint]. split_and!; [done..|cbn; lia|done|].
  exists scheme, host. split_and!; [done..|]. apply andb_false_iff in Ep as [E%negb_false_iff|E%negb_false_iff]; [left|by right].
  by apply bool_decide_eq_true in E.
Qed.

(** ** Ambiguous answers *)

Lemma verdict_others now nodeID outcomes p r id : id ≠ nodeID →
  scores (recordNodeVerdict now nodeID outcomes (p, r)).2 !! id = scores r !! id.
Proof.
  intros Hne. unfold recordNodeVerdict. destruct outcomes as [|o l]; [done|]. cbv zeta.
  set (avg := fdiv _ _).
  assert (∀ ok lat ok' r0, scores (RecordAccuracy now nodeID ok' (RecordCall now nodeID ok lat r0)) !! id = scores r0 !! id) as Hs.
  { intros ok lat ok' r0. unfold RecordAccuracy, RecordCall, set_score, save.
    repeat (destruct (encodable _)); cbn [scores]; rewrite !lookup_insert_ne by done; done. }
  destruct (any_outcome _ _); [apply Hs|]. destruct (any_outcome _ _); [apply Hs|done].
Qed.

Lemma verdict_ambiguous now nodeID outcomes s :
  (∀ x, x ∈ outcomes → outcome x.2 = probeOutcomeInconclusive) →
  (recordNodeVerdict now nodeID outcomes s).2 = s.2.
Proof.
  intros Ha. unfold recordNodeVerdict. destruct s as [p r]. destruct outcomes as [|o l]; [done|]. cbv zeta.
  assert (∀ v, v ≠ probeOutcomeInconclusive → any_outcome v (o :: l) = false) as Hn.
  { intros v Hv. unfold any_outcome. apply not_true_iff_false. intros (x & Hx%list_elem_of_In & E%bool_decide_eq_true)%existsb_exists.
    by rewrite (Ha x Hx) in E. }
  by rewrite !Hn.
Qed.

(** An answer that proves nothing: access refused or too many requests. *)
Definition ambiguous (a : probe_answers) : Prop :=
  (∃ s ids, models_answer a = Some (s, ids) ∧ (s = 401 ∨ s = 403)) ∨
  (is_Some (models_answer a) ∧ (token_answer a = Some 401 ∨ token_answer a = Some 403 ∨ token_answer a = Some 429)).

Lemma ambiguous_claim a m : ambiguous a → outcome (probeClaim a m) = probeOutcomeInconclusive.
Proof.
  unfold ambiguous, probeClaim, checkModelsListed, probeTokenCompletion.
  intros [(s & ids & -> & [-> | ->])|[[[s ids] ->] Ht]]; [done..|].
  assert (∀ l, outcome (if negb true then {| outcome := probeOutcomeInconclusive; listed := false; latencyMS := f_zero |}
    else let r := probeTokenCompletion a in {| outcome := outcome r; listed := l; latencyMS := latencyMS r |})
    = probeOutcomeInconclusive) as Hl.
  { intros l. cbn. unfold probeTokenCompletion. by destruct Ht as [-> |[-> | ->]]. }
  destruct (s =? 200); [destruct ids; apply Hl|]. destruct ((s =? 401) || (s =? 403)); [done|apply Hl].
Qed.

(** The reputation of a node is not touched by a round in which it gave only ambiguous answers, or in
    which it was not asked. *)
Theorem ambiguous_never_punished answers ending now routes ts p r id :
  (∀ l j t, (j, t) ∈ ending l → j ∈ l) →
  (∀ j, j ∈ all_jobs ts → j_node j = id → ambiguous (answers j)) →
  scores (runDueProbes answers ending now routes ts (p, r)).2.2 !! id = scores r !! id.
Proof.
  intros He Ha. unfold runDueProbes. destruct ts as [|t0 ts0]; [done|]. set (ts := t0 :: ts0) in *. cbv zeta. cbn [snd].
  set (jobs := due_jobs now _ ts p). set (dn := ending jobs).
  assert (∀ j, j ∈ dn.*1 → j ∈ all_jobs ts) as Hd.
  { intros j ([j' u] & -> & Hj)%list_elem_of_fmap. apply He in Hj. by apply list_elem_of_filter in Hj as [_ Hj]. }
  generalize (foldl note_probed (prune ts p) dn). intros p1.
  enough (∀ ids s, scores (foldl (λ s id, recordNodeVerdict now id (outcomes_of answers id dn.*1) s) s ids).2 !! id
          = scores s.2 !! id) as Hf by (by rewrite Hf).
  induction ids as [|i ids IH]; intros s; [done|]. cbn [foldl]. rewrite IH. destruct s as [p2 r2].
  destruct (decide (i = id)) as [->|Hne]; [|by apply verdict_others].
  rewrite verdict_ambiguous; [done|]. intros x (j & -> & Hj)%list_elem_of_fmap. cbn [snd].
  apply list_elem_of_filter in Hj as [Hj1 Hj2]. apply ambiguous_claim. apply Ha; [by apply Hd|done].
Qed.

(** ** Spacing *)

Lemma verdict_lastProbe now id outcomes s : lastProbe (recordNodeVerdict now id outcomes s).1 = lastProbe s.1.
Proof.
  unfold recordNodeVerdict. destruct s as [p r]. destruct outcomes; [done|]. cbv zeta.
  destruct (any_outcome _ _); [done|]. by destruct (any_outcome _ _).
Qed.
Lemma verdicts_lastProbe now f ids s :
  lastProbe (foldl (λ s id, recordNodeVerdict now id (f id) s) s ids).1 = lastProbe s.1.
Proof. induction ids as [|i ids IH] in s |- *; [done|]. cbn [foldl]. rewrite IH. apply verdict_lastProbe. Qed.

Lemma note_probed_other k l p : k ∉ job_key <$> l.*1 → lastProbe (foldl note_probed p l) !! k = lastProbe p !! k.
Proof.
  induction l as [|d l IH] in p |- *; intros Hk; [done|]. cbn [foldl]. rewrite !fmap_cons, not_elem_of_cons in Hk.
  destruct Hk as [Hk1 Hk2]. rewrite IH by done. cbn [note_probed lastProbe]. by rewrite lookup_insert_ne.
Qed.

Lemma note_probed_in k l p : k ∈ job_key <$> l.*1 →
  ∃ d, d ∈ l ∧ job_key d.1 = k ∧ lastProbe (foldl note_probed p l) !! k = Some d.2.
Proof.
  induction l as [|d l IH] in p |- *; [by intros ?%elem_of_nil|]. cbn [foldl]. rewrite !fmap_cons, elem_of_cons.
  destruct (decide (k ∈ job_key <$> l.*1)) as [Hin|Hn].
  - intros _. destruct (IH (note_probed p d) Hin) as (d' & H1 & H2 & H3). exists d'. split_and!; [by right|done|done].
  - intros [->|]; [|done]. exists d. split_and!; [by left|done|]. rewrite note_probed_other by done.
    cbn [note_probed lastProbe]. by rewrite lookup_insert_eq.
Qed.

Section spacing.
Context (answers : job → probe_answers) (ending : list job → list (job * Time)).
Hypothesis ending_perm : ∀ l, (ending l).*1 ≡ₚ l.

(** A round: its time, the routes and the targets at that time. *)
Definition round : Type := Time * option RouteTable.RouteTable * list capabilityProbeTarget.
Definition run_round (s : PeerCapabilityProber * ReputationManager) (x : round) : PeerCapabilityProber * ReputationManager :=
  (runDueProbes answers ending x.1.1 x.1.2 x.2 s).2.
(** The claims probed in a round. *)
Definition probed (s : PeerCapabilityProber * ReputationManager) (x : round) : list string :=
  job_key <$> due_jobs x.1.1 (λ id, probeSchedule x.1.1 id s.2 x.1.2) x.2 s.1.
Definition claims (x : round) : list string := job_key <$> all_jobs x.2.

Lemma round_keeps s x k :
  k ∈ claims x → k ∉ probed s x → lastProbe (run_round s x).1 !! k = lastProbe s.1 !! k.
Proof.
  destruct s as [p r], x as [[now routes] ts]. unfold claims, probed, run_round. cbn [fst snd]. intros Hk Hn.
  unfold runDueProbes. destruct ts as [|t0 ts0]; [done|]. cbv zeta. cbn [snd]. rewrite verdicts_lastProbe. cbn [fst].
  rewrite note_probed_other by (by rewrite ending_perm). cbn [prune lastProbe].
  apply option_eq. intros t. rewrite map_lookup_filter_Some. cbn [fst]. naive_solver.
Qed.

Lemma round_notes s x k : k ∈ probed s x →
  ∃ d, d ∈ ending (due_jobs x.1.1 (λ id, probeSchedule x.1.1 id s.2 x.1.2) x.2 s.1) ∧
    job_key d.1 = k ∧ lastProbe (run_round s x).1 !! k = Some d.2.
Proof.
  destruct s as [p r], x as [[now routes] ts]. unfold probed, run_round. cbn [fst snd]. intros Hk.
  unfold runDueProbes. destruct ts as [|t0 ts0]; [by apply elem_of_nil in Hk|]. cbv zeta. cbn [snd].
  rewrite verdicts_lastProbe. cbn [fst]. apply note_probed_in. by rewrite ending_perm.
Qed.

Lemma rounds_keep h s k :
  (∀ a x b, h = a ++ x :: b → k ∈ claims x ∧ k ∉ probed (foldl run_round s a) x) →
  lastProbe (foldl run_round s h).1 !! k = lastProbe s.1 !! k.
Proof.
  induction h as [|x h IH] using rev_ind; intros Hh; [done|]. rewrite foldl_app. cbn [foldl].
  destruct (Hh h x [] eq_refl) as [H1 H2]. rewrite round_keeps by done. apply IH.
  intros a y b ->. apply (Hh a y (b ++ [x])). by rewrite <- app_assoc.
Qed.

(** A claim probed in one round, and claimed but not probed in the rounds after, is not probed
    again before the interval of its node has passed since that probe ended. *)
Theorem probes_are_spaced s x h y k :
  k ∈ probed s x →
  let s1 := run_round s x in let s2 := foldl run_round s1 h in
  (∀ a z b, h = a ++ z :: b → k ∈ claims z ∧ k ∉ probed (foldl run_round s1 a) z) →
  k ∈ probed s2 y →
  ∃ j d, j ∈ all_jobs y.2 ∧ job_key j = k ∧ job_key d.1 = k ∧
    d ∈ ending (due_jobs x.1.1 (λ id, probeSchedule x.1.1 id s.2 x.1.2) x.2 s.1) ∧
    probeSchedule y.1.1 (j_node j) s2.2 y.1.2 ≤ y.1.1 - d.2.
Proof.
  intros Hk s1 s2 Hh Hy. destruct (round_notes s x k Hk) as (d & Hd & Ed & Hl). fold s1 in Hl.
  rewrite <- (rounds_keep h s1 k Hh) in Hl. fold s2 in Hl.
  apply list_elem_of_fmap in Hy as (j & -> & Hj). apply list_elem_of_filter in Hj as [Hdue Hj].
  exists j, d. split_and!; [done..|]. unfold due in Hdue. rewrite Hl in Hdue. apply negb_true_iff in Hdue.
  apply Z.ltb_ge in Hdue. done.
Qed.
End spacing.
