(* ===== verification/Gossip.v ===== *)
(** * Gossip between nodes (gossip.go, federation.go)

    A node exchanges signed summaries with three peers per round, learns addresses from them and
    fetches newer pools; it announces the providers it shares and forgets those a peer no longer
    shares. Which requests of other nodes are heard at all is [withFederationAuth]. JSON, signatures, the
    network and random draws are arguments; saving files is outside the model. *)

From S2P Require Import Prelude GoTime Bytes Sha256 TrustPool.
From S2P Require Ledger ContribQuota Providers Network Reputation.

(** ** Data *)

Record PeerHint := { h_NodeID : string; h_Addresses : list string; h_DHTAddr : string }.

Record GossipMessage := {
  m_Type : string; m_FromNode : string; TrustPoolVersion : Z; ScoreDigest : string; m_Timestamp : string;
  m_Signature : string; m_Payload : string; KnownPeers : list PeerHint; m_DHTAddr : string }.

Record ProviderAnnouncement := {
  an_NodeID : string; an_ProviderID : string; an_Platform : string; an_Models : list string; an_Capacity : Z;
  an_Timestamp : string; an_Signature : string }.

(** [ps_ProviderIDs] is [None] for nil. *)
Record ProviderSyncMessage := {
  ps_NodeID : string; ps_ProviderIDs : option (list string); ps_Timestamp : string; ps_Signature : string }.

(** What gossip teaches the federation manager beside the nodes. *)
Record Hints := {
  discoveryHints : gmap string (list string); dhtHints : gmap string string; dhtVerified : gmap string string }.

(** The node as gossip sees it; [seen] is [None] before [initGossip]. *)
Record GossipNode := {
  self : string; fed : FederationManager; hints : Hints; seen : option (gmap string Time);
  ledger : option Ledger.GossipLedger; reputations : option Reputation.ReputationManager;
  manual_peers : option (list Network.PeerInfo) }.

Definition set_fed (n : GossipNode) (f : FederationManager) : GossipNode := {|
  self := self n; fed := f; hints := hints n; seen := seen n; ledger := ledger n; reputations := reputations n;
  manual_peers := manual_peers n |}.
Definition set_hints (n : GossipNode) (h : Hints) : GossipNode := {|
  self := self n; fed := fed n; hints := h; seen := seen n; ledger := ledger n; reputations := reputations n;
  manual_peers := manual_peers n |}.
Definition set_seen (n : GossipNode) (s : option (gmap string Time)) : GossipNode := {|
  self := self n; fed := fed n; hints := hints n; seen := s; ledger := ledger n; reputations := reputations n;
  manual_peers := manual_peers n |}.
Definition set_ledger (n : GossipNode) (l : option Ledger.GossipLedger) : GossipNode := {|
  self := self n; fed := fed n; hints := hints n; seen := seen n; ledger := l; reputations := reputations n;
  manual_peers := manual_peers n |}.

Definition with_providers (l : list SharedProvider) (s : string) (n : NodeInfo) : NodeInfo := {|
  NodeID := NodeID n; GitHubUser := GitHubUser n; GitHubID := GitHubID n; Endpoint := Endpoint n;
  PubKey := PubKey n; SharedModels := SharedModels n; SharedProviders := l;
  JoinedAt := JoinedAt n; LastSeen := s; Status := Status n; SeedNode := SeedNode n;
  Reputation := TrustPool.Reputation n; ni_Version := ni_Version n; InviteBy := InviteBy n;
  TokenBudget := TokenBudget n; TokenUsed := TokenUsed n; Addresses := Addresses n |}.
Definition seen_at (now : Time) (n : NodeInfo) : NodeInfo := with_status (Status n) (fmt_rfc3339 UTC now) n.

(** A node of which only the id, the key and addresses are known. *)
Definition bare_node (p : Network.PeerInfo) (endpoint lastSeen : string) : NodeInfo := {|
  NodeID := Network.pi_NodeID p; GitHubUser := ""; GitHubID := 0; Endpoint := endpoint; PubKey := Network.pi_PubKey p;
  SharedModels := []; SharedProviders := []; JoinedAt := ""; LastSeen := lastSeen; Status := "active";
  SeedNode := false; Reputation := 0; ni_Version := ""; InviteBy := ""; TokenBudget := 0; TokenUsed := 0;
  Addresses := Network.pi_Addresses p |}.

(** ** Who is heard (withFederationAuth) *)

Record fed_request := {
  q_method : string; q_path : string; q_body : string; q_NodeID : string; q_Signature : string; q_Timestamp : string;
  q_secret : string; q_seed_token : string; q_header : string; q_cookie : option string }.

Definition maxFederationSigBody : nat := Z.to_nat (2 ^ 20).

Section federation_auth.
(** [VerifySignature] of a key, a text and a signature; [VerifyToken] of an administrator's token. *)
Context (VerifySignature : string → string → string → bool) (VerifyToken : string → bool).

Definition sig_payload (nodeID method path : string) (body : option string) : string :=
  nodeID +:+ ":" +:+ method +:+ ":" +:+ path +:+ match body with Some b => ":" +:+ sha256_hex b | None => "" end.

(** Beside the answer, the body left for the handler. *)
Definition federationSigValid (r : fed_request) (pubKey nodeID sig : string) : bool * string :=
  let body := String.substring 0 maxFederationSigBody (q_body r) in
  (VerifySignature pubKey (sig_payload nodeID (q_method r) (q_path r) (Some body)) sig
   || VerifySignature pubKey (sig_payload nodeID (q_method r) (q_path r) None) sig, body).

Definition isTrustedSeed (secret : string) (r : fed_request) : bool :=
  if bool_decide (q_seed_token r = "") then false
  else if bool_decide (secret = "") then false
  else bool_decide (q_seed_token r = secret).

Definition has_suffix (s suffix : string) : bool :=
  (String.length suffix <=? String.length s)%nat
  && bool_decide (String.substring (String.length s - String.length suffix) (String.length suffix) s = suffix).

(** The way by the key of a node: the result of the signature check, when it is reached. *)
Definition signed_by_node (now : Time) (f : FederationManager) (r : fed_request) : option (bool * string) :=
  let nodeID := ContribQuota.sanitizeNodeID (q_NodeID r) in
  if bool_decide (nodeID = "") then None
  else match GetNode nodeID f with
  | None => None
  | Some n =>
      if bool_decide (PubKey n = "") || bool_decide (q_Signature r = "") || bool_decide (q_Timestamp r = "") then None
      else match parse_int64 (q_Timestamp r) with
      | None => None
      | Some ts =>
          let elapsed := now / second -! ts in
          if (0 <=? elapsed) && (elapsed <=? 300) then Some (federationSigValid r (PubKey n) nodeID (q_Signature r)) else None
      end
  end.

(** The body the handler reads, [None] for 403. *)
Definition withFederationAuth (now : Time) (secret : string) (f : FederationManager) (r : fed_request) : option string :=
  if bool_decide (q_method r = "GET") && has_suffix (q_path r) "/federation/pool" && isTrustedSeed secret r
  then Some (q_body r)
  else
    let '(valid, body) := default (false, q_body r) (signed_by_node now f r) in
    if valid then Some body
    else
      let token := match strip_prefix "Bearer " (q_header r) with Some t => t | None => default "" (q_cookie r) end in
      if negb (bool_decide (token = "")) && VerifyToken token then Some body
      else if negb (bool_decide (secret = "")) && negb (bool_decide (q_secret r = "")) && bool_decide (q_secret r = secret)
      then Some body
      else None.
End federation_auth.

(** ** Address hints *)

Definition set_dht_hint (id addr : string) (h : Hints) : Hints :=
  {| discoveryHints := discoveryHints h; dhtHints := <[id := addr]> (dhtHints h); dhtVerified := dhtVerified h |}.

Definition merge_hint (hs : Hints) (h : PeerHint) : Hints :=
  if bool_decide (h_NodeID h = "") || bool_decide (h_Addresses h = []) then hs
  else match discoveryHints hs !! h_NodeID h with
  | Some _ => hs
  | None =>
      let hs := {| discoveryHints := <[h_NodeID h := h_Addresses h]> (discoveryHints hs); dhtHints := dhtHints hs;
                   dhtVerified := dhtVerified hs |} in
      if bool_decide (h_DHTAddr h = "") then hs
      else match dhtVerified hs !! h_NodeID h with
      | Some _ => hs
      | None => set_dht_hint (h_NodeID h) (h_DHTAddr h) hs
      end
  end.
Definition MergePeerHints (l : list PeerHint) (hs : Hints) : Hints := foldl merge_hint hs l.

Definition NoteDHTHint (nodeID dhtAddr : string) (hs : Hints) : Hints :=
  if bool_decide (nodeID = "") || bool_decide (dhtAddr = "") then hs
  else match dhtVerified hs !! nodeID with
  | Some _ => hs
  | None => set_dht_hint nodeID dhtAddr hs
  end.

Definition PinDHTHint (nodeID dhtAddr : string) (hs : Hints) : Hints :=
  if bool_decide (nodeID = "") || bool_decide (dhtAddr = "") then hs
  else {| discoveryHints := discoveryHints hs; dhtHints := <[nodeID := dhtAddr]> (dhtHints hs);
          dhtVerified := <[nodeID := dhtAddr]> (dhtVerified hs) |}.

Definition DHTHint (nodeID : string) (hs : Hints) : string := default "" (dhtHints hs !! nodeID).

(** [walk] is the map in the order visited. *)
Definition DHTNodeIDForAddr (walk : list (string * string)) (addr : string) : string :=
  if bool_decide (addr = "") then ""
  else match find (λ p, bool_decide (p.2 = addr)) walk with Some p => p.1 | None => "" end.

Definition bootstrap_step (selfID : string) (out : list string) (p : string * string) : list string :=
  if bool_decide (p.1 = "") || bool_decide (p.1 = selfID) || bool_decide (p.2 = "") || bool_decide (p.2 ∈ out)
  then out else out ++ [p.2].
Definition DHTBootstrapAddrs (walk : list (string * string)) (selfID : string) : list string :=
  foldl (bootstrap_step selfID) [] walk.

(** One round of [trySeedlessBootstrapOnce] (dht_udp.go): the first address that answers is pinned for the
    node gossip named with it. *)
Definition pin_bootstrapped (walk : list (string * string)) (answers : string → bool) (selfID : string) (hs : Hints) : Hints :=
  match find answers (DHTBootstrapAddrs walk selfID) with
  | None => hs
  | Some a => let id := DHTNodeIDForAddr walk a in if bool_decide (id = "") then hs else PinDHTHint id a hs
  end.

(** ** What this node shares *)

Definition models_listed (p : Providers.Provider) : list string :=
  Providers.md_ID <$> filter (λ m, Providers.md_Enabled m = true ∧
    (Providers.EnabledByKeys m = ∅ ∨ existsb (λ kv, kv.2) (map_to_list (Providers.EnabledByKeys m)) = true))
    (Providers.Models p).

Definition share_of (p : Providers.Provider) : SharedProvider := {|
  sp_ProviderID := Providers.p_ID p; sp_Platform := Providers.p_Type p; sp_Models := models_listed p;
  sp_Capacity := 100 |}.

(** [sharing] is [IsSharingToPool], [None] without a network manager. *)
Definition getLocalSharedProviders (f : FederationManager) (sharing : option bool) (relayOn : bool)
    (cfg : gmap string string) (presets : list Providers.Provider) (pm : Providers.ProviderManager) : list SharedProvider :=
  if negb (enabled f) then []
  else if negb (default true sharing) then []
  else share_of <$> filter (λ p, Providers.p_Enabled p = true ∧
         (relayOn = true ∨ cfg !! ("federation_share." +:+ Providers.p_ID p) = Some "true")) (Providers.GetAllRaw presets pm).

(** ** Choosing peers *)

(** [draws]: the 64-bit numbers read from the entropy source, [None] for a failure. The result is
    [None] when they run out before one is accepted. *)
Definition rand_limit (max : Z) : Z := (2 ^ 64 - 1) / max * max.
Fixpoint cryptoRandBelow (max : Z) (draws : list (option Z)) : option (nat * list (option Z)) :=
  match draws with
  | [] => None
  | None :: draws => Some (0%nat, draws)
  | Some v :: draws => if v <? rand_limit max then Some (Z.to_nat (v mod max), draws) else cryptoRandBelow max draws
  end.

Definition swap {A} (i j : nat) (l : list A) : list A :=
  match l !! i, l !! j with Some x, Some y => <[i := y]> (<[j := x]> l) | _, _ => l end.

(** The swaps of positions [i] to 1. *)
Fixpoint shuffle_from {A} (i : nat) (l : list A) (draws : list (option Z)) : option (list A * list (option Z)) :=
  match i with
  | O => Some (l, draws)
  | S i' =>
      match cryptoRandBelow (Z.of_nat (S i)) draws with
      | None => None
      | Some (j, draws) => shuffle_from i' (swap i j l) draws
      end
  end.
Definition cryptoShuffle {A} (l : list A) (draws : list (option Z)) : option (list A * list (option Z)) :=
  shuffle_from (length l - 1) l draws.

Definition reachable_peer (self : string) (n : NodeInfo) : bool :=
  negb (bool_decide (NodeID n = self)) && (negb (bool_decide (Endpoint n = "")) || negb (bool_decide (Addresses n = []))).

Definition selectPeers (count : nat) (n : GossipNode) (draws : list (option Z)) : option (list NodeInfo) :=
  let known := filter (λ x, reachable_peer (self n) x = true) (GetActiveNodes (fed n)) in
  '(seeds, draws) ← cryptoShuffle (filter (λ x, SeedNode x = true) known) draws;
  '(regular, _) ← cryptoShuffle (filter (λ x, SeedNode x = false) known) draws;
  Some (take count (seeds ++ regular)).

(** ** Messages *)

Definition knownNodeAddresses (n : NodeInfo) : list string :=
  match Addresses n with
  | [] => if negb (bool_decide (Endpoint n = "")) then [Endpoint n] else []
  | l => l
  end.

Definition add_hint (self : string) (hs : Hints) (st : gset string * list PeerHint) (p : string * list string)
    : gset string * list PeerHint :=
  let '(seen, out) := st in
  let '(id, addrs) := p in
  if bool_decide (id = "") || bool_decide (id ∈ seen) || bool_decide (addrs = []) || bool_decide (id = self) then st
  else ({[id]} ∪ seen, out ++ [{| h_NodeID := id; h_Addresses := addrs; h_DHTAddr := DHTHint id hs |}]).

Definition buildKnownPeers (n : GossipNode) : list PeerHint :=
  (foldl (add_hint (self n) (hints n)) (∅, [])
    (((λ x, (NodeID x, knownNodeAddresses x)) <$> GetActiveNodes (fed n))
     ++ ((λ p, (Network.pi_NodeID p, Network.pi_Addresses p)) <$> default [] (manual_peers n)))).2.

Definition score_line (r : option Reputation.ReputationManager) (id : string) : string :=
  let score := match r with
               | None => 0
               | Some r => match Reputation.GetReputation id r with
                           | None => 0
                           | Some rep => int_of_float (Reputation.OverallScore rep)
                           end
               end in
  id +:+ ":" +:+ dec score +:+ ";".
Definition computeScoreDigest (n : GossipNode) : string :=
  sha256_hex (String.concat "" (score_line (reputations n) <$> sort_slice str_ltb (NodeID <$> Nodes (trustPool (fed n))))).

Definition isSeen (now : Time) (hash : string) (s : gmap string Time) : bool * gmap string Time :=
  match s !! hash with Some _ => (true, s) | None => (false, <[hash := now]> s) end.

Definition cleanup (now : Time) (s : gmap string Time) : gmap string Time :=
  filter (λ kv, before kv.2 (now - hour) = false) s.

Section messages.
(** JSON of a message, for its hash; the ledger payload; the signature of this node; its DHT address. *)
Context (json : GossipMessage → string)
        (encode_ledger : list Ledger.ContributionRecord → list Ledger.CapabilityClaim → option string)
        (decode_ledger : string → option (list (option Ledger.ContributionRecord) * list (option Ledger.CapabilityClaim)))
        (SignJSON : GossipMessage → string) (dht_addr : string).

Definition messageHash (m : GossipMessage) : string := sha256_hex (json m).

Definition signed (m : GossipMessage) : GossipMessage := {|
  m_Type := m_Type m; m_FromNode := m_FromNode m; TrustPoolVersion := TrustPoolVersion m;
  ScoreDigest := ScoreDigest m; m_Timestamp := m_Timestamp m; m_Signature := SignJSON m; m_Payload := m_Payload m;
  KnownPeers := KnownPeers m; m_DHTAddr := m_DHTAddr m |}.

Definition sync_message (now : Time) (digest payload : string) (n : GossipNode) : GossipMessage := signed {|
  m_Type := "sync"; m_FromNode := self n; TrustPoolVersion := Version (trustPool (fed n)); ScoreDigest := digest;
  m_Timestamp := fmt_rfc3339 UTC now; m_Signature := ""; m_Payload := payload; KnownPeers := buildKnownPeers n;
  m_DHTAddr := dht_addr |}.

(** The message of a round. *)
Definition round_message (now : Time) (n : GossipNode) : GossipMessage :=
  let payload := match ledger n with
                 | None => ""
                 | Some g => default "" (encode_ledger (map_to_list (Ledger.recs g)).*2 (map_to_list (Ledger.claims g)).*2)
                 end in
  sync_message now (computeScoreDigest n) payload n.

(** *** A round *)

(** The answer a POST to an address is read as, [None] for any failure; the pool a GET gives. *)
Context (post : string → GossipMessage → option GossipMessage) (pool_at : string → option TrustPool).

Fixpoint first_answer {A} (ask : string → option A) (addrs : list string) : option A :=
  match addrs with [] => None | a :: addrs => match ask a with Some x => Some x | None => first_answer ask addrs end end.

Definition exchange (peer : NodeInfo) (m : GossipMessage) : option GossipMessage :=
  first_answer (λ a, post a m) (peerEndpoints peer).

Definition fetchFullPoolFromPeer (now : Time) (peer : NodeInfo) (n : GossipNode) : GossipNode :=
  match first_answer pool_at (peerEndpoints peer) with
  | Some pool => set_fed n (UpdateTrustPool now pool (fed n))
  | None => n
  end.

Definition take_hints (m : GossipMessage) (n : GossipNode) : GossipNode :=
  set_hints n (NoteDHTHint (m_FromNode m) (m_DHTAddr m) (MergePeerHints (KnownPeers m) (hints n))).

Definition take_payload (payload : string) (n : GossipNode) : GossipNode :=
  match ledger n with
  | None => n
  | Some g =>
      if bool_decide (payload = "") then n
      else match decode_ledger payload with
      | None => n
      | Some (cs, ks) => set_ledger n (Some (Ledger.GossipSync cs [] ks [] g).2)
      end
  end.

Definition processGossipResponse (now : Time) (m : GossipMessage) (peer : NodeInfo) (n : GossipNode) : GossipNode :=
  let '(dup, s) := isSeen now (messageHash m) (default ∅ (seen n)) in
  if dup then n
  else
    let n := set_seen n (Some s) in
    let peer := seen_at now peer in
    let n := set_fed n (UpdateNodeInfo now peer (fed n)) in
    let n := take_payload (m_Payload m) (take_hints m n) in
    if Version (trustPool (fed n)) <? TrustPoolVersion m then fetchFullPoolFromPeer now peer n else n.

Definition round_step (now : Time) (m : GossipMessage) (n : GossipNode) (peer : NodeInfo) : GossipNode :=
  match exchange peer m with Some resp => processGossipResponse now resp peer n | None => n end.

Definition doGossipRound (now : Time) (draws : list (option Z)) (n : GossipNode) : option GossipNode :=
  peers ← selectPeers 3 n draws;
  Some (foldl (round_step now (round_message now n)) n peers).

(** *** Receiving a message *)

Context (VerifyMsg : string → GossipMessage → string → bool) (fetchNodePubKey : string → string).

Definition gossipPreferredAddr (sender : NodeInfo) : string :=
  match Addresses sender with a :: _ => a | [] => Endpoint sender end.

Definition gossipBackfillPubKey (sender : NodeInfo) : string :=
  let try_addr a := if bool_decide (a = "") then "" else fetchNodePubKey a in
  let pk := try_addr (Endpoint sender) in
  if bool_decide (pk = "") then try_addr (gossipPreferredAddr sender) else pk.

(** Whether the message is valid, the sender with the key it was checked with last, and the node. *)
Definition verify_sender (now : Time) (m : GossipMessage) (sender : NodeInfo) (n : GossipNode) : bool * NodeInfo * GossipNode :=
  if negb (bool_decide (PubKey sender = "")) && VerifyMsg (PubKey sender) m (m_Signature m) then (true, sender, n)
  else if enabled (fed n) then
    let pk := gossipBackfillPubKey sender in
    if bool_decide (pk = "") then (false, sender, n)
    else
      let sender := with_key pk sender in
      (VerifyMsg pk m (m_Signature m), sender, set_fed n (UpdateNodeInfo now sender (fed n)))
  else (false, sender, n).

Definition handleFederationGossip (now : Time) (body : option GossipMessage) (n : GossipNode)
    : Z * option GossipMessage * GossipNode :=
  if negb (enabled (fed n)) then (503, None, n)
  else match body with
  | None => (400, None, n)
  | Some m =>
      match GetNode (m_FromNode m) (fed n) with
      | None => (403, None, n)
      | Some sender =>
          let '(valid, sender, n) := verify_sender now m sender n in
          if negb valid then (403, None, n)
          else
            let n := set_seen n ((λ s, (isSeen now (messageHash m) s).2) <$> seen n) in
            let n :=
              if bool_decide (m_Type m = "sync") then
                let n := set_fed n (UpdateNodeInfo now (seen_at now sender) (fed n)) in
                set_hints n (MergePeerHints (KnownPeers m) (NoteDHTHint (m_FromNode m) (m_DHTAddr m) (hints n)))
              else n in
            let digest := match seen n with Some _ => computeScoreDigest n | None => "" end in
            (200, Some (sync_message now digest "" n), n)
      end
  end.
End messages.

(** ** Announcing providers *)

Section providers.
Context (VerifyAnn : string → ProviderAnnouncement → string → bool) (VerifySync : string → ProviderSyncMessage → string → bool).

(** A node of the pool, or a manual peer with a key, which is then added to the pool. *)
Definition announcing_node (now : Time) (id : string) (n : GossipNode) : option (NodeInfo * GossipNode) :=
  match GetNode id (fed n) with
  | Some s => Some (s, n)
  | None =>
      match find (λ p, bool_decide (Network.pi_NodeID p = id) && negb (bool_decide (Network.pi_PubKey p = "")))
              (default [] (manual_peers n)) with
      | Some p => let s := bare_node p "" "" in Some (s, set_fed n (AddKnownNodes now [s] (fed n)))
      | None => None
      end
  end.

(** The first entry with the id of [x] is replaced, or [x] is added. *)
Fixpoint put_provider (x : SharedProvider) (l : list SharedProvider) : list SharedProvider :=
  match l with
  | [] => [x]
  | y :: l => if bool_decide (sp_ProviderID y = sp_ProviderID x) then x :: l else y :: put_provider x l
  end.

Definition announced (a : ProviderAnnouncement) : SharedProvider := {|
  sp_ProviderID := an_ProviderID a; sp_Platform := an_Platform a; sp_Models := an_Models a; sp_Capacity := an_Capacity a |}.

Definition handleFederationAnnounce (now : Time) (body : option ProviderAnnouncement) (n : GossipNode) : Z * GossipNode :=
  if negb (enabled (fed n)) then (503, n)
  else match body with
  | None => (400, n)
  | Some a =>
      match announcing_node now (an_NodeID a) n with
      | None => (403, n)
      | Some (sender, n) =>
          if negb (VerifyAnn (PubKey sender) a (an_Signature a)) then (403, n)
          else (200, set_fed n (UpdateNodeInfo now
                 (with_providers (put_provider (announced a) (SharedProviders sender)) (fmt_rfc3339 UTC now) sender) (fed n)))
      end
  end.

Definition pruneSharedProviders (providers : list SharedProvider) (keepIDs : option (list string)) : list SharedProvider :=
  match keepIDs with None => providers | Some ids => filter (λ p, sp_ProviderID p ∈ ids) providers end.

Definition handleProviderSync (now : Time) (body : option ProviderSyncMessage) (n : GossipNode) : Z * GossipNode :=
  if negb (enabled (fed n)) then (503, n)
  else match body with
  | None => (400, n)
  | Some m =>
      match announcing_node now (ps_NodeID m) n with
      | None => (403, n)
      | Some (sender, n) =>
          if negb (VerifySync (PubKey sender) m (ps_Signature m)) then (403, n)
          else (200, set_fed n (UpdateNodeInfo now
                 (with_providers (pruneSharedProviders (SharedProviders sender) (ps_ProviderIDs m)) (fmt_rfc3339 UTC now) sender)
                 (fed n)))
      end
  end.

(** *** Sending *)

Context (SignAnn : ProviderAnnouncement → string) (SignSync : ProviderSyncMessage → string).

Definition broadcastAnnouncement (now : Time) (self : string) (p : SharedProvider) : ProviderAnnouncement :=
  let a s := {| an_NodeID := self; an_ProviderID := sp_ProviderID p; an_Platform := sp_Platform p;
                an_Models := sp_Models p; an_Capacity := sp_Capacity p; an_Timestamp := fmt_rfc3339 UTC now;
                an_Signature := s |} in
  a (SignAnn (a "")).

Definition broadcastProviderSync (now : Time) (self : string) (ps : list SharedProvider) : ProviderSyncMessage :=
  let m s := {| ps_NodeID := self; ps_ProviderIDs := Some (sp_ProviderID <$> ps); ps_Timestamp := fmt_rfc3339 UTC now;
                ps_Signature := s |} in
  m (SignSync (m "")).

(** What is sent, in order; [clock k] is the time of the [k]-th message. *)
Definition broadcastLocalProviders (clock : nat → Time) (self : string) (ps : list SharedProvider)
    : list ProviderAnnouncement * ProviderSyncMessage :=
  (imap (λ k p, broadcastAnnouncement (clock k) self p) ps, broadcastProviderSync (clock (length ps)) self ps).

(** To whom. *)
Definition add_manual (st : gset string * list NodeInfo) (p : Network.PeerInfo) : gset string * list NodeInfo :=
  let '(seen, out) := st in
  if bool_decide (Network.pi_NodeID p = "") || bool_decide (Network.pi_NodeID p ∈ seen) then st
  else if negb (bool_decide (Network.pi_Status p = "online")) && negb (bool_decide (Network.pi_Status p = "")) then st
  else ({[Network.pi_NodeID p]} ∪ seen,
        out ++ [bare_node p (Network.firstAddress (Network.pi_Addresses p)) (Network.pi_LastSeen p)]).
Definition collectBroadcastPeers (n : GossipNode) : list NodeInfo :=
  let active := GetActiveNodes (fed n) in
  (foldl add_manual (list_to_set (NodeID <$> active), active) (default [] (manual_peers n))).2.

(** The address each peer took the message at, [None] for none; [takes] says whether a POST succeeds. *)
Definition postJSONToPeers (takes : string → bool) (self : string) (peers : list NodeInfo) : list (string * option string) :=
  (λ p, (NodeID p, find takes (peerEndpoints p)))
    <$> filter (λ p, NodeID p ≠ self ∧ peerEndpoints p ≠ []) peers.
End providers.
