(* ===== verification/GossipSafety.v ===== *)
(** * What gossip guarantees, and what it does not (gossip.go, federation.go)

    Peers are chosen evenly; a message touches its sender's record alone; what a node shares is
    what its peers list after its broadcast; a verified address is not displaced. The ledger part of a
    round reaches nobody, and signatures of requests do not age. *)

From S2P Require Import Prelude GoTime Bytes Sha256 TrustPool TrustSafety Gossip.
From S2P Require Ledger ContribQuota Providers Network Reputation.

(** ** Choosing peers *)

Lemma swap_perm {A} i j (l : list A) : swap i j l ≡ₚ l.
Proof.
  unfold swap. destruct (l !! i) as [x|] eqn:Ei; [|done]. destruct (l !! j) as [y|] eqn:Ej; [|done].
  apply Permutation_inj. split; [by rewrite !length_insert|].
  exists (λ k, if decide (k = i) then j else if decide (k = j) then i else k).
  pose proof (lookup_lt_Some _ _ _ Ei). pose proof (lookup_lt_Some _ _ _ Ej). split.
  - intros a b. repeat case_decide; congruence.
  - intros k. repeat case_decide; subst.
    + by rewrite list_lookup_insert_eq by (rewrite length_insert; done).
    + rewrite list_lookup_insert_ne by done. by rewrite list_lookup_insert_eq.
    + by rewrite !list_lookup_insert_ne.
Qed.

Lemma shuffle_perm {A} (l l' : list A) draws rest : cryptoShuffle l draws = Some (l', rest) → l' ≡ₚ l.
Proof.
  unfold cryptoShuffle. generalize (length l - 1)%nat as i. intros i.
  induction i as [|i IH] in l, draws |- *; cbn [shuffle_from]; [by intros [= <- _]|].
  destruct (cryptoRandBelow _ draws) as [[j ds]|]; [|done]. intros H. rewrite (IH _ _ H). apply swap_perm.
Qed.

(** A number drawn is used for exactly the same count of the 64-bit values, whichever it is: those
    whose quotient by the bound is one of [(2^64 - 1) / max]; the others, at most [max], are drawn again. *)
Theorem draws_are_even max v j :
  0 < max < 2 ^ 64 → 0 ≤ v < 2 ^ 64 → (Z.of_nat j < max) →
  (cryptoRandBelow max [Some v] = Some (j, []) ↔ ∃ q, 0 ≤ q < (2 ^ 64 - 1) / max ∧ v = q * max + Z.of_nat j) ∧
  (cryptoRandBelow max [Some v] = None → 2 ^ 64 - max ≤ v).
Proof.
  intros Hm Hv Hj. unfold cryptoRandBelow, rand_limit. set (n := (2 ^ 64 - 1) / max).
  assert (n * max ≤ 2 ^ 64 - 1 < (n + 1) * max) as Hn.
  { pose proof (Z.mul_div_le (2 ^ 64 - 1) max). pose proof (Z.mul_succ_div_gt (2 ^ 64 - 1) max). unfold n. lia. }
  split.
  - destruct (Z.ltb_spec v (n * max)) as [Hlt|Hge].
    + split.
      * intros [= E]. exists (v / max). pose proof (Z.mod_pos_bound v max ltac:(lia)).
        pose proof (Z.div_mod v max ltac:(lia)). assert (0 ≤ v / max) by (apply Z.div_pos; lia).
        assert (v / max < n) by (apply Z.div_lt_upper_bound; lia). lia.
      * intros (q & Hq & ->). do 2 f_equal. rewrite Z.add_comm, Z.mod_add, Z.mod_small by lia. lia.
    + split; [done|]. intros (q & Hq & ->). nia.
  - destruct (Z.ltb_spec v (n * max)); [done|]. intros _. nia.
Qed.

Section select.
Context (n : GossipNode).
Let known := filter (λ x, reachable_peer (self n) x = true) (GetActiveNodes (fed n)).

Lemma known_split :
  known ≡ₚ filter (λ x, SeedNode x = true) known ++ filter (λ x, SeedNode x = false) known.
Proof.
  generalize known. intros l. induction l as [|x l IH]; [done|]. rewrite IH at 1. rewrite !filter_cons.
  destruct (SeedNode x) eqn:E.
  - by rewrite (decide_True (P := true = true)), (decide_False (P := true = false)) by done.
  - rewrite (decide_False (P := false = true)), (decide_True (P := false = false)) by done. by rewrite <- Permutation_middle.
Qed.

(** The peers of a round: as many as asked or as there are, each an active node other than this one
    with an address, no seed left out for a node that is none. *)
Theorem selected_peers count draws l :
  selectPeers count n draws = Some l →
  length l = Nat.min count (length known) ∧ l ⊆+ known ∧
  ∀ x y, x ∈ l → SeedNode x = false → y ∈ known → SeedNode y = true → y ∈ l.
Proof.
  unfold selectPeers. fold known. destruct (cryptoShuffle (filter (λ x, SeedNode x = true) known) draws) as [[ss ds]|] eqn:E1; [|done].
  cbn [mbind option_bind]. destruct (cryptoShuffle (filter (λ x, SeedNode x = false) known) ds) as [[rs ds']|] eqn:E2; [|done].
  cbn [mbind option_bind]. intros [= <-]. apply shuffle_perm in E1, E2.
  assert (ss ++ rs ≡ₚ known) as Hp by by rewrite E1, E2, <- known_split.
  split_and!.
  - by rewrite length_take, Hp.
  - rewrite <- Hp. apply sublist_submseteq, sublist_take.
  - intros x y Hx Hsx Hy Hsy. assert (y ∈ ss) as Hss by (rewrite E1; by apply list_elem_of_filter).
    rewrite take_app in Hx |- *. apply elem_of_app in Hx as [Hx|Hx].
    + apply (subseteq_take _ ss) in Hx. rewrite E1 in Hx. apply list_elem_of_filter in Hx as [Hx _]. congruence.
    + apply elem_of_app. left. rewrite take_ge; [done|].
      destruct (Nat.le_gt_cases (length ss) count); [done|]. replace (count - length ss)%nat with 0%nat in Hx by lia.
      by apply elem_of_nil in Hx.
Qed.
End select.

(** ** Records of nodes *)

Lemma gate_absent id ls l : id ∉ t_NodeID <$> l → gate id ls l = Some l.
Proof.
  induction l as [|t l IH]; [done|]. rewrite fmap_cons, not_elem_of_cons. intros [Hn Hl]. cbn [gate].
  rewrite bool_decide_eq_false_2 by congruence. by rewrite IH.
Qed.

Lemma update_enabled now info f : enabled (UpdateNodeInfo now info f) = enabled f.
Proof. unfold UpdateNodeInfo. destruct (gate _ _ _); [|done]. by destruct (replace_node _ _ _). Qed.

Lemma replace_Some id g l l1 : replace_node id g l = Some l1 → is_Some (find_key NodeID id l).
Proof.
  revert l1. induction l as [|n l IH]; [done|]. intros l1. cbn [replace_node]. rewrite find_key_cons.
  destruct (bool_decide_reflect (NodeID n = id)) as [->|Hn]; [by rewrite decide_True|].
  rewrite decide_False by done. intros (l2 & Hl & _)%fmap_Some. by eapply IH.
Qed.

(** An update changes the record of its node alone. *)
Lemma update_get now info f id :
  GetNode id (UpdateNodeInfo now info f) =
  if decide (NodeID info = id) then
    match gate (NodeID info) (LastSeen info) (Tombstones (trustPool f)) with Some _ => Some info | None => GetNode id f end
  else GetNode id f.
Proof.
  unfold UpdateNodeInfo. destruct (gate _ _ _) as [ts|]; [|by case_decide]. unfold GetNode.
  destruct (replace_node (NodeID info) (λ _, info) (Nodes (trustPool f))) as [ns|] eqn:E; cbn.
  - pose proof (replace_Some _ _ _ _ E) as [o Ho].
    apply (replace_find _ _ _ _ id) in E as [_ ->]; [|intros x; destruct (decide (NodeID x = NodeID info)); [by left|by right]].
    case_decide as Hid; [|done]. by rewrite Ho.
  - apply replace_None in E. case_decide as Hid; [subst id; rewrite E; apply lookup_insert_eq|].
    destruct (find_key NodeID id _); [done|]. by apply lookup_insert_ne.
Qed.

Lemma update_tombs now info f :
  NodeID info ∉ t_NodeID <$> Tombstones (trustPool f) →
  Tombstones (trustPool (UpdateNodeInfo now info f)) = Tombstones (trustPool f).
Proof.
  intros Hn. unfold UpdateNodeInfo. rewrite (gate_absent _ _ _ Hn). by destruct (replace_node _ _ _).
Qed.

(** ** Receiving a message *)

(** The gossip peers are kept under their own ids. *)
Definition peers_keyed (f : FederationManager) : Prop := ∀ id p, localPeers f !! id = Some p → NodeID p = id.

Lemma get_id f id s : peers_keyed f → GetNode id f = Some s → NodeID s = id.
Proof.
  intros Hk. unfold GetNode. destruct (find_key NodeID id _) as [o|] eqn:E; [|apply Hk].
  intros [= <-]. by apply find_key_Some in E as [_ ?].
Qed.

Section receive.
Context (json : GossipMessage → string) (SignJSON : GossipMessage → string) (dht_addr : string)
  (VerifyMsg : string → GossipMessage → string → bool) (fetchNodePubKey : string → string).
Abbreviation receive := (handleFederationGossip json SignJSON dht_addr VerifyMsg fetchNodePubKey).
Abbreviation backfill := (gossipBackfillPubKey fetchNodePubKey).

(** The keys a message of a node is checked with. *)
Definition key_for (s : NodeInfo) (k : string) : Prop := k ≠ "" ∧ (k = PubKey s ∨ k = backfill s).

Lemma verify_sender_spec now m s n valid s' n1 :
  verify_sender VerifyMsg fetchNodePubKey now m s n = (valid, s', n1) →
  ledger n1 = ledger n ∧ NodeID s' = NodeID s ∧
  (∀ id, NodeID s ≠ id → GetNode id (fed n1) = GetNode id (fed n)) ∧
  (valid = true → ∃ k, key_for s k ∧ VerifyMsg k m (m_Signature m) = true).
Proof.
  unfold verify_sender, key_for.
  destruct (negb (bool_decide (PubKey s = "")) && VerifyMsg (PubKey s) m (m_Signature m)) eqn:E.
  { apply andb_true_iff in E as [E1 E2]. apply negb_true_iff, bool_decide_eq_false in E1. intros [= <- <- <-].
    split_and!; [done..|]. intros _. exists (PubKey s). auto. }
  destruct (enabled (fed n)); [|by intros [= <- <- <-]].
  destruct (bool_decide_reflect (backfill s = "")) as [Hpk|Hpk]; intros [= <- <- <-]; [done|].
  split_and!; [done|done| |].
  - intros id Hne. cbn [fed set_fed]. rewrite update_get. by rewrite decide_False.
  - intros Hv. exists (backfill s). auto.
Qed.

(** Whoever sends it, a message leaves the ledger and the record of every node but its sender as they
    were, and is answered only when it is signed by the key the sender's record has, or by the one the
    sender's own address serves; the answer carries no ledger records. *)
Theorem gossip_touches_sender_only now body n code answer n' :
  peers_keyed (fed n) → receive now body n = (code, answer, n') →
  ledger n' = ledger n ∧
  (∀ id, (∀ m, body = Some m → m_FromNode m ≠ id) → GetNode id (fed n') = GetNode id (fed n)) ∧
  (∀ r, answer = Some r → m_Payload r = "") ∧
  (code = 200 → ∃ m s k, body = Some m ∧ GetNode (m_FromNode m) (fed n) = Some s ∧ key_for s k ∧
     VerifyMsg k m (m_Signature m) = true).
Proof.
  intros Hk. unfold handleFederationGossip. destruct (enabled (fed n)); cbn [negb]; [|by intros [= <- <- <-]].
  destruct body as [m|]; [|by intros [= <- <- <-]].
  destruct (GetNode (m_FromNode m) (fed n)) as [s|] eqn:Es; [|by intros [= <- <- <-]].
  pose proof (get_id _ _ _ Hk Es) as Hid.
  destruct (verify_sender VerifyMsg fetchNodePubKey now m s n) as [[valid s'] n1] eqn:Ev.
  apply verify_sender_spec in Ev as (H1 & H2 & H3 & H4).
  destruct valid; cbn [negb].
  2: { intros [= <- <- <-]. split_and!; [done| |done|done]. intros id Hn. apply H3. rewrite Hid. by apply Hn. }
  intros [= <- <- <-]. split_and!.
  - by case_bool_decide.
  - intros id Hn. specialize (Hn m eq_refl). case_bool_decide; cbn [fed set_seen set_fed set_hints]; [|apply H3; congruence].
    rewrite update_get. unfold seen_at. cbn [NodeID with_status]. rewrite decide_False by congruence. apply H3. congruence.
  - by intros r [= <-].
  - intros _. destruct (H4 eq_refl) as (k & K1 & K2). by exists m, s, k.
Qed.

Lemma answer_payload now body n code r n' : receive now body n = (code, Some r, n') → m_Payload r = "".
Proof.
  unfold handleFederationGossip. destruct (negb (enabled (fed n))); [done|]. destruct body as [m|]; [|done].
  destruct (GetNode _ (fed n)); [|done]. destruct (verify_sender _ _ _ _ _ _) as [[valid s'] n1].
  destruct (negb valid); [done|]. by intros [= _ <- _].
Qed.

Lemma first_answer_Some {A} (ask : string → option A) l x : first_answer ask l = Some x → ∃ a, a ∈ l ∧ ask a = Some x.
Proof.
  induction l as [|a l IH]; [done|]. cbn. destruct (ask a) as [y|] eqn:E.
  - intros [= ->]. exists a. split; [by left|done].
  - intros H. destruct (IH H) as (b & Hb & Hx). exists b. split; [by right|done].
Qed.

(** Rounds whose answers are those of nodes that run this program never bring a ledger record. *)
Theorem rounds_spread_no_ledger encode decode post pool_at now draws n n' :
  (∀ a m r, post a m = Some r → ∃ t w w', receive t (Some m) w = (200, Some r, w')) →
  doGossipRound json encode decode SignJSON dht_addr post pool_at now draws n = Some n' →
  ledger n' = ledger n.
Proof.
  intros Hpost. unfold doGossipRound. destruct (selectPeers 3 n draws) as [ps|]; [|done]. cbn [mbind option_bind].
  intros [= <-]. set (m := round_message _ _ _ _ _). clearbody m.
  assert (∀ w p, ledger (round_step json decode post pool_at now m w p) = ledger w) as Hstep.
  { intros w p. unfold round_step. destruct (exchange post p m) as [r|] eqn:Ex; [|done].
    apply first_answer_Some in Ex as (a & _ & Ha). destruct (Hpost _ _ _ Ha) as (t & w1 & w2 & Hw).
    apply answer_payload in Hw. unfold processGossipResponse. destruct (isSeen _ _ _) as [[] s]; [done|].
    rewrite Hw. unfold take_payload, take_hints, fetchFullPoolFromPeer. cbn [ledger set_hints set_fed set_seen].
    rewrite (bool_decide_eq_true_2 ("" = "")) by done. destruct (ledger w) eqn:El; repeat case_match; done. }
  revert n. induction ps as [|p ps IH]; [done|]. intros n. cbn [foldl]. by rewrite IH, Hstep.
Qed.
End receive.

(** ** Announcing providers *)

Lemma put_keys x l :
  (sp_ProviderID <$> put_provider x l) = sp_ProviderID <$> l ∨
  (sp_ProviderID x ∉ sp_ProviderID <$> l ∧ (sp_ProviderID <$> put_provider x l) = (sp_ProviderID <$> l) ++ [sp_ProviderID x]).
Proof.
  induction l as [|y l IH]; [right; split; [apply not_elem_of_nil|done]|]. cbn [put_provider].
  destruct (bool_decide_reflect (sp_ProviderID y = sp_ProviderID x)) as [E|N]; [left; cbn; by rewrite E|].
  destruct IH as [IH|[H1 H2]]; [left; cbn; by rewrite IH|right]. split; [|cbn; by rewrite H2].
  rewrite fmap_cons. apply not_elem_of_cons. by split.
Qed.

Lemma put_nodup x l : NoDup (sp_ProviderID <$> l) → NoDup (sp_ProviderID <$> put_provider x l).
Proof.
  intros Hl. destruct (put_keys x l) as [->|[Hn ->]]; [done|]. apply NoDup_app. split_and!; [done| |apply NoDup_singleton].
  intros i Hi ->%list_elem_of_singleton. done.
Qed.

Lemma put_find x l id :
  find_key sp_ProviderID id (put_provider x l) = if decide (sp_ProviderID x = id) then Some x else find_key sp_ProviderID id l.
Proof.
  induction l as [|y l IH]; cbn [put_provider]; [by rewrite find_key_cons|].
  destruct (bool_decide_reflect (sp_ProviderID y = sp_ProviderID x)) as [E|N]; rewrite !find_key_cons.
  - rewrite E. by destruct (decide (sp_ProviderID x = id)).
  - rewrite IH. destruct (decide (sp_ProviderID y = id)), (decide (sp_ProviderID x = id)); congruence.
Qed.

Definition put_all (ps l : list SharedProvider) : list SharedProvider := foldl (λ l x, put_provider x l) l ps.

Lemma put_all_nodup ps l : NoDup (sp_ProviderID <$> l) → NoDup (sp_ProviderID <$> put_all ps l).
Proof. revert l. induction ps as [|x ps IH]; [done|]. intros l Hl. cbn. by apply IH, put_nodup. Qed.

Lemma put_all_find ps l id :
  NoDup (sp_ProviderID <$> ps) →
  find_key sp_ProviderID id (put_all ps l) =
  match find_key sp_ProviderID id ps with Some x => Some x | None => find_key sp_ProviderID id l end.
Proof.
  revert l. induction ps as [|x ps IH]; [done|]. intros l. rewrite fmap_cons. intros [Hx Hps]%NoDup_cons.
  cbn [put_all foldl]. fold (put_all ps (put_provider x l)). rewrite IH by done. rewrite find_key_cons, put_find.
  destruct (decide (sp_ProviderID x = id)) as [<-|]; [|done]. by rewrite (proj2 (find_key_None _ _ _) Hx).
Qed.

(** Announcing a list and keeping its ids alone leaves that list. *)
Lemma put_prune_perm ps l :
  NoDup (sp_ProviderID <$> ps) → NoDup (sp_ProviderID <$> l) →
  pruneSharedProviders (put_all ps l) (Some (sp_ProviderID <$> ps)) ≡ₚ ps.
Proof.
  intros Hps Hl. cbn [pruneSharedProviders]. pose proof (put_all_nodup ps l Hl) as Hn.
  apply NoDup_Permutation; [apply NoDup_filter; by eapply NoDup_fmap_1|by eapply NoDup_fmap_1|].
  intros x. rewrite list_elem_of_filter. split.
  - intros [Hid Hx]. apply (find_key_elem sp_ProviderID) in Hx; [|done]. rewrite put_all_find in Hx by done.
    apply list_elem_of_fmap in Hid as (y & Ey & Hy).
    pose proof (find_key_elem sp_ProviderID ps y Hps Hy) as Hf. rewrite <- Ey in Hf. rewrite Hf in Hx. congruence.
  - intros Hx. split; [by apply list_elem_of_fmap_2|].
    pose proof (find_key_elem sp_ProviderID ps x Hps Hx) as Hf.
    assert (find_key sp_ProviderID (sp_ProviderID x) (put_all ps l) = Some x) as Hp by by rewrite put_all_find, Hf.
    by apply find_key_Some in Hp as [? _].
Qed.

Section announce.
Context (VerifyAnn : string → ProviderAnnouncement → string → bool) (VerifySync : string → ProviderSyncMessage → string → bool).

(** A node that takes part and has not been told to forget [id], and its record of it. *)
Definition lists (n : GossipNode) (id : string) (s : NodeInfo) : Prop :=
  enabled (fed n) = true ∧ id ∉ t_NodeID <$> Tombstones (trustPool (fed n)) ∧ NodeID s = id ∧ GetNode id (fed n) = Some s.

Lemma lists_update now l n id s :
  lists n id s →
  let s' := with_providers l (fmt_rfc3339 UTC now) s in
  lists (set_fed n (UpdateNodeInfo now s' (fed n))) id s'.
Proof.
  intros (He & Ht & Hid & Hg) s'. subst id. unfold lists. cbn [fed set_fed NodeID with_providers s'].
  split_and!; [by rewrite update_enabled|by rewrite update_tombs|done|].
  rewrite update_get. cbn [NodeID with_providers]. rewrite decide_True by done. by rewrite gate_absent.
Qed.

Lemma announce_step now a n s :
  lists n (an_NodeID a) s → VerifyAnn (PubKey s) a (an_Signature a) = true →
  ∃ n', handleFederationAnnounce VerifyAnn now (Some a) n = (200, n') ∧
        lists n' (an_NodeID a) (with_providers (put_provider (announced a) (SharedProviders s)) (fmt_rfc3339 UTC now) s).
Proof.
  intros Hl Hv. pose proof Hl as (He & _ & _ & Hg). unfold handleFederationAnnounce, announcing_node.
  rewrite He, Hg, Hv. cbn [negb]. eexists. split; [done|]. by apply lists_update.
Qed.

(** What the receiver makes of a broadcast: the announcements in order, then the list. *)
Definition receive_announcements (n : GossipNode) (l : list (Time * ProviderAnnouncement)) : GossipNode :=
  foldl (λ n ta, (handleFederationAnnounce VerifyAnn ta.1 (Some ta.2) n).2) n l.

Lemma announcements_listed l n id s ps :
  (announced ∘ snd <$> l) = ps → lists n id s →
  (∀ t a, (t, a) ∈ l → an_NodeID a = id ∧ VerifyAnn (PubKey s) a (an_Signature a) = true) →
  ∃ s', lists (receive_announcements n l) id s' ∧ PubKey s' = PubKey s ∧ SharedProviders s' = put_all ps (SharedProviders s).
Proof.
  intros <-. revert n s. induction l as [|[t a] l IH]; intros n s Hl Ha; [by exists s|].
  destruct (Ha t a ltac:(left)) as [Eid Hv]. rewrite <- Eid in Hl.
  destruct (announce_step t a n s Hl Hv) as (n1 & E1 & Hl1). rewrite Eid in Hl1. cbn [receive_announcements foldl fst snd].
  rewrite E1. cbn [snd]. destruct (IH n1 _ Hl1) as (s' & S1 & S2 & S3); [intros t' a' Hin; by apply (Ha t'); right|].
  by exists s'.
Qed.

Context (SignAnn : ProviderAnnouncement → string) (SignSync : ProviderSyncMessage → string).

(** C24. After a broadcast of what a node shares, of which every message is received and verifies under the key
    listed for the node, the receiver lists exactly those providers for it, with their models as announced,
    whichever providers it listed before, as long as it listed none of them twice; announcements and
    syncs keep it so. *)
Theorem providers_converge clock arrive now n id s ps :
  lists n id s → NoDup (sp_ProviderID <$> SharedProviders s) → NoDup (sp_ProviderID <$> ps) →
  (∀ t p, let a := broadcastAnnouncement SignAnn t id p in VerifyAnn (PubKey s) a (an_Signature a) = true) →
  (∀ t, let m := broadcastProviderSync SignSync t id ps in VerifySync (PubKey s) m (ps_Signature m) = true) →
  let '(anns, sync) := broadcastLocalProviders SignAnn SignSync clock id ps in
  let '(code, n') := handleProviderSync VerifySync now (Some sync) (receive_announcements n (imap (λ k a, (arrive k, a)) anns)) in
  code = 200 ∧ ∃ s', GetNode id (fed n') = Some s' ∧ SharedProviders s' ≡ₚ ps.
Proof.
  intros Hl Hs Hps Hva Hvs. cbn [broadcastLocalProviders].
  set (anns := imap _ (imap _ ps)).
  assert ((announced ∘ snd <$> anns) = ps ∧ ∀ t a, (t, a) ∈ anns → an_NodeID a = id ∧ VerifyAnn (PubKey s) a (an_Signature a) = true) as [Ha1 Ha2].
  { subst anns. split.
    - apply list_eq. intros i. rewrite list_lookup_fmap, !list_lookup_imap. destruct (ps !! i) as [p|]; [|done].
      by destruct p.
    - intros t a (i & Hi)%list_elem_of_lookup. apply list_lookup_imap_Some in Hi as (b & Hb & [= -> ->]).
      apply list_lookup_imap_Some in Hb as (p & _ & ->). by split. }
  destruct (announcements_listed anns n id s ps Ha1 Hl Ha2) as (s1 & Hl1 & Hk & Hp).
  pose proof Hl1 as (He & _ & _ & Hg). unfold handleProviderSync, announcing_node. cbn [ps_NodeID broadcastProviderSync].
  rewrite He, Hg, Hk. cbn [negb]. rewrite Hvs. cbn [negb]. split; [done|].
  pose proof (lists_update now (pruneSharedProviders (SharedProviders s1) (Some (sp_ProviderID <$> ps))) _ _ _ Hl1) as (_ & _ & _ & Hg').
  eexists. split; [exact Hg'|]. cbn [SharedProviders with_providers]. rewrite Hp. by apply put_prune_perm.
Qed.
End announce.

(** ** Address hints *)

Inductive hint_op := HMerge (l : list PeerHint) | HNote (id a : string) | HPin (id a : string).
Definition hint_exec (h : Hints) (o : hint_op) : Hints :=
  match o with HMerge l => MergePeerHints l h | HNote id a => NoteDHTHint id a h | HPin id a => PinDHTHint id a h end.
Definition hint_run (l : list hint_op) (h : Hints) : Hints := foldl hint_exec h l.

(** The hint agrees with the pin; addresses learned first stay. *)
Definition hints_after (h h' : Hints) : Prop :=
  (∀ id a, dhtVerified h !! id = Some a → dhtHints h !! id = Some a → dhtVerified h' !! id = Some a ∧ dhtHints h' !! id = Some a) ∧
  (∀ id l, discoveryHints h !! id = Some l → discoveryHints h' !! id = Some l).

Lemma hints_after_trans a b c : hints_after a b → hints_after b c → hints_after a c.
Proof.
  intros [A1 A2] [B1 B2]. split; [|by auto]. intros id x H1 H2. destruct (A1 id x H1 H2). by apply B1.
Qed.

Lemma hinted_after id a h : dhtVerified h !! id = None → hints_after h (set_dht_hint id a h).
Proof.
  intros Hn. split; [|done]. intros i x H1 H2. split; [done|]. cbn. rewrite lookup_insert_ne; [done|congruence].
Qed.

Lemma merge_hint_after h x : hints_after h (merge_hint h x).
Proof.
  unfold merge_hint. destruct (_ || _); [done|]. destruct (discoveryHints h !! h_NodeID x) eqn:E; [done|].
  set (h1 := {| discoveryHints := _; dhtHints := dhtHints h; dhtVerified := dhtVerified h |}).
  assert (hints_after h h1) as H1.
  { split; [done|]. intros i l Hi. cbn. rewrite lookup_insert_ne; [done|congruence]. }
  destruct (bool_decide _); [done|]. cbn [dhtVerified h1]. destruct (dhtVerified h !! _) eqn:Ev; [done|].
  eapply hints_after_trans; [exact H1|]. by apply hinted_after.
Qed.

(** What gossip says of a node never displaces the address verified for it, nor the addresses first
    heard for it. *)
Theorem verified_address_stays h ops id a :
  id ≠ "" → a ≠ "" → (∀ b, HPin id b ∉ ops) →
  DHTHint id (hint_run ops (PinDHTHint id a h)) = a.
Proof.
  intros Hid Ha Hno. set (h1 := PinDHTHint id a h).
  assert (dhtVerified h1 !! id = Some a ∧ dhtHints h1 !! id = Some a) as H1.
  { subst h1. unfold PinDHTHint. rewrite !bool_decide_eq_false_2 by done. cbn. by rewrite !lookup_insert_eq. }
  assert (dhtVerified (hint_run ops h1) !! id = Some a ∧ dhtHints (hint_run ops h1) !! id = Some a) as [_ H2].
  { clearbody h1. revert h1 H1. induction ops as [|o ops IH]; [done|]. intros h1 [V D]. cbn [hint_run foldl].
    apply IH; [intros b Hb; apply (Hno b); by right|]. destruct o as [l|i b|i b]; cbn [hint_exec].
    - assert (hints_after h1 (MergePeerHints l h1)) as [Hm _].
      { unfold MergePeerHints. clear. revert h1. induction l as [|x l IH]; [done|]. intros h1. cbn.
        eapply hints_after_trans; [apply merge_hint_after|apply IH]. }
      by apply Hm.
    - unfold NoteDHTHint. destruct (_ || _); [done|]. destruct (dhtVerified h1 !! i) eqn:E; [done|].
      by apply (hinted_after i b h1 E).
    - assert (i ≠ id) as Hne by (intros ->; apply (Hno b); by left). unfold PinDHTHint. destruct (_ || _); [done|].
      cbn. by rewrite !lookup_insert_ne. }
  unfold DHTHint. fold (hint_run ops h1). by rewrite H2.
Qed.

(** ** Who is heard *)

Section access.
Context (VerifySignature : string → string → string → bool) (VerifyToken : string → bool).

(** The text a node signs for a request, with its body and, as older nodes do, without. *)
Definition signs (f : FederationManager) (r : fed_request) : Prop :=
  ∃ n, let id := ContribQuota.sanitizeNodeID (q_NodeID r) in
    GetNode id f = Some n ∧ PubKey n ≠ "" ∧
    (VerifySignature (PubKey n) (sig_payload id (q_method r) (q_path r)
       (Some (String.substring 0 maxFederationSigBody (q_body r)))) (q_Signature r) = true ∨
     VerifySignature (PubKey n) (sig_payload id (q_method r) (q_path r) None) (q_Signature r) = true).

Lemma signed_by_node_signs now f r b : signed_by_node VerifySignature now f r = Some (true, b) → signs f r.
Proof.
  unfold signed_by_node, federationSigValid. destruct (bool_decide _); [done|].
  destruct (GetNode _ f) as [n|] eqn:En; [|done].
  destruct (bool_decide_reflect (PubKey n = "")); [done|]. cbn [orb]. destruct (_ || _); [done|].
  destruct (parse_int64 _); [|done]. destruct (_ && _); [|done]. intros [= H _]. apply orb_true_iff in H. by exists n.
Qed.

(** A request of another node is heard only with the shared secret, with an administrator's token, or
    with a signature under the key the trust pool has for the node it names. *)
Theorem federation_access_earned now secret f r b :
  withFederationAuth VerifySignature VerifyToken now secret f r = Some b →
  (secret ≠ "" ∧ (q_secret r = secret ∨ q_method r = "GET" ∧ q_seed_token r = secret)) ∨
  (∃ t, t ≠ "" ∧ VerifyToken t = true ∧ (q_header r = "Bearer " +:+ t ∨ q_cookie r = Some t)) ∨ signs f r.
Proof.
  unfold withFederationAuth. destruct (_ && _ && isTrustedSeed secret r) eqn:E1.
  { apply andb_true_iff in E1 as [[Hg%bool_decide_eq_true _]%andb_true_iff Ht]. intros _. left. revert Ht. unfold isTrustedSeed.
    destruct (bool_decide _); [done|]. destruct (bool_decide_reflect (secret = "")); [done|]. intros ->%bool_decide_eq_true. auto. }
  clear E1. set (tok := match strip_prefix "Bearer " (q_header r) with Some t => t | None => _ end).
  assert (tok ≠ "" → q_header r = "Bearer " +:+ tok ∨ q_cookie r = Some tok) as Htok.
  { subst tok. destruct (strip_prefix _ _) as [t|] eqn:Ep; [intros _; left; by apply strip_prefix_Some|].
    destruct (q_cookie r); [auto|done]. }
  destruct (signed_by_node VerifySignature now f r) as [[[] body]|] eqn:Es; cbn [default];
    [intros _; right; right; by eapply signed_by_node_signs|clear Es..].
  all: destruct (bool_decide_reflect (tok = "")) as [Ht|Ht]; cbn [negb andb];
    [|destruct (VerifyToken tok) eqn:Ev; [intros _; right; left; exists tok; auto|]];
    destruct (bool_decide_reflect (secret = "")), (bool_decide (q_secret r = "")), (bool_decide_reflect (q_secret r = secret));
    cbn [negb andb]; (done || (intros _; left; auto)).
Qed.

Definition with_timestamp (t : Z) (r : fed_request) : fed_request := {|
  q_method := q_method r; q_path := q_path r; q_body := q_body r; q_NodeID := q_NodeID r; q_Signature := q_Signature r;
  q_Timestamp := dec t; q_secret := q_secret r; q_seed_token := q_seed_token r; q_header := q_header r; q_cookie := q_cookie r |}.

(** The signature does not cover the time: a request that was heard once is heard at any later time
    when only its time stamp is put forward. *)
Theorem captured_request_never_ages now later f r b :
  0 ≤ later → is_int64 (later / second) →
  signed_by_node VerifySignature now f r = Some (true, b) →
  signed_by_node VerifySignature later f (with_timestamp (later / second) r) = Some (true, b).
Proof.
  intros Hl Hi. assert (0 ≤ later / second < 2 ^ 63) as Hr.
  { pose proof (Z.div_pos later second Hl eq_refl). unfold is_int64 in Hi. lia. }
  unfold signed_by_node. cbn [q_NodeID with_timestamp q_Signature q_Timestamp].
  destruct (bool_decide _); [done|]. destruct (GetNode _ f) as [n|]; [|done].
  destruct (bool_decide (PubKey n = "")), (bool_decide (q_Signature r = "")); cbn [orb]; try done.
  destruct (bool_decide (q_Timestamp r = "")); [done|].
  destruct (parse_int64 (q_Timestamp r)); [|done]. destruct (_ && _); [|done].
  intros H. rewrite parse_int64_dec by done. rewrite (bool_decide_eq_false_2 (dec (later / second) = "")).
  2: { intros E. pose proof (parse_int64_dec _ Hr) as Hp. rewrite E in Hp. done. }
  rewrite Z.sub_diag. exact H.
Qed.
End access.

(** ** Concrete nodes *)

Section demo.
Let node_of (id key seen : string) (ps : list SharedProvider) : NodeInfo := {|
  NodeID := id; GitHubUser := ""; GitHubID := 0; Endpoint := "https://" +:+ id; PubKey := key; SharedModels := [];
  SharedProviders := ps; JoinedAt := ""; LastSeen := seen; Status := "active"; SeedNode := false;
  TrustPool.Reputation := 100; ni_Version := ""; InviteBy := ""; TokenBudget := 0; TokenUsed := 0; Addresses := [] |}.
Let provider (id : string) (models : list string) : SharedProvider := {|
  sp_ProviderID := id; sp_Platform := "openai"; sp_Models := models; sp_Capacity := 100 |}.

Definition demo_ps : list SharedProvider := [provider "p2" ["m3"]; provider "p3" []].
Definition gossip_demo : GossipNode := {|
  self := "a"; hints := {| discoveryHints := ∅; dhtHints := ∅; dhtVerified := ∅ |}; seen := Some ∅; ledger := None;
  reputations := None; manual_peers := None;
  fed := {| enabled := true; localPeers := ∅; dht := None;
            trustPool := {| Version := 1; UpdatedAt := ""; Registry := ""; Tombstones := [];
              Nodes := [node_of "b" "K" "2026-01-01T00:00:00Z" [provider "p1" ["m1"]; provider "p2" ["m2"]];
                        node_of "a" "A" "" []] |} |} |}.
Definition gossip_message (sig : string) : GossipMessage := {|
  m_Type := "sync"; m_FromNode := "b"; TrustPoolVersion := 1; ScoreDigest := ""; m_Timestamp := "2026-01-02T00:00:00Z";
  m_Signature := sig; m_Payload := ""; KnownPeers := []; m_DHTAddr := "10.0.0.9:19001" |}.
(** A signature is the name of its key. *)
Definition by_name {A} (key : string) (_ : A) (sig : string) : bool := bool_decide (key = sig).
Definition demo_receive (now : Time) (served sig : string) :=
  handleFederationGossip (λ _, "") (λ _, "A") "" by_name (λ _, served) now (Some (gossip_message sig)) gossip_demo.
Definition day (d : Z) : Time := days_from_civil 2026 1 d * 86400 * second.

Lemma gossip_touches_sender_only_witness :
  GetNode "a" (fed (demo_receive (day 2) "" "K").2) = GetNode "a" (fed gossip_demo).
Proof.
  pose proof (gossip_touches_sender_only (λ _, "") (λ _, "A") "" by_name (λ _, "") (day 2) (Some (gossip_message "K"))
    gossip_demo (demo_receive (day 2) "" "K").1.1 (demo_receive (day 2) "" "K").1.2 (demo_receive (day 2) "" "K").2) as (_ & H & _).
  - intros id p Hp. change ((∅ : gmap string NodeInfo) !! id = Some p) in Hp. by rewrite lookup_empty in Hp.
  - unfold demo_receive. by destruct (handleFederationGossip _ _ _ _ _ _ _ _) as [[??]?].
  - apply H. by intros m [= <-].
Defined.

Lemma providers_converge_witness :
  ∃ s', GetNode "b" (fed (handleProviderSync by_name (day 3) (Some (broadcastProviderSync (λ _, "K") (day 3) "b" demo_ps))
    (receive_announcements by_name gossip_demo
      (imap (λ k a, (day 2, a)) (broadcastLocalProviders (λ _, "K") (λ _, "K") (λ _, day 3) "b" demo_ps).1))).2) = Some s' ∧
    SharedProviders s' ≡ₚ demo_ps.
Proof.
  pose proof (providers_converge by_name by_name (λ _, "K") (λ _, "K") (λ _, day 3) (λ _, day 2) (day 3) gossip_demo "b"
    (node_of "b" "K" "2026-01-01T00:00:00Z" [provider "p1" ["m1"]; provider "p2" ["m2"]]) demo_ps) as H.
  cbn [broadcastLocalProviders fst] in H |- *. destruct (handleProviderSync _ _ _ _) as [code n'].
  apply H; [split_and!; [done|apply not_elem_of_nil|done|done]|repeat constructor; set_solver..|done|done].
Defined.

(** A provider that came listed twice, in a record of the trust pool, stays: the broadcast updates the first
    entry only, and the old models of the second one remain. *)
Example listed_twice_stays :
  let n := {| self := self gossip_demo; hints := hints gossip_demo; seen := Some ∅; ledger := None; reputations := None;
    manual_peers := None;
    fed := {| enabled := true; localPeers := ∅; dht := None;
              trustPool := {| Version := 1; UpdatedAt := ""; Registry := ""; Tombstones := [];
                Nodes := [node_of "b" "K" "" [provider "p1" ["old"]; provider "p1" ["old"]]] |} |} |} in
  let '(anns, sync) := broadcastLocalProviders (λ _, "K") (λ _, "K") (λ _, day 3) "b" [provider "p1" ["new"]] in
  let '(code, n') := handleProviderSync by_name (day 3) (Some sync)
    (receive_announcements by_name n (imap (λ k a, (day 2, a)) anns)) in
  code = 200 ∧ SharedProviders <$> GetNode "b" (fed n') = Some [provider "p1" ["new"]; provider "p1" ["old"]].
Proof. vm_compute. done. Qed.

(** A message that is signed by nobody makes the node replace the key it holds for the sender by the
    one the sender's address serves at that moment. *)
Example bad_message_replaces_key :
  (demo_receive (day 2) "E" "").1.1 = 403 ∧
  PubKey <$> GetNode "b" (fed gossip_demo) = Some "K" ∧ PubKey <$> GetNode "b" (fed (demo_receive (day 2) "E" "").2) = Some "E".
Proof. vm_compute. done. Qed.

(** A message heard again months later makes its sender a node seen just now. *)
Example replay_keeps_alive :
  (demo_receive (day 200) "" "K").1.1 = 200 ∧
  LastSeen <$> GetNode "b" (fed (demo_receive (day 200) "" "K").2) = Some (fmt_rfc3339 UTC (day 200)).
Proof. vm_compute. done. Qed.

(** The answer of a round writes back the record of the peer as it was when the round began: what was
    announced meanwhile is gone. *)
Example round_undoes_announcement :
  let peer := node_of "b" "K" "2026-01-01T00:00:00Z" [provider "p1" ["m1"]; provider "p2" ["m2"]] in
  let n := receive_announcements by_name gossip_demo
             [(day 2, broadcastAnnouncement (λ _, "K") (day 2) "b" (provider "p9" ["m9"]))] in
  let n' := processGossipResponse (λ _, "") (λ _, None) (λ _, None) (day 2) (gossip_message "") peer n in
  (length <$> (SharedProviders <$> GetNode "b" (fed n))) = Some 3%nat ∧
  (length <$> (SharedProviders <$> GetNode "b" (fed n'))) = Some 2%nat.
Proof. vm_compute. done. Qed.

(** The address that answered is pinned for whichever node gossip named with it. *)
Example wrong_node_pinned :
  let h := NoteDHTHint "victim" "10.0.0.9:19001" {| discoveryHints := ∅; dhtHints := ∅; dhtVerified := ∅ |} in
  let h := pin_bootstrapped [("victim", "10.0.0.9:19001")] (λ _, true) "a" h in
  DHTHint "victim" (NoteDHTHint "victim" "192.168.1.5:19001" h) = "10.0.0.9:19001".
Proof. vm_compute. done. Qed.
End demo.
