(* ===== verification/NetworkQuota.v ===== *)
(** * The quota of the open key (network_quota.go)

    What the network has, the part of it the open key may use, the equal share of a node, its
    bounded cache, and the share of a node in the global pool. The order in which the cache is walked
    is an argument. *)

From S2P Require Import Prelude GoTime.
From S2P Require TrustPool Network ContribQuota GlobalPool AlgoGovernance.

Record QuotaInfo := {
  qi_NodeID : string; GlobalQuota : Z; UserQuota : Z; ReputationShare : float64; ContributionShare : float64;
  qi_LastUpdated : string }.

Record OpenKeyQuotaManager := { quotaCache : gmap string QuotaInfo; lastRefresh : Time }.

Definition initQuotaManager : OpenKeyQuotaManager := {| quotaCache := ∅; lastRefresh := time_zero |}.

Section quota.
(** The managers the calculation reads; any of them may not be there. *)
Context (netMgr : option Network.NetworkConfig) (contribQuotaTracker : option ContribQuota.entries)
        (fed : option TrustPool.TrustPool) (params : AlgoGovernance.AlgorithmParams).

(** ** Calculation *)

Definition peer_resources (total : Z) (p : Network.PeerInfo) : Z :=
  if bool_decide (Network.pi_Status p = "online")
  then total +! int_of_float (fmul (Network.TrustScore p) (float_of_int 10000)) else total.
Definition node_resources (total : Z) (n : TrustPool.NodeInfo) : Z :=
  if 0 <? TrustPool.TokenBudget n then total +! TrustPool.TokenBudget n
  else if bool_decide (TrustPool.Status n = "active") then total +! 50000 else total.

Definition CalculateGlobalQuota : Z :=
  match netMgr with
  | None => 0
  | Some c =>
      let total := match contribQuotaTracker with
                   | Some t => match ContribQuota.GetQuota (Network.c_NodeID c) t with
                               | Some q => ContribQuota.ContributedTokens q | None => 0 end
                   | None => 0
                   end in
      let total := foldl peer_resources total (Network.Peers c) in
      let total := match fed with Some pool => foldl node_resources total (TrustPool.Nodes pool) | None => total end in
      let total := if total <? 10000 then 10000 else total in
      int_of_float (fmul (float_of_int total) (AlgoGovernance.OpenKeyRatio params))
  end.

Definition active_nodes : Z :=
  let count := match netMgr with
               | None => 0
               | Some c =>
                   (if bool_decide (Network.c_NodeID c = "") then 0 else 1)
                   + Z.of_nat (length (filter (λ p, Network.pi_Status p = "online") (Network.Peers c)))
               end
               + match fed with
                 | None => 0
                 | Some pool => Z.of_nat (length (filter (λ n, TrustPool.Status n = "active") (TrustPool.Nodes pool)))
                 end in
  if count <? 1 then 1 else count.

Definition user_share (globalQuota : Z) : Z :=
  let q := Z.quot globalQuota active_nodes in
  let q := if q <? 100 then 100 else q in
  if globalQuota <? q then globalQuota else q.

(** ** The cache *)

Definition maxQuotaCacheEntries : nat := 1024.

Definition oldest_step (st : string * string) (kv : string * QuotaInfo) : string * string :=
  if bool_decide (st.1 = "") || str_ltb (qi_LastUpdated kv.2) st.2 then (kv.1, qi_LastUpdated kv.2) else st.
Definition oldest (walk : list (string * QuotaInfo)) : string := (foldl oldest_step ("", "") walk).1.

(** [walk] is the order in which a map is visited. *)
Context (walk : gmap string QuotaInfo → list (string * QuotaInfo)).

Fixpoint evict_rounds (rounds : nat) (c : gmap string QuotaInfo) : gmap string QuotaInfo :=
  match rounds with
  | O => c
  | S rounds =>
      if (size c <=? maxQuotaCacheEntries)%nat then c
      else let id := oldest (walk c) in
           if bool_decide (id = "") then c else evict_rounds rounds (delete id c)
  end.
Definition evictQuotaCacheLocked (c : gmap string QuotaInfo) : gmap string QuotaInfo := evict_rounds (size c) c.

Definition CalculateUserQuota (now : Time) (nodeID : string) (m : OpenKeyQuotaManager) : QuotaInfo * OpenKeyQuotaManager :=
  let globalQuota := CalculateGlobalQuota in
  let share := fdiv (float_of_int 1) (float_of_int active_nodes) in
  let info := {| qi_NodeID := nodeID; GlobalQuota := globalQuota; UserQuota := user_share globalQuota;
                 ReputationShare := share; ContributionShare := share; qi_LastUpdated := fmt_rfc3339 UTC now |} in
  (info, {| quotaCache := evictQuotaCacheLocked (<[nodeID := info]> (quotaCache m)); lastRefresh := lastRefresh m |}).

Definition GetCachedQuota (now : Time) (nodeID : string) (m : OpenKeyQuotaManager) : QuotaInfo * OpenKeyQuotaManager :=
  match quotaCache m !! nodeID with Some info => (info, m) | None => CalculateUserQuota now nodeID m end.

Definition RefreshAllQuotas (now : Time) (m : OpenKeyQuotaManager) : OpenKeyQuotaManager :=
  match netMgr with
  | None => m
  | Some c =>
      let nodes := (if bool_decide (Network.c_NodeID c = "") then [] else [Network.c_NodeID c])
                   ++ (Network.pi_NodeID <$> Network.Peers c) in
      let m := foldl (λ m id, (CalculateUserQuota now id m).2) m nodes in
      {| quotaCache := quotaCache m; lastRefresh := now |}
  end.

(** [None] for status 400. *)
Definition handleOpenKeyQuota (now : Time) (query : string) (m : OpenKeyQuotaManager)
    : option (QuotaInfo * Z) * OpenKeyQuotaManager :=
  let nodeID := if bool_decide (query = "") then match netMgr with Some c => Network.c_NodeID c | None => "" end else query in
  if bool_decide (nodeID = "") then (None, m)
  else let '(info, m) := CalculateUserQuota now nodeID m in (Some (info, CalculateGlobalQuota), m).

(** The answer is every quota in the cache, in the order visited, and the whole. *)
Definition handleOpenKeyQuotaAll (now : Time) (m : OpenKeyQuotaManager) : (list QuotaInfo * Z) * OpenKeyQuotaManager :=
  let m := RefreshAllQuotas now m in (((walk (quotaCache m)).*2, CalculateGlobalQuota), m).

(** *** What it guarantees *)

(** The share of a node is what an equal division of the quota gives, as long as that is a hundred
    tokens: then the shares of all the nodes counted fit in the quota and leave less than one token
    per node. It is never more than the whole. *)
Theorem shares_are_equal g :
  user_share g ≤ g ∧ 1 ≤ active_nodes ∧
  (100 * active_nodes ≤ g → active_nodes * user_share g ≤ g < active_nodes * (user_share g + 1)).
Proof.
  assert (1 ≤ active_nodes) as Hn by (unfold active_nodes; case_match; lia).
  unfold user_share. set (n := active_nodes) in *. clearbody n.
  split; [|split; [done|]].
  - destruct (Z.ltb_spec (Z.quot g n) 100); case_match; lia.
  - intros Hg. rewrite Z.quot_div_nonneg by lia.
    pose proof (Z.mul_div_le g n ltac:(lia)). pose proof (Z.mul_succ_div_gt g n ltac:(lia)).
    assert (100 ≤ g / n) by (apply Z.div_le_lower_bound; lia).
    destruct (Z.ltb_spec (g / n) 100); [lia|]. destruct (Z.ltb_spec g (g / n)); nia.
Qed.

Lemma oldest_from l st :
  st.1 ≠ "" → (∀ kv, kv ∈ l → kv.1 ≠ "") →
  let r := foldl oldest_step st l in
  r.1 ≠ "" ∧ (r = st ∨ ∃ kv, kv ∈ l ∧ r = (kv.1, qi_LastUpdated kv.2)) ∧
  str_ltb st.2 r.2 = false ∧ ∀ kv, kv ∈ l → str_ltb (qi_LastUpdated kv.2) r.2 = false.
Proof.
  revert st. induction l as [|kv l IH]; intros st Hst Hl.
  { cbn. split_and!; [done|by left|apply str_ltb_irrefl|]. intros ? []%elem_of_nil. }
  cbn [foldl]. assert (kv.1 ≠ "") as Hk by (apply Hl; by left).
  assert (∀ x, x ∈ l → x.1 ≠ "") as Hl' by (intros x Hx; apply Hl; by right).
  assert (oldest_step st kv = st ∧ str_ltb (qi_LastUpdated kv.2) st.2 = false ∨
          oldest_step st kv = (kv.1, qi_LastUpdated kv.2) ∧ str_ltb (qi_LastUpdated kv.2) st.2 = true) as [[-> Hlt]|[-> Hlt]].
  { unfold oldest_step. rewrite bool_decide_eq_false_2 by done. cbn [orb]. destruct (str_ltb _ _); auto. }
  - destruct (IH st Hst Hl') as (R1 & R2 & R3 & R4). split_and!; [done| |done|].
    + destruct R2 as [R2|(x & Hx & R2)]; [by left|right; exists x; split; [by right|done]].
    + intros x [->|Hx]%elem_of_cons; [|by apply R4].
      apply not_true_iff_false. intros E.
      destruct (str_ltb st.2 (qi_LastUpdated kv.2)) eqn:E2; [pose proof (str_ltb_trans _ _ _ E2 E); congruence|].
      rewrite (str_ltb_total _ _ E2 Hlt) in R3. congruence.
  - destruct (IH (kv.1, qi_LastUpdated kv.2) Hk Hl') as (R1 & R2 & R3 & R4). cbn [snd] in R3. split_and!; [done| | |].
    + right. destruct R2 as [R2|(x & Hx & R2)]; [exists kv; split; [by left|done]|exists x; split; [by right|done]].
    + apply not_true_iff_false. intros E. pose proof (str_ltb_trans _ _ _ Hlt E). congruence.
    + intros x [->|Hx]%elem_of_cons; [done|by apply R4].
Qed.

(** The map is walked completely, each key once. *)
Context (walk_ok : ∀ c, walk c ≡ₚ map_to_list c).

Lemma oldest_spec c :
  c ≠ ∅ → c !! "" = None →
  ∃ q, c !! oldest (walk c) = Some q ∧ oldest (walk c) ≠ "" ∧
       ∀ id q', c !! id = Some q' → str_ltb (qi_LastUpdated q') (qi_LastUpdated q) = false.
Proof using walk_ok.
  intros Hne Hno. unfold oldest. pose proof (walk_ok c) as Hw.
  assert (∀ kv, kv ∈ walk c → kv.1 ≠ "") as Hk.
  { intros [id q] Hin. rewrite Hw in Hin. apply elem_of_map_to_list in Hin. cbn. congruence. }
  destruct (walk c) as [|[k q] l] eqn:E.
  { exfalso. apply Hne. apply Permutation_nil in Hw. by apply map_to_list_empty_iff. }
  cbn [foldl]. change (oldest_step ("", "") (k, q)) with (k, qi_LastUpdated q).
  destruct (oldest_from l (k, qi_LastUpdated q)) as (R1 & R2 & R3 & R4);
    [apply (Hk (k, q)); by left|intros kv Hin; apply Hk; by right|].
  assert (∃ kv, kv ∈ (k, q) :: l ∧ foldl oldest_step (k, qi_LastUpdated q) l = (kv.1, qi_LastUpdated kv.2)) as ([i r] & Hin & Hr).
  { destruct R2 as [R2|(kv & Hin & R2)]; [exists (k, q); split; [by left|done]|exists kv; split; [by right|done]]. }
  rewrite Hr in R1, R3, R4 |- *. cbn [fst snd] in *. exists r. split_and!; [|done|].
  - apply elem_of_map_to_list. by rewrite <- Hw.
  - intros id q' Hq. apply elem_of_map_to_list in Hq. rewrite <- Hw in Hq. apply elem_of_cons in Hq as [[= -> ->]|Hq]; [done|].
    by apply (R4 (id, q')).
Qed.

(** The entry of one id. *)
Definition cache_ok (c : gmap string QuotaInfo) : Prop := (size c ≤ maxQuotaCacheEntries)%nat ∧ c !! "" = None.

(** After any calculation for a named node the cache holds at most 1024 entries; at most one other was
    dropped for it, and none that stays, the new one included, is older than the one dropped. *)
Theorem cache_is_bounded now id m :
  id ≠ "" → cache_ok (quotaCache m) →
  let '(info, m') := CalculateUserQuota now id m in
  let full := <[id := info]> (quotaCache m) in
  cache_ok (quotaCache m') ∧
  (quotaCache m' = full ∨ ∃ x q, full !! x = Some q ∧ quotaCache m' = delete x full ∧
     ∀ y q', full !! y = Some q' → str_ltb (qi_LastUpdated q') (qi_LastUpdated q) = false).
Proof using walk_ok.
  intros Hid [Hs Hno]. unfold CalculateUserQuota. set (info := {| qi_NodeID := id; GlobalQuota := _; UserQuota := _;
    ReputationShare := _; ContributionShare := _; qi_LastUpdated := _ |}). cbn [quotaCache].
  set (full := <[id := info]> (quotaCache m)).
  assert (full !! "" = None) as Hf by (unfold full; by rewrite lookup_insert_ne).
  assert (size full ≤ S maxQuotaCacheEntries)%nat as Hsz.
  { unfold full. rewrite map_size_insert. case_match; cbn; lia. }
  unfold evictQuotaCacheLocked. destruct (size full) as [|k] eqn:Ek.
  { apply map_size_empty_inv in Ek. pose proof (lookup_insert_eq (quotaCache m) id info) as Hi. fold full in Hi. by rewrite Ek, lookup_empty in Hi. }
  cbn [evict_rounds].
  rewrite Ek. destruct (Nat.leb_spec (S k) maxQuotaCacheEntries) as [Hle|Hgt].
  - split; [split; [lia|done]|by left].
  - destruct (oldest_spec full) as (q & Hq & Hn & Hmin); [intros E; rewrite E, map_size_empty in Ek; done|done|].
    rewrite bool_decide_eq_false_2 by done. set (x := oldest (walk full)) in *.
    assert (size (delete x full) = k) as Hd by (rewrite map_size_delete, Hq, Ek; done).
    assert (evict_rounds k (delete x full) = delete x full) as ->.
    { destruct k; cbn [evict_rounds]; [done|]. rewrite Hd. by rewrite (proj2 (Nat.leb_le _ _)) by lia. }
    split; [split; [lia|by rewrite lookup_delete_ne]|]. right. by exists x, q.
Qed.
End quota.

(** ** The share in the global pool *)

Definition CalculateGlobalPoolQuota (params : option AlgoGovernance.AlgorithmParams) (globalPool : option GlobalPool.GlobalPool) : Z :=
  match globalPool with
  | None => 0
  | Some gp =>
      let available := GlobalPool.AvailableQuota gp in
      if available <=? 0 then 0
      else
        let ratio := match params with
                     | Some p => if fltb f_zero (AlgoGovernance.GlobalPoolAvailabilityRatio p)
                                 then AlgoGovernance.GlobalPoolAvailabilityRatio p else AlgoGovernance.percent 80
                     | None => AlgoGovernance.percent 80
                     end in
        int_of_float (fmul (float_of_int available) ratio)
  end.

Definition CalculateNodeGlobalPoolShare (params : option AlgoGovernance.AlgorithmParams)
    (globalPool : option GlobalPool.GlobalPool) (nodeID : string) : Z :=
  match globalPool with
  | None => 0
  | Some gp =>
      if GlobalPool.TotalContributed gp <=? 0 then 0
      else
        let nodeContrib := zget (GlobalPool.NodeContributions gp) nodeID in
        if nodeContrib <=? 0 then 0
        else int_of_float (fmul (fdiv (float_of_int nodeContrib) (float_of_int (GlobalPool.TotalContributed gp)))
                                (float_of_int (CalculateGlobalPoolQuota params globalPool)))
  end.

(** ** Concrete quotas *)

Section demo.
Let peer (id : string) : Network.PeerInfo := {|
  Network.pi_NodeID := id; Network.pi_Name := ""; Network.pi_Region := ""; Network.pi_Models := []; Network.pi_Status := "online";
  Network.pi_LastSeen := ""; Network.TrustScore := f_zero; Network.pi_JoinedAt := ""; Network.pi_Addresses := [];
  Network.Unlocked := false; Network.pi_ShareToPool := false; Network.pi_PubKey := "" |}.
Let config (n : nat) : option Network.NetworkConfig :=
  Some (Network.with_peers (replicate n (peer "p")) 0 0 Network.default_config).

(** With many nodes the floor of a hundred tokens gives away more than there is. *)
Example floor_over_commits :
  let g := CalculateGlobalQuota (config 200) None None AlgoGovernance.DefaultAlgorithmParams in
  g = 3000 ∧ active_nodes (config 200) None * user_share (config 200) None g = 20000.
Proof. vm_compute. done. Qed.

(** An entry without an id that is visited last and is the oldest stops the eviction. *)
Example nameless_entry_stops_eviction :
  let q t := {| qi_NodeID := ""; GlobalQuota := 0; UserQuota := 0; ReputationShare := f_zero; ContributionShare := f_zero;
                qi_LastUpdated := t |} in
  oldest [("a", q "2026-01-02T00:00:00Z"); ("", q "2026-01-01T00:00:00Z")] = "" ∧
  oldest [("", q "2026-01-01T00:00:00Z"); ("a", q "2026-01-02T00:00:00Z")] = "a".
Proof. vm_compute. done. Qed.

Lemma cache_is_bounded_witness :
  cache_ok (quotaCache (CalculateUserQuota (config 2) None None AlgoGovernance.DefaultAlgorithmParams map_to_list 0 "n" initQuotaManager).2).
Proof.
  pose proof (cache_is_bounded (config 2) None None AlgoGovernance.DefaultAlgorithmParams map_to_list
    (λ c, Permutation_refl _) 0 "n" initQuotaManager) as H.
  destruct (CalculateUserQuota _ _ _ _ _ _ _ _) as [info m']. apply H; [done|]. split; [apply Nat.le_0_l|apply lookup_empty].
Defined.
End demo.
