(* ===== verification/Invite.v ===== *)
(** * The genesis of the network and invitations between nodes (genesis.go, invite.go, handlers.go)

    [computeNetworkID] anchors the network; [inviteManager] issues signed invitations, checks them and
    remembers the used ones; invites.json is the value [inviteData]. The text of a value as JSON,
    Ed25519 and the configuration are parameters. *)

From S2P Require Import Prelude GoTime Bytes Sha256 Providers Identity.
From S2P Require TrustPool.

(** ** Texts JSON gives back *)

Definition utf8_tail (c : Z) : bool := (128 <=? c) && (c <=? 191).

(** [utf8.ValidString], over the bytes. *)
Fixpoint utf8_bytes (l : bytes) : bool :=
  match l with
  | [] => true
  | a :: l1 =>
      if a <? 128 then utf8_bytes l1
      else match l1 with
      | [] => false
      | b :: l2 =>
          if (194 <=? a) && (a <=? 223) then utf8_tail b && utf8_bytes l2
          else match l2 with
          | [] => false
          | c :: l3 =>
              if (224 <=? a) && (a <=? 239)
              then utf8_tail b && utf8_tail c && (if a =? 224 then 160 <=? b else true)
                   && (if a =? 237 then b <=? 159 else true) && utf8_bytes l3
              else match l3 with
              | [] => false
              | d :: l4 =>
                  (240 <=? a) && (a <=? 244) && utf8_tail b && utf8_tail c && utf8_tail d
                  && (if a =? 240 then 144 <=? b else true) && (if a =? 244 then b <=? 143 else true) && utf8_bytes l4
              end
          end
      end
  end.
Definition ValidString (s : string) : bool := utf8_bytes (bytes_of s).

Example valid_strings :
  ValidString <$> ["abc"; str_of [228; 189; 160]; str_of [192; 128]; str_of [237; 160; 128]; str_of [240; 159; 152; 128]]
  = [true; true; false; false; true].
Proof. vm_compute. reflexivity. Qed.

(** ** Genesis *)

Record GenesisBlock := {
  NetworkName : string; GenesisNode : string; GenesisPubKey : string; g_CreatedAt : string; g_Version : Z }.

Definition GenesisConfig : GenesisBlock := {|
  NetworkName := "openmodelpool-mainnet"; GenesisNode := "mm-JG7pKCdqgU8PBijd4m4CXP"; GenesisPubKey := "";
  g_CreatedAt := "2026-07-07T00:00:00Z"; g_Version := 1 |}.

Definition computeNetworkID (json : GenesisBlock → string) (g : GenesisBlock) : string :=
  "0x" +:+ hex (take 16 (sum256 (json g))).

(** The two globals; [None] for a file that is missing or not a genesis. *)
Definition LoadGenesisConfig (json : GenesisBlock → string) (file : option GenesisBlock) (s : GenesisBlock * string)
    : GenesisBlock * string :=
  match file with None => s | Some config => (config, computeNetworkID json config) end.

Definition VerifyNetworkID (NetworkID theirID : string) : bool := bool_decide (theirID = NetworkID).

(** ** Joining *)

Record NodeJoinRequest := {
  jr_NetworkID : string; jr_NodeID : string; jr_PubKey : string; jr_Endpoint : string; InviteSig : string }.
Record NodeJoinResponse := { Accepted : bool; jp_NetworkID : string; Reason : string; Peers : list TrustPool.NodeInfo }.

Definition HandleJoinRequest (NetworkID : string) (fed : option TrustPool.TrustPool) (req : NodeJoinRequest) : NodeJoinResponse :=
  if negb (VerifyNetworkID NetworkID (jr_NetworkID req)) then
    {| Accepted := false; jp_NetworkID := NetworkID;
       Reason := "network_id mismatch: expected " +:+ NetworkID +:+ ", got " +:+ jr_NetworkID req; Peers := [] |}
  else if (String.length (jr_NodeID req) <? 5)%nat || negb (bool_decide (String.substring 0 4 (jr_NodeID req) = "mmx-")) then
    {| Accepted := false; jp_NetworkID := ""; Reason := "invalid node_id format"; Peers := [] |}
  else if bool_decide (jr_PubKey req = "") then
    {| Accepted := false; jp_NetworkID := ""; Reason := "pub_key is required"; Peers := [] |}
  else
    {| Accepted := true; jp_NetworkID := NetworkID; Reason := "";
       Peers := match fed with
                | None => []
                | Some pool => filter (λ n, TrustPool.Status n = "active") (TrustPool.Nodes pool)
                end |}.

Definition handleJoinNetwork (NetworkID : string) (fed : option TrustPool.TrustPool) (body : option NodeJoinRequest)
    : Z * option NodeJoinResponse :=
  match body with
  | None => (400, None)
  | Some req => let resp := HandleJoinRequest NetworkID fed req in (if Accepted resp then 200 else 403, Some resp)
  end.

(** ** Invitations *)

Record FederationInvitePayload := {
  p_NetworkID : string; p_Inviter : string; p_InviteePub : string; p_InviteeName : string; p_Endpoint : string;
  p_ExpiresAt : string; p_Type : string; p_CreatedAt : string }.

Record FederationInvite := {
  NetworkID : string; Inviter : string; InviterKey : string; InviteePub : string; InviteeName : string;
  i_Endpoint : string; i_ExpiresAt : string; i_Type : string; i_CreatedAt : string; i_Signature : string }.

Definition FederationInviteDirected : string := "directed".
Definition FederationInvitePublic : string := "public".
Definition FederationInviteChain : string := "chain".

Definition payload_of (i : FederationInvite) : FederationInvitePayload := {|
  p_NetworkID := NetworkID i; p_Inviter := Inviter i; p_InviteePub := InviteePub i; p_InviteeName := InviteeName i;
  p_Endpoint := i_Endpoint i; p_ExpiresAt := i_ExpiresAt i; p_Type := i_Type i; p_CreatedAt := i_CreatedAt i |}.

Definition invite_texts (i : FederationInvite) : list string :=
  [NetworkID i; Inviter i; InviterKey i; InviteePub i; InviteeName i; i_Endpoint i; i_ExpiresAt i; i_Type i; i_CreatedAt i;
   i_Signature i].

Definition code_of (p : FederationInvitePayload) (key sig : string) : FederationInvite := {|
  NetworkID := p_NetworkID p; Inviter := p_Inviter p; InviterKey := key; InviteePub := p_InviteePub p;
  InviteeName := p_InviteeName p; i_Endpoint := p_Endpoint p; i_ExpiresAt := p_ExpiresAt p; i_Type := p_Type p;
  i_CreatedAt := p_CreatedAt p; i_Signature := sig |}.

(** The manager, and its file: [None] when it is missing or cannot be read. *)
Record inviteData := { d_Issued : option (gmap string FederationInvite); d_Used : option (gmap string bool) }.
Record inviteManager := { issued : gmap string FederationInvite; used : gmap string bool; invites_file : option inviteData }.

Definition load (m : inviteManager) : inviteManager :=
  match invites_file m with
  | None => m
  | Some d => {| issued := default (issued m) (d_Issued d); used := default (used m) (d_Used d); invites_file := invites_file m |}
  end.

Definition initInviteManager (file : option inviteData) : inviteManager :=
  load {| issued := ∅; used := ∅; invites_file := file |}.

(** [writes] says whether the file can be written. *)
Definition saveLocked (writes : bool) (m : inviteManager) : inviteManager :=
  if writes then {| issued := issued m; used := used m;
                    invites_file := Some {| d_Issued := Some (issued m); d_Used := Some (used m) |} |}
  else m.

Definition GetInvites (walk : gmap string FederationInvite → list FederationInvite) (m : inviteManager) : list FederationInvite :=
  walk (issued m).

(** The address told to others; [get key def] reads the configuration. *)
Definition resolvePublicEndpoint (get : string → string → string) (hostname host : string) : string :=
  if negb (bool_decide (get "federation_endpoint" "" = "")) then get "federation_endpoint" ""
  else if negb (bool_decide (get "public_domain" "" = "")) then get "public_domain" ""
  else if negb (bool_decide (host = "")) then "https://" +:+ host
  else "http://" +:+ hostname +:+ ":" +:+ get "service_port" "8000".

Inductive invite_error :=
| NetworkMismatch | InvalidExpiry | InviteExpired | AlreadyUsed | InvalidSignatureEncoding | InvalidKeyEncoding
| SignatureFailed.

Section invite.
Context `{Encryptor} (ed25519_sign : bytes → bytes → bytes) (Verify : bytes → bytes → bytes → bool).
(** The JSON of a payload. *)
Context (json : FederationInvitePayload → string).
(** [NetworkID] of the node. *)
Context (network : string).

Definition payload_hash (p : FederationInvitePayload) : bytes := sum256 (json p).

Definition signPayload (node : option NodeIdentity) (p : FederationInvitePayload) : option bytes :=
  match node with
  | None => None
  | Some n => let sigB64 := Sign ed25519_sign (payload_hash p) n in
              if bool_decide (sigB64 = "") then None else b64_decode sigB64
  end.

Definition verifyPayloadSignature (p : FederationInvitePayload) (sig pubKeyBytes : bytes) : bool :=
  if negb (bool_decide (length pubKeyBytes = 32%nat)) then false else Verify pubKeyBytes (payload_hash p) sig.

Definition inviteID (p : FederationInvitePayload) : string := "inv-" +:+ hex (take 8 (payload_hash p)).

Definition inviteIDFromCode (i : FederationInvite) : string := inviteID {|
  p_NetworkID := NetworkID i; p_Inviter := Inviter i; p_InviteePub := InviteePub i; p_InviteeName := "";
  p_Endpoint := i_Endpoint i; p_ExpiresAt := i_ExpiresAt i; p_Type := i_Type i; p_CreatedAt := i_CreatedAt i |}.

Definition CreateInvite (now : Time) (node : option NodeIdentity) (endpoint inviteePub inviteeName inviteType : string)
    (expiresInHours : Z) (writes : bool) (m : inviteManager) : option FederationInvite * inviteManager :=
  match node with
  | None => (None, m)
  | Some n =>
      if negb (IsInitialized n) then (None, m)
      else
        let payload := {|
          p_NetworkID := network; p_Inviter := nodeID n; p_InviteePub := inviteePub; p_InviteeName := inviteeName;
          p_Endpoint := endpoint; p_ExpiresAt := fmt_rfc3339 UTC (now + wrap64 (expiresInHours * hour));
          p_Type := inviteType; p_CreatedAt := fmt_rfc3339 UTC now |} in
        match signPayload node payload with
        | None => (None, m)
        | Some sig =>
            let invite := code_of payload (PubKeyB64 n) (b64_encode sig) in
            (Some invite, saveLocked writes {| issued := <[inviteID payload := invite]> (issued m); used := used m;
                                               invites_file := invites_file m |})
        end
  end.

(** [None] when the invitation is good. *)
Definition VerifyInvite (now : Time) (i : FederationInvite) (m : inviteManager) : option invite_error :=
  if negb (bool_decide (NetworkID i = network)) then Some NetworkMismatch
  else match parse_rfc3339 (i_ExpiresAt i) with
  | None => Some InvalidExpiry
  | Some expiresAt =>
      if after now expiresAt then Some InviteExpired
      else if default false (used m !! inviteIDFromCode i) && bool_decide (i_Type i = FederationInviteDirected) then Some AlreadyUsed
      else match b64_decode (i_Signature i) with
      | None => Some InvalidSignatureEncoding
      | Some sigBytes =>
          match b64_decode (InviterKey i) with
          | None => Some InvalidKeyEncoding
          | Some pubKeyBytes =>
              if negb (verifyPayloadSignature (payload_of i) sigBytes pubKeyBytes) then Some SignatureFailed else None
          end
      end
  end.

Definition MarkUsed (writes : bool) (i : FederationInvite) (m : inviteManager) : inviteManager :=
  saveLocked writes {| issued := issued m; used := <[inviteIDFromCode i := true]> (used m); invites_file := invites_file m |}.

(** The invitation as text: JSON in the URL alphabet of base64; the standard one is read too. *)
Context (Marshal : FederationInvite → bytes) (Unmarshal : bytes → option FederationInvite).

Definition b64url_encode (b : bytes) : string := replace_char "/" "_" (replace_char "+" "-" (b64_encode b)).
Definition b64url_decode (s : string) : option bytes :=
  if has_char "+" s || has_char "/" s then None else b64_decode (replace_char "_" "/" (replace_char "-" "+" s)).

Definition EncodeInvite (i : FederationInvite) : string := b64url_encode (Marshal i).
Definition DecodeInvite (encoded : string) : option FederationInvite :=
  match b64url_decode encoded with
  | Some b => Unmarshal b
  | None => match b64_decode encoded with Some b => Unmarshal b | None => None end
  end.

(** *** Handlers *)

Definition handleCreateInvite (now : Time) (node : option NodeIdentity) (endpoint : string)
    (body : option (string * string * string * Z)) (writes : bool) (m : inviteManager)
    : (Z * option (FederationInvite * string)) * inviteManager :=
  match body with
  | None => ((400, None), m)
  | Some (inviteePub, inviteeName, type, expiresIn) =>
      let inviteePub := if bool_decide (inviteePub = "") then "*" else inviteePub in
      let expiresIn := if expiresIn <=? 0 then 168 else expiresIn in
      let inviteType := if bool_decide (type ∈ [FederationInviteDirected; FederationInvitePublic; FederationInviteChain])
                        then type else FederationInvitePublic in
      match CreateInvite now node endpoint inviteePub inviteeName inviteType expiresIn writes m with
      | (None, m) => ((400, None), m)
      | (Some i, m) => ((200, Some (i, EncodeInvite i)), m)
      end
  end.

(** Status 200 with the error found, or with the invitation. *)
Definition handleVerifyInvite (now : Time) (body : option string) (m : inviteManager)
    : Z * option (FederationInvite + invite_error) :=
  match body with
  | None => (400, None)
  | Some encoded =>
      match DecodeInvite encoded with
      | None => (400, None)
      | Some i => match VerifyInvite now i m with Some e => (200, Some (inr e)) | None => (200, Some (inl i)) end
      end
  end.
End invite.

(** ** What invitations guarantee *)

Lemma replace_has c d x s : x ≠ d → has_char x (replace_char c d s) = if Ascii.eqb x c then false else has_char x s.
Proof.
  intros Hd. induction s as [|y s IH]; cbn [has_char replace_char]; [by destruct (Ascii.eqb x c)|]. rewrite IH.
  destruct (Ascii.eqb y c) eqn:E.
  - apply Ascii.eqb_eq in E as ->. rewrite (proj2 (Ascii.eqb_neq x d)) by done. cbn [orb].
    by destruct (Ascii.eqb x c).
  - destruct (Ascii.eqb x c) eqn:E2; [|done]. apply Ascii.eqb_eq in E2 as ->. by rewrite Ascii.eqb_sym, E.
Qed.

Definition url_char (c : ascii) : bool := Ascii.eqb c "-" || Ascii.eqb c "_".
Lemma b64_char_no_url c v : url_char c = true → 0 ≤ v < 64 → Ascii.eqb c (b64_char v) = false.
Proof.
  intros Hc Hv. assert (forallb (λ v, negb (Ascii.eqb "-" (b64_char v)) && negb (Ascii.eqb "_" (b64_char v)))
    (Z.of_nat <$> seq 0 64) = true) as H by (vm_compute; reflexivity).
  rewrite forallb_forall in H. specialize (H v). rewrite andb_true_iff, !negb_true_iff in H.
  destruct H as [H1 H2]; [|by apply orb_true_iff in Hc as [->%Ascii.eqb_eq| ->%Ascii.eqb_eq]].
  apply list_elem_of_In, list_elem_of_fmap. exists (Z.to_nat v). split; [lia|]. apply elem_of_seq. lia.
Qed.
Lemma b64_no_url c b : url_char c = true → is_bytes b → has_char c (b64_encode b) = false.
Proof.
  intros Hc. assert (Ascii.eqb c "=" = false) as He by (by apply orb_true_iff in Hc as [->%Ascii.eqb_eq| ->%Ascii.eqb_eq]).
  induction b as [|x|x y|x y z b IH] using bytes_ind3; intros Hb; [done|..];
    repeat (apply Forall_cons in Hb as [? Hb]); cbn [b64_encode has_char];
    rewrite ?IH, ?He, ?b64_char_no_url by auto with sextets; done.
Qed.

Lemma url_back s : has_char "-" s = false → has_char "_" s = false →
  replace_char "_" "/" (replace_char "-" "+" (replace_char "/" "_" (replace_char "+" "-" s))) = s.
Proof.
  induction s as [|x s IH]; [done|]. cbn [has_char replace_char]. intros [Hx Hs]%orb_false_iff [Hy Ht]%orb_false_iff.
  rewrite IH by done. f_equal. rewrite Ascii.eqb_sym in Hx, Hy. destruct (Ascii.eqb x "+") eqn:E1.
  { by apply Ascii.eqb_eq in E1 as ->. }
  destruct (Ascii.eqb x "/") eqn:E2; [by apply Ascii.eqb_eq in E2 as ->|]. by rewrite Hx, Hy.
Qed.

Lemma b64url_decode_encode b : is_bytes b → b64url_decode (b64url_encode b) = Some b.
Proof.
  intros Hb. unfold b64url_decode, b64url_encode. rewrite !replace_has by done. cbn [orb].
  change (Ascii.eqb "+" "+") with true. change (Ascii.eqb "/" "/") with true. change (Ascii.eqb "+" "/") with false. cbn [orb].
  rewrite url_back by (by apply b64_no_url). by apply b64_decode_encode.
Qed.

Definition in_years (t : Time) : Prop :=
  days_from_civil 0 1 1 * 86400 ≤ t / second < days_from_civil 10000 1 1 * 86400.

Section invite_safety.
Context `{Encryptor} (ed25519_sign : bytes → bytes → bytes) (Verify : bytes → bytes → bytes → bool)
  (json : FederationInvitePayload → string) (network : string).

Abbreviation verify := (VerifyInvite Verify json network).
Abbreviation id_of := (inviteIDFromCode json).

(** *** Checks *)

(** A payload signed with a key, in an invitation that carries both. *)
Lemma verify_signed_key now m p key pub sig e :
  p_NetworkID p = network → parse_rfc3339 (p_ExpiresAt p) = Some e →
  b64_decode key = Some pub → length pub = 32%nat → is_bytes sig → Verify pub (payload_hash json p) sig = true →
  let i := code_of p key (b64_encode sig) in
  verify now i m = None ↔ now ≤ e ∧ (used m !! id_of i = Some true → p_Type p ≠ FederationInviteDirected).
Proof.
  intros Hn He Hp Hl Hs Hv i. unfold VerifyInvite. cbn [NetworkID i_ExpiresAt i_Type i_Signature InviterKey code_of i].
  rewrite bool_decide_eq_true_2, He by done. cbn [negb]. unfold after.
  destruct (Z.ltb_spec e now); [split; [done|lia]|].
  rewrite b64_decode_encode, Hp by done. unfold verifyPayloadSignature. rewrite (bool_decide_eq_true_2 (length pub = 32%nat)) by done. cbn [negb].
  assert (payload_of i = p) as Hpi by (by destruct p). fold i. rewrite Hpi, Hv. cbn [negb].
  destruct (used m !! id_of i) as [[]|]; cbn; [|split; intros; (split; [lia|done]) || done..].
  destruct (bool_decide_reflect (p_Type p = FederationInviteDirected)).
  - split; [done|]. intros [_ Hd]. by destruct Hd.
  - split; [|done]. intros _. split; [lia|done].
Qed.

(** *** The state over time *)

Inductive invite_op :=
  | VCreate (now : Time) (node : option NodeIdentity) (endpoint pub name type : string) (hours : Z) (writes : bool)
  | VMark (i : FederationInvite) (writes : bool)
  | VRestart.

Definition invite_step (m : inviteManager) (o : invite_op) : inviteManager :=
  match o with
  | VCreate now node ep pub name ty hours writes =>
      (CreateInvite ed25519_sign json network now node ep pub name ty hours writes m).2
  | VMark i writes => MarkUsed json writes i m
  | VRestart => initInviteManager (invites_file m)
  end.
Definition invite_run (m : inviteManager) (h : list invite_op) : inviteManager := foldl invite_step m h.

(** An id is marked in memory and in the file. *)
Definition marked (id : string) (m : inviteManager) : Prop :=
  used m !! id = Some true ∧ ∃ d u, invites_file m = Some d ∧ d_Used d = Some u ∧ u !! id = Some true.

Lemma save_marked id w m :
  used m !! id = Some true →
  (∃ d u, invites_file m = Some d ∧ d_Used d = Some u ∧ u !! id = Some true) ∨ w = true → marked id (saveLocked w m).
Proof.
  intros Hu Hf. unfold saveLocked. destruct w.
  - split; [done|]. by eexists _, _.
  - split; [done|]. by destruct Hf as [Hf|[=]].
Qed.

Lemma step_marked id m o : marked id m → marked id (invite_step m o).
Proof.
  intros [Hu Hf]. destruct o as [now node ep pub name ty hours w|i w|]; cbn [invite_step].
  - unfold CreateInvite. destruct node as [n|]; [|done]. destruct (negb (IsInitialized n)); [done|].
    case_match; [|done]. cbn [snd]. apply save_marked; cbn [used invites_file]; auto.
  - apply save_marked; cbn [used invites_file]; [|auto].
    destruct (decide (id = id_of i)) as [->|Hne]; [apply lookup_insert_eq|by rewrite lookup_insert_ne].
  - unfold marked, initInviteManager, load. destruct Hf as (d & u & Hd & Hud & Hi). cbn [invites_file]. rewrite Hd. cbn [used invites_file].
    rewrite Hud. split; [done|]. by exists d, u.
Qed.

Lemma run_marked id h m : marked id m → marked id (invite_run m h).
Proof. revert m. induction h as [|o h IH]; intros m Hm; [done|]. apply IH, step_marked, Hm. Qed.

Lemma marked_refused now id m i :
  marked id m → id_of i = id → i_Type i = FederationInviteDirected → verify now i m ≠ None.
Proof.
  intros [Hu _] <- Hd. unfold VerifyInvite. destruct (negb _); [done|]. case_match; [|done]. case_match; [done|].
  by rewrite Hu, bool_decide_eq_true_2.
Qed.

(** A directed invitation that was used, and whose mark reached the file, is never good again, whatever
    is issued, marked or restarted later. *)
Theorem used_invite_is_refused now m i h :
  i_Type i = FederationInviteDirected →
  verify now i (invite_run (MarkUsed json true i m) h) ≠ None.
Proof.
  intros Hd. apply (marked_refused now (id_of i)); [|done|done]. apply run_marked, save_marked; [|by right].
  apply lookup_insert_eq.
Qed.

(** The id under which the use of an invitation is noted does not depend on the name of the invitee, so
    the use of one is the use of every other that differs only in the name. *)
Theorem name_shares_the_mark now m i name h :
  i_Type i = FederationInviteDirected →
  let other := {| NetworkID := NetworkID i; Inviter := Inviter i; InviterKey := InviterKey i; InviteePub := InviteePub i;
                  InviteeName := name; i_Endpoint := i_Endpoint i; i_ExpiresAt := i_ExpiresAt i; i_Type := i_Type i;
                  i_CreatedAt := i_CreatedAt i; i_Signature := i_Signature i |} in
  verify now other (invite_run (MarkUsed json true i m) h) ≠ None.
Proof.
  intros Hd other. apply (marked_refused now (id_of i)); [|done|done]. apply run_marked, save_marked; [|by right].
  apply lookup_insert_eq.
Qed.

(** Nothing ties the inviter to its key: whoever has a key makes invitations in the name of any node. *)
Theorem inviter_is_not_checked now m p pub sign e inviter :
  let p := {| p_NetworkID := network; p_Inviter := inviter; p_InviteePub := p_InviteePub p; p_InviteeName := p_InviteeName p;
              p_Endpoint := p_Endpoint p; p_ExpiresAt := p_ExpiresAt p; p_Type := FederationInvitePublic;
              p_CreatedAt := p_CreatedAt p |} in
  is_bytes pub → length pub = 32%nat → (∀ msg, is_bytes (sign msg) ∧ Verify pub msg (sign msg) = true) →
  parse_rfc3339 (p_ExpiresAt p) = Some e → now ≤ e →
  verify now (code_of p (b64_encode pub) (b64_encode (sign (payload_hash json p)))) m = None.
Proof.
  intros q Hp Hl Hs He Hnow. destruct (Hs (payload_hash json q)) as [Hb Hv].
  apply (verify_signed_key now m q _ pub _ e); try done. by apply b64_decode_encode.
Qed.

(** *** Issued by a node *)

Context (NewMnemonic : bytes → option string) (IsMnemonicValid : string → bool) (NewSeed : string → bytes)
  (hmac_sha512 : bytes → bytes → bytes) (NewKeyFromSeed : bytes → bytes)
  (Marshal : FederationInvite → bytes) (Unmarshal : bytes → option FederationInvite).
(** What the identity of a node relies on, and that JSON gives back texts that are valid UTF-8. *)
Hypothesis seal_law : ∀ s c, seal s = Some c → IsEncrypted c = true ∧ unseal c = Some s.
Hypothesis mnemonic_law : ∀ e m, NewMnemonic e = Some m → IsMnemonicValid m = true ∧ trimSpace m = m.
Hypothesis valid_law : ∀ m, IsMnemonicValid m = true → m ≠ "" ∧ IsEncrypted m = false.
Hypothesis key_law : ∀ s, length (NewKeyFromSeed s) = 64%nat ∧ is_bytes (NewKeyFromSeed s).
Hypothesis sign_law : ∀ s m, let priv := NewKeyFromSeed s in
  Verify (public_of priv) m (ed25519_sign priv m) = true ∧ length (ed25519_sign priv m) = 64%nat ∧
  is_bytes (ed25519_sign priv m).
Hypothesis marshal_law : ∀ i, Forall ValidString (invite_texts i) → is_bytes (Marshal i) ∧ Unmarshal (Marshal i) = Some i.

Lemma decode_encode_invite i : Forall ValidString (invite_texts i) →
  DecodeInvite Unmarshal (EncodeInvite Marshal i) = Some i.
Proof using marshal_law.
  intros Hi. destruct (marshal_law i Hi) as [Hb Hm]. unfold DecodeInvite, EncodeInvite. by rewrite b64url_decode_encode.
Qed.

(** C20. An initialised node, whatever the history of its identity under one master key (so that its private
    key opens), issues an invitation in its name; and if the texts in it are valid UTF-8, its code is
    accepted by the check of every node of the network up to the second it expires, unless it is directed
    and noted as used there; not later. The date it expires has a year of four digits. *)
Theorem issued_invite_verifies hist now ep pub name ty hours w m :
  let n := (identity_run NewMnemonic IsMnemonicValid NewSeed hmac_sha512 NewKeyFromSeed hist).1 in
  let e := now + wrap64 (hours * hour) in
  IsInitialized n = true → in_years e →
  ∃ i m', CreateInvite ed25519_sign json network now (Some n) ep pub name ty hours w m = (Some i, m') ∧
    Inviter i = nodeID n ∧ InviteePub i = pub ∧ issued m' !! inviteID json (payload_of i) = Some i ∧ used m' = used m ∧
    (Forall ValidString (invite_texts i) →
     ∀ now' m'', handleVerifyInvite Verify json network Unmarshal now' (Some (EncodeInvite Marshal i)) m'' = (200, Some (inl i)) ↔
      now' ≤ e / second * second ∧ (used m'' !! id_of i = Some true → ty ≠ FederationInviteDirected)).
Proof using seal_law mnemonic_law valid_law key_law sign_law marshal_law.
  intros n e Hi He. unfold CreateInvite. rewrite Hi. cbn [negb]. fold e.
  set (p := {| p_NetworkID := network; p_Inviter := nodeID n; p_InviteePub := pub; p_InviteeName := name;
               p_Endpoint := ep; p_ExpiresAt := fmt_rfc3339 UTC e; p_Type := ty; p_CreatedAt := fmt_rfc3339 UTC now |}).
  destruct (run_signs _ IsMnemonicValid _ _ _ ed25519_sign Verify seal_law mnemonic_law valid_law key_law sign_law
    hist (payload_hash json p) Hi) as (k & sig & Hk & Hl & _ & Hs & Hsb & Hsl & Hv). fold n in Hk, Hs.
  assert (b64_encode sig ≠ "") as Hne by (destruct sig as [|? [|? [|? ?]]]; cbn in Hsl |- *; discriminate).
  assert (signPayload ed25519_sign json (Some n) p = Some sig) as ->.
  { unfold signPayload. rewrite Hs, bool_decide_eq_false_2 by done. by apply b64_decode_encode. }
  eexists _, _. split; [done|].
  assert (payload_of (code_of p (PubKeyB64 n) (b64_encode sig)) = p) as Hp by (by destruct p).
  split_and!; [done|done| |by unfold saveLocked; destruct w|].
  { rewrite Hp. unfold saveLocked. destruct w; cbn [issued]; apply lookup_insert_eq. }
  intros Hvs now' m''. unfold handleVerifyInvite. rewrite decode_encode_invite by done.
  set (i := code_of p (PubKeyB64 n) (b64_encode sig)).
  assert (parse_rfc3339 (p_ExpiresAt p) = Some (e / second * second)) as Hpe by (by apply parse_fmt_rfc3339).
  pose proof (verify_signed_key now' m'' p (PubKeyB64 n) k sig _ eq_refl Hpe Hk Hl Hsb Hv) as Hx. fold i in Hx.
  change (p_Type p) with ty in Hx. rewrite <- Hx. destruct (verify now' i m''); split; congruence.
Qed.

End invite_safety.

(** ** Joining *)

(** Joining the network needs its id, a node id of the right shape and any public key; the invitation
    that may come with the request is not looked at. A node that joins is told active nodes only. *)
Theorem join_needs_no_invitation network fed req sig :
  let resp := HandleJoinRequest network fed req in
  (Accepted resp = true ↔
   jr_NetworkID req = network ∧ (∃ rest, jr_NodeID req = "mmx-" +:+ rest ∧ rest ≠ "") ∧ jr_PubKey req ≠ "") ∧
  HandleJoinRequest network fed {| jr_NetworkID := jr_NetworkID req; jr_NodeID := jr_NodeID req; jr_PubKey := jr_PubKey req;
                                   jr_Endpoint := jr_Endpoint req; InviteSig := sig |} = resp ∧
  Forall (λ n, TrustPool.Status n = "active") (Peers resp).
Proof.
  intros resp. split_and!; [|done|].
  - subst resp. unfold HandleJoinRequest, VerifyNetworkID. destruct (bool_decide_reflect (jr_NetworkID req = network)) as [Hn|Hn];
      cbn [negb]; [|split; [done|by intros [? _]]].
    assert ((String.length (jr_NodeID req) <? 5)%nat || negb (bool_decide (String.substring 0 4 (jr_NodeID req) = "mmx-")) = false
            ↔ ∃ rest, jr_NodeID req = "mmx-" +:+ rest ∧ rest ≠ "") as Hid.
    { rewrite orb_false_iff, Nat.ltb_ge, negb_false_iff, bool_decide_eq_true. split.
      - intros [Hl Hs]. destruct (jr_NodeID req) as [|a [|b [|c [|d [|x s]]]]]; cbn in Hl; try lia.
        cbn in Hs. injection Hs as -> -> -> ->. by exists (String x s).
      - intros (rest & -> & Hr). destruct rest as [|x s]; [done|]. split; [|by cbn; destruct s].
        rewrite str_length_app. cbn [String.length]. lia. }
    destruct (_ || _) eqn:E.
    + split; [done|]. intros (_ & Hr & _). apply Hid in Hr. congruence.
    + destruct (bool_decide_reflect (jr_PubKey req = "")); cbn [Accepted]; [split; [done|naive_solver]|].
      split; [|done]. intros _. split_and!; [done|by apply Hid|done].
  - subst resp. unfold HandleJoinRequest. repeat case_match; cbn [Peers]; try constructor. apply Forall_forall. intros n [Hn _]%list_elem_of_filter. done.
Qed.

(** ** Concrete invitations *)

Section demo.
Let json (p : FederationInvitePayload) : string :=
  join "|"%char [p_NetworkID p; p_Inviter p; p_InviteePub p; p_InviteeName p; p_Endpoint p; p_ExpiresAt p; p_Type p; p_CreatedAt p].
Let n : NodeIdentity := (IdentityDemo.run [IGenerate 0 (Some []) 12]).1.
Let m0 : inviteManager := initInviteManager None.
Let issue (name : string) (hours : Z) : option FederationInvite * inviteManager :=
  @CreateInvite IdentityDemo.no_encryptor IdentityDemo.sign json "0xnet" 0 (Some n) "https://n" "key" name "directed" hours true m0.
Let check := VerifyInvite IdentityDemo.verify json "0xnet".

(** An invitation for a named invitee is kept under one id, and its use noted under another; the use of
    the same invitation for another name is refused too. *)
Example named_invitation_two_ids :
  match issue "alice" 1, issue "bob" 1 with
  | (Some i, m), (Some j, _) =>
      check 5 i m = None ∧ check 5 j m = None ∧ map_to_list (used (MarkUsed json true i m)) ≠ [] ∧
      issued m !! inviteIDFromCode json i = None ∧
      check 5 i (MarkUsed json true i m) = Some AlreadyUsed ∧ check 5 j (MarkUsed json true i m) = Some AlreadyUsed
  | _, _ => False
  end.
Proof. vm_compute. split_and!; done. Qed.

(** The hours of an invitation overflow: a very long one has expired when it is issued. *)
Example endless_invitation_is_past :
  match issue "alice" 2562048 with
  | (Some i, m) => i_ExpiresAt i = "1677-09-21T00:25:26Z" ∧ check 0 i m = Some InviteExpired
  | _ => False
  end.
Proof. vm_compute. done. Qed.

(** The genesis node of the network would not be let in. *)
Example genesis_node_is_refused :
  Accepted (HandleJoinRequest "0xnet" None {| jr_NetworkID := "0xnet"; jr_NodeID := GenesisNode GenesisConfig;
    jr_PubKey := "key"; jr_Endpoint := ""; InviteSig := "" |}) = false.
Proof. reflexivity. Qed.
End demo.

(** A text of an invitation that can be read back. *)
Fixpoint pos_bits (p : positive) : bytes :=
  match p with xH => [] | xO p => 0 :: pos_bits p | xI p => 1 :: pos_bits p end.
Fixpoint bits_pos (l : bytes) : positive :=
  match l with [] => xH | b :: l => if b =? 0 then xO (bits_pos l) else xI (bits_pos l) end.
Definition demo_marshal (i : FederationInvite) : bytes := pos_bits (encode [NetworkID i; Inviter i; InviterKey i; InviteePub i;
  InviteeName i; i_Endpoint i; i_ExpiresAt i; i_Type i; i_CreatedAt i; i_Signature i]).
Definition demo_unmarshal (b : bytes) : option FederationInvite :=
  match decode (A := list string) (bits_pos b) with
  | Some [net; inviter; key; pub; name; ep; ex; ty; at'; sig] => Some {|
      NetworkID := net; Inviter := inviter; InviterKey := key; InviteePub := pub; InviteeName := name; i_Endpoint := ep;
      i_ExpiresAt := ex; i_Type := ty; i_CreatedAt := at'; i_Signature := sig |}
  | _ => None
  end.
Lemma demo_marshal_law i : Forall ValidString (invite_texts i) → is_bytes (demo_marshal i) ∧ demo_unmarshal (demo_marshal i) = Some i.
Proof.
  intros _. split; [unfold demo_marshal; generalize (encode [NetworkID i; Inviter i; InviterKey i; InviteePub i; InviteeName i;
    i_Endpoint i; i_ExpiresAt i; i_Type i; i_CreatedAt i; i_Signature i]); intros p; induction p; constructor; try done; lia|].
  assert (∀ p, bits_pos (pos_bits p) = p) as Hp by (intros p; induction p as [p IH|p IH|]; cbn; congruence).
  unfold demo_unmarshal, demo_marshal. rewrite Hp, decode_encode. by destruct i.
Qed.

Lemma issued_invite_verifies_witness :
  let n := (IdentityDemo.run [IGenerate 0 (Some []) 12]).1 in
  ∃ i m', @CreateInvite IdentityDemo.no_encryptor IdentityDemo.sign p_InviteeName "0xnet" 0 (Some n) "https://n" "key" "alice"
            "directed" 24 true (initInviteManager None) = (Some i, m') ∧
    handleVerifyInvite IdentityDemo.verify p_InviteeName "0xnet" demo_unmarshal (24 * hour) (Some (EncodeInvite demo_marshal i)) m'
      = (200, Some (inl i)).
Proof.
  intros n.
  destruct (@issued_invite_verifies IdentityDemo.no_encryptor IdentityDemo.sign IdentityDemo.verify p_InviteeName "0xnet"
    IdentityDemo.words IdentityDemo.valid bytes_of IdentityDemo.hmac IdentityDemo.key_of demo_marshal demo_unmarshal)
    with (hist := [IGenerate 0 (Some []) 12]) (now := 0) (ep := "https://n") (pub := "key") (name := "alice") (ty := "directed")
         (hours := 24) (w := true) (m := initInviteManager None) as (i & m' & Hc & _ & _ & _ & Hu & Hv).
  - intros s c [=].
  - intros e m [= <-]. by split.
  - intros m ->%bool_decide_eq_true. by split.
  - intros s. split; [reflexivity|by apply demo_bytes].
  - intros s m. split_and!; [reflexivity|reflexivity|by apply demo_bytes].
  - apply demo_marshal_law.
  - vm_compute. reflexivity.
  - vm_compute. split; [discriminate|reflexivity].
  - exists i, m'. split; [exact Hc|]. apply Hv.
    + assert (from_option (λ i, forallb ValidString (invite_texts i)) false (Some i) = true) as Ht.
      { apply (f_equal fst) in Hc. cbn [fst] in Hc. rewrite <- Hc. vm_compute. reflexivity. }
      cbn [from_option] in Ht. rewrite forallb_forall in Ht. apply Forall_forall. intros t Hin.
      by apply Is_true_true, Ht, list_elem_of_In.
    + split; [vm_compute; discriminate|]. rewrite Hu. intros [=].
Defined.

Lemma used_invite_is_refused_witness :
  let p := {| p_NetworkID := "0xnet"; p_Inviter := "mmx-a"; p_InviteePub := "key"; p_InviteeName := ""; p_Endpoint := "";
              p_ExpiresAt := "1970-01-02T00:00:00Z"; p_Type := "directed"; p_CreatedAt := "" |} in
  let i := code_of p (b64_encode (replicate 32 1)) (b64_encode (replicate 64 1)) in
  VerifyInvite IdentityDemo.verify p_InviteeName "0xnet" 0 i (initInviteManager None) = None ∧
  VerifyInvite IdentityDemo.verify p_InviteeName "0xnet" 0 i
    (@invite_run IdentityDemo.no_encryptor IdentityDemo.sign p_InviteeName "0xnet"
       (MarkUsed p_InviteeName true i (initInviteManager None)) [VRestart]) ≠ None.
Proof.
  intros p i. split; [vm_compute; reflexivity|].
  apply (@used_invite_is_refused IdentityDemo.no_encryptor IdentityDemo.sign IdentityDemo.verify p_InviteeName "0xnet" 0
    (initInviteManager None) i [VRestart]). reflexivity.
Defined.
