(* ===== verification/Integrity.v ===== *)
(** * Integrity of the data files (data_integrity.go)

    A file is the HMAC-SHA256 of a text and the text, or the text alone when the node has no key. The
    text of a value as JSON and its reading are parameters. *)

From S2P Require Import Prelude Bytes Sha256.

(** ** HMAC-SHA256 (crypto/hmac, crypto/sha256) *)

Definition sha256 (b : bytes) : bytes := sum256 (str_of b).
Definition hmac_block : nat := 64.
Definition hmac_key (key : bytes) : bytes :=
  let k := if (hmac_block <? length key)%nat then sha256 key else key in k ++ replicate (hmac_block - length k) 0.
Definition hmac (key data : bytes) : bytes :=
  let k := hmac_key key in
  sha256 ((Z.lxor 92 <$> k) ++ sha256 ((Z.lxor 54 <$> k) ++ data)).

(** Test case 2 of RFC 4231. *)
Example hmac_rfc4231 :
  hex (hmac (bytes_of "Jefe") (bytes_of "what do ya want for nothing?"))
  = "5bdcc146bf60754e6a042426089575c75a003f089d2739839dec58b964ec3843".
Proof. vm_compute. reflexivity. Qed.

Definition hmacSize : nat := 32.

Lemma hmac_length key data : length (hmac key data) = hmacSize.
Proof. unfold hmac, sha256. apply sum256_length. Qed.

#[local] Opaque hmac.

(** ** Files *)

(** The key of the encryptor, [None] when it is not there or not ready. *)
Notation enc_key := (option bytes).

Definition computeHMAC (enc : enc_key) (data : bytes) : option bytes := (λ key, hmac key data) <$> enc.

Definition verifyHMAC (enc : enc_key) (data storedMAC : bytes) : bool :=
  match computeHMAC enc data with None => false | Some expected => bool_decide (storedMAC = expected) end.

(** A file, [None] when it does not exist; [writes] says whether it can be written. The first component
    is [true] for success. *)
Definition writeWithIntegrity (enc : enc_key) (writes : bool) (data : bytes) (file : option bytes) : bool * option bytes :=
  let full := match computeHMAC enc data with None => data | Some mac => mac ++ data end in
  if writes then (true, Some full) else (false, file).

Inductive load_result (V : Type) := NotThere | ParseError | IntegrityError | Loaded (v : V).
Arguments NotThere {V}.
Arguments ParseError {V}.
Arguments IntegrityError {V}.
Arguments Loaded {V} _.

Section integrity.
Context {V : Type}.
(** [json.MarshalIndent], [json.Unmarshal] into the value, and whether a text is JSON at all. *)
Context (MarshalIndent : V → option bytes) (Unmarshal : bytes → option V) (is_json : bytes → bool).

Definition saveWithIntegrity (enc : enc_key) (writes : bool) (v : V) (file : option bytes) : bool * option bytes :=
  match MarshalIndent v with None => (false, file) | Some data => writeWithIntegrity enc writes data file end.

Definition unmarshal_result (data : bytes) : load_result V :=
  match Unmarshal data with Some v => Loaded v | None => ParseError end.

Definition loadWithIntegrity (enc : enc_key) (file : option bytes) : load_result V :=
  match file with
  | None => NotThere
  | Some raw =>
      if (length raw <? hmacSize)%nat then unmarshal_result raw
      else
        let storedMAC := take hmacSize raw in let payload := drop hmacSize raw in
        if verifyHMAC enc payload storedMAC then unmarshal_result payload
        else if is_json raw then unmarshal_result raw else IntegrityError
  end.

(** *** What it guarantees *)

(** A value is read back from its text, and its text is JSON. *)
Hypothesis json_law : ∀ v t, MarshalIndent v = Some t → Unmarshal t = Some v ∧ is_json t = true.

(** The text happens to begin with the HMAC of its rest. *)
Definition self_mac (key t : bytes) : Prop := take hmacSize t = hmac key (drop hmacSize t).

Lemma verify_hmac_spec enc data mac : verifyHMAC enc data mac = true ↔ ∃ key, enc = Some key ∧ mac = hmac key data.
Proof.
  unfold verifyHMAC, computeHMAC. destruct enc as [key|]; cbn [fmap option_fmap option_map]; rewrite ?bool_decide_eq_true.
  - split; [by exists key|]. by intros (? & [= <-] & ->).
  - split; [done|]. by intros (? & [=] & _).
Qed.

Lemma load_sealed key t : loadWithIntegrity (Some key) (Some (hmac key t ++ t)) = unmarshal_result t.
Proof.
  unfold loadWithIntegrity. rewrite (proj2 (Nat.ltb_ge _ _)) by (rewrite length_app, hmac_length; lia).
  rewrite take_app_length', drop_app_length' by (by rewrite hmac_length).
  by rewrite (proj2 (verify_hmac_spec _ _ _)) by (by exists key).
Qed.

Lemma load_plain enc t v :
  MarshalIndent v = Some t → (∀ key, enc = Some key → ¬ self_mac key t) → loadWithIntegrity enc (Some t) = Loaded v.
Proof using json_law.
  intros Ht Hm. destruct (json_law v t Ht) as [Hu Hj]. unfold loadWithIntegrity, unmarshal_result.
  destruct (_ <? _)%nat; [by rewrite Hu|]. rewrite Hj, Hu.
  rewrite (not_true_is_false (verifyHMAC _ _ _)); [done|]. intros (key & He & Hs)%verify_hmac_spec. by apply (Hm key He).
Qed.

(** The saves of a file, with the key of the time and whether the write succeeds. *)
Definition save_step (file : option bytes) (s : enc_key * bool * V) : option bytes :=
  (saveWithIntegrity s.1.1 s.1.2 s.2 file).2.

(** Whatever is saved in between fails, the file gives the value of the last save that succeeded: with the
    key it was saved with; and, when it was saved without one, with any key that does not by chance
    authenticate its own text. *)
Theorem last_save_is_loaded file enc v t failed enc' :
  MarshalIndent v = Some t → Forall (λ s : enc_key * bool * V, s.1.2 = false) failed →
  match enc with Some _ => enc' = enc | None => ∀ key, enc' = Some key → ¬ self_mac key t end →
  (saveWithIntegrity enc true v file).1 = true ∧
  loadWithIntegrity enc' (foldl save_step (saveWithIntegrity enc true v file).2 failed) = Loaded v.
Proof using json_law.
  intros Ht Hf He. assert (∀ f, foldl save_step f failed = f) as Hfold.
  { induction Hf as [|[[e w] u] l Hw _ IH]; intros f; [done|]. cbn in Hw |- *. subst w. rewrite IH.
    unfold save_step, saveWithIntegrity, writeWithIntegrity. cbn. by destruct (MarshalIndent u). }
  rewrite Hfold. unfold saveWithIntegrity, writeWithIntegrity. rewrite Ht. split; [done|].
  destruct enc as [key|]; cbn [computeHMAC fmap option_fmap option_map snd].
  - subst enc'. rewrite load_sealed. unfold unmarshal_result. by destruct (json_law v t Ht) as [-> _].
  - by apply load_plain.
Qed.

(** What is ever loaded: a text that the file authenticates with the key of the node, or else a file that
    is short or JSON as a whole, which nothing authenticates. *)
Theorem loaded_is_authentic_or_plain enc file v :
  loadWithIntegrity enc file = Loaded v →
  (∃ key t, enc = Some key ∧ file = Some (hmac key t ++ t) ∧ Unmarshal t = Some v) ∨
  (∃ t, file = Some t ∧ Unmarshal t = Some v ∧ ((length t < hmacSize)%nat ∨ is_json t = true)).
Proof.
  unfold loadWithIntegrity. destruct file as [raw|]; [|done].
  assert (∀ t, unmarshal_result t = Loaded v → Unmarshal t = Some v) as Hr.
  { intros t. unfold unmarshal_result. destruct (Unmarshal t); congruence. }
  destruct (Nat.ltb_spec (length raw) hmacSize); [intros Hv; right; exists raw; auto|].
  destruct (verifyHMAC _ _ _) eqn:E.
  - intros Hv. apply verify_hmac_spec in E as (key & -> & E). left. exists key, (drop hmacSize raw). split_and!; [done| |auto].
    by rewrite <- E, take_drop.
  - destruct (is_json raw) eqn:Ej; [|done]. intros Hv. right. exists raw. auto.
Qed.

(** A file that is neither shorter than an HMAC nor JSON as a whole, and that the key of the node does not
    authenticate, is refused: a changed text, a changed HMAC, another key or no key. *)
Theorem changed_file_is_refused enc file :
  (∀ raw, file = Some raw → (hmacSize ≤ length raw)%nat ∧ is_json raw = false) →
  (∀ key t, enc = Some key → file ≠ Some (hmac key t ++ t)) →
  file ≠ None → loadWithIntegrity enc file = IntegrityError.
Proof.
  intros Hj Hk Hn. destruct file as [raw|]; [|done]. destruct (Hj raw eq_refl) as [Hl Hr]. unfold loadWithIntegrity.
  rewrite (proj2 (Nat.ltb_ge _ _)) by done. rewrite (not_true_is_false (verifyHMAC _ _ _)).
  - by rewrite Hr.
  - intros (key & -> & E)%verify_hmac_spec. apply (Hk key (drop hmacSize raw) eq_refl). by rewrite <- E, take_drop.
Qed.

(** The check does not detect who replaces the whole file by a plain text: no key is needed for the node,
    whatever its key, to load any value. *)
Theorem stripping_is_not_detected key v t :
  MarshalIndent v = Some t → ¬ self_mac key t → loadWithIntegrity (Some key) (Some t) = Loaded v.
Proof using json_law. intros Ht Hm. apply load_plain; [done|]. by intros key' [= <-]. Qed.
End integrity.

(** ** A concrete file *)

Module IntegrityDemo.
(** A value is its text; a text is JSON when it opens with a brace. *)
Definition marshal (v : bytes) : option bytes := match v with 123 :: _ => Some v | _ => None end.
Definition is_json (t : bytes) : bool := match t with 123 :: _ => true | _ => false end.
Definition key : bytes := bytes_of "secret".
Definition value : bytes := bytes_of "{ 'open_key_ratio': 0.3, 'version': 7 }".
Definition forged : bytes := bytes_of "{ 'open_key_ratio': 0.9, 'version': 8 }".
Lemma json_law v t : marshal v = Some t → Some t = Some v ∧ is_json t = true.
Proof. destruct v as [|x v]; [done|]. cbn. intros H. destruct x as [|x|]; try done. by repeat (destruct x; try done; simplify_eq). Qed.
End IntegrityDemo.

Lemma last_save_is_loaded_witness :
  loadWithIntegrity Some IntegrityDemo.is_json (Some IntegrityDemo.key)
    (foldl (save_step IntegrityDemo.marshal) (saveWithIntegrity IntegrityDemo.marshal (Some IntegrityDemo.key) true IntegrityDemo.value None).2
       [(None, false, IntegrityDemo.forged)]) = Loaded IntegrityDemo.value.
Proof.
  apply (last_save_is_loaded IntegrityDemo.marshal Some IntegrityDemo.is_json IntegrityDemo.json_law None (Some IntegrityDemo.key)
    IntegrityDemo.value IntegrityDemo.value).
  - reflexivity.
  - repeat constructor.
  - reflexivity.
Defined.

(** A changed text under the old HMAC is refused, the same text alone is loaded. *)
Example forged_text_alone :
  let mac := hmac IntegrityDemo.key IntegrityDemo.value in
  loadWithIntegrity Some IntegrityDemo.is_json (Some IntegrityDemo.key) (Some (mac ++ IntegrityDemo.forged)) = IntegrityError ∧
  loadWithIntegrity Some IntegrityDemo.is_json (Some IntegrityDemo.key) (Some IntegrityDemo.forged) = Loaded IntegrityDemo.forged.
Proof. vm_compute. done. Qed.
