(* ===== verification/Balance.v ===== *)
(** * The balance of contribution and consumption (network_balance.go)

    [BalanceEngine] keeps what each node gave and took, and every cycle derives the adjustments of the
    nodes from it. The order in which a map is visited is an argument; timers are not modelled. *)

From S2P Require Import Prelude GoTime.

Record NodeBalance := {
  nb_NodeID : string; TotalContributed : Z; TotalConsumed : Z; nb_Balance : float64; ContributionRate : float64;
  ConsumptionRate : float64; LastCalculated : string }.

Record GlobalBalance := {
  TotalNetworkContribution : Z; TotalNetworkConsumption : Z; NetworkBalanceRatio : float64; AverageNodeBalance : float64;
  ImbalanceNodes : Z }.

Record BalanceConfig := {
  TargetRatio : float64; UnderConsumerThreshold : float64; OverContributorThreshold : float64; AdjustmentStrength : float64;
  QuotaAdjustment : bool; PriorityAdjustment : bool; RoutingPreference : bool }.

(** [n / 10], as the source's decimal literals round. *)
Definition tenths (n : Z) : float64 := fdiv (float_of_int n) (float_of_int 10).
Definition f_one : float64 := float_of_int 1.

Definition DefaultBalanceConfig : BalanceConfig := {|
  TargetRatio := f_one; UnderConsumerThreshold := tenths 5; OverContributorThreshold := float_of_int 3;
  AdjustmentStrength := tenths 3; QuotaAdjustment := true; PriorityAdjustment := true; RoutingPreference := true |}.

Record BalanceAdjustment := {
  ba_NodeID : string; ba_Type : string; PriorityDelta : Z; RoutingWeightMultiplier : float64; QuotaMultiplier : float64;
  Suggestion : string; AppliedAt : string }.

Record BalanceHistory := {
  bh_Timestamp : string; GlobalSnap : GlobalBalance; Adjustments : list BalanceAdjustment; CycleDurationMS : Z }.

Record BalanceEngine := {
  nodeBalance : gmap string NodeBalance; globalBal : GlobalBalance; config : BalanceConfig;
  adjustments : gmap string BalanceAdjustment; history : list BalanceHistory }.

Definition no_global : GlobalBalance := {|
  TotalNetworkContribution := 0; TotalNetworkConsumption := 0; NetworkBalanceRatio := f_zero; AverageNodeBalance := f_zero;
  ImbalanceNodes := 0 |}.
Definition initBalanceEngine : BalanceEngine := {|
  nodeBalance := ∅; globalBal := no_global; config := DefaultBalanceConfig; adjustments := ∅; history := [] |}.

Definition new_node (id : string) : NodeBalance := {|
  nb_NodeID := id; TotalContributed := 0; TotalConsumed := 0; nb_Balance := f_zero; ContributionRate := f_zero;
  ConsumptionRate := f_zero; LastCalculated := "" |}.
Definition with_nodes (m : gmap string NodeBalance) (be : BalanceEngine) : BalanceEngine := {|
  nodeBalance := m; globalBal := globalBal be; config := config be; adjustments := adjustments be; history := history be |}.

(** ** Recording *)

Definition add_contributed (tokens : Z) (nb : NodeBalance) : NodeBalance := {|
  nb_NodeID := nb_NodeID nb; TotalContributed := TotalContributed nb +! tokens; TotalConsumed := TotalConsumed nb;
  nb_Balance := nb_Balance nb; ContributionRate := ContributionRate nb; ConsumptionRate := ConsumptionRate nb;
  LastCalculated := LastCalculated nb |}.
Definition add_consumed (tokens : Z) (nb : NodeBalance) : NodeBalance := {|
  nb_NodeID := nb_NodeID nb; TotalContributed := TotalContributed nb; TotalConsumed := TotalConsumed nb +! tokens;
  nb_Balance := nb_Balance nb; ContributionRate := ContributionRate nb; ConsumptionRate := ConsumptionRate nb;
  LastCalculated := LastCalculated nb |}.

Definition RecordContributionBalance (id : string) (tokens : Z) (be : BalanceEngine) : BalanceEngine :=
  if tokens <=? 0 then be
  else with_nodes (<[id := add_contributed tokens (default (new_node id) (nodeBalance be !! id))]> (nodeBalance be)) be.
Definition RecordConsumptionBalance (id : string) (tokens : Z) (be : BalanceEngine) : BalanceEngine :=
  if tokens <=? 0 then be
  else with_nodes (<[id := add_consumed tokens (default (new_node id) (nodeBalance be !! id))]> (nodeBalance be)) be.

(** ** Balances *)

Definition balance_ratio (contributed consumed : Z) : float64 :=
  if 0 <? consumed then fdiv (float_of_int contributed) (float_of_int consumed)
  else if 0 <? contributed then float_of_int 999 else f_one.

Definition recalculated (now : string) (nb : NodeBalance) : NodeBalance := {|
  nb_NodeID := nb_NodeID nb; TotalContributed := TotalContributed nb; TotalConsumed := TotalConsumed nb;
  nb_Balance := balance_ratio (TotalContributed nb) (TotalConsumed nb);
  ContributionRate := fdiv (float_of_int (TotalContributed nb)) f_one;
  ConsumptionRate := fdiv (float_of_int (TotalConsumed nb)) f_one; LastCalculated := now |}.

Definition imbalanced (cfg : BalanceConfig) (b : float64) : bool :=
  fltb b (UnderConsumerThreshold cfg) || fltb (OverContributorThreshold cfg) b.

(** Contributed, consumed, the sum of the ratios and the nodes out of balance. *)
Definition totals_step (cfg : BalanceConfig) (st : Z * Z * float64 * Z) (nb : NodeBalance) : Z * Z * float64 * Z :=
  let '(contrib, consumed, sum, imbalance) := st in
  (contrib +! TotalContributed nb, consumed +! TotalConsumed nb, fadd sum (nb_Balance nb),
   if imbalanced cfg (nb_Balance nb) then imbalance +! 1 else imbalance).

Section engine.
Context `{Location}.
Context (walk : gmap string NodeBalance → list NodeBalance) (walk_adj : gmap string BalanceAdjustment → list BalanceAdjustment).

Definition recalculateBalancesLocked (now : Time) (be : BalanceEngine) : BalanceEngine :=
  let nodes := recalculated (fmt_rfc3339 _ now) <$> nodeBalance be in
  let '(contrib, consumed, sum, imbalance) := foldl (totals_step (config be)) (0, 0, f_zero, 0) (walk nodes) in
  let nodeCount := if (size nodes =? 0)%nat then 1 else Z.of_nat (size nodes) in
  {| nodeBalance := nodes;
     globalBal := {| TotalNetworkContribution := contrib; TotalNetworkConsumption := consumed;
                     NetworkBalanceRatio := if 0 <? consumed then fdiv (float_of_int contrib) (float_of_int consumed) else f_zero;
                     AverageNodeBalance := fdiv sum (float_of_int nodeCount); ImbalanceNodes := imbalance |};
     config := config be; adjustments := adjustments be; history := history be |}.

(** ** Adjustments *)

Definition neutral (id : string) (at' : string) : BalanceAdjustment := {|
  ba_NodeID := id; ba_Type := "balanced"; PriorityDelta := 0; RoutingWeightMultiplier := f_one; QuotaMultiplier := f_one;
  Suggestion := ""; AppliedAt := at' |}.

Definition reduced_multiplier (cfg : BalanceConfig) (b : float64) : float64 :=
  let multiplier := if fltb b (tenths 1) then tenths 1 else b in
  if fltb f_zero (AdjustmentStrength cfg)
  then fadd f_one (fmul (fsub multiplier f_one) (AdjustmentStrength cfg)) else multiplier.
Definition boost_factor (cfg : BalanceConfig) : float64 :=
  if fltb f_zero (AdjustmentStrength cfg)
  then fadd f_one (fmul (fsub (tenths 15) f_one) (AdjustmentStrength cfg)) else tenths 15.

Definition adjustment_of (cfg : BalanceConfig) (now : string) (id : string) (b : float64) : BalanceAdjustment :=
  if fltb b (UnderConsumerThreshold cfg) then {|
    ba_NodeID := id; ba_Type := "reduce_priority"; PriorityDelta := -1; RoutingWeightMultiplier := reduced_multiplier cfg b;
    QuotaMultiplier := reduced_multiplier cfg b; Suggestion := "需要贡献更多算力以维持网络平衡"; AppliedAt := now |}
  else if fltb (OverContributorThreshold cfg) b then {|
    ba_NodeID := id; ba_Type := "boost_priority"; PriorityDelta := 1; RoutingWeightMultiplier := boost_factor cfg;
    QuotaMultiplier := boost_factor cfg; Suggestion := "高贡献者，享受优先路由和额外消费额度"; AppliedAt := now |}
  else neutral id now.

Definition calculateAdjustmentLocked (now : Time) (id : string) (be : BalanceEngine) : BalanceAdjustment :=
  match nodeBalance be !! id with
  | None => neutral id (fmt_rfc3339 _ now)
  | Some nb => adjustment_of (config be) (fmt_rfc3339 _ now) id (nb_Balance nb)
  end.
(** The same under a lock of its own. *)
Definition CalculateAdjustment (now : Time) (id : string) (be : BalanceEngine) : BalanceAdjustment :=
  match nodeBalance be !! id with
  | None => neutral id (fmt_rfc3339 _ now)
  | Some nb => adjustment_of (config be) (fmt_rfc3339 _ now) id (nb_Balance nb)
  end.

(** [took] is the time the cycle took. *)
Definition RunBalanceCycle (now : Time) (took : Z) (be : BalanceEngine) : BalanceEngine :=
  let be := recalculateBalancesLocked now be in
  let newAdjustments := map_imap (λ id _, Some (calculateAdjustmentLocked now id be)) (nodeBalance be) in
  let entry := {| bh_Timestamp := fmt_rfc3339 _ now; GlobalSnap := globalBal be; Adjustments := walk_adj newAdjustments;
                  CycleDurationMS := Z.quot took 1000000 |} in
  let h := history be ++ [entry] in
  {| nodeBalance := nodeBalance be; globalBal := globalBal be; config := config be; adjustments := newAdjustments;
     history := if (100 <? length h)%nat then drop (length h - 100) h else h |}.

(** ** Questions *)

Definition GetAllNodeBalances (be : BalanceEngine) : list NodeBalance :=
  sort_slice (λ a b, fltb (nb_Balance a) (nb_Balance b)) (walk (nodeBalance be)).

Definition type_order (t : string) : Z :=
  if bool_decide (t = "balanced") then 1 else if bool_decide (t = "boost_priority") then 2 else 0.
Definition GetAllAdjustments (be : BalanceEngine) : list BalanceAdjustment :=
  sort_slice (λ a b, type_order (ba_Type a) <? type_order (ba_Type b)) (walk_adj (adjustments be)).

Definition GetAdjustmentForNode (id : string) (be : BalanceEngine) : BalanceAdjustment :=
  default (neutral id "") (adjustments be !! id).

Definition GetBalanceHistory (limit : Z) (be : BalanceEngine) : list BalanceHistory :=
  let n := Z.of_nat (length (history be)) in
  let limit := if (limit <=? 0) || (n <? limit) then n else limit in
  drop (Z.to_nat (n - limit)) (history be).

Definition GetRoutingWeightMultiplier (id : string) (be : option BalanceEngine) : float64 :=
  match be with
  | None => f_one
  | Some be => match adjustments be !! id with Some adj => RoutingWeightMultiplier adj | None => f_one end
  end.
Definition GetPriorityDelta (id : string) (be : option BalanceEngine) : Z :=
  match be with
  | None => 0
  | Some be => match adjustments be !! id with Some adj => PriorityDelta adj | None => 0 end
  end.

(** ** Configuration *)

Definition or_default (bad : bool) (d x : float64) : float64 := if bad then d else x.
Definition UpdateConfig (cfg : BalanceConfig) (be : BalanceEngine) : BalanceEngine := {|
  nodeBalance := nodeBalance be; globalBal := globalBal be;
  config := {|
    TargetRatio := or_default (fleb (TargetRatio cfg) f_zero) f_one (TargetRatio cfg);
    UnderConsumerThreshold := or_default (fleb (UnderConsumerThreshold cfg) f_zero) (tenths 5) (UnderConsumerThreshold cfg);
    OverContributorThreshold :=
      or_default (fleb (OverContributorThreshold cfg) f_zero) (float_of_int 3) (OverContributorThreshold cfg);
    AdjustmentStrength := or_default (fltb (AdjustmentStrength cfg) f_zero || fltb f_one (AdjustmentStrength cfg))
                            (tenths 3) (AdjustmentStrength cfg);
    QuotaAdjustment := QuotaAdjustment cfg; PriorityAdjustment := PriorityAdjustment cfg;
    RoutingPreference := RoutingPreference cfg |};
  adjustments := adjustments be; history := history be |}.
End engine.

(** ** What the engine guarantees *)

Inductive balance_op :=
  | BGive (id : string) (tokens : Z) | BTake (id : string) (tokens : Z)
  | BCycle (now : Time) (took : Z) | BConfig (cfg : BalanceConfig).

Section engine_safety.
Context `{Location}.
Context (walk : gmap string NodeBalance → list NodeBalance) (walk_adj : gmap string BalanceAdjustment → list BalanceAdjustment).
(** A map is walked completely. *)
Context (walk_ok : ∀ m, walk m ≡ₚ (map_to_list m).*2).

Abbreviation cycle := (RunBalanceCycle walk walk_adj).

Definition balance_step (be : BalanceEngine) (o : balance_op) : BalanceEngine :=
  match o with
  | BGive id t => RecordContributionBalance id t be
  | BTake id t => RecordConsumptionBalance id t be
  | BCycle now took => cycle now took be
  | BConfig cfg => UpdateConfig cfg be
  end.
Definition balance_run (h : list balance_op) : BalanceEngine := foldl balance_step initBalanceEngine h.

(** *** What was recorded *)

(** What one operation adds to the contribution and to the consumption of [id], and of anyone. *)
Definition gives (id : string) (o : balance_op) : Z :=
  match o with BGive i t => if bool_decide (i = id) && (0 <? t) then t else 0 | _ => 0 end.
Definition takes (id : string) (o : balance_op) : Z :=
  match o with BTake i t => if bool_decide (i = id) && (0 <? t) then t else 0 | _ => 0 end.
Definition gives_any (o : balance_op) : Z := match o with BGive _ t => if 0 <? t then t else 0 | _ => 0 end.
Definition takes_any (o : balance_op) : Z := match o with BTake _ t => if 0 <? t then t else 0 | _ => 0 end.
Definition concerns (id : string) (o : balance_op) : bool :=
  match o with BGive i t | BTake i t => bool_decide (i = id) && (0 <? t) | _ => false end.

(** The contribution and the consumption of a node over a history, as an int64 counts them. *)
Definition given (id : string) (h : list balance_op) : Z := wsum (gives id <$> h).
Definition taken (id : string) (h : list balance_op) : Z := wsum (takes id <$> h).

Definition books (m : gmap string NodeBalance) (id : string) : option (string * Z * Z) :=
  (λ nb, (nb_NodeID nb, TotalContributed nb, TotalConsumed nb)) <$> m !! id.
Definition expected_books (h : list balance_op) (id : string) : option (string * Z * Z) :=
  if existsb (concerns id) h then Some (id, given id h, taken id h) else None.

Lemma wsum_snoc l x : wsum (l ++ [x]) = wsum l +! x.
Proof. apply wsum_app_singleton. Qed.

Lemma wsum_snoc0 l : wsum (l ++ [0]) = wsum l.
Proof. rewrite wsum_snoc, Z.add_0_r, wsum_zsum. apply wrap64_wrap64. Qed.

Lemma expected_quiet h o id : concerns id o = false → expected_books (h ++ [o]) id = expected_books h id.
Proof.
  intros Ho. unfold expected_books, given, taken. rewrite existsb_app. cbn [existsb]. rewrite Ho, !orb_false_r, !fmap_app.
  cbn [fmap list_fmap]. assert (gives id o = 0 ∧ takes id o = 0) as [-> ->]; [|by rewrite !wsum_snoc0].
  destruct o; cbn in *; rewrite ?Ho; auto.
Qed.

Lemma zsum_zeros n : zsum (replicate n 0) = 0.
Proof. induction n as [|n IH]; [done|]. cbn [replicate]. by rewrite zsum_cons, IH. Qed.

Lemma silent_books h id : existsb (concerns id) h = false → given id h = 0 ∧ taken id h = 0.
Proof.
  intros He. assert (gives id <$> h = replicate (length h) 0 ∧ takes id <$> h = replicate (length h) 0) as [E1 E2].
  { induction h as [|o h IH]; [done|]. cbn in He. apply orb_false_iff in He as [Ho Hh]. destruct (IH Hh) as [E1 E2].
    cbn. rewrite E1, E2. destruct o; cbn in *; rewrite ?Ho; auto. }
  unfold given, taken. rewrite E1, E2, !wsum_zsum.
  by rewrite zsum_zeros.
Qed.

(** One record, of one side. *)
#[local] Ltac recorded h id i t IH Hnb :=
  destruct (Z.leb_spec t 0) as [Ht|Ht];
  [ rewrite expected_quiet; [apply IH|]; cbn; rewrite (proj2 (Z.ltb_ge _ _)) by lia; apply andb_false_r
  | unfold books; cbn [with_nodes nodeBalance]; destruct (decide (i = id)) as [->|Hne];
    [ rewrite lookup_insert_eq; cbn; destruct (Hnb id) as (-> & -> & ->); unfold expected_books, given, taken;
      rewrite existsb_app, !fmap_app; cbn; rewrite bool_decide_eq_true_2, (proj2 (Z.ltb_lt _ _)) by done;
      by rewrite orb_true_r, wsum_snoc0, wsum_snoc
    | rewrite lookup_insert_ne by done; rewrite expected_quiet; [apply IH|]; cbn; by rewrite bool_decide_eq_false_2 ] ].

Lemma books_spec h id : books (nodeBalance (balance_run h)) id = expected_books h id.
Proof.
  revert id. induction h as [|o h IH] using rev_ind; intros id; [done|].
  unfold balance_run. rewrite foldl_app. cbn [foldl]. fold (balance_run h). set (be := balance_run h) in *.
  assert (∀ i, let nb := default (new_node i) (nodeBalance be !! i) in
    nb_NodeID nb = i ∧ TotalContributed nb = given i h ∧ TotalConsumed nb = taken i h) as Hnb.
  { intros i nb. pose proof (IH i) as Hi. unfold books, expected_books in Hi. subst nb.
    destruct (existsb (concerns i) h) eqn:E; destruct (nodeBalance be !! i) as [nb|]; cbn in Hi |- *; try done.
    - by injection Hi as -> -> ->.
    - by destruct (silent_books h i E) as [-> ->]. }
  destruct o as [i t|i t|now took|cfg]; cbn [balance_step].
  - unfold RecordContributionBalance. recorded h id i t IH Hnb.
  - unfold RecordConsumptionBalance. recorded h id i t IH Hnb.
  - rewrite expected_quiet by done. rewrite <- IH. unfold RunBalanceCycle, recalculateBalancesLocked.
    destruct (foldl _ _ _) as [[[? ?] ?] ?]. unfold books. cbn [nodeBalance]. rewrite lookup_fmap. by destruct (nodeBalance be !! id).
  - by rewrite expected_quiet.
Qed.
(** *** The totals of the network *)

Definition map_sum (f : NodeBalance → Z) (m : gmap string NodeBalance) : Z := wsum (f <$> (map_to_list m).*2).

Lemma map_sum_insert (f : NodeBalance → Z) (m : gmap string NodeBalance) id t y :
  f (new_node id) = 0 → f y = f (default (new_node id) (m !! id)) +! t → map_sum f (<[id := y]> m) = map_sum f m +! t.
Proof.
  intros H0 Hy. unfold map_sum. rewrite !wsum_zsum, (map_zsum_insert f (new_node id)), Hy, wrap64_add_l, wrap64_add_r by done. f_equal. lia.
Qed.
Lemma map_sum_keep (f : NodeBalance → Z) (m : gmap string NodeBalance) id y :
  f (new_node id) = 0 → f y = f (default (new_node id) (m !! id)) → map_sum f (<[id := y]> m) = map_sum f m.
Proof. intros H0 Hy. unfold map_sum. rewrite !wsum_zsum, (map_zsum_insert f (new_node id)), Hy by done. f_equal. lia. Qed.

Lemma map_sum_recalculated (f : NodeBalance → Z) now m :
  (∀ nb, f (recalculated now nb) = f nb) → map_sum f (recalculated now <$> m) = map_sum f m.
Proof.
  intros Hf. unfold map_sum. rewrite map_to_list_fmap. rewrite <- !list_fmap_compose. f_equal.
  apply list_fmap_ext. intros _ [k nb] _. cbn. apply Hf.
Qed.

Lemma sums_spec h :
  map_sum TotalContributed (nodeBalance (balance_run h)) = wsum (gives_any <$> h) ∧
  map_sum TotalConsumed (nodeBalance (balance_run h)) = wsum (takes_any <$> h).
Proof.
  induction h as [|o h [IH1 IH2]] using rev_ind; [done|].
  unfold balance_run. rewrite foldl_app, !fmap_app. cbn [foldl fmap list_fmap]. fold (balance_run h). set (be := balance_run h) in *.
  destruct o as [i t|i t|now took|cfg]; cbn [balance_step gives_any takes_any]; rewrite ?wsum_snoc0; try done.
  - unfold RecordContributionBalance. destruct (Z.leb_spec t 0); [by rewrite (proj2 (Z.ltb_ge _ _)), wsum_snoc0 by lia|].
    rewrite (proj2 (Z.ltb_lt _ _)), wsum_snoc by done. cbn [with_nodes nodeBalance]. rewrite <- IH1, <- IH2. split; [by apply map_sum_insert|by apply map_sum_keep].
  - unfold RecordConsumptionBalance. destruct (Z.leb_spec t 0); [by rewrite (proj2 (Z.ltb_ge _ _)), wsum_snoc0 by lia|].
    rewrite (proj2 (Z.ltb_lt _ _)), wsum_snoc by done. cbn [with_nodes nodeBalance]. rewrite <- IH1, <- IH2. split; [by apply map_sum_keep|by apply map_sum_insert].
  - unfold RunBalanceCycle, recalculateBalancesLocked. destruct (foldl _ _ _) as [[[? ?] ?] ?]. cbn [nodeBalance].
    by rewrite !map_sum_recalculated.
Qed.

(** *** A cycle *)

Lemma totals_sums cfg l a b s i :
  (foldl (totals_step cfg) (a, b, s, i) l).1.1 =
  (foldl (λ acc x, acc +! x) a (TotalContributed <$> l), foldl (λ acc x, acc +! x) b (TotalConsumed <$> l)).
Proof. revert a b s i. induction l as [|nb l IH]; intros a b s i; [done|]. cbn [foldl fmap list_fmap totals_step]. apply IH. Qed.

(** What a cycle decides about a node depends on its own records and on the configuration alone: the
    ratio of what it gave to what it took over the whole history. The totals of the network are those of
    all records; nodes without a record have no adjustment. *)
Theorem cycle_from_records h now took id :
  let be := cycle now took (balance_run h) in
  let cfg := config (balance_run h) in
  let ts := fmt_rfc3339 _ now in
  adjustments be !! id =
    (if existsb (concerns id) h then Some (adjustment_of cfg ts id (balance_ratio (given id h) (taken id h))) else None) ∧
  TotalNetworkContribution (globalBal be) = wsum (gives_any <$> h) ∧
  TotalNetworkConsumption (globalBal be) = wsum (takes_any <$> h) ∧
  config be = cfg.
Proof using walk_ok.
  intros be cfg ts. destruct (sums_spec h) as [S1 S2]. pose proof (books_spec h id) as Hb.
  set (b0 := balance_run h) in *. unfold map_sum in S1, S2.
  assert (∀ f : NodeBalance → Z, (∀ nb, f (recalculated ts nb) = f nb) →
    wsum (f <$> walk (recalculated ts <$> nodeBalance b0)) = map_sum f (nodeBalance b0)) as Hw.
  { intros f Hf. rewrite walk_ok. fold (map_sum f (recalculated ts <$> nodeBalance b0)). by apply map_sum_recalculated. }
  subst be. unfold RunBalanceCycle, recalculateBalancesLocked. fold ts.
  pose proof (totals_sums (config b0) (walk (recalculated ts <$> nodeBalance b0)) 0 0 f_zero 0) as Ht.
  destruct (foldl (totals_step _) _ _) as [[[tc tk] sum] imb]. cbn [fst snd] in Ht. injection Ht as -> ->.
  cbn [adjustments globalBal TotalNetworkContribution TotalNetworkConsumption config]. split_and!; [|..|done].
  - rewrite map_lookup_imap. unfold calculateAdjustmentLocked. cbn [nodeBalance config]. rewrite lookup_fmap.
    unfold books, expected_books in Hb.
    destruct (existsb (concerns id) h); destruct (nodeBalance b0 !! id) as [nb|]; cbn in Hb |- *; try done.
    injection Hb as Hid -> ->. done.
  - rewrite <- S1. fold (wsum (TotalContributed <$> walk (recalculated ts <$> nodeBalance b0))). by apply Hw.
  - rewrite <- S2. fold (wsum (TotalConsumed <$> walk (recalculated ts <$> nodeBalance b0))). by apply Hw.
Qed.

(** *** The history of cycles *)

(** The cycles run, as what they recorded. *)
Fixpoint cycles (be : BalanceEngine) (h : list balance_op) : list BalanceHistory :=
  match h with
  | [] => []
  | o :: h =>
      let be' := balance_step be o in
      match o with BCycle _ _ => match last (history be') with Some e => [e] | None => [] end | _ => [] end ++ cycles be' h
  end.

Lemma step_history be o :
  (length (history be) ≤ 100)%nat →
  let be' := balance_step be o in
  (length (history be') ≤ 100)%nat ∧
  ∃ e, history be' = drop (length (history be ++ e) - 100) (history be ++ e) ∧ cycles be [o] = e ∧ (length e ≤ 1)%nat.
Proof.
  intros Hl be'. subst be'.
  assert (drop (length (history be ++ []) - 100) (history be ++ []) = history be) as Hd.
  { rewrite app_nil_r. by rewrite (proj2 (Nat.sub_0_le _ _)). }
  destruct o as [i t|i t|now took|cfg]; cbn [balance_step cycles].
  - assert (history (RecordContributionBalance i t be) = history be) as -> by (unfold RecordContributionBalance; by case_match).
    split; [done|]. exists []. rewrite Hd. split_and!; [done..|cbn; lia].
  - assert (history (RecordConsumptionBalance i t be) = history be) as -> by (unfold RecordConsumptionBalance; by case_match).
    split; [done|]. exists []. rewrite Hd. split_and!; [done..|cbn; lia].
  - unfold RunBalanceCycle, recalculateBalancesLocked. destruct (foldl _ _ _) as [[[? ?] ?] ?]. cbn [history].
    set (e := {| bh_Timestamp := _; GlobalSnap := _; Adjustments := _; CycleDurationMS := _ |}). clearbody e.
    assert ((if (100 <? length (history be ++ [e]))%nat then drop (length (history be ++ [e]) - 100) (history be ++ [e])
             else history be ++ [e]) = drop (length (history be ++ [e]) - 100) (history be ++ [e])) as ->.
    { destruct (Nat.ltb_spec 100 (length (history be ++ [e]))); [done|]. by rewrite (proj2 (Nat.sub_0_le _ _)). }
    split; [rewrite length_drop, length_app; cbn; lia|]. exists [e]. split_and!; [done| |done].
    rewrite drop_app_le by (rewrite length_app; cbn; lia). by rewrite last_snoc.
  - split; [done|]. exists []. rewrite Hd. split_and!; [done..|cbn; lia].
Qed.

(** The engine keeps the last hundred cycles, oldest first, and answers a question about the last [k] of
    them exactly. *)
Theorem history_keeps_the_last h k :
  let all := cycles initBalanceEngine h in
  let kept := history (balance_run h) in
  kept = drop (length all - 100) all ∧
  (0 < k → GetBalanceHistory k (balance_run h) = drop (length kept - Z.to_nat k) kept).
Proof.
  intros all kept. split.
  - assert (∀ be past, history be = drop (length past - 100) past →
      history (foldl balance_step be h) = drop (length (past ++ cycles be h) - 100) (past ++ cycles be h)) as Hgen.
    { subst all kept. induction h as [|o h IH]; intros be past Hp; [by rewrite app_nil_r|].
      cbn [foldl]. destruct (step_history be o) as (_ & e & He & Hc & Hl).
      { rewrite Hp, length_drop. lia. }
      rewrite (IH _ (past ++ e)).
      - assert (cycles be (o :: h) = e ++ cycles (balance_step be o) h) as ->; [|by rewrite app_assoc].
        rewrite <- Hc. cbn [cycles]. by rewrite app_nil_r.
      - rewrite He, Hp, !length_app, length_drop. destruct (Nat.le_gt_cases (length past) 100).
        + rewrite (proj2 (Nat.sub_0_le (length past) 100)) by done. cbn [drop]. f_equal. lia.
        + rewrite <- drop_app_le by lia. rewrite drop_drop. f_equal. lia. }
    subst all kept. apply (Hgen initBalanceEngine []). done.
  - intros Hk. unfold GetBalanceHistory. fold kept. rewrite (proj2 (Z.leb_gt _ _)) by lia. cbn [orb].
    destruct (Z.ltb_spec (Z.of_nat (length kept)) k); f_equal; lia.
Qed.

(** *** The configuration *)

(** No threshold is ever zero or less, and the strength of adjustments stays between zero and one. *)
Theorem config_stays_sane h :
  let cfg := config (balance_run h) in
  fleb (TargetRatio cfg) f_zero = false ∧ fleb (UnderConsumerThreshold cfg) f_zero = false ∧
  fleb (OverContributorThreshold cfg) f_zero = false ∧
  fltb (AdjustmentStrength cfg) f_zero = false ∧ fltb f_one (AdjustmentStrength cfg) = false.
Proof.
  induction h as [|o h IH] using rev_ind; [vm_compute; done|]. unfold balance_run. rewrite foldl_app. cbn [foldl].
  fold (balance_run h). destruct o as [i t|i t|now took|cfg]; cbn [balance_step].
  - unfold RecordContributionBalance. by case_match.
  - unfold RecordConsumptionBalance. by case_match.
  - unfold RunBalanceCycle, recalculateBalancesLocked. by destruct (foldl _ _ _) as [[[? ?] ?] ?].
  - cbn [UpdateConfig config TargetRatio UnderConsumerThreshold OverContributorThreshold AdjustmentStrength].
    assert (∀ x d, fleb d f_zero = false → fleb (or_default (fleb x f_zero) d x) f_zero = false) as Hp.
    { intros x d Hd. unfold or_default. by destruct (fleb x f_zero) eqn:E. }
    split_and!; [by apply Hp..| |]; unfold or_default;
      (destruct (fltb (AdjustmentStrength cfg) f_zero) eqn:E1; [done|]);
      (destruct (fltb f_one (AdjustmentStrength cfg)) eqn:E2; [done|]); by cbn [orb].
Qed.
End engine_safety.

(** ** Concrete adjustments *)

Definition demo_values {A} (m : gmap string A) : list A := (map_to_list m).*2.

(** A strength of zero adjusts most: the node that took everything keeps a tenth of its weight, not all
    of it, and the one that gave ten times what it took gets one and a half. *)
Example strength_zero_is_strongest :
  let cfg s := {| TargetRatio := f_one; UnderConsumerThreshold := tenths 5; OverContributorThreshold := float_of_int 3;
                  AdjustmentStrength := s; QuotaAdjustment := true; PriorityAdjustment := true; RoutingPreference := true |} in
  reduced_multiplier (cfg f_zero) f_zero = tenths 1 ∧ fltb (tenths 7) (reduced_multiplier (cfg (tenths 3)) f_zero) = true ∧
  boost_factor (cfg f_zero) = tenths 15 ∧ fltb (boost_factor (cfg (tenths 3))) (tenths 12) = true.
Proof. vm_compute. done. Qed.

(** The switches of the configuration change nothing. *)
Example switches_are_not_read :
  let off := {| TargetRatio := f_one; UnderConsumerThreshold := tenths 5; OverContributorThreshold := float_of_int 3;
                AdjustmentStrength := tenths 3; QuotaAdjustment := false; PriorityAdjustment := false; RoutingPreference := false |} in
  let be := @balance_run UTC demo_values demo_values [BConfig off; BTake "n" 10; BCycle 0 0] in
  config be = off ∧ GetPriorityDelta "n" (Some be) = -1 ∧ fltb (GetRoutingWeightMultiplier "n" (Some be)) f_one = true.
Proof. vm_compute. done. Qed.
