(* ===== verification/Region.v ===== *)
(** * Regions of nodes (network_region_impl.go, region_geo.go, region_sync.go, handlers_missing.go)

    [RegionManager] keeps the region of each node with its source; a country lookup with a cache and a
    budget fills in what addresses do not tell, and a periodic pass reconciles the table with the nodes
    known. Parsing of addresses and URLs, the lookup's answers and the order of maps are arguments;
    distances by coordinates are not modelled. *)

From S2P Require Import Prelude GoTime Bytes LanAnnounce NetIP.
From S2P Require Network GlobalPool TrustPool ContribQuota.

(** ** Regions *)

Notation Region := string.
Definition RegionUnknown : Region := "unknown".
Definition RegionAsiaPacific : Region := "ap".
Definition RegionEurope : Region := "eu".
Definition RegionAmericas : Region := "americas".
Definition RegionEmpty : Region := "".

Definition regionCanonical (s : string) : Region :=
  if bool_decide (s ∈ ["ap"; "asia"; "asia-pacific"; "apac"]) then RegionAsiaPacific
  else if bool_decide (s ∈ ["eu"; "europe"]) then RegionEurope
  else if bool_decide (s ∈ ["us"; "americas"; "na"; "north-america"]) then RegionAmericas
  else RegionUnknown.

(** A region read from JSON. *)
Definition region_UnmarshalJSON (s : string) : Region :=
  let r := regionCanonical s in
  if bool_decide (r = RegionUnknown) && negb (bool_decide (s = "")) && negb (bool_decide (s = "unknown")) then s else r.

Definition AllRegions : list Region := [RegionAsiaPacific; RegionAmericas; RegionEurope; RegionUnknown].

(** The region says something. *)
Definition known_region (r : Region) : bool := negb (bool_decide (r = RegionUnknown)) && negb (bool_decide (r = RegionEmpty)).

Definition regionDistanceTable : list (Region * Region * Z) :=
  [(RegionAsiaPacific, RegionAmericas, 12000); (RegionAsiaPacific, RegionEurope, 8000);
   (RegionAmericas, RegionEurope, 7000); (RegionUnknown, RegionAsiaPacific, 10000)].
Definition table_distance (a b : Region) : option Z :=
  snd <$> find (λ e : Region * Region * Z, bool_decide (e.1 = (a, b))) regionDistanceTable.
Definition regionDistance (a b : Region) : Z :=
  if bool_decide (a = b) then 0
  else match table_distance a b with
  | Some d => d
  | None => match table_distance b a with Some d => d | None => 10000 end
  end.

(** ** State *)

Record NodeRegion := { nr_Region : Region; Source : string; SubRegion : string; Latitude : float64; Longitude : float64 }.
Definition region_from (r : Region) (source : string) : NodeRegion :=
  {| nr_Region := r; Source := source; SubRegion := ""; Latitude := f_zero; Longitude := f_zero |}.

(** [RegionWeights] may be nil. *)
Record RegionConfig := { PreferLocal : bool; CrossRegionThreshold : float64; RegionWeights : option (gmap Region float64) }.
Definition DefaultRegionConfig : RegionConfig :=
  {| PreferLocal := true; CrossRegionThreshold := float_of_int 2;
     RegionWeights := Some {[RegionUnknown := fdiv (float_of_int 1) (float_of_int 2)]} |}.

Record RegionManager := { nodes : gmap string NodeRegion; rm_config : RegionConfig; geoInflight : gset string }.
Definition NewRegionManager : RegionManager := {| nodes := ∅; rm_config := DefaultRegionConfig; geoInflight := ∅ |}.

Definition set_nodes (m : gmap string NodeRegion) (rm : RegionManager) : RegionManager :=
  {| nodes := m; rm_config := rm_config rm; geoInflight := geoInflight rm |}.
Definition put_region (id : string) (r : NodeRegion) (rm : RegionManager) : RegionManager := set_nodes (<[id := r]> (nodes rm)) rm.
Definition set_inflight (s : gset string) (rm : RegionManager) : RegionManager :=
  {| nodes := nodes rm; rm_config := rm_config rm; geoInflight := s |}.

(** A node has an entry with a known region. *)
Definition has_region (id : string) (rm : RegionManager) : bool :=
  match nodes rm !! id with Some e => known_region (nr_Region e) | None => false end.

Record HeartbeatRegionInfo := { hb_Region : string; hb_SubRegion : string; hb_Latitude : float64; hb_Longitude : float64 }.

Definition regionSourceRank (source : string) : Z :=
  if bool_decide (source ∈ ["self_report"; "heartbeat"]) then 3
  else if bool_decide (source = "geo_ip") then 2
  else if bool_decide (source ∈ ["ip_detect"; "auto_detect"]) then 1
  else 0.

Section region.
(** [net.ParseIP] and the host of [net.SplitHostPort], [None] for an error. *)
Context (ParseIP : string → option bytes) (SplitHostPort : string → option string).

(** ** Addresses *)

Definition between (lo hi x : Z) : bool := (lo <=? x) && (x <=? hi).

(** The region of an IPv4 address by its first octet; [a] and [b] are the first two. *)
Definition detect_v4 (a b : Z) : Region :=
  if a =? 10 then RegionUnknown
  else if (a =? 172) && (16 <=? b) && (b <=? 31) then RegionUnknown
  else if (a =? 192) && (b =? 168) then RegionUnknown
  else if a =? 127 then RegionUnknown
  else if (a =? 169) && (b =? 254) then RegionUnknown
  else if between 1 4 a || between 6 9 a || (a =? 15) || (a =? 32) || (a =? 35) || (a =? 44) || between 50 57 a
          || between 63 76 a || between 96 100 a || (a =? 104) || between 140 149 a || between 154 174 a || (a =? 184)
          || (a =? 198) || between 204 209 a then RegionAmericas
  else if (a =? 5) || (a =? 31) || (a =? 37) || (a =? 46) || (a =? 62) || (a =? 77) || between 80 95 a || (a =? 109)
          || (a =? 176) || (a =? 185) || (a =? 188) || (a =? 193) || (a =? 212) || (a =? 217) then RegionEurope
  else if between 36 43 a || between 45 49 a || between 101 106 a || between 110 126 a || (a =? 180) || (a =? 182)
          || between 202 203 a || between 210 220 a then RegionAsiaPacific
  else RegionUnknown.

Definition stripPortForGeo (ip : string) : string := default ip (SplitHostPort ip).

Definition DetectRegion (ip : string) : Region :=
  let host := stripPortForGeo ip in
  match ParseIP host with
  | None => RegionUnknown
  | Some parsed =>
      match to4 parsed with
      | Some v4 => detect_v4 (nth 0 v4 0) (nth 1 v4 0)
      | None =>
          if has_prefix "2001:02" host || has_prefix "2400" host then RegionAsiaPacific
          else if has_prefix "2001:04" host || has_prefix "2a00" host then RegionEurope
          else if has_prefix "2001:06" host || has_prefix "2600" host then RegionAmericas
          else RegionUnknown
      end
  end.

(** ** The country lookup *)

Definition ap_countries : list string :=
  ["CN"; "HK"; "MO"; "TW"; "JP"; "KR"; "MN"; "SG"; "MY"; "TH"; "VN"; "LA"; "KH"; "MM"; "PH"; "ID"; "BN"; "TL"; "AU"; "NZ";
   "PG"; "FJ"; "SB"; "VU"; "NC"; "PF"; "WS"; "TO"; "TV"; "KI"; "NR"; "PW"; "MH"; "FM"; "CK"; "NU"; "IN"; "PK"; "BD"; "LK";
   "NP"; "BT"; "MV"; "KZ"; "UZ"; "TM"; "KG"; "TJ"].
Definition american_countries : list string :=
  ["US"; "CA"; "MX"; "GT"; "BZ"; "SV"; "HN"; "NI"; "CR"; "PA"; "BS"; "CU"; "JM"; "HT"; "DO"; "PR"; "VI"; "BB"; "TT"; "GD";
   "LC"; "VC"; "AG"; "DM"; "KN"; "GL"; "BR"; "AR"; "CL"; "CO"; "PE"; "VE"; "EC"; "BO"; "PY"; "UY"; "GY"; "SR"; "GF"; "FK"].
Definition european_countries : list string :=
  ["AL"; "AD"; "AT"; "BY"; "BE"; "BA"; "BG"; "HR"; "CY"; "CZ"; "DK"; "EE"; "FI"; "FR"; "DE"; "GR"; "HU"; "IS"; "IE"; "IT";
   "LV"; "LI"; "LT"; "LU"; "MT"; "MD"; "MC"; "ME"; "NL"; "MK"; "NO"; "PL"; "PT"; "RO"; "RU"; "SM"; "RS"; "SK"; "SI"; "ES";
   "SE"; "CH"; "UA"; "GB"; "VA"; "TR"; "IL"; "PS"; "JO"; "LB"; "SY"; "IQ"; "IR"; "SA"; "YE"; "OM"; "AE"; "QA"; "BH"; "KW";
   "DZ"; "AO"; "BJ"; "BW"; "BF"; "BI"; "CM"; "CV"; "CF"; "TD"; "KM"; "CG"; "CD"; "CI"; "DJ"; "EG"; "GQ"; "ER"; "ET"; "GA";
   "GM"; "GH"; "GN"; "GW"; "KE"; "LS"; "LR"; "LY"; "MG"; "MW"; "ML"; "MR"; "MU"; "MA"; "MZ"; "NA"; "NE"; "NG"; "RW"; "ST";
   "SN"; "SC"; "SL"; "SO"; "ZA"; "SS"; "SD"; "SZ"; "TZ"; "TG"; "TN"; "UG"; "ZM"; "ZW"].

Definition countryToRegion (cc : string) : Region :=
  let cc := to_upper (trimSpace cc) in
  if negb (bool_decide (String.length cc = 2%nat)) then RegionUnknown
  else if bool_decide (cc ∈ ap_countries) then RegionAsiaPacific
  else if bool_decide (cc ∈ american_countries) then RegionAmericas
  else if bool_decide (cc ∈ european_countries) then RegionEurope
  else RegionUnknown.

Definition geoCacheTTL : Z := 24 * hour.
Definition geoNegativeTTL : Z := 5 * minute.
Definition geoRateMaxPerMinute : Z := 40.
Definition geoMaxInflight : nat := 32.

Record geoCacheEntry := { country : string; expires : Time }.
(** The package's cache and rate window. *)
Record geo_state := { geoCache : gmap string geoCacheEntry; geoRateWindow : Time; geoRateCount : Z }.
Definition geo_start : geo_state := {| geoCache := ∅; geoRateWindow := time_zero; geoRateCount := 0 |}.

Definition geoRateAllow (now : Time) (g : geo_state) : bool * geo_state :=
  let fresh := minute <=? now - geoRateWindow g in
  let window := if fresh then now else geoRateWindow g in
  let count := if fresh then 0 else geoRateCount g in
  if geoRateMaxPerMinute <=? count
  then (false, {| geoCache := geoCache g; geoRateWindow := window; geoRateCount := count |})
  else (true, {| geoCache := geoCache g; geoRateWindow := window; geoRateCount := count + 1 |}).

Definition cache_geo (ip cc : string) (until : Time) (g : geo_state) : geo_state :=
  {| geoCache := <[ip := {| country := cc; expires := until |}]> (geoCache g); geoRateWindow := geoRateWindow g;
     geoRateCount := geoRateCount g |}.
Definition cacheGeoNegative (ip : string) (now : Time) (g : geo_state) : geo_state := cache_geo ip "" (now + geoNegativeTTL) g.

Definition isCountryCode (s : string) : bool :=
  match s with
  | String a (String b EmptyString) =>
      let ok c := let n := Ascii.N_of_ascii c in (65 <=? n)%N && (n <=? 90)%N in ok a && ok b
  | _ => false
  end.

(** What the provider does: the request cannot be built, it fails, or it answers with a status and a body. *)
Inductive provider_answer := BadRequest | RequestFailed | Answered (status : Z) (body : option string).
Inductive geo_result := Country (cc : string) | GeoNegative | GeoRateLimited | GeoFailed.

Definition take_answer (now : Time) (ip : string) (ans : provider_answer) (g : geo_state) : geo_result * geo_state :=
  match ans with
  | BadRequest => (GeoFailed, g)
  | RequestFailed | Answered _ None => (GeoFailed, cacheGeoNegative ip now g)
  | Answered status (Some body) =>
      if negb (status =? 200) then (GeoFailed, cacheGeoNegative ip now g)
      else
        let cc := to_upper (trimSpace (String.substring 0 16 body)) in
        if negb (isCountryCode cc) then (GeoFailed, cacheGeoNegative ip now g)
        else (Country cc, cache_geo ip cc (now + geoCacheTTL) g)
  end.

(** [later] is the time the rate window reads; the third component says whether the provider was asked. *)
Definition defaultGeoLookupCountry (now later : Time) (ip : string) (ans : provider_answer) (g : geo_state)
    : geo_result * geo_state * bool :=
  let ask :=
    let '(ok, g) := geoRateAllow later g in
    if negb ok then (GeoRateLimited, g, false) else (take_answer now ip ans g, true) in
  match geoCache g !! ip with
  | Some e => if before now (expires e)
              then (if bool_decide (country e = "") then GeoNegative else Country (country e), g, false) else ask
  | None => ask
  end.

Definition isPublicRoutableIP (ip : string) : bool :=
  match ParseIP ip with
  | None => false
  | Some b => negb (IsPrivate b) && negb (IsLoopback b) && negb (IsLinkLocalUnicast b) && negb (IsLinkLocalMulticast b)
              && negb (IsMulticast b) && negb (IsUnspecified b)
  end.

(** [enabled]: region_geo_enabled. *)
Definition GeoDetectRegion (enabled : bool) (now later : Time) (ip : string) (ans : provider_answer) (g : geo_state)
    : Region * geo_state :=
  if negb enabled then (RegionUnknown, g)
  else
    let host := stripPortForGeo ip in
    if negb (isPublicRoutableIP host) then (RegionUnknown, g)
    else match defaultGeoLookupCountry now later host ans g with
    | (Country cc, g, _) => (countryToRegion cc, g)
    | (_, g, _) => (RegionUnknown, g)
    end.

(** ** Registering *)

(** The part of [maybeEnrichRegionAsync] before its goroutine: the address it will look up. *)
Definition enrich_start (enabled : bool) (id ip : string) (rm : RegionManager) : option string * RegionManager :=
  if negb enabled then (None, rm)
  else
    let host := stripPortForGeo ip in
    if negb (isPublicRoutableIP host) then (None, rm)
    else if bool_decide (host ∈ geoInflight rm) then (None, rm)
    else if has_region id rm then (None, rm)
    else if (geoMaxInflight <=? size (geoInflight rm))%nat then (None, rm)
    else (Some host, set_inflight ({[host]} ∪ geoInflight rm) rm).

(** The goroutine, with the answer it gets. *)
Definition enrich_finish (enabled : bool) (now later : Time) (id host : string) (ans : provider_answer)
    (s : RegionManager * geo_state) : RegionManager * geo_state :=
  let '(rm, g) := s in
  let '(region, g) := GeoDetectRegion enabled now later host ans g in
  let rm := if bool_decide (region = RegionUnknown) then rm
            else match nodes rm !! id with
                 | Some e => if known_region (nr_Region e) then rm else put_region id (region_from region "geo_ip") rm
                 | None => rm
                 end in
  (set_inflight (geoInflight rm ∖ {[host]}) rm, g).

Definition RegisterNode (enabled : bool) (id addr method : string) (rm : RegionManager) : option string * RegionManager :=
  let region := DetectRegion addr in
  let rm := put_region id (region_from region method) rm in
  if negb (known_region region) then enrich_start enabled id addr rm else (None, rm).

Definition RegisterNodeSelfReport (id region zone : string) (lat lon : float64) (rm : RegionManager) : RegionManager :=
  put_region id {| nr_Region := regionCanonical region; Source := "self_report"; SubRegion := zone; Latitude := lat; Longitude := lon |} rm.

Definition ProcessHeartbeatRegion (enabled : bool) (id : string) (info : option HeartbeatRegionInfo) (ip : string)
    (rm : RegionManager) : option string * RegionManager :=
  match info with
  | Some i => (None, put_region id {| nr_Region := regionCanonical (hb_Region i); Source := "heartbeat"; SubRegion := hb_SubRegion i;
                                      Latitude := hb_Latitude i; Longitude := hb_Longitude i |} rm)
  | None =>
      if bool_decide (ip = "") then (None, rm)
      else
        let region := DetectRegion ip in
        let replace := match nodes rm !! id with
                       | Some e => if known_region (nr_Region e)
                                   then known_region region && (regionSourceRank (Source e) <=? regionSourceRank "ip_detect") else true
                       | None => true
                       end in
        let rm := if replace then put_region id (region_from region "ip_detect") rm else rm in
        if has_region id rm then (None, rm) else enrich_start enabled id ip rm
  end.

(** [self] is the id of an initialised node; [publicIP] what the outside sees. *)
Definition AutoDetectSelfRegion (enabled : bool) (now later : Time) (self publicIP : string) (ans : provider_answer)
    (s : RegionManager * geo_state) : RegionManager * geo_state :=
  let '(rm, g) := s in
  if bool_decide (self = "") || has_region self rm || bool_decide (publicIP = "") then (rm, g)
  else
    let '(region, g) := GeoDetectRegion enabled now later publicIP ans g in
    let '(region, source) := if bool_decide (region = RegionUnknown) then (DetectRegion publicIP, "auto_detect")
                             else (region, "geo_ip") in
    if bool_decide (region = RegionUnknown) then (rm, g) else (put_region self (region_from region source) rm, g).

(** ** Questions *)

Definition GetNodeRegion (id : string) (rm : RegionManager) : option NodeRegion := nodes rm !! id.

Section walks.
(** The order in which the table is visited. *)
Context (walk : gmap string NodeRegion → list (string * NodeRegion)).
Definition distinct_step (out : list Region) (e : string * NodeRegion) : list Region :=
  if bool_decide (nr_Region e.2 ∈ out) then out else out ++ [nr_Region e.2].
Definition GetAllRegions (rm : RegionManager) : list Region := foldl distinct_step [] (walk (nodes rm)).
Definition GetRegionSummary (rm : RegionManager) : gmap Region Z :=
  foldl (λ m e, zincr (nr_Region e.2) 1 m) ∅ (walk (nodes rm)).
Definition GetNodesByRegion (region : Region) (rm : RegionManager) : list string :=
  (filter (λ e, nr_Region e.2 = regionCanonical region) (walk (nodes rm))).*1.
End walks.

Definition in_region (region : Region) (rm : RegionManager) (id : string) : Prop := nr_Region <$> nodes rm !! id = Some region.
#[export] Instance in_region_dec region rm id : Decision (in_region region rm id).
Proof. unfold in_region. solve_decision. Defined.

Definition partition_step (region : Region) (rm : RegionManager) (st : list string * list string) (c : string) : list string * list string :=
  if decide (in_region region rm c) then (st.1 ++ [c], st.2) else (st.1, st.2 ++ [c]).
Definition SelectNodeForRegion (candidates : list string) (region : Region) (rm : RegionManager) : list string :=
  let '(same, other) := foldl (partition_step region rm) ([], []) candidates in same ++ other.
Definition GetOptimalRoute (candidates : list string) (region : Region) (lbScores : gmap string float64) (rm : RegionManager) : list string :=
  let '(same, other) := foldl (partition_step region rm) ([], []) candidates in same ++ other.

(** ** Configuration *)

Definition UpdateConfig (cfg : RegionConfig) (rm : RegionManager) : RegionManager :=
  {| nodes := nodes rm; rm_config := cfg; geoInflight := geoInflight rm |}.

(** [strings.EqualFold] with an ASCII text. *)
Definition equal_fold (a b : string) : bool := bool_decide (to_lower a = to_lower b).

Definition canonical_weight (out : gmap Region float64) (kv : string * float64) : gmap Region float64 :=
  if fltb kv.2 f_zero then out
  else
    let r := regionCanonical kv.1 in
    if bool_decide (r = RegionUnknown) && negb (equal_fold (trimSpace kv.1) "unknown") then out else <[r := kv.2]> out.

Section weights.
Context (walk_w : gmap string float64 → list (string * float64)).
Definition canonicalRegionWeights (w : gmap string float64) : gmap Region float64 := foldl canonical_weight ∅ (walk_w w).
Definition canonicalRegionWeightsJSON (w : gmap Region float64) : gmap string float64 :=
  foldl (λ out kv, <[regionCanonical kv.1 := kv.2]> out) ∅ (walk_w w).

(** [None] when it is refused. *)
Definition validateRegionConfig (rc : RegionConfig) : option RegionConfig :=
  if fltb (CrossRegionThreshold rc) f_zero then None
  else
    let raw := default ∅ (RegionWeights rc) in
    if existsb (λ kv, fltb kv.2 f_zero) (walk_w raw) then None
    else Some {| PreferLocal := PreferLocal rc; CrossRegionThreshold := CrossRegionThreshold rc;
                 RegionWeights := Some (canonicalRegionWeights raw) |}.

(** The settings the configuration is kept in. *)
Context (ParseFloat : string → option float64) (FormatFloat : float64 → string)
  (weights_json : gmap string float64 → string) (parse_weights : string → option (gmap string float64)).
(** [cfg.Get]: the file, the environment, the default; an empty value counts as none. *)
Context (env : string → string).
Definition setting (cfg : gmap string string) (key def : string) : string :=
  let v := default "" (cfg !! key) in
  if negb (bool_decide (v = "")) then v else if negb (bool_decide (env key = "")) then env key else def.

Definition persistRegionConfig (rc : RegionConfig) (cfg : gmap string string) : gmap string string :=
  <["region_weights_json" := weights_json (canonicalRegionWeightsJSON (default ∅ (RegionWeights rc)))]>
  (<["region_cross_threshold" := FormatFloat (CrossRegionThreshold rc)]>
  (<["region_prefer_local" := if PreferLocal rc then "true" else "false"]> cfg)).

Definition loadRegionConfigFromSettings (cfg : gmap string string) (rm : RegionManager) : RegionManager :=
  let rc := DefaultRegionConfig in
  let threshold :=
    let v := trimSpace (setting cfg "region_cross_threshold" "") in
    if bool_decide (v = "") then CrossRegionThreshold rc
    else match ParseFloat v with
    | Some f => if fleb f_zero f then f else CrossRegionThreshold rc
    | None => CrossRegionThreshold rc
    end in
  let weights :=
    let v := setting cfg "region_weights_json" "" in
    if bool_decide (v = "") then RegionWeights rc
    else match parse_weights v with Some w => Some (canonicalRegionWeights w) | None => RegionWeights rc end in
  UpdateConfig {| PreferLocal := negb (bool_decide (setting cfg "region_prefer_local" "true" = "false"));
                  CrossRegionThreshold := threshold; RegionWeights := weights |} rm.

Definition handleNetworkRegionConfigUpdate (body : option RegionConfig) (cfg : gmap string string) (rm : RegionManager)
    : Z * gmap string string * RegionManager :=
  match body with
  | None => (400, cfg, rm)
  | Some rc =>
      match validateRegionConfig rc with
      | None => (400, cfg, rm)
      | Some rc => (200, persistRegionConfig rc cfg, UpdateConfig rc rm)
      end
  end.
End weights.

(** ** Reconciliation *)

Definition regionEntryTTL : Z := 24 * hour.
Notation regionSeenAt := (gmap string Time).

Record knownNode := { kn_Region : string; kn_Endpoint : string }.

(** [url_hostname] is the host name of a URL, [None] for an error. *)
Context (url_hostname : string → option string).
Definition hostFromEndpoint (endpoint : string) : string :=
  let s := trimSpace endpoint in
  if bool_decide (s = "") then ""
  else if str_contains "://" s then default "" (url_hostname s)
  else default s (SplitHostPort s).

(** The region of a node that has none, and its source. *)
Definition reconciled_region (kn : knownNode) : option NodeRegion :=
  let r := regionCanonical (kn_Region kn) in
  if known_region r then Some (region_from r "reconcile_pool_report")
  else
    let host := hostFromEndpoint (kn_Endpoint kn) in
    if negb (bool_decide (host = "")) && bool_decide (is_Some (ParseIP host)) then
      let r := DetectRegion host in
      if bool_decide (r = RegionUnknown) then None else Some (region_from r "reconcile_addr")
    else None.

Definition fill_step (st : RegionManager * Z) (kv : string * knownNode) : RegionManager * Z :=
  let '(rm, filled) := st in let '(id, kn) := kv in
  if bool_decide (id = "") || has_region id rm then st
  else match reconciled_region kn with None => st | Some r => (put_region id r rm, filled + 1) end.

Definition prune_step (known : gmap string knownNode) (now : Time) (selfID : string)
    (st : RegionManager * regionSeenAt * Z) (id : string) : RegionManager * regionSeenAt * Z :=
  let '(rm, seen, pruned) := st in
  if bool_decide (id = selfID) || bool_decide (is_Some (known !! id)) then st
  else match seen !! id with
  | None => (rm, <[id := now]> seen, pruned)
  | Some last => if now - last <? regionEntryTTL then st else (set_nodes (delete id (nodes rm)) rm, delete id seen, pruned + 1)
  end.

(** The filled, the pruned, the table and the stamps after one pass. *)
Definition reconcileRegionsOnce (known : gmap string knownNode) (now : Time) (selfID : string)
    (s : RegionManager * regionSeenAt) : Z * Z * (RegionManager * regionSeenAt) :=
  let '(rm, seen) := s in
  let '(rm, filled) := foldl fill_step (rm, 0) (map_to_list known) in
  let seen := foldl (λ m id, <[id := now]> m) seen (map_to_list known).*1 in
  let seen := if bool_decide (selfID = "") then seen else <[selfID := now]> seen in
  if bool_decide (known = ∅) then (filled, 0, (rm, seen))
  else
    let '(rm, seen, pruned) := foldl (prune_step known now selfID) (rm, seen, 0) (map_to_list (nodes rm)).*1 in
    (filled, pruned, (rm, seen)).

Definition known_from_pool (out : gmap string knownNode) (n : GlobalPool.GlobalPoolNode) : gmap string knownNode :=
  if bool_decide (GlobalPool.n_NodeID n = "") then out
  else <[GlobalPool.n_NodeID n := {| kn_Region := GlobalPool.n_Region n; kn_Endpoint := "" |}]> out.
Definition known_from_peer (out : gmap string knownNode) (p : Network.PeerInfo) : gmap string knownNode :=
  let id := Network.pi_NodeID p in
  if bool_decide (id = "") then out
  else
    let addr := default "" (head (Network.pi_Addresses p)) in
    let cur := default {| kn_Region := ""; kn_Endpoint := "" |} (out !! id) in
    <[id := {| kn_Region := if bool_decide (kn_Region cur = "") then Network.pi_Region p else kn_Region cur;
               kn_Endpoint := if bool_decide (kn_Endpoint cur = "") then addr else kn_Endpoint cur |}]> out.
Definition collectKnownNodes (gp : option GlobalPool.GlobalPool) (net : option (list Network.PeerInfo)) : gmap string knownNode :=
  let out := match gp with Some gp => foldl known_from_pool ∅ (GlobalPool.ParticipantNodes gp) | None => ∅ end in
  match net with Some peers => foldl known_from_peer out peers | None => out end.
End region.

(** ** Heartbeats (handlers_missing.go) *)

(** The managers a heartbeat reaches; each may not be there. *)
Record HeartbeatNode := {
  hn_regions : option RegionManager; hn_peers : option (list Network.PeerInfo);
  hn_fed : option TrustPool.FederationManager; hn_pool : option GlobalPool.GlobalPool }.

Record heartbeat_request := { h_NodeID : string; h_Secret : string; h_body_NodeID : string; h_body_Region : string }.

Definition seen_peer (ts : string) (p : Network.PeerInfo) : Network.PeerInfo := {|
  Network.pi_NodeID := Network.pi_NodeID p; Network.pi_Name := Network.pi_Name p; Network.pi_Region := Network.pi_Region p;
  Network.pi_Models := Network.pi_Models p; Network.pi_Status := Network.pi_Status p; Network.pi_LastSeen := ts;
  Network.TrustScore := Network.TrustScore p; Network.pi_JoinedAt := Network.pi_JoinedAt p;
  Network.pi_Addresses := Network.pi_Addresses p; Network.Unlocked := Network.Unlocked p;
  Network.pi_ShareToPool := Network.pi_ShareToPool p; Network.pi_PubKey := Network.pi_PubKey p |}.
Fixpoint touchPeerLastSeen (ts id : string) (ps : list Network.PeerInfo) : list Network.PeerInfo :=
  match ps with
  | [] => []
  | p :: ps => if bool_decide (Network.pi_NodeID p = id) then seen_peer ts p :: ps else p :: touchPeerLastSeen ts id ps
  end.

Definition heartbeat_sender (r : heartbeat_request) : string :=
  let id := ContribQuota.sanitizeNodeID (h_NodeID r) in if bool_decide (id = "") then h_body_NodeID r else id.

Definition heartbeat_authed (secret : string) (sender : string) (r : heartbeat_request) (n : HeartbeatNode) : bool :=
  if negb (bool_decide (secret = "")) then negb (bool_decide (h_Secret r = "")) && bool_decide (h_Secret r = secret)
  else match hn_fed n with
  | Some f => negb (bool_decide (sender = "")) && bool_decide (is_Some (TrustPool.GetNode sender f))
  | None => false
  end.

(** The status and the node after it; [secret] is federation_secret. *)
Definition handleNetworkHeartbeat `{Location} (now : Time) (secret : string) (r : heartbeat_request) (n : HeartbeatNode)
    : Z * HeartbeatNode :=
  let sender := heartbeat_sender r in
  if negb (heartbeat_authed secret sender r n) then (403, n)
  else if bool_decide (sender = "") then (400, n)
  else (200, {|
    hn_regions := if bool_decide (h_body_Region r = "") then hn_regions n
                  else (λ rm, put_region sender (region_from (regionCanonical (h_body_Region r)) "heartbeat") rm) <$> hn_regions n;
    hn_peers := touchPeerLastSeen (fmt_rfc3339 _ now) sender <$> hn_peers n;
    hn_fed := (λ f, match TrustPool.GetNode sender f with
                    | Some existing => TrustPool.UpdateNodeInfo now (TrustPool.with_status "active" (fmt_rfc3339 UTC now) existing) f
                    | None => f
                    end) <$> hn_fed n;
    hn_pool := GlobalPool.Heartbeat now sender <$> hn_pool n |}).
