(* ===== verification/RegionSafety.v ===== *)
(** * What the table of regions guarantees

    One pass of the reconciliation, node by node, and the ageing of nodes that left; the budget and the
    cache of the country lookup; lookups in flight; known regions stay known; the settings are read back;
    heartbeats. *)

From S2P Require Import Prelude GoTime Bytes LanAnnounce NetIP Region.
From S2P Require Network GlobalPool TrustPool ContribQuota.

(** ** Folds over the keys of a map *)

(** A fold whose steps touch their own key only, and look at nothing else, acts key by key. *)
Lemma foldl_pointwise {S K V X} (view : S → K → V) (key : X → K) (step : S → X → S) (upd : X → V → V) :
  (∀ s x, view (step s x) (key x) = upd x (view s (key x))) →
  (∀ s x k, k ≠ key x → view (step s x) k = view s k) →
  ∀ l s k, NoDup (key <$> l) →
  (∀ x, x ∈ l → key x = k → view (foldl step s l) k = upd x (view s k)) ∧
  (k ∉ key <$> l → view (foldl step s l) k = view s k).
Proof.
  intros Hown Hother l. induction l as [|x l IH]; intros s k Hnd; [by split; [intros x Hx%elem_of_nil|]|].
  rewrite fmap_cons in Hnd. apply NoDup_cons in Hnd as [Hx Hnd]. cbn [foldl]. destruct (IH (step s x) k Hnd) as [IH1 IH2]. split.
  - intros y [->|Hy]%elem_of_cons Hk.
    + rewrite IH2 by (by rewrite <- Hk). rewrite <- Hk. apply Hown.
    + rewrite (IH1 y Hy Hk), Hother; [done|]. intros ->. apply Hx. rewrite <- Hk. by apply list_elem_of_fmap_2.
  - rewrite fmap_cons, not_elem_of_cons. intros [Hne Hl]. rewrite IH2, Hother by done. done.
Qed.

Section reconcile.
Context (ParseIP : string → option bytes) (SplitHostPort : string → option string) (url_hostname : string → option string).

Abbreviation reconcile := (reconcileRegionsOnce ParseIP SplitHostPort url_hostname).
Abbreviation resolved := (reconciled_region ParseIP SplitHostPort url_hostname).
Abbreviation fill := (fill_step ParseIP SplitHostPort url_hostname).

(** *** One pass *)

(** The entry of a node after the gaps are filled. *)
Definition filled_entry (known : gmap string knownNode) (rm : RegionManager) (id : string) : option NodeRegion :=
  match known !! id with
  | Some kn => if bool_decide (id = "") || has_region id rm then nodes rm !! id
               else match resolved kn with Some r => Some r | None => nodes rm !! id end
  | None => nodes rm !! id
  end.

(** Whether a pass removes it. *)
Definition departs (known : gmap string knownNode) (seen : gmap string Time) (now : Time) (selfID id : string) : bool :=
  negb (bool_decide (known = ∅)) && negb (bool_decide (id = selfID)) && negb (bool_decide (is_Some (known !! id))) &&
  match seen !! id with Some last => regionEntryTTL <=? now - last | None => false end.

Lemma fill_spec known rm k id :
  nodes (foldl fill (rm, k) (map_to_list known)).1 !! id = filled_entry known rm id.
Proof.
  pose (view := λ (s : RegionManager * Z) id, nodes s.1 !! id).
  pose (upd := λ (x : string * knownNode) (v : option NodeRegion),
    if bool_decide (x.1 = "") || match v with Some e => known_region (nr_Region e) | None => false end then v
    else match resolved x.2 with Some r => Some r | None => v end).
  destruct (foldl_pointwise view fst fill upd) with (l := map_to_list known) (s := (rm, k)) (k := id) as [H1 H2].
  - intros [m n] [i kn]. unfold view, upd, fill_step. cbn [fst snd]. fold (has_region i m). unfold has_region.
    destruct (_ || _); [done|]. destruct (resolved kn); [|done]. cbn. apply lookup_insert_eq.
  - intros [m n] [i kn] j Hj. unfold view, fill_step. cbn [fst snd] in *. destruct (_ || _); [done|].
    destruct (resolved kn); [|done]. cbn. by rewrite lookup_insert_ne.
  - apply NoDup_fst_map_to_list.
  - change (nodes (foldl fill (rm, k) (map_to_list known)).1 !! id) with (view (foldl fill (rm, k) (map_to_list known)) id).
    unfold filled_entry. destruct (known !! id) as [kn|] eqn:E.
    + rewrite (H1 (id, kn)); [done|by apply elem_of_map_to_list|done].
    + apply H2. intros ([i kn] & -> & Hin%elem_of_map_to_list)%list_elem_of_fmap. cbn in E. congruence.
Qed.

Lemma stamps_spec known (seen : gmap string Time) now id :
  foldl (λ m id, <[id := now]> m) seen (map_to_list known).*1 !! id =
    if bool_decide (is_Some ((known : gmap string knownNode) !! id)) then Some now else seen !! id.
Proof.
  assert (∀ (l : list string) (m : gmap string Time), foldl (λ m id, <[id := now]> m) m l !! id = if decide (id ∈ l) then Some now else m !! id) as H.
  { induction l as [|x l IH]; intros m; [done|]. cbn [foldl]. rewrite IH. destruct (decide (id ∈ l)) as [Hl|Hl].
    - by rewrite decide_True by (by right).
    - destruct (decide (id = x)) as [->|Hx].
      + rewrite lookup_insert_eq, decide_True by (by left). done.
      + rewrite lookup_insert_ne, decide_False by (try done; by rewrite elem_of_cons; intros [?|?]). done. }
  rewrite H. destruct (known !! id) as [kn|] eqn:E.
  - rewrite decide_True, bool_decide_eq_true_2 by (eauto || (apply list_elem_of_fmap; exists (id, kn); by rewrite elem_of_map_to_list)). done.
  - rewrite decide_False, bool_decide_eq_false_2; [done|by intros [? ?]|].
    intros ([i kn] & -> & Hin%elem_of_map_to_list)%list_elem_of_fmap. cbn in E. congruence.
Qed.

Lemma prune_spec known now selfID rm seen n id :
  let s' := foldl (prune_step known now selfID) (rm, seen, n) (map_to_list (nodes rm)).*1 in
  let old := bool_decide (id = selfID) || bool_decide (is_Some (known !! id)) in
  (nodes s'.1.1 !! id, s'.1.2 !! id) =
  match nodes rm !! id with
  | None => (None, seen !! id)
  | Some e =>
      if old then (Some e, seen !! id)
      else match seen !! id with
      | None => (Some e, Some now)
      | Some last => if now - last <? regionEntryTTL then (Some e, Some last) else (None, None)
      end
  end.
Proof.
  intros s' old.
  pose (view := λ (s : RegionManager * gmap string Time * Z) id, (nodes s.1.1 !! id, s.1.2 !! id)).
  pose (upd := λ (x : string) (v : option NodeRegion * option Time),
    if bool_decide (x = selfID) || bool_decide (is_Some (known !! x)) then v
    else match v.2 with
         | None => (v.1, Some now)
         | Some last => if now - last <? regionEntryTTL then v else (None, None)
         end).
  destruct (foldl_pointwise view (@Datatypes.id string) (prune_step known now selfID) upd) with (l := (map_to_list (nodes rm)).*1) (s := (rm, seen, n)) (k := id)
    as [H1 H2].
  - intros [[m sn] k] i. unfold view, upd, prune_step. cbn [fst snd Datatypes.id]. destruct (bool_decide (i = selfID) || bool_decide (is_Some (known !! i))); [done|].
    destruct (sn !! i) as [last|] eqn:El; cbn [fst snd].
    + destruct (now - last <? regionEntryTTL); cbn; [by rewrite El|by rewrite !lookup_delete_eq].
    + by rewrite lookup_insert_eq.
  - intros [[m sn] k] i j Hj. unfold view, prune_step. cbn [fst snd Datatypes.id] in *. destruct (bool_decide (i = selfID) || bool_decide (is_Some (known !! i))); [done|].
    destruct (sn !! i) as [last|]; cbn [fst snd].
    + destruct (now - last <? regionEntryTTL); [done|]. cbn. by rewrite !lookup_delete_ne.
    + by rewrite lookup_insert_ne.
  - rewrite list_fmap_id. apply NoDup_fst_map_to_list.
  - change (nodes s'.1.1 !! id, s'.1.2 !! id) with (view s' id). subst s'. destruct (nodes rm !! id) as [e|] eqn:E.
    + rewrite (H1 id); [|apply list_elem_of_fmap; exists (id, e); by rewrite elem_of_map_to_list|done].
      unfold view, upd. cbn [fst snd]. rewrite E. fold old. destruct old; [done|].
      by destruct (seen !! id).
    + rewrite H2; [unfold view; cbn [fst snd]; by rewrite E|]. rewrite list_fmap_id.
      intros ([i x] & -> & Hin%elem_of_map_to_list)%list_elem_of_fmap. cbn in E. congruence.
Qed.
(** The table and the stamp of one node after a pass. A pass fills in the region of a known node that has
    none, from what the node reported or else from its address; it removes a node only when it knows of
    others, the node is neither known nor this one, and it was last seen a day ago or before. *)
Theorem pass_exact known now selfID rm seen id :
  let s' := (reconcile known now selfID (rm, seen)).2 in
  nodes s'.1 !! id = (if departs known seen now selfID id then None else filled_entry known rm id) ∧
  s'.2 !! id =
    (if bool_decide (is_Some (known !! id)) || bool_decide (id = selfID ∧ selfID ≠ "") then Some now
     else if bool_decide (known = ∅) || bool_decide (id = selfID) then seen !! id
     else match nodes rm !! id, seen !! id with
     | Some _, None => Some now
     | Some _, Some last => if regionEntryTTL <=? now - last then None else Some last
     | None, l => l
     end).
Proof.
  intros s'. subst s'. unfold reconcileRegionsOnce.
  pose proof (fill_spec known rm 0 id) as Hf.
  destruct (foldl fill (rm, 0) (map_to_list known)) as [rm1 filled]. cbn [fst] in Hf.
  pose proof (stamps_spec known seen now id) as Hst. set (st := foldl _ seen _) in *.
  set (st' := if bool_decide (selfID = "") then st else <[selfID := now]> st).
  assert (st' !! id = if bool_decide (is_Some (known !! id)) || bool_decide (id = selfID ∧ selfID ≠ "") then Some now else seen !! id) as Hst'.
  { subst st'. destruct (bool_decide_reflect (selfID = "")) as [Hs|Hs].
    - rewrite (bool_decide_eq_false_2 (id = selfID ∧ _)), orb_false_r by (by intros [_ ?]). exact Hst.
    - destruct (decide (id = selfID)) as [->|Hne].
      + by rewrite lookup_insert_eq, (bool_decide_eq_true_2 (selfID = selfID ∧ _)), orb_true_r.
      + rewrite lookup_insert_ne by done. rewrite (bool_decide_eq_false_2 (id = selfID ∧ _)), orb_false_r by (by intros [? _]). exact Hst. }
  unfold departs. destruct (bool_decide_reflect (known = ∅)) as [Hk|Hk]; cbn [negb andb orb snd fst].
  { split; [done|]. rewrite Hst'. by destruct (_ || _). }
  pose proof (prune_spec known now selfID rm1 st' 0 id) as Hp. cbv zeta in Hp.
  destruct (foldl (prune_step known now selfID) (rm1, st', 0) _) as [[rm2 st2] pruned]. cbn [fst snd] in Hp |- *.
  assert (known !! id = None → nodes rm1 !! id = nodes rm !! id) as Hsame.
  { intros E. rewrite Hf. unfold filled_entry. by rewrite E. }
  rewrite Hf in Hp, Hsame. revert Hp Hst' Hsame. destruct (bool_decide_reflect (is_Some (known !! id))) as [Hi|Hi];
    destruct (bool_decide_reflect (id = selfID)) as [Hs|Hs]; cbn [orb andb negb]; intros Hp Hst' Hsame.
  1-3: rewrite Hst' in Hp; destruct (filled_entry known rm id); injection Hp as -> ->;
    rewrite ?(bool_decide_eq_false_2 (id = selfID ∧ _)) by (by intros [? _]); done.
  rewrite (bool_decide_eq_false_2 (id = selfID ∧ _)) in Hst' |- * by (by intros [? _]). cbn [orb] in Hst'. rewrite Hst' in Hp.
  assert (known !! id = None) as E by (destruct (known !! id); [by destruct Hi|done]). rewrite Hsame in Hp |- * by done.
  destruct (nodes rm !! id) as [e|]; destruct (seen !! id) as [last|]; try (injection Hp as -> ->; done).
  - rewrite Z.ltb_antisym in Hp. destruct (regionEntryTTL <=? now - last); cbn [negb] in Hp; injection Hp as -> ->; done.
  - injection Hp as -> ->. by destruct (_ <=? _).
Qed.

(** *** Nodes that left *)

Definition passes (selfID : string) (s : RegionManager * gmap string Time) (l : list (gmap string knownNode * Time))
    : RegionManager * gmap string Time :=
  foldl (λ s p, (reconcile p.1 p.2 selfID s).2) s l.

Lemma gone_stays selfID id l s :
  Forall (λ p : gmap string knownNode * Time, p.1 !! id = None) l → nodes s.1 !! id = None →
  nodes (passes selfID s l).1 !! id = None.
Proof.
  intros Hl. revert s. induction Hl as [|[k t] l Hk _ IH]; intros [rm seen] Hn; [done|]. cbn [passes foldl fst snd] in *. apply IH.
  destruct (pass_exact k t selfID rm seen id) as [-> _]. unfold filled_entry. rewrite Hk. by destruct (departs _ _ _ _ _).
Qed.

(** A node that is in no view any more stays, unchanged, until the first pass with a view at least a day
    after it was last seen, and is gone from then on; passes without a view remove nothing. *)
Theorem departed_node_ages_out selfID rm seen id e t0 l :
  id ≠ selfID → nodes rm !! id = Some e → seen !! id = Some t0 →
  Forall (λ p : gmap string knownNode * Time, p.1 !! id = None) l →
  nodes (passes selfID (rm, seen) l).1 !! id =
    if existsb (λ p, negb (bool_decide (p.1 = ∅)) && (regionEntryTTL <=? p.2 - t0)) l then None else Some e.
Proof.
  intros Hself He Ht Hl.
  revert rm seen He Ht. induction Hl as [|[k t] l Hk Hl IH]; intros rm seen He Ht; [done|]. cbn in Hk.
  cbn [passes foldl existsb fst snd]. destruct (pass_exact k t selfID rm seen id) as [Hn Hs].
  assert (departs k seen t selfID id = negb (bool_decide (k = ∅)) && (regionEntryTTL <=? t - t0)) as Hd.
  { unfold departs. by rewrite Ht, Hk, (bool_decide_eq_false_2 (id = selfID)), (bool_decide_eq_false_2 (is_Some None)), !andb_true_r
      by (try done; by intros [? ?]). }
  rewrite Hd in Hn. unfold filled_entry in Hn. rewrite Hk, He in Hn.
  destruct (negb (bool_decide (k = ∅)) && (regionEntryTTL <=? t - t0)) eqn:E; cbn [orb].
  - by apply gone_stays.
  - assert ((reconcile k t selfID (rm, seen)).2.2 !! id = Some t0) as Hs'.
    { rewrite Hs, Hk, He, Ht, (bool_decide_eq_false_2 (is_Some None)), (bool_decide_eq_false_2 (id = selfID)),
        (bool_decide_eq_false_2 (id = selfID ∧ _)) by (try done; (by intros [? ?]) || by intros [? _]). cbn [orb].
      destruct (bool_decide (k = ∅)); [done|]. cbn in E. by rewrite E. }
    destruct (reconcile k t selfID (rm, seen)).2 as [rm1 seen1]. by apply IH.
Qed.
End reconcile.

(** ** The country lookup *)

Record geo_lookup := { g_now : Time; g_later : Time; g_ip : string; g_ans : provider_answer }.
Definition do_lookup (x : geo_lookup) (g : geo_state) : geo_result * geo_state * bool :=
  defaultGeoLookupCountry (g_now x) (g_later x) (g_ip x) (g_ans x) g.

(** The requests to the provider from [lo] on and before [hi]. *)
Fixpoint asked_in (lo hi : Time) (g : geo_state) (l : list geo_lookup) : Z :=
  match l with
  | [] => 0
  | x :: l =>
      let '(_, g', asked) := do_lookup x g in
      (if asked && (lo <=? g_later x) && (g_later x <? hi) then 1 else 0) + asked_in lo hi g' l
  end.

Lemma take_answer_window now ip ans g :
  geoRateWindow (take_answer now ip ans g).2 = geoRateWindow g ∧ geoRateCount (take_answer now ip ans g).2 = geoRateCount g.
Proof. unfold take_answer. repeat case_match; done. Qed.

(** What a lookup does to the window: nothing, or one request in it, or one request in a new one. *)
Lemma lookup_window x g :
  let '(_, g', asked) := do_lookup x g in
  (asked = false ∧ geoRateWindow g' = geoRateWindow g ∧ geoRateCount g' = geoRateCount g) ∨
  (asked = true ∧ g_later x - geoRateWindow g < minute ∧ geoRateCount g < geoRateMaxPerMinute ∧
   geoRateWindow g' = geoRateWindow g ∧ geoRateCount g' = geoRateCount g + 1) ∨
  (asked = true ∧ minute ≤ g_later x - geoRateWindow g ∧ geoRateWindow g' = g_later x ∧ geoRateCount g' = 1).
Proof.
  assert (let '(_, g', asked) := (let '(ok, g) := geoRateAllow (g_later x) g in
            if negb ok then (GeoRateLimited, g, false) else (take_answer (g_now x) (g_ip x) (g_ans x) g, true)) in
    (asked = false ∧ geoRateWindow g' = geoRateWindow g ∧ geoRateCount g' = geoRateCount g) ∨
    (asked = true ∧ g_later x - geoRateWindow g < minute ∧ geoRateCount g < geoRateMaxPerMinute ∧
     geoRateWindow g' = geoRateWindow g ∧ geoRateCount g' = geoRateCount g + 1) ∨
    (asked = true ∧ minute ≤ g_later x - geoRateWindow g ∧ geoRateWindow g' = g_later x ∧ geoRateCount g' = 1)) as Hask.
  { unfold geoRateAllow. destruct (Z.leb_spec minute (g_later x - geoRateWindow g)) as [Hf|Hf].
    - destruct (Z.leb_spec geoRateMaxPerMinute 0) as [Hm|_]; [by vm_compute in Hm|]. cbn [negb].
      set (g1 := {| geoCache := _; geoRateWindow := _; geoRateCount := _ |}).
      pose proof (take_answer_window (g_now x) (g_ip x) (g_ans x) g1) as [Hw Hc].
      destruct (take_answer _ _ _ g1) as [r g']. cbn in Hw, Hc. auto 6.
    - destruct (Z.leb_spec geoRateMaxPerMinute (geoRateCount g)) as [Hm|Hm]; cbn [negb]; [by left|].
      set (g1 := {| geoCache := _; geoRateWindow := _; geoRateCount := _ |}).
      pose proof (take_answer_window (g_now x) (g_ip x) (g_ans x) g1) as [Hw Hc].
      destruct (take_answer _ _ _ g1) as [r g']. cbn in Hw, Hc. right; left. auto. }
  unfold do_lookup, defaultGeoLookupCountry. destruct (geoCache g !! g_ip x) as [e|]; [|exact Hask].
  destruct (before _ _); [by left|exact Hask].
Qed.

(** What may still be asked in [lo, hi), when the last request was at [cur]. *)
Definition budget (lo hi cur : Time) (g : geo_state) : Z :=
  if hi <=? geoRateWindow g then 0
  else if lo <=? geoRateWindow g then geoRateMaxPerMinute - geoRateCount g
  else if lo <=? cur then 2 * geoRateMaxPerMinute - geoRateCount g else 2 * geoRateMaxPerMinute.

Lemma budget_bounds lo cur g l :
  0 ≤ geoRateCount g ≤ geoRateMaxPerMinute → geoRateWindow g ≤ cur → Sorted Z.le (cur :: (g_later <$> l)) →
  asked_in lo (lo + minute) g l ≤ budget lo (lo + minute) cur g.
Proof.
  revert cur g. induction l as [|x l IH]; intros cur g Hc Hw Hs.
  { cbn. unfold budget, geoRateMaxPerMinute in *. repeat case_match; lia. }
  cbn [asked_in]. apply Sorted_inv in Hs as [Hs Hx]. inversion_clear Hx as [|? ? Hle].
  pose proof (lookup_window x g) as Hwin. destruct (do_lookup x g) as [[r g'] asked].
  assert (0 ≤ geoRateCount g' ≤ geoRateMaxPerMinute ∧ geoRateWindow g' ≤ g_later x) as [Hc' Hw'].
  { unfold geoRateMaxPerMinute in *. destruct Hwin as [(-> & -> & ->)|[(-> & ? & ? & -> & ->)|(-> & ? & -> & ->)]]; lia. }
  pose proof (IH (g_later x) g' Hc' Hw' Hs) as Hrest. clear IH Hs.
  enough ((if asked && (lo <=? g_later x) && (g_later x <? lo + minute) then 1 else 0) + budget lo (lo + minute) (g_later x) g'
          ≤ budget lo (lo + minute) cur g) by lia.
  clear Hrest. unfold budget, geoRateMaxPerMinute in *. assert (0 < minute) as Hm by done. generalize dependent minute. intros m Hwin Hm.
  destruct Hwin as [(-> & -> & ->)|[(-> & ? & ? & -> & ->)|(-> & ? & -> & ->)]]; cbn [andb];
    destruct (Z.leb_spec lo (g_later x)), (Z.ltb_spec (g_later x) (lo + m)); cbn [andb]; repeat case_match; lia.
Qed.

(** However many lookups there are, in any order of nodes, at most eighty requests reach the provider
    within any minute: twice the budget of a window. *)
Theorem provider_budget lo l :
  Sorted Z.le (time_zero :: (g_later <$> l)) → asked_in lo (lo + minute) geo_start l ≤ 80.
Proof.
  intros Hs. etrans; [apply (budget_bounds lo time_zero); [done|done|exact Hs]|].
  unfold budget. cbn [geo_start geoRateWindow geoRateCount]. unfold geoRateMaxPerMinute. repeat case_match; lia.
Qed.

Definition lookups (g : geo_state) (l : list geo_lookup) : geo_state := foldl (λ g x, (do_lookup x g).1.2) g l.

Lemma take_answer_cache ip j now ans g : j ≠ ip → geoCache (take_answer now ip ans g).2 !! j = geoCache g !! j.
Proof. intros Hj. unfold take_answer, cacheGeoNegative, cache_geo. repeat case_match; cbn; by rewrite ?lookup_insert_ne. Qed.

Lemma lookup_other x g j : j ≠ g_ip x → geoCache (do_lookup x g).1.2 !! j = geoCache g !! j.
Proof.
  intros Hj. unfold do_lookup, defaultGeoLookupCountry, geoRateAllow.
  repeat case_match; simplify_eq; cbn [fst snd]; rewrite ?take_answer_cache by done; done.
Qed.
Lemma lookups_other g l j : Forall (λ x, g_ip x ≠ j) l → geoCache (lookups g l) !! j = geoCache g !! j.
Proof.
  intros Hl. revert g. induction Hl as [|x l Hx _ IH]; intros g; [done|]. cbn [lookups foldl].
  fold (lookups (do_lookup x g).1.2 l). rewrite IH. by apply lookup_other.
Qed.

(** An answer is remembered: for a day when it is a country, for five minutes when there is none. Until
    then the provider is not asked about the address again, whatever else is looked up. *)
Theorem answers_are_cached x y g l :
  let '(r, g', asked) := do_lookup x g in
  asked = true → g_ans x ≠ BadRequest → g_ip y = g_ip x → Forall (λ z, g_ip z ≠ g_ip x) l →
  g_now y < g_now x + (match r with Country _ => geoCacheTTL | _ => geoNegativeTTL end) →
  let g1 := lookups g' l in
  do_lookup y g1 = (match r with Country cc => Country cc | _ => GeoNegative end, g1, false).
Proof.
  destruct (do_lookup x g) as [[r g'] asked] eqn:E. intros Ha Hb Hip Hl Ht. cbv zeta.
  assert (geoCache g' !! g_ip x = Some {| country := match r with Country cc => cc | _ => "" end;
    expires := g_now x + (match r with Country _ => geoCacheTTL | _ => geoNegativeTTL end) |} ∧
    (∀ cc, r = Country cc → cc ≠ "")) as [Hc Hne].
  { assert (∃ g0, (r, g') = take_answer (g_now x) (g_ip x) (g_ans x) g0) as [g0 Ht0].
    { unfold do_lookup, defaultGeoLookupCountry in E. subst asked.
      destruct (geoRateAllow (g_later x) g) as [[] g0]; cbn [negb] in E; repeat case_match; simplify_eq; eauto. }
    unfold take_answer, cacheGeoNegative, cache_geo in Ht0. repeat case_match; simplify_eq; cbn [geoCache]; rewrite ?lookup_insert_eq; try done.
    split; [done|]. intros cc [= <-] E0. match goal with H : negb (isCountryCode _) = false |- _ => by rewrite E0 in H end. }
  rewrite <- (lookups_other g' l) in Hc by done. unfold do_lookup at 1, defaultGeoLookupCountry. rewrite Hip, Hc.
  unfold before. cbn [expires country]. rewrite (proj2 (Z.ltb_lt _ _)) by done.
  destruct r as [cc| | |]; [|done..]. by rewrite bool_decide_eq_false_2 by (by apply Hne).
Qed.

(** ** Lookups in flight *)

Section flights.
Context (ParseIP : string → option bytes) (SplitHostPort : string → option string).

(** The table, the lookups' state, and the goroutines under way: a node and an address each. *)
Record flight_state := { fl_rm : RegionManager; fl_geo : geo_state; pending : list (string * string) }.

Inductive flight_op :=
  | FRegister (enabled : bool) (id addr method : string)
  | FSelfReport (id region zone : string) (lat lon : float64)
  | FHeartbeat (enabled : bool) (id : string) (info : option HeartbeatRegionInfo) (ip : string)
  | FDetectSelf (enabled : bool) (now later : Time) (self publicIP : string) (ans : provider_answer)
  | FFinish (i : nat) (enabled : bool) (now later : Time) (ans : provider_answer).

Definition launched (id : string) (r : option string * RegionManager) (s : flight_state) : flight_state :=
  {| fl_rm := r.2; fl_geo := fl_geo s;
     pending := match r.1 with Some host => pending s ++ [(id, host)] | None => pending s end |}.

Definition flight_step (s : flight_state) (o : flight_op) : flight_state :=
  match o with
  | FRegister e id addr m => launched id (RegisterNode ParseIP SplitHostPort e id addr m (fl_rm s)) s
  | FSelfReport id r z lat lon => launched id (None, RegisterNodeSelfReport id r z lat lon (fl_rm s)) s
  | FHeartbeat e id info ip => launched id (ProcessHeartbeatRegion ParseIP SplitHostPort e id info ip (fl_rm s)) s
  | FDetectSelf e now later self ip ans =>
      let '(rm, g) := AutoDetectSelfRegion ParseIP SplitHostPort e now later self ip ans (fl_rm s, fl_geo s) in
      {| fl_rm := rm; fl_geo := g; pending := pending s |}
  | FFinish i e now later ans =>
      match pending s !! i with
      | None => s
      | Some (id, host) =>
          let '(rm, g) := enrich_finish ParseIP SplitHostPort e now later id host ans (fl_rm s, fl_geo s) in
          {| fl_rm := rm; fl_geo := g; pending := delete i (pending s) |}
      end
  end.
Definition flight_start : flight_state := {| fl_rm := NewRegionManager; fl_geo := geo_start; pending := [] |}.
Definition flight_run (h : list flight_op) : flight_state := foldl flight_step flight_start h.

Definition flights_ok (s : flight_state) : Prop :=
  NoDup (pending s).*2 ∧ (length (pending s) ≤ geoMaxInflight)%nat ∧ geoInflight (fl_rm s) = list_to_set (pending s).*2.

(** A registration either starts a lookup of an address that is not in flight, when there is room, or none. *)
Lemma enrich_start_flights e id ip rm :
  let r := enrich_start ParseIP SplitHostPort e id ip rm in
  nodes r.2 = nodes rm ∧
  ((r.1 = None ∧ geoInflight r.2 = geoInflight rm) ∨
   ∃ host, r.1 = Some host ∧ host ∉ geoInflight rm ∧ (size (geoInflight rm) < geoMaxInflight)%nat ∧
           geoInflight r.2 = {[host]} ∪ geoInflight rm).
Proof.
  unfold enrich_start. destruct (negb e); [by split; [|left]|]. set (host := stripPortForGeo _ _).
  destruct (negb (isPublicRoutableIP _ _)); [by split; [|left]|].
  destruct (bool_decide_reflect (host ∈ geoInflight rm)); [by split; [|left]|].
  destruct (has_region id rm); [by split; [|left]|].
  destruct (Nat.leb_spec geoMaxInflight (size (geoInflight rm))); [by split; [|left]|].
  split; [done|]. right. by exists host.
Qed.

Lemma launched_ok id r s :
  flights_ok s →
  (r.1 = None ∧ geoInflight r.2 = geoInflight (fl_rm s)) ∨
  (∃ host, r.1 = Some host ∧ host ∉ geoInflight (fl_rm s) ∧ (size (geoInflight (fl_rm s)) < geoMaxInflight)%nat ∧
           geoInflight r.2 = {[host]} ∪ geoInflight (fl_rm s)) →
  flights_ok (launched id r s).
Proof.
  intros (Hn & Hl & Hs) [[Hr Hg]|(host & Hr & Hh & Hsz & Hg)]; unfold flights_ok, launched; cbn [fl_rm pending]; rewrite Hr.
  - by rewrite Hg.
  - rewrite Hs in Hh, Hsz, Hg. rewrite size_list_to_set, length_fmap in Hsz by done.
    rewrite fmap_app, length_app. cbn [fmap list_fmap snd length]. split_and!.
    + apply NoDup_app. split_and!; [done| |by apply NoDup_singleton]. intros x Hx ->%list_elem_of_singleton. apply Hh. by apply elem_of_list_to_set.
    + lia.
    + rewrite Hg. set_solver.
Qed.

(** Whatever happens in whatever order, no address is looked up twice at a time, at most thirty-two
    lookups are under way, and those are exactly the ones the manager counts. *)
Theorem lookups_single_flight h : flights_ok (flight_run h).
Proof.
  unfold flight_run. induction h as [|o h IH] using rev_ind; [split_and!; [by apply NoDup_nil|unfold geoMaxInflight; cbn; lia|done]|].
  rewrite foldl_app. cbn [foldl]. set (s := foldl flight_step flight_start h) in *.
  assert (∀ e id ip rm', geoInflight rm' = geoInflight (fl_rm s) →
    flights_ok (launched id (enrich_start ParseIP SplitHostPort e id ip rm') s)) as Hen.
  { intros e id ip rm' Hg. apply launched_ok; [done|]. destruct (enrich_start_flights e id ip rm') as [_ H]. by rewrite Hg in H. }
  destruct o as [e id addr m|id r z lat lon|e id info ip|e now later self ip ans|i e now later ans]; cbn [flight_step].
  - unfold RegisterNode. destruct (negb _); [by apply Hen|]. apply launched_ok; [done|by left].
  - apply launched_ok; [done|by left].
  - unfold ProcessHeartbeatRegion. destruct info; [apply launched_ok; [done|by left]|].
    destruct (bool_decide (ip = "")); [apply launched_ok; [done|by left]|].
    match goal with |- context [if has_region _ ?m then _ else _] => assert (geoInflight m = geoInflight (fl_rm s)) as Hm by (by case_match) end.
    destruct (has_region _ _); [apply launched_ok; [done|by left]|by apply Hen].
  - unfold AutoDetectSelfRegion. destruct (_ || _ || _)%bool; [done|]. destruct (GeoDetectRegion _ _ _ _ _ _ _ _) as [region g].
    destruct (bool_decide (region = RegionUnknown)); destruct (bool_decide (_ = RegionUnknown)); exact IH.
  - destruct (pending s !! i) as [[id host]|] eqn:Ei; [|done]. unfold enrich_finish.
    destruct (GeoDetectRegion _ _ _ _ _ _ _ _) as [region g]. destruct IH as (Hn & Hl & Hs). unfold flights_ok. cbn [fl_rm pending].
    assert (∀ rm', geoInflight rm' = geoInflight (fl_rm s) → geoInflight (set_inflight (geoInflight rm' ∖ {[host]}) rm') = geoInflight (fl_rm s) ∖ {[host]}) as Hset.
    { intros rm' Hg. cbn. by rewrite Hg. }
    rewrite Hset by (by repeat case_match).
    assert ((pending s).*2 = take i (pending s).*2 ++ host :: drop (S i) (pending s).*2) as Hsplit.
    { rewrite <- (take_drop_middle (pending s).*2 i host) at 1; [done|]. by rewrite list_lookup_fmap, Ei. }
    assert ((delete i (pending s)).*2 = take i (pending s).*2 ++ drop (S i) (pending s).*2) as ->.
    { by rewrite delete_take_drop, fmap_app, fmap_take, fmap_drop. }
    set (A := take i (pending s).*2) in *. set (B := drop (S i) (pending s).*2) in *.
    rewrite Hsplit in Hn. apply NoDup_app in Hn as (N1 & N2 & [N3 N4]%NoDup_cons). split_and!.
    + apply NoDup_app. split_and!; [done| |done]. intros x Hx Hx'. apply (N2 x Hx). by right.
    + rewrite length_delete by (by eexists). lia.
    + rewrite Hs, Hsplit, !list_to_set_app_L, list_to_set_cons.
      assert (host ∉ A) by (intros Hx; apply (N2 host Hx); by left).
      apply set_eq. intros x. rewrite elem_of_difference, elem_of_singleton, !elem_of_union, elem_of_singleton, !elem_of_list_to_set.
            split; [intros [[Hx|[Hx|Hx]] Hne]; [by left|done|by right]|]. intros [Hx|Hx]; (split; [by auto|by intros ->]).
Qed.
End flights.

(** ** Known regions stay *)

Section stays.
Context (ParseIP : string → option bytes) (SplitHostPort : string → option string).
Abbreviation step := (flight_step ParseIP SplitHostPort).

(** The operation is not a registration of [id] by itself or another's word. *)
Definition quiet (id : string) (o : flight_op) : Prop :=
  match o with
  | FRegister _ i _ _ | FSelfReport i _ _ _ _ | FHeartbeat _ i (Some _) _ => i ≠ id
  | _ => True
  end.

(** The rank of the source of the region of a node, when it has one. *)
Definition rank_of (id : string) (rm : RegionManager) : option Z :=
  match nodes rm !! id with
  | Some e => if known_region (nr_Region e) then Some (regionSourceRank (Source e)) else None
  | None => None
  end.
Definition at_least (r : Z) (o : option Z) : Prop := match o with Some r' => r ≤ r' | None => False end.

Lemma rank_put_ne i id e rm : i ≠ id → rank_of id (put_region i e rm) = rank_of id rm.
Proof. intros Hi. unfold rank_of, put_region. cbn. by rewrite lookup_insert_ne. Qed.
Lemma rank_put id e rm : known_region (nr_Region e) = true → rank_of id (put_region id e rm) = Some (regionSourceRank (Source e)).
Proof. intros He. unfold rank_of, put_region. cbn. by rewrite lookup_insert_eq, He. Qed.
Lemma rank_enrich e i ip rm id : rank_of id (enrich_start ParseIP SplitHostPort e i ip rm).2 = rank_of id rm.
Proof. unfold rank_of. by destruct (enrich_start_flights ParseIP SplitHostPort e i ip rm) as [-> _]. Qed.
Lemma has_region_rank id rm : has_region id rm = true ↔ is_Some (rank_of id rm).
Proof.
  unfold has_region, rank_of. destruct (nodes rm !! id) as [e|]; [|by split; [|intros [? ?]]].
  destruct (known_region _); [by split; [eexists|]|by split; [|intros [? ?]]].
Qed.

Lemma step_rank id o s r : quiet id o → rank_of id (fl_rm s) = Some r → at_least r (rank_of id (fl_rm (step s o))).
Proof.
  intros Hq Hr. assert (at_least r (rank_of id (fl_rm s))) as Hsame by (rewrite Hr; cbn; lia).
  destruct o as [e i addr m|i rg z lat lon|e i info ip|e now later self ip ans|i e now later ans]; cbn [flight_step launched fl_rm].
  - cbn in Hq. unfold RegisterNode. destruct (negb _); cbn [snd]; rewrite ?rank_enrich, rank_put_ne by done; done.
  - cbn in Hq. cbn [snd]. unfold RegisterNodeSelfReport. by rewrite rank_put_ne.
  - unfold ProcessHeartbeatRegion. destruct info as [info|]; [cbn [snd]; by rewrite rank_put_ne|].
    destruct (bool_decide (ip = "")); [done|].
    match goal with |- context [has_region i ?m] => set (rm' := m) end.
    assert (at_least r (rank_of id rm')) as Hrm'.
    { subst rm'. destruct (decide (i = id)) as [->|Hne]; [|by case_match; rewrite ?rank_put_ne by done].
      unfold rank_of in Hr. destruct (nodes (fl_rm s) !! id) as [e0|]; [|done].
      destruct (known_region (nr_Region e0)); [|done]. injection Hr as <-.
      destruct (known_region _) eqn:Ek; cbn [andb]; [|done].
      destruct (Z.leb_spec (regionSourceRank (Source e0)) (regionSourceRank "ip_detect")); [|done].
      rewrite rank_put by done. done. }
    destruct (has_region i rm'); cbn [snd]; [done|]. by rewrite rank_enrich.
  - unfold AutoDetectSelfRegion. destruct (bool_decide (self = "")); [done|]. destruct (has_region self (fl_rm s)) eqn:Eh; [done|].
    destruct (bool_decide (ip = "")); [done|]. cbn [orb]. destruct (GeoDetectRegion _ _ _ _ _ _ _ _) as [rg g].
    assert (self ≠ id) as Hne.
    { intros ->. apply not_true_iff_false in Eh. apply Eh, has_region_rank. rewrite Hr. by eexists. }
    destruct (bool_decide (rg = RegionUnknown)); destruct (bool_decide (_ = RegionUnknown)); cbn [fl_rm]; rewrite ?rank_put_ne by done; exact Hsame.
  - destruct (pending s !! i) as [[j host]|]; [|done]. unfold enrich_finish. destruct (GeoDetectRegion _ _ _ _ _ _ _ _) as [rg g].
    cbn [fl_rm]. unfold rank_of at 1. cbn [set_inflight nodes]. fold (rank_of id (fl_rm s)).
    destruct (bool_decide (rg = RegionUnknown)); [exact Hsame|]. destruct (nodes (fl_rm s) !! j) as [e0|] eqn:Ej; [|exact Hsame].
    destruct (known_region (nr_Region e0)) eqn:Ek; [exact Hsame|].
    assert (j ≠ id) as Hne by (intros ->; unfold rank_of in Hr; by rewrite Ej, Ek in Hr).
    pose proof (rank_put_ne j id (region_from rg "geo_ip") (fl_rm s) Hne) as Hp. unfold rank_of in Hp at 1. rewrite Hp. exact Hsame.
Qed.

(** A known region of a node is never lost to a guess: lookups that end, heartbeats without a region and
    the detection of the node itself keep it or replace it by one from a source of at least its rank. *)
Theorem known_region_stays id s h r :
  Forall (quiet id) h → rank_of id (fl_rm s) = Some r → at_least r (rank_of id (fl_rm (foldl step s h))).
Proof.
  intros Hh. revert s r. induction Hh as [|o h Ho _ IH]; intros s r Hr; [cbn; rewrite Hr; cbn; lia|].
  cbn [foldl]. pose proof (step_rank id o s r Ho Hr) as H1. unfold at_least in H1.
  destruct (rank_of id (fl_rm (step s o))) as [r1|] eqn:E1; [|done]. specialize (IH _ r1 E1). unfold at_least in *.
  destruct (rank_of id (fl_rm (foldl step (step s o) h))); [lia|done].
Qed.
End stays.

(** ** Selection *)

(** Selection puts the nodes of the region first and keeps the order otherwise; the scores given to the
    optimal route change nothing. *)
Theorem selection_is_stable candidates region scores rm :
  SelectNodeForRegion candidates region rm =
    filter (in_region region rm) candidates ++ filter (λ c, ¬ in_region region rm c) candidates ∧
  SelectNodeForRegion candidates region rm ≡ₚ candidates ∧
  GetOptimalRoute candidates region scores rm = SelectNodeForRegion candidates region rm.
Proof.
  assert (∀ l st, foldl (partition_step region rm) st l =
    (st.1 ++ filter (in_region region rm) l, st.2 ++ filter (λ c, ¬ in_region region rm c) l)) as H.
  { induction l as [|c l IH]; intros [a b]; [by rewrite !app_nil_r|]. cbn [foldl]. rewrite IH, !filter_cons. unfold partition_step.
    destruct (decide (in_region region rm c)) as [Hc|Hc]; cbn [fst snd].
    - rewrite (decide_False (P := ¬ _)) by (by intros ?). by rewrite <- app_assoc.
    - rewrite (decide_True (P := ¬ _)) by done. by rewrite <- app_assoc. }
  assert (SelectNodeForRegion candidates region rm = filter (in_region region rm) candidates ++ filter (λ c, ¬ in_region region rm c) candidates) as Hs.
  { unfold SelectNodeForRegion. by rewrite H. }
  split_and!; [done| |done]. rewrite Hs. clear.
  induction candidates as [|c l IH]; [done|]. rewrite !filter_cons. destruct (decide (in_region region rm c)) as [Hc|Hc].
  - rewrite (decide_False (P := ¬ _)) by (by intros ?). cbn [app]. by rewrite IH.
  - rewrite (decide_True (P := ¬ _)) by done. by rewrite <- Permutation_middle, IH.
Qed.

(** ** Distances *)

Theorem region_distance_symmetric a b : regionDistance a b = regionDistance b a ∧ 0 ≤ regionDistance a b.
Proof.
  assert (∀ a b, a ≠ b → table_distance a b ≠ None → table_distance b a = None) as Hone.
  { intros x y Hne Hd. unfold table_distance, regionDistanceTable in Hd. cbn [find fst snd] in Hd.
    repeat (case_bool_decide as E; [injection E as <- <-; by vm_compute|]; clear E). by destruct Hd. }
  assert (∀ a b d, table_distance a b = Some d → 0 ≤ d) as Hpos.
  { intros x y d Hd. unfold table_distance, regionDistanceTable in Hd. cbn [find fst snd] in Hd.
    repeat (case_bool_decide as E; [by injection Hd as <-|]; clear E). discriminate Hd. }
  unfold regionDistance. destruct (bool_decide_reflect (a = b)) as [->|Hne]; [by rewrite bool_decide_eq_true_2|].
  rewrite bool_decide_eq_false_2 by done. pose proof (Hone a b Hne) as H1.
  destruct (table_distance a b) as [d|] eqn:E1; destruct (table_distance b a) as [d'|] eqn:E2;
    try (specialize (H1 ltac:(done)); discriminate); split; try done; eauto.
Qed.

(** ** The configuration *)

Lemma regionCanonical_idem s : regionCanonical (regionCanonical s) = regionCanonical s.
Proof.
  unfold regionCanonical at 2 3. destruct (bool_decide (s ∈ ["ap"; "asia"; "asia-pacific"; "apac"])); [by vm_compute|].
  destruct (bool_decide (s ∈ ["eu"; "europe"])); [by vm_compute|]. by destruct (bool_decide (s ∈ ["us"; "americas"; "na"; "north-america"])); vm_compute.
Qed.

Lemma foldl_inserts {A} (step : gmap string A → string * A → gmap string A) l acc :
  (∀ x m, x ∈ l → step m x = <[x.1 := x.2]> m) → foldl step acc l = foldl (λ m x, <[x.1 := x.2]> m) acc l.
Proof.
  revert acc. induction l as [|x l IH]; intros acc Hl; [done|]. cbn [foldl]. rewrite Hl by (by left).
  apply IH. intros y m Hy. apply Hl. by right.
Qed.

Lemma foldl_inserts_map {A} (m : gmap string A) l :
  l ≡ₚ map_to_list m → foldl (λ m x, <[x.1 := x.2]> m) ∅ l = m.
Proof.
  intros Hl. apply map_eq. intros k.
  assert (NoDup l.*1) as Hnd by (rewrite Hl; apply NoDup_fst_map_to_list).
  destruct (foldl_pointwise (λ (m : gmap string A) k, m !! k) fst (λ m x, <[x.1 := x.2]> m) (λ x _, Some x.2)) with (l := l) (s := ∅ : gmap string A) (k := k)
    as [H1 H2]; [intros s x; apply lookup_insert_eq|intros s x j Hj; by rewrite lookup_insert_ne|done|].
  destruct (m !! k) as [v|] eqn:E.
  - apply (H1 (k, v)); [|done]. rewrite Hl. by apply elem_of_map_to_list.
  - rewrite H2; [apply lookup_empty|]. intros ([i x] & -> & Hin)%list_elem_of_fmap. rewrite Hl, elem_of_map_to_list in Hin. cbn in E. congruence.
Qed.

Lemma fleb_nonneg x : x ≠ SpecFloat.S754_nan → fltb x f_zero = false → fleb f_zero x = true.
Proof. destruct x as [[]|[]| |[] m e]; intros Hn Hx; first [reflexivity|by destruct Hn|discriminate Hx]. Qed.

Section settings.
Context (walk_w : gmap string float64 → list (string * float64)) (env : string → string)
  (ParseFloat : string → option float64) (FormatFloat : float64 → string)
  (weights_json : gmap string float64 → string) (parse_weights : string → option (gmap string float64)).
Context (walk_ok : ∀ m, walk_w m ≡ₚ map_to_list m).
(** A number and a JSON object of numbers are read back from their texts. *)
Context (float_law : ∀ x, x ≠ SpecFloat.S754_nan → ParseFloat (FormatFloat x) = Some x ∧ trimSpace (FormatFloat x) = FormatFloat x ∧ FormatFloat x ≠ "")
  (weights_law : ∀ w, parse_weights (weights_json w) = Some w ∧ weights_json w ≠ "").

(** A weight of a region under its own name, not negative. *)
Definition weight_ok (kv : string * float64) : Prop :=
  regionCanonical kv.1 = kv.1 ∧ fltb kv.2 f_zero = false.

Lemma canonical_weights_ok w k v : canonicalRegionWeights walk_w w !! k = Some v → weight_ok (k, v).
Proof.
  unfold canonicalRegionWeights. assert (∀ l (acc : gmap Region float64), (∀ k v, acc !! k = Some v → weight_ok (k, v)) →
    ∀ k v, foldl canonical_weight acc l !! k = Some v → weight_ok (k, v)) as H; [|apply H; intros ? ? [=]].
  induction l as [|[i x] l IH]; intros acc Hacc; [done|]. cbn [foldl]. apply IH. intros j y. unfold canonical_weight. cbn [fst snd].
  destruct (fltb x f_zero) eqn:Ex; [apply Hacc|]. destruct (_ && _)%bool; [apply Hacc|].
  destruct (decide (regionCanonical i = j)) as [<-|Hj]; [|rewrite lookup_insert_ne by done; apply Hacc].
  rewrite lookup_insert_eq. intros [= <-]. split; [apply regionCanonical_idem|done].
Qed.

Lemma canonical_weights_id w : (∀ k v, w !! k = Some v → weight_ok (k, v)) → canonicalRegionWeights walk_w w = w.
Proof using walk_ok.
  intros Hw. unfold canonicalRegionWeights. rewrite foldl_inserts; [by apply foldl_inserts_map|].
  intros [k v] m Hin. rewrite walk_ok, elem_of_map_to_list in Hin. destruct (Hw k v Hin) as [Hk Hv]. cbn in Hk, Hv.
  unfold canonical_weight. cbn [fst snd]. rewrite Hv, Hk. destruct (bool_decide_reflect (k = RegionUnknown)) as [->|]; done.
Qed.

Lemma canonical_json_id w : (∀ k v, w !! k = Some v → weight_ok (k, v)) → canonicalRegionWeightsJSON walk_w w = w.
Proof using walk_ok.
  intros Hw. unfold canonicalRegionWeightsJSON. rewrite foldl_inserts; [by apply foldl_inserts_map|].
  intros [k v] m Hin. rewrite walk_ok, elem_of_map_to_list in Hin. destruct (Hw k v Hin) as [Hk Hv]. cbn in Hk. by cbn; rewrite Hk.
Qed.

(** A configuration that is accepted is the one in force, and the one a restart reads back from the
    settings, whatever they held before. *)
Theorem config_survives_restart body cfg rm rm0 :
  CrossRegionThreshold body ≠ SpecFloat.S754_nan →
  let '(status, cfg', rm') := handleNetworkRegionConfigUpdate walk_w FormatFloat weights_json (Some body) cfg rm in
  status = 200 →
  rm_config (loadRegionConfigFromSettings walk_w ParseFloat parse_weights env cfg' rm0) = rm_config rm' ∧
  validateRegionConfig walk_w body = Some (rm_config rm').
Proof using walk_ok float_law weights_law.
  intros Hnan. unfold handleNetworkRegionConfigUpdate. destruct (validateRegionConfig walk_w body) as [rc|] eqn:Ev; [|done]. intros _.
  split; [|done]. unfold validateRegionConfig in Ev. destruct (fltb (CrossRegionThreshold body) f_zero) eqn:Et; [done|].
  destruct (existsb _ _); [done|]. injection Ev as <-. cbn [UpdateConfig rm_config].
  set (w := canonicalRegionWeights walk_w (default ∅ (RegionWeights body))).
  assert (∀ k v, w !! k = Some v → weight_ok (k, v)) as Hw by apply canonical_weights_ok.
  set (t := CrossRegionThreshold body) in *. destruct (float_law t Hnan) as (F1 & F2 & F3). destruct (weights_law w) as [W1 W2].
  unfold persistRegionConfig, loadRegionConfigFromSettings. cbn [RegionWeights CrossRegionThreshold PreferLocal default].
  cbn [from_option id]. rewrite canonical_json_id by done.
  unfold setting. rewrite !lookup_insert_eq. rewrite !(lookup_insert_ne _ "region_weights_json") by done.
  rewrite lookup_insert_eq, (lookup_insert_ne _ "region_cross_threshold") by done. rewrite lookup_insert_eq. cbn [from_option id].
  rewrite !(bool_decide_eq_false_2 (FormatFloat t = "")), !(bool_decide_eq_false_2 (weights_json w = "")) by done. cbn [negb].
  rewrite F2, (bool_decide_eq_false_2 (FormatFloat t = "")), F1, W1, canonical_weights_id, fleb_nonneg by done. cbn [UpdateConfig rm_config].
  f_equal. by destruct (PreferLocal body).
Qed.
End settings.

(** ** Heartbeats *)

Lemma touch_others ts id ps j :
  j ≠ id → filter (λ p, Network.pi_NodeID p = j) (touchPeerLastSeen ts id ps) = filter (λ p, Network.pi_NodeID p = j) ps.
Proof.
  intros Hj. induction ps as [|p ps IH]; [done|]. cbn [touchPeerLastSeen]. destruct (bool_decide_reflect (Network.pi_NodeID p = id)) as [Hp|Hp].
  - rewrite !filter_cons. cbn [seen_peer Network.pi_NodeID]. by rewrite !decide_False by congruence.
  - rewrite !filter_cons, IH. done.
Qed.

Section heartbeats.
Context `{Location}.

(** A node without a secret and without a trust pool takes no heartbeat at all; one that refuses a
    heartbeat changes nothing; and one it takes changes the region, the peer and the pool entry of the
    sender only. *)
Theorem heartbeat_denied_by_default now secret r n :
  let '(status, n') := handleNetworkHeartbeat now secret r n in
  let sender := heartbeat_sender r in
  (secret = "" → hn_fed n = None → status = 403) ∧
  (status ≠ 200 → n' = n) ∧
  (status = 200 → sender ≠ "" ∧ (secret ≠ "" → h_Secret r = secret) ∧
     (∀ j rm, j ≠ sender → hn_regions n = Some rm → ∃ rm', hn_regions n' = Some rm' ∧ nodes rm' !! j = nodes rm !! j) ∧
     (∀ j ps, j ≠ sender → hn_peers n = Some ps →
       ∃ ps', hn_peers n' = Some ps' ∧ filter (λ p, Network.pi_NodeID p = j) ps' = filter (λ p, Network.pi_NodeID p = j) ps)).
Proof.
  unfold handleNetworkHeartbeat. set (sender := heartbeat_sender r).
  destruct (heartbeat_authed secret sender r n) eqn:Ea; cbn [negb]; [|by split_and!].
  destruct (bool_decide_reflect (sender = "")) as [Hs|Hs].
  { split_and!; try done. intros Hsec Hf. exfalso. revert Ea. unfold heartbeat_authed. subst secret. by rewrite Hf. }
  split_and!; [|done|].
  - intros Hsec Hf. exfalso. revert Ea. unfold heartbeat_authed. subst secret. by rewrite Hf.
  - intros _. split_and!; [done| | |].
    + intros Hsec. revert Ea. unfold heartbeat_authed. rewrite bool_decide_eq_false_2 by done. cbn [negb].
      by intros [_ ->%bool_decide_eq_true]%andb_true_iff.
    + intros j rm Hj ->. cbn [hn_regions]. destruct (bool_decide (h_body_Region r = "")); [by exists rm|].
      eexists. split; [done|]. cbn. by rewrite lookup_insert_ne.
    + intros j ps Hj ->. eexists. split; [done|]. by apply touch_others.
Qed.

(** In a mesh without a secret nothing but the id of a known node is needed to say that it is alive and
    where it is. *)
Theorem open_heartbeat_is_unsigned now id label f known peers pool rm :
  TrustPool.GetNode id f = Some known → ContribQuota.sanitizeNodeID id = id → id ≠ "" → label ≠ "" →
  let '(status, n') := handleNetworkHeartbeat now "" {| h_NodeID := id; h_Secret := ""; h_body_NodeID := ""; h_body_Region := label |}
    {| hn_regions := Some rm; hn_peers := peers; hn_fed := Some f; hn_pool := pool |} in
  status = 200 ∧ (∃ rm', hn_regions n' = Some rm' ∧ nodes rm' !! id = Some (region_from (regionCanonical label) "heartbeat")) ∧
  hn_fed n' = Some (TrustPool.UpdateNodeInfo now (TrustPool.with_status "active" (fmt_rfc3339 UTC now) known) f).
Proof.
  intros Hk Hid Hne Hl. unfold handleNetworkHeartbeat, heartbeat_sender. cbn [h_NodeID]. rewrite Hid, bool_decide_eq_false_2 by done.
  unfold heartbeat_authed. cbn [hn_fed]. rewrite Hk, !(bool_decide_eq_false_2 (id = "")) by done. cbn [negb andb bool_decide].
  rewrite (bool_decide_eq_true_2 (is_Some _)) by (by eexists). cbn. split; [done|]. rewrite bool_decide_eq_false_2 by done. cbn. rewrite Hk.
  split; [|done]. eexists. split; [done|]. cbn. apply lookup_insert_eq.
Qed.
End heartbeats.

(** ** Concrete regions *)

Section demo.
Let parse (s : string) : option bytes :=
  if bool_decide (s = "1.2.3.4") then Some [1;2;3;4]
  else if bool_decide (s = "10.0.0.1") then Some [10;0;0;1]
  else if bool_decide (s = "2001:200::1") then Some ([32;1;2;0] ++ replicate 11 0 ++ [1]) else None.
Let no_port (s : string) : option string := None.

(** An address of the Asia-Pacific registry counts as American, and one of its IPv6 block, written the
    usual way, as unknown. *)
Example addresses_misread :
  DetectRegion parse no_port "1.2.3.4" = RegionAmericas ∧ DetectRegion parse no_port "2001:200::1" = RegionUnknown.
Proof. vm_compute. done. Qed.

(** What a node said of itself is overwritten by its address when it is registered, and by a heartbeat
    with a label that is no region. *)
Example stronger_source_overwritten :
  let rm := RegisterNodeSelfReport "n" "europe" "" f_zero f_zero NewRegionManager in
  nr_Region <$> nodes rm !! "n" = Some RegionEurope ∧
  nr_Region <$> nodes (RegisterNode parse no_port false "n" "10.0.0.1" "ip_detect" rm).2 !! "n" = Some RegionUnknown ∧
  nr_Region <$> nodes (ProcessHeartbeatRegion parse no_port false "n"
    (Some {| hb_Region := "moon"; hb_SubRegion := ""; hb_Latitude := f_zero; hb_Longitude := f_zero |}) "" rm).2 !! "n" = Some RegionUnknown.
Proof. vm_compute. done. Qed.

(** The stamp of a node without a region is never removed, however long ago the node left. *)
Example stamps_are_kept :
  let known := {["gone" := {| kn_Region := ""; kn_Endpoint := "" |}]} in
  let later := {["other" := {| kn_Region := "eu"; kn_Endpoint := "" |}]} in
  let s := passes parse no_port (λ _, None) "self" (NewRegionManager, ∅)
             [(known, 0); (later, 1000 * 24 * hour)] in
  s.2 !! "gone" = Some 0 ∧ nodes s.1 !! "gone" = None.
Proof. vm_compute. done. Qed.

(** A node that reported its region, seen once, stays a day and is then gone. *)
Lemma departed_node_ages_out_witness :
  let e := region_from RegionEurope "self_report" in
  let rm := put_region "n" e NewRegionManager in
  let later := {["other" := {| kn_Region := "eu"; kn_Endpoint := "" |}]} in
  let run l := nodes (passes parse no_port (λ _, None) "self" (rm, {["n" := 0]}) l).1 !! "n" in
  run [(later, 23 * hour); (∅, 30 * hour)] = Some e ∧ run [(later, 23 * hour); (∅, 30 * hour); (later, 31 * hour)] = None.
Proof.
  intros e rm later run.
  assert (∀ l, Forall (λ p : gmap string knownNode * Time, p.1 !! "n" = None) l →
    run l = if existsb (λ p, negb (bool_decide (p.1 = ∅)) && (regionEntryTTL <=? p.2 - 0)) l then None else Some e) as H.
  { intros l Hl. apply departed_node_ages_out; [discriminate|reflexivity|reflexivity|exact Hl]. }
  split; (etrans; [apply H; repeat constructor|vm_compute; reflexivity]).
Defined.

Lemma provider_budget_witness :
  asked_in 0 minute geo_start (replicate 100 {| g_now := 0; g_later := 0; g_ip := "1.2.3.4"; g_ans := BadRequest |}) ≤ 80.
Proof.
  apply (provider_budget 0). rewrite fmap_replicate. cbn [g_later].
  apply Sorted_cons; [apply StronglySorted_Sorted; generalize 100%nat; intros n; induction n; constructor; [assumption|by apply Forall_replicate]|].
  constructor. discriminate.
Defined.
End demo.
