(* ===== verification/LoadBalancer.v ===== *)
(** * The load balancer (network_loadbalancer.go)

    [LoadBalancer] keeps what probes and relayed requests tell of each node, scores the nodes and
    chooses one. Random numbers, the probes' outcomes and the order of maps are arguments; timers and the
    requests themselves are not modelled. *)

From S2P Require Import Prelude GoTime.
From S2P Require RouteTable Network GlobalPool Region Gateway.

Record NodeMetrics := {
  m_NodeID : string; Latency : Z; ActiveConns : Z; CPUUsage : float64; MemUsage : float64; Bandwidth : Z;
  ErrorRate : float64; LastUpdate : Time; Healthy : bool; LatencyHistory : list Z; RequestCount : Z; SuccessCount : Z }.

Record LBConfig := {
  TrustWeight : float64; ReputationWeight : float64; LatencyWeight : float64; AvailabilityWeight : float64;
  ContributionWeight : float64; LoadWeight : float64; ErrorRateWeight : float64; FairnessWeight : float64;
  HealthCheckInterval : Z; MetricsWindow : Z; MaxLatency : Z }.

Record RouteRequirements := { TargetNodeID : string; rq_Models : list string; rq_MaxLatency : Z; MinScore : float64 }.

Record LoadBalancer := {
  nodeMetrics : gmap string NodeMetrics; routeHistory : gmap string Z; config : LBConfig; selfNodeID : string }.

(** [n / 100], as the source's decimal literals round. *)
Definition hundredths (n : Z) : float64 := fdiv (float_of_int n) (float_of_int 100).
Definition f_one : float64 := float_of_int 1.
Definition f_hundred : float64 := float_of_int 100.

Definition DefaultLBConfig : LBConfig := {|
  TrustWeight := hundredths 25; ReputationWeight := hundredths 25; LatencyWeight := hundredths 20;
  AvailabilityWeight := hundredths 15; ContributionWeight := hundredths 15; LoadWeight := f_zero;
  ErrorRateWeight := f_zero; FairnessWeight := f_zero; HealthCheckInterval := 30 * second; MetricsWindow := 20;
  MaxLatency := 5 * second |}.

(** [selfID]: the id of the node, empty when it has no identity. *)
Definition NewLoadBalancer (cfg : LBConfig) (selfID : string) : LoadBalancer :=
  {| nodeMetrics := ∅; routeHistory := ∅; config := cfg; selfNodeID := selfID |}.

Definition set_metrics (m : gmap string NodeMetrics) (lb : LoadBalancer) : LoadBalancer :=
  {| nodeMetrics := m; routeHistory := routeHistory lb; config := config lb; selfNodeID := selfNodeID lb |}.
Definition set_history (h : gmap string Z) (lb : LoadBalancer) : LoadBalancer :=
  {| nodeMetrics := nodeMetrics lb; routeHistory := h; config := config lb; selfNodeID := selfNodeID lb |}.

(** ** Measurements *)

Definition new_metrics (id : string) : NodeMetrics := {|
  m_NodeID := id; Latency := 0; ActiveConns := 0; CPUUsage := f_zero; MemUsage := f_zero; Bandwidth := 0;
  ErrorRate := f_zero; LastUpdate := time_zero; Healthy := false; LatencyHistory := []; RequestCount := 0; SuccessCount := 0 |}.
Definition metrics_of (id : string) (lb : LoadBalancer) : NodeMetrics := default (new_metrics id) (nodeMetrics lb !! id).

(** The last [window] latencies. *)
Definition push_latency (window latency : Z) (l : list Z) : list Z :=
  let l := l ++ [latency] in
  if window <? Z.of_nat (length l) then drop (length l - Z.to_nat window) l else l.

Definition error_rate (requests successes : Z) (old : float64) : float64 :=
  if 0 <? requests then fsub f_one (fdiv (float_of_int successes) (float_of_int requests)) else old.

Definition evictStaleMetrics (live : gset string) (lb : LoadBalancer) : LoadBalancer := {|
  nodeMetrics := filter (λ kv, kv.1 ∈ live) (nodeMetrics lb); routeHistory := filter (λ kv, kv.1 ∈ live) (routeHistory lb);
  config := config lb; selfNodeID := selfNodeID lb |}.

Definition probed (window : Z) (now : Time) (latency : Z) (success : bool) (m : NodeMetrics) : NodeMetrics :=
  let requests := RequestCount m +! 1 in
  let successes := if success then SuccessCount m +! 1 else SuccessCount m in
  {| m_NodeID := m_NodeID m; Latency := if success then latency else Latency m; ActiveConns := ActiveConns m;
     CPUUsage := CPUUsage m; MemUsage := MemUsage m; Bandwidth := Bandwidth m;
     ErrorRate := error_rate requests successes (ErrorRate m); LastUpdate := now; Healthy := success;
     LatencyHistory := if success then push_latency window latency (LatencyHistory m) else LatencyHistory m;
     RequestCount := requests; SuccessCount := successes |}.

Definition recordProbe (now : Time) (id : string) (latency : Z) (success : bool) (lb : LoadBalancer) : LoadBalancer :=
  set_metrics (<[id := probed (MetricsWindow (config lb)) now latency success (metrics_of id lb)]> (nodeMetrics lb)) lb.

Definition requested (window : Z) (now : Time) (latency : Z) (success : bool) (m : NodeMetrics) : NodeMetrics :=
  let requests := RequestCount m +! 1 in
  let successes := if success then SuccessCount m +! 1 else SuccessCount m in
  {| m_NodeID := m_NodeID m; Latency := if 0 <? latency then latency else Latency m; ActiveConns := ActiveConns m;
     CPUUsage := CPUUsage m; MemUsage := MemUsage m; Bandwidth := Bandwidth m;
     ErrorRate := error_rate requests successes (ErrorRate m); LastUpdate := now;
     Healthy := if success then true else if 2 <? requests -! successes then false else Healthy m;
     LatencyHistory := if 0 <? latency then push_latency window latency (LatencyHistory m) else LatencyHistory m;
     RequestCount := requests; SuccessCount := successes |}.

Definition RecordRequest (now : Time) (id : string) (latency : Z) (success : bool) (lb : LoadBalancer) : LoadBalancer :=
  set_metrics (<[id := requested (MetricsWindow (config lb)) now latency success (metrics_of id lb)]> (nodeMetrics lb)) lb.

Definition UpdateNodeMetrics (now : Time) (id : string) (cpu mem : float64) (conns bw : Z) (lb : LoadBalancer) : LoadBalancer :=
  let m := metrics_of id lb in
  set_metrics (<[id := {| m_NodeID := m_NodeID m; Latency := Latency m; ActiveConns := conns; CPUUsage := cpu; MemUsage := mem;
    Bandwidth := bw; ErrorRate := ErrorRate m; LastUpdate := now; Healthy := Healthy m; LatencyHistory := LatencyHistory m;
    RequestCount := RequestCount m; SuccessCount := SuccessCount m |}]> (nodeMetrics lb)) lb.

(** The nodes a round probes, with the address. [shared]: the node is in shared mode. *)
Definition probe_targets (self : string) (entries : list RouteTable.RouteEntry) : list (string * string) :=
  filter (λ t, t.2 ≠ "")
    ((λ e, (RouteTable.r_NodeID e, Gateway.pickBestAddress (RouteTable.r_Addresses e)))
       <$> filter (λ e, RouteTable.r_NodeID e ≠ self) entries).
(** What a probe gives: when it ends, how long it took and whether it succeeded, in the order they end. *)
Definition probeAllNodes (shared : bool) (self : string) (entries : list RouteTable.RouteEntry)
    (ends : list (string * string) → list (string * Time * Z * bool)) (lb : LoadBalancer) : LoadBalancer :=
  if negb shared then lb
  else
    let lb := evictStaleMetrics ({[self]} ∪ list_to_set (RouteTable.r_NodeID <$> entries)) lb in
    foldl (λ lb p, recordProbe p.1.1.2 p.1.1.1 p.1.2 p.2 lb) lb (ends (probe_targets self entries)).

(** ** Scores *)

(** [math.Min] and [math.Round]. *)
Definition fmin (a b : float64) : float64 :=
  match a, b with
  | SpecFloat.S754_infinity true, _ | _, SpecFloat.S754_infinity true => SpecFloat.S754_infinity true
  | SpecFloat.S754_nan, _ | _, SpecFloat.S754_nan => SpecFloat.S754_nan
  | SpecFloat.S754_zero sa, SpecFloat.S754_zero sb => SpecFloat.S754_zero (sa || sb)
  | _, _ => if fltb a b then a else b
  end.
Definition fround (f : float64) : float64 :=
  match f with
  | SpecFloat.S754_finite s m e =>
      if 0 <=? e then f
      else
        let q := (Z.pos m + 2 ^ (- e - 1)) / 2 ^ (- e) in
        if q =? 0 then SpecFloat.S754_zero s else float_of_int (if s then - q else q)
  | _ => f
  end.

Definition milliseconds (d : Z) : Z := Z.quot d 1000000.

Section scores.
(** The peers of the network manager, the global pool and the regions of nodes, where they are there. *)
Context (peers : option (list Network.PeerInfo)) (pool : option GlobalPool.GlobalPool) (regions : option Region.RegionManager).

Definition getContributionScore (id : string) : float64 :=
  match pool with
  | None => float_of_int (-1)
  | Some gp =>
      let contributed := zget (GlobalPool.NodeContributions gp) id in
      let consumed := zget (GlobalPool.NodeConsumptions gp) id in
      if consumed <=? 0 then (if 0 <? contributed then f_hundred else float_of_int (-1))
      else fmul (fdiv (fmin (fdiv (float_of_int contributed) (float_of_int consumed)) (float_of_int 2)) (float_of_int 2)) f_hundred
  end.

Definition peer_score (id : string) : float64 :=
  match peers with
  | None => float_of_int 50
  | Some ps => match find_key Network.pi_NodeID id ps with
               | Some p => fmul (Network.TrustScore p) f_hundred
               | None => float_of_int 50
               end
  end.
Definition getReputationScore (id : string) : float64 := peer_score id.
Definition getTrustScore (id : string) : float64 := peer_score id.

Definition max_history (h : gmap string Z) : Z := foldr Z.max 1 (map_to_list h).*2.

Definition latency_score (maxLatency latency : Z) : float64 :=
  let avg := if latency <=? 0 then maxLatency else latency in
  if maxLatency <? avg then f_zero
  else fmul f_hundred (fsub f_one (fmin (fdiv (float_of_int (milliseconds avg)) (float_of_int (milliseconds maxLatency))) f_one)).

Definition availability_score (m : NodeMetrics) : float64 :=
  let s := fmul f_hundred (fsub f_one (fmin (ErrorRate m) f_one)) in
  if Healthy m then s else fmul s (hundredths 50).

Definition region_bonus (self id : string) (score : float64) : float64 :=
  match regions with
  | None => score
  | Some rm =>
      match Region.GetNodeRegion self rm, Region.GetNodeRegion id rm with
      | Some a, Some b =>
          if bool_decide (Region.nr_Region a = Region.RegionUnknown) || bool_decide (Region.nr_Region b = Region.RegionUnknown) then score
          else if bool_decide (Region.nr_Region a = Region.nr_Region b) then fadd score (float_of_int 15)
          else fsub score (float_of_int 10)
      | _, _ => score
      end
  end.

Definition ScoreNode (id : string) (lb : LoadBalancer) : float64 :=
  match nodeMetrics lb !! id with
  | None => float_of_int 50
  | Some m =>
      let c := config lb in
      let contribution := getContributionScore id in
      let contribution := if fltb contribution f_zero
                          then fmul f_hundred (fsub f_one (fdiv (float_of_int (zget (routeHistory lb) id))
                                                               (float_of_int (max_history (routeHistory lb) +! 1))))
                          else contribution in
      let score := fadd (fadd (fadd (fadd (fmul (getTrustScore id) (TrustWeight c)) (fmul (getReputationScore id) (ReputationWeight c)))
                                   (fmul (latency_score (MaxLatency c) (Latency m)) (LatencyWeight c)))
                             (fmul (availability_score m) (AvailabilityWeight c)))
                        (fmul contribution (ContributionWeight c)) in
      fdiv (fround (fmul (region_bonus (selfNodeID lb) id score) f_hundred)) f_hundred
  end.

(** ** Selection *)

Definition recordRoute (id : string) (lb : LoadBalancer) : LoadBalancer :=
  let h := zincr id 1 (routeHistory lb) in
  if 1000 <? wsum (map_to_list h).*2
  then set_history (omap (λ v, let v := Z.quot v 2 in if v =? 0 then None else Some v) h) lb
  else set_history h lb.

(** Nothing known of the node speaks against it. *)
Definition healthy_enough (now : Time) (maxLatency : Z) (id : string) (lb : LoadBalancer) : bool :=
  match nodeMetrics lb !! id with
  | None => true
  | Some m =>
      negb (negb (Healthy m) && after (LastUpdate m) (now + wrap64 (-2 * HealthCheckInterval (config lb))))
      && negb (fltb (hundredths 80) (ErrorRate m))
      && negb ((maxLatency <? Latency m) && (0 <? Latency m))
  end.

Definition effective_latency (reqs : RouteRequirements) (lb : LoadBalancer) : Z :=
  if (0 <? rq_MaxLatency reqs) && (rq_MaxLatency reqs <? MaxLatency (config lb)) then rq_MaxLatency reqs else MaxLatency (config lb).

Definition eligible (now : Time) (self : string) (reqs : RouteRequirements) (lb : LoadBalancer) (id : string) : bool :=
  negb (bool_decide (id = self))
  && (bool_decide (TargetNodeID reqs = "") || bool_decide (id = TargetNodeID reqs))
  && healthy_enough now (effective_latency reqs lb) id lb
  && negb (fltb (ScoreNode id lb) (MinScore reqs)).

Definition candidate : Type := string * float64.
Definition candidates (now : Time) (self : string) (reqs : RouteRequirements) (entries : list RouteTable.RouteEntry) (lb : LoadBalancer)
    : list candidate :=
  (λ e, (RouteTable.r_NodeID e, ScoreNode (RouteTable.r_NodeID e) lb))
    <$> filter (λ e, eligible now self reqs lb (RouteTable.r_NodeID e) = true) entries.

(** The first candidate at which the running sum reaches [r], the first of all when none does. *)
Fixpoint pick_weighted (r cumulative : float64) (l : list candidate) (first : candidate) : candidate :=
  match l with
  | [] => first
  | c :: l => let cumulative := fadd cumulative c.2 in if fleb r cumulative then c else pick_weighted r cumulative l first
  end.

(** [rnd] is the random number drawn; [self] is the network manager's id, empty without one. *)
Definition SelectNode (now : Time) (rnd : float64) (self : string) (reqs : RouteRequirements) (rt : RouteTable.RouteTable) (lb : LoadBalancer)
    : option string * LoadBalancer :=
  let sorted := sort_slice (λ a b, fltb b.2 a.2) (candidates now self reqs (RouteTable.GetAll now rt) lb) in
  match take 5 sorted with
  | [] =>
      if negb (bool_decide (TargetNodeID reqs = "")) && bool_decide (is_Some (RouteTable.Get now (TargetNodeID reqs) rt))
      then (Some (TargetNodeID reqs), recordRoute (TargetNodeID reqs) lb)
      else (None, lb)
  | first :: rest =>
      let top := first :: rest in
      let total := foldl (λ acc c, fadd acc c.2) f_zero top in
      let total := if fleb total f_zero then f_one else total in
      let selected := pick_weighted (fmul rnd total) f_zero top first in
      (Some selected.1, recordRoute selected.1 lb)
  end.

(** [bootstrap] is what a bootstrap node says of the target. *)
Definition selectRelayNode (now : Time) (rnd : float64) (self target : string) (bootstrap : option RouteTable.RouteEntry)
    (rt : RouteTable.RouteTable) (lb : option LoadBalancer) : option (string * RouteTable.RouteEntry) * option LoadBalancer :=
  let direct :=
    match RouteTable.Get now target rt with
    | Some e => Some (RouteTable.r_NodeID e, e)
    | None => match bootstrap with Some e => Some (RouteTable.r_NodeID e, e) | None => None end
    end in
  match lb with
  | None => (direct, None)
  | Some lb =>
      let '(sel, lb) := SelectNode now rnd self {| TargetNodeID := target; rq_Models := []; rq_MaxLatency := 0; MinScore := f_zero |} rt lb in
      (match sel with
       | Some id => if bool_decide (id = "") then direct
                    else match RouteTable.Get now id rt with Some e => Some (id, e) | None => direct end
       | None => direct
       end, Some lb)
  end.
End scores.

(** ** Configuration and status *)

Definition legacy (old new : float64) : float64 * float64 :=
  if SpecFloat.SFeqb new f_zero && fltb f_zero old then (f_zero, old) else (old, new).

(** The configuration a request sets, [None] for status 400. *)
Definition checked_config (c : LBConfig) : option LBConfig :=
  let '(load, trust) := legacy (LoadWeight c) (TrustWeight c) in
  let '(err, avail) := legacy (ErrorRateWeight c) (AvailabilityWeight c) in
  let '(fair, contrib) := legacy (FairnessWeight c) (ContributionWeight c) in
  let total := fadd (fadd (fadd (fadd trust (ReputationWeight c)) (LatencyWeight c)) avail) contrib in
  if fltb total (hundredths 90) || fltb (hundredths 110) total then None
  else Some {|
    TrustWeight := trust; ReputationWeight := ReputationWeight c; LatencyWeight := LatencyWeight c; AvailabilityWeight := avail;
    ContributionWeight := contrib; LoadWeight := load; ErrorRateWeight := err; FairnessWeight := fair;
    HealthCheckInterval := if HealthCheckInterval c <? 5 * second then 5 * second else HealthCheckInterval c;
    MetricsWindow := let w := if MetricsWindow c <? 5 then 5 else MetricsWindow c in if 100 <? w then 100 else w;
    MaxLatency := if MaxLatency c <? 500 * 1000000 then 500 * 1000000 else MaxLatency c |}.

Definition handleLBConfigUpdate (is_put : bool) (body : option LBConfig) (lb : option LoadBalancer) : Z * option LoadBalancer :=
  match lb with
  | None => (503, None)
  | Some lb =>
      if negb is_put then (405, Some lb)
      else match body with
      | None => (400, Some lb)
      | Some c => match checked_config c with
                  | None => (400, Some lb)
                  | Some c => (200, Some {| nodeMetrics := nodeMetrics lb; routeHistory := routeHistory lb; config := c; selfNodeID := selfNodeID lb |})
                  end
      end
  end.

(** The nodes with metrics, the healthy ones, the configuration and the size of the history. *)
Definition handleLBStatus (lb : LoadBalancer) : Z * Z * LBConfig * Z :=
  (Z.of_nat (size (nodeMetrics lb)), Z.of_nat (size (filter (λ kv, Healthy kv.2 = true) (nodeMetrics lb))), config lb,
   Z.of_nat (size (routeHistory lb))).

(** The nodes by score; [walk] is the order of the map. *)
Definition handleLBNodes (peers : option (list Network.PeerInfo)) (pool : option GlobalPool.GlobalPool) (regions : option Region.RegionManager)
    (walk : gmap string NodeMetrics → list (string * NodeMetrics)) (lb : LoadBalancer) : list (string * float64 * bool * Z) :=
  sort_slice (λ a b, fltb b.1.1.2 a.1.1.2)
    ((λ kv, (kv.1, ScoreNode peers pool regions kv.1 lb, Healthy kv.2, milliseconds (Latency kv.2))) <$> walk (nodeMetrics lb)).

Fixpoint all_slashes (s : string) : bool := match s with EmptyString => true | String c s => Ascii.eqb c "/" && all_slashes s end.
Fixpoint trimTrailingSlash (s : string) : string :=
  match s with EmptyString => "" | String c s' => if all_slashes s then "" else String c (trimTrailingSlash s') end.

(** ** What the balancer guarantees *)

Section selection.
Context (peers : option (list Network.PeerInfo)) (pool : option GlobalPool.GlobalPool) (regions : option Region.RegionManager).
Abbreviation select := (SelectNode peers pool regions).
Abbreviation ok := (eligible peers pool regions).

Lemma pick_elem r cum l first : pick_weighted r cum l first ∈ first :: l.
Proof.
  revert cum. induction l as [|c l IH]; intros cum; cbn [pick_weighted]; [by left|].
  destruct (fleb r (fadd cum c.2)); [right; by left|]. specialize (IH (fadd cum c.2)).
  apply elem_of_cons in IH as [-> |IH]; [by left|right; by right].
Qed.

Lemma candidate_spec now self reqs es lb c :
  c ∈ candidates peers pool regions now self reqs es lb ↔
  ∃ e, e ∈ es ∧ c = (RouteTable.r_NodeID e, ScoreNode peers pool regions (RouteTable.r_NodeID e) lb) ∧ ok now self reqs lb (RouteTable.r_NodeID e) = true.
Proof.
  unfold candidates. rewrite list_elem_of_fmap. split.
  - intros (e & -> & [He Hin]%list_elem_of_filter). by exists e.
  - intros (e & Hin & -> & He). exists e. split; [done|]. by apply list_elem_of_filter.
Qed.

(** The node chosen is another node of the table against which nothing speaks, the target when one is
    asked for; only when there is none is a target taken unseen, and then it is in the table. A choice is
    made whenever there is one to make, and it is counted. *)
Theorem selected_is_eligible now rnd self reqs rt lb :
  let es := RouteTable.GetAll now rt in
  let target_there := TargetNodeID reqs ≠ "" ∧ is_Some (RouteTable.Get now (TargetNodeID reqs) rt) in
  let '(sel, lb') := select now rnd self reqs rt lb in
  match sel with
  | Some id =>
      ((∃ e, e ∈ es ∧ RouteTable.r_NodeID e = id ∧ ok now self reqs lb id = true) ∨
       ((∀ e, e ∈ es → ok now self reqs lb (RouteTable.r_NodeID e) = false) ∧ id = TargetNodeID reqs ∧ target_there)) ∧
      lb' = recordRoute id lb
  | None => (∀ e, e ∈ es → ok now self reqs lb (RouteTable.r_NodeID e) = false) ∧ ¬ target_there ∧ lb' = lb
  end.
Proof.
  intros es there. unfold SelectNode. fold es.
  pose proof (sort_slice_perm (λ a b : candidate, fltb b.2 a.2) (candidates peers pool regions now self reqs es lb)) as Hp.
  destruct (sort_slice _ _) as [|c l] eqn:El.
  - cbn [take]. assert (∀ e, e ∈ es → ok now self reqs lb (RouteTable.r_NodeID e) = false) as Hno.
    { intros e He. apply not_true_iff_false. intros Hok.
      assert ((RouteTable.r_NodeID e, ScoreNode peers pool regions (RouteTable.r_NodeID e) lb) ∈ candidates peers pool regions now self reqs es lb)
        as Hin by (apply candidate_spec; by exists e). rewrite <- Hp in Hin. by apply elem_of_nil in Hin. }
    destruct (bool_decide_reflect (TargetNodeID reqs = "")) as [Ht|Ht]; cbn [negb andb].
    { split_and!; [done|by intros [? _]|done]. }
    destruct (bool_decide_reflect (is_Some (RouteTable.Get now (TargetNodeID reqs) rt))) as [Hs|Hs].
    + split; [|done]. right. split_and!; done.
    + split_and!; [done|by intros [_ ?]|done].
  - cbn [take]. split; [|done]. left.
    match goal with |- context [pick_weighted ?r ?cum ?l ?f] => pose proof (pick_elem r cum l f) as Hin; set (p := pick_weighted r cum l f) in * end.
    assert (p ∈ c :: l) as Hcl.
    { apply elem_of_cons in Hin as [-> |Hin]; [by left|]. apply elem_of_cons in Hin as [-> |Hin]; [by left|]. right. by apply (subseteq_take 4 l). }
    rewrite Hp, candidate_spec in Hcl. destruct Hcl as (e & He & -> & Hok). by exists e.
Qed.

(** With a target, the balancer chooses the target or nothing: it never sends a request elsewhere. *)
Theorem target_is_never_replaced now rnd self reqs rt lb id :
  TargetNodeID reqs ≠ "" → (select now rnd self reqs rt lb).1 = Some id → id = TargetNodeID reqs.
Proof.
  intros Ht. pose proof (selected_is_eligible now rnd self reqs rt lb) as H. cbv zeta in H.
  destruct (select now rnd self reqs rt lb) as [sel lb']. cbn [fst]. intros ->.
  destruct H as [[(e & _ & _ & Hok)|(_ & -> & _)] _]; [|done]. unfold eligible in Hok.
  rewrite !andb_true_iff, orb_true_iff, !bool_decide_eq_true in Hok. by destruct Hok as [[[_ [?|?]] _] _].
Qed.
End selection.

(** *** Measurements over time *)

Inductive lb_op :=
  | LProbe (now : Time) (id : string) (latency : Z) (success : bool)
  | LRequest (now : Time) (id : string) (latency : Z) (success : bool)
  | LUpdate (now : Time) (id : string) (cpu mem : float64) (conns bw : Z)
  | LEvict (live : gset string) | LRoute (id : string) | LConfig (is_put : bool) (body : option LBConfig).

Definition lb_step (lb : LoadBalancer) (o : lb_op) : LoadBalancer :=
  match o with
  | LProbe now id l s => recordProbe now id l s lb
  | LRequest now id l s => RecordRequest now id l s lb
  | LUpdate now id cpu mem conns bw => UpdateNodeMetrics now id cpu mem conns bw lb
  | LEvict live => evictStaleMetrics live lb
  | LRoute id => recordRoute id lb
  | LConfig p b => default lb (handleLBConfigUpdate p b (Some lb)).2
  end.
Definition lb_run (self : string) (h : list lb_op) : LoadBalancer := foldl lb_step (NewLoadBalancer DefaultLBConfig self) h.

Definition config_ok (c : LBConfig) : Prop :=
  5 * second ≤ HealthCheckInterval c ∧ 5 ≤ MetricsWindow c ≤ 100 ∧ 500 * 1000000 ≤ MaxLatency c.
(** [n] bounds the number of measurements. *)
Definition metrics_ok (n : nat) (m : NodeMetrics) : Prop :=
  0 ≤ SuccessCount m ≤ RequestCount m ∧ RequestCount m ≤ Z.of_nat n ∧ (length (LatencyHistory m) ≤ 100)%nat.
Definition history_ok (h : gmap string Z) : Prop := (∀ id v, h !! id = Some v → 1 ≤ v) ∧ zsum (map_to_list h).*2 ≤ 1000.
Definition lb_ok (n : nat) (lb : LoadBalancer) : Prop :=
  config_ok (config lb) ∧ (∀ id m, nodeMetrics lb !! id = Some m → metrics_ok n m) ∧ history_ok (routeHistory lb).

Lemma push_length w x l : 5 ≤ w ≤ 100 → (length l ≤ 100)%nat → (length (push_latency w x l) ≤ 100)%nat.
Proof.
  intros Hw Hl. unfold push_latency. destruct (Z.ltb_spec w (Z.of_nat (length (l ++ [x])))); [rewrite length_drop|]; rewrite length_app in *; cbn in *; lia.
Qed.

Lemma metrics_more n m : metrics_ok n m → metrics_ok (S n) m.
Proof. intros (? & ? & ?). split_and!; lia. Qed.
Lemma metrics_of_ok n id lb : lb_ok n lb → metrics_ok n (metrics_of id lb).
Proof. intros (_ & Hm & _). unfold metrics_of. destruct (nodeMetrics lb !! id) eqn:E; cbn; [by apply (Hm id)|split_and!; cbn; lia]. Qed.

Lemma probed_ok n w now l s m :
  Z.of_nat (S n) < 2 ^ 63 → 5 ≤ w ≤ 100 → metrics_ok n m →
  metrics_ok (S n) (probed w now l s m) ∧ metrics_ok (S n) (requested w now l s m).
Proof.
  intros Hn Hw (H1 & H2 & H3). unfold metrics_ok, probed, requested. cbn [SuccessCount RequestCount LatencyHistory].
  rewrite !(wrap64_id (RequestCount m + 1)) by (unfold is_int64; lia). rewrite !(wrap64_id (SuccessCount m + 1)) by (unfold is_int64; lia).
  split; split_and!; try (destruct s; lia); [destruct s|destruct (0 <? l)]; auto using push_length.
Qed.

Lemma zsum_elem_le l : Forall (λ x, 0 ≤ x) l → ∀ x, x ∈ l → x ≤ zsum l.
Proof.
  induction 1 as [|y l Hy Hl IH]; intros x; [by intros ?%elem_of_nil|]. rewrite zsum_cons. pose proof (zsum_nonneg l Hl).
  intros [->|Hx]%elem_of_cons; [lia|]. specialize (IH x Hx). lia.
Qed.

Lemma halved_sum h :
  (∀ id v, h !! id = Some v → 1 ≤ v) →
  let h' := omap (λ v, let v := Z.quot v 2 in if v =? 0 then None else Some v) h in
  (∀ id v, h' !! id = Some v → 1 ≤ v) ∧ 2 * zsum (map_to_list h').*2 ≤ zsum (map_to_list (h : gmap string Z)).*2.
Proof.
  induction h as [|id v h Hid IH] using map_ind; intros Hh; [split; [by intros ? ? ?|done]|].
  assert (1 ≤ v) as Hv by (apply (Hh id); by rewrite lookup_insert_eq).
  destruct IH as [IH1 IH2].
  { intros j w Hj. apply (Hh j). rewrite lookup_insert_ne; [done|]. intros ->. congruence. }
  cbv zeta. rewrite omap_insert. rewrite (map_to_list_insert h) by done. cbn [fmap list_fmap snd]. rewrite zsum_cons.
  set (g := omap _ h) in *. assert (g !! id = None) as Hg by (unfold g; by rewrite lookup_omap, Hid).
  pose proof (Z.quot_div_nonneg v 2 ltac:(lia) ltac:(lia)) as Hq. rewrite Hq.
  pose proof (Z.div_pos v 2 ltac:(lia) ltac:(lia)). pose proof (Z.mul_div_le v 2 ltac:(lia)).
  set (q := v / 2) in *. clearbody q.
  destruct (Z.eqb_spec q 0) as [E|E].
  - rewrite delete_id by done. split; [done|]. lia.
  - split.
    + intros j w. destruct (decide (id = j)) as [<-|Hj]; [rewrite lookup_insert_eq; intros [= <-]; lia|rewrite lookup_insert_ne by done; apply IH1].
    + rewrite map_to_list_insert by done. cbn [fmap list_fmap snd]. rewrite zsum_cons. lia.
Qed.

Lemma values_nonneg (h : gmap string Z) : (∀ id v, h !! id = Some v → 1 ≤ v) → Forall (λ x, 0 ≤ x) (map_to_list h).*2.
Proof.
  intros Hh. apply Forall_fmap, Forall_forall. intros [j w] Hin%elem_of_map_to_list. cbn. specialize (Hh j w Hin). lia.
Qed.

Lemma incremented id (h : gmap string Z) :
  history_ok h → (∀ j v, zincr id 1 h !! j = Some v → 1 ≤ v) ∧ zsum (map_to_list (zincr id 1 h)).*2 = zsum (map_to_list h).*2 + 1.
Proof.
  intros [H1 H2]. pose proof (values_nonneg h H1) as Hnn.
  assert (zget h id + 1 ≤ 1001 ∧ 0 ≤ zget h id) as [Hb Hb0].
  { unfold zget. destruct (h !! id) as [v|] eqn:E; cbn; [|lia]. specialize (H1 id v E) as Hv.
    assert (v ∈ (map_to_list h).*2) as Hin by (apply list_elem_of_fmap; exists (id, v); by rewrite elem_of_map_to_list).
    pose proof (zsum_elem_le _ Hnn v Hin). lia. }
  unfold zincr. rewrite wrap64_id by (unfold is_int64; lia). split.
  - intros j v. destruct (decide (id = j)) as [<-|Hj]; [rewrite lookup_insert_eq; intros [= <-]; lia|rewrite lookup_insert_ne by done; apply H1].
  - assert (map_to_list (<[id := zget h id + 1]> h) ≡ₚ (id, zget h id + 1) :: map_to_list (delete id h)) as ->.
    { rewrite <- insert_delete_eq. apply map_to_list_insert, lookup_delete_eq. }
    cbn [fmap list_fmap snd]. rewrite zsum_cons. unfold zget. destruct (h !! id) as [v|] eqn:E; cbn [default].
    + rewrite <- (map_to_list_delete h id v) by done. cbn [fmap list_fmap snd]. rewrite zsum_cons. cbn. lia.
    + rewrite delete_id by done. cbn. lia.
Qed.

Lemma recorded_route_ok id h0 :
  history_ok h0 →
  let h := zincr id 1 h0 in
  history_ok (if 1000 <? wsum (map_to_list h).*2 then omap (λ v, let v := Z.quot v 2 in if v =? 0 then None else Some v) h else h).
Proof.
  intros Hh h. destruct (incremented id h0 Hh) as [I1 I2]. fold h in I1, I2. destruct Hh as [H1 H2].
  pose proof (zsum_nonneg _ (values_nonneg h0 H1)). rewrite wsum_zsum, wrap64_id by (unfold is_int64; lia).
  destruct (Z.ltb_spec 1000 (zsum (map_to_list h).*2)); [|by split].
  destruct (halved_sum h I1) as [G1 G2]. split; [done|]. lia.
Qed.

Lemma filtered_sum_le (P : string * Z → Prop) `{∀ x, Decision (P x)} (h : gmap string Z) :
  (∀ id v, h !! id = Some v → 1 ≤ v) → zsum (map_to_list (filter P h)).*2 ≤ zsum (map_to_list h).*2.
Proof.
  induction h as [|id v h Hid IH] using map_ind; intros Hh; [done|].
  assert (1 ≤ v) as Hv by (apply (Hh id); by rewrite lookup_insert_eq).
  specialize (IH ltac:(intros j w Hj; apply (Hh j); rewrite lookup_insert_ne; [done|intros ->; congruence])).
  rewrite (map_to_list_insert h) by done. rewrite map_filter_insert. cbn [fmap list_fmap snd]. rewrite zsum_cons.
  destruct (decide (P (id, v))).
  - rewrite map_to_list_insert by (apply map_lookup_filter_None; by left). cbn [fmap list_fmap snd]. rewrite zsum_cons. lia.
  - rewrite delete_id by done. lia.
Qed.

Lemma checked_ok c c' : checked_config c = Some c' → config_ok c'.
Proof.
  unfold checked_config. destruct (legacy _ _) as [load trust], (legacy (ErrorRateWeight c) _) as [err avail], (legacy (FairnessWeight c) _) as [fair contrib].
  destruct (_ || _)%bool; [done|]. intros [= <-]. unfold config_ok. cbn [HealthCheckInterval MetricsWindow MaxLatency].
  split_and!; repeat case_match; unfold second in *; lia.
Qed.

(** As long as the counters do not overflow: no node succeeds more often than it is asked, the windows
    hold at most a hundred latencies, the configuration stays in its bounds, every count of routes is
    positive and together they are at most a thousand. *)
Theorem balancer_invariant self h :
  Z.of_nat (length h) < 2 ^ 63 → lb_ok (length h) (lb_run self h).
Proof.
  induction h as [|o h IH] using rev_ind; intros Hn.
  { split_and!; [by vm_compute|by intros ? ? ?|split; [by intros ? ? ?|done]]. }
  rewrite length_app in Hn |- *. cbn in Hn |- *. rewrite Nat.add_1_r in Hn |- *. unfold lb_run. rewrite foldl_app. cbn [foldl].
  fold (lb_run self h). specialize (IH ltac:(lia)). set (lb := lb_run self h) in *. destruct IH as (Hc & Hm & Hh).
  assert (∀ id m, nodeMetrics lb !! id = Some m → metrics_ok (S (length h)) m) as Hm' by (intros id m E; by apply metrics_more, (Hm id)).
  assert (∀ id m, metrics_ok (S (length h)) m → lb_ok (S (length h)) (set_metrics (<[id := m]> (nodeMetrics lb)) lb)) as Hset.
  { intros id m E. split_and!; [done| |done]. cbn. intros j m'.
    destruct (decide (id = j)) as [<-|Hj]; [rewrite lookup_insert_eq; by intros [= <-]|rewrite lookup_insert_ne by done; apply Hm']. }
  assert (5 ≤ MetricsWindow (config lb) ≤ 100) as Hw by (by destruct Hc as (_ & ? & _)).
  destruct o as [now id l s|now id l s|now id cpu mem conns bw|live|id|p b]; cbn [lb_step].
  - apply Hset, probed_ok; [lia|done|]. by apply metrics_of_ok.
  - apply Hset, probed_ok; [lia|done|]. by apply metrics_of_ok.
  - apply Hset. destruct (metrics_of_ok (length h) id lb) as (H1 & H2 & H3); [done|]. split_and!; cbn; lia.
  - split_and!; [done| |].
    + intros id m [E _]%map_lookup_filter_Some. by apply (Hm' id).
    + destruct Hh as [H1 H2]. split; [intros id v [E _]%map_lookup_filter_Some; by apply (H1 id)|].
      cbn [evictStaleMetrics routeHistory]. etrans; [|exact H2].
      by apply filtered_sum_le.
  - unfold recordRoute. destruct (1000 <? _) eqn:E; split_and!; try done; cbn [set_history routeHistory];
      pose proof (recorded_route_ok id _ Hh) as Hr; cbv zeta in Hr; by rewrite E in Hr.
  - cbn [handleLBConfigUpdate]. destruct p; cbn; [|by split_and!]. destruct b as [c|]; cbn; [|by split_and!].
    destruct (checked_config c) as [c'|] eqn:E; cbn; [|by split_and!]. split_and!; [by apply (checked_ok c)|done..].
Qed.

(** After a round of probes the balancer knows of this node and of the nodes of the table only. *)
Theorem round_forgets_the_departed self es ends lb id :
  (∀ t p, p ∈ ends t → ∃ a, (p.1.1.1, a) ∈ t) →
  let lb' := probeAllNodes true self es ends lb in
  (is_Some (nodeMetrics lb' !! id) ∨ is_Some (routeHistory lb' !! id)) → id = self ∨ id ∈ RouteTable.r_NodeID <$> es.
Proof.
  intros He lb'. subst lb'. unfold probeAllNodes. cbn [negb].
  set (live := {[self]} ∪ list_to_set (RouteTable.r_NodeID <$> es)).
  assert (∀ j, j ∈ live → j = self ∨ j ∈ RouteTable.r_NodeID <$> es) as Hlive.
  { intros j [->%elem_of_singleton|Hj%elem_of_list_to_set]%elem_of_union; auto. }
  set (l := ends (probe_targets self es)). assert (∀ p, p ∈ l → p.1.1.1 ∈ live) as Hl.
  { intros p [a Ha]%He. apply list_elem_of_filter in Ha as [_ Ha]. apply list_elem_of_fmap in Ha as (e & [= -> _] & Hin).
    apply list_elem_of_filter in Hin as [_ Hin]. apply elem_of_union_r, elem_of_list_to_set. by apply list_elem_of_fmap_2. }
  assert (∀ l lb, (∀ p, p ∈ l → p.1.1.1 ∈ live) → (∀ j, is_Some (nodeMetrics lb !! j) ∨ is_Some (routeHistory lb !! j) → j ∈ live) →
    ∀ j, (let lb' := foldl (λ lb (p : string * Time * Z * bool), recordProbe p.1.1.2 p.1.1.1 p.1.2 p.2 lb) lb l in
          is_Some (nodeMetrics lb' !! j) ∨ is_Some (routeHistory lb' !! j)) → j ∈ live) as Hgen.
  { clear. induction l as [|p l IH]; intros lb Hl Hlb j; [apply Hlb|]. cbn [foldl]. apply IH; [intros q Hq; apply Hl; by right|].
    intros i [Hi|Hi]; [|apply Hlb; by right]. cbn in Hi. destruct (decide (p.1.1.1 = i)) as [<-|Hne]; [apply Hl; by left|].
    rewrite lookup_insert_ne in Hi by done. apply Hlb. by left. }
  intros Hid. apply Hlive, (Hgen l (evictStaleMetrics live lb) Hl); [|exact Hid].
  intros j [[m [_ Hj]%map_lookup_filter_Some]|[v [_ Hj]%map_lookup_filter_Some]]; exact Hj.
Qed.

(** ** Concrete measurements *)

Section demo.
Let lb0 : LoadBalancer := NewLoadBalancer DefaultLBConfig "self".
Let outcomes (l : list bool) : option bool :=
  Healthy <$> nodeMetrics (foldl (λ lb s, RecordRequest 0 "n" 1000 s lb) lb0 l) !! "n".

(** One failure makes a node unhealthy when it is the first request, or the third failure ever, whatever
    came between; two in a row do not when they are the first two. *)
Example failures_are_not_consecutive :
  outcomes [false] = Some false ∧ outcomes [true; false; false] = Some true ∧
  outcomes [true; false; true; true; false; true; true; true; false] = Some false.
Proof. vm_compute. done. Qed.

(** Reputation is the trust score again. *)
Example reputation_is_trust peers id : getReputationScore peers id = getTrustScore peers id.
Proof. reflexivity. Qed.

(** Weights of any size pass as long as their sum is near one. *)
Example negative_weights_pass :
  let c := {| TrustWeight := float_of_int (-5); ReputationWeight := float_of_int 6; LatencyWeight := f_zero; AvailabilityWeight := f_zero;
              ContributionWeight := f_zero; LoadWeight := f_zero; ErrorRateWeight := f_zero; FairnessWeight := f_zero;
              HealthCheckInterval := 0; MetricsWindow := 0; MaxLatency := 0 |} in
  (handleLBConfigUpdate true (Some c) (Some lb0)).1 = 200.
Proof. vm_compute. done. Qed.

Lemma balancer_invariant_witness :
  lb_ok 3 (lb_run "self" [LProbe 0 "n" 1000 true; LRequest 5 "n" 2000 false; LRoute "n"]).
Proof.
  apply (balancer_invariant "self" [LProbe 0 "n" 1000 true; LRequest 5 "n" 2000 false; LRoute "n"]). vm_compute. reflexivity.
Defined.
End demo.
