(* ===== verification/Message.v ===== *)
(** * Messages between nodes (message.go)

    [MessageManager] keeps an inbox and an outbox, each of at most five hundred messages; messages are
    signed by their sender and checked against the key the trust pool has of it. The delivery over HTTP,
    Ed25519 and the PKIX form of keys are parameters; messages.json is a value. *)

From S2P Require Import Prelude GoTime Bytes Sha256 Providers Identity.
From S2P Require TrustPool ContribQuota.

Definition maxInboxSize : nat := 500.
Definition maxOutboxSize : nat := 500.

Record FederationMessage := {
  ID : string; FromNode : string; ToNode : string; Subject : string; Body : string; MsgType : string; Timestamp : string;
  Signature : string; Encrypted : bool; Read : bool }.

(** The file: [None] when it is missing or unreadable; its two lists may be missing. *)
Record messagesData := { d_Inbox : option (list FederationMessage); d_Outbox : option (list FederationMessage) }.
Record MessageManager := { inbox : list FederationMessage; outbox : list FederationMessage; messages_file : option messagesData }.

Definition validMsgType (t : string) : bool := bool_decide (t ∈ ["request"; "collaboration"; "system"; "general"]).

Definition with_signature (s : string) (m : FederationMessage) : FederationMessage := {|
  ID := ID m; FromNode := FromNode m; ToNode := ToNode m; Subject := Subject m; Body := Body m; MsgType := MsgType m;
  Timestamp := Timestamp m; Signature := s; Encrypted := Encrypted m; Read := Read m |}.
Definition with_read (b : bool) (m : FederationMessage) : FederationMessage := {|
  ID := ID m; FromNode := FromNode m; ToNode := ToNode m; Subject := Subject m; Body := Body m; MsgType := MsgType m;
  Timestamp := Timestamp m; Signature := Signature m; Encrypted := Encrypted m; Read := b |}.
Definition with_nodes (from to : string) (m : FederationMessage) : FederationMessage := {|
  ID := ID m; FromNode := from; ToNode := to; Subject := Subject m; Body := Body m; MsgType := MsgType m;
  Timestamp := Timestamp m; Signature := Signature m; Encrypted := Encrypted m; Read := Read m |}.

Definition sign_payload (m : FederationMessage) : string :=
  ID m +:+ "|" +:+ FromNode m +:+ "|" +:+ ToNode m +:+ "|" +:+ Subject m +:+ "|" +:+ Body m +:+ "|" +:+ Timestamp m.

(** ** Keeping *)

(** The oldest go first, by the time the messages say. *)
Definition older (a b : FederationMessage) : bool := str_ltb (Timestamp a) (Timestamp b).
Definition trim (size : nat) (l : list FederationMessage) : list FederationMessage :=
  if (size <? length l)%nat then let l := sort_slice older l in drop (length l - size) l else l.
Definition trimInbox (m : MessageManager) : MessageManager :=
  {| inbox := trim maxInboxSize (inbox m); outbox := outbox m; messages_file := messages_file m |}.
Definition trimOutbox (m : MessageManager) : MessageManager :=
  {| inbox := inbox m; outbox := trim maxOutboxSize (outbox m); messages_file := messages_file m |}.

(** [writes] says whether the file can be written. *)
Definition save (writes : bool) (m : MessageManager) : MessageManager :=
  if writes then {| inbox := inbox m; outbox := outbox m;
                    messages_file := Some {| d_Inbox := Some (inbox m); d_Outbox := Some (outbox m) |} |}
  else m.
Definition load (m : MessageManager) : MessageManager :=
  match messages_file m with
  | None => m
  | Some d => {| inbox := default (inbox m) (d_Inbox d); outbox := default (outbox m) (d_Outbox d); messages_file := messages_file m |}
  end.
Definition initMessages (file : option messagesData) : MessageManager := load {| inbox := []; outbox := []; messages_file := file |}.

Definition to_inbox (writes : bool) (x : FederationMessage) (m : MessageManager) : MessageManager :=
  save writes (trimInbox {| inbox := inbox m ++ [x]; outbox := outbox m; messages_file := messages_file m |}).
Definition to_outbox (writes : bool) (x : FederationMessage) (m : MessageManager) : MessageManager :=
  save writes (trimOutbox {| inbox := inbox m; outbox := outbox m ++ [x]; messages_file := messages_file m |}).

Section messages.
Context `{Encryptor} (ed25519_sign : bytes → bytes → bytes) (Verify : bytes → bytes → bytes → bool).
(** [x509.ParsePKIXPublicKey]: [None] for an error, [Some None] for a key of another kind. *)
Context (ParsePKIX : bytes → option (option bytes)).
(** This node, and the federation. *)
Context (node : NodeIdentity) (fed : TrustPool.FederationManager).

(** ** Sending *)

Inductive send_error := InvalidType | EmptySubject | EmptyBody | UnknownRecipient | NoMessageID | DeliveryFailed | Rejected (status : Z).

(** What becomes of a delivery: no request can be made of the address, no answer comes, or the recipient
    answers. *)
Inductive delivery := NoRequest | Lost | Answered (status : Z).

(** [id] is the random id, [None] when there is no randomness; [deliver] the delivery. *)
Definition SendMessage (now : Time) (id : option string) (deliver : FederationMessage → delivery) (writes : bool)
    (toNodeID subject body msgType : string) (m : MessageManager) : option send_error * MessageManager :=
  let msgType := if bool_decide (msgType = "") then "general" else msgType in
  if negb (validMsgType msgType) then (Some InvalidType, m)
  else
    let subject := trimSpace subject in let body := trimSpace body in
    if bool_decide (subject = "") then (Some EmptySubject, m)
    else if bool_decide (body = "") then (Some EmptyBody, m)
    else match TrustPool.GetNode toNodeID fed with
    | None => (Some UnknownRecipient, m)
    | Some _ =>
        match id with
        | None => (Some NoMessageID, m)
        | Some id =>
            let msg := {| ID := id; FromNode := nodeID node; ToNode := toNodeID; Subject := subject; Body := body; MsgType := msgType;
                          Timestamp := fmt_rfc3339 UTC now; Signature := ""; Encrypted := false; Read := false |} in
            let msg := with_signature (Sign ed25519_sign (bytes_of (sign_payload msg)) node) msg in
            if bool_decide (toNodeID = nodeID node) then (None, to_inbox writes msg m)
            else match deliver msg with
            | NoRequest => (Some DeliveryFailed, m)
            | Lost => (Some DeliveryFailed, to_outbox writes msg m)
            | Answered status => (if status =? 200 then None else Some (Rejected status), to_outbox writes msg m)
            end
        end
    end.

(** ** Receiving *)

Definition message_key (pubKeyB64 : string) : option bytes :=
  match b64_decode pubKeyB64 with
  | None => None
  | Some der =>
      match ParsePKIX der with
      | Some k => k
      | None => if bool_decide (length der = 32%nat) then Some der else None
      end
  end.
Definition verifyMessageSignature (pubKeyB64 payload signature : string) : bool :=
  if bool_decide (pubKeyB64 = "") || bool_decide (signature = "") then false
  else match message_key pubKeyB64 with
  | None => false
  | Some key => match b64_decode signature with None => false | Some sig => Verify key (bytes_of payload) sig end
  end.

Inductive receive_error :=
| NoID | NoSender | NoRecipient | NotForUs | NoSignature | UnknownSender | BadSignature.

(** The checks before the inbox is looked at. *)
Definition check_message (msg : FederationMessage) : option receive_error :=
  if bool_decide (ID msg = "") then Some NoID
  else if bool_decide (FromNode msg = "") then Some NoSender
  else if bool_decide (ToNode msg = "") then Some NoRecipient
  else if negb (bool_decide (ToNode msg = nodeID node)) then Some NotForUs
  else if bool_decide (Signature msg = "") then Some NoSignature
  else match TrustPool.GetNode (FromNode msg) fed with
  | None => Some UnknownSender
  | Some sender => if negb (verifyMessageSignature (TrustPool.PubKey sender) (sign_payload msg) (Signature msg)) then Some BadSignature else None
  end.
(** The look under the first lock, and what is done under the second. *)
Definition is_duplicate (msg : FederationMessage) (m : MessageManager) : bool := existsb (λ e, bool_decide (ID e = ID msg)) (inbox m).
Definition accept_message (writes : bool) (msg : FederationMessage) (m : MessageManager) : MessageManager :=
  to_inbox writes (with_read false msg) m.

Definition ReceiveMessage (writes : bool) (msg : FederationMessage) (m : MessageManager) : option receive_error * MessageManager :=
  match check_message msg with
  | Some e => (Some e, m)
  | None => if is_duplicate msg m then (None, m) else (None, accept_message writes msg m)
  end.

(** ** Reading *)

(** The latest first. *)
Definition latest (limit : Z) (l : list FederationMessage) : list FederationMessage :=
  let total := Z.of_nat (length l) in
  take (Z.to_nat (if (limit <=? 0) || (total <? limit) then total else limit)) (reverse l).
Definition GetInbox (limit : Z) (m : MessageManager) : list FederationMessage := latest limit (inbox m).
Definition GetOutbox (limit : Z) (m : MessageManager) : list FederationMessage := latest limit (outbox m).

Fixpoint mark_first (id : string) (l : list FederationMessage) : option (list FederationMessage) :=
  match l with
  | [] => None
  | x :: l => if bool_decide (ID x = id) then Some (with_read true x :: l) else (λ l, x :: l) <$> mark_first id l
  end.
Definition MarkAsRead (writes : bool) (id : string) (m : MessageManager) : bool * MessageManager :=
  match mark_first id (inbox m) with
  | None => (false, m)
  | Some l => (true, save writes {| inbox := l; outbox := outbox m; messages_file := messages_file m |})
  end.

Definition GetUnreadCount (m : MessageManager) : Z := Z.of_nat (length (filter (λ x, Read x = false) (inbox m))).

(** ** Handlers *)

Definition handleSendMessage (now : Time) (id : option string) (deliver : FederationMessage → delivery) (writes is_post : bool)
    (req : option (string * string * string * string)) (m : MessageManager) : Z * MessageManager :=
  if negb is_post then (405, m)
  else match req with
  | None => (400, m)
  | Some (to, subject, body, ty) =>
      if bool_decide (to = "") then (400, m)
      else match SendMessage now id deliver writes to subject body ty m with
      | (Some _, m) => (400, m)
      | (None, m) => (200, m)
      end
  end.

Definition handleReceiveMessage (writes is_post : bool) (header : string) (body : option FederationMessage) (m : MessageManager)
    : Z * MessageManager :=
  if negb is_post then (405, m)
  else match body with
  | None => (400, m)
  | Some msg =>
      let senderNodeID := ContribQuota.sanitizeNodeID header in
      let from := if negb (bool_decide (senderNodeID = "")) && bool_decide (FromNode msg = "") then senderNodeID else FromNode msg in
      match ReceiveMessage writes (with_nodes from (nodeID node) msg) m with
      | (Some _, m) => (400, m)
      | (None, m) => (200, m)
      end
  end.

Definition handleMarkAsRead (writes is_post : bool) (req : option string) (m : MessageManager) : Z * MessageManager :=
  if negb is_post then (405, m)
  else match req with
  | None => (400, m)
  | Some id => if bool_decide (id = "") then (400, m)
               else match MarkAsRead writes id m with (false, m) => (404, m) | (true, m) => (200, m) end
  end.

(** [limit] is the parameter, when it is a number; [None] is the answer 405. *)
Definition page_limit (limit : option Z) : Z := match limit with Some n => if 0 <? n then n else 50 | None => 50 end.
Definition handleGetInbox (is_get : bool) (limit : option Z) (m : MessageManager) : option (list FederationMessage * Z * Z) :=
  if negb is_get then None
  else let messages := GetInbox (page_limit limit) m in Some (messages, Z.of_nat (length messages), GetUnreadCount m).
Definition handleGetOutbox (is_get : bool) (limit : option Z) (m : MessageManager) : option (list FederationMessage * Z) :=
  if negb is_get then None
  else let messages := GetOutbox (page_limit limit) m in Some (messages, Z.of_nat (length messages)).
End messages.

(** ** What messages guarantee *)

Lemma le_older_trans : Transitive (le_of older).
Proof.
  intros a b c. unfold le_of, older. intros H1 H2. apply not_true_iff_false. intros H3.
  destruct (str_ltb (Timestamp a) (Timestamp b)) eqn:E.
  - pose proof (str_ltb_trans _ _ _ H3 E). congruence.
  - pose proof (str_ltb_total _ _ E H1) as Hab. rewrite Hab in H3. congruence.
Qed.
Lemma le_older_total : Total (le_of older).
Proof.
  intros a b. unfold le_of, older. destruct (str_ltb (Timestamp b) (Timestamp a)) eqn:E; [right|by left].
  apply not_true_iff_false. intros E'. pose proof (str_ltb_trans _ _ _ E E') as Hx. rewrite str_ltb_irrefl in Hx. done.
Qed.

Lemma trim_length size l : (length (trim size l) ≤ size)%nat.
Proof.
  unfold trim. destruct (Nat.ltb_spec size (length l)); [|done]. rewrite length_drop.
  assert (length (sort_slice older l) = length l) as -> by (apply Permutation_length, sort_slice_perm). lia.
Qed.
Lemma trim_sub size l x : x ∈ trim size l → x ∈ l.
Proof.
  unfold trim. destruct (_ <? _)%nat; [|done]. intros Hx. rewrite <- (sort_slice_perm older l). by apply (subseteq_drop (length (sort_slice older l) - size) _).
Qed.
Lemma trim_fits size l : (length l ≤ size)%nat → trim size l = l.
Proof. intros Hl. unfold trim. by rewrite (proj2 (Nat.ltb_ge _ _)). Qed.

(** Of one message too many the one that says the earliest time is dropped, whichever came last. *)
Lemma trim_drops_oldest size l :
  length l = S size → ∃ y, y :: trim size l ≡ₚ l ∧ ∀ z, z ∈ trim size l → str_ltb (Timestamp z) (Timestamp y) = false.
Proof.
  intros Hl. unfold trim. rewrite Hl, (proj2 (Nat.ltb_lt _ _)) by lia.
  pose proof (sort_slice_perm older l) as Hp. pose proof (sort_slice_sorted older l le_older_trans le_older_total) as Hs.
  assert (length (sort_slice older l) = S size) as Hlen by (rewrite <- Hl; by apply Permutation_length). rewrite Hlen.
  replace (S size - size)%nat with 1%nat by lia. destruct (sort_slice older l) as [|y l']; [done|]. cbn [drop].
  exists y. split; [done|]. apply StronglySorted_inv in Hs as [_ Hs]. rewrite Forall_forall in Hs. intros z Hz. by apply (Hs z).
Qed.

Section message_safety.
Context `{Encryptor} (ed25519_sign : bytes → bytes → bytes) (Verify : bytes → bytes → bytes → bool)
  (ParsePKIX : bytes → option (option bytes)) (node : NodeIdentity) (fed : TrustPool.FederationManager).

Abbreviation check := (check_message Verify ParsePKIX node fed).
Abbreviation receive := (ReceiveMessage Verify ParsePKIX node fed).
Abbreviation send := (SendMessage ed25519_sign node fed).

(** *** Every interleaving *)

(** The messages that passed the look at the inbox and wait for the second lock. *)
Record message_state := { ms : MessageManager; waiting : list FederationMessage }.

Inductive message_op :=
  | MSend (now : Time) (id : option string) (deliver : FederationMessage → delivery) (writes : bool) (to subject body type : string)
  | MArrive (x : FederationMessage) | MAccept (i : nat) (writes : bool)
  | MRead (writes : bool) (id : string) | MRestart.

Definition message_step (s : message_state) (o : message_op) : message_state :=
  match o with
  | MSend now id deliver w to subject body ty =>
      {| ms := (send now id deliver w to subject body ty (ms s)).2; waiting := waiting s |}
  | MArrive x => match check x with
                 | Some _ => s
                 | None => if is_duplicate x (ms s) then s else {| ms := ms s; waiting := waiting s ++ [x] |}
                 end
  | MAccept i w => match waiting s !! i with
                   | None => s
                   | Some x => {| ms := accept_message w x (ms s); waiting := delete i (waiting s) |}
                   end
  | MRead w id => {| ms := (MarkAsRead w id (ms s)).2; waiting := waiting s |}
  | MRestart => {| ms := initMessages (messages_file (ms s)); waiting := [] |}
  end.
Definition message_run (h : list message_op) : message_state := foldl message_step {| ms := initMessages None; waiting := [] |} h.

(** A message a node of the trust pool signed for this node, or this node wrote to itself. *)
Definition authentic (x : FederationMessage) : Prop :=
  ToNode x = nodeID node ∧
  (check x = None ∨
   FromNode x = nodeID node ∧ Signature x = Sign ed25519_sign (bytes_of (sign_payload x)) node).
(** A message this node wrote and signed. *)
Definition written_here (x : FederationMessage) : Prop :=
  FromNode x = nodeID node ∧ Signature x = Sign ed25519_sign (bytes_of (sign_payload x)) node.

Definition box_ok (P : FederationMessage → Prop) (l : list FederationMessage) : Prop := (length l ≤ 500)%nat ∧ Forall P l.
Definition manager_ok (m : MessageManager) : Prop :=
  box_ok authentic (inbox m) ∧ box_ok written_here (outbox m) ∧
  match messages_file m with
  | None => True
  | Some d => match d_Inbox d with Some l => box_ok authentic l | None => True end ∧
              match d_Outbox d with Some l => box_ok written_here l | None => True end
  end.

Lemma save_box_ok w m : manager_ok m → manager_ok (save w m).
Proof. intros (H1 & H2 & H3). unfold save. destruct w; [|done]. by split_and!. Qed.

Lemma box_trim P l x : box_ok P l → P x → box_ok P (trim 500 (l ++ [x])).
Proof.
  intros [_ Hf] Hx. split; [apply trim_length|]. apply Forall_forall. intros y Hy%trim_sub.
  apply elem_of_app in Hy as [Hy|Hy%list_elem_of_singleton]; [by apply (proj1 (Forall_forall P l) Hf)|by subst].
Qed.
Lemma to_inbox_ok w x m : manager_ok m → authentic x → manager_ok (to_inbox w x m).
Proof. intros (H1 & H2 & H3) Hx. apply save_box_ok. split_and!; [by apply box_trim|done..]. Qed.
Lemma to_outbox_ok w x m : manager_ok m → written_here x → manager_ok (to_outbox w x m).
Proof. intros (H1 & H2 & H3) Hx. apply save_box_ok. split_and!; [done|by apply box_trim|done]. Qed.

Lemma check_read b x : check (with_read b x) = check x.
Proof. done. Qed.

Lemma check_to x : check x = None → ToNode x = nodeID node.
Proof.
  unfold check_message. do 3 (destruct (bool_decide (_ = "")); [done|]).
  by destruct (bool_decide_reflect (ToNode x = nodeID node)).
Qed.

Lemma send_ok now id deliver w to subject body ty m :
  manager_ok m → manager_ok (send now id deliver w to subject body ty m).2.
Proof.
  intros Hm. unfold SendMessage. destruct (negb _); [done|]. destruct (bool_decide (trimSpace subject = "")); [done|].
  destruct (bool_decide (trimSpace body = "")); [done|]. destruct (TrustPool.GetNode to fed); [|done]. destruct id as [id|]; [|done].
  cbv zeta. match goal with |- context [with_signature ?s ?x] => set (msg := with_signature s x) end.
  assert (written_here msg) as Hw by (by split).
  destruct (bool_decide_reflect (to = nodeID node)) as [->|]; [|by destruct (deliver msg); try apply to_outbox_ok].
  apply to_inbox_ok; [done|]. split; [done|]. by right.
Qed.

(** Whatever arrives, is sent, read or restarted, in any interleaving: both boxes hold at most five
    hundred messages; what is in the inbox is addressed to this node and was signed, as it stands, by the
    node it names, or is a note of this node to itself; what is in the outbox this node signed. *)
Theorem boxes_are_authentic h : manager_ok (ms (message_run h)) ∧ Forall (λ x, check x = None) (waiting (message_run h)).
Proof.
  unfold message_run. induction h as [|o h IH] using rev_ind.
  { split; [|by constructor]. repeat split; cbn; first [lia|constructor]. }
  rewrite foldl_app. cbn [foldl]. set (s := foldl message_step _ h) in *. destruct IH as [Hm Hw].
  destruct o as [now id deliver w to subject body ty|x|i w|w id|]; cbn [message_step].
  - split; [by apply send_ok|done].
  - destruct (check x) eqn:E; [done|]. destruct (is_duplicate x (ms s)); [done|]. split; [done|]. cbn. apply Forall_app. by repeat constructor.
  - destruct (waiting s !! i) as [x|] eqn:Ei; [|done]. pose proof (Forall_lookup_1 _ _ _ _ Hw Ei) as Hx. cbn in Hx. split.
    + apply to_inbox_ok; [done|]. split; [|by left]. by apply (check_to x).
    + cbn. rewrite delete_take_drop. apply Forall_app. split; [by apply Forall_take|by apply Forall_drop].
  - split; [|done]. cbn. unfold MarkAsRead. destruct (mark_first id (inbox (ms s))) as [l|] eqn:E; [|done]. cbn. apply save_box_ok.
    destruct Hm as ([H1 H1'] & H2 & H3). split_and!; [|done|done]. cbn [inbox].
    assert (length l = length (inbox (ms s)) ∧ Forall authentic l) as [Hlen Hl]; [|split; [by rewrite Hlen|done]].
    clear -H1' E. revert l E. induction (inbox (ms s)) as [|y b IHb]; intros l E; [done|]. apply Forall_cons in H1' as [Hy Hb].
    cbn in E. destruct (bool_decide (ID y = id)); [injection E as <-; split; [done|by constructor]|].
    destruct (mark_first id b) as [l'|]; [|done]. injection E as <-. destruct (IHb Hb l' eq_refl) as [E1 E2].
    split; [cbn; by rewrite E1|by constructor].
  - split; [|by constructor]. unfold initMessages, load. destruct Hm as (_ & _ & H3). cbn [messages_file].
    destruct (messages_file (ms s)) as [d|] eqn:Ef; unfold manager_ok; cbn [inbox outbox messages_file].
    + destruct H3 as [H3 H4]. split_and!; [| |done]; [destruct (d_Inbox d)|destruct (d_Outbox d)]; cbn; try done; split; first [cbn; lia|constructor].
    + split_and!; try done; split; first [cbn; lia|constructor].
Qed.

(** A message received one at a time: it is kept once, unread, unless one with its id is there; a full
    inbox drops the message that says the earliest time, and that may be the new one. *)
Theorem received_once w x m :
  (length (inbox m) ≤ 500)%nat →
  let '(err, m') := receive w x m in
  (err ≠ None → m' = m) ∧
  (err = None → is_duplicate x m = true → m' = m) ∧
  (err = None → is_duplicate x m = false →
     let full := inbox m ++ [with_read false x] in
     inbox m' = full ∨
     length (inbox m) = 500%nat ∧ ∃ y, y :: inbox m' ≡ₚ full ∧ ∀ z, z ∈ inbox m' → str_ltb (Timestamp z) (Timestamp y) = false).
Proof.
  intros Hl. unfold ReceiveMessage. destruct (check x); [by split_and!|]. destruct (is_duplicate x m) eqn:E; [by split_and!|].
  split_and!; [done|done|]. intros _ _. cbv zeta. unfold accept_message, to_inbox.
  assert (∀ m, inbox (save w m) = inbox m) as -> by (by destruct w). cbn [trimInbox inbox]. unfold maxInboxSize.
  destruct (decide (length (inbox m) = 500%nat)) as [Hf|Hf]; [right|left; apply trim_fits; rewrite length_app; cbn; lia].
  split; [done|]. apply trim_drops_oldest. rewrite length_app, Hf. done.
Qed.

(** A sender that is trusted to write at all can fill the inbox with messages from the future; from then
    on what others write is taken and lost at once. *)
Theorem future_inbox_takes_nothing w x m :
  length (inbox m) = 500%nat → Forall (λ z, str_ltb (Timestamp x) (Timestamp z) = true) (inbox m) →
  check x = None → is_duplicate x m = false →
  (receive w x m).1 = None ∧ inbox (receive w x m).2 ≡ₚ inbox m.
Proof.
  intros Hl Hz Hc Hd. unfold ReceiveMessage. rewrite Hc, Hd. split; [done|]. unfold accept_message, to_inbox.
  cbn [snd]. assert (∀ m, inbox (save w m) = inbox m) as -> by (by destruct w). cbn [trimInbox inbox]. unfold maxInboxSize.
  destruct (trim_drops_oldest 500 (inbox m ++ [with_read false x])) as (y & Hp & Hy); [rewrite length_app, Hl; done|].
  assert (y = with_read false x) as ->.
  { assert (y ∈ inbox m ++ [with_read false x]) as Hin by (rewrite <- Hp; by left).
    apply elem_of_app in Hin as [Hin|Hin%list_elem_of_singleton]; [|done]. exfalso.
    rewrite Forall_forall in Hz. pose proof (Hz y Hin) as Hlt.
    assert (with_read false x ∈ y :: trim 500 (inbox m ++ [with_read false x])) as Hx by (rewrite Hp; apply elem_of_app; right; by left).
    apply elem_of_cons in Hx as [Hx|Hx].
    - rewrite <- Hx in Hlt. cbn in Hlt. by rewrite str_ltb_irrefl in Hlt.
    - specialize (Hy _ Hx). cbn in Hy. congruence. }
  rewrite (Permutation_app_comm (inbox m)) in Hp at 2. cbn in Hp. by apply Permutation_cons_inv in Hp.
Qed.

(** *** What is signed *)

(** The border between the subject and the body is not signed: a mark moved from one to the other gives
    another message with the same signature. Neither is the type of the message. *)
Theorem border_is_not_signed x a b c ty :
  Subject x = a → Body x = b +:+ "|" +:+ c →
  let moved := {| ID := ID x; FromNode := FromNode x; ToNode := ToNode x; Subject := a +:+ "|" +:+ b; Body := c; MsgType := ty;
                  Timestamp := Timestamp x; Signature := Signature x; Encrypted := Encrypted x; Read := Read x |} in
  check moved = check x.
Proof.
  intros Ha Hb moved. unfold check_message. cbn [ID FromNode ToNode Signature moved].
  assert (sign_payload moved = sign_payload x) as ->; [|done].
  unfold sign_payload. cbn [ID FromNode ToNode Subject Body Timestamp moved]. rewrite Ha, Hb. by rewrite !append_assoc.
Qed.
End message_safety.

(** ** From one node to another *)

Section delivery.
Context `{Encryptor} (ed25519_sign : bytes → bytes → bytes) (Verify : bytes → bytes → bytes → bool)
  (ParsePKIX : bytes → option (option bytes)).
Context (NewMnemonic : bytes → option string) (IsMnemonicValid : string → bool) (NewSeed : string → bytes)
  (hmac_sha512 : bytes → bytes → bytes) (NewKeyFromSeed : bytes → bytes).
(** What the identity of a node relies on. *)
Hypothesis seal_law : ∀ s c, seal s = Some c → IsEncrypted c = true ∧ unseal c = Some s.
Hypothesis mnemonic_law : ∀ e m, NewMnemonic e = Some m → IsMnemonicValid m = true ∧ trimSpace m = m.
Hypothesis valid_law : ∀ m, IsMnemonicValid m = true → m ≠ "" ∧ IsEncrypted m = false.
Hypothesis key_law : ∀ s, length (NewKeyFromSeed s) = 64%nat ∧ is_bytes (NewKeyFromSeed s).
Hypothesis sign_law : ∀ s m, let priv := NewKeyFromSeed s in
  Verify (public_of priv) m (ed25519_sign priv m) = true ∧ length (ed25519_sign priv m) = 64%nat ∧
  is_bytes (ed25519_sign priv m).
(** The 32 bytes of a raw key are not a key in PKIX form. *)
Hypothesis raw_law : ∀ k, length k = 32%nat → ParsePKIX k = None.

(** What an initialised node, whatever its history, sends to a node that has its key is taken there, and
    the sender hears of it. *)
Theorem sent_message_is_taken hist now id w w' to subject body ty m receiver fed fed' a mB :
  let n := (identity_run NewMnemonic IsMnemonicValid NewSeed hmac_sha512 NewKeyFromSeed hist).1 in
  IsInitialized n = true → validMsgType ty = true → trimSpace subject ≠ "" → trimSpace body ≠ "" → id ≠ "" →
  is_Some (TrustPool.GetNode to fed) → to ≠ nodeID n → nodeID receiver = to → to ≠ "" →
  TrustPool.GetNode (nodeID n) fed' = Some a → TrustPool.PubKey a = PubKeyB64 n →
  (SendMessage ed25519_sign n fed now (Some id)
     (λ x, Answered (handleReceiveMessage Verify ParsePKIX receiver fed' w' true (nodeID n) (Some x) mB).1) w to subject body ty m).1 = None.
Proof using seal_law mnemonic_law valid_law key_law sign_law raw_law.
  intros n Hi Hty Hsub Hbody Hid [r Hr] Hto Hrec Hto' Ha Hkey.
  assert (ty ≠ "") as Hne by (intros ->; by vm_compute in Hty).
  unfold SendMessage. rewrite (bool_decide_eq_false_2 (ty = "")), Hty by done. cbn [negb].
  rewrite (bool_decide_eq_false_2 (trimSpace subject = "")), (bool_decide_eq_false_2 (trimSpace body = "")), Hr by done.
  cbv zeta. match goal with |- context [with_signature ?s ?x] => set (x0 := x); set (msg := with_signature s x) end.
  rewrite (bool_decide_eq_false_2 (to = nodeID n)) by done.
  destruct (run_signs _ IsMnemonicValid _ _ _ ed25519_sign Verify seal_law mnemonic_law valid_law key_law sign_law
    hist (bytes_of (sign_payload x0)) Hi) as (k & sig & Hk & Hl & _ & Hs & Hsb & Hsl & Hv). fold n in Hk, Hs.
  assert (b64_encode sig ≠ "") as Hne' by (destruct sig as [|? [|? [|? ?]]]; cbn in Hsl |- *; discriminate).
  assert (nodeID n ≠ "") as Hself.
  { revert Hi. unfold IsInitialized. by destruct (bool_decide_reflect (nodeID n = "")). }
  assert (PubKeyB64 n ≠ "") as Hpk by (intros E; rewrite E in Hk; injection Hk as <-; done).
  assert (check_message Verify ParsePKIX receiver fed' msg = None) as Hc.
  { unfold check_message. change (ID msg) with id. change (FromNode msg) with (nodeID n). change (ToNode msg) with to.
    change (Signature msg) with (Sign ed25519_sign (bytes_of (sign_payload x0)) n).
    rewrite (bool_decide_eq_false_2 (id = "")), (bool_decide_eq_false_2 (nodeID n = "")), (bool_decide_eq_false_2 (to = "")) by done.
    rewrite (bool_decide_eq_true_2 (to = nodeID receiver)) by done. cbn [negb].
    rewrite Hs, (bool_decide_eq_false_2 (b64_encode sig = "")), Ha by done.
    unfold verifyMessageSignature, message_key. rewrite Hkey, (bool_decide_eq_false_2 (PubKeyB64 n = "")), (bool_decide_eq_false_2 (b64_encode sig = "")) by done.
    cbn [orb]. rewrite Hk, raw_law, bool_decide_eq_true_2, b64_decode_encode by done. change (sign_payload msg) with (sign_payload x0). by rewrite Hv. }
  assert ((handleReceiveMessage Verify ParsePKIX receiver fed' w' true (nodeID n) (Some msg) mB).1 = 200) as Hh; [|cbv beta; unfold msg, x0 in Hh |- *; by rewrite Hh].
  unfold handleReceiveMessage. cbn [negb]. change (FromNode msg) with (nodeID n).
  rewrite (bool_decide_eq_false_2 (nodeID n = "")), andb_false_r by done.
  assert (with_nodes (nodeID n) (nodeID receiver) msg = msg) as -> by (by rewrite Hrec).
  unfold ReceiveMessage. rewrite Hc. by destruct (is_duplicate msg mB).
Qed.
End delivery.

(** ** Concrete messages *)

Section demo.
Let note (id ts : string) : FederationMessage := {|
  ID := id; FromNode := "mmx-a"; ToNode := "mmx-b"; Subject := "s"; Body := "b"; MsgType := "general"; Timestamp := ts;
  Signature := b64_encode (replicate 64 1); Encrypted := false; Read := false |}.
Let peer : TrustPool.NodeInfo := {|
  TrustPool.NodeID := "mmx-a"; TrustPool.GitHubUser := ""; TrustPool.GitHubID := 0; TrustPool.Endpoint := "";
  TrustPool.PubKey := b64_encode (replicate 32 1); TrustPool.SharedModels := []; TrustPool.SharedProviders := [];
  TrustPool.JoinedAt := ""; TrustPool.LastSeen := ""; TrustPool.Status := "active"; TrustPool.SeedNode := false;
  TrustPool.Reputation := 0; TrustPool.ni_Version := ""; TrustPool.InviteBy := ""; TrustPool.TokenBudget := 0;
  TrustPool.TokenUsed := 0; TrustPool.Addresses := [] |}.
Let fed : TrustPool.FederationManager := {|
  TrustPool.enabled := true; TrustPool.localPeers := {["mmx-a" := peer]}; TrustPool.dht := None;
  TrustPool.trustPool := {| TrustPool.Version := 1; TrustPool.UpdatedAt := ""; TrustPool.Registry := ""; TrustPool.Nodes := [];
                            TrustPool.Tombstones := [] |} |}.
Let me : NodeIdentity := {|
  nodeID := "mmx-b"; privKey := None; encPrivKey := "k"; pubKey := None; mnemonic := ""; hasMnemonic := false; githubUser := "";
  githubID := 0; joinedAt := 0; tokenBudget := 0; backupConfirmed := false; needsMigration := false |}.
Let pkix (k : bytes) : option (option bytes) := None.
Let run := @message_run IdentityDemo.no_encryptor IdentityDemo.sign IdentityDemo.verify pkix me fed.

(** The same message arriving twice at a time is kept twice, as the look and the keeping are two locks. *)
Example arriving_together :
  length (inbox (ms (run [MArrive (note "1" "t"); MArrive (note "1" "t"); MAccept 0 true; MAccept 0 true]))) = 2%nat ∧
  length (inbox (ms (run [MArrive (note "1" "t"); MAccept 0 true; MArrive (note "1" "t")]))) = 1%nat.
Proof. vm_compute. done. Qed.

Let empty : MessageManager := initMessages None.
Lemma received_once_witness :
  let '(err, m') := ReceiveMessage IdentityDemo.verify pkix me fed true (note "1" "t") empty in
  err = None ∧ is_duplicate (note "1" "t") empty = false ∧
  (inbox m' = [with_read false (note "1" "t")] ∨ length (inbox empty) = 500%nat).
Proof.
  pose proof (received_once IdentityDemo.verify pkix me fed true (note "1" "t") empty (Nat.le_0_l _)) as H.
  destruct (ReceiveMessage _ _ _ _ _ _ _) as [err m'] eqn:E. assert (err = None) as He by (vm_compute in E; by injection E).
  split; [exact He|]. split; [reflexivity|]. destruct H as (_ & _ & H). destruct (H He eq_refl) as [Hi|[Hl _]]; [by left|by right].
Defined.
End demo.
