(* ===== verification/Usage.v ===== *)
(** * Usage of the providers (tracker.go, admin_usage.go, pricing_impl.go)

    [Tracker] keeps the last calls with their tokens and costs, averages of the latencies, a log of
    requests and the alerts of token budgets; handlers show administrators everything and consumers their
    own calls. The file and the archives are values; the fused multiplications some processors have
    are not modelled. *)

From S2P Require Import Prelude GoTime Routing.
From S2P Require GuestKeys.

Definition trackerFlushInterval : Z := 3 * second.
Definition trackerFlushThreshold : Z := 50.
Definition trackerMaxRecords : nat := 5000.
Definition reqLogMax : nat := 1000.
Definition alertThresholds : list float64 := [lit 8 1; lit 9 1; lit 1 0].

(** ** Rounding and costs *)

Definition round1 (f : float64) : float64 :=
  if fltb f f_zero then f_zero
  else fdiv (float_of_int (int_of_float (fadd (fmul f (lit 10 0)) (lit 5 1)))) (lit 10 0).
Definition round4 (f : float64) : float64 :=
  if fltb f f_zero then f_zero
  else fdiv (float_of_int (int_of_float (fadd (fmul f (lit 10000 0)) (lit 5 1)))) (lit 10000 0).

(** [math.Round]: to the nearest integer, halves away from zero. *)
Definition math_round (f : float64) : float64 :=
  match f with
  | SpecFloat.S754_finite neg m e =>
      if 0 <=? e then f
      else let n := (2 * Z.pos m + 2 ^ (- e)) / 2 ^ (1 - e) in
           if n =? 0 then SpecFloat.S754_zero neg else if neg then SpecFloat.SFopp (float_of_int n) else float_of_int n
  | _ => f
  end.
Definition roundTo6 (x : float64) : float64 := fdiv (math_round (fmul x (lit 1000000 0))) (lit 1000000 0).
Definition estimateCost (model : string) (promptTokens completionTokens : Z) (provider : string) : float64 :=
  let p := getPricing model provider in
  if SpecFloat.SFeqb (Input p) f_zero && SpecFloat.SFeqb (Output p) f_zero then f_zero
  else roundTo6 (fadd (fmul (fdiv (float_of_int promptTokens) (lit 1000000 0)) (Input p))
                      (fmul (fdiv (float_of_int completionTokens) (lit 1000000 0)) (Output p))).

(** ** Records *)

Record UsageRecord := {
  Timestamp : string; ProviderID : string; ProviderName : string; Model : string; PromptTokens : Z; CompletionTokens : Z;
  TotalTokens : Z; CostUSD : float64; LatencyMS : float64; Success : bool; Error : string; AccessType : string; Owner : string }.

Record RequestLogEntry := {
  l_Timestamp : string; l_Method : string; l_Model : string; l_ProviderID : string; l_ProviderName : string; l_Success : bool;
  l_LatencyMS : float64; l_Tokens : Z; l_CostUSD : float64; l_Error : string; l_Stream : bool; l_RetryCount : Z }.

Record Tracker := {
  records : list UsageRecord; dirtyCount : Z; lastFlush : Time; ewmaCache : gmap string float64; reqLog : list RequestLogEntry;
  alertedTokens : gmap string (list float64); tokenUsageByProvider : gmap string Z }.

(** JSON has no infinities and no NaN: a record with one makes the encoding fail. *)
Definition is_finite (f : float64) : bool :=
  match f with SpecFloat.S754_infinity _ | SpecFloat.S754_nan => false | _ => true end.
Definition encodable (r : UsageRecord) : bool := is_finite (CostUSD r) && is_finite (LatencyMS r).

(** ** Starting *)

Definition rebuildTokenUsage (l : list UsageRecord) : gmap string Z :=
  foldl (λ m r, zincr (ProviderID r) (TotalTokens r) m) ∅ l.

Definition ewma_step (v ewma : float64) : float64 := fadd (fmul (lit 3 1) v) (fmul (lit 7 1) ewma).
Definition latencies (l : list UsageRecord) : gmap string (list float64) :=
  foldl (λ m r, if Success r && fltb f_zero (LatencyMS r)
                then <[ProviderID r := default [] (m !! ProviderID r) ++ [LatencyMS r]]> m else m) ∅ l.
Definition ewma_of (lats : list float64) : option float64 :=
  match last_n 20 lats with
  | [] => None
  | x :: l => Some (round1 (foldl (λ e v, ewma_step v e) x l))
  end.
Definition rebuildEWMA (l : list UsageRecord) : gmap string float64 := omap ewma_of (latencies l).

(** [file]: [None] when it is missing or cannot be read. *)
Definition initTracker (now : Time) (file : option (list UsageRecord)) : Tracker :=
  let l := default [] file in
  {| records := l; dirtyCount := 0; lastFlush := now; ewmaCache := rebuildEWMA l; reqLog := []; alertedTokens := ∅;
     tokenUsageByProvider := rebuildTokenUsage l |}.

(** ** Writing the file *)

Definition snapshotLocked (now : Time) (t : Tracker) : option (list UsageRecord) * Tracker :=
  let l := last_n trackerMaxRecords (records t) in
  if forallb encodable l
  then (Some l, {| records := l; dirtyCount := 0; lastFlush := now; ewmaCache := ewmaCache t; reqLog := reqLog t;
                   alertedTokens := alertedTokens t; tokenUsageByProvider := tokenUsageByProvider t |})
  else (None, {| records := l; dirtyCount := dirtyCount t; lastFlush := lastFlush t; ewmaCache := ewmaCache t; reqLog := reqLog t;
                 alertedTokens := alertedTokens t; tokenUsageByProvider := tokenUsageByProvider t |}).

(** What is written is taken under the lock; it reaches the file after it. *)
Definition flush := snapshotLocked.
Definition periodicFlush (now : Time) (t : Tracker) : option (list UsageRecord) * Tracker :=
  if 0 <? dirtyCount t then flush now t else (None, t).

(** ** Recording *)

Section tracker.
Context (loc : Location).

(** The arguments of a call to be recorded; [c_TokenLimit] is the limit its provider has then, if it is known. *)
Record Call := {
  c_ProviderID : string; c_ProviderName : string; c_Model : string; c_PromptTokens : Z; c_CompletionTokens : Z;
  c_LatencyMS : float64; c_Success : bool; c_Error : string; c_Stream : bool; c_RetryCount : Z; c_AccessType : string;
  c_Owner : string; c_TokenLimit : option Z }.

Definition call_cost (c : Call) : float64 :=
  if c_Success c then estimateCost (c_Model c) (c_PromptTokens c) (c_CompletionTokens c) (c_ProviderID c) else f_zero.
Definition call_tokens (c : Call) : Z := c_PromptTokens c +! c_CompletionTokens c.
Definition entry_of (now : Time) (c : Call) : UsageRecord := {|
  Timestamp := fmt_rfc3339 loc now; ProviderID := c_ProviderID c; ProviderName := c_ProviderName c; Model := c_Model c;
  PromptTokens := c_PromptTokens c; CompletionTokens := c_CompletionTokens c; TotalTokens := call_tokens c;
  CostUSD := call_cost c; LatencyMS := round1 (c_LatencyMS c); Success := c_Success c; Error := c_Error c;
  AccessType := c_AccessType c; Owner := c_Owner c |}.
Definition log_entry (now : Time) (c : Call) : RequestLogEntry := {|
  l_Timestamp := fmt_rfc3339 loc now; l_Method := c_Model c; l_Model := c_Model c; l_ProviderID := c_ProviderID c;
  l_ProviderName := c_ProviderName c; l_Success := c_Success c; l_LatencyMS := round1 (c_LatencyMS c); l_Tokens := call_tokens c;
  l_CostUSD := call_cost c; l_Error := c_Error c; l_Stream := c_Stream c; l_RetryCount := c_RetryCount c |}.

Definition record_locked (now : Time) (c : Call) (t : Tracker) : Tracker :=
  let pid := c_ProviderID c in
  {| records := records t ++ [entry_of now c]; dirtyCount := dirtyCount t +! 1; lastFlush := lastFlush t;
     ewmaCache := if c_Success c && fltb f_zero (c_LatencyMS c)
                  then <[pid := round1 match ewmaCache t !! pid with
                                       | Some prev => ewma_step (c_LatencyMS c) prev
                                       | None => c_LatencyMS c
                                       end]> (ewmaCache t)
                  else ewmaCache t;
     reqLog := reqLog t; alertedTokens := alertedTokens t;
     tokenUsageByProvider := zincr pid (call_tokens c) (tokenUsageByProvider t) |}.

Definition addRequestLog (e : RequestLogEntry) (t : Tracker) : Tracker :=
  let l := if (reqLogMax <=? length (reqLog t))%nat then drop (length (reqLog t) - reqLogMax + 1) (reqLog t) else reqLog t in
  {| records := records t; dirtyCount := dirtyCount t; lastFlush := lastFlush t; ewmaCache := ewmaCache t; reqLog := l ++ [e];
     alertedTokens := alertedTokens t; tokenUsageByProvider := tokenUsageByProvider t |}.

Definition GetRequestLog (limit : Z) (t : Tracker) : list RequestLogEntry :=
  let n := Z.of_nat (length (reqLog t)) in
  let limit := if (limit <=? 0) || (n <? limit) then n else limit in
  drop (Z.to_nat (n - limit)) (reqLog t).

(** The thresholds that are reached and were not before. *)
Definition due_alerts (used limit : Z) (alerted : list float64) : list float64 :=
  let ratio := fdiv (float_of_int used) (float_of_int limit) in
  filter (λ th, fleb th ratio = true ∧ th ∉ alerted) alertThresholds.
Definition checkTokenBudget (pid : string) (limit : option Z) (t : Tracker) : list float64 * Tracker :=
  match limit with
  | None => ([], t)
  | Some limit =>
      if limit <=? 0 then ([], t)
      else
        let alerted := default [] (alertedTokens t !! pid) in
        let due := due_alerts (zget (tokenUsageByProvider t) pid) limit alerted in
        (due, {| records := records t; dirtyCount := dirtyCount t; lastFlush := lastFlush t; ewmaCache := ewmaCache t;
                 reqLog := reqLog t; alertedTokens := <[pid := alerted ++ due]> (alertedTokens t);
                 tokenUsageByProvider := tokenUsageByProvider t |})
  end.

(** The alerts sent, and what is to be written. *)
Definition RecordWithRetryOwner (now : Time) (c : Call) (t : Tracker) : list float64 * option (list UsageRecord) * Tracker :=
  let t := record_locked now c t in
  let '(w, t) := if (trackerFlushThreshold <=? dirtyCount t) || (trackerFlushInterval <=? now - lastFlush t)
                 then flush now t else (None, t) in
  let '(alerts, t) := checkTokenBudget (c_ProviderID c) (c_TokenLimit c) (addRequestLog (log_entry now c) t) in
  (alerts, w, t).

(** ** Archiving and clearing *)

(** [time.Date] at midnight of a day of a month in the location. *)
Definition midnight (y m d : Z) : Time :=
  let local := days_from_civil y m d * 86400 in
  let o := loc (local * second) in
  let utc := local - o in
  let o' := if o =? 0 then 0 else if loc (utc * second) =? o then o else loc (utc * second) in
  (local - o') * second.
(** The month of [now.AddDate(0, -1, 0)]: a day the month before does not have runs over into this one. *)
Definition month_before (now : Time) : string :=
  let '(y, m, d) := civil_date loc now in
  let '(y, m) := if m =? 1 then (y - 1, 12) else (y, m - 1) in
  let '(y, m, _) := civil_from_days (days_from_civil y m 1 + d - 1) in
  pad_min 4 y +:+ "-" +:+ pad 2 m.

Definition stamp (r : UsageRecord) : Time := default time_zero (parse_rfc3339 (Timestamp r)).
Definition month_start (now : Time) : Time := let '(y, m, _) := civil_date loc now in midnight y m 1.
Definition archived (now : Time) (r : UsageRecord) : bool := before (stamp r) (month_start now).

(** [writes_archive] says whether the archive can be written. The archive, what is to be written to the
    file under the lock, and the tracker. *)
Definition archiveUsage (now : Time) (writes_archive : bool) (t : Tracker)
    : option (string * list UsageRecord) * option (list UsageRecord) * Tracker :=
  let toArchive := filter (λ r, archived now r = true) (records t) in
  let toKeep := filter (λ r, archived now r = false) (records t) in
  match toArchive with
  | [] => (None, None, t)
  | _ =>
      if negb writes_archive then (None, None, t)
      else
        let '(w, t) := snapshotLocked now {| records := toKeep; dirtyCount := 0; lastFlush := now; ewmaCache := ewmaCache t;
                          reqLog := reqLog t; alertedTokens := alertedTokens t; tokenUsageByProvider := tokenUsageByProvider t |} in
        (Some (month_before now, if forallb encodable toArchive then toArchive else []), w, t)
  end.

Definition Reset (now : Time) (t : Tracker) : option (list UsageRecord) * Tracker :=
  snapshotLocked now {| records := []; dirtyCount := 0; lastFlush := lastFlush t; ewmaCache := ∅; reqLog := reqLog t;
                        alertedTokens := alertedTokens t; tokenUsageByProvider := tokenUsageByProvider t |}.

Definition GetEWMA (pid : string) (t : Tracker) : float64 := default f_zero (ewmaCache t !! pid).
Definition TotalTokensByProvider (t : Tracker) : gmap string Z := tokenUsageByProvider t.

(** ** Statistics *)

(** An administrator, the empty owner, sees all records. *)
Definition of_owner (owner : string) (r : UsageRecord) : bool := bool_decide (owner = "") || bool_decide (Owner r = owner).
Definition CountOwned (owner : string) (t : Tracker) : Z := Z.of_nat (length (filter (λ r, of_owner owner r = true) (records t))).

Record agg := {
  a_name : string; a_count : Z; a_success : Z; a_promptTok : Z; a_compTok : Z; a_totalTok : Z; a_costSum : float64;
  a_latSum : float64; a_latCount : Z; a_minLat : float64; a_maxLat : float64; a_lastReq : string; a_privReqs : Z; a_pubReqs : Z;
  a_guestReqs : Z; a_privTokens : Z; a_pubTokens : Z; a_guestTokens : Z }.
Definition no_latency : float64 := lit (10 ^ 18) 0.
Definition new_agg : agg := {|
  a_name := ""; a_count := 0; a_success := 0; a_promptTok := 0; a_compTok := 0; a_totalTok := 0; a_costSum := f_zero;
  a_latSum := f_zero; a_latCount := 0; a_minLat := no_latency; a_maxLat := f_zero; a_lastReq := ""; a_privReqs := 0; a_pubReqs := 0;
  a_guestReqs := 0; a_privTokens := 0; a_pubTokens := 0; a_guestTokens := 0 |}.

Definition agg_record (s : agg) (r : UsageRecord) : agg :=
  let timed := fltb f_zero (LatencyMS r) in
  let kind k v old := if bool_decide (AccessType r = k) then old +! v else old in
  {| a_name := if bool_decide (ProviderName r = "") then a_name s else ProviderName r;
     a_count := a_count s +! 1; a_success := if Success r then a_success s +! 1 else a_success s;
     a_promptTok := a_promptTok s +! PromptTokens r; a_compTok := a_compTok s +! CompletionTokens r;
     a_totalTok := a_totalTok s +! TotalTokens r; a_costSum := fadd (a_costSum s) (CostUSD r);
     a_latSum := if timed then fadd (a_latSum s) (LatencyMS r) else a_latSum s;
     a_latCount := if timed then a_latCount s +! 1 else a_latCount s;
     a_minLat := if timed && fltb (LatencyMS r) (a_minLat s) then LatencyMS r else a_minLat s;
     a_maxLat := if timed && fltb (a_maxLat s) (LatencyMS r) then LatencyMS r else a_maxLat s;
     a_lastReq := Timestamp r;
     a_privReqs := kind "private" 1 (a_privReqs s); a_pubReqs := kind "public" 1 (a_pubReqs s);
     a_guestReqs := kind "guest" 1 (a_guestReqs s); a_privTokens := kind "private" (TotalTokens r) (a_privTokens s);
     a_pubTokens := kind "public" (TotalTokens r) (a_pubTokens s); a_guestTokens := kind "guest" (TotalTokens r) (a_guestTokens s) |}.

Record ProviderStat := {
  s_provider_name : string; s_request_count : Z; s_success_count : Z; s_success_rate : float64; s_total_tokens : Z;
  s_total_cost_usd : float64; s_avg_latency_ms : float64; s_min_latency_ms : float64; s_max_latency_ms : float64;
  s_last_request_at : string; s_private_reqs : Z; s_public_reqs : Z; s_guest_reqs : Z; s_private_tokens : Z;
  s_public_tokens : Z; s_guest_tokens : Z }.
Definition stat_of (s : agg) : ProviderStat := {|
  s_provider_name := a_name s; s_request_count := a_count s; s_success_count := a_success s;
  s_success_rate := round1 (if 0 <? a_count s then fmul (fdiv (float_of_int (a_success s)) (float_of_int (a_count s))) (lit 100 0) else f_zero);
  s_total_tokens := a_totalTok s; s_total_cost_usd := round4 (a_costSum s);
  s_avg_latency_ms := round1 (if 0 <? a_latCount s then fdiv (a_latSum s) (float_of_int (a_latCount s)) else f_zero);
  s_min_latency_ms := round1 (if SpecFloat.SFeqb (a_minLat s) no_latency then f_zero else a_minLat s);
  s_max_latency_ms := round1 (a_maxLat s); s_last_request_at := a_lastReq s; s_private_reqs := a_privReqs s;
  s_public_reqs := a_pubReqs s; s_guest_reqs := a_guestReqs s; s_private_tokens := a_privTokens s; s_public_tokens := a_pubTokens s;
  s_guest_tokens := a_guestTokens s |}.

Definition in_view (cutoff : Time) (owner : string) (r : UsageRecord) : bool := of_owner owner r && negb (before (stamp r) cutoff).
Definition agg_step (stats : gmap string agg) (r : UsageRecord) : gmap string agg :=
  <[ProviderID r := agg_record (default new_agg (stats !! ProviderID r)) r]> stats.
Definition ProviderStatsOwned (now : Time) (days : Z) (owner : string) (t : Tracker) : gmap string ProviderStat :=
  stat_of <$> foldl agg_step ∅ (filter (λ r, in_view (GuestKeys.add_days loc now (- days)) owner r = true) (records t)).
Definition ProviderStats (now : Time) (days : Z) (t : Tracker) : gmap string ProviderStat := ProviderStatsOwned now days "" t.

(** ** Handlers *)

(** The order in which the statistics are walked. *)
Context (walk : gmap string ProviderStat → list ProviderStat).

Record UsageSummary := {
  today_requests : Z; today_tokens : Z; today_cost_usd : float64; total_requests_30d : Z; total_tokens_30d : Z;
  total_cost_usd_30d : float64; providers_active : Z; total_records : Z }.
Definition totals (m : gmap string ProviderStat) : Z * Z * float64 :=
  foldl (λ '(n, tok, cost) s, (n +! s_request_count s, tok +! s_total_tokens s, fadd cost (s_total_cost_usd s))) (0, 0, f_zero) (walk m).
(** [now1] and [now30] are the two readings of the clock. *)
Definition handleUsageSummary (now30 now1 : Time) (owner : string) (t : Tracker) : UsageSummary :=
  let stats30 := ProviderStatsOwned now30 30 owner t in
  let '(n30, tok30, c30) := totals stats30 in
  let '(n1, tok1, c1) := totals (ProviderStatsOwned now1 1 owner t) in
  {| today_requests := n1; today_tokens := tok1; today_cost_usd := round4 c1; total_requests_30d := n30; total_tokens_30d := tok30;
     total_cost_usd_30d := round4 c30; providers_active := Z.of_nat (size stats30); total_records := CountOwned owner t |}.

(** [days] and [limit] are the parameters, when they are numbers. *)
Definition handleUsageProviders (now : Time) (days : option Z) (owner : string) (t : Tracker) : gmap string ProviderStat :=
  let d := match days with Some d => if (d <=? 0) || (365 <? d) then 30 else d | None => 30 end in
  ProviderStatsOwned now d owner t.

(** [None] is a panic, an index out of range, with the lock held. *)
Definition handleUsageRecords (limit : option Z) (owner : string) (t : Tracker) : option (list UsageRecord) :=
  let limit := match limit with Some n => if (n =? 0) || (500 <? n) then 100 else n | None => 100 end in
  let recs := filter (λ r, of_owner owner r = true) (records t) in
  let n := Z.of_nat (length recs) in
  if limit <? n then if limit <? 0 then None else Some (drop (Z.to_nat (n - limit)) recs) else Some recs.
End tracker.

(** ** What the tracker guarantees *)

Section usage_safety.
Context (loc : Location).

(** The tracker of a running program; whether a handler stopped while it held the lock; the writes under
    way, the file, the archives, and the alerts sent since the start. *)
Record usage_world := {
  tr : Tracker; stuck : bool; under_way : list (list UsageRecord); usage_file : option (list UsageRecord);
  archives : gmap string (list UsageRecord); sent : list (string * float64) }.

Definition start (now : Time) (file : option (list UsageRecord)) (a : gmap string (list UsageRecord)) : usage_world :=
  {| tr := initTracker now file; stuck := false; under_way := []; usage_file := file; archives := a; sent := [] |}.

Inductive usage_op :=
| URecord (now : Time) (c : Call) | UTick (now : Time) | UWrite (i : nat) (ok : bool)
| UArchive (now : Time) (archive_ok file_ok : bool) | UReset (now : Time) (file_ok : bool)
| URecords (limit : option Z) (owner : string) | URestart (now : Time).

Definition with_tr (t : Tracker) (w : usage_world) : usage_world :=
  {| tr := t; stuck := stuck w; under_way := under_way w; usage_file := usage_file w; archives := archives w; sent := sent w |}.
Definition to_write (o : option (list UsageRecord)) (w : usage_world) : usage_world :=
  {| tr := tr w; stuck := stuck w; under_way := under_way w ++ option_list o; usage_file := usage_file w; archives := archives w; sent := sent w |}.
Definition write_now (ok : bool) (o : option (list UsageRecord)) (w : usage_world) : usage_world :=
  {| tr := tr w; stuck := stuck w; under_way := under_way w;
     usage_file := match o with Some l => if ok then Some l else usage_file w | None => usage_file w end;
     archives := archives w; sent := sent w |}.

(** An operation on a tracker whose lock is held for ever waits for ever. *)
Definition usage_step (w : usage_world) (o : usage_op) : usage_world :=
  match o with
  | URestart now => start now (usage_file w) (archives w)
  | UWrite i ok =>
      {| tr := tr w; stuck := stuck w; under_way := delete i (under_way w);
         usage_file := match under_way w !! i with Some l => if ok then Some l else usage_file w | None => usage_file w end;
         archives := archives w; sent := sent w |}
  | _ =>
      if stuck w then w
      else match o with
      | URecord now c =>
          let '(alerts, wr, t) := RecordWithRetryOwner loc now c (tr w) in
          {| tr := t; stuck := false; under_way := under_way w ++ option_list wr; usage_file := usage_file w; archives := archives w;
             sent := sent w ++ ((λ th, (c_ProviderID c, th)) <$> alerts) |}
      | UTick now => let '(wr, t) := periodicFlush now (tr w) in to_write wr (with_tr t w)
      | UArchive now archive_ok file_ok =>
          let '(a, wr, t) := archiveUsage loc now archive_ok (tr w) in
          let w := write_now file_ok wr (with_tr t w) in
          {| tr := tr w; stuck := stuck w; under_way := under_way w; usage_file := usage_file w;
             archives := match a with Some (k, l) => <[k := l]> (archives w) | None => archives w end; sent := sent w |}
      | UReset now file_ok => let '(wr, t) := Reset now (tr w) in write_now file_ok wr (with_tr t w)
      | URecords limit owner =>
          match handleUsageRecords limit owner (tr w) with
          | Some _ => w
          | None => {| tr := tr w; stuck := true; under_way := under_way w; usage_file := usage_file w; archives := archives w; sent := sent w |}
          end
      | _ => w
      end
  end.
Definition usage_run (h : list usage_op) (w : usage_world) : usage_world := foldl usage_step w h.

Definition restarts (o : usage_op) : bool := match o with URestart _ => true | _ => false end.

(** *** A page of records with a negative length *)

Lemma records_panic limit owner t : handleUsageRecords limit owner t = None ↔ ∃ n, limit = Some n ∧ n < 0.
Proof.
  unfold handleUsageRecords. cbv zeta. set (recs := filter _ _).
  destruct limit as [n|].
  - destruct (Z.eqb_spec n 0); cbn [orb].
    { split; [|intros (? & [= <-] & ?); lia]. destruct (100 <? Z.of_nat (length recs)); by cbn. }
    destruct (Z.ltb_spec 500 n); cbn [orb].
    { split; [|intros (? & [= <-] & ?); lia]. destruct (100 <? Z.of_nat (length recs)); by cbn. }
    destruct (Z.ltb_spec n (Z.of_nat (length recs))), (Z.ltb_spec n 0); split; try done; try lia.
    + intros _. by exists n.
    + intros (? & [= <-] & ?). lia.
    + intros (? & [= <-] & ?). lia.
  - split; [|by intros (? & [=] & _)]. destruct (100 <? Z.of_nat (length recs)); by cbn.
Qed.

Lemma stuck_stays h w : stuck w = true → Forall (λ o, restarts o = false) h → tr (usage_run h w) = tr w ∧ stuck (usage_run h w) = true.
Proof.
  revert w. induction h as [|o h IH]; intros w Hs Hh; [done|]. apply Forall_cons in Hh as [Ho Hh]. cbn [usage_run foldl].
  fold (usage_run h (usage_step w o)).
  assert (tr (usage_step w o) = tr w ∧ stuck (usage_step w o) = true) as [E1 E2].
  { destruct o; cbn [usage_step]; rewrite ?Hs; by try discriminate Ho. }
  destruct (IH _ E2 Hh) as [E3 E4]. by rewrite E3.
Qed.

(** One request of a consumer for a negative number of records ends the accounting: until the program is
    restarted no call is recorded, nothing is archived or cleared, and whatever asks for the tracker waits. *)
Theorem negative_limit_locks n owner h w :
  n < 0 → stuck w = false → Forall (λ o, restarts o = false) h →
  let w' := usage_run (URecords (Some n) owner :: h) w in tr w' = tr w ∧ stuck w' = true.
Proof.
  intros Hn Hs Hh. cbn [usage_run foldl usage_step]. rewrite Hs. rewrite (proj2 (records_panic (Some n) owner (tr w))) by (by exists n).
  match goal with |- tr (foldl _ ?w' h) = _ ∧ _ => apply (stuck_stays h w') end; done.
Qed.

(** *** Tokens *)

Definition tokens_of (pid : string) (o : usage_op) : Z :=
  match o with URecord _ c => if bool_decide (c_ProviderID c = pid) then call_tokens c else 0 | _ => 0 end.
Definition panics (o : usage_op) : bool := match o with URecords (Some n) _ => n <? 0 | _ => false end.

Lemma snapshot_tokens now t : tokenUsageByProvider (snapshotLocked now t).2 = tokenUsageByProvider t.
Proof. unfold snapshotLocked. by destruct (forallb _ _). Qed.
Lemma budget_tokens pid limit t : tokenUsageByProvider (checkTokenBudget pid limit t).2 = tokenUsageByProvider t.
Proof. unfold checkTokenBudget. destruct limit as [l|]; [|done]. by destruct (l <=? 0). Qed.

Lemma record_tokens now c t :
  tokenUsageByProvider (RecordWithRetryOwner loc now c t).2 = zincr (c_ProviderID c) (call_tokens c) (tokenUsageByProvider t).
Proof.
  unfold RecordWithRetryOwner. set (t1 := record_locked loc now c t).
  assert (∃ wr t2, (if (trackerFlushThreshold <=? dirtyCount t1) || (trackerFlushInterval <=? now - lastFlush t1)
                    then flush now t1 else (None, t1)) = (wr, t2) ∧ tokenUsageByProvider t2 = tokenUsageByProvider t1) as (wr & t2 & -> & Ht).
  { destruct (_ || _); [|by exists None, t1]. pose proof (snapshot_tokens now t1). unfold flush. destruct (snapshotLocked now t1) as [wr t2]. by exists wr, t2. }
  pose proof (budget_tokens (c_ProviderID c) (c_TokenLimit c) (addRequestLog (log_entry loc now c) t2)) as Hb.
  destruct (checkTokenBudget _ _ _) as [al t3]. cbn [snd] in Hb |- *. rewrite Hb. cbn [addRequestLog tokenUsageByProvider]. by rewrite Ht.
Qed.

Lemma step_tokens w o pid :
  stuck w = false → restarts o = false → panics o = false →
  stuck (usage_step w o) = false ∧
  zget (tokenUsageByProvider (tr (usage_step w o))) pid = wrap64 (zget (tokenUsageByProvider (tr w)) pid + tokens_of pid o) ∨
  tokens_of pid o = 0 ∧ stuck (usage_step w o) = false ∧
  zget (tokenUsageByProvider (tr (usage_step w o))) pid = zget (tokenUsageByProvider (tr w)) pid.
Proof.
  intros Hs Hr Hp. destruct o as [now c|now|i ok|now a f|now f|limit owner|now]; cbn [usage_step tokens_of] in *; rewrite ?Hs; try done.
  - pose proof (record_tokens now c (tr w)) as Ht. destruct (RecordWithRetryOwner loc now c (tr w)) as [[al wr] t]. cbn in Ht |- *. rewrite Ht, zget_zincr.
    destruct (decide (c_ProviderID c = pid)) as [->|Hne]; [left; by rewrite bool_decide_eq_true_2|right; by rewrite bool_decide_eq_false_2].
  - right. split; [done|]. unfold periodicFlush. destruct (0 <? dirtyCount (tr w)); [|done].
    pose proof (snapshot_tokens now (tr w)) as Ht. unfold flush. destruct (snapshotLocked now (tr w)) as [wr t]. cbn in Ht |- *. by rewrite Ht.
  - by right.
  - right. split; [done|]. unfold archiveUsage. destruct (filter _ (records (tr w))) as [|x l]; [done|]. destruct a; cbn [negb]; [|done].
    match goal with |- context [snapshotLocked now ?t] => pose proof (snapshot_tokens now t) as Ht; destruct (snapshotLocked now t) as [wr t'] end.
    cbn in Ht |- *. by rewrite Ht.
  - right. split; [done|]. unfold Reset.
    match goal with |- context [snapshotLocked now ?t] => pose proof (snapshot_tokens now t) as Ht; destruct (snapshotLocked now t) as [wr t'] end.
    cbn in Ht |- *. by rewrite Ht.
  - right. split; [done|]. destruct (handleUsageRecords limit owner (tr w)) eqn:E; [done|]. exfalso.
    apply records_panic in E as (n & -> & Hn). cbn in Hp. lia.
Qed.

(** The tokens a provider has used are the tokens of all its calls since the start, whatever was cut off,
    archived or cleared since; only at a start are they counted from the file. *)
Theorem tokens_are_exact h w pid :
  stuck w = false → Forall (λ o, restarts o = false ∧ panics o = false) h →
  is_int64 (zget (tokenUsageByProvider (tr w)) pid) →
  zget (tokenUsageByProvider (tr (usage_run h w))) pid
    = wrap64 (zget (tokenUsageByProvider (tr w)) pid + zsum (tokens_of pid <$> h)).
Proof.
  intros Hs Hh Hi. revert w Hs Hi. induction h as [|o h IH]; intros w Hs Hi.
  { cbn. by rewrite Z.add_0_r, wrap64_id. }
  apply Forall_cons in Hh as [[Ho Hp] Hh]. cbn [usage_run foldl]. fold (usage_run h (usage_step w o)). rewrite fmap_cons, zsum_cons.
  destruct (step_tokens w o pid Hs Ho Hp) as [[Hs' E]|(E0 & Hs' & E)].
  - rewrite (IH Hh _ Hs') by (rewrite E; apply wrap64_range). rewrite E, wrap64_add_l. f_equal. lia.
  - rewrite (IH Hh _ Hs') by (by rewrite E). rewrite E, E0. done.
Qed.

(** *** Alerts *)

Definition alerts_ok (w : usage_world) : Prop :=
  NoDup (sent w) ∧ ∀ p th, (p, th) ∈ sent w → th ∈ default [] (alertedTokens (tr w) !! p).

Lemma snapshot_alerted now t : alertedTokens (snapshotLocked now t).2 = alertedTokens t.
Proof. unfold snapshotLocked. by destruct (forallb _ _). Qed.

Lemma thresholds_nodup : NoDup alertThresholds.
Proof. apply (bool_decide_unpack _). vm_compute. exact I. Qed.

Lemma budget_alerts pid limit t :
  let '(al, t') := checkTokenBudget pid limit t in
  NoDup al ∧ (∀ th, th ∈ al → th ∉ default [] (alertedTokens t !! pid)) ∧
  ∀ p, default [] (alertedTokens t' !! p) = default [] (alertedTokens t !! p) ++ (if bool_decide (p = pid) then al else []).
Proof.
  assert (∀ p, default [] (alertedTokens t !! p) = default [] (alertedTokens t !! p) ++ (if bool_decide (p = pid) then [] else [])) as Hid.
  { intros p. by case_bool_decide; rewrite app_nil_r. }
  unfold checkTokenBudget. destruct limit as [l|]; [|split_and!; [apply NoDup_nil_2|by intros ? ?%not_elem_of_nil|exact Hid]].
  destruct (l <=? 0); [split_and!; [apply NoDup_nil_2|by intros ? ?%not_elem_of_nil|exact Hid]|].
  split_and!.
  - apply NoDup_filter, thresholds_nodup.
  - intros th [[_ Hth] _]%list_elem_of_filter. done.
  - intros p. cbn [alertedTokens]. case_bool_decide as E; [subst p; by rewrite lookup_insert_eq|by rewrite lookup_insert_ne, app_nil_r by done].
Qed.

Lemma step_alerts w o : restarts o = false → alerts_ok w → alerts_ok (usage_step w o).
Proof.
  intros Hr [Hn Hin].
  assert (∀ w', sent w' = sent w → alertedTokens (tr w') = alertedTokens (tr w) → alerts_ok w') as Hsame.
  { intros w' E1 E2. unfold alerts_ok. by rewrite E1, E2. }
  destruct o as [now c|now|i ok|now a f|now f|limit owner|now]; cbn [usage_step] in *; try done;
    try (destruct (stuck w); [done|]).
  - unfold RecordWithRetryOwner. set (t1 := record_locked loc now c (tr w)).
    assert (∃ wr t2, (if (trackerFlushThreshold <=? dirtyCount t1) || (trackerFlushInterval <=? now - lastFlush t1)
                      then flush now t1 else (None, t1)) = (wr, t2) ∧ alertedTokens t2 = alertedTokens (tr w)) as (wr & t2 & -> & Ht).
    { destruct (_ || _); [|by exists None, t1]. pose proof (snapshot_alerted now t1). unfold flush. destruct (snapshotLocked now t1) as [wr t2]. by exists wr, t2. }
    pose proof (budget_alerts (c_ProviderID c) (c_TokenLimit c) (addRequestLog (log_entry loc now c) t2)) as Hb.
    destruct (checkTokenBudget _ _ _) as [al t3]. cbn [addRequestLog alertedTokens] in Hb. rewrite Ht in Hb. destruct Hb as (B1 & B2 & B3).
    split; cbn [sent tr].
    + apply NoDup_app. split_and!; [done| |apply NoDup_fmap_2; [by intros ? ? [= ->]|done]].
      intros [p th] Hp (th' & [= -> ->] & Hth)%list_elem_of_fmap. apply (B2 th' Hth). by apply (Hin (c_ProviderID c)).
    + intros p th. rewrite B3. intros [Hp|(th' & [= -> ->] & Hth)%list_elem_of_fmap]%elem_of_app; apply elem_of_app; [left; by apply Hin|right].
      by rewrite bool_decide_eq_true_2.
  - apply Hsame; unfold periodicFlush; destruct (0 <? dirtyCount (tr w)); try done; pose proof (snapshot_alerted now (tr w)) as Ht; unfold flush;
      by destruct (snapshotLocked now (tr w)) as [wr t].
  - apply Hsame; unfold archiveUsage; (destruct (filter _ (records (tr w))) as [|x l]; [done|]); (destruct a; cbn [negb]; [|done]);
    match goal with |- context [snapshotLocked now ?t] => pose proof (snapshot_alerted now t) as Ht; destruct (snapshotLocked now t) as [wr t'] end; done.
  - apply Hsame; unfold Reset;
    match goal with |- context [snapshotLocked now ?t] => pose proof (snapshot_alerted now t) as Ht; destruct (snapshotLocked now t) as [wr t'] end; done.
  - apply Hsame; by destruct (handleUsageRecords limit owner (tr w)).
Qed.

(** Between two starts each threshold of a provider is alerted at most once, whatever happens. *)
Theorem alerts_once now file a h :
  Forall (λ o, restarts o = false) h → NoDup (sent (usage_run h (start now file a))).
Proof.
  intros Hh. assert (alerts_ok (usage_run h (start now file a))) as [H _]; [|done].
  assert (alerts_ok (start now file a)) as H0 by (split; [apply NoDup_nil_2|by intros ? ? ?%not_elem_of_nil]).
  revert H0. generalize (start now file a). induction h as [|o h IH]; intros w Hw; [done|]. apply Forall_cons in Hh as [Ho Hh].
  apply (IH Hh), step_alerts; done.
Qed.

(** *** The log of requests *)

Definition logged (o : usage_op) : list RequestLogEntry := match o with URecord now c => [log_entry loc now c] | _ => [] end.

Lemma add_log e full t : reqLog t = last_n reqLogMax full → reqLog (addRequestLog e t) = last_n reqLogMax (full ++ [e]).
Proof.
  intros E. unfold addRequestLog. cbn [reqLog]. rewrite E, <- last_n_snoc. set (l := last_n reqLogMax full).
  assert (length l ≤ reqLogMax)%nat as Hl by (subst l; rewrite last_n_length; apply Nat.le_min_l). unfold last_n. rewrite length_app. cbn [length].
  assert (1 ≤ reqLogMax)%nat as H1 by (unfold reqLogMax; lia).
  destruct (Nat.leb_spec reqLogMax (length l)).
  - rewrite drop_app_le by lia. do 2 f_equal. lia.
  - replace (length l + 1 - reqLogMax)%nat with 0%nat by lia. done.
Qed.

Lemma snapshot_log now t : reqLog (snapshotLocked now t).2 = reqLog t.
Proof. unfold snapshotLocked. by destruct (forallb _ _). Qed.
Lemma budget_log pid limit t : reqLog (checkTokenBudget pid limit t).2 = reqLog t.
Proof. unfold checkTokenBudget. destruct limit as [l|]; [|done]. by destruct (l <=? 0). Qed.

(** The log of requests holds the last thousand calls since the start, in their order; clearing and
    archiving the records leave it. *)
Theorem log_is_last_calls now file a h :
  Forall (λ o, restarts o = false ∧ panics o = false) h →
  stuck (usage_run h (start now file a)) = false ∧
  reqLog (tr (usage_run h (start now file a))) = last_n reqLogMax (h ≫= logged).
Proof.
  induction h as [|o h IH] using rev_ind; intros Hh; [done|]. apply Forall_app in Hh as [Hh [[Ho Hp] _]%Forall_cons].
  destruct (IH Hh) as [Hs IHl]. unfold usage_run. rewrite foldl_app, bind_app. cbn [foldl mbind list_bind]. rewrite app_nil_r.
  fold (usage_run h (start now file a)). set (w := usage_run h _) in *.
  assert (∀ t, reqLog t = reqLog (tr w) → reqLog t = last_n reqLogMax ((h ≫= logged) ++ [])) as Hsame by (intros t ->; by rewrite app_nil_r).
  destruct o as [t c|t|i ok|t b f|t f|limit owner|t]; cbn [usage_step logged] in *; rewrite ?Hs; try discriminate Ho.
  - unfold RecordWithRetryOwner. set (t1 := record_locked loc t c (tr w)).
    assert (∃ wr t2, (if (trackerFlushThreshold <=? dirtyCount t1) || (trackerFlushInterval <=? t - lastFlush t1)
                      then flush t t1 else (None, t1)) = (wr, t2) ∧ reqLog t2 = reqLog (tr w)) as (wr & t2 & -> & Ht).
    { destruct (_ || _); [|by exists None, t1]. pose proof (snapshot_log t t1). unfold flush. destruct (snapshotLocked t t1) as [wr t2]. by exists wr, t2. }
    pose proof (budget_log (c_ProviderID c) (c_TokenLimit c) (addRequestLog (log_entry loc t c) t2)) as Hb.
    destruct (checkTokenBudget _ _ _) as [al t3]. cbn [snd] in Hb. split; [done|]. cbn [tr]. rewrite Hb. apply add_log. by rewrite Ht.
  - unfold periodicFlush. destruct (0 <? dirtyCount (tr w)); [|by split; [|apply Hsame]]. pose proof (snapshot_log t (tr w)) as Ht. unfold flush.
    destruct (snapshotLocked t (tr w)) as [wr t2]. split; [done|]. by apply Hsame.
  - split; [done|]. by apply Hsame.
  - unfold archiveUsage. destruct (filter _ (records (tr w))) as [|x l]; [by split; [|apply Hsame]|]. destruct b; cbn [negb]; [|by split; [|apply Hsame]].
    match goal with |- context [snapshotLocked t ?t0] => pose proof (snapshot_log t t0) as Ht; destruct (snapshotLocked t t0) as [wr t'] end.
    split; [done|]. by apply Hsame.
  - unfold Reset.
    match goal with |- context [snapshotLocked t ?t0] => pose proof (snapshot_log t t0) as Ht; destruct (snapshotLocked t t0) as [wr t'] end.
    split; [done|]. by apply Hsame.
  - destruct (handleUsageRecords limit owner (tr w)) eqn:E; [by split; [|apply Hsame]|]. exfalso.
    apply records_panic in E as (n & -> & Hn). cbn in Hp. lia.
Qed.

(** *** Bounds *)

Definition recorded_ok (o : usage_op) : Prop := match o with URecord now c => encodable (entry_of loc now c) = true | _ => True end.
Definition fits (l : list UsageRecord) : Prop := (length l ≤ trackerMaxRecords)%nat ∧ forallb encodable l = true.
Definition bounded (w : usage_world) : Prop :=
  0 ≤ dirtyCount (tr w) < 50 ∧ Z.of_nat (length (records (tr w))) ≤ 5000 + dirtyCount (tr w) ∧ forallb encodable (records (tr w)) = true ∧
  Forall fits (under_way w) ∧ match usage_file w with Some l => fits l | None => True end.

Lemma last_n_encodable n l : forallb encodable l = true → forallb encodable (last_n n l) = true.
Proof.
  intros H. apply forallb_forall. intros x Hx. rewrite forallb_forall in H. apply H. apply list_elem_of_In. unfold last_n in Hx.
  by apply list_elem_of_In, (subseteq_drop (length l - n) l) in Hx.
Qed.

(** A snapshot of what can be encoded: it fits, and nothing is left to write. *)
Lemma snapshot_bounded now t :
  forallb encodable (records t) = true →
  ∃ l t', snapshotLocked now t = (Some l, t') ∧ fits l ∧ records t' = l ∧ dirtyCount t' = 0.
Proof.
  intros H. unfold snapshotLocked. rewrite (last_n_encodable _ _ H). eexists _, _. split; [done|]. cbn. split_and!; try done.
  split; [rewrite last_n_length; lia|by apply last_n_encodable].
Qed.

Lemma budget_records pid limit t : let t' := (checkTokenBudget pid limit t).2 in records t' = records t ∧ dirtyCount t' = dirtyCount t.
Proof. unfold checkTokenBudget. destruct limit as [l|]; [|done]. by destruct (l <=? 0). Qed.

Lemma after_snapshot w t l s x f a sn :
  bounded w → fits l → records t = l → dirtyCount t = 0 → Forall fits x → match f with Some l => fits l | None => True end →
  bounded {| tr := t; stuck := s; under_way := x; usage_file := f; archives := a; sent := sn |}.
Proof.
  intros _ [Hl He] Hr Hd Hx Hf. unfold bounded. cbn. rewrite Hr, Hd. unfold trackerMaxRecords in Hl. split_and!; try done; lia.
Qed.

Lemma record_bounded w now c :
  bounded w → encodable (entry_of loc now c) = true → stuck w = false → bounded (usage_step w (URecord now c)).
Proof.
  intros Hb He Hs. cbn [usage_step]. rewrite Hs. pose proof Hb as (Hd & Hl & Hr & Hu & Hf).
  unfold RecordWithRetryOwner. set (t1 := record_locked loc now c (tr w)).
  assert (forallb encodable (records t1) = true) as He1 by (cbn; rewrite forallb_app, Hr; cbn; by rewrite He).
  assert (dirtyCount t1 = dirtyCount (tr w) + 1) as Hd1 by (cbn; apply wrap64_id; unfold is_int64, int64_min, int64_max; lia).
  assert (length (records t1) = S (length (records (tr w)))) as Hl1 by (cbn; rewrite length_app; cbn; lia).
  destruct (snapshot_bounded now t1 He1) as (l & t' & Es & Hfit & Hrec & Hdirty).
  destruct ((trackerFlushThreshold <=? dirtyCount t1) || (trackerFlushInterval <=? now - lastFlush t1)) eqn:E.
  - unfold flush. rewrite Es. pose proof (budget_records (c_ProviderID c) (c_TokenLimit c) (addRequestLog (log_entry loc now c) t')) as [B1 B2].
    destruct (checkTokenBudget _ _ _) as [al t3]. cbn [snd addRequestLog records dirtyCount] in B1, B2.
    apply (after_snapshot w _ l); try done; [by rewrite B1|by rewrite B2|]. apply Forall_app. split; [done|]. by apply Forall_singleton.
  - apply orb_false_iff in E as [E _]. unfold trackerFlushThreshold in E. apply Z.leb_gt in E.
    pose proof (budget_records (c_ProviderID c) (c_TokenLimit c) (addRequestLog (log_entry loc now c) t1)) as [B1 B2].
    destruct (checkTokenBudget _ _ _) as [al t3]. cbn [snd] in B1, B2. change (records (addRequestLog (log_entry loc now c) t1)) with (records t1) in B1.
    change (dirtyCount (addRequestLog (log_entry loc now c) t1)) with (dirtyCount t1) in B2.
    unfold bounded. cbn [tr under_way usage_file option_list]. rewrite app_nil_r, B1, B2, Hd1, Hl1. split_and!; try done; lia.
Qed.

(** As long as what is recorded can be encoded: at most 5049 records are in memory and at most 5000 in the
    file, whatever fails to be written and whatever is restarted. *)
Theorem records_are_bounded now a h :
  Forall recorded_ok h → bounded (usage_run h (start now None a)).
Proof.
  intros Hh. assert (bounded (start now None a)) as H0 by (by split_and!). revert H0. generalize (start now None a).
  induction h as [|o h IH]; intros w Hb; [done|]. apply Forall_cons in Hh as [Ho Hh]. apply (IH Hh). clear IH Hh.
  pose proof Hb as (Hd & Hl & Hr & Hu & Hf).
  assert (∀ w', tr w' = tr w → under_way w' = under_way w → usage_file w' = usage_file w → bounded w') as Hsame.
  { intros w' E1 E2 E3. unfold bounded. by rewrite E1, E2, E3. }
  destruct o as [t c|t|i ok|t b f|t f|limit owner|t].
  - destruct (stuck w) eqn:Es; [by cbn [usage_step]; rewrite Es|by apply record_bounded].
  - cbn [usage_step]. destruct (stuck w); [done|]. unfold periodicFlush. destruct (0 <? dirtyCount (tr w)).
    + unfold flush. destruct (snapshot_bounded t (tr w) Hr) as (l & t' & -> & H1 & H2 & H3). apply (after_snapshot w _ l); try done.
      apply Forall_app. split; [done|]. by apply Forall_singleton.
    + apply Hsame; [done| |done]. cbn. by rewrite app_nil_r.
  - cbn [usage_step]. unfold bounded. cbn [tr under_way usage_file].
    split; [done|split; [done|split; [done|split]]].
    + by apply Forall_delete.
    + destruct (under_way w !! i) eqn:E; [|done]. destruct ok; [|done]. by apply (Forall_lookup_1 _ _ _ _ Hu E).
  - cbn [usage_step]. destruct (stuck w); [done|]. unfold archiveUsage. destruct (filter _ (records (tr w))) as [|x l]; [by apply Hsame|].
    destruct b; cbn [negb]; [|by apply Hsame]. set (kept := filter (λ r, archived loc t r = false) (records (tr w))).
    match goal with |- context [snapshotLocked t ?t0] => destruct (snapshot_bounded t t0) as (l' & t' & -> & H1 & H2 & H3) end.
    { cbn [records]. apply forallb_forall. intros y Hy%list_elem_of_In. rewrite forallb_forall in Hr. apply Hr, list_elem_of_In. subst kept. by apply list_elem_of_filter in Hy as [_ Hy]. }
    apply (after_snapshot w _ l'); try done. cbn. by destruct f.
  - cbn [usage_step]. destruct (stuck w); [done|]. unfold Reset.
    match goal with |- context [snapshotLocked t ?t0] => destruct (snapshot_bounded t t0) as (l' & t' & -> & H1 & H2 & H3); [done|] end.
    apply (after_snapshot w _ l'); try done. cbn. by destruct f.
  - cbn [usage_step]. destruct (stuck w); [done|]. destruct (handleUsageRecords limit owner (tr w)); [done|]. by apply Hsame.
  - cbn [usage_step]. unfold start, initTracker, bounded. cbn [tr under_way usage_file dirtyCount records].
    destruct (usage_file w) as [l|]; cbn [default from_option]; (split; [lia|split; [|split; [|split; [by constructor|done]]]]); try done.
    + destruct Hf as [Hf _]. unfold trackerMaxRecords in Hf. cbn [Datatypes.id]. lia.
    + by destruct Hf as [_ Hf].
Qed.

(** *** Archives *)

(** An archive takes exactly the records of before this month, under the name of the month before, and
    leaves the others; when it cannot be written nothing changes. *)
Theorem archive_splits now ok t :
  forallb encodable (records t) = true →
  let '(a, wr, t') := archiveUsage loc now ok t in
  match a with
  | None => t' = t ∧ wr = None ∧ (ok = true → Forall (λ r, archived loc now r = false) (records t))
  | Some (month, l) => ok = true ∧ month = month_before loc now ∧ Forall (λ r, archived loc now r = true) l ∧
      ∃ kept, l ++ kept ≡ₚ records t ∧ Forall (λ r, archived loc now r = false) kept ∧
        records t' = last_n trackerMaxRecords kept ∧ wr = Some (records t')
  end.
Proof.
  intros He. unfold archiveUsage. set (old := filter (λ r, archived loc now r = true) (records t)).
  set (kept := filter (λ r, archived loc now r = false) (records t)).
  assert (old ++ kept ≡ₚ records t) as Hp.
  { etrans; [|apply (filter_app_complement (λ r, archived loc now r = true) (records t))]. apply Permutation_app_head.
    subst kept. apply reflexive_eq, list_filter_iff. intros r. by destruct (archived loc now r). }
  assert (∀ r, r ∈ old ∨ r ∈ kept → encodable r = true) as Hen.
  { intros r Hr. rewrite forallb_forall in He. apply He, list_elem_of_In. rewrite <- Hp. by apply elem_of_app. }
  assert (Forall (λ r, archived loc now r = false) kept) as Hk by (apply Forall_forall; by intros r [? _]%list_elem_of_filter).
  assert (Forall (λ r, archived loc now r = true) old) as Ho by (apply Forall_forall; by intros r [? _]%list_elem_of_filter).
  destruct old as [|x l] eqn:Eo.
  { split_and!; [done|done|]. intros _. apply Forall_forall. intros r Hr. rewrite <- Hp in Hr. by apply (proj1 (Forall_forall _ kept) Hk). }
  rewrite <- Eo in *. destruct ok; cbn [negb]; [|by split_and!].
  assert (forallb encodable old = true) as -> by (apply forallb_forall; intros r Hr%list_elem_of_In; apply Hen; by left).
  unfold snapshotLocked. cbn [records].
  rewrite (last_n_encodable trackerMaxRecords kept) by (apply forallb_forall; intros r Hr%list_elem_of_In; apply Hen; by right).
  split_and!; [done|done|done|]. by exists kept.
Qed.

(** *** What consumers see *)

Definition own (owner : string) (l : list UsageRecord) : list UsageRecord := filter (λ r, Owner r = owner) l.

Lemma filter_own owner (l : list UsageRecord) : owner ≠ "" → filter (λ r, of_owner owner r = true) l = own owner l.
Proof.
  intros Ho. apply list_filter_iff. intros r. unfold of_owner. rewrite (bool_decide_eq_false_2 (owner = "")) by done. cbn [orb].
  apply bool_decide_eq_true.
Qed.
Lemma filter_view cutoff owner (l : list UsageRecord) :
  filter (λ r, in_view cutoff owner r = true) l = filter (λ r, before (stamp r) cutoff = false) (filter (λ r, of_owner owner r = true) l).
Proof.
  rewrite list_filter_filter. apply list_filter_iff. intros r. unfold in_view. rewrite andb_true_iff, negb_true_iff. tauto.
Qed.

(** A consumer's statistics, summary and pages of records depend on nothing but the calls recorded as its
    own. *)
Theorem consumer_sees_own_calls walk owner t t' :
  owner ≠ "" → own owner (records t) = own owner (records t') →
  (∀ now days, handleUsageProviders loc now days owner t = handleUsageProviders loc now days owner t') ∧
  (∀ now30 now1, handleUsageSummary loc walk now30 now1 owner t = handleUsageSummary loc walk now30 now1 owner t') ∧
  ∀ limit, handleUsageRecords limit owner t = handleUsageRecords limit owner t'.
Proof.
  intros Ho He.
  assert (∀ now days, ProviderStatsOwned loc now days owner t = ProviderStatsOwned loc now days owner t') as Hs.
  { intros now days. unfold ProviderStatsOwned. by rewrite !filter_view, !filter_own, He. }
  split_and!.
  - intros now days. unfold handleUsageProviders. by rewrite Hs.
  - intros now30 now1. unfold handleUsageSummary. rewrite !Hs. unfold CountOwned. by rewrite !filter_own, He.
  - intros limit. unfold handleUsageRecords. by rewrite !filter_own, He.
Qed.

(** *** The summary *)

Definition agg_sum (f : agg → Z) (m : gmap string agg) : Z := zsum (f <$> (map_to_list m).*2).

Lemma agg_sum_step (f : agg → Z) (g : UsageRecord → Z) l m :
  f new_agg = 0 → (∀ s r, f (agg_record s r) = f s +! g r) →
  wrap64 (agg_sum f (foldl agg_step m l)) = wrap64 (agg_sum f m + zsum (g <$> l)).
Proof.
  intros H0 Hs. revert m. induction l as [|r l IH]; intros m; [by rewrite Z.add_0_r|]. cbn [foldl]. rewrite IH, fmap_cons, zsum_cons.
  unfold agg_sum, agg_step. rewrite (map_zsum_insert f new_agg), Hs by done. set (x := f (default _ _)). set (y := zsum _). set (z := zsum _).
  replace (y - x + (x +! g r) + z) with ((x +! g r) + (y - x + z)) by lia. rewrite wrap64_add_l. f_equal. lia.
Qed.

Lemma totals_fst walk m :
  let '(n, tok, _) := totals walk m in n = wsum (s_request_count <$> walk m) ∧ tok = wsum (s_total_tokens <$> walk m).
Proof.
  unfold totals. induction (walk m) as [|s l IH] using rev_ind; [done|]. rewrite foldl_app, !fmap_app. cbn [foldl fmap list_fmap].
  destruct (foldl _ _ l) as [[n tok] c]. destruct IH as [-> ->]. by rewrite !wsum_app_singleton.
Qed.

Definition visible (now : Time) (days : Z) (owner : string) (t : Tracker) : list UsageRecord :=
  filter (λ r, in_view (GuestKeys.add_days loc now (- days)) owner r = true) (records t).

Lemma totals_visible walk now days owner t :
  (∀ m, walk m ≡ₚ (map_to_list m).*2) →
  let '(n, tok, _) := totals walk (ProviderStatsOwned loc now days owner t) in
  n = wrap64 (Z.of_nat (length (visible now days owner t))) ∧ tok = wsum (TotalTokens <$> visible now days owner t).
Proof.
  intros Hw. pose proof (totals_fst walk (ProviderStatsOwned loc now days owner t)) as Ht. destruct (totals _ _) as [[n tok] c]. destruct Ht as [-> ->].
  unfold ProviderStatsOwned. fold (visible now days owner t). set (l := visible now days owner t).
  assert (∀ (f : agg → Z) (h : ProviderStat → Z) g, (∀ s, h (stat_of s) = f s) → f new_agg = 0 → (∀ s r, f (agg_record s r) = f s +! g r) →
    wsum (h <$> walk (stat_of <$> foldl agg_step ∅ l)) = wrap64 (zsum (g <$> l))) as Hsum.
  { intros f h g Hh H0 Hs. rewrite wsum_zsum.
    assert (zsum (h <$> walk (stat_of <$> foldl agg_step ∅ l)) = agg_sum f (foldl agg_step ∅ l)) as ->; [|by rewrite (agg_sum_step f g)].
    assert (∀ l1 l2, l1 ≡ₚ l2 → zsum l1 = zsum l2) as Hz by (induction 1; rewrite ?zsum_cons; lia).
    unfold agg_sum. rewrite (Hz _ (h <$> (map_to_list (stat_of <$> foldl agg_step ∅ l)).*2)) by (by rewrite Hw).
    rewrite map_to_list_fmap, <- !list_fmap_compose. f_equal. apply list_fmap_ext. intros _ [k s] _. apply Hh. }
  split.
  - rewrite (Hsum a_count s_request_count (λ _, 1)) by done. f_equal. clear. induction l as [|r l IH]; [done|].
    rewrite fmap_cons, zsum_cons, IH. cbn [length]. lia.
  - by rewrite (Hsum a_totalTok s_total_tokens TotalTokens), wsum_zsum by done.
Qed.

(** The summary counts each call one sees once, and its tokens, in whatever order the providers are walked. *)
Theorem summary_counts walk now30 now1 owner t :
  (∀ m, walk m ≡ₚ (map_to_list m).*2) →
  let s := handleUsageSummary loc walk now30 now1 owner t in
  total_requests_30d s = wrap64 (Z.of_nat (length (visible now30 30 owner t))) ∧
  total_tokens_30d s = wsum (TotalTokens <$> visible now30 30 owner t) ∧
  today_requests s = wrap64 (Z.of_nat (length (visible now1 1 owner t))) ∧
  today_tokens s = wsum (TotalTokens <$> visible now1 1 owner t).
Proof.
  intros Hw. unfold handleUsageSummary. pose proof (totals_visible walk now30 30 owner t Hw) as H30. pose proof (totals_visible walk now1 1 owner t Hw) as H1.
  destruct (totals walk (ProviderStatsOwned loc now30 30 owner t)) as [[n30 tok30] c30].
  destruct (totals walk (ProviderStatsOwned loc now1 1 owner t)) as [[n1 tok1] c1]. tauto.
Qed.
End usage_safety.

(** ** A concrete tracker *)

Section demo.
Let call (p owner : string) (n : Z) (limit : option Z) : Call := {|
  c_ProviderID := p; c_ProviderName := p; c_Model := "gpt-4o"; c_PromptTokens := n; c_CompletionTokens := 0; c_LatencyMS := lit 125 1;
  c_Success := true; c_Error := ""; c_Stream := false; c_RetryCount := 0; c_AccessType := "private"; c_Owner := owner;
  c_TokenLimit := limit |}.
Let day (n : Z) : Time := (20454 + n) * 24 * hour.
Let run (h : list usage_op) : usage_world := usage_run UTC h (start (day 0) None ∅).

Example cost_and_latency :
  let t := tr (run [URecord (day 1) (call "openai" "c" 1000 None)]) in
  (CostUSD <$> records t, GetEWMA "openai" t) = ([lit 25 4], lit 125 1).
Proof. vm_compute. done. Qed.

(** Clearing the records leaves the tokens used and the alerts given; a write that was under way puts the
    cleared records back; a restart forgets which alerts were given. *)
Example reset_is_not_complete :
  let h := [URecord (day 1) (call "openai" "c" 900 (Some 1000)); UReset (day 1) true; UWrite 0 true] in
  (zget (tokenUsageByProvider (tr (run h))) "openai", length (records (tr (run h))), length <$> usage_file (run h),
   length (sent (run h))) = (900, 0%nat, Some 1%nat, 2%nat) ∧
  length (sent (run (h ++ [URestart (day 1); URecord (day 1) (call "openai" "c" 1 (Some 1000))]))) = 2%nat.
Proof. vm_compute. done. Qed.

(** Two writes under way may reach the file in the other order: the older one stays. *)
Example older_write_stays :
  let h := [URecord (day 1) (call "openai" "c" 1 None); URecord (day 2) (call "openai" "c" 2 None); UWrite 1 true; UWrite 0 true] in
  (length (records (tr (run h))), length <$> usage_file (run h), dirtyCount (tr (run h))) = (2%nat, Some 1%nat, 0).
Proof. vm_compute. done. Qed.

(** An archive under the name of a month that was not the one before, on the last days of a month. *)
Example month_before_runs_over :
  month_before UTC (days_from_civil 2026 3 31 * 24 * hour) = "2026-03" ∧ month_before UTC (days_from_civil 2026 3 1 * 24 * hour) = "2026-02".
Proof. vm_compute. done. Qed.

Lemma negative_limit_locks_witness :
  let w := start (day 0) None ∅ in
  let w' := usage_run UTC [URecords (Some (-1)) "consumer"; URecord (day 1) (call "openai" "c" 1 None)] w in
  tr w' = tr w ∧ stuck w' = true.
Proof. apply (negative_limit_locks UTC (-1) "consumer" [URecord (day 1) (call "openai" "c" 1 None)]); [done|done|by repeat constructor]. Defined.

Lemma tokens_are_exact_witness :
  zget (tokenUsageByProvider (tr (run [URecord (day 1) (call "openai" "c" 5 None); UReset (day 1) true]))) "openai" = 5.
Proof.
  unfold run. rewrite (tokens_are_exact UTC [URecord (day 1) (call "openai" "c" 5 None); UReset (day 1) true]);
    [reflexivity|done|by repeat constructor|vm_compute; by split].
Defined.

Lemma alerts_once_witness : NoDup (sent (run [URecord (day 1) (call "openai" "c" 900 (Some 1000)); URecord (day 1) (call "openai" "c" 1 (Some 1000))])).
Proof. apply alerts_once. by repeat constructor. Defined.

Lemma records_are_bounded_witness : bounded (run [URecord (day 1) (call "openai" "c" 1 None); UWrite 0 true; URestart (day 2)]).
Proof. apply records_are_bounded. repeat constructor. Defined.

Lemma consumer_sees_own_calls_witness :
  handleUsageRecords None "c" (tr (run [URecord (day 1) (call "openai" "c" 1 None); URecord (day 1) (call "openai" "d" 2 None)])) =
  handleUsageRecords None "c" (tr (run [URecord (day 1) (call "openai" "c" 1 None)])).
Proof. apply (consumer_sees_own_calls UTC (λ m, (map_to_list m).*2)); [done|by vm_compute]. Defined.
End demo.
