(* ===== verification/Metrics.v ===== *)
(** * Metrics and connections (metrics.go, conn_tracker.go)

    Counters per model and provider under a read-write lock, the page of metrics, and the counters of
    open connections. The text of the page is the list of its numbers. *)

From S2P Require Import Prelude.

(** ** Metrics *)

Record Metrics := {
  requestTotal : Z; requestErrors : Z; requestByModel : gmap string Z; requestByProvider : gmap string Z;
  latencySum : gmap string Z; latencyCount : gmap string Z; tokenUsage : Z }.
Definition initMetrics : Metrics := {|
  requestTotal := 0; requestErrors := 0; requestByModel := ∅; requestByProvider := ∅; latencySum := ∅; latencyCount := ∅;
  tokenUsage := 0 |}.

(** The lock, seen from outside: free, held for ever by readers, or with a writer waiting for those. *)
Inductive lock_state := Free | ReadForever | WriterWaits.
#[export] Instance lock_state_eq_dec : EqDecision lock_state.
Proof. solve_decision. Defined.
Record metrics_state := { ms : Metrics; lock : lock_state }.

(** One counter: a known key is looked up under the read lock, a new one is made under the write lock.
    [None] when the request waits for ever. *)
Definition bump (k : string) (v : Z) (m : gmap string Z) (l : lock_state) : option (gmap string Z) * lock_state :=
  match l with
  | WriterWaits => (None, WriterWaits)
  | ReadForever => match m !! k with Some _ => (Some (zincr k v m), l) | None => (None, WriterWaits) end
  | Free => (Some (zincr k v m), Free)
  end.

Definition count_request (success : bool) (m : Metrics) : Metrics := {|
  requestTotal := requestTotal m +! 1; requestErrors := if success then requestErrors m else requestErrors m +! 1;
  requestByModel := requestByModel m; requestByProvider := requestByProvider m; latencySum := latencySum m;
  latencyCount := latencyCount m; tokenUsage := tokenUsage m |}.
Definition with_models (x : gmap string Z) (m : Metrics) : Metrics := {|
  requestTotal := requestTotal m; requestErrors := requestErrors m; requestByModel := x; requestByProvider := requestByProvider m;
  latencySum := latencySum m; latencyCount := latencyCount m; tokenUsage := tokenUsage m |}.
Definition with_providers (x : gmap string Z) (m : Metrics) : Metrics := {|
  requestTotal := requestTotal m; requestErrors := requestErrors m; requestByModel := requestByModel m; requestByProvider := x;
  latencySum := latencySum m; latencyCount := latencyCount m; tokenUsage := tokenUsage m |}.
Definition with_latency (x y : gmap string Z) (m : Metrics) : Metrics := {|
  requestTotal := requestTotal m; requestErrors := requestErrors m; requestByModel := requestByModel m;
  requestByProvider := requestByProvider m; latencySum := x; latencyCount := y; tokenUsage := tokenUsage m |}.
Definition with_tokens (n : Z) (m : Metrics) : Metrics := {|
  requestTotal := requestTotal m; requestErrors := requestErrors m; requestByModel := requestByModel m;
  requestByProvider := requestByProvider m; latencySum := latencySum m; latencyCount := latencyCount m; tokenUsage := n |}.

Definition add_tokens (tokens : Z) (m : Metrics) : Metrics := if 0 <? tokens then with_tokens (tokenUsage m +! tokens) m else m.

Definition record_latency (pid : string) (latencyMS : Z) (m : Metrics) (l : lock_state) : option Metrics * lock_state :=
  if (0 <? latencyMS) && negb (bool_decide (pid = "")) then
    match l with
    | WriterWaits => (None, WriterWaits)
    | _ =>
        let known := bool_decide (is_Some (latencySum m !! pid)) && bool_decide (is_Some (latencyCount m !! pid)) in
        if bool_decide (l = ReadForever) && negb known then (None, WriterWaits)
        else (Some (with_latency (zincr pid latencyMS (latencySum m)) (zincr pid 1 (latencyCount m)) m), l)
    end
  else (Some m, l).

(** [false] when the call never returns. *)
Definition RecordRequest (model pid : string) (latencyMS : Z) (success : bool) (tokens : Z) (s : metrics_state) : bool * metrics_state :=
  let m := count_request success (ms s) in
  match bump model 1 (requestByModel m) (lock s) with
  | (None, l) => (false, {| ms := m; lock := l |})
  | (Some x, l) =>
      let m := with_models x m in
      match bump pid 1 (requestByProvider m) l with
      | (None, l) => (false, {| ms := m; lock := l |})
      | (Some x, l) =>
          let m := with_providers x m in
          match record_latency pid latencyMS m l with
          | (None, l) => (false, {| ms := m; lock := l |})
          | (Some m, l) => (true, {| ms := add_tokens tokens m; lock := l |})
          end
      end
  end.

(** The numbers of the page per provider: [None] for a provider without a counter of latencies, whose
    missing counter is read. *)
Definition provider_line (m : Metrics) (pid : string) : option (string * Z * Z) :=
  match latencySum m !! pid with
  | None => None
  | Some sum => Some (pid, sum, zget (latencyCount m) pid)
  end.
Definition provider_lines (m : Metrics) : option (list (string * Z * Z)) :=
  mapM (provider_line m) (sort_slice str_ltb (map_to_list (requestByProvider m)).*1).

Inductive page_outcome := Page (requests errors tokens : Z) (lines : list (string * Z * Z)) | Panicked | Waits.
Definition handleMetrics (s : metrics_state) : page_outcome * metrics_state :=
  match lock s with
  | WriterWaits => (Waits, s)
  | _ =>
      let m := ms s in
      match provider_lines m with
      | Some lines => (Page (requestTotal m) (requestErrors m) (tokenUsage m) lines, s)
      | None => (Panicked, {| ms := m; lock := ReadForever |})
      end
  end.

(** ** Connections *)

(** The map from providers to counters, and the counters; a counter that is no longer in the map may
    still be held. *)
Record conns := { cells : gmap string nat; counts : list Z }.
Definition no_conns : conns := {| cells := ∅; counts := [] |}.

Definition add_at (i : nat) (v : Z) (c : conns) : conns := {| cells := cells c; counts := alter (λ n, n +! v) i (counts c) |}.
(** [LoadOrStore]: a new counter starts with one; a known one is returned, to be added to. *)
Definition load_or_store (p : string) (c : conns) : option nat * conns :=
  match cells c !! p with
  | Some i => (Some i, c)
  | None => (None, {| cells := <[p := length (counts c)]> (cells c); counts := counts c ++ [1] |})
  end.
Definition IncrProviderConn (p : string) (c : conns) : conns :=
  match load_or_store p c with (Some i, c) => add_at i 1 c | (None, c) => c end.
Definition DecrProviderConn (p : string) (c : conns) : conns :=
  match cells c !! p with Some i => add_at i (-1) c | None => c end.
Definition GetProviderConns (p : string) (c : conns) : Z :=
  match cells c !! p with Some i => Z.max 0 (default 0 (counts c !! i)) | None => 0 end.
Definition cleanupStaleProviderConns (c : conns) : conns :=
  {| cells := filter (λ kv, 0 < default 0 (counts c !! kv.2)) (cells c); counts := counts c |}.

(** Guest connections are one counter, made by the first. *)
Definition IncrGuestConn (g : option Z) : option Z := match g with Some n => Some (n +! 1) | None => Some 1 end.
Definition DecrGuestConn (g : option Z) : option Z := (λ n, n +! -1) <$> g.
Definition GetGuestConns (g : option Z) : Z := match g with Some n => if n <? 0 then 0 else n | None => 0 end.

Definition IncrConn (p accessType : string) (c : conns * option Z) : conns * option Z :=
  (IncrProviderConn p c.1, if bool_decide (accessType = "guest") then IncrGuestConn c.2 else c.2).
Definition DecrConn (p accessType : string) (c : conns * option Z) : conns * option Z :=
  (DecrProviderConn p c.1, if bool_decide (accessType = "guest") then DecrGuestConn c.2 else c.2).

(** ** What the metrics guarantee *)

Inductive metrics_op := MRecord (model pid : string) (latencyMS : Z) (success : bool) (tokens : Z) | MPage.
Definition metrics_step (s : metrics_state) (o : metrics_op) : metrics_state :=
  match o with
  | MRecord model pid lat ok tok => (RecordRequest model pid lat ok tok s).2
  | MPage => (handleMetrics s).2
  end.
Definition metrics_run (h : list metrics_op) : metrics_state := foldl metrics_step {| ms := initMetrics; lock := Free |} h.

Definition calls (pid : string) (o : metrics_op) : bool := match o with MRecord _ p _ _ _ => bool_decide (p = pid) | _ => false end.
Definition timed (pid : string) (o : metrics_op) : bool :=
  match o with MRecord _ p lat _ _ => bool_decide (p = pid) && (0 <? lat) && negb (bool_decide (p = "")) | _ => false end.
Definition is_record (o : metrics_op) : bool := match o with MRecord _ _ _ _ _ => true | MPage => false end.

Lemma zincr_is_Some (m : gmap string Z) k v j : is_Some (zincr k v m !! j) ↔ j = k ∨ is_Some (m !! j).
Proof.
  unfold zincr. destruct (decide (k = j)) as [<-|Hne]; [rewrite lookup_insert_eq; naive_solver|rewrite lookup_insert_ne by done; naive_solver].
Qed.

(** What is recorded while the lock is free: every provider called is counted, those with a measured
    latency also there. *)
Definition seen (h : list metrics_op) (s : metrics_state) : Prop :=
  lock s = Free ∧ ∀ pid,
    (is_Some (requestByProvider (ms s) !! pid) ↔ existsb (calls pid) h = true) ∧
    (is_Some (latencySum (ms s) !! pid) ↔ existsb (timed pid) h = true) ∧
    (is_Some (latencyCount (ms s) !! pid) ↔ existsb (timed pid) h = true).

Lemma seen_record h s model pid lat ok tok :
  seen h s → seen (h ++ [MRecord model pid lat ok tok]) (metrics_step s (MRecord model pid lat ok tok)).
Proof.
  intros [Hl Hs]. cbn [metrics_step]. unfold RecordRequest. rewrite Hl. cbn [bump].
  set (m := with_providers _ _).
  assert (record_latency pid lat m Free =
    (Some (if (0 <? lat) && negb (bool_decide (pid = "")) then with_latency (zincr pid lat (latencySum m)) (zincr pid 1 (latencyCount m)) m else m), Free)) as ->.
  { unfold record_latency. destruct (_ && _); [|done]. by rewrite (bool_decide_eq_false_2 (Free = ReadForever)). }
  cbn [snd]. split; [done|]. intros q. cbn [ms]. rewrite !existsb_app. cbn [existsb calls timed]. rewrite !orb_false_r, !orb_true_iff.
  specialize (Hs q). rewrite <- (proj1 Hs), <- (proj1 (proj2 Hs)). destruct Hs as (_ & E2 & E3).
  set (m1 := if (0 <? lat) && _ then _ else m).
  assert (requestByProvider (add_tokens tok m1) = zincr pid 1 (requestByProvider (ms s))) as ->.
  { unfold add_tokens, m1. by destruct (0 <? tok), ((0 <? lat) && negb (bool_decide (pid = ""))). }
  assert (latencySum (add_tokens tok m1) = if (0 <? lat) && negb (bool_decide (pid = "")) then zincr pid lat (latencySum (ms s)) else latencySum (ms s)) as ->.
  { unfold add_tokens, m1. by destruct (0 <? tok), ((0 <? lat) && negb (bool_decide (pid = ""))). }
  assert (latencyCount (add_tokens tok m1) = if (0 <? lat) && negb (bool_decide (pid = "")) then zincr pid 1 (latencyCount (ms s)) else latencyCount (ms s)) as ->.
  { unfold add_tokens, m1. by destruct (0 <? tok), ((0 <? lat) && negb (bool_decide (pid = ""))). }
  assert (is_Some (latencyCount (ms s) !! q) ↔ is_Some (latencySum (ms s) !! q)) as E4 by (by rewrite E2, E3).
  split; [rewrite zincr_is_Some, bool_decide_eq_true; naive_solver|].
  destruct (0 <? lat), (bool_decide_reflect (pid = "")) as [->|]; cbn [andb negb]; rewrite ?zincr_is_Some, ?andb_true_iff, ?bool_decide_eq_true;
    naive_solver.
Qed.

Lemma records_seen h : Forall (λ o, is_record o = true) h → seen h (metrics_run h).
Proof.
  induction h as [|o h IH] using rev_ind; intros Hh.
  { split; [done|]. intros pid. cbn. rewrite !lookup_empty. split_and!; try done; by intros [? ?]. }
  apply Forall_app in Hh as [Hh [Ho _]%Forall_cons]. specialize (IH Hh). unfold metrics_run. rewrite foldl_app. cbn [foldl]. fold (metrics_run h).
  destruct o; [|done]. by apply seen_record.
Qed.

(** The page panics exactly when some provider was called and none of its calls took a measurable time:
    when all of them failed within a millisecond, say. The lock is then held for ever. *)
Theorem page_panics h :
  Forall (λ o, is_record o = true) h →
  (handleMetrics (metrics_run h)).1 = Panicked ↔ ∃ pid, existsb (calls pid) h = true ∧ existsb (timed pid) h = false.
Proof.
  intros Hh. destruct (records_seen h Hh) as [Hl Hs]. unfold handleMetrics. rewrite Hl.
  set (m := ms (metrics_run h)) in *. unfold provider_lines.
  destruct (mapM (provider_line m) _) as [lines|] eqn:E.
  - split; [done|]. intros (pid & Hc & Ht). exfalso. apply mapM_Some in E.
    assert (pid ∈ sort_slice str_ltb (map_to_list (requestByProvider m)).*1) as Hin.
    { rewrite sort_slice_perm. destruct (proj2 (proj1 (Hs pid)) Hc) as [n Hn]. apply list_elem_of_fmap. exists (pid, n). split; [done|]. by apply elem_of_map_to_list. }
    apply list_elem_of_lookup in Hin as [i Hi]. destruct (Forall2_lookup_l _ _ _ _ _ E Hi) as (y & _ & Hy).
    unfold provider_line in Hy. destruct (latencySum m !! pid) eqn:El; [|done]. 
    assert (existsb (timed pid) h = true) by (apply (proj1 (proj2 (Hs pid))); by rewrite El). congruence.
  - split; [|done]. intros _. apply mapM_None_1 in E. apply Exists_exists in E as (pid & Hin & Hp). exists pid. unfold provider_line in Hp.
    destruct (latencySum m !! pid) eqn:El; [done|]. rewrite sort_slice_perm in Hin.
    apply list_elem_of_fmap in Hin as ([k n] & -> & Hk%elem_of_map_to_list). cbn in *. split; [apply (proj1 (Hs k)); by rewrite Hk|].
    apply not_true_iff_false. intros Ht. apply (proj1 (proj2 (Hs k))) in Ht. rewrite El in Ht. by destruct Ht.
Qed.

(** After that the first request for a new model never returns, and none after it does. *)
Theorem panic_stops_requests s model pid lat ok tok :
  lock s = ReadForever → requestByModel (ms s) !! model = None →
  let '(returned, s') := RecordRequest model pid lat ok tok s in
  returned = false ∧ ∀ model' pid' lat' ok' tok', let '(returned', s'') := RecordRequest model' pid' lat' ok' tok' s' in
    returned' = false ∧ lock s'' = WriterWaits ∧ handleMetrics s'' = (Waits, s'').
Proof.
  intros Hl Hm. unfold RecordRequest. rewrite Hl. cbn [bump count_request requestByModel]. rewrite Hm. split; [done|].
  intros model' pid' lat' ok' tok'. cbn [lock ms bump]. by split_and!.
Qed.

(** ** What the counters of connections guarantee *)

Inductive conn_op := COpen (p : string) | CClose (p : string) | CClean.
Definition conn_step (c : conns) (o : conn_op) : conns :=
  match o with COpen p => IncrProviderConn p c | CClose p => DecrProviderConn p c | CClean => cleanupStaleProviderConns c end.
Definition conn_run (h : list conn_op) : conns := foldl conn_step no_conns h.

Definition moves (p : string) (o : conn_op) : Z :=
  match o with COpen q => if bool_decide (q = p) then 1 else 0 | CClose q => if bool_decide (q = p) then -1 else 0 | CClean => 0 end.
Definition open_conns (p : string) (h : list conn_op) : Z := zsum (moves p <$> h).
(** Every connection that is closed was opened before. *)
Definition bracketed (h : list conn_op) : Prop := ∀ p k, 0 ≤ open_conns p (take k h).

Definition conns_ok (h : list conn_op) (c : conns) : Prop :=
  (∀ p q i, cells c !! p = Some i → cells c !! q = Some i → p = q) ∧
  ∀ p, match cells c !! p with Some i => counts c !! i = Some (open_conns p h) | None => open_conns p h = 0 end.

Lemma open_conns_snoc p h o : open_conns p (h ++ [o]) = open_conns p h + moves p o.
Proof. unfold open_conns. rewrite fmap_app, zsum_app. cbn. lia. Qed.

Lemma open_bound p h : Z.abs (open_conns p h) ≤ Z.of_nat (length h).
Proof.
  induction h as [|o h IH] using rev_ind; [done|]. rewrite open_conns_snoc, length_app. cbn.
  assert (Z.abs (moves p o) ≤ 1) by (destruct o; cbn; try case_bool_decide; lia). lia.
Qed.

Lemma add_ok h c p i v o :
  conns_ok h c → cells c !! p = Some i → (∀ q, moves q o = if bool_decide (p = q) then v else 0) →
  is_int64 (open_conns p h + v) → conns_ok (h ++ [o]) (add_at i v c).
Proof.
  intros [Hinj Hc] Hi Hm Hr. split; [done|]. intros q. cbn [add_at cells counts]. pose proof (Hc q) as Hq. rewrite open_conns_snoc, Hm.
  destruct (cells c !! q) as [j|] eqn:Ej.
  - case_bool_decide as E.
    + subst q. assert (j = i) as -> by congruence. rewrite list_lookup_alter_eq, Hq. cbn. by rewrite wrap64_id.
    + rewrite list_lookup_alter_ne, Z.add_0_r; [done|]. intros ->. by apply E, (Hinj _ _ j).
  - rewrite bool_decide_eq_false_2, Z.add_0_r by (intros ->; congruence). done.
Qed.

(** The counters show exactly the open connections, wherever the cleanup runs in between. *)
Theorem connections_are_exact h p :
  bracketed h → Z.of_nat (length h) < 2 ^ 63 → GetProviderConns p (conn_run h) = open_conns p h.
Proof.
  intros Hb Hn. assert (conns_ok h (conn_run h)) as [_ Hc].
  { induction h as [|o h IH] using rev_ind; [split; [by intros q1 q2 i|by intros q]|].
    rewrite length_app in Hn. cbn in Hn.
    assert (bracketed h) as Hbh.
    { intros q k. destruct (decide (k ≤ length h)%nat); [specialize (Hb q k); by rewrite take_app_le in Hb|].
      rewrite take_ge by lia. specialize (Hb q (length h)). by rewrite take_app_length in Hb. }
    specialize (IH Hbh ltac:(lia)). unfold conn_run. rewrite foldl_app. cbn [foldl]. fold (conn_run h). set (c := conn_run h) in *.
    assert (∀ q v, -1 ≤ v ≤ 1 → is_int64 (open_conns q h + v)) as Hr.
    { intros q v Hv. pose proof (open_bound q h). unfold is_int64, int64_min, int64_max. lia. }
    destruct IH as [Hinj Hc]. destruct o as [q|q|]; cbn [conn_step].
    - unfold IncrProviderConn, load_or_store. pose proof (Hc q) as Hq. destruct (cells c !! q) as [i|] eqn:E.
      + apply (add_ok h c q i 1); [done|done|done|apply Hr; lia].
      + split.
        * cbn [cells]. intros x y i. rewrite !lookup_insert_Some. intros [[<- <-]|[Hx1 Hx]] [[<- Hi]|[Hy1 Hy]]; [done| | |by apply (Hinj _ _ i)].
          -- exfalso. pose proof (Hc y) as Hyy. rewrite Hy in Hyy. apply lookup_lt_Some in Hyy. lia.
          -- exfalso. pose proof (Hc x) as Hxx. rewrite Hx in Hxx. apply lookup_lt_Some in Hxx. lia.
        * intros x. cbn [cells counts]. rewrite open_conns_snoc. cbn [moves]. destruct (decide (q = x)) as [<-|Hne].
          -- rewrite lookup_insert_eq, bool_decide_eq_true_2, Hq by done. by rewrite list_lookup_middle.
          -- rewrite lookup_insert_ne, bool_decide_eq_false_2, Z.add_0_r by done. pose proof (Hc x) as Hx.
             destruct (cells c !! x) as [j|]; [|done]. by apply lookup_app_l_Some.
    - unfold DecrProviderConn. destruct (cells c !! q) as [i|] eqn:E; [apply (add_ok h c q i (-1)); [done|done|done|apply Hr; lia]|].
      exfalso. pose proof (Hc q) as Hq. rewrite E in Hq. specialize (Hb q (length (h ++ [CClose q]))).
      rewrite firstn_all, open_conns_snoc in Hb. cbn [moves] in Hb. rewrite bool_decide_eq_true_2 in Hb by done. lia.
    - split; cbn [cleanupStaleProviderConns cells counts].
      + intros x y i [Hx _]%map_lookup_filter_Some [Hy _]%map_lookup_filter_Some. by apply (Hinj _ _ i).
      + intros x. rewrite open_conns_snoc, Z.add_0_r. pose proof (Hc x) as Hx. rewrite map_lookup_filter. destruct (cells c !! x) as [i|]; cbn; [|done].
        case_guard as G; cbn in *; [done|]. rewrite Hx in G. cbn in G. specialize (Hbh x (length h)). rewrite firstn_all in Hbh. lia. }
  unfold GetProviderConns. specialize (Hc p). destruct (cells (conn_run h) !! p) as [i|]; [|done]. rewrite Hc. cbn [default from_option].
  specialize (Hb p (length h)). rewrite firstn_all in Hb. cbn [Datatypes.id]. lia.
Qed.

(** The cleanup may run between the look at a counter and the addition to it: the connection is then not
    counted, and closing it takes away another one. *)
Example connection_is_lost :
  let c := DecrProviderConn "p" (IncrProviderConn "p" no_conns) in
  let '(cell, c) := load_or_store "p" c in
  let c := add_at (default 0%nat cell) 1 (cleanupStaleProviderConns c) in
  GetProviderConns "p" c = 0 ∧ GetProviderConns "p" (DecrProviderConn "p" (IncrProviderConn "p" c)) = 0.
Proof. vm_compute. done. Qed.

Lemma page_panics_witness : (handleMetrics (metrics_run [MRecord "m" "p" 0 false 0])).1 = Panicked.
Proof. apply page_panics; [by repeat constructor|]. by exists "p". Defined.

Lemma panic_stops_requests_witness :
  (RecordRequest "new" "p" 5 true 1 (metrics_run [MRecord "m" "p" 0 false 0; MPage])).1 = false.
Proof.
  pose proof (panic_stops_requests (metrics_run [MRecord "m" "p" 0 false 0; MPage]) "new" "p" 5 true 1 eq_refl eq_refl) as H.
  destruct (RecordRequest _ _ _ _ _ _). by destruct H.
Defined.

Lemma connections_are_exact_witness : GetProviderConns "p" (conn_run [COpen "p"; CClean; COpen "p"; CClose "p"; CClean]) = 1.
Proof.
  rewrite connections_are_exact; [reflexivity| |by vm_compute]. intros p k.
  do 6 (destruct k as [|k]; [cbn; repeat case_bool_decide; vm_compute; discriminate|]). cbn. repeat case_bool_decide; vm_compute; discriminate.
Defined.
