(* ===== verification/Config.v ===== *)
(** * The configuration (config.go, admin.go)

    A map of settings with environment variables behind it, written to config.json by a writer that waits
    three seconds for more changes. The writer, the callers of [Set] and the direct saves are steps of one
    machine. JSON, the key of the file and environment variables are parameters. *)

From S2P Require Import Prelude GoTime Bytes Providers Integrity.
From S2P Require Registry.

(** ** Settings *)

(** A value is a string, another value JSON has, as its text, or a value it has not (a function, a
    channel, a structure). *)
Inductive setting := VStr (s : string) | VJson (text : string) | VUnserialisable.
Notation settings := (gmap string setting).

#[export] Instance setting_eq_dec : EqDecision setting.
Proof. solve_decision. Defined.

Definition envMap : list (string * string) :=
  [("coze_api_token", "COZE_API_TOKEN"); ("coze_bot_id", "COZE_BOT_ID"); ("service_port", "PORT");
   ("secret_backend", "OPENMODELPOOL_SECRET_BACKEND")].
Definition sensitiveKeys : list string := ["proxy_api_key"; "coze_api_token"; "cf_api_token"; "cf_zone_id"].

(** [os.Getenv] is an argument. The file, then the environment, then the default. *)
Definition Get (Getenv : string → string) (key def : string) (data : settings) : string :=
  let from_env :=
    let v := Getenv (default (to_upper key) (snd <$> find_key fst key envMap)) in if bool_decide (v = "") then def else v in
  match data !! key with
  | Some (VStr s) => if bool_decide (s = "") then from_env else s
  | _ => from_env
  end.

Definition validateConfigValue (v : setting) : bool := match v with VUnserialisable => false | _ => true end.

Definition touch (now : string) (data : settings) : settings := <["updated_at" := VStr now]> data.
(** What [Set] and [SetMany] do to the data; [now] is the time as text. *)
Definition set_one (now key : string) (v : setting) (data : settings) : option settings :=
  if validateConfigValue v then Some (touch now (<[key := v]> data)) else None.
Definition set_many (now : string) (m : settings) (data : settings) : settings :=
  touch now (filter (λ kv : string * setting, kv.1 ≠ "" ∧ validateConfigValue kv.2 = true) m ∪ data).

Definition maskToken (s : string) : string :=
  if (String.length s <? 12)%nat then "***"
  else String.substring 0 6 s +:+ "..." +:+ String.substring (String.length s - 4) 4 s.
Definition mask_key (out : settings) (key : string) : settings :=
  match out !! key with
  | Some (VStr tok) => if bool_decide (tok = "") then out else delete key (<[key +:+ "_masked" := VStr (maskToken tok)]> out)
  | _ => out
  end.
Definition Masked (data : settings) : settings := foldl mask_key data ["coze_api_token"; "proxy_api_key"].

(** ** The file *)

Section config.
Context `{Encryptor}.
Context (MarshalIndent : settings → option bytes) (Unmarshal : bytes → option settings) (is_json : bytes → bool).
Context (enc : enc_key).

Definition map_key (f : string → string) (data : settings) (key : string) : settings :=
  match data !! key with Some (VStr v) => <[key := VStr (f v)]> data | _ => data end.
Definition safe_copy (data : settings) : settings := foldl (map_key encrypt_if) data sensitiveKeys.
Definition opened (data : settings) : settings := foldl (map_key decrypt_if) data sensitiveKeys.

(** [writes] says whether directory and file can be written. *)
Definition doSave (writes : bool) (data : settings) (file : option bytes) : option bytes :=
  (saveWithIntegrity MarshalIndent enc writes (safe_copy data) file).2.

Fixpoint first_brace (i : nat) (b : bytes) : option nat :=
  match b with [] => None | c :: b => if c =? 123 then Some i else first_brace (S i) b end.
Definition load (file : option bytes) : settings :=
  opened
    match loadWithIntegrity Unmarshal is_json enc file with
    | Loaded v => v
    | NotThere => ∅
    | _ =>
        match file with
        | None => ∅
        | Some b =>
            match Unmarshal b with
            | Some v => v
            | None => match first_brace 0 b with
                      | Some (S i) => default ∅ (Unmarshal (drop (S i) b))
                      | _ => ∅
                      end
            end
        end
    end.

(** ** The writer and its callers *)

Inductive writer_state := Idle | Window | Drained | Final | Done.

(** [marking] and [signalling] count the callers of [Set] that have changed the data and not yet marked it
    dirty, and those that have and not yet sent the signal; [syncing] are the copies direct saves are
    writing. *)
Record Config := {
  data : settings; dirty : bool; signal : bool; stopping : bool; writer : writer_state; marking : nat; signalling : nat;
  syncing : list settings; file : option bytes }.

Definition initConfig (f : option bytes) : Config :=
  {| data := load f; dirty := false; signal := false; stopping := false; writer := Idle; marking := 0; signalling := 0; syncing := [];
     file := f |}.

Inductive config_op :=
| CSet (now key : string) (v : setting) | CSetMany (now : string) (m : settings) | CMark | CSignal
| CReceive | CTimer | CFlush (writes : bool) | CStop | CStopSeen
| CSyncTake | CSyncWrite (i : nat) (writes : bool) | CRestart.

Definition changed (d : settings) (c : Config) : Config :=
  {| data := d; dirty := dirty c; signal := signal c; stopping := stopping c; writer := writer c; marking := S (marking c);
     signalling := signalling c; syncing := syncing c; file := file c |}.
Definition with_writer (w : writer_state) (sig : bool) (c : Config) : Config :=
  {| data := data c; dirty := dirty c; signal := sig; stopping := stopping c; writer := w; marking := marking c;
     signalling := signalling c; syncing := syncing c; file := file c |}.
Definition flush_to (w : writer_state) (writes : bool) (c : Config) : Config :=
  {| data := data c; dirty := false; signal := signal c; stopping := stopping c; writer := w; marking := marking c;
     signalling := signalling c; syncing := syncing c; file := if dirty c then doSave writes (data c) (file c) else file c |}.

(** One step; a step that cannot be made changes nothing. *)
Definition config_step (c : Config) (o : config_op) : Config :=
  match o with
  | CSet now key v => match set_one now key v (data c) with Some d => changed d c | None => c end
  | CSetMany now m => changed (set_many now m (data c)) c
  | CMark =>
      match marking c with
      | O => c
      | S n => {| data := data c; dirty := true; signal := signal c; stopping := stopping c; writer := writer c; marking := n;
                  signalling := S (signalling c); syncing := syncing c; file := file c |}
      end
  | CSignal =>
      match signalling c with
      | O => c
      | S n => {| data := data c; dirty := dirty c; signal := true; stopping := stopping c; writer := writer c; marking := marking c;
                  signalling := n; syncing := syncing c; file := file c |}
      end
  | CReceive => match writer c with Idle => if signal c then with_writer Window false c else c | _ => c end
  | CTimer => match writer c with Window => with_writer Drained false c | _ => c end
  | CFlush writes => match writer c with Drained => flush_to Idle writes c | Final => flush_to Done writes c | _ => c end
  | CStop => {| data := data c; dirty := dirty c; signal := signal c; stopping := true; writer := writer c; marking := marking c;
                signalling := signalling c; syncing := syncing c; file := file c |}
  | CStopSeen => match writer c with
                 | Idle | Window => if stopping c then with_writer Final (signal c) c else c
                 | _ => c
                 end
  | CSyncTake => {| data := data c; dirty := false; signal := signal c; stopping := stopping c; writer := writer c; marking := marking c;
                    signalling := signalling c; syncing := syncing c ++ [data c]; file := file c |}
  | CSyncWrite i writes =>
      match syncing c !! i with
      | None => c
      | Some d => {| data := data c; dirty := dirty c; signal := signal c; stopping := stopping c; writer := writer c;
                     marking := marking c; signalling := signalling c; syncing := delete i (syncing c);
                     file := doSave writes d (file c) |}
      end
  | CRestart => initConfig (file c)
  end.
Definition config_run (h : list config_op) (c : Config) : Config := foldl config_step c h.

(** ** The handler of the settings page *)

(** Whether a text is an http or https URL with a host. *)
Context (valid_url : string → bool).

Definition genericKeys : list string :=
  ["public_url"; "service_port"; "node_name"; "region"; "capability_probe_enabled"; "capability_probe_tick";
   "capability_probe_max_models"; "capability_probe_concurrency"].
Definition bad_value (k v : string) : bool :=
  if bool_decide (k = "service_port") then match parse_int64 v with Some p => (p <? 1) || (65535 <? p) | None => true end
  else if bool_decide (k = "public_url") then negb (bool_decide (v = "")) && negb (valid_url v)
  else false.
(** The generic settings of a request, [None] at the first bad one. *)
Definition generic_update (body : gmap string string) : option settings :=
  foldl (λ acc k, match acc with
                  | None => None
                  | Some u => match body !! k with
                              | None => Some u
                              | Some v => if bad_value k v then None else Some (<[k := VStr v]> u)
                              end
                  end) (Some ∅) genericKeys.
Definition take_nonempty (body : gmap string string) (u : settings) (k : string) : settings :=
  match body !! k with Some v => if bool_decide (v = "") then u else <[k := VStr v]> u | None => u end.
Definition clears_key (body : gmap string string) : bool := bool_decide (body !! "proxy_api_key" = Some "").

(** The status, the data, and whether the cached own addresses are dropped. *)
Definition handleSaveConfig (now : string) (body : option (gmap string string)) (d : settings) : Z * settings * bool :=
  match body with
  | None => (400, d, false)
  | Some body =>
      let d := if clears_key body then touch now (delete "proxy_api_key" d) else d in
      match generic_update body with
      | None => (400, d, false)
      | Some generic =>
          let update := generic ∪ foldl (take_nonempty body) ∅ ["coze_api_token"; "coze_bot_id"; "proxy_api_key"] in
          if bool_decide (update = ∅) && bool_decide (default "" (body !! "proxy_api_key") = "") then (200, d, false)
          else if bool_decide (update = ∅) then (400, d, false)
          else (200, set_many now update d,
                bool_decide (is_Some (update !! "public_url")) || bool_decide (is_Some (update !! "service_port")))
      end
  end.

(** ** What the configuration guarantees *)

(** An opened seal is what was sealed; JSON that is written is read back; every serialisable map can be
    written. *)
Hypothesis seal_law : ∀ s c, seal s = Some c → IsEncrypted c = true ∧ unseal c = Some s.
Hypothesis json_law : ∀ v t, MarshalIndent v = Some t → Unmarshal t = Some v ∧ is_json t = true.
Hypothesis marshal_law : ∀ v, map_Forall (λ _ x, validateConfigValue x = true) v → is_Some (MarshalIndent v).

(** No sensitive setting looks sealed, and all values are serialisable. *)
Definition clean (d : settings) : Prop :=
  map_Forall (λ k v, validateConfigValue v = true ∧ (k ∈ sensitiveKeys → ∀ s, v = VStr s → IsEncrypted s = false)) d.

Lemma map_key_lookup f k d j :
  map_key f d k !! j = if bool_decide (j = k) then (λ v, match v with VStr s => VStr (f s) | _ => v end) <$> d !! j else d !! j.
Proof.
  unfold map_key. case_bool_decide as E.
  - subst. destruct (d !! k) as [[s|t|]|] eqn:E; [by rewrite lookup_insert_eq|by rewrite ?E..].
  - destruct (d !! k) as [[s|t|]|]; rewrite ?lookup_insert_ne by congruence; done.
Qed.
Lemma map_keys_lookup f ks d j :
  NoDup ks → foldl (map_key f) d ks !! j = if bool_decide (j ∈ ks) then (λ v, match v with VStr s => VStr (f s) | _ => v end) <$> d !! j else d !! j.
Proof.
  intros Hn. revert d. induction Hn as [|k ks Hk Hn IH]; intros d; [by rewrite bool_decide_eq_false_2 by apply not_elem_of_nil|].
  cbn [foldl]. rewrite IH, map_key_lookup. destruct (decide (j = k)) as [->|Hne].
  - rewrite (bool_decide_eq_false_2 (k ∈ ks)), !bool_decide_eq_true_2; [done|by left|done|done].
  - rewrite (bool_decide_eq_false_2 (j = k)) by done. destruct (decide (j ∈ ks)).
    + rewrite !bool_decide_eq_true_2; [done|by right|done].
    + rewrite !bool_decide_eq_false_2; [done|by intros [|]%elem_of_cons|done].
Qed.
Lemma sensitive_nodup : NoDup sensitiveKeys.
Proof. apply (bool_decide_unpack _). vm_compute. exact I. Qed.

Lemma opened_safe_copy d : clean d → opened (safe_copy d) = d.
Proof using seal_law.
  intros Hc. apply map_eq. intros j. unfold opened, safe_copy. rewrite !map_keys_lookup by apply sensitive_nodup.
  case_bool_decide as Hj; [|done]. destruct (d !! j) as [[s|t|]|] eqn:E; try done. cbn. do 2 f_equal.
  apply (Registry.decrypt_encrypt seal_law). by apply (proj2 (Hc j _ E) Hj).
Qed.

Lemma safe_copy_serialisable d : clean d → map_Forall (λ _ x, validateConfigValue x = true) (safe_copy d).
Proof.
  intros Hc j x. unfold safe_copy. rewrite map_keys_lookup by apply sensitive_nodup. intros Hx.
  assert (∀ y, d !! j = Some y → validateConfigValue y = true) as Hd by (intros y Hy; by apply (Hc j y Hy)).
  case_bool_decide; [|by apply Hd]. destruct (d !! j) as [y|]; [|done]. injection Hx as <-. specialize (Hd y eq_refl). by destruct y.
Qed.

(** What is saved is loaded; with a key, or without one as long as there is none at the next start. *)
Lemma saved_settings_load d f : clean d → load (doSave true d f) = d.
Proof using seal_law json_law marshal_law.
  intros Hc. destruct (marshal_law _ (safe_copy_serialisable d Hc)) as [t Ht]. unfold load, doSave, saveWithIntegrity, writeWithIntegrity. rewrite Ht.
  destruct (json_law _ _ Ht) as [Hu Hj]. destruct enc as [key|] eqn:Ek; cbn [computeHMAC fmap option_fmap option_map snd].
  - rewrite load_sealed. unfold unmarshal_result. rewrite Hu. by apply opened_safe_copy.
  - rewrite (load_plain MarshalIndent Unmarshal is_json json_law None t (safe_copy d) Ht) by done. by apply opened_safe_copy.
Qed.

Lemma clean_insert k v d : clean d → validateConfigValue v = true → (k ∈ sensitiveKeys → ∀ s, v = VStr s → IsEncrypted s = false) → clean (<[k := v]> d).
Proof. intros Hd Hv Hs. apply map_Forall_insert_2; [by split|done]. Qed.
Lemma clean_touch now d : clean d → clean (touch now d).
Proof.
  intros Hd. apply clean_insert; [done|done|]. intros Hin. exfalso. revert Hin. apply (bool_decide_unpack (_ ∉ _)). by vm_compute.
Qed.

(** What a history sets: no sensitive text that looks sealed. *)
Definition sets_clean (o : config_op) : Prop :=
  match o with
  | CSet _ k v => k ∈ sensitiveKeys → ∀ s, v = VStr s → IsEncrypted s = false
  | CSetMany _ m => map_Forall (λ k v, k ∈ sensitiveKeys → ∀ s, v = VStr s → IsEncrypted s = false) m
  | _ => True
  end.
(** Direct saves aside, and as long as the file can be written. *)
Definition undisturbed (o : config_op) : Prop :=
  match o with CFlush writes => writes = true | CSyncTake | CSyncWrite _ _ => False | _ => True end.

Definition pending (c : Config) : Prop :=
  (0 < marking c)%nat ∨ dirty c = true ∧ ((0 < signalling c)%nat ∨ signal c = true ∨ writer c = Window ∨ writer c = Drained ∨ writer c = Final) ∨
  writer c = Done.
Definition saved (c : Config) : Prop := clean (data c) ∧ clean (load (file c)) ∧ (load (file c) = data c ∨ pending c).

Lemma clean_set_many now m d : clean d → map_Forall (λ k v, k ∈ sensitiveKeys → ∀ s, v = VStr s → IsEncrypted s = false) m → clean (set_many now m d).
Proof.
  intros Hd Hm. apply clean_touch. intros k v [[Hk [_ Hv]]%map_lookup_filter_Some|[_ Hk]]%lookup_union_Some_raw; [|by apply Hd].
  split; [done|]. intros Hin. by apply (Hm k).
Qed.

Lemma flush_saved w c : saved c → writer c = Drained ∨ writer c = Final → saved (flush_to w true c).
Proof using seal_law json_law marshal_law.
  intros (H1 & H2 & H3) Hw. unfold saved. cbn [flush_to data file]. destruct (dirty c) eqn:Ed.
  - rewrite saved_settings_load by done. split_and!; [done|done|by left].
  - split_and!; [done|done|]. destruct H3 as [H3|[Hm|[[Hd _]|Hdone]]]; [by left|right; by left|congruence|]. destruct Hw; congruence.
Qed.

Lemma step_saved c o : undisturbed o → sets_clean o → saved c → saved (config_step c o).
Proof using seal_law json_law marshal_law.
  intros Hu Hc Hs. pose proof Hs as (H1 & H2 & H3). destruct o as [now k v|now m| | | | |w| | | |i w|]; cbn [config_step undisturbed sets_clean] in *; try done.
  - unfold set_one. destruct (validateConfigValue v) eqn:Ev; [|done]. split_and!; [|done|right; left; cbn; lia]. apply clean_touch. by apply clean_insert.
  - split_and!; [by apply clean_set_many|done|right; left; cbn; lia].
  - destruct (marking c) eqn:Em; [done|]. split_and!; [done|done|]. right. right. left. split; [done|left; cbn; lia].
  - destruct (signalling c) eqn:Em; [done|]. split_and!; [done|done|]. unfold pending in *. cbn [dirty signal writer marking signalling file data].
    destruct H3 as [H3|[H3|[[Hd _]|H3]]]; [by left|by right; left|right; right; left; auto|right; right; by right].
  - destruct (writer c) eqn:Ew; try done. destruct (signal c); [|done]. split_and!; [done|done|]. unfold pending in *. cbn.
    destruct H3 as [H3|[H3|[[Hd _]|H3]]]; [by left|by right; left|right; right; left; split; [done|]; auto|congruence].
  - destruct (writer c) eqn:Ew; try done. split_and!; [done|done|]. unfold pending in *. cbn.
    destruct H3 as [H3|[H3|[[Hd _]|H3]]]; [by left|by right; left|right; right; left; split; [done|]; auto|congruence].
  - subst w. destruct (writer c) eqn:Ew; try done; apply flush_saved; auto.
  - destruct (writer c) eqn:Ew; try done; destruct (stopping c); try done; (split_and!; [done|done|]); unfold pending in *; cbn;
      (destruct H3 as [H3|[H3|[[Hd _]|H3]]]; [by left|by right; left|right; right; left; split; [done|]; auto|congruence]).
  - split_and!; [done|done|by left].
Qed.

Lemma run_saved h : Forall undisturbed h → Forall sets_clean h → saved (config_run h (initConfig None)).
Proof using seal_law json_law marshal_law.
  intros Hu Hc. assert (saved (initConfig None)) as H0 by (split_and!; [done|done|by left]). revert H0. generalize (initConfig None).
  induction h as [|o h IH]; intros c H0; [done|]. apply Forall_cons in Hu as [Hu1 Hu2], Hc as [Hc1 Hc2].
  by apply IH, step_saved.
Qed.

(** No change is lost: whatever is set, at whatever moments the signals, the windows, restarts and the
    stop come, once the writer waits and nobody is in the middle of a change the file holds the settings. *)
Theorem settled_config_is_saved h :
  Forall undisturbed h → Forall sets_clean h →
  let c := config_run h (initConfig None) in
  writer c = Idle → marking c = 0%nat → signalling c = 0%nat → signal c = false → load (file c) = data c.
Proof using seal_law json_law marshal_law.
  intros Hu Hc c Hw Hm Hs Hg. destruct (run_saved h Hu Hc) as (_ & _ & [H1|[H1|[[_ H1]|H1]]]); fold c in H1; [done|lia| |congruence].
  destruct H1 as [H1|[H1|[H1|[H1|H1]]]]; [lia|congruence..].
Qed.

(** The stop: whatever came before, the last flush leaves the settings in the file when no change is under
    way. *)
Theorem stopped_config_is_saved h :
  Forall undisturbed h → Forall sets_clean h →
  let c := config_run h (initConfig None) in
  writer c = Final → marking c = 0%nat → load (file (config_step c (CFlush true))) = data c.
Proof using seal_law json_law marshal_law.
  intros Hu Hc c Hw Hm. pose proof (run_saved h Hu Hc) as (H1 & H2 & H3). fold c in H1, H2, H3.
  cbn [config_step]. rewrite Hw. cbn [flush_to file]. destruct (dirty c) eqn:Ed; [by apply saved_settings_load|].
  destruct H3 as [H3|[H3|[[H3 _]|H3]]]; [done|lia|congruence|congruence].
Qed.

(** The integrity of the file is checked for nothing: a changed text under any 32 bytes without a brace is
    loaded all the same. *)
Theorem tampered_config_is_loaded key mac v t :
  enc = Some key → MarshalIndent v = Some t → length mac = hmacSize → 123 ∉ mac → head t = Some 123 → mac ≠ hmac key t →
  Unmarshal (mac ++ t) = None → is_json (mac ++ t) = false →
  loadWithIntegrity Unmarshal is_json enc (Some (mac ++ t)) = IntegrityError ∧ load (Some (mac ++ t)) = opened v.
Proof using json_law.
  intros Hk Ht Hl Hb Hh Hm Hu Hj.
  assert (loadWithIntegrity Unmarshal is_json enc (Some (mac ++ t)) = IntegrityError) as He.
  { rewrite Hk. unfold loadWithIntegrity. rewrite (proj2 (Nat.ltb_ge _ _)) by (rewrite length_app; lia).
    rewrite take_app_length', drop_app_length', Hj by done. rewrite (not_true_is_false (verifyHMAC _ _ _)); [done|].
    intros (k & [= <-] & E)%verify_hmac_spec. done. }
  split; [done|]. unfold load. rewrite He, Hu.
  assert (∀ i, first_brace i (mac ++ t) = Some (i + hmacSize)%nat) as Hf.
  { intros i. rewrite <- Hl. clear Hl Hm Hu Hj He. revert i. induction mac as [|c mac IH]; intros i; cbn [app first_brace length].
    - destruct t as [|c t]; [done|]. injection Hh as ->. cbn. f_equal. lia.
    - apply not_elem_of_cons in Hb as [Hc Hb]. rewrite (proj2 (Z.eqb_neq _ _)) by done. rewrite IH by done. f_equal. lia. }
  rewrite Hf. change (opened (default ∅ (Unmarshal (drop hmacSize (mac ++ t)))) = opened v). rewrite drop_app_length' by done.
  by destruct (json_law v t Ht) as [-> _].
Qed.
End config.

(** ** The pages of the settings *)

(** A token is not shown by the masked settings, only its ends. *)
Theorem masked_hides d k s :
  k ∈ ["coze_api_token"; "proxy_api_key"] → Masked d !! k = Some (VStr s) → s = "".
Proof.
  assert (∀ d k j, j ≠ k → j ≠ k +:+ "_masked" → mask_key d k !! j = d !! j) as Hother.
  { intros d0 k0 j H1 H2. unfold mask_key. destruct (d0 !! k0) as [[t|t|]|]; try done. case_bool_decide; [done|].
    by rewrite lookup_delete_ne, lookup_insert_ne by done. }
  assert (∀ d k t, mask_key d k !! k = Some (VStr t) → t = "") as Hself.
  { intros d0 k0 t. unfold mask_key. destruct (d0 !! k0) as [[u|u|]|] eqn:E; rewrite ?E; try done.
    case_bool_decide as Eu; [rewrite E; by intros [= <-]|by rewrite lookup_delete_eq]. }
  unfold Masked. cbn [foldl]. rewrite !elem_of_cons. intros [->|[->|[]%elem_of_nil]]; [|by apply Hself].
  rewrite Hother by done. by apply Hself.
Qed.

(** A refused request changes no setting, unless it also asks to clear the key of the proxy. *)
Theorem refused_config_keeps valid_url now body d d' drop :
  handleSaveConfig valid_url now body d = (400, d', drop) →
  d' = d ∨ ∃ b, body = Some b ∧ clears_key b = true ∧ d' = touch now (delete "proxy_api_key" d).
Proof.
  unfold handleSaveConfig. destruct body as [b|]; [|intros [= <- <-]; by left]. cbv zeta.
  destruct (generic_update valid_url b) as [g|].
  - destruct (_ && _); [done|]. case_bool_decide; [|done]. intros [= <- <-]. destruct (clears_key b) eqn:E; [right; by exists b|by left].
  - intros [= <- <-]. destruct (clears_key b) eqn:E; [right; by exists b|by left].
Qed.

(** ** Concrete settings *)

Module ConfigDemo.
#[export] Instance setting_countable : Countable setting.
Proof.
  refine (inj_countable' (λ v, match v with VStr s => inl (inl s) | VJson t => inl (inr t) | VUnserialisable => inr () end)
    (λ x, match x with inl (inl s) => VStr s | inl (inr t) => VJson t | inr () => VUnserialisable end) _).
  by intros [].
Defined.
Fixpoint bits (p : positive) : bytes := match p with xH => [] | xO p => 48 :: bits p | xI p => 49 :: bits p end.
Fixpoint number (b : bytes) : positive := match b with [] => xH | c :: b => if c =? 48 then xO (number b) else xI (number b) end.
(** A text is a brace and the digits of a number that stands for the settings. *)
Definition marshal (d : settings) : option bytes := Some (123 :: bits (encode d)).
Definition unmarshal (b : bytes) : option settings := match b with 123 :: b => decode (number b) | _ => None end.
Definition is_json (b : bytes) : bool := match b with 123 :: _ => true | _ => false end.

Lemma number_bits p : number (bits p) = p.
Proof. induction p as [p IH|p IH|]; cbn; by rewrite ?IH. Qed.
Lemma demo_json_law v t : marshal v = Some t → unmarshal t = Some v ∧ is_json t = true.
Proof. intros [= <-]. split; [|done]. cbn. by rewrite number_bits, decode_encode. Qed.

Definition none : Encryptor := {| ready := false; ephemeral := false; seal := λ _, None; unseal := λ _, None |}.
Definition key : option bytes := Some (bytes_of "k").
Definition run (h : list config_op) : Config := @config_run none marshal unmarshal is_json key h (@initConfig none unmarshal is_json key None).
Definition reload (c : Config) : settings := @load none unmarshal is_json key (file c).
(** A setting and all that follows until it is written. *)
Definition set_and_wait (k v : string) (writes : bool) : list config_op :=
  [CSet "t" k (VStr v); CMark; CSignal; CReceive; CTimer; CFlush writes].
End ConfigDemo.

Lemma demo_seal_law s c : @seal ConfigDemo.none s = Some c → IsEncrypted c = true ∧ @unseal ConfigDemo.none c = Some s.
Proof. intros [=]. Qed.
Lemma demo_settings_law v : map_Forall (λ _ x, validateConfigValue x = true) v → is_Some (ConfigDemo.marshal v).
Proof. intros _. by eexists. Qed.
Lemma demo_sets_clean s : sets_clean (CSet "t" "a" (VStr s)).
Proof. intros Hin. exfalso. revert Hin. apply (bool_decide_unpack (_ ∉ _)). by vm_compute. Qed.

Lemma settled_config_is_saved_witness :
  ConfigDemo.reload (ConfigDemo.run (ConfigDemo.set_and_wait "a" "1" true)) = data (ConfigDemo.run (ConfigDemo.set_and_wait "a" "1" true)).
Proof.
  refine (@settled_config_is_saved ConfigDemo.none ConfigDemo.marshal ConfigDemo.unmarshal ConfigDemo.is_json ConfigDemo.key
    demo_seal_law ConfigDemo.demo_json_law demo_settings_law (ConfigDemo.set_and_wait "a" "1" true) _ _ _ _ _ _).
  - by repeat constructor.
  - repeat (constructor; [first [apply demo_sets_clean|exact I]|]). constructor.
  - by vm_compute.
  - by vm_compute.
  - by vm_compute.
  - by vm_compute.
Defined.

Lemma stopped_config_is_saved_witness :
  let c := ConfigDemo.run [CSet "t" "a" (VStr "1"); CMark; CStop; CStopSeen] in
  @load ConfigDemo.none ConfigDemo.unmarshal ConfigDemo.is_json ConfigDemo.key
    (file (@config_step ConfigDemo.none ConfigDemo.marshal ConfigDemo.unmarshal ConfigDemo.is_json ConfigDemo.key c (CFlush true))) = data c.
Proof.
  refine (@stopped_config_is_saved ConfigDemo.none ConfigDemo.marshal ConfigDemo.unmarshal ConfigDemo.is_json ConfigDemo.key
    demo_seal_law ConfigDemo.demo_json_law demo_settings_law [CSet "t" "a" (VStr "1"); CMark; CStop; CStopSeen] _ _ _ _).
  - by repeat constructor.
  - repeat (constructor; [first [apply demo_sets_clean|exact I]|]). constructor.
  - by vm_compute.
  - by vm_compute.
Defined.

(** A direct save that takes its copy before a change and reaches the file after the writer undoes the
    change in the file, and nothing is left to write it again. *)
Example direct_save_undoes :
  let c := ConfigDemo.run ([CSyncTake] ++ ConfigDemo.set_and_wait "a" "1" true ++ [CSyncWrite 0 true]) in
  ConfigDemo.reload c !! "a" = None ∧ data c !! "a" = Some (VStr "1") ∧ dirty c = false ∧ signal c = false ∧ writer c = Idle.
Proof. vm_compute. done. Qed.

(** A write that fails is not tried again until the next change. *)
Example failed_write_is_forgotten :
  let c := ConfigDemo.run (ConfigDemo.set_and_wait "a" "1" false) in
  file c = None ∧ data c !! "a" = Some (VStr "1") ∧ dirty c = false ∧ signal c = false ∧ writer c = Idle.
Proof. vm_compute. done. Qed.

Lemma tampered_config_is_loaded_witness :
  let forged : settings := {["a" := VStr "1"]} in
  let raw := replicate 32 0 ++ default [] (ConfigDemo.marshal forged) in
  loadWithIntegrity ConfigDemo.unmarshal ConfigDemo.is_json ConfigDemo.key (Some raw) = IntegrityError ∧
  @load ConfigDemo.none ConfigDemo.unmarshal ConfigDemo.is_json ConfigDemo.key (Some raw) = @opened ConfigDemo.none forged.
Proof.
  intros forged raw. refine (@tampered_config_is_loaded ConfigDemo.none ConfigDemo.marshal ConfigDemo.unmarshal ConfigDemo.is_json ConfigDemo.key
    ConfigDemo.demo_json_law (bytes_of "k") (replicate 32 0) forged _ _ _ _ _ _ _ _ _).
  - reflexivity.
  - reflexivity.
  - reflexivity.
  - apply (bool_decide_unpack (_ ∉ _)). by vm_compute.
  - by vm_compute.
  - intros H. apply (f_equal head) in H. by vm_compute in H.
  - by vm_compute.
  - by vm_compute.
Defined.

(** Two of the settings that are sealed in the file are shown as they are. *)
Example masked_shows :
  Masked {["cf_api_token" := VStr "secret"]} !! "cf_api_token" = Some (VStr "secret") ∧
  Masked {["proxy_api_key" := VStr "sk-0123456789"]} !! "proxy_api_key_masked" = Some (VStr "sk-012...6789").
Proof. vm_compute. done. Qed.

(** A request that is refused for its port has cleared the key of the proxy. *)
Example refused_request_clears_key :
  let '(code, d, _) := handleSaveConfig (λ _, true) "t" (Some {["proxy_api_key" := ""; "service_port" := "0"]}) {["proxy_api_key" := VStr "sk"]} in
  code = 400 ∧ d !! "proxy_api_key" = None.
Proof. vm_compute. done. Qed.

Lemma masked_hides_witness : Masked {["proxy_api_key" := VStr ""]} !! "proxy_api_key" = Some (VStr "") → "" = "".
Proof. apply masked_hides. right. left. Defined.

Lemma refused_config_keeps_witness :
  let d : settings := {["a" := VStr "1"]} in
  (handleSaveConfig (λ _, true) "t" (Some {["service_port" := "0"]}) d).1.2 = d.
Proof.
  intros d. destruct (handleSaveConfig (λ _, true) "t" (Some {["service_port" := "0"]}) d) as [[code d'] drop] eqn:E.
  assert (code = 400) as -> by (vm_compute in E; by injection E).
  destruct (refused_config_keeps _ _ _ _ _ _ E) as [->|(b & [= <-] & Hb & _)]; [done|]. by vm_compute in Hb.
Defined.
