(* ===== verification/Events.v ===== *)
(** * Events and the audit log (eventbus.go, audit.go)

    [EventBus] gives every connected page a queue of 64 events; [AuditLogger] appends a line per
    action of an administrator to a file and rotates it. An event is its type, its data as JSON and its
    time. *)

From S2P Require Import Prelude GoTime.

(** ** The event bus *)

Record SSEEvent := { e_Type : string; e_Data : string; e_Time : string }.
#[export] Instance event_eq_dec : EqDecision SSEEvent.
Proof. solve_decision. Defined.

(** A queue for each client. *)
Record EventBus := { clients : gmap string (list SSEEvent); nextID : Z }.
Definition initEventBus : EventBus := {| clients := ∅; nextID := 0 |}.
Definition queue_size : nat := 64.

Definition client_id (now : Time) (n : Z) : string := "client-" +:+ dec now +:+ "-" +:+ dec n.
Definition Subscribe (now : Time) (eb : EventBus) : string * EventBus :=
  let n := nextID eb +! 1 in
  (client_id now n, {| clients := <[client_id now n := []]> (clients eb); nextID := n |}).
Definition Unsubscribe (id : string) (eb : EventBus) : EventBus := {| clients := delete id (clients eb); nextID := nextID eb |}.
(** A full queue drops the event. *)
Definition offer (e : SSEEvent) (q : list SSEEvent) : list SSEEvent := if (length q <? queue_size)%nat then q ++ [e] else q.
Definition Broadcast (loc : Location) (now : Time) (e : SSEEvent) (eb : EventBus) : EventBus :=
  let e := {| e_Type := e_Type e; e_Data := e_Data e; e_Time := if bool_decide (e_Time e = "") then fmt_rfc3339 loc now else e_Time e |} in
  {| clients := offer e <$> clients eb; nextID := nextID eb |}.
(** A round of the handler of a page: the next event of the queue, which is sent. *)
Definition handleSSE_next (id : string) (eb : EventBus) : option SSEEvent * EventBus :=
  match clients eb !! id with
  | Some (e :: q) => (Some e, {| clients := <[id := q]> (clients eb); nextID := nextID eb |})
  | _ => (None, eb)
  end.
Definition GetEventBusStats (eb : EventBus) : Z := Z.of_nat (size (clients eb)).

(** *** What it guarantees *)

Inductive bus_op := BSubscribe (now : Time) | BUnsubscribe (id : string) | BBroadcast (now : Time) (e : SSEEvent) | BNext (id : string).

Section bus.
Context (loc : Location).
(** The bus, and for a client what was sent to it since it subscribed. *)
Definition bus_step (id : string) (s : EventBus * list SSEEvent) (o : bus_op) : EventBus * list SSEEvent :=
  match o with
  | BSubscribe now => let '(id', eb) := Subscribe now s.1 in (eb, if bool_decide (id' = id) then [] else s.2)
  | BUnsubscribe id' => (Unsubscribe id' s.1, s.2)
  | BBroadcast now e => (Broadcast loc now e s.1, s.2)
  | BNext id' => let '(e, eb) := handleSSE_next id' s.1 in (eb, if bool_decide (id' = id) then s.2 ++ option_list e else s.2)
  end.
Definition bus_run (id : string) (h : list bus_op) (s : EventBus * list SSEEvent) := foldl (bus_step id) s h.

Definition timed (now : Time) (e : SSEEvent) : SSEEvent :=
  {| e_Type := e_Type e; e_Data := e_Data e; e_Time := if bool_decide (e_Time e = "") then fmt_rfc3339 loc now else e_Time e |}.
Definition broadcast (o : bus_op) : list SSEEvent := match o with BBroadcast now e => [timed now e] | _ => [] end.

Lemma dec_no_dash z : 0 ≤ z → has_char "-" (dec z) = false.
Proof.
  intros Hz. destruct z as [|p|p]; [done| |lia]. change (has_char "-" (pretty (N.pos p)) = false).
  unfold pretty, pretty_N. case_decide; [done|]. by rewrite pretty_N_go_has_char.
Qed.

(** The ids are new: no subscription takes the queue of another. *)
Lemma client_id_inj now n now' n' : client_id now n = client_id now' n' → dec n = dec n' ∨ n < 0 ∨ n' < 0.
Proof.
  unfold client_id. intros H%append_inj_r. destruct (Z.ltb_spec n 0); [auto|]. destruct (Z.ltb_spec n' 0); [auto|]. left.
  change (dec now +:+ String "-" (dec n) = dec now' +:+ String "-" (dec n')) in H.
  apply (split_sep_r "-" (dec now) (dec now') (dec n) (dec n')) in H as [_ H]; [done|by apply dec_no_dash..].
Qed.

Definition ids_old (eb : EventBus) : Prop := 0 ≤ nextID eb ∧ ∀ id q, clients eb !! id = Some q → ∃ now k, id = client_id now k ∧ 0 < k ≤ nextID eb.

Lemma step_ids id s o : nextID s.1 < 2 ^ 63 - 1 → ids_old s.1 → ids_old (bus_step id s o).1 ∧ nextID (bus_step id s o).1 ≤ nextID s.1 + 1.
Proof.
  destruct s as [eb got]. cbn [fst]. intros Hn [H0 Hi]. destruct o as [now|id'|now e|id']; cbn [bus_step fst snd].
  - unfold Subscribe. cbn [fst nextID clients]. assert (nextID eb +! 1 = nextID eb + 1) as E by (apply wrap64_id; unfold is_int64, int64_min, int64_max; lia).
    rewrite !E. split; [|lia]. split; [cbn; lia|]. cbn [clients nextID]. intros j q. rewrite lookup_insert_Some. intros [[<- _]|[_ Hj]].
    + exists now, (nextID eb + 1). split; [done|lia].
    + destruct (Hi j q Hj) as (t & k & -> & Hk). exists t, k. split; [done|lia].
  - split; [|cbn; lia]. split; [done|]. cbn. intros j q [_ Hj]%lookup_delete_Some. by apply (Hi j q).
  - split; [|cbn; lia]. split; [done|]. cbn. intros j q. rewrite lookup_fmap. destruct (clients eb !! j) as [q'|] eqn:E; [|done]. intros _. by apply (Hi j q').
  - unfold handleSSE_next. destruct (clients eb !! id') as [[|e q]|] eqn:E; cbn [fst]; (split; [|cbn; lia]); [by split| |by split].
    split; [done|]. cbn. intros j q'. rewrite lookup_insert_Some. intros [[<- _]|[_ Hj]]; [by apply (Hi id' (e :: q))|by apply (Hi j q')].
Qed.

Lemma new_client_is_new now eb : ids_old eb → nextID eb < 2 ^ 63 - 1 → clients eb !! client_id now (nextID eb +! 1) = None.
Proof.
  intros [H0 Hi] Hn. destruct (clients eb !! client_id now (nextID eb +! 1)) as [q|] eqn:E; [|done]. exfalso.
  destruct (Hi _ _ E) as (t & k & Hk & Hlt). assert (nextID eb +! 1 = nextID eb + 1) as En by (apply wrap64_id; unfold is_int64, int64_min, int64_max; lia).
  rewrite En in Hk. apply client_id_inj in Hk as [Hk|[Hk|Hk]]; [|lia..]. apply dec_inj in Hk. lia.
Qed.

Definition room (q : list SSEEvent) : Prop := (length q < queue_size)%nat.

Lemma queue_step id s o q :
  nextID s.1 < 2 ^ 63 - 1 → ids_old s.1 → clients s.1 !! id = Some q → (length q ≤ queue_size)%nat → o ≠ BUnsubscribe id →
  ∃ q', clients (bus_step id s o).1 !! id = Some q' ∧ (length q' ≤ queue_size)%nat ∧
    ((bus_step id s o).2 ++ q' = (s.2 ++ q) ++ broadcast o ∨ (bus_step id s o).2 ++ q' = s.2 ++ q ∧ length q = queue_size ∧ broadcast o ≠ []).
Proof.
  destruct s as [eb got]. cbn [fst snd]. intros Hn Hi Hq Hl Ho. destruct o as [now|id'|now e|id']; cbn [bus_step fst snd broadcast]; rewrite ?app_nil_r.
  - unfold Subscribe. cbn [fst snd clients]. pose proof (new_client_is_new now eb Hi Hn) as Hnew.
    assert (client_id now (nextID eb +! 1) ≠ id) as Hne by congruence. exists q. rewrite lookup_insert_ne, bool_decide_eq_false_2 by done. auto.
  - exists q. cbn. rewrite lookup_delete_ne by congruence. auto.
  - cbn [Broadcast clients]. rewrite lookup_fmap, Hq. cbn [fmap option_fmap option_map]. eexists. split; [done|]. unfold offer.
    destruct (Nat.ltb_spec (length q) queue_size).
    + split; [rewrite length_app; cbn; lia|]. left. by rewrite app_assoc.
    + split; [done|]. right. split; [done|]. split; [lia|done].
  - unfold handleSSE_next. destruct (clients eb !! id') as [[|e q1]|] eqn:E; cbn [fst snd option_list]; rewrite ?app_nil_r.
    + exists q. case_bool_decide; auto.
    + case_bool_decide as Eid.
      * subst id'. assert (q = e :: q1) as -> by congruence. exists q1. cbn [clients]. rewrite lookup_insert_eq.
        split_and!; [done|cbn in Hl; lia|left; by rewrite <- app_assoc].
      * exists q. cbn [clients]. rewrite lookup_insert_ne by done. auto.
    + exists q. case_bool_decide; auto.
Qed.

Lemma run_snoc id h o s : bus_run id (h ++ [o]) s = bus_step id (bus_run id h s) o.
Proof. unfold bus_run. by rewrite foldl_app. Qed.

(** The page of a client gets, in order and none twice, events broadcast since it subscribed; at most 64
    wait; and as long as never more than 64 are waiting it gets them all. *)
Theorem events_in_order now eb h :
  let '(id, eb0) := Subscribe now eb in
  ids_old eb → nextID eb + Z.of_nat (length h) < 2 ^ 63 - 2 → BUnsubscribe id ∉ h →
  let s := bus_run id h (eb0, []) in
  ∃ q, clients s.1 !! id = Some q ∧ (length q ≤ queue_size)%nat ∧ s.2 ++ q `sublist_of` (h ≫= broadcast) ∧
    ((∀ k, (length (take k h ≫= broadcast) ≤ length (bus_run id (take k h) (eb0, [])).2 + queue_size)%nat) → s.2 ++ q = h ≫= broadcast).
Proof.
  destruct (Subscribe now eb) as [id eb0] eqn:Es. intros Hi Hn Hh. cbv zeta.
  assert (clients eb0 !! id = Some [] ∧ nextID eb0 = nextID eb + 1 ∧ ids_old eb0) as (Hq0 & Hn0 & Hi0).
  { pose proof (step_ids "" (eb, []) (BSubscribe now) ltac:(cbn; lia) Hi) as [H1 _]. cbn [bus_step fst] in H1. rewrite Es in H1.
    destruct Hi as [H0 _]. unfold Subscribe in Es. cbv zeta in Es. injection Es as <- <-. cbn [clients nextID]. split_and!; [by rewrite lookup_insert_eq| |done].
    apply wrap64_id. unfold is_int64, int64_min, int64_max. lia. }
  induction h as [|o h IH] using rev_ind.
  { exists []. split_and!; [done|unfold queue_size; cbn; lia|apply sublist_nil_l|done]. }
  rewrite length_app in Hn. cbn in Hn. apply not_elem_of_app in Hh as [Hh Ho]. rewrite list_elem_of_singleton in Ho.
  destruct (IH ltac:(lia) Hh) as (q & Hq & Hl & Hsub & Hall). rewrite run_snoc, bind_app. cbn [mbind list_bind]. rewrite app_nil_r.
  assert (ids_old (bus_run id h (eb0, [])).1 ∧ nextID (bus_run id h (eb0, [])).1 ≤ nextID eb0 + Z.of_nat (length h)) as [Hir Hnr].
  { clear -Hi0 Hn Hn0. induction h as [|o h IH] using rev_ind; [cbn; lia || (split; [done|cbn; lia])|]. rewrite length_app in Hn |- *. cbn in Hn |- *.
    destruct (IH ltac:(lia)) as [H1 H2]. rewrite run_snoc. destruct (step_ids id (bus_run id h (eb0, [])) o ltac:(lia) H1) as [H3 H4]. split; [done|lia]. }
  destruct (queue_step id (bus_run id h (eb0, [])) o q ltac:(lia) Hir Hq Hl (not_eq_sym Ho)) as (q' & Hq' & Hl' & Hcase).
  exists q'. split_and!; [done|done| |].
  - destruct Hcase as [->|[-> _]]; [by apply sublist_app|]. by apply sublist_inserts_r.
  - intros Hk. assert ((bus_run id h (eb0, [])).2 ++ q = h ≫= broadcast) as Hall'.
    { apply Hall. intros k. destruct (decide (k ≤ length h)%nat); [specialize (Hk k); by rewrite take_app_le in Hk|].
      rewrite take_ge by lia. specialize (Hk (length h)). by rewrite take_app_length in Hk. }
    destruct Hcase as [->|(Ec & Hfull & Hne)]; [by rewrite Hall'|]. exfalso.
    specialize (Hk (length (h ++ [o]))). rewrite firstn_all, run_snoc, bind_app in Hk. cbn [mbind list_bind] in Hk. rewrite app_nil_r in Hk.
    rewrite <- Hall', !length_app in Hk. destruct o as [|?|t e|?]; try done. cbn [bus_step snd broadcast length] in Hk. lia.
Qed.
End bus.

(** ** The audit log *)

Definition auditMaxFileSize : Z := 10 * 1024 * 1024.
Definition auditMaxRotated : nat := 5.

(** The files by number, the log itself being number 0, as their text; whether the log is open. *)
Record AuditLogger := { files : gmap nat string; is_open : bool; enabled : bool }.

(** A logger that is not there is [None]: when auditing is off, or the file cannot be opened. *)
Definition initAuditLog (audit_enabled : string) (opens : bool) (fs : gmap nat string) : option AuditLogger :=
  if negb (bool_decide (audit_enabled = "true")) then None
  else if negb opens then None
  else Some {| files := <[0%nat := default "" (fs !! 0%nat)]> fs; is_open := true; enabled := true |}.

Definition rename (i j : nat) (fs : gmap nat string) : gmap nat string :=
  match fs !! i with Some x => <[j := x]> (delete i fs) | None => fs end.
Definition rotateLocked (opens : bool) (a : AuditLogger) : AuditLogger :=
  if negb (is_open a) then a
  else
    let fs := foldl (λ fs i, rename i (S i) fs) (files a) [4; 3; 2; 1; 0]%nat in
    if opens then {| files := <[0%nat := default "" (fs !! 0%nat)]> fs; is_open := true; enabled := enabled a |}
    else {| files := fs; is_open := false; enabled := false |}.

Definition newline : string := String (Ascii.ascii_of_N 10) "".
Definition audit_line (ts username clientIP action target detail : string) (success : bool) : string :=
  ts +:+ " | " +:+ username +:+ " | " +:+ clientIP +:+ " | " +:+ action +:+ " | " +:+ target +:+ " | " +:+ detail +:+ " | "
  +:+ (if success then "success" else "failure") +:+ newline.

Definition file_size (s : string) : Z := Z.of_nat (String.length s).
Definition append (writes : bool) (line : string) (a : AuditLogger) : AuditLogger :=
  if is_open a && writes then {| files := <[0%nat := default "" (files a !! 0%nat) +:+ line]> (files a); is_open := is_open a; enabled := enabled a |}
  else a.
(** [opens] and [writes] say whether a new file can be opened and the line written. *)
Definition auditRecord (opens writes : bool) (line : string) (a : AuditLogger) : AuditLogger :=
  if negb (enabled a) then a
  else append writes line
    (if is_open a && (auditMaxFileSize <=? file_size (default "" (files a !! 0%nat))) then rotateLocked opens a else a).
Definition CloseAuditLog (a : AuditLogger) : AuditLogger :=
  if is_open a then {| files := files a; is_open := false; enabled := false |} else a.

(** *** What it guarantees *)

(** The files of a list of texts, the latest first. *)
Definition layout (l : list string) : gmap nat string := list_to_map (zip (seq 0 6) l).

Lemma rotate_layout cur r :
  (length r ≤ auditMaxRotated)%nat →
  rotateLocked true {| files := layout (cur :: r); is_open := true; enabled := true |}
    = {| files := layout ("" :: take auditMaxRotated (cur :: r)); is_open := true; enabled := true |}.
Proof.
  intros Hr. unfold auditMaxRotated in *. do 6 (destruct r as [|? r]; [reflexivity|cbn in Hr]). lia.
Qed.

Lemma write_layout cur r line :
  append true line {| files := layout (cur :: r); is_open := true; enabled := true |}
    = {| files := layout ((cur +:+ line) :: r); is_open := true; enabled := true |}.
Proof. unfold append, layout. cbn. rewrite lookup_insert_eq, insert_insert_eq. done. Qed.

(** All the text in the files, the oldest first. *)
Fixpoint chronicle (l : list string) : string := match l with [] => "" | x :: l => chronicle l +:+ x end.

Definition audit_run (lines : list string) : AuditLogger :=
  foldl (λ a l, auditRecord true true l a) {| files := layout [""]; is_open := true; enabled := true |} lines.

Lemma chronicle_take n l : ∃ lost, chronicle l = lost +:+ chronicle (take n l) ∧ ((length l ≤ n)%nat → lost = "").
Proof.
  revert n. induction l as [|x l IH]; intros n.
  { exists "". split; [|done]. by destruct n. }
  destruct n as [|n]; [exists (chronicle (x :: l)); split; [by rewrite append_nil_r|cbn; lia]|].
  destruct (IH n) as (lost & E & Hn). exists lost. cbn [take chronicle length]. rewrite E, append_assoc. split; [done|]. intros Hl. apply Hn. lia.
Qed.

(** As long as files can be opened and written the log keeps its latest text in its files, in order, whole
    and once; what is dropped was older than five full files. *)
Theorem audit_keeps_the_last lines :
  ∃ cur r lost, files (audit_run lines) = layout (cur :: r) ∧ (length r ≤ auditMaxRotated)%nat ∧
    chronicle (reverse lines) = lost +:+ chronicle (cur :: r) ∧ Forall (λ f, auditMaxFileSize ≤ file_size f) r ∧
    (lost = "" ∨ length r = auditMaxRotated).
Proof.
  assert (∃ cur r lost, audit_run lines = {| files := layout (cur :: r); is_open := true; enabled := true |} ∧ (length r ≤ auditMaxRotated)%nat ∧
    chronicle (reverse lines) = lost +:+ chronicle (cur :: r) ∧ Forall (λ f, auditMaxFileSize ≤ file_size f) r ∧
    (lost = "" ∨ length r = auditMaxRotated)) as (cur & r & lost & -> & H); [|by exists cur, r, lost].
  induction lines as [|l lines (cur & r & lost & E & Hr & Hc & Hf & Hl)] using rev_ind.
  { exists "", [], "". split_and!; [done|unfold auditMaxRotated; cbn; lia|done|by constructor|by left]. }
  unfold audit_run. rewrite foldl_app, reverse_app. cbn [foldl]. fold (audit_run lines). rewrite E. unfold auditRecord. cbn [negb enabled is_open andb files].
  assert (layout (cur :: r) !! 0%nat = Some cur) as -> by (unfold layout; cbn; by rewrite lookup_insert_eq). cbn [default from_option].
  change (reverse [l] ++ reverse lines) with (l :: reverse lines). cbn [chronicle]. rewrite Hc.
  unfold Datatypes.id. destruct (Z.leb_spec auditMaxFileSize (file_size cur)) as [Hs|Hs].
  - rewrite rotate_layout, write_layout by done. destruct (chronicle_take auditMaxRotated (cur :: r)) as (lost' & Ht & Hn).
    exists ("" +:+ l), (take auditMaxRotated (cur :: r)), (lost +:+ lost'). split_and!.
    + done.
    + rewrite length_take. lia.
    + rewrite Ht. cbn [chronicle]. by rewrite !append_assoc, append_nil_l.
    + apply Forall_take. by constructor.
    + destruct (decide (length r = auditMaxRotated)) as [Hfull|]; [right; rewrite length_take; cbn [length]; unfold auditMaxRotated in *; lia|].
      left. destruct Hl as [->|Hl]; [|done]. rewrite Hn; [done|]. cbn [length]. unfold auditMaxRotated in *. lia.
  - rewrite write_layout. exists (cur +:+ l), r, lost. split_and!; [done|done| |done|done]. cbn [chronicle]. by rewrite !append_assoc.
Qed.

(** Nothing in a line is escaped: one action whose detail has the end of a line in it leaves the text of
    two. *)
Theorem audit_lines_forged ts user ip action target d1 ts' user' ip' action' target' d2 ok' :
  let d := d1 +:+ " | " +:+ "success" +:+ newline +:+ ts' +:+ " | " +:+ user' +:+ " | " +:+ ip' +:+ " | " +:+ action' +:+ " | " +:+ target' +:+ " | " +:+ d2 in
  audit_line ts user ip action target d ok' =
    audit_line ts user ip action target d1 true +:+ audit_line ts' user' ip' action' target' d2 ok'.
Proof.
  intros d. unfold audit_line, d. by rewrite !append_assoc.
Qed.

(** A file that cannot be opened after a rotation ends the log for good. *)
Theorem failed_rotation_ends_log a opens writes line line' :
  is_open a = true → enabled a = true → auditMaxFileSize ≤ file_size (default "" (files a !! 0%nat)) →
  let a' := auditRecord false writes line a in files (auditRecord opens true line' a') = files a' ∧ is_open a' = false.
Proof.
  intros Ho He Hs. assert (∃ fs, auditRecord false writes line a = {| files := fs; is_open := false; enabled := false |}) as (fs & ->); [|done].
  unfold auditRecord. rewrite He, Ho, (proj2 (Z.leb_le _ _)) by done. unfold rotateLocked. rewrite Ho. by eexists.
Qed.

(** *** Concrete events and lines *)

Section demo.
Let e (n : string) : SSEEvent := {| e_Type := n; e_Data := ""; e_Time := "t" |}.

Lemma events_in_order_witness :
  let '(id, eb0) := Subscribe 7 initEventBus in
  let s := bus_run UTC id [BBroadcast 8 (e "a"); BNext id; BSubscribe 9; BBroadcast 9 (e "b")] (eb0, []) in
  ∃ q, clients s.1 !! id = Some q ∧ s.2 ++ q `sublist_of` [e "a"; e "b"].
Proof.
  pose proof (events_in_order UTC 7 initEventBus [BBroadcast 8 (e "a"); BNext "client-7-1"; BSubscribe 9; BBroadcast 9 (e "b")]) as H.
  destruct H as (q & Hq & _ & Hs & _).
  - split; [done|]. by intros ? ? ?.
  - by vm_compute.
  - by intros [?|[?|[?|[?|?%elem_of_nil]%elem_of_cons]%elem_of_cons]%elem_of_cons]%elem_of_cons.
  - exists q. split; [exact Hq|exact Hs].
Defined.

(** A page that does not keep up loses the event that finds its queue full. *)
Example slow_page_loses :
  let '(id, eb) := Subscribe 7 initEventBus in
  let many := replicate 64 (BBroadcast 8 (e "a")) in
  let s := bus_run UTC id (many ++ [BBroadcast 8 (e "lost"); BNext id; BBroadcast 8 (e "b")]) (eb, []) in
  (length <$> clients s.1 !! id, bool_decide (e "lost" ∈ default [] (clients s.1 !! id))) = (Some 64%nat, false).
Proof. vm_compute. done. Qed.

Lemma failed_rotation_ends_log_witness (big : string) :
  auditMaxFileSize ≤ file_size big →
  is_open (auditRecord false true "x" {| files := {[0%nat := big]}; is_open := true; enabled := true |}) = false.
Proof.
  intros Hb. refine (proj2 (failed_rotation_ends_log {| files := {[0%nat := big]}; is_open := true; enabled := true |} true true "x" "y" _ _ _)); done.
Defined.
End demo.
