(* ===== verification/Seed.v ===== *)
(** * The seed service of a node (network_seed.go, network_seed_heartbeat_impl.go)

    Every node lists the nodes of its route table on a port of its own, lets nodes that know the shared
    secret register there, and finds out its own addresses. What the services on the network answer, and
    what an IP address is, are parameters. *)

From S2P Require Import Prelude GoTime Bytes RouteTable.

(** ** The addresses of this node *)

(** An answer of a service: its status and what is first read of its body. *)
Definition services : list string :=
  ["https://api.ipify.org?format=text"; "https://icanhazip.com"; "https://ipinfo.io/ip"; "https://checkip.amazonaws.com"].

Section addresses.
(** [None] for no answer; whether a text is an IP address that is neither loopback, private nor
    link-local. *)
Context (ask : string → option (Z * string)) (public_ip : string → bool).

Definition usable (a : option (Z * string)) : option string :=
  match a with
  | Some (status, body) =>
      if negb (status =? 200) then None
      else let ip := trimSpace (String.substring 0 64 body) in if public_ip ip then Some ip else None
  | None => None
  end.
Definition detectPublicIP : string := default "" (head (omap (λ svc, usable (ask svc)) services)).

(** The settings [public_url], [service_port] (with its default) and [lan_ip]. *)
Record address_settings := { public_url : string; service_port : string; lan_ip : string }.
Definition own_addresses (s : address_settings) : list string :=
  if negb (bool_decide (public_url s = "")) then [public_url s]
  else
    let addrs := let ip := detectPublicIP in if bool_decide (ip = "") then [] else ["https://" +:+ ip +:+ ":" +:+ service_port s] in
    if bool_decide (lan_ip s = "") then addrs
    else let lan := "https://" +:+ lan_ip s +:+ ":" +:+ service_port s in
         if bool_decide (lan ∈ addrs) then addrs else addrs ++ [lan].
(** The addresses, and what is kept of them. *)
Definition getSelfAddresses (s : address_settings) (cached : option (list string)) : list string * option (list string) :=
  match cached with
  | Some l => (l, cached)
  | None => let l := own_addresses s in (l, Some l)
  end.
End addresses.

(** ** Listing and registering *)

Record SeedPeerInfo := {
  sp_NodeID : string; sp_NodeName : string; sp_Addresses : list string; sp_Status : string; sp_Models : list string;
  sp_LatencyMS : float64; sp_LoadScore : float64; sp_LastSeen : Z; sp_IsGateway : bool; sp_Version : string }.
Record SeedRegisterRequest := {
  q_NodeID : string; q_NodeName : string; q_Addresses : list string; q_Models : list string; q_Region : string; q_IsGateway : bool;
  q_Version : string; q_Secret : string; q_ShareToPool : bool }.

(** Zero when it was never seen. *)
Definition unix_seen (t : Time) : Z := if is_zero t then 0 else t / second.
Definition peer_of (version : string) (e : RouteEntry) : SeedPeerInfo := {|
  sp_NodeID := r_NodeID e; sp_NodeName := NodeName e; sp_Addresses := r_Addresses e; sp_Status := r_Status e; sp_Models := r_Models e;
  sp_LatencyMS := LatencyMS e; sp_LoadScore := LoadScore e; sp_LastSeen := unix_seen (r_LastSeen e);
  sp_IsGateway := negb (bool_decide (r_Models e = [])); sp_Version := version |}.
Definition too_old (now : Time) (e : RouteEntry) : bool := (30 * minute <? now - r_LastSeen e) && negb (is_zero (r_LastSeen e)).

(** The peers, how many of them are online, and this node, when it has an id. *)
Definition seed_entries (now : Time) (rt : option RouteTable) : list RouteEntry :=
  match rt with None => [] | Some rt => filter (λ e, too_old now e = false) (GetAll now rt) end.
Definition seed_self (now : Time) (version selfID name : string) (addresses : list string) (is_gateway : string) : option SeedPeerInfo :=
  if bool_decide (selfID = "") then None
  else Some {| sp_NodeID := selfID; sp_NodeName := name; sp_Addresses := addresses; sp_Status := "online"; sp_Models := [];
               sp_LatencyMS := f_zero; sp_LoadScore := f_zero; sp_LastSeen := now / second;
               sp_IsGateway := bool_decide (is_gateway = "true"); sp_Version := version |}.
Definition handleSeedPeers (now : Time) (version selfID name : string) (addresses : list string) (is_gateway : string) (rt : option RouteTable)
    : list SeedPeerInfo * Z * option SeedPeerInfo :=
  (peer_of version <$> seed_entries now rt,
   Z.of_nat (length (filter (λ e, r_Status e = "online") (seed_entries now rt))),
   match rt with None => None | Some _ => seed_self now version selfID name addresses is_gateway end).

Definition seen_online (now : Time) (models : option (list string)) (e : RouteEntry) : RouteEntry := {|
  r_NodeID := r_NodeID e; NodeName := NodeName e; r_Addresses := r_Addresses e; r_Status := "online";
  r_Models := default (r_Models e) models; LatencyMS := LatencyMS e; LoadScore := LoadScore e; r_LastSeen := now;
  FailCount := FailCount e; UptimeScore := UptimeScore e; IsGateway := IsGateway e; IsSeed := IsSeed e; r_UpdatedAt := r_UpdatedAt e;
  ReflexiveUDP := ReflexiveUDP e; NATType := NATType e; DHTAddr := DHTAddr e |}.
Definition register (now : Time) (id name : string) (addresses : list string) (models : option (list string)) (rt : RouteTable) : RouteTable :=
  UpdateEntry id (seen_online now models) (Put now id name addresses rt).

(** [secret] is the setting, "" when there is none. *)
Definition handleSeedRegister (now : Time) (secret : string) (is_post : bool) (body : option SeedRegisterRequest) (rt : option RouteTable)
    : Z * option RouteTable :=
  if negb is_post then (405, rt)
  else match body with
  | None => (400, rt)
  | Some q =>
      if bool_decide (q_NodeID q = "") then (400, rt)
      else if (128 <? String.length (q_NodeID q))%nat || (256 <? String.length (q_NodeName q))%nat then (400, rt)
      else if (20 <? length (q_Addresses q))%nat then (400, rt)
      else if bool_decide (secret = "") then (403, rt)
      else if negb (bool_decide (q_Secret q = secret)) then (401, rt)
      else (200, register now (q_NodeID q) (q_NodeName q) (q_Addresses q) (Some (q_Models q)) <$> rt)
  end.

(** The registration of the node with itself after the start. *)
Definition register_self (now : Time) (selfID name : string) (addresses : list string) (rt : RouteTable) : RouteTable :=
  if negb (bool_decide (addresses = [])) && negb (bool_decide (selfID = "")) then register now selfID name addresses None rt else rt.

(** ** Heartbeats *)

Record peerHeartbeatState := { missedCount : Z; lastHeartbeat : Time }.
Definition fresh_state : peerHeartbeatState := {| missedCount := 0; lastHeartbeat := time_zero |}.
Definition recordSuccessfulHeartbeat (now : Time) (id : string) (m : gmap string peerHeartbeatState) : gmap string peerHeartbeatState :=
  <[id := {| missedCount := 0; lastHeartbeat := now |}]> m.
Definition recordMissedHeartbeat (id : string) (m : gmap string peerHeartbeatState) : gmap string peerHeartbeatState :=
  let st := default fresh_state (m !! id) in <[id := {| missedCount := missedCount st +! 1; lastHeartbeat := lastHeartbeat st |}]> m.
Definition verifyHeartbeatAuth (id sig : string) : bool :=
  if bool_decide (sig = "") then false
  else match b64_decode sig with None => false | Some b => bool_decide (length b = 64%nat) end.

(** ** What the service guarantees *)

(** The route table changes only for a request with the configured secret, and there must be one. *)
Theorem registration_needs_secret now secret is_post body rt code rt' :
  handleSeedRegister now secret is_post body rt = (code, rt') → rt' ≠ rt →
  code = 200 ∧ ∃ q t, body = Some q ∧ is_post = true ∧ secret ≠ "" ∧ q_Secret q = secret ∧ rt = Some t ∧
    rt' = Some (register now (q_NodeID q) (q_NodeName q) (q_Addresses q) (Some (q_Models q)) t) ∧
    (String.length (q_NodeID q) ≤ 128)%nat ∧ (length (q_Addresses q) ≤ 20)%nat.
Proof.
  unfold handleSeedRegister. destruct is_post; cbn [negb]; [|by intros [= <- <-] []]. destruct body as [q|]; [|by intros [= <- <-] []].
  destruct (bool_decide (q_NodeID q = "")); [by intros [= <- <-] []|].
  destruct (Nat.ltb_spec 128 (String.length (q_NodeID q))); cbn [orb]; [by intros [= <- <-] []|].
  destruct (256 <? String.length (q_NodeName q))%nat; [by intros [= <- <-] []|].
  destruct (Nat.ltb_spec 20 (length (q_Addresses q))); [by intros [= <- <-] []|].
  destruct (bool_decide_reflect (secret = "")); [by intros [= <- <-] []|].
  destruct (bool_decide_reflect (q_Secret q = secret)); cbn [negb]; [|by intros [= <- <-] []].
  destruct rt as [t|]; intros [= <- <-]; [|by intros []]. intros _. split; [done|]. exists q, t. by split_and!.
Qed.

Lemma GetAll_elem now rt e : e ∈ GetAll now rt ↔ ∃ id, entries rt !! id = Some e ∧ unexpired now e = true.
Proof.
  unfold GetAll. rewrite list_elem_of_filter, list_elem_of_fmap. split.
  - intros [Hu ([id e'] & -> & He%elem_of_map_to_list)]. by exists id.
  - intros (id & He & Hu). split; [done|]. exists (id, e). split; [done|]. by apply elem_of_map_to_list.
Qed.

(** What is listed: the entries that are neither expired nor seen longer than half an hour ago; a node
    that was never seen is not too old. *)
Theorem peers_exact now version selfID name addresses gw rt p :
  p ∈ (handleSeedPeers now version selfID name addresses gw (Some rt)).1.1 ↔
  ∃ id e, entries rt !! id = Some e ∧ p = peer_of version e ∧ now - r_UpdatedAt e ≤ routeTTL ∧
    (r_LastSeen e = time_zero ∨ now - r_LastSeen e ≤ 30 * minute).
Proof.
  cbn [handleSeedPeers fst seed_entries]. rewrite list_elem_of_fmap. split.
  - intros (e & -> & [Ho (id & He & Hu)%GetAll_elem]%list_elem_of_filter). exists id, e. split_and!; [done|done| |].
    + unfold unexpired in Hu. apply negb_true_iff, Z.ltb_ge in Hu. lia.
    + unfold too_old, is_zero in Ho. apply andb_false_iff in Ho as [Ho|Ho]; [right; apply Z.ltb_ge in Ho; lia|left].
      by apply negb_false_iff, bool_decide_eq_true in Ho.
  - intros (id & e & He & -> & Hu & Ho). exists e. split; [done|]. apply list_elem_of_filter. split.
    + unfold too_old, is_zero. destruct Ho as [->|Ho]; [by rewrite bool_decide_eq_true_2, andb_false_r|]. by rewrite (proj2 (Z.ltb_ge _ _)) by lia.
    + apply GetAll_elem. exists id. split; [done|]. unfold unexpired. by rewrite (proj2 (Z.ltb_ge _ _)) by lia.
Qed.

(** A node that registered is listed with what it sent for ten minutes, and no longer unless something
    else renews it; whatever the table held of that id is gone, its failures included. *)
Theorem registered_is_listed now secret q t now' :
  q_Secret q = secret → secret ≠ "" → q_NodeID q ≠ "" → (String.length (q_NodeID q) ≤ 128)%nat → (String.length (q_NodeName q) ≤ 256)%nat →
  (length (q_Addresses q) ≤ 20)%nat → now ≤ now' →
  let '(code, rt') := handleSeedRegister now secret true (Some q) (Some t) in
  code = 200 ∧ ∃ t' e, rt' = Some t' ∧ entries t' !! q_NodeID q = Some e ∧
    e = seen_online now (Some (q_Models q)) (new_entry now (q_NodeID q) (q_NodeName q) (q_Addresses q)) ∧
    (∀ id, id ≠ q_NodeID q → entries t' !! id = entries t !! id) ∧
    (now' - now ≤ routeTTL → e ∈ seed_entries now' rt') ∧ (routeTTL < now' - now → e ∉ seed_entries now' rt').
Proof.
  intros Hs Hne Hid Hl1 Hl2 Hl3 Hn. unfold handleSeedRegister. cbn [negb]. rewrite (bool_decide_eq_false_2 (q_NodeID q = "")) by done.
  rewrite !(proj2 (Nat.ltb_ge _ _)) by done. cbn [orb]. rewrite (bool_decide_eq_false_2 (secret = "")), (bool_decide_eq_true_2 (q_Secret q = secret)) by done.
  cbn [negb fmap option_fmap option_map]. split; [done|]. set (t' := register _ _ _ _ _ t).
  set (e := seen_online now (Some (q_Models q)) (new_entry now (q_NodeID q) (q_NodeName q) (q_Addresses q))). exists t', e.
  assert (entries t' !! q_NodeID q = Some e) as He.
  { subst t'. cbn [register UpdateEntry set_entries entries Put]. by rewrite lookup_alter_eq, lookup_insert_eq. }
  split_and!; [done|done|done| | |].
  - intros id Hne'. subst t'. cbn [register UpdateEntry set_entries entries Put]. by rewrite lookup_alter_ne, lookup_insert_ne by done.
  - intros Ht. cbn [seed_entries]. apply list_elem_of_filter. split.
    + unfold too_old. cbn [e seen_online r_LastSeen]. rewrite (proj2 (Z.ltb_ge _ _)); [done|]. unfold routeTTL, minute, second in *. lia.
    + apply GetAll_elem. exists (q_NodeID q). split; [done|]. unfold unexpired. cbn. by rewrite (proj2 (Z.ltb_ge _ _)).
  - intros Ht Hin. cbn [seed_entries] in Hin. apply list_elem_of_filter in Hin as [_ (id & _ & Hu)%GetAll_elem].
    unfold unexpired in Hu. cbn in Hu. by rewrite (proj2 (Z.ltb_lt _ _)) in Hu.
Qed.

(** *** The heartbeats of a peer *)

Inductive beat := Heard (now : Time) | Missed.
Definition beat_step (m : gmap string peerHeartbeatState) (b : string * beat) : gmap string peerHeartbeatState :=
  match b.2 with Heard now => recordSuccessfulHeartbeat now b.1 m | Missed => recordMissedHeartbeat b.1 m end.
(** The misses of a peer since it was last heard, the latest first. *)
Fixpoint misses (id : string) (l : list (string * beat)) : Z :=
  match l with
  | [] => 0
  | (i, b) :: l => if bool_decide (i = id) then match b with Heard _ => 0 | Missed => misses id l +! 1 end else misses id l
  end.

(** The count of a peer is the number of its misses since it was last heard, whatever the others do. *)
Theorem misses_are_counted id l :
  missedCount (default fresh_state (foldl beat_step ∅ l !! id)) = misses id (reverse l).
Proof.
  induction l as [|[i b] l IH] using rev_ind; [done|]. rewrite foldl_app, reverse_app. cbn [foldl]. change (reverse [(i, b)] ++ reverse l) with ((i, b) :: reverse l).
  cbn [misses]. rewrite <- IH. unfold beat_step. cbn [fst snd]. case_bool_decide as E.
  - subst i. destruct b as [now|]; unfold recordSuccessfulHeartbeat, recordMissedHeartbeat; by rewrite lookup_insert_eq.
  - destruct b as [now|]; unfold recordSuccessfulHeartbeat, recordMissedHeartbeat; by rewrite lookup_insert_ne.
Qed.

(** ** Concrete cases *)

Section demo.
Let settings : address_settings := {| public_url := ""; service_port := "8000"; lan_ip := "" |}.

(** A node that starts without the network keeps its empty list of addresses; an IPv6 address makes an
    address that is none. *)
Example no_address_is_kept :
  let online svc := Some (200, "203.0.113.7") in
  let public ip := true in
  let cached := (getSelfAddresses (λ _, None) public settings None).2 in
  (getSelfAddresses online public settings cached).1 = [] ∧
  (getSelfAddresses online public settings None).1 = ["https://203.0.113.7:8000"] ∧
  (getSelfAddresses (λ _, Some (200, "2001:db8::1")) public settings None).1 = ["https://2001:db8::1:8000"].
Proof. vm_compute. done. Qed.

Let q : SeedRegisterRequest := {|
  q_NodeID := "n"; q_NodeName := "node"; q_Addresses := ["https://n"]; q_Models := ["m"]; q_Region := "eu"; q_IsGateway := true;
  q_Version := "9"; q_Secret := "s"; q_ShareToPool := true |}.

(** What a node says of being a gateway, and of its version and region, is not kept. *)
Example registered_fields_are_lost :
  let '(_, rt) := handleSeedRegister 0 "s" true (Some q) (Some (initRouteTable None)) in
  (sp_Version <$> (handleSeedPeers 1 "1.0" "" "" [] "" rt).1.1, IsGateway <$> seed_entries 1 rt) = (["1.0"], [false]).
Proof. vm_compute. done. Qed.

Example any_signature_passes : verifyHeartbeatAuth "n" (b64_encode (replicate 64 0)) = true.
Proof. vm_compute. done. Qed.

Lemma registration_needs_secret_witness :
  ∃ q', Some q = Some q' ∧ q_Secret q' = "s" ∧ (String.length (q_NodeID q') ≤ 128)%nat.
Proof.
  destruct (handleSeedRegister 0 "s" true (Some q) (Some (initRouteTable None))) as [code rt'] eqn:E.
  destruct (registration_needs_secret _ _ _ _ _ _ _ E) as (_ & q' & t & H1 & _ & _ & H2 & _ & _ & H3 & _); [|by exists q'].
  injection E as <- <-. intros H. apply (f_equal (λ o, match o with Some t => bool_decide (is_Some (entries t !! "n")) | None => false end)) in H.
  by vm_compute in H.
Defined.

Lemma registered_is_listed_witness :
  let '(code, rt') := handleSeedRegister 0 "s" true (Some q) (Some (initRouteTable None)) in
  code = 200 ∧ ∃ e, e ∈ seed_entries minute rt'.
Proof.
  pose proof (registered_is_listed 0 "s" q (initRouteTable None) minute) as H.
  destruct (handleSeedRegister 0 "s" true (Some q) (Some (initRouteTable None))) as [code rt'].
  destruct H as [Hc (t' & e & _ & _ & _ & _ & He & _)]; [reflexivity|discriminate|discriminate|apply (bool_decide_unpack _); vm_compute; exact I..|]. split; [exact Hc|]. exists e. apply He. vm_compute. discriminate.
Defined.
End demo.
