(* ===== verification/FreePool.v ===== *)
(** * The pool of free providers (free_pool.go, free_pool_handlers.go)

    Once a day the node reads a public list of free services and registers each as a provider. The list
    is a value; its names are ASCII. Priorities and keys are those of [Providers]. *)

From S2P Require Import Prelude GoTime Bytes Providers.
From S2P Require LanAnnounce.

Definition freePoolPriority : Z := 100.

(** ** The list *)

Record awesomeModel := { am_ID : string; am_Name : string; am_RateLimit : string }.
Record awesomeProvider := {
  ap_Name : string; ap_Country : string; ap_Flag : string; ap_URL : string; ap_BaseURL : string; ap_Description : string;
  ap_Models : list awesomeModel }.

(** One pass of [strings.ReplaceAll(s, "--", "-")], and the passes until no pair is left. *)
Fixpoint halve_dashes (s : string) : string :=
  match s with
  | String a s' =>
      match s' with
      | String b s'' => if Ascii.eqb a "-" && Ascii.eqb b "-" then String "-" (halve_dashes s'') else String a (halve_dashes s')
      | EmptyString => s
      end
  | EmptyString => ""
  end.
Fixpoint collapse (fuel : nat) (s : string) : string :=
  match fuel with
  | O => s
  | S fuel => if str_contains "--" s then collapse fuel (halve_dashes s) else s
  end.
(** [strings.Trim(s, "-")]. *)
Fixpoint trim_dash_left (s : string) : string :=
  match s with String c s' => if Ascii.eqb c "-" then trim_dash_left s' else s | EmptyString => "" end.
Fixpoint trim_dash_right (s : string) : string :=
  match s with
  | String c s' => let r := trim_dash_right s' in if Ascii.eqb c "-" && bool_decide (r = "") then "" else String c r
  | EmptyString => ""
  end.
Definition slug_marks (s : string) : string :=
  replace_char "_" "-" (replace_char "/" "-" (remove_char ")" (remove_char "(" (remove_char "." (replace_char " " "-" (LanAnnounce.to_lower s)))))).
Definition slugify (s : string) : string :=
  let s := slug_marks s in trim_dash_right (trim_dash_left (collapse (String.length s) s)).

(** [fmt.Sscanf(s, "%d", &n)]: blanks, a sign, and the digits there are; 0 when there are none or too many. *)
Fixpoint digits_prefix (s : string) : string :=
  match s with
  | String c s' => match char_digit c with Some _ => String c (digits_prefix s') | None => "" end
  | EmptyString => ""
  end.
Definition scan_int (s : string) : Z :=
  match trim_left s with
  | String c s' =>
      if Ascii.eqb c "+" || Ascii.eqb c "-" then default 0 (parse_int64 (String c (digits_prefix s')))
      else default 0 (parse_int64 (digits_prefix (String c s')))
  | EmptyString => 0
  end.
Definition trim_suffix (suf s : string) : string :=
  if LanAnnounce.has_suffix suf s then String.substring 0 (String.length s - String.length suf) s else s.
Definition part_rpm (p : string) : Z := scan_int (remove_char "," (trimSpace (trim_suffix "RPM" p))).
Definition parseRPM (rateLimit : string) : Z :=
  match head (filter (λ p, str_contains "RPM" p = true) (trimSpace <$> split_on "," rateLimit)) with
  | Some p => part_rpm p
  | None => 0
  end.

Definition free_model (id name : string) : ModelDef := {|
  md_ID := id; md_Name := name; Tier := ""; md_Enabled := true; EnabledByKeys := ∅; AvailableKeys := []; Source := "" |}.
Definition named (m : awesomeModel) : bool := negb (bool_decide (am_ID m = "")) && negb (bool_decide (am_ID m = "null")).
Definition is_anonymous (ap : awesomeProvider) : bool := bool_decide (ap_Name ap ∈ ["OVHcloud AI Endpoints"; "Kilo Code"]).
(** [None] to skip the entry. *)
Definition mapAwesomeProvider (ap : awesomeProvider) : option (string * list ModelDef * bool * string) :=
  if bool_decide (ap_Name ap ∈ ["Cohere"; "Ollama Cloud"; "Cloudflare Workers AI"]) then None
  else
    let models := (λ m, free_model (am_ID m) (am_Name m)) <$> filter (λ m, named m = true) (ap_Models ap) in
    if bool_decide (length models = 0%nat) then None
    else Some ("free-" +:+ slugify (ap_Name ap), models, is_anonymous ap,
               if bool_decide (ap_Name ap = "Google Gemini") then "https://generativelanguage.googleapis.com/v1beta/openai" else ap_BaseURL ap).

(** ** Registering *)

Definition anonymous_key (now : string) : APIKeyConfig := {|
  a_ID := "free-anonymous"; Alias := "Anonymous (no key required)"; a_Key := "free-anonymous"; a_Quota := 0; QuotaDaily := 0;
  QuotaMonthly := 0; Used := 0; UsedDaily := 0; UsedMonthly := 0; LastDailyReset := ""; LastMonthlyReset := "";
  a_Access := "shared"; a_Enabled := true; a_Priority := 0; a_ExpiresAt := ""; a_CreatedAt := now; a_UpdatedAt := now |}.
Definition shared_access : ProviderAccessControl := {| ShareToPool := true; GuestPoolPercent := 0; MigrationAllowPublic := None |}.
Definition free_settings (description url : string) (rpm : Z) : ProviderSettings := {|
  RateLimitEnabled := 0 <? rpm; DailyRequestLimit := 0; RateLimitPerMin := if 0 <? rpm then rpm else 0; PrivateTokensDaily := 0;
  PrivateQuotaMonthly := 0; PrivateQuotaTotal := 0; SharedTokensDaily := 0; SharedQuotaMonthly := 0; SharedQuotaTotal := 0;
  p_Description := description; Icon := "free"; APIKeyURL := url; HealthCheckEndpoint := ""; ModelBotMap := ∅; KeyOptional := false |}.

(** Whether an id is in the setting of the providers the owner deleted. *)
Definition was_deleted (deleted id : string) : bool := str_contains ("," +:+ id +:+ ",") ("," +:+ deleted +:+ ",").

Record FreePoolProviderInfo := {
  f_ID : string; f_Name : string; f_BaseURL : string; f_Anonymous : bool; f_ModelCount : Z; f_Enabled : bool; f_APIKeyURL : string; f_Country : string }.
Record FreePoolStats := {
  LastSync : string; SourceUpdated : string; TotalProviders : Z; TotalModels : Z; ActiveProviders : Z; st_AutoSync : bool;
  st_Providers : list FreePoolProviderInfo }.
Record FreePoolManager := { autoSync : bool; stats : FreePoolStats }.

Section free_pool.
Context `{Encryptor} {loc : Location} (presetProviders : list Provider).

Abbreviation get := (GetRaw presetProviders).
Definition add (now : Time) (p : Provider) (m : ProviderManager) : ProviderManager := (Add (loc := loc) now p m).2.2.

(** The hard-coded services: id, name, address, models. *)
Definition defaultFreeProviders : list (string * string * string * list string) :=
  [("free-kilo-code", "Kilo Code", "https://api.kilo.ai/api/gateway",
    ["stepfun/step-3.7-flash:free"; "inclusionai/ling-3.0-flash:free"; "ai21/jamba-large-1.7"; "ai21/jamba-mini-1.7";
     "openai/gpt-4o-mini"; "openai/gpt-4o"; "anthropic/claude-3.5-sonnet"; "google/gemini-2.0-flash-exp";
     "meta-llama/llama-3.3-70b-instruct"]);
   ("free-ovhcloud-ai-endpoints", "OVHcloud AI Endpoints", "https://oai.endpoints.kepler.ai.cloud.ovh.net/v1",
    ["Meta-Llama-3_3-70B-Instruct"; "Mistral-7B-Instruct-v0.3"; "Mistral-Nemo-Instruct-2407"; "Qwen3.5-397B-A17B"; "Qwen3.6-27B";
     "gpt-oss-120b"; "gpt-oss-20b"])].
Definition seed_one (now : Time) (deleted : string) (m : ProviderManager) (dp : string * string * string * list string) : ProviderManager :=
  let '(id, name, url, models) := dp in
  if was_deleted deleted id then m
  else match get id m with
  | Some _ => m
  | None =>
      let stamp := fmt_rfc3339 loc now in
      add now {| p_ID := id; p_Name := name; p_Type := "openai_compatible"; BaseURL := url; APIKey := "free-anonymous"; p_Enabled := true;
                 Models := (λ x, free_model x x) <$> models; p_Priority := freePoolPriority; TokenLimit := 0; p_Proxy := ""; Owner := "";
                 AccessControl := shared_access; APIKeys := [anonymous_key stamp];
                 Settings := free_settings "Default free provider — no API key required" "" 0; p_CreatedAt := stamp; p_UpdatedAt := stamp |} m
  end.
Definition seedDefaultProviders (now : Time) (deleted : string) (m : ProviderManager) : ProviderManager :=
  foldl (seed_one now deleted) m defaultFreeProviders.

Definition has_keys (p : Provider) : bool :=
  negb (bool_decide (APIKey p = "")) && negb (bool_decide (APIKey p = "free-anonymous")) || negb (bool_decide (APIKeys p = [])).
Definition wanted (anonymous : bool) (existing : option Provider) : bool :=
  match existing with
  | None => anonymous
  | Some e => if p_Enabled e then anonymous || has_keys e else false
  end.
Definition free_provider (now : Time) (ap : awesomeProvider) (id : string) (models : list ModelDef) (anonymous : bool) (url : string)
    (existing : option Provider) : Provider :=
  let stamp := fmt_rfc3339 loc now in
  let kept := match existing with Some e => if has_keys e then Some e else None | None => None end in
  {| p_ID := id; p_Name := ap_Flag ap +:+ " " +:+ ap_Name ap; p_Type := "openai_compatible"; BaseURL := url;
     APIKey := if anonymous then "free-anonymous" else from_option APIKey "" kept; p_Enabled := wanted anonymous existing; Models := models;
     p_Priority := freePoolPriority; TokenLimit := 0; p_Proxy := ""; Owner := ""; AccessControl := shared_access;
     APIKeys := if anonymous then [anonymous_key stamp] else from_option APIKeys [] kept;
     Settings := free_settings (ap_Description ap) (ap_URL ap) (match ap_Models ap with x :: _ => parseRPM (am_RateLimit x) | [] => 0 end);
     p_CreatedAt := from_option p_CreatedAt "" existing; p_UpdatedAt := stamp |}.

(** One entry of the list: the provider and what the page says of it. *)
Definition sync_one (now : Time) (deleted : string) (ap : awesomeProvider) (m : ProviderManager) : option FreePoolProviderInfo * ProviderManager :=
  match mapAwesomeProvider ap with
  | None => (None, m)
  | Some (id, models, anonymous, url) =>
      if was_deleted deleted id then (None, m)
      else
        let p := free_provider now ap id models anonymous url (get id m) in
        (Some {| f_ID := id; f_Name := p_Name p; f_BaseURL := url; f_Anonymous := anonymous; f_ModelCount := Z.of_nat (length models);
                 f_Enabled := p_Enabled p; f_APIKeyURL := ap_URL ap; f_Country := ap_Country ap |}, add now p m)
  end.
Definition sync_all (now : Time) (deleted : string) (m : ProviderManager) (l : list awesomeProvider) : list FreePoolProviderInfo * ProviderManager :=
  foldl (λ '(infos, m) ap, let '(i, m) := sync_one now deleted ap m in (infos ++ option_list i, m)) ([], m) l.

Definition total_models (l : list FreePoolProviderInfo) : Z := foldl (λ acc p, acc +! f_ModelCount p) 0 l.
Definition active_count (l : list FreePoolProviderInfo) : Z := foldl (λ acc p, if f_Enabled p then acc +! 1 else acc) 0 l.

(** [data] is the list read and its date, [None] when it could not be read. *)
Definition Sync (now : Time) (deleted : string) (data : option (string * list awesomeProvider)) (f : FreePoolManager) (m : ProviderManager)
    : bool * FreePoolManager * ProviderManager :=
  match data with
  | None => (false, f, m)
  | Some (updated, l) =>
      let '(infos, m) := sync_all now deleted m l in
      (true, {| autoSync := autoSync f;
                stats := {| LastSync := fmt_rfc3339 loc now; SourceUpdated := updated; TotalProviders := Z.of_nat (length infos);
                            TotalModels := total_models infos; ActiveProviders := active_count infos; st_AutoSync := autoSync f;
                            st_Providers := infos |} |}, m)
  end.

(** ** Keys of the owner *)

Definition with_enabled (p : Provider) (key : string) (ks : list APIKeyConfig) (b share : bool) (prio : Z) : Provider := {|
  p_ID := p_ID p; p_Name := p_Name p; p_Type := p_Type p; BaseURL := BaseURL p; APIKey := key; p_Enabled := b; Models := Models p;
  p_Priority := prio; TokenLimit := TokenLimit p; p_Proxy := p_Proxy p; Owner := Owner p;
  AccessControl := {| ShareToPool := share; GuestPoolPercent := GuestPoolPercent (AccessControl p);
                      MigrationAllowPublic := MigrationAllowPublic (AccessControl p) |};
  APIKeys := ks; Settings := Settings p; p_CreatedAt := p_CreatedAt p; p_UpdatedAt := p_UpdatedAt p |}.

Definition handleFreePoolSetKey (now : Time) (id : string) (key : option string) (m : ProviderManager) : Z * ProviderManager :=
  if bool_decide (id = "") then (400, m)
  else match key with
  | None => (400, m)
  | Some key =>
      if bool_decide (key = "") || bool_decide (key = "free-anonymous") then (400, m)
      else match get id m with
      | None => (404, m)
      | Some e =>
          if negb (has_prefix "free-" id) then (400, m)
          else (200, add now (with_enabled e key [] true true (if p_Priority e =? 0 then freePoolPriority else p_Priority e)) m)
      end
  end.
Definition handleFreePoolRemoveKey (now : Time) (id : string) (m : ProviderManager) : Z * ProviderManager :=
  if bool_decide (id = "") then (400, m)
  else match get id m with
  | None => (404, m)
  | Some e => (200, add now (with_enabled e "" [] false (ShareToPool (AccessControl e)) (p_Priority e)) m)
  end.
Definition SetAutoSync (b : bool) (f : FreePoolManager) : FreePoolManager :=
  {| autoSync := b; stats := {| LastSync := LastSync (stats f); SourceUpdated := SourceUpdated (stats f); TotalProviders := TotalProviders (stats f);
       TotalModels := TotalModels (stats f); ActiveProviders := ActiveProviders (stats f); st_AutoSync := b; st_Providers := st_Providers (stats f) |} |}.
(** What the page shows after the models of a provider were read, and after its key was removed. *)
Definition counted (id : string) (count : Z) (enable : bool) (l : list FreePoolProviderInfo) : list FreePoolProviderInfo :=
  (λ p, if bool_decide (f_ID p = id)
        then {| f_ID := f_ID p; f_Name := f_Name p; f_BaseURL := f_BaseURL p; f_Anonymous := f_Anonymous p; f_ModelCount := count;
                f_Enabled := f_Enabled p || enable; f_APIKeyURL := f_APIKeyURL p; f_Country := f_Country p |}
        else p) <$> l.
End free_pool.

(** ** What the pool guarantees *)

(** *** Names *)

Lemma halve_length s : str_contains "--" s = true → (String.length (halve_dashes s) < String.length s)%nat.
Proof.
  assert (∀ n s, (String.length s ≤ n)%nat → (String.length (halve_dashes s) ≤ String.length s)%nat ∧
    (str_contains "--" s = true → (String.length (halve_dashes s) < String.length s)%nat)) as H; [|by apply (H (String.length s))].
  clear. induction n as [|n IH]; intros [|a [|b s]] Hn; try (cbn in Hn; lia); try (split; [done|done]).
  - split; [done|]. intros Hc. exfalso. by destruct a as [[][][][][][][][]].
  - cbn [halve_dashes]. destruct (Ascii.eqb a "-" && Ascii.eqb b "-") eqn:E.
    + destruct (IH s) as [H1 _]; [cbn in Hn |- *; lia|]. cbn. split; lia.
    + destruct (IH (String b s)) as [H1 H2]; [cbn in Hn |- *; lia|]. cbn [String.length]. split; [cbn in H1; lia|]. intros Hc.
      assert (str_contains "--" (String b s) = true) as Hc'; [|specialize (H2 Hc'); cbn in H2 |- *; lia].
      change (has_prefix "--" (String a (String b s)) || str_contains "--" (String b s) = true) in Hc.
      apply orb_true_iff in Hc as [Hc|Hc]; [|done]. exfalso. unfold has_prefix in Hc. cbn [strip_prefix] in Hc.
      rewrite !(Ascii.eqb_sym "-") in Hc. destruct (Ascii.eqb a "-"), (Ascii.eqb b "-"); done.
Qed.

(** The loop ends: the length of the name is fuel enough. *)
Lemma collapse_done n s : (String.length s ≤ n)%nat → str_contains "--" (collapse n s) = false.
Proof.
  revert s. induction n as [|n IH]; intros s Hn; [by destruct s; [|cbn in Hn; lia]|]. cbn [collapse].
  destruct (str_contains "--" s) eqn:E; [|done]. apply IH. pose proof (halve_length s E). lia.
Qed.

Lemma double_tail c s : str_contains "--" (String c s) = false → str_contains "--" s = false.
Proof. change (str_contains "--" (String c s)) with (has_prefix "--" (String c s) || str_contains "--" s). by intros [_ ?]%orb_false_iff. Qed.
Lemma trim_left_double s : str_contains "--" s = false → str_contains "--" (trim_dash_left s) = false.
Proof. induction s as [|c s IH]; [done|]. intros Hs. cbn [trim_dash_left]. destruct (Ascii.eqb c "-"); [|done]. by apply IH, (double_tail c). Qed.
Lemma trim_right_head s c r : trim_dash_right s = String c r → ∃ s', s = String c s'.
Proof. destruct s as [|x s]; [done|]. cbn. destruct (_ && _); [done|]. intros [= <- _]. by exists s. Qed.
Lemma trim_right_double s : str_contains "--" s = false → str_contains "--" (trim_dash_right s) = false.
Proof.
  induction s as [|c s IH]; [done|]. intros Hs. cbn [trim_dash_right]. destruct (Ascii.eqb c "-" && _); [done|].
  change (has_prefix "--" (String c (trim_dash_right s)) || str_contains "--" (trim_dash_right s) = false).
  rewrite (IH (double_tail c s Hs)), orb_false_r.
  change (has_prefix "--" (String c s) || str_contains "--" s = false) in Hs. apply orb_false_iff in Hs as [Hs _].
  unfold has_prefix in *. cbn [strip_prefix] in *. destruct (Ascii.eqb "-" c); [|done].
  destruct (trim_dash_right s) as [|x r] eqn:E; [done|]. destruct (trim_right_head s x r E) as [s' ->]. by destruct (Ascii.eqb "-" x).
Qed.

Definition starts_dash (s : string) : bool := match s with String c _ => Ascii.eqb c "-" | EmptyString => false end.
Fixpoint ends_dash (s : string) : bool :=
  match s with String c s' => match s' with EmptyString => Ascii.eqb c "-" | _ => ends_dash s' end | EmptyString => false end.

(** A slug has no two dashes in a row and none at its ends, whatever the name. *)
Theorem slug_is_clean name :
  str_contains "--" (slugify name) = false ∧ starts_dash (slugify name) = false ∧ ends_dash (slugify name) = false.
Proof.
  unfold slugify. set (s := slug_marks name). pose proof (collapse_done (String.length s) s (Nat.le_refl _)) as Hc.
  set (c := collapse (String.length s) s) in *. split; [by apply trim_right_double, trim_left_double|].
  assert (starts_dash (trim_dash_left c) = false) as Hl.
  { clear. induction c as [|x c IH]; [done|]. cbn [trim_dash_left]. destruct (Ascii.eqb x "-") eqn:E; [done|]. cbn. done. }
  split.
  - destruct (trim_dash_right (trim_dash_left c)) as [|x r] eqn:E; [done|]. destruct (trim_right_head _ _ _ E) as [s' Hs]. by rewrite Hs in Hl.
  - generalize (trim_dash_left c). clear. intros t. induction t as [|x t IH]; [done|]. cbn [trim_dash_right].
    destruct (Ascii.eqb x "-" && bool_decide (trim_dash_right t = "")) eqn:E; [done|]. cbn [ends_dash].
    destruct (trim_dash_right t) as [|y r] eqn:Er; [|done]. by rewrite (bool_decide_eq_true_2 _ eq_refl), andb_true_r in E.
Qed.

(** *** Providers *)

Section free_safety.
Context `{Encryptor} {loc : Location} (presetProviders : list Provider).

Abbreviation get := (GetRaw presetProviders).
Abbreviation sync1 := (sync_one (loc := loc) presetProviders).
Abbreviation syncs := (sync_all (loc := loc) presetProviders).

Lemma get_add now p m id :
  get id (add (loc := loc) now p m) =
    if bool_decide (p_ID p = id)
    then Some (with_stamps p (match providers m !! p_ID p with Some e => p_CreatedAt e | None => fmt_rfc3339 loc now end) (fmt_rfc3339 loc now))
    else get id m.
Proof.
  unfold GetRaw, add, Add, add_locked, save, set_providers. cbn [snd providers]. case_bool_decide as E.
  - subst id. rewrite lookup_insert_eq. by destruct p.
  - by rewrite lookup_insert_ne.
Qed.

Lemma map_id ap id models anon url : mapAwesomeProvider ap = Some (id, models, anon, url) → id = "free-" +:+ slugify (ap_Name ap) ∧ anon = is_anonymous ap ∧ models ≠ [].
Proof.
  unfold mapAwesomeProvider. case_bool_decide; [done|]. cbv zeta. case_bool_decide as Hl; [done|]. intros [= <- <- <- _]. split_and!; [done|done|].
  intros E. by rewrite E in Hl.
Qed.

Definition listed (id : string) (l : list awesomeProvider) : Prop := ∃ ap, ap ∈ l ∧ "free-" +:+ slugify (ap_Name ap) = id.

Lemma sync_other now deleted ap m id :
  "free-" +:+ slugify (ap_Name ap) ≠ id ∨ was_deleted deleted id = true → get id (sync1 now deleted ap m).2 = get id m.
Proof.
  intros Hid. unfold sync_one. destruct (mapAwesomeProvider ap) as [[[[id' models] anon] url]|] eqn:E; [|done].
  destruct (map_id _ _ _ _ _ E) as (-> & _). set (id' := "free-" +:+ slugify (ap_Name ap)) in *.
  destruct (was_deleted deleted id') eqn:Ed; [done|]. cbn [snd]. rewrite get_add. cbn [free_provider p_ID].
  rewrite bool_decide_eq_false_2; [done|]. intros Eid. destruct Hid; congruence.
Qed.

Lemma sync_all_snd now deleted l m :
  (syncs now deleted m l).2 = foldl (λ m ap, (sync1 now deleted ap m).2) m l.
Proof.
  unfold sync_all. assert (∀ i m, (foldl (λ '(infos, m) ap, let '(i, m) := sync1 now deleted ap m in (infos ++ option_list i, m)) (i, m) l).2
    = foldl (λ m ap, (sync1 now deleted ap m).2) m l) as Hg; [|apply Hg].
  induction l as [|ap l IH]; intros i m'; [done|]. cbn [foldl]. destruct (sync1 now deleted ap m') as [i' m''] eqn:E. by rewrite IH.
Qed.

(** Only the providers of the list are touched, and none the owner has deleted. *)
Theorem sync_touches_listed now deleted l m id :
  ¬ listed id l ∨ was_deleted deleted id = true → get id (syncs now deleted m l).2 = get id m.
Proof.
  intros Hid. rewrite sync_all_snd. revert m. induction l as [|ap l IH]; intros m; [done|]. cbn [foldl]. rewrite IH.
  - apply sync_other. destruct Hid as [Hid|?]; [left|by right]. intros Hap. apply Hid. exists ap. split; [by left|done].
  - destruct Hid as [Hid|?]; [left|by right]. intros (ap' & Hin & Hap). apply Hid. exists ap'. split; [by right|done].
Qed.

Lemma sync_one_get now deleted ap m id e :
  get id m = Some e → "free-" +:+ slugify (ap_Name ap) = id →
  get id (sync1 now deleted ap m).2 = Some e ∨
  ∃ e', get id (sync1 now deleted ap m).2 = Some e' ∧ p_Enabled e' = p_Enabled e && (is_anonymous ap || has_keys e) ∧
    (is_anonymous ap = false → has_keys e = true → APIKey e' = APIKey e ∧ APIKeys e' = APIKeys e).
Proof.
  intros He Hid. unfold sync_one. destruct (mapAwesomeProvider ap) as [[[[id' models] anon] url]|] eqn:E; [|by left].
  destruct (map_id _ _ _ _ _ E) as (-> & -> & _). rewrite Hid. destruct (was_deleted deleted id); [by left|]. right. cbn [snd].
  rewrite get_add. cbn [free_provider p_ID]. rewrite bool_decide_eq_true_2, He by done. eexists. split; [done|].
  cbn [with_stamps p_Enabled APIKey APIKeys free_provider wanted]. split; [by destruct (p_Enabled e)|]. intros -> ->. done.
Qed.

(** What the owner disabled stays disabled, whatever lists are read, in any number, and the keys of a
    service that needs one are kept. *)
Theorem disabled_stays_disabled (h : list (Time * string * list awesomeProvider)) m id e :
  get id m = Some e → p_Enabled e = false →
  ∃ e', get id (foldl (λ m s, (syncs s.1.1 s.1.2 m s.2).2) m h) = Some e' ∧ p_Enabled e' = false.
Proof.
  revert m e. induction h as [|[[now deleted] l] h IH]; intros m e He Hd; [by exists e|]. cbn [foldl fst snd].
  assert (∃ e', get id (syncs now deleted m l).2 = Some e' ∧ p_Enabled e' = false) as (e' & He' & Hd'); [|by apply (IH _ e')].
  rewrite sync_all_snd. clear IH. revert m e He Hd. induction l as [|ap l IH]; intros m e He Hd; [by exists e|]. cbn [foldl].
  destruct (decide ("free-" +:+ slugify (ap_Name ap) = id)) as [Hid|Hid].
  - destruct (sync_one_get now deleted ap m id e He Hid) as [He'|(e' & He' & Hd' & _)]; [by apply (IH _ e)|].
    apply (IH _ e'); [done|]. by rewrite Hd', Hd.
  - apply (IH _ e); [|done]. rewrite <- He. apply sync_other. by left.
Qed.

(** The keys the owner gave a service that needs one survive every list, and so does its being enabled. *)
Theorem owner_keys_are_kept (h : list (Time * string * list awesomeProvider)) m id e :
  get id m = Some e → has_keys e = true → p_Enabled e = true →
  (∀ s ap, s ∈ h → ap ∈ s.2 → "free-" +:+ slugify (ap_Name ap) = id → is_anonymous ap = false) →
  ∃ e', get id (foldl (λ m s, (syncs s.1.1 s.1.2 m s.2).2) m h) = Some e' ∧ p_Enabled e' = true ∧ APIKey e' = APIKey e ∧ APIKeys e' = APIKeys e.
Proof.
  revert m e. induction h as [|[[now deleted] l] h IH]; intros m e He Hk Hd Ha; [by exists e|]. cbn [foldl fst snd].
  assert (∃ e', get id (syncs now deleted m l).2 = Some e' ∧ p_Enabled e' = true ∧ APIKey e' = APIKey e ∧ APIKeys e' = APIKeys e)
    as (e' & He' & Hd' & Hk1 & Hk2).
  { rewrite sync_all_snd. assert (∀ ap, ap ∈ l → "free-" +:+ slugify (ap_Name ap) = id → is_anonymous ap = false) as Hal.
    { intros ap Hin. apply (Ha (now, deleted, l) ap); [by left|done]. }
    clear IH Ha. revert m e He Hk Hd. induction l as [|ap l IH]; intros m e He Hk Hd; [by exists e|]. cbn [foldl].
    assert (∀ ap, ap ∈ l → "free-" +:+ slugify (ap_Name ap) = id → is_anonymous ap = false) as Hal' by (intros ap' Hin; apply Hal; by right).
    destruct (decide ("free-" +:+ slugify (ap_Name ap) = id)) as [Hid|Hid].
    - destruct (sync_one_get now deleted ap m id e He Hid) as [He'|(e' & He' & Hd' & Hkeep)]; [by apply (IH Hal' _ e)|].
      rewrite Hd, Hk, orb_true_r in Hd'. destruct (Hkeep (Hal ap ltac:(by left) Hid) Hk) as [Hk1 Hk2].
      rewrite <- Hk1, <- Hk2. apply (IH Hal' _ e' He'); [|done]. unfold has_keys. by rewrite Hk1, Hk2.
    - apply (IH Hal' _ e); [|done|done]. rewrite <- He. apply sync_other. by left. }
  rewrite <- Hk1, <- Hk2. apply (IH _ e'); [done| |done|].
  - unfold has_keys. by rewrite Hk1, Hk2.
  - intros s ap Hs. apply Ha. by right.
Qed.

(** An owner's own keys for a service that needs none are gone after the next list that has it. *)
Theorem anonymous_keys_are_lost now deleted ap m id models url :
  mapAwesomeProvider ap = Some (id, models, true, url) → was_deleted deleted id = false →
  ∃ e', get id (sync1 now deleted ap m).2 = Some e' ∧ APIKey e' = "free-anonymous" ∧ APIKeys e' = [anonymous_key (fmt_rfc3339 loc now)].
Proof.
  intros E Hd. unfold sync_one. rewrite E, Hd. cbn [snd]. rewrite get_add. cbn [free_provider p_ID]. rewrite bool_decide_eq_true_2 by done.
  by eexists.
Qed.

(** The numbers of the page are those of the providers it lists. *)
Theorem stats_are_of_the_list now deleted data f m f' m' :
  Sync (loc := loc) presetProviders now deleted (Some data) f m = (true, f', m') →
  TotalProviders (stats f') = Z.of_nat (length (st_Providers (stats f'))) ∧
  TotalModels (stats f') = wsum (f_ModelCount <$> st_Providers (stats f')) ∧
  Forall (λ p, has_prefix "free-" (f_ID p) = true ∧ 0 < f_ModelCount p) (st_Providers (stats f')).
Proof.
  unfold Sync. destruct data as [updated l].
  assert (Forall (λ p, has_prefix "free-" (f_ID p) = true ∧ 0 < f_ModelCount p) (syncs now deleted m l).1) as Hf.
  { unfold sync_all. assert (∀ i m, Forall (λ p, has_prefix "free-" (f_ID p) = true ∧ 0 < f_ModelCount p) i →
      Forall (λ p, has_prefix "free-" (f_ID p) = true ∧ 0 < f_ModelCount p)
        (foldl (λ '(infos, m) ap, let '(i, m) := sync1 now deleted ap m in (infos ++ option_list i, m)) (i, m) l).1) as Hg; [|by apply Hg].
    induction l as [|ap l IH]; intros i m0 Hi; [done|]. cbn [foldl]. destruct (sync1 now deleted ap m0) as [i' m''] eqn:E. apply IH.
    apply Forall_app. split; [done|]. destruct i' as [p|]; [|done]. cbn [option_list]. apply Forall_singleton. unfold sync_one in E.
    destruct (mapAwesomeProvider ap) as [[[[id models] anon] url]|] eqn:Em; [|done]. destruct (map_id _ _ _ _ _ Em) as (-> & _ & Hm).
    destruct (was_deleted _ _); [done|]. injection E as <- _. cbn. split; [unfold has_prefix; by rewrite strip_prefix_app|].
    destruct models; [done|]. cbn. lia. }
  destruct (syncs now deleted m l) as [infos m1]. intros [= <- <-]. cbn in *. split_and!; [done| |done].
  unfold total_models, wsum. clear Hf. generalize 0 at 1 2. induction infos as [|p l' IH]; intros z; [done|]. cbn. apply IH.
Qed.
End free_safety.

(** ** Concrete lists *)

Section demo.
Let none : Encryptor := {| ready := false; ephemeral := false; seal := λ _, None; unseal := λ _, None |}.
Let entry (name limit : string) : awesomeProvider := {|
  ap_Name := name; ap_Country := ""; ap_Flag := "F"; ap_URL := "https://keys"; ap_BaseURL := "https://api"; ap_Description := "";
  ap_Models := [{| am_ID := "m"; am_Name := "M"; am_RateLimit := limit |}] |}.
Let empty : ProviderManager := {| providers := ∅; cacheValid := false; cachedAll := [] |}.
Let sync (l : list awesomeProvider) (m : ProviderManager) : ProviderManager := (@sync_all none UTC [] 0 "" m l).2.
Let key : APIKeyConfig := anonymous_key "mine".

Example slugs :
  slugify "OVHcloud AI Endpoints" = "ovhcloud-ai-endpoints" ∧ slugify "Z.ai (GLM) / _x" = "zai-glm-x".
Proof. vm_compute. done. Qed.

(** A thousand requests per minute, written with a comma, are none. *)
Example rates : parseRPM "30 RPM, 1,000 RPD" = 30 ∧ parseRPM "1,000 RPM" = 0.
Proof. vm_compute. done. Qed.

(** A service whose key the owner adds after the first list stays disabled: that it is, is taken for the
    owner's choice. *)
Example key_added_later_stays_disabled :
  let m := sync [entry "Groq" ""] empty in
  let m' := sync [entry "Groq" ""] (match GetRaw [] "free-groq" m with Some p => @add none UTC 0 (with_keys p [key]) m | None => m end) in
  (p_Enabled <$> GetRaw [] "free-groq" m', length <$> (APIKeys <$> GetRaw [] "free-groq" m')) = (Some false, Some 1%nat).
Proof. vm_compute. done. Qed.

(** The page of the pool takes the keys of any provider away, not only of the free ones. *)
Example any_key_can_be_removed :
  let p := free_provider (loc := UTC) 0 (entry "X" "") "openai" [] false "u" None in
  let m := @add none UTC 0 (with_keys p [key]) empty in
  let '(code, m') := @handleFreePoolRemoveKey none UTC [] 0 "openai" m in
  (code, APIKeys <$> GetRaw [] "openai" m', fst (@handleFreePoolSetKey none UTC [] 0 "openai" (Some "k") m)) = (200, Some [], 400).
Proof. vm_compute. done. Qed.

Let mine : ProviderManager := @add none UTC 0 (with_enabled (free_provider (loc := UTC) 0 (entry "Groq" "") "free-groq" [] false "u" None) "sk" [] true true 1) empty.

Lemma owner_keys_are_kept_witness :
  ∃ e', GetRaw [] "free-groq" (foldl (λ m (s : Time * string * list awesomeProvider), (@sync_all none UTC [] s.1.1 s.1.2 m s.2).2) mine
           [(1, "", [entry "Groq" "5 RPM"]); (2, "", [])]) = Some e' ∧ p_Enabled e' = true ∧ APIKey e' = "sk".
Proof.
  destruct (@owner_keys_are_kept none UTC [] [(1, "", [entry "Groq" "5 RPM"]); (2, "", [])] mine "free-groq"
    (default (free_provider (loc := UTC) 0 (entry "Groq" "") "" [] false "" None) (GetRaw [] "free-groq" mine))) as (e' & H1 & H2 & H3 & _).
  - reflexivity.
  - reflexivity.
  - reflexivity.
  - intros s ap [->|[->|[]%elem_of_nil]%elem_of_cons]%elem_of_cons; cbn; [|by intros []%elem_of_nil]. by intros ->%list_elem_of_singleton.
  - exists e'. split; [exact H1|]. split; [exact H2|]. rewrite H3. reflexivity.
Defined.

Lemma disabled_stays_disabled_witness :
  ∃ e', GetRaw [] "free-groq" (foldl (λ m (s : Time * string * list awesomeProvider), (@sync_all none UTC [] s.1.1 s.1.2 m s.2).2)
           (@handleFreePoolRemoveKey none UTC [] 0 "free-groq" mine).2 [(1, "", [entry "Groq" "5 RPM"])]) = Some e' ∧ p_Enabled e' = false.
Proof.
  refine (@disabled_stays_disabled none UTC [] [(1, "", [entry "Groq" "5 RPM"])] (@handleFreePoolRemoveKey none UTC [] 0 "free-groq" mine).2 "free-groq"
    (default (free_provider (loc := UTC) 0 (entry "Groq" "") "" [] false "" None) (GetRaw [] "free-groq" (@handleFreePoolRemoveKey none UTC [] 0 "free-groq" mine).2)) _ _);
    by vm_compute.
Defined.
End demo.
