(* ===== verification/Health.v ===== *)
(** * The health of the providers (health.go, health_check_now.go)

    A checker asks every enabled provider in turn and keeps one status for each: healthy, degraded
    after a failure, down after three in a row. What a provider answers is a value, one per key asked;
    the verdict drawn from the answers and the machine of the statuses are the definitions below. *)

From S2P Require Import Prelude GoTime Providers.
From S2P Require TrustPool KeyPool Identity.

(** [LatencyMS], a float of whole milliseconds, is an integer. *)
Record ProviderHealth := {
  h_ID : string; h_Name : string; h_Status : string; LastCheck : string; LatencyMS : Z; ConsecutiveFails : Z;
  LastSuccess : string; LastFailure : string; FailureReason : string; FailedKeyCount : Z }.

(** [HealthChecker.statuses]. *)
Notation Statuses := (gmap string ProviderHealth).

(** What an upstream answers to one probe: the status code, or the text of the error, and the time taken. *)
Record Reply := { r_code : string + Z; r_ms : Z }.
(** The probes of a check: [ask i base token], the [i]-th key tried. [session i token]: the error of a web
    session tried with a token, if any, and the time. *)
Class Upstreams := {
  ask : nat → string → string → string → Reply; session : nat → Provider → string → option string * Z }.

(** The local variables of [checkProvider]. *)
Record Verdict := { healthy : bool; latencyMS : Z; failReason : string; keysTested : Z; keysFailed : Z }.
Definition untested (why : string) : Verdict := {| healthy := false; latencyMS := 0; failReason := why; keysTested := 0; keysFailed := 0 |}.

Section health.
Context `{Encryptor} `{Upstreams} {loc : Location} (presets : list Provider) (cozeToken : string).

(** ** The keys to try *)

Definition pool_keys (p : Provider) : list (string * string) :=
  omap (λ k, if a_Enabled k then pair (Alias k) <$> decryptAPIKey (a_Key k) else None) (APIKeys p).
Definition opened (token : string) : string := if IsEncrypted token then default token (decryptAPIKey token) else token.
Definition or_default (token : string) (ks : list (string * string)) : list (string * string) :=
  match ks with [] => if bool_decide (token = "") then [] else [("default", opened token)] | _ => ks end.
(** [default] and [web_session]. *)
Definition keysToTry (p : Provider) : list (string * string) := or_default (APIKey p) (pool_keys p).
(** [coze]: the setting of the whole node comes last. *)
Definition coze_keys (p : Provider) : list (string * string) := or_default (TrustPool.str_or (APIKey p) cozeToken) (pool_keys p).

(** ** Asking *)

Definition coze_code (c : Z) : bool := c =? 200.
(** A provider that limits its rate is up. *)
Definition openai_code (c : Z) : bool := (c =? 200) || (c =? 429).

(** One key, [coze]: the reason of a failure stays when a later key succeeds. *)
Definition coze_step (base : string) (i : nat) (k : string * string) (v : Verdict) : Verdict :=
  let r := ask i base "/v1/workspaces" k.2 in
  match r_code r with
  | inl e => {| healthy := healthy v; latencyMS := latencyMS v; failReason := k.1 +:+ ": " +:+ e;
                keysTested := keysTested v + 1; keysFailed := keysFailed v + 1 |}
  | inr c =>
      if coze_code c
      then {| healthy := true; latencyMS := r_ms r; failReason := failReason v; keysTested := keysTested v + 1; keysFailed := keysFailed v |}
      else {| healthy := healthy v; latencyMS := r_ms r; failReason := k.1 +:+ ": HTTP " +:+ dec c;
              keysTested := keysTested v + 1; keysFailed := keysFailed v + 1 |}
  end.
(** One key of an OpenAI-compatible provider. *)
Definition openai_step (base : string) (i : nat) (k : string * string) (v : Verdict) : Verdict :=
  let r := ask i base "/chat/completions" k.2 in
  match r_code r with
  | inl _ => {| healthy := healthy v; latencyMS := latencyMS v; failReason := k.1 +:+ ": probe request failed";
                keysTested := keysTested v + 1; keysFailed := keysFailed v + 1 |}
  | inr c =>
      if openai_code c
      then {| healthy := true; latencyMS := r_ms r; failReason := ""; keysTested := keysTested v + 1; keysFailed := keysFailed v |}
      else {| healthy := healthy v; latencyMS := r_ms r; failReason := k.1 +:+ ": probe failed";
              keysTested := keysTested v + 1; keysFailed := keysFailed v + 1 |}
  end.
Fixpoint each_key (step : nat → string * string → Verdict → Verdict) (i : nat) (ks : list (string * string)) (v : Verdict) : Verdict :=
  match ks with [] => v | k :: ks => each_key step (S i) ks (step i k v) end.
(** A web session stops at the first key that works. *)
Fixpoint each_session (p : Provider) (i : nat) (ks : list (string * string)) (v : Verdict) : Verdict :=
  match ks with
  | [] => v
  | k :: ks =>
      match session i p k.2 with
      | (None, ms) => {| healthy := true; latencyMS := ms; failReason := failReason v; keysTested := keysTested v + 1; keysFailed := keysFailed v |}
      | (Some e, ms) =>
          each_session p (S i) ks {| healthy := healthy v; latencyMS := ms; failReason := k.1 +:+ ": " +:+ e;
                                     keysTested := keysTested v + 1; keysFailed := keysFailed v + 1 |}
      end
  end.

(** [strings.TrimRight(s, "/")]. *)
Fixpoint trim_slashes (s : string) : string :=
  match s with
  | EmptyString => ""
  | String c s' => let r := trim_slashes s' in if Ascii.eqb c "/" && bool_decide (r = "") then "" else String c r
  end.

(** The verdict on a provider that is not [sider]. *)
Definition verdict (p : Provider) : Verdict :=
  if bool_decide (p_Type p = "coze")
  then match coze_keys p with
       | [] => untested "Coze API token not configured"
       | ks => each_key (coze_step (TrustPool.str_or (BaseURL p) "https://api.coze.cn")) 0 ks (untested "")
       end
  else if bool_decide (p_Type p = "web_session")
  then match keysToTry p with [] => untested "no token configured" | ks => each_session p 0 ks (untested "") end
  else match keysToTry p with
       | [] => untested "no API key"
       | ks => each_key (openai_step (trim_slashes (BaseURL p))) 0 ks (untested "")
       end.

(** ** The statuses *)

Definition blank (p : Provider) (st : string) : ProviderHealth := {|
  h_ID := p_ID p; h_Name := p_Name p; h_Status := st; LastCheck := ""; LatencyMS := 0; ConsecutiveFails := 0;
  LastSuccess := ""; LastFailure := ""; FailureReason := ""; FailedKeyCount := 0 |}.

(** [sider] is not asked: any enabled key will do. *)
Definition sider_key (p : Provider) : bool :=
  existsb (λ k, a_Enabled k && negb (bool_decide (a_Key k = ""))) (APIKeys p) || negb (bool_decide (APIKey p = "")).
Definition mark_sider (now : Time) (p : Provider) (hs : ProviderHealth) : ProviderHealth :=
  if sider_key p
  then {| h_ID := h_ID hs; h_Name := h_Name hs; h_Status := "healthy"; LastCheck := LastCheck hs; LatencyMS := LatencyMS hs;
          ConsecutiveFails := 0; LastSuccess := fmt_rfc3339 loc now; LastFailure := LastFailure hs; FailureReason := "";
          FailedKeyCount := FailedKeyCount hs |}
  else {| h_ID := h_ID hs; h_Name := h_Name hs; h_Status := "down"; LastCheck := LastCheck hs; LatencyMS := LatencyMS hs;
          ConsecutiveFails := ConsecutiveFails hs; LastSuccess := LastSuccess hs; LastFailure := LastFailure hs;
          FailureReason := "no API key"; FailedKeyCount := FailedKeyCount hs |}.
Definition note_verdict (now : Time) (v : Verdict) (hs : ProviderHealth) : ProviderHealth :=
  let t := fmt_rfc3339 loc now in
  if healthy v
  then {| h_ID := h_ID hs; h_Name := h_Name hs; h_Status := "healthy"; LastCheck := t; LatencyMS := latencyMS v;
          ConsecutiveFails := 0; LastSuccess := t; LastFailure := LastFailure hs; FailureReason := "";
          FailedKeyCount := keysFailed v |}
  else
    let n := ConsecutiveFails hs + 1 in
    {| h_ID := h_ID hs; h_Name := h_Name hs; h_Status := if 3 <=? n then "down" else "degraded"; LastCheck := t;
       LatencyMS := latencyMS v; ConsecutiveFails := n; LastSuccess := LastSuccess hs; LastFailure := t;
       FailureReason := failReason v; FailedKeyCount := keysFailed v |}.

Definition checkProvider (now : Time) (p : Provider) (m : Statuses) : Statuses :=
  let hs := default (blank p "") (m !! p_ID p) in
  <[p_ID p := if bool_decide (p_Type p = "sider") then mark_sider now p hs else note_verdict now (verdict p) hs]> m.

Definition register (m : Statuses) (p : Provider) : Statuses :=
  match m !! p_ID p with Some _ => m | None => <[p_ID p := blank p "unknown"]> m end.
(** The checks of a round run together; each writes its own entry under the lock. *)
Definition check_each (now : Time) (ps : list Provider) (m : Statuses) : Statuses := foldl (λ m p, checkProvider now p m) m ps.
Definition checkAll (now : Time) (pm : ProviderManager) (m : Statuses) : Statuses :=
  let ps := EnabledRaw presets pm in check_each now ps (foldl register m ps).
Definition initHealthChecker (pm : ProviderManager) : Statuses :=
  foldl (λ m p, <[p_ID p := blank p "unknown"]> m) ∅ (EnabledRaw presets pm).
Definition CheckProviderNow (now : Time) (pm : ProviderManager) (id : string) (m : Statuses) : Statuses :=
  match GetRaw presets id pm with
  | Some p => if p_Enabled p then checkProvider now p m else m
  | None => m
  end.
Definition with_failed_keys (n : Z) (hs : ProviderHealth) : ProviderHealth := {|
  h_ID := h_ID hs; h_Name := h_Name hs; h_Status := h_Status hs; LastCheck := LastCheck hs; LatencyMS := LatencyMS hs;
  ConsecutiveFails := ConsecutiveFails hs; LastSuccess := LastSuccess hs; LastFailure := LastFailure hs;
  FailureReason := FailureReason hs; FailedKeyCount := n |}.
Definition SetFailedKeyCount (id : string) (n : Z) (m : Statuses) : Statuses :=
  match m !! id with Some hs => <[id := with_failed_keys n hs]> m | None => m end.
(** In no order. *)
Definition GetHealth (m : Statuses) : list ProviderHealth := (map_to_list m).*2.
Definition IsHealthy (id : string) (m : Statuses) : bool :=
  match m !! id with Some hs => negb (bool_decide (h_Status hs = "down")) | None => true end.
(** The counts of the diagnosis page (handlers.go). *)
Definition healthy_count (m : Statuses) : nat := length (filter (λ hs, h_Status hs = "healthy") (GetHealth m)).
Definition unhealthy_count (m : Statuses) : nat := length (filter (λ hs, h_Status hs ≠ "healthy") (GetHealth m)).

(** ** The verdict is the one the answers give *)

(** What a key of an OpenAI-compatible provider is worth. *)
Definition key_ok (base : string) (i : nat) (k : string * string) : bool :=
  match r_code (ask i base "/chat/completions" k.2) with inr c => openai_code c | inl _ => false end.
Fixpoint oks (base : string) (i : nat) (ks : list (string * string)) : list bool :=
  match ks with [] => [] | k :: ks => key_ok base i k :: oks base (S i) ks end.
Definition count_failed (l : list bool) : Z := Z.of_nat (length (filter (λ b, b = false) l)).

Lemma openai_step_fields base i k v :
  healthy (openai_step base i k v) = healthy v || key_ok base i k ∧
  keysTested (openai_step base i k v) = keysTested v + 1 ∧
  keysFailed (openai_step base i k v) = keysFailed v + (if key_ok base i k then 0 else 1).
Proof.
  unfold openai_step, key_ok. destruct (r_code _) as [e|c]; [cbn; rewrite orb_false_r; by split_and!|].
  destruct (openai_code c); cbn; rewrite ?orb_true_r, ?orb_false_r; split_and!; lia || done.
Qed.
Lemma openai_keys_fields base ks : ∀ i v,
  let r := each_key (openai_step base) i ks v in
  healthy r = healthy v || existsb id (oks base i ks) ∧
  keysTested r = keysTested v + Z.of_nat (length ks) ∧
  keysFailed r = keysFailed v + count_failed (oks base i ks).
Proof.
  induction ks as [|k ks IH]; intros i v; cbn [each_key oks].
  { cbn. rewrite orb_false_r. split_and!; [done|lia|unfold count_failed; cbn; lia]. }
  destruct (IH (S i) (openai_step base i k v)) as (E1 & E2 & E3). destruct (openai_step_fields base i k v) as (F1 & F2 & F3).
  cbn zeta. rewrite E1, E2, E3, F1, F2, F3. cbn [existsb length id]. split_and!.
  - unfold id at 2. by rewrite orb_assoc.
  - lia.
  - unfold count_failed. rewrite filter_cons. case_decide; destruct (key_ok base i k); try congruence; cbn [length]; lia.
Qed.

(** Every key is asked, whatever the first ones answer; the provider is healthy when one of them works. *)
Theorem openai_verdict p : p_Type p ≠ "coze" → p_Type p ≠ "web_session" →
  healthy (verdict p) = existsb id (oks (trim_slashes (BaseURL p)) 0 (keysToTry p)) ∧
  keysTested (verdict p) = Z.of_nat (length (keysToTry p)) ∧
  keysFailed (verdict p) = count_failed (oks (trim_slashes (BaseURL p)) 0 (keysToTry p)).
Proof.
  intros H1 H2. unfold verdict. rewrite !bool_decide_eq_false_2 by done.
  destruct (keysToTry p) as [|k ks] eqn:E; [done|].
  exact (openai_keys_fields (trim_slashes (BaseURL p)) (k :: ks) 0 (untested "")).
Qed.

(** A web session is left at the first key that works: the keys after it are not asked. *)
Definition session_ok (p : Provider) (i : nat) (k : string * string) : bool :=
  match session i p k.2 with (None, _) => true | _ => false end.
Fixpoint first_ok (p : Provider) (i : nat) (ks : list (string * string)) : option nat :=
  match ks with [] => None | k :: ks => if session_ok p i k then Some 0%nat else S <$> first_ok p (S i) ks end.
Lemma session_keys_fields p ks : ∀ i v, healthy v = false →
  let r := each_session p i ks v in
  match first_ok p i ks with
  | Some n => healthy r = true ∧ keysTested r = keysTested v + Z.of_nat n + 1 ∧ keysFailed r = keysFailed v + Z.of_nat n
  | None => healthy r = false ∧ keysTested r = keysTested v + Z.of_nat (length ks) ∧ keysFailed r = keysFailed v + Z.of_nat (length ks)
  end.
Proof.
  induction ks as [|k ks IH]; intros i v Hv; cbn [each_session first_ok]; [cbn; split_and!; [done|lia|lia]|].
  unfold session_ok. destruct (session i p k.2) as [[e|] ms] eqn:E; [|cbn; split_and!; [done|lia|lia]].
  match goal with |- context [each_session p (S i) ks ?w] => pose proof (IH (S i) w Hv) as H' end.
  cbn zeta in *. destruct (first_ok p (S i) ks) as [n|]; cbn [fmap option_fmap option_map]; destruct H' as (A & B & C); rewrite A, B, C;
    cbn [keysTested keysFailed length]; split_and!; done || lia.
Qed.
Theorem session_verdict p : p_Type p = "web_session" →
  match first_ok p 0 (keysToTry p) with
  | Some n => healthy (verdict p) = true ∧ keysTested (verdict p) = Z.of_nat n + 1 ∧ keysFailed (verdict p) = Z.of_nat n
  | None => healthy (verdict p) = false ∧ keysFailed (verdict p) = Z.of_nat (length (keysToTry p))
  end.
Proof.
  intros H1. unfold verdict. rewrite H1. rewrite bool_decide_eq_false_2, bool_decide_eq_true_2 by done.
  destruct (keysToTry p) as [|k ks] eqn:E; [done|].
  pose proof (session_keys_fields p (k :: ks) 0 (untested "") eq_refl) as H'. cbn zeta in H'.
  destruct (first_ok p 0 (k :: ks)); destruct H' as (A & B & C); split_and!; done.
Qed.

(** ** The machine *)

Definition status_ok (hs : ProviderHealth) : Prop :=
  (h_Status hs = "unknown" ∧ ConsecutiveFails hs = 0) ∨
  (h_Status hs = "healthy" ∧ ConsecutiveFails hs = 0 ∧ FailureReason hs = "") ∨
  (h_Status hs = "degraded" ∧ 1 ≤ ConsecutiveFails hs ≤ 2) ∨
  (h_Status hs = "down" ∧ (3 ≤ ConsecutiveFails hs ∨ 0 ≤ ConsecutiveFails hs ∧ FailureReason hs = "no API key")).
Definition statuses_ok (m : Statuses) : Prop := map_Forall (λ id hs, h_ID hs = id ∧ status_ok hs) m.

Lemma status_ok_nonneg hs : status_ok hs → 0 ≤ ConsecutiveFails hs.
Proof. intros [[? ?]|[(? & ? & ?)|[[? ?]|[? [?|[? ?]]]]]]; lia. Qed.
Lemma status_ok_known hs : status_ok hs → h_Status hs ∈ ["unknown"; "healthy"; "degraded"; "down"].
Proof. intros [[-> ?]|[(-> & ? & ?)|[[-> ?]|[-> ?]]]]; set_solver. Qed.
Lemma note_verdict_ok now v hs : 0 ≤ ConsecutiveFails hs → status_ok (note_verdict now v hs).
Proof.
  intros Hf. unfold note_verdict, status_ok. destruct (healthy v); cbn; [by right; left|].
  destruct (Z.leb_spec 3 (ConsecutiveFails hs + 1)); [do 3 right; split; [done|left; lia]|do 2 right; left; split; [done|lia]].
Qed.
Lemma mark_sider_ok now p hs : 0 ≤ ConsecutiveFails hs → status_ok (mark_sider now p hs).
Proof.
  intros Hf. unfold mark_sider, status_ok. destruct (sider_key p); cbn; [by right; left|]. do 3 right. split; [done|]. right. done.
Qed.
Lemma check_ok now p m : statuses_ok m → statuses_ok (checkProvider now p m).
Proof.
  intros Hm. unfold checkProvider. apply map_Forall_insert_2; [|done].
  assert (Hh : h_ID (default (blank p "") (m !! p_ID p)) = p_ID p ∧ 0 ≤ ConsecutiveFails (default (blank p "") (m !! p_ID p))).
  { destruct (m !! p_ID p) as [hs|] eqn:E; [|done]. destruct (Hm _ _ E) as [<- Hs]. split; [done|]. by apply status_ok_nonneg. }
  destruct Hh as [Hid Hf]. case_bool_decide.
  - split; [|by apply mark_sider_ok]. unfold mark_sider. by destruct (sider_key p).
  - split; [|by apply note_verdict_ok]. unfold note_verdict. by destruct (healthy _).
Qed.
Lemma register_ok p m : statuses_ok m → statuses_ok (register m p).
Proof.
  intros Hm. unfold register. destruct (m !! p_ID p); [done|]. apply map_Forall_insert_2; [|done]. split; [done|]. by left.
Qed.
Lemma fold_ok {A} (f : Statuses → A → Statuses) l : (∀ a m, statuses_ok m → statuses_ok (f m a)) → ∀ m, statuses_ok m → statuses_ok (foldl f m l).
Proof. intros Hf. induction l; cbn; auto. Qed.

(** What happens to the checker. *)
Inductive hevent :=
  | HRound (now : Time) (pm : ProviderManager) | HNow (now : Time) (pm : ProviderManager) (id : string)
  | HKeys (id : string) (n : Z).
Definition hstep (e : hevent) (m : Statuses) : Statuses :=
  match e with
  | HRound now pm => checkAll now pm m
  | HNow now pm id => CheckProviderNow now pm id m
  | HKeys id n => SetFailedKeyCount id n m
  end.
Inductive hreachable (pm : ProviderManager) : Statuses → Prop :=
  | hr_init : hreachable pm (initHealthChecker pm)
  | hr_step m e : hreachable pm m → hreachable pm (hstep e m).

Lemma hstep_ok e m : statuses_ok m → statuses_ok (hstep e m).
Proof.
  intros Hm. destruct e as [now pm|now pm id|id n]; cbn.
  - unfold checkAll, check_each. apply fold_ok; [intros; by apply check_ok|]. apply fold_ok; [intros; by apply register_ok|done].
  - unfold CheckProviderNow. destruct (GetRaw presets id pm) as [p|]; [|done]. destruct (p_Enabled p); [by apply check_ok|done].
  - unfold SetFailedKeyCount. destruct (m !! id) as [hs|] eqn:E; [|done]. apply map_Forall_insert_2; [|done].
    exact (Hm _ _ E).
Qed.

(** A status always agrees with the failures counted: healthy with none, degraded with one or two, down from three on,
    but for a provider that is not asked and has no key, which is down at once. *)
Theorem health_always_consistent pm m : hreachable pm m → statuses_ok m.
Proof.
  induction 1 as [|m e _ IH]; [|by apply hstep_ok].
  unfold initHealthChecker. apply fold_ok; [|apply map_Forall_empty]. intros p m Hm. apply map_Forall_insert_2; [|done].
  split; [done|]. by left.
Qed.

(** ** Three failures *)

Lemma checked_lookup now p m : p_Type p ≠ "sider" →
  checkProvider now p m !! p_ID p = Some (note_verdict now (verdict p) (default (blank p "") (m !! p_ID p))).
Proof. intros Ht. unfold checkProvider. rewrite bool_decide_eq_false_2 by done. apply lookup_insert_eq. Qed.

(** A provider that starts with no failure and fails [n] times in a row is degraded after the first and the second, and down
    from the third on. *)
Theorem fails_in_a_row p m (times : list Time) hs :
  p_Type p ≠ "sider" → healthy (verdict p) = false → m !! p_ID p = Some hs → ConsecutiveFails hs = 0 → times ≠ [] →
  ∃ hs', foldl (λ m now, checkProvider now p m) m times !! p_ID p = Some hs' ∧
    ConsecutiveFails hs' = Z.of_nat (length times) ∧
    h_Status hs' = (if (3 <=? length times)%nat then "down" else "degraded").
Proof.
  intros Ht Hv Hm Hz Hne. pattern times. revert times Hne.
  refine (rev_ind _ _ _); [done|]. intros now times IH _. rewrite foldl_app. cbn [foldl].
  rewrite checked_lookup by done. eexists. split; [done|]. unfold note_verdict. rewrite Hv. cbn [ConsecutiveFails h_Status].
  rewrite length_app. cbn [length].
  assert (Hn : ConsecutiveFails (default (blank p "") (foldl (λ m now, checkProvider now p m) m times !! p_ID p)) = Z.of_nat (length times)).
  { destruct times as [|t ts]; [cbn; by rewrite Hm|]. destruct IH as (hs' & -> & Hc & _); done. }
  rewrite Hn. split; [lia|].
  destruct (Z.leb_spec 3 (Z.of_nat (length times) + 1)), (Nat.leb_spec 3 (length times + 1)); done || lia.
Qed.

(** One success heals a provider at any time. *)
Theorem one_success_heals now p m : p_Type p ≠ "sider" → healthy (verdict p) = true →
  ∃ hs, checkProvider now p m !! p_ID p = Some hs ∧ h_Status hs = "healthy" ∧ ConsecutiveFails hs = 0 ∧
    IsHealthy (p_ID p) (checkProvider now p m) = true.
Proof.
  intros Ht Hv. exists (note_verdict now (verdict p) (default (blank p "") (m !! p_ID p))). unfold IsHealthy.
  rewrite checked_lookup by done. unfold note_verdict. rewrite Hv. done.
Qed.

(** ** Who is checked *)

Lemma check_other now p m id : id ≠ p_ID p → checkProvider now p m !! id = m !! id.
Proof. intros Hne. unfold checkProvider. by rewrite lookup_insert_ne. Qed.
Lemma check_comm now1 now2 p q m : p_ID p ≠ p_ID q →
  checkProvider now1 p (checkProvider now2 q m) = checkProvider now2 q (checkProvider now1 p m).
Proof.
  intros Hne. unfold checkProvider at 1 3. rewrite !check_other by congruence. unfold checkProvider. by apply insert_insert_ne.
Qed.

(** The checks of a round run at once and end in any order: the statuses do not depend on it. *)
Theorem round_order_irrelevant now ps qs m : NoDup (p_ID <$> ps) → ps ≡ₚ qs → check_each now ps m = check_each now qs m.
Proof.
  intros Hnd Hp. revert m Hnd. induction Hp as [|p l l' _ IH|p q l|l1 l2 l3 H1 IH1 H2 IH2]; intros m Hnd; cbn in *.
  - done.
  - apply NoDup_cons in Hnd as [_ Hnd]. by apply IH.
  - apply NoDup_cons in Hnd as [Hn _]. unfold check_each. cbn. f_equal. apply check_comm. set_solver.
  - rewrite IH1 by done. apply IH2. by rewrite <- H1.
Qed.

(** A provider that is disabled or unknown is not asked. *)
Theorem only_enabled_checked now pm id m :
  (∀ p, GetRaw presets id pm = Some p → p_Enabled p = false) → CheckProviderNow now pm id m = m.
Proof. intros Hd. unfold CheckProviderNow. destruct (GetRaw presets id pm) as [p|]; [|done]. by rewrite (Hd p). Qed.

(** No step forgets a provider: one that was deleted or disabled keeps the last status it had. *)
Lemma check_dom now p m id : is_Some (m !! id) → is_Some (checkProvider now p m !! id).
Proof. intros Hm. unfold checkProvider. by rewrite lookup_insert_is_Some'; right. Qed.
Lemma fold_dom {A} (f : Statuses → A → Statuses) l id :
  (∀ a m, is_Some (m !! id) → is_Some (f m a !! id)) → ∀ m, is_Some (m !! id) → is_Some (foldl f m l !! id).
Proof. intros Hf. induction l; cbn; auto. Qed.
Theorem statuses_never_forgotten e m id : is_Some (m !! id) → is_Some (hstep e m !! id).
Proof.
  intros Hm. destruct e as [now pm|now pm i|i n]; cbn.
  - unfold checkAll, check_each. apply fold_dom; [intros; by apply check_dom|]. apply fold_dom; [|done].
    intros p m' Hm'. unfold register. destruct (m' !! p_ID p); [done|]. by rewrite lookup_insert_is_Some'; right.
  - unfold CheckProviderNow. destruct (GetRaw presets i pm) as [p|]; [|done]. destruct (p_Enabled p); [by apply check_dom|done].
  - unfold SetFailedKeyCount. destruct (m !! i); [|done]. by rewrite lookup_insert_is_Some'; right.
Qed.
Lemma check_each_other now ps id : id ∉ p_ID <$> ps → ∀ m, check_each now ps m !! id = m !! id.
Proof.
  intros Hn. unfold check_each. induction ps as [|p ps IH]; intros m; [done|]. cbn [foldl].
  rewrite IH by set_solver. apply check_other. set_solver.
Qed.
Lemma register_keeps ps id : ∀ m, is_Some (m !! id) → foldl register m ps !! id = m !! id.
Proof.
  induction ps as [|p ps IH]; intros m Hm; [done|]. cbn [foldl]. assert (E : register m p !! id = m !! id).
  { unfold register. destruct (m !! p_ID p) eqn:E; [done|]. apply lookup_insert_ne. intros Heq. rewrite Heq in E. destruct Hm as [? Hm]. congruence. }
  rewrite IH by (by rewrite E). done.
Qed.
Theorem deleted_provider_keeps_status now pm m id hs :
  m !! id = Some hs → id ∉ p_ID <$> EnabledRaw presets pm → checkAll now pm m !! id = Some hs.
Proof. intros Hm Hn. unfold checkAll. rewrite check_each_other by done. rewrite register_keeps by eauto. done. Qed.

(** A check answers for every enabled provider. *)
Theorem enabled_is_checked now pm m p : p ∈ EnabledRaw presets pm → is_Some (checkAll now pm m !! p_ID p).
Proof.
  intros Hin. unfold checkAll, check_each. generalize (foldl register m (EnabledRaw presets pm)). revert Hin.
  induction (EnabledRaw presets pm) as [|q ps IH]; intros Hin m'; [set_solver|]. cbn [foldl].
  apply elem_of_cons in Hin as [->|Hin]; [|by apply IH]. apply fold_dom; [intros; by apply check_dom|].
  unfold checkProvider. by rewrite lookup_insert_eq.
Qed.

End health.

(** ** Examples *)

Module HealthDemo.
Definition answer (n : nat) (c : string + Z) : Reply := {| r_code := c; r_ms := 10 + Z.of_nat n |}.
(** The key "sk-one" works, the key "sk-three" is over its rate and any other is refused. *)
Definition some_work : Upstreams := {|
  ask i _ _ t := answer i (if bool_decide (t = "sk-one") then inr 200 else if bool_decide (t = "sk-three") then inr 429 else inr 401);
  session _ _ _ := (Some "no session", 5) |}.
Definition none_work : Upstreams := {| ask i _ _ _ := answer i (inl "refused"); session _ _ _ := (Some "no session", 5) |}.
Definition check up now p m := @checkProvider Identity.IdentityDemo.no_encryptor up UTC "" now p m.
Definition p1 : Provider := KeyPool.three_keys.
End HealthDemo.

(** Three of the four keys are enabled. The first works, and the other two are asked all the same. *)
Example all_keys_are_asked :
  let v := @verdict Identity.IdentityDemo.no_encryptor HealthDemo.some_work "" HealthDemo.p1 in
  (healthy v, keysTested v, keysFailed v, latencyMS v) = (true, 3, 1, 12).
Proof. by vm_compute. Qed.
(** Two failures degrade, the third takes the provider down, and it is healed at once. *)
Example up_and_down :
  let m := foldl (λ m now, HealthDemo.check HealthDemo.none_work now HealthDemo.p1 m) ∅ [60; 120] in
  let m3 := HealthDemo.check HealthDemo.none_work 180 HealthDemo.p1 m in
  (h_Status <$> m !! "p1", h_Status <$> m3 !! "p1", FailureReason <$> m3 !! "p1",
   h_Status <$> HealthDemo.check HealthDemo.some_work 240 HealthDemo.p1 m3 !! "p1", IsHealthy "p1" m3, IsHealthy "other" m3) =
  (Some "degraded", Some "down", Some ": probe request failed", Some "healthy", false, true).
Proof. by vm_compute. Qed.

Lemma openai_verdict_witness :
  let v := @verdict Identity.IdentityDemo.no_encryptor HealthDemo.some_work "" HealthDemo.p1 in
  healthy v = true ∧ keysTested v = 3 ∧ keysFailed v = 1.
Proof.
  destruct (@openai_verdict Identity.IdentityDemo.no_encryptor HealthDemo.some_work "" HealthDemo.p1) as (H1 & H2 & H3); [done|done|].
  cbn zeta. rewrite H1, H2, H3. split_and!; by vm_compute.
Defined.
Lemma session_verdict_witness :
  let p := with_type HealthDemo.p1 "web_session" in
  keysFailed (@verdict Identity.IdentityDemo.no_encryptor HealthDemo.none_work "" p) = 3.
Proof.
  pose proof (@session_verdict Identity.IdentityDemo.no_encryptor HealthDemo.none_work "" (with_type HealthDemo.p1 "web_session") eq_refl) as H.
  vm_compute in H. exact (proj2 H).
Defined.
Lemma fails_in_a_row_witness :
  ∃ hs', foldl (λ m now, HealthDemo.check HealthDemo.none_work now HealthDemo.p1 m)
      {["p1" := blank HealthDemo.p1 "unknown"]} [1; 2; 3; 4] !! "p1" = Some hs' ∧
    ConsecutiveFails hs' = 4 ∧ h_Status hs' = "down".
Proof.
  refine (@fails_in_a_row Identity.IdentityDemo.no_encryptor HealthDemo.none_work UTC "" HealthDemo.p1 {["p1" := blank HealthDemo.p1 "unknown"]}
    [1; 2; 3; 4] (blank HealthDemo.p1 "unknown") _ _ _ _ _); by vm_compute.
Defined.
Lemma health_always_consistent_witness :
  let m := @hstep Identity.IdentityDemo.no_encryptor HealthDemo.none_work UTC [HealthDemo.p1] ""
    (HRound 60 {| providers := ∅; cacheValid := false; cachedAll := [] |})
    (initHealthChecker [HealthDemo.p1] {| providers := ∅; cacheValid := false; cachedAll := [] |}) in
  statuses_ok m.
Proof.
  intros m. refine (@health_always_consistent Identity.IdentityDemo.no_encryptor HealthDemo.none_work UTC [HealthDemo.p1] ""
    {| providers := ∅; cacheValid := false; cachedAll := [] |} m _). apply hr_step, hr_init.
Defined.
Lemma round_order_irrelevant_witness :
  let q := KeyPool.demo_provider "p2" [] in
  @check_each Identity.IdentityDemo.no_encryptor HealthDemo.none_work UTC "" 60 [HealthDemo.p1; q] ∅ =
  @check_each Identity.IdentityDemo.no_encryptor HealthDemo.none_work UTC "" 60 [q; HealthDemo.p1] ∅.
Proof.
  intros q. apply (@round_order_irrelevant Identity.IdentityDemo.no_encryptor HealthDemo.none_work UTC ""); [|apply perm_swap].
  apply NoDup_cons. split; [set_solver|]. apply NoDup_singleton.
Defined.
