(* ===== verification/AdminProviders.v ===== *)
(** * The providers as the console edits them (admin_providers.go)

    Creating, changing and deleting a provider, by the administrator or by a consumer, who may touch
    only what is their own. A body is the record of the fields it names. Reading proxy links, resolving
    a host and asking upstream are values; the audit line each handler leaves is in [Events]. *)

From S2P Require Import Prelude GoTime Bytes Providers.
From S2P Require LanAnnounce Health FreePool Routing KeyPool Identity.

(** ** Keys shown and sent back *)

Definition maskKeyValue (s : string) : string := mask "..." "***" s.

(** [byID]: the last entry with an id wins. *)
Definition keys_by_id (ks : list APIKeyConfig) : gmap string string :=
  foldl (λ m k, if bool_decide (a_ID k = "") then m else <[a_ID k := a_Key k]> m) ∅ ks.
(** The stored key an entry stands for. *)
Definition real_key (existing : list APIKeyConfig) (i : nat) (k : APIKeyConfig) : option string :=
  if bool_decide (a_ID k = "") then a_Key <$> existing !! i else keys_by_id existing !! a_ID k.
Definition restore_key (existing : list APIKeyConfig) (i : nat) (k : APIKeyConfig) : APIKeyConfig :=
  match real_key existing i k with
  | Some real => if bool_decide (a_Key k = maskKeyValue real) then with_key k real else k
  | None => k
  end.
Definition restoreMaskedAPIKeys (existing updated : list APIKeyConfig) : list APIKeyConfig :=
  match existing with [] => updated | _ => imap (restore_key existing) updated end.

(** ** Bodies *)

(** An object of [api_keys]: the fields it names. *)
Record key_patch := {
  k_ID : option string; k_Alias : option string; k_Key : option string; k_Quota : option Z; k_QuotaDaily : option Z;
  k_QuotaMonthly : option Z; k_Used : option Z; k_UsedDaily : option Z; k_UsedMonthly : option Z; k_LastDailyReset : option string;
  k_LastMonthlyReset : option string; k_Access : option string; k_Enabled : option bool; k_Priority : option Z;
  k_ExpiresAt : option string; k_CreatedAt : option string; k_UpdatedAt : option string }.
Definition patch_key (u : key_patch) (k : APIKeyConfig) : APIKeyConfig := {|
  a_ID := default (a_ID k) (k_ID u); Alias := default (Alias k) (k_Alias u); a_Key := default (a_Key k) (k_Key u);
  a_Quota := default (a_Quota k) (k_Quota u); QuotaDaily := default (QuotaDaily k) (k_QuotaDaily u);
  QuotaMonthly := default (QuotaMonthly k) (k_QuotaMonthly u); Used := default (Used k) (k_Used u);
  UsedDaily := default (UsedDaily k) (k_UsedDaily u); UsedMonthly := default (UsedMonthly k) (k_UsedMonthly u);
  LastDailyReset := default (LastDailyReset k) (k_LastDailyReset u); LastMonthlyReset := default (LastMonthlyReset k) (k_LastMonthlyReset u);
  a_Access := default (a_Access k) (k_Access u); a_Enabled := default (a_Enabled k) (k_Enabled u);
  a_Priority := default (a_Priority k) (k_Priority u); a_ExpiresAt := default (a_ExpiresAt k) (k_ExpiresAt u);
  a_CreatedAt := default (a_CreatedAt k) (k_CreatedAt u); a_UpdatedAt := default (a_UpdatedAt k) (k_UpdatedAt u) |}.
Definition zero_key : APIKeyConfig := {|
  a_ID := ""; Alias := ""; a_Key := ""; a_Quota := 0; QuotaDaily := 0; QuotaMonthly := 0; Used := 0; UsedDaily := 0; UsedMonthly := 0;
  LastDailyReset := ""; LastMonthlyReset := ""; a_Access := ""; a_Enabled := false; a_Priority := 0; a_ExpiresAt := "";
  a_CreatedAt := ""; a_UpdatedAt := "" |}.
(** [json.Unmarshal] reads the elements of an array into those the slice has at the same places. *)
Definition patch_list {A B} (patch : B → A → A) (zero : A) (us : list B) (l : list A) : list A :=
  imap (λ i u, patch u (default zero (l !! i))) us.
Record model_patch := { mp_ID : option string; mp_Name : option string; mp_Enabled : option bool }.
Definition zero_model : ModelDef := {|
  md_ID := ""; md_Name := ""; Tier := ""; md_Enabled := false; EnabledByKeys := ∅; AvailableKeys := []; Source := "" |}.
Definition patch_model (u : model_patch) (m : ModelDef) : ModelDef := {|
  md_ID := default (md_ID m) (mp_ID u); md_Name := default (md_Name m) (mp_Name u); Tier := Tier m;
  md_Enabled := default (md_Enabled m) (mp_Enabled u); EnabledByKeys := EnabledByKeys m; AvailableKeys := AvailableKeys m; Source := Source m |}.

(** The fields of a provider a body names; the access control and the settings as they are once read. *)
Record patch := {
  u_Name : option string; u_Type : option string; u_BaseURL : option string; u_APIKey : option string; u_Enabled : option bool;
  u_Models : option (list model_patch); u_Priority : option Z; u_TokenLimit : option Z; u_Proxy : option string;
  u_Owner : option string; u_Access : option ProviderAccessControl; u_APIKeys : option (list key_patch);
  u_Settings : option ProviderSettings }.
Definition patch_provider (u : patch) (p : Provider) : Provider := {|
  p_ID := p_ID p; p_Name := default (p_Name p) (u_Name u); p_Type := default (p_Type p) (u_Type u);
  BaseURL := default (BaseURL p) (u_BaseURL u); APIKey := default (APIKey p) (u_APIKey u); p_Enabled := default (p_Enabled p) (u_Enabled u);
  Models := match u_Models u with Some l => patch_list patch_model zero_model l (Models p) | None => Models p end;
  p_Priority := default (p_Priority p) (u_Priority u); TokenLimit := default (TokenLimit p) (u_TokenLimit u);
  p_Proxy := default (p_Proxy p) (u_Proxy u); Owner := default (Owner p) (u_Owner u); AccessControl := default (AccessControl p) (u_Access u);
  APIKeys := match u_APIKeys u with Some l => patch_list patch_key zero_key l (APIKeys p) | None => APIKeys p end;
  Settings := default (Settings p) (u_Settings u); p_CreatedAt := p_CreatedAt p; p_UpdatedAt := p_UpdatedAt p |}.
Definition zero_provider : Provider := {|
  p_ID := ""; p_Name := ""; p_Type := ""; BaseURL := ""; APIKey := ""; p_Enabled := false; Models := []; p_Priority := 0; TokenLimit := 0;
  p_Proxy := ""; Owner := ""; AccessControl := {| ShareToPool := false; GuestPoolPercent := 0; MigrationAllowPublic := None |};
  APIKeys := []; Settings := zero_settings; p_CreatedAt := ""; p_UpdatedAt := "" |}.

(** The models of a new provider: names, or objects, on unless they say otherwise. *)
Inductive model_item := MName (s : string) | MObject (u : model_patch).
Definition item_model (x : model_item) : ModelDef :=
  match x with
  | MName s => patch_model {| mp_ID := Some s; mp_Name := None; mp_Enabled := Some true |} zero_model
  | MObject u => patch_model {| mp_ID := mp_ID u; mp_Name := mp_Name u; mp_Enabled := Some (default true (mp_Enabled u)) |} zero_model
  end.
(** The body of a creation: the fields but the id and the models; [None] when they do not fit a provider. *)
Record creation := { c_ID : option string; c_Models : list model_item; c_Fields : option patch }.

(** ** Checks *)

Definition id_char (c : ascii) : bool :=
  let n := Z.of_N (Ascii.N_of_ascii c) in
  ((97 <=? n) && (n <=? 122)) || ((65 <=? n) && (n <=? 90)) || ((48 <=? n) && (n <=? 57)) || (n =? 45) || (n =? 95).
Fixpoint isValidID (id : string) : bool :=
  match id with EmptyString => true | String c id' => id_char c && isValidID id' end.

(** Names that mark a model as not of the stable ones. *)
Definition unstable_words : list string :=
  ["preview"; "beta"; "experimental"; "-exp"; "emb"; "embed"; "tts"; "image"; "video"; "reward"; "safety"; "guard"; "vision"; "retriever"].
Definition is_stable (m : ModelDef) : bool :=
  forallb (λ w, negb (str_contains w (LanAnnounce.to_lower (md_ID m)))) unstable_words.
Definition latest_ids (models : list ModelDef) : list string :=
  md_ID <$> take 3 (sort_slice (λ a b, str_ltb (md_ID b) (md_ID a)) (filter (λ m, is_stable m = true) models)).
Definition disabled_model (m : ModelDef) : ModelDef := {|
  md_ID := md_ID m; md_Name := md_Name m; Tier := Tier m; md_Enabled := false; EnabledByKeys := EnabledByKeys m;
  AvailableKeys := AvailableKeys m; Source := Source m |}.
(** [stable] is a copy: enabling its models does not enable those of [models]. *)
Definition enableLatestModels (models : list ModelDef) : list ModelDef :=
  if (length models <=? 3)%nat then models
  else (λ m, if bool_decide (md_ID m ∈ latest_ids models) then m else disabled_model m) <$> models.

(** [url.Parse], the resolver, and the readers of proxy links, which give what is wrong with one. *)
Class Outside := {
  parse_url : string → option (string * string); isPrivateHost : string → bool;
  ParseVMessLink : string → option string; ParseVLESSLink : string → option string }.

(** ** Fields replaced *)

Definition with_fields (p : Provider) (key proxy : string) (models : list ModelDef) (share : bool) (ks : list APIKeyConfig) : Provider := {|
  p_ID := p_ID p; p_Name := p_Name p; p_Type := p_Type p; BaseURL := BaseURL p; APIKey := key; p_Enabled := p_Enabled p;
  Models := models; p_Priority := p_Priority p; TokenLimit := TokenLimit p; p_Proxy := proxy; Owner := Owner p;
  AccessControl := {| ShareToPool := share; GuestPoolPercent := GuestPoolPercent (AccessControl p);
                      MigrationAllowPublic := MigrationAllowPublic (AccessControl p) |};
  APIKeys := ks; Settings := Settings p; p_CreatedAt := p_CreatedAt p; p_UpdatedAt := p_UpdatedAt p |}.
Definition with_identity (id owner type : string) (p : Provider) : Provider := {|
  p_ID := id; p_Name := p_Name p; p_Type := type; BaseURL := BaseURL p; APIKey := APIKey p; p_Enabled := p_Enabled p;
  Models := Models p; p_Priority := p_Priority p; TokenLimit := TokenLimit p; p_Proxy := p_Proxy p; Owner := owner;
  AccessControl := AccessControl p; APIKeys := APIKeys p; Settings := Settings p; p_CreatedAt := p_CreatedAt p; p_UpdatedAt := p_UpdatedAt p |}.
Definition with_model_list (ms : list ModelDef) (p : Provider) : Provider :=
  with_fields p (APIKey p) (p_Proxy p) ms (ShareToPool (AccessControl p)) (APIKeys p).
(** A key given alone becomes the first of the list. *)
Definition first_key (p : Provider) : APIKeyConfig := {|
  a_ID := "key-" +:+ p_ID p +:+ "-1"; Alias := "默认 Key"; a_Key := APIKey p; a_Quota := 0; QuotaDaily := 0; QuotaMonthly := 0; Used := 0;
  UsedDaily := 0; UsedMonthly := 0; LastDailyReset := ""; LastMonthlyReset := ""; a_Access := "private"; a_Enabled := true;
  a_Priority := 1; a_ExpiresAt := ""; a_CreatedAt := ""; a_UpdatedAt := "" |}.
Definition set_keys (ks : list APIKeyConfig) (p : Provider) : Provider := with_secrets p (APIKey p) (p_Proxy p) ks.
Definition auto_migrate (p : Provider) : Provider :=
  if negb (bool_decide (APIKey p = "")) && negb (bool_decide (APIKey p = "your-api-key-here")) && bool_decide (APIKeys p = [])
  then set_keys [first_key p] p else p.

(** ** The handlers *)

(** The registry, the statuses of the health checker when it runs, and the setting of the deleted free providers. *)
Record Console := { registry : ProviderManager; statuses : option (gmap string Health.ProviderHealth); deletedFree : string }.
(** [reset]: the monitor of the sider token starts anew. *)
Inductive answer := Refused (code : Z) (why : string) | Saved (p : Provider) (reset : bool) | Done.

Section console.
Context `{Encryptor} `{Outside} `{Health.Upstreams} {loc : Location} (presetProviders : list Provider) (cozeToken : string).

Abbreviation get := (GetRaw presetProviders).

Definition validateProviderBaseURL (u : string) : option string :=
  if bool_decide (u = "") then None
  else match parse_url u with
       | Some (scheme, host) =>
           if bool_decide (scheme = "http") || bool_decide (scheme = "https")
           then if isPrivateHost host then Some "invalid BaseURL: must not point to a private, loopback or unresolvable address" else None
           else Some "invalid BaseURL: must be a valid http/https URL"
       | None => Some "invalid BaseURL: must be a valid http/https URL"
       end.
Definition check_proxy (s : string) : option string :=
  if bool_decide (s = "") then None
  else if (8192 <? String.length s)%nat then Some "proxy URL must be at most 8192 characters"
  else if has_prefix "vmess://" s then ParseVMessLink s
  else if has_prefix "vless://" s then ParseVLESSLink s
  else None.

Definition isPresetProviderID (id : string) : bool := existsb (λ p, bool_decide (p_ID p = id)) presetProviders.
Definition checkProviderAccess (owner id : string) (m : ProviderManager) : option Provider :=
  match get id m with
  | None => None
  | Some p => if bool_decide (owner = "") then Some p
              else if negb (bool_decide (Owner p = owner)) && negb (isPresetProviderID (p_ID p)) then None else Some p
  end.
Definition checkProviderWriteAccess (owner id : string) (m : ProviderManager) : option Provider :=
  match get id m with
  | None => None
  | Some p => if bool_decide (owner = "") then Some p else if bool_decide (Owner p = owner) then Some p else None
  end.

(** [pm.Add] and the check of the provider at once. *)
Definition add_and_check (now : Time) (p : Provider) (reset : bool) (c : Console) : answer * Console :=
  let '(r, (_, m)) := Add now p (registry c) in
  (Saved r reset, {| registry := m; statuses := Health.CheckProviderNow (loc := loc) presetProviders cozeToken now m (p_ID p) <$> statuses c;
                     deletedFree := deletedFree c |}).

(** The fields of an existing provider that a creation keeps. *)
Definition merge_existing (existing p : Provider) : Provider :=
  with_fields p
    (if bool_decide (APIKey p = "") || str_contains "..." (APIKey p) then APIKey existing else APIKey p)
    (if bool_decide (p_Proxy p = "") || bool_decide (p_Proxy p = "vmess://***") || bool_decide (p_Proxy p = "vless://***")
     then p_Proxy existing else p_Proxy p)
    (if bool_decide (Models p = []) then Models existing else Models p)
    (ShareToPool (AccessControl existing))
    (if bool_decide (APIKeys p = []) then APIKeys existing else restoreMaskedAPIKeys (APIKeys existing) (APIKeys p)).

Definition handleCreateProvider (now : Time) (owner : string) (body : option creation) (c : Console) : answer * Console :=
  match body with
  | None => (Refused 400 "invalid request body", c)
  | Some b =>
      let id := default "" (c_ID b) in
      if bool_decide (id = "") then (Refused 400 "provider ID required", c)
      else if (64 <? String.length id)%nat || negb (isValidID id)
      then (Refused 400 "provider ID must be 1-64 chars, alphanumeric/dash/underscore only", c)
      else
        let '(all, m) := GetAll presetProviders (registry c) in
        let c := {| registry := m; statuses := statuses c; deletedFree := deletedFree c |} in
        if (100 <=? length all)%nat then (Refused 429 "maximum provider count (100) reached", c)
        else match c_Fields b with
        | None => (Refused 400 "invalid provider data", c)
        | Some u =>
            let p := with_model_list (item_model <$> c_Models b) (patch_provider u zero_provider) in
            let p := with_identity id owner (p_Type p) p in
            if (128 <? String.length (p_Name p))%nat then (Refused 400 "provider name must be at most 128 characters", c)
            else if (64 <? String.length (p_Type p))%nat then (Refused 400 "provider type must be at most 64 characters", c)
            else match validateProviderBaseURL (BaseURL p) with
            | Some e => (Refused 400 e, c)
            | None =>
                let p := auto_migrate (match get id m with Some e => merge_existing e p | None => p end) in
                let p := match get id m with Some _ => p | None => with_model_list (enableLatestModels (Models p)) p end in
                match check_proxy (p_Proxy p) with
                | Some e => (Refused 400 e, c)
                | None => add_and_check now p false c
                end
            end
        end
  end.

(** What a caller who may read it is shown. *)
Definition handleGetProvider (owner id : string) (m : ProviderManager) : option Provider := Safe <$> checkProviderAccess owner id m.
Definition handleProviderLoginStatus (owner id : string) (m : ProviderManager) : option bool :=
  (λ p, negb (bool_decide (APIKey p = "")) && negb (bool_decide (APIKey p = "your-api-key-here")) ||
        existsb (λ k, negb (bool_decide (trimSpace (a_Key k) = ""))) (APIKeys p)) <$> checkProviderAccess owner id m.

Definition siderKeyChanged (existing merged : Provider) : bool :=
  if negb (bool_decide (APIKey merged = APIKey existing)) then true
  else if negb (bool_decide (length (APIKeys merged) = length (APIKeys existing))) then (0 <? length (APIKeys merged))%nat
  else negb (bool_decide (a_Key <$> APIKeys merged = a_Key <$> APIKeys existing)).

(** The fields of an update that only echo a mask are not applied. *)
Definition drop_masks (existing : Provider) (u : patch) : patch := {|
  u_Name := u_Name u; u_Type := u_Type u; u_BaseURL := u_BaseURL u;
  u_APIKey := if bool_decide (u_APIKey u = Some (maskKeyValue (APIKey existing))) then None else u_APIKey u;
  u_Enabled := u_Enabled u; u_Models := u_Models u; u_Priority := u_Priority u; u_TokenLimit := u_TokenLimit u;
  u_Proxy := if bool_decide (u_Proxy u = Some "vmess://***") || bool_decide (u_Proxy u = Some "vless://***") then None else u_Proxy u;
  u_Owner := u_Owner u; u_Access := u_Access u; u_APIKeys := u_APIKeys u; u_Settings := u_Settings u |}.
(** A type of its own is not turned into the common one. *)
Definition kept_type (existing merged : Provider) : string :=
  if negb (bool_decide (p_Type existing = "openai_compatible")) && negb (bool_decide (p_Type existing = "web_session"))
     && bool_decide (p_Type merged = "openai_compatible")
  then p_Type existing else p_Type merged.
Definition merged_update (id : string) (existing : Provider) (u : patch) : Provider :=
  let p := patch_provider (drop_masks existing u) existing in
  with_identity id (Owner existing) (kept_type existing p) p.

(** [body]: the fields, or what is wrong with it. *)
Definition handleUpdateProvider (now : Time) (owner id : string) (body : res patch) (c : Console) : answer * Console :=
  match checkProviderWriteAccess owner id (registry c) with
  | None => (Refused 404 "provider not found", c)
  | Some existing =>
      match body with
      | Err e => (Refused 400 e, c)
      | Ok u =>
          let p := merged_update id existing u in
          match (if bool_decide (p_Proxy p = p_Proxy existing) then None else check_proxy (p_Proxy p)) with
          | Some e => (Refused 400 e, c)
          | None =>
              match validateProviderBaseURL (BaseURL p) with
              | Some e => (Refused 400 e, c)
              | None =>
                  let p := auto_migrate p in
                  let p := set_keys (restoreMaskedAPIKeys (APIKeys existing) (APIKeys p)) p in
                  add_and_check now p (bool_decide (id = "sider") && siderKeyChanged existing p) c
              end
          end
      end
  end.

Definition note_deleted (id deleted : string) : string :=
  if has_prefix "free-" id && negb (FreePool.was_deleted deleted id)
  then if bool_decide (deleted = "") then id else deleted +:+ "," +:+ id
  else deleted.
Definition handleDeleteProvider (owner id : string) (c : Console) : answer * Console :=
  match checkProviderWriteAccess owner id (registry c) with
  | None => (Refused 404 "provider not found", c)
  | Some _ =>
      let '(gone, (_, m)) := Delete presetProviders id (registry c) in
      if gone then (Done, {| registry := m; statuses := statuses c; deletedFree := note_deleted id (deletedFree c) |})
      else (Refused 404 "provider not found", c)
  end.

(** The models shown: those upstream lists, else those that are on. *)
Definition handleGetProviderModels (remote : Provider → list (string * string)) (owner id : string) (m : ProviderManager)
    : option (list (string * string)) :=
  (λ p, match remote p with
        | [] => (λ md, (md_ID md, md_Name md)) <$> filter (λ md, md_Enabled md = true) (Models p)
        | l => l
        end) <$> checkProviderAccess owner id m.

(** *** Testing the keys

    [test p key] and [keyless p]: what is wrong with a key, or with a provider that needs none;
    [balance url key]: the dollars the upstream grants a key. *)

Definition test_key (test : Provider → string → option string) (p : Provider) (k : APIKeyConfig) : option string :=
  if negb (a_Enabled k) then Some "key is disabled"
  else match decryptAPIKey (a_Key k) with
       | None => Some "failed to decrypt key"
       | Some key => (λ _, "upstream error") <$> test p key
       end.
Definition key_works (test : Provider → string → option string) (p : Provider) (k : APIKeyConfig) : bool :=
  bool_decide (test_key test p k = None).
Definition million : float64 := float_of_int 1000000.
(** The monthly quota of a working key follows the dollars granted, a million tokens each. *)
Definition granted_quota (balance : string → string → option float64) (p : Provider) (k : APIKeyConfig) : option Z :=
  if bool_decide (p_Type p = "openai_compatible")
  then match balance (BaseURL p) (default "" (decryptAPIKey (a_Key k))) with
       | Some limit => if fltb f_zero limit
                       then let n := int_of_float (fmul limit million) in if bool_decide (QuotaMonthly k = n) then None else Some n
                       else None
       | None => None
       end
  else None.
Definition test_one (now : Time) (test : Provider → string → option string) (balance : string → string → option float64)
    (id : string) (p : Provider) (m : ProviderManager) (k : APIKeyConfig) : ProviderManager :=
  if key_works test p k
  then match granted_quota balance p k with
       | Some n => (UpdateAPIKey (loc := loc) now id (a_ID k) {["quota_monthly" := JNumber (float_of_int n)]} m).2.2
       | None => m
       end
  else m.
(** Whether all is well, what is wrong with each key, and how many do not work. *)
Record TestReport := { t_Success : bool; t_Results : list (string * option string); t_Failed : Z }.
Definition failed_keys (test : Provider → string → option string) (p : Provider) : nat :=
  length (filter (λ k, key_works test p k = false) (APIKeys p)).
Definition handleTestAllKeys (now : Time) (test : Provider → string → option string) (keyless : Provider → option string)
    (balance : string → string → option float64) (owner id : string) (c : Console) : option TestReport * Console :=
  match checkProviderWriteAccess owner id (registry c) with
  | None => (None, c)
  | Some p =>
      match APIKeys p with
      | [] =>
          if Routing.isFreePoolProvider p
          then let e := keyless p in
               (Some {| t_Success := bool_decide (e = None); t_Results := [("", e)]; t_Failed := if bool_decide (e = None) then 0 else 1 |}, c)
          else (Some {| t_Success := false; t_Results := []; t_Failed := 0 |}, c)
      | ks =>
          let n := Z.of_nat (failed_keys test p) in
          (Some {| t_Success := n =? 0; t_Results := (λ k, (a_ID k, test_key test p k)) <$> ks; t_Failed := n |},
           {| registry := foldl (test_one now test balance id p) (registry c) ks;
              statuses := Health.SetFailedKeyCount id n <$> statuses c; deletedFree := deletedFree c |})
      end
  end.

(** The models that are on after the file was read again. *)
Definition enabled_models (m : ProviderManager) : nat :=
  length (filter (λ md, md_Enabled md = true) (filter (λ p, p_Enabled p = true) (GetAllRaw presetProviders m) ≫= Models)).

(** ** What is shown can be sent back *)

Definition named (ks : list APIKeyConfig) : list string := filter (λ id, id ≠ "") (a_ID <$> ks).
Lemma keys_by_id_snoc ks k : keys_by_id (ks ++ [k]) = if bool_decide (a_ID k = "") then keys_by_id ks else <[a_ID k := a_Key k]> (keys_by_id ks).
Proof. unfold keys_by_id. by rewrite foldl_app. Qed.
Lemma keys_by_id_lookup ks k : NoDup (named ks) → k ∈ ks → a_ID k ≠ "" → keys_by_id ks !! a_ID k = Some (a_Key k).
Proof.
  induction ks as [|k' ks IH] using rev_ind; intros Hnd Hin Hne; [by apply elem_of_nil in Hin|].
  rewrite keys_by_id_snoc. unfold named in Hnd. rewrite fmap_app, filter_app in Hnd. apply NoDup_app in Hnd as (Hnd & Hdis & _).
  apply elem_of_app in Hin as [Hin|Hin%list_elem_of_singleton]; [|subst k'; rewrite bool_decide_eq_false_2 by done; apply lookup_insert_eq].
  case_bool_decide as Hk; [by apply IH|]. rewrite lookup_insert_ne; [by apply IH|]. intros E.
  apply (Hdis (a_ID k)); [apply list_elem_of_filter; split; [done|by apply list_elem_of_fmap_2]|].
  rewrite list_elem_of_filter. split; [done|]. rewrite <- E. apply list_elem_of_fmap_2. by left.
Qed.
Lemma real_key_own ks i k : NoDup (named ks) → ks !! i = Some k → real_key ks i k = Some (a_Key k).
Proof.
  intros Hnd Hi. unfold real_key. case_bool_decide; [by rewrite Hi|].
  apply keys_by_id_lookup; [done|by eapply list_elem_of_lookup_2|done].
Qed.
Definition masked_key (k : APIKeyConfig) : APIKeyConfig := with_key k (maskKeyValue (a_Key k)).
Lemma with_key_same k : with_key k (a_Key k) = k.
Proof. by destruct k. Qed.
Lemma real_key_masked ks i k : real_key ks i (masked_key k) = real_key ks i k.
Proof. done. Qed.

Lemma restore_masked_each ks : NoDup (named ks) → imap (restore_key ks) (masked_key <$> ks) = ks.
Proof.
  intros Hnd. apply list_eq. intros i. rewrite list_lookup_imap, list_lookup_fmap.
  destruct (ks !! i) as [k|] eqn:Hi; [|done]. cbn [fmap option_fmap option_map]. f_equal.
  unfold restore_key. rewrite real_key_masked, (real_key_own ks i k) by done.
  rewrite bool_decide_eq_true_2 by done. unfold masked_key. destruct k; done.
Qed.
Lemma restore_masked ks : NoDup (named ks) → restoreMaskedAPIKeys ks (masked_key <$> ks) = ks.
Proof. intros Hnd. destruct ks as [|k ks]; [done|]. exact (restore_masked_each (k :: ks) Hnd). Qed.
(** The list of keys as it is shown, sent back, is the list that was stored. *)
Theorem masked_keys_round_trip ks : NoDup (named ks) → restoreMaskedAPIKeys ks (masked_key <$> ks) = ks.
Proof. apply restore_masked. Qed.

(** An entry that names a stored key and carries a value that is not its mask takes the value. *)
Theorem new_key_is_taken ks us i k r : us !! i = Some k → real_key ks i k = Some r → a_Key k ≠ maskKeyValue r →
  restoreMaskedAPIKeys ks us !! i = Some k.
Proof.
  intros Hi Hr Hne. unfold restoreMaskedAPIKeys. destruct ks as [|k0 ks]; [done|]. rewrite list_lookup_imap, Hi. cbn [fmap option_fmap option_map].
  unfold restore_key. by rewrite Hr, bool_decide_eq_false_2.
Qed.

(** The update that sends back everything [handleGetProvider] shows. *)
Definition echo_key (k : APIKeyConfig) : key_patch := {|
  k_ID := Some (a_ID k); k_Alias := Some (Alias k); k_Key := Some (a_Key k); k_Quota := Some (a_Quota k); k_QuotaDaily := Some (QuotaDaily k);
  k_QuotaMonthly := Some (QuotaMonthly k); k_Used := Some (Used k); k_UsedDaily := Some (UsedDaily k); k_UsedMonthly := Some (UsedMonthly k);
  k_LastDailyReset := Some (LastDailyReset k); k_LastMonthlyReset := Some (LastMonthlyReset k); k_Access := Some (a_Access k);
  k_Enabled := Some (a_Enabled k); k_Priority := Some (a_Priority k); k_ExpiresAt := Some (a_ExpiresAt k);
  k_CreatedAt := Some (a_CreatedAt k); k_UpdatedAt := Some (a_UpdatedAt k) |}.
Definition echo_model (m : ModelDef) : model_patch := {| mp_ID := Some (md_ID m); mp_Name := Some (md_Name m); mp_Enabled := Some (md_Enabled m) |}.
Definition echo (shown : Provider) : patch := {|
  u_Name := Some (p_Name shown); u_Type := Some (p_Type shown); u_BaseURL := Some (BaseURL shown); u_APIKey := Some (APIKey shown);
  u_Enabled := Some (p_Enabled shown); u_Models := Some (echo_model <$> Models shown); u_Priority := Some (p_Priority shown);
  u_TokenLimit := Some (TokenLimit shown); u_Proxy := Some (p_Proxy shown); u_Owner := Some (Owner shown);
  u_Access := Some (AccessControl shown); u_APIKeys := Some (echo_key <$> APIKeys shown); u_Settings := Some (Settings shown) |}.

Lemma patch_echo_list {A B} (patch : B → A → A) zero (f : A → B) (g : A → A) (l : list A) :
  (∀ x, patch (f x) x = g x) → imap (λ i u, patch u (default zero (l !! i))) (f <$> l) = g <$> l.
Proof.
  intros Hf. apply list_eq. intros i. rewrite list_lookup_imap, !list_lookup_fmap. destruct (l !! i); [|done]. cbn. by rewrite Hf.
Qed.
Lemma echo_update id p : p_ID p = id → 
  merged_update id p (echo (Safe p)) = set_keys (masked_key <$> APIKeys p) p.
Proof.
  intros Hid. unfold merged_update, patch_provider, drop_masks, echo, Safe, with_secrets; cbn -[patch_list mask mask_proxy maskKeyValue].
  assert (Hm : patch_list patch_model zero_model (echo_model <$> Models p) (Models p) = Models p).
  { unfold patch_list. erewrite (patch_echo_list patch_model zero_model echo_model (λ m, m)); [apply list_fmap_id|]. by intros []. }
  assert (Hk : patch_list patch_key zero_key (echo_key <$> ((λ k, with_key k (mask "..." "***" (a_Key k))) <$> APIKeys p)) (APIKeys p) = masked_key <$> APIKeys p).
  { unfold patch_list. rewrite <- list_fmap_compose. apply (patch_echo_list patch_key zero_key _ masked_key). by intros []. }
  rewrite Hm, Hk. rewrite (bool_decide_eq_true_2 (Some _ = Some (maskKeyValue (APIKey p)))) by done. cbn [default].
  assert (Hp : default (p_Proxy p) (if bool_decide (Some (mask_proxy (p_Proxy p)) = Some "vmess://***")
                  || bool_decide (Some (mask_proxy (p_Proxy p)) = Some "vless://***") then None else Some (mask_proxy (p_Proxy p))) = p_Proxy p).
  { unfold mask_proxy. destruct (has_prefix "vmess://" (p_Proxy p)); [done|]. destruct (has_prefix "vless://" (p_Proxy p)); [done|].
    by destruct (_ || _). }
  rewrite Hp. unfold with_identity, kept_type; cbn. unfold set_keys, with_secrets. subst id. f_equal.
  destruct (negb _ && negb _ && _); done.
Qed.
Lemma stored_after_add now p r c id : p_ID p = id →
  providers (registry (add_and_check now p r c).2) !! id =
  Some (with_stamps p (match providers (registry c) !! id with Some e => p_CreatedAt e | None => fmt_rfc3339 loc now end) (fmt_rfc3339 loc now)).
Proof.
  intros <-. unfold add_and_check, Add. cbn. rewrite lookup_insert_eq. f_equal.
Qed.
Lemma others_after_add now p r c id : id ≠ p_ID p →
  providers (registry (add_and_check now p r c).2) !! id = providers (registry c) !! id.
Proof. intros Hne. unfold add_and_check, Add. cbn. by rewrite lookup_insert_ne. Qed.

(** Saving a form that was not edited changes nothing but the stamp of the change: no key is lost to its mask. *)
Theorem unedited_form_keeps_provider now owner c p :
  providers (registry c) !! p_ID p = Some p → (owner = "" ∨ Owner p = owner) → NoDup (named (APIKeys p)) → APIKeys p ≠ [] →
  validateProviderBaseURL (BaseURL p) = None →
  providers (registry (handleUpdateProvider now owner (p_ID p) (Ok (echo (Safe p))) c).2) !! p_ID p =
  Some (with_stamps p (p_CreatedAt p) (fmt_rfc3339 loc now)).
Proof.
  intros Hp Ho Hnd Hne Hv. unfold handleUpdateProvider, checkProviderWriteAccess, GetRaw. rewrite Hp.
  assert (Hacc : (if bool_decide (owner = "") then Some p else if bool_decide (Owner p = owner) then Some p else None) = Some p).
  { case_bool_decide; [done|]. destruct Ho as [|Ho]; [done|]. by rewrite bool_decide_eq_true_2. }
  rewrite Hacc, echo_update by done. cbn [p_Proxy set_keys with_secrets BaseURL]. rewrite bool_decide_eq_true_2 by done.
  change (BaseURL (set_keys (masked_key <$> APIKeys p) p)) with (BaseURL p). rewrite Hv.
  assert (Ham : auto_migrate (set_keys (masked_key <$> APIKeys p) p) = set_keys (masked_key <$> APIKeys p) p).
  { unfold auto_migrate. rewrite (bool_decide_eq_false_2 (APIKeys _ = [])); [by rewrite andb_false_r|]. cbn. by destruct (APIKeys p). }
  rewrite Ham. cbn [APIKeys set_keys with_secrets]. rewrite restore_masked by done.
  rewrite stored_after_add by done. rewrite Hp. by destruct p.
Qed.

(** ** Who may change what *)

(** A consumer changes, deletes and tests only their own providers. *)
Theorem others_are_refused now owner id body test keyless balance c p :
  owner ≠ "" → get id (registry c) = Some p → Owner p ≠ owner →
  (∃ why, handleUpdateProvider now owner id body c = (Refused 404 why, c)) ∧
  (∃ why, handleDeleteProvider owner id c = (Refused 404 why, c)) ∧
  handleTestAllKeys now test keyless balance owner id c = (None, c).
Proof.
  intros Ho Hp Hne. assert (Hacc : checkProviderWriteAccess owner id (registry c) = None).
  { unfold checkProviderWriteAccess. rewrite Hp. by rewrite !bool_decide_eq_false_2. }
  unfold handleUpdateProvider, handleDeleteProvider, handleTestAllKeys. rewrite Hacc. eauto.
Qed.

Lemma restored_owner ks p : Owner (set_keys ks p) = Owner p ∧ p_ID (set_keys ks p) = p_ID p ∧ BaseURL (set_keys ks p) = BaseURL p.
Proof. done. Qed.
Lemma migrated_fields p : Owner (auto_migrate p) = Owner p ∧ p_ID (auto_migrate p) = p_ID p ∧ BaseURL (auto_migrate p) = BaseURL p ∧
  p_Proxy (auto_migrate p) = p_Proxy p ∧ APIKey (auto_migrate p) = APIKey p.
Proof. unfold auto_migrate. by destruct (_ && _ && _). Qed.

(** What an update stores: the id of the request, the owner there was, and a base URL that was checked; or nothing changes. *)
Lemma update_outcome now owner id body c :
  (handleUpdateProvider now owner id body c).2 = c ∨
  ∃ existing p r, get id (registry c) = Some existing ∧ p_ID p = id ∧ Owner p = Owner existing ∧
    validateProviderBaseURL (BaseURL p) = None ∧ (handleUpdateProvider now owner id body c).2 = (add_and_check now p r c).2.
Proof.
  unfold handleUpdateProvider. destruct (checkProviderWriteAccess owner id (registry c)) as [existing|] eqn:Ha; [|by left].
  assert (Hg : get id (registry c) = Some existing).
  { unfold checkProviderWriteAccess in Ha. destruct (get id (registry c)) as [q|]; [|done].
    destruct (bool_decide _); [|destruct (bool_decide _); [|done]]; congruence. }
  destruct body as [u|e]; [|by left]. set (p := merged_update id existing u).
  destruct (if bool_decide _ then None else check_proxy _) as [e|]; [by left|].
  destruct (validateProviderBaseURL (BaseURL p)) as [e|] eqn:Hv; [by left|]. right.
  destruct (migrated_fields p) as (F1 & F2 & F3 & _).
  set (q := set_keys (restoreMaskedAPIKeys (APIKeys existing) (APIKeys (auto_migrate p))) (auto_migrate p)).
  exists existing, q, (bool_decide (id = "sider") && siderKeyChanged existing q). split; [done|]. split; [exact F2|]. split; [exact F1|]. split; [|reflexivity]. by cbn; rewrite F3.
Qed.

(** No update moves a provider to another owner or touches another provider. *)
Theorem update_keeps_owner now owner id body c p p' :
  providers (registry c) !! id = Some p →
  providers (registry (handleUpdateProvider now owner id body c).2) !! id = Some p' →
  Owner p' = Owner p ∧ ∀ j, j ≠ id → providers (registry (handleUpdateProvider now owner id body c).2) !! j = providers (registry c) !! j.
Proof.
  intros Hp. destruct (update_outcome now owner id body c) as [->|(e & q & r & Hg & Hid & Ho & _ & ->)].
  { intros Hp'. split; [congruence|done]. }
  unfold GetRaw in Hg. rewrite Hp in Hg. injection Hg as ->. rewrite stored_after_add by done. intros [= <-]. split; [exact Ho|].
  intros j Hj. apply others_after_add. congruence.
Qed.

(** ** Creating over a provider that exists *)

(** A consumer who sends a creation with the id of a provider that is not theirs, and no keys, becomes the owner of a provider with the
    stored keys and a base URL of their choice. *)
Theorem creation_takes_over now owner c e url models :
  providers (registry c) !! p_ID e = Some e →
  p_ID e ≠ "" → (String.length (p_ID e) ≤ 64)%nat → isValidID (p_ID e) = true →
  (length (GetAll presetProviders (registry c)).1 < 100)%nat → check_proxy (p_Proxy e) = None → validateProviderBaseURL url = None →
  APIKeys e ≠ [] →
  let body := {| c_ID := Some (p_ID e); c_Models := models;
                 c_Fields := Some {| u_Name := None; u_Type := None; u_BaseURL := Some url; u_APIKey := None; u_Enabled := Some true; u_Models := None;
                   u_Priority := None; u_TokenLimit := None; u_Proxy := None; u_Owner := None; u_Access := None; u_APIKeys := None; u_Settings := None |} |} in
  ∃ p, providers (registry (handleCreateProvider now owner (Some body) c).2) !! p_ID e = Some p ∧
    Owner p = owner ∧ BaseURL p = url ∧ APIKeys p = APIKeys e ∧ APIKey p = APIKey e.
Proof.
  intros He Hne Hlen Hid Hall Hpr Hu Hks body. unfold handleCreateProvider, body; cbn [c_ID c_Models c_Fields default from_option id]; cbv zeta.
  rewrite (bool_decide_eq_false_2 (p_ID e = "")) by done. rewrite (proj2 (Nat.ltb_ge 64 (String.length (p_ID e)))) by done.
  rewrite Hid. cbn [negb orb].
  destruct (GetAll presetProviders (registry c)) as [all m] eqn:EG. cbn [fst] in Hall.
  rewrite (proj2 (Nat.leb_gt 100 _)) by lia.
  assert (Hm : providers m = providers (registry c)). { unfold GetAll in EG. by destruct (cacheValid _); simplify_eq. }
  assert (Hg : get (p_ID e) m = Some e) by (unfold GetRaw; by rewrite Hm, He).
  cbn [patch_provider p_Name p_Type BaseURL with_model_list with_fields with_identity zero_provider default from_option id u_Name u_Type u_BaseURL String.length Nat.ltb Nat.leb].
  rewrite Hu, !Hg. set (q := merge_existing e _).
  assert (Eq : auto_migrate q = q).
  { unfold auto_migrate. rewrite (bool_decide_eq_false_2 (APIKeys q = [])) by done. by rewrite andb_false_r. }
  rewrite Eq. replace (p_Proxy q) with (p_Proxy e) by done. rewrite Hpr. rewrite stored_after_add by done.
  eexists. split; [reflexivity|]. done.
Qed.

(** ** What is stored has been checked *)

Inductive cevent :=
  | ECreate (now : Time) (owner : string) (b : option creation) | EUpdate (now : Time) (owner id : string) (b : res patch)
  | EDelete (owner id : string).
Definition console_step (c : Console) (e : cevent) : Console :=
  match e with
  | ECreate now owner b => (handleCreateProvider now owner b c).2
  | EUpdate now owner id b => (handleUpdateProvider now owner id b c).2
  | EDelete owner id => (handleDeleteProvider owner id c).2
  end.
Definition stored_ok (ps : gmap string Provider) : Prop := map_Forall (λ id p, p_ID p = id ∧ validateProviderBaseURL (BaseURL p) = None) ps.

Lemma console_add_ok now p r c : stored_ok (providers (registry c)) → validateProviderBaseURL (BaseURL p) = None →
  stored_ok (providers (registry (add_and_check now p r c).2)).
Proof. intros Hs Hv. unfold add_and_check, Add. cbn. apply map_Forall_insert_2; [by split|done]. Qed.
Lemma console_create_ok now owner b c : stored_ok (providers (registry c)) → stored_ok (providers (registry (handleCreateProvider now owner b c).2)).
Proof.
  intros Hs. unfold handleCreateProvider. destruct b as [b|]; [|done]. cbv zeta.
  destruct (bool_decide _); [done|]. destruct (_ || _); [done|].
  destruct (GetAll presetProviders (registry c)) as [all m] eqn:EG.
  assert (Hm : providers m = providers (registry c)). { unfold GetAll in EG. by destruct (cacheValid _); simplify_eq. }
  destruct (100 <=? length all)%nat; [cbn; by rewrite Hm|]. destruct (c_Fields b) as [u|]; [|cbn; by rewrite Hm].
  destruct (128 <? _)%nat; [cbn; by rewrite Hm|]. destruct (64 <? _)%nat; [cbn; by rewrite Hm|].
  set (p := with_identity _ _ _ _). destruct (validateProviderBaseURL (BaseURL p)) as [w|] eqn:Hv; [cbn; by rewrite Hm|].
  match goal with |- context [add_and_check now ?q false ?d] => assert (Hq : BaseURL q = BaseURL p) end.
  { destruct (get _ m); unfold with_model_list; cbn [BaseURL with_fields]; rewrite (proj1 (proj2 (proj2 (migrated_fields _)))); done. }
  destruct (check_proxy _); [cbn; by rewrite Hm|]. apply console_add_ok; [cbn; by rewrite Hm|]. by rewrite Hq.
Qed.
Lemma delete_ok owner id c : (∀ p, p ∈ presetProviders → validateProviderBaseURL (BaseURL p) = None) →
  stored_ok (providers (registry c)) → stored_ok (providers (registry (handleDeleteProvider owner id c).2)).
Proof.
  intros Hpre Hs. unfold handleDeleteProvider. destruct (checkProviderWriteAccess _ _ _); [|done]. unfold Delete, delete_locked.
  destruct (providers (registry c) !! id); [cbn; by apply map_Forall_delete|].
  destruct (find_key p_ID id presetProviders) as [q|] eqn:Eq; [|done]. cbn. apply map_Forall_insert_2; [|done]. split; [done|].
  exact (Hpre q (proj1 (find_key_Some _ _ _ _ Eq))).
Qed.

(** Whatever the console is sent, by whomever, no provider points to a private address. *)
Theorem stored_urls_are_checked c es : (∀ p, p ∈ presetProviders → validateProviderBaseURL (BaseURL p) = None) →
  stored_ok (providers (registry c)) → stored_ok (providers (registry (foldl console_step c es))).
Proof.
  intros Hpre. revert c. induction es as [|e es IH]; intros c Hs; [done|]. cbn [foldl]. apply IH.
  destruct e as [now owner b|now owner id b|owner id]; cbn [console_step]; [by apply console_create_ok| |by apply delete_ok].
  destruct (update_outcome now owner id b c) as [->|(x & p & r & _ & _ & _ & Hv & ->)]; [done|]. by apply console_add_ok.
Qed.

(** ** Deleted free providers stay deleted *)

Lemma has_prefix_app s t : has_prefix s (s +:+ t) = true.
Proof. unfold has_prefix. by rewrite strip_prefix_app. Qed.
Lemma contains_prefix s t : has_prefix s t = true → str_contains s t = true.
Proof. intros Hp. destruct t as [|x t]; cbn [str_contains]; by rewrite Hp. Qed.
Lemma contains_middle a s b : str_contains s (a +:+ s +:+ b) = true.
Proof.
  induction a as [|x a IH]; [exact (contains_prefix s (s +:+ b) (has_prefix_app s b))|].
  change (String x a +:+ s +:+ b) with (String x (a +:+ s +:+ b)). cbn [str_contains]. rewrite IH. apply orb_true_r.
Qed.
Theorem deletion_is_noted id deleted : has_prefix "free-" id = true → FreePool.was_deleted (note_deleted id deleted) id = true.
Proof.
  intros Hf. unfold note_deleted. rewrite Hf. destruct (FreePool.was_deleted deleted id) eqn:Hw; cbn [negb andb]; [done|].
  unfold FreePool.was_deleted. case_bool_decide.
  - apply contains_prefix. pose proof (has_prefix_app ("," +:+ id +:+ ",") "") as Hp. by rewrite append_nil_r in Hp.
  - pose proof (contains_middle ("," +:+ deleted) ("," +:+ id +:+ ",") "") as Hc. rewrite append_nil_r in Hc.
    transitivity (str_contains ("," +:+ id +:+ ",") (("," +:+ deleted) +:+ "," +:+ id +:+ ",")); [|exact Hc]. f_equal. rewrite !append_assoc. reflexivity.
Qed.

(** ** The models of a new provider *)

Theorem latest_models_only ms m : (3 < length ms)%nat → m ∈ enableLatestModels ms → md_Enabled m = true → md_ID m ∈ latest_ids ms.
Proof.
  intros Hl Hm Hen. unfold enableLatestModels in Hm. rewrite (proj2 (Nat.leb_gt _ _)) in Hm by done.
  apply list_elem_of_fmap in Hm as (x & -> & _). case_bool_decide; [done|]. by cbn in Hen.
Qed.

End console.

(** ** Examples *)

Module ConsoleDemo.
(** Only api.example and evil.example are public. *)
Definition outside : Outside := {|
  parse_url u := if has_prefix "https://" u then Some ("https", String.substring 8 100 u) else if has_prefix "http://" u then Some ("http", String.substring 7 100 u) else None;
  isPrivateHost h := negb (bool_decide (h = "api.example") || bool_decide (h = "evil.example"));
  ParseVMessLink _ := Some "bad link"; ParseVLESSLink _ := Some "bad link" |}.
Definition key (id v : string) : APIKeyConfig := KeyPool.demo_key id v 1 true.
Definition target : Provider := with_identity "p1" "" "openai_compatible"
  (patch_provider {| u_Name := Some "One"; u_Type := None; u_BaseURL := Some "https://api.example"; u_APIKey := None; u_Enabled := Some true;
     u_Models := None; u_Priority := None; u_TokenLimit := None; u_Proxy := None; u_Owner := None; u_Access := None; u_APIKeys := None; u_Settings := None |}
     (set_keys [key "k1" "sk-0123456789"; key "k2" "short"] zero_provider)).
Definition console : Console := {|
  registry := {| providers := {["p1" := target]}; cacheValid := false; cachedAll := [] |}; statuses := None; deletedFree := "" |}.
Definition blank : patch := {| u_Name := None; u_Type := None; u_BaseURL := None; u_APIKey := None; u_Enabled := None; u_Models := None;
  u_Priority := None; u_TokenLimit := None; u_Proxy := None; u_Owner := None; u_Access := None; u_APIKeys := None; u_Settings := None |}.
Definition blank_key : key_patch := echo_key zero_key.
Definition create owner b c := @handleCreateProvider Identity.IdentityDemo.no_encryptor outside Health.HealthDemo.none_work UTC [] "" 0 owner b c.
Definition update owner id b c := @handleUpdateProvider Identity.IdentityDemo.no_encryptor outside Health.HealthDemo.none_work UTC [] "" 0 owner id b c.
(** An object that names only the id and the alias of a key. *)
Definition rename (id alias : string) : key_patch := {|
  k_ID := Some id; k_Alias := Some alias; k_Key := None; k_Quota := None; k_QuotaDaily := None; k_QuotaMonthly := None; k_Used := None;
  k_UsedDaily := None; k_UsedMonthly := None; k_LastDailyReset := None; k_LastMonthlyReset := None; k_Access := None; k_Enabled := None;
  k_Priority := None; k_ExpiresAt := None; k_CreatedAt := None; k_UpdatedAt := None |}.
End ConsoleDemo.
Import ConsoleDemo.

(** A key sent without its value takes the value of the stored key at its place in the list, not of the one with its id. *)
Example key_by_place :
  (λ p, (λ k, (a_ID k, a_Key k)) <$> APIKeys p) <$>
    providers (registry (update "" "p1" (Ok {| u_Name := None; u_Type := None; u_BaseURL := None; u_APIKey := None; u_Enabled := None; u_Models := None;
      u_Priority := None; u_TokenLimit := None; u_Proxy := None; u_Owner := None; u_Access := None; u_APIKeys := Some [rename "k2" "second"];
      u_Settings := None |}) console).2) !! "p1" = Some [("k2", "sk-0123456789")].
Proof. by vm_compute. Qed.
(** The newest of the models stay off when they come off, though they are the ones to be enabled. *)
Example newest_not_enabled :
  let m id on := patch_model {| mp_ID := Some id; mp_Name := None; mp_Enabled := Some on |} zero_model in
  (λ x, (md_ID x, md_Enabled x)) <$> enableLatestModels [m "m-1" true; m "m-2" true; m "m-4" false; m "m-3" true; m "m-5-preview" true] =
  [("m-1", false); ("m-2", true); ("m-4", false); ("m-3", true); ("m-5-preview", false)].
Proof. by vm_compute. Qed.
Example creations_refused :
  (create "u" (Some {| c_ID := Some "a b"; c_Models := []; c_Fields := Some blank |}) console).1 =
    Refused 400 "provider ID must be 1-64 chars, alphanumeric/dash/underscore only" ∧
  (create "u" (Some {| c_ID := Some "n"; c_Models := []; c_Fields := Some (echo (with_fields target "" "vmess://x" [] false [])) |}) console).1 =
    Refused 400 "bad link".
Proof. by vm_compute. Qed.

Lemma creation_takes_over_witness :
  let body := {| c_ID := Some "p1"; c_Models := [];
    c_Fields := Some {| u_Name := None; u_Type := None; u_BaseURL := Some "https://evil.example"; u_APIKey := None; u_Enabled := Some true; u_Models := None;
      u_Priority := None; u_TokenLimit := None; u_Proxy := None; u_Owner := None; u_Access := None; u_APIKeys := None; u_Settings := None |} |} in
  ∃ p, providers (registry (create "mallory" (Some body) console).2) !! "p1" = Some p ∧
    Owner p = "mallory" ∧ BaseURL p = "https://evil.example" ∧ APIKeys p = APIKeys target ∧ APIKey p = "".
Proof.
  refine (@creation_takes_over Identity.IdentityDemo.no_encryptor outside Health.HealthDemo.none_work UTC [] "" 0 "mallory" console target
    "https://evil.example" [] _ _ _ _ _ _ _ _); by vm_compute; try lia.
Defined.
Lemma unedited_form_keeps_provider_witness :
  providers (registry (update "" "p1" (Ok (echo (Safe target))) console).2) !! "p1" = Some (with_stamps target "" (fmt_rfc3339 UTC 0)).
Proof.
  refine (@unedited_form_keeps_provider Identity.IdentityDemo.no_encryptor outside Health.HealthDemo.none_work UTC [] "" 0 "" console target
    _ _ _ _ _); [by vm_compute|by left| |by vm_compute|by vm_compute].
  change (NoDup ["k1"; "k2"]). apply NoDup_cons. split; [set_solver|apply NoDup_singleton].
Defined.
Lemma others_are_refused_witness :
  ∃ why, update "mallory" "p1" (Ok blank) console = (Refused 404 why, console).
Proof.
  refine (proj1 (@others_are_refused Identity.IdentityDemo.no_encryptor outside Health.HealthDemo.none_work UTC [] "" 0 "mallory" "p1" (Ok blank)
    (λ _ _, None) (λ _, None) (λ _ _, None) console target _ _ _)); by vm_compute.
Defined.
Lemma stored_urls_are_checked_witness :
  @stored_ok outside (providers (registry (foldl
    (@console_step Identity.IdentityDemo.no_encryptor outside Health.HealthDemo.none_work UTC [] "") console
    [EUpdate 0 "" "p1" (Ok blank); EDelete "" "p1"]))).
Proof.
  refine (@stored_urls_are_checked Identity.IdentityDemo.no_encryptor outside Health.HealthDemo.none_work UTC [] "" console _ _ _).
  - intros p Hp. by apply elem_of_nil in Hp.
  - apply map_Forall_singleton. by vm_compute.
Defined.
